(* ===== verification/_CoqProject ===== *)
-Q . S2P
Prelude.v
Netip.v
IpamNet.v
IpamNode.v
IpamTree.v
IpamOps.v
GoNet.v
Remap.v
NetworkLabels.v
IpamCore.v
IpamSpec.v
IpamSafe.v
IpamTime.v
IpamServer.v
IpamServerSafe.v
IpamServerSpec.v
IdManager.v
Resources.v
GoStrings.v
ShadowPod.v
ShadowPodQuota.v
ShadowPodAlign.v
ShadowPodProps.v
Firewall.v
FirewallRules.v
FirewallWebhook.v
FirewallSem.v
FirewallProps.v
FirewallReconcile.v
FirewallConverge.v
FirewallConvergeProps.v
Kube.v
Replicator.v
ReplicatorProps.v
Conncheck.v
Route.v
RouteConverge.v
RouteProps.v
VkForge.v
VkPod.v
VkPodProps.v
KubeClient.v
Remapping.v
NetConfig.v
RemapSem.v
RemappingProps.v
NetConfigProps.v
NetworkCtrl.v
NetworkLife.v
NetworkCtrlProps.v
PodWebhook.v
NsMap.v
NsMapProps.v
NsOff.v
NsOffProps.v
AuthCrypto.v
Tenant.v
Slice.v
AuthProps.v
AuthExchange.v
ForeignCluster.v
ForeignClusterProps.v
EndpointSlice.v
ShadowEpsProps.v
FabricIpam.v
InternalNet.v
PodRoutes.v
PodRoutesProps.v
NodeRoutes.v
NodeRoutesProps.v
FabricCtl.v
FabricCtlProps.v
VkMachinery.v
VirtualNode.v
VirtualNodeProps.v
VirtualNodeLife.v
OffloadCtl.v
IpMapping.v
VkReflect.v
VkEngine.v
