(* ===== verification/Prelude.v ===== *)
(** * A verification of parts of Liqo

    Liqo joins Kubernetes clusters: pods offloaded to a remote cluster run there
    as shadow pods, and the networks of the clusters are connected through
    gateways that remap overlapping addresses.  This development models, in
    Rocq, the parts of its Go code that decide something: which network or address
    is handed out, whether a pod fits a quota, how an address is remapped, which
    firewall rules and routes are installed, which identity is signed, which
    namespaces, endpoints and objects appear in which cluster.

    ** Parts of the program and the files that model them

    - The IPAM daemon (src/pkg/ipam) owns the address space.  Its core
      (src/pkg/ipam/core) is a binary tree of prefixes per pool; gRPC handlers
      acquire and release networks and addresses under one mutex; at start-up the
      state is rebuilt from the Network and IP resources, and a periodic turn
      reconciles the two.
        [Netip]: net/netip as far as used; [GoNet]: what its parsers return;
        [IpamNet]: net.go, the splitting of a prefix through its bytes and text;
        [IpamNode]: node.go, one definition per method; [IpamCore]: ipam.go;
        [IpamTree], [IpamOps]: invariant of the tree and behaviour of each operation;
        [IpamSpec], [IpamSafe], [IpamTime]: the abstract machine of counters and
        address lists, the refinement, reachable states, grace periods;
        [IpamServer]: handlers, start-up, reconciliation; [IpamServerSafe],
        [IpamServerSpec]: their properties.
    - Address remapping (src/pkg/utils/ipam, src/pkg/utils/cidr): [GoNet] (package
      net as far as used) and [Remap].
    - Network resources (src/pkg/utils/ipam/networks.go): [NetworkLabels].
    - Identifiers of tunnels and marks (src/pkg/liqo-controller-manager/networking/
      internal-network/id): [IdManager].
    - The shadow pod webhook (src/pkg/webhooks/shadowpod) charges pods to the quota
      of their creator: [Resources] (quantities, an interface with laws),
      [GoStrings] (label escaping), [ShadowPod] (the code), [ShadowPodQuota] and
      [ShadowPodAlign] (accounting, requests, refresh), [ShadowPodProps].
    - Firewall configurations (src/apis/networking/v1beta1/firewall,
      src/pkg/webhooks/firewallconfiguration, src/pkg/firewall): [Firewall] (data,
      parsers, webhooks), [FirewallRules] (compilation to nftables expressions,
      comparison with the kernel, conntrack), [FirewallSem] (what expressions
      accept), [FirewallWebhook] and [FirewallProps]; [FirewallReconcile] is the
      reconciler over a netlink connection, [FirewallConverge] and
      [FirewallConvergeProps] the state it leads to.
    - Route configurations (src/pkg/route, src/pkg/webhooks/routeconfiguration):
      [Route], [RouteConverge], [RouteProps].
    - The connection checker (src/pkg/conncheck, src/pkg/gateway/connection):
      [Conncheck], a machine whose steps interleave receiver, observer and callers.
    - Replication of resources between clusters (src/internal/crdReplicator):
      [Replicator], [ReplicatorProps].
    - The virtual kubelet (src/pkg/virtualKubelet): [VkForge] (forging of pods and
      of metadata), [VkPod] (the handler of pods), [VkPodProps].
    - Clients of the API server: [Kube] (objects, and the server as a class),
      [KubeClient] (src/pkg/utils/resource; create-or-update, and the client of a
      server without webhooks).
    - Controllers of the networking module (src/pkg/liqo-controller-manager/networking):
      [Remapping] (remapping/), [NetConfig] (configuration/), [NetworkCtrl]
      (network-controller/, ip-controller/); [RemapSem] (what the forged rules do to
      packets, and a client with the firewall webhooks in front), [NetworkLife] (the network controller together with the daemon);
      [RemappingProps], [NetConfigProps], [NetworkCtrlProps].
    - Placement of pods (src/pkg/webhooks/pod): [PodWebhook].
    - Offloading of namespaces (src/pkg/liqo-controller-manager/offloading):
      [NsMap] (namespacemap-controller/), [NsOff] (namespaceoffloading-controller/,
      its webhook, src/pkg/utils/syncset), [NsMapProps], [NsOffProps].
    - Authentication (src/pkg/liqo-controller-manager/authentication,
      src/pkg/tenantNamespace): [AuthCrypto] (nonces, certificate requests, renewal;
      the cryptography is a class with laws), [Tenant] (namespaces,
      webhooks and controller of tenants), [Slice] (ResourceSlices on both sides, quotas, virtual
      nodes), [AuthProps]; [AuthExchange] (keys of the cluster, nonces, identities,
      kubeconfigs and renewals).
    - The ForeignCluster resource, the summary of a peering
      (src/pkg/liqo-controller-manager/core/foreigncluster-controller,
      src/pkg/utils/foreigncluster): [ForeignCluster] (status, API-server checker,
      enqueuer), [ForeignClusterProps].
    - Endpoint slices, reflected by the virtual kubelet (src/pkg/virtualKubelet/
      reflection/exposition, src/pkg/utils/directconnection): [EndpointSlice], and
      written out by the provider (src/pkg/liqo-controller-manager/offloading/
      shadowendpointslice-controller), in the same file; [ShadowEpsProps] on both.
    - The internal network, between the nodes and the gateways of a cluster
      (src/pkg/liqo-controller-manager/networking/internal-network): [FabricIpam]
      (fabricipam/), [InternalNet] (its resources, labels and world), [PodRoutes] and
      [NodeRoutes] (route/), [FabricCtl] (internalfabric-controller/);
      [PodRoutesProps], [NodeRoutesProps], [FabricCtlProps].
    - Virtual nodes (src/pkg/liqo-controller-manager/offloading/virtualnode-controller,
      src/pkg/vkMachinery, src/pkg/utils/maps, src/pkg/utils/args): [VkMachinery] (the
      deployment of a virtual kubelet), [VirtualNode] (reconciliation, drain, deletion
      routine); [VirtualNodeProps] (conditions, templates, arguments),
      [VirtualNodeLife] (the deletion against a server).
    - Offloaded pods where they run, failed nodes and the label of pods whose node is
      not ready (src/pkg/liqo-controller-manager/offloading/{shadowpod,nodefailure,
      podstatus}-controller): [OffloadCtl].
    - Addresses that other clusters need (src/pkg/liqo-controller-manager/ipmapping):
      [IpMapping].
    - Config maps, secrets, services and ingresses, reflected by the virtual kubelet
      (src/pkg/virtualKubelet/reflection/{configuration,exposition}): [VkReflect].
    - The manager that starts, stops and feeds the reflectors of the virtual kubelet
      (src/pkg/virtualKubelet/reflection/{manager,generic,namespacemap}): [VkEngine], a
      machine whose steps are the events of the NamespaceMap, the routines of the
      namespaces and the workers.

    ** How the parts interact

    Forged firewall configurations ([Remapping], [NetConfig]) pass the webhooks of
    [Firewall] before they reach the server ([RemapSem]), are compiled by
    [FirewallRules] and applied by [FirewallReconcile].  The network controller calls
    the daemon of [IpamServer]; the virtual kubelet ([VkPod]) remaps addresses with
    [Remap] and creates the shadow pods that [ShadowPod] charges; the quotas come
    from [Slice], the identities from [Tenant]; [NsOff] writes the NamespaceMaps
    that [Replicator] carries to the cluster where [NsMap] reads them, as it does the
    Renews between the two sides of [AuthExchange].  [EndpointSlice]
    forges with [VkForge]; the provider remaps with [Remap] and takes the readiness
    of endpoints from the conditions that [ForeignCluster] writes.  The addresses of
    [FabricIpam] and the identifiers of [IdManager] go into the resources from which
    [PodRoutes], [NodeRoutes] and [FabricCtl] make the configurations that [Route] and
    [FirewallReconcile] apply.  The virtual nodes that [Slice] makes are turned by
    [VirtualNode] into virtual kubelets ([VkPod], [EndpointSlice], [VkReflect]) and
    NamespaceMaps; the phases that [NsMap] writes there tell [VkEngine] which namespaces
    to reflect.  The shadow pods that [VkPod] forges are what [OffloadCtl] makes pods
    of; their volumes name the config maps that [VkReflect] writes.  The IP resources of
    [IpMapping] are those that [Remapping] and [NetworkCtrl] read.

    ** How the code is translated

    A Go call returns, panics or, where the model runs a recursion on fuel, runs
    out of it ([outcome]).  [(value, error)] is [result].  Code that reads the
    clock is written in [M], which numbers the readings.  State is passed
    explicitly: a method under a mutex is a function from states to results and
    states.  Machine integers keep their width where the code can overflow.  Maps
    are gmaps; where a loop over a map could depend on the order, the order is a
    parameter.  Struct fields that no modelled code reads are left out, log output
    and events too.  Kubernetes servers and caches, decoders, nftables, netlink,
    cryptography, the host's byte order and resource quantities are parameters, with
    the facts relied upon as hypotheses or laws of a class, and a concrete instance
    for the examples.

    ** What the theorems show

    - IPAM core: every operation returns and simulates the abstract machine; an
      exclusive network overlaps no other acquired one in any reachable state;
      acquisition and release succeed exactly under the stated conditions and
      change one counter; allocation by size is complete; addresses are fresh.
    - IPAM daemon: handlers and reconciliation turns over IPv4 input never panic
      and keep the core consistent; what a network request and the start-up
      establish; after a turn the networks of the cluster are held, and one that the
      cluster does not list and has none below it is released once its grace period
      is over.
    - Remapping: network bits are replaced and host bits kept; it round-trips; the
      first network that contains an address decides; the compiled rules translate
      packets accordingly.
    - Identifiers: names hold distinct identifiers; allocation fails only when the
      range is exhausted.
    - Shadow pods: in reachable caches the quota in use is the demand of the
      running pods, as long as each deletion comes once; an admitted pod fits; what a pod requests; what a refresh, an
      update and the recorded creator guarantee.
    - Firewall: the webhook admits exactly the well-formed configurations; compiled
      matches and the conntrack reading agree on plain matches; eviction is exact;
      generated names are valid; after a reconciliation the attributes of the tables
      and chains and the expressions of the rules in the kernel are the configured
      ones, in an order and with exceptions that the theorems name, and a second
      reconciliation does nothing.
    - Routes: after a reconciliation each configured rule has one in the kernel that
      carries what it asks for (one that was there before may select more), and none
      is left over; deletion leaves nothing.
    - Connection checker: in every interleaving the published state is consistent.
    - Replication: the remote spec follows the local one, the status goes the way
      the ownership says, nothing of another cluster is touched, finalizers wait.
    - Virtual kubelet: the handler returns, writes only what the objects it has seen
      justify, and copies back the status with the address translated.
    - Networking controllers: packets that run through the forged chains reach the
      address they stand for, in both directions; the configurations are admitted;
      finalizers wait for the daemon; the status names the networks of the resources.
    - Namespaces: foreign namespaces are untouched; the wanted ones are enforced;
      the selected clusters, and only they, are asked for; the status summarises.
    - Authentication: no identity is signed without a verified key; consumers are
      bounded by what was granted; the handshake completes, from the nonce to the
      tenant; certificates are renewed at two thirds of their life, and a new one
      reaches the kubeconfig of the consumer.
    - ForeignClusters: the modules, conditions and role are what the listed objects
      call for, whatever they were before (one condition apart); transition times change with the conditions; a running checker is
      backed by an object with the finalizer.
    - Endpoint slices: the endpoints that run elsewhere, and only they, arrive in
      the remote cluster under addresses by which it reaches them; while the peering
      is down none is ready; the annotation on direct connections round-trips.
    - Internal network: the allocator returns, with a fresh address while one is
      left; a running pod has one route, through its node; marks of nodes are
      distinct, on both sides of the return path; with what the controller has left on
      the server, a connection is answered through the gateway it came by, and through
      the others when that one is down.
    - Virtual nodes: the finalizer goes last; a virtual node that is deleted goes away;
      the entries of its status agree and only move along allowed changes; the labels
      of an object follow its template; maps in arguments are read back.
    - Offloaded pods: a shadow pod as forged becomes a pod of the provider, and every
      pod made or changed is justified by one; the pods of a failed node are cleared
      exactly; the label on unavailability follows the node.
    - IP mappings: each address of an endpoint slice has one IP, and the address for
      unknown sources is the one of the configuration.
    - Reflected objects: one run of a reflector brings the remote object to what the
      local one asks for and leaves objects of others alone; what a volume names is there.
    - Dispatch of the reflection: in every interleaving the reflectors are those of the
      accepted namespaces, and an item is handled by the one of the present start of its
      namespace, by the fallback, or retried.
    - Defects, each shown by a theorem: panics on IPv6 networks, on short status
      lists, on anonymous requests and on a failed listing of nodes; preallocation
      bounded by the prefix length; lost accounting of escaped user names, double
      refunds, under-estimated init containers; exchanged addresses that go
      unnoticed, dropped negations, host bits that match nothing; errors of
      deletions that are lost; clusters shared by two offloadings whose mapping
      flaps; an inverted label of storage classes; and others named in the files.

    ** Fuel

    The tree of prefixes is traversed on fuel: [depth] is 130, above the 32
    levels an IPv4 pool can have (and the 128 of IPv6), and the theorems on
    the core prove that it is never exhausted.  The textual parsers recurse on
    their input, or for IPv6 on the eight groups an address has.  Loops over lists
    are structural; retries are bounded by the code itself.

    ** Not modelled, and plan

    Not modelled: the set-up of gateways and fabric over netlink (it has no logic
    apart from system calls); the controllers of gateways, nodes and tunnels and the
    masquerade bypass of the networking module; the storage provisioner;
    the reflectors of service-account tokens, volume claims, resource claims and events; the identity
    manager; liqoctl, telemetry and generated code.

    This file holds the foundations: outcomes, the clock monad with its rules, and
    lemmas on lists and integers. *)

From Corelib Require Export ssreflect_rw.
From Stdlib Require Export ZArith Lia.
From stdpp Require Export base numbers option sets strings fin_maps gmap.
From stdpp Require Export list.

Set Default Proof Using "Type".

(** ** Outcomes of a Go call

    A Go call either returns, panics (nil dereference, slice index out of
    range, [runtime.Must], [netip.MustParsePrefix]), or, for a recursion that
    the model runs on fuel, exhausts its fuel.  Theorems rule the last two out
    explicitly: they are never hidden behind an implication. *)
Inductive outcome (A : Type) : Type :=
| Ret (a : A)
| Panic
| Diverge.
Arguments Ret {A} a.
Arguments Panic {A}.
Arguments Diverge {A}.

#[global] Instance outcome_ret : MRet outcome := fun A a => Ret a.
#[global] Instance outcome_bind : MBind outcome := fun A B f m =>
  match m with
  | Ret a => f a
  | Panic => Panic
  | Diverge => Diverge
  end.

(** The pair [(value, error)] of Go: [Ok v] is [(v, nil)], [Err e] carries the
    error. *)
Inductive result (E A : Type) : Type :=
| Ok (a : A)
| Err (e : E).
Arguments Ok {E A} a.
Arguments Err {E A} e.

Definition is_ok {E A} (r : result E A) : bool :=
  match r with Ok _ => true | Err _ => false end.

(** ** Code that reads the clock

    [time.Now()] is a read of an external clock: the [n]-th call of a run
    returns [clock n].  [M A] threads the number of calls made so far, so two
    reads within one operation may differ, as they do in Go. *)
Definition M (A : Type) : Type := nat → outcome (A * nat).

#[global] Instance M_ret : MRet M := fun A a t => Ret (a, t).
#[global] Instance M_bind : MBind M := fun A B f m t =>
  match m t with
  | Ret (a, t') => f a t'
  | Panic => Panic
  | Diverge => Diverge
  end.

Definition now (clock : nat → Z) : M Z := fun t => Ret (clock t, S t).
Definition panic {A} : M A := fun _ => Panic.
Definition diverge {A} : M A := fun _ => Diverge.
Definition lift {A} (o : outcome A) : M A := fun t =>
  match o with
  | Ret a => Ret (a, t)
  | Panic => Panic
  | Diverge => Diverge
  end.

(** [wp m t Q]: started after [t] clock reads, [m] returns (it neither panics
    nor runs out of fuel) and its result and final tick satisfy [Q]. *)
Definition wp {A} (m : M A) (t : nat) (Q : A → nat → Prop) : Prop :=
  match m t with
  | Ret (a, t') => Q a t'
  | _ => False
  end.

Section wp_rules.
Context {A B : Type}.
Implicit Types (t : nat).

Lemma wp_ret (a : A) t (Q : A → nat → Prop) : Q a t → wp (mret a) t Q.
Proof. done. Qed.

Lemma wp_bind (m : M A) (f : A → M B) t (Q : B → nat → Prop) :
  wp m t (fun a t' => wp (f a) t' Q) → wp (m ≫= f) t Q.
Proof.
  unfold wp, mbind, M_bind. by destruct (m t) as [[a t']| |].
Qed.

Lemma wp_bind_inv (m : M A) (f : A → M B) t (Q : B → nat → Prop) :
  wp (m ≫= f) t Q → wp m t (fun a t' => wp (f a) t' Q).
Proof. unfold wp, mbind, M_bind. by destruct (m t) as [[a t']| |]. Qed.

Lemma wp_mono (m : M A) t (P Q : A → nat → Prop) :
  wp m t P → (∀ a t', P a t' → Q a t') → wp m t Q.
Proof. unfold wp. destruct (m t) as [[a t']| |]; naive_solver. Qed.

Lemma wp_and (m : M A) t (P Q : A → nat → Prop) :
  wp m t P → wp m t Q → wp m t (fun a t' => P a t' ∧ Q a t').
Proof. unfold wp. destruct (m t) as [[a t']| |]; naive_solver. Qed.

Lemma wp_now clock t (Q : Z → nat → Prop) : Q (clock t) (S t) → wp (now clock) t Q.
Proof. done. Qed.

Lemma wp_lift (o : outcome A) t (Q : A → nat → Prop) :
  (∃ a, o = Ret a ∧ Q a t) → wp (lift o) t Q.
Proof. intros (a & -> & H). exact H. Qed.

Lemma wp_inv (m : M A) t Q : wp m t Q → ∃ a t', m t = Ret (a, t') ∧ Q a t'.
Proof. unfold wp. destruct (m t) as [[a t']| |]; naive_solver. Qed.

Lemma wp_run (m : M A) t a t' Q : wp m t Q → m t = Ret (a, t') → Q a t'.
Proof. unfold wp. intros H E. by rewrite E in H. Qed.
End wp_rules.

(** [wlp m t Q]: if [m], started after [t] clock reads, returns, then its result
    and final tick satisfy [Q].  Used for facts about runs already known to
    return. *)
Definition wlp {A} (m : M A) (t : nat) (Q : A → nat → Prop) : Prop :=
  ∀ a t', m t = Ret (a, t') → Q a t'.

Section wlp_rules.
Context {A B : Type}.
Implicit Types (t : nat).

Lemma wlp_ret (a : A) t (Q : A → nat → Prop) : Q a t → wlp (mret a) t Q.
Proof. by intros H ? ? [= <- <-]. Qed.

Lemma wlp_bind (m : M A) (f : A → M B) t (Q : B → nat → Prop) :
  wlp m t (fun a t' => wlp (f a) t' Q) → wlp (m ≫= f) t Q.
Proof.
  unfold wlp, mbind, M_bind. intros H b t'. destruct (m t) as [[a t1]| |]; [|done|done].
  by apply H.
Qed.

Lemma wlp_mono (m : M A) t (P Q : A → nat → Prop) :
  wlp m t P → (∀ a t', P a t' → Q a t') → wlp m t Q.
Proof. unfold wlp. naive_solver. Qed.

Lemma wlp_now clock t (Q : Z → nat → Prop) : Q (clock t) (S t) → wlp (now clock) t Q.
Proof. by intros H ? ? [= <- <-]. Qed.

Lemma wlp_lift (o : outcome A) t (Q : A → nat → Prop) :
  (∀ a, o = Ret a → Q a t) → wlp (lift o) t Q.
Proof. unfold wlp, lift. destruct o; intros H ? ? [= <- <-]. auto. Qed.

Lemma wlp_panic t (Q : A → nat → Prop) : wlp panic t Q.
Proof. done. Qed.

Lemma wlp_diverge t (Q : A → nat → Prop) : wlp diverge t Q.
Proof. done. Qed.

Lemma wlp_of_wp (m : M A) t (Q : A → nat → Prop) : wp m t Q → wlp m t Q.
Proof. unfold wp, wlp. intros H a t' E. by rewrite E in H. Qed.

Lemma wlp_true (m : M A) t (Q : A → nat → Prop) : (∀ a t', Q a t') → wlp m t Q.
Proof. unfold wlp. auto. Qed.

Lemma wp_wlp (m : M A) t (P Q : A → nat → Prop) :
  wp m t P → wlp m t Q → wp m t (fun a t' => P a t' ∧ Q a t').
Proof. unfold wp, wlp. destruct (m t) as [[a t']| |]; naive_solver. Qed.
End wlp_rules.

Ltac wlp_step :=
  lazymatch goal with
  | |- wlp (mret _) _ _ => apply wlp_ret
  | |- wlp (_ ≫= _) _ _ => apply wlp_bind
  | |- wlp (now _) _ _ => apply wlp_now
  | |- wlp panic _ _ => apply wlp_panic
  | |- wlp diverge _ _ => apply wlp_diverge
  | |- wlp (if ?b then _ else _) _ _ => destruct b eqn:?
  end.
Ltac wlp_steps := repeat (wlp_step; cbn beta iota).

(** Symbolic execution of [M] programs down to their branches. *)
Ltac wp_step :=
  lazymatch goal with
  | |- wp (mret _) _ _ => apply wp_ret
  | |- wp (_ ≫= _) _ _ => apply wp_bind
  | |- wp (now _) _ _ => apply wp_now
  end.
Ltac wp_steps := repeat wp_step; cbn beta iota.

Create HintDb liqo.

(** ** Lists, booleans and integers *)

Lemma existsb_false_iff {A} (f : A → bool) l :
  existsb f l = false ↔ ∀ x, x ∈ l → f x = false.
Proof.
  induction l as [|a l IH]; simpl.
  - split; [intros _ x Hx; by apply not_elem_of_nil in Hx | done].
  - rw orb_false_iff IH. setoid_rewrite elem_of_cons. naive_solver.
Qed.

Lemma existsb_true_iff {A} (f : A → bool) l :
  existsb f l = true ↔ ∃ x, x ∈ l ∧ f x = true.
Proof.
  induction l as [|a l IH]; simpl.
  - split; [done | intros (x & Hx & _); by apply not_elem_of_nil in Hx].
  - rw orb_true_iff IH. setoid_rewrite elem_of_cons. naive_solver.
Qed.

Lemma forallb_true_iff {A} (f : A → bool) l :
  forallb f l = true ↔ ∀ x, x ∈ l → f x = true.
Proof.
  induction l as [|a l IH]; simpl.
  - split; [intros _ x Hx; by apply not_elem_of_nil in Hx | done].
  - rw andb_true_iff IH. setoid_rewrite elem_of_cons. naive_solver.
Qed.

Lemma Z_div_double (v h : Z) : (0 < h)%Z →
  (v / h = 2 * (v / (2 * h)) ∨ v / h = 2 * (v / (2 * h)) + 1)%Z.
Proof.
  intros Hh. rewrite (Z.mul_comm 2 h), <- Z.div_div by lia.
  pose proof (Z.div_mod (v / h) 2 ltac:(lia)).
  pose proof (Z.mod_pos_bound (v / h) 2 ltac:(lia)). lia.
Qed.

Lemma Z_div_coarse (v w h k : Z) : (0 < h)%Z → (0 < k)%Z →
  (v / h = w / h → v / (h * k) = w / (h * k))%Z.
Proof. intros Hh Hk He. rewrite <- !Z.div_div by lia. by rewrite He. Qed.

Lemma Z_pow2_split (m n : Z) : (0 ≤ n ≤ m → 2 ^ m = 2 ^ n * 2 ^ (m - n))%Z.
Proof. intros. rewrite <- Z.pow_add_r by lia. f_equal. lia. Qed.
