(* ===== verification/Netip.v ===== *)
(** * Netip: the part of Go's [net/netip] the IPAM uses

    Addresses and prefixes as the standard library has them: an address is the
    zero [Addr] (bit length 0), an IPv4 address (32) or an IPv6 address (128,
    with an optional zone); a prefix is an address and a length, whose host bits
    may be set ([ParsePrefix] does not mask).  The operations used under
    src/pkg/ipam are executable definitions; the lemmas reduce them to
    arithmetic on network numbers. *)

From S2P Require Export Prelude.
From Stdlib Require Import Ascii String.
Local Open Scope Z_scope.

Record Addr := mkAddr { bitlen : Z; val : Z; zone : string }.
Record Prefix := mkPrefix { pAddr : Addr; pBits : Z }.

#[global] Instance Addr_eq_dec : EqDecision Addr.
Proof. solve_decision. Defined.
#[global] Instance Prefix_eq_dec : EqDecision Prefix.
Proof. solve_decision. Defined.
#[global] Instance Addr_countable : Countable Addr.
Proof.
  refine (inj_countable' (fun a => (bitlen a, val a, zone a))
            (fun '(b, v, z) => mkAddr b v z) _).
  by intros [].
Defined.
#[global] Instance Prefix_countable : Countable Prefix.
Proof.
  refine (inj_countable' (fun p => (pAddr p, pBits p)) (fun '(a, b) => mkPrefix a b) _).
  by intros [].
Defined.

(** The zero [netip.Addr], which is not a valid address. *)
Definition zeroAddr : Addr := mkAddr 0 0 "".
Definition AddrFrom4 (v : Z) : Addr := mkAddr 32 v "".
Definition AddrFrom16 (v : Z) (z : string) : Addr := mkAddr 128 v z.

Definition Addr_IsValid (a : Addr) : bool := negb (bitlen a =? 0).
Definition Is4 (a : Addr) : bool := bitlen a =? 32.
Definition Is6 (a : Addr) : bool := bitlen a =? 128.

(** [Addr.Compare]: bit length first, then the value, then the zone of an IPv6
    address. *)
Definition Addr_Compare (a b : Addr) : comparison :=
  match bitlen a ?= bitlen b with
  | Eq =>
    match val a ?= val b with
    | Eq => if Is6 a then String.compare (zone a) (zone b) else Eq
    | c => c
    end
  | c => c
  end.

(** [a.Compare(b) == 0]. *)
Definition same_addr (a b : Addr) : bool :=
  match Addr_Compare a b with Eq => true | _ => false end.

(** [Addr.Next]: the zero [Addr] past the last address of the family. *)
Definition Next (a : Addr) : Addr :=
  let v := (val a + 1) mod 2 ^ 128 in
  if Is4 a then
    if v mod 2 ^ 32 =? 0 then zeroAddr else mkAddr (bitlen a) v (zone a)
  else
    if v =? 0 then zeroAddr else mkAddr (bitlen a) v (zone a).

Definition Prefix_IsValid (p : Prefix) : bool := 0 <=? pBits p.

(** [netip.PrefixFrom]: an out-of-range length makes an invalid prefix. *)
Definition PrefixFrom (a : Addr) (bits : Z) : Prefix :=
  mkPrefix (mkAddr (bitlen a) (val a) "")
           (if Addr_IsValid a && (0 <=? bits) && (bits <=? bitlen a) then bits else -1).

(** The network number of [a] at length [n]: its first [n] bits. *)
Definition net (a : Addr) (n : Z) : Z := Z.shiftr (val a) (bitlen a - n).

(** [Prefix.Masked]: the prefix with its host bits cleared; the zero prefix
    when invalid. *)
Definition Masked (p : Prefix) : Prefix :=
  if Prefix_IsValid p then
    mkPrefix (mkAddr (bitlen (pAddr p))
                     (Z.shiftl (net (pAddr p) (pBits p)) (bitlen (pAddr p) - pBits p)) "")
             (pBits p)
  else mkPrefix zeroAddr (-1).

(** [Prefix.Contains]. *)
Definition Contains (p : Prefix) (a : Addr) : bool :=
  Prefix_IsValid p && bool_decide (zone a = ""%string)
  && negb (bitlen (pAddr p) =? 0) && negb (bitlen a =? 0)
  && (bitlen (pAddr p) =? bitlen a)
  && (Z.shiftr (Z.lxor (val a) (val (pAddr p))) (bitlen (pAddr p) - pBits p) =? 0).

(** [Prefix.Overlaps]. *)
Definition Overlaps (p o : Prefix) : bool :=
  if negb (Prefix_IsValid p) || negb (Prefix_IsValid o) then false
  else if bool_decide (p = o) then true
  else if negb (Bool.eqb (Is4 (pAddr p)) (Is4 (pAddr o))) then false
  else
    let minBits := Z.min (pBits p) (pBits o) in
    if minBits =? 0 then true
    else net (pAddr p) minBits =? net (pAddr o) minBits.

(** [Prefix.MarshalBinary]: the address bytes, most significant first, then the
    length as one byte. *)
Fixpoint be_bytes (n : nat) (v : Z) : list Z :=
  match n with
  | O => []
  | S k => (v / 2 ^ (8 * Z.of_nat k)) mod 256 :: be_bytes k v
  end.

Definition be_val (l : list Z) : Z := fold_left (fun acc b => acc * 256 + b) l 0.

Definition addr_bytes (a : Addr) : list Z := be_bytes (Z.to_nat (bitlen a / 8)) (val a).
Definition MarshalBinary (p : Prefix) : list Z :=
  addr_bytes (pAddr p) ++ [pBits p mod 256].

(** ** Text forms *)

Definition digit (d : Z) : ascii := ascii_of_nat (Z.to_nat (48 + d)).

Fixpoint itoa_aux (fuel : nat) (n : Z) (acc : string) : string :=
  match fuel with
  | O => acc
  | S f =>
    let acc' := String (digit (n mod 10)) acc in
    if n / 10 =? 0 then acc' else itoa_aux f (n / 10) acc'
  end.

(** ["%d"] of a non-negative number below 10^20. *)
Definition itoa (n : Z) : string := itoa_aux 20 n "".

Definition code (c : ascii) : Z := Z.of_nat (nat_of_ascii c).
Definition is_digit (c : ascii) : bool := (48 <=? code c) && (code c <=? 57).

(** [parseIPv4Fields] reads one character at a time: the octets read so far,
    the current value and its number of digits. *)
Record ip4st := mkIp4st { fields : list Z; cur : Z; digLen : Z }.

Definition ip4_step (st : ip4st) (c : ascii) : option ip4st :=
  if is_digit c then
    if (digLen st =? 1) && (cur st =? 0) then None
    else
      let v := cur st * 10 + (code c - 48) in
      if 255 <? v then None else Some (mkIp4st (fields st) v (digLen st + 1))
  else if bool_decide (c = "."%char) then
    if digLen st =? 0 then None
    else if (List.length (fields st) =? 3)%nat then None
    else Some (mkIp4st (fields st ++ [cur st]) 0 0)
  else None.

Fixpoint ip4_run (st : ip4st) (s : string) : option ip4st :=
  match s with
  | EmptyString => Some st
  | String c s' => st' ← ip4_step st c; ip4_run st' s'
  end.

Definition parseIPv4Fields (s : string) : option (list Z) :=
  st ← ip4_run (mkIp4st [] 0 0) s;
  if (digLen st =? 0) || negb (List.length (fields st) =? 3)%nat then None
  else Some (fields st ++ [cur st]).

Definition hex_val (c : ascii) : option Z :=
  let k := code c in
  if is_digit c then Some (k - 48)
  else if (97 <=? k) && (k <=? 102) then Some (k - 97 + 10)
  else if (65 <=? k) && (k <=? 70) then Some (k - 65 + 10)
  else None.

(** One hexadecimal group: its value, its digit count and the rest of the
    text; [None] past four digits. *)
Fixpoint hex_group (s : string) (acc : Z) (off : nat) : option (Z * nat * string) :=
  match s with
  | EmptyString => Some (acc, off, s)
  | String c s' =>
    match hex_val c with
    | None => Some (acc, off, s)
    | Some d => if (3 <? off)%nat then None else hex_group s' (acc * 16 + d) (S off)
    end
  end.

Definition str_head (s : string) : option ascii :=
  match s with String c _ => Some c | EmptyString => None end.
Definition str_tail (s : string) : string :=
  match s with String _ s' => s' | EmptyString => EmptyString end.

(** The loop of [parseIPv6]: bytes read so far, position of the ellipsis, rest
    of the text.  Each turn reads two or four of the sixteen bytes. *)
Fixpoint ip6_loop (fuel : nat) (bs : list Z) (ell : option nat) (s : string)
  : option (list Z * option nat * string) :=
  match fuel with
  | O => Some (bs, ell, s)
  | S f =>
    '(acc, off, rest) ← hex_group s 0 0;
    if (off =? 0)%nat then None
    else if bool_decide (str_head rest = Some "."%char) then
      if bool_decide (ell = None) && negb (List.length bs =? 12)%nat then None
      else if (16 <? List.length bs + 4)%nat then None
      else fs ← parseIPv4Fields s; Some (bs ++ fs, ell, EmptyString)
    else
      let bs' := bs ++ [acc / 256; acc mod 256] in
      match rest with
      | EmptyString => Some (bs', ell, EmptyString)
      | String c s1 =>
        if negb (bool_decide (c = ":"%char)) || bool_decide (s1 = EmptyString) then None
        else if bool_decide (str_head s1 = Some ":"%char) then
          if bool_decide (ell ≠ None) then None
          else
            let s2 := str_tail s1 in
            if bool_decide (s2 = EmptyString) then Some (bs', Some (List.length bs'), s2)
            else ip6_loop f bs' (Some (List.length bs')) s2
        else ip6_loop f bs' ell s1
      end
  end.

(** The address and zone parts of the text, split at the first [%]. *)
Fixpoint split_zone (s : string) : string * option string :=
  match s with
  | EmptyString => (EmptyString, None)
  | String c s' =>
    if bool_decide (c = "%"%char) then (EmptyString, Some s')
    else let '(a, z) := split_zone s' in (String c a, z)
  end.

Definition parseIPv6 (txt : string) : option Addr :=
  let '(s, z) := split_zone txt in
  if bool_decide (z = Some EmptyString) then None
  else
    let zn := default EmptyString z in
    let lead := bool_decide (str_head s = Some ":"%char)
                && bool_decide (str_head (str_tail s) = Some ":"%char) in
    let s1 := if lead then str_tail (str_tail s) else s in
    if lead && bool_decide (s1 = EmptyString) then Some (AddrFrom16 0 zn)
    else
      '(bs, ell, rest) ← ip6_loop 8 [] (if lead then Some 0%nat else None) s1;
      if negb (bool_decide (rest = EmptyString)) then None
      else
        let i := List.length bs in
        if (i <? 16)%nat then
          match ell with
          | None => None
          | Some e =>
            Some (AddrFrom16 (be_val (take e bs ++ replicate (16 - i) 0 ++ drop e bs)) zn)
          end
        else if bool_decide (ell ≠ None) then None
        else Some (AddrFrom16 (be_val bs) zn).

(** [netip.ParseAddr] dispatches on the first separator of the text. *)
Fixpoint ParseAddr_sep (whole s : string) : option Addr :=
  match s with
  | EmptyString => None
  | String c s' =>
    if bool_decide (c = "."%char) then
      fs ← parseIPv4Fields whole; Some (AddrFrom4 (be_val fs))
    else if bool_decide (c = ":"%char) then parseIPv6 whole
    else if bool_decide (c = "%"%char) then None
    else ParseAddr_sep whole s'
  end.

Definition ParseAddr (s : string) : option Addr := ParseAddr_sep s s.

(** The text before and after the last slash. *)
Fixpoint split_last_slash (s : string) : option (string * string) :=
  match s with
  | EmptyString => None
  | String c s' =>
    match split_last_slash s' with
    | Some (a, b) => Some (String c a, b)
    | None => if bool_decide (c = "/"%char) then Some (EmptyString, s') else None
    end
  end.

Fixpoint atoi_run (s : string) (acc : Z) : option Z :=
  match s with
  | EmptyString => Some acc
  | String c s' => if is_digit c then atoi_run s' (acc * 10 + (code c - 48)) else None
  end.

(** The prefix length: digits, no sign, no leading zero. *)
Definition parse_bits (s : string) : option Z :=
  match s with
  | EmptyString => None
  | String c s' =>
    if negb (bool_decide (s' = EmptyString)) && bool_decide (c = "0"%char) then None
    else atoi_run s 0
  end.

(** [netip.ParsePrefix]. *)
Definition ParsePrefix (s : string) : option Prefix :=
  '(a, b) ← split_last_slash s;
  ip ← ParseAddr a;
  if Is6 ip && negb (bool_decide (zone ip = ""%string)) then None
  else
    bits ← parse_bits b;
    if bits <=? bitlen ip then Some (PrefixFrom ip bits) else None.

(** ** Well-formed values *)

(** What [ParsePrefix] returns: a family, a value in range, no zone, a length
    in range.  Host bits may be set. *)
Record valid_prefix (p : Prefix) : Prop := {
  vp_len : bitlen (pAddr p) = 32 ∨ bitlen (pAddr p) = 128;
  vp_val : 0 ≤ val (pAddr p) < 2 ^ bitlen (pAddr p);
  vp_zone : zone (pAddr p) = ""%string;
  vp_bits : 0 ≤ pBits p ≤ bitlen (pAddr p)
}.

(** An IPv4 prefix with its host bits cleared: the shape of every node of the
    tree. *)
Record wf4 (p : Prefix) : Prop := {
  wf4_len : bitlen (pAddr p) = 32;
  wf4_val : 0 ≤ val (pAddr p) < 2 ^ 32;
  wf4_zone : zone (pAddr p) = ""%string;
  wf4_bits : 0 ≤ pBits p ≤ 32;
  wf4_host : val (pAddr p) mod 2 ^ (32 - pBits p) = 0
}.

Lemma wf4_valid p : wf4 p → valid_prefix p.
Proof.
  intros [Hl Hv Hz Hb _].
  split; [by left|by rewrite Hl|done|by rewrite Hl].
Qed.
#[export] Hint Resolve wf4_valid : liqo.

Lemma wf4_mk v b :
  0 ≤ v < 2 ^ 32 → 0 ≤ b ≤ 32 → v mod 2 ^ (32 - b) = 0 → wf4 (mkPrefix (AddrFrom4 v) b).
Proof. intros. by split. Qed.

(** [q] lies below [p]: same family, at least as long, same first bits. *)
Definition under (p q : Prefix) : Prop :=
  bitlen (pAddr q) = 32 ∧ pBits p ≤ pBits q ∧
  net (pAddr q) (pBits p) = net (pAddr p) (pBits p).

(** The two halves of a prefix. *)
Definition lchild (p : Prefix) : Prefix := mkPrefix (pAddr p) (pBits p + 1).
Definition rchild (p : Prefix) : Prefix :=
  mkPrefix (mkAddr (bitlen (pAddr p)) (val (pAddr p) + 2 ^ (31 - pBits p)) (zone (pAddr p)))
           (pBits p + 1).

Lemma net_div a n : bitlen a = 32 → 0 ≤ n ≤ 32 → net a n = val a / 2 ^ (32 - n).
Proof. intros Ha Hn. unfold net. rewrite Ha, Z.shiftr_div_pow2 by lia. done. Qed.

Lemma string_compare_refl z : String.compare z z = Eq.
Proof.
  pose proof (String.compare_antisym z z) as H. by destruct (String.compare z z).
Qed.

Lemma same_addr_spec a b : zone a = zone b → same_addr a b = true ↔ a = b.
Proof.
  destruct a as [l v z], b as [l' v' z']; unfold same_addr, Addr_Compare; simpl.
  intros <-. destruct (Z.compare_spec l l') as [->| |];
    [|split; [done|intros [= ]; lia]..].
  destruct (Z.compare_spec v v') as [->| |];
    [|split; [done|intros [= ]; lia]..].
  destruct (Is6 _); [|done]. split; [done|intros _].
  by rewrite string_compare_refl.
Qed.

Lemma same_prefix_spec p q :
  zone (pAddr p) = zone (pAddr q) →
  same_addr (pAddr p) (pAddr q) && (pBits p =? pBits q) = true ↔ p = q.
Proof.
  intros Hz. rewrite andb_true_iff, same_addr_spec, Z.eqb_eq by done.
  destruct p, q; simpl; naive_solver.
Qed.

Lemma net_coarse a b m n :
  bitlen a = 32 → bitlen b = 32 → 0 ≤ m ≤ n → n ≤ 32 →
  net a n = net b n → net a m = net b m.
Proof.
  intros Ha Hb Hm Hn. rewrite !net_div by lia.
  rewrite (Z_pow2_split (32 - m) (32 - n)) by lia.
  intros He. apply Z_div_coarse; [apply Z.pow_pos_nonneg; lia..|done].
Qed.

Section overlap.
Context (p q : Prefix) (Hp : wf4 p) (Hq : valid_prefix q).

Lemma Overlaps_spec :
  Overlaps p q = true ↔
  bitlen (pAddr q) = 32 ∧
  net (pAddr p) (pBits p `min` pBits q) = net (pAddr q) (pBits p `min` pBits q).
Proof.
  destruct Hp as [Hl Hv Hz Hb Hh], Hq as [Hl' Hv' Hz' Hb'].
  unfold Overlaps, Prefix_IsValid, Is4. rewrite Hl.
  rewrite !(proj2 (Z.leb_le _ _)) by lia. cbn [negb orb Bool.eqb].
  case_bool_decide as He; [subst q; by rewrite Hl|].
  change (32 =? 32) with true. cbn [Bool.eqb].
  destruct Hl' as [Hl'|Hl']; rewrite Hl' in *; cbn [Z.eqb Pos.eqb Bool.eqb negb];
    [|split; [done|intros []; lia]].
  destruct (Z.eqb_spec (pBits p `min` pBits q) 0) as [Hm|Hm].
  - split; [|done]. intros _. split; [done|].
    rewrite Hm, !net_div, !Z.div_small by lia. done.
  - rewrite Z.eqb_eq. naive_solver.
Qed.

Lemma under_spec :
  (pBits p <=? pBits q) && Overlaps p q = true ↔ under p q.
Proof.
  rewrite andb_true_iff, Z.leb_le, Overlaps_spec. unfold under.
  split; intros (H1 & H2 & H3).
  - rewrite Z.min_l in H3 by done. done.
  - rewrite Z.min_l by done. done.
Qed.
End overlap.

Lemma under_bits p q : under p q → pBits p ≤ pBits q.
Proof. by intros (_ & ? & _). Qed.

Lemma under_refl p : wf4 p → under p p.
Proof. intros []. split_and!; [done|lia|done]. Qed.

Lemma under_trans p q r : wf4 p → wf4 q → valid_prefix r → under p q → under q r → under p r.
Proof.
  intros [Hl Hv Hz Hb _] [Hl' Hv' Hz' Hb' _] [_ _ _ Hb''] (_ & H1 & H2) (H3 & H4 & H5).
  rewrite H3 in Hb''.
  split; [done|split; [lia|]]. rewrite <- H2.
  apply (net_coarse _ _ _ (pBits q)); auto; lia.
Qed.

(** Two masked prefixes of one length with one network number are equal. *)
Lemma wf4_ext p q : wf4 p → wf4 q → pBits p = pBits q → under p q → p = q.
Proof.
  intros [Hl Hv Hz Hb Hh] [Hl' Hv' Hz' Hb' Hh'] He (_ & _ & Hn).
  rewrite !net_div in Hn by lia. rewrite <- He in Hh'.
  destruct p as [[l v z] b], q as [[l' v' z'] b']; simpl in *; subst.
  do 2 f_equal.
  pose proof (Z.div_mod v (2 ^ (32 - b')) ltac:(apply Z.pow_nonzero; lia)).
  pose proof (Z.div_mod v' (2 ^ (32 - b')) ltac:(apply Z.pow_nonzero; lia)).
  congruence.
Qed.

Lemma under_antisym p q : wf4 p → wf4 q → under p q → under q p → p = q.
Proof.
  intros Hp Hq H1 H2. apply wf4_ext; auto.
  pose proof (under_bits _ _ H1). pose proof (under_bits _ _ H2). lia.
Qed.

Section children.
Context (p : Prefix) (Hp : wf4 p) (Hlt : pBits p < 32).

Lemma half_pow : 2 ^ (32 - pBits p) = 2 * 2 ^ (31 - pBits p).
Proof. rewrite <- Z.pow_succ_r by (destruct Hp; lia). f_equal. lia. Qed.

Lemma half_pos : 0 < 2 ^ (31 - pBits p).
Proof. apply Z.pow_pos_nonneg; destruct Hp; lia. Qed.

Lemma net_lchild : net (pAddr (lchild p)) (pBits p + 1) = 2 * net (pAddr p) (pBits p).
Proof.
  pose proof half_pos. destruct Hp as [Hl Hv Hz Hb Hh]. simpl.
  rewrite !net_div by lia. replace (32 - (pBits p + 1)) with (31 - pBits p) by lia.
  rewrite half_pow in Hh |- *.
  apply Z.mod_divide in Hh; [|lia]. destruct Hh as [k ->].
  replace (k * (2 * 2 ^ (31 - pBits p))) with ((k * 2) * 2 ^ (31 - pBits p)) by ring.
  rewrite Z.div_mul by lia.
  replace (k * 2 * 2 ^ (31 - pBits p)) with (k * (2 * 2 ^ (31 - pBits p))) by ring.
  rewrite Z.div_mul by lia. lia.
Qed.

Lemma net_rchild : net (pAddr (rchild p)) (pBits p + 1) = 2 * net (pAddr p) (pBits p) + 1.
Proof.
  pose proof half_pos. pose proof net_lchild as HL. simpl in HL.
  destruct Hp as [Hl Hv Hz Hb Hh].
  rewrite (net_div (pAddr p) (pBits p + 1)) in HL by lia.
  rewrite net_div by (simpl; lia). cbn [rchild pAddr val].
  replace (32 - (pBits p + 1)) with (31 - pBits p) in * by lia.
  replace (val (pAddr p) + 2 ^ (31 - pBits p))
    with (val (pAddr p) + 1 * 2 ^ (31 - pBits p)) by ring.
  rewrite Z.div_add by lia. lia.
Qed.

Lemma lchild_wf : wf4 (lchild p).
Proof.
  pose proof half_pos. pose proof half_pow as HP. destruct Hp as [Hl Hv Hz Hb Hh].
  split; simpl; auto; [lia|].
  replace (32 - (pBits p + 1)) with (31 - pBits p) by lia.
  rewrite HP in Hh. apply Z.mod_divide in Hh; [|lia]. destruct Hh as [k ->].
  apply Z.mod_divide; [lia|]. exists (k * 2). ring.
Qed.

Lemma rchild_wf : wf4 (rchild p).
Proof.
  pose proof half_pos. pose proof half_pow as HP. destruct Hp as [Hl Hv Hz Hb Hh].
  assert (Htop : 2 ^ 32 = 2 ^ (32 - pBits p) * 2 ^ pBits p).
  { rewrite <- Z.pow_add_r by lia. f_equal. lia. }
  rewrite HP in Hh, Htop. apply Z.mod_divide in Hh; [|lia]. destruct Hh as [k Hk].
  split; simpl; auto; [|lia|].
  - rewrite Hk in Hv |- *. rewrite Htop in *.
    assert (0 < 2 ^ pBits p) by (apply Z.pow_pos_nonneg; lia).
    split; [lia|]. assert (k < 2 ^ pBits p) by nia. nia.
  - replace (32 - (pBits p + 1)) with (31 - pBits p) by lia. rewrite Hk.
    apply Z.mod_divide; [lia|]. exists (k * 2 + 1). ring.
Qed.

(** A strictly longer prefix below [p] is below exactly one half. *)
Lemma under_children q : valid_prefix q → under p q → pBits p < pBits q →
  (under (lchild p) q ∧ ¬ under (rchild p) q) ∨ (¬ under (lchild p) q ∧ under (rchild p) q).
Proof.
  intros Hq (H1 & H2 & H3) Hb.
  pose proof net_lchild as HL. pose proof net_rchild as HR.
  assert (Hn : net (pAddr q) (pBits p + 1) = 2 * net (pAddr p) (pBits p)
             ∨ net (pAddr q) (pBits p + 1) = 2 * net (pAddr p) (pBits p) + 1).
  { destruct Hp as [Hl Hv Hz Hb' Hh], Hq as [_ _ _ Hbq]. rewrite <- H3.
    rewrite !net_div by lia. replace (32 - (pBits p + 1)) with (31 - pBits p) by lia.
    rewrite half_pow. apply Z_div_double, half_pos. }
  unfold under. cbn [lchild rchild pBits] in *. destruct Hn as [Hn|Hn].
  - left. split; [split_and!; [done|lia|lia]|intros (_ & _ & ?); lia].
  - right. split; [intros (_ & _ & ?); lia|split_and!; [done|lia|lia]].
Qed.

Lemma under_lchild : under p (lchild p).
Proof. destruct Hp. split_and!; simpl; [done|lia|done]. Qed.

Lemma under_rchild : under p (rchild p).
Proof.
  pose proof net_rchild as HR. pose proof half_pos.
  assert (Hr : wf4 (rchild p)) by apply rchild_wf.
  destruct Hp as [Hl Hv Hz Hb Hh], Hr as [Hl' Hv' _ _ _].
  split_and!; [done|simpl; lia|].
  rewrite net_div in HR by (simpl; lia).
  rewrite !net_div in * by (simpl; lia).
  replace (32 - (pBits p + 1)) with (31 - pBits p) in HR by lia.
  rewrite half_pow at 1. rewrite Z.mul_comm, <- Z.div_div by lia.
  rewrite HR. rewrite Z.mul_comm, Z.div_add_l by lia. change (1 / 2) with 0. lia.
Qed.
End children.

(** Containment of an address, for a masked IPv4 prefix. *)
Lemma Contains_spec p a : wf4 p →
  Contains p a = true ↔
  bitlen a = 32 ∧ zone a = ""%string ∧ net a (pBits p) = net (pAddr p) (pBits p).
Proof.
  intros [Hl Hv Hz Hb Hh]. unfold Contains, Prefix_IsValid, net.
  rewrite Hl, (proj2 (Z.leb_le 0 _)) by lia.
  rewrite !andb_true_iff, !negb_true_iff, bool_decide_eq_true, !Z.eqb_eq, !Z.eqb_neq.
  rewrite Z.shiftr_lxor, Z.lxor_eq_0_iff.
  split; intros.
  - destruct_and!. split_and!; [lia|done|]. by replace (bitlen a) with 32.
  - destruct_and!. split_and!; [done|done|lia|lia|lia|].
    by match goal with H : Z.shiftr _ (bitlen a - _) = _, E : bitlen a = 32 |- _ =>
      rewrite E in H end.
Qed.

(** The addresses of a masked prefix are the interval that starts at it. *)
Lemma Contains_range p a : wf4 p →
  Contains p a = true ↔
  bitlen a = 32 ∧ zone a = ""%string ∧
  val (pAddr p) ≤ val a < val (pAddr p) + 2 ^ (32 - pBits p).
Proof.
  intros Hp. rewrite Contains_spec by done.
  assert (Hpos : 0 < 2 ^ (32 - pBits p)) by (apply Z.pow_pos_nonneg; destruct Hp; lia).
  destruct Hp as [Hl Hv Hz Hb Hh].
  pose proof (Z.div_mod (val (pAddr p)) (2 ^ (32 - pBits p)) ltac:(lia)) as Hd.
  rewrite Hh, Z.add_0_r in Hd.
  split; intros (Ha & Hza & H); (split_and!; [done|done|..]).
  1,2: rewrite !net_div in H by lia;
       pose proof (Z.div_mod (val a) (2 ^ (32 - pBits p)) ltac:(lia));
       pose proof (Z.mod_pos_bound (val a) (2 ^ (32 - pBits p)) ltac:(lia)); rewrite H in *; lia.
  rewrite !net_div by lia. symmetry. apply Z.div_unique with (val a - val (pAddr p)); lia.
Qed.

Lemma Contains_self p : wf4 p → Contains p (pAddr p) = true.
Proof. intros Hp. apply Contains_spec; [done|]. by destruct Hp. Qed.
