(* ===== verification/IpamNet.v ===== *)
(** * IpamNet: splitting prefixes (src/pkg/ipam/core/net.go)

    The prefix is serialised to bytes, a bit is set, and both halves are printed
    and parsed back, as the code does; the theorem reduces this round trip through
    text to the two halves [lchild] and [rchild].  [runtime.Must] and
    [netip.MustParsePrefix] panic. *)

From S2P Require Export Netip.
From Stdlib Require Import Ascii String.
Local Open Scope Z_scope.

Inductive net_error :=
| ErrBitPosition
| ErrHostBits (p : Prefix).

(** [convertByteSliceToString]: dotted decimal. *)
Definition convertByteSliceToString (byteSlice : list Z) : string :=
  String.concat "." (itoa <$> byteSlice).

(** [setBit]: [b | (1 << (7 - position))] on a byte. *)
Definition setBit (b position : Z) : result net_error Z :=
  if (7 <? position) || (position <? 0) then Err ErrBitPosition
  else Ok (Z.lor b (Z.shiftl 1 (7 - position))).

Definition checkHostBitsZero (prefix : Prefix) : option net_error :=
  if same_addr (pAddr (Masked prefix)) (pAddr prefix) then None
  else Some (ErrHostBits prefix).

(** [runtime.Must]. *)
Definition Must (err : option net_error) : outcome () :=
  match err with None => Ret () | Some _ => Panic end.

Definition MustParsePrefix (s : string) : outcome Prefix :=
  match ParsePrefix s with Some p => Ret p | None => Panic end.

(** A slice index, which panics out of range. *)
Definition index {A} (l : list A) (i : Z) : outcome A :=
  match (if 0 <=? i then l !! Z.to_nat i else None) with
  | Some a => Ret a
  | None => Panic
  end.

(** [fmt.Sprintf("%s/%d", convertByteSliceToString(bs), n)]. *)
Definition prefix_text (bs : list Z) (n : Z) : string :=
  (convertByteSliceToString bs ++ "/" ++ itoa n)%string.

Definition splitNetworkPrefix (prefix : Prefix) : outcome (Prefix * Prefix) :=
  _ ← Must (checkHostBitsZero prefix);
  let bin := MarshalBinary prefix in
  maskLen ← index bin (Z.of_nat (List.length bin) - 1);
  if (List.length bin <? 4)%nat then Panic
  else
    left ← MustParsePrefix (prefix_text (take 4 bin) ((maskLen + 1) mod 256));
    let byteIndex := maskLen / 8 in
    let bitIndex := maskLen mod 8 in
    b ← index bin byteIndex;
    match setBit b bitIndex with
    | Err _ => Panic
    | Ok b' =>
      let bin' := <[Z.to_nat byteIndex := b']> bin in
      right ← MustParsePrefix (prefix_text (take 4 bin') ((maskLen + 1) mod 256));
      Ret (left, right)
    end.

Definition isPrefixChildOf (parent child : Prefix) : bool :=
  (pBits parent <=? pBits child) && Overlaps parent child.

Lemma isPrefixChildOf_spec p q :
  wf4 p → valid_prefix q → isPrefixChildOf p q = true ↔ under p q.
Proof. apply under_spec. Qed.

(** ** Printing and parsing a dotted quad *)

Fixpoint all_digits (s : string) : bool :=
  match s with
  | EmptyString => true
  | String c s' => is_digit c && all_digits s'
  end.

(** The numeric part of [ip4_run] on digits. *)
Fixpoint ip4_num (v d : Z) (s : string) : option (Z * Z) :=
  match s with
  | EmptyString => Some (v, d)
  | String c s' =>
    if (d =? 1) && (v =? 0) then None
    else let v' := v * 10 + (code c - 48) in
         if 255 <? v' then None else ip4_num v' (d + 1) s'
  end.

Lemma ip4_run_digits s fs v d : all_digits s = true →
  ip4_run (mkIp4st fs v d) s = (fun '(v, d) => mkIp4st fs v d) <$> ip4_num v d s.
Proof.
  revert v d. induction s as [|c s IH]; intros v d Hs; simpl in *; [done|].
  apply andb_true_iff in Hs as [Hc Hs].
  unfold ip4_step; rewrite Hc; simpl.
  repeat case_match; simpl; auto.
Qed.

Lemma ip4_run_app a b st :
  ip4_run st (a ++ b) = (st' ← ip4_run st a; ip4_run st' b).
Proof.
  revert st. induction a as [|c a IH]; intros st; simpl; [done|].
  destruct (ip4_step st c); simpl; auto.
Qed.

(** Everything the parser needs to know about the decimal text of a byte. *)
Definition byte_text_ok (n : Z) : bool :=
  all_digits (itoa n) && negb (bool_decide (itoa n = ""%string))
  && bool_decide (parse_bits (itoa n) = Some n)
  && match ip4_num 0 0 (itoa n) with Some (v, d) => (v =? n) && negb (d =? 0) | None => false end.

Lemma byte_text n : 0 ≤ n < 256 → byte_text_ok n = true.
Proof.
  intros Hn.
  assert (H : forallb byte_text_ok (seqZ 0 256) = true) by (vm_compute; reflexivity).
  rewrite forallb_true_iff in H. apply H. apply elem_of_seqZ. lia.
Qed.

Lemma byte_run n fs : 0 ≤ n < 256 →
  ∃ d, d ≠ 0 ∧ ip4_run (mkIp4st fs 0 0) (itoa n) = Some (mkIp4st fs n d).
Proof.
  intros Hn. pose proof (byte_text n Hn) as H. unfold byte_text_ok in H.
  rewrite !andb_true_iff in H. destruct H as [[[Hd _] _] Hnum].
  rewrite ip4_run_digits by done.
  destruct (ip4_num 0 0 (itoa n)) as [[v d]|]; [|done].
  apply andb_true_iff in Hnum as [Hv%Z.eqb_eq Hd0%negb_true_iff%Z.eqb_neq]; subst.
  eauto.
Qed.

Lemma split_last_slash_app a b : all_digits b = true →
  split_last_slash (a ++ "/" ++ b) = Some (a, b).
Proof.
  intros Hb.
  assert (Hnone : split_last_slash b = None).
  { induction b as [|c b IH]; simpl in *; [done|].
    apply andb_true_iff in Hb as [Hc Hb]. rewrite IH by done.
    case_bool_decide; [by subst|done]. }
  change ("/" ++ b)%string with (String "/" b).
  induction a as [|c a IH]; [simpl; by rewrite Hnone|].
  cbn -[append]. change (String c a ++ String "/" b)%string with (String c (a ++ String "/" b)).
  cbn [split_last_slash]. by rewrite IH.
Qed.

Lemma ParseAddr_sep_digits w d r : all_digits d = true →
  ParseAddr_sep w (d ++ "." ++ r) =
  (fs ← parseIPv4Fields w; Some (AddrFrom4 (be_val fs))).
Proof.
  induction d as [|c d IH]; simpl; [done|]. intros [Hc Hd]%andb_true_iff.
  repeat case_bool_decide; subst; try done. auto.
Qed.

Section quad.
Context (b0 b1 b2 b3 : Z).
Context (H0 : 0 ≤ b0 < 256) (H1 : 0 ≤ b1 < 256) (H2 : 0 ≤ b2 < 256) (H3 : 0 ≤ b3 < 256).

Lemma parse_quad :
  parseIPv4Fields (convertByteSliceToString [b0; b1; b2; b3]) = Some [b0; b1; b2; b3].
Proof.
  destruct (byte_run b0 [] H0) as (d0 & Hd0 & E0).
  destruct (byte_run b1 [b0] H1) as (d1 & Hd1 & E1).
  destruct (byte_run b2 [b0; b1] H2) as (d2 & Hd2 & E2).
  destruct (byte_run b3 [b0; b1; b2] H3) as (d3 & Hd3 & E3).
  unfold parseIPv4Fields, convertByteSliceToString. cbn [fmap list_fmap String.concat].
  assert (Hdot : ∀ fs v d rest, d ≠ 0 → List.length fs ≠ 3%nat →
    ip4_run (mkIp4st fs v d) ("." ++ rest) = ip4_run (mkIp4st (fs ++ [v]) 0 0) rest).
  { intros fs v d rest Hd Hf. simpl. unfold ip4_step. cbn -[Z.eqb Nat.eqb List.length].
    rewrite (proj2 (Z.eqb_neq d 0)), (proj2 (Nat.eqb_neq _ 3)) by done. done. }
  rewrite ip4_run_app, E0. cbn [mbind option_bind]. rewrite Hdot by done.
  rewrite ip4_run_app; cbn [app]. rewrite E1. cbn [mbind option_bind]. rewrite Hdot by done.
  rewrite ip4_run_app; cbn [app]. rewrite E2. cbn [mbind option_bind]. rewrite Hdot by done.
  cbn [app]. rewrite E3. cbn. by rewrite (proj2 (Z.eqb_neq d3 0)).
Qed.

Lemma parse_prefix_text n : 0 ≤ n < 256 →
  ParsePrefix (prefix_text [b0; b1; b2; b3] n)
  = if n <=? 32 then Some (mkPrefix (AddrFrom4 (be_val [b0; b1; b2; b3])) n) else None.
Proof.
  intros Hn. unfold ParsePrefix, prefix_text.
  pose proof (byte_text n ltac:(lia)) as Hb. unfold byte_text_ok in Hb.
  rewrite !andb_true_iff, bool_decide_eq_true in Hb. destruct Hb as [[[Hd _] Hp] _].
  rewrite split_last_slash_app by done. cbn [mbind option_bind].
  unfold ParseAddr.
  pose proof (byte_text b0 H0) as Hb. unfold byte_text_ok in Hb.
  rewrite !andb_true_iff in Hb. destruct Hb as [[[Hd0 _] _] _].
  assert (Hs : ParseAddr_sep (convertByteSliceToString [b0; b1; b2; b3])
                 (convertByteSliceToString [b0; b1; b2; b3])
               = Some (AddrFrom4 (be_val [b0; b1; b2; b3]))).
  { unfold convertByteSliceToString at 2. cbn [fmap list_fmap String.concat].
    rewrite ParseAddr_sep_digits by done. by rewrite parse_quad. }
  rewrite Hs, Hp. unfold PrefixFrom. cbn -[Z.leb be_val].
  destruct (Z.leb_spec n 32); [|done]. by rewrite (proj2 (Z.leb_le 0 n)) by lia.
Qed.
End quad.

(** ** The bytes of an IPv4 prefix *)

Lemma be_bytes_range n v b : b ∈ be_bytes n v → 0 ≤ b < 256.
Proof.
  induction n as [|n IH]; simpl; [intros H; by apply not_elem_of_nil in H|].
  intros [->|H]%elem_of_cons; [apply Z.mod_pos_bound; lia|auto].
Qed.

Lemma be_val_bytes4 v : 0 ≤ v < 2 ^ 32 → be_val (be_bytes 4 v) = v.
Proof.
  intros Hv. unfold be_val. cbn -[Z.div Z.modulo Z.mul Z.add Z.pow].
  change (2 ^ (8 * 3)) with 16777216. change (2 ^ (8 * 2)) with 65536.
  change (2 ^ (8 * 1)) with 256. change (2 ^ (8 * 0)) with 1.
  change (2 ^ 32) with 4294967296 in Hv.
  Z.to_euclidean_division_equations. lia.
Qed.

Lemma lor_pow2_clear e k : 0 ≤ k → Z.testbit e k = false → Z.lor e (2 ^ k) = e + 2 ^ k.
Proof.
  intros Hk Ht.
  assert (Hl : Z.land e (2 ^ k) = 0).
  { apply Z.bits_inj'. intros i Hi. rewrite Z.land_spec, Z.bits_0, Z.pow2_bits_eqb by done.
    destruct (Z.eqb_spec k i); subst; [by rewrite Ht|apply andb_false_r]. }
  rewrite <- Z.lxor_lor, <- Z.add_nocarry_lxor by done. done.
Qed.

Section bytes.
Context (v b : Z) (Hv : 0 ≤ v < 2 ^ 32) (Hb : 0 ≤ b < 32).
Context (Hh : v mod 2 ^ (32 - b) = 0).

Lemma host_bit_clear : Z.testbit v (31 - b) = false.
Proof.
  apply Z.mod_divide in Hh; [|apply Z.pow_nonzero; lia]. destruct Hh as [k ->].
  rewrite Z.mul_pow2_bits_low by lia. done.
Qed.

(** Byte [j] of [v] with bit [b mod 8] set, for [j = b / 8]. *)
Lemma setBit_byte j : b / 8 = j → 0 ≤ j ≤ 3 →
  setBit ((v / 2 ^ (8 * (3 - j))) mod 256) (b mod 8)
  = Ok ((v / 2 ^ (8 * (3 - j))) mod 256 + 2 ^ (7 - b mod 8)).
Proof.
  intros Hj Hr. pose proof (Z.mod_pos_bound b 8 ltac:(lia)).
  pose proof (Z.div_mod b 8 ltac:(lia)).
  unfold setBit. rewrite !(proj2 (Z.ltb_ge _ _)) by lia. cbn [orb].
  rewrite Z.shiftl_1_l, lor_pow2_clear; [done|lia|].
  change 256 with (2 ^ 8). rewrite Z.mod_pow2_bits_low by lia.
  rewrite Z.div_pow2_bits by lia.
  replace (7 - b mod 8 + 8 * (3 - j)) with (31 - b) by lia. apply host_bit_clear.
Qed.

Lemma setBit_range e : 0 ≤ e < 256 → Z.testbit e (7 - b mod 8) = false →
  0 ≤ e + 2 ^ (7 - b mod 8) < 256.
Proof.
  intros He Ht. pose proof (Z.mod_pos_bound b 8 ltac:(lia)).
  rewrite <- lor_pow2_clear by (done || lia).
  assert (0 < 2 ^ (7 - b mod 8)) by (apply Z.pow_pos_nonneg; lia).
  split; [apply Z.lor_nonneg; lia|].
  change 256 with (2 ^ 8). apply Z.log2_lt_pow2; [|].
  - assert (0 ≤ Z.lor e (2 ^ (7 - b mod 8))) by (apply Z.lor_nonneg; lia).
    assert (Z.lor e (2 ^ (7 - b mod 8)) ≠ 0) by (rewrite Z.lor_eq_0_iff; lia). lia.
  - rewrite Z.log2_lor by lia. apply Z.max_lub_lt.
    + destruct (Z.eq_dec e 0) as [->|]; [done|]. apply Z.log2_lt_pow2; lia.
    + rewrite Z.log2_pow2; lia.
Qed.
End bytes.

(** ** What splitting computes *)

Lemma checkHostBitsZero_wf4 p : wf4 p → checkHostBitsZero p = None.
Proof.
  intros [Hl Hv Hz Hb Hh]. unfold checkHostBitsZero, Masked, Prefix_IsValid.
  rewrite (proj2 (Z.leb_le _ _)) by lia. cbn [pAddr].
  destruct (same_addr _ _) eqn:Hs; [done|]. exfalso. apply not_true_iff_false in Hs.
  apply Hs, same_addr_spec; [done|].
  destruct p as [[l v z] b]; simpl in *; subst. f_equal.
  rewrite net_div by (simpl; lia). simpl.
  rewrite Z.shiftl_mul_pow2 by lia.
  pose proof (Z.div_mod v (2 ^ (32 - b)) ltac:(apply Z.pow_nonzero; lia)). lia.
Qed.

(** A prefix that passes the check is masked. *)
Lemma checkHostBitsZero_inv p :
  valid_prefix p → bitlen (pAddr p) = 32 → checkHostBitsZero p = None → wf4 p.
Proof.
  intros [_ Hv Hz Hb] Hl. unfold checkHostBitsZero, Masked, Prefix_IsValid.
  rewrite Hl in *. rewrite (proj2 (Z.leb_le _ _)) by lia. cbn [pAddr].
  destruct (same_addr _ _) eqn:Hs; [|done]. intros _.
  apply same_addr_spec in Hs; [|by rewrite Hz].
  split; auto.
  rewrite <- Hs. simpl. rewrite Z.shiftl_mul_pow2 by lia. apply Z.mod_mul.
  apply Z.pow_nonzero; lia.
Qed.

Lemma bytes4 v : be_bytes 4 v
  = [(v / 2 ^ (8 * (3 - 0))) mod 256; (v / 2 ^ (8 * (3 - 1))) mod 256;
     (v / 2 ^ (8 * (3 - 2))) mod 256; (v / 2 ^ (8 * (3 - 3))) mod 256].
Proof. done. Qed.

Lemma MustParsePrefix_text bs n :
  List.length bs = 4%nat → (∀ b, b ∈ bs → 0 ≤ b < 256) → 0 ≤ n ≤ 32 →
  MustParsePrefix (prefix_text bs n) = Ret (mkPrefix (AddrFrom4 (be_val bs)) n).
Proof.
  intros Hl Hr Hn. destruct bs as [|b0 [|b1 [|b2 [|b3 [|]]]]]; try done.
  unfold MustParsePrefix. rewrite parse_prefix_text; [|apply Hr; repeat constructor..|lia].
  by rewrite (proj2 (Z.leb_le n 32)) by lia.
Qed.

Lemma MustParsePrefix_too_long bs n :
  List.length bs = 4%nat → (∀ b, b ∈ bs → 0 ≤ b < 256) → 32 < n < 256 →
  MustParsePrefix (prefix_text bs n) = Panic.
Proof.
  intros Hl Hr Hn. destruct bs as [|b0 [|b1 [|b2 [|b3 [|]]]]]; try done.
  unfold MustParsePrefix. rewrite parse_prefix_text; [|apply Hr; repeat constructor..|lia].
  by rewrite (proj2 (Z.leb_gt n 32)) by lia.
Qed.

(** The four bytes with bit [b] of the address set. *)
Lemma set_bytes v b : 0 ≤ v < 2 ^ 32 → 0 ≤ b < 32 → v mod 2 ^ (32 - b) = 0 →
  ∃ e e', be_bytes 4 v !! Z.to_nat (b / 8) = Some e ∧ setBit e (b mod 8) = Ok e' ∧
    (∀ x, x ∈ <[Z.to_nat (b / 8) := e']> (be_bytes 4 v) → 0 ≤ x < 256) ∧
    be_val (<[Z.to_nat (b / 8) := e']> (be_bytes 4 v)) = v + 2 ^ (31 - b).
Proof.
  intros Hv Hb Hh.
  assert (Hj : ∃ j, b / 8 = j ∧ (j = 0 ∨ j = 1 ∨ j = 2 ∨ j = 3)).
  { exists (b / 8). split; [done|]. Z.to_euclidean_division_equations; lia. }
  destruct Hj as (j & Hj & Hc). rewrite Hj.
  set (e := (v / 2 ^ (8 * (3 - j))) mod 256).
  pose proof (setBit_byte v b Hv Hb Hh j Hj ltac:(lia)) as Hset. fold e in Hset.
  exists e, (e + 2 ^ (7 - b mod 8)).
  assert (He : 0 ≤ e + 2 ^ (7 - b mod 8) < 256).
  { eapply setBit_range; [eassumption..|apply Z.mod_pos_bound; lia|].
    pose proof (Z.mod_pos_bound b 8 ltac:(lia)). pose proof (Z.div_mod b 8 ltac:(lia)).
    unfold e. change 256 with (2 ^ 8). rewrite Z.mod_pow2_bits_low by lia.
    rewrite Z.div_pow2_bits by lia.
    replace (7 - b mod 8 + 8 * (3 - j)) with (31 - b) by lia. by eapply host_bit_clear. }
  split_and!; [|done|..].
  - rewrite bytes4. destruct Hc as [->|[->|[->| ->]]]; done.
  - intros x Hx. apply list_elem_of_lookup in Hx as [i Hi].
    apply list_lookup_insert_Some in Hi as [(_ & <- & _)|(_ & Hi)]; [done|].
    eapply be_bytes_range, list_elem_of_lookup_2, Hi.
  - assert (Hp : 2 ^ (31 - b) = 2 ^ (7 - b mod 8) * 2 ^ (8 * (3 - j))).
    { pose proof (Z.mod_pos_bound b 8 ltac:(lia)). pose proof (Z.div_mod b 8 ltac:(lia)).
      rewrite <- Z.pow_add_r by lia. f_equal. lia. }
    rewrite Hp. rewrite <- (be_val_bytes4 v Hv) at 2. clear Hset He Hp.
    unfold be_val, e. rewrite bytes4. clear e.
    destruct Hc as [->|[->|[->| ->]]];
      change (Z.to_nat 0) with 0%nat; change (Z.to_nat 1) with 1%nat;
      change (Z.to_nat 2) with 2%nat; change (Z.to_nat 3) with 3%nat;
      cbn [insert list_insert fold_left];
      generalize ((v / 2 ^ (8 * (3 - 0))) mod 256) as x0,
        ((v / 2 ^ (8 * (3 - 1))) mod 256) as x1, ((v / 2 ^ (8 * (3 - 2))) mod 256) as x2,
        ((v / 2 ^ (8 * (3 - 3))) mod 256) as x3, (2 ^ (7 - b mod 8)) as w;
      change (2 ^ (8 * (3 - 0))) with 16777216; change (2 ^ (8 * (3 - 1))) with 65536;
      change (2 ^ (8 * (3 - 2))) with 256; change (2 ^ (8 * (3 - 3))) with 1; intros; ring.
Qed.

(** Splitting a masked IPv4 prefix shorter than /32 returns its two halves; it
    never panics. *)
Lemma splitNetworkPrefix_spec p : wf4 p → pBits p < 32 →
  splitNetworkPrefix p = Ret (lchild p, rchild p).
Proof.
  intros Hp Hlt. unfold splitNetworkPrefix. rewrite checkHostBitsZero_wf4 by done.
  destruct Hp as [Hl Hv Hz Hb Hh]. cbn [Must mbind outcome_bind].
  assert (Hbin : MarshalBinary p = be_bytes 4 (val (pAddr p)) ++ [pBits p]).
  { unfold MarshalBinary, addr_bytes. rewrite Hl, Z.mod_small by lia. done. }
  rewrite Hbin, length_app.
  assert (Hlen : List.length (be_bytes 4 (val (pAddr p))) = 4%nat) by done.
  rewrite Hlen. set (bs := be_bytes 4 (val (pAddr p))) in *.
  change (List.length [pBits p]) with 1%nat.
  assert (Hi : index (bs ++ [pBits p]) (Z.of_nat (4 + 1) - 1) = Ret (pBits p)).
  { reflexivity. }
  rewrite Hi. cbn [mbind outcome_bind Nat.ltb Nat.leb Nat.add].
  rewrite (take_app_length' bs) by done.
  rewrite (Z.mod_small (pBits p + 1)) by lia.
  rewrite MustParsePrefix_text; [|done|intros b; apply be_bytes_range|lia].
  cbn [mbind outcome_bind].
  destruct (set_bytes (val (pAddr p)) (pBits p) Hv ltac:(lia) Hh) as (e & e' & He & Hs & Hr & Hval).
  fold bs in He, Hr, Hval.
  assert (Hj : (Z.to_nat (pBits p / 8) < 4)%nat).
  { Z.to_euclidean_division_equations; lia. }
  assert (He' : index (bs ++ [pBits p]) (pBits p / 8) = Ret e).
  { unfold index. rewrite (proj2 (Z.leb_le _ _)) by (Z.to_euclidean_division_equations; lia).
    rewrite lookup_app_l by (rewrite Hlen; lia). by rewrite He. }
  rewrite He'. cbn [mbind outcome_bind]. rewrite Hs.
  rewrite insert_app_l by (rewrite Hlen; lia).
  rewrite take_app_length' by (rewrite length_insert; done).
  rewrite MustParsePrefix_text; [|by rewrite length_insert|done|lia].
  cbn [mbind outcome_bind]. unfold bs at 1. rewrite be_val_bytes4, Hval by done.
  unfold lchild, rchild, AddrFrom4. destruct p as [[l v z] b]; simpl in *; by subst.
Qed.

(** Splitting a single address panics: the halves would be /33. *)
Lemma splitNetworkPrefix_full p : wf4 p → pBits p = 32 → splitNetworkPrefix p = Panic.
Proof.
  intros Hp H32. unfold splitNetworkPrefix. rewrite checkHostBitsZero_wf4 by done.
  destruct Hp as [Hl Hv Hz Hb Hh]. cbn [Must mbind outcome_bind].
  assert (Hbin : MarshalBinary p = be_bytes 4 (val (pAddr p)) ++ [32]).
  { unfold MarshalBinary, addr_bytes. by rewrite Hl, H32. }
  rewrite Hbin, length_app. set (bs := be_bytes 4 (val (pAddr p))).
  assert (Hi : index (bs ++ [32]) (Z.of_nat (List.length bs + List.length [32]) - 1) = Ret 32) by reflexivity.
  rewrite Hi.
  cbn [mbind outcome_bind List.length app Nat.ltb Nat.leb Nat.add].
  rewrite (take_app_length' bs) by done.
  rewrite MustParsePrefix_too_long; [done|done|intros b; apply be_bytes_range|].
  change ((32 + 1) mod 256) with 33. lia.
Qed.
