(* ===== verification/IpamNode.v ===== *)
(** * IpamNode: the prefix tree of the IPAM (src/pkg/ipam/core/node.go)

    A [*node] pointer is a [tree]: [Nil] or a node record with its two children.
    Methods that mutate the receiver return the new tree.  The recursion of
    [allocateNetwork] and [allocateNetworkWithPrefix] goes through children that
    the call itself creates, so they run on fuel; [IpamTree] proves that the
    fuel their callers give is enough.  [toGraphviz] (debug output to a file) is
    not modelled. *)

From S2P Require Export IpamNet.
Local Open Scope Z_scope.

Record nodeIP := mkNodeIP { addr : Addr; creationTimestamp : Z }.

(** The fields of [node] other than its children. *)
Record node := mkNode {
  lastUpdateTimestamp : Z;
  prefix : Prefix;
  refCount : Z;
  ips : list nodeIP;
  lastip : Addr
}.

Inductive tree :=
| Nil
| Node (n : node) (left right : tree).

Definition set_refCount (c : Z) (n : node) : node :=
  mkNode (lastUpdateTimestamp n) (prefix n) c (ips n) (lastip n).
Definition set_lastUpdate (t : Z) (n : node) : node :=
  mkNode t (prefix n) (refCount n) (ips n) (lastip n).
Definition set_ips (l : list nodeIP) (n : node) : node :=
  mkNode (lastUpdateTimestamp n) (prefix n) (refCount n) l (lastip n).
Definition set_lastip (a : Addr) (n : node) : node :=
  mkNode (lastUpdateTimestamp n) (prefix n) (refCount n) (ips n) a.

Definition isAcquired (n : node) : bool := negb (refCount n =? 0).
Definition isExclusive (n : node) : bool := refCount n =? -1.

Inductive nodeDirection := leftDirection | rightDirection.

(** [node.prefix.Addr().Compare(prefix.Addr()) == 0 && node.prefix.Bits() == prefix.Bits()]. *)
Definition is_prefix (n : node) (p : Prefix) : bool :=
  same_addr (pAddr (prefix n)) (pAddr p) && (pBits (prefix n) =? pBits p).

Definition isSplitted (l r : tree) : bool :=
  match l, r with Node _ _ _, Node _ _ _ => true | _, _ => false end.

Definition isLeaf (l r : tree) : bool :=
  match l, r with Nil, Nil => true | _, _ => false end.

(** [n.isSplitted()] through a pointer, which panics when it is nil. *)
Definition ptr_isSplitted (t : tree) : outcome bool :=
  match t with Nil => Panic | Node _ l r => Ret (isSplitted l r) end.

Definition next (d : nodeDirection) (l r : tree) : tree :=
  match d with leftDirection => l | rightDirection => r end.

(** The children after the child in direction [d] has become [c]. *)
Definition put_next (d : nodeDirection) (c l r : tree) : tree * tree :=
  match d with leftDirection => (c, r) | rightDirection => (l, c) end.

Definition bestDirection (l r : tree) : outcome (nodeDirection * nodeDirection) :=
  ls ← ptr_isSplitted l;
  if (ls : bool) then Ret (leftDirection, rightDirection)
  else
    rs ← ptr_isSplitted r;
    if (rs : bool) then Ret (rightDirection, leftDirection)
    else Ret (leftDirection, rightDirection).

Fixpoint hasAcquiredDescendants (t : tree) : bool :=
  match t with
  | Nil => false
  | Node _ l r =>
    match l with Nil => false | Node nl _ _ => isAcquired nl || hasAcquiredDescendants l end
    || match r with Nil => false | Node nr _ _ => isAcquired nr || hasAcquiredDescendants r end
  end.

Fixpoint hasExclusiveDescendants (t : tree) : bool :=
  match t with
  | Nil => false
  | Node _ l r =>
    match l with Nil => false | Node nl _ _ => isExclusive nl || hasExclusiveDescendants l end
    || match r with Nil => false | Node nr _ _ => isExclusive nr || hasExclusiveDescendants r end
  end.

Section clocked.
Context (clock : nat → Z).

(** [newNode]. *)
Definition newNode (p : Prefix) : M tree :=
  ts ← now clock;
  mret (Node (mkNode ts p 0 [] zeroAddr) Nil Nil).

(** [insert]: a fresh node in the given direction. *)
Definition insert_child (nd : nodeDirection) (p : Prefix) (l r : tree) : M (tree * tree) :=
  c ← newNode p;
  mret (put_next nd c l r).

Definition split (n : node) (l r : tree) : M (tree * tree) :=
  if isSplitted l r then mret (l, r)
  else
    '(lp, rp) ← lift (splitNetworkPrefix (prefix n));
    '(l, r) ← insert_child leftDirection lp l r;
    insert_child rightDirection rp l r.

Fixpoint allocateNetwork (fuel : nat) (size : Z) (t : tree) (exclusive : bool)
  : M (option Prefix * tree) :=
  match fuel with
  | O => diverge
  | S fuel =>
    match t with
    | Nil => panic
    | Node n l r =>
      if isAcquired n || (size <? pBits (prefix n)) then mret (None, t)
      else if pBits (prefix n) =? size then
        if negb (isSplitted l r) then
          ts ← now clock;
          mret (Some (prefix n),
                Node (set_lastUpdate ts (set_refCount (if exclusive then -1 else 1) n)) l r)
        else mret (None, t)
      else
        '(l, r) ← (if negb (isSplitted l r) then split n l r else mret (l, r));
        '(first, second) ← lift (bestDirection l r);
        '(res, c) ← allocateNetwork fuel size (next first l r) exclusive;
        let '(l, r) := put_next first c l r in
        match res with
        | Some _ => mret (res, Node n l r)
        | None =>
          '(res, c) ← allocateNetwork fuel size (next second l r) exclusive;
          let '(l, r) := put_next second c l r in
          mret (res, Node n l r)
        end
    end
  end.

(** The branch of [allocateNetworkWithPrefix] for the requested node itself. *)
Definition acquireHere (n : node) (l r : tree) (exclusive : bool)
  : M (option Prefix * tree) :=
  let t := Node n l r in
  if exclusive then
    if isAcquired n || hasAcquiredDescendants t then mret (None, t)
    else
      ts ← now clock;
      mret (Some (prefix n), Node (set_lastUpdate ts (set_refCount (-1) n)) l r)
  else
    if isExclusive n || hasExclusiveDescendants t then mret (None, t)
    else
      ts ← now clock;
      mret (Some (prefix n),
            Node (set_lastUpdate ts (set_refCount (refCount n + 1) n)) l r).

Fixpoint allocateNetworkWithPrefix (fuel : nat) (p : Prefix) (t : tree) (exclusive : bool)
  : M (option Prefix * tree) :=
  match fuel with
  | O => diverge
  | S fuel =>
    match t with
    | Nil => panic
    | Node n l r =>
      if negb (isPrefixChildOf (prefix n) p) then mret (None, t)
      else if is_prefix n p then acquireHere n l r exclusive
      else if isExclusive n || (exclusive && isAcquired n) then mret (None, t)
      else
        '(l, r) ← (if negb (isSplitted l r) then split n l r else mret (l, r));
        if match l with Nil => false | Node nl _ _ => Overlaps (prefix nl) p end then
          '(res, l) ← allocateNetworkWithPrefix fuel p l exclusive;
          mret (res, Node n l r)
        else if match r with Nil => false | Node nr _ _ => Overlaps (prefix nr) p end then
          '(res, r) ← allocateNetworkWithPrefix fuel p r exclusive;
          mret (res, Node n l r)
        else mret (None, Node n l r)
    end
  end.

(** [x.Add(gracePeriod).Before(time.Now())]. *)
Definition expired (x gracePeriod : Z) : M bool :=
  ts ← now clock;
  mret (x + gracePeriod <? ts).

Definition merge (n : node) (l r : tree) (gracePeriod : Z) : M tree :=
  match l, r with
  | Node nl ll lr, Node nr rl rr =>
    le ← expired (lastUpdateTimestamp nl) gracePeriod;
    re ← (if (le : bool) then expired (lastUpdateTimestamp nr) gracePeriod else mret false);
    if negb le || negb re then mret (Node n l r)
    else if negb (isLeaf ll lr) || negb (isLeaf rl rr) then mret (Node n l r)
    else if isAcquired nl || isAcquired nr then mret (Node n l r)
    else
      ts ← now clock;
      mret (Node (set_lastUpdate ts n) Nil Nil)
  | _, _ => mret (Node n l r)
  end.

(** The counter after one release. *)
Definition released_refCount (n : node) : Z :=
  if isExclusive n then 0
  else if 0 <? refCount n then refCount n - 1
  else refCount n.

Fixpoint networkRelease (p : Prefix) (t : tree) (gracePeriod : Z)
  : M (option Prefix * tree) :=
  match t with
  | Nil => panic
  | Node n l r =>
    here ← (if is_prefix n p then expired (lastUpdateTimestamp n) gracePeriod
            else mret false);
    if (here : bool) then
      if isAcquired n then
        ts ← now clock;
        mret (Some (prefix n),
              Node (set_lastUpdate ts (set_refCount (released_refCount n) n)) l r)
      else mret (None, t)
    else
      '(res, l) ← match l with
                  | Nil => mret (None, l)
                  | Node nl _ _ =>
                    if isPrefixChildOf (prefix nl) p then networkRelease p l gracePeriod
                    else mret (None, l)
                  end;
      '(res, r) ← match r with
                  | Nil => mret (res, r)
                  | Node nr _ _ =>
                    if isPrefixChildOf (prefix nr) p then networkRelease p r gracePeriod
                    else mret (res, r)
                  end;
      t' ← merge n l r gracePeriod;
      mret (res, t')
  end.

(** *** Addresses of a node *)

Definition isAllocatedIP (n : node) (ip : Addr) : bool :=
  existsb (fun x => same_addr (addr x) ip) (ips n).

(** [int(math.Pow(2, float64(k)))]: exact below 2^63; past it the conversion
    saturates to the smallest [int] (amd64). *)
Definition int_pow2 (k : Z) : Z := if k <? 63 then 2 ^ k else - 2 ^ 63.

Fixpoint ipAcquire_loop (k : nat) (n : node) (a : Addr) : M (option Addr * node) :=
  match k with
  | O => mret (None, n)
  | S k =>
    let a := if Contains (prefix n) a then a else pAddr (prefix n) in
    if negb (isAllocatedIP n a) then
      created ← now clock;
      updated ← now clock;
      mret (Some a,
            set_lastUpdate updated (set_lastip a (set_ips (ips n ++ [mkNodeIP a created]) n)))
    else ipAcquire_loop k n (Next a)
  end.

Definition ipAcquire (n : node) : M (option Addr * node) :=
  if negb (isAcquired n) then mret (None, n)
  else
    let size := int_pow2 (bitlen (pAddr (prefix n)) - pBits (prefix n)) in
    let n := if negb (Addr_IsValid (lastip n)) then set_lastip (pAddr (prefix n)) n else n in
    let a := if negb (same_addr (lastip n) (pAddr (prefix n))) then Next (lastip n)
             else lastip n in
    ipAcquire_loop (Z.to_nat size) n a.

Definition allocateIPWithAddr (n : node) (a : Addr) : M (option Addr * node) :=
  if negb (isAcquired n) then mret (None, n)
  else if negb (Contains (prefix n) a) then mret (None, n)
  else if existsb (fun x => same_addr (addr x) a) (ips n) then mret (None, n)
  else
    created ← now clock;
    updated ← now clock;
    mret (Some a, set_lastUpdate updated (set_ips (ips n ++ [mkNodeIP a created]) n)).

(** The loop of [ipRelease]: the address found and the remaining slice. *)
Fixpoint ipRelease_loop (ip : Addr) (gracePeriod : Z) (l : list nodeIP)
  : M (option Addr * list nodeIP) :=
  match l with
  | [] => mret (None, [])
  | x :: l' =>
    e ← expired (creationTimestamp x) gracePeriod;
    if (e : bool) && same_addr (addr x) ip then mret (Some (addr x), l')
    else
      '(res, l'') ← ipRelease_loop ip gracePeriod l';
      mret (res, x :: l'')
  end.

Definition ipRelease (n : node) (ip : Addr) (gracePeriod : Z) : M (option Addr * node) :=
  if negb (isAcquired n) then mret (None, n)
  else
    '(res, l) ← ipRelease_loop ip gracePeriod (ips n);
    match res with
    | None => mret (None, n)
    | Some _ =>
      ts ← now clock;
      mret (res, set_lastUpdate ts (set_ips l n))
    end.
End clocked.

Fixpoint networkIsAvailable (p : Prefix) (t : tree) : bool :=
  match t with
  | Nil => false
  | Node n l r =>
    if is_prefix n p then
      if match l with Nil => false | Node nl ll lr => isSplitted ll lr || isAcquired nl end
      then false
      else if match r with Nil => false | Node nr rl rr => isSplitted rl rr || isAcquired nr end
      then false
      else negb (isAcquired n)
    else if isLeaf l r then negb (isAcquired n)
    else if match l with
            | Nil => false
            | Node nl _ _ => isPrefixChildOf (prefix nl) p && negb (isAcquired nl)
            end then networkIsAvailable p l
    else if match r with
            | Nil => false
            | Node nr _ _ => isPrefixChildOf (prefix nr) p && negb (isAcquired nr)
            end then networkIsAvailable p r
    else false
  end.

Fixpoint listNetworks (t : tree) : list Prefix :=
  match t with
  | Nil => []
  | Node n l r =>
    if isAcquired n then
      if isExclusive n then [prefix n]
      else prefix n :: (listNetworks l ++ listNetworks r)
    else listNetworks l ++ listNetworks r
  end.

(** [search] returns a pointer to a node of the tree: [search] reads the node
    found, [store] writes it back in place. *)
Fixpoint search (p : Prefix) (t : tree) : option node :=
  match t with
  | Nil => None
  | Node n l r =>
    if is_prefix n p then Some n
    else if match l with Nil => false | Node nl _ _ => isPrefixChildOf (prefix nl) p end
    then search p l
    else if match r with Nil => false | Node nr _ _ => isPrefixChildOf (prefix nr) p end
    then search p r
    else None
  end.

Fixpoint store (p : Prefix) (n' : node) (t : tree) : tree :=
  match t with
  | Nil => Nil
  | Node n l r =>
    if is_prefix n p then Node n' l r
    else if match l with Nil => false | Node nl _ _ => isPrefixChildOf (prefix nl) p end
    then Node n (store p n' l) r
    else if match r with Nil => false | Node nr _ _ => isPrefixChildOf (prefix nr) p end
    then Node n l (store p n' r)
    else t
  end.
