(* ===== verification/IpamTree.v ===== *)
(** * IpamTree: invariant and abstract state of the prefix tree

    The abstract state of a tree maps each prefix to a reference count ([rc]:
    0 free, -1 exclusive, n > 0 shared n times) and to the addresses held in it
    ([held]).  [wf p t] is the representation invariant of a tree rooted at [p].
    Each operation of [IpamNode] is specified on the abstract state with [wp],
    so a specification also says that the call neither panics nor runs out of
    fuel. *)

From S2P Require Export IpamNode.
Local Open Scope Z_scope.

Record node_ok (p : Prefix) (n : node) : Prop := {
  ok_wf4 : wf4 p;
  ok_prefix : prefix n = p;
  ok_rc : -1 ≤ refCount n;
  ok_ips : ∀ x, x ∈ ips n → Contains p (addr x) = true;
  ok_nodup : NoDup (addr <$> ips n);
  ok_last : lastip n = zeroAddr ∨ Contains p (lastip n) = true
}.

(** Nothing in the tree is acquired. *)
Fixpoint free (t : tree) : Prop :=
  match t with
  | Nil => True
  | Node n l r => refCount n = 0 ∧ free l ∧ free r
  end.

(** Nothing in the tree is acquired exclusively. *)
Fixpoint unexclusive (t : tree) : Prop :=
  match t with
  | Nil => True
  | Node n l r => refCount n ≠ -1 ∧ unexclusive l ∧ unexclusive r
  end.

(** A node has no child or both; the children are its two halves; below an
    exclusive node nothing is acquired. *)
Inductive wf : Prefix → tree → Prop :=
| wf_leaf p n : node_ok p n → wf p (Node n Nil Nil)
| wf_fork p n l r :
    node_ok p n → pBits p < 32 → wf (lchild p) l → wf (rchild p) r →
    (refCount n = -1 → free l ∧ free r) →
    wf p (Node n l r).

(** ** Abstract state *)

Fixpoint node_at (t : tree) (q : Prefix) : option node :=
  match t with
  | Nil => None
  | Node n l r => if decide (prefix n = q) then Some n else node_at l q ∪ node_at r q
  end.

Definition rc (t : tree) (q : Prefix) : Z :=
  match node_at t q with Some n => refCount n | None => 0 end.
Definition held (t : tree) (q : Prefix) : list Addr :=
  match node_at t q with Some n => addr <$> ips n | None => [] end.

(** [q] can be acquired when no acquired prefix overlaps it (exclusively), or
    no exclusive one does (shared). *)
Definition can_acquire (f : Prefix → Z) (q : Prefix) (exclusive : bool) : Prop :=
  ∀ x, f x ≠ 0 → Overlaps x q = true → if exclusive then False else f x ≠ -1.

Definition acquire_delta (exclusive : bool) : Z := if exclusive then -1 else 1.
Definition release_delta (c : Z) : Z := if c =? -1 then 1 else -1.

(** ** Structure of well-formed trees *)

Section fork.
Context (p : Prefix) (Hp : wf4 p) (Hlt : pBits p < 32).

Lemma under_lchild_up q : valid_prefix q → under (lchild p) q → under p q.
Proof.
  intros Hq H. apply (under_trans p (lchild p) q); auto using lchild_wf, under_lchild.
Qed.

Lemma under_rchild_up q : valid_prefix q → under (rchild p) q → under p q.
Proof.
  intros Hq H. apply (under_trans p (rchild p) q); auto using rchild_wf, under_rchild.
Qed.

Lemma under_siblings_disjoint x q :
  wf4 x → valid_prefix q → under (lchild p) x → under (rchild p) q → Overlaps x q = false.
Proof.
  intros Hx Hq (Hx1 & Hx2 & Hx3) (Hq1 & Hq2 & Hq3). cbn [lchild rchild pBits] in *.
  apply not_true_iff_false. rewrite Overlaps_spec by done. intros [_ Hn].
  destruct Hx as [Hxl _ _ Hxb _], Hq as [_ _ _ Hqb].
  rewrite Hq1 in Hqb. pose proof (wf4_bits _ Hp).
  apply (net_coarse _ _ (pBits p + 1)) in Hn; [|done|done|lia|lia].
  rewrite Hx3, Hq3, (net_rchild p), (net_lchild p) in Hn by done. lia.
Qed.

Lemma under_siblings_disjoint_r x q :
  wf4 x → valid_prefix q → under (rchild p) x → under (lchild p) q → Overlaps x q = false.
Proof.
  intros Hx Hq (Hx1 & Hx2 & Hx3) (Hq1 & Hq2 & Hq3). cbn [lchild rchild pBits] in *.
  apply not_true_iff_false. rewrite Overlaps_spec by done. intros [_ Hn].
  destruct Hx as [Hxl _ _ Hxb _], Hq as [_ _ _ Hqb].
  rewrite Hq1 in Hqb. pose proof (wf4_bits _ Hp).
  apply (net_coarse _ _ (pBits p + 1)) in Hn; [|done|done|lia|lia].
  rewrite Hx3, Hq3, (net_rchild p), (net_lchild p) in Hn by done. lia.
Qed.

Lemma under_not_both q : valid_prefix q → under (lchild p) q → ¬ under (rchild p) q.
Proof.
  intros Hq Hl Hr. destruct (under_children p Hp Hlt q Hq) as [[]|[]]; auto.
  - by apply under_lchild_up.
  - pose proof (under_bits _ _ Hl). cbn [lchild pBits] in *. lia.
Qed.
End fork.

Lemma wf_root p t : wf p t → ∃ n l r, t = Node n l r ∧ node_ok p n.
Proof. destruct 1; eauto 10. Qed.

Lemma wf_wf4 p t : wf p t → wf4 p.
Proof. intros (n & l & r & -> & [])%wf_root. done. Qed.
#[export] Hint Resolve wf_wf4 : liqo.

Lemma wf_prefix p n l r : wf p (Node n l r) → prefix n = p.
Proof. intros (n' & l' & r' & [= <- <- <-] & [])%wf_root. done. Qed.

(** Reading the prefix of a child through its pointer. *)
Lemma wf_child_match {A} p t (f : Prefix → A) d : wf p t →
  match t with Nil => d | Node n _ _ => f (prefix n) end = f p.
Proof. intros (n & l & r & -> & [])%wf_root. by subst. Qed.

Lemma is_prefix_spec p n q : node_ok p n → valid_prefix q → is_prefix n q = true ↔ q = p.
Proof.
  intros Hn Hq. destruct Hn as [Hp <- _ _ _ _]. unfold is_prefix.
  rewrite same_prefix_spec; [naive_solver|].
  by rewrite (wf4_zone _ Hp), (vp_zone _ Hq).
Qed.

Lemma node_at_under p t q n : wf p t → node_at t q = Some n → node_ok q n ∧ wf4 q ∧ under p q.
Proof.
  intros Hwf. revert q n. induction Hwf as [p m Hm|p m l r Hm Hlt Hl IHl Hr IHr _];
    intros q n; simpl; case_decide as Hd.
  - intros [= ->]. assert (q = p) as -> by (rewrite <- Hd; apply Hm).
    split_and!; [done|apply Hm|apply under_refl, Hm].
  - done.
  - intros [= ->]. assert (q = p) as -> by (rewrite <- Hd; apply Hm).
    split_and!; [done|apply Hm|apply under_refl, Hm].
  - pose proof (ok_wf4 _ _ Hm) as Hp. intros Hn.
    destruct (node_at l q) as [n0|] eqn:El.
    + assert (n0 = n) as -> by (destruct (node_at r q); by injection Hn).
      destruct (IHl _ _ El) as (? & ? & ?). split_and!; [done..|].
      apply under_lchild_up; auto with liqo.
    + assert (node_at r q = Some n) as Hn' by (by destruct (node_at r q)).
      destruct (IHr _ _ Hn') as (? & ? & ?). split_and!; [done..|].
      apply under_rchild_up; auto with liqo.
Qed.

Lemma rc_under p t q : wf p t → rc t q ≠ 0 → wf4 q ∧ under p q.
Proof.
  unfold rc. intros Hwf H. destruct (node_at t q) eqn:E; [|done].
  by destruct (node_at_under _ _ _ _ Hwf E) as (_ & ? & ?).
Qed.

Lemma rc_range p t q : wf p t → -1 ≤ rc t q.
Proof.
  unfold rc. intros Hwf. destruct (node_at t q) eqn:E; [|done].
  destruct (node_at_under _ _ _ _ Hwf E) as ([] & _). done.
Qed.

Lemma node_at_outside p t q : wf p t → ¬ under p q → node_at t q = None.
Proof.
  intros Hwf Hu. destruct (node_at t q) eqn:E; [|done].
  by destruct (node_at_under _ _ _ _ Hwf E) as (_ & _ & ?).
Qed.

Section fork_at.
Context (p : Prefix) (n : node) (l r : tree).
Context (Hn : node_ok p n) (Hlt : pBits p < 32).
Context (Hl : wf (lchild p) l) (Hr : wf (rchild p) r).

Lemma node_at_here : node_at (Node n l r) p = Some n.
Proof. simpl. by rewrite decide_True by apply Hn. Qed.

Lemma node_at_left q : valid_prefix q → under (lchild p) q →
  node_at (Node n l r) q = node_at l q.
Proof.
  intros Hq Hu. simpl. rewrite decide_False.
  - rewrite (node_at_outside _ r q Hr); [by destruct (node_at l q)|].
    eapply under_not_both; eauto using ok_wf4.
  - rewrite (ok_prefix _ _ Hn). intros <-. pose proof (under_bits _ _ Hu).
    cbn [lchild pBits] in *. lia.
Qed.

Lemma node_at_right q : valid_prefix q → under (rchild p) q →
  node_at (Node n l r) q = node_at r q.
Proof.
  intros Hq Hu. simpl. rewrite decide_False.
  - rewrite (node_at_outside _ l q Hl); [by destruct (node_at r q)|].
    intros Hu'. eapply (under_not_both p); eauto using ok_wf4.
  - rewrite (ok_prefix _ _ Hn). intros <-. pose proof (under_bits _ _ Hu).
    cbn [rchild pBits] in *. lia.
Qed.
End fork_at.

(** On a fork the abstract state is that of the node and the sum of those of
    the halves, which share no prefix. *)
Lemma node_at_split p n l r x :
  node_ok p n → pBits p < 32 → wf (lchild p) l → wf (rchild p) r → x ≠ p →
  (node_at (Node n l r) x = node_at l x ∧ node_at r x = None) ∨
  (node_at (Node n l r) x = node_at r x ∧ node_at l x = None).
Proof.
  intros Hn Hlt Hl Hr Hx. simpl. rewrite decide_False by (rewrite (ok_prefix _ _ Hn); congruence).
  destruct (node_at l x) as [m|] eqn:El; [|right; split; [by destruct (node_at r x)|done]].
  left. destruct (node_at_under _ _ _ _ Hl El) as (_ & Hw & Hu).
  rewrite (node_at_outside _ r x Hr); [split; done|].
  eapply under_not_both; eauto using ok_wf4 with liqo.
Qed.

Lemma rc_fork p n l r x :
  node_ok p n → pBits p < 32 → wf (lchild p) l → wf (rchild p) r →
  rc (Node n l r) x = if decide (x = p) then refCount n else rc l x + rc r x.
Proof.
  intros Hn Hlt Hl Hr. unfold rc. case_decide as Hx.
  - subst. by rewrite node_at_here.
  - destruct (node_at_split p n l r x) as [[-> ->]|[-> ->]]; auto; lia.
Qed.

Lemma held_fork p n l r x :
  node_ok p n → pBits p < 32 → wf (lchild p) l → wf (rchild p) r →
  held (Node n l r) x = if decide (x = p) then addr <$> ips n else held l x ++ held r x.
Proof.
  intros Hn Hlt Hl Hr. unfold held. case_decide as Hx.
  - subst. by rewrite node_at_here.
  - destruct (node_at_split p n l r x) as [[-> ->]|[-> ->]]; auto. by rewrite app_nil_r.
Qed.

Lemma rc_leaf p n x : node_ok p n →
  rc (Node n Nil Nil) x = if decide (x = p) then refCount n else 0.
Proof.
  intros [_ He]. unfold rc. simpl. rewrite He.
  destruct (decide (p = x)), (decide (x = p)); naive_solver.
Qed.

Lemma held_leaf p n x : node_ok p n →
  held (Node n Nil Nil) x = if decide (x = p) then addr <$> ips n else [].
Proof.
  intros [_ He]. unfold held. simpl. rewrite He.
  destruct (decide (p = x)), (decide (x = p)); naive_solver.
Qed.

Lemma rc_here p n l r : node_ok p n → rc (Node n l r) p = refCount n.
Proof. intros Hn. unfold rc. by rewrite node_at_here. Qed.

(** ** Searching for acquired descendants *)

Definition acquired_in (t : tree) : bool :=
  match t with Nil => false | Node n _ _ => isAcquired n || hasAcquiredDescendants t end.
Definition exclusive_in (t : tree) : bool :=
  match t with Nil => false | Node n _ _ => isExclusive n || hasExclusiveDescendants t end.

Lemma acquired_in_spec t : acquired_in t = false ↔ free t.
Proof.
  induction t as [|n l IHl r IHr]; [done|]. simpl.
  change (isAcquired n || (acquired_in l || acquired_in r) = false ↔ refCount n = 0 ∧ free l ∧ free r).
  rewrite !orb_false_iff, IHl, IHr. unfold isAcquired. rewrite negb_false_iff, Z.eqb_eq. done.
Qed.

Lemma exclusive_in_spec t : exclusive_in t = false ↔ unexclusive t.
Proof.
  induction t as [|n l IHl r IHr]; [done|]. simpl.
  change (isExclusive n || (exclusive_in l || exclusive_in r) = false
          ↔ refCount n ≠ -1 ∧ unexclusive l ∧ unexclusive r).
  rewrite !orb_false_iff, IHl, IHr. unfold isExclusive. rewrite Z.eqb_neq. done.
Qed.

Lemma free_rc t x : free t → rc t x = 0.
Proof.
  unfold rc. induction t as [|n l IHl r IHr]; simpl; [done|]. intros (Hn & Hl & Hr).
  case_decide; [done|].
  specialize (IHl Hl). specialize (IHr Hr).
  by destruct (node_at l x), (node_at r x).
Qed.

Lemma unexclusive_rc t x : unexclusive t → rc t x ≠ -1.
Proof.
  unfold rc. induction t as [|n l IHl r IHr]; simpl; [done|]. intros (Hn & Hl & Hr).
  case_decide; [done|].
  specialize (IHl Hl). specialize (IHr Hr).
  by destruct (node_at l x), (node_at r x).
Qed.

(** A prefix acquired in one half is acquired neither in the other nor at the
    node itself. *)
Lemma rc_siblings p l r x :
  wf4 p → pBits p < 32 → wf (lchild p) l → wf (rchild p) r → rc l x = 0 ∨ rc r x = 0.
Proof.
  intros Hp Hlt Hl Hr. destruct (decide (rc l x = 0)) as [|Hc]; [by left|right].
  destruct (rc_under _ _ _ Hl Hc) as [Hw Hu].
  unfold rc. rewrite (node_at_outside _ r x Hr); [done|].
  eapply under_not_both; eauto with liqo.
Qed.

Lemma rc_below p c t : wf c t → pBits p < pBits c → rc t p = 0.
Proof.
  intros Hwf Hlt. destruct (decide (rc t p = 0)) as [|Hc]; [done|].
  destruct (rc_under _ _ _ Hwf Hc) as [_ Hu]. pose proof (under_bits _ _ Hu). lia.
Qed.

(** The converse of [free_rc]. *)
Lemma rc_free p t : wf p t → (∀ x, rc t x = 0) → free t.
Proof.
  induction 1 as [p n Hn|p n l r Hn Hlt Hl IHl Hr IHr He]; intros Hz.
  - split_and!; [|done..]. rewrite <- (rc_here p n Nil Nil Hn). apply Hz.
  - assert (Hlr : ∀ x, rc l x = 0 ∧ rc r x = 0).
    { intros x. specialize (Hz x). rewrite (rc_fork p) in Hz by done.
      pose proof (rc_siblings p l r x (ok_wf4 _ _ Hn) Hlt Hl Hr).
      case_decide; [subst|lia].
      split; eapply rc_below; eauto; simpl; lia. }
    split_and!; [rewrite <- (rc_here p n l r Hn); apply Hz|..].
    + apply IHl. intros x. apply Hlr.
    + apply IHr. intros x. apply Hlr.
Qed.

Lemma rc_unexclusive p t : wf p t → (∀ x, rc t x ≠ -1) → unexclusive t.
Proof.
  induction 1 as [p n Hn|p n l r Hn Hlt Hl IHl Hr IHr He]; intros Hz.
  - split_and!; [|done..]. rewrite <- (rc_here p n Nil Nil Hn). apply Hz.
  - assert (Hlr : ∀ x, rc l x ≠ -1 ∧ rc r x ≠ -1).
    { intros x. specialize (Hz x). rewrite (rc_fork p) in Hz by done.
      pose proof (rc_siblings p l r x (ok_wf4 _ _ Hn) Hlt Hl Hr).
      case_decide; [subst|lia].
      rewrite (rc_below p (lchild p)), (rc_below p (rchild p)) by (done || simpl; lia). done. }
    split_and!; [rewrite <- (rc_here p n l r Hn); apply Hz|..].
    + apply IHl. intros x. apply Hlr.
    + apply IHr. intros x. apply Hlr.
Qed.

(** ** Acquiring a given prefix *)

Lemma Overlaps_under x q : wf4 x → wf4 q → Overlaps x q = true ↔ under x q ∨ under q x.
Proof.
  intros Hx Hq. rewrite Overlaps_spec by auto with liqo.
  destruct Hx as [Hxl _ _ Hxb _], Hq as [Hql _ _ Hqb _]. unfold under.
  destruct (Z.le_gt_cases (pBits x) (pBits q)).
  - rewrite Z.min_l by lia. split; [naive_solver|].
    intros [(? & ? & ?)|(? & ? & Hn)]; [done|].
    assert (pBits x = pBits q) as -> by lia. done.
  - rewrite Z.min_r by lia. split; [naive_solver lia|].
    intros [(? & ? & ?)|(? & ? & Hn)]; [lia|done].
Qed.

(** At the prefix itself. *)
Lemma can_acquire_here p n l r ex : wf p (Node n l r) →
  can_acquire (rc (Node n l r)) p ex ↔
  if ex then free (Node n l r) else unexclusive (Node n l r).
Proof.
  intros Hwf. pose proof (wf_wf4 _ _ Hwf) as Hp. unfold can_acquire. split.
  - intros H. destruct ex.
    + apply (rc_free p); [done|]. intros x. destruct (decide (rc (Node n l r) x = 0)) as [|Hc];
        [done|]. destruct (rc_under _ _ _ Hwf Hc) as [Hw Hu].
      exfalso. apply (H x); [done|]. apply Overlaps_under; auto.
    + apply (rc_unexclusive p); [done|]. intros x Hc.
      destruct (rc_under p (Node n l r) x Hwf) as [Hw Hu]; [lia|].
      apply (H x); [lia|by apply Overlaps_under; auto|done].
  - intros H x Hx _. destruct ex.
    + by apply Hx, free_rc.
    + by apply unexclusive_rc.
Qed.

Section descend.
Context (p : Prefix) (n : node) (l r : tree) (q : Prefix) (ex : bool).
Context (Hn : node_ok p n) (Hlt : pBits p < 32).
Context (Hl : wf (lchild p) l) (Hr : wf (rchild p) r) (Hq : wf4 q).
Context (Hopen : refCount n ≠ -1) (Hopen' : ex = true → refCount n = 0).

Lemma can_acquire_left : under (lchild p) q →
  can_acquire (rc (Node n l r)) q ex ↔ can_acquire (rc l) q ex.
Proof.
  intros Hu. pose proof (ok_wf4 _ _ Hn) as Hp. unfold can_acquire.
  setoid_rewrite (rc_fork p n l r); [|done..].
  split; intros H x Hx Ho; specialize (H x).
  - rewrite decide_False in H.
    + pose proof (rc_siblings p l r x Hp Hlt Hl Hr). replace (rc l x + rc r x) with (rc l x) in H by lia.
      by apply H.
    + intros ->. apply Hx. eapply rc_below; [eassumption|simpl; lia].
  - case_decide; [destruct ex; [by apply Hx, Hopen'|done]|].
    destruct (decide (rc r x = 0)) as [Hz|Hc]; [rewrite Hz, Z.add_0_r in *; by apply H|].
    destruct (rc_under _ _ _ Hr Hc) as [Hw Hux].
    rewrite (under_siblings_disjoint_r p) in Ho; auto with liqo. done.
Qed.

Lemma can_acquire_right : under (rchild p) q →
  can_acquire (rc (Node n l r)) q ex ↔ can_acquire (rc r) q ex.
Proof.
  intros Hu. pose proof (ok_wf4 _ _ Hn) as Hp. unfold can_acquire.
  setoid_rewrite (rc_fork p n l r); [|done..].
  split; intros H x Hx Ho; specialize (H x).
  - rewrite decide_False in H.
    + pose proof (rc_siblings p l r x Hp Hlt Hl Hr). replace (rc l x + rc r x) with (rc r x) in H by lia.
      by apply H.
    + intros ->. apply Hx. eapply rc_below; [eassumption|simpl; lia].
  - case_decide; [destruct ex; [by apply Hx, Hopen'|done]|].
    destruct (decide (rc l x = 0)) as [Hz|Hc]; [rewrite Hz, Z.add_0_l in *; by apply H|].
    destruct (rc_under _ _ _ Hl Hc) as [Hw Hux].
    rewrite (under_siblings_disjoint p) in Ho; auto with liqo. done.
Qed.
End descend.

Lemma node_ok_counter p n c ts : node_ok p n → -1 ≤ c →
  node_ok p (set_lastUpdate ts (set_refCount c n)).
Proof. intros [] ?. by split. Qed.

Lemma node_ok_fresh p ts : wf4 p → node_ok p (mkNode ts p 0 [] zeroAddr).
Proof.
  intros Hp. split; simpl; auto; [lia|..|constructor].
  intros x Hx. by apply not_elem_of_nil in Hx.
Qed.

Lemma wf_fresh p ts : wf4 p → wf p (Node (mkNode ts p 0 [] zeroAddr) Nil Nil).
Proof. intros. by apply wf_leaf, node_ok_fresh. Qed.

(** What acquiring [q] in the tree [t] rooted at [p] returns and leaves. *)
Definition acquire_post (p : Prefix) (t : tree) (q : Prefix) (ex : bool)
    (res : option Prefix) (t' : tree) : Prop :=
  wf p t' ∧ (∀ x, held t' x = held t x) ∧
  match res with
  | Some q' =>
    q' = q ∧ wf4 q ∧ under p q ∧ can_acquire (rc t) q ex ∧
    ∀ x, rc t' x = rc t x + if decide (x = q) then acquire_delta ex else 0
  | None => ¬ (wf4 q ∧ under p q ∧ can_acquire (rc t) q ex) ∧ ∀ x, rc t' x = rc t x
  end.

(** The post-condition depends on the initial tree through its abstract state. *)
Lemma acquire_post_proper p t1 t2 q ex res t' :
  (∀ x, rc t1 x = rc t2 x) → (∀ x, held t1 x = held t2 x) →
  acquire_post p t1 q ex res t' → acquire_post p t2 q ex res t'.
Proof.
  intros Hrc Hh (Hw & Hhd & Hres). split; [done|]. split; [intros x; by rewrite Hhd, Hh|].
  assert (Hc : can_acquire (rc t1) q ex ↔ can_acquire (rc t2) q ex).
  { unfold can_acquire. split; intros H x; [rewrite <- Hrc|rewrite Hrc]; apply H. }
  destruct res; rewrite Hc in Hres; destruct_and!; split_and!; try done;
    intros x; rewrite <- Hrc; auto.
Qed.

Lemma valid_full_wf4 q : valid_prefix q → bitlen (pAddr q) = 32 → pBits q = 32 → wf4 q.
Proof.
  intros [_ Hv Hz Hb] Hl Hq. rewrite Hl in *. split; auto.
  rewrite Hq. simpl. apply Z.mod_1_r.
Qed.

(** A prefix below [p] other than [p] itself leaves room to split [p]. *)
Lemma under_splits p q : wf4 p → valid_prefix q → under p q → q ≠ p → pBits p < 32.
Proof.
  intros Hp Hq Hu Hne. destruct (decide (pBits p < 32)) as [|Hge]; [done|].
  exfalso. apply Hne. destruct Hu as (Hl & Hb & Hn).
  pose proof (vp_bits _ Hq) as Hbq. rewrite Hl in Hbq. pose proof (wf4_bits _ Hp).
  symmetry. apply wf4_ext; [done|apply valid_full_wf4; auto; lia|lia|done].
Qed.

Section lift_post.
Context (p : Prefix) (n : node) (l r : tree) (q : Prefix) (ex : bool).
Context (Hn : node_ok p n) (Hlt : pBits p < 32) (Hne : q ≠ p).
Context (Hl : wf (lchild p) l) (Hr : wf (rchild p) r) (Hu : under p q).
Context (Hopen : refCount n ≠ -1) (Hopen' : ex = true → refCount n = 0).

Lemma under_strict : wf4 q → pBits p < pBits q.
Proof.
  intros Hq. pose proof (under_bits _ _ Hu).
  destruct (decide (pBits p = pBits q)); [|lia].
  exfalso. apply Hne. symmetry. apply wf4_ext; eauto using ok_wf4.
Qed.

Lemma acquire_post_left res l' :
  (wf4 q → under (lchild p) q) →
  acquire_post (lchild p) l q ex res l' →
  acquire_post p (Node n l r) q ex res (Node n l' r).
Proof.
  intros Hul (Hwf & Hheld & Hres).
  split; [by apply wf_fork|]. split.
  { intros x. rewrite !(held_fork p) by done. by rewrite Hheld. }
  destruct res as [q'|].
  - destruct Hres as (-> & Hq & Huq & Hc & Hrc). split_and!; auto.
    + by rewrite (can_acquire_left p) by done.
    + intros x. rewrite !(rc_fork p) by done. rewrite Hrc.
      repeat case_decide; subst; try done; lia.
  - destruct Hres as [Hno Hrc]. split.
    + intros (Hq & _ & Hc). apply Hno. split_and!; auto.
      rewrite (can_acquire_left p) in Hc by auto. done.
    + intros x. rewrite !(rc_fork p) by done. by rewrite Hrc.
Qed.

Lemma acquire_post_right res r' :
  (wf4 q → under (rchild p) q) →
  acquire_post (rchild p) r q ex res r' →
  acquire_post p (Node n l r) q ex res (Node n l r').
Proof.
  intros Hul (Hwf & Hheld & Hres).
  split; [by apply wf_fork|]. split.
  { intros x. rewrite !(held_fork p) by done. by rewrite Hheld. }
  destruct res as [q'|].
  - destruct Hres as (-> & Hq & Huq & Hc & Hrc). split_and!; auto.
    + by rewrite (can_acquire_right p) by done.
    + intros x. rewrite !(rc_fork p) by done. rewrite Hrc.
      repeat case_decide; subst; try done; lia.
  - destruct Hres as [Hno Hrc]. split.
    + intros (Hq & _ & Hc). apply Hno. split_and!; auto.
      rewrite (can_acquire_right p) in Hc by auto. done.
    + intros x. rewrite !(rc_fork p) by done. by rewrite Hrc.
Qed.
End lift_post.

(** What allocating a free network of a given length returns and leaves. *)
Definition alloc_post (p : Prefix) (t : tree) (size : Z) (ex : bool)
    (res : option Prefix) (t' : tree) : Prop :=
  match res with
  | Some q => pBits q = size ∧ can_acquire (rc t) q true ∧ acquire_post p t q ex (Some q) t'
  | None => wf p t' ∧ (∀ x, held t' x = held t x) ∧ (∀ x, rc t' x = rc t x)
  end.

Lemma alloc_post_proper p t1 t2 size ex res t' :
  (∀ x, rc t1 x = rc t2 x) → (∀ x, held t1 x = held t2 x) →
  alloc_post p t1 size ex res t' → alloc_post p t2 size ex res t'.
Proof.
  intros Hrc Hh. destruct res as [q|].
  - intros (Hb & Hc & Hp). split_and!; [done| |by eapply acquire_post_proper].
    intros x. rewrite <- Hrc. apply Hc.
  - intros (Hw & Hh' & Hrc'). split_and!; [done|..]; intros x; [rewrite <- Hh|rewrite <- Hrc]; auto.
Qed.

Section lift_alloc.
Context (p : Prefix) (n : node) (l r : tree) (size : Z) (ex : bool).
Context (Hn : node_ok p n) (Hlt : pBits p < 32) (Hz : refCount n = 0).
Context (Hl : wf (lchild p) l) (Hr : wf (rchild p) r).

Lemma alloc_post_left res l' :
  alloc_post (lchild p) l size ex res l' →
  alloc_post p (Node n l r) size ex res (Node n l' r).
Proof.
  pose proof (ok_wf4 _ _ Hn) as Hp. destruct res as [q|].
  - intros (Hb & Hc & Hpost). pose proof Hpost as (Hw & Hh & _ & Hq & Hu & Hcx & Hrc).
    pose proof (under_bits _ _ Hu) as Hub. cbn [lchild pBits] in Hub.
    assert (q ≠ p) by (intros ->; lia).
    split_and!; [done| |].
    + by rewrite (can_acquire_left p) by (done || lia).
    + apply acquire_post_left; auto; try lia. by apply under_lchild_up; auto with liqo.
  - intros (Hw & Hh & Hrc). split_and!; [apply wf_fork; auto; lia|..]; intros x.
    + rewrite !(held_fork p) by done. by rewrite Hh.
    + rewrite !(rc_fork p) by done. by rewrite Hrc.
Qed.

Lemma alloc_post_right res r' :
  alloc_post (rchild p) r size ex res r' →
  alloc_post p (Node n l r) size ex res (Node n l r').
Proof.
  pose proof (ok_wf4 _ _ Hn) as Hp. destruct res as [q|].
  - intros (Hb & Hc & Hpost). pose proof Hpost as (Hw & Hh & _ & Hq & Hu & Hcx & Hrc).
    pose proof (under_bits _ _ Hu) as Hub. cbn [rchild pBits] in Hub.
    assert (q ≠ p) by (intros ->; lia).
    split_and!; [done| |].
    + by rewrite (can_acquire_right p) by (done || lia).
    + apply acquire_post_right; auto; try lia. by apply under_rchild_up; auto with liqo.
  - intros (Hw & Hh & Hrc). split_and!; [apply wf_fork; auto; lia|..]; intros x.
    + rewrite !(held_fork p) by done. by rewrite Hh.
    + rewrite !(rc_fork p) by done. by rewrite Hrc.
Qed.
End lift_alloc.

(** Writing the counter of the root. *)
Lemma rc_set_counter p n l r c ts x : wf p (Node n l r) → -1 ≤ c →
  rc (Node (set_lastUpdate ts (set_refCount c n)) l r) x
  = if decide (x = p) then c else rc (Node n l r) x.
Proof.
  intros Hwf Hc. pose proof (wf_prefix _ _ _ _ Hwf) as He. unfold rc. simpl.
  rewrite He. destruct (decide (p = x)), (decide (x = p)); naive_solver.
Qed.

Lemma held_set_counter n l r c ts x :
  held (Node (set_lastUpdate ts (set_refCount c n)) l r) x = held (Node n l r) x.
Proof. unfold held. simpl. by case_decide. Qed.

Lemma wf_set_counter p n l r c ts : wf p (Node n l r) → -1 ≤ c →
  (c = -1 → free l ∧ free r) →
  wf p (Node (set_lastUpdate ts (set_refCount c n)) l r).
Proof.
  intros Hwf Hc Hf. inversion Hwf; subst.
  - by apply wf_leaf, node_ok_counter.
  - apply wf_fork; auto. by apply node_ok_counter.
Qed.

Section ops.
Context (clock : nat → Z).

(** Splitting keeps the abstract state and yields both halves. *)
Lemma split_spec p n l r τ : wf p (Node n l r) → pBits p < 32 →
  wp (if negb (isSplitted l r) then split clock n l r else mret (l, r)) τ
     (fun '(l', r') _ => wf (lchild p) l' ∧ wf (rchild p) r' ∧ wf p (Node n l' r') ∧
        (∀ x, rc (Node n l' r') x = rc (Node n l r) x) ∧
        (∀ x, held (Node n l' r') x = held (Node n l r) x)).
Proof.
  intros Hwf Hlt. inversion Hwf as [? ? Hn|? ? ? ? Hn _ Hl Hr He]; subst.
  - cbn [isSplitted negb]. unfold split. cbn [isSplitted]. pose proof (ok_wf4 _ _ Hn) as Hp.
    apply wp_bind, wp_lift. eexists. split; [rewrite (ok_prefix _ _ Hn); by apply splitNetworkPrefix_spec|].
    unfold insert_child, newNode. wp_steps. cbn [put_next].
    assert (Hl : wf (lchild p) (Node (mkNode (clock τ) (lchild p) 0 [] zeroAddr) Nil Nil))
      by (apply wf_fresh, lchild_wf; auto).
    assert (Hr : wf (rchild p) (Node (mkNode (clock (S τ)) (rchild p) 0 [] zeroAddr) Nil Nil))
      by (apply wf_fresh, rchild_wf; auto).
    split_and!; [done|done|by apply wf_fork|..]; intros x.
    + rewrite (rc_fork p) by done. rewrite (rc_leaf p n) by done. case_decide; [done|].
      rewrite !free_rc by (simpl; auto). done.
    + rewrite (held_fork p) by done. rewrite (held_leaf p n) by done. case_decide; [done|].
      unfold held. simpl. by repeat case_decide.
  - assert (isSplitted l r = true) as ->.
    { apply wf_root in Hl as (? & ? & ? & -> & _). by apply wf_root in Hr as (? & ? & ? & -> & _). }
    by wp_steps.
Qed.

(** Acquiring the root prefix itself. *)
Lemma acquireHere_spec p n l r ex τ : wf p (Node n l r) →
  wp (acquireHere clock n l r ex) τ
     (fun '(res, t') _ => acquire_post p (Node n l r) p ex res t').
Proof.
  intros Hwf. pose proof (wf_wf4 _ _ Hwf) as Hp. pose proof (under_refl _ Hp) as Hu.
  pose proof (wf_prefix _ _ _ _ Hwf) as He.
  assert (Hok : node_ok p n) by (apply wf_root in Hwf as (? & ? & ? & [= <- <- <-] & ?); done).
  pose proof (ok_rc _ _ Hok). pose proof (can_acquire_here p n l r ex Hwf) as Hcan.
  unfold acquireHere.
  destruct ex; [change (isAcquired n || _) with (acquired_in (Node n l r))
               |change (isExclusive n || _) with (exclusive_in (Node n l r))].
  - destruct (acquired_in _) eqn:Ha; wp_steps.
    + split_and!; try done. intros (_ & _ & Hc). apply Hcan, acquired_in_spec in Hc. congruence.
    + apply acquired_in_spec in Ha as Hf. destruct Hf as (Hz & Hfl & Hfr).
      split_and!; try done.
      * by apply wf_set_counter.
      * intros x. apply held_set_counter.
      * by apply Hcan.
      * intros x. rewrite (rc_set_counter p) by (done || lia). case_decide; [subst x|lia].
        rewrite rc_here by done. simpl. lia.
  - destruct (exclusive_in _) eqn:Ha; wp_steps.
    + split_and!; try done. intros (_ & _ & Hc). apply Hcan, exclusive_in_spec in Hc. congruence.
    + apply exclusive_in_spec in Ha as Hf. destruct Hf as (Hz & Hfl & Hfr).
      split_and!; try done.
      * apply wf_set_counter; [done|lia|lia].
      * intros x. apply held_set_counter.
      * by apply Hcan.
      * intros x. rewrite (rc_set_counter p) by (done || lia). case_decide; [subst x|lia].
        rewrite rc_here by done. simpl. lia.
Qed.

(** The fuel that covers the distance from a root of length [b] to the
    requested length. *)
Definition enough (fuel : nat) (size b : Z) : Prop :=
  (1 ≤ fuel)%nat ∧ size - b + 2 ≤ Z.of_nat fuel.

Lemma enough_step fuel size b : enough (S fuel) size b → b ≤ size → enough fuel size (b + 1).
Proof. unfold enough. lia. Qed.

(** The guard of the descent: an exclusive node, or any acquired one for an
    exclusive request, blocks everything below it. *)
Lemma blocked_here p n l r q ex : node_ok p n → Overlaps p q = true →
  isExclusive n || ex && isAcquired n = true → ¬ can_acquire (rc (Node n l r)) q ex.
Proof.
  intros Hn Hov Hopen Hcan. specialize (Hcan p).
  rewrite (rc_here p n l r Hn) in Hcan. unfold isExclusive, isAcquired in Hopen.
  destruct (Z.eqb_spec (refCount n) (-1)) as [E|E]; simpl in Hopen.
  - destruct ex; apply Hcan; auto; lia.
  - destruct ex; [|done]. destruct (Z.eqb_spec (refCount n) 0); [done|]. by apply Hcan.
Qed.

Lemma open_here n ex : isExclusive n || ex && isAcquired n = false →
  refCount n ≠ -1 ∧ (ex = true → refCount n = 0).
Proof.
  intros [Hx%Z.eqb_neq Ha]%orb_false_iff. split; [done|]. intros ->.
  unfold isAcquired in Ha. simpl in Ha. by apply negb_false_iff, Z.eqb_eq in Ha.
Qed.

Lemma allocateNetworkWithPrefix_spec fuel p t q ex τ :
  wf p t → valid_prefix q → enough fuel (pBits q) (pBits p) →
  wp (allocateNetworkWithPrefix clock fuel q t ex) τ
     (fun '(res, t') _ => acquire_post p t q ex res t').
Proof.
  revert p t τ. induction fuel as [|fuel IH]; intros p t τ Hwf Hq Hfuel.
  { destruct Hfuel; lia. }
  destruct (wf_root _ _ Hwf) as (n & l & r & -> & Hn). pose proof (ok_wf4 _ _ Hn) as Hp.
  cbn [allocateNetworkWithPrefix]. rewrite (ok_prefix _ _ Hn).
  destruct (isPrefixChildOf p q) eqn:Hc; cbn [negb].
  2:{ apply wp_ret. split_and!; try done. intros (_ & Hu & _).
      apply isPrefixChildOf_spec in Hu; [congruence|done..]. }
  apply isPrefixChildOf_spec in Hc as Hu; [|done..].
  destruct (is_prefix n q) eqn:Hi.
  { apply (is_prefix_spec p) in Hi as ->; [|done..]. by apply acquireHere_spec. }
  assert (Hne : q ≠ p) by (intros ->; rewrite (proj2 (is_prefix_spec p n p Hn Hq)) in Hi; done).
  pose proof (under_splits p q Hp Hq Hu Hne) as Hlt.
  assert (Hov : Overlaps p q = true)
    by (unfold isPrefixChildOf in Hc; by apply andb_true_iff in Hc as [_ ?]).
  destruct (isExclusive n || ex && isAcquired n) eqn:Hopen.
  { apply wp_ret. split_and!; try done. intros (_ & _ & Hcan). by apply (blocked_here p n l r q ex). }
  destruct (open_here n ex Hopen) as [Hx Ha'].
  apply wp_bind. eapply wp_mono; [apply (split_spec p); done|].
  intros [l' r'] τ' (Hl & Hr & Hwf' & Hrc & Hheld).
  assert (Hmono : ∀ res t', acquire_post p (Node n l' r') q ex res t' →
                            acquire_post p (Node n l r) q ex res t').
  { intros res t'. apply acquire_post_proper; intros; auto. }
  assert (Hstrict : wf4 q → pBits p < pBits q) by (intros; eapply under_strict; eauto).
  rewrite (wf_child_match (lchild p) l' (fun y => Overlaps y q)) by done.
  rewrite (wf_child_match (rchild p) r' (fun y => Overlaps y q)) by done.
  assert (Hfuel' : enough fuel (pBits q) (pBits p + 1))
    by (apply enough_step; [done|by apply under_bits]).
  destruct (Overlaps (lchild p) q) eqn:Hol.
  { apply wp_bind. eapply wp_mono; [apply (IH (lchild p)); auto|]. intros [res l2] τ2 Hpost.
    apply wp_ret, Hmono, acquire_post_left; auto. intros Hq4.
    apply isPrefixChildOf_spec; auto using lchild_wf. unfold isPrefixChildOf.
    rewrite Hol, andb_true_r. apply Z.leb_le. simpl. specialize (Hstrict Hq4). lia. }
  assert (Hur : wf4 q → under (rchild p) q).
  { intros Hq4. specialize (Hstrict Hq4).
    destruct (under_children p Hp Hlt q Hq Hu Hstrict) as [[Hul _]|[_ ?]]; [|done].
    apply isPrefixChildOf_spec in Hul; auto using lchild_wf.
    unfold isPrefixChildOf in Hul. by rewrite Hol, andb_false_r in Hul. }
  destruct (Overlaps (rchild p) q) eqn:Hor.
  { apply wp_bind. eapply wp_mono; [apply (IH (rchild p)); auto|]. intros [res r2] τ2 Hpost.
    apply wp_ret, Hmono, acquire_post_right; auto. }
  apply wp_ret. split_and!; try done. intros (Hq4 & _ & _). specialize (Hur Hq4).
  apply isPrefixChildOf_spec in Hur; auto using rchild_wf.
  unfold isPrefixChildOf in Hur. by rewrite Hor, andb_false_r in Hur.
Qed.

Lemma bestDirection_spec pl pr l r : wf pl l → wf pr r →
  bestDirection l r = Ret (leftDirection, rightDirection) ∨
  bestDirection l r = Ret (rightDirection, leftDirection).
Proof.
  intros (n & l1 & l2 & -> & _)%wf_root (m & r1 & r2 & -> & _)%wf_root.
  unfold bestDirection, ptr_isSplitted. cbn.
  destruct (isSplitted l1 l2), (isSplitted r1 r2); auto.
Qed.

(** Taking a free leaf of the requested length. *)
Lemma alloc_leaf_post p n ex ts : node_ok p n → refCount n = 0 →
  alloc_post p (Node n Nil Nil) (pBits p) ex (Some p)
    (Node (set_lastUpdate ts (set_refCount (if ex then -1 else 1) n)) Nil Nil).
Proof.
  intros Hn Hz. assert (Hwf : wf p (Node n Nil Nil)) by by apply wf_leaf.
  pose proof (ok_wf4 _ _ Hn). split_and!; [done| |].
  - apply can_acquire_here; [done|]. split_and!; done.
  - split_and!; try done.
    + apply wf_set_counter; [done|by destruct ex|done].
    + intros x. apply held_set_counter.
    + by apply under_refl.
    + apply can_acquire_here; [done|]. destruct ex; split_and!; try done. lia.
    + intros x. rewrite (rc_set_counter p) by (done || by destruct ex).
      case_decide; [subst x|lia]. rewrite rc_here by done. destruct ex; simpl; lia.
Qed.

Lemma allocateNetwork_spec fuel p t size ex τ :
  wf p t → size ≤ 32 → enough fuel size (pBits p) →
  wp (allocateNetwork clock fuel size t ex) τ
     (fun '(res, t') _ => alloc_post p t size ex res t').
Proof.
  revert p t τ. induction fuel as [|fuel IH]; intros p t τ Hwf Hsz Hfuel.
  { destruct Hfuel; lia. }
  destruct (wf_root _ _ Hwf) as (n & l & r & -> & Hn). pose proof (ok_wf4 _ _ Hn) as Hp.
  cbn [allocateNetwork]. rewrite (ok_prefix _ _ Hn).
  destruct (isAcquired n || (size <? pBits p)) eqn:Hstop; [by apply wp_ret|].
  apply orb_false_iff in Hstop as [Ha Hlow%Z.ltb_ge].
  unfold isAcquired in Ha. apply negb_false_iff, Z.eqb_eq in Ha.
  destruct (Z.eqb_spec (pBits p) size) as [Hs|Hs].
  { inversion Hwf as [? ? _|? ? ? ? _ _ Hl Hr _]; subst; cbn [isSplitted negb].
    - wp_steps. by apply alloc_leaf_post.
    - apply wf_root in Hl as (? & ? & ? & -> & _). apply wf_root in Hr as (? & ? & ? & -> & _).
      cbn [isSplitted negb]. by apply wp_ret. }
  assert (Hlt : pBits p < 32) by lia.
  apply wp_bind. eapply wp_mono; [apply (split_spec p); done|].
  intros [l' r'] τ' (Hl & Hr & Hwf' & Hrc & Hheld).
  assert (Hmono : ∀ res t', alloc_post p (Node n l' r') size ex res t' →
                            alloc_post p (Node n l r) size ex res t').
  { intros res t'. apply alloc_post_proper; intros; auto. }
  assert (Hfuel' : enough fuel size (pBits p + 1)) by (apply enough_step; [done|lia]).
  apply wp_bind, wp_lift.
  destruct (bestDirection_spec _ _ _ _ Hl Hr) as [->| ->];
    (eexists; split; [reflexivity|]); cbn [next put_next].
  - apply wp_bind. eapply wp_mono; [apply (IH (lchild p)); auto|]. intros [[q|] l2] τ2 H1.
    { by apply wp_ret, Hmono, alloc_post_left. }
    apply (alloc_post_left p n l' r') in H1 as H1'; auto. destruct H1' as (_ & Hh1 & Hrc1).
    destruct H1 as (Hl2 & _). cbn [next].
    apply wp_bind. eapply wp_mono; [apply (IH (rchild p)); auto|]. intros [res r2] τ3 H2.
    apply wp_ret, Hmono, (alloc_post_proper p (Node n l2 r')); auto. by apply alloc_post_right.
  - apply wp_bind. eapply wp_mono; [apply (IH (rchild p)); auto|]. intros [[q|] r2] τ2 H1.
    { by apply wp_ret, Hmono, alloc_post_right. }
    apply (alloc_post_right p n l' r') in H1 as H1'; auto. destruct H1' as (_ & Hh1 & Hrc1).
    destruct H1 as (Hr2 & _). cbn [next].
    apply wp_bind. eapply wp_mono; [apply (IH (lchild p)); auto|]. intros [res l2] τ3 H2.
    apply wp_ret, Hmono, (alloc_post_proper p (Node n l' r2)); auto. by apply alloc_post_left.
Qed.

(** The node of [q] exists and has been split. *)
Definition split_at (t : tree) (q : Prefix) : Prop := is_Some (node_at t (lchild q)).

(** What a failed allocation says: every network of that length overlaps an
    acquired one or is split. *)
Definition exhausted (p : Prefix) (t : tree) (size : Z) (t' : tree) : Prop :=
  ∀ q, wf4 q → under p q → pBits q = size → can_acquire (rc t) q true → split_at t' q.

Lemma exhausted_root p n l r size : wf p (Node n l r) → isSplitted l r = true →
  pBits p = size → exhausted p (Node n l r) size (Node n l r).
Proof.
  intros Hwf Hs Hb q Hq Hu Hqb _. pose proof (wf_wf4 _ _ Hwf) as Hp.
  assert (p = q) as <- by (apply wf4_ext; auto; lia).
  inversion Hwf as [|? ? ? ? Hn Hlt Hl Hr _]; subst; [done|].
  unfold split_at. rewrite (node_at_left p) by eauto using lchild_wf, under_refl with liqo.
  destruct (wf_root _ _ Hl) as (nl & ll & lr & -> & Hnl). rewrite node_at_here by done. eauto.
Qed.

Section exhausted_fork.
Context (p : Prefix) (n : node) (l r l' r' : tree) (size : Z).
Context (Hn : node_ok p n) (Hlt : pBits p < 32) (Hz : refCount n = 0).
Context (Hl : wf (lchild p) l) (Hr : wf (rchild p) r).
Context (Hl' : wf (lchild p) l') (Hr' : wf (rchild p) r').

Lemma exhausted_fork : pBits p < size →
  exhausted (lchild p) l size l' → exhausted (rchild p) r size r' →
  exhausted p (Node n l r) size (Node n l' r').
Proof.
  intros Hs El Er q Hq Hu Hb Hc. pose proof (ok_wf4 _ _ Hn) as Hp.
  assert (Hqlt : pBits q < 32 ∨ pBits q = 32) by (pose proof (wf4_bits _ Hq); lia).
  destruct (under_children p Hp Hlt q) as [[Hul _]|[_ Hur]]; auto with liqo; [lia|..].
  - rewrite (can_acquire_left p) in Hc by (auto; lia).
    specialize (El q Hq Hul Hb Hc). unfold split_at in *.
    destruct El as [m Hm]. destruct (node_at_under _ _ _ _ Hl' Hm) as (_ & Hw & Hu').
    rewrite (node_at_left p) by auto with liqo. eauto.
  - rewrite (can_acquire_right p) in Hc by (auto; lia).
    specialize (Er q Hq Hur Hb Hc). unfold split_at in *.
    destruct Er as [m Hm]. destruct (node_at_under _ _ _ _ Hr' Hm) as (_ & Hw & Hu').
    rewrite (node_at_right p) by auto with liqo. eauto.
Qed.
End exhausted_fork.

Lemma exhausted_proper p t1 t2 size t' :
  (∀ x, rc t1 x = rc t2 x) → exhausted p t1 size t' → exhausted p t2 size t'.
Proof.
  intros Hrc E q Hq Hu Hb Hc. apply E; auto. intros x. rewrite Hrc. apply Hc.
Qed.

(** The two halves, allocated one after the other, both failed. *)
Lemma exhausted_halves fuel p n l r size ex τ :
  (∀ p t τ, wf p t → size ≤ 32 → enough fuel size (pBits p) →
     wp (allocateNetwork clock fuel size t ex) τ
        (fun '(res, t') _ => res = None → exhausted p t size t')) →
  wf p (Node n l r) → wf (lchild p) l → wf (rchild p) r →
  refCount n = 0 → pBits p < size ≤ 32 → enough fuel size (pBits p + 1) →
  wp (first ← lift (bestDirection l r); let '(first, second) := first in
      '(res, c) ← allocateNetwork clock fuel size (next first l r) ex;
      let '(l, r) := put_next first c l r in
      match res with
      | Some _ => mret (res, Node n l r)
      | None =>
        '(res, c) ← allocateNetwork clock fuel size (next second l r) ex;
        let '(l, r) := put_next second c l r in
        mret (res, Node n l r)
      end) τ
     (fun '(res, t') _ => res = None → exhausted p (Node n l r) size t').
Proof.
  intros IH Hwf Hl Hr Hz Hs Hfuel.
  assert (Hn : node_ok p n) by (apply wf_root in Hwf as (? & ? & ? & [= <- <- <-] & ?); done).
  assert (Hboth : ∀ c t τ, wf c t → pBits c = pBits p + 1 →
    wp (allocateNetwork clock fuel size t ex) τ (fun '(res, t') _ =>
      res = None → wf c t' ∧ exhausted c t size t')).
  { intros c t τ0 Hc Hb. rewrite <- Hb in Hfuel.
    eapply wp_mono; [apply wp_and; [apply (allocateNetwork_spec fuel c)|apply (IH c)]; done || lia|].
    intros [[q|] t'] τ1; [done|]. intros [(? & _) HE] _. auto. }
  apply wp_bind, wp_lift.
  destruct (bestDirection_spec _ _ _ _ Hl Hr) as [->| ->];
    (eexists; split; [reflexivity|]); cbn [next put_next]; apply wp_bind.
  - eapply wp_mono; [apply (Hboth (lchild p)); done|]. intros [[q|] l2] τ2 H1; [by apply wp_ret|].
    destruct (H1 eq_refl) as [Hl2 El]. cbn [next]. apply wp_bind.
    eapply wp_mono; [apply (Hboth (rchild p)); done|]. intros [[q|] r2] τ3 H2; [by apply wp_ret|].
    destruct (H2 eq_refl) as [Hr2 Er]. apply wp_ret. intros _. apply exhausted_fork; auto; lia.
  - eapply wp_mono; [apply (Hboth (rchild p)); done|]. intros [[q|] r2] τ2 H1; [by apply wp_ret|].
    destruct (H1 eq_refl) as [Hr2 Er]. cbn [next]. apply wp_bind.
    eapply wp_mono; [apply (Hboth (lchild p)); done|]. intros [[q|] l2] τ3 H2; [by apply wp_ret|].
    destruct (H2 eq_refl) as [Hl2 El]. apply wp_ret. intros _. apply exhausted_fork; auto; lia.
Qed.

Lemma allocateNetwork_exhausted fuel p t size ex τ :
  wf p t → size ≤ 32 → enough fuel size (pBits p) →
  wp (allocateNetwork clock fuel size t ex) τ
     (fun '(res, t') _ => res = None → exhausted p t size t').
Proof.
  revert p t τ. induction fuel as [|fuel IH]; intros p t τ Hwf Hsz Hfuel.
  { destruct Hfuel; lia. }
  destruct (wf_root _ _ Hwf) as (n & l & r & -> & Hn). pose proof (ok_wf4 _ _ Hn) as Hp.
  cbn [allocateNetwork]. rewrite (ok_prefix _ _ Hn).
  destruct (isAcquired n) eqn:Ha; cbn [orb].
  { apply wp_ret. intros _ q Hq Hu _ Hc. exfalso. apply (Hc p).
    - rewrite (rc_here p) by done. unfold isAcquired in Ha. by apply negb_true_iff, Z.eqb_neq in Ha.
    - apply Overlaps_under; auto. }
  destruct (Z.ltb_spec size (pBits p)).
  { apply wp_ret. intros _ q Hq Hu Hb _. apply under_bits in Hu. lia. }
  unfold isAcquired in Ha. apply negb_false_iff, Z.eqb_eq in Ha.
  destruct (Z.eqb_spec (pBits p) size) as [Hs|Hs].
  { destruct (isSplitted l r) eqn:Hsp; cbn [negb]; wp_steps; [|done].
    intros _. by apply exhausted_root. }
  apply wp_bind. eapply wp_mono; [apply (split_spec p); [done|lia]|].
  intros [l' r'] τ' (Hl & Hr & Hwf' & Hrc & _).
  eapply wp_mono; [apply (exhausted_halves fuel p n l' r'); auto; try lia|].
  - apply enough_step; [done|lia].
  - intros [res t'] τ2 HE Hnone. eapply exhausted_proper; [apply Hrc|auto].
Qed.

(** A length past /32 in a tree where nothing is acquired: the descent reaches
    a single address, and splitting it panics. *)
Lemma allocateNetwork_oversize fuel p t size ex τ :
  wf p t → free t → 32 < size → 33 - pBits p ≤ Z.of_nat fuel →
  allocateNetwork clock fuel size t ex τ = Panic.
Proof.
  revert p t τ. induction fuel as [|fuel IH]; intros p t τ Hwf Hf Hs Hfuel.
  { pose proof (wf4_bits _ (wf_wf4 _ _ Hwf)). lia. }
  destruct (wf_root _ _ Hwf) as (n & l & r & -> & Hn). pose proof (ok_wf4 _ _ Hn) as Hp.
  pose proof (wf4_bits _ Hp). destruct Hf as (Hz & Hfl & Hfr).
  cbn [allocateNetwork]. rewrite (ok_prefix _ _ Hn). unfold isAcquired. rewrite Hz.
  rewrite (proj2 (Z.ltb_ge _ _)), (proj2 (Z.eqb_neq (pBits p) size)) by lia. cbn [negb orb Z.eqb].
  destruct (Z.eq_dec (pBits p) 32) as [H32|Hne].
  { inversion Hwf; [|lia]. cbn [isSplitted negb]. unfold split. cbn [isSplitted].
    rewrite (ok_prefix _ _ Hn), (splitNetworkPrefix_full p) by done. done. }
  destruct (wp_inv _ _ _ (split_spec p n l r τ Hwf ltac:(lia)))
    as ([l' r'] & τ' & Hrun & Hl & Hr & Hw' & Hrc & _).
  unfold mbind at 1, M_bind at 1. rewrite Hrun.
  assert (Hfree : free (Node n l' r')).
  { apply (rc_free p); [done|]. intros x. rewrite Hrc. by apply free_rc. }
  destruct Hfree as (_ & Hfl' & Hfr'). unfold mbind at 1, M_bind at 1.
  destruct (bestDirection_spec _ _ _ _ Hl Hr) as [->| ->]; cbn [lift next];
    unfold mbind at 1, M_bind at 1.
  - rewrite (IH (lchild p) l'); [done|done|done|done|]. cbn [lchild pBits]. lia.
  - rewrite (IH (rchild p) r'); [done|done|done|done|]. cbn [rchild pBits]. lia.
Qed.
End ops.
