(* ===== verification/IpamOps.v ===== *)
(** * IpamOps: releasing, listing and searching networks; addresses of a node

    Specifications of the remaining operations of [IpamNode] on the abstract
    state of [IpamTree]. *)

From S2P Require Export IpamTree.
Local Open Scope Z_scope.

(** ** Merging and releasing *)

(** Two trees with the same counts, and the same addresses wherever something
    is acquired: merging free siblings forgets their nodes. *)
Definition same_acquired (t t' : tree) : Prop :=
  (∀ x, rc t' x = rc t x) ∧ (∀ x, rc t x ≠ 0 → held t' x = held t x).

Lemma same_acquired_refl t : same_acquired t t.
Proof. done. Qed.

(** Release at a moment [nowz]: the node must exist, be acquired and be older
    than the grace period. *)
Definition releasable (t : tree) (q : Prefix) (grace nowz : Z) : bool :=
  match node_at t q with
  | Some n => isAcquired n && (lastUpdateTimestamp n + grace <? nowz)
  | None => false
  end.

(** The change of the count of [q]. *)
Definition release_change (t : tree) (q : Prefix) (grace nowz : Z) : Z :=
  if releasable t q grace nowz then release_delta (rc t q) else 0.

Definition release_post (p : Prefix) (t : tree) (q : Prefix) (grace nowz : Z)
    (res : option Prefix) (t' : tree) : Prop :=
  wf p t' ∧ (∀ x, rc t' x ≠ 0 → held t' x = held t x) ∧
  res = (if releasable t q grace nowz then Some q else None) ∧
  ∀ x, rc t' x = rc t x + if decide (x = q) then release_change t q grace nowz else 0.

Lemma released_refCount_spec p n : node_ok p n → isAcquired n = true →
  released_refCount n = refCount n + release_delta (refCount n) ∧ 0 ≤ released_refCount n.
Proof.
  intros [_ _ Hrc _ _ _] Ha. unfold isAcquired in Ha. apply negb_true_iff, Z.eqb_neq in Ha.
  unfold released_refCount, isExclusive, release_delta.
  destruct (Z.eqb_spec (refCount n) (-1)); [lia|].
  destruct (Z.ltb_spec 0 (refCount n)); lia.
Qed.

Section ops.
Context (clock : nat → Z).

Lemma merge_spec p n l r g τ : wf p (Node n l r) →
  wp (merge clock n l r g) τ (fun t' _ => wf p t' ∧ same_acquired (Node n l r) t').
Proof.
  intros Hwf. inversion Hwf as [? ? Hn|? ? ? ? Hn Hlt Hl Hr He]; subst.
  { by apply wp_ret. }
  destruct (wf_root _ _ Hl) as (nl & ll & lr & -> & Hnl).
  destruct (wf_root _ _ Hr) as (nr & rl & rr & -> & Hnr).
  unfold merge, expired. wp_steps. destruct (_ <? clock τ); cbn [negb orb]; [|by wp_steps].
  wp_steps. destruct (_ <? clock (S τ)); cbn [negb orb]; [|by wp_steps].
  destruct (negb (isLeaf ll lr) || negb (isLeaf rl rr)) eqn:Hleaf; [by wp_steps|].
  apply orb_false_iff in Hleaf as [H1%negb_false_iff H2%negb_false_iff].
  destruct ll, lr, rl, rr; try done.
  destruct (isAcquired nl || isAcquired nr) eqn:Hacq; [by wp_steps|].
  apply orb_false_iff in Hacq as [H3 H4]. unfold isAcquired in H3, H4.
  apply negb_false_iff, Z.eqb_eq in H3, H4. wp_steps.
  assert (Hok : node_ok p (set_lastUpdate (clock (S (S τ))) n)) by (by destruct Hn; split).
  split; [by apply wf_leaf|]. split; intros x.
  - rewrite (rc_leaf p), (rc_fork p) by done. case_decide; [done|].
    rewrite !free_rc by (simpl; auto). done.
  - rewrite (rc_fork p), (held_leaf p), (held_fork p) by done.
    case_decide; [done|]. rewrite !free_rc by (simpl; auto). lia.
Qed.

(** Releasing the root of a tree. *)
Lemma release_here_post p n l r g nowz ts : wf p (Node n l r) →
  isAcquired n = true → lastUpdateTimestamp n + g < nowz →
  release_post p (Node n l r) p g nowz (Some p)
    (Node (set_lastUpdate ts (set_refCount (released_refCount n) n)) l r).
Proof.
  intros Hwf Ha Hts.
  assert (Hn : node_ok p n) by (apply wf_root in Hwf as (? & ? & ? & [= <- <- <-] & ?); done).
  destruct (released_refCount_spec p n Hn Ha) as [Hrel Hpos].
  split_and!.
  - apply wf_set_counter; [done|lia|lia].
  - intros x _. apply held_set_counter.
  - unfold releasable. rewrite node_at_here, Ha by done.
    by rewrite (proj2 (Z.ltb_lt _ _)) by done.
  - intros x. unfold release_change, releasable. rewrite node_at_here, Ha by done.
    rewrite (proj2 (Z.ltb_lt _ _)) by done. cbn [andb].
    rewrite (rc_set_counter p), (rc_here p n l r) by (done || lia).
    case_decide; [subst; rewrite rc_here by done|]; lia.
Qed.

(** A release followed by a merge. *)
Lemma release_post_merge p t t1 t2 q g z res :
  release_post p t q g z res t1 → wf p t2 → same_acquired t1 t2 →
  release_post p t q g z res t2.
Proof.
  intros (Hw & Hh & Hres & Hrc) Hw2 [Hrc2 Hh2]. split_and!; [done| |done|].
  - intros x Hx. rewrite Hrc2 in Hx. rewrite Hh2 by done. auto.
  - intros x. by rewrite Hrc2.
Qed.

(** Nothing releasable: the tree stands. *)
Lemma release_post_none p t q g z : wf p t → releasable t q g z = false →
  release_post p t q g z None t.
Proof.
  intros Hw Hr. unfold release_post, release_change. rewrite Hr.
  split_and!; try done. intros x. case_decide; lia.
Qed.

Lemma releasable_acquired t q g z : releasable t q g z = true → rc t q ≠ 0.
Proof.
  unfold releasable, rc, isAcquired. destruct (node_at t q); [|done].
  intros [H%negb_true_iff%Z.eqb_neq _]%andb_true_iff. done.
Qed.

Lemma release_post_free c t q g z res t' :
  release_post c t q g z res t' → free t → free t'.
Proof.
  intros (Hw & _ & _ & Hrc) Hf. apply (rc_free c); [done|]. intros x.
  rewrite Hrc, free_rc by done. case_decide; [|done]. unfold release_change.
  destruct (releasable t q g z) eqn:E; [|done].
  apply releasable_acquired in E. rewrite free_rc in E; done.
Qed.

(** Where nothing is acquired in a half, its held addresses do not matter. *)
Lemma held_outside c t x : wf c t → ¬ under c x → held t x = [].
Proof. intros Hw Hu. unfold held. by rewrite (node_at_outside c). Qed.

Section halves.
Context (p : Prefix) (n : node) (l r : tree) (q : Prefix) (g z : Z).
Context (Hn : node_ok p n) (Hlt : pBits p < 32).
Context (Hl : wf (lchild p) l) (Hr : wf (rchild p) r).
Context (He : refCount n = -1 → free l ∧ free r) (Hq : valid_prefix q).

Lemma release_post_left res l' : under (lchild p) q →
  release_post (lchild p) l q g z res l' →
  release_post p (Node n l r) q g z res (Node n l' r).
Proof.
  intros Hu Hpost. pose proof Hpost as (Hw & Hh & Hres & Hrc).
  pose proof (ok_wf4 _ _ Hn) as Hp.
  assert (Hrel : releasable (Node n l r) q g z = releasable l q g z)
    by (unfold releasable; by rewrite (node_at_left p)).
  assert (Hrcq : rc (Node n l r) q = rc l q) by (unfold rc; by rewrite (node_at_left p)).
  split_and!; [|..|by rewrite Hrel|].
  - apply wf_fork; auto. intros Hx. destruct (He Hx) as [Hfl Hfr].
    split; [eapply release_post_free; eassumption|done].
  - intros x. rewrite (rc_fork p), !(held_fork p) by done. case_decide; [done|]. intros Hx.
    destruct (decide (rc l' x = 0)) as [Hz|Hz]; [|by rewrite Hh].
    destruct (rc_under (rchild p) r x Hr) as [Hw4 Hux]; [lia|].
    assert (¬ under (lchild p) x)
      by (intros Hul; apply (under_not_both p Hp Hlt x); auto with liqo).
    by rewrite (held_outside (lchild p) l'), (held_outside (lchild p) l).
  - intros x. unfold release_change. rewrite Hrel, Hrcq, !(rc_fork p), Hrc by done.
    unfold release_change. pose proof (under_bits _ _ Hu). cbn [lchild pBits] in *.
    repeat case_decide; subst; lia.
Qed.

Lemma release_post_right res r' : under (rchild p) q →
  release_post (rchild p) r q g z res r' →
  release_post p (Node n l r) q g z res (Node n l r').
Proof.
  intros Hu Hpost. pose proof Hpost as (Hw & Hh & Hres & Hrc).
  pose proof (ok_wf4 _ _ Hn) as Hp.
  assert (Hrel : releasable (Node n l r) q g z = releasable r q g z)
    by (unfold releasable; by rewrite (node_at_right p)).
  assert (Hrcq : rc (Node n l r) q = rc r q) by (unfold rc; by rewrite (node_at_right p)).
  split_and!; [|..|by rewrite Hrel|].
  - apply wf_fork; auto. intros Hx. destruct (He Hx) as [Hfl Hfr].
    split; [done|eapply release_post_free; eassumption].
  - intros x. rewrite (rc_fork p), !(held_fork p) by done. case_decide; [done|]. intros Hx.
    destruct (decide (rc r' x = 0)) as [Hz|Hz]; [|by rewrite Hh].
    destruct (rc_under (lchild p) l x Hl) as [Hw4 Hux]; [lia|].
    assert (¬ under (rchild p) x) by (apply (under_not_both p Hp Hlt x); auto with liqo).
    by rewrite (held_outside (rchild p) r'), (held_outside (rchild p) r).
  - intros x. unfold release_change. rewrite Hrel, Hrcq, !(rc_fork p), Hrc by done.
    unfold release_change. pose proof (under_bits _ _ Hu). cbn [rchild pBits] in *.
    repeat case_decide; subst; lia.
Qed.
End halves.

(** Which half a prefix below a fork belongs to, as the code tests it. *)
Lemma child_cases p q : wf4 p → pBits p < 32 → valid_prefix q → under p q →
  (isPrefixChildOf (lchild p) q = true ∧ isPrefixChildOf (rchild p) q = false ∧ under (lchild p) q) ∨
  (isPrefixChildOf (lchild p) q = false ∧ isPrefixChildOf (rchild p) q = true ∧ under (rchild p) q) ∨
  (isPrefixChildOf (lchild p) q = false ∧ isPrefixChildOf (rchild p) q = false ∧ pBits p = pBits q).
Proof.
  intros Hp Hlt Hq Hu.
  assert (HL : ∀ b, isPrefixChildOf (lchild p) q = b ↔ if b then under (lchild p) q else ¬ under (lchild p) q).
  { intros []; rewrite <- isPrefixChildOf_spec by auto using lchild_wf;
      destruct (isPrefixChildOf (lchild p) q); naive_solver. }
  assert (HR : ∀ b, isPrefixChildOf (rchild p) q = b ↔ if b then under (rchild p) q else ¬ under (rchild p) q).
  { intros []; rewrite <- isPrefixChildOf_spec by auto using rchild_wf;
      destruct (isPrefixChildOf (rchild p) q); naive_solver. }
  rewrite !HL, !HR. pose proof (under_bits _ _ Hu).
  destruct (decide (pBits p = pBits q)) as [E|E].
  - right. right. unfold under. cbn [lchild rchild pBits]. naive_solver lia.
  - destruct (under_children p Hp Hlt q Hq Hu) as [[]|[]]; [lia| |]; auto.
Qed.

(** Merging after a release that happened below. *)
Lemma merge_after_release p t n l r q g z res τ :
  release_post p t q g z res (Node n l r) →
  wp (merge clock n l r g) τ (fun t2 τ' => wp (mret (res, t2)) τ'
     (fun '(res, t') _ => release_post p t q g z res t')).
Proof.
  intros Hpost. eapply wp_mono; [apply (merge_spec p); apply Hpost|].
  intros t' τ' [Hw Hs]. apply wp_ret. eapply release_post_merge; eassumption.
Qed.

(** The node reached is the requested one, and its grace period is over. *)
Lemma release_at_root p n l r g τ τ' : wf p (Node n l r) →
  lastUpdateTimestamp n + g < clock τ →
  wp (if isAcquired n then
        ts ← now clock;
        mret (Some (prefix n),
              Node (set_lastUpdate ts (set_refCount (released_refCount n) n)) l r)
      else mret (None, Node n l r) : M (option Prefix * tree)) τ'
     (fun '(res, t') _ => release_post p (Node n l r) p g (clock τ) res t').
Proof.
  intros Hwf Ht. pose proof (wf_root _ _ Hwf) as (? & ? & ? & [= <- <- <-] & Hn).
  destruct (isAcquired n) eqn:Ha; wp_steps.
  - rewrite (ok_prefix _ _ Hn). by apply release_here_post.
  - apply release_post_none; [done|]. unfold releasable. by rewrite node_at_here, Ha.
Qed.

Lemma not_releasable_young p n l r g z : node_ok p n → z ≤ lastUpdateTimestamp n + g →
  releasable (Node n l r) p g z = false.
Proof.
  intros Hn Hz. unfold releasable. rewrite node_at_here by done.
  rewrite (proj2 (Z.ltb_ge _ _)) by done. apply andb_false_r.
Qed.

Lemma not_releasable_absent t q g z : node_at t q = None → releasable t q g z = false.
Proof. unfold releasable. by intros ->. Qed.

(** A release never panics, frees exactly the requested network when it is
    acquired and its grace period is over, and changes nothing else. *)
Lemma networkRelease_spec p t q g τ : wf p t → valid_prefix q → under p q →
  wp (networkRelease clock q t g) τ
     (fun '(res, t') _ => release_post p t q g (clock τ) res t').
Proof.
  intros Hwf Hq. revert τ. induction Hwf as [p n Hn|p n l r Hn Hlt Hl IHl Hr IHr He]; intros τ Hu.
  - pose proof (wf_leaf _ _ Hn) as Hwf. cbn [networkRelease]. apply wp_bind.
    destruct (is_prefix n q) eqn:Hi.
    + apply (is_prefix_spec p) in Hi as ->; [|done..]. unfold expired. wp_steps.
      destruct (Z.ltb_spec (lastUpdateTimestamp n + g) (clock τ)); [by apply release_at_root|].
      wp_steps. apply wp_ret. by apply release_post_none, not_releasable_young.
    + wp_steps. apply wp_ret. apply release_post_none, not_releasable_absent; [done|]. simpl.
      rewrite decide_False; [done|]. rewrite (ok_prefix _ _ Hn). intros ->.
      by rewrite (proj2 (is_prefix_spec _ _ _ Hn Hq) eq_refl) in Hi.
  - pose proof (wf_fork _ _ _ _ Hn Hlt Hl Hr He) as Hwf. pose proof (ok_wf4 _ _ Hn) as Hp.
    cbn [networkRelease].
    rewrite (wf_child_match (lchild p) l (fun y => if isPrefixChildOf y q
               then networkRelease clock q l g else mret (None, l))) by done.
    apply wp_bind. destruct (is_prefix n q) eqn:Hi.
    + apply (is_prefix_spec p) in Hi as ->; [|done..]. unfold expired. wp_steps.
      destruct (Z.ltb_spec (lastUpdateTimestamp n + g) (clock τ)); [by apply release_at_root|].
      destruct (child_cases p p Hp Hlt Hq Hu) as [(_ & _ & Hc)|[(_ & _ & Hc)|(-> & Hc & _)]];
        [apply under_bits in Hc; simpl in Hc; lia..|].
      wp_steps. rewrite (wf_child_match (rchild p) r (fun y => if isPrefixChildOf y p
                  then networkRelease clock p r g else mret (None, r))) by done.
      rewrite Hc. wp_steps. by apply merge_after_release, release_post_none, not_releasable_young.
    + wp_steps.
      assert (Hne : prefix n ≠ q).
      { rewrite (ok_prefix _ _ Hn). intros <-.
        by rewrite (proj2 (is_prefix_spec _ _ _ Hn Hq) eq_refl) in Hi. }
      destruct (child_cases p q Hp Hlt Hq Hu) as [(-> & Hc & Huc)|[(-> & Hc & Huc)|(-> & Hc & Hb)]].
      * eapply wp_mono; [by apply IHl|]. intros [res l'] τ' Hpost.
        rewrite (wf_child_match (rchild p) r (fun y => if isPrefixChildOf y q
                   then networkRelease clock q r g else mret (res, r))) by done.
        rewrite Hc. wp_steps. by apply merge_after_release, release_post_left.
      * wp_steps. rewrite (wf_child_match (rchild p) r (fun y => if isPrefixChildOf y q
                   then networkRelease clock q r g else mret (None, r))) by done.
        rewrite Hc. eapply wp_mono; [by apply IHr|]. intros [res r'] τ' Hpost.
        wp_steps. by apply merge_after_release, release_post_right.
      * wp_steps. rewrite (wf_child_match (rchild p) r (fun y => if isPrefixChildOf y q
                   then networkRelease clock q r g else mret (None, r))) by done.
        rewrite Hc. wp_steps. apply merge_after_release, release_post_none; [done|].
        apply not_releasable_absent. simpl. rewrite decide_False by done.
        rewrite (node_at_outside (lchild p) l), (node_at_outside (rchild p) r); try done;
          intros Hx%under_bits; simpl in Hx; lia.
Qed.
End ops.

(** ** Searching and writing back a node *)

Lemma search_node_at p t q : wf p t → valid_prefix q → under p q → search q t = node_at t q.
Proof.
  intros Hwf Hq. induction Hwf as [p n Hn|p n l r Hn Hlt Hl IHl Hr IHr He]; intros Hu.
  - simpl. rewrite (ok_prefix _ _ Hn). destruct (is_prefix n q) eqn:Hi.
    + apply (is_prefix_spec p) in Hi as ->; [|done..]. by rewrite decide_True.
    + rewrite decide_False; [done|]. intros ->.
      by rewrite (proj2 (is_prefix_spec _ _ _ Hn Hq) eq_refl) in Hi.
  - pose proof (ok_wf4 _ _ Hn) as Hp. cbn [search].
    rewrite (wf_child_match (lchild p) l (fun y => isPrefixChildOf y q)) by done.
    rewrite (wf_child_match (rchild p) r (fun y => isPrefixChildOf y q)) by done.
    destruct (is_prefix n q) eqn:Hi.
    { apply (is_prefix_spec p) in Hi as ->; [|done..]. by rewrite node_at_here. }
    destruct (child_cases p q Hp Hlt Hq Hu) as [(-> & _ & Huc)|[(-> & -> & Huc)|(-> & -> & Hb)]].
    + rewrite (node_at_left p) by done. auto.
    + rewrite (node_at_right p) by done. auto.
    + simpl. rewrite decide_False.
      * rewrite (node_at_outside (lchild p) l), (node_at_outside (rchild p) r); try done;
          intros Hx%under_bits; simpl in Hx; lia.
      * rewrite (ok_prefix _ _ Hn). intros ->.
        by rewrite (proj2 (is_prefix_spec _ _ _ Hn Hq) eq_refl) in Hi.
Qed.

(** Writing back a node with the same prefix and counter. *)
Definition store_post (p : Prefix) (t : tree) (q : Prefix) (n' : node) (t' : tree) : Prop :=
  wf p t' ∧ (∀ x, rc t' x = rc t x) ∧
  ∀ x, held t' x = if decide (x = q) then addr <$> ips n' else held t x.

Lemma store_spec p t q n n' :
  wf p t → valid_prefix q → under p q → node_at t q = Some n →
  node_ok q n' → refCount n' = refCount n → store_post p t q n' (store q n' t).
Proof.
  intros Hwf Hq. induction Hwf as [p m Hm|p m l r Hm Hlt Hl IHl Hr IHr He]; intros Hu Hat Hn' Hrc.
  - simpl in *. rewrite (ok_prefix _ _ Hm) in Hat. case_decide as Hd; [subst q|done].
    injection Hat as ->. rewrite (proj2 (is_prefix_spec _ _ _ Hm Hq) eq_refl).
    split_and!; [by apply wf_leaf|..]; intros x.
    + by rewrite !(rc_leaf p), Hrc.
    + rewrite !(held_leaf p) by done. by case_decide.
  - pose proof (ok_wf4 _ _ Hm) as Hp. cbn [store].
    rewrite (wf_child_match (lchild p) l (fun y => isPrefixChildOf y q)) by done.
    rewrite (wf_child_match (rchild p) r (fun y => isPrefixChildOf y q)) by done.
    destruct (is_prefix m q) eqn:Hi.
    { apply (is_prefix_spec p) in Hi as ->; [|done..]. rewrite node_at_here in Hat by done.
      injection Hat as ->.
      split_and!; [apply wf_fork; auto; by rewrite Hrc|..]; intros x.
      - by rewrite !(rc_fork p), Hrc.
      - rewrite !(held_fork p) by done. by case_decide. }
    destruct (child_cases p q Hp Hlt Hq Hu) as [(-> & _ & Huc)|[(-> & -> & Huc)|(-> & -> & Hb)]].
    + rewrite (node_at_left p) in Hat by done.
      destruct (IHl Huc Hat Hn' Hrc) as (Hw & Hrc' & Hh').
      assert (Hqp : q ≠ p) by (intros ->; apply under_bits in Huc; simpl in Huc; lia).
      assert (Hout : held r q = []) by (apply (held_outside (rchild p)); auto; by eapply under_not_both).
      split_and!; [apply wf_fork; auto|..].
      * intros Hx. destruct (He Hx) as [Hf Hf']. split; [|done]. apply (rc_free (lchild p)); [done|].
        intros x. rewrite Hrc'. by apply free_rc.
      * intros x. by rewrite !(rc_fork p), Hrc'.
      * intros x. rewrite !(held_fork p), Hh' by done. repeat case_decide; subst; try done.
        by rewrite Hout, app_nil_r.
    + rewrite (node_at_right p) in Hat by done.
      destruct (IHr Huc Hat Hn' Hrc) as (Hw & Hrc' & Hh').
      assert (Hqp : q ≠ p) by (intros ->; apply under_bits in Huc; simpl in Huc; lia).
      assert (Hout : held l q = []).
      { apply (held_outside (lchild p)); auto. intros Hx. by eapply (under_not_both p Hp Hlt q). }
      split_and!; [apply wf_fork; auto|..].
      * intros Hx. destruct (He Hx) as [Hf Hf']. split; [done|]. apply (rc_free (rchild p)); [done|].
        intros x. rewrite Hrc'. by apply free_rc.
      * intros x. by rewrite !(rc_fork p), Hrc'.
      * intros x. rewrite !(held_fork p), Hh' by done. repeat case_decide; subst; try done.
        by rewrite Hout.
    + exfalso. destruct (node_at_under p _ _ _ (wf_fork _ _ _ _ Hm Hlt Hl Hr He) Hat) as (_ & Hw & _).
      rewrite <- (wf4_ext p q) in Hi by auto.
      by rewrite (proj2 (is_prefix_spec p m p Hm (wf4_valid _ Hp)) eq_refl) in Hi.
Qed.

(** ** Listing *)

Lemma listNetworks_free t : free t → listNetworks t = [].
Proof.
  induction t as [|n l IHl r IHr]; simpl; [done|]. intros (Hz & Hl & Hr).
  unfold isAcquired. rewrite Hz. simpl. by rewrite IHl, IHr.
Qed.

(** The list holds each acquired prefix once. *)
Lemma listNetworks_spec p t : wf p t →
  (∀ q, q ∈ listNetworks t ↔ rc t q ≠ 0) ∧ NoDup (listNetworks t).
Proof.
  induction 1 as [p n Hn|p n l r Hn Hlt Hl [IHl NDl] Hr [IHr NDr] He].
  - pose proof (ok_rc _ _ Hn). assert (Hrc : ∀ q, rc (Node n Nil Nil) q = _) by (intros; by apply (rc_leaf p)).
    simpl. rewrite (ok_prefix _ _ Hn). unfold isAcquired, isExclusive.
    destruct (Z.eqb_spec (refCount n) 0) as [Hz|Hz]; cbn [negb].
    + split; [|constructor]. intros q. rewrite Hrc, elem_of_nil. case_decide; naive_solver.
    + assert (Hl : (if refCount n =? -1 then [p] else [p]) = [p]) by by case_match.
      rewrite Hl. split; [|apply NoDup_singleton]. intros q. rewrite Hrc, list_elem_of_singleton.
      case_decide; naive_solver.
  - pose proof (ok_wf4 _ _ Hn) as Hp.
    assert (Hrc : ∀ q, rc (Node n l r) q = _) by (intros; by apply (rc_fork p)).
    assert (Hd : ∀ q, rc l q = 0 ∨ rc r q = 0) by (intros; by apply (rc_siblings p)).
    assert (Hlp : rc l p = 0) by (eapply rc_below; [eassumption|simpl; lia]).
    assert (Hrp : rc r p = 0) by (eapply rc_below; [eassumption|simpl; lia]).
    assert (ND : NoDup (listNetworks l ++ listNetworks r)).
    { apply NoDup_app. split_and!; auto. intros x. rewrite IHl, IHr. specialize (Hd x). lia. }
    simpl. rewrite (ok_prefix _ _ Hn). unfold isAcquired, isExclusive.
    destruct (Z.eqb_spec (refCount n) 0) as [Hz|Hz]; cbn [negb].
    + split; [|done]. intros q. rewrite Hrc, elem_of_app, IHl, IHr. specialize (Hd q).
      case_decide; [subst; lia|lia].
    + destruct (Z.eqb_spec (refCount n) (-1)) as [Hx|Hx].
      * destruct (He Hx) as [Hfl Hfr]. split; [|apply NoDup_singleton].
        intros q. rewrite Hrc, list_elem_of_singleton. case_decide; [naive_solver|].
        rewrite !free_rc by done. naive_solver.
      * split.
        -- intros q. rewrite Hrc, elem_of_cons, elem_of_app, IHl, IHr. specialize (Hd q).
           case_decide; [naive_solver|]. split; [intros [->|?]; [done|lia]|lia].
        -- apply NoDup_cons. split; [|done]. rewrite elem_of_app, IHl, IHr. lia.
Qed.

(** ** Availability *)

Lemma unsplit_free p t : wf p t →
  match t with Nil => false | Node n l r => isSplitted l r || isAcquired n end = false → free t.
Proof.
  destruct 1 as [p n Hn|p n l r Hn Hlt Hl Hr He].
  - simpl. unfold isAcquired. intros H%negb_false_iff%Z.eqb_eq. done.
  - apply wf_root in Hl as (? & ? & ? & -> & _). by apply wf_root in Hr as (? & ? & ? & -> & _).
Qed.

(** A network reported available overlaps nothing acquired, provided the root
    of its pool is not itself acquired (the code does not look at it). *)
Lemma networkIsAvailable_sound p t q : wf p t → wf4 q → under p q → rc t p = 0 →
  networkIsAvailable q t = true → can_acquire (rc t) q true.
Proof.
  intros Hwf Hq. assert (Hqv : valid_prefix q) by auto with liqo.
  induction Hwf as [p n Hn|p n l r Hn Hlt Hl IHl Hr IHr He]; intros Hu Hz.
  - rewrite rc_here in Hz by done. intros _ x Hx _. rewrite (rc_leaf p) in Hx by done.
    case_decide; lia.
  - rewrite rc_here in Hz by done. pose proof (ok_wf4 _ _ Hn) as Hp. cbn [networkIsAvailable].
    destruct (is_prefix n q) eqn:Hi.
    { apply (is_prefix_spec p) in Hi as ->; [|done..].
      destruct (match l with Nil => false | Node nl ll lr => isSplitted ll lr || isAcquired nl end) eqn:H1;
        [done|].
      destruct (match r with Nil => false | Node nl ll lr => isSplitted ll lr || isAcquired nl end) eqn:H2;
        [done|].
      intros _. apply can_acquire_here; [by apply wf_fork|].
      split_and!; eauto using unsplit_free. }
    assert (Hnl : isLeaf l r = false) by (by apply wf_root in Hl as (? & ? & ? & -> & _)).
    rewrite Hnl.
    destruct (wf_root _ _ Hl) as (nl & ll & lr & El & Hnl').
    destruct (wf_root _ _ Hr) as (nr & rl & rr & Er & Hnr').
    rewrite El at 1. rewrite Er at 1. rewrite (ok_prefix _ _ Hnl'), (ok_prefix _ _ Hnr').
    destruct (isPrefixChildOf (lchild p) q && negb (isAcquired nl)) eqn:HL.
    + apply andb_true_iff in HL as [HL Ha%negb_true_iff]. intros Hav.
      apply isPrefixChildOf_spec in HL; auto using lchild_wf.
      apply (can_acquire_left p); auto; [lia|]. apply IHl; auto.
      rewrite El, rc_here by done. unfold isAcquired in Ha. by apply negb_false_iff, Z.eqb_eq in Ha.
    + destruct (isPrefixChildOf (rchild p) q && negb (isAcquired nr)) eqn:HR; [|done].
      apply andb_true_iff in HR as [HR Ha%negb_true_iff]. intros Hav.
      apply isPrefixChildOf_spec in HR; auto using rchild_wf.
      apply (can_acquire_right p); auto; [lia|]. apply IHr; auto.
      rewrite Er, rc_here by done. unfold isAcquired in Ha. by apply negb_false_iff, Z.eqb_eq in Ha.
Qed.

(** ** Addresses of a node *)

(** What [ParseAddr] returns. *)
Record valid_addr (a : Addr) : Prop := {
  va_len : bitlen a = 32 ∨ bitlen a = 128;
  va_val : 0 ≤ val a < 2 ^ bitlen a;
  va_zone : bitlen a = 32 → zone a = ""%string
}.

Lemma valid_addr_witness : valid_addr (AddrFrom4 1).
Proof. split; simpl; auto. lia. Qed.

Lemma same_addr_contained p x a : wf4 p → Contains p x = true → valid_addr a →
  same_addr x a = true ↔ x = a.
Proof.
  intros Hp Hx Ha. apply Contains_spec in Hx as (Hl & Hz & _); [|done].
  destruct (decide (bitlen a = 32)) as [Ha32|Hne].
  - apply same_addr_spec. rewrite Hz. symmetry. by apply va_zone.
  - split; [|by intros ->]. unfold same_addr, Addr_Compare. rewrite Hl.
    destruct (Z.compare_spec 32 (bitlen a)); [congruence|done..].
Qed.

Lemma existsb_addr p l a : wf4 p → (∀ x, x ∈ l → Contains p (addr x) = true) → valid_addr a →
  existsb (fun x => same_addr (addr x) a) l = true ↔ a ∈ addr <$> l.
Proof.
  intros Hp Hl Ha. rewrite existsb_true_iff, list_elem_of_fmap. split.
  - intros (x & Hx & Hs). apply (same_addr_contained p) in Hs; [|auto..]. eauto.
  - intros (x & -> & Hx). exists x. split; [done|].
    apply (same_addr_contained p); auto.
Qed.

Lemma Contains_valid p a : wf4 p → Contains p a = true → valid_addr a.
Proof.
  intros Hp Ha. pose proof Hp as [Hl Hv Hz Hb Hh].
  apply Contains_range in Ha as (Hla & Hza & Hr); [|done].
  split; [by left| |done]. rewrite Hla. split; [lia|].
  assert (Hpos : 0 < 2 ^ (32 - pBits p)) by (apply Z.pow_pos_nonneg; lia).
  apply Z.mod_divide in Hh; [|lia]. destruct Hh as [k Hk].
  assert (Htop : 2 ^ 32 = 2 ^ (32 - pBits p) * 2 ^ pBits p).
  { rewrite <- Z.pow_add_r by lia. f_equal. lia. }
  rewrite Htop. rewrite Htop, Hk in Hv. rewrite Hk in Hr.
  assert (k < 2 ^ pBits p) by nia. nia.
Qed.

(** The [i]-th address of a prefix. *)
Definition addr_at (p : Prefix) (i : Z) : Addr := AddrFrom4 (val (pAddr p) + i).
Definition psize (p : Prefix) : Z := 2 ^ (32 - pBits p).

Section addresses.
Context (clock : nat → Z) (p : Prefix) (Hp : wf4 p).

Lemma psize_pos : 0 < psize p.
Proof. apply Z.pow_pos_nonneg; destruct Hp; lia. Qed.

Lemma Contains_addr_at a : Contains p a = true ↔
  ∃ i, 0 ≤ i < psize p ∧ a = addr_at p i.
Proof.
  rewrite Contains_range by done. split.
  - intros (Hl & Hz & Hr). exists (val a - val (pAddr p)). split; [unfold psize; lia|].
    destruct a; simpl in *; subst. unfold addr_at, AddrFrom4. f_equal. lia.
  - intros (i & Hi & ->). unfold psize in Hi. simpl. split_and!; [done|done|lia|lia].
Qed.

(** The address the loop looks at, as an offset in the prefix. *)
Definition offset (a : Addr) : Z := if Contains p a then val a - val (pAddr p) else 0.

Lemma offset_range a : 0 ≤ offset a < psize p.
Proof.
  pose proof psize_pos. unfold offset. destruct (Contains p a) eqn:E; [|lia].
  apply Contains_range in E as (_ & _ & ?); [|done]. unfold psize. lia.
Qed.

Lemma wrapped_addr a : (if Contains p a then a else pAddr p) = addr_at p (offset a).
Proof.
  unfold offset. destruct (Contains p a) eqn:E.
  - apply Contains_range in E as (Hl & Hz & _); [|done].
    destruct a; simpl in *; subst. unfold addr_at, AddrFrom4. f_equal. lia.
  - destruct Hp as [Hl _ Hz _ _]. unfold addr_at, AddrFrom4.
    destruct (pAddr p); simpl in *; subst. f_equal. lia.
Qed.

Lemma offset_next i : 0 ≤ i < psize p → offset (Next (addr_at p i)) = (i + 1) mod psize p.
Proof.
  intros Hi. pose proof psize_pos. pose proof (Contains_valid p (addr_at p i) Hp) as Hv.
  assert (Hc : Contains p (addr_at p i) = true) by (apply Contains_addr_at; eauto).
  specialize (Hv Hc). destruct Hv as [_ Hv _]. unfold addr_at in Hv. simpl in Hv.
  unfold Next, Is4. cbn [addr_at AddrFrom4 bitlen val zone].
  change (32 =? 32) with true. cbn iota.
  rewrite (Z.mod_small (_ + 1) (2 ^ 128)) by lia.
  assert (Hout : ∀ a, a = zeroAddr ∨ a = addr_at p (psize p) → offset a = 0).
  { intros a Ha. unfold offset. destruct (Contains p a) eqn:E; [|done].
    apply Contains_range in E as (Hl & _ & Hr); [|done].
    destruct Ha; subst; [done|]. unfold psize in *. simpl in Hr. lia. }
  destruct (Z.eqb_spec ((val (pAddr p) + i + 1) mod 2 ^ 32) 0) as [Hz|Hz].
  - assert (Htop : val (pAddr p) + i + 1 = 2 ^ 32).
    { destruct (decide (val (pAddr p) + i + 1 = 2 ^ 32)); [done|].
      rewrite Z.mod_small in Hz by lia. destruct Hp; lia. }
    rewrite Hout by auto. assert (i + 1 = psize p) as ->; [|by rewrite Z.mod_same by lia].
    destruct (decide (i + 1 = psize p)); [done|].
    assert (Hc2 : Contains p (addr_at p (i + 1)) = true)
      by (apply Contains_addr_at; exists (i + 1); split; [lia|done]).
    apply Contains_valid in Hc2 as [_ Hv2 _]; [|done]. simpl in Hv2. lia.
  - destruct (decide (i + 1 = psize p)) as [He|Hne].
    + rewrite Hout by (right; unfold addr_at, AddrFrom4; f_equal; lia).
      rewrite He, Z.mod_same by lia. done.
    + rewrite Z.mod_small by lia. unfold offset.
      assert (Hc2 : Contains p (addr_at p (i + 1)) = true)
        by (apply Contains_addr_at; exists (i + 1); split; [lia|done]).
      unfold addr_at, AddrFrom4 in Hc2. rewrite Z.add_assoc in Hc2. rewrite Hc2. simpl. lia.
Qed.

(** The node after [a] has been recorded. *)
Lemma node_ok_add n a c u last : node_ok p n → Contains p a = true →
  a ∉ addr <$> ips n → last = lastip n ∨ last = a →
  node_ok p (set_lastUpdate u (set_lastip last (set_ips (ips n ++ [mkNodeIP a c]) n))).
Proof.
  intros [Hw He Hrc Hips Hnd Hl] Ha Hfresh Hlast. split; simpl; auto.
  - intros x [Hx|Hx%list_elem_of_singleton]%elem_of_app; [auto|by subst].
  - rewrite fmap_app. apply NoDup_app. split_and!; [done| |apply NoDup_singleton].
    intros x Hx Hx2. apply list_elem_of_singleton in Hx2. simpl in Hx2. by subst.
  - destruct Hlast; subst; auto.
Qed.

Lemma isAllocatedIP_spec n a : node_ok p n → valid_addr a →
  isAllocatedIP n a = true ↔ a ∈ addr <$> ips n.
Proof. intros Hn Ha. unfold isAllocatedIP. apply (existsb_addr p); auto. apply Hn. Qed.

(** The address list after a successful acquisition. *)
Definition added (n n' : node) (a : Addr) : Prop :=
  Contains p a = true ∧ a ∉ addr <$> ips n ∧ addr <$> ips n' = (addr <$> ips n) ++ [a].

Lemma ipAcquire_loop_spec k n a τ : node_ok p n →
  wp (ipAcquire_loop clock k n a) τ (fun '(res, n') _ =>
    node_ok p n' ∧ refCount n' = refCount n ∧
    match res with
    | Some b => added n n' b
    | None => n' = n ∧ ∀ i, 0 ≤ i < Z.of_nat k →
                addr_at p ((offset a + i) mod psize p) ∈ addr <$> ips n
    end).
Proof.
  intros Hn. revert a τ. induction k as [|k IH]; intros a τ; cbn [ipAcquire_loop].
  { apply wp_ret. split_and!; try done. lia. }
  rewrite (ok_prefix _ _ Hn), wrapped_addr.
  pose proof (offset_range a) as Ho. pose proof psize_pos.
  assert (Hc : Contains p (addr_at p (offset a)) = true) by (apply Contains_addr_at; eauto).
  assert (Hv : valid_addr (addr_at p (offset a))) by (by eapply Contains_valid).
  destruct (isAllocatedIP n _) eqn:Ha; cbn [negb].
  - apply isAllocatedIP_spec in Ha; [|done..]. eapply wp_mono; [apply IH|].
    intros [res n'] τ' (Hok & Hrc & Hres). split_and!; [done..|].
    destruct res as [b|]; [done|]. destruct Hres as [-> Hall]. split; [done|].
    intros i Hi. destruct (decide (i = 0)) as [->|Hne].
    { rewrite Z.add_0_r, Z.mod_small by lia. done. }
    specialize (Hall (i - 1) ltac:(lia)). rewrite offset_next in Hall by lia.
    rewrite Z.add_mod_idemp_l in Hall by lia.
    replace (offset a + 1 + (i - 1)) with (offset a + i) in Hall by lia. done.
  - wp_steps.
    assert (Hfresh : addr_at p (offset a) ∉ addr <$> ips n).
    { intros Hin. apply isAllocatedIP_spec in Hin; [congruence|done..]. }
    split_and!; [by apply node_ok_add; auto|done|].
    split_and!; [done|done|]. simpl. by rewrite fmap_app.
Qed.

(** Acquiring an address returns a fresh address of the network, and fails on
    an acquired network only when every address is taken. *)
Definition ip_acquire_post (n : node) (res : option Addr) (n' : node) : Prop :=
  node_ok p n' ∧ refCount n' = refCount n ∧
  match res with
  | Some b => isAcquired n = true ∧ added n n' b
  | None => addr <$> ips n' = addr <$> ips n ∧
            (isAcquired n = true → ∀ b, Contains p b = true → b ∈ addr <$> ips n)
  end.

Lemma ipAcquire_spec n τ : node_ok p n →
  wp (ipAcquire clock n) τ (fun '(res, n') _ => ip_acquire_post n res n').
Proof.
  intros Hn. unfold ipAcquire. destruct (isAcquired n) eqn:Hacq; cbn [negb].
  2:{ apply wp_ret. split_and!; try done. by rewrite Hacq. }
  rewrite (ok_prefix _ _ Hn).
  set (n1 := if negb (Addr_IsValid (lastip n)) then set_lastip (pAddr p) n else n).
  assert (Hn1 : node_ok p n1 ∧ refCount n1 = refCount n ∧ ips n1 = ips n).
  { unfold n1. case_match; [|done]. split_and!; [|done..].
    destruct Hn. split; simpl; auto. right. by apply Contains_self. }
  destruct Hn1 as (Hok1 & Hrc1 & Hips1).
  eapply wp_mono; [by apply (ipAcquire_loop_spec _ n1)|].
  intros [res n'] τ' (Hok & Hrc & Hres). unfold ip_acquire_post, added in *.
  rewrite Hrc, Hrc1. rewrite Hips1 in Hres. split_and!; [done..|].
  destruct res as [b|]; [done|]. destruct Hres as [-> Hall]. rewrite Hips1.
  split; [done|]. intros _ b Hb. apply Contains_addr_at in Hb as (j & Hj & ->).
  pose proof psize_pos. rewrite (wf4_len _ Hp) in Hall.
  unfold int_pow2 in Hall. rewrite (proj2 (Z.ltb_lt _ 63)) in Hall by (destruct Hp; lia).
  fold (psize p) in Hall. rewrite Z2Nat.id in Hall by lia.
  set (o := offset _) in Hall.
  specialize (Hall ((j - o) mod psize p) ltac:(apply Z.mod_pos_bound; lia)).
  rewrite Z.add_mod_idemp_r in Hall by lia.
  replace (o + (j - o)) with j in Hall by lia. by rewrite Z.mod_small in Hall.
Qed.

(** Acquiring a given address. *)
Definition ip_acquire_addr_post (n : node) (a : Addr) (res : option Addr) (n' : node) : Prop :=
  node_ok p n' ∧ refCount n' = refCount n ∧
  match res with
  | Some b => b = a ∧ isAcquired n = true ∧ added n n' a
  | None => n' = n ∧ ¬ (isAcquired n = true ∧ Contains p a = true ∧ a ∉ addr <$> ips n)
  end.

Lemma allocateIPWithAddr_spec n a τ : node_ok p n → valid_addr a →
  wp (allocateIPWithAddr clock n a) τ (fun '(res, n') _ => ip_acquire_addr_post n a res n').
Proof.
  intros Hn Ha. unfold allocateIPWithAddr. destruct (isAcquired n) eqn:Hacq; cbn [negb].
  2:{ apply wp_ret. split_and!; try done. rewrite Hacq. naive_solver. }
  rewrite (ok_prefix _ _ Hn). destruct (Contains p a) eqn:Hc; cbn [negb].
  2:{ apply wp_ret. split_and!; try done. rewrite Hc. naive_solver. }
  destruct (existsb _ _) eqn:He.
  { apply (existsb_addr p) in He; [|done|apply Hn|done].
    apply wp_ret. split_and!; try done. naive_solver. }
  assert (Hfresh : a ∉ addr <$> ips n).
  { intros Hin. apply (existsb_addr p) in Hin; [congruence|done|apply Hn|done]. }
  wp_steps. split_and!; [|done|done|done|].
  - apply (node_ok_add n a _ _ (lastip n)); auto.
  - split_and!; [done|done|]. simpl. by rewrite fmap_app.
Qed.

(** Releasing an address: the entry found is dropped, and it was old enough
    when the loop reached it; otherwise no entry of that address was. *)
Definition ip_release_loop_post (τ : nat) (ip : Addr) (g : Z) (l : list nodeIP)
    (res : option Addr) (l' : list nodeIP) : Prop :=
  match res with
  | Some b => b = ip ∧ ∃ l1 x l2, l = l1 ++ x :: l2 ∧ l' = l1 ++ l2 ∧ addr x = ip ∧
                creationTimestamp x + g < clock (τ + List.length l1)
  | None => l' = l ∧ ∀ i x, l !! i = Some x → addr x = ip →
              clock (τ + i) ≤ creationTimestamp x + g
  end.

Lemma ipRelease_loop_spec ip g l τ :
  (∀ x, x ∈ l → Contains p (addr x) = true) → valid_addr ip →
  wp (ipRelease_loop clock ip g l) τ
     (fun '(res, l') _ => ip_release_loop_post τ ip g l res l').
Proof.
  intros Hl Hip. revert τ. induction l as [|x l IH]; intros τ; cbn [ipRelease_loop].
  { apply wp_ret. split; [done|]. intros i x Hx. by rewrite lookup_nil in Hx. }
  unfold expired. wp_steps.
  assert (Hs : same_addr (addr x) ip = true ↔ addr x = ip).
  { apply (same_addr_contained p); auto. apply Hl. left. }
  destruct (Z.ltb_spec (creationTimestamp x + g) (clock τ)) as [Ht|Ht]; cbn [andb].
  - destruct (same_addr (addr x) ip) eqn:He; [|].
    + wp_steps. split; [by apply Hs|]. exists [], x, l.
      rewrite Nat.add_0_r. split_and!; try done. by apply Hs.
    + apply wp_bind. eapply wp_mono; [apply IH; intros; apply Hl; by right|].
      intros [[b|] l'] τ' Hpost; apply wp_ret.
      * destruct Hpost as (-> & l1 & y & l2 & -> & -> & Hy & Hc). split; [done|].
        exists (x :: l1), y, l2. simpl. rewrite Nat.add_succ_r. done.
      * destruct Hpost as [-> Hall]. split; [done|]. intros [|i] y Hy Hay; simpl in Hy.
        -- injection Hy as ->. apply Hs in Hay. congruence.
        -- rewrite Nat.add_succ_r. by eapply (Hall i).
  - apply wp_bind. eapply wp_mono; [apply IH; intros; apply Hl; by right|].
    intros [[b|] l'] τ' Hpost; apply wp_ret.
    * destruct Hpost as (-> & l1 & y & l2 & -> & -> & Hy & Hc). split; [done|].
      exists (x :: l1), y, l2. simpl. rewrite Nat.add_succ_r. done.
    * destruct Hpost as [-> Hall]. split; [done|]. intros [|i] y Hy Hay; simpl in Hy.
      -- injection Hy as ->. by rewrite Nat.add_0_r.
      -- rewrite Nat.add_succ_r. by eapply (Hall i).
Qed.

Definition ip_release_post (τ : nat) (n : node) (ip : Addr) (g : Z)
    (res : option Addr) (n' : node) : Prop :=
  node_ok p n' ∧ refCount n' = refCount n ∧
  match res with
  | Some b => b = ip ∧ isAcquired n = true ∧ ip ∈ addr <$> ips n ∧ ip ∉ addr <$> ips n' ∧
              ∀ b', b' ≠ ip → b' ∈ addr <$> ips n' ↔ b' ∈ addr <$> ips n
  | None => n' = n ∧ (isAcquired n = true → ∀ i x, ips n !! i = Some x → addr x = ip →
                        clock (τ + i) ≤ creationTimestamp x + g)
  end.

Lemma ipRelease_spec n ip g τ : node_ok p n → valid_addr ip →
  wp (ipRelease clock n ip g) τ (fun '(res, n') _ => ip_release_post τ n ip g res n').
Proof.
  intros Hn Hip. unfold ipRelease. destruct (isAcquired n) eqn:Hacq; cbn [negb].
  2:{ apply wp_ret. split_and!; try done. by rewrite Hacq. }
  apply wp_bind. eapply wp_mono; [apply ipRelease_loop_spec; [apply Hn|done]|].
  intros [[b|] l'] τ' Hpost; wp_steps.
  2:{ destruct Hpost as [-> Hall]. split_and!; try done. }
  destruct Hpost as (-> & l1 & x & l2 & Hl & -> & Hx & _).
  destruct Hn as [Hw He Hrc Hips Hnd Hlast]. rewrite Hl in Hips.
  rewrite Hl, fmap_app, fmap_cons in Hnd. apply NoDup_app in Hnd as (Hn1 & Hd & Hn2).
  apply NoDup_cons in Hn2 as [Hx2 Hn2]. rewrite Hx in *.
  assert (Hx1 : ip ∉ addr <$> l1) by (intros Hi; apply (Hd _ Hi); left).
  unfold ip_release_post. cbn [ips set_lastUpdate set_ips]. rewrite Hl, !fmap_app, fmap_cons, Hx.
  split_and!; try done.
  - split; simpl; auto.
    + intros y Hy. apply Hips. rewrite elem_of_app, elem_of_cons. apply elem_of_app in Hy. tauto.
    + rewrite fmap_app. apply NoDup_app. split_and!; [done| |done].
      intros y Hy1 Hy2. apply (Hd _ Hy1). by right.
  - rewrite elem_of_app, elem_of_cons. tauto.
  - rewrite elem_of_app. tauto.
  - intros b' Hb. rewrite !elem_of_app, elem_of_cons. naive_solver.
Qed.
End addresses.
