(* ===== verification/GoNet.v ===== *)
(** * GoNet: what the parsers of [net/netip] return, and the package [net] as far as used

    Every handler builds its prefixes and addresses with [ParsePrefix] and
    [ParseAddr]; the first lemmas show that what they return meets the
    well-formedness conditions the IPAM theorems assume. *)

From S2P Require Export IpamOps.
From Stdlib Require Import Ascii.
Local Open Scope Z_scope.

Definition byte_list (l : list Z) : Prop := ∀ b, b ∈ l → 0 ≤ b < 256.

Lemma byte_list_app l k : byte_list (l ++ k) ↔ byte_list l ∧ byte_list k.
Proof. unfold byte_list. setoid_rewrite elem_of_app. naive_solver. Qed.

Lemma byte_list_cons b l : byte_list (b :: l) ↔ 0 ≤ b < 256 ∧ byte_list l.
Proof. unfold byte_list. setoid_rewrite elem_of_cons. naive_solver. Qed.

Lemma byte_list_nil : byte_list [].
Proof. by intros b ?%not_elem_of_nil. Qed.

Lemma be_val_acc l acc : byte_list l →
  acc * 256 ^ Z.of_nat (List.length l)
  ≤ fold_left (fun a b => a * 256 + b) l acc < (acc + 1) * 256 ^ Z.of_nat (List.length l).
Proof.
  revert acc. induction l as [|b l IH]; intros acc Hl.
  - simpl. lia.
  - apply byte_list_cons in Hl as [Hb Hl]. specialize (IH (acc * 256 + b) Hl).
    cbn [fold_left List.length]. rewrite Nat2Z.inj_succ, Z.pow_succ_r by lia.
    pose proof (Z.pow_pos_nonneg 256 (Z.of_nat (List.length l)) ltac:(lia) ltac:(lia)). nia.
Qed.

Lemma be_val_range l : byte_list l → 0 ≤ be_val l < 256 ^ Z.of_nat (List.length l).
Proof. intros Hl. pose proof (be_val_acc l 0 Hl). unfold be_val. lia. Qed.

Lemma ip4_run_ok s st st' : ip4_run st s = Some st' →
  byte_list (fields st) → 0 ≤ cur st < 256 → byte_list (fields st') ∧ 0 ≤ cur st' < 256.
Proof.
  revert st. induction s as [|c s IH]; intros st; cbn [ip4_run]; [naive_solver|].
  intros (st1 & Hs & Hr)%bind_Some Hf Hc. apply (IH st1 Hr); clear IH Hr;
    unfold ip4_step in Hs; destruct (is_digit c) eqn:Hd.
  - repeat case_match; simplify_eq. done.
  - repeat case_match; simplify_eq. cbn [fields]. rewrite byte_list_app, byte_list_cons.
    split_and!; auto using byte_list_nil; lia.
  - unfold is_digit in Hd. apply andb_true_iff in Hd as [Hd%Z.leb_le _].
    destruct (_ && _); [done|]. destruct (Z.ltb_spec 255 (cur st * 10 + (code c - 48))); [done|].
    simplify_eq. cbn [cur]. lia.
  - repeat case_match; simplify_eq. cbn [cur]. lia.
Qed.

Lemma parseIPv4Fields_ok s fs : parseIPv4Fields s = Some fs →
  byte_list fs ∧ List.length fs = 4%nat.
Proof.
  unfold parseIPv4Fields. intros (st & Hr & Hs)%bind_Some.
  apply ip4_run_ok in Hr as [Hf Hc]; [|apply byte_list_nil|simpl; lia].
  destruct (digLen st =? 0); [done|]. cbn [orb] in Hs.
  destruct (Nat.eqb_spec (List.length (fields st)) 3) as [H3|]; [|done]. injection Hs as <-.
  rewrite byte_list_app, byte_list_cons, length_app, H3. auto using byte_list_nil.
Qed.

Lemma hex_val_range c d : hex_val c = Some d → 0 ≤ d < 16.
Proof.
  unfold hex_val, is_digit.
  destruct (Z.leb_spec 48 (code c)), (Z.leb_spec (code c) 57); simpl;
  destruct (Z.leb_spec 97 (code c)), (Z.leb_spec (code c) 102); simpl;
  destruct (Z.leb_spec 65 (code c)), (Z.leb_spec (code c) 70); simpl;
  intros [= <-] || intros [=]; lia.
Qed.

Lemma hex_group_range s acc off a o r : hex_group s acc off = Some (a, o, r) →
  (off ≤ 4)%nat → 0 ≤ acc < 16 ^ Z.of_nat off → 0 ≤ a < 65536.
Proof.
  revert acc off. induction s as [|c s IH]; intros acc off; cbn [hex_group].
  - intros [= <- <- <-] Ho Ha. pose proof (Z.pow_le_mono_r 16 (Z.of_nat off) 4). lia.
  - destruct (hex_val c) as [d|] eqn:Hd.
    + destruct (Nat.ltb_spec 3 off); [done|]. intros Hg Ho Ha.
      apply hex_val_range in Hd. apply (IH _ _ Hg); [lia|].
      rewrite Nat2Z.inj_succ, Z.pow_succ_r by lia. lia.
    + intros [= <- <- <-] Ho Ha. pose proof (Z.pow_le_mono_r 16 (Z.of_nat off) 4). lia.
Qed.

Lemma ip6_loop_ok fuel bs ell s bs' ell' rest :
  ip6_loop fuel bs ell s = Some (bs', ell', rest) →
  byte_list bs → (List.length bs + 2 * fuel ≤ 16)%nat →
  byte_list bs' ∧ (List.length bs' ≤ 16)%nat.
Proof.
  revert bs ell s. induction fuel as [|fuel IH]; intros bs ell s; cbn [ip6_loop].
  { intros [= <- <- <-] Hb Hl. split; [done|lia]. }
  intros (((acc & off) & rs) & Hg & Hs)%bind_Some Hb Hl.
  apply hex_group_range in Hg; [|lia|simpl; lia].
  assert (Hb2 : byte_list (bs ++ [acc / 256; acc mod 256])).
  { rewrite byte_list_app, !byte_list_cons. split_and!; auto using byte_list_nil;
      try (apply Z.mod_pos_bound; lia); [apply Z.div_pos; lia|apply Z.div_lt_upper_bound; lia]. }
  assert (Hl2 : List.length (bs ++ [acc / 256; acc mod 256]) = (List.length bs + 2)%nat)
    by (by rewrite length_app).
  destruct (off =? 0)%nat; [done|]. case_bool_decide.
  - destruct (_ && _); [done|]. destruct (Nat.ltb_spec 16 (List.length bs + 4)); [done|].
    apply bind_Some in Hs as (fs & Hf & Hs). simplify_eq.
    apply parseIPv4Fields_ok in Hf as [Hf Hf4]. rewrite byte_list_app, length_app. lia || auto with lia.
  - destruct rs as [|c s1]; [simplify_eq; split; [done|lia]|].
    destruct (_ || _); [done|]. case_bool_decide; [|apply IH in Hs; auto; lia].
    case_bool_decide; [done|].
    case_bool_decide; [simplify_eq; split; [done|lia]|apply IH in Hs; auto; lia].
Qed.

Lemma parseIPv6_ok txt a : parseIPv6 txt = Some a →
  bitlen a = 128 ∧ 0 ≤ val a < 2 ^ 128.
Proof.
  unfold parseIPv6. destruct (split_zone txt) as [s z]. case_bool_decide; [done|]. cbn zeta.
  case_match; [intros [= <-]; simpl; lia|].
  intros (((bs & ell) & rest) & Hl & Hs)%bind_Some.
  apply ip6_loop_ok in Hl as [Hb Hlen]; [|apply byte_list_nil|simpl; lia].
  destruct (negb _); [done|]. destruct (Nat.ltb_spec (List.length bs) 16).
  - destruct ell as [e|]; [|done]. injection Hs as <-. split; [done|]. cbn [AddrFrom16 val].
    set (l := take e bs ++ _).
    assert (Hlb : byte_list l).
    { unfold l. rewrite !byte_list_app. split_and!.
      - intros b Hin. apply Hb. eapply elem_of_take in Hin as (i & Hi & _).
        by eapply list_elem_of_lookup_2.
      - intros b [-> _]%elem_of_replicate. lia.
      - intros b Hin. apply Hb. apply list_elem_of_lookup in Hin as (i & Hi).
        rewrite lookup_drop in Hi. by eapply list_elem_of_lookup_2. }
    assert (Hll : List.length l = 16%nat).
    { unfold l. rewrite !length_app, length_replicate, length_take, length_drop. lia. }
    pose proof (be_val_range l Hlb) as Hr. by rewrite Hll in Hr.
  - case_bool_decide; [done|]. injection Hs as <-. split; [done|]. cbn [AddrFrom16 val].
    pose proof (be_val_range bs Hb) as Hr. replace (List.length bs) with 16%nat in Hr by lia. done.
Qed.

Lemma ParseAddr_sep_ok whole s a : ParseAddr_sep whole s = Some a → valid_addr a.
Proof.
  induction s as [|c s IH]; cbn [ParseAddr_sep]; [done|].
  case_bool_decide.
  - intros (fs & [Hf H4]%parseIPv4Fields_ok & [= <-])%bind_Some.
    pose proof (be_val_range fs Hf) as Hr. rewrite H4 in Hr. split; simpl; auto.
  - case_bool_decide; [|case_bool_decide; [done|auto]].
    intros [Hl Hv]%parseIPv6_ok. split; rewrite ?Hl; auto. lia.
Qed.

Lemma ParseAddr_valid s a : ParseAddr s = Some a → valid_addr a.
Proof. apply ParseAddr_sep_ok. Qed.

Lemma atoi_run_nonneg s acc n : atoi_run s acc = Some n → 0 ≤ acc → 0 ≤ n.
Proof.
  revert acc. induction s as [|c s IH]; intros acc; cbn [atoi_run]; [naive_solver|].
  destruct (is_digit c) eqn:Hd; [|done]. intros H Ha. apply (IH _ H).
  unfold is_digit in Hd. apply andb_true_iff in Hd as [Hd%Z.leb_le _]. lia.
Qed.

Lemma ParsePrefix_valid s p : ParsePrefix s = Some p → valid_prefix p.
Proof.
  unfold ParsePrefix. intros ((a & b) & _ & (ip & Hip%ParseAddr_valid & Hs)%bind_Some)%bind_Some.
  destruct (Is6 ip && _) eqn:Hz; [done|]. apply bind_Some in Hs as (bits & Hb & Hs).
  destruct (Z.leb_spec bits (bitlen ip)); [|done]. injection Hs as <-.
  assert (0 ≤ bits).
  { unfold parse_bits in Hb. destruct b as [|c b]; [done|]. destruct (negb (bool_decide (b = ""%string)) && _); [done|].
    eapply atoi_run_nonneg; [exact Hb|lia]. }
  destruct Hip as [Hl Hv Hzone]. unfold PrefixFrom.
  assert (Hfrom : zone ip = ""%string).
  { destruct Hl as [Hl|Hl]; [auto|]. unfold Is6 in Hz. rewrite Hl in Hz. simpl in Hz.
    apply negb_false_iff, bool_decide_eq_true in Hz. done. }
  assert (Hval : Addr_IsValid ip = true) by (unfold Addr_IsValid; by destruct Hl as [-> | ->]).
  rewrite Hval, (proj2 (Z.leb_le 0 bits)), (proj2 (Z.leb_le bits (bitlen ip))) by lia.
  split; simpl; auto.
Qed.

(** ** What the code uses of Go's package [net]

    A [net.IP] is a slice of 4 or 16 bytes; an empty slice is the nil address.
    Reading the bytes of a slice that is too short panics, as [encoding/binary]
    does. *)

(** [net.IP] and [net.IPNet]. *)
Definition IP : Type := list Z.
Record IPNet := mkIPNet { ipn_IP : IP; ipn_Mask : list Z }.

(** The twelve bytes before an IPv4 address in its 16-byte form. *)
Definition v4InV6Prefix : list Z := replicate 10 0 ++ [255; 255].

Definition To4 (ip : IP) : IP :=
  if (List.length ip =? 4)%nat then ip
  else if (List.length ip =? 16)%nat && bool_decide (take 12 ip = v4InV6Prefix) then drop 12 ip
  else [].

Definition To16 (ip : IP) : IP :=
  if (List.length ip =? 4)%nat then v4InV6Prefix ++ ip
  else if (List.length ip =? 16)%nat then ip
  else [].

(** [Addr.As16]. *)
Definition As16 (a : Addr) : list Z :=
  if Is4 a then v4InV6Prefix ++ addr_bytes a else addr_bytes a.

(** [net.ParseIP]: the 16-byte form, or nil. *)
Definition ParseIP (s : string) : IP :=
  match ParseAddr s with
  | Some a => if bool_decide (zone a = ""%string) then As16 a else []
  | None => []
  end.

(** [net.CIDRMask(ones, bits)]. *)
Definition CIDRMask (ones bits : Z) : list Z :=
  be_bytes (Z.to_nat (bits / 8)) (2 ^ bits - 2 ^ (bits - ones)).

(** [IP.Mask]. *)
Definition Mask (ip : IP) (m : list Z) : IP :=
  let ip := if (List.length m =? 4)%nat && (List.length ip =? 16)%nat
               && bool_decide (take 12 ip = v4InV6Prefix)
            then drop 12 ip else ip in
  zip_with Z.land ip m.

Fixpoint split_first_slash (s : string) : option (string * string) :=
  match s with
  | EmptyString => None
  | String c s' =>
    if bool_decide (c = "/"%char) then Some (EmptyString, s')
    else '(a, b) ← split_first_slash s'; Some (String c a, b)
  end.

Definition parse_mask (s : string) : option Z :=
  match s with EmptyString => None | _ => atoi_run s 0 end.

(** [net.ParseCIDR], without its first result. *)
Definition ParseCIDR (s : string) : option IPNet :=
  '(a, m) ← split_first_slash s;
  ip ← ParseAddr a;
  n ← parse_mask m;
  if negb (bool_decide (zone ip = ""%string)) || (bitlen ip <? n) then None
  else let mask := CIDRMask n (bitlen ip) in Some (mkIPNet (Mask (As16 ip) mask) mask).

(** [IPNet.Contains]; the mask has the length of the address. *)
Definition IPNet_Contains (n : IPNet) (ip : IP) : bool :=
  let nn := match To4 (ipn_IP n) with [] => ipn_IP n | x => x end in
  let ip := match To4 ip with [] => ip | x => x end in
  if negb (List.length ip =? List.length nn)%nat then false
  else forallb (fun '((x, y), m) => Z.land x m =? Z.land y m) (zip (zip nn ip) (ipn_Mask n)).

(** [binary.BigEndian.Uint32] and [Uint64] of a slice. *)
Definition Uint (k : nat) (b : list Z) : outcome Z :=
  if (List.length b <? k)%nat then Panic else Ret (be_val (take k b)).

(** ** The text of an address *)

Definition hexdig (d : Z) : ascii :=
  if d <? 10 then digit d else ascii_of_nat (Z.to_nat (87 + d)).
Definition hex_byte (b : Z) : string := String (hexdig (b / 16)) (String (hexdig (b mod 16)) EmptyString).
Fixpoint hex_aux (fuel : nat) (n : Z) (acc : string) : string :=
  match fuel with
  | O => acc
  | S f =>
    let acc' := String (hexdig (n mod 16)) acc in
    if n / 16 =? 0 then acc' else hex_aux f (n / 16) acc'
  end.
Definition hex (n : Z) : string := hex_aux 4 n "".

Fixpoint groups (b : list Z) : list Z :=
  match b with
  | x :: y :: b => (x * 256 + y) :: groups b
  | _ => []
  end.

(** The length of the run of zero groups that starts a list. *)
Fixpoint zero_run (l : list Z) : nat :=
  match l with
  | 0 :: l => S (zero_run l)
  | _ => O
  end.

(** The first longest run of at least two zero groups: start and length. *)
Fixpoint longest_run (i : nat) (l : list Z) (best : nat * nat) : nat * nat :=
  match l with
  | [] => best
  | _ :: l' =>
    let n := zero_run l in
    longest_run (S i) l' (if (snd best <? n)%nat && (2 <=? n)%nat then (i, n) else best)
  end.

Definition join_hex (l : list Z) : string := String.concat ":" (map hex l).

(** [Addr.String] of a 16-byte address that is not IPv4-mapped. *)
Definition string16 (b : list Z) : string :=
  let g := groups b in
  let '(i, n) := longest_run 0 g (0%nat, 0%nat) in
  if (n =? 0)%nat then join_hex g
  else (join_hex (take i g) ++ "::" ++ join_hex (drop (i + n) g))%string.

(** [IP.String]. *)
Definition IP_String (ip : IP) : string :=
  match ip with
  | [] => "<nil>"
  | _ =>
    match To4 ip with
    | [] => string16 ip
    | b => convertByteSliceToString b
    end
  end.
