(* ===== verification/Remap.v ===== *)
(** * Remap: translating addresses between clusters
      (src/pkg/utils/ipam/mapping/ips.go, src/pkg/utils/ipam/ips.go,
       src/pkg/utils/cidr/cidr.go)

    Two peered clusters see each other's pods through remapped CIDRs: the
    network part of an address is replaced, its host part kept. *)

From S2P Require Export GoNet.
From Stdlib Require Import Ascii.
Local Open Scope Z_scope.

Definition not_w (w m : Z) : Z := Z.lxor m (2 ^ w - 1).

(** [RemapMask]. *)
Definition RemapMask (addr : IP) (mask : IPNet) : outcome IP :=
  match List.length (ipn_IP mask) with
  | 4%nat =>
    let addr := To4 addr in
    addrBin ← Uint 4 addr;
    maskBin ← Uint 4 (ipn_Mask mask);
    netBin ← Uint 4 (ipn_IP mask);
    let hostBin := Z.land addrBin (not_w 32 maskBin) in
    let result := Z.lor netBin hostBin in
    Ret (be_bytes 4 result)
  | 16%nat =>
    let addr := To16 addr in
    addrBin1 ← Uint 8 (take 8 addr);
    addrBin2 ← Uint 8 (drop 8 addr);
    maskBin1 ← Uint 8 (take 8 (ipn_Mask mask));
    maskBin2 ← Uint 8 (drop 8 (ipn_Mask mask));
    netBin1 ← Uint 8 (take 8 (ipn_IP mask));
    netBin2 ← Uint 8 (drop 8 (ipn_IP mask));
    let hostBin1 := Z.land addrBin1 (not_w 64 maskBin1) in
    let hostBin2 := Z.land addrBin2 (not_w 64 maskBin2) in
    let result1 := Z.lor netBin1 hostBin1 in
    let result2 := Z.lor netBin2 hostBin2 in
    Ret (be_bytes 8 result1 ++ be_bytes 8 result2)
  | _ => Ret []
  end.

Inductive map_error :=
| NotRemappedYet
| InvalidIP (s : string)
| BadSpecCIDR (s : string)
| BadStatusCIDR (s : string)
| NotInRemotePods (s : string)
| IncompleteConfiguration
| GetConfigurationFailed.

(** The loop of [remapWithin]; [status] is indexed as [spec] is. *)
Fixpoint remap_loop (ip : IP) (address : string) (i : nat) (spec status : list string)
  : outcome (result map_error (string * bool)) :=
  match spec with
  | [] => Ret (Ok (""%string, false))
  | s :: spec =>
    match ParseCIDR s with
    | None => Ret (Err (BadSpecCIDR s))
    | Some specNet =>
      if negb (IPNet_Contains specNet ip) then remap_loop ip address (S i) spec status
      else
        match status !! i with
        | None => Panic
        | Some st =>
          if bool_decide (s = st) then Ret (Ok (address, true))
          else
            match ParseCIDR st with
            | None => Ret (Err (BadStatusCIDR st))
            | Some statusNet =>
              r ← RemapMask ip statusNet;
              Ret (Ok (IP_String r, true))
            end
        end
    end
  end.

Definition remapWithin (ip : IP) (address : string) (spec status : list string)
  : outcome (result map_error (string * bool)) := remap_loop ip address 0 spec status.

(** The fields of a Configuration that are read. *)
Record ClusterCIDR := mkClusterCIDR { Pod : list string; External : list string }.
Record Condition := mkCondition { cond_observed : Z; cond_true : bool }.
Record Configuration := mkConfiguration {
  generation : Z;
  specRemote : ClusterCIDR;
  cidrs_condition : option Condition;
  statusRemote : option ClusterCIDR
}.

Definition AreConfigurationNetworkCIDRsConfigured (cfg : Configuration) : bool :=
  match cidrs_condition cfg with
  | None => false
  | Some c => if negb (generation cfg =? cond_observed c) then false else cond_true c
  end.

Definition MapAddressWithConfiguration (cfg : option Configuration) (address : string)
  : outcome (result map_error string) :=
  match cfg with
  | None => Ret (Err NotRemappedYet)
  | Some cfg =>
    if negb (AreConfigurationNetworkCIDRsConfigured cfg) then Ret (Err NotRemappedYet)
    else
      match ParseIP address with
      | [] => Ret (Err (InvalidIP address))
      | ip =>
        match statusRemote cfg with
        | None => Panic
        | Some st =>
          r ← remapWithin ip address (Pod (specRemote cfg)) (Pod st);
          match r with
          | Err e => Ret (Err e)
          | Ok (a, true) => Ret (Ok a)
          | Ok (_, false) =>
            r ← remapWithin ip address (External (specRemote cfg)) (External st);
            match r with
            | Err e => Ret (Err e)
            | Ok (a, true) => Ret (Ok a)
            | Ok (_, false) => Ret (Ok address)
            end
          end
        end
      end
  end.

(** [MapAddress]: the configuration is the client's answer. *)
Definition MapAddress (cfg : option (option Configuration)) (address : string)
  : outcome (result map_error string) :=
  match cfg with
  | None => Ret (Err GetConfigurationFailed)
  | Some cfg => MapAddressWithConfiguration cfg address
  end.

Definition ForceMapAddressWithConfiguration (cfg : option (option Configuration)) (address : string)
  : outcome (result map_error string) :=
  let addr := ParseIP address in
  match cfg with
  | None => Ret (Err GetConfigurationFailed)
  | Some None => Ret (Err IncompleteConfiguration)
  | Some (Some cfg) =>
    match statusRemote cfg with
    | None => Ret (Err IncompleteConfiguration)
    | Some st =>
      r ← remapWithin addr address (Pod (specRemote cfg)) (Pod st);
      match r with
      | Err e => Ret (Err e)
      | Ok (a, true) => Ret (Ok a)
      | Ok (_, false) => Ret (Err (NotInRemotePods (IP_String addr)))
      end
    end
  end.

(** ** First and last address of a network *)

Definition NetFirstAndLastIP (networkCIDR : string) : outcome (option (IP * IP)) :=
  match ParseCIDR networkCIDR with
  | None => Ret None
  | Some subnet =>
    match List.length (ipn_IP subnet) with
    | 4%nat =>
      mask ← Uint 4 (ipn_Mask subnet);
      ip ← Uint 4 (ipn_IP subnet);
      Ret (Some (be_bytes 4 (Z.land ip mask),
                 be_bytes 4 (Z.lor (Z.land ip mask) (Z.lxor mask 4294967295))))
    | 16%nat =>
      mask1 ← Uint 8 (take 8 (ipn_Mask subnet));
      mask2 ← Uint 8 (drop 8 (ipn_Mask subnet));
      ip1 ← Uint 8 (take 8 (ipn_IP subnet));
      ip2 ← Uint 8 (drop 8 (ipn_IP subnet));
      Ret (Some (be_bytes 8 (Z.land ip1 mask1) ++ be_bytes 8 (Z.land ip2 mask2),
                 be_bytes 8 (Z.lor (Z.land ip1 mask1) (Z.lxor mask1 18446744073709551615))
                 ++ be_bytes 8 (Z.lor (Z.land ip2 mask2) (Z.lxor mask2 18446744073709551615))))
    | n => Ret (Some (replicate n 0, replicate n 0))
    end
  end.

(** [GetUnknownSourceIP]: [None] is the error. *)
Definition GetUnknownSourceIP (extCIDR : string) : outcome (option string) :=
  if bool_decide (extCIDR = ""%string) then Ret None
  else
    r ← NetFirstAndLastIP extCIDR;
    match r with
    | Some (first, _) => Ret (Some (IP_String first))
    | None => Ret None
    end.

(** ** Lists of CIDRs (cidr.go) *)

Definition GetPrimary (cidrs : list string) : option string := head cidrs.
Definition SetPrimary (cidr : string) : list string := [cidr].
Definition AllNonVoid (cidrs : list string) : bool :=
  match cidrs with
  | [] => false
  | _ => forallb (fun c => negb (bool_decide (c = ""%string))) cidrs
  end.
Fixpoint ReplaceAll (old new : ascii) (s : string) : string :=
  match s with
  | EmptyString => EmptyString
  | String c s => String (if bool_decide (c = old) then new else c) (ReplaceAll old new s)
  end.
Definition EscapeForNameStr (cidr : string) : string :=
  ReplaceAll "." "-" (ReplaceAll "/" "-" cidr).

(** ** Arithmetic of masks *)

(** The complement of a mask of a [w]-bit word keeps the low [h] bits. *)
Lemma not_mask_32 h : 0 ≤ h ≤ 32 → not_w 32 (2 ^ 32 - 2 ^ h) = Z.ones h.
Proof.
  intros Hh. assert (H : forallb (fun k => not_w 32 (2 ^ 32 - 2 ^ Z.of_nat k) =? Z.ones (Z.of_nat k))
    (seq 0 33) = true) by (vm_compute; reflexivity).
  rewrite forallb_true_iff in H. specialize (H (Z.to_nat h)). rewrite Z2Nat.id in H by lia.
  apply Z.eqb_eq, H, elem_of_seq. lia.
Qed.

Lemma not_mask_64 h : 0 ≤ h ≤ 64 → not_w 64 (2 ^ 64 - 2 ^ h) = Z.ones h.
Proof.
  intros Hh. assert (H : forallb (fun k => not_w 64 (2 ^ 64 - 2 ^ Z.of_nat k) =? Z.ones (Z.of_nat k))
    (seq 0 65) = true) by (vm_compute; reflexivity).
  rewrite forallb_true_iff in H. specialize (H (Z.to_nat h)). rewrite Z2Nat.id in H by lia.
  apply Z.eqb_eq, H, elem_of_seq. lia.
Qed.

(** Disjoint bits add up. *)
Lemma lor_low v x h : 0 ≤ h → v mod 2 ^ h = 0 → 0 ≤ x < 2 ^ h → Z.lor v x = v + x.
Proof.
  intros Hh Hv Hx.
  assert (Hland : Z.land v x = 0).
  { apply Z.bits_inj'. intros i Hi. rewrite Z.land_spec, Z.bits_0.
    destruct (Z.lt_ge_cases i h).
    - assert (Hb : Z.testbit (v mod 2 ^ h) i = Z.testbit v i) by (by apply Z.mod_pow2_bits_low).
      rewrite Hv, Z.bits_0 in Hb. by rewrite <- Hb.
    - destruct (Z.eq_dec x 0) as [->|]; [by rewrite Z.bits_0, andb_false_r|].
      rewrite (Z.bits_above_log2 x i), andb_false_r; [done|lia|].
      assert (Z.log2 x < h) by (apply Z.log2_lt_pow2; lia). lia. }
  rewrite <- Z.lxor_lor, <- Z.add_nocarry_lxor by done. done.
Qed.

Lemma be_val_bytes k v : be_val (be_bytes k v) = v mod 2 ^ (8 * Z.of_nat k).
Proof.
  induction k as [|k IH].
  - simpl. by rewrite Z.mod_1_r.
  - cbn [be_bytes]. unfold be_val. cbn [fold_left].
    assert (Hacc : ∀ l a, fold_left (fun acc b => acc * 256 + b) l a
      = a * 256 ^ Z.of_nat (List.length l) + be_val l).
    { clear. unfold be_val. induction l as [|b l IH]; intros a; cbn [fold_left List.length]; [lia|].
      rewrite IH, (IH (0 * 256 + b)). rewrite Nat2Z.inj_succ, Z.pow_succ_r by lia. ring. }
    rewrite Hacc, IH. clear Hacc IH.
    assert (Hlen : List.length (be_bytes k v) = k) by (clear; induction k; simpl; auto).
    rewrite Hlen. set (m := 8 * Z.of_nat k).
    replace (256 ^ Z.of_nat k) with (2 ^ m) by (unfold m; rewrite Z.pow_mul_r by lia; done).
    replace (8 * Z.of_nat (S k)) with (m + 8) by lia.
    rewrite Z.pow_add_r by lia. change (2 ^ 8) with 256.
    rewrite (Z.rem_mul_r v (2 ^ m) 256) by (lia || apply Z.pow_nonzero; lia). lia.
Qed.

Lemma length_be_bytes k v : List.length (be_bytes k v) = k.
Proof. induction k; simpl; auto. Qed.

Lemma Uint_bytes k v : Uint k (be_bytes k v) = Ret (v mod 2 ^ (8 * Z.of_nat k)).
Proof.
  unfold Uint. rewrite length_be_bytes, Nat.ltb_irrefl, firstn_all2, be_val_bytes; [done|].
  by rewrite length_be_bytes.
Qed.

Lemma be_bytes_app j k v :
  be_bytes (j + k) v = be_bytes j (v / 2 ^ (8 * Z.of_nat k)) ++ be_bytes k v.
Proof.
  induction j as [|j IH]; [done|]. cbn [be_bytes Nat.add app]. rewrite IH. f_equal.
  rewrite Z.div_div by (lia || apply Z.pow_pos_nonneg; lia).
  rewrite <- Z.pow_add_r by lia. do 3 f_equal. lia.
Qed.

Lemma be_bytes_high j k m v : (j ≤ k)%nat →
  be_bytes j (v + m * 2 ^ (8 * Z.of_nat k)) = be_bytes j v.
Proof.
  induction j as [|j IH]; intros Hj; [done|]. cbn [be_bytes]. rewrite IH by lia. f_equal.
  replace (8 * Z.of_nat k) with (8 * (Z.of_nat k - Z.of_nat j - 1) + 8 + 8 * Z.of_nat j) by lia.
  rewrite !Z.pow_add_r by lia. rewrite Z.mul_assoc, Z.div_add by (apply Z.pow_nonzero; lia).
  change (2 ^ 8) with 256. rewrite Z.mul_assoc. by rewrite Z.mod_add by lia.
Qed.

(** ** What remapping computes *)

(** The networks [ParseCIDR] returns: address [v] with its host bits cleared,
    length [n]. *)
Record net_ok (w v n : Z) : Prop := {
  no_len : 0 ≤ n ≤ w;
  no_val : 0 ≤ v < 2 ^ w;
  no_host : v mod 2 ^ (w - n) = 0
}.
Definition net_4 (v n : Z) : IPNet := mkIPNet (be_bytes 4 v) (CIDRMask n 32).
Definition net_6 (v n : Z) : IPNet := mkIPNet (be_bytes 16 v) (CIDRMask n 128).

(** The host part of [a] in the network part of [v]. *)
Definition remap (w v n a : Z) : Z := v + a mod 2 ^ (w - n).

Lemma remap_range w v n a : net_ok w v n → 0 ≤ remap w v n a < 2 ^ w ∧
  remap w v n a / 2 ^ (w - n) = v / 2 ^ (w - n) ∧ remap w v n a mod 2 ^ (w - n) = a mod 2 ^ (w - n).
Proof.
  intros [Hn Hv Hh]. unfold remap. pose proof (Z.pow_pos_nonneg 2 (w - n) ltac:(lia) ltac:(lia)) as Hp.
  pose proof (Z.mod_pos_bound a (2 ^ (w - n)) Hp) as Ha.
  pose proof (Z.div_mod v (2 ^ (w - n)) ltac:(lia)) as Hdv. rewrite Hh, Z.add_0_r in Hdv.
  set (P := 2 ^ (w - n)) in *. set (k := v / P) in *.
  assert (Hw : 2 ^ w = P * 2 ^ n) by (unfold P; rewrite <- Z.pow_add_r by lia; f_equal; lia).
  rewrite Hdv, Hw in Hv |- *. assert (k < 2 ^ n) by nia.
  replace (P * k + a mod P) with (a mod P + k * P) by lia.
  rewrite Z.div_add, Z.div_small, Z.mod_add, Z.mod_mod by lia. nia.
Qed.

(** Remapping to a network and back to the network of the address is the
    identity. *)
Lemma remap_back w v n v' a : net_ok w v n → net_ok w v' n → 0 ≤ a →
  a / 2 ^ (w - n) = v / 2 ^ (w - n) → remap w v n (remap w v' n a) = a.
Proof.
  intros [Hn Hv Hh] Hok' Ha He. destruct (remap_range w v' n a Hok') as (_ & _ & Hm).
  unfold remap at 1. rewrite Hm.
  pose proof (Z.pow_pos_nonneg 2 (w - n) ltac:(lia) ltac:(lia)).
  pose proof (Z.div_mod v (2 ^ (w - n)) ltac:(lia)). pose proof (Z.div_mod a (2 ^ (w - n)) ltac:(lia)).
  rewrite He in *. lia.
Qed.

Lemma host_part w m h a : not_w w m = Z.ones h → 0 ≤ h → Z.land a (not_w w m) = a mod 2 ^ h.
Proof. intros -> Hh. by apply Z.land_ones. Qed.

Lemma word_remap w v h a :
  0 ≤ h → v mod 2 ^ h = 0 → (∀ k, 0 ≤ k ≤ w → not_w w (2 ^ w - 2 ^ k) = Z.ones k) → h ≤ w →
  Z.lor v (Z.land a (not_w w (2 ^ w - 2 ^ h))) = v + a mod 2 ^ h.
Proof.
  intros Hh Hv Hnot Hw. rewrite (host_part w _ h) by (auto; apply Hnot; lia).
  apply (lor_low _ _ h); auto. apply Z.mod_pos_bound, Z.pow_pos_nonneg; lia.
Qed.

Lemma RemapMask_4 ip v n a : net_ok 32 v n → To4 ip = be_bytes 4 a → 0 ≤ a < 2 ^ 32 →
  RemapMask ip (net_4 v n) = Ret (be_bytes 4 (remap 32 v n a)).
Proof.
  intros [Hn Hv Hh] Hip Ha. unfold RemapMask, net_4. cbn [ipn_IP ipn_Mask].
  rewrite length_be_bytes, Hip. unfold CIDRMask. change (Z.to_nat (32 / 8)) with 4%nat.
  rewrite !Uint_bytes. change (8 * Z.of_nat 4) with 32. cbn [mbind outcome_bind].
  pose proof (Z.pow_pos_nonneg 2 (32 - n) ltac:(lia) ltac:(lia)).
  pose proof (Z.pow_le_mono_r 2 (32 - n) 32 ltac:(lia) ltac:(lia)).
  rewrite !(Z.mod_small _ (2 ^ 32)) by lia.
  rewrite (word_remap 32 v (32 - n) a); auto using not_mask_32; lia.
Qed.

(** The halves of an IPv6 mask. *)
Definition hi_host (n : Z) : Z := 64 - Z.min n 64.
Definition lo_host (n : Z) : Z := 64 - Z.max (n - 64) 0.

Lemma mask_halves n : 0 ≤ n ≤ 128 →
  ((2 ^ 128 - 2 ^ (128 - n)) / 2 ^ 64) mod 2 ^ 64 = 2 ^ 64 - 2 ^ hi_host n ∧
  (2 ^ 128 - 2 ^ (128 - n)) mod 2 ^ 64 = 2 ^ 64 - 2 ^ lo_host n.
Proof.
  intros Hn. assert (H : forallb (fun i => let n := Z.of_nat i in
    (((2 ^ 128 - 2 ^ (128 - n)) / 2 ^ 64) mod 2 ^ 64 =? 2 ^ 64 - 2 ^ hi_host n)
    && ((2 ^ 128 - 2 ^ (128 - n)) mod 2 ^ 64 =? 2 ^ 64 - 2 ^ lo_host n)) (seq 0 129) = true)
    by (vm_compute; reflexivity).
  rewrite forallb_true_iff in H. specialize (H (Z.to_nat n)). cbv zeta in H.
  rewrite Z2Nat.id in H by lia. specialize (H ltac:(apply elem_of_seq; lia)).
  by apply andb_true_iff in H as [?%Z.eqb_eq ?%Z.eqb_eq].
Qed.

(** Splitting a 128-bit remapping into its 64-bit halves. *)
Lemma remap_halves v n a : net_ok 128 v n → 0 ≤ a →
  (v / 2 ^ 64) mod 2 ^ hi_host n = 0 ∧ (v mod 2 ^ 64) mod 2 ^ lo_host n = 0 ∧
  remap 128 v n a = (v / 2 ^ 64 + (a / 2 ^ 64) mod 2 ^ hi_host n) * 2 ^ 64
                    + (v mod 2 ^ 64 + (a mod 2 ^ 64) mod 2 ^ lo_host n).
Proof.
  intros [Hn Hv Hh] Ha. unfold remap, hi_host, lo_host in *.
  pose proof (Z.div_mod v (2 ^ 64) ltac:(lia)). pose proof (Z.div_mod a (2 ^ 64) ltac:(lia)).
  destruct (Z.le_gt_cases n 64) as [Hle|Hgt].
  - rewrite Z.min_l, Z.max_r by lia. replace (64 - 0) with 64 by lia.
    replace (128 - n) with (64 + (64 - n)) in * by lia.
    pose proof (Z.pow_pos_nonneg 2 (64 - n) ltac:(lia) ltac:(lia)).
    rewrite Z.pow_add_r in * by lia. rewrite !Z.rem_mul_r in * by lia.
    rewrite !(Z.mod_mod _ (2 ^ 64)) by lia.
    pose proof (Z.mod_pos_bound v (2 ^ 64) ltac:(lia)).
    pose proof (Z.mod_pos_bound (v / 2 ^ 64) (2 ^ (64 - n)) ltac:(lia)). nia.
  - rewrite Z.min_r, Z.max_l by lia. replace (64 - (n - 64)) with (128 - n) by lia.
    replace (64 - 64) with 0 by lia. change (2 ^ 0) with 1. rewrite !Z.mod_1_r.
    assert (Hsplit : 2 ^ 64 = 2 ^ (128 - n) * 2 ^ (n - 64)) by (rewrite <- Z.pow_add_r by lia; f_equal; lia).
    pose proof (Z.pow_pos_nonneg 2 (128 - n) ltac:(lia) ltac:(lia)).
    assert (Hmm : ∀ x, (x mod 2 ^ 64) mod 2 ^ (128 - n) = x mod 2 ^ (128 - n)).
    { intros x. rewrite Hsplit. rewrite Z.rem_mul_r by (lia || apply Z.pow_nonzero; lia).
      rewrite Z.mul_comm, Z.mod_add, Z.mod_mod by lia. done. }
    rewrite !Hmm. split_and!; [done|done|lia].
Qed.

Lemma RemapMask_6 ip v n a : net_ok 128 v n → To16 ip = be_bytes 16 a → 0 ≤ a < 2 ^ 128 →
  RemapMask ip (net_6 v n) = Ret (be_bytes 16 (remap 128 v n a)).
Proof.
  intros Hok Hip Ha. pose proof Hok as [Hn Hv Hh]. unfold RemapMask, net_6. cbn [ipn_IP ipn_Mask].
  rewrite length_be_bytes, Hip. unfold CIDRMask. change (Z.to_nat (128 / 8)) with (8 + 8)%nat.
  change 16%nat with (8 + 8)%nat. rewrite !be_bytes_app.
  rewrite !(take_app_length' (be_bytes 8 _)), !(drop_app_length' (be_bytes 8 _)) by (by rewrite length_be_bytes).
  rewrite !Uint_bytes. change (8 * Z.of_nat 8) with 64. cbn [mbind outcome_bind].
  destruct (mask_halves n Hn) as [-> ->]. destruct (remap_halves v n a Hok ltac:(lia)) as (H1 & H2 & Hr).
  assert (Hd : ∀ x, 0 ≤ x < 2 ^ 128 → (x / 2 ^ 64) mod 2 ^ 64 = x / 2 ^ 64).
  { intros x Hx. apply Z.mod_small. split; [apply Z.div_pos; lia|apply Z.div_lt_upper_bound; lia]. }
  rewrite !Hd by lia.
  rewrite (word_remap 64 (v / 2 ^ 64) (hi_host n)), (word_remap 64 (v mod 2 ^ 64) (lo_host n));
    auto using not_mask_64; [|unfold lo_host, hi_host; lia..].
  set (r1 := v / 2 ^ 64 + _) in *. set (r2 := v mod 2 ^ 64 + _) in *.
  assert (Hr2 : 0 ≤ r2 < 2 ^ 64).
  { destruct (remap_range 64 (v mod 2 ^ 64) (64 - lo_host n) (a mod 2 ^ 64)) as [Hx _].
    - split; [unfold lo_host; lia|apply Z.mod_pos_bound; lia|].
      replace (64 - (64 - lo_host n)) with (lo_host n) by lia. done.
    - unfold remap in Hx. by replace (64 - (64 - lo_host n)) with (lo_host n) in Hx by lia. }
  do 2 f_equal.
  - rewrite Hr, Z.add_comm, Z.div_add, Z.div_small by lia. done.
  - rewrite Hr, Z.add_comm. symmetry. apply (be_bytes_high 8 8). lia.
Qed.

(** ** What [ParseCIDR] returns and [Contains] tests *)

Lemma land_byte a m k : 0 ≤ k →
  Z.land ((a / 2 ^ k) mod 256) ((m / 2 ^ k) mod 256) = (Z.land a m / 2 ^ k) mod 256.
Proof.
  intros Hk. change 256 with (2 ^ 8). rewrite <- !Z.land_ones, <- !Z.shiftr_div_pow2 by lia.
  rewrite Z.shiftr_land. apply Z.bits_inj'. intros i Hi. rewrite !Z.land_spec.
  by destruct (Z.testbit (Z.ones 8) i), (Z.testbit (Z.shiftr a k) i), (Z.testbit (Z.shiftr m k) i).
Qed.

Lemma land_bytes k a m :
  zip_with Z.land (be_bytes k a) (be_bytes k m) = be_bytes k (Z.land a m).
Proof. induction k as [|k IH]; [done|]. cbn [be_bytes zip_with]. by rewrite IH, land_byte by lia. Qed.

(** Masking clears the host bits. *)
Lemma land_mask w h a : 0 ≤ h ≤ w → 0 ≤ a < 2 ^ w →
  Z.land a (2 ^ w - 2 ^ h) = a / 2 ^ h * 2 ^ h.
Proof.
  intros Hh Ha. replace (2 ^ w - 2 ^ h) with (Z.shiftl (Z.ones (w - h)) h).
  2:{ rewrite Z.shiftl_mul_pow2, Z.ones_equiv by lia.
      replace (2 ^ w) with (2 ^ (w - h) * 2 ^ h) by (rewrite <- Z.pow_add_r by lia; f_equal; lia). lia. }
  rewrite <- Z.shiftl_mul_pow2, <- Z.shiftr_div_pow2 by lia.
  apply Z.bits_inj'. intros i Hi. rewrite Z.land_spec, !Z.shiftl_spec by done.
  destruct (Z.lt_ge_cases i h).
  - by rewrite !(Z.testbit_neg_r _ (i - h)), andb_false_r by lia.
  - rewrite Z.shiftr_spec by lia. replace (i - h + h) with i by lia.
    destruct (Z.lt_ge_cases i w); [by rewrite Z.ones_spec_low, andb_true_r by lia|].
    rewrite Z.ones_spec_high, andb_false_r by lia. symmetry.
    destruct (Z.eq_dec a 0) as [->|]; [apply Z.bits_0|].
    apply Z.bits_above_log2; [lia|]. assert (Z.log2 a < w) by (apply Z.log2_lt_pow2; lia). lia.
Qed.

Lemma masked_ok w h a : 0 ≤ h ≤ w → 0 ≤ a < 2 ^ w → net_ok w (a / 2 ^ h * 2 ^ h) (w - h).
Proof.
  intros Hh Ha. pose proof (Z.pow_pos_nonneg 2 h ltac:(lia) ltac:(lia)).
  split; [lia| |].
  - split; [apply Z.mul_nonneg_nonneg; [apply Z.div_pos; lia|lia]|].
    pose proof (Z.mul_div_le a (2 ^ h) ltac:(lia)). lia.
  - replace (w - (w - h)) with h by lia. apply Z.mod_mul. lia.
Qed.

Lemma Mask_As16 ip n : bitlen ip = 32 → 0 ≤ val ip < 2 ^ 32 → 0 ≤ n ≤ 32 →
  Mask (As16 ip) (CIDRMask n 32) = be_bytes 4 (val ip / 2 ^ (32 - n) * 2 ^ (32 - n)).
Proof.
  intros Hl Hv Hn. unfold Mask, As16, Is4, addr_bytes, CIDRMask. rewrite Hl.
  change (Z.to_nat (32 / 8)) with 4%nat. cbn [Z.eqb Pos.eqb].
  rewrite length_app, !length_be_bytes.
  change (List.length v4InV6Prefix) with 12%nat. cbn [Nat.eqb Z.eqb Pos.eqb Nat.add andb].
  rewrite (take_app_length' v4InV6Prefix), bool_decide_eq_true_2, (drop_app_length' v4InV6Prefix) by done.
  by rewrite land_bytes, land_mask by lia.
Qed.

Lemma ParseCIDR_shape s net : ParseCIDR s = Some net →
  (∃ v n, net = net_4 v n ∧ net_ok 32 v n) ∨ (∃ v n, net = net_6 v n ∧ net_ok 128 v n).
Proof.
  unfold ParseCIDR. intros ((a & m) & _ & (ip & Hip%ParseAddr_valid & (n & Hn & Hs)%bind_Some)%bind_Some)%bind_Some.
  destruct (negb _); [done|]. cbn [orb] in Hs. destruct (Z.ltb_spec (bitlen ip) n); [done|].
  injection Hs as <-. assert (0 ≤ n).
  { unfold parse_mask in Hn. destruct m; [done|]. eapply atoi_run_nonneg; [exact Hn|lia]. }
  destruct Hip as [[Hl|Hl] Hv _]; rewrite Hl in *; [left|right];
    (eexists _, n; split; [|apply (masked_ok _ (bitlen ip - n) (val ip)) in Hv as Hok;
       [rewrite Hl in Hok; replace (_ - (_ - n)) with n in Hok by lia; exact Hok|lia]]).
  - unfold net_4. f_equal. by apply Mask_As16.
  - unfold net_6. f_equal. unfold Mask, As16, Is4, addr_bytes, CIDRMask. rewrite Hl.
    change (Z.to_nat (128 / 8)) with 16%nat. cbn [Z.eqb Pos.eqb]. rewrite !length_be_bytes.
    cbn [Nat.eqb Z.eqb Pos.eqb andb]. rewrite land_bytes, land_mask by lia. done.
Qed.

Lemma be_bytes_inj k v w : 0 ≤ v < 2 ^ (8 * Z.of_nat k) → 0 ≤ w < 2 ^ (8 * Z.of_nat k) →
  be_bytes k v = be_bytes k w → v = w.
Proof.
  intros Hv Hw He. apply (f_equal be_val) in He. by rewrite !be_val_bytes, !Z.mod_small in He.
Qed.

Lemma forallb_zip_land l k m : List.length l = List.length m → List.length k = List.length m →
  forallb (fun '((x, y), z) => Z.land x z =? Z.land y z) (zip (zip l k) m)
  = bool_decide (zip_with Z.land l m = zip_with Z.land k m).
Proof.
  revert k m. induction l as [|x l IH]; intros [|y k] [|z m]; try done.
  cbn [List.length zip zip_with forallb]. intros [= H1] [= H2]. rewrite IH by done.
  destruct (Z.eqb_spec (Z.land x z) (Z.land y z)); cbn [andb].
  - apply bool_decide_ext. split; [by intros ->; f_equal|by intros [=]].
  - symmetry. apply bool_decide_eq_false. by intros [=].
Qed.

Lemma nonempty_match (l d : list Z) : l ≠ [] → match l with [] => d | z :: k => z :: k end = l.
Proof. by destruct l. Qed.

Lemma Contains_4 v n ip a : net_ok 32 v n → To4 ip = be_bytes 4 a → 0 ≤ a < 2 ^ 32 →
  IPNet_Contains (net_4 v n) ip = true ↔ a / 2 ^ (32 - n) = v / 2 ^ (32 - n).
Proof.
  intros [Hn Hv Hh] Hip Ha. unfold IPNet_Contains, net_4. cbn [ipn_IP ipn_Mask]. rewrite Hip.
  change (To4 (be_bytes 4 v)) with (be_bytes 4 v).
  rewrite (nonempty_match (be_bytes 4 v)), (nonempty_match (be_bytes 4 a)) by done.
  rewrite !length_be_bytes. cbn [Nat.eqb negb]. unfold CIDRMask.
  change (Z.to_nat (32 / 8)) with 4%nat.
  rewrite forallb_zip_land, !land_bytes, !land_mask by (lia || by rewrite !length_be_bytes).
  rewrite bool_decide_eq_true.
  pose proof (Z.pow_pos_nonneg 2 (32 - n) ltac:(lia) ltac:(lia)).
  split; [|by intros ->]. intros He. apply (be_bytes_inj 4) in He; [nia|..].
  - apply (masked_ok 32 (32 - n) v); lia.
  - apply (masked_ok 32 (32 - n) a); lia.
Qed.

(** ** The loop over the CIDRs *)

(** [ip] is outside every one of the first [i] CIDRs, which all parse. *)
Definition outside (ip : IP) (l : list string) : Prop :=
  ∀ s, s ∈ l → ∃ net, ParseCIDR s = Some net ∧ IPNet_Contains net ip = false.

Lemma remap_loop_skip ip address pre k s post status :
  outside ip pre →
  remap_loop ip address k (pre ++ s :: post) status
  = remap_loop ip address (k + List.length pre) (s :: post) status.
Proof.
  revert k. induction pre as [|x pre IH]; intros k Hout; [by rewrite Nat.add_0_r|].
  destruct (Hout x ltac:(left)) as (net & Hp & Hc).
  cbn [app remap_loop]. rewrite Hp, Hc. cbn [negb].
  rewrite IH by (intros y Hy; apply Hout; by right). simpl. by rewrite Nat.add_succ_r.
Qed.

Lemma remap_loop_none ip address k spec status :
  outside ip spec → remap_loop ip address k spec status = Ret (Ok (""%string, false)).
Proof.
  revert k. induction spec as [|x spec IH]; intros k Hout; [done|].
  destruct (Hout x ltac:(left)) as (net & Hp & Hc). cbn [remap_loop]. rewrite Hp, Hc. cbn [negb].
  apply IH. intros y Hy. apply Hout. by right.
Qed.

(** The address is in the [i]-th CIDR, which is remapped to another one of the
    same length. *)
Lemma remapWithin_hit ip address pre s post status t v v' n a :
  outside ip pre → status !! List.length pre = Some t → s ≠ t →
  ParseCIDR s = Some (net_4 v n) → ParseCIDR t = Some (net_4 v' n) →
  net_ok 32 v n → net_ok 32 v' n → To4 ip = be_bytes 4 a → 0 ≤ a < 2 ^ 32 →
  a / 2 ^ (32 - n) = v / 2 ^ (32 - n) →
  remapWithin ip address (pre ++ s :: post) status
  = Ret (Ok (convertByteSliceToString (be_bytes 4 (remap 32 v' n a)), true)).
Proof.
  intros Hout Ht Hne Hs Hpt Hok Hok' Hip Ha Hin. unfold remapWithin.
  rewrite remap_loop_skip by done. cbn [remap_loop Nat.add]. rewrite Hs, Ht, Hpt.
  rewrite (proj2 (Contains_4 v n ip a Hok Hip Ha) Hin). cbn [negb].
  rewrite bool_decide_eq_false_2 by done. rewrite (RemapMask_4 ip v' n a) by done. done.
Qed.

(** The dotted quad of an address parses back to it. *)
Lemma ParseIP_quad a : 0 ≤ a < 2 ^ 32 →
  ParseIP (convertByteSliceToString (be_bytes 4 a)) = v4InV6Prefix ++ be_bytes 4 a.
Proof.
  intros Ha. unfold ParseIP, ParseAddr.
  assert (Hb : ∀ b, b ∈ be_bytes 4 a → 0 ≤ b < 256) by (intros b; apply be_bytes_range).
  pose proof (be_val_bytes4 a Ha) as Hv. change (be_bytes 4 (val (AddrFrom4 a))) with (be_bytes 4 a).
  destruct (be_bytes 4 a) as [|b0 [|b1 [|b2 [|b3 [|]]]]] eqn:E; try done.
  assert (H0 : 0 ≤ b0 < 256) by (apply Hb; repeat constructor).
  pose proof (byte_text b0 H0) as Ht. unfold byte_text_ok in Ht.
  rewrite !andb_true_iff in Ht. destruct Ht as [[[Hd0 _] _] _].
  assert (Hs : ParseAddr_sep (convertByteSliceToString [b0; b1; b2; b3])
                 (convertByteSliceToString [b0; b1; b2; b3]) = Some (AddrFrom4 a)).
  { unfold convertByteSliceToString at 2. cbn [fmap list_fmap String.concat].
    rewrite ParseAddr_sep_digits by done.
    rewrite parse_quad; [|done|apply Hb; repeat constructor..]. cbn [mbind option_bind]. by rewrite Hv. }
  rewrite Hs. cbn [zone AddrFrom4]. rewrite bool_decide_eq_true_2 by done.
  unfold As16, Is4, addr_bytes. cbn [bitlen val AddrFrom4]. change (Z.to_nat (32 / 8)) with 4%nat.
  cbn [Z.eqb Pos.eqb]. by rewrite E.
Qed.

Lemma To4_mapped a : To4 (v4InV6Prefix ++ be_bytes 4 a) = be_bytes 4 a.
Proof. done. Qed.

(** ** Properties *)

(** Remapping keeps the host part.  For an IPv4 or IPv6 network as
    [ParseCIDR] returns it and an address of its family, [RemapMask] returns
    (no slice is read out of range) the address whose network part is the
    network's and whose host part is the address's. *)
Theorem remap_mask_spec w v n a ip net k :
  (w = 32 ∧ k = 4%nat ∧ net = net_4 v n ∧ To4 ip = be_bytes 4 a) ∨
  (w = 128 ∧ k = 16%nat ∧ net = net_6 v n ∧ To16 ip = be_bytes 16 a) →
  net_ok w v n → 0 ≤ a < 2 ^ w →
  ∃ r, RemapMask ip net = Ret (be_bytes k r) ∧ 0 ≤ r < 2 ^ w ∧
       r / 2 ^ (w - n) = v / 2 ^ (w - n) ∧ r mod 2 ^ (w - n) = a mod 2 ^ (w - n).
Proof.
  intros Hfam Hok Ha. exists (remap w v n a). split; [|by apply remap_range].
  destruct Hfam as [(-> & -> & -> & Hip)|(-> & -> & -> & Hip)].
  - by apply RemapMask_4.
  - by apply RemapMask_6.
Qed.

(** C9: round trip.  An IPv4 address in the [i]-th CIDR of a cluster, remapped
    to the [i]-th remapped CIDR of the same length and remapped back with the
    two lists exchanged, is the address again; the text produced on the way
    parses. *)
Theorem remap_roundtrip pre s post pre' t post' v v' n a address :
  List.length pre = List.length pre' → s ≠ t → 0 ≤ a < 2 ^ 32 →
  ParseCIDR s = Some (net_4 v n) → ParseCIDR t = Some (net_4 v' n) →
  net_ok 32 v n → net_ok 32 v' n → a / 2 ^ (32 - n) = v / 2 ^ (32 - n) →
  ParseIP address = v4InV6Prefix ++ be_bytes 4 a →
  outside (v4InV6Prefix ++ be_bytes 4 a) pre →
  outside (v4InV6Prefix ++ be_bytes 4 (remap 32 v' n a)) pre' →
  ∃ there, remapWithin (ParseIP address) address (pre ++ s :: post) (pre' ++ t :: post')
             = Ret (Ok (there, true)) ∧
    remapWithin (ParseIP there) there (pre' ++ t :: post') (pre ++ s :: post)
      = Ret (Ok (convertByteSliceToString (be_bytes 4 a), true)).
Proof.
  intros Hlen Hne Ha Hs Ht Hok Hok' Hin Hip Ho Ho'.
  destruct (remap_range 32 v' n a Hok') as (Hr & Hdiv & _).
  exists (convertByteSliceToString (be_bytes 4 (remap 32 v' n a))). rewrite Hip, ParseIP_quad by done.
  split.
  - eapply remapWithin_hit; eauto. rewrite Hlen. by rewrite list_lookup_middle.
  - transitivity (Ret (Ok (E := map_error)
      (convertByteSliceToString (be_bytes 4 (remap 32 v n (remap 32 v' n a))), true))).
    + eapply remapWithin_hit; eauto using To4_mapped. by rewrite list_lookup_middle.
    + by rewrite remap_back by (done || lia).
Qed.

(** Mapping an address with a configuration.  An address in the first
    pod CIDR that contains it is translated to the corresponding remapped CIDR;
    an address outside every pod and external CIDR is returned unchanged. *)
Theorem map_address_spec cfg st address ip :
  AreConfigurationNetworkCIDRsConfigured cfg = true → statusRemote cfg = Some st →
  ParseIP address = ip → ip ≠ [] →
  (outside ip (Pod (specRemote cfg)) → outside ip (External (specRemote cfg)) →
   MapAddressWithConfiguration (Some cfg) address = Ret (Ok address)) ∧
  (∀ pre s post t v v' n a, Pod (specRemote cfg) = pre ++ s :: post → outside ip pre →
     Pod st !! List.length pre = Some t → s ≠ t →
     ParseCIDR s = Some (net_4 v n) → ParseCIDR t = Some (net_4 v' n) →
     net_ok 32 v n → net_ok 32 v' n → To4 ip = be_bytes 4 a → 0 ≤ a < 2 ^ 32 →
     a / 2 ^ (32 - n) = v / 2 ^ (32 - n) →
     MapAddressWithConfiguration (Some cfg) address
     = Ret (Ok (convertByteSliceToString (be_bytes 4 (remap 32 v' n a))))).
Proof.
  intros Hc Hst Hip Hne. unfold MapAddressWithConfiguration. rewrite Hc, Hst, Hip. cbn [negb].
  destruct ip as [|b ip']; [done|]. split.
  - intros Hp He. unfold remapWithin. rewrite !remap_loop_none by done. done.
  - intros pre s post t v v' n a Hpod. intros. rewrite Hpod.
    erewrite remapWithin_hit by eassumption. done.
Qed.

(** The address that stands for [address] under two lists of networks, told without
    the loop: the first network that contains the address decides, and the host part is
    kept in the network of the same position in the other list. *)
Inductive moved (address : string) (spec status : list string) : string → Prop :=
| moved_same pre s post net : spec = pre ++ s :: post → outside (ParseIP address) pre → status !! List.length pre = Some s →
    ParseCIDR s = Some net → IPNet_Contains net (ParseIP address) = true → moved address spec status address
| moved_to pre s post t v v' n a : spec = pre ++ s :: post → outside (ParseIP address) pre → status !! List.length pre = Some t →
    s ≠ t → ParseCIDR s = Some (net_4 v n) → ParseCIDR t = Some (net_4 v' n) → net_ok 32 v n → net_ok 32 v' n →
    To4 (ParseIP address) = be_bytes 4 a → 0 ≤ a < 2 ^ 32 → a / 2 ^ (32 - n) = v / 2 ^ (32 - n) →
    moved address spec status (convertByteSliceToString (be_bytes 4 (remap 32 v' n a))).
(** The address by which the cluster that has the configuration is reached. *)
Inductive reached_as (cfg : Configuration) (st : ClusterCIDR) (address : string) : string → Prop :=
| reached_pod a' : moved address (Pod (specRemote cfg)) (Pod st) a' → reached_as cfg st address a'
| reached_external a' : outside (ParseIP address) (Pod (specRemote cfg)) → moved address (External (specRemote cfg)) (External st) a' →
    reached_as cfg st address a'
| reached_unchanged : outside (ParseIP address) (Pod (specRemote cfg)) → outside (ParseIP address) (External (specRemote cfg)) →
    reached_as cfg st address address.

Lemma moved_remapWithin address spec status a' : moved address spec status a' →
  remapWithin (ParseIP address) address spec status = Ret (Ok (a', true)).
Proof.
  intros [pre s post net -> Ho Hs Hp Hc|pre s post t v v' n a -> *]; [|by eapply remapWithin_hit].
  unfold remapWithin. rewrite remap_loop_skip by done. cbn [remap_loop Nat.add]. rewrite Hp, Hc. cbn [negb].
  by rewrite Hs, bool_decide_eq_true_2.
Qed.
Lemma reached_as_mapped cfg st address a' : cidrs_condition cfg = Some (mkCondition (generation cfg) true) → statusRemote cfg = Some st →
  ParseIP address ≠ [] → reached_as cfg st address a' → MapAddressWithConfiguration (Some cfg) address = Ret (Ok a').
Proof.
  intros Hc Hst Hne Hr. unfold MapAddressWithConfiguration, AreConfigurationNetworkCIDRsConfigured. rewrite Hc, Hst. cbn. rewrite Z.eqb_refl. cbn.
  destruct (ParseIP address) as [|b ip] eqn:Eip; [done|]. rewrite <- Eip in *.
  destruct Hr as [? Hm|? Ho Hm|Ho Ho'].
  - by rewrite (moved_remapWithin _ _ _ _ Hm).
  - rewrite (moved_remapWithin _ _ _ _ Hm). unfold remapWithin. by rewrite remap_loop_none.
  - unfold remapWithin. by rewrite !remap_loop_none.
Qed.

(** When the CIDR of the remote cluster and the remapped one are of
    different families, or the remapped list is shorter, mapping panics instead
    of returning an error: an IPv6 address has no 4-byte form to read, a short
    slice no entry. *)
Theorem map_address_panics :
  remapWithin (ParseIP "fd00::1") "fd00::1" ["fd00::/64"%string] ["10.0.0.0/24"%string] = Panic ∧
  remapWithin (ParseIP "10.2.0.1") "10.2.0.1" ["10.1.0.0/16"%string; "10.2.0.0/16"%string]
    ["10.9.0.0/16"%string] = Panic.
Proof. by vm_compute. Qed.

(** The first and last address of a network.  For a text that parses as an
    IPv4 CIDR of address [v] and length [n] they are [v] and [v + 2^(32-n) - 1];
    the address used for unknown sources is the text of [v]. *)
Theorem first_and_last_spec s v n : ParseCIDR s = Some (net_4 v n) → net_ok 32 v n →
  NetFirstAndLastIP s = Ret (Some (be_bytes 4 v, be_bytes 4 (v + (2 ^ (32 - n) - 1)))) ∧
  GetUnknownSourceIP s = Ret (Some (convertByteSliceToString (be_bytes 4 v))).
Proof.
  intros Hs [Hn Hv Hh]. pose proof (Z.pow_pos_nonneg 2 (32 - n) ltac:(lia) ltac:(lia)) as Hp.
  pose proof (Z.pow_le_mono_r 2 (32 - n) 32 ltac:(lia) ltac:(lia)).
  assert (Hland : Z.land v (2 ^ 32 - 2 ^ (32 - n)) = v).
  { rewrite (land_mask 32) by lia. pose proof (Z.div_mod v (2 ^ (32 - n)) ltac:(lia)). lia. }
  assert (Hfl : NetFirstAndLastIP s
    = Ret (Some (be_bytes 4 v, be_bytes 4 (v + (2 ^ (32 - n) - 1))))).
  { unfold NetFirstAndLastIP. rewrite Hs. cbn [ipn_IP ipn_Mask net_4]. rewrite length_be_bytes.
    unfold CIDRMask. change (Z.to_nat (32 / 8)) with 4%nat. rewrite !Uint_bytes.
    change (8 * Z.of_nat 4) with 32. cbn [mbind outcome_bind].
    rewrite !(Z.mod_small _ (2 ^ 32)) by lia. rewrite !Hland.
    change (Z.lxor (2 ^ 32 - 2 ^ (32 - n)) 4294967295) with (not_w 32 (2 ^ 32 - 2 ^ (32 - n))).
    rewrite not_mask_32, Z.ones_equiv by lia. rewrite (lor_low v _ (32 - n)) by (lia || done).
    by rewrite <- Z.sub_1_r. }
  split; [done|]. unfold GetUnknownSourceIP. rewrite bool_decide_eq_false_2 by (by intros ->).
  by rewrite Hfl.
Qed.

(** ** Witnesses *)

Lemma example_net_ok v n :
  bool_decide (0 ≤ n ≤ 32 ∧ 0 ≤ v < 2 ^ 32 ∧ v mod 2 ^ (32 - n) = 0) = true → net_ok 32 v n.
Proof. intros (? & ? & ?)%bool_decide_eq_true. by split. Qed.

Lemma remap_mask_spec_witness : ∃ r,
  RemapMask (ParseIP "10.255.1.1") (net_4 1309999104 18) = Ret (be_bytes 4 r) ∧ 0 ≤ r < 2 ^ 32 ∧
  r / 2 ^ (32 - 18) = 1309999104 / 2 ^ (32 - 18) ∧ r mod 2 ^ (32 - 18) = 184484097 mod 2 ^ (32 - 18).
Proof.
  apply (remap_mask_spec 32 1309999104 18 184484097 (ParseIP "10.255.1.1") (net_4 1309999104 18) 4);
    [left; vm_compute; auto|by apply example_net_ok|lia].
Defined.

Lemma remap_roundtrip_witness : ∃ there,
  remapWithin (ParseIP "10.1.0.5") "10.1.0.5" ["10.1.0.0/16"%string] ["10.70.0.0/16"%string]
    = Ret (Ok (there, true)) ∧
  remapWithin (ParseIP there) there ["10.70.0.0/16"%string] ["10.1.0.0/16"%string]
    = Ret (Ok (convertByteSliceToString (be_bytes 4 167837701), true)).
Proof.
  apply (remap_roundtrip [] "10.1.0.0/16" [] [] "10.70.0.0/16" [] 167837696 172359680 16 167837701);
    try reflexivity; try discriminate; try lia; try (by apply example_net_ok);
    intros s Hs; by apply not_elem_of_nil in Hs.
Defined.

Definition example_cfg : Configuration :=
  mkConfiguration 1 (mkClusterCIDR ["10.1.0.0/16"%string] ["10.2.0.0/16"%string])
    (Some (mkCondition 1 true))
    (Some (mkClusterCIDR ["10.70.0.0/16"%string] ["10.71.0.0/16"%string])).

Lemma map_address_spec_witness :
  MapAddressWithConfiguration (Some example_cfg) "10.1.0.5"
  = Ret (Ok (convertByteSliceToString (be_bytes 4 (remap 32 172359680 16 167837701)))).
Proof.
  apply (proj2 (map_address_spec example_cfg
           (mkClusterCIDR ["10.70.0.0/16"%string] ["10.71.0.0/16"%string]) "10.1.0.5" _
           eq_refl eq_refl eq_refl ltac:(discriminate))
         [] "10.1.0.0/16"%string [] "10.70.0.0/16"%string 167837696);
    try reflexivity; try discriminate; try lia; try (by apply example_net_ok).
  intros s Hs. by apply not_elem_of_nil in Hs.
Defined.

Lemma first_and_last_spec_witness :
  NetFirstAndLastIP "192.168.1.7/24" = Ret (Some (be_bytes 4 3232235776, be_bytes 4 (3232235776 + 255))).
Proof.
  apply (proj1 (first_and_last_spec "192.168.1.7/24" 3232235776 24 eq_refl ltac:(by apply example_net_ok))).
Defined.
