(* ===== verification/NetworkLabels.v ===== *)
(** * NetworkLabels: Network resources by label (src/pkg/utils/ipam/networks.go)

    The cluster is the list of its Network resources, as the API server answers
    to a list call ([None]: the call failed); a label selector keeps the
    resources whose labels hold the pair, as [labels.SelectorFromSet] does. *)

From S2P Require Export Prelude.
From Stdlib Require Import Ascii.
Local Open Scope string_scope.

(** The fields of a Network that are read; [None] labels are a nil map. *)
Record NetworkRes := mkNetworkRes {
  nr_name : string; nr_namespace : string;
  nr_labels : option (gmap string string);
  nr_spec_cidr : string; nr_status_cidr : string
}.

Definition NetworkTypeLabelKey : string := "ipam.liqo.io/network-type".
Definition NetworkNotRemappedLabelKey : string := "ipam.liqo.io/network-not-remapped".
Definition NetworkNotRemappedLabelValue : string := "true".
Inductive NetworkType :=
| TypePodCIDR | TypeServiceCIDR | TypeExternalCIDR | TypeInternalCIDR | TypeReserved.
#[global] Instance NetworkType_eq_dec : EqDecision NetworkType.
Proof. solve_decision. Defined.
Definition type_string (t : NetworkType) : string :=
  match t with
  | TypePodCIDR => "pod-cidr" | TypeServiceCIDR => "service-cidr"
  | TypeExternalCIDR => "external-cidr" | TypeInternalCIDR => "internal-cidr"
  | TypeReserved => "reserved"
  end.

Definition label (nw : NetworkRes) (k : string) : option string :=
  match nr_labels nw with None => None | Some m => m !! k end.

(** [strings.EqualFold] on ASCII, which label values are. *)
Definition lower (c : ascii) : ascii :=
  let n := nat_of_ascii c in
  if ((65 <=? n) && (n <=? 90))%nat then ascii_of_nat (n + 32) else c.
Fixpoint EqualFold (a b : string) : bool :=
  match a, b with
  | EmptyString, EmptyString => true
  | String x a, String y b => bool_decide (lower x = lower y) && EqualFold a b
  | _, _ => false
  end.

Definition NetworkNotRemapped (nw : NetworkRes) : bool :=
  match nr_labels nw with
  | None => false
  | Some m =>
    match m !! NetworkNotRemappedLabelKey with
    | Some v => negb (EqualFold v "false")
    | None => false
    end
  end.

(** The body shared by the five predicates on the type label. *)
Definition has_type (t : NetworkType) (nw : NetworkRes) : bool :=
  match nr_labels nw with
  | None => false
  | Some m =>
    match m !! NetworkTypeLabelKey with
    | Some v => bool_decide (v = type_string t)
    | None => false
    end
  end.
Definition IsPodCIDR : NetworkRes → bool := has_type TypePodCIDR.
Definition IsServiceCIDR : NetworkRes → bool := has_type TypeServiceCIDR.
Definition IsExternalCIDR : NetworkRes → bool := has_type TypeExternalCIDR.
Definition IsInternalCIDR : NetworkRes → bool := has_type TypeInternalCIDR.
Definition IsReservedNetwork : NetworkRes → bool := has_type TypeReserved.

(** ** Reading the cluster *)

Inductive get_error :=
| ListError | NotFoundError | MultipleFound | NoPodCIDR | MissingStatus (name : string).

Section getters.
Context (cluster : option (list NetworkRes)).

(** [GetNetworksByLabel]; the empty namespace means all of them. *)
Definition GetNetworksByLabel (t : NetworkType) (ns : string) : result get_error (list NetworkRes) :=
  match cluster with
  | None => Err ListError
  | Some l =>
    Ok (filter (fun nw => (label nw NetworkTypeLabelKey = Some (type_string t)) ∧
                          (ns = "" ∨ nr_namespace nw = ns)) l)
  end.

Definition GetUniqueNetworkByLabel (t : NetworkType) (ns : string) : result get_error NetworkRes :=
  match GetNetworksByLabel t ns with
  | Err e => Err e
  | Ok [] => Err NotFoundError
  | Ok [nw] => Ok nw
  | Ok _ => Err MultipleFound
  end.

(** The loop of [GetPodCIDRs]. *)
Fixpoint status_cidrs (nws : list NetworkRes) : result get_error (list string) :=
  match nws with
  | [] => Ok []
  | nw :: nws =>
    if bool_decide (nr_status_cidr nw = "") then Err (MissingStatus (nr_name nw))
    else match status_cidrs nws with
         | Ok l => Ok (nr_status_cidr nw :: l)
         | Err e => Err e
         end
  end.

Definition GetPodCIDRs (ns : string) : result get_error (list string) :=
  match GetNetworksByLabel TypePodCIDR ns with
  | Err e => Err e
  | Ok nws => if (List.length nws =? 0)%nat then Err NoPodCIDR else status_cidrs nws
  end.

(** The body shared by the getters of a unique CIDR. *)
Definition unique_cidr (t : NetworkType) (ns : string) : result get_error string :=
  match GetUniqueNetworkByLabel t ns with
  | Err e => Err e
  | Ok nw => if bool_decide (nr_status_cidr nw = "") then Err (MissingStatus (nr_name nw))
             else Ok (nr_status_cidr nw)
  end.
Definition GetServiceCIDR : string → result get_error string := unique_cidr TypeServiceCIDR.
Definition GetExternalCIDR : string → result get_error string := unique_cidr TypeExternalCIDR.
Definition GetInternalCIDR : string → result get_error string := unique_cidr TypeInternalCIDR.

Definition GetReservedSubnets : result get_error (list string) :=
  match GetNetworksByLabel TypeReserved "" with
  | Err e => Err e
  | Ok nws => Ok (nr_status_cidr <$> filter (fun nw => nr_status_cidr nw ≠ "") nws)
  end.
End getters.

(** ** Creating a Network *)

(** The mutation [CreateNetwork] passes to [CreateOrUpdate]: it runs on the
    existing resource, or on a fresh one. *)
Definition mutate_network (cidr : string) (needRemapping : bool) (networkType : option NetworkType)
    (nw : NetworkRes) : NetworkRes :=
  let labels := default ∅ (nr_labels nw) in
  let labels := if needRemapping then labels
                else <[NetworkNotRemappedLabelKey := NetworkNotRemappedLabelValue]> labels in
  let labels := match networkType with
                | Some t => <[NetworkTypeLabelKey := type_string t]> labels
                | None => labels
                end in
  mkNetworkRes (nr_name nw) (nr_namespace nw) (Some labels) cidr (nr_status_cidr nw).

(** [CreateNetwork] on the resource of that name, if any. *)
Definition CreateNetwork (name namespace cidr : string) (needRemapping : bool)
    (networkType : option NetworkType) (existing : option NetworkRes) : NetworkRes :=
  mutate_network cidr needRemapping networkType
    (default (mkNetworkRes name namespace None "" "") existing).

(** ** Lemmas *)

Lemma type_string_inj t t' : type_string t = type_string t' → t = t'.
Proof. by destruct t, t'. Qed.

Lemma keys_differ : NetworkTypeLabelKey ≠ NetworkNotRemappedLabelKey.
Proof. done. Qed.

Lemma has_type_label t nw : has_type t nw = true ↔ label nw NetworkTypeLabelKey = Some (type_string t).
Proof.
  unfold has_type, label. destruct (nr_labels nw) as [m|]; [|done].
  destruct (m !! NetworkTypeLabelKey) as [v|]; [|done]. rewrite bool_decide_eq_true. naive_solver.
Qed.

Lemma status_cidrs_ok nws l : status_cidrs nws = Ok l ↔
  l = nr_status_cidr <$> nws ∧ ∀ nw, nw ∈ nws → nr_status_cidr nw ≠ "".
Proof.
  revert l. induction nws as [|nw nws IH]; intros l; simpl.
  - split; [intros [= <-]; split; [done|by intros ? ?%not_elem_of_nil]|by intros [-> _]].
  - setoid_rewrite elem_of_cons. case_bool_decide as Hs.
    + split; [done|]. intros [_ H]. by destruct (H nw (or_introl eq_refl)).
    + destruct (status_cidrs nws) as [k|e].
      * destruct (proj1 (IH k) eq_refl) as [-> Hall].
        split; [intros [= <-]; naive_solver|by intros [-> _]].
      * split; [done|]. intros [-> H]. destruct (proj2 (IH (nr_status_cidr <$> nws))); naive_solver.
Qed.

(** ** Properties *)

(** A resource has at most one type, and creating a Network with a type
    makes exactly the predicate of that type hold on it, whatever labels the
    existing resource had. *)
Theorem create_network_type name ns cidr need t existing t' :
  has_type t' (CreateNetwork name ns cidr need (Some t) existing) = bool_decide (t' = t) ∧
  nr_spec_cidr (CreateNetwork name ns cidr need (Some t) existing) = cidr.
Proof.
  split; [|done]. unfold has_type, CreateNetwork, mutate_network. cbn [nr_labels].
  rewrite lookup_insert_eq. apply bool_decide_ext. split; [intros ?; by apply type_string_inj|by intros ->].
Qed.

(** The remapping label.  Creating a Network that needs no remapping marks
    it; creating one that needs remapping leaves a fresh resource unmarked, but
    does not remove the mark of an existing resource, which stays excluded from
    remapping. *)
Theorem create_network_remapping name ns cidr t existing :
  NetworkNotRemapped (CreateNetwork name ns cidr false t existing) = true ∧
  NetworkNotRemapped (CreateNetwork name ns cidr true t existing)
  = match existing with Some nw => NetworkNotRemapped nw | None => false end.
Proof.
  unfold NetworkNotRemapped, CreateNetwork, mutate_network. cbn [nr_labels]. split.
  - destruct t as [t|]; [rewrite lookup_insert_ne by done|]; by rewrite lookup_insert_eq.
  - destruct t as [t|]; [rewrite lookup_insert_ne by done|];
      destruct existing as [[n n' [m|] c s]|]; simpl; by rewrite ?lookup_empty.
Qed.

(** The getters.  [GetPodCIDRs] succeeds exactly when the cluster answers,
    some Network has the pod type, and all of those have a status; it returns
    their status CIDRs.  A getter of a unique CIDR succeeds exactly when one
    Network matches and has a status. *)
Theorem getters_spec cluster ns l t c :
  (GetPodCIDRs cluster ns = Ok l ↔
   ∃ nws, GetNetworksByLabel cluster TypePodCIDR ns = Ok nws ∧ nws ≠ [] ∧
          (∀ nw, nw ∈ nws → has_type TypePodCIDR nw = true ∧ nr_status_cidr nw ≠ "") ∧
          l = nr_status_cidr <$> nws) ∧
  (unique_cidr cluster t ns = Ok c ↔
   ∃ nw, GetNetworksByLabel cluster t ns = Ok [nw] ∧ nr_status_cidr nw = c ∧ c ≠ "").
Proof.
  split.
  - unfold GetPodCIDRs. destruct (GetNetworksByLabel cluster TypePodCIDR ns) as [nws|e] eqn:E;
      [|split; [done|by intros (? & ? & _)]].
    assert (Ht : ∀ nw, nw ∈ nws → has_type TypePodCIDR nw = true).
    { unfold GetNetworksByLabel in E. destruct cluster as [all|]; [|done]. injection E as <-.
      intros nw [[Hl _] _]%list_elem_of_filter. by apply has_type_label. }
    destruct (Nat.eqb_spec (List.length nws) 0) as [H0|H0].
    + apply nil_length_inv in H0 as ->. split; [done|]. by intros (? & [= <-] & ? & _).
    + rewrite status_cidrs_ok. split.
      * intros [-> Hs]. exists nws. split_and!; auto. by intros ->.
      * intros (nws' & [= <-] & _ & Hs & ->). split; [done|]. intros nw Hn. by apply Hs.
  - unfold unique_cidr, GetUniqueNetworkByLabel.
    destruct (GetNetworksByLabel cluster t ns) as [[|nw [|nw' nws]]|e];
      try (split; [done|by intros (? & [=] & _)]).
    case_bool_decide as Hs.
    + split; [done|]. by intros (? & [= <-] & <- & ?).
    + split; [intros [= <-]; eauto|]. by intros (? & [= <-] & <- & ?).
Qed.
