(* ===== verification/IpamCore.v ===== *)
(** * IpamCore: the pools of the IPAM (src/pkg/ipam/core/ipam.go)

    An [Ipam] holds one prefix tree per pool.  Every operation selects the pool
    that contains the prefix and works on its tree.  [ToGraphviz] (debug output
    to files) is not modelled. *)

From S2P Require Export IpamOps.
Local Open Scope Z_scope.

(** [Ipam].  A root is a [node] value, so it is never [Nil]. *)
Record Ipam := mkIpam { roots : list tree }.

(** The errors the core returns. *)
Inductive core_error :=
| HostBitsSet (p : Prefix)
| PoolsOverlap (p q : Prefix)
| AddrNotInPrefix (a : Addr) (p : Prefix)
| NotInRoots (p : Prefix)
| PrefixNotFound (p : Prefix)
| IPNotFound (a : Addr).

Definition root_prefix (t : tree) : Prefix :=
  match t with Node n _ _ => prefix n | Nil => mkPrefix zeroAddr (-1) end.

(** [checkRoots]: first every pool is masked, then no two overlap. *)
Fixpoint check_host_bits (pools : list Prefix) : option core_error :=
  match pools with
  | [] => None
  | p :: ps =>
    match checkHostBitsZero p with
    | Some _ => Some (HostBitsSet p)
    | None => check_host_bits ps
    end
  end.

Fixpoint check_overlap_with (p : Prefix) (qs : list Prefix) : option core_error :=
  match qs with
  | [] => None
  | q :: qs => if Overlaps p q then Some (PoolsOverlap p q) else check_overlap_with p qs
  end.

Fixpoint check_overlaps (pools : list Prefix) : option core_error :=
  match pools with
  | [] => None
  | p :: ps =>
    match check_overlap_with p ps with
    | Some e => Some e
    | None => check_overlaps ps
    end
  end.

Definition checkRoots (pools : list Prefix) : option core_error :=
  match check_host_bits pools with
  | Some e => Some e
  | None => check_overlaps pools
  end.

(** The recursion depth below a root: one call per bit of the longest IPv6
    prefix a caller can ask for, plus the call that stops. *)
Definition depth : nat := 130.

(** [ipam.search]: the pool is the first one that contains the prefix; the
    pointer returned is the index of the pool and the node found in it. *)
Fixpoint search_roots (i : nat) (ts : list tree) (p : Prefix)
  : result core_error (option (nat * node)) :=
  match ts with
  | [] => Err (NotInRoots p)
  | t :: ts =>
    if negb (isPrefixChildOf (root_prefix t) p) then search_roots (S i) ts p
    else match search p t with
         | Some n => Ok (Some (i, n))
         | None => Ok None
         end
  end.

Definition Ipam_search (ipam : Ipam) (p : Prefix) : result core_error (option (nat * node)) :=
  search_roots 0 (roots ipam) p.

(** Writing through the pointer returned by [ipam.search]. *)
Definition write_node (ipam : Ipam) (i : nat) (p : Prefix) (n' : node) : Ipam :=
  mkIpam (alter (store p n') i (roots ipam)).

Section ops.
Context (clock : nat → Z).

Fixpoint new_roots (pools : list Prefix) : M (list tree) :=
  match pools with
  | [] => mret []
  | p :: ps =>
    t ← newNode clock p;
    ts ← new_roots ps;
    mret (t :: ts)
  end.

Definition NewIpam (pools : list Prefix) : M (result core_error Ipam) :=
  match checkRoots pools with
  | Some e => mret (Err e)
  | None => ts ← new_roots pools; mret (Ok (mkIpam ts))
  end.

Fixpoint acquire_size_roots (size : Z) (ts : list tree) (exclusive : bool)
  : M (option Prefix * list tree) :=
  match ts with
  | [] => mret (None, [])
  | t :: ts =>
    '(res, t') ← allocateNetwork clock depth size t exclusive;
    match res with
    | Some _ => mret (res, t' :: ts)
    | None => '(res, ts') ← acquire_size_roots size ts exclusive; mret (res, t' :: ts')
    end
  end.

Definition NetworkAcquire (ipam : Ipam) (size : Z) (exclusive : bool)
  : M (option Prefix * Ipam) :=
  '(res, ts) ← acquire_size_roots size (roots ipam) exclusive;
  mret (res, mkIpam ts).

Fixpoint acquire_prefix_roots (p : Prefix) (ts : list tree) (exclusive : bool)
  : M (option Prefix * list tree) :=
  match ts with
  | [] => mret (None, [])
  | t :: ts =>
    '(res, t') ← (if isPrefixChildOf (root_prefix t) p
                  then allocateNetworkWithPrefix clock depth p t exclusive
                  else mret (None, t));
    match res with
    | Some _ => mret (res, t' :: ts)
    | None => '(res, ts') ← acquire_prefix_roots p ts exclusive; mret (res, t' :: ts')
    end
  end.

Definition NetworkAcquireWithPrefix (ipam : Ipam) (p : Prefix) (exclusive : bool)
  : M (option Prefix * Ipam) :=
  '(res, ts) ← acquire_prefix_roots p (roots ipam) exclusive;
  mret (res, mkIpam ts).

Fixpoint release_roots (p : Prefix) (ts : list tree) (gracePeriod : Z)
  : M (option Prefix * list tree) :=
  match ts with
  | [] => mret (None, [])
  | t :: ts =>
    '(res, t') ← (if isPrefixChildOf (root_prefix t) p
                  then networkRelease clock p t gracePeriod
                  else mret (None, t));
    match res with
    | Some _ => mret (res, t' :: ts)
    | None => '(res, ts') ← release_roots p ts gracePeriod; mret (res, t' :: ts')
    end
  end.

Definition NetworkRelease (ipam : Ipam) (p : Prefix) (gracePeriod : Z)
  : M (option Prefix * Ipam) :=
  '(res, ts) ← release_roots p (roots ipam) gracePeriod;
  mret (res, mkIpam ts).

Definition IPAcquire (ipam : Ipam) (p : Prefix)
  : M (result core_error (option Addr) * Ipam) :=
  match Ipam_search ipam p with
  | Err e => mret (Err e, ipam)
  | Ok (Some (i, n)) =>
    '(res, n') ← ipAcquire clock n;
    mret (Ok res, write_node ipam i p n')
  | Ok None => mret (Ok None, ipam)
  end.

Definition IPAcquireWithAddr (ipam : Ipam) (p : Prefix) (a : Addr)
  : M (result core_error (option Addr) * Ipam) :=
  if negb (Contains p a) then mret (Err (AddrNotInPrefix a p), ipam)
  else
    match Ipam_search ipam p with
    | Err e => mret (Err e, ipam)
    | Ok (Some (i, n)) =>
      '(res, n') ← allocateIPWithAddr clock n a;
      mret (Ok res, write_node ipam i p n')
    | Ok None => mret (Ok None, ipam)
    end.

Definition IPRelease (ipam : Ipam) (p : Prefix) (a : Addr) (gracePeriod : Z)
  : M (result core_error (option Addr) * Ipam) :=
  match Ipam_search ipam p with
  | Err e => mret (Err e, ipam)
  | Ok (Some (i, n)) =>
    '(res, n') ← ipRelease clock n a gracePeriod;
    mret (Ok res, write_node ipam i p n')
  | Ok None => mret (Ok None, ipam)
  end.
End ops.

Definition ListNetworks (ipam : Ipam) : list Prefix :=
  foldr (fun t acc => listNetworks t ++ acc) [] (roots ipam).

Fixpoint available_roots (p : Prefix) (ts : list tree) : bool :=
  match ts with
  | [] => false
  | t :: ts =>
    if isPrefixChildOf (root_prefix t) p then networkIsAvailable p t else available_roots p ts
  end.

Definition NetworkIsAvailable (ipam : Ipam) (p : Prefix) : bool :=
  available_roots p (roots ipam).

Definition ListIPs (ipam : Ipam) (p : Prefix) : result core_error (list Addr) :=
  match Ipam_search ipam p with
  | Err e => Err e
  | Ok (Some (_, n)) => Ok (addr <$> ips n)
  | Ok None => Ok []
  end.

Definition IPIsAllocated (ipam : Ipam) (p : Prefix) (a : Addr) : result core_error bool :=
  match Ipam_search ipam p with
  | Err e => Err e
  | Ok (Some (_, n)) => Ok (isAllocatedIP n a)
  | Ok None => Ok false
  end.

Definition IsPrefixInRoots (ipam : Ipam) (p : Prefix) : bool :=
  existsb (fun t => isPrefixChildOf (root_prefix t) p) (roots ipam).

Definition NetworkSetLastUpdateTimestamp (ipam : Ipam) (p : Prefix) (ts : Z)
  : result core_error Ipam :=
  match Ipam_search ipam p with
  | Err e => Err e
  | Ok None => Err (PrefixNotFound p)
  | Ok (Some (i, n)) => Ok (write_node ipam i p (set_lastUpdate ts n))
  end.

(** The loop over [node.ips]: the first entry with the address is stamped. *)
Fixpoint stamp_ip (a : Addr) (ts : Z) (l : list nodeIP) : option (list nodeIP) :=
  match l with
  | [] => None
  | x :: l =>
    if same_addr (addr x) a then Some (mkNodeIP (addr x) ts :: l)
    else (fun l' => x :: l') <$> stamp_ip a ts l
  end.

Definition IPSetCreationTimestamp (ipam : Ipam) (a : Addr) (p : Prefix) (ts : Z)
  : result core_error Ipam :=
  match Ipam_search ipam p with
  | Err e => Err e
  | Ok None => Err (PrefixNotFound p)
  | Ok (Some (i, n)) =>
    match stamp_ip a ts (ips n) with
    | Some l => Ok (write_node ipam i p (set_ips l n))
    | None => Err (IPNotFound a)
    end
  end.
