(* ===== verification/IpamSpec.v ===== *)
(** * IpamSpec: the abstract IPAM and the refinement of the core

    The abstract state of an [Ipam] gives each prefix its reference count
    ([refs]) and its addresses ([addrs]).  [ipam_ok ps ipam] is the invariant:
    one well-formed tree per pool, pools pairwise disjoint.  Each operation of
    [IpamCore] is specified on the abstract state; the last section turns the
    operations into a transition system and proves its invariants. *)

From S2P Require Export IpamCore.
Local Open Scope Z_scope.

Fixpoint disjoint_pools (ps : list Prefix) : Prop :=
  match ps with
  | [] => True
  | p :: ps => (∀ q, q ∈ ps → Overlaps p q = false) ∧ disjoint_pools ps
  end.

Record roots_ok (ps : list Prefix) (ts : list tree) : Prop := {
  ro_wf : Forall2 wf ps ts;
  ro_disjoint : disjoint_pools ps
}.
Definition ipam_ok (ps : list Prefix) (ipam : Ipam) : Prop := roots_ok ps (roots ipam).

(** The node of a prefix, over all pools. *)
Definition roots_at (ts : list tree) (q : Prefix) : option node :=
  foldr (fun t acc => node_at t q ∪ acc) None ts.
Definition roots_rc (ts : list tree) (q : Prefix) : Z :=
  match roots_at ts q with Some n => refCount n | None => 0 end.
Definition roots_held (ts : list tree) (q : Prefix) : list Addr :=
  match roots_at ts q with Some n => addr <$> ips n | None => [] end.

Definition refs (ipam : Ipam) : Prefix → Z := roots_rc (roots ipam).
Definition addrs (ipam : Ipam) : Prefix → list Addr := roots_held (roots ipam).

(** [q] lies in one of the pools. *)
Definition in_pools (ps : list Prefix) (q : Prefix) : Prop := ∃ p, p ∈ ps ∧ under p q.

(** ** Pools do not interfere *)

(** Two pools that contain one prefix overlap. *)
Lemma under_common p p' x : wf4 p → wf4 p' → valid_prefix x →
  under p x → under p' x → Overlaps p p' = true.
Proof.
  intros Hp Hp' Hx (Hl & Hb & Hn) (_ & Hb' & Hn'). apply Overlaps_spec; auto with liqo.
  pose proof (wf4_len _ Hp). pose proof (wf4_len _ Hp'). split; [done|].
  pose proof (wf4_bits _ Hp). pose proof (wf4_bits _ Hp'). pose proof (vp_bits _ Hx).
  rewrite Hl in *. destruct (Z.le_gt_cases (pBits p) (pBits p')).
  - rewrite Z.min_l by lia. rewrite <- Hn. apply (net_coarse _ _ _ (pBits p')); auto; lia.
  - rewrite Z.min_r by lia. rewrite <- Hn'. symmetry.
    apply (net_coarse _ _ _ (pBits p)); auto; lia.
Qed.

Lemma Overlaps_pools p p' x q : wf4 p → wf4 p' → wf4 x → wf4 q →
  under p x → under p' q → Overlaps x q = true → Overlaps p p' = true.
Proof.
  intros Hp Hp' Hx Hq Hu Hu' Ho. apply Overlaps_under in Ho as [Ho|Ho]; [..|done|done].
  - apply (under_common p p' q); auto with liqo.
    apply (under_trans p x q); auto with liqo.
  - apply (under_common p p' x); auto with liqo.
    apply (under_trans p' q x); auto with liqo.
Qed.

Lemma Forall2_pool ps ts p : Forall2 wf ps ts → p ∈ ps → wf4 p.
Proof.
  induction 1 as [|p' t ps ts Hw _ IH]; [by intros ?%not_elem_of_nil|].
  intros [->|?]%elem_of_cons; [by eapply wf_wf4|auto].
Qed.

Lemma roots_at_in ps ts q n : Forall2 wf ps ts → roots_at ts q = Some n →
  node_ok q n ∧ wf4 q ∧ in_pools ps q.
Proof.
  induction 1 as [|p t ps ts Hw _ IH]; simpl; [done|]. intros Hn.
  destruct (node_at t q) as [m|] eqn:E.
  - assert (m = n) as -> by (destruct (roots_at ts q); by injection Hn).
    destruct (node_at_under _ _ _ _ Hw E) as (? & ? & ?). split_and!; [done..|].
    exists p. split; [left|done].
  - destruct IH as (? & ? & p' & ? & ?); [by destruct (roots_at ts q)|].
    split_and!; [done..|]. exists p'. split; [by right|done].
Qed.

Lemma roots_rc_in ps ts q : Forall2 wf ps ts → roots_rc ts q ≠ 0 → wf4 q ∧ in_pools ps q.
Proof.
  unfold roots_rc. intros Hw Hc. destruct (roots_at ts q) eqn:E; [|done].
  by destruct (roots_at_in _ _ _ _ Hw E) as (_ & ? & ?).
Qed.

Section cons.
Context (p : Prefix) (t : tree) (ps : list Prefix) (ts : list tree).
Context (Hw : wf p t) (Hws : Forall2 wf ps ts) (Hd : ∀ q, q ∈ ps → Overlaps p q = false).

Lemma not_in_tail q : valid_prefix q → under p q → ¬ in_pools ps q.
Proof.
  intros Hq Hu (p' & Hin & Hu'). specialize (Hd _ Hin).
  rewrite (under_common p p' q) in Hd; eauto using wf_wf4, Forall2_pool. done.
Qed.

Lemma roots_at_head q : valid_prefix q → under p q → roots_at (t :: ts) q = node_at t q.
Proof.
  intros Hq Hu. simpl. destruct (roots_at ts q) eqn:E; [|by destruct (node_at t q)].
  destruct (roots_at_in _ _ _ _ Hws E) as (_ & _ & Hin). by destruct (not_in_tail q).
Qed.

Lemma roots_at_tail q : ¬ under p q → roots_at (t :: ts) q = roots_at ts q.
Proof.
  intros Hu. simpl. rewrite (node_at_outside p) by done. by destruct (roots_at ts q).
Qed.

Lemma roots_at_cases x :
  (roots_at (t :: ts) x = node_at t x ∧ roots_at ts x = None) ∨
  (roots_at (t :: ts) x = roots_at ts x ∧ node_at t x = None).
Proof.
  destruct (node_at t x) as [n|] eqn:E.
  - destruct (node_at_under _ _ _ _ Hw E) as (_ & Hx & Hu). left.
    rewrite roots_at_head by auto with liqo. split; [done|].
    destruct (roots_at ts x) eqn:E'; [|done].
    destruct (roots_at_in _ _ _ _ Hws E') as (_ & _ & Hin). destruct (not_in_tail x); auto with liqo.
  - right. simpl. rewrite E. by destruct (roots_at ts x).
Qed.

Lemma roots_rc_cons x : roots_rc (t :: ts) x = rc t x + roots_rc ts x.
Proof. unfold roots_rc, rc. destruct (roots_at_cases x) as [[-> ->]|[-> ->]]; lia. Qed.

Lemma roots_held_cons x : roots_held (t :: ts) x = held t x ++ roots_held ts x.
Proof.
  unfold roots_held, held. destruct (roots_at_cases x) as [[-> ->]|[-> ->]]; [|done].
  by rewrite app_nil_r.
Qed.

(** A prefix of one pool overlaps nothing acquired in the others. *)
Lemma acquired_apart x q : wf4 q → under p q → roots_rc ts x ≠ 0 → Overlaps x q = false.
Proof.
  intros Hq Hu Hx. destruct (roots_rc_in _ _ _ Hws Hx) as (Hx4 & p' & Hin & Hu').
  apply not_true_iff_false. intros Ho.
  assert (Overlaps p' p = true) as Hc.
  { apply (Overlaps_pools p' p x q); eauto using wf_wf4, Forall2_pool. }
  apply Overlaps_under in Hc; eauto using wf_wf4, Forall2_pool.
  assert (Overlaps p p' = true); [|by rewrite Hd in *].
  apply Overlaps_under; eauto using wf_wf4, Forall2_pool. tauto.
Qed.

Lemma acquired_apart_tail x q : wf4 q → in_pools ps q → rc t x ≠ 0 → Overlaps x q = false.
Proof.
  intros Hq (p' & Hin & Hu) Hx. destruct (rc_under _ _ _ Hw Hx) as [Hx4 Hu'].
  apply not_true_iff_false. intros Ho.
  assert (Overlaps p p' = true); [|by rewrite Hd in *].
  apply (Overlaps_pools p p' x q); eauto using wf_wf4, Forall2_pool.
Qed.

Lemma rc_apart x : rc t x = 0 ∨ roots_rc ts x = 0.
Proof. unfold roots_rc, rc. destruct (roots_at_cases x) as [[_ ->]|[_ ->]]; auto. Qed.

Lemma can_acquire_head q ex : wf4 q → under p q →
  can_acquire (roots_rc (t :: ts)) q ex ↔ can_acquire (rc t) q ex.
Proof.
  intros Hq Hu. unfold can_acquire. split; intros H x Hx Ho; pose proof (rc_apart x);
    specialize (H x); rewrite roots_rc_cons in *.
  - destruct ex; [apply H; auto; lia|]. specialize (H ltac:(lia) Ho). lia.
  - destruct (decide (roots_rc ts x = 0)) as [E|E].
    + destruct ex; [apply H; auto; lia|]. specialize (H ltac:(lia) Ho). lia.
    + by rewrite (acquired_apart x q) in Ho.
Qed.

Lemma can_acquire_tail q ex : wf4 q → in_pools ps q →
  can_acquire (roots_rc (t :: ts)) q ex ↔ can_acquire (roots_rc ts) q ex.
Proof.
  intros Hq Hu. unfold can_acquire. split; intros H x Hx Ho; pose proof (rc_apart x);
    specialize (H x); rewrite roots_rc_cons in *.
  - destruct ex; [apply H; auto; lia|]. specialize (H ltac:(lia) Ho). lia.
  - destruct (decide (rc t x = 0)) as [E|E].
    + destruct ex; [apply H; auto; lia|]. specialize (H ltac:(lia) Ho). lia.
    + by rewrite (acquired_apart_tail x q) in Ho.
Qed.
End cons.

Lemma in_pools_cons p ps q : in_pools (p :: ps) q ↔ under p q ∨ in_pools ps q.
Proof. unfold in_pools. setoid_rewrite elem_of_cons. naive_solver. Qed.

(** ** Acquiring *)

Definition acquire_spec (ps : list Prefix) (ts : list tree) (q : Prefix) (ex : bool)
    (res : option Prefix) (ts' : list tree) : Prop :=
  Forall2 wf ps ts' ∧ (∀ x, roots_held ts' x = roots_held ts x) ∧
  match res with
  | Some q' =>
    q' = q ∧ wf4 q ∧ in_pools ps q ∧ can_acquire (roots_rc ts) q ex ∧
    ∀ x, roots_rc ts' x = roots_rc ts x + if decide (x = q) then acquire_delta ex else 0
  | None => ¬ (wf4 q ∧ in_pools ps q ∧ can_acquire (roots_rc ts) q ex) ∧
            ∀ x, roots_rc ts' x = roots_rc ts x
  end.

(** Allocating by length: the network returned was free of any overlap. *)
Definition alloc_spec (ps : list Prefix) (ts : list tree) (size : Z) (ex : bool)
    (res : option Prefix) (ts' : list tree) : Prop :=
  match res with
  | Some q => pBits q = size ∧ can_acquire (roots_rc ts) q true ∧
              acquire_spec ps ts q ex (Some q) ts'
  | None => Forall2 wf ps ts' ∧ (∀ x, roots_held ts' x = roots_held ts x) ∧
            (∀ x, roots_rc ts' x = roots_rc ts x)
  end.

Definition release_spec (ps : list Prefix) (ts : list tree) (q : Prefix) (grace nowz : Z)
    (res : option Prefix) (ts' : list tree) : Prop :=
  let ok := match roots_at ts q with
            | Some n => isAcquired n && (lastUpdateTimestamp n + grace <? nowz)
            | None => false
            end in
  Forall2 wf ps ts' ∧ (∀ x, roots_rc ts' x ≠ 0 → roots_held ts' x = roots_held ts x) ∧
  res = (if ok then Some q else None) ∧
  ∀ x, roots_rc ts' x = roots_rc ts x +
       if decide (x = q) then if ok then release_delta (roots_rc ts q) else 0 else 0.

Section cons_specs.
Context (p : Prefix) (t : tree) (ps : list Prefix) (ts : list tree).
Context (Hw : wf p t) (Hws : Forall2 wf ps ts) (Hd : ∀ q, q ∈ ps → Overlaps p q = false).

(** A change of the first pool. *)
Lemma acquire_spec_head q ex t' : acquire_post p t q ex (Some q) t' →
  acquire_spec (p :: ps) (t :: ts) q ex (Some q) (t' :: ts).
Proof.
  intros (Hw' & Hh & _ & Hq & Hu & Hc & Hrc). split_and!; auto.
  - intros x. by rewrite !(roots_held_cons p _ ps), Hh.
  - apply in_pools_cons; auto.
  - by rewrite (can_acquire_head p t ps).
  - intros x. rewrite !(roots_rc_cons p _ ps), Hrc by done. lia.
Qed.

(** The first pool kept its abstract state, the others changed. *)
Lemma acquire_spec_tail q ex t' res ts' :
  wf p t' → (∀ x, held t' x = held t x) → (∀ x, rc t' x = rc t x) →
  ¬ (wf4 q ∧ under p q ∧ can_acquire (rc t) q ex) →
  acquire_spec ps ts q ex res ts' →
  acquire_spec (p :: ps) (t :: ts) q ex res (t' :: ts').
Proof.
  intros Hw' Hh Hrc Hno (Hws' & Hhs & Hres). split; [by constructor|]. split.
  { intros x. by rewrite !(roots_held_cons p _ ps), Hh, Hhs. }
  destruct res as [q'|].
  - destruct Hres as (-> & Hq & Hin & Hc & Hrcs). split_and!; auto.
    + apply in_pools_cons; auto.
    + by rewrite (can_acquire_tail p t ps).
    + intros x. rewrite !(roots_rc_cons p _ ps), Hrc, Hrcs by done. lia.
  - destruct Hres as [Hno' Hrcs]. split.
    + intros (Hq & [Hu|Hin]%in_pools_cons & Hc).
      * apply Hno. by rewrite (can_acquire_head p t ps) in Hc.
      * apply Hno'. by rewrite (can_acquire_tail p t ps) in Hc.
    + intros x. by rewrite !(roots_rc_cons p _ ps), Hrc, Hrcs.
Qed.

Lemma alloc_spec_head size ex q t' : alloc_post p t size ex (Some q) t' →
  alloc_spec (p :: ps) (t :: ts) size ex (Some q) (t' :: ts).
Proof.
  intros (Hb & Hc & Hpost). pose proof Hpost as (_ & _ & _ & Hq & Hu & _).
  split_and!; [done| |by apply acquire_spec_head]. by rewrite (can_acquire_head p t ps).
Qed.

Lemma alloc_spec_tail size ex t' res ts' :
  alloc_post p t size ex None t' → alloc_spec ps ts size ex res ts' →
  alloc_spec (p :: ps) (t :: ts) size ex res (t' :: ts').
Proof.
  intros (Hw' & Hh & Hrc) Hpost. destruct res as [q|].
  - destruct Hpost as (Hb & Hc & Hpost). pose proof Hpost as (_ & _ & _ & Hq & Hin & _).
    split_and!; [done|by rewrite (can_acquire_tail p t ps)|].
    apply acquire_spec_tail; auto. intros (_ & Hu & _).
    eapply (not_in_tail p); eauto with liqo.
  - destruct Hpost as (Hws' & Hhs & Hrcs). split_and!; [by constructor|..]; intros x.
    + by rewrite !(roots_held_cons p _ ps), Hh, Hhs.
    + by rewrite !(roots_rc_cons p _ ps), Hrc, Hrcs.
Qed.

Lemma release_spec_head q g z res t' : valid_prefix q → under p q →
  release_post p t q g z res t' → release_spec (p :: ps) (t :: ts) q g z res (t' :: ts).
Proof.
  intros Hq Hu (Hw' & Hh & Hres & Hrc). unfold release_spec.
  rewrite (roots_at_head p t ps ts) by done. fold (releasable t q g z).
  split_and!; [by constructor| |done|].
  - intros x. rewrite !(roots_rc_cons p _ ps), !(roots_held_cons p _ ps) by done. intros Hx.
    destruct (rc_apart p t' ps ts Hw' Hws Hd x) as [E|E].
    + destruct (roots_rc_in ps ts x Hws) as [Hx4 Hin]; [lia|].
      rewrite !(held_outside p); auto; intros Hux; by apply (not_in_tail p t ps ts Hw Hws Hd x (wf4_valid _ Hx4)).
    + by rewrite Hh by lia.
  - intros x. rewrite !(roots_rc_cons p _ ps), Hrc by done. unfold release_change.
    destruct (rc_apart p t ps ts Hw Hws Hd q) as [E|E]; [|rewrite E, Z.add_0_r; case_decide; lia].
    destruct (releasable t q g z) eqn:Hr; [|case_decide; lia].
    by apply releasable_acquired in Hr.
Qed.

Lemma release_spec_tail q g z res ts' : ¬ under p q →
  release_spec ps ts q g z res ts' → release_spec (p :: ps) (t :: ts) q g z res (t :: ts').
Proof.
  intros Hu (Hws' & Hh & Hres & Hrc). unfold release_spec.
  rewrite (roots_at_tail p) by done. split_and!; [by constructor| |done|].
  - intros x. rewrite !(roots_rc_cons p _ ps), !(roots_held_cons p _ ps) by done. intros Hx.
    destruct (rc_apart p t ps ts' Hw Hws' Hd x) as [E|E]; [by rewrite Hh by lia|].
    destruct (rc_under p t x Hw) as [Hx4 Hux]; [lia|].
    unfold roots_held. destruct (roots_at ts' x) eqn:E1.
    { apply (roots_at_in ps) in E1 as (_ & _ & Hin); [|done].
      exfalso. eapply (not_in_tail p); eauto with liqo. }
    destruct (roots_at ts x) eqn:E2; [|done].
    apply (roots_at_in ps) in E2 as (_ & _ & Hin); [|done].
    exfalso. eapply (not_in_tail p); eauto with liqo.
  - intros x. rewrite !(roots_rc_cons p _ ps), Hrc by done.
    assert (rc t q = 0) as ->.
    { unfold rc. by rewrite (node_at_outside p). }
    rewrite Z.add_0_l. lia.
Qed.
End cons_specs.

Lemma root_prefix_wf p t : wf p t → root_prefix t = p.
Proof. intros (n & l & r & -> & [])%wf_root. done. Qed.

Lemma disjoint_cons p t ps ts : roots_ok (p :: ps) (t :: ts) →
  wf p t ∧ roots_ok ps ts ∧ (∀ q, q ∈ ps → Overlaps p q = false).
Proof. intros [Hw [Hd Hds]]. inversion Hw; subst. by split_and!. Qed.

Section specs.
Context (clock : nat → Z).

Lemma acquire_prefix_roots_spec ps ts q ex τ : roots_ok ps ts → valid_prefix q →
  wp (acquire_prefix_roots clock q ts ex) τ
     (fun '(res, ts') _ => acquire_spec ps ts q ex res ts').
Proof.
  intros Hok Hq. revert ps τ Hok. induction ts as [|t ts IH]; intros ps τ Hok.
  { destruct Hok as [Hw _]. inversion Hw; subst. apply wp_ret. split_and!; try done.
    intros (_ & (p & Hp & _) & _). by apply not_elem_of_nil in Hp. }
  destruct ps as [|p ps]; [destruct Hok as [Hw _]; inversion Hw|].
  apply disjoint_cons in Hok as (Hw & Hok & Hd). pose proof (ro_wf _ _ Hok) as Hws.
  cbn [acquire_prefix_roots]. rewrite (root_prefix_wf p) by done. apply wp_bind.
  destruct (isPrefixChildOf p q) eqn:Hc.
  - eapply wp_mono; [apply (allocateNetworkWithPrefix_spec clock depth p); [done..|]|].
    { unfold enough, depth. destruct Hq, (wf_wf4 _ _ Hw). lia. }
    intros [[q'|] t'] τ' Hpost.
    + pose proof Hpost as (_ & _ & -> & _). by apply wp_ret, acquire_spec_head.
    + destruct Hpost as (Hw' & Hh & Hno & Hrc). apply wp_bind.
      eapply wp_mono; [by apply IH|]. intros [res ts'] τ2 Htl.
      apply wp_ret. by apply acquire_spec_tail.
  - apply wp_ret, wp_bind. eapply wp_mono; [by apply IH|]. intros [res ts'] τ2 Htl.
    apply wp_ret, acquire_spec_tail; auto. intros (_ & Hu & _).
    apply isPrefixChildOf_spec in Hu; eauto using wf_wf4. congruence.
Qed.

Lemma acquire_size_roots_spec ps ts size ex τ : roots_ok ps ts → size ≤ 32 →
  wp (acquire_size_roots clock size ts ex) τ
     (fun '(res, ts') _ => alloc_spec ps ts size ex res ts').
Proof.
  intros Hok Hs. revert ps τ Hok. induction ts as [|t ts IH]; intros ps τ Hok.
  { destruct Hok as [Hw _]. inversion Hw; subst. by apply wp_ret. }
  destruct ps as [|p ps]; [destruct Hok as [Hw _]; inversion Hw|].
  apply disjoint_cons in Hok as (Hw & Hok & Hd). pose proof (ro_wf _ _ Hok) as Hws.
  cbn [acquire_size_roots]. apply wp_bind.
  eapply wp_mono; [apply (allocateNetwork_spec clock depth p); [done..|]|].
  { unfold enough, depth. destruct (wf_wf4 _ _ Hw). lia. }
  intros [[q|] t'] τ' Hpost; [by apply wp_ret, alloc_spec_head|].
  apply wp_bind. eapply wp_mono; [by apply IH|]. intros [res ts'] τ2 Htl.
  by apply wp_ret, alloc_spec_tail.
Qed.

(** A failed allocation: every network of that length in the pools overlaps an
    acquired one or is split in its tree. *)
Lemma acquire_size_roots_exhausted ps ts size ex τ : roots_ok ps ts → size ≤ 32 →
  wp (acquire_size_roots clock size ts ex) τ (fun '(res, ts') _ => res = None →
    ∀ q, wf4 q → in_pools ps q → pBits q = size → can_acquire (roots_rc ts) q true →
         is_Some (roots_at ts' (lchild q))).
Proof.
  intros Hok Hs. revert ps τ Hok. induction ts as [|t ts IH]; intros ps τ Hok.
  { destruct Hok as [Hw _]. inversion Hw; subst. apply wp_ret. intros _ q _ (p & Hp & _).
    by apply not_elem_of_nil in Hp. }
  destruct ps as [|p ps]; [destruct Hok as [Hw _]; inversion Hw|].
  apply disjoint_cons in Hok as (Hw & Hok & Hd). pose proof (ro_wf _ _ Hok) as Hws.
  cbn [acquire_size_roots]. apply wp_bind. eapply wp_mono.
  { apply wp_and; [apply (allocateNetwork_spec clock depth p)|
                   apply (allocateNetwork_exhausted clock depth p)]; try done;
      unfold enough, depth; destruct (wf_wf4 _ _ Hw); lia. }
  intros [[q|] t'] τ' [Hpost HE]; [by apply wp_ret|]. destruct Hpost as (Hw' & _ & _).
  apply wp_bind. eapply wp_mono; [by apply IH|]. intros [res ts'] τ2 Htl. apply wp_ret.
  intros -> q Hq [Hu|Hin]%in_pools_cons Hb Hc; cbn [roots_at foldr].
  - rewrite (can_acquire_head p t ps) in Hc by done.
    destruct (HE eq_refl q Hq Hu Hb Hc) as [m ->].
    destruct (foldr _ _ ts'); [|eauto]. eexists. reflexivity.
  - rewrite (can_acquire_tail p t ps) in Hc by done.
    destruct (Htl eq_refl q Hq Hin Hb Hc) as [m Hm]. unfold roots_at in Hm. rewrite Hm.
    destruct (node_at t' (lchild q)); eauto.
Qed.

Lemma release_roots_none ps ts q g τ : Forall2 wf ps ts → valid_prefix q → ¬ in_pools ps q →
  wp (release_roots clock q ts g) τ (fun '(res, ts') _ => res = None ∧ ts' = ts).
Proof.
  intros Hw Hq. revert τ. induction Hw as [|p t ps ts Hw _ IH]; intros τ Hin; [done|].
  rewrite in_pools_cons in Hin. cbn [release_roots]. rewrite (root_prefix_wf p) by done.
  destruct (isPrefixChildOf p q) eqn:Hc.
  { apply isPrefixChildOf_spec in Hc; eauto using wf_wf4. tauto. }
  apply wp_bind, wp_ret, wp_bind. eapply wp_mono; [apply IH; tauto|].
  by intros [res ts'] τ' [-> ->].
Qed.

Lemma release_roots_spec ps ts q g τ : roots_ok ps ts → valid_prefix q →
  wp (release_roots clock q ts g) τ
     (fun '(res, ts') _ => release_spec ps ts q g (clock τ) res ts').
Proof.
  intros Hok Hq. revert ps Hok. induction ts as [|t ts IH]; intros ps Hok.
  { destruct Hok as [Hw _]. inversion Hw; subst. apply wp_ret. split_and!; try done.
    intros x. simpl. case_decide; lia. }
  destruct ps as [|p ps]; [destruct Hok as [Hw _]; inversion Hw|].
  apply disjoint_cons in Hok as (Hw & Hok & Hd). pose proof (ro_wf _ _ Hok) as Hws.
  cbn [release_roots]. rewrite (root_prefix_wf p) by done. apply wp_bind.
  destruct (isPrefixChildOf p q) eqn:Hc.
  - apply isPrefixChildOf_spec in Hc as Hu; eauto using wf_wf4.
    eapply wp_mono; [by apply (networkRelease_spec clock p)|].
    intros [[q'|] t'] τ' Hpost; [by apply wp_ret, release_spec_head|].
    apply wp_bind. eapply wp_mono; [apply (release_roots_none ps); eauto using not_in_tail|].
    intros [res ts'] τ2 [-> ->]. by apply wp_ret, release_spec_head.
  - apply wp_ret, wp_bind. eapply wp_mono; [by apply IH|]. intros [res ts'] τ2 Htl.
    apply wp_ret, release_spec_tail; auto. intros Hu.
    apply isPrefixChildOf_spec in Hu; eauto using wf_wf4. congruence.
Qed.
End specs.

(** ** Addresses *)

(** Writing a node of the same prefix and counter back in place. *)
Definition write_spec (ps : list Prefix) (ts : list tree) (q : Prefix) (n' : node)
    (ts' : list tree) : Prop :=
  Forall2 wf ps ts' ∧ (∀ x, roots_rc ts' x = roots_rc ts x) ∧
  ∀ x, roots_held ts' x = if decide (x = q) then addr <$> ips n' else roots_held ts x.

Definition search_spec (ps : list Prefix) (ts : list tree) (q : Prefix) (i : nat)
    (res : result core_error (option (nat * node))) : Prop :=
  match res with
  | Err e => e = NotInRoots q ∧ ¬ in_pools ps q
  | Ok None => in_pools ps q ∧ roots_at ts q = None
  | Ok (Some (j, n)) =>
    ∃ k, j = (i + k)%nat ∧ in_pools ps q ∧ roots_at ts q = Some n ∧
    ∀ n', node_ok q n' → refCount n' = refCount n →
          write_spec ps ts q n' (alter (store q n') k ts)
  end.

Lemma write_spec_head p t ps ts q n n' :
  wf p t → Forall2 wf ps ts → (∀ q, q ∈ ps → Overlaps p q = false) →
  valid_prefix q → under p q → node_at t q = Some n → node_ok q n' → refCount n' = refCount n →
  write_spec (p :: ps) (t :: ts) q n' (store q n' t :: ts).
Proof.
  intros Hw Hws Hd Hq Hu Hat Hok Hrc.
  destruct (store_spec p t q n n') as (Hw' & Hrcs & Hh); auto.
  split_and!; [by constructor|..]; intros x.
  - by rewrite !(roots_rc_cons p _ ps), Hrcs.
  - rewrite !(roots_held_cons p _ ps), Hh by done. case_decide as Hx; [subst x|done].
    unfold roots_held. destruct (roots_at ts q) eqn:E; [|by rewrite app_nil_r].
    apply (roots_at_in ps) in E as (_ & _ & Hin); [|done]. exfalso.
    by apply (not_in_tail p t ps ts Hw Hws Hd q).
Qed.

Lemma write_spec_tail p t ps ts q n' ts' :
  wf p t → Forall2 wf ps ts → (∀ q, q ∈ ps → Overlaps p q = false) → ¬ under p q →
  write_spec ps ts q n' ts' → write_spec (p :: ps) (t :: ts) q n' (t :: ts').
Proof.
  intros Hw Hws Hd Hu (Hws' & Hrcs & Hh). split_and!; [by constructor|..]; intros x.
  - by rewrite !(roots_rc_cons p _ ps), Hrcs.
  - rewrite !(roots_held_cons p _ ps), Hh by done. case_decide as Hx; [subst x|done].
    by rewrite (held_outside p).
Qed.

Lemma search_roots_spec ps ts q i : roots_ok ps ts → valid_prefix q →
  search_spec ps ts q i (search_roots i ts q).
Proof.
  intros Hok Hq. revert ps i Hok. induction ts as [|t ts IH]; intros ps i Hok.
  { destruct Hok as [Hw _]. inversion Hw; subst. split; [done|]. intros (p & Hp & _).
    by apply not_elem_of_nil in Hp. }
  destruct ps as [|p ps]; [destruct Hok as [Hw _]; inversion Hw|].
  apply disjoint_cons in Hok as (Hw & Hok & Hd). pose proof (ro_wf _ _ Hok) as Hws.
  cbn [search_roots]. rewrite (root_prefix_wf p) by done.
  destruct (isPrefixChildOf p q) eqn:Hc; cbn [negb].
  - apply isPrefixChildOf_spec in Hc as Hu; eauto using wf_wf4.
    assert (Hin : in_pools (p :: ps) q) by (apply in_pools_cons; auto).
    rewrite (search_node_at p) by done. pose proof (roots_at_head p t ps ts Hw Hws Hd q Hq Hu) as Hr.
    destruct (node_at t q) as [n|] eqn:Hat; [|done].
    exists 0%nat. rewrite Nat.add_0_r. split_and!; [done|done|done|].
    intros n' Hn' Hrc. by eapply write_spec_head.
  - assert (Hu : ¬ under p q).
    { intros Hu. apply isPrefixChildOf_spec in Hu; eauto using wf_wf4. congruence. }
    specialize (IH ps (S i) Hok). unfold search_spec in *.
    destruct (search_roots (S i) ts q) as [[[j n]|]|e];
      setoid_rewrite in_pools_cons; rewrite ?(roots_at_tail p) by done.
    + destruct IH as (k & -> & Hin & Hat & Hwr). exists (S k).
      split_and!; [lia|auto|done|]. intros n' Hn' Hrc. apply write_spec_tail; auto.
    + naive_solver.
    + naive_solver.
Qed.

(** The operations on addresses act on one node found by [Ipam_search]. *)
Lemma Ipam_search_spec ps ipam q : ipam_ok ps ipam → valid_prefix q →
  match Ipam_search ipam q with
  | Err e => e = NotInRoots q ∧ ¬ in_pools ps q
  | Ok None => in_pools ps q ∧ refs ipam q = 0 ∧ addrs ipam q = []
  | Ok (Some (i, n)) =>
    in_pools ps q ∧ node_ok q n ∧ refCount n = refs ipam q ∧ addr <$> ips n = addrs ipam q ∧
    ∀ n', node_ok q n' → refCount n' = refCount n →
      ipam_ok ps (write_node ipam i q n') ∧
      (∀ x, refs (write_node ipam i q n') x = refs ipam x) ∧
      ∀ x, addrs (write_node ipam i q n') x
           = if decide (x = q) then addr <$> ips n' else addrs ipam x
  end.
Proof.
  intros Hok Hq. pose proof (search_roots_spec ps (roots ipam) q 0 Hok Hq) as H.
  unfold Ipam_search, refs, addrs, roots_rc, roots_held, search_spec in *.
  destruct (search_roots 0 (roots ipam) q) as [[[j n]|]|e]; [|by destruct H as [? ->]|done].
  destruct H as (k & -> & Hin & Hat & Hwr). rewrite Hat.
  destruct (roots_at_in ps (roots ipam) q n) as (Hn & _ & _); [apply Hok|done|].
  split_and!; [done..|]. intros n' Hn' Hrc. destruct (Hwr n' Hn' Hrc) as (Hws & Hrcs & Hh).
  split_and!; [|done|done]. split; [done|apply Hok].
Qed.

Definition acquired (ipam : Ipam) (q : Prefix) : Prop := refs ipam q ≠ 0.

Lemma isAcquired_refs ipam q n : refCount n = refs ipam q →
  isAcquired n = true ↔ acquired ipam q.
Proof.
  intros Hrc. unfold isAcquired, acquired. rewrite <- Hrc, negb_true_iff. by rewrite Z.eqb_neq.
Qed.

(** The counters and every address but those of [q] are unchanged. *)
Definition same_except (ipam ipam' : Ipam) (q : Prefix) (l : list Addr) : Prop :=
  (∀ x, refs ipam' x = refs ipam x) ∧
  ∀ x, addrs ipam' x = if decide (x = q) then l else addrs ipam x.

Lemma same_except_refl ipam q : same_except ipam ipam q (addrs ipam q).
Proof. split; [done|]. intros x. case_decide; by subst. Qed.

Section address_specs.
Context (clock : nat → Z) (ps : list Prefix).

Definition ip_acquire_spec (ipam : Ipam) (q : Prefix)
    (res : result core_error (option Addr)) (ipam' : Ipam) : Prop :=
  match res with
  | Err e => e = NotInRoots q ∧ ¬ in_pools ps q ∧ ipam' = ipam
  | Ok None =>
    in_pools ps q ∧ same_except ipam ipam' q (addrs ipam q) ∧
    (acquired ipam q → ∀ b, Contains q b = true → b ∈ addrs ipam q)
  | Ok (Some b) =>
    acquired ipam q ∧ Contains q b = true ∧ b ∉ addrs ipam q ∧
    same_except ipam ipam' q (addrs ipam q ++ [b])
  end.

Lemma IPAcquire_spec ipam q τ : ipam_ok ps ipam → valid_prefix q →
  wp (IPAcquire clock ipam q) τ
     (fun '(res, ipam') _ => ipam_ok ps ipam' ∧ ip_acquire_spec ipam q res ipam').
Proof.
  intros Hok Hq. unfold IPAcquire. pose proof (Ipam_search_spec ps ipam q Hok Hq) as Hs.
  destruct (Ipam_search ipam q) as [[[i n]|]|e].
  - destruct Hs as (Hin & Hn & Hrc & Hh & Hwr). pose proof (ok_wf4 _ _ Hn) as Hq4.
    apply wp_bind. eapply wp_mono; [by apply (ipAcquire_spec clock q)|].
    intros [res n'] τ' (Hn' & Hrc' & Hres). apply wp_ret.
    destruct (Hwr n' Hn' Hrc') as (Hok' & Hrcs & Hhs). split; [done|].
    unfold added in Hres.
    destruct res as [b|]; rewrite (isAcquired_refs ipam q), ?Hh in Hres by done.
    + destruct Hres as (Hacq & Hc & Hfr & Ha). split_and!; auto.
      split; [done|]. intros x. by rewrite Hhs, Ha.
    + destruct Hres as (Ha & Hfull). split_and!; auto. split; [done|].
      intros x. by rewrite Hhs, Ha.
  - destruct Hs as (Hin & Hz & Hh). apply wp_ret. split; [done|].
    split_and!; [done|apply same_except_refl|done].
  - destruct Hs as (-> & Hno). by apply wp_ret.
Qed.

Definition ip_acquire_addr_spec (ipam : Ipam) (q : Prefix) (a : Addr)
    (res : result core_error (option Addr)) (ipam' : Ipam) : Prop :=
  match res with
  | Ok (Some b) =>
    b = a ∧ acquired ipam q ∧ Contains q a = true ∧ a ∉ addrs ipam q ∧
    same_except ipam ipam' q (addrs ipam q ++ [a])
  | _ =>
    ¬ (acquired ipam q ∧ Contains q a = true ∧ a ∉ addrs ipam q) ∧
    same_except ipam ipam' q (addrs ipam q)
  end.

Lemma IPAcquireWithAddr_spec ipam q a τ : ipam_ok ps ipam → valid_prefix q → valid_addr a →
  wp (IPAcquireWithAddr clock ipam q a) τ
     (fun '(res, ipam') _ => ipam_ok ps ipam' ∧ ip_acquire_addr_spec ipam q a res ipam').
Proof.
  intros Hok Hq Ha. unfold IPAcquireWithAddr.
  destruct (Contains q a) eqn:Hc; cbn [negb].
  2:{ apply wp_ret. split; [done|]. split; [by rewrite Hc; naive_solver|apply same_except_refl]. }
  pose proof (Ipam_search_spec ps ipam q Hok Hq) as Hs.
  destruct (Ipam_search ipam q) as [[[i n]|]|e].
  - destruct Hs as (Hin & Hn & Hrc & Hh & Hwr). pose proof (ok_wf4 _ _ Hn) as Hq4.
    apply wp_bind. eapply wp_mono; [by apply (allocateIPWithAddr_spec clock q)|].
    intros [res n'] τ' (Hn' & Hrc' & Hres). apply wp_ret.
    destruct (Hwr n' Hn' Hrc') as (Hok' & Hrcs & Hhs). split; [done|].
    unfold added in Hres.
    destruct res as [b|]; rewrite (isAcquired_refs ipam q), ?Hh in Hres by done.
    + destruct Hres as (-> & Hacq & _ & Hfr & Hi). split_and!; auto. split; [done|].
      intros x. by rewrite Hhs, Hi.
    + destruct Hres as (-> & Hno). split; [naive_solver|]. split; [done|].
      intros x. by rewrite Hhs, Hh.
  - destruct Hs as (_ & Hz & _). apply wp_ret. split; [done|].
    split; [naive_solver|apply same_except_refl].
  - destruct Hs as (_ & Hno). apply wp_ret. split; [done|].
    split; [|apply same_except_refl]. intros (Hacq & _). apply Hno.
    by destruct (roots_rc_in ps (roots ipam) q (ro_wf _ _ Hok) Hacq).
Qed.

Definition ip_release_spec (ipam : Ipam) (q : Prefix) (a : Addr)
    (res : result core_error (option Addr)) (ipam' : Ipam) : Prop :=
  match res with
  | Ok (Some b) =>
    b = a ∧ acquired ipam q ∧ a ∈ addrs ipam q ∧
    ∃ l, same_except ipam ipam' q l ∧ a ∉ l ∧ (∀ b', b' ≠ a → b' ∈ l ↔ b' ∈ addrs ipam q)
  | _ => same_except ipam ipam' q (addrs ipam q)
  end.

Lemma IPRelease_spec ipam q a g τ : ipam_ok ps ipam → valid_prefix q → valid_addr a →
  wp (IPRelease clock ipam q a g) τ
     (fun '(res, ipam') _ => ipam_ok ps ipam' ∧ ip_release_spec ipam q a res ipam').
Proof.
  intros Hok Hq Ha. unfold IPRelease. pose proof (Ipam_search_spec ps ipam q Hok Hq) as Hs.
  destruct (Ipam_search ipam q) as [[[i n]|]|e];
    [|apply wp_ret; split; [done|apply same_except_refl]..].
  destruct Hs as (Hin & Hn & Hrc & Hh & Hwr). pose proof (ok_wf4 _ _ Hn) as Hq4.
  apply wp_bind. eapply wp_mono; [by apply (ipRelease_spec clock q)|].
  intros [res n'] τ' (Hn' & Hrc' & Hres). apply wp_ret.
  destruct (Hwr n' Hn' Hrc') as (Hok' & Hrcs & Hhs). split; [done|].
  destruct res as [b|]; rewrite (isAcquired_refs ipam q), ?Hh in Hres by done.
  - destruct Hres as (-> & Hacq & Hi & Hni & Hoth). split_and!; auto. exists (addr <$> ips n').
    by split_and!.
  - destruct Hres as (-> & _). split; [done|]. intros x. by rewrite Hhs, Hh.
Qed.
End address_specs.

(** ** Building, listing, availability *)

Lemma check_host_bits_ok pools :
  check_host_bits pools = None ↔ ∀ p, p ∈ pools → checkHostBitsZero p = None.
Proof.
  induction pools as [|p ps IH]; simpl.
  - split; [intros _ p Hp; by apply not_elem_of_nil in Hp|done].
  - setoid_rewrite elem_of_cons. destruct (checkHostBitsZero p) eqn:E; [|naive_solver].
    split; [done|]. intros H. by rewrite (H p) in E by auto.
Qed.

Lemma check_overlap_with_ok p qs :
  check_overlap_with p qs = None ↔ ∀ q, q ∈ qs → Overlaps p q = false.
Proof.
  induction qs as [|q qs IH]; simpl.
  - split; [intros _ q Hq; by apply not_elem_of_nil in Hq|done].
  - setoid_rewrite elem_of_cons. destruct (Overlaps p q) eqn:E; [|naive_solver].
    split; [done|]. intros H. by rewrite (H q) in E by auto.
Qed.

Lemma check_overlaps_ok pools : check_overlaps pools = None ↔ disjoint_pools pools.
Proof.
  induction pools as [|p ps IH]; simpl; [done|]. rewrite <- check_overlap_with_ok.
  destruct (check_overlap_with p ps); naive_solver.
Qed.

Lemma checkRoots_ok pools : checkRoots pools = None ↔
  (∀ p, p ∈ pools → checkHostBitsZero p = None) ∧ disjoint_pools pools.
Proof.
  unfold checkRoots. rewrite <- check_host_bits_ok, <- check_overlaps_ok.
  destruct (check_host_bits pools); naive_solver.
Qed.

(** An IPv4 prefix as the configuration gives it. *)
Definition pool_text (p : Prefix) : Prop := valid_prefix p ∧ bitlen (pAddr p) = 32.

Section new.
Context (clock : nat → Z).

Lemma new_roots_spec pools τ : (∀ p, p ∈ pools → wf4 p) →
  wp (new_roots clock pools) τ (fun ts _ => Forall2 wf pools ts ∧ ∀ x, roots_rc ts x = 0).
Proof.
  revert τ. induction pools as [|p ps IH]; intros τ Hp; cbn [new_roots]; [by apply wp_ret|].
  unfold newNode. wp_steps. eapply wp_mono; [apply IH; intros; apply Hp; by right|].
  intros ts τ' [Hw Hz]. apply wp_ret. split.
  - constructor; [|done]. apply wf_fresh, Hp. left.
  - intros x. specialize (Hz x). unfold roots_rc in *. simpl. case_decide; simpl; [|].
    + by destruct (roots_at ts x).
    + by destruct (roots_at ts x).
Qed.

Lemma NewIpam_spec pools τ : (∀ p, p ∈ pools → pool_text p) →
  wp (NewIpam clock pools) τ (fun res _ =>
    match res with
    | Ok ipam => ipam_ok pools ipam ∧ ∀ x, refs ipam x = 0
    | Err e => checkRoots pools = Some e
    end).
Proof.
  intros Hp. unfold NewIpam. destruct (checkRoots pools) eqn:E; [by apply wp_ret|].
  apply checkRoots_ok in E as [Hh Hd]. apply wp_bind.
  eapply wp_mono; [apply new_roots_spec|].
  - intros p Hin. destruct (Hp p Hin). apply checkHostBitsZero_inv; auto.
  - intros ts τ' [Hw Hz]. apply wp_ret. by split.
Qed.
End new.

Lemma ListNetworks_roots ps ts : roots_ok ps ts →
  (∀ q, q ∈ ListNetworks (mkIpam ts) ↔ roots_rc ts q ≠ 0) ∧ NoDup (ListNetworks (mkIpam ts)).
Proof.
  unfold ListNetworks. cbn [roots]. revert ps. induction ts as [|t ts IH]; intros ps Hok.
  { split; [|constructor]. intros q. split; [by intros ?%not_elem_of_nil|done]. }
  destruct ps as [|p ps]; [destruct Hok as [Hw _]; inversion Hw|].
  apply disjoint_cons in Hok as (Hw & Hok & Hd). pose proof (ro_wf _ _ Hok) as Hws.
  destruct (IH ps Hok) as [IHm IHn]. destruct (listNetworks_spec p t Hw) as [Hm Hn].
  cbn [foldr]. split.
  - intros q. rewrite elem_of_app, Hm, IHm, (roots_rc_cons p t ps ts) by done.
    pose proof (rc_apart p t ps ts Hw Hws Hd q). lia.
  - apply NoDup_app. split_and!; [done| |done]. intros q.
    rewrite Hm, IHm. pose proof (rc_apart p t ps ts Hw Hws Hd q). lia.
Qed.

(** What the list of networks holds. *)
Lemma ListNetworks_spec ps ipam : ipam_ok ps ipam →
  (∀ q, q ∈ ListNetworks ipam ↔ acquired ipam q) ∧ NoDup (ListNetworks ipam).
Proof. destruct ipam as [ts]. apply ListNetworks_roots. Qed.

Lemma available_roots_sound ps ts q : roots_ok ps ts → wf4 q →
  (∀ p, p ∈ ps → roots_rc ts p = 0) →
  available_roots q ts = true → in_pools ps q ∧ can_acquire (roots_rc ts) q true.
Proof.
  revert ps. induction ts as [|t ts IH]; intros ps Hok Hq Hz; [done|].
  destruct ps as [|p ps]; [destruct Hok as [Hw _]; inversion Hw|].
  apply disjoint_cons in Hok as (Hw & Hok & Hd). pose proof (ro_wf _ _ Hok) as Hws.
  pose proof (wf_wf4 _ _ Hw) as Hp.
  cbn [available_roots]. rewrite (root_prefix_wf p) by done.
  destruct (isPrefixChildOf p q) eqn:Hc; intros Ha.
  - apply isPrefixChildOf_spec in Hc as Hu; auto with liqo.
    split; [apply in_pools_cons; auto|]. rewrite (can_acquire_head p t ps) by done.
    apply (networkIsAvailable_sound p t q); auto.
    specialize (Hz p ltac:(left)). rewrite (roots_rc_cons p t ps ts) in Hz by done.
    pose proof (rc_apart p t ps ts Hw Hws Hd p). lia.
  - destruct (IH ps Hok Hq) as [Hin Hca]; [|done|].
    + intros p' Hin. specialize (Hz p' ltac:(by right)).
      rewrite (roots_rc_cons p t ps ts) in Hz by done.
      pose proof (rc_apart p t ps ts Hw Hws Hd p'). lia.
    + split; [apply in_pools_cons; auto|]. by rewrite (can_acquire_tail p t ps).
Qed.

(** Membership in the pools, as the code tests it. *)
Lemma IsPrefixInRoots_spec ps ipam q : ipam_ok ps ipam → valid_prefix q →
  IsPrefixInRoots ipam q = true ↔ in_pools ps q.
Proof.
  intros [Hw _] Hq. unfold IsPrefixInRoots.
  induction Hw as [|p t ps ts Hw Hws IH]; simpl.
  - split; [done|]. intros (p & Hp & _). by apply not_elem_of_nil in Hp.
  - rewrite in_pools_cons, orb_true_iff, IH, (root_prefix_wf p) by done.
    rewrite isPrefixChildOf_spec by eauto using wf_wf4. done.
Qed.

(** ** The IPAM as a transition system *)

Inductive op :=
| OAcquireSize (size : Z) (exclusive : bool)
| OAcquirePrefix (p : Prefix) (exclusive : bool)
| ORelease (p : Prefix) (gracePeriod : Z)
| OIPAcquire (p : Prefix)
| OIPAcquireAddr (p : Prefix) (a : Addr)
| OIPRelease (p : Prefix) (a : Addr) (gracePeriod : Z).

Inductive reply :=
| RNet (res : option Prefix)
| RIP (res : result core_error (option Addr)).

Definition run_op (clock : nat → Z) (ipam : Ipam) (o : op) : M (reply * Ipam) :=
  match o with
  | OAcquireSize s ex => '(r, i) ← NetworkAcquire clock ipam s ex; mret (RNet r, i)
  | OAcquirePrefix p ex => '(r, i) ← NetworkAcquireWithPrefix clock ipam p ex; mret (RNet r, i)
  | ORelease p g => '(r, i) ← NetworkRelease clock ipam p g; mret (RNet r, i)
  | OIPAcquire p => '(r, i) ← IPAcquire clock ipam p; mret (RIP r, i)
  | OIPAcquireAddr p a => '(r, i) ← IPAcquireWithAddr clock ipam p a; mret (RIP r, i)
  | OIPRelease p a g => '(r, i) ← IPRelease clock ipam p a g; mret (RIP r, i)
  end.

(** The arguments callers can build: parsed prefixes and addresses; a length
    an IPv4 pool can have. *)
Definition op_valid (o : op) : Prop :=
  match o with
  | OAcquireSize s _ => s ≤ 32
  | OAcquirePrefix p _ | ORelease p _ | OIPAcquire p => valid_prefix p
  | OIPAcquireAddr p a | OIPRelease p a _ => valid_prefix p ∧ valid_addr a
  end.

(** The abstract machine: counters and addresses per prefix. *)
Record astate := mkA { a_refs : Prefix → Z; a_addrs : Prefix → list Addr }.
Definition abs (ipam : Ipam) : astate := mkA (refs ipam) (addrs ipam).

Definition a_acquired (s : astate) (q : Prefix) : Prop := a_refs s q ≠ 0.
Definition a_same (s s' : astate) : Prop :=
  (∀ x, a_refs s' x = a_refs s x) ∧ (∀ x, a_acquired s' x → a_addrs s' x = a_addrs s x).
(** The counter of [q] changes by [d]; acquired networks keep their addresses. *)
Definition a_count (s s' : astate) (q : Prefix) (d : Z) : Prop :=
  (∀ x, a_refs s' x = a_refs s x + if decide (x = q) then d else 0) ∧
  (∀ x, a_acquired s' x → a_addrs s' x = a_addrs s x).
(** The addresses of [q] become [l]. *)
Definition a_ips (s s' : astate) (q : Prefix) (l : list Addr) : Prop :=
  (∀ x, a_refs s' x = a_refs s x) ∧
  ∀ x, a_addrs s' x = if decide (x = q) then l else a_addrs s x.

Inductive a_step (ps : list Prefix) (s : astate) : op → reply → astate → Prop :=
| A_size size ex q s' :
    pBits q = size → wf4 q → in_pools ps q → can_acquire (a_refs s) q true →
    a_count s s' q (acquire_delta ex) →
    a_step ps s (OAcquireSize size ex) (RNet (Some q)) s'
| A_size_none size ex s' : a_same s s' → a_step ps s (OAcquireSize size ex) (RNet None) s'
| A_prefix q ex s' :
    wf4 q → in_pools ps q → can_acquire (a_refs s) q ex → a_count s s' q (acquire_delta ex) →
    a_step ps s (OAcquirePrefix q ex) (RNet (Some q)) s'
| A_prefix_none q ex s' :
    ¬ (wf4 q ∧ in_pools ps q ∧ can_acquire (a_refs s) q ex) → a_same s s' →
    a_step ps s (OAcquirePrefix q ex) (RNet None) s'
| A_release q g s' :
    a_acquired s q → a_count s s' q (release_delta (a_refs s q)) →
    a_step ps s (ORelease q g) (RNet (Some q)) s'
| A_release_none q g s' : a_same s s' → a_step ps s (ORelease q g) (RNet None) s'
| A_ip q b s' :
    a_acquired s q → Contains q b = true → b ∉ a_addrs s q →
    a_ips s s' q (a_addrs s q ++ [b]) → a_step ps s (OIPAcquire q) (RIP (Ok (Some b))) s'
| A_ip_none q s' :
    in_pools ps q → (a_acquired s q → ∀ b, Contains q b = true → b ∈ a_addrs s q) →
    a_ips s s' q (a_addrs s q) → a_step ps s (OIPAcquire q) (RIP (Ok None)) s'
| A_ip_err q e s' :
    ¬ in_pools ps q → a_ips s s' q (a_addrs s q) → a_step ps s (OIPAcquire q) (RIP (Err e)) s'
| A_addr q a s' :
    a_acquired s q → Contains q a = true → a ∉ a_addrs s q →
    a_ips s s' q (a_addrs s q ++ [a]) → a_step ps s (OIPAcquireAddr q a) (RIP (Ok (Some a))) s'
| A_addr_none q a r s' :
    (∀ b, r ≠ Ok (Some b)) → ¬ (a_acquired s q ∧ Contains q a = true ∧ a ∉ a_addrs s q) →
    a_ips s s' q (a_addrs s q) → a_step ps s (OIPAcquireAddr q a) (RIP r) s'
| A_free q a g l s' :
    a_acquired s q → a ∈ a_addrs s q → a ∉ l → (∀ b, b ≠ a → b ∈ l ↔ b ∈ a_addrs s q) →
    a_ips s s' q l → a_step ps s (OIPRelease q a g) (RIP (Ok (Some a))) s'
| A_free_none q a g r s' :
    (∀ b, r ≠ Ok (Some b)) → a_ips s s' q (a_addrs s q) →
    a_step ps s (OIPRelease q a g) (RIP r) s'.
