(* ===== verification/IpamSafe.v ===== *)
(** * IpamSafe: what the IPAM core guarantees

    The simulation of the core by the abstract machine of [IpamSpec], the
    invariants of the reachable states, and the properties of single
    operations that follow. *)

From S2P Require Export IpamSpec.
Local Open Scope Z_scope.

(** An exclusive network overlaps no other acquired network. *)
Definition exclusive_ok (f : Prefix → Z) : Prop :=
  ∀ x y, x ≠ y → f x = -1 → f y ≠ 0 → Overlaps x y = false.

Lemma Overlaps_comm x y : wf4 x → wf4 y → Overlaps x y = Overlaps y x.
Proof.
  intros Hx Hy. apply eq_true_iff_eq. rewrite !Overlaps_under by done. tauto.
Qed.

Section sim.
Context (clock : nat → Z) (ps : list Prefix).

Lemma same_except_ips ipam ipam' q l :
  same_except ipam ipam' q l ↔ a_ips (abs ipam) (abs ipam') q l.
Proof. done. Qed.

(** Each operation returns, keeps the invariant and is a step of the abstract
    machine. *)
Lemma run_op_sim ipam o τ : ipam_ok ps ipam → op_valid o →
  wp (run_op clock ipam o) τ
     (fun '(rep, ipam') _ => ipam_ok ps ipam' ∧ a_step ps (abs ipam) o rep (abs ipam')).
Proof.
  intros Hok Hv. destruct o as [size ex|q ex|q g|q|q a|q a g]; simpl in Hv |- *.
  - unfold NetworkAcquire. do 2 apply wp_bind.
    eapply wp_mono; [by apply (acquire_size_roots_spec clock ps)|].
    intros [[q|] ts'] τ' H; do 2 apply wp_ret.
    + destruct H as (Hb & Hc & Hw & Hh & _ & Hq & Hin & _ & Hrc).
      split; [by split; [|apply Hok]|]. apply A_size; auto. split; [exact Hrc|intros x _; apply Hh].
    + destruct H as (Hw & Hh & Hrc). split; [by split; [|apply Hok]|]. apply A_size_none.
      split; [exact Hrc|intros x _; apply Hh].
  - unfold NetworkAcquireWithPrefix. do 2 apply wp_bind.
    eapply wp_mono; [by apply (acquire_prefix_roots_spec clock ps)|].
    intros [[q'|] ts'] τ' H; do 2 apply wp_ret.
    + destruct H as (Hw & Hh & -> & Hq & Hin & Hc & Hrc).
      split; [by split; [|apply Hok]|]. apply A_prefix; auto. split; [exact Hrc|intros x _; apply Hh].
    + destruct H as (Hw & Hh & Hno & Hrc). split; [by split; [|apply Hok]|].
      apply A_prefix_none; auto. split; [exact Hrc|intros x _; apply Hh].
  - unfold NetworkRelease. do 2 apply wp_bind.
    eapply wp_mono; [by apply (release_roots_spec clock ps)|].
    intros [res ts'] τ' (Hw & Hh & -> & Hrc); do 2 apply wp_ret.
    split; [by split; [|apply Hok]|]. case_match eqn:Hrel.
    + apply A_release; [|done]. unfold a_acquired. cbn. unfold refs, roots_rc.
      destruct (roots_at (roots ipam) q); [|done]. apply andb_true_iff in Hrel as [Ha _].
      unfold isAcquired in Ha. by apply negb_true_iff, Z.eqb_neq in Ha.
    + apply A_release_none. split; [|done]. intros x. cbn. unfold refs. rewrite Hrc.
      case_decide; lia.
  - apply wp_bind. eapply wp_mono; [by apply (IPAcquire_spec clock ps)|].
    intros [[[b|]|e] ipam'] τ' [Hok' H]; apply wp_ret; (split; [done|]).
    + destruct H as (? & ? & ? & ?). by apply A_ip.
    + destruct H as (? & ? & ?). by apply A_ip_none.
    + destruct H as (_ & ? & ->). apply A_ip_err; [done|]. apply same_except_refl.
  - destruct Hv as [Hq Ha]. apply wp_bind.
    eapply wp_mono; [by apply (IPAcquireWithAddr_spec clock ps)|].
    intros [[[b|]|e] ipam'] τ' [Hok' H]; apply wp_ret; (split; [done|]).
    + destruct H as (-> & ? & ? & ? & ?). by apply A_addr.
    + destruct H. by apply A_addr_none.
    + destruct H. by apply A_addr_none.
  - destruct Hv as [Hq Ha]. apply wp_bind.
    eapply wp_mono; [by apply (IPRelease_spec clock ps)|].
    intros [[[b|]|e] ipam'] τ' [Hok' H]; apply wp_ret; (split; [done|]).
    + destruct H as (-> & ? & ? & l & ? & ? & ?). by apply (A_free _ _ _ _ _ l).
    + by apply A_free_none.
    + by apply A_free_none.
Qed.

(** Counters are -1 or more, and nonzero only on masked prefixes. *)
Lemma refs_shape ipam x : ipam_ok ps ipam → -1 ≤ refs ipam x ∧ (refs ipam x ≠ 0 → wf4 x).
Proof.
  intros [Hw _]. split; [|by intros []%(roots_rc_in ps)].
  unfold refs, roots_rc. destruct (roots_at _ x) eqn:E; [|lia].
  by destruct (roots_at_in ps _ _ _ Hw E) as ([] & _).
Qed.

Lemma a_step_exclusive ipam o rep ipam' :
  ipam_ok ps ipam → ipam_ok ps ipam' → exclusive_ok (refs ipam) →
  a_step ps (abs ipam) o rep (abs ipam') → exclusive_ok (refs ipam').
Proof.
  intros Hok Hok' He Hs.
  assert (Hacq : ∀ q ex, wf4 q → can_acquire (refs ipam) q ex →
    a_count (abs ipam) (abs ipam') q (acquire_delta ex) → exclusive_ok (refs ipam')).
  { intros q ex Hq Hc [Hrc _] x y Hne Hx Hy. cbn in Hrc.
    destruct (refs_shape ipam x Hok) as [Hsx _]. destruct (refs_shape ipam' y Hok') as [_ Hyw].
    rewrite Hrc in Hx, Hy. destruct (decide (x = q)) as [->|Hxq].
    - rewrite decide_False in Hy by done. rewrite Overlaps_comm by (done || apply Hyw; rewrite Hrc, decide_False; done).
      apply not_true_iff_false. intros Ho. specialize (Hc y ltac:(lia) Ho).
      destruct ex; [done|]. cbn in Hx. lia.
    - rewrite Z.add_0_r in Hx. destruct (decide (y = q)) as [->|Hyq]; [|apply He; auto; lia].
      apply not_true_iff_false. intros Ho. specialize (Hc x ltac:(lia) Ho). by destruct ex. }
  assert (Hsame : (∀ x, refs ipam' x = refs ipam x) → exclusive_ok (refs ipam')).
  { intros Hrc x y. rewrite !Hrc. apply He. }
  inversion Hs as [? ? ? ? ? ? ? Hc Hct|? ? ? [Hrc _]|? ? ? ? ? Hc Hct|? ? ? _ [Hrc _]
    |q ? ? Ha [Hrc _]|? ? ? [Hrc _]|? ? ? ? ? ? [Hrc _]|? ? ? ? [Hrc _]|? ? ? ? [Hrc _]
    |? ? ? ? ? ? [Hrc _]|? ? ? ? ? ? [Hrc _]|? ? ? ? ? ? ? ? ? [Hrc _]|? ? ? ? ? ? [Hrc _]]; subst;
    try (by apply Hsame); [| by eapply Hacq |].
  - apply (Hacq q ex); auto. intros x Hx Ho. by destruct (Hc x Hx Ho).
  - intros x y Hne Hx Hy. cbn in Hrc, Ha. unfold a_acquired in Ha. cbn in Ha.
    rewrite Hrc in Hx, Hy. unfold release_delta in *.
    apply He; [done|..]; repeat case_decide; subst; destruct (Z.eqb_spec (refs ipam q) (-1)); lia.
Qed.
End sim.

(** Releasing undoes the counter change of acquiring. *)
Lemma release_cancels f q ex : wf4 q → -1 ≤ f q → can_acquire f q ex →
  release_delta (f q + acquire_delta ex) = - acquire_delta ex ∧ f q + acquire_delta ex ≠ 0.
Proof.
  intros Hq Hge Hc. specialize (Hc q).
  pose proof (proj2 (Overlaps_under q q Hq Hq) (or_introl (under_refl q Hq))) as Ho.
  unfold release_delta, acquire_delta. destruct ex.
  - destruct (decide (f q = 0)) as [->|Hne]; [done|]. by destruct (Hc Hne Ho).
  - destruct (decide (f q = 0)) as [->|Hne]; [done|]. specialize (Hc Hne Ho).
    destruct (Z.eqb_spec (f q + 1) (-1)); lia.
Qed.

(** States the daemon can be in: a fresh IPAM on valid pools, then any sequence
    of operations, at any times. *)
Inductive reachable (clock : nat → Z) (ps : list Prefix) : Ipam → Prop :=
| reach_new τ τ' ipam :
    (∀ p, p ∈ ps → pool_text p) → NewIpam clock ps τ = Ret (Ok ipam, τ') →
    reachable clock ps ipam
| reach_op ipam o τ τ' rep ipam' :
    reachable clock ps ipam → op_valid o → run_op clock ipam o τ = Ret (rep, ipam', τ') →
    reachable clock ps ipam'.

Lemma reachable_inv clock ps ipam : reachable clock ps ipam →
  ipam_ok ps ipam ∧ exclusive_ok (refs ipam).
Proof.
  induction 1 as [τ τ' ipam Hp Hrun|ipam o τ τ' rep ipam' _ [Hok He] Hv Hrun].
  - destruct (wp_run _ _ _ _ _ (NewIpam_spec clock ps τ Hp) Hrun) as [Hok Hz].
    split; [done|]. intros x y _ Hx. by rewrite Hz in Hx.
  - destruct (wp_run _ _ _ _ _ (run_op_sim clock ps ipam o τ Hok Hv) Hrun) as [Hok' Hs].
    split; [done|]. eapply (a_step_exclusive ps ipam); eassumption.
Qed.

(** ** Properties *)

(** C1: refinement.  On a well-formed IPAM every operation (acquire by size or
    by prefix, release, acquire and release of an address) with parsed
    arguments returns: it neither panics nor exhausts the recursion depth.  It
    keeps the invariant, and its reply and new state are those of the abstract
    machine, which only knows counters and address lists per prefix. *)
Theorem ipam_refines clock ps ipam o τ : ipam_ok ps ipam → op_valid o →
  ∃ rep ipam' τ', run_op clock ipam o τ = Ret (rep, ipam', τ') ∧
    ipam_ok ps ipam' ∧ a_step ps (abs ipam) o rep (abs ipam').
Proof.
  intros Hok Hv. destruct (wp_inv _ _ _ (run_op_sim clock ps ipam o τ Hok Hv))
    as ([rep ipam'] & τ' & Hrun & H). eauto 10.
Qed.

(** C2: in every reachable state an exclusively acquired network overlaps no
    other acquired network, shared or exclusive. *)
Theorem exclusive_never_overlaps clock ps ipam x y :
  reachable clock ps ipam → x ≠ y → refs ipam x = -1 → acquired ipam y →
  Overlaps x y = false.
Proof. intros [_ He]%reachable_inv. apply He. Qed.

(** C3: acquiring a given prefix succeeds exactly when the prefix is a masked
    prefix of a pool and no acquired network that overlaps it forbids it (any,
    for an exclusive request; an exclusive one, for a shared request).  On
    success only its counter moves, by -1 or +1; on failure no counter does. *)
Theorem acquire_prefix_iff clock ps ipam q ex τ :
  ipam_ok ps ipam → valid_prefix q →
  wp (NetworkAcquireWithPrefix clock ipam q ex) τ (fun '(res, ipam') _ =>
    (res = Some q ↔ wf4 q ∧ in_pools ps q ∧ can_acquire (refs ipam) q ex) ∧
    (res = Some q ∨ res = None) ∧
    (∀ x, refs ipam' x = refs ipam x +
       if decide (res = Some x) then acquire_delta ex else 0) ∧
    (∀ x, addrs ipam' x = addrs ipam x)).
Proof.
  intros Hok Hq. apply wp_bind.
  eapply wp_mono; [by apply (acquire_prefix_roots_spec clock ps)|].
  intros [[q'|] ts'] τ' H; apply wp_ret.
  - destruct H as (_ & Hh & -> & Hq4 & Hin & Hc & Hrc). split_and!; auto; [done|].
    intros x. unfold refs. rewrite Hrc. do 2 case_decide; naive_solver.
  - destruct H as (_ & Hh & Hno & Hrc). split_and!; auto; [naive_solver|].
    intros x. unfold refs. rewrite Hrc. case_decide; [done|]. lia.
Qed.

(** Releasing a network.  It succeeds exactly when the prefix is acquired
    and its last update is older than the grace period at the time of the call;
    then its counter moves one step towards free (an exclusive one becomes
    free), no other counter changes, and every network still acquired keeps its
    addresses. *)
Theorem release_exact clock ps ipam q g τ :
  ipam_ok ps ipam → valid_prefix q →
  wp (NetworkRelease clock ipam q g) τ (fun '(res, ipam') _ =>
    let ok := ∃ n, roots_at (roots ipam) q = Some n ∧ acquired ipam q ∧
                   lastUpdateTimestamp n + g < clock τ in
    ((res = Some q ∧ ok) ∨ (res = None ∧ ¬ ok)) ∧ ipam_ok ps ipam' ∧
    (∀ x, refs ipam' x = refs ipam x +
       if decide (res = Some x) then release_delta (refs ipam q) else 0) ∧
    (∀ x, acquired ipam' x → addrs ipam' x = addrs ipam x)).
Proof.
  intros Hok Hq. apply wp_bind. eapply wp_mono; [by apply (release_roots_spec clock ps)|].
  intros [res ts'] τ' (Hw & Hh & -> & Hrc). apply wp_ret. cbn zeta.
  assert (Hok' : ipam_ok ps (mkIpam ts')) by (split; [done|apply Hok]).
  unfold acquired, refs, roots_rc in *. destruct (roots_at (roots ipam) q) as [n|]; cbn beta iota in *.
  - unfold isAcquired in *. destruct (Z.eqb_spec (refCount n) 0) as [Hz|Hz]; cbn [negb andb] in *.
    + split_and!; [right; naive_solver|done| |done]. intros x. rewrite Hrc. case_decide; done.
    + destruct (Z.ltb_spec (lastUpdateTimestamp n + g) (clock τ)).
      * split_and!; [left; naive_solver|done| |done]. intros x. rewrite Hrc.
        do 2 case_decide; naive_solver.
      * split_and!; [right; split; [done|]; intros (m & [= <-] & _ & ?); lia|done| |done].
        intros x. rewrite Hrc. case_decide; done.
  - split_and!; [right; naive_solver|done| |done]. intros x. rewrite Hrc. case_decide; done.
Qed.

(** Allocating by size.  For a length up to /32 the call returns.  A
    network returned is a masked network of that length in a pool, it
    overlapped nothing acquired, and only its counter moves.  A failure changes
    no counter and means that every network of that length in the pools
    overlaps an acquired one or is still split in its tree. *)
Theorem acquire_size_complete clock ps ipam size ex τ :
  ipam_ok ps ipam → size ≤ 32 →
  wp (NetworkAcquire clock ipam size ex) τ (fun '(res, ipam') _ =>
    ipam_ok ps ipam' ∧
    match res with
    | Some q => pBits q = size ∧ wf4 q ∧ in_pools ps q ∧ can_acquire (refs ipam) q true ∧
                ∀ x, refs ipam' x = refs ipam x + if decide (x = q) then acquire_delta ex else 0
    | None => (∀ x, refs ipam' x = refs ipam x) ∧
              ∀ q, wf4 q → in_pools ps q → pBits q = size → can_acquire (refs ipam) q true →
                   is_Some (roots_at (roots ipam') (lchild q))
    end).
Proof.
  intros Hok Hs. apply wp_bind.
  eapply wp_mono; [apply wp_and; [apply (acquire_size_roots_spec clock ps)|
                                  apply (acquire_size_roots_exhausted clock ps)]; done|].
  intros [[q|] ts'] τ' [H HE]; apply wp_ret.
  - destruct H as (Hb & Hc & Hw & _ & _ & Hq & Hin & _ & Hrc).
    split; [by split; [|apply Hok]|]. done.
  - destruct H as (Hw & _ & Hrc). split; [by split; [|apply Hok]|]. split; [done|].
    by apply HE.
Qed.

(** Round trip.  Acquiring a prefix and then releasing it restores the
    counter of every prefix, and every network acquired afterwards has the
    addresses it had before. *)
Theorem acquire_release_roundtrip clock ps ipam q ex g τ τ1 τ2 τ3 ipam1 ipam2 :
  ipam_ok ps ipam → valid_prefix q →
  NetworkAcquireWithPrefix clock ipam q ex τ = Ret (Some q, ipam1, τ1) →
  NetworkRelease clock ipam1 q g τ2 = Ret (Some q, ipam2, τ3) →
  (∀ x, refs ipam2 x = refs ipam x) ∧ (∀ x, acquired ipam2 x → addrs ipam2 x = addrs ipam x).
Proof.
  intros Hok Hq Ha Hr.
  pose proof (run_op_sim clock ps ipam (OAcquirePrefix q ex) τ Hok Hq) as H1.
  unfold run_op, wp, mbind, M_bind in H1. rewrite Ha in H1. destruct H1 as [Hok1 H1].
  pose proof (run_op_sim clock ps ipam1 (ORelease q g) τ2 Hok1 Hq) as H2.
  unfold run_op, wp, mbind, M_bind in H2. rewrite Hr in H2. destruct H2 as [_ H2].
  inversion H1 as [| |? ? ? Hq4 Hin Hc [Hrc1 Ha1]| | | | | | | | | |]; subst.
  inversion H2 as [| | | |? ? ? Hacq [Hrc2 Ha2]| | | | | | | |]; subst. cbn in *.
  destruct (refs_shape ps ipam q Hok) as [Hge _].
  destruct (release_cancels (refs ipam) q ex Hq4 Hge Hc) as [Hcancel Hne].
  assert (Hfree : ∀ x, refs ipam2 x = refs ipam x).
  { intros x. rewrite Hrc2, !Hrc1. case_decide; [subst x|lia]. rewrite decide_True by done. lia. }
  split; [done|]. intros x Hx. rewrite Ha2, Ha1; [done| |done].
  unfold a_acquired, acquired in *. cbn in *. rewrite Hrc1. rewrite Hfree in Hx.
  case_decide; [by subst x|lia].
Qed.

(** C4: addresses.  In every reachable state the addresses recorded for a
    network are distinct and lie in it, the networks listed are the acquired
    ones, each once, and every acquired network lies in a pool. *)
Theorem reachable_consistent clock ps ipam :
  reachable clock ps ipam →
  (∀ q, NoDup (addrs ipam q) ∧ ∀ a, a ∈ addrs ipam q → Contains q a = true) ∧
  (∀ q, q ∈ ListNetworks ipam ↔ acquired ipam q) ∧ NoDup (ListNetworks ipam) ∧
  (∀ q, acquired ipam q → wf4 q ∧ in_pools ps q).
Proof.
  intros [Hok _]%reachable_inv. destruct (ListNetworks_spec ps ipam Hok) as [Hl Hn].
  split_and!; [|done|done|intros q; apply (roots_rc_in ps), Hok].
  intros q. unfold addrs, roots_held. destruct (roots_at (roots ipam) q) as [n|] eqn:E.
  - destruct (roots_at_in ps _ _ _ (ro_wf _ _ Hok) E) as ([_ _ _ Hc Hd _] & _ & _).
    split; [done|]. intros a (x & -> & Hx)%list_elem_of_fmap. auto.
  - split; [constructor|]. by intros a ?%not_elem_of_nil.
Qed.

(** Acquiring an address of an acquired network returns an address of that
    network that was free and records it, or, when every address of the network
    is taken, returns nothing; it never fails while one is free. *)
Theorem ip_acquire_total clock ps ipam q τ :
  ipam_ok ps ipam → valid_prefix q → acquired ipam q →
  wp (IPAcquire clock ipam q) τ (fun '(res, ipam') _ =>
    ipam_ok ps ipam' ∧ (∀ x, refs ipam' x = refs ipam x) ∧
    ((∃ b, res = Ok (Some b) ∧ Contains q b = true ∧ b ∉ addrs ipam q ∧
           addrs ipam' q = addrs ipam q ++ [b]) ∨
     (res = Ok None ∧ (∀ b, Contains q b = true → b ∈ addrs ipam q) ∧
      addrs ipam' q = addrs ipam q)) ∧
    (∀ x, x ≠ q → addrs ipam' x = addrs ipam x)).
Proof.
  intros Hok Hq Ha. eapply wp_mono; [by apply (IPAcquire_spec clock ps)|].
  intros [[[b|]|e] ipam'] τ' [Hok' H].
  - destruct H as (_ & Hc & Hf & Hrc & Hh). split_and!; [done|done| |].
    + left. exists b. rewrite Hh, decide_True by done. done.
    + intros x Hx. by rewrite Hh, decide_False.
  - destruct H as (_ & [Hrc Hh] & Hfull). split_and!; [done|done| |].
    + right. rewrite Hh, decide_True by done. auto.
    + intros x Hx. by rewrite Hh, decide_False.
  - destruct H as (_ & Hno & _). by destruct (roots_rc_in ps _ q (ro_wf _ _ Hok) Ha).
Qed.

(** Availability is sound below the pool prefixes: when no pool prefix is
    itself acquired, a masked network reported available overlaps nothing
    acquired, so it can be acquired exclusively. *)
Theorem available_sound clock ps ipam q τ :
  ipam_ok ps ipam → wf4 q → (∀ p, p ∈ ps → refs ipam p = 0) →
  NetworkIsAvailable ipam q = true →
  wp (NetworkAcquireWithPrefix clock ipam q true) τ (fun '(res, _) _ => res = Some q).
Proof.
  intros Hok Hq Hz Ha. destruct (available_roots_sound ps (roots ipam) q Hok Hq Hz Ha) as [Hin Hc].
  apply wp_bind. eapply wp_mono; [apply (acquire_prefix_roots_spec clock ps); auto with liqo|].
  intros [[q'|] ts'] τ' H; apply wp_ret; [by destruct H as (_ & _ & -> & _)|].
  destruct H as (_ & _ & Hno & _). by destruct Hno.
Qed.

(** Allocating by size with a length past /32 (an IPv6 length) panics as
    soon as the first pool is completely free, instead of returning an error:
    the descent splits a single address. *)
Theorem acquire_oversize_panics clock p t ts size ex τ :
  wf p t → free t → 32 < size →
  NetworkAcquire clock (mkIpam (t :: ts)) size ex τ = Panic.
Proof.
  intros Hw Hf Hs. unfold NetworkAcquire. cbn [roots acquire_size_roots].
  unfold mbind, M_bind. rewrite (allocateNetwork_oversize clock depth p); auto.
  unfold depth. pose proof (wf4_bits _ (wf_wf4 _ _ Hw)). lia.
Qed.

(** Splitting a masked IPv4 prefix shorter than /32, through the byte
    encoding, the bit flip and the textual form the code goes through, returns
    its two halves: one bit longer, disjoint, covering exactly the prefix. *)
Theorem split_network_halves p : wf4 p → pBits p < 32 →
  ∃ l r, splitNetworkPrefix p = Ret (l, r) ∧ wf4 l ∧ wf4 r ∧
    pBits l = pBits p + 1 ∧ pBits r = pBits p + 1 ∧ Overlaps l r = false ∧
    ∀ a, Contains p a = true ↔ Contains l a = true ∨ Contains r a = true.
Proof.
  intros Hp Hlt. exists (lchild p), (rchild p). rewrite splitNetworkPrefix_spec by done.
  pose proof (lchild_wf p Hp Hlt) as Hl. pose proof (rchild_wf p Hp Hlt) as Hr.
  split_and!; try done.
  - apply (under_siblings_disjoint p); auto using under_refl with liqo.
  - intros a. rewrite !Contains_range by done. cbn [lchild rchild pAddr pBits val].
    pose proof (half_pow p Hp Hlt) as H2. pose proof (half_pos p Hp Hlt).
    replace (32 - (pBits p + 1)) with (31 - pBits p) by lia. rewrite H2.
    split; [intros (? & ? & ?)|intros [(? & ? & ?)|(? & ? & ?)]; split_and!; auto; lia].
    destruct (Z.lt_ge_cases (val a) (val (pAddr p) + 2 ^ (31 - pBits p)));
      [left|right]; split_and!; auto; lia.
Qed.

(** ** Runs *)

(** A sequence of operations from a fresh IPAM. *)
Fixpoint run_ops (clock : nat → Z) (ipam : Ipam) (os : list op) (τ : nat) : outcome Ipam :=
  match os with
  | [] => Ret ipam
  | o :: os =>
    match run_op clock ipam o τ with
    | Ret (_, ipam', τ') => run_ops clock ipam' os τ'
    | Panic => Panic
    | Diverge => Diverge
    end
  end.

Definition run_from (clock : nat → Z) (pools : list Prefix) (os : list op) : outcome Ipam :=
  match NewIpam clock pools 0%nat with
  | Ret (Ok ipam, τ) => run_ops clock ipam os τ
  | _ => Panic
  end.

Lemma reachable_run clock ps os ipam :
  (∀ p, p ∈ ps → pool_text p) → (∀ o, o ∈ os → op_valid o) →
  run_from clock ps os = Ret ipam → reachable clock ps ipam.
Proof.
  unfold run_from. intros Hp Hv. destruct (NewIpam clock ps 0%nat) as [[[i0|e] τ0]| |] eqn:E0; try done.
  assert (H0 : reachable clock ps i0) by (eapply reach_new; eauto). clear E0.
  revert i0 τ0 H0 Hv. induction os as [|o os IH]; intros i τ Hi Hv; simpl.
  - by intros [= <-].
  - destruct (run_op clock i o τ) as [[[rep i'] τ']| |] eqn:E; try done.
    apply IH; [|intros; apply Hv; by right].
    eapply reach_op; [exact Hi| |exact E]. apply Hv. left.
Qed.

Definition ip4 (a b c d : Z) : Addr := AddrFrom4 (((a * 256 + b) * 256 + c) * 256 + d).
Definition net4 (a b c d n : Z) : Prefix := mkPrefix (ip4 a b c d) n.
Definition ticks (n : nat) : Z := Z.of_nat n.

Lemma net4_wf4 v n : bool_decide (0 ≤ v < 2 ^ 32 ∧ 0 ≤ n ≤ 32 ∧ v mod 2 ^ (32 - n) = 0) = true →
  wf4 (mkPrefix (AddrFrom4 v) n).
Proof. intros (? & ? & ?)%bool_decide_eq_true. by apply wf4_mk. Qed.

Lemma example_pool : ∀ p, p ∈ [net4 10 0 0 0 8] → pool_text p.
Proof.
  intros p ->%list_elem_of_singleton. split; [|done].
  apply wf4_valid. by apply net4_wf4.
Qed.

(** Acquire 10.0.0.0/9, release it 1000 ticks later with a grace period of 100
    ticks, then acquire the whole pool. *)
Definition linger_ops : list op :=
  [OAcquirePrefix (net4 10 0 0 0 9) false; ORelease (net4 10 0 0 0 9) 100;
   OAcquirePrefix (net4 10 0 0 0 8) true].
Definition late_ticks (n : nat) : Z := if (n <? 4)%nat then ticks n else 1000 + ticks n.

(** A run that holds an exclusive and a shared network and two addresses. *)
Definition example_ops : list op :=
  [OAcquirePrefix (net4 10 1 0 0 16) true; OAcquirePrefix (net4 10 2 0 0 16) false;
   OAcquireSize 16 true; OIPAcquire (net4 10 1 0 0 16); OIPAcquire (net4 10 1 0 0 16)].

Definition state_of (o : outcome Ipam) : Ipam := match o with Ret i => i | _ => mkIpam [] end.
Definition example_state : Ipam := state_of (run_from ticks [net4 10 0 0 0 8] example_ops).
Definition linger_state : Ipam := state_of (run_from late_ticks [net4 10 0 0 0 8] linger_ops).

Lemma op_valid_all os :
  forallb (fun o => match o with
                    | OAcquireSize s _ => s <=? 32
                    | OAcquirePrefix (mkPrefix (mkAddr l v z) n) _
                    | ORelease (mkPrefix (mkAddr l v z) n) _
                    | OIPAcquire (mkPrefix (mkAddr l v z) n) =>
                      bool_decide (l = 32 ∧ z = ""%string ∧ 0 ≤ v < 2 ^ 32 ∧ 0 ≤ n ≤ 32)
                    | _ => false
                    end) os = true → ∀ o, o ∈ os → op_valid o.
Proof.
  rewrite forallb_true_iff. intros H o Ho. specialize (H o Ho).
  destruct o as [s ex|[[l v z] n] ex|[[l v z] n] g|[[l v z] n]|p a|p a g]; try done; simpl.
  - by apply Z.leb_le.
  - apply bool_decide_eq_true in H as (-> & -> & ? & ?). split; simpl; auto.
  - apply bool_decide_eq_true in H as (-> & -> & ? & ?). split; simpl; auto.
  - apply bool_decide_eq_true in H as (-> & -> & ? & ?). split; simpl; auto.
Qed.

Lemma example_reachable : reachable ticks [net4 10 0 0 0 8] example_state.
Proof.
  apply (reachable_run _ _ example_ops); [apply example_pool| |vm_compute; reflexivity].
  by apply op_valid_all.
Qed.

Lemma linger_reachable : reachable late_ticks [net4 10 0 0 0 8] linger_state.
Proof.
  apply (reachable_run _ _ linger_ops); [apply example_pool| |vm_compute; reflexivity].
  by apply op_valid_all.
Qed.

Lemma example_ok : ipam_ok [net4 10 0 0 0 8] example_state.
Proof. eapply reachable_inv, example_reachable. Qed.

Lemma fresh_ok : ipam_ok [net4 10 0 0 0 8]
  (state_of (run_from ticks [net4 10 0 0 0 8] [])).
Proof.
  eapply reachable_inv, (reachable_run ticks _ []); [apply example_pool| |reflexivity].
  by intros o ?%not_elem_of_nil.
Qed.

(** The availability check ignores that a pool is itself acquired when its
    tree is still split: after a network of the pool is released within its
    grace period and the whole pool is acquired exclusively, half of the pool is
    still reported available, and acquiring it fails. *)
Theorem available_ignores_acquired_pool :
  reachable late_ticks [net4 10 0 0 0 8] linger_state ∧
  refs linger_state (net4 10 0 0 0 8) = -1 ∧
  Overlaps (net4 10 0 0 0 8) (net4 10 128 0 0 9) = true ∧
  NetworkIsAvailable linger_state (net4 10 128 0 0 9) = true ∧
  ∃ ipam' τ', NetworkAcquireWithPrefix late_ticks linger_state (net4 10 128 0 0 9) true 50%nat
              = Ret (None, ipam', τ').
Proof.
  split; [apply linger_reachable|]. split_and!; [by vm_compute..|].
  eexists _, _. vm_compute. reflexivity.
Qed.

(** ** Witnesses *)

Lemma ipam_refines_witness : ∃ rep ipam' τ',
  run_op ticks example_state (OAcquireSize 20 false) 40%nat = Ret (rep, ipam', τ') ∧
  ipam_ok [net4 10 0 0 0 8] ipam' ∧
  a_step [net4 10 0 0 0 8] (abs example_state) (OAcquireSize 20 false) rep (abs ipam').
Proof. apply ipam_refines; [exact example_ok|simpl; lia]. Defined.

Lemma exclusive_never_overlaps_witness :
  Overlaps (net4 10 1 0 0 16) (net4 10 2 0 0 16) = false.
Proof.
  apply (exclusive_never_overlaps ticks [net4 10 0 0 0 8] example_state);
    [exact example_reachable|vm_compute; discriminate|vm_compute; reflexivity|vm_compute; discriminate].
Defined.

Lemma acquire_prefix_iff_witness :
  wp (NetworkAcquireWithPrefix ticks example_state (net4 10 4 0 0 14) true) 40%nat
    (fun '(res, ipam') _ =>
      (res = Some (net4 10 4 0 0 14) ↔ wf4 (net4 10 4 0 0 14) ∧ in_pools [net4 10 0 0 0 8] (net4 10 4 0 0 14)
         ∧ can_acquire (refs example_state) (net4 10 4 0 0 14) true) ∧
      (res = Some (net4 10 4 0 0 14) ∨ res = None) ∧
      (∀ x, refs ipam' x = refs example_state x +
         if decide (res = Some x) then acquire_delta true else 0) ∧
      (∀ x, addrs ipam' x = addrs example_state x)).
Proof.
  apply (acquire_prefix_iff ticks [net4 10 0 0 0 8]); [exact example_ok|].
  apply wf4_valid. by apply net4_wf4.
Defined.

Lemma release_exact_witness :
  wp (NetworkRelease ticks example_state (net4 10 1 0 0 16) 0) 40%nat (fun '(res, ipam') _ =>
    let ok := ∃ n, roots_at (roots example_state) (net4 10 1 0 0 16) = Some n ∧
                   acquired example_state (net4 10 1 0 0 16) ∧
                   lastUpdateTimestamp n + 0 < ticks 40 in
    ((res = Some (net4 10 1 0 0 16) ∧ ok) ∨ (res = None ∧ ¬ ok)) ∧
    ipam_ok [net4 10 0 0 0 8] ipam' ∧
    (∀ x, refs ipam' x = refs example_state x +
       if decide (res = Some x) then release_delta (refs example_state (net4 10 1 0 0 16)) else 0) ∧
    (∀ x, acquired ipam' x → addrs ipam' x = addrs example_state x)).
Proof.
  apply (release_exact ticks [net4 10 0 0 0 8]); [exact example_ok|].
  apply wf4_valid. by apply net4_wf4.
Defined.

Lemma acquire_size_complete_witness :
  wp (NetworkAcquire ticks example_state 8 true) 40%nat (fun '(res, ipam') _ =>
    ipam_ok [net4 10 0 0 0 8] ipam' ∧
    match res with
    | Some q => pBits q = 8 ∧ wf4 q ∧ in_pools [net4 10 0 0 0 8] q ∧
                can_acquire (refs example_state) q true ∧
                ∀ x, refs ipam' x = refs example_state x + if decide (x = q) then acquire_delta true else 0
    | None => (∀ x, refs ipam' x = refs example_state x) ∧
              ∀ q, wf4 q → in_pools [net4 10 0 0 0 8] q → pBits q = 8 →
                   can_acquire (refs example_state) q true →
                   is_Some (roots_at (roots ipam') (lchild q))
    end).
Proof. apply acquire_size_complete; [exact example_ok|lia]. Defined.

Definition roundtrip_mid : Ipam :=
  match NetworkAcquireWithPrefix ticks example_state (net4 10 9 0 0 16) true 40%nat with
  | Ret (_, i, _) => i
  | _ => mkIpam []
  end.
Definition roundtrip_end : Ipam :=
  match NetworkRelease ticks roundtrip_mid (net4 10 9 0 0 16) 0 100%nat with
  | Ret (_, i, _) => i
  | _ => mkIpam []
  end.

Lemma acquire_release_roundtrip_witness :
  refs roundtrip_end (net4 10 9 0 0 16) = refs example_state (net4 10 9 0 0 16).
Proof.
  eapply (acquire_release_roundtrip ticks [net4 10 0 0 0 8] example_state (net4 10 9 0 0 16) true 0
            40%nat _ 100%nat _ roundtrip_mid roundtrip_end);
    [exact example_ok|apply wf4_valid; by apply net4_wf4|vm_compute; reflexivity|
     vm_compute; reflexivity].
Defined.

Lemma reachable_consistent_witness : NoDup (addrs example_state (net4 10 1 0 0 16)) ∧
  NoDup (ListNetworks example_state).
Proof.
  destruct (reachable_consistent ticks [net4 10 0 0 0 8] example_state example_reachable)
    as (H & _ & Hn & _). split; [apply H|exact Hn].
Defined.

Lemma ip_acquire_total_witness :
  wp (IPAcquire ticks example_state (net4 10 1 0 0 16)) 40%nat (fun '(res, _) _ =>
    res = Ok (Some (ip4 10 1 0 2))) ∧
  wp (IPAcquire ticks example_state (net4 10 1 0 0 16)) 40%nat (fun '(_, ipam') _ =>
    ipam_ok [net4 10 0 0 0 8] ipam').
Proof.
  split; [vm_compute; reflexivity|].
  eapply wp_mono; [apply (ip_acquire_total ticks [net4 10 0 0 0 8])|].
  - exact example_ok.
  - apply wf4_valid. by apply net4_wf4.
  - vm_compute. discriminate.
  - intros [res ipam'] τ' H. exact (proj1 H).
Defined.

Lemma available_sound_witness :
  wp (NetworkAcquireWithPrefix ticks example_state (net4 10 64 0 0 10) true) 40%nat
     (fun '(res, _) _ => res = Some (net4 10 64 0 0 10)).
Proof.
  apply (available_sound ticks [net4 10 0 0 0 8]);
    [exact example_ok|by apply net4_wf4| |vm_compute; reflexivity].
  intros p ->%list_elem_of_singleton. vm_compute. reflexivity.
Defined.

Lemma acquire_oversize_panics_witness :
  NetworkAcquire ticks (mkIpam [Node (mkNode 0 (net4 10 0 0 0 8) 0 [] zeroAddr) Nil Nil]) 64 true 0%nat
  = Panic.
Proof.
  apply (acquire_oversize_panics ticks (net4 10 0 0 0 8));
    [by apply wf_fresh, net4_wf4|simpl; auto|lia].
Defined.

Lemma split_network_halves_witness : ∃ l r,
  splitNetworkPrefix (net4 10 0 0 0 8) = Ret (l, r) ∧ Overlaps l r = false.
Proof.
  destruct (split_network_halves (net4 10 0 0 0 8)) as (l & r & H & _ & _ & _ & _ & Ho & _);
    [by apply net4_wf4|simpl; lia|]. exists l, r. split; assumption.
Defined.
