(* ===== verification/IpamTime.v ===== *)
(** * IpamTime: update times never run ahead of the clock

    With a strictly increasing clock, every node of the tree was last updated
    before the present, so a release without grace period that follows an
    acquisition always finds its network old enough. *)

From S2P Require Export IpamSafe.
Local Open Scope Z_scope.

(** Every node of the tree was updated before [B]. *)
Fixpoint older (B : Z) (t : tree) : Prop :=
  match t with
  | Nil => True
  | Node n l r => lastUpdateTimestamp n < B ∧ older B l ∧ older B r
  end.

Lemma older_mono B B' t : B ≤ B' → older B t → older B' t.
Proof. intros HB. induction t; simpl; [done|]. intros (? & ? & ?). split_and!; auto; lia. Qed.

Lemma older_node_at B t q n : older B t → node_at t q = Some n → lastUpdateTimestamp n < B.
Proof.
  induction t as [|m l IHl r IHr]; simpl; [done|]. intros (Hm & Hl & Hr).
  case_decide; [by intros [= <-]|]. destruct (node_at l q) eqn:El.
  - destruct (node_at r q); intros [= <-]; auto.
  - destruct (node_at r q) eqn:Er; [|done]. intros [= <-]. auto.
Qed.

Lemma older_store B t q n' : older B t → lastUpdateTimestamp n' < B → older B (store q n' t).
Proof.
  intros Ht Hn. induction t as [|m l IHl r IHr]; simpl; [done|]. destruct Ht as (Hm & Hl & Hr).
  repeat case_match; simpl in *; auto.
Qed.

Section timed.
Context (clock : nat → Z) (Hclock : ∀ i j, (i < j)%nat → clock i < clock j).

Lemma clock_le i j : (i ≤ j)%nat → clock i ≤ clock j.
Proof.
  intros Hij. destruct (decide (i = j)) as [->|]; [lia|].
  specialize (Hclock i j ltac:(lia)). lia.
Qed.

Lemma older_later t i j : (i ≤ j)%nat → older (clock i) t → older (clock j) t.
Proof. intros Hij. by apply older_mono, clock_le. Qed.
Hint Resolve older_later : core.

(** The clock moves forward and the tree stays behind it. *)
Definition aged (τ : nat) (τ' : nat) (t' : tree) : Prop :=
  (τ ≤ τ')%nat ∧ older (clock τ') t'.

Lemma newNode_aged p τ : wlp (newNode clock p) τ (fun t' τ' => aged τ τ' t').
Proof. unfold newNode. wlp_steps. split; [lia|]. simpl. split_and!; auto. Qed.

Lemma split_aged n l r τ : older (clock τ) l → older (clock τ) r →
  wlp (if negb (isSplitted l r) then split clock n l r else mret (l, r)) τ
      (fun '(l', r') τ' => (τ ≤ τ')%nat ∧ older (clock τ') l' ∧ older (clock τ') r').
Proof.
  intros Hl Hr. destruct (negb _); [|by apply wlp_ret]. unfold split.
  destruct (isSplitted l r); [by apply wlp_ret|]. apply wlp_bind, wlp_lift. intros [lp rp] _.
  unfold insert_child, newNode. wlp_steps. cbn [put_next]. wlp_steps. cbn [put_next]. split; [lia|].
  simpl. split_and!; auto.
Qed.

Lemma acquireHere_aged n l r ex τ : older (clock τ) (Node n l r) →
  wlp (acquireHere clock n l r ex) τ (fun '(_, t') τ' => aged τ τ' t').
Proof.
  intros Ht. unfold acquireHere. wlp_steps; try (split; [lia|done]);
    destruct Ht as (_ & Hl & Hr); (split; [lia|]); simpl; split_and!; eauto.
Qed.

Lemma allocateNetworkWithPrefix_aged fuel p t ex τ : older (clock τ) t →
  wlp (allocateNetworkWithPrefix clock fuel p t ex) τ (fun '(_, t') τ' => aged τ τ' t').
Proof.
  revert t τ. induction fuel as [|fuel IH]; intros t τ Ht; cbn [allocateNetworkWithPrefix];
    [apply wlp_diverge|]. destruct t as [|n l r]; [apply wlp_panic|].
  destruct (negb _); [by apply wlp_ret; split|].
  destruct (is_prefix n p); [by apply acquireHere_aged|].
  destruct (_ || _); [by apply wlp_ret; split|].
  destruct Ht as (Hn & Hl & Hr). apply wlp_bind.
  eapply wlp_mono; [by apply split_aged|]. intros [l' r'] τ1 (H1 & Hl' & Hr').
  pose proof (clock_le _ _ H1).
  destruct (match l' with Nil => false | Node nl _ _ => _ end).
  - apply wlp_bind. eapply wlp_mono; [by apply IH|]. intros [res l2] τ2 [H2 Hl2].
    pose proof (clock_le _ _ H2). apply wlp_ret. split; [lia|]. simpl. split_and!; eauto; lia.
  - destruct (match r' with Nil => false | Node nr _ _ => _ end).
    + apply wlp_bind. eapply wlp_mono; [by apply IH|]. intros [res r2] τ2 [H2 Hr2].
      pose proof (clock_le _ _ H2). apply wlp_ret. split; [lia|]. simpl. split_and!; eauto; lia.
    + apply wlp_ret. split; [lia|]. simpl. split_and!; auto. lia.
Qed.

Lemma next_older d l r B : older B l → older B r → older B (next d l r).
Proof. by destruct d. Qed.

Lemma put_next_older d c l r B : older B l → older B r → older B c →
  older B (fst (put_next d c l r)) ∧ older B (snd (put_next d c l r)).
Proof. by destruct d. Qed.

Lemma allocateNetwork_aged fuel size t ex τ : older (clock τ) t →
  wlp (allocateNetwork clock fuel size t ex) τ (fun '(_, t') τ' => aged τ τ' t').
Proof.
  revert t τ. induction fuel as [|fuel IH]; intros t τ Ht; cbn [allocateNetwork];
    [apply wlp_diverge|]. destruct t as [|n l r]; [apply wlp_panic|].
  destruct (_ || _); [by apply wlp_ret; split|].
  destruct (_ =? _).
  { destruct (negb _); [|by apply wlp_ret; split]. wlp_steps. split; [lia|].
    destruct Ht as (_ & ? & ?). simpl. split_and!; eauto. }
  destruct Ht as (Hn & Hl & Hr). apply wlp_bind.
  eapply wlp_mono; [by apply split_aged|]. intros [l' r'] τ1 (H1 & Hl' & Hr').
  pose proof (clock_le _ _ H1).
  apply wlp_bind, wlp_lift. intros [first second] _. apply wlp_bind.
  eapply wlp_mono; [by apply IH, next_older|]. intros [res c] τ2 [H2 Hc].
  pose proof (clock_le _ _ H2).
  destruct (put_next_older first c l' r' (clock τ2)) as [Hl2 Hr2]; eauto.
  destruct (put_next first c l' r') as [l2 r2]. cbn [fst snd] in *. destruct res as [q|].
  { apply wlp_ret. split; [lia|]. simpl. split_and!; auto. lia. }
  apply wlp_bind. eapply wlp_mono; [by apply IH, next_older|]. intros [res c2] τ3 [H3 Hc2].
  pose proof (clock_le _ _ H3).
  destruct (put_next_older second c2 l2 r2 (clock τ3)) as [Hl3 Hr3]; eauto.
  destruct (put_next second c2 l2 r2) as [l3 r3]. apply wlp_ret. split; [lia|].
  simpl. split_and!; auto. lia.
Qed.

(** *** The pools *)

Definition aged_roots (τ τ' : nat) (ts : list tree) : Prop :=
  (τ ≤ τ')%nat ∧ Forall (older (clock τ')) ts.

Lemma Forall_older_later ts i j : (i ≤ j)%nat → Forall (older (clock i)) ts →
  Forall (older (clock j)) ts.
Proof. intros Hij Hts. eapply Forall_impl; [exact Hts|]. eauto. Qed.

Lemma acquire_prefix_roots_aged p ts ex τ : Forall (older (clock τ)) ts →
  wlp (acquire_prefix_roots clock p ts ex) τ (fun '(_, ts') τ' => aged_roots τ τ' ts').
Proof.
  revert τ. induction ts as [|t ts IH]; intros τ Hts; cbn [acquire_prefix_roots].
  { by apply wlp_ret. }
  apply Forall_cons in Hts as [Ht Hts]. apply wlp_bind.
  eapply (wlp_mono _ _ (fun '(_, t') τ' => aged τ τ' t')).
  { destruct (isPrefixChildOf _ _); [by apply allocateNetworkWithPrefix_aged|by apply wlp_ret]. }
  intros [[q|] t'] τ1 [H1 Ht'].
  - apply wlp_ret. split; [lia|]. constructor; [done|]. by eapply Forall_older_later.
  - apply wlp_bind. eapply wlp_mono; [apply IH; by eapply Forall_older_later|].
    intros [res ts'] τ2 [H2 Hts']. apply wlp_ret. split; [lia|]. constructor; eauto.
Qed.

Lemma acquire_size_roots_aged size ts ex τ : Forall (older (clock τ)) ts →
  wlp (acquire_size_roots clock size ts ex) τ (fun '(_, ts') τ' => aged_roots τ τ' ts').
Proof.
  revert τ. induction ts as [|t ts IH]; intros τ Hts; cbn [acquire_size_roots].
  { by apply wlp_ret. }
  apply Forall_cons in Hts as [Ht Hts]. apply wlp_bind.
  eapply wlp_mono; [by apply allocateNetwork_aged|]. intros [[q|] t'] τ1 [H1 Ht'].
  - apply wlp_ret. split; [lia|]. constructor; [done|]. by eapply Forall_older_later.
  - apply wlp_bind. eapply wlp_mono; [apply IH; by eapply Forall_older_later|].
    intros [res ts'] τ2 [H2 Hts']. apply wlp_ret. split; [lia|]. constructor; eauto.
Qed.

(** *** Releases *)

Lemma merge_aged n l r g τ : older (clock τ) (Node n l r) →
  wlp (merge clock n l r g) τ (fun t' τ' => aged τ τ' t').
Proof.
  intros Ht. unfold merge, expired. destruct l as [|nl ll lr]; [by apply wlp_ret; split|].
  destruct r as [|nr rl rr]; [by apply wlp_ret; split|].
  wlp_steps; (split; [lia|]); try (eapply older_later; [|exact Ht]; lia); simpl; split_and!; auto.
Qed.

Lemma networkRelease_aged p t g τ : older (clock τ) t →
  wlp (networkRelease clock p t g) τ (fun '(_, t') τ' => aged τ τ' t').
Proof.
  revert τ. induction t as [|n l IHl r IHr]; intros τ Ht; cbn [networkRelease]; [apply wlp_panic|].
  apply wlp_bind. eapply (wlp_mono _ _ (fun _ τ' => (τ ≤ τ')%nat)).
  { unfold expired. wlp_steps; lia. }
  intros here τ0 H0. apply (older_later _ _ _ H0) in Ht. pose proof Ht as (Hn & Hl & Hr). destruct here.
  { wlp_steps; (split; [lia|]); [|done]. simpl. split_and!; auto; eapply older_later; [|done| |done]; lia. }
  apply wlp_bind. eapply (wlp_mono _ _ (fun '(_, l') τ' => aged τ0 τ' l')).
  { destruct l as [|nl ll lr]; [by apply wlp_ret; split|]. destruct (isPrefixChildOf _ _); [by apply IHl|by apply wlp_ret; split]. }
  intros [res l'] τ1 [H1 Hl']. apply (older_later _ _ _ H1) in Hr.
  apply wlp_bind. eapply (wlp_mono _ _ (fun '(_, r') τ' => aged τ1 τ' r')).
  { destruct r as [|nr rl rr]; [by apply wlp_ret; split|]. destruct (isPrefixChildOf _ _); [by apply IHr|by apply wlp_ret; split]. }
  intros [res' r'] τ2 [H2 Hr']. apply wlp_bind. eapply wlp_mono.
  { apply merge_aged. simpl. split_and!; [|by eapply older_later|done].
    pose proof (clock_le τ0 τ2 ltac:(lia)). lia. }
  intros t' τ3 [H3 Ht']. apply wlp_ret. split; [lia|done].
Qed.

Lemma release_roots_aged p ts g τ : Forall (older (clock τ)) ts →
  wlp (release_roots clock p ts g) τ (fun '(_, ts') τ' => aged_roots τ τ' ts').
Proof.
  revert τ. induction ts as [|t ts IH]; intros τ Hts; cbn [release_roots].
  { by apply wlp_ret. }
  apply Forall_cons in Hts as [Ht Hts]. apply wlp_bind.
  eapply (wlp_mono _ _ (fun '(_, t') τ' => aged τ τ' t')).
  { destruct (isPrefixChildOf _ _); [by apply networkRelease_aged|by apply wlp_ret]. }
  intros [[q|] t'] τ1 [H1 Ht'].
  - apply wlp_ret. split; [lia|]. constructor; [done|]. by eapply Forall_older_later.
  - apply wlp_bind. eapply wlp_mono; [apply IH; by eapply Forall_older_later|].
    intros [res ts'] τ2 [H2 Hts']. apply wlp_ret. split; [lia|]. constructor; eauto.
Qed.

(** The state [st] is older than tick [τ]. *)
Definition past (st : Ipam) (τ : nat) : Prop := Forall (older (clock τ)) (roots st).

Lemma past_later st i j : (i ≤ j)%nat → past st i → past st j.
Proof. apply Forall_older_later. Qed.

Lemma write_node_past st i p n' τ τ' : past st τ → (τ ≤ τ')%nat →
  lastUpdateTimestamp n' < clock τ' → past (write_node st i p n') τ'.
Proof.
  intros Hst Hτ Hn. unfold past, write_node. cbn [roots].
  apply Forall_alter; [by eapply Forall_older_later|]. intros t _ Ht. by apply older_store.
Qed.

Lemma past_at st τ q n : past st τ → roots_at (roots st) q = Some n →
  lastUpdateTimestamp n < clock τ.
Proof.
  unfold past. induction (roots st) as [|t ts IH]; simpl; [done|].
  intros [Ht Hts]%Forall_cons. destruct (node_at t q) eqn:E.
  - destruct (roots_at ts q); intros [= <-]; by eapply older_node_at.
  - intros H. apply IH; [done|]. by destruct (roots_at ts q).
Qed.

Lemma search_past st q i n τ : past st τ → Ipam_search st q = Ok (Some (i, n)) →
  lastUpdateTimestamp n < clock τ.
Proof.
  unfold past, Ipam_search. generalize 0%nat. induction (roots st) as [|t ts IH]; intros k; [done|].
  cbn [search_roots]. intros [Ht Hts]%Forall_cons. destruct (negb _); [by apply IH|].
  destruct (search q t) as [m|] eqn:E; [|done]. intros [= -> ->]. clear IH Hts.
  revert E. induction t as [|m l IHl r IHr]; simpl; [done|]. destruct Ht as (Hm & Hl & Hr).
  repeat case_match; intros E; simplify_eq; auto.
Qed.

Lemma IPAcquireWithAddr_past st q a τ : past st τ →
  wlp (IPAcquireWithAddr clock st q a) τ (fun '(_, st') τ' => (τ ≤ τ')%nat ∧ past st' τ').
Proof.
  intros Hst. unfold IPAcquireWithAddr. destruct (negb _); [by apply wlp_ret|].
  destruct (Ipam_search st q) as [[[i n]|]|e] eqn:Hs; [|by apply wlp_ret..].
  pose proof (search_past _ _ _ _ _ Hst Hs) as Hn. apply wlp_bind.
  eapply (wlp_mono _ _ (fun '(_, n') τ' => (τ ≤ τ')%nat ∧ lastUpdateTimestamp n' < clock τ')).
  { unfold allocateIPWithAddr. wlp_steps; (split; [lia|]); simpl; auto. }
  intros [res n'] τ' [H Hn']. apply wlp_ret. split; [done|]. by eapply write_node_past.
Qed.

Lemma node_past st q i n τ (m : M (option Addr * node)) : past st τ → Ipam_search st q = Ok (Some (i, n)) →
  (lastUpdateTimestamp n < clock τ → wlp m τ (fun '(_, n') τ' => (τ ≤ τ')%nat ∧ lastUpdateTimestamp n' < clock τ')) →
  wlp ('(res, n') ← m; mret (Ok (A:=option Addr) (E:=core_error) res, write_node st i q n')) τ
    (fun '(_, st') τ' => (τ ≤ τ')%nat ∧ past st' τ').
Proof.
  intros Hst Hs Hm. apply wlp_bind. eapply wlp_mono; [apply Hm; by eapply search_past|].
  intros [res n'] τ' [H Hn']. apply wlp_ret. split; [done|]. by eapply write_node_past.
Qed.

Lemma ipAcquire_loop_past k n a τ : lastUpdateTimestamp n < clock τ →
  wlp (ipAcquire_loop clock k n a) τ (fun '(_, n') τ' => (τ ≤ τ')%nat ∧ lastUpdateTimestamp n' < clock τ').
Proof.
  intros Hn. revert a. induction k as [|k IH]; intros a; cbn [ipAcquire_loop]; [by apply wlp_ret|]. cbn zeta.
  destruct (negb (isAllocatedIP _ _)); [|apply IH]. wlp_steps. split; [lia|]. simpl. auto.
Qed.

Lemma IPAcquire_past st q τ : past st τ →
  wlp (IPAcquire clock st q) τ (fun '(_, st') τ' => (τ ≤ τ')%nat ∧ past st' τ').
Proof.
  intros Hst. unfold IPAcquire. destruct (Ipam_search st q) as [[[i n]|]|e] eqn:Hs; [|by apply wlp_ret..].
  apply (node_past st q i n); [done..|]. intros Hn. unfold ipAcquire. destruct (negb (isAcquired n)); [by apply wlp_ret|].
  cbn zeta. apply ipAcquire_loop_past. by case_match.
Qed.

Lemma IPRelease_past st q a g τ : past st τ →
  wlp (IPRelease clock st q a g) τ (fun '(_, st') τ' => (τ ≤ τ')%nat ∧ past st' τ').
Proof.
  intros Hst. unfold IPRelease. destruct (Ipam_search st q) as [[[i n]|]|e] eqn:Hs; [|by apply wlp_ret..].
  apply (node_past st q i n); [done..|]. clear Hs Hst. intros Hn. unfold ipRelease. destruct (negb _); [by apply wlp_ret|].
  apply wlp_bind. eapply (wlp_mono _ _ (fun _ τ' => (τ ≤ τ')%nat)).
  { clear Hn. generalize (ips n). intros l. revert τ. induction l as [|x l IH]; intros τ; cbn [ipRelease_loop]; [by apply wlp_ret|].
    unfold expired. apply wlp_bind. wlp_steps; [lia|]. eapply wlp_mono; [apply IH|]. intros [res l'] τ' H'. apply wlp_ret. lia. }
  intros [[b|] l] τ1 H1; pose proof (clock_le _ _ H1); [|apply wlp_ret; split; [done|lia]].
  wlp_steps. split; [lia|]. simpl. auto.
Qed.
End timed.

(** ** What an operation leaves alone

    An acquisition, and an address operation, touch the node they are asked for
    and no other; a release may also touch the networks above it, whose update
    time starts again when it joins their halves. *)

Fixpoint node_in (n : node) (t : tree) : Prop :=
  match t with
  | Nil => False
  | Node m l r => n = m ∨ node_in n l ∨ node_in n r
  end.

(** Nodes have both children or none. *)
Fixpoint full (t : tree) : Prop :=
  match t with
  | Nil => True
  | Node _ l r => (l = Nil ↔ r = Nil) ∧ full l ∧ full r
  end.

Lemma wf_full p t : wf p t → full t.
Proof.
  induction 1 as [|p n l r _ _ Hl IHl Hr IHr _]; [done|]. simpl. split_and!; [|done..].
  apply wf_root in Hl as (? & ? & ? & -> & _). by apply wf_root in Hr as (? & ? & ? & -> & _).
Qed.

Lemma node_at_in t q n : node_at t q = Some n → node_in n t.
Proof.
  induction t as [|m l IHl r IHr]; simpl; [done|]. case_decide; [intros [= <-]; by left|].
  destruct (node_at l q) eqn:El; [destruct (node_at r q); intros [= <-]; auto|].
  destruct (node_at r q); [|done]. intros [= <-]. auto.
Qed.

Lemma node_in_at p t n : wf p t → node_in n t → node_at t (prefix n) = Some n ∧ under p (prefix n).
Proof.
  induction 1 as [p m Hm|p m l r Hm Hlt Hl IHl Hr IHr _].
  - intros [->|[[]|[]]]. rewrite (ok_prefix _ _ Hm). rewrite node_at_here by done.
    split; [done|by eapply under_refl, ok_wf4].
  - intros [->|[Hn|Hn]].
    + rewrite (ok_prefix _ _ Hm). rewrite node_at_here by done. split; [done|by eapply under_refl, ok_wf4].
    + destruct (IHl Hn) as [Hat Hu].
      destruct (node_at_under _ _ _ _ Hl Hat) as (_ & Hw & _). pose proof (ok_wf4 _ _ Hm).
      rewrite (node_at_left p) by auto with liqo. split; [done|]. apply under_lchild_up; auto with liqo.
    + destruct (IHr Hn) as [Hat Hu].
      destruct (node_at_under _ _ _ _ Hr Hat) as (_ & Hw & _). pose proof (ok_wf4 _ _ Hm).
      rewrite (node_at_right p) by auto with liqo. split; [done|]. apply under_rchild_up; auto with liqo.
Qed.

Lemma roots_in_at ps ts t n : Forall2 wf ps ts → disjoint_pools ps → t ∈ ts → node_in n t →
  roots_at ts (prefix n) = Some n.
Proof.
  intros Hw. induction Hw as [|p t' ps ts Ht Hts IH]; intros Hd Hin Hn; [by apply not_elem_of_nil in Hin|].
  destruct Hd as [Hd1 Hd2]. apply elem_of_cons in Hin as [->|Hin].
  - destruct (node_in_at _ _ _ Ht Hn) as [Hat Hu]. simpl. rewrite Hat. by destruct (roots_at ts _).
  - specialize (IH Hd2 Hin Hn). destruct (roots_at_cases p t' ps ts Ht Hts Hd1 (prefix n)) as [[_ ?]|[-> _]]; congruence.
Qed.

Lemma roots_at_node_in ts q n : roots_at ts q = Some n → ∃ t, t ∈ ts ∧ node_in n t.
Proof.
  induction ts as [|t ts IH]; simpl; [done|]. destruct (node_at t q) eqn:E.
  - intros H. assert (n0 = n) as -> by (destruct (roots_at ts q); by injection H).
    exists t. split; [left|by eapply node_at_in].
  - intros H. destruct IH as (t' & ? & ?); [by destruct (roots_at ts q)|].
    exists t'. split; [by right|done].
Qed.

Section untouched.
Context (clock : nat → Z).

(** Nodes other than that of [q] are still there. *)
Definition keeps (q : Prefix) (t t' : tree) : Prop :=
  ∀ n, node_in n t → is_prefix n q = false → node_in n t'.

Lemma keeps_refl q t : keeps q t t.
Proof. by intros n. Qed.

Lemma keeps_node q n l r l' r' : keeps q l l' → keeps q r r' → keeps q (Node n l r) (Node n l' r').
Proof. intros Hl Hr m [->|[Hm|Hm]] Hq; simpl; auto. Qed.

Lemma split_keeps q n l r τ : full (Node n l r) →
  wlp (if negb (isSplitted l r) then split clock n l r else mret (l, r)) τ
      (fun '(l', r') _ => keeps q l l' ∧ keeps q r r' ∧ full l' ∧ full r').
Proof.
  intros (Hlr & Hl & Hr). destruct (isSplitted l r) eqn:Hs; cbn [negb]; [apply wlp_ret; split_and!; auto using keeps_refl|].
  assert (l = Nil ∧ r = Nil) as [-> ->].
  { destruct l as [|nl ll lr]; [split; [done|by apply Hlr]|]. destruct r; [|done].
    by assert (Node nl ll lr = Nil) by (by apply Hlr). }
  unfold split. cbn [isSplitted]. apply wlp_bind, wlp_lift. intros [lp rp] _.
  unfold insert_child, newNode. wlp_steps. cbn [put_next]. wlp_steps. cbn [put_next].
  split_and!; [by intros ?..| |]; by split_and!.
Qed.

Lemma acquire_prefix_keeps fuel q t ex τ : full t →
  wlp (allocateNetworkWithPrefix clock fuel q t ex) τ (fun '(_, t') _ => keeps q t t').
Proof.
  revert t τ. induction fuel as [|fuel IH]; intros t τ Ht; cbn [allocateNetworkWithPrefix];
    [apply wlp_diverge|]. destruct t as [|n l r]; [apply wlp_panic|].
  destruct (negb _); [apply wlp_ret, keeps_refl|].
  destruct (is_prefix n q) eqn:Hq.
  { assert (Hk : ∀ n', keeps q (Node n l r) (Node n' l r)).
    { intros n' m [->|Hm] Hm'; [congruence|by right]. }
    unfold acquireHere. wlp_steps; auto using keeps_refl. }
  destruct (_ || _); [apply wlp_ret, keeps_refl|]. apply wlp_bind.
  eapply wlp_mono; [by apply split_keeps|]. intros [l' r'] τ1 (Hl & Hr & Hl' & Hr').
  destruct (match l' with Nil => false | Node nl _ _ => _ end).
  - apply wlp_bind. eapply wlp_mono; [by apply IH|]. intros [res l2] τ2 Hl2.
    apply wlp_ret, keeps_node; [|done]. intros m Hm Hm'. auto.
  - destruct (match r' with Nil => false | Node nr _ _ => _ end); [|by apply wlp_ret, keeps_node].
    apply wlp_bind. eapply wlp_mono; [by apply IH|]. intros [res r2] τ2 Hr2.
    apply wlp_ret, keeps_node; [done|]. intros m Hm Hm'. auto.
Qed.

Lemma store_keeps q n' t : keeps q t (store q n' t).
Proof.
  induction t as [|n l IHl r IHr]; [by intros n|]. cbn [store]. destruct (is_prefix n q) eqn:Hq.
  { intros m [->|Hm] Hm'; [congruence|by right]. }
  repeat case_match; auto using keeps_node, keeps_refl.
Qed.

(** Acquired nodes that do not contain [q] survive its release. *)
Definition spares (q : Prefix) (t t' : tree) : Prop :=
  ∀ n, node_in n t → isAcquired n = true → isPrefixChildOf (prefix n) q = false → node_in n t'.

Lemma spares_refl q t : spares q t t.
Proof. by intros n. Qed.

Lemma spares_node q n l r l' r' : spares q l l' → spares q r r' →
  spares q (Node n l r) (Node n l' r').
Proof. intros Hl Hr m [->|[Hm|Hm]] Ha Hq; simpl; auto. Qed.

Lemma merge_spares q n l r g τ : isPrefixChildOf (prefix n) q = true →
  wlp (merge clock n l r g) τ (fun t' _ => spares q (Node n l r) t').
Proof.
  intros Hn. unfold merge, expired.
  destruct l as [|nl ll lr]; [apply wlp_ret, spares_refl|]. destruct r as [|nr rl rr]; [apply wlp_ret, spares_refl|].
  assert (Hleaf : negb (isLeaf ll lr) || negb (isLeaf rl rr) = false → isAcquired nl || isAcquired nr = false →
    ∀ n', spares q (Node n (Node nl ll lr) (Node nr rl rr)) (Node n' Nil Nil)).
  { intros H1 [Ha1 Ha2]%orb_false_iff n' m Hm Ha Hq. apply orb_false_iff in H1 as [H1%negb_false_iff H2%negb_false_iff].
    destruct ll, lr, rl, rr; try done. exfalso. simpl in Hm. naive_solver congruence. }
  wlp_steps; auto using spares_refl.
Qed.

Lemma release_spares q t g τ : isPrefixChildOf (root_prefix t) q = true →
  wlp (networkRelease clock q t g) τ (fun '(_, t') _ => spares q t t').
Proof.
  revert τ. induction t as [|n l IHl r IHr]; intros τ Ht; cbn [networkRelease]; [apply wlp_panic|].
  apply wlp_bind. eapply (wlp_mono _ _ (fun _ _ => True)); [apply wlp_true; by intros|].
  intros here τ0 _. destruct here.
  { wlp_steps; [|apply spares_refl]. intros m [->|Hm] _ Hq; [simpl in Ht; congruence|by right]. }
  apply wlp_bind. eapply (wlp_mono _ _ (fun '(_, l') _ => spares q l l')).
  { destruct l as [|nl ll lr]; [apply wlp_ret, spares_refl|]. destruct (isPrefixChildOf (prefix nl) q) eqn:Hc; [by apply IHl|apply wlp_ret, spares_refl]. }
  intros [res l'] τ1 Hl'. apply wlp_bind. eapply (wlp_mono _ _ (fun '(_, r') _ => spares q r r')).
  { destruct r as [|nr rl rr]; [apply wlp_ret, spares_refl|]. destruct (isPrefixChildOf (prefix nr) q) eqn:Hc; [by apply IHr|apply wlp_ret, spares_refl]. }
  intros [res' r'] τ2 Hr'. apply wlp_bind. eapply wlp_mono; [by apply (merge_spares q n l' r')|].
  intros t' τ3 Ht'. apply wlp_ret. intros m Hm Ha Hq. apply Ht'; [|done..].
  by apply (spares_node q n l r).
Qed.
End untouched.

Section untouched_state.
Context (clock : nat → Z).

Lemma Forall2_in (R : tree → tree → Prop) ts ts' t : Forall2 R ts ts' → t ∈ ts → ∃ t', t' ∈ ts' ∧ R t t'.
Proof.
  induction 1 as [|x y ts ts' Hxy _ IH]; [by intros ?%not_elem_of_nil|].
  intros [->|(t' & ? & ?)%IH]%elem_of_cons; [exists y|exists t']; (split; [|done]); [left|by right].
Qed.

Lemma roots_kept ps ts ts' q x n : roots_ok ps ts → roots_ok ps ts' → Forall2 (keeps q) ts ts' →
  valid_prefix q → x ≠ q → roots_at ts x = Some n → roots_at ts' x = Some n.
Proof.
  intros Hok Hok' Hk Hq Hx Hat.
  destruct (roots_at_in _ _ _ _ (ro_wf _ _ Hok) Hat) as (Hn & _ & _).
  destruct (roots_at_node_in _ _ _ Hat) as (t & Ht & Hin).
  assert (Hi : is_prefix n q = false).
  { apply not_true_iff_false. rewrite (is_prefix_spec x) by done. congruence. }
  destruct (Forall2_in _ _ _ _ Hk Ht) as (t' & Ht' & Htt).
  rewrite <- (ok_prefix _ _ Hn). eapply roots_in_at; [apply Hok'|apply Hok'|exact Ht'|].
  by apply Htt.
Qed.

Lemma roots_spared ps ts ts' q x n : roots_ok ps ts → roots_ok ps ts' → Forall2 (spares q) ts ts' →
  valid_prefix q → ¬ under x q → isAcquired n = true → roots_at ts x = Some n → roots_at ts' x = Some n.
Proof.
  intros Hok Hok' Hk Hq Hx Ha Hat.
  destruct (roots_at_in _ _ _ _ (ro_wf _ _ Hok) Hat) as (Hn & Hw & _).
  destruct (roots_at_node_in _ _ _ Hat) as (t & Ht & Hin).
  destruct (Forall2_in _ _ _ _ Hk Ht) as (t' & Ht' & Htt).
  rewrite <- (ok_prefix _ _ Hn). eapply roots_in_at; [apply Hok'|apply Hok'|exact Ht'|].
  apply Htt; [done..|]. apply not_true_iff_false. by rewrite (ok_prefix _ _ Hn), isPrefixChildOf_spec.
Qed.

Lemma Forall2_keeps_refl q ts : Forall2 (keeps q) ts ts.
Proof. apply Forall_Forall2_diag, Forall_forall. intros. apply keeps_refl. Qed.
Lemma Forall2_spares_refl q ts : Forall2 (spares q) ts ts.
Proof. apply Forall_Forall2_diag, Forall_forall. intros. apply spares_refl. Qed.

Lemma acquire_prefix_roots_keeps q ts ex τ : Forall full ts →
  wlp (acquire_prefix_roots clock q ts ex) τ (fun '(_, ts') _ => Forall2 (keeps q) ts ts').
Proof.
  revert τ. induction ts as [|t ts IH]; intros τ Hts; cbn [acquire_prefix_roots]; [by apply wlp_ret|].
  apply Forall_cons in Hts as [Ht Hts]. apply wlp_bind.
  eapply (wlp_mono _ _ (fun '(_, t') _ => keeps q t t')).
  { destruct (isPrefixChildOf _ _); [by apply acquire_prefix_keeps|apply wlp_ret, keeps_refl]. }
  intros [[p|] t'] τ1 Ht'.
  - apply wlp_ret. constructor; [done|apply Forall2_keeps_refl].
  - apply wlp_bind. eapply wlp_mono; [by apply IH|]. intros [res ts'] τ2 Hts'. apply wlp_ret. by constructor.
Qed.

Lemma release_roots_spares q ts g τ :
  wlp (release_roots clock q ts g) τ (fun '(_, ts') _ => Forall2 (spares q) ts ts').
Proof.
  revert τ. induction ts as [|t ts IH]; intros τ; cbn [release_roots]; [by apply wlp_ret|].
  apply wlp_bind. eapply (wlp_mono _ _ (fun '(_, t') _ => spares q t t')).
  { destruct (isPrefixChildOf _ _) eqn:Hc; [by apply release_spares|apply wlp_ret, spares_refl]. }
  intros [[p|] t'] τ1 Ht'.
  - apply wlp_ret. constructor; [done|apply Forall2_spares_refl].
  - apply wlp_bind. eapply wlp_mono; [by apply IH|]. intros [res ts'] τ2 Hts'. apply wlp_ret. by constructor.
Qed.

Lemma acquire_prefix_untouched ps st q ex τ : ipam_ok ps st →
  wlp (NetworkAcquireWithPrefix clock st q ex) τ
      (fun '(_, st') _ => Forall2 (keeps q) (roots st) (roots st')).
Proof.
  intros Hok. apply wlp_bind. eapply wlp_mono; [apply acquire_prefix_roots_keeps|].
  - pose proof (ro_wf _ _ Hok) as Hw. clear Hok. induction Hw; constructor; [|done]. by eapply wf_full.
  - intros [res ts] τ' H. by apply wlp_ret.
Qed.

Lemma ip_acquire_addr_untouched st q a τ :
  wlp (IPAcquireWithAddr clock st q a) τ
      (fun '(_, st') _ => Forall2 (keeps q) (roots st) (roots st')).
Proof.
  unfold IPAcquireWithAddr. destruct (negb _); [apply wlp_ret, Forall2_keeps_refl|].
  destruct (Ipam_search st q) as [[[i n]|]|e]; [|apply wlp_ret, Forall2_keeps_refl..].
  apply wlp_bind, wlp_true. intros [res n'] τ'. apply wlp_ret. cbn [write_node roots].
  apply Forall2_alter_r; [apply Forall2_keeps_refl|].
  intros t t' Ht Ht' _. simplify_eq. apply store_keeps.
Qed.

Lemma release_untouched st q g τ :
  wlp (NetworkRelease clock st q g) τ
      (fun '(_, st') _ => Forall2 (spares q) (roots st) (roots st')).
Proof.
  apply wlp_bind. eapply wlp_mono; [apply release_roots_spares|]. intros [res ts] τ' H. by apply wlp_ret.
Qed.
End untouched_state.
