(* ===== verification/IpamServer.v ===== *)
(** * IpamServer: the IPAM daemon (src/pkg/ipam)

    The gRPC handlers ([ipam.go]), the helpers they share ([networks.go],
    [ips.go]), the reconstruction of the state at start-up ([initialize.go]) and
    the periodic reconciliation with the cluster ([sync.go]).

    Handlers run under [lipam.mutex], so a handler is one atomic transition of
    the core.  They are written in [SM], a state and error monad over the core:
    an error stops a handler but keeps the state reached.  The Kubernetes client
    and the graphviz dump (file output) are parameters. *)

From S2P Require Export GoNet IpamSafe.
Local Open Scope Z_scope.

(** ** Errors, requests, responses *)

Inductive server_error :=
| ParseFailed (s : string)
| NotInPool (s : string)
| AcquireFailed (p : Prefix)
| ReserveFailed (p : Prefix)
| ReserveIPFailed (a : Addr) (p : Prefix)
| PreallocTooMany (p : Prefix) (n : Z)
| CoreError (e : core_error)
| GraphvizFailed
| ListFailed
| Joined (e : server_error) (e' : option server_error).

Record NetworkAcquireRequest := mkNetworkAcquireRequest {
  Cidr : string; Immutable : bool; Exclusive : bool; PreAllocated : Z
}.

Record prefixDetails := mkDetails { preallocated : Z; exclusive : bool }.

(** The fields of the Network and IP resources that are read. *)
Record Network := mkNetwork {
  nw_deleting : bool; nw_labels : gmap string string; nw_status_cidr : string;
  nw_preallocated : Z
}.
Record IPResource := mkIPResource {
  ip_deleting : bool; ip_status_ip : string; ip_status_cidr : string
}.

Definition NetworkSharedLabelKey : string := "ipam.liqo.io/network-shared".
Definition NetworkSharedLabelValue : string := "true".

(** [NetworkIsExclusive]: a missing label (or no labels) means exclusive. *)
Definition NetworkIsExclusive (nw : Network) : bool :=
  negb (bool_decide (default ""%string (nw_labels nw !! NetworkSharedLabelKey)
                     = NetworkSharedLabelValue)).

(** [FirstNIPsFromPrefix]: the addresses the iterator yields. *)
Fixpoint next_ips (a : Addr) (n : nat) : list Addr :=
  match n with
  | O => []
  | S n => a :: next_ips (Next a) n
  end.
Definition FirstNIPsFromPrefix (p : Prefix) (num : Z) : list Addr :=
  next_ips (pAddr p) (Z.to_nat num).

(** ** The handler monad *)

Definition SM (A : Type) : Type := Ipam → M (result server_error A * Ipam).

#[global] Instance SM_ret : MRet SM := fun A a st => mret (Ok a, st).
#[global] Instance SM_bind : MBind SM := fun A B f m st =>
  '(r, st') ← m st;
  match r with
  | Ok a => f a st'
  | Err e => mret (Err e, st')
  end.

Definition fail {A} (e : server_error) : SM A := fun st => mret (Err e, st).
Definition get : SM Ipam := fun st => mret (Ok st, st).
(** An operation of the core that returns a pointer. *)
Definition core {A} (f : Ipam → M (A * Ipam)) : SM A := fun st =>
  '(a, st') ← f st; mret (Ok a, st').
(** An operation of the core that returns a pointer and an error. *)
Definition core_err {A} (f : Ipam → M (result core_error A * Ipam)) : SM A := fun st =>
  '(r, st') ← f st;
  mret (match r with Ok a => Ok a | Err e => Err (CoreError e) end, st').
Definition of_core {A} (r : result core_error A) : SM A :=
  match r with Ok a => mret a | Err e => fail (CoreError e) end.
(** [if err := m; err != nil { return errors.Join(err, h) }]. *)
Definition recover {A} (m : SM A) (h : SM ()) : SM A := fun st =>
  '(r, st') ← m st;
  match r with
  | Ok a => mret (Ok a, st')
  | Err e =>
    '(r', st'') ← h st';
    mret (Err (Joined e (match r' with Ok _ => None | Err e' => Some e' end)), st'')
  end.

Fixpoint for_each {A} (l : list A) (f : A → SM ()) : SM () :=
  match l with
  | [] => mret ()
  | x :: l => _ ← f x; for_each l f
  end.

Section server.
Context (clock : nat → Z).
(** [opts]: the flag, the grace period, and what the dump of a state returns. *)
Context (GraphvizEnabled : bool) (ToGraphviz : Ipam → bool) (SyncGracePeriod : Z).
(** The order in which Go iterates over a map. *)
Context (range_nets : gmap Prefix prefixDetails → list (Prefix * prefixDetails)).
Context (range_ips : gmap Addr Prefix → list (Addr * Prefix)).
Context (range_set : gset Prefix → list Prefix).

Definition dump {A} (a : A) : SM A :=
  st ← get;
  if GraphvizEnabled && negb (ToGraphviz st) then fail GraphvizFailed else mret a.

Definition isInPool (p : Prefix) : SM bool := st ← get; mret (IsPrefixInRoots st p).

(** *** networks.go *)

Definition networkAcquire (p : Prefix) : SM Prefix :=
  res ← core (fun st => NetworkAcquireWithPrefix clock st p true);
  res ← match res with
        | Some q => mret (Some q)
        | None => core (fun st => NetworkAcquire clock st (pBits p) true)
        end;
  match res with
  | None => fail (AcquireFailed p)
  | Some q => dump q
  end.

Definition networkAcquireSpecific (p : Prefix) (ex : bool) : SM Prefix :=
  res ← core (fun st => NetworkAcquireWithPrefix clock st p ex);
  match res with
  | None => fail (AcquireFailed p)
  | Some q => dump q
  end.

Definition networkRelease (p : Prefix) (gracePeriod : Z) : SM () :=
  res ← core (fun st => NetworkRelease clock st p gracePeriod);
  match res with
  | None => mret ()
  | Some _ => dump ()
  end.

(** *** ips.go *)

Definition ipAcquire (p : Prefix) : SM Addr :=
  res ← core_err (fun st => IPAcquire clock st p);
  match res with
  | None => fail (ReserveFailed p)
  | Some a => dump a
  end.

Definition ipAcquireWithAddr (a : Addr) (p : Prefix) : SM () :=
  res ← core_err (fun st => IPAcquireWithAddr clock st p a);
  match res with
  | None => fail (ReserveIPFailed a p)
  | Some _ => dump ()
  end.

Definition ipRelease (a : Addr) (p : Prefix) (gracePeriod : Z) : SM () :=
  res ← core_err (fun st => IPRelease clock st p a gracePeriod);
  match res with
  | None => mret ()
  | Some _ => dump ()
  end.

Definition ipIsAvailable (a : Addr) (p : Prefix) : SM bool :=
  st ← get;
  allocated ← of_core (IPIsAllocated st p a);
  mret (negb allocated).

Definition acquirePreallocatedIPs (p : Prefix) (n : Z) : SM () :=
  if pBits p <? n then fail (PreallocTooMany p n)
  else for_each (FirstNIPsFromPrefix p n) (fun a =>
    available ← ipIsAvailable a p;
    if (available : bool) then ipAcquireWithAddr a p else mret ()).

(** *** ipam.go *)

Definition parse_prefix (s : string) : SM Prefix :=
  match ParsePrefix s with Some p => mret p | None => fail (ParseFailed s) end.
Definition parse_addr (s : string) : SM Addr :=
  match ParseAddr s with Some a => mret a | None => fail (ParseFailed s) end.

Definition IPAcquire_handler (cidr : string) : SM Addr :=
  p ← parse_prefix cidr;
  inpool ← isInPool p;
  if negb inpool then fail (NotInPool cidr) else ipAcquire p.

Definition IPRelease_handler (ip cidr : string) : SM () :=
  a ← parse_addr ip;
  p ← parse_prefix cidr;
  ipRelease a p 0.

Definition NetworkAcquire_handler (req : NetworkAcquireRequest) : SM Prefix :=
  p ← parse_prefix (Cidr req);
  inpool ← isInPool p;
  if negb inpool && Immutable req && negb (Exclusive req) then mret p
  else if negb inpool && Immutable req then fail (NotInPool (Cidr req))
  else
    remapped ← (if Immutable req then networkAcquireSpecific p (Exclusive req)
                else networkAcquire p);
    _ ← recover (acquirePreallocatedIPs remapped (PreAllocated req)) (networkRelease remapped 0);
    mret remapped.

Definition NetworkRelease_handler (cidr : string) : SM () :=
  p ← parse_prefix cidr;
  networkRelease p 0.

Definition NetworkIsAvailable_handler (cidr : string) : SM bool :=
  p ← parse_prefix cidr;
  inpool ← isInPool p;
  if negb inpool then mret false
  else st ← get; mret (NetworkIsAvailable st p).

(** *** Listing the cluster: the client's answer is an argument *)

Fixpoint listNetworksOnCluster (items : list Network) (acc : gmap Prefix prefixDetails)
  : result server_error (gmap Prefix prefixDetails) :=
  match items with
  | [] => Ok acc
  | nw :: items =>
    if nw_deleting nw then listNetworksOnCluster items acc
    else if bool_decide (nw_status_cidr nw = ""%string) then listNetworksOnCluster items acc
    else match ParsePrefix (nw_status_cidr nw) with
         | None => Err (ParseFailed (nw_status_cidr nw))
         | Some p => listNetworksOnCluster items
                       (<[p := mkDetails (nw_preallocated nw) (NetworkIsExclusive nw)]> acc)
         end
  end.

Fixpoint listIPsOnCluster (items : list IPResource) (acc : gmap Addr Prefix)
  : result server_error (gmap Addr Prefix) :=
  match items with
  | [] => Ok acc
  | ip :: items =>
    if ip_deleting ip then listIPsOnCluster items acc
    else if bool_decide (ip_status_ip ip = ""%string) then listIPsOnCluster items acc
    else if bool_decide (ip_status_cidr ip = ""%string) then listIPsOnCluster items acc
    else match ParseAddr (ip_status_ip ip) with
         | None => Err (ParseFailed (ip_status_ip ip))
         | Some a =>
           match ParsePrefix (ip_status_cidr ip) with
           | None => Err (ParseFailed (ip_status_cidr ip))
           | Some p => listIPsOnCluster items (<[a := p]> acc)
           end
         end
  end.

(** What [Client.List] answers: the items, or an error. *)
Definition list_networks (ans : option (list Network)) : SM (gmap Prefix prefixDetails) :=
  match ans with
  | None => fail ListFailed
  | Some items => match listNetworksOnCluster items ∅ with Ok m => mret m | Err e => fail e end
  end.
Definition list_ips (ans : option (list IPResource)) : SM (gmap Addr Prefix) :=
  match ans with
  | None => fail ListFailed
  | Some items => match listIPsOnCluster items ∅ with Ok m => mret m | Err e => fail e end
  end.

(** *** initialize.go *)

Definition initializeNetworks (ans : option (list Network)) : SM () :=
  nets ← list_networks ans;
  for_each (range_nets nets) (fun '(p, d) =>
    inpool ← isInPool p;
    if negb inpool && negb (exclusive d) then mret ()
    else
      _ ← networkAcquireSpecific p (exclusive d);
      recover (acquirePreallocatedIPs p (preallocated d)) (networkRelease p 0)).

Definition initializeIPs (ans : option (list IPResource)) : SM () :=
  ips ← list_ips ans;
  for_each (range_ips ips) (fun '(a, p) => ipAcquireWithAddr a p).

Definition initialize (nets : option (list Network)) (ips : option (list IPResource)) : SM () :=
  _ ← initializeNetworks nets;
  initializeIPs ips.

(** *** sync.go *)

Definition syncNetworkAcquire (cluster : gmap Prefix prefixDetails) (cached : gset Prefix) : SM () :=
  for_each (range_nets cluster) (fun '(p, d) =>
    inpool ← isInPool p;
    if negb inpool && negb (exclusive d) then mret ()
    else
      _ ← (if decide (p ∈ cached) then mret p else networkAcquireSpecific p (exclusive d));
      recover (acquirePreallocatedIPs p (preallocated d)) (networkRelease p 0)).

Definition isNetworkInCluster (cluster : gmap Prefix prefixDetails) (p : Prefix) : bool :=
  match cluster !! p with Some _ => true | None => false end.

Definition syncNetworkFree (cluster : gmap Prefix prefixDetails) (cached : gset Prefix) : SM () :=
  for_each (range_set cached) (fun p =>
    if negb (isNetworkInCluster cluster p) then networkRelease p SyncGracePeriod else mret ()).

Definition syncNetworks (ans : option (list Network)) : SM () :=
  cluster ← list_networks ans;
  st ← get;
  let cached : gset Prefix := list_to_set (ListNetworks st) in
  _ ← syncNetworkAcquire cluster cached;
  syncNetworkFree cluster cached.

Definition syncIPsAcquire (cluster cached : gmap Addr Prefix) : SM () :=
  for_each (range_ips cluster) (fun '(a, p) =>
    match cached !! a with Some _ => mret () | None => ipAcquireWithAddr a p end).

Fixpoint preallocated_scan (n : nat) (a cur : Addr) : bool :=
  match n with
  | O => false
  | S n => if same_addr a cur then true else preallocated_scan n a (Next cur)
  end.

Definition iscachedIPPreallocated (a : Addr) (p : Prefix) (nets : gmap Prefix prefixDetails) : bool :=
  match nets !! p with
  | None => false
  | Some d => preallocated_scan (Z.to_nat (preallocated d)) a (pAddr p)
  end.

Definition syncIPsFree (cluster cached : gmap Addr Prefix) (nets : gmap Prefix prefixDetails) : SM () :=
  for_each (range_ips cached) (fun '(a, p) =>
    match cluster !! a with
    | Some _ => mret ()
    | None => if negb (iscachedIPPreallocated a p nets) then ipRelease a p SyncGracePeriod
              else mret ()
    end).

(** The cached addresses: a later network overwrites an earlier one. *)
Fixpoint cached_ips (st : Ipam) (nets : list Prefix) (acc : gmap Addr Prefix)
  : result core_error (gmap Addr Prefix) :=
  match nets with
  | [] => Ok acc
  | p :: nets =>
    match ListIPs st p with
    | Err e => Err e
    | Ok l => cached_ips st nets (foldl (fun m a => <[a := p]> m) acc l)
    end
  end.

Definition syncIPs (ips : option (list IPResource)) (nets : option (list Network)) : SM () :=
  clusterIPs ← list_ips ips;
  clusterNets ← list_networks nets;
  st ← get;
  cached ← of_core (cached_ips st (ListNetworks st) ∅);
  _ ← syncIPsAcquire clusterIPs cached;
  syncIPsFree clusterIPs cached clusterNets.

(** One turn of the polling loop; the two listings of the networks may differ. *)
Definition sync_turn (nets : option (list Network)) (ips : option (list IPResource))
    (nets' : option (list Network)) : SM () :=
  _ ← syncNetworks nets;
  syncIPs ips nets'.
End server.

(** [New]: the pools are parsed, the core is built and filled from the cluster. *)
Fixpoint parse_pools (pools : list string) : result server_error (list Prefix) :=
  match pools with
  | [] => Ok []
  | s :: pools =>
    match ParsePrefix s with
    | None => Err (ParseFailed s)
    | Some p =>
      match parse_pools pools with
      | Ok ps => Ok (p :: ps)
      | Err e => Err e
      end
    end
  end.

Definition New (clock : nat → Z) (graphviz : bool) (dumps : Ipam → bool)
    (range_nets : gmap Prefix prefixDetails → list (Prefix * prefixDetails))
    (range_ips : gmap Addr Prefix → list (Addr * Prefix))
    (pools : list string) (nets : option (list Network)) (ips : option (list IPResource))
  : M (result server_error Ipam) :=
  match parse_pools pools with
  | Err e => mret (Err e)
  | Ok ps =>
    r ← NewIpam clock ps;
    match r with
    | Err e => mret (Err (CoreError e))
    | Ok st =>
      '(r, st') ← initialize clock graphviz dumps range_nets range_ips nets ips st;
      mret (match r with Ok _ => Ok st' | Err e => Err e end)
    end
  end.
