(* ===== verification/IpamServerSafe.v ===== *)
(** * IpamServerSafe: what the IPAM daemon guarantees

    Every handler, the start-up and each turn of the reconciliation return on
    every reachable state and lead to a reachable state, so the invariants of
    [IpamSafe] hold throughout the life of the daemon; then the effect of the
    handlers and of the reconciliation. *)

From S2P Require Export IpamTime IpamServer.
Local Open Scope Z_scope.

(** ** The addresses of a preallocation *)

(** What [Next] yields from a parsed address: an address or the zero value. *)
Definition next_addr (a : Addr) : Prop := zone a = ""%string ∧ (valid_addr a ∨ bitlen a = 0).

Lemma next_addr_Next a : next_addr a → next_addr (Next a).
Proof.
  intros [Hz Ha]. unfold Next, Is4. destruct Ha as [[Hl Hv _]|H0].
  - pose proof (Z.mod_pos_bound (val a + 1) (2 ^ 128) ltac:(lia)).
    destruct Hl as [Hl|Hl]; rewrite Hl in *; cbn [Z.eqb Pos.eqb].
    + case_match eqn:E; (split; [done|]); [by right|left]. apply Z.eqb_neq in E.
      split; simpl; auto. rewrite Z.mod_small in * by lia.
      destruct (Z.eq_dec (val a + 1) (2 ^ 32)) as [E32|]; [|lia].
      rewrite E32, Z.mod_same in E by lia. lia.
    + case_match; (split; [done|]); [by right|left]. split; simpl; auto.
  - rewrite H0. cbn [Z.eqb]. case_match; (split; [done|]); by right.
Qed.

Lemma next_ips_addr a n b : next_addr a → b ∈ next_ips a n → next_addr b.
Proof.
  revert a. induction n as [|n IH]; intros a Ha; cbn [next_ips]; [by intros ?%not_elem_of_nil|].
  intros [->|Hb]%elem_of_cons; [done|]. by eapply IH, Hb; apply next_addr_Next.
Qed.

Lemma valid_prefix_next_addr p : valid_prefix p → next_addr (pAddr p).
Proof. intros [Hl Hv Hz _]. split; [done|left]. by split. Qed.

Lemma Contains_zero p a : bitlen a = 0 → Contains p a = false.
Proof. intros H. unfold Contains. rewrite H. cbn [Z.eqb negb]. by rewrite andb_false_r. Qed.

Section safe.
Context (clock : nat → Z) (ps : list Prefix).

(** [m] returns on every reachable state and keeps it reachable. *)
Definition safe {A} (m : SM A) : Prop :=
  ∀ st τ, reachable clock ps st → wp (m st) τ (fun '(_, st') _ => reachable clock ps st').

Lemma safe_ret {A} (a : A) : safe (mret a).
Proof. intros st τ H. by apply wp_ret. Qed.

Lemma safe_fail {A} e : safe (fail (A:=A) e).
Proof. intros st τ H. by apply wp_ret. Qed.

Lemma safe_get : safe get.
Proof. intros st τ H. by apply wp_ret. Qed.

Lemma safe_bind {A B} (m : SM A) (f : A → SM B) :
  safe m → (∀ a, safe (f a)) → safe (m ≫= f).
Proof.
  intros Hm Hf st τ H. apply wp_bind. eapply wp_mono; [by apply Hm|].
  intros [[a|e] st'] τ' H'; [by apply Hf|by apply wp_ret].
Qed.

Lemma safe_recover {A} (m : SM A) h : safe m → safe h → safe (recover m h).
Proof.
  intros Hm Hh st τ H. apply wp_bind. eapply wp_mono; [by apply Hm|].
  intros [[a|e] st'] τ' H'; [by apply wp_ret|].
  apply wp_bind. eapply wp_mono; [by apply Hh|]. intros [r st''] τ'' H''. by apply wp_ret.
Qed.

Lemma safe_for_each {A} (l : list A) f : (∀ x, x ∈ l → safe (f x)) → safe (for_each l f).
Proof.
  induction l as [|x l IH]; intros Hf; cbn [for_each]; [apply safe_ret|].
  apply safe_bind; [apply Hf; left|]. intros _. apply IH. intros y Hy. apply Hf. by right.
Qed.

Lemma run_op_safe st o τ : reachable clock ps st → op_valid o →
  wp (run_op clock st o) τ (fun '(_, st') _ => reachable clock ps st').
Proof.
  intros H Hv. pose proof (reachable_inv _ _ _ H) as [Hok _].
  destruct (wp_inv _ _ _ (run_op_sim clock ps st o τ Hok Hv)) as ([rep st'] & τ' & Hrun & _).
  unfold wp. rewrite Hrun. by eapply reach_op.
Qed.

(** An operation of the core lifted into a handler. *)
Ltac from_op o :=
  intros Hv st τ H; apply wp_bind; pose proof (run_op_safe st o τ H Hv) as Hw;
  apply wp_bind_inv in Hw; eapply wp_mono; [exact Hw|]; by intros [r st'] τ' Hr.

Lemma safe_acquire_prefix p ex : valid_prefix p →
  safe (core (fun st => NetworkAcquireWithPrefix clock st p ex)).
Proof. from_op (OAcquirePrefix p ex). Qed.
Lemma safe_acquire_size s ex : s ≤ 32 → safe (core (fun st => NetworkAcquire clock st s ex)).
Proof. from_op (OAcquireSize s ex). Qed.
Lemma safe_release p g : valid_prefix p → safe (core (fun st => NetworkRelease clock st p g)).
Proof. from_op (ORelease p g). Qed.
Lemma safe_ip_acquire p : valid_prefix p → safe (core_err (fun st => IPAcquire clock st p)).
Proof. from_op (OIPAcquire p). Qed.
Lemma safe_ip_acquire_addr p a : valid_prefix p ∧ valid_addr a →
  safe (core_err (fun st => IPAcquireWithAddr clock st p a)).
Proof. from_op (OIPAcquireAddr p a). Qed.
Lemma safe_ip_release p a g : valid_prefix p ∧ valid_addr a →
  safe (core_err (fun st => IPRelease clock st p a g)).
Proof. from_op (OIPRelease p a g). Qed.

(** An address outside the prefix is refused before anything is touched. *)
Lemma safe_ip_acquire_outside p a : Contains p a = false →
  safe (core_err (fun st => IPAcquireWithAddr clock st p a)).
Proof. intros Hc st τ H. unfold core_err, IPAcquireWithAddr. rewrite Hc. by apply wp_ret. Qed.

Context (graphviz : bool) (dumps : Ipam → bool) (grace : Z).
Context (range_nets : gmap Prefix prefixDetails → list (Prefix * prefixDetails)).
Context (range_ips : gmap Addr Prefix → list (Addr * Prefix)).
Context (range_set : gset Prefix → list Prefix).
Context (Hnets : ∀ m, range_nets m ≡ₚ map_to_list m).
Context (Hips : ∀ m, range_ips m ≡ₚ map_to_list m).
Context (Hset : ∀ s, range_set s ≡ₚ elements s).

Lemma safe_dump {A} (a : A) : safe (dump graphviz dumps a).
Proof. apply safe_bind; [apply safe_get|]. intros st. case_match; auto using safe_fail, safe_ret. Qed.

Lemma safe_isInPool p : safe (isInPool p).
Proof. apply safe_bind; auto using safe_get, safe_ret. Qed.

Lemma safe_networkAcquire p : valid_prefix p → pBits p ≤ 32 →
  safe (networkAcquire clock graphviz dumps p).
Proof.
  intros Hp Hb. apply safe_bind; [by apply safe_acquire_prefix|]. intros [q|].
  - apply safe_bind; [apply safe_ret|]. intros [q'|]; auto using safe_dump, safe_fail.
  - apply safe_bind; [by apply safe_acquire_size|]. intros [q'|]; auto using safe_dump, safe_fail.
Qed.

Lemma safe_networkAcquireSpecific p ex : valid_prefix p →
  safe (networkAcquireSpecific clock graphviz dumps p ex).
Proof.
  intros Hp. apply safe_bind; [by apply safe_acquire_prefix|].
  intros [q|]; auto using safe_dump, safe_fail.
Qed.

Lemma safe_networkRelease p g : valid_prefix p → safe (networkRelease clock graphviz dumps p g).
Proof.
  intros Hp. apply safe_bind; [by apply safe_release|]. intros [q|]; auto using safe_dump, safe_ret.
Qed.

Lemma safe_ipAcquire p : valid_prefix p → safe (ipAcquire clock graphviz dumps p).
Proof.
  intros Hp. apply safe_bind; [by apply safe_ip_acquire|]. intros [q|]; auto using safe_dump, safe_fail.
Qed.

Lemma safe_ipAcquireWithAddr a p : valid_prefix p → valid_addr a →
  safe (ipAcquireWithAddr clock graphviz dumps a p).
Proof.
  intros Hp Ha. apply safe_bind; [by apply safe_ip_acquire_addr|].
  intros [q|]; auto using safe_dump, safe_fail.
Qed.

Lemma safe_ipRelease a p g : valid_prefix p → valid_addr a →
  safe (ipRelease clock graphviz dumps a p g).
Proof.
  intros Hp Ha. apply safe_bind; [by apply safe_ip_release|].
  intros [q|]; auto using safe_dump, safe_ret.
Qed.

Lemma safe_preallocated p n : valid_prefix p →
  safe (acquirePreallocatedIPs clock graphviz dumps p n).
Proof.
  intros Hp. unfold acquirePreallocatedIPs. case_match; [apply safe_fail|].
  apply safe_for_each. intros a Ha. apply safe_bind.
  - apply safe_bind; [apply safe_get|]. intros st. apply safe_bind; [|intros; apply safe_ret].
    destruct (IPIsAllocated st p a); [apply safe_ret|apply safe_fail].
  - intros [|]; [|apply safe_ret]. apply safe_bind; [|intros [|]; auto using safe_dump, safe_fail].
    destruct (next_ips_addr _ _ _ (valid_prefix_next_addr p Hp) Ha) as [_ [Hv|H0]].
    + by apply safe_ip_acquire_addr.
    + by apply safe_ip_acquire_outside, Contains_zero.
Qed.

Lemma safe_of_core {A} (r : result core_error A) : safe (of_core r).
Proof. destruct r; [apply safe_ret|apply safe_fail]. Qed.
Lemma safe_get_bind {B} (f : Ipam → SM B) :
  (∀ st, reachable clock ps st → safe (f st)) → safe (get ≫= f).
Proof. intros Hf st τ H. apply wp_bind, wp_ret. by apply Hf. Qed.

Lemma safe_of_core_bind {A B} (r : result core_error A) (f : A → SM B) :
  (∀ a, r = Ok a → safe (f a)) → safe (of_core r ≫= f).
Proof.
  intros Hf st τ H. destruct r as [a|e]; [|by apply wp_ret]. apply wp_bind, wp_ret. by apply Hf.
Qed.

(** What the invariants say of an acquired network. *)
Lemma reachable_addrs st p : reachable clock ps st → acquired st p →
  wf4 p ∧ ∀ a, a ∈ addrs st p → Contains p a = true.
Proof.
  intros [Hok _]%reachable_inv Hp.
  destruct (roots_rc_in ps (roots st) p (ro_wf _ _ Hok) Hp) as [Hw _]. split; [done|].
  unfold addrs, roots_held. destruct (roots_at (roots st) p) as [n|] eqn:E;
    [|by intros a ?%not_elem_of_nil].
  destruct (roots_at_in ps _ _ _ (ro_wf _ _ Hok) E) as ([_ _ _ Hc _ _] & _ & _).
  intros a (x & -> & Hx)%list_elem_of_fmap. auto.
Qed.

Lemma safe_parse_prefix {B} s (f : Prefix → SM B) :
  (∀ p, ParsePrefix s = Some p → safe (f p)) → safe (parse_prefix s ≫= f).
Proof.
  intros Hf st τ H. unfold parse_prefix. destruct (ParsePrefix s) as [p|]; [|by apply wp_ret].
  apply wp_bind, wp_ret. by apply Hf.
Qed.

Lemma safe_parse_addr {B} s (f : Addr → SM B) :
  (∀ a, ParseAddr s = Some a → safe (f a)) → safe (parse_addr s ≫= f).
Proof.
  intros Hf st τ H. unfold parse_addr. destruct (ParseAddr s) as [a|]; [|by apply wp_ret].
  apply wp_bind, wp_ret. by apply Hf.
Qed.

Lemma listNetworksOnCluster_valid items acc m :
  listNetworksOnCluster items acc = Ok m → (∀ p d, acc !! p = Some d → valid_prefix p) →
  ∀ p d, m !! p = Some d → valid_prefix p.
Proof.
  revert acc. induction items as [|nw items IH]; intros acc; cbn [listNetworksOnCluster].
  { by intros [= <-]. }
  repeat case_match; try done; [by apply IH..|]. intros Hm Hacc. apply (IH _ Hm).
  intros p' d. rewrite lookup_insert_Some. intros [[<- _]|[_ ?]]; [|by eapply Hacc].
  by eapply ParsePrefix_valid.
Qed.

Lemma listIPsOnCluster_valid items acc m :
  listIPsOnCluster items acc = Ok m →
  (∀ a p, acc !! a = Some p → valid_addr a ∧ valid_prefix p) →
  ∀ a p, m !! a = Some p → valid_addr a ∧ valid_prefix p.
Proof.
  revert acc. induction items as [|ip items IH]; intros acc; cbn [listIPsOnCluster].
  { by intros [= <-]. }
  repeat case_match; try done; [by apply IH..|]. intros Hm Hacc. apply (IH _ Hm).
  intros a' p'. rewrite lookup_insert_Some. intros [[<- <-]|[_ ?]]; [|by eapply Hacc].
  split; [by eapply ParseAddr_valid|by eapply ParsePrefix_valid].
Qed.

Lemma safe_list_networks {B} ans (f : gmap Prefix prefixDetails → SM B) :
  (∀ m, (∀ p d, m !! p = Some d → valid_prefix p) → safe (f m)) → safe (list_networks ans ≫= f).
Proof.
  intros Hf st τ H. unfold list_networks. destruct ans as [items|]; [|by apply wp_ret].
  destruct (listNetworksOnCluster items ∅) as [m|e] eqn:E; [|by apply wp_ret].
  apply wp_bind, wp_ret. apply Hf; [|done].
  eapply listNetworksOnCluster_valid; [exact E|]. intros p d. by rewrite lookup_empty.
Qed.

Lemma safe_list_ips {B} ans (f : gmap Addr Prefix → SM B) :
  (∀ m, (∀ a p, m !! a = Some p → valid_addr a ∧ valid_prefix p) → safe (f m)) →
  safe (list_ips ans ≫= f).
Proof.
  intros Hf st τ H. unfold list_ips. destruct ans as [items|]; [|by apply wp_ret].
  destruct (listIPsOnCluster items ∅) as [m|e] eqn:E; [|by apply wp_ret].
  apply wp_bind, wp_ret. apply Hf; [|done].
  eapply listIPsOnCluster_valid; [exact E|]. intros p d. by rewrite lookup_empty.
Qed.

Lemma range_nets_in m p d : (p, d) ∈ range_nets m ↔ m !! p = Some d.
Proof using Hnets. by rewrite Hnets, elem_of_map_to_list. Qed.
Lemma range_ips_in m a p : (a, p) ∈ range_ips m ↔ m !! a = Some p.
Proof using Hips. by rewrite Hips, elem_of_map_to_list. Qed.
Lemma range_set_in s p : p ∈ range_set s ↔ p ∈ s.
Proof using Hset. by rewrite Hset, elem_of_elements. Qed.

Lemma ListIPs_addrs st p : reachable clock ps st → valid_prefix p → in_pools ps p →
  ListIPs st p = Ok (addrs st p).
Proof.
  intros [Hok _]%reachable_inv Hp Hin. unfold ListIPs.
  pose proof (Ipam_search_spec ps st p Hok Hp) as Hs.
  destruct (Ipam_search st p) as [[[i n]|]|e]; [|by destruct Hs as (_ & _ & ->)|by destruct Hs].
  by destruct Hs as (_ & _ & _ & -> & _).
Qed.

Lemma foldl_insert_in (q p : Prefix) (a : Addr) l (acc : gmap Addr Prefix) :
  foldl (fun m b => <[b := q]> m) acc l !! a = Some p →
  acc !! a = Some p ∨ (p = q ∧ a ∈ l).
Proof.
  revert acc. induction l as [|b l IH]; intros acc; simpl; [auto|]. intros Hl.
  destruct (IH _ Hl) as [[[-> ->]|[_ ?]]%lookup_insert_Some|[-> ?]]; auto.
  - right. split; [done|left].
  - right. split; [done|by right].
Qed.

Lemma cached_ips_in st nets acc m : reachable clock ps st →
  (∀ p, p ∈ nets → acquired st p) → cached_ips st nets acc = Ok m →
  ∀ a p, m !! a = Some p → acc !! a = Some p ∨ (p ∈ nets ∧ a ∈ addrs st p).
Proof.
  intros Hst. revert acc. induction nets as [|q nets IH]; intros acc Hn; cbn [cached_ips].
  { intros [= <-]. auto. }
  pose proof (reachable_inv _ _ _ Hst) as [Hok _].
  destruct (roots_rc_in ps (roots st) q (ro_wf _ _ Hok)) as [Hq Hin]; [apply Hn; left|].
  rewrite ListIPs_addrs by auto with liqo. intros Hm a p Ha.
  destruct (IH _ ltac:(intros; apply Hn; by right) Hm a p Ha) as [Hacc|[Hp Hin']].
  - destruct (foldl_insert_in _ _ _ _ _ Hacc) as [?|[-> ?]]; [by left|right]. split; [left|done].
  - right. split; [by right|done].
Qed.

Lemma safe_handle_networks (l : list (Prefix * prefixDetails)) (pre : Prefix → prefixDetails → SM Prefix) :
  (∀ p d, (p, d) ∈ l → valid_prefix p) → (∀ p d, valid_prefix p → safe (pre p d)) →
  safe (for_each l (fun '(p, d) =>
    inpool ← isInPool p;
    if negb inpool && negb (exclusive d) then mret ()
    else
      _ ← pre p d;
      recover (acquirePreallocatedIPs clock graphviz dumps p (preallocated d))
              (networkRelease clock graphviz dumps p 0))).
Proof.
  intros Hl Hpre. apply safe_for_each. intros [p d] Hin. specialize (Hl _ _ Hin).
  apply safe_bind; [apply safe_isInPool|]. intros b. case_match; [apply safe_ret|].
  apply safe_bind; [by apply Hpre|]. intros _.
  apply safe_recover; [by apply safe_preallocated|by apply safe_networkRelease].
Qed.

Lemma safe_initialize nets ips :
  safe (initialize clock graphviz dumps range_nets range_ips nets ips).
Proof using Hnets Hips.
  apply safe_bind.
  - apply safe_list_networks. intros m Hm.
    apply (safe_handle_networks _ (fun p d => networkAcquireSpecific clock graphviz dumps p (exclusive d))).
    + intros p d Hin%range_nets_in. by eapply Hm.
    + intros p d Hp. by apply safe_networkAcquireSpecific.
  - intros _. apply safe_list_ips. intros m Hm. apply safe_for_each.
    intros [a p] Hin%range_ips_in. destruct (Hm _ _ Hin). by apply safe_ipAcquireWithAddr.
Qed.

Lemma safe_syncNetworks nets :
  safe (syncNetworks clock graphviz dumps grace range_nets range_set nets).
Proof using Hnets Hset.
  apply safe_list_networks. intros m Hm. apply safe_get_bind. intros st Hst. cbn zeta.
  pose proof (reachable_inv _ _ _ Hst) as [Hok _].
  apply safe_bind.
  - apply (safe_handle_networks _ (fun p d => if decide (p ∈ list_to_set (C:=gset Prefix) (ListNetworks st))
      then mret p else networkAcquireSpecific clock graphviz dumps p (exclusive d))).
    + intros p d Hin%range_nets_in. by eapply Hm.
    + intros p d Hp. case_decide; [apply safe_ret|by apply safe_networkAcquireSpecific].
  - intros _. apply safe_for_each. intros p Hp. rewrite range_set_in, elem_of_list_to_set in Hp.
    apply (ListNetworks_spec ps st Hok) in Hp.
    destruct (roots_rc_in ps (roots st) p (ro_wf _ _ Hok) Hp) as [Hw _].
    case_match; [|apply safe_ret]. apply safe_networkRelease. auto with liqo.
Qed.

Lemma safe_syncIPs ips nets :
  safe (syncIPs clock graphviz dumps grace range_ips ips nets).
Proof using Hips.
  apply safe_list_ips. intros mi Hmi. apply safe_list_networks. intros mn _.
  apply safe_get_bind. intros st Hst. pose proof (reachable_inv _ _ _ Hst) as [Hok _].
  apply safe_of_core_bind. intros cached Hc.
  assert (Hcv : ∀ a p, cached !! a = Some p → valid_addr a ∧ valid_prefix p).
  { intros a p Ha. destruct (ListNetworks_spec ps st Hok) as [Hl _].
    destruct (cached_ips_in st (ListNetworks st) ∅ cached Hst) with (a := a) (p := p)
      as [He|[Hp Hin]]; auto; [by intros; apply Hl|by rewrite lookup_empty in He|].
    destruct (reachable_addrs st p Hst) as [Hw Hco]; [by apply Hl|].
    specialize (Hco a Hin). split; [by eapply Contains_valid|auto with liqo]. }
  apply safe_bind; apply safe_for_each || (intros _; apply safe_for_each).
  - intros [a p] Hin%range_ips_in. destruct (Hmi _ _ Hin).
    case_match; [apply safe_ret|by apply safe_ipAcquireWithAddr].
  - intros [a p] Hin%range_ips_in. destruct (Hcv _ _ Hin).
    repeat case_match; try apply safe_ret. by apply safe_ipRelease.
Qed.
(** ** Requests *)

(** What can reach the daemon: the five gRPC calls and a turn of the
    reconciliation, with the answers of the API server. *)
Inductive request :=
| RqIPAcquire (cidr : string)
| RqIPRelease (ip cidr : string)
| RqNetworkAcquire (req : NetworkAcquireRequest)
| RqNetworkRelease (cidr : string)
| RqNetworkIsAvailable (cidr : string)
| RqSync (nets : option (list Network)) (ips : option (list IPResource))
         (nets' : option (list Network)).

Definition forget {A} (m : SM A) : SM () := _ ← m; mret ().

Definition handle (rq : request) : SM () :=
  match rq with
  | RqIPAcquire c => forget (IPAcquire_handler clock graphviz dumps c)
  | RqIPRelease i c => IPRelease_handler clock graphviz dumps i c
  | RqNetworkAcquire r => forget (NetworkAcquire_handler clock graphviz dumps r)
  | RqNetworkRelease c => NetworkRelease_handler clock graphviz dumps c
  | RqNetworkIsAvailable c => forget (NetworkIsAvailable_handler c)
  | RqSync n i n' => sync_turn clock graphviz dumps grace range_nets range_ips range_set n i n'
  end.

(** A remappable request has an IPv4 length. *)
Definition request_ok (rq : request) : Prop :=
  match rq with
  | RqNetworkAcquire r => Immutable r = true ∨ ∀ p, ParsePrefix (Cidr r) = Some p → pBits p ≤ 32
  | _ => True
  end.

(** What acquiring a network through the handlers' helpers does: [q] was
    acquired, though the dump that follows may fail; or nothing was. *)
Definition acq_post (st : Ipam) (ex : bool) (r : result server_error Prefix) (st' : Ipam) : Prop :=
  reachable clock ps st' ∧
  ((∃ q, wf4 q ∧ in_pools ps q ∧ can_acquire (refs st) q ex ∧
      (∀ x, refs st' x = refs st x + if decide (x = q) then acquire_delta ex else 0) ∧
      (∀ x, addrs st' x = addrs st x) ∧
      r = (if graphviz && negb (dumps st') then Err GraphvizFailed else Ok q)) ∨
   ((∃ e, r = Err e) ∧ ∀ x, refs st' x = refs st x)).

Lemma wp_dump {A} (a : A) st τ Q :
  Q (if graphviz && negb (dumps st) then Err GraphvizFailed else Ok a, st) τ →
  wp (dump graphviz dumps a st) τ Q.
Proof. intros HQ. unfold dump. apply wp_bind, wp_ret. by case_match; apply wp_ret. Qed.

Lemma acquire_prefix_wp st p ex τ : reachable clock ps st → valid_prefix p →
  wp (NetworkAcquireWithPrefix clock st p ex) τ (fun '(res, st') _ =>
    reachable clock ps st' ∧ acquire_spec ps (roots st) p ex res (roots st')).
Proof.
  intros H Hp. pose proof (reachable_inv _ _ _ H) as [Hok _].
  pose proof (run_op_safe st (OAcquirePrefix p ex) τ H Hp) as Hr. apply wp_bind_inv in Hr.
  pose proof (acquire_prefix_roots_spec clock ps (roots st) p ex τ Hok Hp) as Hs.
  assert (Hs' : wp (NetworkAcquireWithPrefix clock st p ex) τ
    (fun '(res, st') _ => acquire_spec ps (roots st) p ex res (roots st'))).
  { apply wp_bind. eapply wp_mono; [exact Hs|]. intros [res ts] τ' Hpost. by apply wp_ret. }
  eapply wp_mono; [exact (wp_and _ _ _ _ Hr Hs')|]. by intros [res st'] τ' [? ?].
Qed.

Lemma acquire_size_wp st s ex τ : reachable clock ps st → s ≤ 32 →
  wp (NetworkAcquire clock st s ex) τ (fun '(res, st') _ =>
    reachable clock ps st' ∧ alloc_spec ps (roots st) s ex res (roots st')).
Proof.
  intros H Hp. pose proof (reachable_inv _ _ _ H) as [Hok _].
  pose proof (run_op_safe st (OAcquireSize s ex) τ H Hp) as Hr. apply wp_bind_inv in Hr.
  pose proof (acquire_size_roots_spec clock ps (roots st) s ex τ Hok Hp) as Hs.
  assert (Hs' : wp (NetworkAcquire clock st s ex) τ
    (fun '(res, st') _ => alloc_spec ps (roots st) s ex res (roots st'))).
  { apply wp_bind. eapply wp_mono; [exact Hs|]. intros [res ts] τ' Hpost. by apply wp_ret. }
  eapply wp_mono; [exact (wp_and _ _ _ _ Hr Hs')|]. by intros [res st'] τ' [? ?].
Qed.

Lemma release_wp st p g τ : reachable clock ps st → valid_prefix p →
  wp (NetworkRelease clock st p g) τ (fun '(res, st') _ =>
    reachable clock ps st' ∧ release_spec ps (roots st) p g (clock τ) res (roots st')).
Proof.
  intros H Hp. pose proof (reachable_inv _ _ _ H) as [Hok _].
  pose proof (run_op_safe st (ORelease p g) τ H Hp) as Hr. apply wp_bind_inv in Hr.
  pose proof (release_roots_spec clock ps (roots st) p g τ Hok Hp) as Hs.
  assert (Hs' : wp (NetworkRelease clock st p g) τ
    (fun '(res, st') _ => release_spec ps (roots st) p g (clock τ) res (roots st'))).
  { apply wp_bind. eapply wp_mono; [exact Hs|]. intros [res ts] τ' Hpost. by apply wp_ret. }
  eapply wp_mono; [exact (wp_and _ _ _ _ Hr Hs')|]. by intros [res st'] τ' [? ?].
Qed.

Lemma networkAcquireSpecific_spec st p ex τ : reachable clock ps st → valid_prefix p →
  wp (networkAcquireSpecific clock graphviz dumps p ex st) τ (fun '(r, st') _ =>
    acq_post st ex r st' ∧ (∀ q, r = Ok q → q = p)).
Proof.
  intros H Hp. do 2 apply wp_bind. eapply wp_mono; [by apply acquire_prefix_wp|].
  intros [[q|] st'] τ' [Hr Hs]; apply wp_ret.
  - destruct Hs as (_ & Hh & -> & Hq & Hin & Hc & Hrc). apply wp_dump. split.
    + split; [done|]. left. exists p. by split_and!.
    + intros q. case_match; congruence.
  - destruct Hs as (_ & _ & _ & Hrc). apply wp_ret. split; [|done].
    split; [done|]. right. split; [by eexists|done].
Qed.

Lemma networkAcquire_spec st p τ : reachable clock ps st → valid_prefix p → pBits p ≤ 32 →
  wp (networkAcquire clock graphviz dumps p st) τ (fun '(r, st') _ =>
    acq_post st true r st' ∧ (∀ q, r = Ok q → pBits q = pBits p)).
Proof.
  intros H Hp Hb. do 2 apply wp_bind. eapply wp_mono; [by apply acquire_prefix_wp|].
  intros [[q|] st'] τ' [Hr Hs]; apply wp_ret; apply wp_bind.
  - destruct Hs as (_ & Hh & -> & Hq & Hin & Hc & Hrc). apply wp_ret. apply wp_dump. split.
    + split; [done|]. left. exists p. by split_and!.
    + intros q. case_match; congruence.
  - destruct Hs as (_ & Hh & _ & Hrc). apply wp_bind. eapply wp_mono; [by apply acquire_size_wp|].
    assert (Hcan : ∀ q, can_acquire (roots_rc (roots st')) q true → can_acquire (refs st) q true).
    { intros q Hc x. unfold refs. rewrite <- Hrc. apply Hc. }
    intros [[q|] st''] τ'' [Hr' Hs]; apply wp_ret.
    + destruct Hs as (Hqb & _ & _ & Hh' & _ & Hq & Hin & Hc & Hrc'). apply wp_dump. split.
      * split; [done|]. left. exists q. split_and!; auto; intros x; unfold refs, addrs.
        -- by rewrite Hrc', Hrc.
        -- by rewrite Hh', Hh.
      * intros q'. case_match; congruence.
    + destruct Hs as (_ & _ & Hrc'). apply wp_ret. split; [|done]. split; [done|]. right.
      split; [by eexists|]. intros x. unfold refs. by rewrite Hrc', Hrc.
Qed.

Lemma acq_post_ok st ex q st' : acq_post st ex (Ok q) st' →
  reachable clock ps st' ∧ wf4 q ∧ in_pools ps q ∧ can_acquire (refs st) q ex ∧
  (∀ x, refs st' x = refs st x + if decide (x = q) then acquire_delta ex else 0) ∧
  (∀ x, addrs st' x = addrs st x).
Proof.
  intros [Hr [(q' & ? & ? & ? & ? & ? & Hq)|[[e He] _]]]; [|done].
  destruct (graphviz && _); [done|]. by injection Hq as ->.
Qed.

Lemma safe_NetworkAcquire_handler req :
  Immutable req = true ∨ (∀ p, ParsePrefix (Cidr req) = Some p → pBits p ≤ 32) →
  safe (NetworkAcquire_handler clock graphviz dumps req).
Proof.
  intros Hreq. apply safe_parse_prefix. intros p Hp. pose proof (ParsePrefix_valid _ _ Hp) as Hv.
  apply safe_bind; [apply safe_isInPool|]. intros inpool.
  case_match; [apply safe_ret|]. case_match; [apply safe_fail|].
  intros st τ Hst. apply wp_bind.
  eapply (wp_mono _ _ (fun '(r, st') _ => ∃ ex, acq_post st ex r st')).
  - destruct (Immutable req).
    + eapply wp_mono; [by apply networkAcquireSpecific_spec|]. intros [r st'] τ' [? _]. eauto.
    + destruct Hreq as [?|Hb]; [done|].
      eapply wp_mono; [by apply networkAcquire_spec; auto|]. intros [r st'] τ' [? _]. eauto.
  - intros [[q|e] st'] τ' [ex Hpost]; [|by apply wp_ret; destruct Hpost].
    destruct (acq_post_ok _ _ _ _ Hpost) as (Hr & Hq & _).
    eapply (safe_bind (recover _ _) (fun _ => mret q)); [|intros; apply safe_ret|done].
    apply safe_recover; [apply safe_preallocated|apply safe_networkRelease]; auto with liqo.
Qed.

Lemma safe_handle rq : request_ok rq → safe (handle rq).
Proof using Hnets Hips Hset.
  intros Hrq. destruct rq as [c|i c|r|c|c|n i n']; cbn [handle].
  - apply safe_bind; [|intros; apply safe_ret]. apply safe_parse_prefix. intros p Hp%ParsePrefix_valid.
    apply safe_bind; [apply safe_isInPool|]. intros [|]; [by apply safe_ipAcquire|apply safe_fail].
  - apply safe_parse_addr. intros a Ha%ParseAddr_valid. apply safe_parse_prefix.
    intros p Hp%ParsePrefix_valid. by apply safe_ipRelease.
  - apply safe_bind; [|intros; apply safe_ret]. by apply safe_NetworkAcquire_handler.
  - apply safe_parse_prefix. intros p Hp%ParsePrefix_valid. by apply safe_networkRelease.
  - apply safe_bind; [|intros; apply safe_ret]. apply safe_parse_prefix. intros p _.
    apply safe_bind; [apply safe_isInPool|]. intros [|]; [|apply safe_ret].
    apply safe_bind; [apply safe_get|]. intros st. apply safe_ret.
  - apply safe_bind; [apply safe_syncNetworks|]. intros _. apply safe_syncIPs.
Qed.
End safe.
