(* ===== verification/IpamServerSpec.v ===== *)
(** * IpamServerSpec: the effect of the IPAM handlers

    The functional theorems about the daemon: what a network request returns
    and leaves behind, on success and on failure, and what a turn of the
    reconciliation achieves whatever the order in which Go walks its maps. *)

From S2P Require Export IpamServerSafe.
Local Open Scope Z_scope.

(** ** The first addresses of a network *)

Lemma Contains_at p i : wf4 p → 0 ≤ i < psize p → Contains p (addr_at p i) = true.
Proof. intros Hp Hi. apply Contains_addr_at; eauto. Qed.

Lemma Next_addr_at p i : wf4 p → 0 ≤ i → i + 1 < psize p → Next (addr_at p i) = addr_at p (i + 1).
Proof.
  intros Hp Hi Hlt.
  assert (Hc : Contains p (addr_at p (i + 1)) = true) by (apply Contains_at; auto; lia).
  apply Contains_valid in Hc as [_ Hv _]; [|done]. cbn [addr_at AddrFrom4 val bitlen] in Hv.
  unfold Next, addr_at, AddrFrom4. cbn [val bitlen Is4 zone]. destruct Hp as [_ [Hp0 _] _ _ _].
  change (Is4 (mkAddr 32 (val (pAddr p) + i) "")) with true. cbn iota.
  rewrite (Z.mod_small _ (2 ^ 128)) by lia. rewrite Z.mod_small by lia.
  rewrite (proj2 (Z.eqb_neq _ 0)) by lia. f_equal. lia.
Qed.

Lemma Next_last p : wf4 p → Contains p (Next (addr_at p (psize p - 1))) = false.
Proof.
  intros Hp. pose proof (psize_pos p Hp). apply not_true_iff_false. intros Hc.
  apply Contains_addr_at in Hc as (j & Hj & He); [|done].
  assert (Hl : Contains p (addr_at p (psize p - 1)) = true) by (apply Contains_at; auto; lia).
  apply Contains_valid in Hl as [_ Hv _]; [|done]. cbn [addr_at AddrFrom4 val bitlen] in Hv.
  destruct Hp as [_ [Hp0 _] _ _ _]. unfold Next, addr_at, AddrFrom4 in He. cbn [val bitlen zone] in He.
  change (Is4 (mkAddr 32 (val (pAddr p) + (psize p - 1)) "")) with true in He. cbn iota in He.
  rewrite (Z.mod_small _ (2 ^ 128)) in He by lia. case_match eqn:E; injection He; lia.
Qed.

(** The first [k] addresses from offset [i] lie in the network exactly when it
    is large enough. *)
Lemma next_ips_in p i k : wf4 p → 0 ≤ i < psize p →
  (∀ a, a ∈ next_ips (addr_at p i) k → Contains p a = true) ↔ i + Z.of_nat k ≤ psize p.
Proof.
  intros Hp. revert i. induction k as [|k IH]; intros i Hi; cbn [next_ips].
  { split; [lia|]. intros _ a Ha. by apply not_elem_of_nil in Ha. }
  assert (Hc : Contains p (addr_at p i) = true) by (by apply Contains_at).
  setoid_rewrite elem_of_cons. destruct (Z.eq_dec (i + 1) (psize p)) as [Hlast|Hne].
  - split.
    + intros H. destruct k as [|k]; [lia|]. exfalso.
      specialize (H (Next (addr_at p i)) ltac:(right; left)).
      replace i with (psize p - 1) in H by lia. by rewrite Next_last in H.
    + intros Hk a [->|Ha]; [done|]. replace k with 0%nat in Ha by lia. by apply not_elem_of_nil in Ha.
  - rewrite Next_addr_at by (auto; lia). specialize (IH (i + 1) ltac:(lia)). split.
    + intros H. assert (i + 1 + Z.of_nat k ≤ psize p) by (apply IH; auto). lia.
    + intros Hk a [->|Ha]; [done|]. apply IH; [lia|done].
Qed.

Lemma addr_at_0 p : wf4 p → pAddr p = addr_at p 0.
Proof.
  intros [Hl _ Hz _ _]. unfold addr_at, AddrFrom4. destruct (pAddr p) as [l v z]; simpl in *.
  subst. f_equal. lia.
Qed.

Lemma FirstN_in p n : wf4 p → 0 ≤ n →
  (∀ a, a ∈ FirstNIPsFromPrefix p n → Contains p a = true) ↔ n ≤ psize p.
Proof.
  intros Hp Hn. unfold FirstNIPsFromPrefix. rewrite (addr_at_0 p Hp).
  pose proof (psize_pos p Hp). rewrite next_ips_in by (auto; lia). lia.
Qed.

Section spec.
Context (clock : nat → Z) (Hclock : ∀ i j, (i < j)%nat → clock i < clock j).
Context (ps : list Prefix) (graphviz : bool) (dumps : Ipam → bool).
(** The graphviz dump is disabled, or writing its files never fails. *)
Context (Hdump : ∀ st, graphviz && negb (dumps st) = false).

Definition quiet (st : Ipam) (τ : nat) (st' : Ipam) (τ' : nat) : Prop :=
  reachable clock ps st' ∧ past clock st' τ' ∧ (τ ≤ τ')%nat ∧
  (∀ x, refs st' x = refs st x) ∧ (∀ x a, a ∈ addrs st x → a ∈ addrs st' x).

Lemma quiet_refl st τ : reachable clock ps st → past clock st τ → quiet st τ st τ.
Proof. by intros; split_and!. Qed.

Lemma quiet_trans st τ st1 τ1 st2 τ2 :
  quiet st τ st1 τ1 → quiet st1 τ1 st2 τ2 → quiet st τ st2 τ2.
Proof.
  intros (_ & _ & H1 & Hr1 & Ha1) (? & ? & H2 & Hr2 & Ha2).
  split_and!; auto; [lia|]. intros x. by rewrite Hr2.
Qed.

(** The address of an acquired network, as the code tests it. *)
Lemma IPIsAllocated_acquired st q a : reachable clock ps st → acquired st q → next_addr a →
  ∃ b, IPIsAllocated st q a = Ok b ∧ (b = true ↔ a ∈ addrs st q).
Proof.
  intros Hst Hq [Hz _]. pose proof (reachable_inv _ _ _ Hst) as [Hok _].
  destruct (reachable_addrs clock ps st q Hst Hq) as [Hw _].
  unfold IPIsAllocated. pose proof (Ipam_search_spec ps st q Hok ltac:(auto with liqo)) as Hs.
  destruct (Ipam_search st q) as [[[i n]|]|e].
  - destruct Hs as (_ & Hn & _ & Hh & _). eexists. split; [done|]. rewrite <- Hh.
    unfold isAllocatedIP. rewrite existsb_true_iff, list_elem_of_fmap.
    assert (He : ∀ x, x ∈ ips n → same_addr (addr x) a = true ↔ addr x = a).
    { intros x Hx. apply same_addr_spec. rewrite Hz.
      by apply (ok_ips _ _ Hn), Contains_spec in Hx as (_ & ? & _). }
    split; intros (x & ? & ?); exists x; naive_solver.
  - by destruct Hs as (_ & Hz0 & _).
  - destruct Hs as [_ Hno]. by destruct (roots_rc_in ps _ q (ro_wf _ _ Hok) Hq).
Qed.

Lemma ip_acquire_addr_wp st q a τ : reachable clock ps st → past clock st τ →
  valid_prefix q → valid_addr a →
  wp (IPAcquireWithAddr clock st q a) τ (fun '(r, st') τ' =>
    reachable clock ps st' ∧ ip_acquire_addr_spec st q a r st' ∧ past clock st' τ' ∧ (τ ≤ τ')%nat).
Proof using Hclock.
  intros Hst Hpast Hq Ha. pose proof (reachable_inv _ _ _ Hst) as [Hok _].
  pose proof (run_op_safe clock ps st (OIPAcquireAddr q a) τ Hst (conj Hq Ha)) as Hr.
  apply wp_bind_inv in Hr.
  pose proof (IPAcquireWithAddr_spec clock ps st q a τ Hok Hq Ha) as Hs.
  pose proof (IPAcquireWithAddr_past clock Hclock st q a τ Hpast) as Hp.
  eapply wp_mono; [exact (wp_wlp _ _ _ _ (wp_and _ _ _ _ Hr Hs) Hp)|].
  intros [r st'] τ' [[H1 [_ H2]] [H3 H4]]. by split_and!.
Qed.

(** One turn of the preallocation loop. *)
Lemma prealloc_step st q a τ : reachable clock ps st → past clock st τ → acquired st q →
  next_addr a →
  wp ((available ← ipIsAvailable a q;
       if (available : bool) then ipAcquireWithAddr clock graphviz dumps a q else mret ()) st) τ
     (fun '(r, st') τ' => quiet st τ st' τ' ∧ (r = Ok () ↔ Contains q a = true) ∧
                          (r = Ok () → a ∈ addrs st' q)).
Proof using Hclock Hdump.
  intros Hst Hpast Hq Ha. pose proof (reachable_inv _ _ _ Hst) as [Hok _].
  destruct (reachable_addrs clock ps st q Hst Hq) as [Hw Hin].
  destruct (IPIsAllocated_acquired st q a Hst Hq Ha) as (b & Hb & Hbin).
  unfold ipIsAvailable. do 3 (apply wp_bind; try apply wp_ret). rewrite Hb. apply wp_ret.
  apply wp_ret. destruct b; cbn [negb].
  { apply wp_ret. assert (Hm : a ∈ addrs st q) by (by apply Hbin).
    split; [by apply quiet_refl|]. split; [|done]. split; [intros _; auto|done]. }
  assert (Hna : a ∉ addrs st q) by (intros Hm; by apply Hbin in Hm).
  unfold ipAcquireWithAddr. apply wp_bind. destruct (Contains q a) eqn:Hc.
  2:{ unfold core_err. apply wp_bind. unfold IPAcquireWithAddr. rewrite Hc. cbn [negb].
      do 2 apply wp_ret. apply wp_ret. split; [by apply quiet_refl|]. split; [done|done]. }
  assert (Hva : valid_addr a) by (by eapply Contains_valid).
  apply wp_bind. eapply wp_mono; [apply ip_acquire_addr_wp; auto with liqo|].
  intros [[[b|]|e] st'] τ' (Hst' & Hs & Hpast' & Hle); apply wp_ret.
  - destruct Hs as (-> & _ & _ & _ & Hrc & Hh). apply wp_dump. rewrite Hdump.
    assert (Hadd : ∀ x c, c ∈ addrs st x → c ∈ addrs st' x).
    { intros x c Hx. rewrite Hh. case_decide; [subst x|done]. apply elem_of_app. by left. }
    split; [by split_and!|]. split; [done|]. intros _. rewrite Hh, decide_True by done.
    apply elem_of_app. right. left.
  - destruct Hs as [Hno _]. by destruct Hno.
  - destruct Hs as [Hno _]. by destruct Hno.
Qed.

Lemma prealloc_loop st q l τ : reachable clock ps st → past clock st τ → acquired st q →
  (∀ a, a ∈ l → next_addr a) →
  wp (for_each l (fun a =>
        available ← ipIsAvailable a q;
        if (available : bool) then ipAcquireWithAddr clock graphviz dumps a q else mret ()) st) τ
     (fun '(r, st') τ' => quiet st τ st' τ' ∧
        (r = Ok () ↔ ∀ a, a ∈ l → Contains q a = true) ∧
        (r = Ok () → ∀ a, a ∈ l → a ∈ addrs st' q)).
Proof using Hclock Hdump.
  revert st τ. induction l as [|a l IH]; intros st τ Hst Hpast Hq Hl; cbn [for_each].
  { apply wp_ret. split; [by apply quiet_refl|].
    split; [split; [|done]|]; intros _ a Ha; by apply not_elem_of_nil in Ha. }
  apply wp_bind. eapply wp_mono; [apply prealloc_step; auto; apply Hl; left|].
  intros [[[]|e] st1] τ1 (Hq1 & Hiff & Hmem).
  - pose proof Hq1 as (Hst1 & Hpast1 & _ & Hrc1 & _).
    eapply wp_mono; [apply IH; auto|].
    + unfold acquired. by rewrite Hrc1.
    + intros b Hb. apply Hl. by right.
    + intros [r st2] τ2 (Hq2 & Hiff2 & Hmem2). split; [by eapply quiet_trans|].
      setoid_rewrite elem_of_cons. split.
      * rewrite Hiff2. split; [intros H b [->|Hb]; [by apply Hiff|auto]|auto].
      * intros Hr b [->|Hb]; [|auto]. destruct Hq2 as (_ & _ & _ & _ & Hgrow). auto.
  - apply wp_ret. split; [done|]. split; [|done]. split; [done|]. intros H.
    assert (Err e = Ok ()) by (apply Hiff, H; left). done.
Qed.

(** The preallocation succeeds exactly when the count is at most the prefix
    length (the code compares it with [prefix.Bits()]) and at most the number
    of addresses of the network; then all of them are held. *)
Lemma acquirePreallocatedIPs_spec st q n τ : reachable clock ps st → past clock st τ →
  acquired st q → 0 ≤ n →
  wp (acquirePreallocatedIPs clock graphviz dumps q n st) τ (fun '(r, st') τ' =>
    quiet st τ st' τ' ∧ (r = Ok () ↔ n ≤ pBits q ∧ n ≤ psize q) ∧
    (r = Ok () → ∀ a, a ∈ FirstNIPsFromPrefix q n → a ∈ addrs st' q)).
Proof using Hclock Hdump.
  intros Hst Hpast Hq Hn. destruct (reachable_addrs clock ps st q Hst Hq) as [Hw _].
  unfold acquirePreallocatedIPs. destruct (Z.ltb_spec (pBits q) n).
  { apply wp_ret. split; [by apply quiet_refl|]. split; [|done]. split; [done|lia]. }
  eapply wp_mono; [apply prealloc_loop; auto|].
  - intros a. apply next_ips_addr, valid_prefix_next_addr. auto with liqo.
  - intros [r st'] τ' (H1 & H2 & H3). split; [done|]. split; [|done].
    rewrite H2, FirstN_in by done. naive_solver.
Qed.

(** A release without grace period of a network acquired in the past. *)
Lemma networkRelease_now st q τ : reachable clock ps st → past clock st τ → acquired st q →
  wp (networkRelease clock graphviz dumps q 0 st) τ (fun '(r, st') _ =>
    r = Ok () ∧ reachable clock ps st' ∧
    ∀ x, refs st' x = refs st x + if decide (x = q) then release_delta (refs st q) else 0).
Proof using Hdump.
  intros Hst Hpast Hq. pose proof (reachable_inv _ _ _ Hst) as [Hok _].
  destruct (reachable_addrs clock ps st q Hst Hq) as [Hw _].
  assert (Hv : valid_prefix q) by auto with liqo.
  do 2 apply wp_bind. eapply wp_mono; [by apply (release_wp clock ps)|].
  intros [res st'] τ' [Hst' (_ & _ & -> & Hrc)].
  unfold acquired, refs, roots_rc in Hq.
  destruct (roots_at (roots st) q) as [n|] eqn:Hat; [|done].
  pose proof (past_at clock st τ q n Hpast Hat) as Hold.
  assert (Hacq : isAcquired n && (lastUpdateTimestamp n + 0 <? clock τ) = true).
  { unfold isAcquired. rewrite (proj2 (Z.eqb_neq _ _) Hq), (proj2 (Z.ltb_lt _ _)) by lia. done. }
  rewrite Hacq in Hrc |- *. apply wp_ret. apply wp_dump. rewrite Hdump. done.
Qed.
Lemma dump_past {A} (a : A) st τ : past clock st τ →
  wlp (dump graphviz dumps a st) τ (fun '(_, st') τ' => (τ ≤ τ')%nat ∧ past clock st' τ').
Proof. intros H. unfold dump. apply wlp_bind, wlp_ret. by case_match; apply wlp_ret. Qed.

Lemma acquire_prefix_past st p ex τ : past clock st τ →
  wlp (core (fun st => NetworkAcquireWithPrefix clock st p ex) st) τ
      (fun '(_, st') τ' => (τ ≤ τ')%nat ∧ past clock st' τ').
Proof using Hclock.
  intros H. do 2 apply wlp_bind. eapply wlp_mono; [by apply acquire_prefix_roots_aged|].
  intros [res ts] τ' [? ?]. by do 2 apply wlp_ret.
Qed.

Lemma acquire_size_past st s ex τ : past clock st τ →
  wlp (core (fun st => NetworkAcquire clock st s ex) st) τ
      (fun '(_, st') τ' => (τ ≤ τ')%nat ∧ past clock st' τ').
Proof using Hclock.
  intros H. do 2 apply wlp_bind. eapply wlp_mono; [by apply acquire_size_roots_aged|].
  intros [res ts] τ' [? ?]. by do 2 apply wlp_ret.
Qed.

Lemma networkAcquireSpecific_past st p ex τ : past clock st τ →
  wlp (networkAcquireSpecific clock graphviz dumps p ex st) τ
      (fun '(_, st') τ' => (τ ≤ τ')%nat ∧ past clock st' τ').
Proof using Hclock.
  intros H. apply wlp_bind. eapply wlp_mono; [by apply acquire_prefix_past|].
  intros [[[q|]|e] st'] τ' [? ?]; [|by apply wlp_ret..].
  eapply wlp_mono; [by apply dump_past|]. intros [r st''] τ'' [? ?]. split; [lia|done].
Qed.

Lemma networkAcquire_past st p τ : past clock st τ →
  wlp (networkAcquire clock graphviz dumps p st) τ
      (fun '(_, st') τ' => (τ ≤ τ')%nat ∧ past clock st' τ').
Proof using Hclock.
  intros H. apply wlp_bind. eapply wlp_mono; [by apply acquire_prefix_past|].
  intros [[[q|]|e] st1] τ1 [? ?]; [apply wlp_bind|apply wlp_bind|by apply wlp_ret].
  - apply wlp_ret. eapply wlp_mono; [by apply dump_past|]. intros [r st''] τ'' [? ?]. split; [lia|done].
  - eapply wlp_mono; [by apply acquire_size_past|].
    intros [[[q|]|e] st2] τ2 [? ?]; [|apply wlp_ret; split; [lia|done]..].
    eapply wlp_mono; [by apply dump_past|]. intros [r st''] τ'' [? ?]. split; [lia|done].
Qed.

(** ** The network request *)

(** What a successful [NetworkAcquire] leaves: [q] counts one more holder, its
    first addresses are held, nothing else changed. *)
Definition granted (st : Ipam) (req : NetworkAcquireRequest) (q : Prefix) (st' : Ipam) : Prop :=
  let ex := negb (Immutable req) || Exclusive req in
  wf4 q ∧ in_pools ps q ∧ can_acquire (refs st) q ex ∧
  (∀ x, refs st' x = refs st x + if decide (x = q) then acquire_delta ex else 0) ∧
  PreAllocated req ≤ pBits q ∧ PreAllocated req ≤ psize q ∧
  ∀ a, a ∈ FirstNIPsFromPrefix q (PreAllocated req) → a ∈ addrs st' q.

(** The preallocation after an acquisition, with its roll-back. *)
Lemma prealloc_or_release st st1 ex q n τ :
  reachable clock ps st → past clock st1 τ → acq_post clock ps graphviz dumps st ex (Ok q) st1 →
  0 ≤ n →
  wp ((_ ← recover (acquirePreallocatedIPs clock graphviz dumps q n)
                   (networkRelease clock graphviz dumps q 0); mret q) st1) τ
     (fun '(r, st') _ => reachable clock ps st' ∧
        match r with
        | Ok q' => q' = q ∧ (∀ x, refs st' x = refs st1 x) ∧ n ≤ pBits q ∧ n ≤ psize q ∧
                   ∀ a, a ∈ FirstNIPsFromPrefix q n → a ∈ addrs st' q
        | Err _ => (∀ x, refs st' x = refs st x) ∧ ¬ (n ≤ pBits q ∧ n ≤ psize q)
        end).
Proof using Hclock Hdump.
  intros Hst Hpast Hpost Hn. destruct (acq_post_ok _ _ _ _ _ _ _ _ Hpost) as (Hst1 & Hq & Hin & Hc & Hrc & _).
  destruct (refs_shape ps st q) as [Hge _]; [by destruct (reachable_inv _ _ _ Hst)|].
  destruct (release_cancels (refs st) q ex Hq Hge Hc) as [Hcancel Hne].
  assert (Hacq : acquired st1 q) by (unfold acquired; rewrite Hrc, decide_True; done).
  do 2 apply wp_bind. eapply wp_mono; [by apply acquirePreallocatedIPs_spec|].
  intros [[[]|e] st2] τ2 ((Hst2 & Hpast2 & _ & Hrc2 & _) & Hiff & Hmem).
  - do 2 apply wp_ret. split; [done|]. destruct (proj1 Hiff eq_refl). by split_and!; auto.
  - apply wp_bind. eapply wp_mono; [apply networkRelease_now; auto; unfold acquired; by rewrite Hrc2|].
    intros [r st3] τ3 (-> & Hst3 & Hrc3). do 2 apply wp_ret. split; [done|]. split.
    + intros x. rewrite Hrc3, !Hrc2, !Hrc. case_decide; [subst x|lia]. rewrite decide_True by done. lia.
    + intros H. apply Hiff in H. done.
Qed.

Lemma NetworkAcquire_handler_spec st req p τ :
  reachable clock ps st → past clock st τ → ParsePrefix (Cidr req) = Some p →
  0 ≤ PreAllocated req → Immutable req = true ∨ pBits p ≤ 32 →
  wp (NetworkAcquire_handler clock graphviz dumps req st) τ (fun '(r, st') _ =>
    reachable clock ps st' ∧
    match r with
    | Ok q => (if Immutable req then q = p else pBits q = pBits p) ∧
              (if negb (IsPrefixInRoots st p) && Immutable req && negb (Exclusive req)
               then st' = st else granted st req q st')
    | Err _ => ∀ x, refs st' x = refs st x
    end).
Proof using Hclock Hdump.
  intros Hst Hpast Hp Hn Him. pose proof (ParsePrefix_valid _ _ Hp) as Hv.
  unfold NetworkAcquire_handler, parse_prefix. rewrite Hp. apply wp_bind, wp_ret.
  unfold isInPool. apply wp_bind; apply wp_ret.
  destruct (negb (IsPrefixInRoots st p) && Immutable req && negb (Exclusive req)) eqn:Hout.
  { apply wp_ret. split; [done|]. apply andb_true_iff in Hout as [[_ Hi]%andb_true_iff _].
    by rewrite Hi. }
  destruct (negb (IsPrefixInRoots st p) && Immutable req) eqn:Hout2; [by apply wp_ret|].
  apply wp_bind.
  eapply (wp_mono _ _ (fun '(r, st') τ' =>
    acq_post clock ps graphviz dumps st (negb (Immutable req) || Exclusive req) r st' ∧
    past clock st' τ' ∧ ∀ q, r = Ok q → if Immutable req then q = p else pBits q = pBits p)).
  - destruct (Immutable req); cbn [negb orb].
    + eapply wp_mono; [exact (wp_wlp _ _ _ _
        (networkAcquireSpecific_spec clock ps graphviz dumps st p (Exclusive req) τ Hst Hv)
        (networkAcquireSpecific_past st p (Exclusive req) τ Hpast))|].
      intros [r st'] τ' [[? ?] [? ?]]. by split_and!.
    + destruct Him as [?|Hb]; [done|]. eapply wp_mono; [exact (wp_wlp _ _ _ _
        (networkAcquire_spec clock ps graphviz dumps st p τ Hst Hv Hb)
        (networkAcquire_past st p τ Hpast))|].
      intros [r st'] τ' [[? ?] [? ?]]. by split_and!.
  - intros [[q|e] st1] τ1 (Hpost & Hpast1 & Hq).
    + eapply wp_mono; [by eapply prealloc_or_release|].
      destruct (acq_post_ok _ _ _ _ _ _ _ _ Hpost) as (_ & Hqw & Hin & Hc & Hrc & _).
      intros [[q'|e] st'] τ' [Hst' H]; (split; [done|]); [|by destruct H].
      destruct H as (-> & Hrc' & Hb1 & Hb2 & Hmem). split; [by apply Hq|].
      split_and!; auto. intros x. by rewrite Hrc'.
    + apply wp_ret. destruct Hpost as [Hst1 [(q & _ & _ & _ & _ & _ & He)|[_ Hrc]]]; [|done].
      by rewrite Hdump in He.
Qed.
(** ** Reconciliation *)

(** Nothing acquired is lost, no address of an acquired network is lost. *)
Definition grow (st st' : Ipam) : Prop :=
  reachable clock ps st' ∧ (∀ x, acquired st x → acquired st' x) ∧
  (∀ x a, acquired st x → a ∈ addrs st x → a ∈ addrs st' x).

Lemma grow_refl st : reachable clock ps st → grow st st.
Proof. by intros; split_and!. Qed.

Lemma grow_trans st st1 st2 : grow st st1 → grow st1 st2 → grow st st2.
Proof. intros (_ & H1 & H2) (? & H3 & H4). split_and!; auto. Qed.

Lemma quiet_grow st τ st' τ' : quiet st τ st' τ' → grow st st'.
Proof. intros (? & _ & _ & Hrc & Ha). split_and!; auto. intros x. unfold acquired. by rewrite Hrc. Qed.

Lemma acq_post_grow st ex q st' : reachable clock ps st →
  acq_post clock ps graphviz dumps st ex (Ok q) st' → grow st st' ∧ acquired st' q.
Proof.
  intros Hst Hpost. destruct (acq_post_ok _ _ _ _ _ _ _ _ Hpost) as (Hst' & Hq & _ & Hc & Hrc & Hh).
  destruct (refs_shape ps st q) as [Hge _]; [by destruct (reachable_inv _ _ _ Hst)|].
  destruct (release_cancels (refs st) q ex Hq Hge Hc) as [_ Hne].
  assert (Hacq : acquired st' q) by (unfold acquired; rewrite Hrc, decide_True; done).
  split; [|done]. split_and!; [done| |intros x a _; by rewrite Hh].
  intros x Hx. destruct (decide (x = q)) as [->|Hxq]; [done|].
  unfold acquired. by rewrite Hrc, decide_False, Z.add_0_r.
Qed.

(** What a cluster network is entitled to. *)
Definition settled (st : Ipam) (p : Prefix) (d : prefixDetails) : Prop :=
  in_pools ps p ∨ exclusive d = true →
  acquired st p ∧ ∀ a, a ∈ FirstNIPsFromPrefix p (preallocated d) → a ∈ addrs st p.

Lemma settled_grow st st' p d : grow st st' → settled st p d → settled st' p d.
Proof. intros (_ & Ha & Hi) Hs Hp. destruct (Hs Hp). split; auto. Qed.

Definition sync_body (cached : gset Prefix) (p : Prefix) (d : prefixDetails) : SM () :=
  inpool ← isInPool p;
  if negb inpool && negb (exclusive d) then mret ()
  else
    _ ← (if decide (p ∈ cached) then mret p
         else networkAcquireSpecific clock graphviz dumps p (exclusive d));
    recover (acquirePreallocatedIPs clock graphviz dumps p (preallocated d))
            (networkRelease clock graphviz dumps p 0).

Lemma sync_acquired (cached : gset Prefix) st p d τ : reachable clock ps st → past clock st τ → valid_prefix p →
  (p ∈ cached → acquired st p) →
  wlp ((if decide (p ∈ cached) then mret p
        else networkAcquireSpecific clock graphviz dumps p (exclusive d)) st) τ
      (fun '(r, st') τ' => ∀ q, r = Ok q →
         q = p ∧ grow st st' ∧ acquired st' p ∧ past clock st' τ' ∧ (τ ≤ τ')%nat).
Proof using Hclock.
  intros Hst Hpast Hp Hc. case_decide as Hin.
  { apply wlp_ret. intros q [= <-]. split_and!; auto. by apply grow_refl. }
  eapply wlp_mono; [exact (wlp_of_wp _ _ _ (wp_wlp _ _ _ _
    (networkAcquireSpecific_spec clock ps graphviz dumps st p (exclusive d) τ Hst Hp)
    (networkAcquireSpecific_past st p (exclusive d) τ Hpast)))|].
  intros [r st'] τ' [[Hpost Hq] [Hle Hpast']] q ->. rewrite (Hq q eq_refl) in *.
  destruct (acq_post_grow _ _ _ _ Hst Hpost). by split_and!.
Qed.

Lemma sync_step (cached : gset Prefix) st p d τ : reachable clock ps st → past clock st τ → valid_prefix p →
  0 ≤ preallocated d → (p ∈ cached → acquired st p) →
  wlp (sync_body cached p d st) τ (fun '(r, st') τ' =>
    r = Ok () → grow st st' ∧ past clock st' τ' ∧ (τ ≤ τ')%nat ∧ settled st' p d).
Proof using Hclock Hdump.
  intros Hst Hpast Hp Hn Hc. pose proof (reachable_inv _ _ _ Hst) as [Hok _].
  unfold sync_body, isInPool. apply wlp_bind, wlp_ret.
  pose proof (IsPrefixInRoots_spec ps st p Hok Hp) as Hpool.
  destruct (negb (IsPrefixInRoots st p) && negb (exclusive d)) eqn:Hskip.
  { apply wlp_ret. intros _. split_and!; [by apply grow_refl|done|lia|].
    apply andb_true_iff in Hskip as [H1%negb_true_iff H2%negb_true_iff].
    intros [Hin|He]; [apply Hpool in Hin|]; congruence. }
  apply wlp_bind. eapply wlp_mono; [by apply sync_acquired|].
  intros [[q|e] st1] τ1 H1; [|by apply wlp_ret].
  destruct (H1 q eq_refl) as (-> & Hg1 & Hacq & Hpast1 & Hle1). pose proof Hg1 as (Hst1 & _ & _).
  apply wlp_bind. eapply wlp_mono; [by apply wlp_of_wp, acquirePreallocatedIPs_spec|].
  intros [[[]|e] st2] τ2 (Hq2 & _ & Hmem).
  - apply wlp_ret. intros _. pose proof (quiet_grow _ _ _ _ Hq2) as Hg2.
    destruct Hq2 as (_ & Hpast2 & Hle2 & Hrc2 & _).
    split_and!; [by eapply grow_trans|done|lia|]. intros _. split; [|by apply Hmem].
    unfold acquired. by rewrite Hrc2.
  - apply wlp_bind, wlp_true. intros [r st3] τ3. by apply wlp_ret.
Qed.

Lemma sync_loop (cached : gset Prefix) l st τ : reachable clock ps st → past clock st τ →
  (∀ p d, (p, d) ∈ l → valid_prefix p ∧ 0 ≤ preallocated d) → (∀ p, p ∈ cached → acquired st p) →
  wlp (for_each l (fun '(p, d) => sync_body cached p d) st) τ (fun '(r, st') τ' =>
    r = Ok () → grow st st' ∧ past clock st' τ' ∧ (τ ≤ τ')%nat ∧ ∀ p d, (p, d) ∈ l → settled st' p d).
Proof using Hclock Hdump.
  revert st τ. induction l as [|[p d] l IH]; intros st τ Hst Hpast Hl Hc; cbn [for_each].
  { apply wlp_ret. intros _. split_and!; [by apply grow_refl|done|lia|].
    intros p d Hin. by apply not_elem_of_nil in Hin. }
  destruct (Hl p d ltac:(left)) as [Hp Hn].
  apply wlp_bind. eapply wlp_mono; [by apply sync_step; auto|].
  intros [[[]|e] st1] τ1 H1; [|by apply wlp_ret].
  destruct (H1 eq_refl) as (Hg1 & Hpast1 & Hle1 & Hs1). pose proof Hg1 as (Hst1 & Hacq1 & _).
  eapply wlp_mono; [apply IH; auto; intros; apply Hl; by right|].
  intros [r st2] τ2 H2 Hr. destruct (H2 Hr) as (Hg2 & Hpast2 & Hle2 & Hs2).
  split_and!; [by eapply grow_trans|done|lia|].
  intros p' d' [[= -> ->]|Hin]%elem_of_cons; [by eapply settled_grow|by apply Hs2].
Qed.

(** ** What a turn leaves alone *)

(** The counter of [x], and the whole node when there is one, are unchanged. *)
Definition same_at (x : Prefix) (st st' : Ipam) : Prop :=
  refs st' x = refs st x ∧
  ∀ n, roots_at (roots st) x = Some n → roots_at (roots st') x = Some n.

(** A handler that, when it succeeds, leaves [x] as it was. *)
Definition leaves {A} (x : Prefix) (m : SM A) : Prop :=
  ∀ st τ, reachable clock ps st →
    wlp (m st) τ (fun '(r, st') _ => ∀ a, r = Ok a → reachable clock ps st' ∧ same_at x st st').

Lemma leaves_ret {A} x (a : A) : leaves x (mret a).
Proof. intros st τ H. apply wlp_ret. by intros _ _. Qed.

Lemma leaves_fail {A} x e : leaves x (fail (A:=A) e).
Proof. intros st τ H. by apply wlp_ret. Qed.

Lemma leaves_get x : leaves x get.
Proof. intros st τ H. apply wlp_ret. by intros _ _. Qed.

Lemma leaves_bind {A B} x (m : SM A) (f : A → SM B) :
  leaves x m → (∀ a, leaves x (f a)) → leaves x (m ≫= f).
Proof.
  intros Hm Hf st τ H. apply wlp_bind. eapply wlp_mono; [by apply Hm|].
  intros [[a|e] st1] τ1 H1; [|by apply wlp_ret]. destruct (H1 a eq_refl) as [Hst1 [Hr1 Hn1]].
  eapply wlp_mono; [by apply Hf|]. intros [r st2] τ2 H2 b Hb. destruct (H2 b Hb) as [Hst2 [Hr2 Hn2]].
  split; [done|]. split; [by rewrite Hr2|auto].
Qed.

Lemma leaves_recover {A} x (m : SM A) h : leaves x m → leaves x (recover m h).
Proof.
  intros Hm st τ H. apply wlp_bind. eapply wlp_mono; [by apply Hm|].
  intros [[a|e] st1] τ1 H1; [by apply wlp_ret|].
  apply wlp_bind, wlp_true. intros [r st2] τ2. by apply wlp_ret.
Qed.

Lemma leaves_for_each {A} x (l : list A) f : (∀ y, y ∈ l → leaves x (f y)) → leaves x (for_each l f).
Proof.
  induction l as [|y l IH]; intros Hf; cbn [for_each]; [apply leaves_ret|].
  apply leaves_bind; [apply Hf; left|]. intros _. apply IH. intros z Hz. apply Hf. by right.
Qed.

Lemma leaves_dump {A} x (a : A) : leaves x (dump graphviz dumps a).
Proof. apply leaves_bind; [apply leaves_get|]. intros st. case_match; auto using leaves_fail, leaves_ret. Qed.

Lemma leaves_acquire x p ex : valid_prefix p → x ≠ p →
  leaves x (networkAcquireSpecific clock graphviz dumps p ex).
Proof.
  intros Hp Hx. apply leaves_bind; [|intros [q|]; auto using leaves_fail, leaves_dump].
  intros st τ Hst. pose proof (reachable_inv _ _ _ Hst) as [Hok _]. apply wlp_bind.
  eapply wlp_mono; [exact (wlp_of_wp _ _ _ (wp_wlp _ _ _ _
    (acquire_prefix_wp clock ps st p ex τ Hst Hp) (acquire_prefix_untouched clock ps st p ex τ Hok)))|].
  intros [res st'] τ' [[Hst' Hs] Hk]. apply wlp_ret. intros _ _. split; [done|].
  pose proof (reachable_inv _ _ _ Hst') as [Hok' _]. split.
  - unfold refs. destruct res; [destruct Hs as (_ & _ & -> & _ & _ & _ & ->)|by destruct Hs as (_ & _ & _ & ->)].
    by rewrite decide_False, Z.add_0_r.
  - intros n. by eapply roots_kept.
Qed.

Lemma leaves_prealloc x p n : valid_prefix p → x ≠ p →
  leaves x (acquirePreallocatedIPs clock graphviz dumps p n).
Proof.
  intros Hp Hx. unfold acquirePreallocatedIPs. case_match; [apply leaves_fail|].
  apply leaves_for_each. intros a Hin.
  pose proof (next_ips_addr _ _ _ (valid_prefix_next_addr _ Hp) Hin) as Hnext. apply leaves_bind.
  { apply leaves_bind; [apply leaves_get|]. intros st. apply leaves_bind; [|intros; apply leaves_ret].
    destruct (IPIsAllocated st p a); [apply leaves_ret|apply leaves_fail]. }
  intros [|]; [|apply leaves_ret]. apply leaves_bind; [|intros [b|]; auto using leaves_fail, leaves_dump].
  intros st τ Hst. pose proof (reachable_inv _ _ _ Hst) as [Hok _]. apply wlp_bind.
  destruct (Contains p a) eqn:Hc.
  2:{ unfold IPAcquireWithAddr. rewrite Hc. by do 2 apply wlp_ret. }
  assert (Ha : valid_addr a) by (destruct Hnext as [_ [?|H0]]; [done|]; by rewrite (Contains_zero p a H0) in Hc).
  pose proof (wp_and _ _ _ _ (IPAcquireWithAddr_spec clock ps st p a τ Hok Hp Ha)
    (wp_bind_inv _ _ _ _ (run_op_safe clock ps st (OIPAcquireAddr p a) τ Hst (conj Hp Ha)))) as Hwp.
  eapply wlp_mono; [exact (wlp_of_wp _ _ _ (wp_wlp _ _ _ _ Hwp (ip_acquire_addr_untouched clock st p a τ)))|].
  intros [res st'] τ' [[[Hok' Hs] Hst'] Hk]. apply wlp_ret. intros b _. split; [done|]. split.
  - destruct res as [[c|]|e]; [destruct Hs as (_ & _ & _ & _ & Hrc & _)|destruct Hs as (_ & Hrc & _)..]; apply Hrc.
  - intros m. by eapply roots_kept.
Qed.

Lemma leaves_sync_body x (cached : gset Prefix) p d : valid_prefix p → x ≠ p →
  leaves x (sync_body cached p d).
Proof.
  intros Hp Hx. apply leaves_bind.
  { apply leaves_bind; [apply leaves_get|]. intros. apply leaves_ret. }
  intros inpool. case_match; [apply leaves_ret|].
  apply leaves_bind; [case_decide; [apply leaves_ret|by apply leaves_acquire]|].
  intros _. by apply leaves_recover, leaves_prealloc.
Qed.

(** Releasing networks other than [p] leaves [p] as it was. *)
Lemma free_loop (l : list Prefix) (gone : Prefix → bool) grace p d st τ :
  reachable clock ps st → (∀ q, q ∈ l → valid_prefix q) → gone p = false → settled st p d →
  wlp (for_each l (fun q => if gone q then networkRelease clock graphviz dumps q grace else mret ()) st) τ
      (fun '(r, st') _ => settled st' p d).
Proof.
  revert st τ. induction l as [|q l IH]; intros st τ Hst Hl Hp Hs; cbn [for_each];
    [by apply wlp_ret|].
  assert (Hl' : ∀ q0, q0 ∈ l → valid_prefix q0) by (intros; apply Hl; by right).
  apply wlp_bind. destruct (gone q) eqn:Hg; [|apply wlp_ret; by apply IH].
  pose proof (reachable_inv _ _ _ Hst) as [Hok _].
  assert (Hv : valid_prefix q) by (apply Hl; left).
  eapply (wlp_mono _ _ (fun '(_, st') _ => reachable clock ps st' ∧ settled st' p d)).
  2:{ intros [[[]|e] st'] τ' [? ?]; [by apply IH|by apply wlp_ret]. }
  apply wlp_of_wp. do 2 apply wp_bind. eapply wp_mono; [by apply (release_wp clock ps)|].
  intros [res st'] τ' (Hst' & _ & Hh & _ & Hrc). apply wp_ret.
  assert (Hs' : settled st' p d).
  { intros Hd. destruct (Hs Hd) as [Hacq Hm]. assert (Hpq : p ≠ q) by (intros ->; congruence).
    assert (Hacq' : acquired st' p).
    { unfold acquired, refs. by rewrite Hrc, decide_False, Z.add_0_r. }
    split; [done|]. intros a Ha. unfold addrs. rewrite Hh by done. by apply Hm. }
  destruct res; [apply wp_dump; by case_match|by apply wp_ret].
Qed.

(** One release of the second pass: the counter of its network loses a share
    when the network is old enough, and nothing else changes but, perhaps, the
    update times of the networks around it. *)
Lemma release_step q g st τ : reachable clock ps st → past clock st τ → valid_prefix q →
  wlp (networkRelease clock graphviz dumps q g st) τ (fun '(_, st') τ' =>
    reachable clock ps st' ∧ past clock st' τ' ∧ (τ ≤ τ')%nat ∧
    (∀ x, x ≠ q → refs st' x = refs st x ∧
       ∀ n, ¬ under x q → acquired st x → roots_at (roots st) x = Some n →
            roots_at (roots st') x = Some n) ∧
    refs st' q = refs st q + match roots_at (roots st) q with
      | Some n => if isAcquired n && (lastUpdateTimestamp n + g <? clock τ)
                  then release_delta (refs st q) else 0
      | None => 0
      end).
Proof using Hclock.
  intros Hst Hpast Hq. pose proof (reachable_inv _ _ _ Hst) as [Hok _].
  do 2 apply wlp_bind.
  assert (Hpl : wlp (NetworkRelease clock st q g) τ (fun '(_, st') τ' => (τ ≤ τ')%nat ∧ past clock st' τ')).
  { apply wlp_bind. eapply wlp_mono; [by apply release_roots_aged|].
    intros [res ts] τ' [? ?]. by apply wlp_ret. }
  eapply wlp_mono; [exact (wlp_of_wp _ _ _ (wp_wlp _ _ _ _ (wp_wlp _ _ _ _
    (release_wp clock ps st q g τ Hst Hq) Hpl) (release_untouched clock st q g τ)))|].
  intros [res st'] τ' [[[Hst' (_ & _ & _ & Hrc)] [Hle Hpast']] Hsp]. apply wlp_ret.
  pose proof (reachable_inv _ _ _ Hst') as [Hok' _].
  match goal with |- wlp _ _ ?Q => assert (Hpost : Q (Ok (), st') τ') end.
  { split_and!; [done..| |].
    - intros x Hx. split; [unfold refs; by rewrite Hrc, decide_False, Z.add_0_r|].
      intros n Hu Hacq Hat. eapply roots_spared; [exact Hok|exact Hok'|done..| |done].
      unfold acquired, refs, roots_rc in Hacq. rewrite Hat in Hacq. unfold isAcquired.
      by apply negb_true_iff, Z.eqb_neq.
    - unfold refs at 1. rewrite Hrc, decide_True by done. by destruct (roots_at (roots st) q). }
  destruct res; [|by apply wlp_ret]. unfold dump. apply wlp_bind, wlp_ret.
  by destruct (graphviz && negb (dumps st')); apply wlp_ret.
Qed.

(** What the second pass makes of [x] between two moments: nothing, or one share
    of it is given back; a network above no other released one is given back
    when it was old enough from the start, and kept when it is not at the end. *)
Definition swept (x : Prefix) (others : Prefix → Prop) (g : Z) st (τ : nat) st' (τ' : nat) : Prop :=
  (refs st' x = refs st x ∨ (acquired st x ∧ refs st' x = refs st x + release_delta (refs st x))) ∧
  ∀ n, acquired st x → roots_at (roots st) x = Some n → (∀ q, others q → under x q → q = x) →
    (lastUpdateTimestamp n + g < clock τ → refs st' x = refs st x + release_delta (refs st x)) ∧
    (clock τ' ≤ lastUpdateTimestamp n + g → refs st' x = refs st x).

Definition free_body (gone : Prefix → bool) g (q : Prefix) : SM () :=
  if gone q then networkRelease clock graphviz dumps q g else mret ().

(** Releases of other networks leave the counter of [x]. *)
Lemma free_others (l : list Prefix) gone g x st τ :
  reachable clock ps st → past clock st τ → (∀ q, q ∈ l → valid_prefix q) → x ∉ l →
  wlp (for_each l (free_body gone g) st) τ (fun '(_, st') τ' =>
    reachable clock ps st' ∧ past clock st' τ' ∧ (τ ≤ τ')%nat ∧ refs st' x = refs st x).
Proof using Hclock.
  revert st τ. induction l as [|q l IH]; intros st τ Hst Hpast Hl Hx; cbn [for_each]; [by apply wlp_ret|].
  apply not_elem_of_cons in Hx as [Hxq Hx]. apply wlp_bind.
  eapply (wlp_mono _ _ (fun '(_, st') τ' =>
    reachable clock ps st' ∧ past clock st' τ' ∧ (τ ≤ τ')%nat ∧ refs st' x = refs st x)).
  { unfold free_body. destruct (gone q); [|by apply wlp_ret].
    eapply wlp_mono; [apply release_step; auto; apply Hl; left|].
    intros [r st'] τ' (? & ? & ? & Ho & _). destruct (Ho x Hxq). by split_and!. }
  intros [[[]|e] st1] τ1 (Hst1 & Hpast1 & Hle & Hr); [|by apply wlp_ret].
  eapply wlp_mono; [apply IH; auto; intros; apply Hl; by right|].
  intros [r st2] τ2 (? & ? & ? & Hr2). split_and!; [done..|lia|by rewrite Hr2].
Qed.

Lemma free_sweeps (l : list Prefix) gone g x st τ :
  reachable clock ps st → past clock st τ → (∀ q, q ∈ l → valid_prefix q) → NoDup l →
  x ∈ l → gone x = true →
  wlp (for_each l (free_body gone g) st) τ (fun '(r, st') τ' =>
    r = Ok () → swept x (fun q => q ∈ l) g st τ st' τ').
Proof using Hclock.
  revert st τ. induction l as [|q l IH]; intros st τ Hst Hpast Hl Hnd Hx Hg; cbn [for_each];
    [by apply not_elem_of_nil in Hx|].
  apply NoDup_cons in Hnd as [Hq Hnd]. apply wlp_bind. unfold free_body at 1.
  assert (Hv : valid_prefix q) by (apply Hl; left).
  assert (Hl' : ∀ q0, q0 ∈ l → valid_prefix q0) by (intros; apply Hl; by right).
  destruct (decide (x = q)) as [->|Hxq].
  - rewrite Hg. eapply wlp_mono; [by apply release_step|].
    intros [[[]|e] st1] τ1 (Hst1 & Hpast1 & Hle & _ & Hr); [|by apply wlp_ret].
    eapply wlp_mono; [by apply (free_others l gone g q)|].
    intros [r st2] τ2 (_ & _ & Hle2 & Hr2) _. unfold swept. rewrite Hr2, Hr.
    unfold acquired, refs, roots_rc. destruct (roots_at (roots st) q) as [n|]; [|split; [left; lia|done]].
    unfold isAcquired. split.
    + destruct (Z.eqb_spec (refCount n) 0), (Z.ltb_spec (lastUpdateTimestamp n + g) (clock τ)); cbn [negb andb]; auto with lia.
    + intros n' Hacq [= <-] _. rewrite (proj2 (Z.eqb_neq _ _) Hacq). cbn [negb andb].
      pose proof (clock_le clock Hclock τ τ2 ltac:(lia)).
      destruct (Z.ltb_spec (lastUpdateTimestamp n + g) (clock τ)); split; intros; lia.
  - apply elem_of_cons in Hx as [?|Hx]; [done|].
    eapply (wlp_mono _ _ (fun '(_, st') τ' =>
      reachable clock ps st' ∧ past clock st' τ' ∧ (τ ≤ τ')%nat ∧ refs st' x = refs st x ∧
      ∀ n, ¬ under x q → acquired st x → roots_at (roots st) x = Some n → roots_at (roots st') x = Some n)).
    { destruct (gone q); [|by apply wlp_ret]. eapply wlp_mono; [by apply release_step|].
      intros [r st'] τ' (? & ? & ? & Ho & _). destruct (Ho x Hxq). by split_and!. }
    intros [[[]|e] st1] τ1 (Hst1 & Hpast1 & Hle & Hr & Hn); [|by apply wlp_ret].
    eapply wlp_mono; [by apply IH|]. intros [r st2] τ2 H2 Hr2. destruct (H2 Hr2) as [Ha Hb].
    unfold swept, acquired in *. rewrite Hr in *. split; [done|]. intros n Hacq Hat Ho.
    destruct (Hb n) as [Hb1 Hb2]; [done| |intros q' Hq'; apply Ho; by right|].
    { apply Hn; [|done..]. intros Hu. by destruct Hxq; rewrite (Ho q) by (left || done). }
    split; [|done]. intros Hlt. apply Hb1. pose proof (clock_le clock Hclock τ τ1 Hle). lia.
Qed.

(** ** Properties *)

Context (grace : Z).
Context (range_nets : gmap Prefix prefixDetails → list (Prefix * prefixDetails)).
Context (range_ips : gmap Addr Prefix → list (Addr * Prefix)).
Context (range_set : gset Prefix → list Prefix).
Context (Hnets : ∀ m, range_nets m ≡ₚ map_to_list m).
Context (Hset : ∀ s, range_set s ≡ₚ elements s).

(** The networks the cluster does not list are swept, or stay free. *)
Definition cleaned (x : Prefix) st (τ : nat) st' (τ' : nat) : Prop :=
  (¬ acquired st x → ¬ acquired st' x) ∧ swept x (acquired st) grace st τ st' τ'.

Lemma syncNetworks_settled st τ items m : reachable clock ps st → past clock st τ →
  listNetworksOnCluster items ∅ = Ok m → (∀ p d, m !! p = Some d → 0 ≤ preallocated d) →
  wlp (syncNetworks clock graphviz dumps grace range_nets range_set (Some items) st) τ
      (fun '(r, st') τ' => r = Ok () →
         (∀ p d, m !! p = Some d → settled st' p d) ∧ (∀ x, m !! x = None → cleaned x st τ st' τ')).
Proof using Hclock Hdump Hnets Hset.
  intros Hst Hpast Hm Hn. unfold syncNetworks, list_networks. rewrite Hm.
  apply wlp_bind, wlp_ret. apply wlp_bind, wlp_ret. cbn zeta.
  set (cached := list_to_set (ListNetworks st) : gset Prefix).
  pose proof (reachable_inv _ _ _ Hst) as [Hok _].
  destruct (ListNetworks_spec ps st Hok) as [Hlist _].
  assert (Hv : ∀ p d, m !! p = Some d → valid_prefix p).
  { eapply listNetworksOnCluster_valid; [exact Hm|]. intros p d. by rewrite lookup_empty. }
  assert (Hcv : ∀ p, p ∈ cached ↔ acquired st p).
  { intros p. unfold cached. rewrite elem_of_list_to_set. apply Hlist. }
  assert (Hrs : ∀ q, q ∈ range_set cached ↔ acquired st q).
  { intros q. by rewrite Hset, elem_of_elements. }
  assert (Hrv : ∀ q, q ∈ range_set cached → valid_prefix q).
  { intros q Hq%Hrs. destruct (reachable_addrs clock ps st q Hst Hq). auto with liqo. }
  assert (Hrn : ∀ p d, (p, d) ∈ range_nets m ↔ m !! p = Some d).
  { intros p d. by rewrite Hnets, elem_of_map_to_list. }
  apply wlp_bind.
  assert (Hlv : ∀ x, m !! x = None → leaves x (for_each (range_nets m) (fun '(p, d) => sync_body cached p d))).
  { intros x Hx. apply leaves_for_each. intros [p d] Hpd%Hrn. apply leaves_sync_body; [eauto|congruence]. }
  intros [r st1] τ1 Hrun1.
  pose proof (fun x Hx => Hlv x Hx st τ Hst _ _ Hrun1) as H1.
  pose proof (sync_loop cached (range_nets m) st τ Hst Hpast ltac:(by intros p d ?%Hrn; eauto)
                ltac:(intros p; apply Hcv) _ _ Hrun1) as H2.
  destruct r as [[]|e]; [|by apply wlp_ret]. cbn beta iota in H1, H2.
  destruct (H2 eq_refl) as ((Hst1 & _ & _) & Hpast1 & Hle1 & Hs1).
  intros [r st2] τ2 Hrun2 ->. split.
  - intros p d Hp.
    refine (free_loop (range_set cached) (fun q => negb (isNetworkInCluster m q)) grace p d st1 τ1
              Hst1 Hrv _ _ _ τ2 Hrun2).
    + unfold isNetworkInCluster. by rewrite Hp.
    + by apply Hs1, Hrn.
  - intros x Hx. destruct (H1 x Hx () eq_refl) as [_ [Hr Hat]].
    set (gone q := negb (isNetworkInCluster m q)) in *.
    assert (Hgone : gone x = true) by (unfold gone, isNetworkInCluster; by rewrite Hx).
    destruct (decide (x ∈ range_set cached)) as [Hin|Hin].
    + assert (Hnd : NoDup (range_set cached)) by (rewrite Hset; apply NoDup_elements).
      destruct (free_sweeps _ gone grace x st1 τ1 Hst1 Hpast1 Hrv Hnd Hin Hgone _ _ Hrun2 eq_refl) as [Ha Hb].
      split; [by intros ?; apply Hrs in Hin|]. unfold acquired in *. rewrite Hr in *. split; [done|].
      intros n Hacq Hn' Ho. destruct (Hb n) as [Hb1 Hb2]; [done|auto|intros q Hq; apply Ho, Hrs, Hq|].
      split; [|done]. intros Hlt. apply Hb1. pose proof (clock_le clock Hclock τ τ1 Hle1). lia.
    + destruct (free_others _ gone grace x st1 τ1 Hst1 Hpast1 Hrv Hin _ _ Hrun2) as (_ & _ & _ & Hr2).
      rewrite Hrs in Hin. unfold cleaned, swept, acquired in *. rewrite Hr2, Hr.
      split; [done|]. split; [by left|]. by intros n Hacq.
Qed.
End spec.

(** ** Properties of the IPAM daemon, with witnesses *)

(** Go may walk a map in any order, visiting each entry once. *)
Class MapOrder (range_nets : gmap Prefix prefixDetails → list (Prefix * prefixDetails))
    (range_ips : gmap Addr Prefix → list (Addr * Prefix))
    (range_set : gset Prefix → list Prefix) : Prop := {
  order_nets m : range_nets m ≡ₚ map_to_list m;
  order_ips m : range_ips m ≡ₚ map_to_list m;
  order_set s : range_set s ≡ₚ elements s
}.

#[global] Instance default_order : MapOrder map_to_list map_to_list elements.
Proof. by split. Qed.

(** A clock that never stands still. *)
Class Ticking (clock : nat → Z) : Prop := ticking i j : (i < j)%nat → clock i < clock j.
#[global] Instance ticks_ticking : Ticking ticks.
Proof. unfold Ticking, ticks. lia. Qed.

(** C5: the daemon never crashes.  On a reachable state every gRPC handler, with
    any text as argument, and every turn of the reconciliation, whatever the API
    server answers and whatever the order of the maps, returns and leads to a
    reachable state, so the invariants of the core hold between any two
    requests.  A remappable network request must have a length up to /32. *)
Theorem handlers_safe clock ps graphviz dumps grace rn ri rs (O : MapOrder rn ri rs) rq st τ :
  request_ok rq → reachable clock ps st →
  wp (handle clock graphviz dumps grace rn ri rs rq st) τ
     (fun '(_, st') _ => reachable clock ps st').
Proof. intros Hrq Hst. apply safe_handle; auto; apply O. Qed.

(** A network request.  With a clock that moves forward, the request
    returns.  On success the network is the requested one (immutable) or one of
    the same length (remapped); an out-of-pool shared reservation changes
    nothing; otherwise the network lies in a pool, could be acquired, counts one
    holder more, its first [PreAllocated] addresses are held, and no other
    counter moved.  On failure no counter moved at all: the acquisition is
    rolled back. *)
Theorem network_acquire_effect clock ps graphviz dumps (T : Ticking clock) st req p τ :
  (∀ st, graphviz && negb (dumps st) = false) →
  reachable clock ps st → past clock st τ → ParsePrefix (Cidr req) = Some p →
  0 ≤ PreAllocated req → Immutable req = true ∨ pBits p ≤ 32 →
  wp (NetworkAcquire_handler clock graphviz dumps req st) τ (fun '(r, st') _ =>
    reachable clock ps st' ∧
    match r with
    | Ok q => (if Immutable req then q = p else pBits q = pBits p) ∧
              (if negb (IsPrefixInRoots st p) && Immutable req && negb (Exclusive req)
               then st' = st else granted ps st req q st')
    | Err _ => ∀ x, refs st' x = refs st x
    end).
Proof. intros Hd. apply NetworkAcquire_handler_spec; auto. Qed.

(** C6: reconciliation, the networks' half of a turn ([syncNetworks]; the
    addresses' half, [syncIPs], is not covered).  When it succeeds,
    whatever the order in which the maps were walked,
    - every network of the cluster that lies in a pool or is exclusive is
      acquired and its preallocated addresses are held: nothing the second pass
      releases undoes the first;
    - a network the cluster does not list stays free if it was free, and if it
      was acquired it is kept or loses exactly one share;
    - it does lose it when no other acquired network lies below it and it was
      last updated more than the grace period before the turn, and it is kept
      when the grace period has not elapsed by the end of the turn.  (A network
      above others may be spared longer: joining the halves of a network
      restarts its update time.) *)
Theorem sync_settles clock ps graphviz dumps (T : Ticking clock) grace rn ri rs
    (O : MapOrder rn ri rs) st τ items m :
  (∀ st, graphviz && negb (dumps st) = false) →
  reachable clock ps st → past clock st τ → listNetworksOnCluster items ∅ = Ok m →
  (∀ p d, m !! p = Some d → 0 ≤ preallocated d) →
  wp (syncNetworks clock graphviz dumps grace rn rs (Some items) st) τ (fun '(r, st') τ' =>
    reachable clock ps st' ∧
    (r = Ok () →
      (∀ p d, m !! p = Some d → in_pools ps p ∨ exclusive d = true →
         acquired st' p ∧ ∀ a, a ∈ FirstNIPsFromPrefix p (preallocated d) → a ∈ addrs st' p) ∧
      (∀ x, m !! x = None →
         (¬ acquired st x → ¬ acquired st' x) ∧
         (refs st' x = refs st x ∨
          acquired st x ∧ refs st' x = refs st x + release_delta (refs st x)) ∧
         (∀ n, acquired st x → roots_at (roots st) x = Some n →
            (∀ q, acquired st q → under x q → q = x) →
            (lastUpdateTimestamp n + grace < clock τ → refs st' x = refs st x + release_delta (refs st x)) ∧
            (clock τ' ≤ lastUpdateTimestamp n + grace → refs st' x = refs st x))))).
Proof.
  intros Hd Hst Hpast Hm Hn. eapply wp_mono; [apply wp_wlp|].
  - apply (safe_syncNetworks clock ps graphviz dumps grace rn rs); [apply O|apply O|exact Hst].
  - eapply syncNetworks_settled; eauto; apply O.
  - intros [r st'] τ' [? H]. split; [done|]. intros Hr. destruct (H Hr) as [H1 H2].
    split; [exact H1|exact H2].
Qed.

(** Preallocating the first [n] addresses of an acquired network succeeds
    exactly when [n] is at most the length of the prefix and at most the number
    of its addresses: the size check of the code compares the count with the
    prefix length, so a /8 network refuses nine addresses. *)
Theorem preallocation_iff clock ps graphviz dumps (T : Ticking clock) st q n τ :
  (∀ st, graphviz && negb (dumps st) = false) →
  reachable clock ps st → past clock st τ → acquired st q → 0 ≤ n →
  wp (acquirePreallocatedIPs clock graphviz dumps q n st) τ (fun '(r, st') _ =>
    (r = Ok () ↔ n ≤ pBits q ∧ n ≤ psize q) ∧ (∀ x, refs st' x = refs st x) ∧
    (r = Ok () → ∀ a, a ∈ FirstNIPsFromPrefix q n → a ∈ addrs st' q)).
Proof.
  intros Hd Hst Hpast Hq Hn. eapply wp_mono; [by apply (acquirePreallocatedIPs_spec clock T ps)|].
  intros [r st'] τ' ((_ & _ & _ & Hrc & _) & H1 & H2). by split_and!.
Qed.

(** Start-up.  With IPv4 pools, [New] returns; on success the pools were
    masked and disjoint and the state it publishes is reachable. *)
Theorem start_up clock graphviz dumps rn ri rs (O : MapOrder rn ri rs) pools ps nets ips τ :
  parse_pools pools = Ok ps → (∀ p, p ∈ ps → bitlen (pAddr p) = 32) →
  wp (New clock graphviz dumps rn ri pools nets ips) τ (fun r _ =>
    match r with
    | Ok st => reachable clock ps st ∧ checkRoots ps = None
    | Err _ => True
    end).
Proof.
  intros Hps H4. unfold New. rewrite Hps.
  assert (Hpt : ∀ p, p ∈ ps → pool_text p).
  { clear -Hps H4. revert ps Hps H4. induction pools as [|s pools IH]; intros ps; cbn [parse_pools].
    { intros [= <-] _ p Hp. by apply not_elem_of_nil in Hp. }
    destruct (ParsePrefix s) as [q|] eqn:Hq; [|done]. destruct (parse_pools pools) as [ps'|]; [|done].
    intros [= <-] H4 p Hp. split; [|by apply H4]. apply elem_of_cons in Hp as [->|Hp].
    - by eapply ParsePrefix_valid.
    - apply (IH ps' eq_refl); [intros; apply H4; by right|done]. }
  apply wp_bind. destruct (wp_inv _ _ _ (NewIpam_spec clock ps τ Hpt)) as (r & τ' & Hrun & Hpost).
  unfold wp. rewrite Hrun. destruct r as [st|e]; [|done].
  assert (Hst : reachable clock ps st) by (eapply reach_new; eauto).
  assert (Hck : checkRoots ps = None).
  { unfold NewIpam in Hrun. by destruct (checkRoots ps); [injection Hrun|]. }
  change (wp (x ← initialize clock graphviz dumps rn ri nets ips st;
              let '(r, st') := x in mret (match r with Ok _ => Ok st' | Err e => Err e end)) τ'
    (fun r _ => match r with Ok st => reachable clock ps st ∧ checkRoots ps = None | Err _ => True end)).
  apply wp_bind. eapply wp_mono.
  - apply (safe_initialize clock ps graphviz dumps rn ri); [apply O|apply O|exact Hst].
  - intros [[[]|e] st'] τ2 Hst'; by apply wp_ret.
Qed.

(** A remappable request for an IPv6 network crashes the daemon: the text
    parses, no pool contains it, and the fallback by length splits an IPv4
    address. *)
Theorem ipv6_request_panics :
  NetworkAcquire_handler ticks false (fun _ => true)
    (mkNetworkAcquireRequest "fd00::/64" false false 0)
    (state_of (run_from ticks [net4 10 0 0 0 8] [])) 1%nat = Panic.
Proof. vm_compute. reflexivity. Qed.

(** ** Witnesses *)

Fixpoint olderb (B : Z) (t : tree) : bool :=
  match t with
  | Nil => true
  | Node n l r => (lastUpdateTimestamp n <? B) && olderb B l && olderb B r
  end.

Lemma olderb_spec B t : olderb B t = true → older B t.
Proof.
  induction t; simpl; [done|].
  intros [[?%Z.ltb_lt ?]%andb_true_iff ?]%andb_true_iff. auto.
Qed.

Lemma example_past : past ticks example_state 40.
Proof.
  apply Forall_forall. intros t Ht. apply olderb_spec.
  apply (proj1 (forallb_true_iff (olderb (ticks 40)) (roots example_state))); [|done].
  vm_compute. reflexivity.
Qed.

Lemma handlers_safe_witness :
  wp (handle ticks false (fun _ => true) 0 map_to_list map_to_list elements
        (RqNetworkAcquire (mkNetworkAcquireRequest "10.1.0.0/16" false true 3)) example_state) 40%nat
     (fun '(_, st') _ => reachable ticks [net4 10 0 0 0 8] st').
Proof.
  apply (handlers_safe ticks [net4 10 0 0 0 8] false (fun _ => true) 0
           map_to_list map_to_list elements default_order).
  - right. intros p Hp. vm_compute in Hp. injection Hp as <-. simpl. lia.
  - exact example_reachable.
Defined.

Definition example_request : NetworkAcquireRequest :=
  mkNetworkAcquireRequest "10.1.0.0/16" false true 3.

Lemma network_acquire_effect_witness :
  wp (NetworkAcquire_handler ticks false (fun _ => true) example_request example_state) 40%nat
    (fun '(r, _) _ => r = Ok (net4 10 3 0 0 16)) ∧
  wp (NetworkAcquire_handler ticks false (fun _ => true) example_request example_state) 40%nat
    (fun '(r, st') _ => reachable ticks [net4 10 0 0 0 8] st' ∧
       match r with
       | Ok q => (if Immutable example_request then q = net4 10 1 0 0 16
                  else pBits q = pBits (net4 10 1 0 0 16)) ∧
           (if negb (IsPrefixInRoots example_state (net4 10 1 0 0 16)) && Immutable example_request
               && negb (Exclusive example_request)
            then st' = example_state else granted [net4 10 0 0 0 8] example_state example_request q st')
       | Err _ => ∀ x, refs st' x = refs example_state x
       end).
Proof.
  split; [vm_compute; reflexivity|].
  apply (network_acquire_effect ticks [net4 10 0 0 0 8] false (fun _ => true) ticks_ticking);
    [reflexivity|exact example_reachable|exact example_past|vm_compute; reflexivity|simpl; lia|].
  right. simpl. lia.
Defined.

Definition example_networks : list Network :=
  [mkNetwork false ∅ "10.1.0.0/16" 2; mkNetwork true ∅ "10.7.0.0/16" 0;
   mkNetwork false {[NetworkSharedLabelKey := "true"%string]} "10.2.0.0/16" 1;
   mkNetwork false ∅ "10.5.0.0/16" 4].
Definition example_cluster : gmap Prefix prefixDetails :=
  match listNetworksOnCluster example_networks ∅ with Ok m => m | Err _ => ∅ end.

Lemma example_lonely q : q ∈ ListNetworks example_state → under (net4 10 0 0 0 16) q →
  q = net4 10 0 0 0 16.
Proof.
  intros Hq Hu.
  assert (Hf : forallb (fun q => negb (isPrefixChildOf (net4 10 0 0 0 16) q) || bool_decide (q = net4 10 0 0 0 16))
                 (ListNetworks example_state) = true) by (vm_compute; reflexivity).
  rewrite forallb_true_iff in Hf. specialize (Hf q Hq).
  destruct (ListNetworks_spec _ _ example_ok) as [Hl _]. apply Hl in Hq.
  destruct (reachable_addrs ticks _ example_state q example_reachable Hq) as [Hw _].
  apply isPrefixChildOf_spec in Hu; [|by apply net4_wf4|auto with liqo].
  rewrite Hu in Hf. by apply bool_decide_eq_true in Hf.
Qed.

(** The turn on this cluster acquires 10.5.0.0/16, which it lists, with its first
    four addresses, and gives 10.0.0.0/16 back, which it does not. *)
Lemma sync_settles_witness :
  wp (syncNetworks ticks false (fun _ => true) 0 map_to_list elements (Some example_networks)
        example_state) 40%nat (fun '(r, st') _ => r = Ok () ∧
    acquired st' (net4 10 5 0 0 16) ∧
    (∀ a, a ∈ FirstNIPsFromPrefix (net4 10 5 0 0 16) 4 → a ∈ addrs st' (net4 10 5 0 0 16)) ∧
    acquired example_state (net4 10 0 0 0 16) ∧ ¬ acquired st' (net4 10 0 0 0 16)).
Proof.
  eapply wp_mono; [apply (wp_and _ _ (fun '(r, _) _ => r = Ok ())); [vm_compute; reflexivity|]|].
  - apply (sync_settles ticks [net4 10 0 0 0 8] false (fun _ => true) ticks_ticking 0
             map_to_list map_to_list elements default_order example_state 40 example_networks example_cluster);
      [reflexivity|exact example_reachable|exact example_past|reflexivity|].
    apply (map_Forall_to_list (fun _ d => 0 ≤ preallocated d)).
    vm_compute. repeat constructor; discriminate.
  - intros [r st'] τ' [-> [_ H]]. destruct (H eq_refl) as [Hin Hout].
    destruct (Hin (net4 10 5 0 0 16) (mkDetails 4 true)) as [Ha Hm]; [vm_compute; reflexivity|by right|].
    destruct (Hout (net4 10 0 0 0 16)) as (_ & _ & Hold); [vm_compute; reflexivity|].
    assert (Hacq : acquired example_state (net4 10 0 0 0 16)) by (vm_compute; discriminate).
    split_and!; [done..|].
    destruct (roots_at (roots example_state) (net4 10 0 0 0 16)) as [n|] eqn:Hn; [|by vm_compute in Hn].
    destruct (Hold n Hacq eq_refl) as [Hrel _].
    + intros q Hq Hu. destruct (ListNetworks_spec _ _ example_ok) as [Hl _].
      apply Hl in Hq. revert q Hq Hu. by apply example_lonely.
    + unfold acquired. rewrite Hrel; [vm_compute; congruence|]. vm_compute in Hn. injection Hn as <-. vm_compute. reflexivity.
Defined.

Lemma preallocation_iff_witness :
  wp (acquirePreallocatedIPs ticks false (fun _ => true) (net4 10 1 0 0 16) 17 example_state) 40%nat
    (fun '(r, st') _ => (r = Ok () ↔ 17 ≤ 16 ∧ 17 ≤ psize (net4 10 1 0 0 16)) ∧
       (∀ x, refs st' x = refs example_state x) ∧
       (r = Ok () → ∀ a, a ∈ FirstNIPsFromPrefix (net4 10 1 0 0 16) 17 →
                    a ∈ addrs st' (net4 10 1 0 0 16))).
Proof.
  apply (preallocation_iff ticks [net4 10 0 0 0 8] false (fun _ => true) ticks_ticking);
    [reflexivity|exact example_reachable|exact example_past|vm_compute; discriminate|lia].
Defined.

Lemma start_up_witness :
  wp (New ticks false (fun _ => true) map_to_list map_to_list ["10.0.0.0/8"%string]
        (Some example_networks) (Some [])) 0%nat (fun r _ =>
    match r with
    | Ok st => reachable ticks [net4 10 0 0 0 8] st ∧ checkRoots [net4 10 0 0 0 8] = None
    | Err _ => True
    end).
Proof.
  apply (start_up ticks false (fun _ => true) map_to_list map_to_list elements default_order);
    [vm_compute; reflexivity|].
  intros p ->%list_elem_of_singleton. reflexivity.
Defined.
