(* ===== verification/IdManager.v ===== *)
(** * IdManager: allocation of identifiers
      (src/pkg/liqo-controller-manager/networking/internal-network/id)

    Names of tunnels and fabrics are given integers of a range, kept in two maps
    that are inverse of each other.  The methods run under a mutex, so each is
    one transition. *)

From S2P Require Export Prelude.
Local Open Scope Z_scope.

(** The integer types a [Manager] can be instantiated with. *)
Inductive Integer := I64 | I32 | I16 | I8 | U64 | U32 | U16 | U8.
Definition width (T : Integer) : Z :=
  match T with I64 | U64 => 64 | I32 | U32 => 32 | I16 | U16 => 16 | I8 | U8 => 8 end.
Definition signed (T : Integer) : bool :=
  match T with I64 | I32 | I16 | I8 => true | _ => false end.
(** The conversion [T(z)] of an [int]. *)
Definition convert (T : Integer) (z : Z) : Z :=
  let m := z mod 2 ^ width T in
  if signed T && (2 ^ (width T - 1) <=? m) then m - 2 ^ width T else m.

Record Manager := mkManager {
  allocated : gmap string Z;
  allocatedReverse : gmap Z string;
  minID : Z;
  nextAllocatedID : Z;
  maxID : Z
}.

Inductive id_error := NameConfigured (n : string) | IDConfigured (i : Z) | NoMoreIDs.

Definition NewWithRange (minID maxID : Z) : Manager := mkManager ∅ ∅ minID minID maxID.

Definition New (T : Integer) : Manager := NewWithRange 0 (convert T (2 ^ 24 - 1)).

Definition Configure (m : Manager) (name : string) (id : Z) : result id_error Manager :=
  match allocated m !! name with
  | Some _ => Err (NameConfigured name)
  | None =>
    match allocatedReverse m !! id with
    | Some _ => Err (IDConfigured id)
    | None => Ok (mkManager (<[name := id]> (allocated m)) (<[id := name]> (allocatedReverse m))
                            (minID m) (nextAllocatedID m) (maxID m))
    end
  end.

(** One pass of [Allocate]: the first free identifier from [id], among [n]. *)
Fixpoint first_free (m : Manager) (n : nat) (id : Z) : option Z :=
  match n with
  | O => None
  | S n => match allocatedReverse m !! id with
           | None => Some id
           | Some _ => first_free m n (id + 1)
           end
  end.

(** The body of both passes once an identifier is found. *)
Definition take_id (m : Manager) (name : string) (id : Z) : Manager :=
  mkManager (<[name := id]> (allocated m)) (<[id := name]> (allocatedReverse m))
            (minID m) (if id =? maxID m - 1 then minID m else id + 1) (maxID m).

Definition Allocate (m : Manager) (name : string) : result id_error Z * Manager :=
  match allocated m !! name with
  | Some v => (Ok v, m)
  | None =>
    match first_free m (Z.to_nat (maxID m - nextAllocatedID m)) (nextAllocatedID m) with
    | Some id => (Ok id, take_id m name id)
    | None =>
      match first_free m (Z.to_nat (nextAllocatedID m - minID m)) (minID m) with
      | Some id => (Ok id, take_id m name id)
      | None => (Err NoMoreIDs, m)
      end
    end
  end.

Definition Release (m : Manager) (name : string) : Manager :=
  match allocated m !! name with
  | Some v => mkManager (delete name (allocated m)) (delete v (allocatedReverse m))
                        (minID m) (nextAllocatedID m) (maxID m)
  | None => m
  end.

(** ** The two singletons, rebuilt from the cluster at start-up *)

(** [runtime.Must(m.Configure(...))] for each item. *)
Fixpoint configure_all (m : Manager) (l : list (string * Z)) : outcome Manager :=
  match l with
  | [] => Ret m
  | (name, id) :: l =>
    match Configure m name id with
    | Ok m' => configure_all m' l
    | Err _ => Panic
    end
  end.

(** [GetGeneveTunnelManager]: the tunnels, or a failed listing. *)
Definition GetGeneveTunnelManager (tunnels : option (list (string * Z))) : outcome Manager :=
  match tunnels with
  | None => Panic
  | Some l => configure_all (New U32) l
  end.

Definition ECMPReplicaMarkBase : Z := 0x10000.

(** [GetECMPMarkManager]: a fabric may have no mark; an out-of-range one panics. *)
Fixpoint configure_marks (m : Manager) (l : list (string * option Z)) : outcome Manager :=
  match l with
  | [] => Ret m
  | (name, None) :: l => configure_marks m l
  | (name, Some mark) :: l =>
    if (mark <? 0) || (2 ^ 32 - 1 <? mark) then Panic
    else match Configure m name (convert U32 mark) with
         | Ok m' => configure_marks m' l
         | Err _ => Panic
         end
  end.

Definition GetECMPMarkManager (fabrics : option (list (string * option Z))) : outcome Manager :=
  match fabrics with
  | None => Panic
  | Some l => configure_marks (NewWithRange ECMPReplicaMarkBase (ECMPReplicaMarkBase + 2 ^ 24)) l
  end.

(** ** Invariant *)

(** The maps are inverse of each other and the cursor is in the range. *)
Record id_ok (m : Manager) : Prop := {
  id_inverse name id : allocated m !! name = Some id ↔ allocatedReverse m !! id = Some name;
  id_cursor : minID m ≤ nextAllocatedID m;
  id_cursor_max : nextAllocatedID m = minID m ∨ nextAllocatedID m < maxID m
}.

Lemma NewWithRange_ok lo hi : id_ok (NewWithRange lo hi).
Proof. split; simpl; [|lia|lia]. intros name id. by rewrite !lookup_empty. Qed.

(** Adding a pair of a fresh name and a fresh identifier. *)
Lemma inverse_insert (f : gmap string Z) (g : gmap Z string) name id :
  (∀ n i, f !! n = Some i ↔ g !! i = Some n) → f !! name = None → g !! id = None →
  ∀ n i, <[name := id]> f !! n = Some i ↔ <[id := name]> g !! i = Some n.
Proof.
  intros Hinv Hf Hg n i. rewrite !lookup_insert_Some, Hinv.
  split; intros [[-> ->]|[Hne H]]; auto; right; split; auto.
  - intros ->. congruence.
  - intros ->. apply Hinv in H. congruence.
Qed.

Lemma Configure_ok m name id m' : id_ok m → Configure m name id = Ok m' → id_ok m'.
Proof.
  unfold Configure. intros [Hinv H1 H2]. destruct (allocated m !! name) eqn:Hn; [done|].
  destruct (allocatedReverse m !! id) eqn:Hi; [done|]. intros [= <-].
  split; simpl; auto. by apply inverse_insert.
Qed.

Lemma take_id_ok m name id : id_ok m → allocated m !! name = None →
  allocatedReverse m !! id = None → minID m ≤ id < maxID m → id_ok (take_id m name id).
Proof.
  intros [Hinv H1 H2] Hn Hi Hr. split; simpl; [by apply inverse_insert|..];
    destruct (Z.eqb_spec id (maxID m - 1)); lia.
Qed.

Lemma first_free_some m n i id : first_free m n i = Some id →
  allocatedReverse m !! id = None ∧ i ≤ id < i + Z.of_nat n.
Proof.
  revert i. induction n as [|n IH]; intros i; simpl; [done|].
  destruct (allocatedReverse m !! i) eqn:E.
  - intros H. destruct (IH _ H). split; [done|lia].
  - intros [= <-]. split; [done|lia].
Qed.

Lemma first_free_none m n i : first_free m n i = None ↔
  ∀ j, i ≤ j < i + Z.of_nat n → is_Some (allocatedReverse m !! j).
Proof.
  revert i. induction n as [|n IH]; intros i; cbn [first_free]; [split; [lia|done]|].
  destruct (allocatedReverse m !! i) eqn:E.
  - rewrite IH. split; intros H j Hj; [|apply H; lia].
    destruct (Z.eq_dec j i) as [->|]; [by rewrite E|apply H; lia].
  - split; [done|]. intros H. specialize (H i ltac:(lia)). rewrite E in H. by destruct H.
Qed.

(** What [Allocate] returns and leaves. *)
Definition allocate_post (m : Manager) (name : string) (r : result id_error Z) (m' : Manager) : Prop :=
  match r with
  | Ok id =>
    (allocated m !! name = Some id ∧ m' = m) ∨
    (allocated m !! name = None ∧ allocatedReverse m !! id = None ∧ minID m ≤ id < maxID m ∧
     allocated m' = <[name := id]> (allocated m) ∧
     allocatedReverse m' = <[id := name]> (allocatedReverse m))
  | Err _ =>
    m' = m ∧ allocated m !! name = None ∧
    ∀ id, minID m ≤ id < maxID m → is_Some (allocatedReverse m !! id)
  end.

Lemma Allocate_spec m name : id_ok m →
  id_ok (snd (Allocate m name)) ∧ allocate_post m name (fst (Allocate m name)) (snd (Allocate m name)).
Proof.
  intros Hok. pose proof Hok as [Hinv Hc Hcm]. unfold Allocate.
  destruct (allocated m !! name) as [v|] eqn:Hn; [by split; [|left]|].
  destruct (first_free m (Z.to_nat (maxID m - nextAllocatedID m)) _) as [id|] eqn:H1.
  { apply first_free_some in H1 as [Hi Hr]. simpl.
    split; [apply take_id_ok; auto; lia|]. right. split_and!; auto; lia. }
  destruct (first_free m (Z.to_nat (nextAllocatedID m - minID m)) _) as [id|] eqn:H2.
  { apply first_free_some in H2 as [Hi Hr]. simpl.
    split; [apply take_id_ok; auto; lia|]. right. split_and!; auto; lia. }
  simpl. split; [done|]. split_and!; auto. intros id Hid.
  rewrite first_free_none in H1, H2.
  destruct (Z.lt_ge_cases id (nextAllocatedID m)); [apply H2; lia|apply H1; lia].
Qed.

Lemma Release_ok m name : id_ok m → id_ok (Release m name).
Proof.
  intros [Hinv H1 H2]. unfold Release. destruct (allocated m !! name) as [v|] eqn:Hn; [|by split].
  split; simpl; auto. intros n i. rewrite !lookup_delete_Some, Hinv.
  split; intros [Hne H]; split; auto; intros <-; apply Hne.
  - apply Hinv in Hn. congruence.
  - apply Hinv in H. congruence.
Qed.

Lemma configure_all_ok m l m' : id_ok m → configure_all m l = Ret m' → id_ok m'.
Proof.
  revert m. induction l as [|[name id] l IH]; intros m Hok; simpl; [by intros [= <-]|].
  destruct (Configure m name id) eqn:E; [|done]. apply IH. by eapply Configure_ok.
Qed.

Lemma configure_marks_ok m l m' : id_ok m → configure_marks m l = Ret m' → id_ok m'.
Proof.
  revert m. induction l as [|[name [id|]] l IH]; intros m Hok; simpl; [by intros [= <-]|..|by apply IH].
  destruct (_ || _); [done|]. destruct (Configure m name _) eqn:E; [|done].
  apply IH. by eapply Configure_ok.
Qed.

(** The pairs can be added one after the other. *)
Definition addable (m : Manager) (l : list (string * Z)) : Prop :=
  NoDup l.*1 ∧ NoDup l.*2 ∧
  ∀ n i, (n, i) ∈ l → allocated m !! n = None ∧ allocatedReverse m !! i = None.

Lemma addable_cons m n i l m' : Configure m n i = Ok m' →
  addable m ((n, i) :: l) ↔ addable m' l.
Proof.
  unfold Configure. destruct (allocated m !! n) eqn:Hn; [done|].
  destruct (allocatedReverse m !! i) eqn:Hi; [done|]. intros [= <-]. unfold addable.
  rewrite !fmap_cons, !NoDup_cons. cbn [fst snd allocated allocatedReverse].
  setoid_rewrite elem_of_cons. setoid_rewrite lookup_insert_None. split.
  - intros ((Hnl & H1) & (Hil & H2) & Hall). split_and!; auto. intros n' i' Hin.
    destruct (Hall n' i' (or_intror Hin)). split_and!; auto.
    + intros ->. apply Hnl. apply list_elem_of_fmap. by exists (n', i').
    + intros ->. apply Hil. apply list_elem_of_fmap. by exists (n', i').
  - intros (H1 & H2 & Hall). split_and!; auto.
    + intros ([n' i'] & -> & Hin)%list_elem_of_fmap. by destruct (Hall _ _ Hin) as [[_ []] _].
    + intros ([n' i'] & -> & Hin)%list_elem_of_fmap. by destruct (Hall _ _ Hin) as [_ [_ []]].
    + intros n' i' [[= -> ->]|Hin]; [done|]. by destruct (Hall _ _ Hin) as [[? _] [? _]].
Qed.

Lemma configure_all_spec m l :
  match configure_all m l with
  | Ret m' => NoDup l.*1 ∧ NoDup l.*2 ∧
              (∀ n i, allocated m' !! n = Some i ↔ allocated m !! n = Some i ∨ (n, i) ∈ l)
  | Panic => ¬ addable m l
  | Diverge => False
  end.
Proof.
  assert (H : match configure_all m l with
    | Ret m' => addable m l ∧
        (∀ n i, allocated m' !! n = Some i ↔ allocated m !! n = Some i ∨ (n, i) ∈ l)
    | Panic => ¬ addable m l | Diverge => False end).
  { revert m. induction l as [|[n i] l IH]; intros m; cbn [configure_all].
    - split; [split_and!; [constructor|constructor|by intros ? ? ?%not_elem_of_nil]|].
      intros n i. rewrite elem_of_nil. naive_solver.
    - destruct (Configure m n i) as [m1|e] eqn:E.
      + pose proof (addable_cons m n i l m1 E) as Hadd. specialize (IH m1).
        destruct (configure_all m1 l) as [m2| |]; [|by rewrite Hadd|done].
        destruct IH as [IHa IHl]. split; [by apply Hadd|]. intros n' i'. rewrite IHl, elem_of_cons.
        unfold Configure in E. destruct (allocated m !! n) eqn:Hn; [done|].
        destruct (allocatedReverse m !! i); [done|]. injection E as <-. cbn [allocated].
        rewrite lookup_insert_Some. naive_solver.
      + intros (_ & _ & Hall). destruct (Hall n i ltac:(left)) as [Hn Hi].
        unfold Configure in E. by rewrite Hn, Hi in E. }
  destruct (configure_all m l); [|done|done]. destruct H as [(? & ? & _) ?]. by split_and!.
Qed.

(** ** Reachable managers *)

Inductive id_reachable : Manager → Prop :=
| idr_range lo hi : id_reachable (NewWithRange lo hi)
| idr_configure m name id m' : id_reachable m → Configure m name id = Ok m' → id_reachable m'
| idr_allocate m name : id_reachable m → id_reachable (snd (Allocate m name))
| idr_release m name : id_reachable m → id_reachable (Release m name).

Lemma id_reachable_ok m : id_reachable m → id_ok m.
Proof.
  induction 1; eauto using NewWithRange_ok, Configure_ok, Release_ok.
  by apply Allocate_spec.
Qed.

(** ** Properties *)

(** In every reachable manager no two names share an identifier, and the
    reverse map is exactly the inverse of the map. *)
Theorem ids_unique m n1 n2 id : id_reachable m →
  allocated m !! n1 = Some id → allocated m !! n2 = Some id →
  n1 = n2 ∧ allocatedReverse m !! id = Some n1.
Proof.
  intros [Hinv _ _]%id_reachable_ok H1 H2. apply Hinv in H1 as H1'. apply Hinv in H2.
  split; [congruence|done].
Qed.

(** Allocation is complete.  For a name without identifier, [Allocate]
    returns a free identifier of the range [minID, maxID) exactly when one
    exists, records it in both maps and changes no other name; for a name that
    has one it returns it and changes nothing. *)
Theorem allocate_complete m name : id_reachable m →
  let '(r, m') := Allocate m name in
  id_reachable m' ∧
  (∀ v, allocated m !! name = Some v → r = Ok v ∧ m' = m) ∧
  (allocated m !! name = None →
   ((∃ id, r = Ok id ∧ minID m ≤ id < maxID m ∧ allocatedReverse m !! id = None ∧
           allocated m' = <[name := id]> (allocated m)) ↔
    ∃ id, minID m ≤ id < maxID m ∧ allocatedReverse m !! id = None)).
Proof.
  intros Hm. pose proof (id_reachable_ok m Hm) as Hok.
  pose proof (idr_allocate m name Hm) as Hm'. destruct (Allocate_spec m name Hok) as [_ Hpost].
  destruct (Allocate m name) as [r m'] eqn:E. cbn [fst snd] in *. split; [done|]. split.
  - intros v Hv. unfold Allocate in E. rewrite Hv in E. by injection E as <- <-.
  - intros Hn. destruct r as [id|e].
    + destruct Hpost as [[? _]|(_ & Hi & Hr & Ha & _)]; [congruence|]. split; eauto 10.
    + destruct Hpost as (_ & _ & Hfull). split; [by intros (? & ? & _)|].
      intros (id & Hr & Hi). destruct (Hfull id Hr) as [? Hs]. congruence.
Qed.

(** Round trip.  Allocating is idempotent, and releasing a name right after
    allocating it restores both maps; the identifier is free again. *)
Theorem allocate_release m name id m' : id_reachable m → allocated m !! name = None →
  Allocate m name = (Ok id, m') →
  Allocate m' name = (Ok id, m') ∧
  allocated (Release m' name) = allocated m ∧ allocatedReverse (Release m' name) = allocatedReverse m.
Proof.
  intros Hm Hn Ha. pose proof (id_reachable_ok m Hm) as Hok.
  destruct (Allocate_spec m name Hok) as [_ Hpost]. rewrite Ha in Hpost. cbn [fst snd] in Hpost.
  destruct Hpost as [[? _]|(_ & Hi & Hr & Hal & Hrev)]; [congruence|].
  assert (Hl : allocated m' !! name = Some id) by (rewrite Hal; apply lookup_insert_eq).
  split; [unfold Allocate; by rewrite Hl|]. unfold Release. rewrite Hl. simpl. rewrite Hal, Hrev.
  by rewrite !delete_insert_id.
Qed.

(** The range of the default manager.  Whatever the integer type, the
    identifiers it hands out stay below [2^24 - 1]: the last identifier of the
    documented range [0, 2^24) is never allocated.  For the 8-bit signed type
    the bound wraps to -1 and nothing can be allocated at all. *)
Theorem default_range_excludes_last T name id m' :
  (Allocate (New T) name = (Ok id, m') → 0 ≤ id < 2 ^ 24 - 1) ∧
  Allocate (New I8) name = (Err NoMoreIDs, New I8).
Proof.
  split; [|unfold Allocate, New, NewWithRange; cbn [allocated]; by rewrite lookup_empty].
  intros Ha. destruct (Allocate_spec (New T) name (NewWithRange_ok _ _)) as [_ Hpost].
  rewrite Ha in Hpost. cbn [fst snd] in Hpost. destruct Hpost as [[H _]|(_ & _ & Hr & _)].
  - cbn [New NewWithRange allocated] in H. by rewrite lookup_empty in H.
  - cbn [New NewWithRange minID maxID] in Hr.
    assert (convert T (2 ^ 24 - 1) ≤ 2 ^ 24 - 1) by (destruct T; vm_compute; discriminate). lia.
Qed.

(** Start-up.  The tunnel manager is rebuilt exactly when the names and the
    identifiers found in the cluster are pairwise distinct; a duplicate, or a
    failed listing, panics.  The rebuilt manager holds exactly the tunnels. *)
Theorem tunnel_manager_start l :
  match GetGeneveTunnelManager (Some l) with
  | Ret m => id_ok m ∧ NoDup l.*1 ∧ NoDup l.*2 ∧
             ∀ n i, allocated m !! n = Some i ↔ (n, i) ∈ l
  | Panic => ¬ (NoDup l.*1 ∧ NoDup l.*2)
  | Diverge => False
  end ∧ GetGeneveTunnelManager None = Panic.
Proof.
  split; [|done]. pose proof (configure_all_spec (New U32) l) as H.
  unfold GetGeneveTunnelManager. destruct (configure_all (New U32) l) as [m| |] eqn:E.
  - destruct H as (H1 & H2 & H4). split_and!; auto.
    + eapply configure_all_ok; [apply NewWithRange_ok|exact E].
    + intros n i. rewrite H4. cbn [New NewWithRange allocated]. rewrite lookup_empty. naive_solver.
  - intros [H1 H2]. apply H. split; [done|]. split; [done|]. intros n i _. cbn. by rewrite !lookup_empty.
  - done.
Qed.

(** ** Witnesses *)

Definition example_ids : Manager :=
  snd (Allocate (snd (Allocate (NewWithRange 3 6) "a")) "b").

Lemma example_ids_reachable : id_reachable example_ids.
Proof. repeat constructor. Qed.

Lemma ids_unique_witness : "a"%string = "a"%string ∧ allocatedReverse example_ids !! 3 = Some "a"%string.
Proof. apply (ids_unique example_ids "a" "a" 3 example_ids_reachable); vm_compute; reflexivity. Defined.

Lemma allocate_complete_witness :
  let '(r, m') := Allocate example_ids "c" in r = Ok 5 ∧ id_reachable m'.
Proof.
  pose proof (allocate_complete example_ids "c" example_ids_reachable) as H.
  destruct (Allocate example_ids "c") as [r m'] eqn:E. split; [|exact (proj1 H)].
  vm_compute in E. injection E as <- _. reflexivity.
Defined.

Lemma allocate_release_witness :
  allocated (Release (snd (Allocate example_ids "c")) "c") = allocated example_ids.
Proof.
  eapply (allocate_release example_ids "c" 5);
    [exact example_ids_reachable|vm_compute; reflexivity|vm_compute; reflexivity].
Defined.
