(* ===== verification/Resources.v ===== *)
(** * Resources: quantities and resource lists

    [resource.Quantity] and [quotav1.Max] are Kubernetes code: they are the
    operations of a class, with the documented facts the sources rely on as the
    laws of a second class.  A [corev1.ResourceList] is a map; a loop over one
    visits its entries in an order Go leaves open, here the parameter [range]. *)

From S2P Require Export Prelude.
Local Open Scope Z_scope.

Class QuantityOps (Q : Type) := {
  qzero : Q;
  QAdd : Q → Q → Q;
  QSub : Q → Q → Q;
  Cmp : Q → Q → comparison;
  Value : Q → Z;
  Max : gmap string Q → gmap string Q → gmap string Q;
  range : gmap string Q → list (string * Q)
}.

(** A quantity is an exact number of nanounits; [Value] rounds up to a unit (and
    saturates at the range of [int64]); [Max] is taken name by name; a
    loop over a map visits each entry once. *)
Class QuantityLaws (Q : Type) `{QuantityOps Q} := {
  nano : Q → Z;
  nano_zero : nano qzero = 0;
  nano_Add a b : nano (QAdd a b) = nano a + nano b;
  nano_Sub a b : nano (QSub a b) = nano a - nano b;
  Cmp_nano a b : Cmp a b = (nano a ?= nano b);
  Value_round q : 0 ≤ nano q ≤ (2 ^ 63 - 1) * 10 ^ 9 →
    (Value q - 1) * 10 ^ 9 < nano q ≤ Value q * 10 ^ 9;
  lookup_Max a b k : Max a b !! k =
    match a !! k, b !! k with
    | Some x, Some y => Some (match Cmp x y with Gt => x | _ => y end)
    | Some x, None => Some x
    | None, o => o
    end;
  range_perm m : range m ≡ₚ map_to_list m
}.

Notation ResourceList Q := (gmap string Q).
Definition ResourceCPU : string := "cpu".
Definition ResourceMemory : string := "memory".

(** ** Loops that update, for each entry of a map, the same key of another *)

Definition upd_entries {V W} (step : string → V → option W → option W)
  (l : list (string * V)) (m : gmap string W) : gmap string W :=
  foldl (fun m e => partial_alter (step (fst e) (snd e)) (fst e) m) m l.

Lemma lookup_upd_entries {V W} (step : string → V → option W → option W) (r : gmap string V) l m k :
  l ≡ₚ map_to_list r →
  upd_entries step l m !! k =
    match r !! k with Some v => step k v (m !! k) | None => m !! k end.
Proof.
  intros Hl. assert (Hr : list_to_map l = r).
  { rewrite <- (list_to_map_to_list r). apply list_to_map_proper; [|done].
    rewrite Hl. apply NoDup_fst_map_to_list. }
  assert (Hnd : NoDup l.*1) by (rewrite Hl; apply NoDup_fst_map_to_list).
  rewrite <- Hr. clear Hl Hr r. revert m.
  induction l as [|[k' v] l IH]; intros m; simpl; [by rewrite lookup_empty|].
  apply NoDup_cons in Hnd as [Hk Hnd]. rewrite IH by done.
  destruct (decide (k = k')) as [->|Hne].
  - rewrite lookup_insert_eq, (proj1 (not_elem_of_list_to_map l k')) by done.
    by rewrite lookup_partial_alter_eq.
  - by rewrite lookup_insert_ne, lookup_partial_alter_ne by done.
Qed.

(** The amount of a resource a list names; an absent name counts for nothing. *)
Definition amt {Q} `{QuantityLaws Q} (l : ResourceList Q) (k : string) : Z :=
  match l !! k with Some q => nano q | None => 0 end.

Section amounts.
Context {Q : Type} `{QuantityLaws Q}.

Lemma amt_empty k : amt (∅ : ResourceList Q) k = 0.
Proof. unfold amt. by rewrite lookup_empty. Qed.

Lemma amt_Max (a b : ResourceList Q) k :
  (∀ q, a !! k = Some q → 0 ≤ nano q) → (∀ q, b !! k = Some q → 0 ≤ nano q) →
  amt (Max a b) k = Z.max (amt a k) (amt b k).
Proof.
  unfold amt. rewrite lookup_Max. intros Ha Hb.
  destruct (a !! k) as [x|], (b !! k) as [y|]; try (specialize (Ha _ eq_refl));
    try (specialize (Hb _ eq_refl)); try lia.
  rewrite Cmp_nano. destruct (Z.compare_spec (nano x) (nano y)); lia.
Qed.
End amounts.

(** ** A concrete instance: quantities as integers of nanounits *)

Definition nanounits : Z := 10 ^ 9.

Definition ZMax (a b : gmap string Z) : gmap string Z :=
  union_with (fun x y => Some (match x ?= y with Gt => x | _ => y end)) a b.

#[export] Instance Z_QuantityOps : QuantityOps Z := {
  qzero := 0; QAdd := Z.add; QSub := Z.sub; Cmp := Z.compare;
  Value q := Z.sgn q * - (- Z.abs q / nanounits);
  Max := ZMax; range := map_to_list
}.

#[export, refine] Instance Z_QuantityLaws : QuantityLaws Z := { nano q := q }.
Proof.
  all: try done.
  - simpl. unfold nanounits. intros q Hq. Z.to_euclidean_division_equations. lia.
  - intros a b k. simpl. unfold ZMax. rewrite lookup_union_with.
    by destruct (a !! k), (b !! k).
Defined.
