(* ===== verification/GoStrings.v ===== *)
(** * GoStrings: strings, and label escaping (src/pkg/utils/resource/labels.go)

    What the code uses of Go's package [strings].  [EscapeLabel] replaces every match of the regular expression [[^\w\-.]] by a
    dash.  Go matches runes, so a well-formed UTF-8 sequence of several bytes
    yields one dash, and an ill-formed byte is a rune of its own. *)

From S2P Require Export Prelude.
From Stdlib Require Import Ascii.
Local Open Scope Z_scope.

(** [strings.Split(s, string c)]. *)
Fixpoint Split (c : ascii) (s : string) : list string :=
  match s with
  | EmptyString => [EmptyString]
  | String d s =>
    if bool_decide (d = c) then EmptyString :: Split c s
    else match Split c s with
         | p :: ps => String d p :: ps
         | [] => [String d EmptyString]
         end
  end.
(** [strings.SplitN(s, string c, 2)], when [s] has a [c]. *)
Fixpoint split_first (c : ascii) (s : string) : option (string * string) :=
  match s with
  | EmptyString => None
  | String d s => if bool_decide (d = c) then Some (EmptyString, s)
                  else '(a, b) ← split_first c s; Some (String d a, b)
  end.
Lemma Split_app c a b : Split c a = [a] → Split c (a ++ String c b) = a :: Split c b.
Proof.
  induction a as [|x a IH].
  - intros _. change ("" ++ String c b)%string with (String c b). cbn. by case_bool_decide.
  - change (String x a ++ String c b)%string with (String x (a ++ String c b)). cbn [Split]. case_bool_decide as Hx; [by intros [=]|].
    destruct (Split c a) as [|y l] eqn:E; [by intros [= <-]; cbn in E|]. intros [= -> ->]. by rewrite IH.
Qed.
Lemma string_app_inj (a b c : string) : (a ++ b)%string = (a ++ c)%string → b = c.
Proof. induction a as [|x a IH]; [done|]. change (String x (a ++ b) = String x (a ++ c) → b = c). intros [= H]. by apply IH. Qed.
Lemma string_app_assoc (a b c : string) : String.append (String.append a b) c = String.append a (String.append b c).
Proof. induction a as [|x a IH]; simpl; [done|]. change (String x (String.append (String.append a b) c) = String x (String.append a (String.append b c))). by rewrite IH. Qed.
Lemma string_app_nil (a : string) : String.append a EmptyString = a.
Proof. induction a as [|x a IH]; [done|]. change (String x (String.append a EmptyString) = String x a). by rewrite IH. Qed.

(** [strings.HasPrefix] and [strings.Contains]. *)
Definition HasPrefix (s p : string) : bool := String.prefix p s.
Fixpoint strings_Contains (s sub : string) : bool :=
  HasPrefix s sub || match s with EmptyString => false | String _ s => strings_Contains s sub end.

Definition byte_of (c : ascii) : Z := Z.of_N (N_of_ascii c).
Definition between (lo hi : Z) (b : Z) : bool := (lo <=? b) && (b <=? hi).
Definition continuation (b : Z) : bool := between 0x80 0xBF b.

(** The range of the second byte of a sequence that starts with [b0], and the
    length of the sequence ([utf8.DecodeRuneInString]). *)
Definition utf8_first (b0 : Z) : option (nat * Z * Z) :=
  if between 0xC2 0xDF b0 then Some (2%nat, 0x80, 0xBF)
  else if b0 =? 0xE0 then Some (3%nat, 0xA0, 0xBF)
  else if b0 =? 0xED then Some (3%nat, 0x80, 0x9F)
  else if between 0xE1 0xEF b0 then Some (3%nat, 0x80, 0xBF)
  else if b0 =? 0xF0 then Some (4%nat, 0x90, 0xBF)
  else if between 0xF1 0xF3 b0 then Some (4%nat, 0x80, 0xBF)
  else if b0 =? 0xF4 then Some (4%nat, 0x80, 0x8F)
  else None.

(** How many bytes follow the first one in the rune at the head of [c :: l]. *)
Definition rune_tail (c : ascii) (l : list ascii) : nat :=
  match utf8_first (byte_of c) with
  | None => 0
  | Some (n, lo, hi) =>
    let rest := take (n - 1) l in
    match rest with
    | b1 :: more =>
      if (Nat.eqb (List.length rest) (n - 1)) && between lo hi (byte_of b1)
         && forallb (fun b => continuation (byte_of b)) more
      then (n - 1)%nat else 0%nat
    | [] => 0
    end
  end.

(** [[\w\-.]]. *)
Definition label_char (c : ascii) : bool :=
  let b := byte_of c in
  between 48 57 b || between 65 90 b || between 97 122 b || (b =? 95) || (b =? 45) || (b =? 46).

(** [skip] bytes of the current rune are still to be passed over. *)
Fixpoint escape_bytes (skip : nat) (l : list ascii) : list ascii :=
  match l with
  | [] => []
  | c :: l =>
    match skip with
    | S skip => escape_bytes skip l
    | O => (if label_char c then c else "-"%char) :: escape_bytes (rune_tail c l) l
    end
  end.

Definition EscapeLabel (val : string) : string :=
  String.string_of_list_ascii (escape_bytes 0 (String.list_ascii_of_string val)).

(** ** Escaped values are label values, and are left alone *)

Definition escaped (s : string) : Prop := Forall label_char (String.list_ascii_of_string s).

Lemma escape_bytes_ok skip l : Forall label_char (escape_bytes skip l).
Proof.
  revert skip. induction l as [|c l IH]; intros [|skip]; simpl; auto.
  constructor; [|done]. destruct (label_char c) eqn:E; [by rewrite E | done].
Qed.

Lemma EscapeLabel_escaped s : escaped (EscapeLabel s).
Proof.
  unfold escaped, EscapeLabel. rewrite String.list_ascii_of_string_of_list_ascii.
  apply escape_bytes_ok.
Qed.

Lemma label_char_one_byte c l : label_char c → rune_tail c l = 0%nat.
Proof.
  intros Hc. unfold rune_tail. replace (utf8_first (byte_of c)) with (@None (nat * Z * Z)); [done|].
  destruct c as [[] [] [] [] [] [] [] []]; vm_compute in Hc |- *; done.
Qed.

Lemma escape_bytes_id l : Forall label_char l → escape_bytes 0 l = l.
Proof.
  induction 1 as [|c l Hc Hl IH]; simpl; [done|].
  rewrite (Is_true_true_1 _ Hc), (label_char_one_byte c l Hc). by f_equal.
Qed.

Lemma EscapeLabel_id s : escaped s → EscapeLabel s = s.
Proof.
  intros Hs. unfold EscapeLabel. rewrite (escape_bytes_id _ Hs).
  apply String.string_of_list_ascii_of_string.
Qed.

(** Escaping is a closure: it fixes exactly the values made of label characters. *)
Lemma EscapeLabel_fixed s : EscapeLabel s = s ↔ escaped s.
Proof.
  split; [|apply EscapeLabel_id]. intros <-. apply EscapeLabel_escaped.
Qed.

(** [strings.EqualFold] with "false": letters of either case, and the long s. *)
Fixpoint fold_case (s : string) : string :=
  match s with
  | EmptyString => EmptyString
  | String c rest =>
    let n := N_of_ascii c in
    if ((65 <=? n) && (n <=? 90))%N then String (ascii_of_N (n + 32)) (fold_case rest)
    else match rest with
         | String d rest' => if ((n =? 197) && (N_of_ascii d =? 191))%N then String "s" (fold_case rest') else String c (fold_case rest)
         | _ => String c (fold_case rest)
         end
  end.
Definition is_false (s : string) : bool := bool_decide (fold_case s = "false"%string).

(** ** Sorting *)

Section sorting.
Context {A : Type} (key : A → string).
Fixpoint insert_by (x : A) (l : list A) : list A :=
  match l with
  | [] => [x]
  | y :: l => if String.leb (key x) (key y) then x :: y :: l else y :: insert_by x l
  end.
(** [slices.SortFunc] by a key; the keys are different. *)
Definition sort_by (l : list A) : list A := foldr insert_by [] l.
End sorting.
Definition sort_strings : list string → list string := sort_by (fun s => s).

Lemma insert_by_perm {A} (key : A → string) x l : insert_by key x l ≡ₚ x :: l.
Proof. induction l as [|y l IH]; cbn; [done|]. case_match; [done|]. rewrite IH. apply Permutation_swap. Qed.
Lemma sort_by_perm {A} (key : A → string) l : sort_by key l ≡ₚ l.
Proof. unfold sort_by. induction l as [|x l IH]; cbn; [done|]. by rewrite insert_by_perm, IH. Qed.
Lemma elem_of_sort_by {A} (key : A → string) x l : x ∈ sort_by key l ↔ x ∈ l.
Proof. by rewrite sort_by_perm. Qed.

(** ** A text for what is counted: the bits of its number *)

Fixpoint bits (p : positive) : string := match p with xH => "" | xO p => String "0"%char (bits p) | xI p => String "1"%char (bits p) end.
Fixpoint unbits (s : string) : option positive :=
  match s with
  | EmptyString => Some xH
  | String c s => p ← unbits s; if bool_decide (c = "0"%char) then Some (xO p) else if bool_decide (c = "1"%char) then Some (xI p) else None
  end.
Lemma unbits_bits p : unbits (bits p) = Some p.
Proof. induction p as [p IH|p IH|]; cbn; rewrite ?IH; done. Qed.
