(* ===== verification/ShadowPod.v ===== *)
(** * ShadowPod: admission of shadow pods (src/pkg/webhooks/shadowpod)

    The validating webhook charges each shadow pod to the quota of the user who
    created it.  Per user it keeps a [peeringInfo]: the descriptions of the pods
    it knows, the total quota and the quota in use.  A periodic refresh realigns
    the cache with the cluster.  [spdescription.go], [peeringinfo.go], [cache.go]
    and [webhook.go] are translated here, with [CheckShadowPodUpdate]
    (src/pkg/utils/pod/pod.go) and the two getters the webhook uses.

    The methods of a [peeringInfo] run under its mutex, so each is one
    transition.  Log output is left out.  The Kubernetes client, the decoder and
    [NamespacedName.String] are parameters. *)

From S2P Require Export Resources GoStrings.
Local Open Scope Z_scope.

Inductive LimitsEnforcement := HardLimitsEnforcement | SoftLimitsEnforcement | NoLimitsEnforcement.
#[export] Instance LimitsEnforcement_eq_dec : EqDecision LimitsEnforcement.
Proof. solve_decision. Defined.

Section data.
Context (Q : Type) (Other : Type).

(** The fields of a container that are read; [c_other] is the rest. *)
Record Container := mkContainer {
  c_name : string; c_image : string; Requests : ResourceList Q; Limits : ResourceList Q;
  c_other : Other
}.

(** [None] is the nil slice, which [reflect.DeepEqual] and the quota code tell
    from an empty one. *)
Record PodSpec := mkPodSpec {
  Containers : option (list Container); InitContainers : option (list Container);
  ActiveDeadlineSeconds : option Z; Tolerations : option (list string); p_other : Other
}.

Record ShadowPod := mkShadowPod {
  sp_name : string; sp_namespace : string; sp_uid : string;
  sp_labels : gmap string string; sp_pod : PodSpec
}.

Record Quota := mkQuota {
  q_user : string; q_limits : LimitsEnforcement; q_resources : ResourceList Q;
  q_cordoned : option bool
}.

Record Description := mkDescription {
  namespacedName : string * string; uid : string; quota : ResourceList Q;
  running : bool; creationTimestamp : Z
}.

Record peeringInfo := mkPeeringInfo {
  userName : string; shadowPods : gmap string Description;
  totalQuota : ResourceList Q; usedQuota : ResourceList Q
}.

Record peeringCache := mkPeeringCache { infos : gmap string peeringInfo; ready : bool }.
End data.
Arguments mkContainer {Q Other}. Arguments c_name {Q Other}. Arguments c_image {Q Other}.
Arguments Requests {Q Other}. Arguments Limits {Q Other}. Arguments c_other {Q Other}.
Arguments mkPodSpec {Q Other}. Arguments Containers {Q Other}. Arguments InitContainers {Q Other}.
Arguments ActiveDeadlineSeconds {Q Other}. Arguments Tolerations {Q Other}. Arguments p_other {Q Other}.
Arguments mkShadowPod {Q Other}. Arguments sp_name {Q Other}. Arguments sp_namespace {Q Other}.
Arguments sp_uid {Q Other}. Arguments sp_labels {Q Other}. Arguments sp_pod {Q Other}.
Arguments mkQuota {Q}. Arguments q_user {Q}. Arguments q_limits {Q}. Arguments q_resources {Q}.
Arguments q_cordoned {Q}.
Arguments mkDescription {Q}. Arguments namespacedName {Q}. Arguments uid {Q}. Arguments quota {Q}.
Arguments running {Q}. Arguments creationTimestamp {Q}.
Arguments mkPeeringInfo {Q}. Arguments userName {Q}. Arguments shadowPods {Q}.
Arguments totalQuota {Q}. Arguments usedQuota {Q}.
Arguments mkPeeringCache {Q}. Arguments infos {Q}. Arguments ready {Q}.

#[export] Instance Container_eq_dec {Q Other} `{EqDecision Q, EqDecision Other} :
  EqDecision (Container Q Other).
Proof. solve_decision. Defined.
#[export] Instance PodSpec_eq_dec {Q Other} `{EqDecision Q, EqDecision Other} :
  EqDecision (PodSpec Q Other).
Proof. solve_decision. Defined.

(** The errors of the package. *)
Inductive sp_error :=
| NoContainers | LimitsNotEqual (key container : string) | RequestsNotSet (container : string)
| AlreadyRunning (name : string) | StillExists | NotInCache (name : string)
| UIDMismatch (name : string) | QuotaExceeded (key : string) | QuotaNotFound (key : string)
| ClusterIDMismatch | MissingCreator | UserNotFound (user : string) | ClientError | DecodeError
| MarshalError | Initializing | UnsupportedOperation.

(** What the webhook asks of the cluster. *)
Inductive get_error := NotFound | OtherError.
Record Client (Q Other : Type) := mkClient {
  cl_quotas : option (list (Quota Q));
  cl_shadowpods_with_label : string → string → option (list (ShadowPod Q Other));
  cl_get_shadowpod : string * string → result get_error (ShadowPod Q Other);
  cl_get_namespace_labels : string → option (gmap string string)
}.
Arguments mkClient {Q Other}. Arguments cl_quotas {Q Other}.
Arguments cl_shadowpods_with_label {Q Other}. Arguments cl_get_shadowpod {Q Other}.
Arguments cl_get_namespace_labels {Q Other}.

Inductive Operation := Create | Delete | Update | Connect.
Record Request (Raw : Type) := mkRequest {
  req_operation : Operation; req_object : Raw; req_oldobject : Raw;
  req_dryrun : option bool; req_username : string
}.
Arguments mkRequest {Raw}. Arguments req_operation {Raw}. Arguments req_object {Raw}.
Arguments req_oldobject {Raw}. Arguments req_dryrun {Raw}. Arguments req_username {Raw}.

Inductive message := Text (s : string) | OfError (e : sp_error).
Inductive Response (Raw : Type) :=
| Allowed (m : message)
| Denied (m : message)
| Errored (code : Z) (e : sp_error)
| Patched (original current : Raw).
Arguments Allowed {Raw}. Arguments Denied {Raw}. Arguments Errored {Raw}. Arguments Patched {Raw}.

Definition LiqoOriginClusterIDKey : string := "offloading.liqo.io/origin".
Definition CreatorLabelKey : string := "liqo.io/creator-user".
Definition RemoteClusterID : string := "liqo.io/remote-cluster-id".

Section shadowpod.
Context {Q Other : Type} `{!QuantityOps Q, !EqDecision Q, !EqDecision Other}.
Context (clock : nat → Z) (nsname_string : string * string → string).
Implicit Types (pi : peeringInfo Q) (sp : ShadowPod Q Other) (spd : Description Q).

(** ** spdescription.go *)

Definition createShadowPodDescription (name namespace uid : string) (resources : ResourceList Q) :
    M (Description Q) :=
  t ← now clock; mret (mkDescription (namespace, name) uid resources true t).

Definition terminate spd : Description Q :=
  mkDescription (namespacedName spd) (uid spd) (quota spd) false (creationTimestamp spd).

(** What the two loops of [getQuotaFromShadowPod] do with an entry. *)
Definition add_request (value : Q) (prev : option Q) : option Q :=
  Some (match prev with Some p => QAdd p value | None => value end).
Definition max_request (value : Q) (prev : option Q) : option Q :=
  Some (match prev with Some p => if Value p <? Value value then value else p | None => value end).

(** The entries of one container: the flags, the accumulated resources and the
    check of hard limits. *)
Fixpoint request_entries (combine : Q → option Q → option Q) (le : LimitsEnforcement)
    (c : Container Q Other) (l : list (string * Q)) (cpuFlag memoryFlag : bool)
    (acc : ResourceList Q) : result sp_error (bool * bool * ResourceList Q) :=
  match l with
  | [] => Ok (cpuFlag, memoryFlag, acc)
  | (key, value) :: l =>
    let cpuFlag := cpuFlag || bool_decide (key = ResourceCPU) in
    let memoryFlag := memoryFlag || bool_decide (key = ResourceMemory) in
    let acc := partial_alter (combine value) key acc in
    if bool_decide (le = HardLimitsEnforcement) &&
       negb (match Cmp (default qzero (Requests c !! key)) (default qzero (Limits c !! key)) with
             | Eq => true | _ => false end)
    then Err (LimitsNotEqual key (c_name c))
    else request_entries combine le c l cpuFlag memoryFlag acc
  end.

Fixpoint container_requests (combine : Q → option Q → option Q) (le : LimitsEnforcement)
    (cs : list (Container Q Other)) (acc : ResourceList Q) : result sp_error (ResourceList Q) :=
  match cs with
  | [] => Ok acc
  | c :: cs =>
    match request_entries combine le c (range (Requests c)) false false acc with
    | Err e => Err e
    | Ok (cpuFlag, memoryFlag, acc) =>
      if bool_decide (le = NoLimitsEnforcement) then container_requests combine le cs acc
      else if negb cpuFlag || negb memoryFlag then Err (RequestsNotSet (c_name c))
      else container_requests combine le cs acc
    end
  end.

Definition getQuotaFromShadowPod sp (le : LimitsEnforcement) : result sp_error (ResourceList Q) :=
  match Containers (sp_pod sp) with
  | None => Err NoContainers
  | Some cs =>
    match container_requests add_request le cs ∅ with
    | Err e => Err e
    | Ok conResources =>
      match container_requests max_request le (default [] (InitContainers (sp_pod sp))) ∅ with
      | Err e => Err e
      | Ok initConResources => Ok (Max conResources initConResources)
      end
    end
  end.

(** ** peeringinfo.go *)

Definition set_pods pi (m : gmap string (Description Q)) : peeringInfo Q :=
  mkPeeringInfo (userName pi) m (totalQuota pi) (usedQuota pi).
Definition set_used pi (used : ResourceList Q) : peeringInfo Q :=
  mkPeeringInfo (userName pi) (shadowPods pi) (totalQuota pi) used.

Definition generateQuotaPattern (quota : ResourceList Q) : ResourceList Q :=
  foldl (fun result e => <[fst e := qzero]> result) ∅ (range quota).

Definition createPeeringInfo (userName : string) (resources : ResourceList Q) : peeringInfo Q :=
  mkPeeringInfo userName ∅ resources (generateQuotaPattern resources).

Definition updateQuotas pi (newQuota : ResourceList Q) : peeringInfo Q :=
  mkPeeringInfo (userName pi) (shadowPods pi) newQuota (usedQuota pi).
Definition alignQuotaUpdates pi (resources : ResourceList Q) : peeringInfo Q :=
  updateQuotas pi resources.

Definition getFreeQuota pi : ResourceList Q :=
  foldl (fun free e => <[fst e := QSub (snd e) (default qzero (usedQuota pi !! fst e))]> free)
        ∅ (range (totalQuota pi)).

Definition subUsedResources pi (resources : ResourceList Q) : peeringInfo Q :=
  foldl (fun pi e => match usedQuota pi !! fst e with
                     | Some prevUsed => set_used pi (<[fst e := QSub prevUsed (snd e)]> (usedQuota pi))
                     | None => pi
                     end) pi (range resources).

Definition addUsedResources pi (resources : ResourceList Q) : peeringInfo Q :=
  foldl (fun pi e => match usedQuota pi !! fst e with
                     | Some prevUsed => set_used pi (<[fst e := QAdd prevUsed (snd e)]> (usedQuota pi))
                     | None => set_used pi (<[fst e := snd e]> (usedQuota pi))
                     end) pi (range resources).

Definition addShadowPod pi spd : peeringInfo Q :=
  addUsedResources (set_pods pi (<[nsname_string (namespacedName spd) := spd]> (shadowPods pi)))
                   (quota spd).
Definition terminateShadowPod pi spd : peeringInfo Q :=
  subUsedResources
    (set_pods pi (<[nsname_string (namespacedName spd) := terminate spd]> (shadowPods pi)))
    (quota spd).
Definition removeShadowPod pi spd : peeringInfo Q :=
  set_pods pi (delete (nsname_string (namespacedName spd)) (shadowPods pi)).

Fixpoint check_entries (free : ResourceList Q) (l : list (string * Q)) : result sp_error () :=
  match l with
  | [] => Ok ()
  | (key, val) :: l =>
    match free !! key with
    | Some freeQuota => match Cmp freeQuota val with
                        | Lt => Err (QuotaExceeded key)
                        | _ => check_entries free l
                        end
    | None => Err (QuotaNotFound key)
    end
  end.
Definition checkResources pi spd : result sp_error () :=
  check_entries (getFreeQuota pi) (range (quota spd)).

(** ** Creation and deletion of a pod *)

Context (cl : Client Q Other).

Definition checkShadowPodExistence (n : string * string) : result sp_error () :=
  match cl_get_shadowpod cl n with
  | Err NotFound => Ok ()
  | Err OtherError => Err ClientError
  | Ok _ => Err StillExists
  end.

Definition getOrCreateShadowPodDescription pi sp (le : LimitsEnforcement) :
    M (result sp_error (Description Q) * peeringInfo Q) :=
  let nsname := (sp_namespace sp, sp_name sp) in
  match getQuotaFromShadowPod sp le with
  | Err e => mret (Err e, pi)
  | Ok spQuota =>
    let create pi :=
      spd ← createShadowPodDescription (sp_name sp) (sp_namespace sp) (sp_uid sp) spQuota;
      mret (Ok spd, pi) in
    match shadowPods pi !! nsname_string nsname with
    | None => create pi
    | Some spd =>
      if running spd then mret (Err (AlreadyRunning (sp_name sp)), pi)
      else match checkShadowPodExistence nsname with
           | Err e => mret (Err e, pi)
           | Ok _ => create (removeShadowPod pi spd)
           end
    end
  end.

Definition getShadowPodDescription pi sp : result sp_error (Description Q) :=
  match shadowPods pi !! nsname_string (sp_namespace sp, sp_name sp) with
  | None => Err (NotInCache (sp_name sp))
  | Some spd => if negb (bool_decide (uid spd = sp_uid sp)) then Err (UIDMismatch (sp_name sp))
                else Ok spd
  end.

Definition testAndUpdateCreation pi sp (le : LimitsEnforcement) (dryRun : bool) :
    M (result sp_error () * peeringInfo Q) :=
  '(r, pi) ← getOrCreateShadowPodDescription pi sp le;
  match r with
  | Err e => mret (Err e, pi)
  | Ok spd =>
    match checkResources pi spd with
    | Err e => mret (Err e, pi)
    | Ok _ => mret (Ok (), if negb dryRun then addShadowPod pi spd else pi)
    end
  end.

Definition updateDeletion pi sp (dryRun : bool) : result sp_error () * peeringInfo Q :=
  match getShadowPodDescription pi sp with
  | Err e => (Err e, pi)
  | Ok spd => (Ok (), if negb dryRun then terminateShadowPod pi spd else pi)
  end.

(** ** cache.go *)

(** The orders in which the maps of pods and of peerings are visited. *)
Context (range_pods : gmap string (Description Q) → list (string * Description Q)).
Context (range_infos : gmap string (peeringInfo Q) → list (string * peeringInfo Q)).

(** On an error [getQuotaFromShadowPod] returns nil, which is dereferenced. *)
Definition checkAndAddShadowPods pi sp (nsname : string * string) : M (bool * peeringInfo Q) :=
  match shadowPods pi !! nsname_string nsname with
  | Some _ => mret (true, pi)
  | None =>
    match getQuotaFromShadowPod sp NoLimitsEnforcement with
    | Err _ => panic
    | Ok spQuota =>
      spd ← createShadowPodDescription (sp_name sp) (sp_namespace sp) (sp_uid sp) spQuota;
      mret (false, addShadowPod pi spd)
    end
  end.

Fixpoint alignExistingShadowPods pi (items : list (ShadowPod Q Other)) : M (peeringInfo Q) :=
  match items with
  | [] => mret pi
  | sp :: items =>
    '(_, pi) ← checkAndAddShadowPods pi sp (sp_namespace sp, sp_name sp);
    alignExistingShadowPods pi items
  end.

(** One description: [time.Since] is read only for a running one that is gone. *)
Definition align_description (spMap : gset string) pi (key : string) : M (peeringInfo Q) :=
  match shadowPods pi !! key with
  | None => mret pi
  | Some spd =>
    if bool_decide (nsname_string (namespacedName spd) ∈ spMap) then mret pi
    else if negb (running spd) then mret (removeShadowPod pi spd)
    else t ← now clock;
         mret (if 30 * 10 ^ 9 <? t - creationTimestamp spd
               then removeShadowPod (terminateShadowPod pi spd) (terminate spd)
               else pi)
  end.

Fixpoint align_descriptions (spMap : gset string) pi (keys : list string) : M (peeringInfo Q) :=
  match keys with
  | [] => mret pi
  | key :: keys => pi ← align_description spMap pi key; align_descriptions spMap pi keys
  end.

Definition alignTerminatingShadowPodDescriptions pi (spMap : gset string) : M (peeringInfo Q) :=
  align_descriptions spMap pi (range_pods (shadowPods pi)).*1.

Definition alignTerminatingOrNotExistingShadowPods pi (items : list (ShadowPod Q Other)) :
    M (peeringInfo Q) :=
  pi ← alignExistingShadowPods pi items;
  alignTerminatingShadowPodDescriptions pi
    (list_to_set ((fun sp => nsname_string (sp_namespace sp, sp_name sp)) <$> items)).

Definition ListShadowPodsByCreator (creator : string) : option (list (ShadowPod Q Other)) :=
  cl_shadowpods_with_label cl CreatorLabelKey (EscapeLabel creator).

Definition GetQuotaByUser (user : string) : result sp_error (Quota Q) :=
  match cl_quotas cl with
  | None => Err ClientError
  | Some quotas =>
    match list_find (fun q => EscapeLabel (q_user q) = user) quotas with
    | Some (_, q) => Ok q
    | None => Err (UserNotFound user)
    end
  end.

Definition store (c : peeringCache Q) (user : string) pi : peeringCache Q :=
  mkPeeringCache (<[user := pi]> (infos c)) (ready c).

(** The result is whether the method returned no error. *)
Fixpoint initialize_quotas (c : peeringCache Q) (quotas : list (Quota Q)) :
    M (bool * peeringCache Q) :=
  match quotas with
  | [] => mret (true, mkPeeringCache (infos c) true)
  | q :: quotas =>
    match ListShadowPodsByCreator (q_user q) with
    | None => mret (false, c)
    | Some items =>
      pi ← alignExistingShadowPods (createPeeringInfo (q_user q) (q_resources q)) items;
      initialize_quotas (store c (q_user q) pi) quotas
    end
  end.
Definition initializeCache (c : peeringCache Q) : M (bool * peeringCache Q) :=
  match cl_quotas cl with
  | None => mret (false, c)
  | Some quotas => initialize_quotas c quotas
  end.

Fixpoint refresh_infos (c : peeringCache Q) (l : list (string * peeringInfo Q)) :
    M (peeringCache Q) :=
  match l with
  | [] => mret c
  | (key, pi) :: l =>
    match ListShadowPodsByCreator (userName pi) with
    | None => refresh_infos c l
    | Some items =>
      pi ← alignTerminatingOrNotExistingShadowPods pi items;
      refresh_infos (store c key pi) l
    end
  end.

(** The first loop of [checkAlignmentQuotaPeeringInfo]: peerings not yet known. *)
Fixpoint add_missing_infos (c : peeringCache Q) (quotas : list (Quota Q)) :
    M (bool * peeringCache Q) :=
  match quotas with
  | [] => mret (true, c)
  | q :: quotas =>
    match infos c !! q_user q with
    | Some _ => add_missing_infos c quotas
    | None =>
      let pi := createPeeringInfo (q_user q) (q_resources q) in
      match ListShadowPodsByCreator (q_user q) with
      | None => mret (false, store c (q_user q) pi)
      | Some items =>
        pi ← alignExistingShadowPods pi items;
        add_missing_infos (store c (q_user q) pi) quotas
      end
    end
  end.
Definition checkAlignmentQuotaPeeringInfo (c : peeringCache Q) : M (bool * peeringCache Q) :=
  match cl_quotas cl with
  | None => mret (false, c)
  | Some quotas =>
    '(done, c) ← add_missing_infos c quotas;
    if negb done then mret (false, c)
    else mret (true, mkPeeringCache
           (filter (fun e => fst e ∈ (q_user <$> quotas)) (infos c)) (ready c))
  end.

Definition refreshCache (c : peeringCache Q) : M (peeringCache Q) :=
  if negb (ready c) then '(_, c) ← initializeCache c; mret c
  else
    c ← refresh_infos c (range_infos (infos c));
    '(_, c) ← checkAlignmentQuotaPeeringInfo c;
    mret c.

Definition getOrCreatePeeringInfo (c : peeringCache Q) (user : string) (roQuota : ResourceList Q) :
    peeringInfo Q :=
  match infos c !! user with
  | None => createPeeringInfo user roQuota
  | Some pi => alignQuotaUpdates pi roQuota
  end.

(** ** webhook.go: the validating webhook *)

Context {Raw : Type} (DecodeRaw : Raw → option (ShadowPod Q Other)).
Context (Marshal : ShadowPod Q Other → option Raw) (enableResourceValidation : bool).
Implicit Types (c : peeringCache Q) (req : Request Raw).

(** The code and the error of [validateShadowPodClusterID]. *)
Definition validateShadowPodClusterID (ns spClusterID : string) : Z * option sp_error :=
  match cl_get_namespace_labels cl ns with
  | None => (400, Some ClientError)
  | Some labels =>
    if bool_decide (labels !! RemoteClusterID = Some spClusterID) then (200, None)
    else (403, Some ClusterIDMismatch)
  end.

(** The new image of each container comes from [previous]. *)
Fixpoint set_images (updated previous : list (Container Q Other)) :
    outcome (list (Container Q Other)) :=
  match updated, previous with
  | [], _ => Ret []
  | u :: us, p :: ps =>
    us ← set_images us ps;
    Ret (mkContainer (c_name u) (c_image p) (Requests u) (Limits u) (c_other u) :: us)
  | _ :: _, [] => Panic
  end.
Definition set_images_opt (updated previous : option (list (Container Q Other))) :
    outcome (option (list (Container Q Other))) :=
  match updated with
  | None => Ret None
  | Some us => us ← set_images us (default [] previous); Ret (Some us)
  end.

Definition CheckShadowPodUpdate (previous updated : PodSpec Q Other) : outcome bool :=
  cs ← set_images_opt (Containers updated) (Containers previous);
  ics ← set_images_opt (InitContainers updated) (InitContainers previous);
  let updated := mkPodSpec cs ics (ActiveDeadlineSeconds previous) (Tolerations previous)
                           (p_other updated) in
  Ret (bool_decide (previous = updated)).

Definition HandleCreate c req : M (Response Raw * peeringCache Q) :=
  match DecodeRaw (req_object req) with
  | None => mret (Errored 500 DecodeError, c)
  | Some sp =>
    match sp_labels sp !! LiqoOriginClusterIDKey with
    | None => mret (Denied (Text "missing origin Cluster ID label"), c)
    | Some clusterID =>
      match validateShadowPodClusterID (sp_namespace sp) clusterID with
      | (code, Some err) =>
        mret (if code =? 400 then Errored code err else Denied (OfError err), c)
      | (_, None) =>
        if negb enableResourceValidation then mret (Allowed (Text ""), c)
        else match sp_labels sp !! CreatorLabelKey with
        | None => mret (Denied (Text "missing creator label"), c)
        | Some creatorName =>
          match GetQuotaByUser creatorName with
          | Err _ => mret (Denied (Text "failed getting quota"), c)
          | Ok quota =>
            if default false (q_cordoned quota) then mret (Denied (Text "user is cordoned"), c)
            else
              let pi := getOrCreatePeeringInfo c creatorName (q_resources quota) in
              match req_dryrun req with
              | None => panic
              | Some dryRun =>
                '(r, pi) ← testAndUpdateCreation pi sp (q_limits quota) dryRun;
                mret (match r with Ok _ => Allowed (Text "") | Err e => Denied (OfError e) end,
                      store c creatorName pi)
              end
          end
        end
      end
    end
  end.

Definition HandleUpdate req : outcome (Response Raw) :=
  match DecodeRaw (req_object req), DecodeRaw (req_oldobject req) with
  | Some sp, Some oldSp =>
    match sp_labels sp !! LiqoOriginClusterIDKey, sp_labels oldSp !! LiqoOriginClusterIDKey with
    | Some clusterID, Some oldClusterID =>
      if negb (bool_decide (clusterID = oldClusterID))
      then Ret (Denied (Text "shadopow Cluster ID label is changed"))
      else b ← CheckShadowPodUpdate (sp_pod sp) (sp_pod oldSp);
           Ret (if b : bool then Allowed (Text "") else Denied (Text ""))
    | _, _ => Ret (Denied (Text "missing origin Cluster ID label"))
    end
  | _, _ => Ret (Errored 500 DecodeError)
  end.

Definition HandleDelete c req : outcome (Response Raw * peeringCache Q) :=
  if negb enableResourceValidation then Ret (Allowed (Text ""), c)
  else match DecodeRaw (req_oldobject req) with
  | None => Ret (Errored 500 DecodeError, c)
  | Some sp =>
    match sp_labels sp !! CreatorLabelKey with
    | None => Ret (Denied (Text "missing creator label"), c)
    | Some creatorName =>
      match infos c !! creatorName with
      | None => Ret (Allowed (Text "Peering not found in cache"), c)
      | Some pi =>
        match req_dryrun req with
        | None => Panic
        | Some dryRun =>
          let '(r, pi) := updateDeletion pi sp dryRun in
          Ret (match r with Ok _ => Allowed (Text "") | Err e => Allowed (OfError e) end,
               store c creatorName pi)
        end
      end
    end
  end.

Definition Handle c req : M (Response Raw * peeringCache Q) :=
  if negb (ready c) && enableResourceValidation then mret (Errored 500 Initializing, c)
  else match req_operation req with
  | Create => HandleCreate c req
  | Delete => lift (HandleDelete c req)
  | Update => r ← lift (HandleUpdate req); mret (r, c)
  | Connect => mret (Errored 400 UnsupportedOperation, c)
  end.

(** ** webhook.go: the mutating webhook *)

Definition extractCreatorInfo (username : string) : result sp_error string :=
  let creatorName := EscapeLabel username in
  if bool_decide (creatorName = ""%string) then Err MissingCreator else Ok creatorName.

Definition set_creator sp (creatorName : string) : ShadowPod Q Other :=
  mkShadowPod (sp_name sp) (sp_namespace sp) (sp_uid sp)
              (<[CreatorLabelKey := creatorName]> (sp_labels sp)) (sp_pod sp).

Definition marshal_patch req sp : Response Raw :=
  match Marshal sp with
  | None => Errored 500 MarshalError
  | Some raw => Patched (req_object req) raw
  end.

Definition Mutator_HandleCreate req : Response Raw :=
  if negb enableResourceValidation then Allowed (Text "")
  else match DecodeRaw (req_object req) with
  | None => Errored 500 DecodeError
  | Some sp =>
    match extractCreatorInfo (req_username req) with
    | Err e => Denied (OfError e)
    | Ok creatorName => marshal_patch req (set_creator sp creatorName)
    end
  end.

Definition Mutator_HandleUpdate req : Response Raw :=
  if negb enableResourceValidation then Allowed (Text "")
  else match DecodeRaw (req_oldobject req), DecodeRaw (req_object req) with
  | Some oldSp, Some sp =>
    match sp_labels oldSp !! CreatorLabelKey with
    | None => Denied (Text "missing creator name")
    | Some oldCreatorName =>
      match extractCreatorInfo (req_username req) with
      | Err e => Denied (OfError e)
      | Ok creatorName =>
        if negb (bool_decide (oldCreatorName = creatorName))
        then Denied (Text "creator name cannot be modified")
        else marshal_patch req (set_creator sp creatorName)
      end
    end
  | _, _ => Errored 500 DecodeError
  end.

Definition Mutator_Handle req : Response Raw :=
  match req_operation req with
  | Create => Mutator_HandleCreate req
  | Delete => Allowed (Text "")
  | Update => Mutator_HandleUpdate req
  | Connect => Errored 400 UnsupportedOperation
  end.
End shadowpod.
