(* ===== verification/ShadowPodQuota.v ===== *)
(** * ShadowPodQuota: the accounting of a peering

    What the loops of [peeringinfo.go] compute, name by name; the invariant that
    the quota in use is the sum of the quotas of the running pods; and the
    behaviour of creation, deletion and refresh with respect to it. *)

From S2P Require Export ShadowPod.
Local Open Scope Z_scope.

Section accounting.
Context {Q Other : Type} `{!QuantityOps Q, !QuantityLaws Q, !EqDecision Q, !EqDecision Other}.
Context (clock : nat → Z) (nsname_string : string * string → string).
Implicit Types (pi : peeringInfo Q) (sp : ShadowPod Q Other) (spd : Description Q).
Implicit Types (k : string) (m : gmap string (Description Q)).

Notation addShadowPod := (addShadowPod nsname_string).
Notation terminateShadowPod := (terminateShadowPod nsname_string).
Notation removeShadowPod := (removeShadowPod nsname_string).

(** ** The loops *)

Lemma lookup_generateQuotaPattern (r : ResourceList Q) k :
  generateQuotaPattern r !! k = (fun _ => qzero) <$> r !! k.
Proof.
  change (upd_entries (fun _ _ _ => Some qzero) (range r) ∅ !! k = (fun _ => qzero) <$> r !! k).
  rewrite (lookup_upd_entries _ r), lookup_empty by apply range_perm. by destruct (r !! k).
Qed.

Lemma lookup_getFreeQuota pi k :
  getFreeQuota pi !! k =
    (fun t => QSub t (default qzero (usedQuota pi !! k))) <$> totalQuota pi !! k.
Proof.
  change (upd_entries (fun k t _ => Some (QSub t (default qzero (usedQuota pi !! k))))
            (range (totalQuota pi)) ∅ !! k = (fun t => QSub t (default qzero (usedQuota pi !! k)))
            <$> totalQuota pi !! k).
  rewrite (lookup_upd_entries _ (totalQuota pi)), lookup_empty by apply range_perm.
  by destruct (totalQuota pi !! k).
Qed.

Definition sub_entry (_ : string) (v : Q) (prev : option Q) : option Q :=
  (fun p => QSub p v) <$> prev.
Definition add_entry (_ : string) (v : Q) (prev : option Q) : option Q :=
  Some (match prev with Some p => QAdd p v | None => v end).

Lemma subUsedResources_eq pi r :
  subUsedResources pi r = set_used pi (upd_entries sub_entry (range r) (usedQuota pi)).
Proof.
  unfold subUsedResources, upd_entries. generalize (range r) as l. intros l. revert pi.
  induction l as [|[k v] l IH]; intros pi; simpl; [by destruct pi|].
  destruct (usedQuota pi !! k) as [p|] eqn:E; rewrite IH; unfold set_used; simpl.
  - do 2 f_equal. apply map_eq. intros k'. destruct (decide (k' = k)) as [->|].
    + by rewrite lookup_insert_eq, lookup_partial_alter_eq, E.
    + by rewrite lookup_insert_ne, lookup_partial_alter_ne by done.
  - do 2 f_equal. apply map_eq. intros k'. destruct (decide (k' = k)) as [->|].
    + by rewrite lookup_partial_alter_eq, E.
    + by rewrite lookup_partial_alter_ne by done.
Qed.

Lemma addUsedResources_eq pi r :
  addUsedResources pi r = set_used pi (upd_entries add_entry (range r) (usedQuota pi)).
Proof.
  unfold addUsedResources, upd_entries. generalize (range r) as l. intros l. revert pi.
  induction l as [|[k v] l IH]; intros pi; simpl; [by destruct pi|].
  destruct (usedQuota pi !! k) as [p|] eqn:E; rewrite IH; unfold set_used; simpl;
    do 2 f_equal; apply map_eq; intros k'; destruct (decide (k' = k)) as [->|].
  1, 3: by rewrite lookup_insert_eq, lookup_partial_alter_eq, E.
  all: by rewrite lookup_insert_ne, lookup_partial_alter_ne by done.
Qed.

(** ** The quota in use, as amounts *)

Lemma amt_addUsed pi r k :
  amt (usedQuota (addUsedResources pi r)) k = amt (usedQuota pi) k + amt r k.
Proof.
  rewrite addUsedResources_eq. simpl. unfold amt.
  rewrite (lookup_upd_entries _ r) by apply range_perm.
  destruct (r !! k), (usedQuota pi !! k); simpl; rewrite ?nano_Add; lia.
Qed.

Lemma amt_subUsed pi r k : (is_Some (r !! k) → is_Some (usedQuota pi !! k)) →
  amt (usedQuota (subUsedResources pi r)) k = amt (usedQuota pi) k - amt r k.
Proof.
  rewrite subUsedResources_eq. simpl. unfold amt. intros H.
  rewrite (lookup_upd_entries _ r) by apply range_perm.
  destruct (r !! k), (usedQuota pi !! k) eqn:E; simpl; rewrite ?nano_Sub; try lia.
  by destruct (H ltac:(eauto)).
Qed.

Lemma used_dom_addUsed pi r k :
  is_Some (usedQuota (addUsedResources pi r) !! k)
  ↔ is_Some (usedQuota pi !! k) ∨ is_Some (r !! k).
Proof.
  rewrite addUsedResources_eq. simpl. rewrite (lookup_upd_entries _ r) by apply range_perm.
  unfold add_entry. destruct (r !! k), (usedQuota pi !! k); naive_solver.
Qed.

Lemma used_dom_subUsed pi r k :
  is_Some (usedQuota (subUsedResources pi r) !! k) ↔ is_Some (usedQuota pi !! k).
Proof.
  rewrite subUsedResources_eq. simpl. rewrite (lookup_upd_entries _ r) by apply range_perm.
  unfold sub_entry. destruct (r !! k), (usedQuota pi !! k); naive_solver.
Qed.

Lemma pods_addUsed pi r : shadowPods (addUsedResources pi r) = shadowPods pi.
Proof. by rewrite addUsedResources_eq. Qed.
Lemma pods_subUsed pi r : shadowPods (subUsedResources pi r) = shadowPods pi.
Proof. by rewrite subUsedResources_eq. Qed.
Lemma total_addUsed pi r : totalQuota (addUsedResources pi r) = totalQuota pi.
Proof. by rewrite addUsedResources_eq. Qed.
Lemma total_subUsed pi r : totalQuota (subUsedResources pi r) = totalQuota pi.
Proof. by rewrite subUsedResources_eq. Qed.

(** ** The demand of the running pods *)

Definition charge k spd : Z := if running spd then amt (quota spd) k else 0.
Definition demand m k : Z := map_fold (fun _ spd acc => charge k spd + acc) 0 m.

Lemma demand_empty k : demand ∅ k = 0.
Proof. by unfold demand; rewrite map_fold_empty. Qed.

Lemma demand_insert m key spd k : m !! key = None →
  demand (<[key := spd]> m) k = charge k spd + demand m k.
Proof. intros. unfold demand. rewrite map_fold_insert_L; [done| lia |done]. Qed.

Lemma demand_delete m key spd k : m !! key = Some spd →
  demand m k = charge k spd + demand (delete key m) k.
Proof. intros. unfold demand. rewrite (map_fold_delete_L _ _ key spd m); [done|lia|done]. Qed.

Lemma demand_replace m key spd spd' k : m !! key = Some spd →
  demand (<[key := spd']> m) k = demand m k - charge k spd + charge k spd'.
Proof.
  intros H. rewrite (demand_delete m key spd k H), <- insert_delete_eq.
  rewrite demand_insert by apply lookup_delete_eq. lia.
Qed.

(** A description is filed under its own name; the resources of a running pod
    are tracked; the quota in use is the demand of the running pods. *)
Record pi_ok pi : Prop := {
  pi_keys key spd : shadowPods pi !! key = Some spd → key = nsname_string (namespacedName spd);
  pi_tracked key spd k : shadowPods pi !! key = Some spd → running spd →
    is_Some (quota spd !! k) → is_Some (usedQuota pi !! k);
  pi_used k : amt (usedQuota pi) k = demand (shadowPods pi) k
}.

Lemma createPeeringInfo_ok user r : pi_ok (createPeeringInfo user r).
Proof.
  split; simpl; intros *; [by rewrite lookup_empty|by rewrite lookup_empty|].
  unfold amt. rewrite lookup_generateQuotaPattern, demand_empty.
  destruct (r !! k); simpl; [apply nano_zero|done].
Qed.

Lemma updateQuotas_ok pi r : pi_ok pi → pi_ok (updateQuotas pi r).
Proof. intros [H1 H2 H3]. by split. Qed.

Lemma addShadowPod_ok pi spd : pi_ok pi →
  shadowPods pi !! nsname_string (namespacedName spd) = None → running spd →
  pi_ok (addShadowPod pi spd).
Proof.
  intros [H1 H2 H3] Hnew Hrun. unfold ShadowPod.addShadowPod.
  split; rewrite ?pods_addUsed; simpl.
  - intros key d. rewrite lookup_insert_Some. intros [[<- <-]|[_ H]]; eauto.
  - intros key d k. rewrite lookup_insert_Some, used_dom_addUsed. simpl.
    intros [[<- <-]|[_ H]]; eauto.
  - intros k. rewrite amt_addUsed, demand_insert by done. simpl. rewrite H3.
    unfold charge. destruct (running spd); [lia|done].
Qed.

Lemma removeShadowPod_ok pi spd : pi_ok pi →
  shadowPods pi !! nsname_string (namespacedName spd) = Some spd → running spd = false →
  pi_ok (removeShadowPod pi spd).
Proof.
  intros [H1 H2 H3] Hin Hrun. split; simpl.
  - intros key d [_ H]%lookup_delete_Some. eauto.
  - intros key d k [_ H]%lookup_delete_Some. eauto.
  - intros k. rewrite H3, (demand_delete _ _ _ k Hin). unfold charge. rewrite Hrun. lia.
Qed.

Lemma terminateShadowPod_ok pi spd : pi_ok pi →
  shadowPods pi !! nsname_string (namespacedName spd) = Some spd → running spd →
  pi_ok (terminateShadowPod pi spd).
Proof.
  intros [H1 H2 H3] Hin Hrun. unfold ShadowPod.terminateShadowPod.
  split; rewrite ?pods_subUsed; simpl.
  - intros key d. rewrite lookup_insert_Some. intros [[<- <-]|[_ H]]; eauto.
  - intros key d k. rewrite lookup_insert_Some, used_dom_subUsed. simpl.
    intros [[<- <-]|[_ H]]; [done|eauto].
  - intros k. rewrite amt_subUsed by (simpl; eauto). simpl.
    rewrite H3, (demand_replace _ _ _ _ k Hin). unfold charge. simpl.
    destruct (running spd); [lia|done].
Qed.

(** ** Creation and deletion *)

Lemma check_entries_ok (free : ResourceList Q) l :
  is_ok (check_entries free l) ↔
  ∀ k v, (k, v) ∈ l → ∃ f, free !! k = Some f ∧ nano v ≤ nano f.
Proof.
  induction l as [|[k v] l IH]; simpl.
  - split; [|done]. intros _ k v []%not_elem_of_nil.
  - transitivity ((∃ f, free !! k = Some f ∧ nano v ≤ nano f) ∧ is_ok (check_entries free l)).
    + destruct (free !! k) as [f|]; [|naive_solver]. rewrite Cmp_nano.
      assert (He : (∃ f', Some f = Some f' ∧ nano v ≤ nano f') ↔ nano v ≤ nano f)
        by naive_solver.
      rewrite He. destruct (Z.compare_spec (nano f) (nano v)); simpl.
      * split; [intros; split; [lia|done]|by intros [_ ?]].
      * split; [done|intros [? _]; lia].
      * split; [intros; split; [lia|done]|by intros [_ ?]].
    + rewrite IH. setoid_rewrite elem_of_cons. naive_solver.
Qed.

(** The request fits into what the total quota leaves. *)
Definition fits pi (q : ResourceList Q) : Prop :=
  ∀ k v, q !! k = Some v →
    ∃ tot, totalQuota pi !! k = Some tot ∧ demand (shadowPods pi) k + nano v ≤ nano tot.

Lemma checkResources_ok pi spd : pi_ok pi → is_ok (checkResources pi spd) ↔ fits pi (quota spd).
Proof.
  intros Hok. unfold checkResources. rewrite check_entries_ok. unfold fits.
  setoid_rewrite range_perm. setoid_rewrite elem_of_map_to_list.
  setoid_rewrite lookup_getFreeQuota. setoid_rewrite fmap_Some.
  assert (Hu : ∀ k, nano (default qzero (usedQuota pi !! k)) = demand (shadowPods pi) k).
  { intros k. rewrite <- (pi_used pi Hok k). unfold amt.
    destruct (usedQuota pi !! k); simpl; [done|apply nano_zero]. }
  split; intros H k v Hv; destruct (H k v Hv) as (f & Hf & Hle).
  - destruct Hf as (tot & Ht & ->). rewrite nano_Sub, Hu in Hle. exists tot. split; [done|lia].
  - eexists. split; [by eexists|]. rewrite nano_Sub, Hu. lia.
Qed.

Context (cl : Client Q Other).

(** The name of the pod is free: unknown, or terminated and gone from the cluster. *)
Definition slot_free pi sp : Prop :=
  match shadowPods pi !! nsname_string (sp_namespace sp, sp_name sp) with
  | None => True
  | Some d => running d = false ∧ cl_get_shadowpod cl (sp_namespace sp, sp_name sp) = Err NotFound
  end.

(** Creation as a transition: the verdict and the effect on the running demand. *)
Record creation_outcome pi sp (le : LimitsEnforcement) (dry : bool)
    (r : result sp_error ()) pi' : Prop := {
  co_verdict : is_ok r ↔ ∃ q, getQuotaFromShadowPod sp le = Ok q ∧ slot_free pi sp ∧ fits pi q;
  co_ok : pi_ok pi';
  co_total : totalQuota pi' = totalQuota pi;
  co_demand k : demand (shadowPods pi') k = demand (shadowPods pi) k +
    match r, getQuotaFromShadowPod sp le with
    | Ok _, Ok q => if dry then 0 else amt q k
    | _, _ => 0
    end
}.

Lemma demand_remove_terminated pi spd k : pi_ok pi →
  shadowPods pi !! nsname_string (namespacedName spd) = Some spd → running spd = false →
  demand (shadowPods (removeShadowPod pi spd)) k = demand (shadowPods pi) k.
Proof.
  intros Hok Hin Hrun. simpl. rewrite (demand_delete _ _ _ k Hin). unfold charge.
  rewrite Hrun. lia.
Qed.

(** Once the slot is free, the check decides. *)
Lemma creation_checked pi0 pi sp le dry q ts :
  pi_ok pi → totalQuota pi = totalQuota pi0 →
  (∀ k, demand (shadowPods pi) k = demand (shadowPods pi0) k) →
  shadowPods pi !! nsname_string (sp_namespace sp, sp_name sp) = None →
  getQuotaFromShadowPod sp le = Ok q → slot_free pi0 sp →
  let spd := mkDescription (sp_namespace sp, sp_name sp) (sp_uid sp) q true ts in
  let '(r, pi') := match checkResources pi spd with
                   | Err e => (Err e, pi)
                   | Ok _ => (Ok (), if negb dry then addShadowPod pi spd else pi)
                   end in
  creation_outcome pi0 sp le dry r pi'.
Proof.
  intros Hok Ht Hd Hfree Hq Hslot spd.
  assert (Hfits : is_ok (checkResources pi spd) ↔ fits pi0 q).
  { rewrite checkResources_ok by done. unfold fits. simpl. setoid_rewrite Hd. by rewrite Ht. }
  destruct (checkResources pi spd) as [[]|e]; simpl in Hfits.
  - split; [naive_solver| | |].
    + destruct dry; simpl; [done|]. by apply addShadowPod_ok.
    + destruct dry; simpl; [done|]. unfold ShadowPod.addShadowPod. by rewrite total_addUsed.
    + intros k. rewrite Hq. destruct dry; simpl; [rewrite Hd; lia|].
      unfold ShadowPod.addShadowPod. rewrite pods_addUsed. simpl.
      rewrite demand_insert, Hd by done. unfold charge. simpl. lia.
  - split; [|done|done|intros k; rewrite Hd; lia].
    split; [done|]. intros (q' & Hq' & _ & Hf). rewrite Hq in Hq'. injection Hq' as <-.
    by apply Hfits in Hf.
Qed.

Lemma creation_refused pi sp le dry e : pi_ok pi →
  (∀ q, getQuotaFromShadowPod sp le = Ok q → ¬ slot_free pi sp) →
  creation_outcome pi sp le dry (Err e) pi.
Proof.
  intros Hok Hno. split; [|done|done|intros; lia]. split; [done|].
  intros (q & Hq & Hs & _). by destruct (Hno q Hq).
Qed.

Lemma testAndUpdateCreation_spec pi sp le dry t : pi_ok pi →
  wp (testAndUpdateCreation clock nsname_string cl pi sp le dry) t
     (fun '(r, pi') _ => creation_outcome pi sp le dry r pi').
Proof.
  intros Hok. unfold testAndUpdateCreation, getOrCreateShadowPodDescription. apply wp_bind.
  destruct (getQuotaFromShadowPod sp le) as [q|e] eqn:Hq.
  2: { wp_steps. apply creation_refused; [done|by rewrite Hq]. }
  destruct (shadowPods pi !! _) as [d|] eqn:Hd; [destruct (running d) eqn:Hrun|].
  - wp_steps. apply creation_refused; [done|]. intros ? _. unfold slot_free. rewrite Hd, Hrun.
    by intros [? _].
  - unfold checkShadowPodExistence.
    destruct (cl_get_shadowpod cl _) as [?|[]] eqn:Hg; try (wp_steps; apply creation_refused;
      [done|intros ? _; unfold slot_free; rewrite Hd, Hg; by intros [_ ?]]).
    pose proof (pi_keys pi Hok _ _ Hd) as Hk. rewrite Hk in Hd.
    wp_steps. unfold createShadowPodDescription. wp_steps.
    pose proof (creation_checked pi (removeShadowPod pi d) sp le dry q (clock t)) as HC. cbv zeta in HC.
    destruct (checkResources _ _) as [[]|e'] eqn:Hc; wp_steps; apply HC;
      try done; try (by apply removeShadowPod_ok); try (intros; by apply demand_remove_terminated).
    1, 3: simpl; rewrite Hk; apply lookup_delete_eq.
    all: unfold slot_free; by rewrite Hk, Hd.
  - unfold createShadowPodDescription. wp_steps.
    pose proof (creation_checked pi pi sp le dry q (clock t)) as HC. cbv zeta in HC.
    destruct (checkResources _ _) as [[]|e'] eqn:Hc; wp_steps; apply HC;
      try done; unfold slot_free; by rewrite Hd.
Qed.
End accounting.
