(* ===== verification/ShadowPodAlign.v ===== *)
(** * ShadowPodAlign: the quota a pod requests, and the alignment with the cluster

    [getQuotaFromShadowPod] against its specification, and the loops of
    [cache.go] that add the pods found in the cluster to a peering and drop the
    descriptions of pods that are gone. *)

From S2P Require Export ShadowPodQuota.
Local Open Scope Z_scope.

Section request.
Context {Q Other : Type} `{!QuantityOps Q, !QuantityLaws Q, !EqDecision Q, !EqDecision Other}.
Implicit Types (c : Container Q Other) (cs : list (Container Q Other)) (k : string).

(** What the enforcement level demands of one container. *)
Definition container_ok (le : LimitsEnforcement) c : Prop :=
  (le = HardLimitsEnforcement →
   ∀ k v, Requests c !! k = Some v → nano v = nano (default qzero (Limits c !! k))) ∧
  (le ≠ NoLimitsEnforcement →
   is_Some (Requests c !! ResourceCPU) ∧ is_Some (Requests c !! ResourceMemory)).

Definition merge_requests (combine : Q → option Q → option Q) (acc : ResourceList Q) c :
    ResourceList Q :=
  upd_entries (fun _ => combine) (range (Requests c)) acc.

Lemma request_entries_spec combine le c l cpu mem acc x :
  request_entries combine le c l cpu mem acc = Ok x ↔
  (le = HardLimitsEnforcement → ∀ k, k ∈ l.*1 →
     nano (default qzero (Requests c !! k)) = nano (default qzero (Limits c !! k))) ∧
  x = (cpu || bool_decide (ResourceCPU ∈ l.*1), mem || bool_decide (ResourceMemory ∈ l.*1),
       upd_entries (fun _ => combine) l acc).
Proof.
  revert cpu mem acc. induction l as [|[k v] l IH]; intros cpu mem acc.
  - simpl. rewrite !orb_false_r.
    split; [intros [= <-]; split; [intros _ k []%not_elem_of_nil|done]|by intros [_ ->]].
  - cbn [request_entries]. rewrite fmap_cons. cbn [fst snd].
    set (bad := bool_decide (le = HardLimitsEnforcement) && _).
    assert (Hbad : bad = false ↔ (le = HardLimitsEnforcement →
      nano (default qzero (Requests c !! k)) = nano (default qzero (Limits c !! k)))).
    { unfold bad. rewrite Cmp_nano, andb_false_iff, bool_decide_eq_false.
      destruct (Z.compare_spec (nano (default qzero (Requests c !! k)))
                               (nano (default qzero (Limits c !! k)))) as [H|H|H]; simpl;
        destruct (decide (le = HardLimitsEnforcement)); naive_solver lia. }
    transitivity (bad = false ∧
      request_entries combine le c l (cpu || bool_decide (k = ResourceCPU))
        (mem || bool_decide (k = ResourceMemory)) (partial_alter (combine v) k acc) = Ok x).
    { destruct bad; naive_solver. }
    assert (Hin : ∀ k', bool_decide (k' ∈ k :: l.*1)
                        = bool_decide (k = k') || bool_decide (k' ∈ l.*1)).
    { intros k'. rewrite <- bool_decide_or. apply bool_decide_ext.
      rewrite elem_of_cons. naive_solver. }
    rewrite IH, Hbad, !Hin, !orb_assoc. setoid_rewrite elem_of_cons. naive_solver.
Qed.

Lemma range_keys (m : ResourceList Q) k : k ∈ (range m).*1 ↔ is_Some (m !! k).
Proof.
  rewrite range_perm, list_elem_of_fmap. split.
  - intros ([k' v] & -> & H%elem_of_map_to_list). by exists v.
  - intros [v H]. exists (k, v). by rewrite elem_of_map_to_list.
Qed.

Lemma container_requests_spec combine le cs acc acc' :
  container_requests combine le cs acc = Ok acc' ↔
  Forall (container_ok le) cs ∧ acc' = foldl (merge_requests combine) acc cs.
Proof.
  revert acc. induction cs as [|c cs IH]; intros acc; simpl.
  { split; [by intros [= <-]|by intros [_ ->]]. }
  rewrite Forall_cons. transitivity (container_ok le c ∧
    container_requests combine le cs (merge_requests combine acc c) = Ok acc').
  2: { rewrite IH. naive_solver. }
  assert (Hhard : (le = HardLimitsEnforcement → ∀ k, k ∈ (range (Requests c)).*1 →
      nano (default qzero (Requests c !! k)) = nano (default qzero (Limits c !! k)))
    ↔ (le = HardLimitsEnforcement →
      ∀ k v, Requests c !! k = Some v → nano v = nano (default qzero (Limits c !! k)))).
  { setoid_rewrite range_keys. split; intros H Hle k.
    - intros v Hv. specialize (H Hle k (mk_is_Some _ _ Hv)). by rewrite Hv in H.
    - intros [v Hv]. rewrite Hv. by apply H. }
  unfold container_ok. rewrite <- Hhard.
  destruct (request_entries combine le c (range (Requests c)) false false acc) as [x|e] eqn:Hr.
  - apply request_entries_spec in Hr as [Hh ->]. simpl.
    rewrite <- !range_keys. unfold merge_requests.
    destruct (decide (le = NoLimitsEnforcement)) as [->|Hle];
      [by rewrite bool_decide_true by done; naive_solver|].
    rewrite (bool_decide_false (le = _)) by done.
    do 2 case_bool_decide; simpl; naive_solver.
  - split; [done|]. intros [[Hh _] _]. exfalso.
    assert (Hx := proj2 (request_entries_spec combine le c (range (Requests c)) false false acc _)
                        (conj Hh eq_refl)). congruence.
Qed.

(** ** The two combinations *)

Definition total_request cs k : Z := foldr (fun c acc => amt (Requests c) k + acc) 0 cs.

Lemma amt_add_requests cs acc k :
  amt (foldl (merge_requests add_request) acc cs) k = amt acc k + total_request cs k.
Proof.
  revert acc. induction cs as [|c cs IH]; intros acc; simpl; [lia|]. rewrite IH.
  unfold merge_requests, amt at 1. rewrite (lookup_upd_entries _ (Requests c)) by apply range_perm.
  unfold amt. destruct (Requests c !! k), (acc !! k); simpl; rewrite ?nano_Add; lia.
Qed.

(** The init containers: the amount kept is one of the requests, and no request
    exceeds it by a unit or more. *)
Definition request_range (q : Q) : Prop := 0 ≤ nano q ≤ (2 ^ 63 - 1) * 10 ^ 9.
Definition requests_in_range c : Prop := ∀ k v, Requests c !! k = Some v → request_range v.

Lemma amt_range (l : ResourceList Q) k :
  (∀ v, l !! k = Some v → request_range v) → 0 ≤ amt l k.
Proof. intros H. unfold amt. destruct (l !! k); [by apply H|done]. Qed.

(** The loop over init containers, seen from one resource. *)
Definition pick k (o : option Q) c : option Q :=
  match Requests c !! k with Some v => max_request v o | None => o end.

Lemma lookup_max_requests cs acc k :
  foldl (merge_requests max_request) acc cs !! k = foldl (pick k) (acc !! k) cs.
Proof.
  revert acc. induction cs as [|c cs IH]; intros acc; simpl; [done|]. rewrite IH. f_equal.
  unfold merge_requests. by rewrite (lookup_upd_entries _ (Requests c)) by apply range_perm.
Qed.

(** [w] is at least [v], as far as [Value] can tell. *)
Definition covers (w : option Q) (v : Q) : Prop := ∃ x, w = Some x ∧ Value v ≤ Value x.

Lemma covers_trans w x v : covers w x → Value v ≤ Value x → covers w v.
Proof. intros (y & -> & ?) ?. exists y. split; [done|lia]. Qed.

Lemma pick_spec k o c :
  (pick k o c = o ∨ (is_Some (Requests c !! k) ∧ pick k o c = Requests c !! k)) ∧
  (∀ v, o = Some v → covers (pick k o c) v) ∧
  (∀ v, Requests c !! k = Some v → covers (pick k o c) v).
Proof.
  unfold pick, max_request, covers. destruct (Requests c !! k) as [v|].
  2: { split; [by left|]. split; [intros v ->; eauto with lia|done]. }
  destruct o as [p|]; [|split; [by right; eauto|split; [done|intros ? [= <-]; eauto with lia]]].
  destruct (Z.ltb_spec (Value p) (Value v)); (split; [by eauto|]); split; intros ? [= <-];
    eexists; (split; [done|lia]).
Qed.

Lemma foldl_pick_spec k cs o :
  (foldl (pick k) o cs = o ∨
     ∃ c, c ∈ cs ∧ is_Some (Requests c !! k) ∧ foldl (pick k) o cs = Requests c !! k) ∧
  (∀ v, o = Some v → covers (foldl (pick k) o cs) v) ∧
  (∀ c v, c ∈ cs → Requests c !! k = Some v → covers (foldl (pick k) o cs) v).
Proof.
  revert o. induction cs as [|c cs IH]; intros o; simpl.
  { split; [by left|]. split; [intros v ->; by exists v|]. intros ? ? []%not_elem_of_nil. }
  destruct (pick_spec k o c) as (H1 & H2 & H3). destruct (IH (pick k o c)) as (I1 & I2 & I3).
  setoid_rewrite elem_of_cons. split; [|split].
  - destruct I1 as [->|(c' & ? & ? & ?)]; [|naive_solver].
    destruct H1 as [->|[? ?]]; [by left|]. right. exists c. naive_solver.
  - intros v Hv. destruct (H2 v Hv) as (w & Hw & ?). eapply covers_trans; [by apply I2|done].
  - intros c' v [->|Hin] Hv; [|by eapply I3].
    destruct (H3 v Hv) as (w & Hw & ?). eapply covers_trans; [by apply I2|done].
Qed.

Lemma covers_close v w : request_range v → request_range w → Value v ≤ Value w →
  nano v < nano w + 10 ^ 9.
Proof. intros Hv%Value_round Hw%Value_round. lia. Qed.

Lemma max_requests_spec cs k : Forall requests_in_range cs →
  let peak := foldl (merge_requests max_request) ∅ cs in
  (∀ v, peak !! k = Some v → request_range v) ∧
  (amt peak k = 0 ∨ ∃ c, c ∈ cs ∧ amt peak k = amt (Requests c) k) ∧
  ∀ c, c ∈ cs → amt (Requests c) k < amt peak k + 10 ^ 9.
Proof.
  rewrite Forall_forall. intros Hcs. cbv zeta. unfold amt.
  rewrite lookup_max_requests, lookup_empty.
  destruct (foldl_pick_spec k cs None) as (G1 & _ & G3).
  assert (Hr : ∀ v, foldl (pick k) None cs = Some v → request_range v).
  { intros v Hv. destruct G1 as [He|(c & Hin & _ & He)]; rewrite He in Hv; [done|].
    by eapply Hcs. }
  split; [done|]. split.
  - destruct G1 as [->|(c & Hin & _ & ->)]; [by left|right; by exists c].
  - intros c Hin. destruct (Requests c !! k) as [v|] eqn:Hv.
    + destruct (G3 c v Hin Hv) as (w & Hw & ?). rewrite Hw.
      apply covers_close; [by eapply Hcs|by apply Hr|done].
    + destruct (foldl (pick k) None cs) as [w|]; [destruct (Hr w eq_refl); lia|lia].
Qed.

Lemma total_request_nonneg cs k : Forall requests_in_range cs → 0 ≤ total_request cs k.
Proof.
  induction 1 as [|c cs Hc _ IH]; simpl; [done|].
  pose proof (amt_range (Requests c) k (Hc k)). lia.
Qed.

(** Sums of requests are not negative, entry by entry. *)
Lemma add_requests_nonneg cs k v : Forall requests_in_range cs →
  foldl (merge_requests add_request) ∅ cs !! k = Some v → 0 ≤ nano v.
Proof.
  intros Hcs Hv. pose proof (amt_add_requests cs ∅ k) as He.
  rewrite amt_empty in He. unfold amt at 1 in He. rewrite Hv in He.
  pose proof (total_request_nonneg cs k Hcs). lia.
Qed.

(** The amount [quotav1.Max] keeps. *)
Lemma quota_max_amt cs inits k : Forall requests_in_range cs →
  (∀ v, foldl (merge_requests max_request) ∅ inits !! k = Some v → request_range v) →
  amt (Max (foldl (merge_requests add_request) ∅ cs) (foldl (merge_requests max_request) ∅ inits)) k
  = Z.max (total_request cs k) (amt (foldl (merge_requests max_request) ∅ inits) k).
Proof.
  intros Hcs Hr. rewrite amt_Max, amt_add_requests, amt_empty, Z.add_0_l; [done| |].
  - intros v. by apply add_requests_nonneg.
  - intros v Hv. by apply Hr.
Qed.
End request.

(** ** Alignment with the cluster *)

Section align.
Context {Q Other : Type} `{!QuantityOps Q, !QuantityLaws Q, !EqDecision Q, !EqDecision Other}.
Context (clock : nat → Z) (nsname_string : string * string → string).
Context (range_pods : gmap string (Description Q) → list (string * Description Q)).
Context (range_pods_perm : ∀ m, range_pods m ≡ₚ map_to_list m).
Implicit Types (pi : peeringInfo Q) (sp : ShadowPod Q Other) (spd : Description Q) (k : string).

Notation pi_ok := (pi_ok nsname_string).
Definition pod_key sp : string := nsname_string (sp_namespace sp, sp_name sp).

(** Pods of the cluster have at least a list of containers. *)
Definition has_containers sp : Prop := is_Some (Containers (sp_pod sp)).

Lemma getQuota_unenforced sp : has_containers sp →
  ∃ q, getQuotaFromShadowPod sp NoLimitsEnforcement = Ok q.
Proof.
  intros [cs Hcs]. unfold getQuotaFromShadowPod. rewrite Hcs.
  assert (Hok : ∀ combine l, ∃ acc,
    container_requests (Other := Other) combine NoLimitsEnforcement l ∅ = Ok acc).
  { intros combine l. eexists. apply container_requests_spec. split; [|done].
    apply Forall_forall. intros c _. split; [done|]. by intros []. }
  destruct (Hok add_request cs) as [a ->].
  destruct (Hok max_request (default [] (InitContainers (sp_pod sp)))) as [b ->]. eauto.
Qed.

(** What adding the pods of the cluster does to a peering. *)
Record added pi (items : list (ShadowPod Q Other)) pi' : Prop := {
  ad_ok : pi_ok pi';
  ad_keep : shadowPods pi ⊆ shadowPods pi';
  ad_in sp : sp ∈ items → is_Some (shadowPods pi' !! pod_key sp);
  ad_new key : is_Some (shadowPods pi' !! key) →
    is_Some (shadowPods pi !! key) ∨ ∃ sp, sp ∈ items ∧ key = pod_key sp;
  ad_same : userName pi' = userName pi ∧ totalQuota pi' = totalQuota pi
}.

Lemma checkAndAddShadowPods_spec pi sp t : pi_ok pi → has_containers sp →
  wp (checkAndAddShadowPods clock nsname_string pi sp (sp_namespace sp, sp_name sp)) t
     (fun '(_, pi') _ => added pi [sp] pi').
Proof.
  intros Hok Hsp. unfold checkAndAddShadowPods. destruct (shadowPods pi !! _) as [d|] eqn:Hd.
  - wp_steps. split; try done; [|by left].
    intros sp' ->%list_elem_of_singleton. unfold pod_key. by rewrite Hd.
  - destruct (getQuota_unenforced sp Hsp) as [q ->]. unfold createShadowPodDescription. wp_steps.
    split.
    + by apply addShadowPod_ok.
    + unfold addShadowPod. rewrite pods_addUsed. by apply insert_subseteq.
    + intros sp' ->%list_elem_of_singleton. unfold addShadowPod. rewrite pods_addUsed. simpl.
      unfold pod_key. rewrite lookup_insert_eq. eauto.
    + intros key. unfold addShadowPod. rewrite pods_addUsed. simpl.
      rewrite lookup_insert_is_Some. setoid_rewrite list_elem_of_singleton. unfold pod_key.
      naive_solver.
    + unfold addShadowPod. by rewrite addUsedResources_eq.
Qed.

Lemma alignExistingShadowPods_spec items : ∀ pi t, pi_ok pi → Forall has_containers items →
  wp (alignExistingShadowPods clock nsname_string pi items) t (fun pi' _ => added pi items pi').
Proof.
  induction items as [|sp items IH]; intros pi t Hok Hall; simpl.
  { wp_steps. split; [done|done| |by left|done]. intros ? []%not_elem_of_nil. }
  apply Forall_cons in Hall as [Hsp Hall]. apply wp_bind.
  eapply wp_mono; [by apply checkAndAddShadowPods_spec|]. intros [b pi1] t1 H1.
  eapply wp_mono; [apply IH; [apply H1|done]|]. intros pi2 t2 H2. split.
  - apply H2.
  - etrans; [apply H1|apply H2].
  - intros sp' [->|Hin]%elem_of_cons; [|by apply H2].
    destruct (ad_in _ _ _ H1 sp ltac:(left)) as [d Hd]. exists d.
    eapply lookup_weaken; [exact Hd|apply H2].
  - intros key Hk. setoid_rewrite elem_of_cons.
    destruct (ad_new _ _ _ H2 key Hk) as [Hk1|(sp' & ? & ?)]; [|naive_solver].
    destruct (ad_new _ _ _ H1 key Hk1) as [?|(sp' & ->%list_elem_of_singleton & ?)]; naive_solver.
  - destruct (ad_same _ _ _ H1), (ad_same _ _ _ H2). split; congruence.
Qed.

(** Dropping descriptions: what stays was there and unchanged, what is listed
    stays, and what is gone from the cluster stays only if it is running and was
    created at most thirty seconds before a clock reading of this pass. *)
Record dropped pi (spMap : gset string) (keys : list string) (t t' : nat) pi' : Prop := {
  dr_ok : pi_ok pi';
  dr_sub : shadowPods pi' ⊆ shadowPods pi;
  dr_keep key spd : shadowPods pi !! key = Some spd → key ∈ spMap →
    shadowPods pi' !! key = Some spd;
  dr_young key spd : key ∈ keys → shadowPods pi' !! key = Some spd → key ∉ spMap →
    running spd ∧ ∃ n, (t ≤ n < t')%nat ∧ clock n - creationTimestamp spd ≤ 30 * 10 ^ 9;
  dr_same : userName pi' = userName pi ∧ totalQuota pi' = totalQuota pi;
  dr_time : (t ≤ t')%nat
}.

(** Removing a terminated or expired description. *)
Lemma dropped_delete pi spMap key spd t t' pi' : (t ≤ t')%nat →
  shadowPods pi !! key = Some spd → key ∉ spMap → pi_ok pi' →
  shadowPods pi' = delete key (shadowPods pi) →
  userName pi' = userName pi ∧ totalQuota pi' = totalQuota pi →
  dropped pi spMap [key] t t' pi'.
Proof.
  intros Ht Hin Hnot Hok' Hp Hsame. split; try done; rewrite Hp.
  - apply delete_subseteq.
  - intros key' spd' ? ?. rewrite lookup_delete_ne; [done|by intros <-].
  - intros key' spd' ->%list_elem_of_singleton. by rewrite lookup_delete_eq.
Qed.

Lemma expire_ok pi spd : pi_ok pi →
  shadowPods pi !! nsname_string (namespacedName spd) = Some spd → running spd →
  let pi' := removeShadowPod nsname_string (terminateShadowPod nsname_string pi spd) (terminate spd) in
  pi_ok pi' ∧ shadowPods pi' = delete (nsname_string (namespacedName spd)) (shadowPods pi) ∧
  userName pi' = userName pi ∧ totalQuota pi' = totalQuota pi.
Proof.
  intros Hok Hin Hrun. cbv zeta. split.
  - apply removeShadowPod_ok; [by apply terminateShadowPod_ok| |done].
    unfold terminateShadowPod. rewrite pods_subUsed. simpl. by rewrite lookup_insert_eq.
  - unfold removeShadowPod, terminateShadowPod. simpl. rewrite subUsedResources_eq. simpl.
    by rewrite delete_insert_eq.
Qed.

Lemma align_description_spec spMap pi key t : pi_ok pi →
  wp (align_description clock nsname_string spMap pi key) t
     (fun pi' t' => dropped pi spMap [key] t t' pi').
Proof.
  intros Hok. unfold align_description. destruct (shadowPods pi !! key) as [spd|] eqn:Hd.
  2: { wp_steps. split; try done. intros ? ? ->%list_elem_of_singleton. by rewrite Hd. }
  pose proof (pi_keys _ pi Hok _ _ Hd) as Hk. rewrite <- Hk.
  case_bool_decide as Hin.
  { wp_steps. split; try done. by intros ? ? ->%list_elem_of_singleton. }
  destruct (running spd) eqn:Hrun; simpl.
  - wp_steps. destruct (Z.ltb_spec (30 * 10 ^ 9) (clock t - creationTimestamp spd)).
    + rewrite Hk in Hd. destruct (expire_ok pi spd Hok Hd ltac:(by rewrite Hrun)) as (? & ? & ?).
      rewrite Hk. apply (dropped_delete _ _ _ spd); try done; [lia|by rewrite <- Hk].
    + split; try done; [|lia]. intros k d ->%list_elem_of_singleton Hd' _.
      rewrite Hd in Hd'. injection Hd' as <-. split; [by rewrite Hrun|].
      exists t. split; lia.
  - wp_steps. apply (dropped_delete _ _ _ spd); try done.
    + rewrite Hk in Hd. by apply removeShadowPod_ok.
    + simpl. by rewrite <- Hk.
Qed.

Lemma align_descriptions_spec spMap keys : ∀ pi t, pi_ok pi →
  wp (align_descriptions clock nsname_string spMap pi keys) t
     (fun pi' t' => dropped pi spMap keys t t' pi').
Proof.
  induction keys as [|key keys IH]; intros pi t Hok; simpl.
  { wp_steps. split; try done. intros ? ? []%not_elem_of_nil. }
  apply wp_bind. eapply wp_mono; [by apply align_description_spec|]. intros pi1 t1 H1.
  eapply wp_mono; [apply IH, H1|]. intros pi2 t2 H2. pose proof (dr_time _ _ _ _ _ _ H1).
  pose proof (dr_time _ _ _ _ _ _ H2). split; [apply H2| | | | |lia].
  - etrans; [apply H2|apply H1].
  - intros k d Hd Hin. apply (dr_keep _ _ _ _ _ _ H2); [|done]. by apply (dr_keep _ _ _ _ _ _ H1).
  - intros k d Hk Hd Hnot. apply elem_of_cons in Hk as [->|Hk].
    + destruct (dr_young _ _ _ _ _ _ H1 key d) as (Hr & n & ? & ?); [left| |done|].
      * eapply lookup_weaken; [exact Hd|apply H2].
      * split; [done|]. exists n. split; [lia|done].
    + destruct (dr_young _ _ _ _ _ _ H2 k d Hk Hd Hnot) as (Hr & n & ? & ?).
      split; [done|]. exists n. split; [lia|done].
  - destruct (dr_same _ _ _ _ _ _ H1), (dr_same _ _ _ _ _ _ H2). split; congruence.
Qed.

(** A refresh of one peering. *)
Record aligned pi (items : list (ShadowPod Q Other)) (t t' : nat) pi' : Prop := {
  al_ok : pi_ok pi';
  al_in sp : sp ∈ items → is_Some (shadowPods pi' !! pod_key sp);
  al_keep sp spd : sp ∈ items → shadowPods pi !! pod_key sp = Some spd →
    shadowPods pi' !! pod_key sp = Some spd;
  al_gone key spd : shadowPods pi' !! key = Some spd → (∀ sp, sp ∈ items → key ≠ pod_key sp) →
    shadowPods pi !! key = Some spd ∧ running spd ∧
    ∃ n, (t ≤ n < t')%nat ∧ clock n - creationTimestamp spd ≤ 30 * 10 ^ 9;
  al_same : userName pi' = userName pi ∧ totalQuota pi' = totalQuota pi
}.

Lemma checkAndAdd_time pi sp n t :
  wlp (checkAndAddShadowPods clock nsname_string pi sp n) t (fun _ t' => (t ≤ t')%nat).
Proof.
  unfold checkAndAddShadowPods. destruct (shadowPods pi !! _); [by wlp_steps|].
  destruct (getQuotaFromShadowPod _ _); [|by wlp_steps].
  unfold createShadowPodDescription. wlp_steps. lia.
Qed.

Lemma alignExisting_time (items : list (ShadowPod Q Other)) : ∀ pi t,
  wlp (alignExistingShadowPods clock nsname_string pi items) t (fun _ t' => (t ≤ t')%nat).
Proof.
  induction items as [|sp items IH]; intros pi t; simpl; [by wlp_steps|]. apply wlp_bind.
  eapply wlp_mono; [apply checkAndAdd_time|]. intros [b pi1] t1 ?.
  eapply wlp_mono; [apply IH|]. simpl. intros; lia.
Qed.

Lemma align_peering_spec pi items t : pi_ok pi → Forall has_containers items →
  wp (alignTerminatingOrNotExistingShadowPods clock nsname_string range_pods pi items) t
     (fun pi' t' => aligned pi items t t' pi').
Proof.
  intros Hok Hall. unfold alignTerminatingOrNotExistingShadowPods. apply wp_bind.
  eapply wp_mono.
  { apply wp_wlp; [by apply alignExistingShadowPods_spec|apply alignExisting_time]. }
  intros pi1 t1 [H1 Ht]. unfold alignTerminatingShadowPodDescriptions.
  eapply wp_mono; [apply align_descriptions_spec, H1|]. intros pi2 t2 H2.
  set (spMap := list_to_set _) in H2.
  assert (HM : ∀ key, key ∈ spMap ↔ ∃ sp, sp ∈ items ∧ key = pod_key sp).
  { intros key. unfold spMap. rewrite elem_of_list_to_set, list_elem_of_fmap. naive_solver. }
  split.
  - apply H2.
  - intros sp Hsp. destruct (ad_in _ _ _ H1 sp Hsp) as [d Hd]. exists d.
    apply (dr_keep _ _ _ _ _ _ H2); [done|]. apply HM. eauto.
  - intros sp d Hsp Hd. apply (dr_keep _ _ _ _ _ _ H2); [|apply HM; eauto].
    eapply lookup_weaken; [exact Hd|apply H1].
  - intros key d Hd Hno. assert (Hnot : key ∉ spMap) by (rewrite HM; naive_solver).
    assert (Hd1 : shadowPods pi1 !! key = Some d)
      by (eapply lookup_weaken; [exact Hd|apply H2]).
    split.
    + destruct (ad_new _ _ _ H1 key (mk_is_Some _ _ Hd1)) as [[d' Hd']|(sp & ? & ?)].
      * assert (shadowPods pi1 !! key = Some d') by (eapply lookup_weaken; [exact Hd'|apply H1]).
        congruence.
      * by destruct (Hno sp).
    + destruct (dr_young _ _ _ _ _ _ H2 key d) as (Hr & n & ? & ?); [|done|done|].
      * rewrite range_pods_perm. apply list_elem_of_fmap. exists (key, d).
        by rewrite elem_of_map_to_list.
      * split; [done|]. exists n. split; [lia|done].
  - destruct (ad_same _ _ _ H1), (dr_same _ _ _ _ _ _ H2). split; congruence.
Qed.
End align.
