(* ===== verification/ShadowPodProps.v ===== *)
(** * ShadowPodProps: what the shadow pod webhook guarantees

    The admission handlers and the periodic refresh over a whole cache: the
    accounting invariant of reachable caches, what an admitted pod satisfies,
    the quota a pod requests, the alignment with the cluster, the creator label
    and the update check; and the ways in which the accounting fails. *)

From S2P Require Export ShadowPodAlign.
Local Open Scope Z_scope.

Section webhook.
Context {Q Other Raw : Type} `{!QuantityOps Q, !QuantityLaws Q, !EqDecision Q, !EqDecision Other}.
Context (clock : nat → Z) (nsname_string : string * string → string).
Context (range_pods : gmap string (Description Q) → list (string * Description Q)).
Context (range_infos : gmap string (peeringInfo Q) → list (string * peeringInfo Q)).
Context (DecodeRaw : Raw → option (ShadowPod Q Other)) (Marshal : ShadowPod Q Other → option Raw).
Context (enableResourceValidation : bool).
Implicit Types (pi : peeringInfo Q) (sp : ShadowPod Q Other) (c : peeringCache Q).
Implicit Types (cl : Client Q Other) (req : Request Raw).

Notation pi_ok := (pi_ok nsname_string).
Notation Handle cl := (Handle clock nsname_string cl DecodeRaw enableResourceValidation).
Notation HandleCreate cl := (HandleCreate clock nsname_string cl DecodeRaw enableResourceValidation).
Notation HandleDelete := (HandleDelete nsname_string DecodeRaw enableResourceValidation).
Notation refreshCache cl := (refreshCache clock nsname_string cl range_pods range_infos).

(** Every peering of the cache is accounted for. *)
Definition cache_ok c : Prop := map_Forall (fun _ pi => pi_ok pi) (infos c).

Lemma store_ok c user pi : cache_ok c → pi_ok pi → cache_ok (store c user pi).
Proof. intros Hc Hpi. by apply map_Forall_insert_2. Qed.

Lemma getOrCreatePeeringInfo_ok c user r : cache_ok c → pi_ok (getOrCreatePeeringInfo c user r).
Proof.
  intros Hc. unfold getOrCreatePeeringInfo. destruct (infos c !! user) eqn:E.
  - by apply updateQuotas_ok, (Hc _ _ E).
  - apply createPeeringInfo_ok.
Qed.

Lemma getOrCreatePeeringInfo_total c user r :
  totalQuota (getOrCreatePeeringInfo c user r) = r.
Proof. unfold getOrCreatePeeringInfo. by destruct (infos c !! user). Qed.

Lemma getOrCreatePeeringInfo_pods c user r :
  shadowPods (getOrCreatePeeringInfo c user r) = match infos c !! user with
                                                 | Some pi => shadowPods pi | None => ∅ end.
Proof. unfold getOrCreatePeeringInfo. by destruct (infos c !! user). Qed.

(** The demand of the running pods charged to a user. *)
Definition user_demand c user k : Z :=
  demand (match infos c !! user with Some pi => shadowPods pi | None => ∅ end) k.

(** What holds of a pod the webhook admits: its origin matches the namespace, its
    creator has a quota that is not cordoned, what it requests fits into what the
    running pods of the creator leave of that quota, and it is charged unless the
    request is a dry run. *)
Definition admitted cl c req (c' : peeringCache Q) : Prop :=
  ∃ sp cluster creator (quota : Quota Q) request labels,
    DecodeRaw (req_object req) = Some sp ∧
    sp_labels sp !! LiqoOriginClusterIDKey = Some cluster ∧
    cl_get_namespace_labels cl (sp_namespace sp) = Some labels ∧
    labels !! RemoteClusterID = Some cluster ∧
    sp_labels sp !! CreatorLabelKey = Some creator ∧
    GetQuotaByUser cl creator = Ok quota ∧
    q_cordoned quota ≠ Some true ∧
    getQuotaFromShadowPod sp (q_limits quota) = Ok request ∧
    (∀ k v, request !! k = Some v → ∃ tot, q_resources quota !! k = Some tot ∧
       user_demand c creator k + nano v ≤ nano tot) ∧
    (∀ k, user_demand c' creator k = user_demand c creator k +
       (if default false (req_dryrun req) then 0 else amt request k)).

Lemma validateShadowPodClusterID_ok cl ns id code :
  validateShadowPodClusterID cl ns id = (code, None) →
  ∃ labels, cl_get_namespace_labels cl ns = Some labels ∧ labels !! RemoteClusterID = Some id.
Proof.
  unfold validateShadowPodClusterID. destruct (cl_get_namespace_labels cl ns) as [l|]; [|done].
  case_bool_decide; [|done]. eauto.
Qed.

Lemma user_demand_store c user pi k : user_demand (store c user pi) user k = demand (shadowPods pi) k.
Proof. unfold user_demand, store. simpl. by rewrite lookup_insert_eq. Qed.

Lemma HandleCreate_spec cl c req t :
  enableResourceValidation = true → cache_ok c → is_Some (req_dryrun req) →
  wp (HandleCreate cl c req) t (fun '(resp, c') _ =>
    cache_ok c' ∧ ready c' = ready c ∧ ∀ m, resp = Allowed m → admitted cl c req c').
Proof.
  intros Hen Hc [dry Hdry]. unfold ShadowPod.HandleCreate.
  destruct (DecodeRaw (req_object req)) as [sp|] eqn:Hsp; [|by wp_steps].
  destruct (sp_labels sp !! LiqoOriginClusterIDKey) as [id|] eqn:Hid; [|by wp_steps].
  destruct (validateShadowPodClusterID cl _ id) as [code [err|]] eqn:Hv.
  { wp_steps. split; [done|]. split; [done|]. by destruct (code =? 400). }
  destruct (validateShadowPodClusterID_ok _ _ _ _ Hv) as (labels & Hl & Hlid).
  rewrite Hen. simpl. destruct (sp_labels sp !! CreatorLabelKey) as [creator|] eqn:Hcr; [|by wp_steps].
  destruct (GetQuotaByUser cl creator) as [qt|] eqn:Hqt; [|by wp_steps].
  destruct (default false (q_cordoned qt)) eqn:Hcord; [by wp_steps|].
  rewrite Hdry. apply wp_bind. eapply wp_mono.
  { apply testAndUpdateCreation_spec. by apply getOrCreatePeeringInfo_ok. }
  intros [r pi'] t' Hco. wp_steps. split; [apply store_ok; [done|apply Hco]|]. split; [done|].
  intros m Hm. destruct r as [[]|e]; [|done].
  destruct (proj1 (co_verdict _ _ _ _ _ _ _ _ Hco) I) as (q & Hq & _ & Hfit).
  exists sp, id, creator, qt, q, labels. do 6 (split; [done|]).
  split; [intros E; by rewrite E in Hcord|]. split; [done|]. split.
  - intros k v Hk. destruct (Hfit k v Hk) as (tot & Ht & Hle).
    rewrite getOrCreatePeeringInfo_total in Ht. rewrite getOrCreatePeeringInfo_pods in Hle. eauto.
  - intros k. rewrite user_demand_store, (co_demand _ _ _ _ _ _ _ _ Hco k), Hq, Hdry.
    by rewrite getOrCreatePeeringInfo_pods.
Qed.

(** A deletion that charges back a pod that is still counted. *)
Definition clean_deletion c req : Prop :=
  ∀ sp creator pi d, DecodeRaw (req_oldobject req) = Some sp →
    sp_labels sp !! CreatorLabelKey = Some creator → infos c !! creator = Some pi →
    req_dryrun req = Some false →
    getShadowPodDescription nsname_string pi sp = Ok d → running d.

Lemma getShadowPodDescription_in pi sp d : getShadowPodDescription nsname_string pi sp = Ok d →
  shadowPods pi !! nsname_string (sp_namespace sp, sp_name sp) = Some d ∧ uid d = sp_uid sp.
Proof.
  unfold getShadowPodDescription. destruct (shadowPods pi !! _); [|done].
  case_bool_decide; simpl; [by intros [= <-]|done].
Qed.

Lemma updateDeletion_ok pi sp dry : pi_ok pi →
  (dry = false → ∀ d, getShadowPodDescription nsname_string pi sp = Ok d → running d) →
  pi_ok (updateDeletion nsname_string pi sp dry).2.
Proof.
  intros Hok Hclean. unfold updateDeletion.
  destruct (getShadowPodDescription nsname_string pi sp) as [d|] eqn:Hd; [|done]. simpl.
  destruct dry; simpl; [done|]. destruct (getShadowPodDescription_in _ _ _ Hd) as [Hin _].
  rewrite (pi_keys _ pi Hok _ _ Hin) in Hin. apply terminateShadowPod_ok; eauto.
Qed.

(** A deletion is admitted whenever the pod names its creator. *)
Lemma HandleDelete_spec c req : cache_ok c → is_Some (req_dryrun req) → clean_deletion c req →
  ∃ resp c', HandleDelete c req = Ret (resp, c') ∧ cache_ok c' ∧ ready c' = ready c.
Proof.
  intros Hc [dry Hdry] Hclean. unfold ShadowPod.HandleDelete, clean_deletion in *.
  destruct (negb enableResourceValidation); [eauto|].
  destruct (DecodeRaw (req_oldobject req)) as [sp|]; [|eauto].
  destruct (sp_labels sp !! CreatorLabelKey) as [creator|] eqn:Hcr; [|eauto].
  destruct (infos c !! creator) as [pi|] eqn:Hpi; [|eauto]. rewrite Hdry.
  assert (Hok := updateDeletion_ok pi sp dry (Hc _ _ Hpi)).
  destruct (updateDeletion nsname_string pi sp dry) as [r pi'].
  eexists _, _. split; [done|]. split; [|done]. apply store_ok; [done|].
  apply Hok. intros -> d Hd. eapply Hclean; done.
Qed.

(** ** The refresh *)

Context (range_pods_perm : ∀ m, range_pods m ≡ₚ map_to_list m).
Context (range_infos_perm : ∀ m, range_infos m ≡ₚ map_to_list m).

(** The pods the cluster returns have a list of containers. *)
Definition cluster_ok cl : Prop :=
  ∀ user items, ListShadowPodsByCreator cl user = Some items → Forall has_containers items.

Lemma initialize_quotas_ok cl quotas : cluster_ok cl → ∀ c t, cache_ok c →
  wp (initialize_quotas clock nsname_string cl c quotas) t (fun '(_, c') _ => cache_ok c').
Proof.
  intros Hcl. induction quotas as [|q quotas IH]; intros c t Hc; simpl; [by wp_steps|].
  destruct (ListShadowPodsByCreator cl (q_user q)) as [items|] eqn:Hl; [|by wp_steps].
  apply wp_bind. eapply wp_mono.
  { apply alignExistingShadowPods_spec; [apply createPeeringInfo_ok|by eapply Hcl]. }
  intros pi t1 Had. apply IH, store_ok; [done|apply Had].
Qed.

Lemma refresh_infos_ok cl l : cluster_ok cl → ∀ c t, cache_ok c → (∀ key pi, (key, pi) ∈ l → pi_ok pi) →
  wp (refresh_infos clock nsname_string cl range_pods c l) t (fun c' _ => cache_ok c').
Proof.
  intros Hcl. induction l as [|[key pi] l IH]; intros c t Hc Hl; simpl; [by wp_steps|].
  setoid_rewrite elem_of_cons in Hl.
  destruct (ListShadowPodsByCreator cl (userName pi)) as [items|] eqn:Hi; [|by eauto].
  apply wp_bind. eapply wp_mono.
  { apply align_peering_spec; [done|by eapply Hl; left|by eapply Hcl]. }
  intros pi' t' Hal. apply IH; [apply store_ok; [done|apply Hal]|]. eauto.
Qed.

Lemma add_missing_infos_ok cl quotas : cluster_ok cl → ∀ c t, cache_ok c →
  wp (add_missing_infos clock nsname_string cl c quotas) t (fun '(_, c') _ => cache_ok c').
Proof.
  intros Hcl. induction quotas as [|q quotas IH]; intros c t Hc; simpl; [by wp_steps|].
  destruct (infos c !! q_user q); [by apply IH|].
  destruct (ListShadowPodsByCreator cl (q_user q)) as [items|] eqn:Hl.
  2: { wp_steps. apply store_ok; [done|apply createPeeringInfo_ok]. }
  apply wp_bind. eapply wp_mono.
  { apply alignExistingShadowPods_spec; [apply createPeeringInfo_ok|by eapply Hcl]. }
  intros pi t1 Had. apply IH, store_ok; [done|apply Had].
Qed.

Lemma checkAlignment_ok cl c t : cluster_ok cl → cache_ok c →
  wp (checkAlignmentQuotaPeeringInfo clock nsname_string cl c) t (fun '(_, c') _ => cache_ok c').
Proof.
  intros Hcl Hc. unfold checkAlignmentQuotaPeeringInfo.
  destruct (cl_quotas cl) as [quotas|]; [|by wp_steps]. apply wp_bind.
  eapply wp_mono; [by apply add_missing_infos_ok|]. intros [[] c1] t1 Hc1; wp_steps; [|done].
  intros user pi [H _]%map_lookup_filter_Some. by eapply Hc1.
Qed.

Lemma refreshCache_ok cl c t : cluster_ok cl → cache_ok c →
  wp (refreshCache cl c) t (fun c' _ => cache_ok c').
Proof.
  intros Hcl Hc. unfold ShadowPod.refreshCache. destruct (ready c); simpl.
  - apply wp_bind. eapply wp_mono.
    { apply refresh_infos_ok; [done|done|]. intros key pi.
      rewrite range_infos_perm, elem_of_map_to_list. apply Hc. }
    intros c1 t1 Hc1. apply wp_bind. eapply wp_mono; [by apply checkAlignment_ok|].
    intros [b c2] t2 Hc2. by wp_steps.
  - unfold initializeCache. apply wp_bind. destruct (cl_quotas cl); [|by wp_steps].
    eapply wp_mono; [by apply initialize_quotas_ok|]. intros [b c1] t1 Hc1. by wp_steps.
Qed.

(** ** Reachable caches

    A request or a refresh, each against the cluster of the moment.  A request
    carries its dry-run flag, and a deletion that is not a dry run concerns a
    pod that is still counted. *)
Inductive cache_step : peeringCache Q → peeringCache Q → Prop :=
| step_request cl c req resp c' t t' :
    is_Some (req_dryrun req) → (req_operation req = Delete → clean_deletion c req) →
    Handle cl c req t = Ret ((resp, c'), t') → cache_step c c'
| step_refresh cl c c' t t' :
    cluster_ok cl → refreshCache cl c t = Ret (c', t') → cache_step c c'.

Inductive cache_reachable : peeringCache Q → Prop :=
| reach_new : cache_reachable (mkPeeringCache ∅ false)
| reach_step c c' : cache_reachable c → cache_step c c' → cache_reachable c'.

Lemma Handle_ok cl c req t resp c' t' :
  enableResourceValidation = true → cache_ok c → is_Some (req_dryrun req) →
  (req_operation req = Delete → clean_deletion c req) →
  Handle cl c req t = Ret ((resp, c'), t') → cache_ok c'.
Proof.
  intros Hen Hc Hdry Hclean. unfold ShadowPod.Handle.
  destruct (negb (ready c) && enableResourceValidation); [by intros [= <- <- <-]|].
  destruct (req_operation req) eqn:Hop.
  - intros Hrun. pose proof (wp_run _ _ _ _ _ (HandleCreate_spec cl c req t Hen Hc Hdry) Hrun). naive_solver.
  - destruct (HandleDelete_spec c req Hc Hdry (Hclean eq_refl)) as (r & c1 & Hr & Hc1 & _).
    rewrite Hr. by intros [= <- <- <-].
  - unfold mbind, M_bind, lift. destruct (HandleUpdate DecodeRaw req); [|done|done].
    by intros [= <- <- <-].
  - by intros [= <- <- <-].
Qed.

Lemma cache_reachable_ok c : enableResourceValidation = true → cache_reachable c → cache_ok c.
Proof.
  intros Hen. induction 1 as [|c c' _ IH Hstep]; [apply map_Forall_empty|].
  destruct Hstep as [cl c req resp c' t t' Hd Hcd Hrun|cl c c' t t' Hcl Hrun].
  - by eapply Handle_ok.
  - exact (wp_run _ _ _ _ _ (refreshCache_ok cl c t Hcl IH) Hrun).
Qed.
End webhook.

(** ** A concrete setting for the examples *)

Definition ex_string (n : string * string) : string := (fst n +:+ "/" +:+ snd n)%string.
Definition ex_container (cpu mem : Z) : Container Z () :=
  mkContainer "c" "img" {[ResourceCPU := cpu; ResourceMemory := mem]}
              {[ResourceCPU := cpu; ResourceMemory := mem]} ().
Definition ex_pod (name user : string) (cpu : Z) : ShadowPod Z () :=
  mkShadowPod name "ns" "uid"
    {[LiqoOriginClusterIDKey := "cluster"; CreatorLabelKey := user]}
    (mkPodSpec (Some [ex_container cpu 1]) None None None ()).
Definition ex_quota (user : string) : Quota Z :=
  mkQuota user SoftLimitsEnforcement {[ResourceCPU := 10; ResourceMemory := 10]} None.
Definition ex_client (user : string) (pods : list (ShadowPod Z ())) : Client Z () :=
  mkClient (Some [ex_quota user]) (fun _ _ => Some pods) (fun _ => Err NotFound)
           (fun _ => Some {[RemoteClusterID := "cluster"]}).
Definition ex_create (name user : string) (cpu : Z) : Request (ShadowPod Z ()) :=
  mkRequest Create (ex_pod name user cpu) (ex_pod name user cpu) (Some false) user.
Definition ex_Handle user pods :=
  Handle (Raw := ShadowPod Z ()) (fun _ => 0) ex_string (ex_client user pods) Some true.
Definition ex_refresh user pods :=
  refreshCache (Other := ()) (fun _ => 0) ex_string (ex_client user pods) map_to_list map_to_list.
Definition ex_cache (user : string) : peeringCache Z :=
  mkPeeringCache {[user := createPeeringInfo user (q_resources (ex_quota user))]} true.

(** The cache after the start-up, and after the admission of a pod. *)
Definition ex_started : peeringCache Z :=
  match ex_refresh "u" [] (mkPeeringCache ∅ false) 0%nat with
  | Ret (c, _) => c | _ => mkPeeringCache ∅ false
  end.
Definition ex_after (user name : string) (cpu : Z) (c : peeringCache Z) : peeringCache Z :=
  match ex_Handle user [] c (ex_create name user cpu) 0%nat with Ret ((_, c), _) => c | _ => c end.

Lemma ex_cache_ok user : cache_ok ex_string (ex_cache user).
Proof. apply map_Forall_singleton, createPeeringInfo_ok. Qed.

(** ** Properties *)

(** C7: an admitted shadow pod is charged to its creator within the quota.  From
    an accounted cache, with resource validation on, the creation handler returns
    and leaves the cache accounted; and if it admits the pod, the origin cluster
    matches the namespace, the creator has a quota that is not cordoned, the
    resources requested together with those of all running pods of the creator do
    not exceed it, and (unless the request is a dry run) the pod is charged. *)
Theorem admission_within_quota {Q Other Raw : Type}
    `{!QuantityOps Q, !QuantityLaws Q, !EqDecision Q, !EqDecision Other}
    (clock : nat → Z) (nsname_string : string * string → string)
    (DecodeRaw : Raw → option (ShadowPod Q Other)) (cl : Client Q Other)
    (c : peeringCache Q) (req : Request Raw) (t : nat) :
  cache_ok nsname_string c → is_Some (req_dryrun req) →
  wp (HandleCreate clock nsname_string cl DecodeRaw true c req) t (fun '(resp, c') _ =>
    cache_ok nsname_string c' ∧ ∀ m, resp = Allowed m → admitted DecodeRaw cl c req c').
Proof.
  intros Hc Hd. eapply wp_mono; [by apply HandleCreate_spec|]. intros [resp c'] t'. naive_solver.
Qed.

Lemma admission_within_quota_witness :
  wp (HandleCreate (fun _ => 0) ex_string (ex_client "u" []) Some true (ex_cache "u")
        (ex_create "p" "u" 4)) 0%nat (fun '(resp, c') _ =>
    cache_ok ex_string c' ∧
    ∀ m, resp = Allowed m → admitted Some (ex_client "u" []) (ex_cache "u") (ex_create "p" "u" 4) c')
  ∧ ∃ c' t', HandleCreate (fun _ => 0) ex_string (ex_client "u" []) Some true (ex_cache "u")
               (ex_create "p" "u" 4) 0%nat = Ret ((Allowed (Text ""), c'), t').
Proof.
  split.
  - apply (admission_within_quota (fun _ => 0) ex_string Some); [apply ex_cache_ok|by eexists].
  - eexists _, _. vm_compute. reflexivity.
Defined.

(** C8: the cache is a ledger.  In every cache reached from the empty one by
    requests and refreshes (deletions concerning pods still counted), the quota in
    use of every peering is, resource by resource, the sum of what its running
    pods request, and descriptions are filed under their own names. *)
Theorem cache_accounts {Q Other Raw : Type}
    `{!QuantityOps Q, !QuantityLaws Q, !EqDecision Q, !EqDecision Other}
    (clock : nat → Z) (nsname_string : string * string → string)
    (range_pods : gmap string (Description Q) → list (string * Description Q))
    (range_infos : gmap string (peeringInfo Q) → list (string * peeringInfo Q))
    (DecodeRaw : Raw → option (ShadowPod Q Other)) (c : peeringCache Q)
    (user : string) (pi : peeringInfo Q) :
  (∀ m, range_pods m ≡ₚ map_to_list m) → (∀ m, range_infos m ≡ₚ map_to_list m) →
  cache_reachable clock nsname_string range_pods range_infos DecodeRaw true c →
  infos c !! user = Some pi →
  (∀ k, amt (usedQuota pi) k = demand (shadowPods pi) k) ∧
  (∀ key spd, shadowPods pi !! key = Some spd → key = nsname_string (namespacedName spd)).
Proof.
  intros Hp Hi Hreach Hpi.
  assert (Hok := cache_reachable_ok _ _ _ _ _ _ Hp Hi c eq_refl Hreach _ _ Hpi).
  split; [apply (pi_used _ _ Hok)|apply (pi_keys _ _ Hok)].
Qed.

Lemma cache_accounts_witness :
  ∃ pi, infos (ex_after "u" "p" 4 ex_started) !! "u"%string = Some pi ∧
        amt (usedQuota pi) ResourceCPU = 4 ∧
        amt (usedQuota pi) ResourceCPU = demand (shadowPods pi) ResourceCPU.
Proof.
  eexists. split; [vm_compute; reflexivity|]. split; [vm_compute; reflexivity|].
  refine (proj1 (cache_accounts (Raw := ShadowPod Z ()) (fun _ => 0) ex_string map_to_list map_to_list
    Some (ex_after "u" "p" 4 ex_started) "u" _ _ _ _ _) ResourceCPU); [done|done| |vm_compute; reflexivity].
  eapply reach_step; [eapply reach_step; [apply reach_new|]|].
  - eapply (step_refresh _ _ _ _ _ _ (ex_client "u" []) _ ex_started 0%nat); [|vm_compute; reflexivity].
    intros user items [= <-]. constructor.
  - eapply (step_request _ _ _ _ _ _ (ex_client "u" []) _ (ex_create "p" "u" 4) _ _ 0%nat);
      [by eexists|done|vm_compute; reflexivity].
Defined.

(** What a pod is charged.  The quota computation succeeds exactly when the
    pod lists its containers and each container and init container meets the
    enforcement level (hard: every request has an equal limit; hard or soft: CPU
    and memory are requested).  The amount of a resource is then at least the sum
    over the containers, exceeds it only to equal an init container's request,
    and no init container requests a whole unit more. *)
Theorem pod_quota_spec {Q Other : Type}
    `{!QuantityOps Q, !QuantityLaws Q, !EqDecision Q, !EqDecision Other}
    (sp : ShadowPod Q Other) (le : LimitsEnforcement) (k : string) :
  let inits := default [] (InitContainers (sp_pod sp)) in
  Forall requests_in_range (default [] (Containers (sp_pod sp))) →
  Forall requests_in_range inits →
  match getQuotaFromShadowPod sp le with
  | Err _ => ¬ ∃ cs, Containers (sp_pod sp) = Some cs ∧
               Forall (container_ok le) cs ∧ Forall (container_ok le) inits
  | Ok q => ∃ cs, Containers (sp_pod sp) = Some cs ∧
      Forall (container_ok le) cs ∧ Forall (container_ok le) inits ∧
      total_request cs k ≤ amt q k ∧
      (amt q k = total_request cs k ∨ ∃ c, c ∈ inits ∧ amt q k = amt (Requests c) k) ∧
      ∀ c, c ∈ inits → amt (Requests c) k < amt q k + 10 ^ 9
  end.
Proof.
  intros inits Hcs Hin. unfold getQuotaFromShadowPod. fold inits.
  destruct (Containers (sp_pod sp)) as [cs|] eqn:Hc; [|naive_solver]. simpl in Hcs.
  destruct (container_requests add_request le cs ∅) as [a|e] eqn:Ha.
  2: { intros (cs' & [= <-] & Hok & _).
       rewrite (proj2 (container_requests_spec _ _ _ _ _) (conj Hok eq_refl)) in Ha. done. }
  destruct (container_requests max_request le inits ∅) as [b|e] eqn:Hb.
  2: { intros (cs' & [= <-] & _ & Hok).
       rewrite (proj2 (container_requests_spec _ _ _ _ _) (conj Hok eq_refl)) in Hb. done. }
  apply container_requests_spec in Ha as [Hoka ->]. apply container_requests_spec in Hb as [Hokb ->].
  exists cs. split; [done|]. split; [done|]. split; [done|].
  destruct (max_requests_spec inits k Hin) as (Hr & Hpeak & Hmax).
  rewrite (quota_max_amt cs inits k Hcs Hr). pose proof (total_request_nonneg cs k Hcs).
  split; [lia|]. split; [|intros c Hc'; specialize (Hmax c Hc'); lia].
  destruct (Z.max_spec (total_request cs k) (amt (foldl (merge_requests max_request) ∅ inits) k))
    as [[? ->]|[? ->]]; [|by left].
  destruct Hpeak as [E|(c & ? & ?)]; [left; lia|right; eauto].
Qed.

(** Two init containers that ask for less than a CPU each. *)
Definition ex_init_pod : ShadowPod Z () :=
  mkShadowPod "p" "ns" "uid" ∅
    (mkPodSpec (Some [ex_container 1 1])
       (Some [ex_container 100000000 1; ex_container 900000000 1]) None None ()).

Lemma ex_container_range cpu mem : request_range cpu → request_range mem →
  requests_in_range (ex_container cpu mem).
Proof.
  intros Hc Hm k v. simpl. rewrite lookup_insert_Some.
  intros [[_ <-]|[_ [_ <-]%lookup_singleton_Some]]; done.
Qed.

Lemma pod_quota_spec_witness :
  match getQuotaFromShadowPod ex_init_pod HardLimitsEnforcement with
  | Err _ => False
  | Ok q => ∃ cs, Containers (sp_pod ex_init_pod) = Some cs ∧ total_request cs ResourceCPU ≤ amt q ResourceCPU
  end.
Proof.
  assert (H : Forall requests_in_range (default [] (Containers (sp_pod ex_init_pod)))).
  { apply Forall_cons_2; [|apply Forall_nil_2].
    apply ex_container_range; unfold request_range; simpl; lia. }
  assert (H' : Forall requests_in_range (default [] (InitContainers (sp_pod ex_init_pod)))).
  { apply Forall_cons_2; [|apply Forall_cons_2; [|apply Forall_nil_2]];
      apply ex_container_range; unfold request_range; simpl; lia. }
  pose proof (pod_quota_spec ex_init_pod HardLimitsEnforcement ResourceCPU H H') as HS.
  assert (E : ∃ q, getQuotaFromShadowPod ex_init_pod HardLimitsEnforcement = Ok q)
    by (eexists; vm_compute; reflexivity).
  destruct E as [q E]. rewrite E in *. destruct HS as (cs & H1 & _ & _ & H4 & _). exists cs. exact (conj H1 H4).
Defined.

(** The peak of the init containers is taken on values rounded up to whole
    units.  Of two init containers that request 100m and 900m of CPU the first is
    kept: the pod is charged 100m and the second init container runs on CPU the
    quota does not account for. *)
Theorem init_peak_underestimated :
  ∃ q, getQuotaFromShadowPod ex_init_pod HardLimitsEnforcement = Ok q ∧
       amt q ResourceCPU = 100000000 ∧
       ∃ c, c ∈ default [] (InitContainers (sp_pod ex_init_pod)) ∧
            amt (Requests c) ResourceCPU = 900000000.
Proof.
  eexists. split; [vm_compute; reflexivity|]. split; [vm_compute; reflexivity|].
  exists (ex_container 900000000 1). split; [right; left|vm_compute; reflexivity].
Qed.

(** A refresh aligns a peering with the cluster.  It returns whenever the
    pods listed have containers; afterwards every listed pod has a description,
    those that had one keep it, and the description of a pod that is not listed
    remains only if it was there, running, and no older than thirty seconds at a
    clock reading of the pass; the quota in use is again what the running pods
    request, and the total is untouched. *)
Theorem refresh_aligns {Q Other : Type}
    `{!QuantityOps Q, !QuantityLaws Q, !EqDecision Q, !EqDecision Other}
    (clock : nat → Z) (nsname_string : string * string → string)
    (range_pods : gmap string (Description Q) → list (string * Description Q))
    (pi : peeringInfo Q) (items : list (ShadowPod Q Other)) (t : nat) :
  (∀ m, range_pods m ≡ₚ map_to_list m) →
  pi_ok nsname_string pi → Forall has_containers items →
  wp (alignTerminatingOrNotExistingShadowPods clock nsname_string range_pods pi items) t
     (fun pi' t' => aligned clock nsname_string pi items t t' pi').
Proof. intros. by apply align_peering_spec. Qed.

Lemma refresh_aligns_witness :
  wp (alignTerminatingOrNotExistingShadowPods (fun _ => 0) ex_string map_to_list
        (createPeeringInfo "u" (q_resources (ex_quota "u"))) [ex_pod "p" "u" 4]) 0%nat
     (fun pi' _ => is_Some (shadowPods pi' !! "ns/p"%string)).
Proof.
  eapply wp_mono.
  { apply (refresh_aligns (fun _ => 0) ex_string map_to_list); [done|apply createPeeringInfo_ok|].
    repeat constructor. by eexists. }
  intros pi' t' H. exact (al_in _ _ _ _ _ _ _ H (ex_pod "p" "u" 4) (list_elem_of_here _ _)).
Defined.

(** A pod deleted twice is charged back twice.  If a pod's description is
    already terminated (its deletion was admitted and it still lingers), another
    deletion of it is admitted and lowers the quota in use below what the running
    pods request, by the whole request of the pod. *)
Theorem second_deletion_undercounts {Q Other : Type}
    `{!QuantityOps Q, !QuantityLaws Q, !EqDecision Q, !EqDecision Other}
    (nsname_string : string * string → string) (pi : peeringInfo Q) (sp : ShadowPod Q Other)
    (spd : Description Q) (k : string) :
  pi_ok nsname_string pi → getShadowPodDescription nsname_string pi sp = Ok spd →
  running spd = false → is_Some (usedQuota pi !! k) →
  let '(r, pi') := updateDeletion nsname_string pi sp false in
  r = Ok () ∧ amt (usedQuota pi') k = demand (shadowPods pi') k - amt (quota spd) k.
Proof.
  intros Hok Hd Hrun Hk. unfold updateDeletion. rewrite Hd. simpl. split; [done|].
  destruct (getShadowPodDescription_in _ _ _ _ Hd) as [Hin _].
  rewrite (pi_keys _ _ Hok _ _ Hin) in Hin.
  unfold terminateShadowPod. rewrite amt_subUsed by done. rewrite pods_subUsed. simpl.
  rewrite (pi_used _ _ Hok), (demand_replace _ _ _ _ k Hin). unfold charge. rewrite Hrun. simpl. lia.
Qed.

(** A peering whose only pod was deleted and is not yet gone from the cache. *)
Definition ex_terminated : Description Z :=
  mkDescription ("ns"%string, "p"%string) "uid" {[ResourceCPU := 4]} false 0.
Definition ex_lingering : peeringInfo Z :=
  mkPeeringInfo "u" {["ns/p"%string := ex_terminated]} {[ResourceCPU := 10]} {[ResourceCPU := 0]}.

Lemma ex_lingering_ok : pi_ok ex_string ex_lingering.
Proof.
  split.
  - intros key spd. cbn [shadowPods ex_lingering]. by intros [<- <-]%lookup_singleton_Some.
  - intros key spd k. cbn [shadowPods ex_lingering]. by intros [<- <-]%lookup_singleton_Some.
  - intros k. cbn [shadowPods usedQuota ex_lingering]. rewrite <- (insert_empty (M := gmap string) "ns/p"%string), demand_insert, demand_empty by apply lookup_empty.
    unfold amt. destruct (decide (k = ResourceCPU)) as [->|].
    + by rewrite lookup_singleton_eq.
    + by rewrite lookup_singleton_ne.
Qed.

Lemma second_deletion_undercounts_witness :
  let '(r, pi') := updateDeletion ex_string ex_lingering (ex_pod "p" "u" 4) false in
  r = Ok () ∧ amt (usedQuota pi') ResourceCPU = demand (shadowPods pi') ResourceCPU - 4.
Proof.
  apply (second_deletion_undercounts ex_string ex_lingering (ex_pod "p" "u" 4) ex_terminated
           ResourceCPU ex_lingering_ok); [vm_compute; reflexivity|done|by eexists].
Defined.

(** The creator of a pod cannot be chosen by its author.  With resource
    validation on, a pod the mutating webhook lets through on creation carries as
    creator the escaped, non-empty name of the requesting user, whatever label it
    came with; an update is let through only from the recorded creator. *)
Theorem creator_recorded {Q Other Raw : Type} (DecodeRaw : Raw → option (ShadowPod Q Other))
    (Marshal : ShadowPod Q Other → option Raw) (req : Request Raw) :
  match Mutator_Handle DecodeRaw Marshal true req with
  | Patched original current =>
    original = req_object req ∧
    ∃ sp, DecodeRaw (req_object req) = Some sp ∧
          Marshal (set_creator sp (EscapeLabel (req_username req))) = Some current ∧
          EscapeLabel (req_username req) ≠ ""%string ∧
          escaped (EscapeLabel (req_username req)) ∧
          (req_operation req = Update → ∃ old, DecodeRaw (req_oldobject req) = Some old ∧
             sp_labels old !! CreatorLabelKey = Some (EscapeLabel (req_username req)))
  | Allowed _ => req_operation req = Delete
  | Denied _ | Errored _ _ => True
  end.
Proof.
  unfold Mutator_Handle, Mutator_HandleCreate, Mutator_HandleUpdate, extractCreatorInfo, marshal_patch.
  pose proof (EscapeLabel_escaped (req_username req)) as Hesc.
  destruct (req_operation req) eqn:Hop; simpl; try done.
  - destruct (DecodeRaw (req_object req)) as [sp|]; [|done]. case_bool_decide; [done|].
    destruct (Marshal _) eqn:Hm; [|done]. split; [done|]. exists sp. by repeat split.
  - destruct (DecodeRaw (req_oldobject req)) as [old|] eqn:Ho; [|done].
    destruct (DecodeRaw (req_object req)) as [sp|] eqn:Hs; [|done].
    destruct (sp_labels old !! CreatorLabelKey) as [oc|] eqn:Hoc; [|done].
    case_bool_decide; [done|]. case_bool_decide as He; simpl; [|done]. subst oc.
    destruct (Marshal _) eqn:Hm; [|done]. split; [done|]. exists sp. repeat split; try done. by exists old.
Qed.

(** ** Updates *)

Section update.
Context {Q Other : Type} `{!EqDecision Q, !EqDecision Other}.
Implicit Types (us ps : list (Container Q Other)) (previous updated : PodSpec Q Other).

(** Two containers that differ at most in their image. *)
Definition same_container (p u : Container Q Other) : Prop :=
  c_name u = c_name p ∧ Requests u = Requests p ∧ Limits u = Limits p ∧ c_other u = c_other p.
Definition same_containers (p u : option (list (Container Q Other))) : Prop :=
  match p, u with
  | None, None => True
  | Some ps, Some us => Forall2 same_container ps us
  | _, _ => False
  end.
(** Two specifications that differ at most in images, deadline and tolerations. *)
Definition same_pod previous updated : Prop :=
  same_containers (Containers previous) (Containers updated) ∧
  same_containers (InitContainers previous) (InitContainers updated) ∧
  p_other previous = p_other updated.

Definition count (cs : option (list (Container Q Other))) : nat := List.length (default [] cs).

Lemma set_images_spec us ps :
  match set_images us ps with
  | Ret us' => (List.length us ≤ List.length ps)%nat ∧ (ps = us' ↔ Forall2 same_container ps us)
  | Panic => (List.length ps < List.length us)%nat
  | Diverge => False
  end.
Proof.
  revert ps. induction us as [|u us IH]; intros [|p ps]; simpl; try lia.
  - split; [lia|]. by split; [constructor|].
  - split; [lia|]. split; [done|]. by inversion 1.
  - specialize (IH ps). unfold mbind, outcome_bind. destruct (set_images us ps) as [us'| |].
    + destruct IH as [Hl IH]. split; [lia|]. rewrite Forall2_cons, <- IH.
      unfold same_container. destruct p; simpl. naive_solver.
    + lia.
    + done.
Qed.

Lemma set_images_opt_spec (updated previous : option (list (Container Q Other))) :
  match set_images_opt updated previous with
  | Ret u => (count updated ≤ count previous)%nat ∧ (previous = u ↔ same_containers previous updated)
  | Panic => (count previous < count updated)%nat
  | Diverge => False
  end.
Proof.
  unfold set_images_opt, count. destruct updated as [us|]; simpl.
  - pose proof (set_images_spec us (default [] previous)) as H. unfold mbind, outcome_bind.
    destruct (set_images us (default [] previous)) as [us'| |]; [|done|done].
    destruct H as [Hl H]. split; [done|]. destruct previous as [ps|]; simpl in *; [|done].
    rewrite <- H. naive_solver.
  - split; [lia|]. by destruct previous.
Qed.

Lemma CheckShadowPodUpdate_spec previous updated :
  match CheckShadowPodUpdate previous updated with
  | Ret b => b = true ↔ same_pod previous updated
  | Panic => (count (Containers previous) < count (Containers updated))%nat ∨
             (count (InitContainers previous) < count (InitContainers updated))%nat
  | Diverge => False
  end.
Proof.
  unfold CheckShadowPodUpdate, mbind, outcome_bind.
  pose proof (set_images_opt_spec (Containers updated) (Containers previous)) as H1.
  pose proof (set_images_opt_spec (InitContainers updated) (InitContainers previous)) as H2.
  destruct (set_images_opt (Containers updated) _) as [cs| |]; [|by left|done].
  destruct (set_images_opt (InitContainers updated) _) as [ics| |]; [|by right|done].
  destruct H1 as [_ H1], H2 as [_ H2]. rewrite bool_decide_eq_true. unfold same_pod.
  rewrite <- H1, <- H2. destruct previous; simpl. naive_solver.
Qed.
End update.

(** An update changes at most images, deadline and tolerations.  The handler
    admits an update exactly when both versions carry the same origin cluster and
    their specifications agree on everything else; it panics only if the stored
    pod has more containers (or init containers) than the submitted one. *)
Theorem update_only_images {Q Other Raw : Type} `{!EqDecision Q, !EqDecision Other}
    (DecodeRaw : Raw → option (ShadowPod Q Other)) (req : Request Raw) :
  match HandleUpdate DecodeRaw req with
  | Ret resp =>
    (∃ m, resp = Allowed m) ↔
    ∃ sp old cluster, DecodeRaw (req_object req) = Some sp ∧ DecodeRaw (req_oldobject req) = Some old ∧
      sp_labels sp !! LiqoOriginClusterIDKey = Some cluster ∧
      sp_labels old !! LiqoOriginClusterIDKey = Some cluster ∧
      same_pod (sp_pod sp) (sp_pod old)
  | Panic =>
    ∃ sp old, DecodeRaw (req_object req) = Some sp ∧ DecodeRaw (req_oldobject req) = Some old ∧
      ((count (Containers (sp_pod sp)) < count (Containers (sp_pod old)))%nat ∨
       (count (InitContainers (sp_pod sp)) < count (InitContainers (sp_pod old)))%nat)
  | Diverge => False
  end.
Proof.
  unfold HandleUpdate.
  destruct (DecodeRaw (req_object req)) as [sp|]; [|naive_solver].
  destruct (DecodeRaw (req_oldobject req)) as [old|]; [|naive_solver].
  destruct (sp_labels sp !! _) as [id|] eqn:Hi; [|naive_solver].
  destruct (sp_labels old !! _) as [id'|] eqn:Hi'; [|naive_solver].
  case_bool_decide as He; simpl; [|naive_solver]. subst id'. unfold mbind, outcome_bind.
  pose proof (CheckShadowPodUpdate_spec (sp_pod sp) (sp_pod old)) as H.
  destruct (CheckShadowPodUpdate (sp_pod sp) (sp_pod old)) as [b| |]; [|by exists sp, old|done].
  transitivity (b = true); [destruct b; naive_solver|]. rewrite H. split; [|naive_solver].
  intros Hs. by exists sp, old, id.
Qed.

(** ** Escaped user names *)

(** The accounting of users whose name is not a label value is lost.  The
    user "a:b" has a quota of 10 CPU units; the handler files its pods under the
    escaped name "a-b", the refresh drops that peering because no quota bears
    the name, and a second pod of 10 units is admitted while the first one is
    running (and listed by the cluster). *)
Theorem escaped_user_unaccounted :
  ∃ c1 c2 c3 t1 t2 t3,
    ex_Handle "a:b" [] (ex_cache "a:b") (ex_create "p" "a-b" 10) 0%nat
      = Ret ((Allowed (Text ""), c1), t1) ∧
    user_demand c1 "a-b" ResourceCPU = 10 ∧
    ex_refresh "a:b" [ex_pod "p" "a-b" 10] c1 t1 = Ret (c2, t2) ∧
    infos c2 !! "a-b"%string = None ∧
    ex_Handle "a:b" [ex_pod "p" "a-b" 10] c2 (ex_create "p2" "a-b" 10) t2
      = Ret ((Allowed (Text ""), c3), t3).
Proof.
  eexists _, _, _, _, _, _.
  split; [vm_compute; reflexivity|]. split; [vm_compute; reflexivity|].
  split; [vm_compute; reflexivity|]. split; vm_compute; reflexivity.
Qed.
