(* ===== verification/Firewall.v ===== *)
(** * Firewall: firewall configurations and their admission
      (src/apis/networking/v1beta1/firewall, src/pkg/webhooks/firewallconfiguration)

    The data of a [FirewallConfiguration], the parsers of match values
    (src/pkg/firewall/utils/common.go, src/pkg/utils/network/port), and the
    validating and mutating webhooks.  An enumeration of the API is a string in
    Go: the constructor [*Other] stands for a value outside the enumeration, which
    the code treats in its default branches.  A nil slice of rules is told from an
    empty one. *)

From S2P Require Export GoNet GoStrings.
From Stdlib Require Import Ascii.
Local Open Scope Z_scope.

(** ** The API *)

Inductive ChainType := ChainTypeFilter | ChainTypeRoute | ChainTypeNAT | ChainTypeOther (s : string).
Inductive ChainPolicy := ChainPolicyDrop | ChainPolicyAccept | ChainPolicyOther (s : string).
Inductive ChainHook := ChainHookPrerouting | ChainHookInput | ChainHookForward | ChainHookOutput
  | ChainHookPostrouting | ChainHookIngress | ChainHookOther (s : string).
Inductive TableFamily := TableFamilyINet | TableFamilyIPv4 | TableFamilyIPv6 | TableFamilyARP
  | TableFamilyNetdev | TableFamilyBridge | TableFamilyOther (s : string).
Inductive FilterAction := ActionCtMark | ActionSetMetaMarkFromCtMark | ActionTCPMssClamp
  | ActionAccept | ActionDrop | ActionReject | ActionNotrack | ActionSetMetaMark
  | ActionOther (s : string).
Inductive NatType := NatTypeDestination | NatTypeSource | NatTypeMasquerade | NatTypeOther (s : string).
Inductive MatchOperation := MatchOperationEq | MatchOperationNeq | MatchOperationOther (s : string).
Inductive MatchPosition := MatchPositionSrc | MatchPositionDst | MatchPositionOther (s : string).
Inductive MatchDevPosition := MatchDevPositionIn | MatchDevPositionOut | MatchDevPositionOther (s : string).
Inductive L4Proto := L4ProtoTCP | L4ProtoUDP | L4ProtoOther (s : string).
Inductive IPValueType := IPValueTypeIP | IPValueTypeSubnet | IPValueTypeVoid | IPValueTypeRange.
Inductive PortValueType := PortValueTypePort | PortValueTypeRange | PortValueTypeVoid.

#[export] Instance ChainType_eq_dec : EqDecision ChainType.
Proof. solve_decision. Defined.
#[export] Instance ChainPolicy_eq_dec : EqDecision ChainPolicy.
Proof. solve_decision. Defined.
#[export] Instance ChainHook_eq_dec : EqDecision ChainHook.
Proof. solve_decision. Defined.
#[export] Instance TableFamily_eq_dec : EqDecision TableFamily.
Proof. solve_decision. Defined.
#[export] Instance FilterAction_eq_dec : EqDecision FilterAction.
Proof. solve_decision. Defined.
#[export] Instance MatchOperation_eq_dec : EqDecision MatchOperation.
Proof. solve_decision. Defined.
#[export] Instance L4Proto_eq_dec : EqDecision L4Proto.
Proof. solve_decision. Defined.

Record MatchIP := mkMatchIP { mip_value : string; mip_position : MatchPosition }.
Record MatchPort := mkMatchPort { mport_value : string; mport_position : MatchPosition }.
Record MatchDev := mkMatchDev {
  mdev_value : string; mdev_position : MatchDevPosition; mdev_wildcard : bool
}.
Record Match := mkMatch {
  m_op : MatchOperation; m_ip : option MatchIP; m_port : option MatchPort;
  m_proto : option L4Proto; m_dev : option MatchDev
}.
Record FilterRule := mkFilterRule {
  fr_name : option string; fr_counter : bool; fr_match : list Match; fr_action : FilterAction;
  fr_value : option string
}.
Record NatRule := mkNatRule {
  nr_name : option string; nr_match : list Match; nr_type : NatType; nr_to : option string
}.
Record RouteRule := mkRouteRule { rr_name : option string }.
Record RulesSet := mkRulesSet {
  NatRules : option (list NatRule); FilterRules : option (list FilterRule);
  RouteRules : option (list RouteRule)
}.
Record Chain := mkChain {
  ch_name : option string; ch_rules : RulesSet; ch_type : ChainType;
  ch_policy : option ChainPolicy; ch_hook : option ChainHook; ch_priority : option Z
}.
Record Table := mkTable { tb_name : option string; tb_chains : list Chain; tb_family : option TableFamily }.
Record FirewallConfiguration := mkFirewallConfiguration {
  fw_uid : string; fw_labels : gmap string string; fw_table : Table
}.

(** ** Parsers of match values *)

(** The UTF-8 encodings of the characters [unicode.IsSpace] accepts. *)
Definition spaces : list (list Z) :=
  [[9]; [10]; [11]; [12]; [13]; [32]; [0xC2; 0x85]; [0xC2; 0xA0]; [0xE1; 0x9A; 0x80];
   [0xE2; 0x80; 0xA8]; [0xE2; 0x80; 0xA9]; [0xE2; 0x80; 0xAF]; [0xE2; 0x81; 0x9F];
   [0xE3; 0x80; 0x80]] ++ ((fun b => [0xE2; 0x80; b]) <$> seqZ 0x80 11).
Fixpoint trim_left (ws : list (list Z)) (fuel : nat) (l : list ascii) : list ascii :=
  match fuel with
  | O => l
  | S fuel =>
    match List.find (fun w => bool_decide (take (List.length w) (byte_of <$> l) = w)) ws with
    | Some w => trim_left ws fuel (drop (List.length w) l)
    | None => l
    end
  end.
(** [strings.TrimSpace]. *)
Definition TrimSpace (s : string) : string :=
  let l := String.list_ascii_of_string s in
  let l := trim_left spaces (List.length l) l in
  let l := trim_left (reverse <$> spaces) (List.length l) (reverse l) in
  String.string_of_list_ascii (reverse l).

(** [strconv.ParseUint(s, 10, 16)] and [strconv.Atoi]. *)
Definition parse_digits (s : string) : option Z :=
  match s with EmptyString => None | _ => atoi_run s 0 end.
Definition ParseUint16 (s : string) : option Z :=
  v ← parse_digits s; if v <? 2 ^ 16 then Some v else None.
Definition Atoi (s : string) : option Z :=
  let in_range v := if (- 2 ^ 63 <=? v) && (v <? 2 ^ 63) then Some v else None in
  match s with
  | String "-" s => v ← parse_digits s; in_range (- v)
  | String "+" s => v ← parse_digits s; in_range v
  | _ => v ← parse_digits s; in_range v
  end.

(** [port.ParsePortRange]. *)
Definition ParsePortRange (value : string) : option (Z * Z) :=
  match Split "-" value with
  | [a; b] => s ← ParseUint16 a; e ← ParseUint16 b; Some (s, e)
  | _ => None
  end.

Definition GetIPValueRange (s : string) : option (IP * IP) :=
  match Split "-" s with
  | [a; b] =>
    match ParseIP (TrimSpace a) with
    | [] => None
    | startIP => match ParseIP (TrimSpace b) with
                 | [] => None
                 | endIP => Some (startIP, endIP)
                 end
    end
  | _ => None
  end.

Definition GetIPValueTypeRange (s : string) : option IPValueType :=
  match GetIPValueRange s with Some _ => Some IPValueTypeRange | None => None end.

Definition GetIPValueType (value : option string) : option IPValueType :=
  match value with
  | None | Some EmptyString => Some IPValueTypeVoid
  | Some v =>
    match ParseCIDR v with
    | Some _ => Some IPValueTypeSubnet
    | None =>
      match ParseIP v with
      | _ :: _ => Some IPValueTypeIP
      | [] => match GetIPValueTypeRange v with
              | Some _ => Some IPValueTypeRange
              | None => None
              end
      end
    end
  end.

Definition GetPortValueType (value : option string) : option PortValueType :=
  match value with
  | None => Some PortValueTypeVoid
  | Some v =>
    match ParsePortRange v with
    | Some _ => Some PortValueTypeRange
    | None => match Atoi v with
              | Some _ => Some PortValueTypePort
              | None => None
              end
    end
  end.

(** ** The validating webhook *)

Inductive fw_error :=
| HookNotAllowed | ManyRulesSets | WrongRulesSet | VoidRuleName | DuplicatedRule (name : string)
| NilChainName | DuplicatedChain (name : string) | NilTableName | ImmutableTableName
| TableNameUsed | ListFailed | InvalidIP (v : string) | MssClampNeedsTCP
| NatHook (name : string) | NatNoTo | NatWithTo | InvalidHook | DecodeFailed
| ChainError (name : string) (e : fw_error).

(** A check returns nil or an error. *)
Notation check := (option fw_error).
(** The first error of a sequence of checks on the elements of a slice. *)
Fixpoint first_error {A} (f : A → check) (l : list A) : check :=
  match l with
  | [] => None
  | x :: l => match f x with Some e => Some e | None => first_error f l end
  end.

Definition allowedTableFamilyChainTypeHook (family : TableFamily) (chainType : ChainType)
    (hook : ChainHook) : bool :=
  match family with
  | TableFamilyINet | TableFamilyIPv4 | TableFamilyIPv6 =>
    match chainType with
    | ChainTypeFilter =>
      match hook with
      | ChainHookIngress => bool_decide (family = TableFamilyINet)
      | ChainHookForward => bool_decide (family = TableFamilyIPv4)
      | _ => true
      end
    | ChainTypeNAT =>
      match hook with
      | ChainHookPrerouting | ChainHookInput | ChainHookOutput | ChainHookPostrouting => true
      | _ => false
      end
    | ChainTypeRoute => match hook with ChainHookOutput => true | _ => false end
    | ChainTypeOther _ => false
    end
  | TableFamilyARP =>
    match chainType with
    | ChainTypeFilter => match hook with ChainHookInput | ChainHookOutput => true | _ => false end
    | _ => false
    end
  | TableFamilyBridge =>
    match chainType with
    | ChainTypeFilter => match hook with ChainHookIngress => false | _ => true end
    | _ => false
    end
  | TableFamilyNetdev =>
    match chainType with
    | ChainTypeFilter => match hook with ChainHookIngress => true | _ => false end
    | _ => false
    end
  | TableFamilyOther _ => false
  end.

Definition is_nil {A} (l : option (list A)) : bool := match l with None => true | Some _ => false end.

Definition totalDefinedRulesSets (rules : RulesSet) : Z :=
  (if is_nil (NatRules rules) then 0 else 1) + (if is_nil (FilterRules rules) then 0 else 1)
  + (if is_nil (RouteRules rules) then 0 else 1).
Definition checkTotalDefinedRulesSets (rules : RulesSet) : check :=
  if 1 <? totalDefinedRulesSets rules then Some ManyRulesSets else None.

Definition allowedChainType (chaintype : ChainType) (rules : RulesSet) : check :=
  if negb (is_nil (NatRules rules)) && negb (bool_decide (chaintype = ChainTypeNAT))
  then Some WrongRulesSet
  else if negb (is_nil (FilterRules rules)) && negb (bool_decide (chaintype = ChainTypeFilter))
  then Some WrongRulesSet
  else if negb (is_nil (RouteRules rules)) && negb (bool_decide (chaintype = ChainTypeRoute))
  then Some WrongRulesSet
  else None.

Definition forgeChainError (chain : Chain) (e : fw_error) : fw_error :=
  match ch_name chain with None => NilChainName | Some n => ChainError n e end.
Definition in_chain (chain : Chain) (c : check) : check :=
  match c with Some e => Some (forgeChainError chain e) | None => None end.

(** [*chain.Hook] is dereferenced; the error names [*chain.Name]. *)
Definition checkAllowedTableFamilyChainTypeHook (family : TableFamily) (chain : Chain) :
    outcome check :=
  match ch_hook chain with
  | None => Panic
  | Some hook =>
    if negb (allowedTableFamilyChainTypeHook family (ch_type chain) hook) then
      match ch_name chain with None => Panic | Some _ => Ret (Some HookNotAllowed) end
    else Ret None
  end.

Definition checkChain (family : TableFamily) (chain : Chain) : outcome check :=
  c ← checkAllowedTableFamilyChainTypeHook family chain;
  Ret (in_chain chain
    match c with
    | Some e => Some e
    | None => match checkTotalDefinedRulesSets (ch_rules chain) with
              | Some e => Some e
              | None => allowedChainType (ch_type chain) (ch_rules chain)
              end
    end).

(** [FromChainToRulesArray] followed by [GetName] on each rule. *)
Definition rule_names (chain : Chain) : list (option string) :=
  match ch_type chain with
  | ChainTypeFilter => fr_name <$> default [] (FilterRules (ch_rules chain))
  | ChainTypeNAT => nr_name <$> default [] (NatRules (ch_rules chain))
  | ChainTypeRoute => rr_name <$> default [] (RouteRules (ch_rules chain))
  | ChainTypeOther _ => []
  end.

Definition void_name (name : option string) : bool :=
  match name with None => true | Some n => bool_decide (n = ""%string) end.
Definition checkVoidRuleName (names : list (option string)) : check :=
  first_error (fun n => if void_name n then Some VoidRuleName else None) names.

(** The common loop of [checkUniqueRuleNames] and [checkUniqueChainName]. *)
Fixpoint check_unique (nil_error : fw_error) (dup_error : string → fw_error) (seen : gset string)
    (names : list (option string)) : check :=
  match names with
  | [] => None
  | None :: _ => Some nil_error
  | Some n :: names => if bool_decide (n ∈ seen) then Some (dup_error n)
                       else check_unique nil_error dup_error ({[n]} ∪ seen) names
  end.
Definition checkUniqueRuleNames (names : list (option string)) : check :=
  check_unique VoidRuleName DuplicatedRule ∅ names.
Definition checkUniqueChainName (chains : list Chain) : check :=
  check_unique NilChainName DuplicatedChain ∅ (ch_name <$> chains).

Definition checkRulesInChain (chain : Chain) : check :=
  in_chain chain match checkVoidRuleName (rule_names chain) with
                 | Some e => Some e
                 | None => checkUniqueRuleNames (rule_names chain)
                 end.

(** *** filterrule.go *)

(** [bytes.Compare]. *)
Fixpoint bytes_compare (a b : list Z) : comparison :=
  match a, b with
  | [], [] => Eq
  | [], _ => Lt
  | _, [] => Gt
  | x :: a, y :: b => match x ?= y with Eq => bytes_compare a b | c => c end
  end.

Definition checkGranularRangeIP (m : MatchIP) : check :=
  match GetIPValueRange (mip_value m) with
  | None => Some (InvalidIP (mip_value m))
  | Some (addr1, addr2) =>
    match bytes_compare addr1 addr2 with Gt => Some (InvalidIP (mip_value m)) | _ => None end
  end.

Definition checkFilterRuleIPValue (m : MatchIP) : check :=
  match GetIPValueType (Some (mip_value m)) with
  | None => Some (InvalidIP (mip_value m))
  | Some IPValueTypeIP => match ParseIP (mip_value m) with
                          | [] => Some (InvalidIP (mip_value m)) | _ => None end
  | Some IPValueTypeSubnet => match ParseCIDR (mip_value m) with
                              | None => Some (InvalidIP (mip_value m)) | _ => None end
  | Some IPValueTypeRange => checkGranularRangeIP m
  | Some IPValueTypeVoid => Some (InvalidIP (mip_value m))
  end.

(** [r.Match[i].Proto] is dereferenced without a check. *)
Fixpoint mss_clamp_loop (ms : list Match) : outcome check :=
  match ms with
  | [] => Ret (Some MssClampNeedsTCP)
  | m :: ms =>
    match m_proto m with
    | None => Panic
    | Some p => if bool_decide (p = L4ProtoTCP) && bool_decide (m_op m = MatchOperationEq)
                then Ret None else mss_clamp_loop ms
    end
  end.
Definition checkFilterRuleTCPMssClamp (r : FilterRule) : outcome check := mss_clamp_loop (fr_match r).

Definition check_match_ip (m : Match) : check :=
  match m_ip m with Some ip => checkFilterRuleIPValue ip | None => None end.
Definition checkFilterRule (r : FilterRule) : outcome check :=
  match first_error check_match_ip (fr_match r) with
  | Some e => Ret (Some e)
  | None => match fr_action r with
            | ActionTCPMssClamp => checkFilterRuleTCPMssClamp r
            | _ => Ret None
            end
  end.

Fixpoint checkFilterRules (rules : list FilterRule) : outcome check :=
  match rules with
  | [] => Ret None
  | r :: rules => c ← checkFilterRule r;
                  match c with Some e => Ret (Some e) | None => checkFilterRules rules end
  end.

(** *** natrule.go *)

(** The errors name [*rule.Name]. *)
Definition named (name : option string) (e : string → fw_error) : outcome check :=
  match name with None => Panic | Some n => Ret (Some (e n)) end.

Definition checkNatRuleChainHook (hook : ChainHook) (r : NatRule) : outcome check :=
  match hook with
  | ChainHookPostrouting | ChainHookInput =>
    match nr_type r with NatTypeDestination => named (nr_name r) NatHook | _ => Ret None end
  | ChainHookPrerouting | ChainHookOutput =>
    match nr_type r with
    | NatTypeSource | NatTypeMasquerade => named (nr_name r) NatHook
    | _ => Ret None
    end
  | _ => Ret (Some InvalidHook)
  end.

Definition checkNatRuleTo (r : NatRule) : outcome check :=
  match nr_type r, nr_to r with
  | NatTypeDestination, None | NatTypeSource, None => named (nr_name r) (fun _ => NatNoTo)
  | NatTypeMasquerade, Some _ => named (nr_name r) (fun _ => NatWithTo)
  | _, _ => Ret None
  end.

Fixpoint check_nat_rules (hook : option ChainHook) (rules : list NatRule) : outcome check :=
  match rules with
  | [] => Ret None
  | r :: rules =>
    match hook with
    | None => Panic
    | Some h =>
      c ← checkNatRuleChainHook h r;
      match c with
      | Some e => Ret (Some e)
      | None => c ← checkNatRuleTo r;
                match c with Some e => Ret (Some e) | None => check_nat_rules hook rules end
      end
    end
  end.
Definition checkNatRulesInChain (chain : Chain) : outcome check :=
  check_nat_rules (ch_hook chain) (default [] (NatRules (ch_rules chain))).

(** *** table.go *)

Definition checkImmutableTableName (fw old : FirewallConfiguration) : check :=
  match tb_name (fw_table fw), tb_name (fw_table old) with
  | Some n, Some o => if negb (bool_decide (o = n)) then Some ImmutableTableName else None
  | _, _ => Some NilTableName
  end.

Fixpoint check_table_names (fw : FirewallConfiguration) (name : string)
    (items : list FirewallConfiguration) : check :=
  match items with
  | [] => None
  | i :: items =>
    if bool_decide (fw_uid i = fw_uid fw) then check_table_names fw name items
    else match tb_name (fw_table i) with
         | None => Some NilTableName
         | Some n => if bool_decide (n = name) && bool_decide (fw_labels fw = fw_labels i)
                     then Some TableNameUsed else check_table_names fw name items
         end
  end.
(** The items are the client's answer. *)
Definition checkUniqueTableName (items : option (list FirewallConfiguration))
    (fw : FirewallConfiguration) : check :=
  match tb_name (fw_table fw) with
  | None => Some NilTableName
  | Some name => match items with
                 | None => Some ListFailed
                 | Some items => check_table_names fw name items
                 end
  end.

(** *** firewallconfiguration.go *)

(** The body of the loop over the chains. *)
Definition check_one_chain (family : option TableFamily) (chain : Chain) : outcome check :=
  match family with
  | None => Panic
  | Some f =>
    c ← checkChain f chain;
    match c with
    | Some e => Ret (Some e)
    | None =>
      match checkRulesInChain chain with
      | Some e => Ret (Some e)
      | None =>
        c ← match ch_type chain with
            | ChainTypeNAT => checkNatRulesInChain chain
            | ChainTypeFilter => checkFilterRules (default [] (FilterRules (ch_rules chain)))
            | _ => Ret None
            end;
        Ret (in_chain chain c)
      end
    end
  end.
Fixpoint check_chains (family : option TableFamily) (chains : list Chain) : outcome check :=
  match chains with
  | [] => Ret None
  | c :: chains => r ← check_one_chain family c;
                   match r with Some e => Ret (Some e) | None => check_chains family chains end
  end.

(** The answer of the webhook: an error while decoding, a denial, or admission. *)
Inductive fw_response := FwErrored | FwDenied (e : fw_error) | FwAllowed.

(** [update] tells an update from a creation; the objects are what the decoder
    returns. *)
Definition validate_Handle (update : bool) (items : option (list FirewallConfiguration))
    (obj old : option FirewallConfiguration) : outcome fw_response :=
  match obj with
  | None => Ret FwErrored
  | Some fw =>
    match (if update then match old with
                          | None => None
                          | Some o => Some (checkImmutableTableName fw o)
                          end
           else Some None) with
    | None => Ret FwErrored
    | Some (Some e) => Ret (FwDenied e)
    | Some None =>
      match checkUniqueTableName items fw with
      | Some e => Ret (FwDenied e)
      | None =>
        match checkUniqueChainName (tb_chains (fw_table fw)) with
        | Some e => Ret (FwDenied e)
        | None => c ← check_chains (tb_family (fw_table fw)) (tb_chains (fw_table fw));
                  Ret (match c with Some e => FwDenied e | None => FwAllowed end)
        end
      end
    end
  end.

(** ** The mutating webhook: unnamed rules get fresh names *)

(** [uuid] gives the names [uuid.NewString] returns; the counter is the number
    of calls made so far. *)
Section mutate.
Context (uuid : nat → string).

Definition set_void_names {A} (get : A → option string) (set : string → A → A) :
    list A → nat → list A * nat :=
  fix go l n :=
    match l with
    | [] => ([], n)
    | r :: l => if void_name (get r) then let '(l, n') := go l (S n) in (set (uuid n) r :: l, n')
                else let '(l, n') := go l n in (r :: l, n')
    end.

Definition set_fr_name (n : string) (r : FilterRule) : FilterRule :=
  mkFilterRule (Some n) (fr_counter r) (fr_match r) (fr_action r) (fr_value r).
Definition set_nr_name (n : string) (r : NatRule) : NatRule :=
  mkNatRule (Some n) (nr_match r) (nr_type r) (nr_to r).
Definition set_rr_name (n : string) (_ : RouteRule) : RouteRule := mkRouteRule (Some n).
Definition set_rules (c : Chain) (r : RulesSet) : Chain :=
  mkChain (ch_name c) r (ch_type c) (ch_policy c) (ch_hook c) (ch_priority c).

Definition generate_chain_names (c : Chain) (n : nat) : Chain * nat :=
  let rs := ch_rules c in
  match ch_type c with
  | ChainTypeFilter =>
    let '(l, n) := set_void_names fr_name set_fr_name (default [] (FilterRules rs)) n in
    (set_rules c (mkRulesSet (NatRules rs) ((fun _ => l) <$> FilterRules rs) (RouteRules rs)), n)
  | ChainTypeNAT =>
    let '(l, n) := set_void_names nr_name set_nr_name (default [] (NatRules rs)) n in
    (set_rules c (mkRulesSet ((fun _ => l) <$> NatRules rs) (FilterRules rs) (RouteRules rs)), n)
  | ChainTypeRoute =>
    let '(l, n) := set_void_names rr_name set_rr_name (default [] (RouteRules rs)) n in
    (set_rules c (mkRulesSet (NatRules rs) (FilterRules rs) ((fun _ => l) <$> RouteRules rs)), n)
  | ChainTypeOther _ => (c, n)
  end.
Fixpoint generateRuleNames (chains : list Chain) (n : nat) : list Chain * nat :=
  match chains with
  | [] => ([], n)
  | c :: chains => let '(c, n) := generate_chain_names c n in
                   let '(chains, n) := generateRuleNames chains n in
                   (c :: chains, n)
  end.

(** [webhookMutate.Handle]: the object patched in, or an error while decoding. *)
Definition mutate_Handle (obj : option FirewallConfiguration) (n : nat) :
    option FirewallConfiguration :=
  fw ← obj;
  let t := fw_table fw in
  Some (mkFirewallConfiguration (fw_uid fw) (fw_labels fw)
    (mkTable (tb_name t) (generateRuleNames (tb_chains t) n).1 (tb_family t))).
End mutate.
