(* ===== verification/FirewallRules.v ===== *)
(** * FirewallRules: compilation of rules to nftables expressions
      (src/pkg/firewall/utils, src/pkg/firewall/conntrack.go)

    [forgeFilterRule] and [forgeNatRule] turn a rule into a list of nftables
    expressions; [compareRuleExpressions] decides whether a rule read back from
    the kernel is the one wanted; [conntrack.go] decides which tracked flows a
    notrack rule concerns.  The expressions are the structs of
    github.com/google/nftables/expr with the fields the code sets; their
    encoding [expr.Marshal] and the byte order of the host are parameters. *)

From S2P Require Export Firewall.
From Stdlib Require Import Ascii.
Local Open Scope Z_scope.

Inductive CmpOp := CmpOpEq | CmpOpNeq | CmpOpGte | CmpOpLte.
Inductive PayloadBase := NetworkHeader | TransportHeader.
Inductive MetaKey := MetaKeyL4PROTO | MetaKeyIIFNAME | MetaKeyOIFNAME | MetaKeyMARK.
Inductive VerdictKind := VerdictAccept | VerdictDrop.
Inductive NATType := NATTypeSourceNAT | NATTypeDestNAT.

Inductive Expr :=
| Payload (dest : Z) (base : PayloadBase) (offset len : Z)
| Cmp (op : CmpOp) (register : Z) (data : list Z)
| Bitwise (source dest len : Z) (mask xor : list Z)
| Range (op : CmpOp) (register : Z) (from to : list Z)
| Meta (key : MetaKey) (source_register : bool) (register : Z)
| Immediate (register : Z) (data : list Z)
| CtMark (source_register : bool) (register : Z)
| RtTCPMSS (register : Z)
| ByteorderHton (source dest len size : Z)
| ExthdrTcpopt (source type offset len : Z)
| Counter (bytes packets : Z)
| Verdict (kind : VerdictKind)
| Reject
| Notrack
| NAT (type : NATType) (min max : Z) (prefix : bool) (family : Z)
| Masq.

#[export] Instance CmpOp_eq_dec : EqDecision CmpOp.
Proof. solve_decision. Defined.
#[export] Instance PayloadBase_eq_dec : EqDecision PayloadBase.
Proof. solve_decision. Defined.
#[export] Instance MetaKey_eq_dec : EqDecision MetaKey.
Proof. solve_decision. Defined.
#[export] Instance VerdictKind_eq_dec : EqDecision VerdictKind.
Proof. solve_decision. Defined.
#[export] Instance NATType_eq_dec : EqDecision NATType.
Proof. solve_decision. Defined.
#[export] Instance Expr_eq_dec : EqDecision Expr.
Proof. solve_decision. Defined.

Inductive forge_error :=
| BadOp | BadPosition | BadProto | BadIPValue (s : string) | BadPortValue (s : string)
| NotIPv4Range | MissingValue | BadValue (s : string) | MarkOutOfRange (v : Z) | BadNatType.

(** A step appends expressions, fails or panics. *)
Definition F (A : Type) : Type := outcome (result forge_error A).
#[export] Instance F_ret : MRet F := fun A a => Ret (Ok a).
#[export] Instance F_bind : MBind F := fun A B f m =>
  match m with
  | Ret (Ok a) => f a
  | Ret (Err e) => Ret (Err e)
  | Panic => Panic
  | Diverge => Diverge
  end.
Definition failF {A} (e : forge_error) : F A := Ret (Err e).
Definition or_fail {A} (o : option A) (e : forge_error) : F A :=
  match o with Some a => mret a | None => failF e end.

(** ** match.go *)

Definition getMatchCmpOp (m : Match) : F CmpOp :=
  match m_op m with
  | MatchOperationEq => mret CmpOpEq
  | MatchOperationNeq => mret CmpOpNeq
  | MatchOperationOther _ => failF BadOp
  end.

(** The messages of the last branch read [m.Dev.Position]. *)
Definition bad_position {A} (m : Match) : F A :=
  match m_dev m with Some _ => failF BadPosition | None => Panic end.

Definition getMatchIPPositionOffset (m : Match) (ip : MatchIP) : F Z :=
  match mip_position ip with
  | MatchPositionSrc => mret 12
  | MatchPositionDst => mret 16
  | MatchPositionOther _ => bad_position m
  end.
Definition getMatchPortPositionOffset (m : Match) (p : MatchPort) : F Z :=
  match mport_position p with
  | MatchPositionSrc => mret 0
  | MatchPositionDst => mret 2
  | MatchPositionOther _ => bad_position m
  end.
Definition getMatchProtoValue (m : Match) (p : L4Proto) : F Z :=
  match p with
  | L4ProtoTCP => mret 6
  | L4ProtoUDP => mret 17
  | L4ProtoOther _ => bad_position m
  end.
Definition getMatchDevMetaKey (d : MatchDev) : F MetaKey :=
  match mdev_position d with
  | MatchDevPositionIn => mret MetaKeyIIFNAME
  | MatchDevPositionOut => mret MetaKeyOIFNAME
  | MatchDevPositionOther _ => failF BadPosition
  end.

Definition string_bytes (s : string) : list Z := byte_of <$> String.list_ascii_of_string s.
(** [ifname]: 16 bytes, truncated or padded with zeros. *)
Definition ifname (n : string) : list Z := take 16 (string_bytes n ++ replicate 16 0).

Definition applyMatchIPSingleIP (m : Match) (ip : MatchIP) (op : CmpOp) : F (list Expr) :=
  off ← getMatchIPPositionOffset m ip;
  mret [Payload 1 NetworkHeader off 4; Cmp op 1 (To4 (ParseIP (mip_value ip)))].

(** The first result of [net.ParseCIDR]: the address before the slash. *)
Definition ParseCIDR_IP (s : string) : IP :=
  match split_first_slash s with Some (a, _) => ParseIP a | None => [] end.

Definition applyMatchIPPoolSubnet (m : Match) (ip : MatchIP) (op : CmpOp) : F (list Expr) :=
  off ← getMatchIPPositionOffset m ip;
  subnet ← or_fail (ParseCIDR (mip_value ip)) (BadIPValue (mip_value ip));
  mret [Payload 1 NetworkHeader off 4; Bitwise 1 1 4 (ipn_Mask subnet) [0; 0; 0; 0];
        Cmp op 1 (To4 (ParseCIDR_IP (mip_value ip)))].

Definition applyMatchIPRange (m : Match) (ip : MatchIP) (op : CmpOp) : F (list Expr) :=
  off ← getMatchIPPositionOffset m ip;
  '(startIP, endIP) ← or_fail (GetIPValueRange (mip_value ip)) (BadIPValue (mip_value ip));
  match To4 startIP, To4 endIP with
  | [], _ | _, [] => failF NotIPv4Range
  | s, e => mret [Payload 1 NetworkHeader off 4; Range op 1 s e]
  end.

Definition applyMatchIP (m : Match) (ip : MatchIP) (op : CmpOp) : F (list Expr) :=
  ty ← or_fail (GetIPValueType (Some (mip_value ip))) (BadIPValue (mip_value ip));
  match ty with
  | IPValueTypeIP => applyMatchIPSingleIP m ip op
  | IPValueTypeSubnet => applyMatchIPPoolSubnet m ip op
  | IPValueTypeRange => applyMatchIPRange m ip op
  | IPValueTypeVoid => failF (BadIPValue (mip_value ip))
  end.

(** The conversion to [uint16] wraps. *)
Definition applyMatchPortSinglePort (m : Match) (p : MatchPort) (op : CmpOp) : F (list Expr) :=
  off ← getMatchPortPositionOffset m p;
  v ← or_fail (Atoi (mport_value p)) (BadPortValue (mport_value p));
  mret [Payload 1 TransportHeader off 2; Cmp op 1 (be_bytes 2 (v mod 2 ^ 16))].

Definition applyMatchPortRange (m : Match) (p : MatchPort) : F (list Expr) :=
  off ← getMatchPortPositionOffset m p;
  '(s, e) ← or_fail (ParsePortRange (mport_value p)) (BadPortValue (mport_value p));
  mret [Payload 1 TransportHeader off 2; Cmp CmpOpGte 1 (be_bytes 2 s); Cmp CmpOpLte 1 (be_bytes 2 e)].

Definition applyMatchPort (m : Match) (p : MatchPort) (op : CmpOp) : F (list Expr) :=
  ty ← or_fail (GetPortValueType (Some (mport_value p))) (BadPortValue (mport_value p));
  match ty with
  | PortValueTypePort => applyMatchPortSinglePort m p op
  | PortValueTypeRange => applyMatchPortRange m p
  | PortValueTypeVoid => failF (BadPortValue (mport_value p))
  end.

(** Any error becomes the same message; a panic does not. *)
Definition applyMatchProto (m : Match) (p : L4Proto) : F (list Expr) :=
  v ← getMatchProtoValue m p;
  mret [Meta MetaKeyL4PROTO false 1; Cmp CmpOpEq 1 [v]].

Definition applyMatchDev (d : MatchDev) (op : CmpOp) : F (list Expr) :=
  key ← getMatchDevMetaKey d;
  mret [Meta key false 1;
        Cmp op 1 (if mdev_wildcard d then string_bytes (mdev_value d) else ifname (mdev_value d))].

Definition if_some {A} (o : option A) (f : A → F (list Expr)) : F (list Expr) :=
  match o with Some a => f a | None => mret [] end.

Definition applyMatch (m : Match) : F (list Expr) :=
  op ← getMatchCmpOp m;
  e1 ← if_some (m_proto m) (applyMatchProto m);
  e2 ← if_some (m_dev m) (fun d => applyMatchDev d op);
  e3 ← if_some (m_ip m) (fun ip => applyMatchIP m ip op);
  e4 ← if_some (m_port m) (fun p => applyMatchPort m p op);
  mret (e1 ++ e2 ++ e3 ++ e4).

Fixpoint applyMatches (ms : list Match) : F (list Expr) :=
  match ms with
  | [] => mret []
  | m :: ms => e ← applyMatch m; es ← applyMatches ms; mret (e ++ es)
  end.

(** ** filterule.go and natrule.go *)

Section forge.
(** [binaryutil.NativeEndian.PutUint32]. *)
Context (PutUint32 : Z → list Z).

Definition mark_value (value : option string) : F Z :=
  s ← or_fail value MissingValue;
  v ← or_fail (Atoi s) (BadValue s);
  if (v <? 0) || (2 ^ 32 - 1 <? v) then failF (MarkOutOfRange v) else mret v.

Definition applyCtMarkAction (value : option string) : F (list Expr) :=
  v ← mark_value value; mret [Immediate 1 (PutUint32 v); CtMark true 1].
Definition applySetMetaMarkAction (value : option string) : F (list Expr) :=
  v ← mark_value value; mret [Immediate 1 (PutUint32 v); Meta MetaKeyMARK true 1].
Definition applySetMetaMarkFromCtMarkAction : F (list Expr) :=
  mret [CtMark false 1; Meta MetaKeyMARK true 1].

Definition applyTCPMssClampAction (value : option string) : F (list Expr) :=
  size ← match value with
         | None => mret 0
         | Some s => or_fail (Atoi s) (BadValue s)
         end;
  mret ([Payload 1 TransportHeader 13 1; Bitwise 1 1 1 [2] [0]; Cmp CmpOpNeq 1 [0]]
        ++ (if size =? 0 then [RtTCPMSS 1; ByteorderHton 1 1 2 2]
            else [Immediate 1 [Z.shiftr size 8 mod 256; size mod 256]])
        ++ [ExthdrTcpopt 1 2 2 2]).

Definition apply_action (r : FilterRule) : F (list Expr) :=
  match fr_action r with
  | ActionCtMark => applyCtMarkAction (fr_value r)
  | ActionSetMetaMarkFromCtMark => applySetMetaMarkFromCtMarkAction
  | ActionTCPMssClamp => applyTCPMssClampAction (fr_value r)
  | ActionAccept => mret [Verdict VerdictAccept]
  | ActionDrop => mret [Verdict VerdictDrop]
  | ActionReject => mret [Reject]
  | ActionNotrack => mret [Notrack]
  | ActionSetMetaMark => applySetMetaMarkAction (fr_value r)
  | ActionOther _ => mret []
  end.

(** An nftables rule: the name kept in its comment, and its expressions. *)
Record nftRule := mkNftRule { nft_comment : option string; nft_exprs : list Expr }.

(** [*fr.Name] is dereferenced. *)
Definition forgeFilterRule (r : FilterRule) : F nftRule :=
  match fr_name r with
  | None => Panic
  | Some name =>
    ms ← applyMatches (fr_match r);
    act ← apply_action r;
    mret (mkNftRule (Some name) (ms ++ (if fr_counter r then [Counter 1 1] else []) ++ act))
  end.

Definition getNatRuleType (r : NatRule) : F NATType :=
  match nr_type r with
  | NatTypeDestination => mret NATTypeDestNAT
  | NatTypeSource | NatTypeMasquerade => mret NATTypeSourceNAT
  | NatTypeOther _ => failF BadNatType
  end.

Definition applyNatIP (ip : option string) (ty : NATType) (family : Z) : F (list Expr) :=
  match ip with
  | None => failF MissingValue
  | Some s => match ParseIP s with
              | [] => failF (BadIPValue s)
              | a => mret [Immediate 1 (To4 a); NAT ty 1 1 false family]
              end
  end.

Definition applyNatSubnet (ip : option string) (ty : NATType) (family : Z) : F (list Expr) :=
  match ip with
  | None => failF MissingValue
  | Some s =>
    subnet ← or_fail (ParseCIDR s) (BadIPValue s);
    match Uint 4 (ipn_Mask subnet), Uint 4 (ipn_IP subnet) with
    | Ret mask, Ret start =>
      let last := Z.lor (Z.land start mask) (Z.lxor mask 0xffffffff) in
      mret [Immediate 1 (ipn_IP subnet); Immediate 2 (be_bytes 4 last); NAT ty 1 2 true family]
    | _, _ => Panic
    end
  end.

Definition applyNatRule (r : NatRule) (family : Z) : F (list Expr) :=
  ipType ← or_fail (GetIPValueType (nr_to r)) (BadIPValue (default "" (nr_to r)));
  natType ← getNatRuleType r;
  match ipType with
  | IPValueTypeIP => applyNatIP (nr_to r) natType family
  | IPValueTypeSubnet => applyNatSubnet (nr_to r) natType family
  | IPValueTypeVoid => mret [Masq]
  | IPValueTypeRange => mret []
  end.

Definition forgeNatRule (r : NatRule) (family : Z) : F nftRule :=
  match nr_name r with
  | None => Panic
  | Some name =>
    ms ← applyMatches (nr_match r);
    act ← applyNatRule r family;
    mret (mkNftRule (Some name) (ms ++ act))
  end.

(** ** common.go: the comparison with the rule in the kernel *)

Definition unstable (e : Expr) : bool :=
  match e with Counter _ _ | RtTCPMSS _ | ByteorderHton _ _ _ _ => true | _ => false end.
Definition filterUnstableExprs (es : list Expr) : list Expr :=
  List.filter (fun e => negb (unstable e)) es.

(** [expr.Marshal]; the family of the table is the same on both sides. *)
Context (Marshal : Expr → option (list Z)).

(** The inner loop: a failure to encode ends the comparison. *)
Fixpoint find_equal (bytes : list Z) (new : list Expr) : option bool :=
  match new with
  | [] => Some false
  | e :: new => b ← Marshal e;
                if bool_decide (bytes = b) then Some true else find_equal bytes new
  end.
Fixpoint all_found (current new : list Expr) : bool :=
  match current with
  | [] => true
  | e :: current =>
    match (bytes ← Marshal e; find_equal bytes new) with
    | Some true => all_found current new
    | _ => false
    end
  end.
Definition compareRuleExpressions (current new : list Expr) : bool :=
  let current := filterUnstableExprs current in
  let new := filterUnstableExprs new in
  (List.length current =? List.length new)%nat && all_found current new.

(** [FilterRuleWrapper.Equal] and [NatRuleWrapper.Equal]. *)
Definition FilterRule_Equal (r : FilterRule) (current : nftRule) : outcome bool :=
  match forgeFilterRule r with
  | Ret (Ok new) => Ret (compareRuleExpressions (nft_exprs current) (nft_exprs new))
  | Ret (Err _) => Ret false
  | Panic => Panic
  | Diverge => Diverge
  end.
Definition NatRule_Equal (r : NatRule) (family : Z) (current : nftRule) : outcome bool :=
  match forgeNatRule r family with
  | Ret (Ok new) => Ret (compareRuleExpressions (nft_exprs current) (nft_exprs new))
  | Ret (Err _) => Ret false
  | Panic => Panic
  | Diverge => Diverge
  end.
End forge.

(** ** conntrack.go *)

(** The fields of [conntrack.Tuple] that are read. *)
Record Tuple := mkTuple {
  SourceAddress : Addr; DestinationAddress : Addr;
  Protocol : Z; SourcePort : Z; DestinationPort : Z
}.
Record Flow := mkFlow { TupleOrig : Tuple; TupleReply : Tuple }.

Definition matchIP (t : Tuple) (ip : MatchIP) : bool :=
  match (match ParsePrefix (mip_value ip) with
         | Some p => Some p
         | None => a ← ParseAddr (mip_value ip); Some (PrefixFrom a (bitlen a))
         end) with
  | None => false
  | Some p =>
    match mip_position ip with
    | MatchPositionSrc => Contains p (SourceAddress t)
    | MatchPositionDst => Contains p (DestinationAddress t)
    | MatchPositionOther _ => false
    end
  end.

Definition parsePortRange (value : string) : option (Z * Z) :=
  match split_first "-" value with
  | Some (a, b) => s ← ParseUint16 a; e ← ParseUint16 b;
                   if e <? s then None else Some (s, e)
  | None => s ← ParseUint16 value; Some (s, s)
  end.
Definition portInRange (port start end_ : Z) : bool := (start <=? port) && (port <=? end_).

Definition matchPort (t : Tuple) (p : MatchPort) : bool :=
  match parsePortRange (mport_value p) with
  | None => false
  | Some (s, e) =>
    match mport_position p with
    | MatchPositionSrc => portInRange (SourcePort t) s e
    | MatchPositionDst => portInRange (DestinationPort t) s e
    | MatchPositionOther _ => false
    end
  end.
Definition matchProto (t : Tuple) (p : L4Proto) : bool :=
  match p with
  | L4ProtoTCP => Protocol t =? 6
  | L4ProtoUDP => Protocol t =? 17
  | L4ProtoOther _ => false
  end.

Definition matchSatisfiesRule (m : Match) (t : Tuple) : bool :=
  let matched := match m_ip m with Some ip => matchIP t ip | None => true end
              && match m_port m with Some p => matchPort t p | None => true end
              && match m_proto m with Some p => matchProto t p | None => true end in
  if bool_decide (m_op m = MatchOperationNeq) then negb matched else matched.
Definition tupleMatchesRule (t : Tuple) (r : FilterRule) : bool :=
  forallb (fun m => matchSatisfiesRule m t) (fr_match r).
Definition ruleMatchesFlow (r : FilterRule) (f : Flow) : bool :=
  tupleMatchesRule (TupleOrig f) r || tupleMatchesRule (TupleReply f) r.
Definition flowMatchesNotrackRules (f : Flow) (rules : list FilterRule) : bool :=
  existsb (fun r => ruleMatchesFlow r f) rules.
Definition notrackRules (t : Table) : list FilterRule :=
  tb_chains t ≫= fun c =>
    List.filter (fun r => bool_decide (fr_action r = ActionNotrack))
                (default [] (FilterRules (ch_rules c))).

Section flush.
(** The conntrack connection: what it dumps, whether a deletion succeeds; and
    whether the context is done at the [i]-th flow. *)
Context (Delete : Flow → bool) (cancelled : nat → bool).

(** The flows deleted, and whether no error ended the loop. *)
Fixpoint flush_loop (rules : list FilterRule) (flows : list Flow) (i : nat) : bool * list Flow :=
  match flows with
  | [] => (true, [])
  | f :: flows =>
    if cancelled i then (false, [])
    else if negb (flowMatchesNotrackRules f rules) then flush_loop rules flows (S i)
    else if Delete f then let '(ok, deleted) := flush_loop rules flows (S i) in (ok, f :: deleted)
    else (false, [])
  end.
Definition flushConntrackForNotrackRules (connected : bool) (Dump : option (list Flow)) (t : Table) :
    bool * list Flow :=
  if negb connected then (true, [])
  else match notrackRules t with
  | [] => (true, [])
  | rules => match Dump with
             | None => (false, [])
             | Some flows => flush_loop rules flows 0
             end
  end.
End flush.
