(* ===== verification/FirewallWebhook.v ===== *)
(** * FirewallWebhook: what the firewall webhooks admit and produce *)

From S2P Require Export FirewallRules.
From Stdlib Require Import Ascii.
Local Open Scope Z_scope.

(** ** The declarative reading of the checks *)

(** All present and pairwise distinct. *)
Definition distinct_names (names : list (option string)) : Prop :=
  ∃ ns, names = Some <$> ns ∧ NoDup ns.

Definition ip_value_ok (v : string) : Prop :=
  is_Some (ParseCIDR v) ∨ ParseIP v ≠ [] ∨
  ∃ a b, GetIPValueRange v = Some (a, b) ∧ bytes_compare a b ≠ Gt.

(** A TCP match, with a protocol in every match before it. *)
Definition clamp_ok (ms : list Match) : Prop :=
  ∃ pre m post, ms = pre ++ m :: post ∧ m_proto m = Some L4ProtoTCP ∧ m_op m = MatchOperationEq ∧
    Forall (fun m' => is_Some (m_proto m')) pre.

Definition filter_rule_ok (r : FilterRule) : Prop :=
  (∀ m ip, m ∈ fr_match r → m_ip m = Some ip → ip_value_ok (mip_value ip)) ∧
  (fr_action r = ActionTCPMssClamp → clamp_ok (fr_match r)).

Definition nat_rule_ok (hook : ChainHook) (r : NatRule) : Prop :=
  match nr_type r with
  | NatTypeDestination =>
    (hook = ChainHookPrerouting ∨ hook = ChainHookOutput) ∧ is_Some (nr_to r)
  | NatTypeSource =>
    (hook = ChainHookPostrouting ∨ hook = ChainHookInput) ∧ is_Some (nr_to r)
  | NatTypeMasquerade =>
    (hook = ChainHookPostrouting ∨ hook = ChainHookInput) ∧ nr_to r = None
  | NatTypeOther _ => hook = ChainHookPrerouting ∨ hook = ChainHookOutput ∨
                      hook = ChainHookPostrouting ∨ hook = ChainHookInput
  end.

(** Rules of a kind are given only in a chain of that kind. *)
Definition rules_of_type (c : Chain) : Prop :=
  (is_Some (NatRules (ch_rules c)) → ch_type c = ChainTypeNAT) ∧
  (is_Some (FilterRules (ch_rules c)) → ch_type c = ChainTypeFilter) ∧
  (is_Some (RouteRules (ch_rules c)) → ch_type c = ChainTypeRoute).

Definition chain_ok (family : TableFamily) (c : Chain) : Prop :=
  ∃ hook, ch_hook c = Some hook ∧
    allowedTableFamilyChainTypeHook family (ch_type c) hook = true ∧
    rules_of_type c ∧
    distinct_names (rule_names c) ∧ Some ""%string ∉ rule_names c ∧
    Forall (nat_rule_ok hook) (default [] (NatRules (ch_rules c))) ∧
    Forall filter_rule_ok (default [] (FilterRules (ch_rules c))).

(** No other configuration with the same labels uses the name of the table. *)
Definition table_name_free (items : list FirewallConfiguration) (fw : FirewallConfiguration)
    (name : string) : Prop :=
  ∀ i, i ∈ items → fw_uid i ≠ fw_uid fw →
    ∃ n, tb_name (fw_table i) = Some n ∧ (n = name → fw_labels fw ≠ fw_labels i).

(** ** Lemmas on the checks *)

Lemma first_error_None {A} (f : A → check) l : first_error f l = None ↔ ∀ x, x ∈ l → f x = None.
Proof.
  induction l as [|x l IH]; simpl.
  - split; [intros _ x []%not_elem_of_nil|done].
  - setoid_rewrite elem_of_cons. destruct (f x) eqn:E; [|rewrite IH]; naive_solver.
Qed.

Lemma in_chain_None c k : in_chain c k = None ↔ k = None.
Proof. destruct k; simpl; [|done]. split; [done|]. done. Qed.

Lemma check_unique_None ne de seen names : check_unique ne de seen names = None ↔
  ∃ ns, names = Some <$> ns ∧ NoDup ns ∧ ∀ n, n ∈ ns → n ∉ seen.
Proof.
  revert seen. induction names as [|[n|] names IH]; intros seen; simpl.
  - split; [|done]. intros _. exists []. split; [done|]. split; [constructor|].
    intros n []%not_elem_of_nil.
  - case_bool_decide as Hn.
    + split; [done|]. intros ([|n' ns] & He & _ & Hs); [done|]. injection He as -> ->.
      destruct (Hs n'); [left|done].
    + rewrite IH. split.
      * intros (ns & -> & Hnd & Hs). exists (n :: ns). split; [done|]. split.
        -- constructor; [|done]. intros Hin. by apply (Hs n Hin), elem_of_union_l, elem_of_singleton.
        -- intros n' [->|Hin]%elem_of_cons; [done|]. intros Hin'. apply (Hs n' Hin). set_solver.
      * intros ([|n' ns] & He & Hnd & Hs); [done|]. injection He as -> ->.
        apply NoDup_cons in Hnd as [Hni Hnd]. exists ns. split; [done|]. split; [done|].
        intros m Hm [->%elem_of_singleton|Hm']%elem_of_union; [done|]. apply (Hs m); [by right|done].
  - split; [done|]. by intros ([|n ns] & He & _).
Qed.

Lemma check_distinct ne de names : check_unique ne de ∅ names = None ↔ distinct_names names.
Proof.
  rewrite check_unique_None. unfold distinct_names.
  split; intros (ns & ? & ?); exists ns; [naive_solver|]. set_solver.
Qed.

Lemma rule_name_checks c :
  checkRulesInChain c = None ↔ distinct_names (rule_names c) ∧ Some ""%string ∉ rule_names c.
Proof.
  unfold checkRulesInChain. rewrite in_chain_None. generalize (rule_names c) as names. intros names.
  assert (Hv : checkVoidRuleName names = None ↔ None ∉ names ∧ Some ""%string ∉ names).
  { unfold checkVoidRuleName. rewrite first_error_None. split.
    - intros H. split; intros Hin; by specialize (H _ Hin).
    - intros [H1 H2] [n|] Hin; [|done]. simpl. case_bool_decide; [by subst|done]. }
  destruct (checkVoidRuleName names) eqn:E.
  - split; [done|]. intros [(ns & -> & _) Hv2]. exfalso.
    enough (Some f = None) by done. apply Hv. split; [|done].
    intros (x & ? & _)%list_elem_of_fmap. done.
  - unfold checkUniqueRuleNames. rewrite check_distinct. destruct Hv as [Hv _]. naive_solver.
Qed.

Lemma mss_clamp_None ms : mss_clamp_loop ms = Ret None ↔ clamp_ok ms.
Proof.
  unfold clamp_ok. induction ms as [|m ms IH]; simpl.
  - split; [done|]. intros (pre & m & post & He & _). by destruct pre.
  - destruct (m_proto m) as [p|] eqn:Hp.
    + destruct (bool_decide (p = L4ProtoTCP) && bool_decide (m_op m = MatchOperationEq)) eqn:Hb.
      * apply andb_true_iff in Hb as [->%bool_decide_eq_true Ho%bool_decide_eq_true].
        split; [|done]. intros _. by exists [], m, ms.
      * rewrite IH. apply andb_false_iff in Hb. rewrite !bool_decide_eq_false in Hb. split.
        -- intros (pre & m' & post & -> & ? & ? & ?). exists (m :: pre), m', post.
           repeat split; try done. constructor; [by rewrite Hp|done].
        -- intros ([|m0 pre] & m' & post & He & ? & ? & Hpre); injection He as <- ->; [naive_solver|].
           exists pre, m', post. apply Forall_cons in Hpre as [_ ?]. done.
    + split; [done|]. intros ([|m0 pre] & m' & post & He & ? & ? & Hpre); injection He as <- ->; [naive_solver|].
      apply Forall_cons in Hpre as [[? Hc] _]. congruence.
Qed.

Lemma ip_value_check ip : checkFilterRuleIPValue ip = None ↔ ip_value_ok (mip_value ip).
Proof.
  unfold checkFilterRuleIPValue, ip_value_ok, checkGranularRangeIP, GetIPValueType, GetIPValueTypeRange.
  generalize (mip_value ip) as v. intros v. destruct v as [|a v].
  { split; [done|]. intros [[? H]|[H|(? & ? & H & _)]]; done. }
  destruct (ParseCIDR _) eqn:Hc; [split; [intros _; left; by eexists|done]|].
  destruct (ParseIP _) eqn:Hi; [|split; [intros _; by right; left|done]].
  assert (Hno : ¬ is_Some (@None IPNet)) by (by intros [? ?]).
  destruct (GetIPValueRange _) as [[x y]|] eqn:Hr; [|naive_solver].
  destruct (bytes_compare x y) eqn:Hb; (split; [try done; intros _|]); try done;
    try (right; right; exists x, y; by rewrite Hb); naive_solver.
Qed.

Lemma filter_rule_check r : checkFilterRule r = Ret None ↔ filter_rule_ok r.
Proof.
  unfold checkFilterRule, filter_rule_ok.
  assert (Hm : first_error check_match_ip (fr_match r) = None ↔
    ∀ m ip, m ∈ fr_match r → m_ip m = Some ip → ip_value_ok (mip_value ip)).
  { rewrite first_error_None. unfold check_match_ip. split.
    - intros H m ip Hin Hip. specialize (H m Hin). rewrite Hip in H. by apply ip_value_check.
    - intros H m Hin. destruct (m_ip m) eqn:Hip; [|done]. apply ip_value_check. eauto. }
  destruct (first_error check_match_ip (fr_match r)); [naive_solver|].
  unfold checkFilterRuleTCPMssClamp. rewrite <- mss_clamp_None.
  destruct (fr_action r); naive_solver.
Qed.

Lemma filter_rules_check rs : checkFilterRules rs = Ret None ↔ Forall filter_rule_ok rs.
Proof.
  induction rs as [|r rs IH]; simpl; [naive_solver|]. rewrite Forall_cons, <- filter_rule_check, <- IH.
  unfold mbind, outcome_bind. destruct (checkFilterRule r) as [[e|]| |]; naive_solver.
Qed.

Lemma nat_rule_check hook r c : (c ← checkNatRuleChainHook hook r;
  match c with Some e => Ret (Some e) | None => checkNatRuleTo r end) = Ret c →
  c = None ↔ nat_rule_ok hook r.
Proof.
  unfold checkNatRuleChainHook, checkNatRuleTo, nat_rule_ok, named, mbind, outcome_bind.
  destruct hook, (nr_type r), (nr_to r), (nr_name r); simpl; intros [= <-];
    split; try done; try (intros [[|] ?]; done); try naive_solver.
  all: intros; rewrite ?is_Some_alt; naive_solver.
Qed.

(** A NAT rule, both checks: it returns as soon as the rule has a name. *)
Definition check_nat_rule (hook : ChainHook) (r : NatRule) : outcome check :=
  c ← checkNatRuleChainHook hook r;
  match c with Some e => Ret (Some e) | None => checkNatRuleTo r end.

Lemma check_nat_rule_ok hook r : is_Some (nr_name r) →
  check_nat_rule hook r = Ret None ↔ nat_rule_ok hook r.
Proof.
  intros [n Hn]. assert (Hr : ∃ c, check_nat_rule hook r = Ret c).
  { unfold check_nat_rule, checkNatRuleChainHook, checkNatRuleTo, named, mbind, outcome_bind. rewrite Hn.
    destruct hook, (nr_type r), (nr_to r); eauto. }
  destruct Hr as [c Hc]. rewrite <- (nat_rule_check hook r c Hc), Hc. naive_solver.
Qed.

Lemma check_nat_rules_step hook r rs :
  check_nat_rules (Some hook) (r :: rs) = Ret None ↔
  check_nat_rule hook r = Ret None ∧ check_nat_rules (Some hook) rs = Ret None.
Proof.
  simpl. unfold check_nat_rule, mbind, outcome_bind.
  destruct (checkNatRuleChainHook hook r) as [[e|]| |]; try naive_solver.
  destruct (checkNatRuleTo r) as [[e|]| |]; naive_solver.
Qed.

Lemma nat_rules_check hook rs : Forall (fun r => is_Some (nr_name r)) rs →
  check_nat_rules (Some hook) rs = Ret None ↔ Forall (nat_rule_ok hook) rs.
Proof.
  induction 1 as [|r rs Hn _ IH]; [simpl; split; [constructor|done]|].
  by rewrite check_nat_rules_step, Forall_cons, IH, check_nat_rule_ok.
Qed.

Lemma distinct_names_some names : distinct_names names → Forall is_Some names.
Proof. intros (ns & -> & _). apply Forall_fmap, Forall_true. by intros x; eexists. Qed.

(** The structure of a chain. *)
Lemma rules_set_checks c :
  checkTotalDefinedRulesSets (ch_rules c) = None ∧ allowedChainType (ch_type c) (ch_rules c) = None
  ↔ rules_of_type c.
Proof.
  unfold checkTotalDefinedRulesSets, totalDefinedRulesSets, allowedChainType, rules_of_type.
  assert (HN : ∀ A, ¬ is_Some (@None A)) by (intros A [? ?]; done).
  destruct (NatRules (ch_rules c)), (FilterRules (ch_rules c)), (RouteRules (ch_rules c)); simpl;
    repeat case_bool_decide; simpl; split; intros; destruct_and?; try done;
    try (repeat split; intros; done || by edestruct HN).
  all: repeat match goal with H : is_Some (Some ?x) → _ |- _ => specialize (H (mk_is_Some _ _ eq_refl)) end;
    try done; congruence.
Qed.

Lemma checkChain_ok family c : is_Some (ch_name c) →
  checkChain family c = Ret None ↔
  ∃ hook, ch_hook c = Some hook ∧
    allowedTableFamilyChainTypeHook family (ch_type c) hook = true ∧ rules_of_type c.
Proof.
  intros [n Hn]. unfold checkChain, checkAllowedTableFamilyChainTypeHook.
  destruct (ch_hook c) as [hook|]; [|split; [done|naive_solver]].
  pose proof (rules_set_checks c) as HS. rewrite Hn.
  destruct (allowedTableFamilyChainTypeHook family (ch_type c) hook) eqn:Ha; simpl;
    [|split; [done|intros (h & [= <-] & Hf & _); congruence]].
  transitivity (in_chain c match checkTotalDefinedRulesSets (ch_rules c) with
                           | Some e => Some e
                           | None => allowedChainType (ch_type c) (ch_rules c) end = None);
    [split; [by intros [= H]|intros H; exact (f_equal Ret H)]|].
  rewrite in_chain_None. destruct (checkTotalDefinedRulesSets (ch_rules c)).
  - split; [done|]. intros (h & _ & _ & Hr). by destruct (proj2 HS Hr).
  - split; [|intros (h & _ & _ & Hr); by destruct (proj2 HS Hr)].
    intros E. exists hook. split; [done|]. split; [done|]. by apply HS.
Qed.

(** The rules of a chain, checked according to its type. *)
Lemma typed_rules_check hook c : ch_hook c = Some hook → rules_of_type c →
  Forall is_Some (rule_names c) →
  match ch_type c with
  | ChainTypeNAT => checkNatRulesInChain c
  | ChainTypeFilter => checkFilterRules (default [] (FilterRules (ch_rules c)))
  | _ => Ret None
  end = Ret None ↔
  Forall (nat_rule_ok hook) (default [] (NatRules (ch_rules c))) ∧
  Forall filter_rule_ok (default [] (FilterRules (ch_rules c))).
Proof.
  intros Hh (HN & HF & HR) Hnames.
  assert (Hnone : ∀ A (o : option (list A)) (P : A → Prop) t, (is_Some o → ch_type c = t) → ch_type c ≠ t →
    Forall P (default [] o)).
  { intros A [l|] P t Ho Hne; simpl; [|constructor]. by destruct Hne, Ho. }
  assert (Hnat : ch_type c ≠ ChainTypeNAT → Forall (nat_rule_ok hook) (default [] (NatRules (ch_rules c))))
    by (intros; eapply Hnone; [exact HN|done]).
  assert (Hfil : ch_type c ≠ ChainTypeFilter → Forall filter_rule_ok (default [] (FilterRules (ch_rules c))))
    by (intros; eapply Hnone; [exact HF|done]).
  unfold rule_names in Hnames. destruct (ch_type c) eqn:Ht.
  - rewrite filter_rules_check. split; [|by intros [_ ?]]. intros ?. split; [by apply Hnat|done].
  - split; [|done]. intros _. split; [by apply Hnat|by apply Hfil].
  - apply (proj1 (Forall_fmap _ _ _)) in Hnames.
    unfold checkNatRulesInChain. rewrite Hh, nat_rules_check by exact Hnames.
    split; [|by intros [? _]]. intros ?. split; [done|by apply Hfil].
  - split; [|done]. intros _. split; [by apply Hnat|by apply Hfil].
Qed.

Lemma check_one_chain_ok family c : is_Some (ch_name c) →
  check_one_chain family c = Ret None ↔ ∃ f, family = Some f ∧ chain_ok f c.
Proof.
  intros Hn. unfold check_one_chain. destruct family as [f|]; [|split; [done|naive_solver]].
  pose proof (checkChain_ok f c Hn) as HC. unfold chain_ok.
  unfold mbind, outcome_bind. destruct (checkChain f c) as [[e|]| |]; [split; [done|naive_solver]| |split; [done|naive_solver]..].
  destruct (proj1 HC eq_refl) as (hook & Hh & Hal & Hty).
  pose proof (rule_name_checks c) as HR.
  destruct (checkRulesInChain c); [split; [done|naive_solver]|].
  destruct (proj1 HR eq_refl) as [Hd Hv].
  pose proof (typed_rules_check hook c Hh Hty (distinct_names_some _ Hd)) as HT.
  transitivity (match ch_type c with
                | ChainTypeNAT => checkNatRulesInChain c
                | ChainTypeFilter => checkFilterRules (default [] (FilterRules (ch_rules c)))
                | _ => Ret None
                end = Ret None).
  { destruct (match ch_type c with ChainTypeNAT => _ | _ => _ end) as [k| |]; [|done|done].
    split; [intros [= H%in_chain_None]; by subst|by intros [= ->]]. }
  rewrite HT. split.
  - intros [? ?]. exists f. split; [done|]. by exists hook.
  - intros (f' & [= <-] & hook' & Hh' & _ & _ & _ & _ & ? & ?). rewrite Hh in Hh'.
    by injection Hh' as <-.
Qed.

Lemma check_chains_ok family chains : Forall (fun c => is_Some (ch_name c)) chains →
  check_chains family chains = Ret None ↔ Forall (fun c => ∃ f, family = Some f ∧ chain_ok f c) chains.
Proof.
  induction 1 as [|c chains Hn _ IH]; simpl; [split; [constructor|done]|].
  rewrite Forall_cons, <- IH, <- check_one_chain_ok by done.
  unfold mbind, outcome_bind. destruct (check_one_chain family c) as [[e|]| |]; naive_solver.
Qed.

Lemma check_table_names_ok fw name items :
  check_table_names fw name items = None ↔ table_name_free items fw name.
Proof.
  unfold table_name_free. induction items as [|i items IH]; simpl.
  { split; [intros _ i []%not_elem_of_nil|done]. }
  setoid_rewrite elem_of_cons. case_bool_decide as Hu; [rewrite IH; naive_solver|].
  destruct (tb_name (fw_table i)) as [n|] eqn:Hn; [|split; [done|]].
  - destruct (bool_decide (n = name) && bool_decide (fw_labels fw = fw_labels i)) eqn:Hb.
    + apply andb_true_iff in Hb as [->%bool_decide_eq_true ?%bool_decide_eq_true].
      split; [done|]. intros Hall. destruct (Hall i (or_introl eq_refl) Hu) as (n' & ? & Hne).
      assert (n' = name) by congruence. by destruct Hne.
    + rewrite IH. apply andb_false_iff in Hb. rewrite !bool_decide_eq_false in Hb. naive_solver.
  - intros Hall. destruct (Hall i (or_introl eq_refl) Hu) as (n' & ? & _). congruence.
Qed.

(** ** The mutating webhook *)

Section names.
Context (uuid : nat → string).

(** The names after the pass: the void ones are replaced by fresh ones, in order. *)
Fixpoint fill_names (names : list (option string)) (n : nat) : list (option string) :=
  match names with
  | [] => []
  | o :: names => if void_name o then Some (uuid n) :: fill_names names (S n)
                  else o :: fill_names names n
  end.

Lemma set_void_names_fill {A} (get : A → option string) set l n :
  (∀ u a, get (set u a) = Some u) →
  get <$> (set_void_names uuid get set l n).1 = fill_names (get <$> l) n.
Proof.
  intros Hset. revert n. induction l as [|r l IH]; intros n; simpl; [done|].
  destruct (void_name (get r)); simpl.
  - specialize (IH (S n)). destruct (set_void_names uuid get set l (S n)). simpl in *.
    rewrite Hset. f_equal. exact IH.
  - specialize (IH n). destruct (set_void_names uuid get set l n). simpl in *. f_equal. exact IH.
Qed.

Lemma rule_names_fill c n : rule_names (generate_chain_names uuid c n).1 = fill_names (rule_names c) n.
Proof.
  unfold generate_chain_names, rule_names.
  destruct (ch_type c) eqn:Ht; simpl; [| | |by rewrite Ht].
  - rewrite <- (set_void_names_fill fr_name set_fr_name) by done.
    destruct (set_void_names uuid fr_name _ _ n) as [l n'] eqn:E. simpl. rewrite Ht.
    destruct (FilterRules (ch_rules c)); simpl in *; [done|]. by injection E as <- <-.
  - rewrite <- (set_void_names_fill rr_name set_rr_name) by done.
    destruct (set_void_names uuid rr_name _ _ n) as [l n'] eqn:E. simpl. rewrite Ht.
    destruct (RouteRules (ch_rules c)); simpl in *; [done|]. by injection E as <- <-.
  - rewrite <- (set_void_names_fill nr_name set_nr_name) by done.
    destruct (set_void_names uuid nr_name _ _ n) as [l n'] eqn:E. simpl. rewrite Ht.
    destruct (NatRules (ch_rules c)); simpl in *; [done|]. by injection E as <- <-.
Qed.

(** The given, non-void names are distinct and none of them is a fresh one. *)
Definition given (names : list (option string)) : list string :=
  List.filter (fun s => negb (bool_decide (s = ""%string))) (omap id names).

Lemma fill_names_distinct names n :
  (∀ i j, uuid i = uuid j → i = j) → NoDup (given names) → (∀ i, uuid i ∉ given names) →
  ∃ ns, fill_names names n = Some <$> ns ∧ NoDup ns ∧
        ∀ s, s ∈ ns → s ∈ given names ∨ ∃ i, (n ≤ i)%nat ∧ s = uuid i.
Proof.
  intros Hinj. revert n. induction names as [|o names IH]; intros n Hnd Hfr; simpl.
  { exists []. split; [done|]. split; [constructor|]. by intros s []%not_elem_of_nil. }
  destruct (void_name o) eqn:Hv.
  - assert (Hg : given (o :: names) = given names).
    { unfold given. destruct o as [s|]; simpl in *; [|done].
      apply bool_decide_eq_true in Hv as ->. done. }
    rewrite Hg in *. destruct (IH (S n) Hnd Hfr) as (ns & -> & Hns & Hin).
    exists (uuid n :: ns). split; [done|]. split.
    + constructor; [|done]. intros [?|(i & ? & ?%Hinj)]%Hin; [by eapply Hfr|lia].
    + intros s [->|Hs]%elem_of_cons; [right; exists n; split; [lia|done]|].
      destruct (Hin s Hs) as [?|(i & ? & ?)]; [by left|right; exists i; split; [lia|done]].
  - destruct o as [s|]; [|done]. simpl in Hv. apply bool_decide_eq_false in Hv.
    assert (Hg : given (Some s :: names) = s :: given names).
    { unfold given. simpl. by rewrite bool_decide_false. }
    rewrite Hg in *. apply NoDup_cons in Hnd as [Hs Hnd]. setoid_rewrite elem_of_cons in Hfr.
    destruct (IH n Hnd ltac:(naive_solver)) as (ns & -> & Hns & Hin).
    exists (s :: ns). split; [done|]. split.
    + constructor; [|done]. intros [?|(i & ? & ->)]%Hin; [done|]. by eapply Hfr; left.
    + setoid_rewrite elem_of_cons. naive_solver.
Qed.
End names.

(** ** Properties *)

(** The answer of the webhook. *)
Lemma validate_allowed (update : bool) (items : list FirewallConfiguration)
    (fw : FirewallConfiguration) (old : option FirewallConfiguration) :
  validate_Handle update (Some items) (Some fw) old = Ret FwAllowed ↔
  ∃ name, tb_name (fw_table fw) = Some name ∧
    (update = true → ∃ o, old = Some o ∧ tb_name (fw_table o) = Some name) ∧
    table_name_free items fw name ∧
    distinct_names (ch_name <$> tb_chains (fw_table fw)) ∧
    Forall (fun c => ∃ f, tb_family (fw_table fw) = Some f ∧ chain_ok f c) (tb_chains (fw_table fw)).
Proof.
  unfold validate_Handle, checkUniqueTableName, checkImmutableTableName, checkUniqueChainName.
  destruct (tb_name (fw_table fw)) as [name|] eqn:Hname.
  2: { split; [|naive_solver]. by destruct update, old. }
  pose proof (check_distinct NilChainName DuplicatedChain (ch_name <$> tb_chains (fw_table fw))) as HD.
  pose proof (check_table_names_ok fw name items) as HT.
  assert (HU : (update = true → ∃ o, old = Some o ∧ tb_name (fw_table o) = Some name) ↔
    (if update then match old with
                    | None => None
                    | Some o => Some (match tb_name (fw_table o) with
                      | Some n => if negb (bool_decide (n = name)) then Some ImmutableTableName else None
                      | None => Some NilTableName end)
                    end else Some None) = Some None).
  { destruct update; [|naive_solver]. destruct old as [o|]; [|naive_solver].
    destruct (tb_name (fw_table o)) as [n|] eqn:Hn; [|naive_solver].
    case_bool_decide; simpl; [naive_solver|]. split; [|done].
    intros H'. destruct (H' eq_refl) as (? & [= <-] & ?). congruence. }
  destruct (if update then _ else _) as [[e|]|] eqn:E.
  1, 3: split; [done|]; by intros (? & [= <-] & Hup%HU & _).
  destruct (check_table_names fw name items).
  { split; [done|]. intros (? & [= <-] & _ & Hf%HT & _). done. }
  destruct (check_unique _ _ _ _).
  { split; [done|]. by intros (? & _ & _ & _ & Hd%HD & _). }
  pose proof (proj1 HD eq_refl) as Hdist. pose proof (distinct_names_some _ Hdist) as Hc.
  apply (proj1 (Forall_fmap _ _ _)) in Hc.
  pose proof (check_chains_ok (tb_family (fw_table fw)) _ Hc) as HC. unfold mbind, outcome_bind.
  destruct (check_chains _ _) as [[e|]| |];
    try (split; [done|]; by intros (? & _ & _ & _ & _ & Hf%HC)).
  split; [|done]. intros _. exists name. split; [done|]. split; [by apply HU|]. split; [by apply HT|].
  split; [done|by apply HC].
Qed.

(** C11: the validating webhook admits exactly the well-formed configurations.  On
    a decoded object it answers "allowed" if and only if the table has a name no
    other configuration with the same labels uses (and, on an update, the name did
    not change), chain names are given and distinct, and every chain has a hook
    allowed for its family and type, only rules of its type, named and distinct,
    NAT rules suited to the hook with or without target as their type demands, and
    filter rules whose addresses parse and whose MSS clamp matches TCP. *)
Theorem webhook_admits_iff (update : bool) (items : list FirewallConfiguration)
    (fw : FirewallConfiguration) (old : option FirewallConfiguration) :
  validate_Handle update (Some items) (Some fw) old = Ret FwAllowed ↔
  ∃ name, tb_name (fw_table fw) = Some name ∧
    (update = true → ∃ o, old = Some o ∧ tb_name (fw_table o) = Some name) ∧
    table_name_free items fw name ∧
    distinct_names (ch_name <$> tb_chains (fw_table fw)) ∧
    Forall (fun c => ∃ f, tb_family (fw_table fw) = Some f ∧ chain_ok f c) (tb_chains (fw_table fw)).
Proof. apply validate_allowed. Qed.

(** Unnamed rules get names of their own.  After the mutating webhook the rules
    of every chain are all named and, provided the names given were distinct and
    the identifiers drawn are pairwise distinct, not empty and not among the names
    given, the names of a chain pass the checks of the validating webhook; given
    names stay. *)
Theorem generated_names_valid (uuid : nat → string) (c : Chain) (n : nat) :
  (∀ i j, uuid i = uuid j → i = j) → (∀ i, uuid i ≠ ""%string) →
  NoDup (given (rule_names c)) → (∀ i, uuid i ∉ given (rule_names c)) →
  checkRulesInChain (generate_chain_names uuid c n).1 = None ∧
  ∀ i s, rule_names c !! i = Some (Some s) → s ≠ ""%string →
         rule_names (generate_chain_names uuid c n).1 !! i = Some (Some s).
Proof.
  intros Hinj Hne Hnd Hfr. rewrite rule_name_checks, rule_names_fill.
  destruct (fill_names_distinct uuid (rule_names c) n Hinj Hnd Hfr) as (ns & He & Hns & Hin).
  split; [split|].
  - by exists ns.
  - rewrite He. intros (s & [= <-] & Hs)%list_elem_of_fmap.
    destruct (Hin _ Hs) as [Hg|(i & _ & E)]; [|by eapply Hne].
    unfold given in Hg. apply list_elem_of_In, filter_In in Hg as [_ Hg]. done.
  - clear. generalize (rule_names c) as names. intros names i s. revert n i.
    induction names as [|o names IH]; intros n [|i] Hi Hs; simpl in *; try done.
    + injection Hi as ->. simpl. by rewrite bool_decide_false.
    + destruct (void_name o); simpl; by apply IH.
Qed.

(** Identifiers for the example: one more letter each time. *)
Definition ex_uuid (n : nat) : string := String.string_of_list_ascii (replicate (S n) "x"%char).

Lemma ex_uuid_length n : String.length (ex_uuid n) = S n.
Proof. unfold ex_uuid. simpl. f_equal. induction n as [|n IH]; simpl; [done|]. by rewrite IH. Qed.

Definition ex_unnamed : Chain :=
  mkChain (Some "c"%string)
    (mkRulesSet None None (Some [mkRouteRule None; mkRouteRule (Some "given"%string); mkRouteRule (Some ""%string)]))
    ChainTypeRoute None (Some ChainHookOutput) None.

Lemma generated_names_valid_witness :
  checkRulesInChain (generate_chain_names ex_uuid ex_unnamed 0).1 = None ∧
  ∀ i s, rule_names ex_unnamed !! i = Some (Some s) → s ≠ ""%string →
         rule_names (generate_chain_names ex_uuid ex_unnamed 0).1 !! i = Some (Some s).
Proof.
  apply (generated_names_valid ex_uuid ex_unnamed 0).
  - intros i j E. apply (f_equal String.length) in E. rewrite !ex_uuid_length in E. lia.
  - intros i E. apply (f_equal String.length) in E. by rewrite ex_uuid_length in E.
  - apply NoDup_singleton.
  - intros i. change (given (rule_names ex_unnamed)) with ["given"%string].
    rewrite list_elem_of_singleton. unfold ex_uuid. simpl. by intros [=].
Defined.
