(* ===== verification/FirewallSem.v ===== *)
(** * FirewallSem: what compiled rules accept

    The expressions a match compiles to, run on a packet, against the reading of
    the same match that conntrack.go uses for tracked flows.  How nftables runs
    match expressions is a class: the contents of register 1 and the packet decide
    whether the rest of a rule is reached. *)

From S2P Require Export FirewallRules Remap.
From Stdlib Require Import Ascii.
Local Open Scope Z_scope.

(** The parts of a packet that match expressions load. *)
Record packet := mkPacket {
  network_header : list Z; transport_header : list Z; l4proto : Z;
  iifname : list Z; oifname : list Z
}.

Definition field (p : packet) (b : PayloadBase) (off len : Z) : list Z :=
  take (Z.to_nat len) (drop (Z.to_nat off)
    (match b with NetworkHeader => network_header p | TransportHeader => transport_header p end)).
Definition meta (p : packet) (k : MetaKey) : list Z :=
  match k with
  | MetaKeyL4PROTO => [l4proto p] | MetaKeyIIFNAME => iifname p | MetaKeyOIFNAME => oifname p
  | MetaKeyMARK => []
  end.

(** Comparisons read as many bytes of the register as they are given. *)
Definition cmp_holds (op : CmpOp) (reg data : list Z) : bool :=
  let a := take (List.length data) reg in
  match op with
  | CmpOpEq => bool_decide (a = data)
  | CmpOpNeq => negb (bool_decide (a = data))
  | CmpOpGte => match bytes_compare a data with Lt => false | _ => true end
  | CmpOpLte => match bytes_compare a data with Gt => false | _ => true end
  end.
Definition range_holds (op : CmpOp) (reg from to : list Z) : bool :=
  let inside := cmp_holds CmpOpGte reg from && cmp_holds CmpOpLte reg to in
  match op with CmpOpNeq => negb inside | _ => inside end.

(** [run reg p es]: with [reg] in register 1, the packet passes every match
    expression of [es]. *)
Class NftMatch := {
  run : list Z → packet → list Expr → bool;
  run_nil reg p : run reg p [] = true;
  run_payload reg p b off len es : run reg p (Payload 1 b off len :: es) = run (field p b off len) p es;
  run_meta reg p k es : run reg p (Meta k false 1 :: es) = run (meta p k) p es;
  run_bitwise reg p len mask xor es : run reg p (Bitwise 1 1 len mask xor :: es)
    = run (zip_with Z.lxor (zip_with Z.land reg mask) xor) p es;
  run_cmp reg p op data es : run reg p (Cmp op 1 data :: es) = cmp_holds op reg data && run reg p es;
  run_range reg p op from to es : run reg p (Range op 1 from to :: es)
    = range_holds op reg from to && run reg p es
}.

(** A register machine that meets the interface. *)
Fixpoint machine (reg : list Z) (p : packet) (es : list Expr) : bool :=
  match es with
  | [] => true
  | Payload 1 b off len :: es => machine (field p b off len) p es
  | Meta k false 1 :: es => machine (meta p k) p es
  | Bitwise 1 1 len mask xor :: es =>
    machine (zip_with Z.lxor (zip_with Z.land reg mask) xor) p es
  | Cmp op 1 data :: es => cmp_holds op reg data && machine reg p es
  | Range op 1 from to :: es => range_holds op reg from to && machine reg p es
  | _ :: es => machine reg p es
  end.
#[export, refine] Instance machine_NftMatch : NftMatch := { run := machine }.
Proof. all: done. Defined.

Section semantics.
Context {NM : NftMatch}.

(** A suffix that does not depend on what register 1 holds. *)
Definition fresh (p : packet) (es : list Expr) : Prop := ∀ reg, run reg p es = run [] p es.

(** A block of expressions that tests exactly [b]. *)
Definition tests (p : packet) (block : list Expr) (b : bool) : Prop :=
  ∀ reg es, fresh p es → run reg p (block ++ es) = b && run [] p es.

Lemma fresh_nil p : fresh p [].
Proof. intros reg. by rewrite !run_nil. Qed.

Lemma tests_nil p : tests p [] true.
Proof. intros reg es H. apply H. Qed.

Lemma tests_app p x y a b : tests p x a → tests p y b → tests p (x ++ y) (a && b).
Proof.
  intros Hx Hy reg es Hes. rewrite <- app_assoc, Hx.
  - by rewrite Hy, andb_assoc by done.
  - intros reg'. by rewrite !Hy by done.
Qed.

Lemma tests_run p es b reg : tests p es b → run reg p es = b.
Proof. intros H. rewrite <- (app_nil_r es), (H reg [] (fresh_nil p)), run_nil. by destruct b. Qed.

Lemma tests_payload_cmp p b off len op data :
  tests p [Payload 1 b off len; Cmp op 1 data] (cmp_holds op (field p b off len) data).
Proof. intros reg es H. cbn [app]. by rewrite run_payload, run_cmp, H. Qed.

Lemma tests_meta_cmp p k op data :
  tests p [Meta k false 1; Cmp op 1 data] (cmp_holds op (meta p k) data).
Proof. intros reg es H. cbn [app]. by rewrite run_meta, run_cmp, H. Qed.

Lemma tests_between p b off len lo hi :
  tests p [Payload 1 b off len; Cmp CmpOpGte 1 lo; Cmp CmpOpLte 1 hi]
    (cmp_holds CmpOpGte (field p b off len) lo && cmp_holds CmpOpLte (field p b off len) hi).
Proof. intros reg es H. cbn [app]. by rewrite run_payload, !run_cmp, H, andb_assoc. Qed.

Lemma tests_masked p b off len mask xor op data :
  tests p [Payload 1 b off len; Bitwise 1 1 len mask xor; Cmp op 1 data]
    (cmp_holds op (zip_with Z.lxor (zip_with Z.land (field p b off len) mask) xor) data).
Proof. intros reg es H. cbn [app]. by rewrite run_payload, run_bitwise, run_cmp, H. Qed.

Lemma tests_range p b off len op lo hi :
  tests p [Payload 1 b off len; Range op 1 lo hi] (range_holds op (field p b off len) lo hi).
Proof. intros reg es H. cbn [app]. by rewrite run_payload, run_range, H. Qed.
End semantics.

(** ** Bytes *)

Lemma bytes_compare_refl l : bytes_compare l l = Eq.
Proof. induction l as [|x l IH]; simpl; [done|]. by rewrite Z.compare_refl. Qed.

(** Big-endian encodings of equal length compare as the numbers do. *)
Lemma bytes_compare_be k a b :
  0 ≤ a < 2 ^ (8 * Z.of_nat k) → 0 ≤ b < 2 ^ (8 * Z.of_nat k) →
  bytes_compare (be_bytes k a) (be_bytes k b) = (a ?= b).
Proof.
  revert a b. induction k as [|k IH]; intros a b Ha Hb.
  { change (2 ^ (8 * Z.of_nat 0)) with 1 in *. by replace a with 0 by lia; replace b with 0 by lia. }
  cbn [be_bytes bytes_compare].
  replace (8 * Z.of_nat (S k)) with (8 * Z.of_nat k + 8) in * by lia.
  rewrite Z.pow_add_r in * by lia. set (P := 2 ^ (8 * Z.of_nat k)) in *.
  assert (HP : 0 < P) by (unfold P; apply Z.pow_pos_nonneg; lia).
  assert (Hsmall : ∀ x, 0 ≤ x < P * 2 ^ 8 → (x / P) mod 256 = x / P).
  { intros x Hx. apply Z.mod_small. split; [apply Z.div_pos; lia|apply Z.div_lt_upper_bound; lia]. }
  rewrite !Hsmall by done.
  assert (Hlow : ∀ x, be_bytes k x = be_bytes k (x mod P)).
  { intros x. rewrite (Z.div_mod x P) at 1 by lia. rewrite Z.add_comm, (Z.mul_comm P).
    by apply (be_bytes_high k k). }
  rewrite (Hlow a), (Hlow b), IH by (unfold P; apply Z.mod_pos_bound; lia). fold P.
  pose proof (Z.div_mod a P ltac:(lia)). pose proof (Z.div_mod b P ltac:(lia)).
  pose proof (Z.mod_pos_bound a P HP). pose proof (Z.mod_pos_bound b P HP).
  destruct (Z.compare_spec (a / P) (b / P)) as [E|E|E].
  - destruct (Z.compare_spec (a mod P) (b mod P)), (Z.compare_spec a b); try done; nia.
  - symmetry. apply Z.compare_lt_iff. nia.
  - symmetry. apply Z.compare_gt_iff. nia.
Qed.

Lemma cmp_be_eq k a b : 0 ≤ a < 2 ^ (8 * Z.of_nat k) → 0 ≤ b < 2 ^ (8 * Z.of_nat k) →
  cmp_holds CmpOpEq (be_bytes k a) (be_bytes k b) = (a =? b).
Proof.
  intros Ha Hb. unfold cmp_holds. rewrite length_be_bytes, firstn_all2 by by rewrite length_be_bytes.
  destruct (Z.eqb_spec a b) as [->|Hne]; [by apply bool_decide_eq_true|].
  apply bool_decide_eq_false. intros E. by apply Hne, (be_bytes_inj k).
Qed.

Lemma cmp_be_between k a lo hi : 0 ≤ a < 2 ^ (8 * Z.of_nat k) →
  0 ≤ lo < 2 ^ (8 * Z.of_nat k) → 0 ≤ hi < 2 ^ (8 * Z.of_nat k) →
  cmp_holds CmpOpGte (be_bytes k a) (be_bytes k lo) && cmp_holds CmpOpLte (be_bytes k a) (be_bytes k hi)
  = (lo <=? a) && (a <=? hi).
Proof.
  intros Ha Hlo Hhi. unfold cmp_holds.
  rewrite !length_be_bytes, !firstn_all2 by by rewrite length_be_bytes.
  rewrite !bytes_compare_be by done.
  destruct (Z.compare_spec a lo), (Z.compare_spec a hi), (Z.leb_spec lo a), (Z.leb_spec a hi);
    simpl; try done; lia.
Qed.

(** ** The two families of parsers agree on IPv4 text *)

(** The character does not occur. *)
Definition lacks (c : ascii) (s : string) : Prop := c ∉ String.list_ascii_of_string s.

Lemma lacks_cons c d s : lacks c (String d s) ↔ c ≠ d ∧ lacks c s.
Proof. unfold lacks. simpl. rewrite not_elem_of_cons. naive_solver. Qed.

Lemma atoi_run_lacks c s acc n : is_digit c = false → atoi_run s acc = Some n → lacks c s.
Proof.
  intros Hc. revert acc. induction s as [|d s IH]; intros acc; cbn [atoi_run].
  - intros _. unfold lacks. simpl. apply not_elem_of_nil.
  - destruct (is_digit d) eqn:Hd; [|done]. intros H. apply lacks_cons. split; [congruence|eauto].
Qed.

Lemma ip4_run_lacks s st st' : ip4_run st s = Some st' → lacks "/"%char s.
Proof.
  revert st. induction s as [|d s IH]; intros st; cbn [ip4_run].
  - intros _. unfold lacks. simpl. apply not_elem_of_nil.
  - intros (st1 & H1 & H2)%bind_Some. apply lacks_cons. split; [|eauto].
    intros <-. by vm_compute in H1.
Qed.

Lemma parse_digits_lacks c s n : is_digit c = false → parse_digits s = Some n → lacks c s.
Proof. intros Hc. unfold parse_digits. destruct s; [done|]. by apply atoi_run_lacks. Qed.

Lemma ParseUint16_inv s n : ParseUint16 s = Some n → parse_digits s = Some n ∧ 0 ≤ n < 2 ^ 16.
Proof.
  unfold ParseUint16. intros (v & Hv & H)%bind_Some. destruct (Z.ltb_spec v (2 ^ 16)); [|done].
  injection H as <-. split; [done|]. split; [|done]. unfold parse_digits in Hv.
  destruct s; [done|]. by eapply atoi_run_nonneg.
Qed.

Lemma split_first_slash_lacks s : lacks "/"%char s → split_first_slash s = None.
Proof.
  induction s as [|d s IH]; [done|]. intros [Hd Hs]%lacks_cons. simpl.
  rewrite bool_decide_false by congruence. by rewrite IH.
Qed.

Lemma split_slashes s a b : split_last_slash s = Some (a, b) → lacks "/"%char a →
  split_first_slash s = Some (a, b).
Proof.
  revert a. induction s as [|d s IH]; intros a; simpl; [done|].
  destruct (split_last_slash s) as [[a' b']|] eqn:E.
  - intros [= <- <-] [Hd Ha]%lacks_cons. rewrite bool_decide_false by congruence.
    by rewrite (IH a').
  - case_bool_decide; [|done]. by intros [= <- <-].
Qed.

Lemma split_last_lacks s : lacks "/"%char s → split_last_slash s = None.
Proof.
  induction s as [|d s IH]; [done|]. intros [Hd Hs]%lacks_cons. simpl.
  rewrite IH by done. by rewrite bool_decide_false by congruence.
Qed.

Lemma Split_lacks c s : lacks c s → Split c s = [s] ∧ split_first c s = None.
Proof.
  induction s as [|d s IH]; [done|]. intros [Hd Hs]%lacks_cons. destruct (IH Hs) as [H1 H2].
  simpl. rewrite !bool_decide_false by congruence. by rewrite H1, H2.
Qed.

Lemma Split_nonempty c s : Split c s ≠ [].
Proof. destruct s; simpl; [done|]. case_bool_decide; [done|]. by destruct (Split c s). Qed.

Lemma Split_one c s x : Split c s = [x] → s = x.
Proof.
  revert x. induction s as [|d s IH]; intros x; simpl; [by intros [= <-]|].
  case_bool_decide; [intros [= _ H']; by destruct (Split_nonempty c s)|].
  destruct (Split c s) as [|y [|z l]] eqn:E; [by destruct (Split_nonempty c s)| |done].
  intros [= <-]. by rewrite (IH y).
Qed.

Lemma Split_two c s a b : Split c s = [a; b] → split_first c s = Some (a, b).
Proof.
  revert a. induction s as [|d s IH]; intros a; simpl; [done|].
  case_bool_decide.
  - intros [= <- H']. by rewrite (Split_one c s b H').
  - destruct (Split c s) as [|y l] eqn:E; [by destruct (Split_nonempty c s)|].
    intros [= <- ->]. by rewrite (IH y).
Qed.

Lemma ParseAddr_4 s a : ParseAddr s = Some a → bitlen a = 32 →
  lacks "/"%char s ∧ zone a = ""%string ∧ 0 ≤ val a < 2 ^ 32.
Proof.
  intros H H4. pose proof (ParseAddr_valid s a H) as Hv. unfold ParseAddr in H.
  assert (Hf : ∃ fs, parseIPv4Fields s = Some fs ∧ a = AddrFrom4 (be_val fs)).
  { revert H. generalize s at 2. intros s'. induction s' as [|c s' IH]; cbn [ParseAddr_sep]; [done|].
    case_bool_decide; [intros (fs & ? & [= <-])%bind_Some; eauto|].
    case_bool_decide; [intros [? ?]%parseIPv6_ok; lia|]. by case_bool_decide. }
  destruct Hf as (fs & Hfs & ->). unfold parseIPv4Fields in Hfs.
  apply bind_Some in Hfs as (st & Hst & _). split; [by eapply ip4_run_lacks|]. split; [done|].
  destruct Hv. by rewrite H4 in *.
Qed.

Lemma To4_As16 a : bitlen a = 32 → To4 (As16 a) = be_bytes 4 (val a).
Proof.
  intros H. unfold As16, Is4, addr_bytes. rewrite H. reflexivity.
Qed.

Lemma single_address v a : ParseAddr v = Some a → bitlen a = 32 →
  ParseCIDR v = None ∧ ParsePrefix v = None ∧ ParseIP v = As16 a ∧ As16 a ≠ [].
Proof.
  intros Hv H4. destruct (ParseAddr_4 v a Hv H4) as (Hs & Hz & _).
  unfold ParseCIDR, ParsePrefix, ParseIP. rewrite split_first_slash_lacks, split_last_lacks, Hv, Hz by done.
  split; [done|]. split; [done|]. split; [done|]. unfold As16, Is4. by rewrite H4.
Qed.

Lemma parse_bits_mask b n : parse_bits b = Some n → parse_mask b = Some n ∧ 0 ≤ n.
Proof.
  unfold parse_bits, parse_mask. destruct b as [|c b]; [done|]. destruct (_ && _); [done|].
  intros H. split; [done|]. by eapply atoi_run_nonneg.
Qed.

Lemma masked_prefix v p : ParsePrefix v = Some p → bitlen (pAddr p) = 32 → Masked p = p →
  wf4 p ∧ ParseCIDR v = Some (net_4 (val (pAddr p)) (pBits p)) ∧
  To4 (ParseCIDR_IP v) = be_bytes 4 (val (pAddr p)).
Proof.
  intros Hv H4 Hm. pose proof (ParsePrefix_valid v p Hv) as [_ Hval Hz Hb]. rewrite H4 in *.
  assert (Hw : wf4 p).
  { split; try done. unfold Masked, Prefix_IsValid in Hm. rewrite (proj2 (Z.leb_le 0 _)) in Hm by lia.
    rewrite <- Hm. cbn [pAddr pBits val]. rewrite H4, Z.shiftl_mul_pow2 by lia.
    apply Z_mod_mult. }
  split; [done|]. unfold ParsePrefix in Hv.
  apply bind_Some in Hv as ((a & b) & Hs & (ip & Hip & Hr)%bind_Some). destruct (Is6 ip && _); [done|].
  apply bind_Some in Hr as (n & Hn & Hr). destruct (Z.leb_spec n (bitlen ip)) as [Hle|]; [|done].
  injection Hr as <-. cbn [PrefixFrom pAddr pBits bitlen val] in *.
  destruct (ParseAddr_4 a ip Hip H4) as (Ha & Hzip & Hvip). destruct (parse_bits_mask b n Hn) as [Hmask Hn0].
  unfold PrefixFrom, Addr_IsValid in *. cbn [pBits pAddr val] in *.
  rewrite H4, (proj2 (Z.leb_le 0 n) Hn0), (proj2 (Z.leb_le n 32)) in * by lia. cbn [negb Z.eqb andb] in *.
  destruct Hw as [_ _ _ _ Hhost]. cbn [pBits pAddr val] in Hhost.
  unfold ParseCIDR, ParseCIDR_IP, ParseIP. rewrite (split_slashes v a b Hs Ha). cbn [mbind option_bind].
  rewrite Hip. cbn [mbind option_bind]. rewrite Hmask, Hzip, H4. cbn [mbind option_bind].
  rewrite (proj2 (Z.ltb_ge 32 n)) by lia. cbn [negb orb]. rewrite bool_decide_true by done. cbn [negb orb].
  split; [|by apply To4_As16].
  rewrite Mask_As16 by (done || lia). unfold net_4. do 3 f_equal.
  pose proof (Z.div_mod (val ip) (2 ^ (32 - n)) ltac:(apply Z.pow_nonzero; lia)). lia.
Qed.

(** ** Packets of a tracked flow *)

(** The packet belongs to the direction of a flow that the tuple describes. *)
Record carries (p : packet) (t : Tuple) : Prop := {
  ca_src : bitlen (SourceAddress t) = 32 ∧ zone (SourceAddress t) = ""%string ∧
           0 ≤ val (SourceAddress t) < 2 ^ 32;
  ca_dst : bitlen (DestinationAddress t) = 32 ∧ zone (DestinationAddress t) = ""%string ∧
           0 ≤ val (DestinationAddress t) < 2 ^ 32;
  ca_ports : 0 ≤ SourcePort t < 2 ^ 16 ∧ 0 ≤ DestinationPort t < 2 ^ 16;
  ca_net_src : field p NetworkHeader 12 4 = be_bytes 4 (val (SourceAddress t));
  ca_net_dst : field p NetworkHeader 16 4 = be_bytes 4 (val (DestinationAddress t));
  ca_tr_src : field p TransportHeader 0 2 = be_bytes 2 (SourcePort t);
  ca_tr_dst : field p TransportHeader 2 2 = be_bytes 2 (DestinationPort t);
  ca_proto : l4proto p = Protocol t
}.

(** The matches both readings are meant for: equality on an IPv4 address or
    network (host bits clear), a port or a range of ports, a protocol. *)
Definition known (pos : MatchPosition) : Prop := pos = MatchPositionSrc ∨ pos = MatchPositionDst.
Definition plain_ip (ip : MatchIP) : Prop :=
  known (mip_position ip) ∧
  ((∃ a, ParseAddr (mip_value ip) = Some a ∧ bitlen a = 32) ∨
   (∃ q, ParsePrefix (mip_value ip) = Some q ∧ bitlen (pAddr q) = 32 ∧ Masked q = q)).
Definition plain_port (port : MatchPort) : Prop :=
  known (mport_position port) ∧
  (is_Some (ParseUint16 (mport_value port)) ∨ is_Some (ParsePortRange (mport_value port))).
Record plain (m : Match) : Prop := {
  pl_op : m_op m = MatchOperationEq;
  pl_dev : m_dev m = None;
  pl_ip ip : m_ip m = Some ip → plain_ip ip;
  pl_port port : m_port m = Some port → plain_port port;
  pl_proto pr : m_proto m = Some pr → pr = L4ProtoTCP ∨ pr = L4ProtoUDP
}.

Section agreement.
Context {NM : NftMatch} (p : packet) (t : Tuple) (HC : carries p t).

(** The address a position selects. *)
Definition selected (pos : MatchPosition) : Addr :=
  match pos with MatchPositionSrc => SourceAddress t | _ => DestinationAddress t end.

Lemma position_field m ip : known (mip_position ip) →
  ∃ off, getMatchIPPositionOffset m ip = Ret (Ok off) ∧
    field p NetworkHeader off 4 = be_bytes 4 (val (selected (mip_position ip))) ∧
    bitlen (selected (mip_position ip)) = 32 ∧ zone (selected (mip_position ip)) = ""%string ∧
    0 ≤ val (selected (mip_position ip)) < 2 ^ 32.
Proof.
  unfold getMatchIPPositionOffset. destruct HC as [(?&?&?) (?&?&?) _ Hs Hd _ _ _].
  intros [->| ->]; simpl; eexists; (split; [done|]); auto.
Qed.

Lemma xor_zeros x : zip_with Z.lxor (be_bytes 4 x) [0; 0; 0; 0] = be_bytes 4 x.
Proof. cbn [be_bytes zip_with]. by rewrite !Z.lxor_0_r. Qed.

(** The masked comparison is containment. *)
Lemma masked_cmp q a : wf4 q → bitlen a = 32 → zone a = ""%string → 0 ≤ val a < 2 ^ 32 →
  cmp_holds CmpOpEq
    (zip_with Z.lxor (zip_with Z.land (be_bytes 4 (val a)) (CIDRMask (pBits q) 32)) [0; 0; 0; 0])
    (be_bytes 4 (val (pAddr q))) = Contains q a.
Proof.
  intros Hq Hl Hz Hv. pose proof Hq as [Hql Hqv _ Hb Hh]. unfold CIDRMask.
  change (Z.to_nat (32 / 8)) with 4%nat. rewrite land_bytes, xor_zeros, land_mask by lia.
  assert (Hp : 0 < 2 ^ (32 - pBits q)) by (apply Z.pow_pos_nonneg; lia).
  pose proof (Z.div_mod (val a) (2 ^ (32 - pBits q)) ltac:(lia)) as Hda.
  pose proof (Z.mod_pos_bound (val a) (2 ^ (32 - pBits q)) Hp).
  pose proof (Z.div_mod (val (pAddr q)) (2 ^ (32 - pBits q)) ltac:(lia)) as Hdq.
  assert (0 ≤ val a / 2 ^ (32 - pBits q)) by (apply Z.div_pos; lia).
  rewrite cmp_be_eq by (change (8 * Z.of_nat 4) with 32; nia).
  apply eq_true_iff_eq. rewrite Z.eqb_eq, Contains_spec by done. unfold net.
  rewrite Hl, Hql, !Z.shiftr_div_pow2 by lia. rewrite Hh, Z.add_0_r in Hdq.
  split; [intros E|intros (_ & _ & ->); lia]. split; [done|]. split; [done|].
  apply (Z.mul_reg_r _ _ (2 ^ (32 - pBits q))); lia.
Qed.

Lemma applyMatchIP_tests m ip : plain_ip ip →
  ∃ es, applyMatchIP m ip CmpOpEq = Ret (Ok es) ∧ tests p es (matchIP t ip).
Proof.
  intros [Hpos Hval]. destruct (position_field m ip Hpos) as (off & Hoff & Hf & Hl & Hz & Hv).
  assert (Hm : ∀ q, match mip_position ip with
    | MatchPositionSrc => Contains q (SourceAddress t)
    | MatchPositionDst => Contains q (DestinationAddress t)
    | MatchPositionOther _ => false end = Contains q (selected (mip_position ip)))
    by (intros q; destruct Hpos as [->| ->]; done).
  unfold applyMatchIP, matchIP, GetIPValueType.
  assert (Hne : mip_value ip ≠ ""%string) by (intros E; rewrite E in Hval; by destruct Hval as [(?&?&_)|(?&?&_)]).
  destruct (mip_value ip) as [|ch rest] eqn:Ev; [done|]. rewrite <- Ev in *. clear Ev ch rest Hne.
  destruct Hval as [(a & Ha & H4)|(q & Hq & H4 & Hmask)].
  - destruct (single_address _ a Ha H4) as (Hc & Hp & Hi & Hn). destruct (ParseAddr_4 _ a Ha H4) as (_ & Hza & Hva).
    rewrite Hc, Hp, Hi, Ha. destruct (As16 a) as [|x l] eqn:Eas; [done|].
    unfold or_fail, applyMatchIPSingleIP. cbn [mbind F_bind mret F_ret option_bind].
    rewrite Hoff, Hi, <- Eas, To4_As16 by done. cbn [F_bind mbind]. eexists. split; [done|].
    rewrite Hm. replace (Contains _ _) with (cmp_holds CmpOpEq (field p NetworkHeader off 4) (be_bytes 4 (val a)));
      [apply tests_payload_cmp|].
    assert (Hw : wf4 (PrefixFrom a (bitlen a))).
    { unfold PrefixFrom, Addr_IsValid. rewrite H4. cbn. apply (wf4_mk (val a) 32); [done|lia|].
      by rewrite Z.sub_diag, Z.mod_1_r. }
    rewrite Hf, cmp_be_eq by (change (8 * Z.of_nat 4) with 32; done).
    apply eq_true_iff_eq. rewrite Z.eqb_eq, Contains_spec by done.
    unfold PrefixFrom, Addr_IsValid, net. rewrite H4, Hl. cbn. rewrite Z.sub_diag, !Z.shiftr_0_r. naive_solver.
  - destruct (masked_prefix _ q Hq H4 Hmask) as (Hw & Hc & Hto). rewrite Hc, Hq.
    unfold or_fail, applyMatchIPPoolSubnet. cbn [mbind F_bind mret F_ret option_bind].
    rewrite Hoff, Hc, Hto. cbn [F_bind mbind or_fail mret F_ret net_4 ipn_Mask]. eexists. split; [done|].
    rewrite Hm, <- (masked_cmp q) by done. rewrite <- Hf. apply tests_masked.
Qed.

Lemma position_port m port : known (mport_position port) →
  ∃ off v, getMatchPortPositionOffset m port = Ret (Ok off) ∧
    field p TransportHeader off 2 = be_bytes 2 v ∧ 0 ≤ v < 2 ^ 16 ∧
    ∀ s e, match mport_position port with
           | MatchPositionSrc => portInRange (SourcePort t) s e
           | MatchPositionDst => portInRange (DestinationPort t) s e
           | MatchPositionOther _ => false end = portInRange v s e.
Proof.
  unfold getMatchPortPositionOffset. destruct HC as [_ _ [? ?] _ _ Hs Hd _].
  intros [->| ->]; simpl.
  - exists 0, (SourcePort t). split; [done|]. split; [exact Hs|]. done.
  - exists 2, (DestinationPort t). split; [done|]. split; [exact Hd|]. done.
Qed.

Lemma Atoi_digits s n : parse_digits s = Some n → 0 ≤ n < 2 ^ 16 → Atoi s = Some n.
Proof.
  intros H Hn. assert (Hr : (if (- 2 ^ 63 <=? n) && (n <? 2 ^ 63) then Some n else None) = Some n).
  { rewrite (proj2 (Z.leb_le _ _)), (proj2 (Z.ltb_lt _ _)) by lia. done. }
  assert (Hd : ∀ c, is_digit c = false → lacks c s) by (intros; by eapply parse_digits_lacks).
  pose proof (Hd "-"%char eq_refl) as H1. pose proof (Hd "+"%char eq_refl) as H2.
  unfold Atoi. destruct s as [|c s]; [done|]. apply lacks_cons in H1 as [H1 _]. apply lacks_cons in H2 as [H2 _].
  transitivity (v ← parse_digits (String c s);
                if (- 2 ^ 63 <=? v) && (v <? 2 ^ 63) then Some v else None); [|by rewrite H].
  destruct c as [[] [] [] [] [] [] [] []]; done.
Qed.

Lemma applyMatchPort_tests m port : plain_port port →
  ∃ es, applyMatchPort m port CmpOpEq = Ret (Ok es) ∧ tests p es (matchPort t port).
Proof.
  intros [Hpos Hval]. destruct (position_port m port Hpos) as (off & v & Hoff & Hf & Hv & Hm).
  unfold applyMatchPort, matchPort, GetPortValueType, parsePortRange.
  destruct Hval as [[n Hn]|[[s e] Hr]].
  - destruct (ParseUint16_inv _ _ Hn) as [Hd Hr].
    destruct (Split_lacks "-"%char (mport_value port)) as [Hs1 Hs2];
      [by apply (parse_digits_lacks _ _ n)|].
    unfold ParsePortRange. rewrite Hs1, Hs2, (Atoi_digits _ n), Hn by done.
    unfold applyMatchPortSinglePort, or_fail. cbn [mbind F_bind mret F_ret option_bind].
    rewrite Hoff, (Atoi_digits _ n) by done. cbn [mbind F_bind mret F_ret option_bind].
    eexists. split; [done|]. rewrite Hm, Z.mod_small by done.
    replace (portInRange v n n) with (cmp_holds CmpOpEq (field p TransportHeader off 2) (be_bytes 2 n));
      [apply tests_payload_cmp|].
    rewrite Hf, cmp_be_eq by (change (8 * Z.of_nat 2) with 16; done). unfold portInRange.
    destruct (Z.eqb_spec v n), (Z.leb_spec n v), (Z.leb_spec v n); simpl; try done; lia.
  - rewrite Hr. unfold applyMatchPortRange, or_fail. cbn [mbind F_bind mret F_ret option_bind].
    rewrite Hoff, Hr. cbn [mbind F_bind mret F_ret option_bind]. eexists. split; [done|].
    unfold ParsePortRange in Hr. destruct (Split "-" (mport_value port)) as [|a [|b [|]]] eqn:Es; try done.
    apply bind_Some in Hr as (s' & Hs & (e' & He & [= <- <-])%bind_Some).
    rewrite (Split_two _ _ _ _ Es), Hs. cbn [mbind option_bind]. rewrite He. cbn [mbind option_bind].
    destruct (ParseUint16_inv _ _ Hs) as [_ Hs']. destruct (ParseUint16_inv _ _ He) as [_ He'].
    replace (match (if e' <? s' then None else Some (s', e')) with Some (s, e) => _ | None => false end)
      with (cmp_holds CmpOpGte (field p TransportHeader off 2) (be_bytes 2 s') &&
            cmp_holds CmpOpLte (field p TransportHeader off 2) (be_bytes 2 e')); [apply tests_between|].
    rewrite Hf, cmp_be_between by (change (8 * Z.of_nat 2) with 16; done).
    destruct (Z.ltb_spec e' s').
    + destruct (Z.leb_spec s' v), (Z.leb_spec v e'); simpl; try done; lia.
    + by rewrite Hm.
Qed.

Lemma applyMatchProto_tests m pr : pr = L4ProtoTCP ∨ pr = L4ProtoUDP →
  ∃ es, applyMatchProto m pr = Ret (Ok es) ∧ tests p es (matchProto t pr).
Proof.
  intros Hpr. unfold applyMatchProto.
  assert (Heq : ∀ n, cmp_holds CmpOpEq (meta p MetaKeyL4PROTO) [n] = (Protocol t =? n)).
  { intros n. cbn. rewrite (ca_proto p t HC). destruct (Z.eqb_spec (Protocol t) n) as [->|Hne].
    - by apply bool_decide_eq_true.
    - apply bool_decide_eq_false. congruence. }
  destruct Hpr as [->| ->]; cbn [getMatchProtoValue mbind F_bind mret F_ret matchProto];
    (eexists; split; [done|]); rewrite <- Heq; apply tests_meta_cmp.
Qed.

(** One match. *)
Lemma applyMatch_tests m : plain m →
  ∃ es, applyMatch m = Ret (Ok es) ∧ tests p es (matchSatisfiesRule m t).
Proof.
  intros [Hop Hdev Hip Hport Hproto].
  assert (H1 : ∃ es, if_some (m_proto m) (applyMatchProto m) = Ret (Ok es) ∧
    tests p es (match m_proto m with Some pr => matchProto t pr | None => true end)).
  { destruct (m_proto m); [by apply applyMatchProto_tests, Hproto|]. eexists. split; [done|apply tests_nil]. }
  assert (H2 : ∃ es, if_some (m_ip m) (fun ip => applyMatchIP m ip CmpOpEq) = Ret (Ok es) ∧
    tests p es (match m_ip m with Some ip => matchIP t ip | None => true end)).
  { destruct (m_ip m); [by apply applyMatchIP_tests, Hip|]. eexists. split; [done|apply tests_nil]. }
  assert (H3 : ∃ es, if_some (m_port m) (fun pt => applyMatchPort m pt CmpOpEq) = Ret (Ok es) ∧
    tests p es (match m_port m with Some pt => matchPort t pt | None => true end)).
  { destruct (m_port m); [by apply applyMatchPort_tests, Hport|]. eexists. split; [done|apply tests_nil]. }
  destruct H1 as (e1 & E1 & T1), H2 as (e2 & E2 & T2), H3 as (e3 & E3 & T3).
  unfold applyMatch, getMatchCmpOp, matchSatisfiesRule. rewrite Hop, Hdev.
  cbn [mbind F_bind mret F_ret]. rewrite E1, E2, E3. cbn [mbind F_bind mret F_ret if_some].
  eexists. split; [done|]. rewrite bool_decide_false by done.
  replace (_ && _ && _) with (match m_proto m with Some pr => matchProto t pr | None => true end
    && (true && (match m_ip m with Some ip => matchIP t ip | None => true end
    && match m_port m with Some pt => matchPort t pt | None => true end))).
  2: { by rewrite andb_true_l, andb_comm. }
  apply tests_app; [done|]. apply (tests_app p []); [apply tests_nil|]. by apply tests_app.
Qed.

Lemma applyMatches_tests ms : Forall plain ms →
  ∃ es, applyMatches ms = Ret (Ok es) ∧ tests p es (forallb (fun m => matchSatisfiesRule m t) ms).
Proof.
  induction 1 as [|m ms Hm _ (es & E & T)]; cbn [applyMatches forallb].
  { eexists. split; [done|apply tests_nil]. }
  destruct (applyMatch_tests m Hm) as (e & Ee & Te). rewrite Ee, E. cbn [mbind F_bind mret F_ret].
  eexists. split; [done|]. by apply tests_app.
Qed.
End agreement.
