(* ===== verification/FirewallProps.v ===== *)
(** * FirewallProps: properties of compiled rules, of their comparison, and of
      the eviction of tracked flows *)

From S2P Require Export FirewallSem FirewallWebhook.
Local Open Scope Z_scope.

(** ** The comparison of expressions *)

Section comparison.
Context (Marshal : Expr → option (list Z)) (HM : ∀ e, is_Some (Marshal e)).

Lemma find_equal_elem e new : e ∈ new → ∃ b, Marshal e = Some b ∧ find_equal Marshal b new = Some true.
Proof.
  intros Hin. destruct (HM e) as [b Hb]. exists b. split; [done|].
  induction new as [|x new IH]; [by apply not_elem_of_nil in Hin|]. simpl.
  destruct (HM x) as [bx Hx]. rewrite Hx. simpl. case_bool_decide as E; [done|].
  apply elem_of_cons in Hin as [->|Hin]; [congruence|by apply IH].
Qed.

Lemma all_found_subset current new : (∀ e, e ∈ current → e ∈ new) → all_found Marshal current new = true.
Proof.
  induction current as [|e current IH]; intros H; simpl; [done|].
  destruct (find_equal_elem e new) as (b & -> & Hf); [apply H; left|]. simpl. rewrite Hf.
  apply IH. intros x Hx. apply H. by right.
Qed.

Lemma compare_permutation current new :
  filterUnstableExprs current ≡ₚ filterUnstableExprs new →
  compareRuleExpressions Marshal current new = true.
Proof.
  intros HP. unfold compareRuleExpressions.
  rewrite (Permutation_length HP), Nat.eqb_refl. simpl.
  apply all_found_subset. intros e. by rewrite HP.
Qed.
End comparison.

(** ** Concrete rules *)

Definition ex_ip (v : string) (pos : MatchPosition) : Match :=
  mkMatch MatchOperationEq (Some (mkMatchIP v pos)) None None None.
Definition ex_drop (src dst : string) : FilterRule :=
  mkFilterRule (Some "r"%string) false
    [ex_ip src MatchPositionSrc; ex_ip dst MatchPositionDst] ActionDrop None.
(** An IPv4 packet from 10.0.0.1, port 80, to 10.0.0.2, port 443, over TCP. *)
Definition ex_packet : packet :=
  mkPacket (replicate 12 0 ++ [10; 0; 0; 1] ++ [10; 0; 0; 2]) [0; 80; 1; 187] 6 [] [].
Definition ex_tuple : Tuple :=
  mkTuple (AddrFrom4 (10 * 2 ^ 24 + 1)) (AddrFrom4 (10 * 2 ^ 24 + 2)) 6 80 443.
Definition ex_matches : list Match :=
  [mkMatch MatchOperationEq (Some (mkMatchIP "10.0.0.0/24" MatchPositionSrc))
     (Some (mkMatchPort "400-500" MatchPositionDst)) (Some L4ProtoTCP) None].

Lemma ex_carries : carries ex_packet ex_tuple.
Proof. split; vm_compute; intuition congruence. Qed.

Lemma ex_plain : Forall plain ex_matches.
Proof.
  apply Forall_cons_2; [|apply Forall_nil_2]. split; cbn [m_op m_dev m_ip m_port m_proto].
  - done.
  - done.
  - intros ip [= <-]. split; [by left|]. right. eexists. split; [vm_compute; reflexivity|].
    split; vm_compute; reflexivity.
  - intros port [= <-]. split; [by right|]. right. eexists. vm_compute. reflexivity.
  - intros pr [= <-]. by left.
Qed.

(** ** Properties *)

(** C10: the kernel and conntrack read a rule alike.  For matches that ask for
    equality with an IPv4 address or network, a port or a range, and a protocol,
    compilation succeeds, and a packet passes the compiled expressions exactly
    when the rule matches the conntrack tuple the packet belongs to: flows are
    evicted for a notrack rule when, and only when, the kernel would no longer
    track their packets. *)
Theorem conntrack_agrees {NM : NftMatch} (p : packet) (t : Tuple) (r : FilterRule) :
  carries p t → Forall plain (fr_match r) →
  ∃ es, applyMatches (fr_match r) = Ret (Ok es) ∧ ∀ reg, run reg p es = tupleMatchesRule t r.
Proof.
  intros HC Hp. destruct (applyMatches_tests p t HC _ Hp) as (es & He & Ht).
  exists es. split; [done|]. intros reg. by apply tests_run.
Qed.

Lemma conntrack_agrees_witness :
  (∃ es, applyMatches ex_matches = Ret (Ok es) ∧
     ∀ reg, run reg ex_packet es
            = tupleMatchesRule ex_tuple (mkFilterRule None false ex_matches ActionNotrack None)) ∧
  tupleMatchesRule ex_tuple (mkFilterRule None false ex_matches ActionNotrack None) = true.
Proof.
  split; [|vm_compute; reflexivity].
  apply (conntrack_agrees ex_packet ex_tuple (mkFilterRule None false ex_matches ActionNotrack None)).
  - exact ex_carries.
  - exact ex_plain.
Defined.

(** A rule read back from the kernel is recognised.  If every expression can be
    encoded, a rule whose stable expressions are those of the forged one, in any
    order and whatever its counters, compares equal: an applied rule is not
    deleted and created again. *)
Theorem applied_rule_recognised (PutUint32 : Z → list Z) (Marshal : Expr → option (list Z))
    (r : FilterRule) (new current : nftRule) :
  (∀ e, is_Some (Marshal e)) → forgeFilterRule PutUint32 r = Ret (Ok new) →
  filterUnstableExprs (nft_exprs current) ≡ₚ filterUnstableExprs (nft_exprs new) →
  FilterRule_Equal PutUint32 Marshal r current = Ret true.
Proof.
  intros HM Hf HP. unfold FilterRule_Equal. rewrite Hf. by rewrite compare_permutation.
Qed.

Lemma applied_rule_recognised_witness :
  ∃ new, forgeFilterRule (be_bytes 4) (ex_drop "10.0.0.1" "10.0.0.2") = Ret (Ok new) ∧
    FilterRule_Equal (be_bytes 4) (fun e => Some (match e with Cmp _ _ d => d | _ => [] end))
      (ex_drop "10.0.0.1" "10.0.0.2") (mkNftRule (Some "r"%string) (Counter 7 9 :: nft_exprs new))
    = Ret true.
Proof.
  eexists. split; [vm_compute; reflexivity|].
  refine (applied_rule_recognised (be_bytes 4) _ (ex_drop "10.0.0.1" "10.0.0.2") _ _ _ _ _).
  - intros e. by eexists.
  - vm_compute. reflexivity.
  - vm_compute. reflexivity.
Defined.

(** Exchanging source and destination goes unnoticed.  The comparison ignores
    the order of expressions, so the rule that drops packets from 10.0.0.2 to
    10.0.0.1 is taken to be already in place when the kernel holds the rule that
    drops packets from 10.0.0.1 to 10.0.0.2, although the two accept different
    packets. *)
Theorem swapped_addresses_unnoticed (Marshal : Expr → option (list Z)) :
  ∃ old new,
    forgeFilterRule (be_bytes 4) (ex_drop "10.0.0.1" "10.0.0.2") = Ret (Ok old) ∧
    forgeFilterRule (be_bytes 4) (ex_drop "10.0.0.2" "10.0.0.1") = Ret (Ok new) ∧
    ((∀ e, is_Some (Marshal e)) →
     FilterRule_Equal (be_bytes 4) Marshal (ex_drop "10.0.0.2" "10.0.0.1") old = Ret true) ∧
    machine [] ex_packet (nft_exprs old) = true ∧ machine [] ex_packet (nft_exprs new) = false.
Proof.
  eexists _, _. split; [vm_compute; reflexivity|]. split; [vm_compute; reflexivity|].
  split; [|split; vm_compute; reflexivity].
  intros HM. unfold FilterRule_Equal.
  replace (forgeFilterRule (be_bytes 4) (ex_drop "10.0.0.2" "10.0.0.1")) with
    (Ret (@Ok forge_error _ (mkNftRule (Some "r"%string)
      [Payload 1 NetworkHeader 12 4; Cmp CmpOpEq 1 [10; 0; 0; 2];
       Payload 1 NetworkHeader 16 4; Cmp CmpOpEq 1 [10; 0; 0; 1]; Verdict VerdictDrop])))
    by (vm_compute; reflexivity).
  f_equal. apply compare_permutation; [done|]. cbn.
  apply perm_skip. etrans; [apply perm_swap|]. etrans; [apply perm_skip, perm_swap|]. apply perm_swap.
Qed.

(** A negated match on a range of ports or on a protocol is not negated.  A
    match with the operation "neq" that names no address and no device, and whose
    port, if any, is a range, compiles to the expressions of the same match with
    the operation "eq". *)
Theorem negation_dropped (m : Match) :
  m_ip m = None → m_dev m = None →
  (∀ port, m_port m = Some port → is_Some (ParsePortRange (mport_value port))) →
  m_op m = MatchOperationNeq →
  applyMatch m = applyMatch (mkMatch MatchOperationEq None (m_port m) (m_proto m) None).
Proof.
  intros Hip Hdev Hport Hop. unfold applyMatch, getMatchCmpOp. rewrite Hip, Hdev, Hop.
  cbn [m_op m_ip m_dev m_port m_proto mbind F_bind mret F_ret if_some].
  assert (Hproto : ∀ pr, applyMatchProto m pr
    = applyMatchProto (mkMatch MatchOperationEq None (m_port m) (m_proto m) None) pr).
  { intros pr. unfold applyMatchProto, getMatchProtoValue, bad_position. by rewrite Hdev. }
  assert (Hp : ∀ port, m_port m = Some port → applyMatchPort m port CmpOpNeq
    = applyMatchPort (mkMatch MatchOperationEq None (m_port m) (m_proto m) None) port CmpOpEq).
  { intros port Hm. destruct (Hport port Hm) as [x Hx].
    unfold applyMatchPort, GetPortValueType, applyMatchPortRange, getMatchPortPositionOffset, bad_position.
    rewrite Hx, Hdev. done. }
  destruct (m_proto m) as [pr|] eqn:Hpr; cbn [if_some]; rewrite ?Hproto;
    destruct (m_port m) as [port|]; cbn [if_some]; rewrite ?(Hp port eq_refl); done.
Qed.

Lemma negation_dropped_witness :
  applyMatch (mkMatch MatchOperationNeq None (Some (mkMatchPort "80-90" MatchPositionDst)) None None)
  = applyMatch (mkMatch MatchOperationEq None (Some (mkMatchPort "80-90" MatchPositionDst)) None None).
Proof.
  apply (negation_dropped
    (mkMatch MatchOperationNeq None (Some (mkMatchPort "80-90" MatchPositionDst)) None None)); try done.
  intros port [= <-]. eexists. vm_compute. reflexivity.
Defined.

(** A network written with host bits matches nothing.  The compiled comparison
    is with the address before the slash, not with the network: no packet passes a
    match on 10.0.0.5/24, while the conntrack reading of the same match contains
    10.0.0.7. *)
Theorem host_bits_match_nothing {NM : NftMatch} :
  ∃ es, applyMatch (ex_ip "10.0.0.5/24" MatchPositionSrc) = Ret (Ok es) ∧
    (∀ reg p, run reg p es = false) ∧
    matchSatisfiesRule (ex_ip "10.0.0.5/24" MatchPositionSrc)
      (mkTuple (AddrFrom4 (10 * 2 ^ 24 + 7)) (AddrFrom4 0) 6 0 0) = true.
Proof.
  eexists. split; [vm_compute; reflexivity|]. split; [|vm_compute; reflexivity].
  intros reg p. rewrite run_payload, run_bitwise, run_cmp.
  generalize (field p NetworkHeader 12 4) as l. intros l.
  replace (cmp_holds _ _ _) with false; [done|]. symmetry. unfold cmp_holds.
  apply bool_decide_eq_false. cbn [List.length].
  destruct l as [|a [|b [|c [|d l]]]]; cbn; try done.
  rewrite !Z.lxor_0_r, (Z.land_0_r d). by intros [= ? ? ? ?].
Qed.

(** The eviction of flows is exact.  When it ends without error, the flows
    deleted are, in order, exactly the dumped ones that some notrack rule of the
    table matches in either direction. *)
Theorem eviction_exact (Delete : Flow → bool) (cancelled : nat → bool) (flows : list Flow) (t : Table)
    (deleted : list Flow) :
  flushConntrackForNotrackRules Delete cancelled true (Some flows) t = (true, deleted) →
  deleted = List.filter (fun f => flowMatchesNotrackRules f (notrackRules t)) flows ∧
  Forall (fun f => Delete f = true) deleted.
Proof.
  unfold flushConntrackForNotrackRules. simpl.
  assert (Hloop : ∀ rules i, flush_loop Delete cancelled rules flows i = (true, deleted) →
    deleted = List.filter (fun f => flowMatchesNotrackRules f rules) flows ∧
    Forall (fun f => Delete f = true) deleted).
  { intros rules. revert deleted. induction flows as [|f fs IH]; intros deleted i; simpl.
    { intros [= <-]. by split. }
    destruct (cancelled i); [done|]. destruct (flowMatchesNotrackRules f rules); simpl; [|by apply IH].
    destruct (Delete f) eqn:Hd; [|done].
    destruct (flush_loop Delete cancelled rules fs (S i)) as [ok ds] eqn:E. intros [= -> <-].
    destruct (IH _ _ E) as [<- Hall]. by split; [|constructor]. }
  destruct (notrackRules t) as [|r rules]; [|by apply Hloop].
  intros [= <-]. split; [|constructor]. clear. induction flows; simpl; done.
Qed.

Definition ex_notrack_table : Table :=
  mkTable (Some "t"%string)
    [mkChain (Some "c"%string)
       (mkRulesSet None (Some [mkFilterRule (Some "r"%string) false ex_matches ActionNotrack None]) None)
       ChainTypeFilter None (Some ChainHookPrerouting) None] (Some TableFamilyIPv4).

Lemma eviction_exact_witness :
  let other := mkTuple (AddrFrom4 0) (AddrFrom4 0) 17 1 1 in
  let flows := [mkFlow ex_tuple ex_tuple; mkFlow other other] in
  [mkFlow ex_tuple ex_tuple]
  = List.filter (fun f => flowMatchesNotrackRules f (notrackRules ex_notrack_table)) flows ∧
  Forall (fun f => (fun _ : Flow => true) f = true) [mkFlow ex_tuple ex_tuple].
Proof.
  intros other flows.
  apply (eviction_exact (fun _ => true) (fun _ => false) flows ex_notrack_table [mkFlow ex_tuple ex_tuple]).
  vm_compute. reflexivity.
Defined.
