(* ===== verification/FirewallReconcile.v ===== *)
(** * FirewallReconcile: applying a configuration to nftables (src/pkg/firewall)

    The reconciler compares the chains and rules in the kernel with the wanted
    ones, queues the deletion of what is outdated, flushes, queues what is missing
    and flushes again ([table.go], [chain.go], [rule.go],
    [firewallconfiguration_controller.go]).  The netlink connection is an
    interface: a type of kernels with the two listings the code uses and the
    effect of a batch, described on a view of the kernel as tables of chains of
    rules.  Messages stay queued in the connection until a flush, also when a
    reconciliation ends with an error before it. *)

From S2P Require Export FirewallProps.
Local Open Scope Z_scope.

(** ** The connection *)

(** The attributes of a base chain, and a rule with its handle. *)
Record chainAttrs := mkAttrs {
  ca_type : ChainType; ca_hook : option Z; ca_priority : option Z; ca_policy : option ChainPolicy
}.
Record krule := mkKrule { kr_handle : Z; kr_rule : nftRule }.
Record kchain := mkKchain { kc_attrs : chainAttrs; kc_rules : list krule }.

(** A table is identified by its family and its name. *)
Notation kview := (gmap (Z * string) (gmap string kchain)).

Inductive nft_op :=
| OpAddTable (family : Z) (table : string)
| OpDelTable (family : Z) (table : string)
| OpAddChain (family : Z) (table chain : string) (attrs : chainAttrs)
| OpDelChain (family : Z) (table chain : string)
| OpAddRule (family : Z) (table chain : string) (rule : nftRule)
| OpDelRule (family : Z) (table chain : string) (handle : Z).

Definition on_chain (t : Z * string) (chain : string) (f : kchain → kchain) (v : kview) : kview :=
  alter (alter f chain) t v.

(** The attributes the kernel keeps for a new chain: those of the message, where it
    gives them; the hook goes with the priority. *)
Definition attrs_stored (asked kept : chainAttrs) : Prop :=
  (ca_type asked ≠ ChainTypeOther "" → ca_type kept = ca_type asked) ∧
  (is_Some (ca_hook asked) → is_Some (ca_priority asked) →
   ca_hook kept = ca_hook asked ∧ ca_priority kept = ca_priority asked) ∧
  (is_Some (ca_policy asked) → ca_policy kept = ca_policy asked).

(** What a message does to the kernel.  An existing table or chain is kept; a
    deleted chain takes its rules along; a rule is appended under a handle that is
    not in use in its chain; the unspecified family stands for all families. *)
Inductive op_effect : nft_op → kview → kview → Prop :=
| eff_add_table f t v : op_effect (OpAddTable f t) v (<[(f, t) := default ∅ (v !! (f, t))]> v)
| eff_del_table f t v :
    op_effect (OpDelTable f t) v
      (filter (fun e => ¬ (snd (fst e) = t ∧ (f = 0 ∨ f = fst (fst e)))) v)
| eff_add_chain f t c a a' v : attrs_stored a a' →
    op_effect (OpAddChain f t c a) v
      (alter (fun m => <[c := default (mkKchain a' []) (m !! c)]> m) (f, t) v)
| eff_del_chain f t c v : op_effect (OpDelChain f t c) v (alter (delete c) (f, t) v)
| eff_add_rule f t c r h v :
    (∀ m k x, v !! (f, t) = Some m → m !! c = Some k → x ∈ kc_rules k → kr_handle x ≠ h) →
    op_effect (OpAddRule f t c r) v
      (on_chain (f, t) c (fun k => mkKchain (kc_attrs k) (kc_rules k ++ [mkKrule h r])) v)
| eff_del_rule f t c h v :
    op_effect (OpDelRule f t c h) v
      (on_chain (f, t) c (fun k => mkKchain (kc_attrs k)
         (List.filter (fun x => negb (kr_handle x =? h)) (kc_rules k))) v).

Inductive batch_effect : list nft_op → kview → kview → Prop :=
| batch_nil v : batch_effect [] v v
| batch_cons o ops v v1 v2 : op_effect o v v1 → batch_effect ops v1 v2 → batch_effect (o :: ops) v v2.

(** The chain of a table, if it is there. *)
Definition chain_at (v : kview) (t : Z * string) (chain : string) : option kchain :=
  m ← v !! t; m !! chain.

(** A rule as the kernel gives it back: same handle, same comment, and the same
    stable expressions. *)
Definition readback (stored given : krule) : Prop :=
  kr_handle given = kr_handle stored ∧
  nft_comment (kr_rule given) = nft_comment (kr_rule stored) ∧
  filterUnstableExprs (nft_exprs (kr_rule given)) = filterUnstableExprs (nft_exprs (kr_rule stored)).

Class NftConn := {
  kernel : Type;
  view : kernel → kview;
  (** [ListChainsOfTableFamily]: table, chain and attributes; family 0 lists all. *)
  ListChains : kernel → Z → option (list (string * string * chainAttrs));
  GetRules : kernel → Z → string → string → option (list krule);
  Flush : kernel → list nft_op → option kernel;
  ListChains_spec k f l t c a : f ≠ 0 → ListChains k f = Some l →
    (t, c, a) ∈ l ↔ ∃ kc, chain_at (view k) (f, t) c = Some kc ∧ kc_attrs kc = a;
  GetRules_spec k f t c l : f ≠ 0 → GetRules k f t c = Some l →
    Forall2 readback (default [] (kc_rules <$> chain_at (view k) (f, t) c)) l;
  Flush_spec k ops k' : Flush k ops = Some k' → batch_effect ops (view k) (view k')
}.

(** ** The code *)

(** A rule of the API, behind the interface [Rule]. *)
Inductive apiRule := FilterR (r : FilterRule) | NatR (r : NatRule) | RouteR (r : RouteRule).

Definition GetName (r : apiRule) : option string :=
  match r with FilterR r => fr_name r | NatR r => nr_name r | RouteR r => rr_name r end.

Definition FromChainToRulesArray (c : Chain) : list apiRule :=
  match ch_type c with
  | ChainTypeFilter => FilterR <$> default [] (FilterRules (ch_rules c))
  | ChainTypeNAT => NatR <$> default [] (NatRules (ch_rules c))
  | ChainTypeRoute => RouteR <$> default [] (RouteRules (ch_rules c))
  | ChainTypeOther _ => []
  end.

Section reconcile.
Context {NC : NftConn}.
(** Constants of the nftables package and of the host. *)
Context (hooknum : ChainHook → Z) (familynum : TableFamily → Z) (PutUint32 : Z → list Z).
Context (Marshal : Expr → option (list Z)).

Definition Equal (r : apiRule) (family : Z) (current : nftRule) : outcome bool :=
  match r with
  | FilterR r => FilterRule_Equal PutUint32 Marshal r current
  | NatR r => NatRule_Equal Marshal r family current
  | RouteR _ => Ret true
  end.
(** [Add] queues the forged rule; route rules are not implemented. *)
Definition Forge (r : apiRule) (family : Z) : F (option nftRule) :=
  match r with
  | FilterR r => x ← forgeFilterRule PutUint32 r; mret (Some x)
  | NatR r => x ← forgeNatRule r family; mret (Some x)
  | RouteR _ => mret None
  end.

(** [getTableFamily] and [setTableFamily]. *)
Definition getTableFamily (f : TableFamily) : Z :=
  match f with TableFamilyOther _ => 0 | _ => familynum f end.

Definition setHooknum (h : ChainHook) : option Z :=
  match h with ChainHookOther _ => None | _ => Some (hooknum h) end.
(** The first constant equal to the number. *)
Definition getHooknum (n : Z) : ChainHook :=
  if n =? hooknum ChainHookPrerouting then ChainHookPrerouting
  else if n =? hooknum ChainHookInput then ChainHookInput
  else if n =? hooknum ChainHookForward then ChainHookForward
  else if n =? hooknum ChainHookOutput then ChainHookOutput
  else if n =? hooknum ChainHookPostrouting then ChainHookPostrouting
  else if n =? hooknum ChainHookIngress then ChainHookIngress
  else ChainHookOther "".
Definition known_type (t : ChainType) : ChainType :=
  match t with ChainTypeOther _ => ChainTypeOther "" | t => t end.
Definition known_policy (p : ChainPolicy) : option ChainPolicy :=
  match p with ChainPolicyOther _ => None | p => Some p end.

(** [isChainModified]; the kernel's hook, priority and policy are dereferenced. *)
Definition isChainModified (a : chainAttrs) (c : Chain) : outcome bool :=
  if negb (bool_decide (ch_type c = ChainTypeOther "")) && negb (bool_decide (ch_type c = known_type (ca_type a)))
  then Ret true
  else
    b ← match ch_hook c with
        | None => Ret false
        | Some h => match ca_hook a with
                    | None => Panic
                    | Some n => Ret (negb (bool_decide (h = getHooknum n)))
                    end
        end;
    if (b : bool) then Ret true
    else
      b ← match ch_priority c with
          | None => Ret false
          | Some p => match ca_priority a with
                      | None => Panic
                      | Some q => Ret (negb (p =? q))
                      end
          end;
      if (b : bool) then Ret true
      else match ch_policy c with
           | None => Ret false
           | Some p => match ca_policy a with
                       | None => Panic
                       | Some q => Ret (negb (bool_decide (p = default (ChainPolicyOther "") (known_policy q))))
                       end
           end.

(** The chain of the configuration the kernel chain corresponds to, unless it is
    outdated. *)
Fixpoint isChainOutdated (name : string) (a : chainAttrs) (chains : list Chain) : outcome (option Chain) :=
  match chains with
  | [] => Ret None
  | c :: chains =>
    if bool_decide (ch_name c = Some name)
    then m ← isChainModified a c; Ret (if (m : bool) then None else Some c)
    else isChainOutdated name a chains
  end.

Fixpoint rule_outdated (name : string) (family : Z) (current : nftRule) (rules : list apiRule) :
    outcome bool :=
  match rules with
  | [] => Ret true
  | r :: rules =>
    if bool_decide (GetName r = Some name) then e ← Equal r family current; Ret (negb e)
    else rule_outdated name family current rules
  end.
Definition isRuleOutdated (family : Z) (current : nftRule) (rules : list apiRule) : outcome bool :=
  match nft_comment current with
  | None => Ret true
  | Some name => rule_outdated name family current rules
  end.

(** The results of the operations that queue messages: the messages and whether
    the call returned without error. *)
Definition Q : Type := outcome (bool * list nft_op).

Fixpoint clean_rules (f : Z) (t c : string) (rules : list apiRule) (nftRules : list krule) : Q :=
  match nftRules with
  | [] => Ret (true, [])
  | x :: xs =>
    o ← isRuleOutdated f (kr_rule x) rules;
    '(ok, ops) ← clean_rules f t c rules xs;
    Ret (ok, if (o : bool) then OpDelRule f t c (kr_handle x) :: ops else ops)
  end.
Definition cleanChain (k : kernel) (f : Z) (t : string) (chain : Chain) (name : string) : Q :=
  match GetRules k f t name with
  | None => Ret (false, [])
  | Some rs => clean_rules f t name (FromChainToRulesArray chain) rs
  end.

Fixpoint clean_chains (k : kernel) (f : Z) (t : string) (chains : list Chain)
    (l : list (string * string * chainAttrs)) : Q :=
  match l with
  | [] => Ret (true, [])
  | (t', name, a) :: l =>
    if negb (bool_decide (t' = t)) then clean_chains k f t chains l
    else
      o ← isChainOutdated name a chains;
      '(ok, ops) ← match o with
                   | None => Ret (true, [OpDelChain f t name])
                   | Some chain => cleanChain k f t chain name
                   end;
      if negb (ok : bool) then Ret (false, ops)
      else '(ok, ops') ← clean_chains k f t chains l; Ret (ok, ops ++ ops')
  end.
(** [*table.Family] and [*table.Name] are dereferenced. *)
Definition cleanTable (k : kernel) (tb : Table) : Q :=
  match tb_family tb with
  | None => Panic
  | Some fam =>
    match ListChains k (getTableFamily fam) with
    | None => Ret (false, [])
    | Some l => match l, tb_name tb with
                | [], _ => Ret (true, [])
                | _, None => Panic
                | _, Some name => clean_chains k (getTableFamily fam) name (tb_chains tb) l
                end
    end
  end.

Definition existRule (nftrules : list krule) (r : apiRule) : bool :=
  existsb (fun x => match nft_comment (kr_rule x), GetName r with
                    | Some n, Some n' => bool_decide (n' = n)
                    | _, _ => false
                    end) nftrules.
Definition isNotrackRule (r : apiRule) : bool :=
  match r with FilterR r => bool_decide (fr_action r = ActionNotrack) | _ => false end.

(** [addRules]: besides, whether a notrack rule was queued. *)
Fixpoint add_rules (f : Z) (t c : string) (nftrules : list krule) (rules : list apiRule) :
    outcome (bool * list nft_op * bool) :=
  match rules with
  | [] => Ret (true, [], false)
  | r :: rules =>
    if existRule nftrules r then add_rules f t c nftrules rules
    else
      match Forge r f with
      | Panic => Panic
      | Diverge => Diverge
      | Ret (Err _) => Ret (false, [], false)
      | Ret (Ok new) =>
        '(ok, ops, notrack) ← add_rules f t c nftrules rules;
        Ret (ok, match new with Some x => OpAddRule f t c x :: ops | None => ops end,
             isNotrackRule r || notrack)
      end
  end.

Definition chain_attrs (c : Chain) (h : ChainHook) : chainAttrs :=
  mkAttrs (known_type (ch_type c)) (setHooknum h) (ch_priority c) (ch_policy c ≫= known_policy).

(** [getChain]: the first chain of that name in the table; [*chain.Name] is
    dereferenced once the table has a chain. *)
Fixpoint getChain (t : string) (name : option string) (l : list (string * string * chainAttrs)) :
    outcome bool :=
  match l with
  | [] => Ret false
  | (t', n, _) :: l =>
    if negb (bool_decide (t' = t)) then getChain t name l
    else match name with
         | None => Panic
         | Some name' => if bool_decide (n = name') then Ret true else getChain t name l
         end
  end.

(** [addChain] and [addRules] for one chain; a chain without a name gets the
    empty one. *)
Definition add_chain (k : kernel) (f : Z) (t : string) (c : Chain) : outcome (bool * list nft_op * bool) :=
  match ListChains k f with
  | None => Ret (false, [], false)
  | Some l =>
    present ← getChain t (ch_name c) l;
    let name := default ""%string (ch_name c) in
    ops ← (if (present : bool) then Ret []
           else match ch_hook c with
                | None => Panic
                | Some h => Ret [OpAddChain f t name (chain_attrs c h)]
                end);
    match GetRules k f t name with
    | None => Ret (false, ops, false)
    | Some rs => '(ok, ops', notrack) ← add_rules f t name rs (FromChainToRulesArray c);
                 Ret (ok, ops ++ ops', notrack)
    end
  end.

Fixpoint addChains (k : kernel) (f : Z) (t : string) (chains : list Chain) :
    outcome (bool * list nft_op * bool) :=
  match chains with
  | [] => Ret (true, [], false)
  | c :: chains =>
    '(ok, ops, n) ← add_chain k f t c;
    if negb (ok : bool) then Ret (false, ops, false)
    else '(ok, ops', n') ← addChains k f t chains;
         Ret (ok, ops ++ ops', if (ok : bool) then n || n' else false)
  end.

(** The connection of the reconciler: the kernel and the messages queued. *)
Record conn := mkConn { cn_kernel : kernel; cn_queue : list nft_op }.

Definition flush (c : conn) : bool * conn :=
  match Flush (cn_kernel c) (cn_queue c) with
  | Some k => (true, mkConn k [])
  | None => (false, mkConn (cn_kernel c) [])
  end.

(** The part of [Reconcile] that applies a table, up to the eviction of flows:
    whether it succeeded, whether a notrack rule was added, the connection. *)
Definition apply_table (c : conn) (tb : Table) : outcome (bool * bool * conn) :=
  '(ok, ops) ← cleanTable (cn_kernel c) tb;
  let c := mkConn (cn_kernel c) (cn_queue c ++ ops) in
  if negb (ok : bool) then Ret (false, false, c)
  else
    let '(ok, c) := flush c in
    if negb ok then Ret (false, false, c)
    else
      match tb_name tb, tb_family tb with
      | Some name, Some fam =>
        let f := getTableFamily fam in
        '(ok, ops, notrack) ← addChains (cn_kernel c) f name (tb_chains tb);
        let c := mkConn (cn_kernel c) (cn_queue c ++ OpAddTable f name :: ops) in
        if negb (ok : bool) then Ret (false, false, c)
        else let '(ok, c) := flush c in Ret (ok, notrack, c)
      | _, _ => Panic
      end.

(** [Reconcile]: the answer to the client's [Get] with the deletion mark and the
    finalizer, whether an update of the resource succeeds, and the eviction of
    flows.  The result: success, the finalizer afterwards, the connection. *)
Inductive fw_get := GetNotFound | GetFailed | GetOk (tb : Table) (deleting finalizer : bool).

Definition Reconcile (enableFinalizer updates_ok evict_ok : bool) (got : fw_get) (c : conn) :
    outcome (bool * bool * conn) :=
  match got with
  | GetNotFound => Ret (true, false, c)
  | GetFailed => Ret (false, false, c)
  | GetOk tb deleting finalizer =>
    if negb deleting && enableFinalizer && negb finalizer
    then Ret (updates_ok, updates_ok, c)
    else if deleting && enableFinalizer then
      if negb finalizer then Ret (true, false, c)
      else match tb_name tb with
      | None => Panic
      | Some name =>
        let '(ok, c) := flush (mkConn (cn_kernel c) (cn_queue c ++ [OpDelTable 0 name])) in
        if negb ok then Ret (false, true, c) else Ret (updates_ok, negb updates_ok, c)
      end
    else
      '(ok, notrack, c) ← apply_table c tb;
      Ret (ok && (negb notrack || evict_ok), finalizer, c)
  end.
End reconcile.
