(* ===== verification/FirewallConverge.v ===== *)
(** * FirewallConverge: a reconciliation brings the kernel to the configuration

    The effect of the two batches of a reconciliation on the chains of a table, the
    state they lead to ([settled]), and that nothing is left to do there. *)

From S2P Require Export FirewallReconcile.
Local Open Scope Z_scope.

(** ** Messages and chains *)

Definition chain_of (o : nft_op) : option (Z * string * string) :=
  match o with
  | OpAddChain f t c _ | OpDelChain f t c | OpAddRule f t c _ | OpDelRule f t c _ => Some (f, t, c)
  | _ => None
  end.

Lemma chain_at_alter (f : gmap string kchain → gmap string kchain) (k t : Z * string) (c : string) (v : kview) :
  chain_at (alter f k v) t c =
  if decide (k = t) then m ← v !! t; f m !! c else chain_at v t c.
Proof.
  unfold chain_at. case_decide as E.
  - subst. rewrite lookup_alter_eq. by destruct (v !! t).
  - by rewrite lookup_alter_ne.
Qed.

Lemma chain_at_on_chain (g : kchain → kchain) (k : Z * string) (n : string) (t : Z * string) (c : string) (v : kview) :
  chain_at (on_chain k n g v) t c =
  if decide (k = t ∧ n = c) then g <$> chain_at v t c else chain_at v t c.
Proof.
  unfold on_chain. rewrite chain_at_alter. unfold chain_at.
  destruct (decide (k = t)) as [->|?]; [|by rewrite decide_False by naive_solver].
  destruct (v !! t) as [m|]; simpl.
  - destruct (decide (n = c)) as [->|?].
    + by rewrite lookup_alter_eq, decide_True.
    + by rewrite lookup_alter_ne, decide_False by naive_solver.
  - by case_decide.
Qed.

(** A message touches no table but its own, and no chain but its own. *)
Lemma op_frame o v v' k n f t c : op_effect o v v' → chain_of o = Some (f, t, c) →
  (k ≠ (f, t) → v' !! k = v !! k) ∧ ((k, n) ≠ (f, t, c) → chain_at v' k n = chain_at v k n) ∧
  (is_Some (v' !! k) ↔ is_Some (v !! k)).
Proof.
  intros Ho Hc. destruct Ho; simplify_eq/=; unfold on_chain.
  all: split; [intros; by apply lookup_alter_ne|].
  all: split; [|destruct (decide (k = (f, t))) as [->|?];
                [rewrite lookup_alter_eq; apply fmap_is_Some|by rewrite lookup_alter_ne]].
  all: intros Hne; rewrite chain_at_alter; unfold chain_at; case_decide as E; [subst k|done].
  all: destruct (v !! (f, t)); simpl; [|done].
  all: by rewrite ?lookup_insert_ne, ?lookup_delete_ne, ?lookup_alter_ne by naive_solver.
Qed.

Lemma batch_app xs ys v v' : batch_effect (xs ++ ys) v v' ↔
  ∃ w, batch_effect xs v w ∧ batch_effect ys w v'.
Proof.
  revert v. induction xs as [|o xs IH]; intros v; simpl.
  - split; [intros H; exists v; split; [constructor|done]|]. intros (w & H & ?). by inversion H; subst.
  - split.
    + inversion 1 as [|? ? ? w ? Ho Hb]; subst. apply IH in Hb as (u & ? & ?).
      exists u. split; [by econstructor|done].
    + intros (w & H & ?). inversion H as [|? ? ? u ? Ho Hb]; subst. econstructor; [done|].
      apply IH. by exists w.
Qed.

(** Messages on one chain, and on the chains of one table. *)
Definition on_chain_of (f : Z) (t c : string) (o : nft_op) : Prop := chain_of o = Some (f, t, c).
Definition on_table_of (f : Z) (t : string) (o : nft_op) : Prop := ∃ c, on_chain_of f t c o.

Lemma batch_table_frame f t ops v v' : Forall (on_table_of f t) ops → batch_effect ops v v' →
  (∀ k, k ≠ (f, t) → v' !! k = v !! k) ∧ (is_Some (v' !! (f, t)) ↔ is_Some (v !! (f, t))).
Proof.
  intros HF Hb. induction Hb as [|o ops v w v' Ho Hb IH]; [done|].
  apply Forall_cons in HF as [[c Hc] HF]. destruct (IH HF) as [I1 I2]. split.
  - intros k Hk. rewrite I1 by done. by apply (op_frame _ _ _ k c f t c Ho Hc).
  - rewrite I2. by apply (op_frame _ _ _ (f, t) c f t c Ho Hc).
Qed.

Lemma batch_chain_frame f t ops v v' n : Forall (on_table_of f t) ops → batch_effect ops v v' →
  (∀ o, o ∈ ops → ¬ on_chain_of f t n o) → chain_at v' (f, t) n = chain_at v (f, t) n.
Proof.
  intros HF Hb. induction Hb as [|o ops v w v' Ho Hb IH]; intros Hn; [done|].
  apply Forall_cons in HF as [[c Hc] HF]. rewrite IH; [|done|intros; apply Hn; by right].
  apply (op_frame _ _ _ (f, t) n f t c Ho Hc). intros [= ->]. by apply (Hn o); [left|].
Qed.

(** ** Deletions *)

Definition is_deletion (o : nft_op) : Prop :=
  match o with OpDelChain _ _ _ | OpDelRule _ _ _ _ => True | _ => False end.

Lemma deletion_step f t o v v' n kc' : is_deletion o → on_table_of f t o → op_effect o v v' →
  chain_at v' (f, t) n = Some kc' →
  o ≠ OpDelChain f t n ∧ ∃ kc, chain_at v (f, t) n = Some kc ∧ kc_attrs kc' = kc_attrs kc ∧
    ∀ x, x ∈ kc_rules kc' ↔ x ∈ kc_rules kc ∧ o ≠ OpDelRule f t n (kr_handle x).
Proof.
  intros Hd [c Hc] Ho. destruct Ho as [| | |f' t' c' v| |f' t' c' h v]; try done; unfold on_chain_of in Hc; simplify_eq/=.
  - rewrite chain_at_alter, decide_True by done. unfold chain_at.
    destruct (v !! (f, t)) as [m|]; simpl; [|done].
    intros [Hne Hl]%lookup_delete_Some. split; [naive_solver|]. exists kc'.
    split; [done|]. split; [done|]. naive_solver.
  - rewrite chain_at_on_chain. destruct (decide _) as [[_ ->]|Hne].
    + intros (kc & Hk & ->)%fmap_Some. split; [done|]. exists kc. split; [done|]. split; [done|].
      intros x. simpl. rewrite list_elem_of_In, filter_In, <- list_elem_of_In, negb_true_iff, Z.eqb_neq.
      naive_solver.
    + intros Hk. split; [done|]. exists kc'. naive_solver.
Qed.

Lemma deletions_effect f t ops v v' n kc' :
  Forall is_deletion ops → Forall (on_table_of f t) ops → batch_effect ops v v' →
  chain_at v' (f, t) n = Some kc' →
  OpDelChain f t n ∉ ops ∧ ∃ kc, chain_at v (f, t) n = Some kc ∧ kc_attrs kc' = kc_attrs kc ∧
    ∀ x, x ∈ kc_rules kc' ↔ x ∈ kc_rules kc ∧ OpDelRule f t n (kr_handle x) ∉ ops.
Proof.
  intros Hd Ht Hb. induction Hb as [v|o ops v w v' Ho Hb IH]; intros Hk.
  { split; [apply not_elem_of_nil|]. exists kc'. split; [done|]. split; [done|].
    intros x. split; [|by intros [? _]]. intros ?. split; [done|apply not_elem_of_nil]. }
  apply Forall_cons in Hd as [Hd Hds]. apply Forall_cons in Ht as [Ht Hts].
  destruct (IH Hds Hts Hk) as (I1 & kc & Hw & Ha & Hx).
  destruct (deletion_step _ _ _ _ _ _ _ Hd Ht Ho Hw) as (O1 & kc0 & Hv & Ha' & Hx').
  split; [intros [?|?]%elem_of_cons; naive_solver|]. exists kc0. split; [done|]. split; [congruence|].
  intros x. rewrite Hx, Hx'. rewrite not_elem_of_cons. naive_solver.
Qed.

Lemma Ret_bind {A B} (m : outcome A) (k : A → outcome B) b :
  (x ← m; k x) = Ret b ↔ ∃ a, m = Ret a ∧ k a = Ret b.
Proof. unfold mbind, outcome_bind. destruct m; naive_solver. Qed.

Lemma Forall2_elem_l {A B} (R : A → B → Prop) l l' x : Forall2 R l l' → x ∈ l → ∃ y, y ∈ l' ∧ R x y.
Proof. induction 1; intros Hin; [by apply not_elem_of_nil in Hin|set_solver]. Qed.

Lemma distinct_unique {A} (name : A → option string) l x y : distinct_names (name <$> l) →
  x ∈ l → y ∈ l → name x = name y → x = y.
Proof.
  intros (ns & Hns & Hnd). revert ns Hns Hnd.
  induction l as [|z l IH]; intros [|n ns] Hns Hnd Hx Hy Hxy; try done; [by apply not_elem_of_nil in Hx|].
  injection Hns as Hz Hns. apply NoDup_cons in Hnd as [Hn Hnd].
  assert (Hno : ∀ w, w ∈ l → name w ≠ Some n).
  { intros w Hw He. apply (list_elem_of_fmap_2 name) in Hw.
    rewrite (Hns : name <$> l = Some <$> ns), He in Hw. by apply list_elem_of_fmap in Hw as (? & [= ->] & ?). }
  apply elem_of_cons in Hx as [->|Hx]; apply elem_of_cons in Hy as [->|Hy]; [done| | |by eapply IH].
  - by destruct (Hno y Hy); congruence.
  - by destruct (Hno x Hx); congruence.
Qed.

Section converge.
Context {NC : NftConn}.
Context (hooknum : ChainHook → Z) (familynum : TableFamily → Z) (PutUint32 : Z → list Z).
Context (Marshal : Expr → option (list Z)).

Notation isRuleOutdated := (isRuleOutdated PutUint32 Marshal).
Notation isChainModified := (isChainModified hooknum).
Notation isChainOutdated := (isChainOutdated hooknum).
Notation clean_rules := (clean_rules PutUint32 Marshal).
Notation clean_chains := (clean_chains hooknum PutUint32 Marshal).
Notation Equal := (Equal PutUint32 Marshal).
Notation Forge := (Forge PutUint32).
Notation add_rules := (add_rules PutUint32).
Notation add_chain := (add_chain hooknum PutUint32).
Notation addChains := (addChains hooknum PutUint32).

(** ** What the first pass queues *)

(** The rules of a chain the pass keeps, and the deletions of the others. *)
Definition rules_checked (f : Z) (t c : string) (rules : list apiRule) (xs : list krule)
    (ops : list nft_op) : Prop :=
  ∀ x, x ∈ xs → isRuleOutdated f (kr_rule x) rules = Ret false ∨
    isRuleOutdated f (kr_rule x) rules = Ret true ∧ OpDelRule f t c (kr_handle x) ∈ ops.

Lemma clean_rules_spec f t c rules xs ok ops : clean_rules f t c rules xs = Ret (ok, ops) →
  ok = true ∧ Forall is_deletion ops ∧ Forall (on_chain_of f t c) ops ∧ rules_checked f t c rules xs ops.
Proof.
  unfold rules_checked. revert ok ops.
  induction xs as [|x xs IH]; intros ok ops; simpl.
  { intros [= <- <-]. do 3 (split; [by try constructor|]). intros y []%not_elem_of_nil. }
  intros (o & Ho & Hr)%Ret_bind. apply Ret_bind in Hr as ([ok' ops'] & Hr & [= -> <-]).
  destruct (IH _ _ Hr) as (-> & Hd & Hc & Hx). split; [done|].
  destruct o; (split; [repeat constructor; done|]); (split; [repeat constructor; done|]).
  - intros y [->|Hy]%elem_of_cons; [right; split; [done|left]|].
    destruct (Hx y Hy) as [?|[? ?]]; [by left|right; split; [done|by right]].
  - intros y [->|Hy]%elem_of_cons; [by left|by apply Hx].
Qed.

(** A listed chain is deleted, or it has the attributes of its chain in the
    configuration and its rules are checked. *)
Definition chain_checked (k : kernel) (f : Z) (t : string) (chains : list Chain) (n : string)
    (a : chainAttrs) (ops : list nft_op) : Prop :=
  OpDelChain f t n ∈ ops ∨
  ∃ ch rs, isChainOutdated n a chains = Ret (Some ch) ∧ GetRules k f t n = Some rs ∧
    rules_checked f t n (FromChainToRulesArray ch) rs ops.

Lemma chain_checked_mono k f t chains n a ops ops' : (∀ o, o ∈ ops → o ∈ ops') →
  chain_checked k f t chains n a ops → chain_checked k f t chains n a ops'.
Proof.
  intros Hs [?|(ch & rs & ? & ? & Hx)]; [by left; apply Hs|]. right. exists ch, rs.
  split; [done|]. split; [done|]. intros x Hin. destruct (Hx x Hin) as [?|[? ?]]; [by left|].
  right. split; [done|by apply Hs].
Qed.

Lemma clean_chains_spec k f t chains l ops : clean_chains k f t chains l = Ret (true, ops) →
  Forall is_deletion ops ∧ Forall (on_table_of f t) ops ∧
  ∀ n a, (t, n, a) ∈ l → chain_checked k f t chains n a ops.
Proof.
  revert ops. induction l as [|[[t' n'] a'] l IH]; intros ops; simpl.
  { intros [= <-]. split; [constructor|]. split; [constructor|]. intros n a []%not_elem_of_nil. }
  case_bool_decide as Ht; simpl; [subst t'|].
  2: { intros (Hd & Ho & Hx)%IH. split; [done|]. split; [done|].
       intros n a [[= <- -> ->]|Hin]%elem_of_cons; [done|by apply Hx]. }
  intros (o & Ho & Hr)%Ret_bind. apply Ret_bind in Hr as ([ok1 ops1] & Hr1 & Hr).
  destruct ok1; simpl in Hr; [|done]. apply Ret_bind in Hr as ([ok2 ops2] & Hr2 & [= -> <-]).
  destruct (IH _ Hr2) as (Hd2 & Ho2 & Hx2).
  assert (H1 : Forall is_deletion ops1 ∧ Forall (on_chain_of f t n') ops1 ∧
    chain_checked k f t chains n' a' ops1).
  { destruct o as [ch|].
    - unfold cleanChain in Hr1. destruct (GetRules k f t n') as [rs|] eqn:Hg; [|done].
      apply clean_rules_spec in Hr1 as (_ & ? & ? & ?). split; [done|]. split; [done|]. right. by exists ch, rs.
    - injection Hr1 as <-. split; [by constructor|]. split; [by constructor|]. left. left. }
  destruct H1 as (Hd1 & Ho1 & Hx1). split; [by apply Forall_app|]. split.
  { apply Forall_app. split; [|done]. eapply Forall_impl; [exact Ho1|]. intros o' ?. by exists n'. }
  intros n a [[= -> ->]|Hin]%elem_of_cons.
  - eapply chain_checked_mono; [|exact Hx1]. set_solver.
  - eapply chain_checked_mono; [|by apply Hx2]. set_solver.
Qed.

(** ** The rules of the two sides *)

Lemma Equal_readback r f x y : readback x y → Equal r f (kr_rule y) = Equal r f (kr_rule x).
Proof.
  intros (_ & _ & He). destruct r as [r|r|r]; simpl; [| |done];
    unfold FilterRule_Equal, NatRule_Equal, compareRuleExpressions; by rewrite He.
Qed.

(** A kernel rule that stands for a rule of the configuration. *)
Definition stands_for (f : Z) (x : krule) (r : apiRule) : Prop :=
  is_Some (GetName r) ∧ nft_comment (kr_rule x) = GetName r ∧ Equal r f (kr_rule x) = Ret true.

Lemma kept_rule_stands f rules x y : readback x y → isRuleOutdated f (kr_rule y) rules = Ret false →
  ∃ r, r ∈ rules ∧ stands_for f x r.
Proof.
  intros Hxy. unfold FirewallReconcile.isRuleOutdated, stands_for.
  pose proof (proj1 (proj2 Hxy)) as Hc. rewrite Hc.
  destruct (nft_comment (kr_rule x)) as [name|]; [|done].
  induction rules as [|r rules IH]; simpl; [done|]. case_bool_decide as Hn.
  - intros (e & Hq & [= ->%negb_false_iff])%Ret_bind. exists r. split; [left|].
    split; [by rewrite Hn|]. split; [done|]. rewrite <- Hq. symmetry. by apply Equal_readback.
  - intros (r' & ? & ?)%IH. exists r'. split; [by right|done].
Qed.

Lemma isChainOutdated_kept n a chains ch : isChainOutdated n a chains = Ret (Some ch) →
  ch ∈ chains ∧ ch_name ch = Some n ∧ isChainModified a ch = Ret false.
Proof.
  induction chains as [|c chains IH]; simpl; [done|]. case_bool_decide as Hn.
  - intros (m & Hm & He)%Ret_bind. destruct m; simplify_eq. split; [left|done].
  - intros (? & ? & ?)%IH. split; [by right|done].
Qed.

(** Every rule of a chain stands for one of the configuration. *)
Definition chain_sound (f : Z) (ch : Chain) (kc : kchain) : Prop :=
  ∀ x, x ∈ kc_rules kc → ∃ r, r ∈ FromChainToRulesArray ch ∧ stands_for f x r.

(** The table holds nothing that the configuration does not ask for. *)
Definition cleaned (f : Z) (t : string) (chains : list Chain) (v : kview) : Prop :=
  ∀ n kc, chain_at v (f, t) n = Some kc →
    ∃ ch, ch ∈ chains ∧ ch_name ch = Some n ∧ isChainModified (kc_attrs kc) ch = Ret false ∧
      chain_sound f ch kc.

Lemma chain_checked_sound k f t chains n kc kc' ops : f ≠ 0 →
  chain_at (view k) (f, t) n = Some kc → kc_attrs kc' = kc_attrs kc → OpDelChain f t n ∉ ops →
  (∀ x, x ∈ kc_rules kc' ↔ x ∈ kc_rules kc ∧ OpDelRule f t n (kr_handle x) ∉ ops) →
  chain_checked k f t chains n (kc_attrs kc) ops →
  ∃ ch, ch ∈ chains ∧ ch_name ch = Some n ∧ isChainModified (kc_attrs kc') ch = Ret false ∧
    chain_sound f ch kc'.
Proof.
  intros Hf Hk Ha Hnd Hx [?|(ch & rs & Ho & Hg & Hrs)]; [done|].
  apply isChainOutdated_kept in Ho as (? & ? & ?). exists ch. rewrite Ha.
  split; [done|]. split; [done|]. split; [done|].
  intros x [Hin Hno]%Hx. apply GetRules_spec in Hg as HF; [|done]. rewrite Hk in HF. simpl in HF.
  destruct (Forall2_elem_l _ _ _ _ HF Hin) as (y & Hy & Hxy).
  destruct (Hrs y Hy) as [Hko|[_ Hdel]]; [by eapply kept_rule_stands|].
  destruct Hxy as (Hh & _). by rewrite Hh in Hdel.
Qed.
Lemma cleanTable_effect k tb f t fam ops v : tb_name tb = Some t → tb_family tb = Some fam →
  f = getTableFamily familynum fam → f ≠ 0 →
  cleanTable hooknum familynum PutUint32 Marshal k tb = Ret (true, ops) → batch_effect ops (view k) v →
  cleaned f t (tb_chains tb) v ∧ ∀ key, key ≠ (f, t) → v !! key = view k !! key.
Proof.
  intros Ht Hfam -> Hf. unfold cleanTable. rewrite Ht, Hfam. set (f := getTableFamily _ _) in *.
  destruct (ListChains k f) as [l|] eqn:Hl; [|done]. intros Hc Hb.
  assert (HC : clean_chains k f t (tb_chains tb) l = Ret (true, ops)) by (by destruct l).
  apply clean_chains_spec in HC as (Hd & Ho & Hx). split.
  - intros n kc' Hk'. destruct (deletions_effect _ _ _ _ _ _ _ Hd Ho Hb Hk') as (Hnd & kc & Hk & Ha & Hr).
    eapply chain_checked_sound; [done..|]. apply Hx. apply (ListChains_spec _ _ _ _ _ _ Hf Hl). eauto.
  - by apply batch_table_frame with ops.
Qed.

(** ** What the second pass queues *)

Definition missing (rules : list krule) (wanted : list apiRule) : list apiRule :=
  List.filter (fun r => negb (existRule rules r)) wanted.
Definition forged (f : Z) (wanted : list apiRule) : list nftRule :=
  omap (fun r => match Forge r f with Ret (Ok o) => o | _ => None end) wanted.
Definition forgeable (f : Z) (wanted : list apiRule) : Prop :=
  ∀ r, r ∈ wanted → ∃ o, Forge r f = Ret (Ok o).

Lemma existRule_readback xs ys r : Forall2 readback xs ys → existRule ys r = existRule xs r.
Proof.
  induction 1 as [|x y xs ys (_ & Hc & _) HF IH]; [done|]. unfold existRule in *. simpl. by rewrite IH, Hc.
Qed.

Lemma missing_readback xs ys wanted : Forall2 readback xs ys → missing ys wanted = missing xs wanted.
Proof.
  intros HF. unfold missing. apply List.filter_ext. intros r. by rewrite (existRule_readback _ _ _ HF).
Qed.

Lemma add_rules_spec f t c rules wanted ops b : add_rules f t c rules wanted = Ret (true, ops, b) →
  ops = OpAddRule f t c <$> forged f (missing rules wanted) ∧ forgeable f (missing rules wanted) ∧
  b = existsb isNotrackRule (missing rules wanted).
Proof.
  unfold missing. revert ops b. induction wanted as [|r wanted IH]; intros ops b; simpl.
  { intros [= <- <-]. split; [done|]. split; [|done]. by intros r []%not_elem_of_nil. }
  destruct (existRule rules r); simpl; [by apply IH|]. unfold forged. simpl.
  destruct (Forge r f) as [[o|e]| |] eqn:Hf; [|done..].
  intros ([[ok ops'] n] & Hr & [= -> <- <-])%Ret_bind. destruct (IH _ _ Hr) as (-> & Hfo & ->).
  split; [by destruct o|]. split; [|done].
  intros r' [->|Hin]%elem_of_cons; [by eexists|by apply Hfo].
Qed.

Lemma add_rules_effect f t c xs v v' kc : batch_effect (OpAddRule f t c <$> xs) v v' →
  chain_at v (f, t) c = Some kc →
  ∃ new, chain_at v' (f, t) c = Some (mkKchain (kc_attrs kc) (kc_rules kc ++ new)) ∧ kr_rule <$> new = xs.
Proof.
  revert v kc. induction xs as [|x xs IH]; intros v kc Hb Hk; simpl in Hb.
  { inversion Hb; subst. exists []. rewrite app_nil_r. by destruct kc. }
  inversion Hb as [|? ? ? w ? Ho Hb']; subst. inversion Ho as [| | | |? ? ? ? h ? Hh|]; subst.
  destruct (IH _ (mkKchain (kc_attrs kc) (kc_rules kc ++ [mkKrule h x])) Hb') as (new & Hnew & <-).
  { rewrite chain_at_on_chain, decide_True by done. by rewrite Hk. }
  exists (mkKrule h x :: new). split; [|done]. rewrite Hnew. simpl. by rewrite <- (assoc_L (++)).
Qed.

(** What a chain of the kernel becomes: its missing rules are appended in the
    order of the configuration; a new chain has the attributes asked for. *)
Definition chain_grown (f : Z) (ch : Chain) (old : option kchain) (kc : kchain) : Prop :=
  match old with
  | Some o => kc_attrs kc = kc_attrs o
  | None => ∃ h, ch_hook ch = Some h ∧ attrs_stored (chain_attrs hooknum ch h) (kc_attrs kc)
  end ∧
  let rules := default [] (kc_rules <$> old) in
  let absent := missing rules (FromChainToRulesArray ch) in
  forgeable f absent ∧ ∃ new, kc_rules kc = rules ++ new ∧ kr_rule <$> new = forged f absent.

Lemma getChain_spec t n l b : getChain t (Some n) l = Ret b → b = true ↔ ∃ a, (t, n, a) ∈ l.
Proof.
  induction l as [|[[t' n'] a'] l IH]; simpl.
  { intros [= <-]. split; [done|]. by intros (a & []%not_elem_of_nil). }
  setoid_rewrite elem_of_cons. case_bool_decide as Ht; simpl; [subst|naive_solver].
  case_bool_decide as Hn; [subst|naive_solver]. intros [= <-]. naive_solver.
Qed.

Lemma add_chain_spec k f t ch n ops b : f ≠ 0 → ch_name ch = Some n →
  add_chain k f t ch = Ret (true, ops, b) →
  let old := chain_at (view k) (f, t) n in
  let absent := missing (default [] (kc_rules <$> old)) (FromChainToRulesArray ch) in
  forgeable f absent ∧ b = existsb isNotrackRule absent ∧
  match old with
  | Some _ => ops = OpAddRule f t n <$> forged f absent
  | None => ∃ h, ch_hook ch = Some h ∧
      ops = OpAddChain f t n (chain_attrs hooknum ch h) :: (OpAddRule f t n <$> forged f absent)
  end.
Proof.
  intros Hf Hn. unfold FirewallReconcile.add_chain. rewrite Hn. simpl.
  destruct (ListChains k f) as [l|] eqn:Hl; [|done].
  intros (p & Hp & (ops0 & Hops & Hr)%Ret_bind)%Ret_bind.
  assert (HP : p = true ↔ is_Some (chain_at (view k) (f, t) n)).
  { rewrite (getChain_spec _ _ _ _ Hp). setoid_rewrite (ListChains_spec _ _ _ _ _ _ Hf Hl).
    unfold is_Some. naive_solver. }
  destruct (GetRules k f t n) as [rs|] eqn:Hg; [|done].
  apply GetRules_spec in Hg as HF; [|done]. rewrite <- (missing_readback _ _ _ HF).
  apply Ret_bind in Hr as ([[ok ops'] b'] & Hr & [= -> <- <-]).
  apply add_rules_spec in Hr as (-> & Hfo & ->). split; [done|]. split; [done|].
  destruct (chain_at (view k) (f, t) n) as [kc|]; destruct p.
  - by injection Hops as <-.
  - by assert (false = true) by (by apply HP; eexists).
  - by destruct (proj1 HP eq_refl).
  - destruct (ch_hook ch) as [h|]; [|done]. injection Hops as <-. by exists h.
Qed.

Lemma add_chain_effect k f t ch n ops b v v' : f ≠ 0 → ch_name ch = Some n →
  add_chain k f t ch = Ret (true, ops, b) → batch_effect ops v v' →
  is_Some (v !! (f, t)) → chain_at v (f, t) n = chain_at (view k) (f, t) n →
  Forall (on_chain_of f t n) ops ∧
  ∃ kc, chain_at v' (f, t) n = Some kc ∧ chain_grown f ch (chain_at (view k) (f, t) n) kc.
Proof.
  intros Hf Hn Ha Hb [m Hm] Hv. destruct (add_chain_spec _ _ _ _ _ _ _ Hf Hn Ha) as (Hfo & _ & Hops).
  rewrite <- Hv in *. cbv zeta in Hfo, Hops. unfold chain_grown.
  destruct (chain_at v (f, t) n) as [kc|] eqn:Hk.
  - subst ops. split; [by apply Forall_fmap, Forall_true|].
    destruct (add_rules_effect _ _ _ _ _ _ _ Hb Hk) as (new & Hnew & Hx). eexists. split; [exact Hnew|].
    simpl. split; [done|]. split; [done|]. by exists new.
  - destruct Hops as (h & Hh & ->). split; [constructor; [done|]; by apply Forall_fmap, Forall_true|].
    inversion Hb as [|? ? ? w ? Ho Hb']; subst. inversion Ho as [| |? ? ? ? a' ? Ha'| | |]; subst.
    assert (Hw : chain_at (alter (fun m => <[n := default (mkKchain a' []) (m !! n)]> m) (f, t) v) (f, t) n
                 = Some (mkKchain a' [])).
    { rewrite chain_at_alter, decide_True by done. unfold chain_at in Hk. rewrite Hm in *. simpl in *.
      by rewrite lookup_insert_eq, Hk. }
    destruct (add_rules_effect _ _ _ _ _ _ _ Hb' Hw) as (new & Hnew & Hx). eexists. split; [exact Hnew|].
    simpl. split; [by exists h|]. split; [done|]. by exists new.
Qed.

(** All chains, when their names differ. *)
Lemma addChains_effect k f t chains ops b v v' : f ≠ 0 → distinct_names (ch_name <$> chains) →
  addChains k f t chains = Ret (true, ops, b) → batch_effect ops v v' → is_Some (v !! (f, t)) →
  (∀ ch n, ch ∈ chains → ch_name ch = Some n → chain_at v (f, t) n = chain_at (view k) (f, t) n) →
  Forall (on_table_of f t) ops ∧
  (∀ n, Some n ∉ ch_name <$> chains → chain_at v' (f, t) n = chain_at v (f, t) n) ∧
  ∀ ch n, ch ∈ chains → ch_name ch = Some n →
    ∃ kc, chain_at v' (f, t) n = Some kc ∧ chain_grown f ch (chain_at (view k) (f, t) n) kc.
Proof.
  intros Hf (ns & Hns & Hnd). revert ns Hns Hnd ops b v.
  induction chains as [|c chains IH]; intros [|n ns] Hns Hnd ops b v; try done; simpl.
  { intros [= <- <-] Hb _ _. inversion Hb; subst. split; [constructor|]. split; [done|].
    by intros ch n []%not_elem_of_nil. }
  injection Hns as Hn Hns. change (ch_name <$> chains = Some <$> ns) in Hns. apply NoDup_cons in Hnd as [Hni Hnd].
  intros ([[ok ops1] b1] & H1 & Hr)%Ret_bind. destruct ok; simpl in Hr; [|done].
  apply Ret_bind in Hr as ([[ok ops2] b2] & H2 & [= -> <- _]).
  intros (w & Hb1 & Hb2)%batch_app Hex Heq.
  destruct (add_chain_effect _ _ _ _ _ _ _ _ _ Hf Hn H1 Hb1 Hex) as (Ho1 & kc & Hkc & Hg).
  { apply (Heq c); [left|done]. }
  assert (Ht1 : Forall (on_table_of f t) ops1)
    by (eapply Forall_impl; [exact Ho1|]; intros o ?; by exists n).
  assert (Hfr : ∀ n', n' ≠ n → chain_at w (f, t) n' = chain_at v (f, t) n').
  { intros n' Hne. apply (batch_chain_frame _ _ _ _ _ _ Ht1 Hb1). intros o Ho Hon.
    rewrite Forall_forall in Ho1. specialize (Ho1 o Ho). unfold on_chain_of in *. congruence. }
  assert (Hin : ∀ ch n', ch ∈ chains → ch_name ch = Some n' → n' ∈ ns).
  { intros ch n' Hch Hn'. apply (list_elem_of_fmap_2 ch_name) in Hch. rewrite Hns, Hn' in Hch.
    by apply list_elem_of_fmap in Hch as (? & [= ->] & ?). }
  destruct (IH ns Hns Hnd _ _ _ H2 Hb2) as (Ho2 & Hfr2 & Hg2).
  { by apply (batch_table_frame _ _ _ _ _ Ht1 Hb1). }
  { intros ch n' Hch Hn'. rewrite Hfr; [apply (Heq ch); [by right|done]|].
    intros ->. by apply Hni, (Hin ch). }
  split; [by apply Forall_app|]. split.
  - intros n' Hn'. apply not_elem_of_cons in Hn' as [Hne Hno]. rewrite Hfr2 by exact Hno.
    apply Hfr. congruence.
  - intros ch n' [->|Hch]%elem_of_cons Hn'; [|by apply Hg2].
    assert (n' = n) as -> by congruence. exists kc. split; [|done]. rewrite Hfr2; [done|].
    rewrite Hns. by intros (? & [= ->] & ?)%list_elem_of_fmap.
Qed.
(** ** The state a reconciliation leads to *)

Definition is_route (r : apiRule) : bool := match r with RouteR _ => true | _ => false end.

(** Nothing unwanted, every wanted chain, and every wanted rule; route rules are
    not implemented. *)
Definition settled (f : Z) (t : string) (chains : list Chain) (v : kview) : Prop :=
  is_Some (v !! (f, t)) ∧ cleaned f t chains v ∧
  ∀ ch n, ch ∈ chains → ch_name ch = Some n →
    ∃ kc, chain_at v (f, t) n = Some kc ∧
      ∀ r, r ∈ FromChainToRulesArray ch → is_route r = false → existRule (kc_rules kc) r = true.

(** A chain whose attributes, once stored, read back as they were given. *)
Definition chain_plain (ch : Chain) : Prop :=
  known_type (ch_type ch) = ch_type ch ∧ is_Some (ch_priority ch) ∧
  (∃ h, ch_hook ch = Some h ∧ setHooknum hooknum h = Some (hooknum h) ∧ getHooknum hooknum (hooknum h) = h) ∧
  ∀ p, ch_policy ch = Some p → known_policy p = Some p.

Lemma stored_not_modified ch h kept : chain_plain ch → ch_hook ch = Some h →
  attrs_stored (chain_attrs hooknum ch h) kept → isChainModified kept ch = Ret false.
Proof.
  intros (Ht & [p Hp] & (h' & Hh & Hs & Hg) & Hpol) Hh' (S1 & S2 & S3).
  assert (h' = h) as -> by congruence. unfold FirewallReconcile.isChainModified.
  unfold chain_attrs in *. simpl in *. rewrite Ht, Hs, Hp in *.
  destruct S2 as [S2 S2']; [by eexists..|]. rewrite Hh, S2, S2'. simpl.
  assert (Hty : negb (bool_decide (ch_type ch = ChainTypeOther "")) &&
                negb (bool_decide (ch_type ch = known_type (ca_type kept))) = false).
  { case_bool_decide as He; [done|]. simpl. rewrite S1, Ht by done. by rewrite bool_decide_true. }
  rewrite Hty, Hg, bool_decide_true by done. simpl. rewrite Z.eqb_refl. simpl.
  destruct (ch_policy ch) as [q|]; [|done]. simpl in *. rewrite (Hpol q) in * by done.
  rewrite S3 by (by eexists). by rewrite (Hpol q), bool_decide_true.
Qed.

Lemma Forge_name r f x : Forge r f = Ret (Ok (Some x)) → is_Some (GetName r) ∧ nft_comment x = GetName r.
Proof.
  destruct r as [r|r|r]; simpl; [| |done].
  - unfold forgeFilterRule. destruct (fr_name r) as [n|]; [|done].
    destruct (applyMatches (fr_match r)) as [[ms|]| |]; [|done..].
    destruct (apply_action PutUint32 r) as [[act|]| |]; [|done..].
    intros [= <-]. by split; [eexists|].
  - unfold forgeNatRule. destruct (nr_name r) as [n|]; [|done].
    destruct (applyMatches (nr_match r)) as [[ms|]| |]; [|done..].
    destruct (applyNatRule r f) as [[act|]| |]; [|done..].
    intros [= <-]. by split; [eexists|].
Qed.

Context (Marshal_total : ∀ e, is_Some (Marshal e)).

Lemma Forge_Equal r f x : Forge r f = Ret (Ok (Some x)) → Equal r f x = Ret true.
Proof.
  destruct r as [r|r|r]; simpl; [| |done]; unfold FilterRule_Equal, NatRule_Equal.
  - destruct (forgeFilterRule PutUint32 r) as [[new|]| |]; [|done..].
    intros [= ->]. by rewrite compare_permutation.
  - destruct (forgeNatRule r f) as [[new|]| |]; [|done..]. intros [= ->]. by rewrite compare_permutation.
Qed.

Lemma existRule_true xs r : existRule xs r = true ↔
  is_Some (GetName r) ∧ ∃ x, x ∈ xs ∧ nft_comment (kr_rule x) = GetName r.
Proof.
  unfold existRule. rewrite existsb_exists. setoid_rewrite list_elem_of_In. split.
  - intros (x & Hx & He). destruct (nft_comment (kr_rule x)) as [n|] eqn:Hc, (GetName r) as [n'|]; try done.
    apply bool_decide_eq_true in He as ->. split; [by eexists|]. by exists x.
  - intros ([n Hn] & x & Hx & Hc). exists x. rewrite Hc, Hn. by rewrite bool_decide_true.
Qed.

(** The rules appended to a chain. *)
Lemma new_rules_ok f wanted rules new : kr_rule <$> new = forged f (missing rules wanted) →
  forgeable f (missing rules wanted) →
  (∀ x, x ∈ new → ∃ r, r ∈ wanted ∧ stands_for f x r) ∧
  ∀ r, r ∈ wanted → is_route r = false → existRule (rules ++ new) r = true.
Proof.
  intros Hnew Hfo. split.
  - intros x Hx. apply (list_elem_of_fmap_2 kr_rule) in Hx. rewrite Hnew in Hx.
    apply list_elem_of_omap in Hx as (r & Hr & He). destruct (Forge r f) as [[o|]| |] eqn:Hf; simplify_eq.
    exists r. split.
    + apply list_elem_of_In, filter_In in Hr as [Hr _]. by apply list_elem_of_In.
    + destruct (Forge_name _ _ _ Hf). split; [done|]. split; [done|]. by apply Forge_Equal.
  - intros r Hr Hnr. destruct (existRule rules r) eqn:He.
    + apply existRule_true in He as (Hn & x & Hx & Hc). apply existRule_true. split; [done|].
      exists x. split; [apply elem_of_app; by left|done].
    + assert (Hm : r ∈ missing rules wanted).
      { apply list_elem_of_In, filter_In. rewrite He. split; [by apply list_elem_of_In|done]. }
      destruct (Hfo r Hm) as [o Hf].
      assert (∃ x, o = Some x) as [x ->].
      { destruct r as [r|r|r]; simpl in Hf; [| |done].
        - destruct (forgeFilterRule PutUint32 r) as [[new'|]| |]; [|done..]. injection Hf as <-. by eexists.
        - destruct (forgeNatRule r f) as [[new'|]| |]; [|done..]. injection Hf as <-. by eexists. }
      assert (Hx : x ∈ kr_rule <$> new).
      { rewrite Hnew. apply list_elem_of_omap. exists r. by rewrite Hf. }
      apply list_elem_of_fmap in Hx as (y & -> & Hy). destruct (Forge_name _ _ _ Hf).
      apply existRule_true. split; [done|]. exists y. split; [apply elem_of_app; by right|done].
Qed.

Lemma chain_grown_settled f t chains v n ch kc : distinct_names (ch_name <$> chains) →
  cleaned f t chains v → ch ∈ chains → ch_name ch = Some n → chain_plain ch →
  chain_grown f ch (chain_at v (f, t) n) kc →
  isChainModified (kc_attrs kc) ch = Ret false ∧ chain_sound f ch kc ∧
  ∀ r, r ∈ FromChainToRulesArray ch → is_route r = false → existRule (kc_rules kc) r = true.
Proof.
  intros Hnd Hcl Hch Hn Hp (Ha & Hfo & new & Hr & Hnew).
  destruct (new_rules_ok _ _ _ _ Hnew Hfo) as [Hx He]. unfold chain_sound. rewrite Hr.
  destruct (chain_at v (f, t) n) as [old|] eqn:Hold; simpl in *.
  - destruct (Hcl n old Hold) as (ch' & Hch' & Hn' & Hm & Hs).
    assert (ch' = ch) as -> by (eapply (distinct_unique ch_name); [done..|congruence]).
    rewrite Ha. split; [done|]. split; [|done]. intros x [?|?]%elem_of_app; [by apply Hs|by apply Hx].
  - destruct Ha as (h & Hh & Hst). split; [by eapply stored_not_modified|]. done.
Qed.

Lemma flush_ok c c' : flush c = (true, c') →
  batch_effect (cn_queue c) (view (cn_kernel c)) (view (cn_kernel c')) ∧ cn_queue c' = [].
Proof.
  unfold flush. destruct (Flush (cn_kernel c) (cn_queue c)) eqn:Hf; [|done]. intros [= <-].
  split; [by apply Flush_spec|done].
Qed.

(** The two batches of a successful run from an empty queue. *)
Lemma apply_table_phases c tb f t fam b c' : cn_queue c = [] →
  tb_name tb = Some t → tb_family tb = Some fam → f = getTableFamily familynum fam →
  apply_table hooknum familynum PutUint32 Marshal c tb = Ret (true, b, c') →
  ∃ ops1 c1 ops2,
    cleanTable hooknum familynum PutUint32 Marshal (cn_kernel c) tb = Ret (true, ops1) ∧
    batch_effect ops1 (view (cn_kernel c)) (view (cn_kernel c1)) ∧
    addChains (cn_kernel c1) f t (tb_chains tb) = Ret (true, ops2, b) ∧
    batch_effect (OpAddTable f t :: ops2) (view (cn_kernel c1)) (view (cn_kernel c')) ∧ cn_queue c' = [].
Proof.
  intros Hq Ht Hfam ->. unfold apply_table. rewrite Ht, Hfam, Hq.
  intros ([ok ops1] & H1 & Hr)%Ret_bind. destruct ok; simpl in Hr; [|done].
  destruct (flush _) as [ok c1] eqn:Hf1 in Hr. destruct ok; simpl in Hr; [|done].
  apply flush_ok in Hf1 as [Hb1 Hq1]. rewrite Hq1 in Hr.
  apply Ret_bind in Hr as ([[ok ops2] b'] & H2 & Hr). destruct ok; simpl in Hr; [|done].
  destruct (flush _) as [ok c2] eqn:Hf2 in Hr. injection Hr as -> -> ->.
  apply flush_ok in Hf2 as [Hb2 Hq2]. exists ops1, c1, ops2. done.
Qed.

Lemma add_table_effect f t ops v v' : batch_effect (OpAddTable f t :: ops) v v' →
  ∃ w, batch_effect ops w v' ∧ is_Some (w !! (f, t)) ∧ (∀ k, k ≠ (f, t) → w !! k = v !! k) ∧
       ∀ n, chain_at w (f, t) n = chain_at v (f, t) n.
Proof.
  inversion 1 as [|? ? ? w ? Ho Hb]; subst. inversion Ho; subst. eexists. split; [exact Hb|].
  split; [by rewrite lookup_insert_eq|]. split; [intros; by rewrite lookup_insert_ne|].
  intros n. unfold chain_at. rewrite lookup_insert_eq. by destruct (v !! (f, t)).
Qed.

Lemma apply_table_settles c tb f t fam b c' : cn_queue c = [] →
  tb_name tb = Some t → tb_family tb = Some fam → f = getTableFamily familynum fam → f ≠ 0 →
  distinct_names (ch_name <$> tb_chains tb) → Forall chain_plain (tb_chains tb) →
  apply_table hooknum familynum PutUint32 Marshal c tb = Ret (true, b, c') →
  settled f t (tb_chains tb) (view (cn_kernel c')) ∧ cn_queue c' = [] ∧
  ∀ key, key ≠ (f, t) → view (cn_kernel c') !! key = view (cn_kernel c) !! key.
Proof.
  intros Hq Ht Hfam Hff Hf Hnd Hpl Ha.
  destruct (apply_table_phases _ _ _ _ _ _ _ Hq Ht Hfam Hff Ha) as (ops1 & c1 & ops2 & H1 & Hb1 & H2 & Hb2 & Hq').
  destruct (cleanTable_effect _ _ _ _ _ _ _ Ht Hfam Hff Hf H1 Hb1) as [Hcl Hfr1].
  destruct (add_table_effect _ _ _ _ _ Hb2) as (w & Hbw & Hex & Hfrw & Hw).
  destruct (addChains_effect _ _ _ _ _ _ _ _ Hf Hnd H2 Hbw Hex) as (Hon & Hno & Hgr); [by intros; apply Hw|].
  destruct (batch_table_frame _ _ _ _ _ Hon Hbw) as [Hfr2 Hex2].
  rewrite Forall_forall in Hpl.
  split; [|split; [done|intros key Hk; by rewrite Hfr2, Hfrw, Hfr1]]. split; [by apply Hex2|]. split.
  - intros n kc Hk. destruct (decide (Some n ∈ ch_name <$> tb_chains tb)) as [Hin|Hnin].
    + apply list_elem_of_fmap in Hin as (ch & Hn & Hch).
      destruct (Hgr ch n Hch (eq_sym Hn)) as (kc' & Hk' & Hg). assert (kc' = kc) as -> by congruence.
      destruct (chain_grown_settled _ _ _ _ _ _ _ Hnd Hcl Hch (eq_sym Hn) (Hpl _ Hch) Hg) as (? & ? & _).
      by exists ch.
    + rewrite Hno, Hw in Hk by done. apply Hcl in Hk as (ch & Hch & Hn & _).
      destruct Hnin. apply list_elem_of_fmap. by exists ch.
  - intros ch n Hch Hn. destruct (Hgr ch n Hch Hn) as (kc & Hk & Hg). exists kc. split; [done|].
    by destruct (chain_grown_settled _ _ _ _ _ _ _ Hnd Hcl Hch Hn (Hpl _ Hch) Hg) as (_ & _ & ?).
Qed.

(** ** A settled table is left alone *)

Lemma rule_names_array ch : rule_names ch = GetName <$> FromChainToRulesArray ch.
Proof.
  unfold rule_names, FromChainToRulesArray. destruct (ch_type ch); [..|done]; by rewrite <- list_fmap_compose.
Qed.

Lemma isChainOutdated_found n a chains ch : distinct_names (ch_name <$> chains) → ch ∈ chains →
  ch_name ch = Some n → isChainModified a ch = Ret false → isChainOutdated n a chains = Ret (Some ch).
Proof.
  intros Hnd Hch Hn Hm.
  assert (HU : ∀ c, c ∈ chains → ch_name c = Some n → c = ch).
  { intros c Hc Hcn. eapply (distinct_unique ch_name); [done..|congruence]. }
  clear Hnd. induction chains as [|c chains IH]; [by apply not_elem_of_nil in Hch|]. simpl.
  case_bool_decide as Hc.
  - rewrite (HU c) by (done || left). by rewrite Hm.
  - apply elem_of_cons in Hch as [->|Hch]; [done|]. apply IH; [done|]. intros; apply HU; [by right|done].
Qed.

Lemma stands_not_outdated f rules r x y : distinct_names (GetName <$> rules) → readback x y →
  r ∈ rules → stands_for f x r → isRuleOutdated f (kr_rule y) rules = Ret false.
Proof.
  intros Hnd Hxy Hr ([n Hn] & Hc & He). unfold FirewallReconcile.isRuleOutdated.
  rewrite (proj1 (proj2 Hxy)), Hc, Hn. rewrite <- (Equal_readback r f x y Hxy) in He.
  assert (HU : ∀ r', r' ∈ rules → GetName r' = Some n → r' = r).
  { intros r' Hr' Hn'. eapply (distinct_unique GetName); [done..|congruence]. }
  clear Hnd. induction rules as [|r' rules IH]; [by apply not_elem_of_nil in Hr|]. simpl.
  case_bool_decide as Hn'.
  - rewrite (HU r') by (done || left). by rewrite He.
  - apply elem_of_cons in Hr as [->|Hr]; [done|]. apply IH; [done|]. intros; apply HU; [by right|done].
Qed.

Lemma clean_rules_settled f t ch kc rs n : distinct_names (rule_names ch) → chain_sound f ch kc →
  Forall2 readback (kc_rules kc) rs → clean_rules f t n (FromChainToRulesArray ch) rs = Ret (true, []).
Proof.
  rewrite rule_names_array. unfold chain_sound. intros Hnd. generalize (kc_rules kc) as xs. intros xs Hs HF.
  induction HF as [|x y xs rs Hxy HF IH]; [done|]. simpl.
  destruct (Hs x) as (r & Hr & Hst); [left|]. rewrite (stands_not_outdated _ _ _ _ _ Hnd Hxy Hr Hst). simpl.
  rewrite IH; [done|]. intros z Hz. apply Hs. by right.
Qed.

Lemma cleaned_nothing_to_delete k f t chains l : f ≠ 0 →
  distinct_names (ch_name <$> chains) → Forall (fun ch => distinct_names (rule_names ch)) chains →
  (∀ n, is_Some (GetRules k f t n)) → cleaned f t chains (view k) →
  (∀ n a, (t, n, a) ∈ l → ∃ kc, chain_at (view k) (f, t) n = Some kc ∧ kc_attrs kc = a) →
  clean_chains k f t chains l = Ret (true, []).
Proof.
  intros Hf Hnd Hrn Hg Hcl. rewrite Forall_forall in Hrn.
  induction l as [|[[t' n] a] l IH]; intros Hl; simpl; [done|].
  assert (Hl' : ∀ n a, (t, n, a) ∈ l → ∃ kc, chain_at (view k) (f, t) n = Some kc ∧ kc_attrs kc = a)
    by (intros; apply Hl; by right).
  case_bool_decide as Ht; simpl; [subst t'|by apply IH].
  destruct (Hl n a) as (kc & Hk & Ha); [left|].
  destruct (Hcl n kc Hk) as (ch & Hch & Hn & Hm & Hs). rewrite Ha in Hm.
  rewrite (isChainOutdated_found _ _ _ _ Hnd Hch Hn Hm). simpl. unfold cleanChain.
  destruct (Hg n) as [rs Hrs]. rewrite Hrs. apply GetRules_spec in Hrs; [|done]. rewrite Hk in Hrs.
  rewrite (clean_rules_settled _ _ _ _ _ _ (Hrn _ Hch) Hs Hrs). simpl. by rewrite IH.
Qed.

Lemma add_rules_settled f t n rs wanted :
  (∀ r, r ∈ wanted → is_route r = false → existRule rs r = true) →
  add_rules f t n rs wanted = Ret (true, [], false).
Proof.
  induction wanted as [|r wanted IH]; intros He; simpl; [done|].
  assert (IH' := IH (fun r' Hr' => He r' (list_elem_of_further _ _ _ Hr'))).
  destruct (existRule rs r) eqn:Hr; [done|]. destruct r as [r|r|r]; simpl; [| |by rewrite IH'].
  - rewrite He in Hr; [done|left|done].
  - rewrite He in Hr; [done|left|done].
Qed.

Lemma settled_nothing_to_add k f t chains cs : f ≠ 0 → is_Some (ListChains k f) →
  (∀ n, is_Some (GetRules k f t n)) → settled f t chains (view k) → (∀ c, c ∈ cs → c ∈ chains) →
  distinct_names (ch_name <$> chains) → addChains k f t cs = Ret (true, [], false).
Proof.
  intros Hf [l Hl] Hg (_ & _ & Hall) Hsub Hnd. induction cs as [|c cs IH]; simpl; [done|].
  assert (Hc : c ∈ chains) by (apply Hsub; left).
  assert (Hn : is_Some (ch_name c)).
  { pose proof (distinct_names_some _ Hnd) as HF. rewrite Forall_fmap, Forall_forall in HF. by apply HF. }
  destruct Hn as [n Hn]. destruct (Hall c n Hc Hn) as (kc & Hk & Hr).
  assert (Hp : getChain t (Some n) l = Ret true).
  { assert (Hex : ∃ b, getChain t (Some n) l = Ret b).
    { clear. induction l as [|[[t' n'] a] l IH]; simpl; [by eexists|]. repeat case_bool_decide; simpl; eauto. }
    destruct Hex as [b Hb]. rewrite Hb. f_equal. apply (getChain_spec _ _ _ _ Hb). exists (kc_attrs kc).
    apply (ListChains_spec _ _ _ _ _ _ Hf Hl). by exists kc. }
  unfold FirewallReconcile.add_chain. rewrite Hl, Hn, Hp. simpl. destruct (Hg n) as [rs Hrs]. rewrite Hrs.
  apply GetRules_spec in Hrs; [|done]. rewrite Hk in Hrs. simpl in Hrs.
  rewrite add_rules_settled by (intros; rewrite (existRule_readback _ _ _ Hrs); by apply Hr). simpl.
  rewrite IH by (intros; apply Hsub; by right). done.
Qed.

Lemma settled_stays k tb f t fam : tb_name tb = Some t → tb_family tb = Some fam →
  f = getTableFamily familynum fam → f ≠ 0 → distinct_names (ch_name <$> tb_chains tb) →
  Forall (fun ch => distinct_names (rule_names ch)) (tb_chains tb) →
  is_Some (ListChains k f) → (∀ n, is_Some (GetRules k f t n)) →
  settled f t (tb_chains tb) (view k) →
  cleanTable hooknum familynum PutUint32 Marshal k tb = Ret (true, []) ∧
  addChains k f t (tb_chains tb) = Ret (true, [], false).
Proof.
  intros Ht Hfam -> Hf Hnd Hrn Hl Hg Hs. split; [|by eapply settled_nothing_to_add].
  unfold cleanTable. rewrite Ht, Hfam. set (f := getTableFamily _ _) in *. destruct Hl as [l Hl]. rewrite Hl.
  assert (HC : clean_chains k f t (tb_chains tb) l = Ret (true, [])).
  { apply cleaned_nothing_to_delete; [done..|apply Hs|].
    intros n a Hin. by apply (ListChains_spec _ _ _ _ _ _ Hf Hl). }
  by destruct l.
Qed.

(** ** Chains that were not there *)

Lemma new_chain_rules c tb f t fam b c' ch n : cn_queue c = [] →
  tb_name tb = Some t → tb_family tb = Some fam → f = getTableFamily familynum fam → f ≠ 0 →
  distinct_names (ch_name <$> tb_chains tb) →
  apply_table hooknum familynum PutUint32 Marshal c tb = Ret (true, b, c') →
  ch ∈ tb_chains tb → ch_name ch = Some n → chain_at (view (cn_kernel c)) (f, t) n = None →
  ∃ kc, chain_at (view (cn_kernel c')) (f, t) n = Some kc ∧ forgeable f (FromChainToRulesArray ch) ∧
    kr_rule <$> kc_rules kc = forged f (FromChainToRulesArray ch).
Proof.
  intros Hq Ht Hfam Hff Hf Hnd Ha Hch Hn Hnone.
  destruct (apply_table_phases _ _ _ _ _ _ _ Hq Ht Hfam Hff Ha) as (ops1 & c1 & ops2 & H1 & Hb1 & H2 & Hb2 & _).
  assert (Hnone1 : chain_at (view (cn_kernel c1)) (f, t) n = None).
  { unfold cleanTable in H1. rewrite Ht, Hfam, <- Hff in H1. destruct (ListChains (cn_kernel c) f) as [l|]; [|done].
    assert (HC : clean_chains (cn_kernel c) f t (tb_chains tb) l = Ret (true, ops1)) by (by destruct l).
    apply clean_chains_spec in HC as (Hd & Ho & _).
    destruct (chain_at (view (cn_kernel c1)) (f, t) n) as [kc|] eqn:Hk; [|done].
    destruct (deletions_effect _ _ _ _ _ _ _ Hd Ho Hb1 Hk) as (_ & ? & ? & _). congruence. }
  destruct (add_table_effect _ _ _ _ _ Hb2) as (w & Hbw & Hex & _ & Hw).
  destruct (addChains_effect _ _ _ _ _ _ _ _ Hf Hnd H2 Hbw Hex) as (_ & _ & Hgr); [by intros; apply Hw|].
  destruct (Hgr ch n Hch Hn) as (kc & Hk & Hg). rewrite Hnone1 in Hg. destruct Hg as (_ & Hfo & new & Hr & Hnew).
  simpl in *. assert (Hm : missing [] (FromChainToRulesArray ch) = FromChainToRulesArray ch).
  { clear. unfold missing. induction (FromChainToRulesArray ch) as [|r rs IH]; [done|]. simpl. f_equal. exact IH. }
  rewrite Hm in *. exists kc. split; [done|]. split; [done|]. by rewrite Hr.
Qed.

(** ** The rules a reconciliation leaves *)

(** Every rule of a chain afterwards is the compiled form of a rule of the
    configuration, or it was there and stands for one. *)
Lemma rules_left c tb f t fam b c' ch n kc x : cn_queue c = [] →
  tb_name tb = Some t → tb_family tb = Some fam → f = getTableFamily familynum fam → f ≠ 0 →
  distinct_names (ch_name <$> tb_chains tb) →
  apply_table hooknum familynum PutUint32 Marshal c tb = Ret (true, b, c') →
  ch ∈ tb_chains tb → ch_name ch = Some n → chain_at (view (cn_kernel c')) (f, t) n = Some kc →
  x ∈ kc_rules kc →
  ∃ r, r ∈ FromChainToRulesArray ch ∧
    (Forge r f = Ret (Ok (Some (kr_rule x))) ∨
     stands_for f x r ∧ ∃ old, chain_at (view (cn_kernel c)) (f, t) n = Some old ∧ x ∈ kc_rules old).
Proof.
  intros Hq Ht Hfam Hff Hf Hnd Ha Hch Hn Hk Hx.
  destruct (apply_table_phases _ _ _ _ _ _ _ Hq Ht Hfam Hff Ha) as (ops1 & c1 & ops2 & H1 & Hb1 & H2 & Hb2 & _).
  destruct (cleanTable_effect _ _ _ _ _ _ _ Ht Hfam Hff Hf H1 Hb1) as [Hcl _].
  destruct (add_table_effect _ _ _ _ _ Hb2) as (w & Hbw & Hex & _ & Hw).
  destruct (addChains_effect _ _ _ _ _ _ _ _ Hf Hnd H2 Hbw Hex) as (_ & _ & Hgr); [by intros; apply Hw|].
  destruct (Hgr ch n Hch Hn) as (kc' & Hk' & (_ & Hfo & new & Hr & Hnew)).
  assert (kc' = kc) as -> by congruence. rewrite Hr in Hx. apply elem_of_app in Hx as [Hx|Hx].
  - destruct (chain_at (view (cn_kernel c1)) (f, t) n) as [mid|] eqn:Hmid; [|by apply not_elem_of_nil in Hx].
    destruct (Hcl n mid Hmid) as (ch' & Hch' & Hn' & _ & Hs).
    assert (ch' = ch) as -> by (eapply (distinct_unique ch_name); [done..|congruence]).
    destruct (Hs x Hx) as (r & Hr' & Hst). exists r. split; [done|]. right. split; [done|].
    unfold cleanTable in H1. rewrite Ht, Hfam, <- Hff in H1. destruct (ListChains (cn_kernel c) f) as [l|]; [|done].
    assert (HC : clean_chains (cn_kernel c) f t (tb_chains tb) l = Ret (true, ops1)) by (by destruct l).
    apply clean_chains_spec in HC as (Hd & Ho & _).
    destruct (deletions_effect _ _ _ _ _ _ _ Hd Ho Hb1 Hmid) as (_ & old & Hold & _ & Hsub).
    exists old. split; [done|]. by apply Hsub.
  - apply (list_elem_of_fmap_2 kr_rule) in Hx. rewrite Hnew in Hx.
    apply list_elem_of_omap in Hx as (r & Hr' & He). exists r. split.
    + apply list_elem_of_In, filter_In in Hr' as [Hr' _]. by apply list_elem_of_In.
    + left. destruct (Forge r f) as [[o|]| |]; simplify_eq. done.
Qed.

(** What the tests of the code say, spelled out.  A rule is recognised when it
    has as many expressions as the compiled one and each of them is encoded like
    one of its expressions; counters, reads of the route's MSS and byte swaps are
    left out. *)
Definition lasting (e : Expr) : Prop :=
  match e with Counter _ _ | RtTCPMSS _ | ByteorderHton _ _ _ _ => False | _ => True end.
#[global] Instance lasting_dec e : Decision (lasting e).
Proof. destruct e; simpl; apply _. Defined.
Definition same_expressions (x new : nftRule) : Prop :=
  length (filter lasting (nft_exprs x)) = length (filter lasting (nft_exprs new)) ∧
  ∀ e, e ∈ nft_exprs x → lasting e → ∃ e', e' ∈ nft_exprs new ∧ lasting e' ∧ Marshal e = Marshal e'.

Lemma filterUnstable_lasting es : filterUnstableExprs es = filter lasting es.
Proof.
  unfold filterUnstableExprs. induction es as [|e es IH]; [done|]. rewrite filter_cons. simpl. rewrite IH.
  by destruct e.
Qed.

Lemma find_equal_sound bytes new : find_equal Marshal bytes new = Some true →
  ∃ e, e ∈ new ∧ Marshal e = Some bytes.
Proof.
  induction new as [|e new IH]; [done|]. simpl. destruct (Marshal e) as [b|] eqn:Hb; simpl; [|done].
  case_bool_decide as E; [intros _; subst; exists e; split; [left|done]|].
  intros (e' & ? & ?)%IH. exists e'. split; [by right|done].
Qed.

Lemma all_found_sound current new e : all_found Marshal current new = true → e ∈ current →
  ∃ e', e' ∈ new ∧ Marshal e = Marshal e'.
Proof.
  induction current as [|x current IH]; [by intros _ []%not_elem_of_nil|]. simpl.
  destruct (Marshal x) as [b|] eqn:Hb; simpl; [|done].
  destruct (find_equal Marshal b new) as [[]|] eqn:Hf; [|done..]. intros Hc [->|Hin]%elem_of_cons; [|auto].
  apply find_equal_sound in Hf as (e' & ? & ?). exists e'. split; [done|congruence].
Qed.

Lemma compare_sound x new : compareRuleExpressions Marshal (nft_exprs x) (nft_exprs new) = true →
  same_expressions x new.
Proof.
  unfold compareRuleExpressions. rewrite !filterUnstable_lasting.
  intros [Hl%Nat.eqb_eq Hf]%andb_true_iff. split; [done|]. intros e He Hs.
  destruct (all_found_sound _ _ e Hf) as (e' & [? ?]%list_elem_of_filter & ?); [by apply list_elem_of_filter|].
  by exists e'.
Qed.

Lemma stands_for_same f x r : stands_for f x r → is_route r = false →
  ∃ new, Forge r f = Ret (Ok (Some new)) ∧ same_expressions (kr_rule x) new.
Proof.
  intros (_ & _ & He) Hr. destruct r as [r|r|r]; [| |done]; simpl in *; unfold FilterRule_Equal, NatRule_Equal in He.
  - destruct (forgeFilterRule PutUint32 r) as [[new|]| |]; try done. injection He as He. exists new.
    split; [done|by apply compare_sound].
  - destruct (forgeNatRule r f) as [[new|]| |]; try done. injection He as He. exists new.
    split; [done|by apply compare_sound].
Qed.

(** The attributes the configuration gives are those of the kernel. *)
Definition attrs_match (ch : Chain) (a : chainAttrs) : Prop :=
  (ch_type ch ≠ ChainTypeOther "" → ca_type a = ch_type ch) ∧
  (∀ h, ch_hook ch = Some h → ca_hook a = Some (hooknum h)) ∧
  (∀ p, ch_priority ch = Some p → ca_priority a = Some p) ∧
  (∀ p, ch_policy ch = Some p → ca_policy a = Some p).

Lemma getHooknum_inv n h : getHooknum hooknum n = h → h ≠ ChainHookOther "" → n = hooknum h.
Proof.
  unfold getHooknum. repeat (case_match eqn:E; [apply Z.eqb_eq in E; by intros <-|clear E]). by intros <-.
Qed.

Lemma not_modified_attrs ch a : chain_plain ch → isChainModified a ch = Ret false → attrs_match ch a.
Proof.
  intros (Ht & [p Hp] & (h & Hh & Hs & Hg) & Hpol). unfold FirewallReconcile.isChainModified.
  destruct (negb _ && negb _) eqn:Hty; [done|]. rewrite Hh, Hp.
  destruct (ca_hook a) as [k|] eqn:Hca; [|done]. simpl.
  destruct (bool_decide_reflect (h = getHooknum hooknum k)) as [Hk|]; simpl; [|done].
  destruct (ca_priority a) as [q|] eqn:Hq; [|done]. simpl. destruct (Z.eqb_spec p q) as [->|]; simpl; [|done].
  intros Hrest. split_and!.
  - intros Ho. rewrite bool_decide_false in Hty by done. simpl in Hty.
    apply negb_false_iff, bool_decide_eq_true in Hty.
    destruct (ca_type a); simpl in Hty; congruence.
  - intros h' Hh'. assert (h' = h) as -> by congruence. rewrite Hca. f_equal.
    apply getHooknum_inv; [done|]. by intros ->.
  - congruence.
  - intros p' Hp'. rewrite Hp' in Hrest. destruct (ca_policy a) as [q'|]; [|done].
    simpl in Hrest. injection Hrest as Hr%negb_false_iff. apply bool_decide_eq_true in Hr.
    specialize (Hpol p' Hp'). f_equal. destruct q', p'; simpl in *; congruence.
Qed.
End converge.
