(* ===== verification/FirewallConvergeProps.v ===== *)
(** * FirewallConvergeProps: what a reconciliation of a firewall configuration does

    An executable kernel that satisfies the laws of the connection, and the
    properties of the reconciler: convergence, idempotence, the order of rules, and
    three behaviours that leave the kernel different from the configuration. *)

From S2P Require Export FirewallConverge.
Local Open Scope Z_scope.

(** ** A kernel *)

Definition next_handle (k : kchain) : Z := 1 + foldr Z.max 0 (kr_handle <$> kc_rules k).

Definition run_op (v : kview) (o : nft_op) : kview :=
  match o with
  | OpAddTable f t => <[(f, t) := default ∅ (v !! (f, t))]> v
  | OpDelTable f t => filter (fun e => ¬ (snd (fst e) = t ∧ (f = 0 ∨ f = fst (fst e)))) v
  | OpAddChain f t c a => alter (fun m => <[c := default (mkKchain a []) (m !! c)]> m) (f, t) v
  | OpDelChain f t c => alter (delete c) (f, t) v
  | OpAddRule f t c r =>
    on_chain (f, t) c (fun k => mkKchain (kc_attrs k) (kc_rules k ++
      [mkKrule (default 1 (next_handle <$> chain_at v (f, t) c)) r])) v
  | OpDelRule f t c h =>
    on_chain (f, t) c (fun k => mkKchain (kc_attrs k)
      (List.filter (fun x => negb (kr_handle x =? h)) (kc_rules k))) v
  end.

Lemma handle_le l x : x ∈ l → kr_handle x ≤ foldr Z.max 0 (kr_handle <$> l).
Proof.
  induction l as [|y l IH]; [by intros []%not_elem_of_nil|].
  rewrite fmap_cons. intros [->|H%IH]%elem_of_cons; simpl; lia.
Qed.

Lemma next_handle_fresh k x : x ∈ kc_rules k → kr_handle x ≠ next_handle k.
Proof. intros H%handle_le. unfold next_handle. lia. Qed.

Lemma run_op_effect v o : op_effect o v (run_op v o).
Proof.
  destruct o; simpl; try constructor; [by repeat split|].
  intros m k x Hm Hc Hx. unfold chain_at. rewrite Hm. simpl. rewrite Hc. simpl. by apply next_handle_fresh.
Qed.

Lemma run_ops_effect ops v : batch_effect ops v (fold_left run_op ops v).
Proof.
  revert v. induction ops as [|o ops IH]; intros v; simpl; [constructor|].
  econstructor; [apply run_op_effect|apply IH].
Qed.

Definition list_chains (v : kview) (f : Z) : list (string * string * chainAttrs) :=
  '((f', t), m) ← map_to_list v;
  if f' =? f then (fun e => (t, fst e, kc_attrs (snd e))) <$> map_to_list m else [].

Lemma list_chains_spec v f t c a :
  (t, c, a) ∈ list_chains v f ↔ ∃ kc, chain_at v (f, t) c = Some kc ∧ kc_attrs kc = a.
Proof.
  unfold list_chains, chain_at. rewrite list_elem_of_bind. split.
  - intros ([[f' t'] m] & Hin & Hm%elem_of_map_to_list). destruct (Z.eqb_spec f' f) as [->|];
      [|by apply not_elem_of_nil in Hin].
    apply list_elem_of_fmap in Hin as ([c' kc] & [= -> -> ->] & Hc%elem_of_map_to_list).
    exists kc. by rewrite Hm.
  - intros (kc & Hk & <-). destruct (v !! (f, t)) as [m|] eqn:Hm; [|done]. simpl in Hk.
    exists ((f, t), m). split; [|by apply elem_of_map_to_list]. rewrite Z.eqb_refl.
    apply list_elem_of_fmap. exists (c, kc). split; [done|by apply elem_of_map_to_list].
Qed.

Definition get_rules (v : kview) (f : Z) (t c : string) : list krule :=
  default [] (kc_rules <$> chain_at v (f, t) c).

#[export] Program Instance view_conn : NftConn := {|
  kernel := kview; view := fun v => v;
  ListChains := fun v f => Some (list_chains v f);
  GetRules := fun v f t c => Some (get_rules v f t c);
  Flush := fun v ops => Some (fold_left run_op ops v)
|}.
Next Obligation. intros k f l t c a _ [= <-]. apply list_chains_spec. Qed.
Next Obligation.
  intros k f t c l _ [= <-]. unfold get_rules. apply Forall_Forall2_diag, Forall_true. by repeat split.
Qed.
Next Obligation. intros k ops k' [= <-]. apply run_ops_effect. Qed.

(** Concrete constants: the hooks and families of the kernel's headers, where the
    ingress hook has the number of the prerouting one. *)
Definition ex_hooknum (h : ChainHook) : Z :=
  match h with
  | ChainHookPrerouting | ChainHookIngress => 0 | ChainHookInput => 1 | ChainHookForward => 2
  | ChainHookOutput => 3 | ChainHookPostrouting => 4 | ChainHookOther _ => -1
  end.
Definition ex_familynum (f : TableFamily) : Z :=
  match f with
  | TableFamilyINet => 1 | TableFamilyIPv4 => 2 | TableFamilyARP => 3 | TableFamilyNetdev => 5
  | TableFamilyBridge => 7 | TableFamilyIPv6 => 10 | TableFamilyOther _ => 0
  end.
Definition ex_marshal (e : Expr) : option (list Z) :=
  Some (match e with
        | Cmp _ r d => r :: d
        | Immediate r d => r :: d
        | Payload r _ o l => [r; o; l]
        | Verdict VerdictDrop => [0]
        | Verdict _ => [1]
        | _ => []
        end).

(** ** Concrete tables *)

Definition ex_rule (name src : string) (a : FilterAction) : FilterRule :=
  mkFilterRule (Some name) false [ex_ip src MatchPositionSrc] a None.
Definition ex_chain (rules : list FilterRule) : Chain :=
  mkChain (Some "c"%string) (mkRulesSet None (Some rules) None) ChainTypeFilter
          (Some ChainPolicyAccept) (Some ChainHookPrerouting) (Some 0).
Definition ex_table (chains : list Chain) : Table := mkTable (Some "t"%string) chains (Some TableFamilyIPv4).
Definition ex_nat (to : string) : Chain :=
  mkChain (Some "n"%string)
    (mkRulesSet (Some [mkNatRule (Some "d"%string) [] NatTypeDestination (Some to)]) None None)
    ChainTypeNAT (Some ChainPolicyAccept) (Some ChainHookPrerouting) (Some (-100)).

(** The names of the rules of the chain "c" of the table "t", in order. *)
Definition ex_names (v : kview) : list (option string) :=
  (fun x => nft_comment (kr_rule x)) <$> get_rules v 2 "t" "c".

Notation ex_apply := (apply_table (NC := view_conn) ex_hooknum ex_familynum (be_bytes 4) ex_marshal).
Notation ex_reconcile := (Reconcile (NC := view_conn) ex_hooknum ex_familynum (be_bytes 4) ex_marshal).

(** ** Properties *)

(** What admission guarantees of a table: names, distinct chains and rules, and
    attributes the kernel gives back unchanged. *)
Definition reconcilable (hooknum : ChainHook → Z) (familynum : TableFamily → Z) (tb : Table)
    (f : Z) (t : string) : Prop :=
  tb_name tb = Some t ∧
  (∃ fam, tb_family tb = Some fam ∧ f = getTableFamily familynum fam) ∧ f ≠ 0 ∧
  distinct_names (ch_name <$> tb_chains tb) ∧ Forall (chain_plain hooknum) (tb_chains tb) ∧
  Forall (fun ch => distinct_names (rule_names ch)) (tb_chains tb).

Section properties.
Context {NC : NftConn}.
Context (hooknum : ChainHook → Z) (familynum : TableFamily → Z) (PutUint32 : Z → list Z).
Context (Marshal : Expr → option (list Z)).

Lemma reconcile_applies enableFinalizer updates_ok evict_ok tb finalizer fin' c c' :
  (enableFinalizer = true → finalizer = true) →
  Reconcile hooknum familynum PutUint32 Marshal enableFinalizer updates_ok evict_ok
    (GetOk tb false finalizer) c = Ret (true, fin', c') →
  ∃ b, apply_table hooknum familynum PutUint32 Marshal c tb = Ret (true, b, c').
Proof.
  intros Hfin. unfold Reconcile. simpl.
  destruct (enableFinalizer && negb finalizer) eqn:He; [destruct enableFinalizer, finalizer; naive_solver|].
  intros ([[ok b] c1] & Ha & [= Hok <- <-])%Ret_bind. destruct ok; [|done]. by exists b.
Qed.


(** A second reconciliation changes nothing.  After one that succeeded, as long
    as the kernel can be listed, the pass that deletes finds nothing outdated and
    the pass that adds finds nothing missing and reports no new notrack rule. *)
Theorem reconcile_idempotent (enableFinalizer updates_ok evict_ok finalizer fin' : bool) (tb : Table)
    (f : Z) (t : string) (c c' : conn) :
  (∀ e, is_Some (Marshal e)) → reconcilable hooknum familynum tb f t → cn_queue c = [] →
  (enableFinalizer = true → finalizer = true) →
  Reconcile hooknum familynum PutUint32 Marshal enableFinalizer updates_ok evict_ok
    (GetOk tb false finalizer) c = Ret (true, fin', c') →
  is_Some (ListChains (cn_kernel c') f) → (∀ n, is_Some (GetRules (cn_kernel c') f t n)) →
  cleanTable hooknum familynum PutUint32 Marshal (cn_kernel c') tb = Ret (true, []) ∧
  addChains hooknum PutUint32 (cn_kernel c') f t (tb_chains tb) = Ret (true, [], false).
Proof.
  intros HM (Ht & (fam & Hfam & Hff) & Hf & Hnd & Hpl & Hrn) Hq Hfin (b & Ha)%reconcile_applies Hl Hg; [|done].
  eapply settled_stays; [done..|]. by eapply apply_table_settles.
Qed.

(** A chain that was not in the kernel gets the rules in the order of the
    configuration: the kernel holds the forged rules, all of them and in order. *)
Theorem new_chain_in_order (enableFinalizer updates_ok evict_ok finalizer fin' : bool) (tb : Table)
    (f : Z) (t : string) (c c' : conn) (ch : Chain) (n : string) :
  reconcilable hooknum familynum tb f t → cn_queue c = [] → (enableFinalizer = true → finalizer = true) →
  Reconcile hooknum familynum PutUint32 Marshal enableFinalizer updates_ok evict_ok
    (GetOk tb false finalizer) c = Ret (true, fin', c') →
  ch ∈ tb_chains tb → ch_name ch = Some n → chain_at (view (cn_kernel c)) (f, t) n = None →
  ∃ kc, chain_at (view (cn_kernel c')) (f, t) n = Some kc ∧
    forgeable PutUint32 f (FromChainToRulesArray ch) ∧
    kr_rule <$> kc_rules kc = forged PutUint32 f (FromChainToRulesArray ch).
Proof.
  intros (Ht & (fam & Hfam & Hff) & Hf & Hnd & Hpl & Hrn) Hq Hfin (b & Ha)%reconcile_applies Hch Hn Hno; [|done].
  by eapply new_chain_rules.
Qed.

(** The finalizer is given up only once the table is gone.  When the
    configuration is being deleted and a reconciliation ends without the
    finalizer it had, no table of that name is left in any family and every other
    table is as it was. *)
Theorem finalizer_after_deletion (updates_ok evict_ok ok : bool) (tb : Table) (t : string) (c c' : conn) :
  tb_name tb = Some t → cn_queue c = [] →
  Reconcile hooknum familynum PutUint32 Marshal true updates_ok evict_ok (GetOk tb true true) c
    = Ret (ok, false, c') →
  ok = true ∧ (∀ f, view (cn_kernel c') !! (f, t) = None) ∧
  ∀ f t', t' ≠ t → view (cn_kernel c') !! (f, t') = view (cn_kernel c) !! (f, t').
Proof.
  intros Ht Hq. unfold Reconcile. simpl. rewrite Ht, Hq. simpl.
  destruct (flush _) as [okf c1] eqn:Hfl. destruct okf; simpl; [|done].
  intros [= -> Hu <-]. apply negb_false_iff in Hu as ->. apply flush_ok in Hfl as [Hb _]. simpl in Hb.
  inversion Hb as [|? ? ? w ? Ho Hb']; subst. inversion Hb'; subst. inversion Ho; subst.
  split; [done|]. split.
  - intros f. apply map_lookup_filter_None. right. intros x _ Hn. apply Hn. simpl. split; [done|by left].
  - intros f t' Hne. destruct (view (cn_kernel c) !! (f, t')) as [m|] eqn:Hm.
    + apply map_lookup_filter_Some. split; [done|]. simpl. naive_solver.
    + apply map_lookup_filter_None. by left.
Qed.
End properties.

(** ** Concrete runs *)

Definition ex_empty : conn (NC := view_conn) := mkConn (NC := view_conn) ∅ [].
Definition ex_after (o : outcome (bool * bool * conn (NC := view_conn))) : conn (NC := view_conn) :=
  match o with Ret (_, _, c) => c | _ => ex_empty end.
Definition ex_status (o : outcome (bool * bool * conn (NC := view_conn))) : option (bool * bool) :=
  match o with Ret (ok, fin, _) => Some (ok, fin) | _ => None end.
Lemma ex_status_after o ok fin : ex_status o = Some (ok, fin) → o = Ret (ok, fin, ex_after o).
Proof. destruct o as [[[? ?] ?]| |]; [|done..]. by intros [= -> ->]. Qed.

(** The table with the rules "a", for the given source, and "b". *)
Definition ex_two (src : string) : Table :=
  ex_table [ex_chain [ex_rule "a" src ActionDrop; ex_rule "b" "10.0.0.0/8" ActionAccept]].
Definition ex_run (tb : Table) (c : conn (NC := view_conn)) :=
  ex_reconcile false true true (GetOk tb false false) c.

Lemma ex_two_reconcilable src : reconcilable ex_hooknum ex_familynum (ex_two src) 2 "t".
Proof.
  split; [done|]. split; [by exists TableFamilyIPv4|]. split; [done|]. split.
  - exists ["c"%string]. split; [done|]. by apply NoDup_singleton.
  - split; constructor; try constructor.
    + done.
    + split; [by eexists|]. split; [by exists ChainHookPrerouting|]. by intros p [= <-].
    + exists ["a"; "b"]%string. split; [done|]. repeat constructor; set_solver.
Qed.


Lemma reconcile_idempotent_witness :
  cleanTable (NC := view_conn) ex_hooknum ex_familynum (be_bytes 4) ex_marshal
    (cn_kernel (ex_after (ex_run (ex_two "10.0.0.1") ex_empty))) (ex_two "10.0.0.1") = Ret (true, []).
Proof.
  refine (proj1 (reconcile_idempotent (NC := view_conn) ex_hooknum ex_familynum (be_bytes 4) ex_marshal
    false true true false false (ex_two "10.0.0.1") 2 "t" ex_empty
    (ex_after (ex_run (ex_two "10.0.0.1") ex_empty)) _ (ex_two_reconcilable _) _ _ _ _ _)).
  - intros e. by eexists.
  - reflexivity.
  - done.
  - apply ex_status_after. vm_compute. reflexivity.
  - by eexists.
  - intros n. by eexists.
Defined.

Lemma new_chain_in_order_witness :
  ∃ kc, chain_at (view (cn_kernel (ex_after (ex_run (ex_two "10.0.0.1") ex_empty)))) (2, "t"%string) "c" = Some kc ∧
    forgeable (be_bytes 4) 2 (FromChainToRulesArray
      (ex_chain [ex_rule "a" "10.0.0.1" ActionDrop; ex_rule "b" "10.0.0.0/8" ActionAccept])) ∧
    kr_rule <$> kc_rules kc = forged (be_bytes 4) 2 (FromChainToRulesArray
      (ex_chain [ex_rule "a" "10.0.0.1" ActionDrop; ex_rule "b" "10.0.0.0/8" ActionAccept])).
Proof.
  refine (new_chain_in_order (NC := view_conn) ex_hooknum ex_familynum (be_bytes 4) ex_marshal
    false true true false false (ex_two "10.0.0.1") 2 "t" ex_empty
    (ex_after (ex_run (ex_two "10.0.0.1") ex_empty)) _ "c" (ex_two_reconcilable _) _ _ _ _ _ _).
  - reflexivity.
  - done.
  - apply ex_status_after. vm_compute. reflexivity.
  - left.
  - reflexivity.
  - reflexivity.
Defined.

Lemma finalizer_after_deletion_witness :
  view (cn_kernel (ex_after (ex_reconcile true true true (GetOk (ex_two "10.0.0.1") true true)
          (mkConn (NC := view_conn) {[ (2, "t"%string) := ∅ ]} [])))) !! (2, "t"%string) = None.
Proof.
  refine (proj1 (proj2 (finalizer_after_deletion (NC := view_conn) ex_hooknum ex_familynum (be_bytes 4)
    ex_marshal true true true (ex_two "10.0.0.1") "t" (mkConn (NC := view_conn) {[ (2, "t"%string) := ∅ ]} [])
    (ex_after (ex_reconcile true true true (GetOk (ex_two "10.0.0.1") true true)
          (mkConn (NC := view_conn) {[ (2, "t"%string) := ∅ ]} []))) _ _ _)) 2).
  - reflexivity.
  - reflexivity.
  - apply ex_status_after. vm_compute. reflexivity.
Defined.

(** The order of the rules of an existing chain is not restored.  With the
    rules "a" (drop) and "b" (accept) in place, a change of the source of "a"
    deletes it and appends it again: the reconciliation succeeds and "b" is now
    first, so "a" has no effect on the packets "b" accepts. *)
Theorem modified_rule_moves_last :
  let c1 := ex_after (ex_run (ex_two "10.0.0.1") ex_empty) in
  let r2 := ex_run (ex_two "10.0.0.3") c1 in
  ex_names (cn_kernel c1) = [Some "a"; Some "b"]%string ∧
  ex_status r2 = Some (true, false) ∧ ex_names (cn_kernel (ex_after r2)) = [Some "b"; Some "a"]%string ∧
  rule_names (ex_chain [ex_rule "a" "10.0.0.3" ActionDrop; ex_rule "b" "10.0.0.0/8" ActionAccept])
    = [Some "a"; Some "b"]%string.
Proof. repeat split; vm_compute; reflexivity. Qed.

(** The rule "a" for the given source, and a NAT chain with the given target. *)
Definition ex_stale (src to : string) : Table :=
  ex_table [ex_chain [ex_rule "a" src ActionDrop]; ex_nat to].
Definition ex_exprs (v : kview) : list (list Expr) :=
  (fun x => nft_exprs (kr_rule x)) <$> get_rules v 2 "t" "c".

(** Messages of a failed reconciliation are applied by the next one.  A
    configuration whose NAT target does not parse passes the webhook and fails
    after the rule "a" has been queued; when the target is corrected and the
    source of "a" changed at the same time, the next reconciliation flushes the old
    "a" with its deletions, takes it for the wanted one because of its name, and
    succeeds although the kernel drops the old source. *)
Theorem stale_messages_applied :
  let r1 := ex_run (ex_stale "10.0.0.1" "nowhere") ex_empty in
  let c1 := ex_after r1 in
  let r2 := ex_run (ex_stale "10.0.0.3" "10.0.0.9") c1 in
  ex_status r1 = Some (false, false) ∧ List.length (cn_queue c1) = 4%nat ∧ cn_kernel c1 = ∅ ∧
  ex_status r2 = Some (true, false) ∧
  ex_exprs (cn_kernel (ex_after r2))
    = nft_exprs <$> forged (be_bytes 4) 2 [FilterR (ex_rule "a" "10.0.0.1" ActionDrop)] ∧
  ex_exprs (cn_kernel (ex_after r2))
    ≠ nft_exprs <$> forged (be_bytes 4) 2 [FilterR (ex_rule "a" "10.0.0.3" ActionDrop)] ∧
  validate_Handle false (Some [])
    (Some (mkFirewallConfiguration "u" ∅ (ex_stale "10.0.0.1" "nowhere"))) None = Ret FwAllowed.
Proof.
  do 5 (split; [vm_compute; reflexivity|]). split; [vm_compute; discriminate|vm_compute; reflexivity].
Qed.

(** An ingress chain is deleted and created again by every reconciliation when
    the ingress and prerouting hooks have the same number, as they do in nftables:
    whatever attributes the kernel reports, the chain counts as modified. *)
Theorem ingress_always_outdated (hooknum : ChainHook → Z) (a : chainAttrs) (c : Chain) (n : Z) :
  hooknum ChainHookIngress = hooknum ChainHookPrerouting →
  ch_hook c = Some ChainHookIngress → ca_hook a = Some n → isChainModified hooknum a c = Ret true.
Proof.
  intros He Hh Ha. unfold isChainModified. case_match; [done|]. rewrite Hh, Ha. simpl.
  rewrite bool_decide_false; [done|]. unfold getHooknum. rewrite He.
  repeat case_match; done.
Qed.

Lemma ingress_always_outdated_witness :
  isChainModified ex_hooknum (mkAttrs ChainTypeFilter (Some 0) (Some 0) None)
    (mkChain (Some "i"%string) (mkRulesSet None None None) ChainTypeFilter None (Some ChainHookIngress) (Some 0))
  = Ret true.
Proof. by eapply (ingress_always_outdated ex_hooknum _ _ 0). Defined.
