(* ===== verification/Kube.v ===== *)
(** * Kube: Kubernetes objects and the API server as an interface

    The controllers read objects from caches and write them through a client.
    The server is not part of the repository: a type of servers with the four
    calls the code uses, and the documented effect of a call that succeeds
    (optimistic locking, the status subresource, finalizers).  The content of
    spec and status is a type the code only copies and compares. *)

From S2P Require Export Prelude.
Local Open Scope Z_scope.

(** Errors the code tells apart. *)
Inductive kerr := Forbidden | NotFound | AlreadyExists | Conflict | OtherErr.

#[export] Instance kerr_eq_dec : EqDecision kerr.
Proof. solve_decision. Defined.

(** A top-level key of an unstructured object: missing, not a map, or a map. *)
Inductive field (P : Type) := Absent | NotAMap | AMap (p : P).
Arguments Absent {P}.
Arguments NotAMap {P}.
Arguments AMap {P} p.

Notation labels := (gmap string string).

Record Obj (P : Type) := mkObj {
  o_labels : labels; o_annotations : labels; o_finalizers : list string;
  o_deleting : bool; o_version : Z; o_spec : field P; o_status : field P
}.
Arguments mkObj {P}.
Arguments o_labels {P}.
Arguments o_annotations {P}.
Arguments o_finalizers {P}.
Arguments o_deleting {P}.
Arguments o_version {P}.
Arguments o_spec {P}.
Arguments o_status {P}.

Definition set_finalizers {P} (o : Obj P) (fs : list string) : Obj P :=
  mkObj (o_labels o) (o_annotations o) fs (o_deleting o) (o_version o) (o_spec o) (o_status o).
Definition set_spec {P} (o : Obj P) (x : field P) : Obj P :=
  mkObj (o_labels o) (o_annotations o) (o_finalizers o) (o_deleting o) (o_version o) x (o_status o).
Definition set_status {P} (o : Obj P) (x : field P) : Obj P :=
  mkObj (o_labels o) (o_annotations o) (o_finalizers o) (o_deleting o) (o_version o) (o_spec o) x.

(** Resource, namespace and name. *)
Notation okey := (string * string * string)%type.

(** The parts of an object other than spec, status and version. *)
Definition same_meta {P} (o o' : Obj P) : Prop :=
  o_labels o' = o_labels o ∧ o_annotations o' = o_annotations o ∧ o_finalizers o' = o_finalizers o.

(** An object whose last finalizer is removed while it is being deleted goes. *)
Definition store_obj {P} (k : okey) (o : Obj P) (m : gmap okey (Obj P)) : gmap okey (Obj P) :=
  if o_deleting o && bool_decide (o_finalizers o = []) then delete k m else <[k := o]> m.

(** The effects of the calls on the content of a server, with the object they
    return.  A new object has no status yet; an update needs the current version
    and keeps the status; a status update keeps the rest; a deletion waits for the
    finalizers. *)
Definition create_eff {P} (k : okey) (o : Obj P) (m : gmap okey (Obj P)) (o' : Obj P)
    (m' : gmap okey (Obj P)) : Prop :=
  m !! k = None ∧ m' = <[k := o']> m ∧ same_meta o o' ∧ o_spec o' = o_spec o ∧
  o_status o' = Absent ∧ o_deleting o' = false.
Definition update_eff {P} (k : okey) (o : Obj P) (m : gmap okey (Obj P)) (o' : Obj P)
    (m' : gmap okey (Obj P)) : Prop :=
  ∃ cur, m !! k = Some cur ∧ o_version o = o_version cur ∧ m' = store_obj k o' m ∧
    same_meta o o' ∧ o_spec o' = o_spec o ∧ o_status o' = o_status cur ∧ o_deleting o' = o_deleting cur.
Definition update_status_eff {P} (k : okey) (o : Obj P) (m : gmap okey (Obj P)) (o' : Obj P)
    (m' : gmap okey (Obj P)) : Prop :=
  ∃ cur, m !! k = Some cur ∧ o_version o = o_version cur ∧ m' = store_obj k o' m ∧
    same_meta cur o' ∧ o_spec o' = o_spec cur ∧ o_status o' = o_status o ∧ o_deleting o' = o_deleting cur.
Definition delete_eff {P} (k : okey) (m m' : gmap okey (Obj P)) : Prop :=
  ∃ cur o', m !! k = Some cur ∧ m' = store_obj k o' m ∧ same_meta cur o' ∧ o_spec o' = o_spec cur ∧
    o_status o' = o_status cur ∧ o_deleting o' = true.

(** A call that fails has had its effect (a lost answer) or none. *)
Class KubeApi (P : Type) := {
  server : Type;
  content : server → gmap okey (Obj P);
  Create : okey → Obj P → server → server * result kerr (Obj P);
  Update : okey → Obj P → server → server * result kerr (Obj P);
  UpdateStatus : okey → Obj P → server → server * result kerr (Obj P);
  Delete : okey → server → server * result kerr ();
  Create_ok k o s s' o' : Create k o s = (s', Ok o') → create_eff k o (content s) o' (content s');
  Create_err k o s s' e : Create k o s = (s', Err e) →
    content s' = content s ∨ ∃ o', create_eff k o (content s) o' (content s');
  Update_ok k o s s' o' : Update k o s = (s', Ok o') → update_eff k o (content s) o' (content s');
  Update_err k o s s' e : Update k o s = (s', Err e) →
    content s' = content s ∨ ∃ o', update_eff k o (content s) o' (content s');
  Update_gone k o s s' : Update k o s = (s', Err NotFound) → content s !! k = None ∧ content s' = content s;
  UpdateStatus_ok k o s s' o' : UpdateStatus k o s = (s', Ok o') →
    update_status_eff k o (content s) o' (content s');
  UpdateStatus_err k o s s' e : UpdateStatus k o s = (s', Err e) →
    content s' = content s ∨ ∃ o', update_status_eff k o (content s) o' (content s');
  Delete_ok k s s' : Delete k s = (s', Ok ()) → delete_eff k (content s) (content s');
  Delete_err k s s' e : Delete k s = (s', Err e) →
    content s' = content s ∨ delete_eff k (content s) (content s');
  Delete_gone k s s' : Delete k s = (s', Err NotFound) → content s !! k = None ∧ content s' = content s
}.

(** A server that answers: the calls fail only for the reasons above. *)
Class Responsive (P : Type) `{KubeApi P} := {
  Create_answers k o s : content s !! k = None → is_ok (snd (Create k o s)) = true;
  Update_answers k o s cur : content s !! k = Some cur → o_version o = o_version cur →
    is_ok (snd (Update k o s)) = true;
  UpdateStatus_answers k o s cur : content s !! k = Some cur → o_version o = o_version cur →
    is_ok (snd (UpdateStatus k o s)) = true;
  Delete_answers k s : is_Some (content s !! k) → is_ok (snd (Delete k s)) = true;
  Delete_misses k s : content s !! k = None → snd (Delete k s) = Err NotFound
}.

Lemma store_obj_ne {P} k k' (o : Obj P) m : k' ≠ k → store_obj k o m !! k' = m !! k'.
Proof. intros. unfold store_obj. case_match; by rewrite ?lookup_delete_ne, ?lookup_insert_ne. Qed.

(** An object that a server keeps. *)
Definition lives {P} (o : Obj P) : Prop := o_deleting o = true → o_finalizers o ≠ [].

Lemma store_obj_lives {P} k (o : Obj P) m : lives o → store_obj k o m = <[k := o]> m.
Proof.
  unfold lives, store_obj. intros H. destruct (o_deleting o); [|done]. rewrite bool_decide_false; [done|by apply H].
Qed.

Section frame.
Context {P : Type} {Api : KubeApi P}.

(** Whatever the outcome, the other objects are not concerned. *)
Lemma Create_frame k o (s : server) s' r k' : Create k o s = (s', r) → k' ≠ k → content s' !! k' = content s !! k'.
Proof.
  intros H Hne. destruct r as [o'|e]; [apply Create_ok in H as (? & -> & _); by rewrite lookup_insert_ne|].
  apply Create_err in H as [->|(o' & ? & -> & _)]; [done|by rewrite lookup_insert_ne].
Qed.
Lemma Update_frame k o (s : server) s' r k' : Update k o s = (s', r) → k' ≠ k → content s' !! k' = content s !! k'.
Proof.
  intros H Hne. destruct r as [o'|e]; [apply Update_ok in H as (? & ? & ? & -> & _); by rewrite store_obj_ne|].
  apply Update_err in H as [->|(o' & ? & ? & ? & -> & _)]; [done|by rewrite store_obj_ne].
Qed.
Lemma UpdateStatus_frame k o (s : server) s' r k' :
  UpdateStatus k o s = (s', r) → k' ≠ k → content s' !! k' = content s !! k'.
Proof.
  intros H Hne. destruct r as [o'|e]; [apply UpdateStatus_ok in H as (? & ? & ? & -> & _); by rewrite store_obj_ne|].
  apply UpdateStatus_err in H as [->|(o' & ? & ? & ? & -> & _)]; [done|by rewrite store_obj_ne].
Qed.
Lemma Delete_frame k (s : server) s' r k' : Delete k s = (s', r) → k' ≠ k → content s' !! k' = content s !! k'.
Proof.
  intros H Hne. destruct r as [[]|e]; [apply Delete_ok in H as (? & ? & ? & -> & _); by rewrite store_obj_ne|].
  apply Delete_err in H as [->|(o' & ? & ? & -> & _)]; [done|by rewrite store_obj_ne].
Qed.
End frame.

(** Computations over a world that return a value or an error, or panic. *)
Definition K (W A : Type) : Type := W → outcome (W * result kerr A).

#[export] Instance K_ret W : MRet (K W) := fun A a w => Ret (w, Ok a).
#[export] Instance K_bind W : MBind (K W) := fun A B f m w =>
  match m w with
  | Ret (w, Ok a) => f a w
  | Ret (w, Err e) => Ret (w, Err e)
  | Panic => Panic
  | Diverge => Diverge
  end.
Definition fail {W A} (e : kerr) : K W A := fun w => Ret (w, Err e).
Definition panic {W A} : K W A := fun _ => Panic.
(** The error as a value. *)
Definition attempt {W A} (m : K W A) : K W (result kerr A) := fun w =>
  match m w with
  | Ret (w, r) => Ret (w, Ok r)
  | Panic => Panic
  | Diverge => Diverge
  end.

Lemma K_bind_inv {W A B} (m : K W A) (f : A → K W B) w w' r : (m ≫= f) w = Ret (w', r) →
  (∃ a w1, m w = Ret (w1, Ok a) ∧ f a w1 = Ret (w', r)) ∨ (∃ e, m w = Ret (w', Err e) ∧ r = Err e).
Proof.
  unfold mbind, K_bind. destruct (m w) as [[w1 [a|e]]| |]; [|intros [= <- <-]; right; by exists e|done..].
  intros H. left. by exists a, w1.
Qed.

Lemma K_bind_ok {W A B} (m : K W A) (f : A → K W B) w w1 a : m w = Ret (w1, Ok a) → (m ≫= f) w = f a w1.
Proof. intros H. unfold mbind, K_bind. by rewrite H. Qed.

Lemma K_bind_err {W A B} (m : K W A) (f : A → K W B) w w1 e : m w = Ret (w1, Err e) → (m ≫= f) w = Ret (w1, Err e).
Proof. intros H. unfold mbind, K_bind. by rewrite H. Qed.

(** A computation that keeps a predicate on worlds, whatever it returns. *)
Definition preserves {W A} (I : W → Prop) (m : K W A) : Prop :=
  ∀ w w' res, I w → m w = Ret (w', res) → I w'.

Lemma preserves_ret {W A} (I : W → Prop) (a : A) : preserves I (mret a).
Proof. by intros w w' res HI [= <- _]. Qed.
Lemma preserves_fail {W A} (I : W → Prop) e : preserves I (fail e : K W A).
Proof. by intros w w' res HI [= <- _]. Qed.
Lemma preserves_panic {W A} (I : W → Prop) : preserves I (panic : K W A).
Proof. done. Qed.
Lemma preserves_bind {W A B} (I : W → Prop) (m : K W A) (f : A → K W B) :
  preserves I m → (∀ a, preserves I (f a)) → preserves I (m ≫= f).
Proof.
  intros Hm Hf w w' res HI [(a & w1 & H1 & H2)|(e & H1 & ->)]%K_bind_inv; [|by eapply Hm].
  eapply Hf; [|done]. by eapply Hm.
Qed.
Lemma preserves_attempt {W A} (I : W → Prop) (m : K W A) : preserves I m → preserves I (attempt m).
Proof.
  intros Hm w w' res HI. unfold attempt. destruct (m w) as [[w1 r1]| |] eqn:E; [|done..].
  intros [= <- _]. by eapply Hm.
Qed.
Create HintDb preserves.
#[export] Hint Resolve preserves_ret preserves_fail preserves_panic : preserves.
Ltac preserve := repeat first
  [ solve [auto with preserves nocore] | apply preserves_bind | apply preserves_attempt
  | progress intros | case_match ].

(** [controllerutil.AddFinalizer] and [RemoveFinalizer]: whether the list changed. *)
Definition AddFinalizer {P} (f : string) (o : Obj P) : bool * Obj P :=
  if bool_decide (f ∈ o_finalizers o) then (false, o)
  else (true, set_finalizers o (o_finalizers o ++ [f])).
Definition RemoveFinalizer {P} (f : string) (o : Obj P) : bool * Obj P :=
  if bool_decide (f ∈ o_finalizers o)
  then (true, set_finalizers o (List.filter (fun g => negb (bool_decide (g = f))) (o_finalizers o)))
  else (false, o).

(** ** A server in memory *)

Section memory.
Context {P : Type}.

Definition mem_create (k : okey) (o : Obj P) (m : gmap okey (Obj P)) :=
  match m !! k with
  | Some _ => (m, Err OtherErr)
  | None => let o' := mkObj (o_labels o) (o_annotations o) (o_finalizers o) false 1 (o_spec o) Absent in
            (<[k := o']> m, Ok o')
  end.
Definition mem_update (k : okey) (o : Obj P) (m : gmap okey (Obj P)) :=
  match m !! k with
  | None => (m, Err NotFound)
  | Some cur =>
    if negb (o_version o =? o_version cur) then (m, Err Conflict)
    else let o' := mkObj (o_labels o) (o_annotations o) (o_finalizers o) (o_deleting cur)
                         (o_version cur + 1) (o_spec o) (o_status cur) in
         (store_obj k o' m, Ok o')
  end.
Definition mem_update_status (k : okey) (o : Obj P) (m : gmap okey (Obj P)) :=
  match m !! k with
  | None => (m, Err NotFound)
  | Some cur =>
    if negb (o_version o =? o_version cur) then (m, Err Conflict)
    else let o' := mkObj (o_labels cur) (o_annotations cur) (o_finalizers cur) (o_deleting cur)
                         (o_version cur + 1) (o_spec cur) (o_status o) in
         (store_obj k o' m, Ok o')
  end.
Definition mem_delete (k : okey) (m : gmap okey (Obj P)) : gmap okey (Obj P) * result kerr () :=
  match m !! k with
  | None => (m, Err NotFound)
  | Some cur =>
    (store_obj k (mkObj (o_labels cur) (o_annotations cur) (o_finalizers cur) true
                        (o_version cur + 1) (o_spec cur) (o_status cur)) m, Ok ())
  end.

#[export] Program Instance memory : KubeApi P := {|
  server := gmap okey (Obj P); content := fun m => m;
  Create := mem_create; Update := mem_update; UpdateStatus := mem_update_status; Delete := mem_delete
|}.
Next Obligation.
  unfold mem_create. intros k o s s' o'. destruct (s !! k) eqn:Hk; [done|]. intros [= <- <-]. by repeat split.
Qed.
Next Obligation. unfold mem_create. intros k o s s' e. destruct (s !! k); intros; simplify_eq. by left. Qed.
Next Obligation.
  unfold mem_update. intros k o s s' o'. destruct (s !! k) as [cur|] eqn:Hk; [|done].
  destruct (Z.eqb_spec (o_version o) (o_version cur)) as [Hv|]; simpl; [|done].
  intros [= <- <-]. exists cur. by repeat split.
Qed.
Next Obligation. unfold mem_update. intros k o s s' e. repeat case_match; intros; simplify_eq; by left. Qed.
Next Obligation. unfold mem_update. intros k o s s'. repeat case_match; intros; simplify_eq; done. Qed.
Next Obligation.
  unfold mem_update_status. intros k o s s' o'. destruct (s !! k) as [cur|] eqn:Hk; [|done].
  destruct (Z.eqb_spec (o_version o) (o_version cur)) as [Hv|]; simpl; [|done].
  intros [= <- <-]. exists cur. by repeat split.
Qed.
Next Obligation. unfold mem_update_status. intros k o s s' e. repeat case_match; intros; simplify_eq; by left. Qed.
Next Obligation.
  unfold mem_delete. intros k s s'. destruct (s !! k) as [cur|] eqn:Hk; [|done]. intros [= <-].
  eexists cur, _. split; [done|]. split; [reflexivity|]. by repeat split.
Qed.
Next Obligation. unfold mem_delete. intros k s s' e. destruct (s !! k); intros; simplify_eq. by left. Qed.
Next Obligation.
  unfold mem_delete. intros k s s'. destruct (s !! k) as [cur|] eqn:Hk; [done|]. by intros [= <-].
Qed.

#[export] Program Instance memory_responsive : Responsive P.
Next Obligation. simpl. unfold mem_create. intros k o s Hk. simpl in *. by rewrite Hk. Qed.
Next Obligation. simpl. unfold mem_update. intros k o s cur Hk Hv. by rewrite Hk, Hv, Z.eqb_refl. Qed.
Next Obligation. simpl. unfold mem_update_status. intros k o s cur Hk Hv. by rewrite Hk, Hv, Z.eqb_refl. Qed.
Next Obligation. simpl. unfold mem_delete. intros k s [cur Hk]. by rewrite Hk. Qed.
Next Obligation. simpl. unfold mem_delete. intros k s Hk. by rewrite Hk. Qed.
End memory.
