(* ===== verification/Replicator.v ===== *)
(** * Replicator: replication of custom resources (src/internal/crdReplicator)

    A reflector mirrors the objects of a local namespace that ask for it into a
    namespace of a remote cluster: the spec goes to the remote object, the status
    goes the way the ownership says, and a finalizer keeps the local object until
    the remote one is gone ([reflection/handler.go]).  Reads go to caches, which may
    be behind the servers: what the listers answer is an argument.  The controller
    starts and stops the reflectors as the secrets with the identities of the
    remote clusters come and go ([reflection/reflector.go], [reflection/manager.go],
    [crdReplicator-operator.go], [foreignclusterstate_controller.go]). *)

From S2P Require Export Kube.
Local Open Scope Z_scope.

(** ** Constants (src/pkg/consts) *)

Definition ReplicationRequestedLabel : string := "liqo.io/replication".
Definition ReplicationOriginLabel : string := "liqo.io/originID".
Definition ReplicationDestinationLabel : string := "liqo.io/remoteID".
Definition ReplicationStatusLabel : string := "liqo.io/replicated".
Definition LocalResourceOwnership : string := "liqo.io/ownership".
Definition RemoteClusterIDLabel : string := "liqo.io/remote-cluster-id".
Definition finalizer : string := "crdreplicator.liqo.io/resource".
(** [strconv.FormatBool]. *)
Definition FormatBool (b : bool) : string := if b then "true" else "false".

Inductive OwnershipType := OwnershipLocal | OwnershipShared | OwnershipOther (s : string).

(** ** Label selectors *)

(** [localLabelSelector]: the objects to replicate. *)
Definition localLabelSelector (l : labels) : bool :=
  bool_decide (l !! ReplicationRequestedLabel = Some (FormatBool true)) &&
  bool_decide (is_Some (l !! ReplicationDestinationLabel)).
(** [remoteLabelSelector]: the objects replicated by a cluster. *)
Definition remoteLabelSelector (localClusterID : string) (l : labels) : bool :=
  bool_decide (l !! ReplicationOriginLabel = Some localClusterID) &&
  bool_decide (l !! ReplicationStatusLabel = Some (FormatBool true)).
Definition IsReplicated (l : option labels) : bool :=
  match l with
  | None => false
  | Some l => bool_decide (default ""%string (l !! ReplicationStatusLabel) = FormatBool true)
  end.

Definition mutateLabelsForRemote (localClusterID : string) (l : labels) : labels :=
  delete LocalResourceOwnership
    (<[RemoteClusterIDLabel := localClusterID]>
      (<[ReplicationOriginLabel := localClusterID]>
        (<[ReplicationStatusLabel := FormatBool true]>
          (<[ReplicationRequestedLabel := FormatBool false]> l)))).

(** ** The reflector *)

Record reflectedResource := mkResource { rr_ownership : OwnershipType; rr_initialized : bool }.

(** [resources] is keyed by the resource; the secret is known by its hash. *)
Record Reflector := mkReflector {
  RemoteReachable : bool; localNamespace : string; localClusterID : string;
  remoteNamespace : string; remoteClusterID : string;
  resources : gmap string reflectedResource; secretHash : string
}.

Definition set_resources (r : Reflector) (m : gmap string reflectedResource) : Reflector :=
  mkReflector (RemoteReachable r) (localNamespace r) (localClusterID r) (remoteNamespace r)
              (remoteClusterID r) m (secretHash r).
Definition set_reachable (r : Reflector) (b : bool) : Reflector :=
  mkReflector b (localNamespace r) (localClusterID r) (remoteNamespace r) (remoteClusterID r)
              (resources r) (secretHash r).

Section handler.
Context {P : Type} `{EqDecision P} (emptyMap : P).
Context {Api : KubeApi P}.

(** The two clusters. *)
Record world := mkWorld { w_local : server; w_remote : server }.
Notation M := (K world).

Definition on_local {A} (f : server → server * result kerr A) : M A := fun w =>
  let '(s, r) := f (w_local w) in Ret (mkWorld s (w_remote w), r).
Definition on_remote {A} (f : server → server * result kerr A) : M A := fun w =>
  let '(s, r) := f (w_remote w) in Ret (mkWorld (w_local w) s, r).

(** [getNestedMap] with [utilruntime.Must]: a missing key is an empty map. *)
Definition getNestedMap (x : field P) : M P :=
  match x with
  | AMap p => mret p
  | Absent => mret emptyMap
  | NotAMap => panic
  end.

Definition ensureLocalFinalizer (k : okey) (local : Obj P) (updater : string → Obj P → bool * Obj P) :
    M (Obj P) :=
  let '(changed, local) := updater finalizer local in
  if negb changed then mret local else on_local (Update k local).

(** [destination] of [updateObjectStatusInner] is local or remote. *)
Definition updateObjectStatusInner (cluster : (server → server * result kerr (Obj P)) → M (Obj P))
    (k : okey) (source destination : Obj P) : M () :=
  statusSource ← getNestedMap (o_status source);
  statusDestination ← getNestedMap (o_status destination);
  if bool_decide (statusSource = statusDestination) then mret ()
  else _ ← cluster (UpdateStatus k (set_status destination (AMap statusSource))); mret ().

Definition updateObjectStatus (r : Reflector) (gvr name : string) (ownership : OwnershipType)
    (local remote : Obj P) : M () :=
  match ownership with
  | OwnershipLocal => updateObjectStatusInner on_remote (gvr, remoteNamespace r, name) local remote
  | OwnershipShared => updateObjectStatusInner on_local (gvr, localNamespace r, name) remote local
  | OwnershipOther _ => panic
  end.

Definition createRemoteObject (r : Reflector) (gvr name : string) (ownership : OwnershipType)
    (local : Obj P) : M () :=
  spec ← getNestedMap (o_spec local);
  remote ← on_remote (Create (gvr, remoteNamespace r, name)
    (mkObj (mutateLabelsForRemote (localClusterID r) (o_labels local)) (o_annotations local) []
           false 0 (AMap spec) Absent));
  updateObjectStatus r gvr name ownership local remote.

Definition updateRemoteObjectSpec (r : Reflector) (gvr name : string) (local remote : Obj P) : M (Obj P) :=
  specLocal ← getNestedMap (o_spec local);
  specRemote ← getNestedMap (o_spec remote);
  if bool_decide (specLocal = specRemote) then mret remote
  else on_remote (Update (gvr, remoteNamespace r, name) (set_spec remote (AMap specLocal))).

(** Whether the remote object is known to be gone. *)
Definition deleteRemoteObject (r : Reflector) (gvr name : string) (cached : result kerr (Obj P)) : M bool :=
  if negb (RemoteReachable r) then mret true
  else
    match cached with
    | Err Forbidden | Err NotFound => mret true
    | Err e => fail e
    | Ok _ =>
      res ← attempt (on_remote (Delete (gvr, remoteNamespace r, name)));
      match res with
      | Ok _ => mret false
      | Err NotFound => mret true
      | Err e => fail e
      end
    end.

(** The handler, with what the two listers answer and whether the informer of
    the remote cluster has synced. *)
Definition handle (r : Reflector) (gvr name : string) (localCached remoteCached : result kerr (Obj P))
    (hasSynced : bool) : M () :=
  match resources r !! gvr with
  | None => mret ()
  | Some resource =>
    match localCached with
    | Err NotFound => _ ← deleteRemoteObject r gvr name remoteCached; mret ()
    | Err e => fail e
    | Ok local =>
      if negb (bool_decide (o_labels local !! ReplicationDestinationLabel = Some (remoteClusterID r)))
      then mret ()
      else if o_deleting local then
        vanished ← deleteRemoteObject r gvr name remoteCached;
        if (vanished : bool)
        then _ ← ensureLocalFinalizer (gvr, localNamespace r, name) local RemoveFinalizer; mret ()
        else mret ()
      else
        local ← ensureLocalFinalizer (gvr, localNamespace r, name) local AddFinalizer;
        if negb hasSynced then fail OtherErr
        else
          match remoteCached with
          | Err Forbidden => mret ()
          | Err NotFound =>
            res ← attempt (createRemoteObject r gvr name (rr_ownership resource) local);
            match res with
            | Ok _ | Err Forbidden => mret ()
            | Err e => fail e
            end
          | Err e => fail e
          | Ok remote =>
            remote ← updateRemoteObjectSpec r gvr name local remote;
            updateObjectStatus r gvr name (rr_ownership resource) local remote
          end
    end
  end.

(** [processNextWorkItem]: a failed item is put back. *)
Definition processNextWorkItem (r : Reflector) (queue : list (string * string))
    (caches : string * string → result kerr (Obj P) * result kerr (Obj P) * bool) (w : world) :
    outcome (world * list (string * string)) :=
  match queue with
  | [] => Ret (w, [])
  | key :: queue =>
    let '(l, rm, synced) := caches key in
    '(w, res) ← handle r (fst key) (snd key) l rm synced w;
    Ret (w, if is_ok res then queue else queue ++ [key])
  end.
End handler.

(** ** Starting and stopping *)

(** The state of the replicator: the reflectors by remote cluster, and the
    handlers registered with the manager, by resource and namespace. *)
Record Controller := mkController {
  Reflectors : gmap string Reflector; handlers : gset (string * string)
}.

(** What a lister answers when asked for everything. *)
Definition listing := (result kerr nat)%type.

(** [stopForResource]: the presence check goes over the two listers in an
    arbitrary order. *)
Definition check_presence (reachable : bool) (remote : bool) (objects : listing) : option kerr :=
  if remote && negb reachable then None
  else match objects with
       | Err Forbidden => if remote then None else Some Forbidden
       | Err e => Some e
       | Ok n => if (0 <? n)%nat then Some OtherErr else None
       end.
Definition first_failure (a b : option kerr) : option kerr := match a with Some e => Some e | None => b end.
Definition stopForResource (skip remoteFirst : bool) (lists : string → listing * listing) (gvr : string)
    (c : Reflector * gset (string * string)) : result kerr (Reflector * gset (string * string)) :=
  let '(r, hs) := c in
  match resources r !! gvr with
  | None => Ok (r, hs)
  | Some _ =>
    let '(l, rm) := lists gvr in
    let local := check_presence (RemoteReachable r) false l in
    let remote := check_presence (RemoteReachable r) true rm in
    match (if skip then None
           else if remoteFirst then first_failure remote local else first_failure local remote) with
    | Some e => Err e
    | None => Ok (set_resources r (delete gvr (resources r)), hs ∖ {[ (gvr, localNamespace r) ]})
    end
  end.

(** [stop]: over the resources in an arbitrary order; the first failure ends it. *)
Fixpoint stop (skip remoteFirst : bool) (lists : string → listing * listing) (order : list string)
    (c : Reflector * gset (string * string)) : Reflector * gset (string * string) * option kerr :=
  match order with
  | [] => (c, None)
  | gvr :: order =>
    match stopForResource skip remoteFirst lists gvr c with
    | Err e => (c, Some e)
    | Ok c => stop skip remoteFirst lists order c
    end
  end.

(** [StartForResource]; a second start is fatal.  The handler is registered later,
    by the goroutine the call starts. *)
Definition StartForResource (gvr : string) (ownership : OwnershipType) (c : Reflector * gset (string * string)) :
    outcome (Reflector * gset (string * string)) :=
  let '(r, hs) := c in
  match resources r !! gvr with
  | Some _ => Panic
  | None => Ret (set_resources r (<[gvr := mkResource ownership false]> (resources r)), hs)
  end.
(** The goroutine: the handler is registered whether or not the reflection of the
    resource has been stopped meanwhile; the objects listed are queued. *)
Definition initialize (gvr : string) (names : list string) (c : Reflector * gset (string * string)) :
    Reflector * gset (string * string) * list (string * string) :=
  let '(r, hs) := c in
  (set_resources r (alter (fun x => mkResource (rr_ownership x) true) gvr (resources r)),
   hs ∪ {[ (gvr, localNamespace r) ]}, (fun n => (gvr, n)) <$> names).

Definition stopReflector (id : string) (skip remoteFirst : bool) (lists : string → listing * listing)
    (order : list string) (c : Controller) : Controller * option kerr :=
  match Reflectors c !! id with
  | None => (c, None)
  | Some r =>
    match stop skip remoteFirst lists order (r, handlers c) with
    | (r, hs, None) => (mkController (delete id (Reflectors c)) hs, None)
    | (r, hs, Some e) => (mkController (<[id := r]> (Reflectors c)) hs, Some e)
    end
  end.

(** [enforceReflectionStatus] over the registered resources. *)
Fixpoint enforce (deleting remoteFirst : bool) (lists : string → listing * listing)
    (registered : list (string * OwnershipType)) (c : Reflector * gset (string * string)) :
    outcome (Reflector * gset (string * string) * option kerr) :=
  match registered with
  | [] => Ret (c, None)
  | (gvr, own) :: registered =>
    let started := bool_decide (is_Some (resources (fst c) !! gvr)) in
    if negb deleting && negb started then
      c ← StartForResource gvr own c; enforce deleting remoteFirst lists registered c
    else if deleting && started then
      match stopForResource false remoteFirst lists gvr c with
      | Err e => Ret (c, Some e)
      | Ok c => enforce deleting remoteFirst lists registered c
      end
    else enforce deleting remoteFirst lists registered c
  end.
Definition enforceReflectionStatus (registered : list (string * OwnershipType)) (id : string)
    (deleting remoteFirst : bool) (lists : string → listing * listing) (c : Controller) :
    outcome (Controller * option kerr) :=
  match Reflectors c !! id with
  | None => Ret (c, None)
  | Some r =>
    '(r, hs, e) ← enforce deleting remoteFirst lists registered (r, handlers c);
    Ret (mkController (<[id := r]> (Reflectors c)) hs, e)
  end.

(** ** The secrets with the identities *)

Record Secret := mkSecret {
  s_labels : option labels; s_annotations : option labels; s_namespace : string;
  s_deleting : bool; s_finalizer : bool; s_hash : string
}.
Definition IdentityTypeLabelKey : string := "liqo.io/identity-type".
Definition ControlPlaneIdentityType : string := "ControlPlane".
Definition RemoteTenantNamespaceAnnotKey : string := "liqo.io/remote-tenant-namespace".

(** [validateSecret]: the remote cluster and its tenant namespace. *)
Definition validateSecret (s : Secret) : option (string * string) :=
  match s_labels s, s_annotations s with
  | Some l, Some a =>
    if match l !! IdentityTypeLabelKey with
       | Some t => negb (bool_decide (t = ControlPlaneIdentityType))
       | None => false
       end then None
    else match l !! RemoteClusterIDLabel, a !! RemoteTenantNamespaceAnnotKey with
         | Some id, Some ns => Some (id, ns)
         | _, _ => None
         end
  | _, _ => None
  end.

(** What the environment of a reconciliation provides: whether the update of the
    secret succeeds, whether there is exactly one secret for the cluster and its
    configuration is usable, and whether a client can be made from it. *)
Record secretEnv := mkEnv {
  env_update : option kerr; env_hash : option string; env_client : option kerr;
  env_remoteFirst : bool; env_lists : string → listing * listing; env_order : list string
}.

(** [Reconcile] of the controller on a secret: the controller, whether the secret
    has the finalizer afterwards, and the error. *)
Definition Reconcile (localID : string) (registered : list (string * OwnershipType)) (env : secretEnv)
    (got : result kerr Secret) (c : Controller) : outcome (Controller * bool * option kerr) :=
  match got with
  | Err NotFound => Ret (c, false, None)
  | Err e => Ret (c, false, Some e)
  | Ok s =>
  match validateSecret s with
  | None => Ret (c, s_finalizer s, None)
  | Some (id, ns) =>
    if s_deleting s && s_finalizer s then
      match stopReflector id false (env_remoteFirst env) (env_lists env) (env_order env) c with
      | (c, Some e) => Ret (c, true, Some e)
      | (c, None) => match env_update env with
                     | Some e => Ret (c, true, Some e)
                     | None => Ret (c, false, None)
                     end
      end
    else
      match (if s_finalizer s then None else env_update env) with
      | Some e => Ret (c, s_finalizer s, Some e)
      | None =>
        let finish (c : Controller) :=
          '(c, e) ← enforceReflectionStatus registered id (s_deleting s) (env_remoteFirst env) (env_lists env) c;
          Ret (c, true, e) in
        let setup (c : Controller) :=
          match env_hash env, env_client env with
          | None, _ => finish c
          | Some _, Some e => Ret (c, true, Some e)
          | Some h, None =>
            finish (mkController (<[id := mkReflector true (s_namespace s) localID ns id ∅ h]> (Reflectors c))
                                 (handlers c))
          end in
        match Reflectors c !! id with
        | None => setup c
        | Some r =>
          if bool_decide (secretHash r = s_hash s) && bool_decide (remoteNamespace r = ns) then finish c
          else match stopReflector id true (env_remoteFirst env) (env_lists env) (env_order env) c with
               | (c, Some e) => Ret (c, true, Some e)
               | (c, None) => setup c
               end
        end
      end
  end
  end.

(** ** The state of the remote cluster *)

Definition ForeignClusterPermanentlyUnreachableAnnotationKey : string :=
  "liqo.io/foreign-cluster-permanently-unreachable".
Definition APIServerStatusCondition : string := "APIServerStatus".
Definition ConditionStatusEstablished : string := "Established".

(** [IsDead] on the annotations and the conditions (type and status): the first
    condition on the API server decides. *)
Definition IsDead (annotations : option labels) (conditions : list (string * string)) : bool :=
  match annotations with
  | None => false
  | Some a =>
    if negb (bool_decide (default ""%string (a !! ForeignClusterPermanentlyUnreachableAnnotationKey) = "true"%string))
    then false
    else match List.find (fun c => bool_decide (fst c = APIServerStatusCondition)) conditions with
         | Some (_, status) => negb (bool_decide (status = ConditionStatusEstablished))
         | None => true
         end
  end.

Record ForeignCluster := mkForeignCluster {
  fc_id : string; fc_unknownRole : bool; fc_annotations : option labels;
  fc_conditions : list (string * string)
}.

(** [ForeignClusterStateController.Reconcile]; an error when there is no
    reflector. *)
Definition state_Reconcile (got : result kerr ForeignCluster) (c : Controller) : Controller * option kerr :=
  match got with
  | Err NotFound => (c, None)
  | Err e => (c, Some e)
  | Ok fc =>
    if fc_unknownRole fc then (c, None)
    else match Reflectors c !! fc_id fc with
         | None => (c, Some OtherErr)
         | Some r =>
           let r := set_reachable r (negb (IsDead (fc_annotations fc) (fc_conditions fc))) in
           (mkController (<[fc_id fc := r]> (Reflectors c)) (handlers c), None)
         end
  end.
