(* ===== verification/ReplicatorProps.v ===== *)
(** * ReplicatorProps: what the replication of resources achieves *)

From S2P Require Export Replicator.
Local Open Scope Z_scope.

(** ** Labels *)

Lemma mutate_status id (l : labels) :
  mutateLabelsForRemote id l !! ReplicationStatusLabel = Some (FormatBool true).
Proof. unfold mutateLabelsForRemote. by simplify_map_eq. Qed.

Lemma mutate_selected id (l : labels) : remoteLabelSelector id (mutateLabelsForRemote id l) = true.
Proof.
  unfold remoteLabelSelector. rewrite mutate_status. unfold mutateLabelsForRemote.
  by rewrite !bool_decide_true by (by simplify_map_eq).
Qed.

(** A replica is recognised and never replicated further.  The labels put on a
    remote object satisfy the selector by which its origin finds it again, whatever
    the local labels were, and not the selector of the objects to replicate, so
    replication does not loop; the other labels are kept, except the ownership. *)
Theorem replica_labels (id : string) (l : labels) :
  let l' := mutateLabelsForRemote id l in
  remoteLabelSelector id l' = true ∧ localLabelSelector l' = false ∧ IsReplicated (Some l') = true ∧
  l' !! RemoteClusterIDLabel = Some id ∧ l' !! LocalResourceOwnership = None ∧
  ∀ k, k ∉ [ReplicationRequestedLabel; ReplicationStatusLabel; ReplicationOriginLabel;
            RemoteClusterIDLabel; LocalResourceOwnership] → l' !! k = l !! k.
Proof.
  cbv zeta. split; [apply mutate_selected|].
  split; [|split; [unfold IsReplicated; by rewrite mutate_status|]]; unfold mutateLabelsForRemote.
  - unfold localLabelSelector. by rewrite bool_decide_false by (by simplify_map_eq).
  - split; [by simplify_map_eq|]. split; [by simplify_map_eq|].
    intros k Hk. by rewrite lookup_delete_ne, !lookup_insert_ne by set_solver.
Qed.

(** ** The handler *)

Section handler.
Context {P : Type} `{EqDecision P} (emptyMap : P).
Context {Api : KubeApi P}.
Notation world := (@world P Api).
Notation handle := (handle emptyMap).

Definition lkey (r : Reflector) (gvr name : string) : okey := (gvr, localNamespace r, name).
Definition rkey (r : Reflector) (gvr name : string) : okey := (gvr, remoteNamespace r, name).

(** What a lister answers when its cache is up to date. *)
Definition lister (sel : labels → bool) (s : server) (k : okey) : result kerr (Obj P) :=
  match content s !! k with
  | Some o => if sel (o_labels o) then Ok o else Err NotFound
  | None => Err NotFound
  end.

(** The map under a key, as the code reads it. *)
Definition map_of (x : field P) : option P :=
  match x with AMap p => Some p | Absent => Some emptyMap | NotAMap => None end.

Lemma getNestedMap_ok x p (w : world) : map_of x = Some p → getNestedMap emptyMap x w = Ret (w, Ok p).
Proof. by destruct x; intros [= <-]. Qed.

(** *** Up-to-date caches and servers that answer *)

Section answers.
Context {RP : Responsive P}.

Lemma Create_total k (o : Obj P) s : content s !! k = None →
  ∃ s' o', Create k o s = (s', Ok o') ∧ create_eff k o (content s) o' (content s').
Proof.
  intros H%(Create_answers k o). destruct (Create k o s) as [s' [o'|e]] eqn:E; [|done].
  exists s', o'. split; [done|by apply Create_ok].
Qed.
Lemma Update_total k (o : Obj P) s cur : content s !! k = Some cur → o_version o = o_version cur →
  ∃ s' o', Update k o s = (s', Ok o') ∧ update_eff k o (content s) o' (content s').
Proof.
  intros H Hv. pose proof (Update_answers k o s cur H Hv) as Ha.
  destruct (Update k o s) as [s' [o'|e]] eqn:E; [|done]. exists s', o'. split; [done|by apply Update_ok].
Qed.
Lemma UpdateStatus_total k (o : Obj P) s cur : content s !! k = Some cur → o_version o = o_version cur →
  ∃ s' o', UpdateStatus k o s = (s', Ok o') ∧ update_status_eff k o (content s) o' (content s').
Proof.
  intros H Hv. pose proof (UpdateStatus_answers k o s cur H Hv) as Ha.
  destruct (UpdateStatus k o s) as [s' [o'|e]] eqn:E; [|done]. exists s', o'. split; [done|by apply UpdateStatus_ok].
Qed.

Lemma ensureLocalFinalizer_adds k (lo : Obj P) (w : world) : content (w_local w) !! k = Some lo →
  o_deleting lo = false →
  ∃ w' lo', ensureLocalFinalizer k lo AddFinalizer w = Ret (w', Ok lo') ∧ w_remote w' = w_remote w ∧
    content (w_local w') !! k = Some lo' ∧ finalizer ∈ o_finalizers lo' ∧ o_labels lo' = o_labels lo ∧
    o_annotations lo' = o_annotations lo ∧
    o_spec lo' = o_spec lo ∧ o_status lo' = o_status lo ∧ o_deleting lo' = false.
Proof.
  intros Hk Hd. unfold ensureLocalFinalizer, AddFinalizer. case_bool_decide as Hin; simpl.
  { exists w, lo. by repeat split. }
  destruct (Update_total k (set_finalizers lo (o_finalizers lo ++ [finalizer])) (w_local w) lo Hk eq_refl)
    as (s' & o' & HU & cur & Hcur & _ & Hs' & (Hl & Ha & Hf) & Hsp & Hst & Hdel).
  unfold on_local. rewrite HU. exists (mkWorld s' (w_remote w)), o'. split; [done|].
  assert (cur = lo) as -> by congruence. rewrite Hd in Hdel.
  rewrite store_obj_lives in Hs' by (unfold lives; congruence).
  simpl. rewrite Hs', lookup_insert_eq, Hf. simpl in *. repeat split; try done. set_solver.
Qed.

(** The status goes from the source to the destination. *)
Lemma status_inner_local k (src dst : Obj P) p (w : world) :
  map_of (o_status src) = Some p → is_Some (map_of (o_status dst)) → content (w_local w) !! k = Some dst → lives dst →
  ∃ w' dst', updateObjectStatusInner emptyMap on_local k src dst w = Ret (w', Ok ()) ∧
    w_remote w' = w_remote w ∧ content (w_local w') !! k = Some dst' ∧ map_of (o_status dst') = Some p ∧
    same_meta dst dst' ∧ o_spec dst' = o_spec dst ∧ o_deleting dst' = o_deleting dst.
Proof.
  intros Hs [q Hq] Hk Hli. unfold updateObjectStatusInner.
  rewrite (K_bind_ok _ _ _ _ _ (getNestedMap_ok _ _ _ Hs)), (K_bind_ok _ _ _ _ _ (getNestedMap_ok _ _ _ Hq)).
  case_bool_decide as He. { subst. exists w, dst. by repeat split. }
  destruct (UpdateStatus_total k (set_status dst (AMap p)) (w_local w) dst Hk eq_refl)
    as (s' & o' & HU & cur & Hcur & _ & Hs' & (Hl & Ha & Hf) & Hsp & Hst & Hdel).
  assert (cur = dst) as -> by congruence.
  rewrite store_obj_lives in Hs' by (unfold lives in *; rewrite Hf, Hdel; done).
  exists (mkWorld s' (w_remote w)), o'. split.
  { erewrite K_bind_ok; [done|]. unfold on_local. by rewrite HU. }
  simpl. rewrite Hs', lookup_insert_eq, Hst. by repeat split.
Qed.
Lemma status_inner_remote k (src dst : Obj P) p (w : world) :
  map_of (o_status src) = Some p → is_Some (map_of (o_status dst)) → content (w_remote w) !! k = Some dst → lives dst →
  ∃ w' dst', updateObjectStatusInner emptyMap on_remote k src dst w = Ret (w', Ok ()) ∧
    w_local w' = w_local w ∧ content (w_remote w') !! k = Some dst' ∧ map_of (o_status dst') = Some p ∧
    same_meta dst dst' ∧ o_spec dst' = o_spec dst ∧ o_deleting dst' = o_deleting dst.
Proof.
  intros Hs [q Hq] Hk Hli. unfold updateObjectStatusInner.
  rewrite (K_bind_ok _ _ _ _ _ (getNestedMap_ok _ _ _ Hs)), (K_bind_ok _ _ _ _ _ (getNestedMap_ok _ _ _ Hq)).
  case_bool_decide as He. { subst. exists w, dst. by repeat split. }
  destruct (UpdateStatus_total k (set_status dst (AMap p)) (w_remote w) dst Hk eq_refl)
    as (s' & o' & HU & cur & Hcur & _ & Hs' & (Hl & Ha & Hf) & Hsp & Hst & Hdel).
  assert (cur = dst) as -> by congruence.
  rewrite store_obj_lives in Hs' by (unfold lives in *; rewrite Hf, Hdel; done).
  exists (mkWorld (w_local w) s'), o'. split.
  { erewrite K_bind_ok; [done|]. unfold on_remote. by rewrite HU. }
  simpl. rewrite Hs', lookup_insert_eq, Hst. by repeat split.
Qed.

(** The two objects after the status went its way: [ls] and [rs] are the two
    statuses before, [lo] and [ro] the objects they were on. *)
Definition status_synced (own : OwnershipType) (lo ro lo' ro' : Obj P) : Prop :=
  same_meta lo lo' ∧ same_meta ro ro' ∧ o_spec lo' = o_spec lo ∧ o_spec ro' = o_spec ro ∧
  o_deleting lo' = o_deleting lo ∧ o_deleting ro' = o_deleting ro ∧
  map_of (o_status lo') = map_of (o_status ro') ∧
  map_of (o_status ro') = map_of (o_status (match own with OwnershipLocal => lo | _ => ro end)).

Lemma updateObjectStatus_ok r gvr name own (lo ro : Obj P) (w : world) :
  own = OwnershipLocal ∨ own = OwnershipShared →
  content (w_local w) !! lkey r gvr name = Some lo → content (w_remote w) !! rkey r gvr name = Some ro →
  lives lo → lives ro → is_Some (map_of (o_status lo)) → is_Some (map_of (o_status ro)) →
  ∃ w' lo' ro', updateObjectStatus emptyMap r gvr name own lo ro w = Ret (w', Ok ()) ∧
    content (w_local w') !! lkey r gvr name = Some lo' ∧
    content (w_remote w') !! rkey r gvr name = Some ro' ∧ status_synced own lo ro lo' ro'.
Proof.
  intros [->| ->] Hl Hr Hll Hlr [ls Hls] [rs Hrs]; simpl.
  - destruct (status_inner_remote (rkey r gvr name) lo ro ls w Hls (mk_is_Some _ _ Hrs) Hr Hlr)
      as (w' & ro' & Hw & Hlo & Hk & Hm & Hmeta & Hsp & Hdl).
    exists w', lo, ro'. split; [done|]. rewrite Hlo. split; [done|]. split; [done|].
    do 6 (split; [done|]). by rewrite Hm, Hls.
  - destruct (status_inner_local (lkey r gvr name) ro lo rs w Hrs (mk_is_Some _ _ Hls) Hl Hll)
      as (w' & lo' & Hw & Hro & Hk & Hm & Hmeta & Hsp & Hdl).
    exists w', lo', ro. split; [done|]. split; [done|]. rewrite Hro. split; [done|].
    do 6 (split; [done|]). by rewrite Hm, Hrs.
Qed.

Lemma createRemoteObject_ok r gvr name own (lo : Obj P) sp (w : world) :
  own = OwnershipLocal ∨ own = OwnershipShared →
  content (w_local w) !! lkey r gvr name = Some lo → content (w_remote w) !! rkey r gvr name = None →
  lives lo → map_of (o_spec lo) = Some sp → is_Some (map_of (o_status lo)) →
  ∃ w' lo' ro ro', createRemoteObject emptyMap r gvr name own lo w = Ret (w', Ok ()) ∧
    content (w_local w') !! lkey r gvr name = Some lo' ∧
    content (w_remote w') !! rkey r gvr name = Some ro' ∧ status_synced own lo ro lo' ro' ∧
    o_labels ro = mutateLabelsForRemote (localClusterID r) (o_labels lo) ∧
    o_annotations ro = o_annotations lo ∧ o_spec ro = AMap sp ∧ o_status ro = Absent ∧ o_deleting ro = false.
Proof.
  intros Hown Hl Hr Hll Hsp Hst. unfold createRemoteObject.
  rewrite (K_bind_ok _ _ _ _ _ (getNestedMap_ok _ _ _ Hsp)).
  destruct (Create_total (rkey r gvr name) (mkObj (mutateLabelsForRemote (localClusterID r) (o_labels lo))
    (o_annotations lo) [] false 0 (AMap sp) Absent) (w_remote w) Hr)
    as (s' & ro & HC & _ & Hs' & (HL & HA & _) & HS & HT & HD). simpl in *.
  assert (HCr : on_remote (Create (gvr, remoteNamespace r, name) (mkObj
    (mutateLabelsForRemote (localClusterID r) (o_labels lo)) (o_annotations lo) [] false 0 (AMap sp) Absent)) w
    = Ret (mkWorld (w_local w) s', Ok ro)).
  { unfold on_remote. unfold rkey in HC. by rewrite HC. }
  rewrite (K_bind_ok _ _ _ _ _ HCr).
  destruct (updateObjectStatus_ok r gvr name own lo ro (mkWorld (w_local w) s')) as (w' & lo' & ro' & Hw & H1 & H2 & H3);
    [done|done| |done| |done| |].
  - simpl. by rewrite Hs', lookup_insert_eq.
  - unfold lives. congruence.
  - rewrite HT. by eexists.
  - exists w', lo', ro, ro'. by rewrite Hw.
Qed.

Lemma updateRemoteObjectSpec_ok r gvr name (lo ro : Obj P) sp (w : world) :
  content (w_remote w) !! rkey r gvr name = Some ro → lives ro →
  map_of (o_spec lo) = Some sp → is_Some (map_of (o_spec ro)) →
  ∃ w' ro', updateRemoteObjectSpec emptyMap r gvr name lo ro w = Ret (w', Ok ro') ∧
    w_local w' = w_local w ∧ content (w_remote w') !! rkey r gvr name = Some ro' ∧ lives ro' ∧
    same_meta ro ro' ∧ map_of (o_spec ro') = Some sp ∧ o_status ro' = o_status ro.
Proof.
  intros Hr Hlr Hsp [rp Hrp]. unfold updateRemoteObjectSpec.
  rewrite (K_bind_ok _ _ _ _ _ (getNestedMap_ok _ _ _ Hsp)), (K_bind_ok _ _ _ _ _ (getNestedMap_ok _ _ _ Hrp)).
  case_bool_decide as He. { subst. exists w, ro. by repeat split. }
  destruct (Update_total (rkey r gvr name) (set_spec ro (AMap sp)) (w_remote w) ro Hr eq_refl)
    as (s' & o' & HU & cur & Hcur & _ & Hs' & (HL & HA & HF) & HS & HT & HD).
  assert (cur = ro) as -> by congruence. simpl in *.
  assert (Hlo' : lives o') by (unfold lives in *; rewrite HF, HD; done).
  rewrite store_obj_lives in Hs' by done. exists (mkWorld (w_local w) s'), o'.
  unfold on_remote. unfold rkey in HU. rewrite HU. simpl. rewrite Hs'. unfold rkey.
  rewrite lookup_insert_eq, HS. by repeat split.
Qed.

(** The conditions under which an object is to be replicated. *)
Definition replicable (r : Reflector) (gvr name : string) (own : OwnershipType) (lo : Obj P) (w : world) : Prop :=
  (∃ res, resources r !! gvr = Some res ∧ rr_ownership res = own) ∧
  (own = OwnershipLocal ∨ own = OwnershipShared) ∧
  content (w_local w) !! lkey r gvr name = Some lo ∧ localLabelSelector (o_labels lo) = true ∧
  o_labels lo !! ReplicationDestinationLabel = Some (remoteClusterID r) ∧ o_deleting lo = false ∧
  is_Some (map_of (o_spec lo)) ∧ is_Some (map_of (o_status lo)) ∧
  ∀ ro, content (w_remote w) !! rkey r gvr name = Some ro →
    remoteLabelSelector (localClusterID r) (o_labels ro) = true ∧ lives ro ∧
    is_Some (map_of (o_spec ro)) ∧ is_Some (map_of (o_status ro)).

(** The handler on caches that are up to date. *)
Definition handle_fresh (r : Reflector) (gvr name : string) (w : world) : outcome (world * result kerr ()) :=
  handle r gvr name (lister localLabelSelector (w_local w) (lkey r gvr name))
    (lister (remoteLabelSelector (localClusterID r)) (w_remote w) (rkey r gvr name)) true w.

(** The labels and annotations of the replica: a new one has those of the local
    object, with the labels of replication in place and without its ownership;
    an existing one keeps its own. *)
Definition replica_meta (id : string) (lo ro' : Obj P) (old : option (Obj P)) : Prop :=
  match old with
  | Some ro => o_labels ro' = o_labels ro ∧ o_annotations ro' = o_annotations ro
  | None =>
    o_labels ro' !! ReplicationOriginLabel = Some id ∧ o_labels ro' !! RemoteClusterIDLabel = Some id ∧
    o_labels ro' !! ReplicationStatusLabel = Some "true"%string ∧
    o_labels ro' !! ReplicationRequestedLabel = Some "false"%string ∧
    o_labels ro' !! LocalResourceOwnership = None ∧
    (∀ k, k ∉ [ReplicationOriginLabel; RemoteClusterIDLabel; ReplicationStatusLabel;
               ReplicationRequestedLabel; LocalResourceOwnership] → o_labels ro' !! k = o_labels lo !! k) ∧
    o_annotations ro' = o_annotations lo
  end.

Lemma new_replica_meta id (lo ro' : Obj P) : o_labels ro' = mutateLabelsForRemote id (o_labels lo) →
  o_annotations ro' = o_annotations lo → replica_meta id lo ro' None.
Proof.
  intros HL HA. unfold replica_meta. rewrite HL. unfold mutateLabelsForRemote.
  split_and!; [by simplify_map_eq..| |done].
  intros k Hk. by rewrite lookup_delete_ne, !lookup_insert_ne by set_solver.
Qed.

Lemma handle_replicates r gvr name own lo w : replicable r gvr name own lo w →
  ∃ w' lo' ro', handle_fresh r gvr name w = Ret (w', Ok ()) ∧
    content (w_local w') !! lkey r gvr name = Some lo' ∧ content (w_remote w') !! rkey r gvr name = Some ro' ∧
    finalizer ∈ o_finalizers lo' ∧ o_spec lo' = o_spec lo ∧ map_of (o_spec ro') = map_of (o_spec lo) ∧
    o_labels lo' = o_labels lo ∧ o_deleting lo' = false ∧ lives ro' ∧
    remoteLabelSelector (localClusterID r) (o_labels ro') = true ∧
    map_of (o_status lo') = map_of (o_status ro') ∧
    map_of (o_status ro') = match own with
                            | OwnershipLocal => map_of (o_status lo)
                            | _ => match content (w_remote w) !! rkey r gvr name with
                                   | Some ro => map_of (o_status ro)
                                   | None => Some emptyMap
                                   end
                            end ∧
    replica_meta (localClusterID r) lo ro' (content (w_remote w) !! rkey r gvr name).
Proof.
  intros ((res & Hres & Ho) & Hown & Hl & Hsel & Hdest & Hdel & [sp Hsp] & Hst & Hrem).
  unfold handle_fresh, Replicator.handle, lister. rewrite Hres, Hl, Hsel, bool_decide_true, Hdel by done. simpl.
  destruct (ensureLocalFinalizer_adds (lkey r gvr name) lo w Hl Hdel)
    as (w1 & lo1 & Hw1 & Hr1 & Hl1 & Hfin & HL & HA & HS & HT & HD).
  rewrite (K_bind_ok _ _ _ _ _ Hw1). rewrite Ho.
  assert (Hll : lives lo1) by (unfold lives; congruence).
  rewrite <- HS in Hsp. rewrite <- HT in Hst.
  destruct (content (w_remote w) !! rkey r gvr name) as [ro|] eqn:Hr.
  - destruct (Hrem ro eq_refl) as (Hrsel & Hlr & Hrsp & Hrst). rewrite Hrsel.
    rewrite <- Hr1 in Hr.
    destruct (updateRemoteObjectSpec_ok r gvr name lo1 ro sp w1 Hr Hlr Hsp Hrsp)
      as (w2 & ro2 & Hw2 & Hl2 & Hr2 & Hlr2 & (HL2 & HA2 & HRF2) & HS2 & HT2).
    rewrite (K_bind_ok _ _ _ _ _ Hw2). rewrite <- Hl2 in Hl1. rewrite <- HT2 in Hrst.
    destruct (updateObjectStatus_ok r gvr name own lo1 ro2 w2 Hown Hl1 Hr2 Hll Hlr2 Hst Hrst)
      as (w3 & lo3 & ro3 & Hw3 & Hl3 & Hr3 & (HLl3 & _ & HF3') & (HL3 & HA3 & HRF3) & HS3 & HS3' & HD3 & HD3' & HT3 & HT3').
    exists w3, lo3, ro3. rewrite HF3', HS3, HS3', HL3, HL2, HS2, HT3'.
    do 4 (split; [done|]). split; [done|]. split; [congruence|]. split; [congruence|]. split; [congruence|].
    split; [unfold lives in *; by rewrite HRF3, HD3'|]. split; [done|]. split; [by rewrite HT3|].
    split; [destruct Hown as [-> | ->]; congruence|]. split; congruence.
  - rewrite <- Hr1 in Hr.
    destruct (createRemoteObject_ok r gvr name own lo1 sp w1 Hown Hl1 Hr Hll Hsp Hst)
      as (w3 & lo3 & ro & ro3 & Hw3 & Hl3 & Hr3 & ((HLl3 & _ & HF3') & (HL3 & HA3 & _) & HS3 & HS3' & HD3 & HD3' & HT3 & HT3') & HLr & HAr & HSr & HTr & HDr).
    exists w3, lo3, ro3. split; [unfold mbind, K_bind, attempt; by rewrite Hw3|].
    rewrite HF3', HS3, HS3', HSr, HL3, HLr, HT3'. do 4 (split; [done|]). split; [simpl; congruence|].
    split; [congruence|]. split; [congruence|]. split; [unfold lives; congruence|].
    split; [apply mutate_selected|]. split; [by rewrite HT3|].
    split; [destruct Hown as [-> | ->]; [congruence|by rewrite HTr]|].
    apply new_replica_meta; congruence.
Qed.

(** *** Nothing to do *)

Lemma handle_in_sync r gvr name own lo ro w : replicable r gvr name own lo w →
  finalizer ∈ o_finalizers lo → content (w_remote w) !! rkey r gvr name = Some ro →
  map_of (o_spec ro) = map_of (o_spec lo) → map_of (o_status ro) = map_of (o_status lo) →
  handle_fresh r gvr name w = Ret (w, Ok ()).
Proof.
  intros ((res & Hres & Ho) & Hown & Hl & Hsel & Hdest & Hdel & [sp Hsp] & [st Hst] & Hrem) Hfin Hr HS HT.
  unfold handle_fresh, Replicator.handle, lister.
  rewrite Hres, Hl, Hsel, bool_decide_true, Hdel, Hr by done. simpl.
  destruct (Hrem ro Hr) as (-> & _). rewrite Hsp in HS. rewrite Hst in HT.
  unfold ensureLocalFinalizer, AddFinalizer. rewrite bool_decide_true by done. simpl.
  unfold updateRemoteObjectSpec. rewrite (K_bind_ok _ _ _ _ _ (eq_refl : (mret lo : K world _) w = Ret (w, Ok lo))).
  erewrite K_bind_ok.
  2: { erewrite K_bind_ok by (by apply getNestedMap_ok). erewrite K_bind_ok by (by apply getNestedMap_ok).
       by rewrite bool_decide_true. }
  rewrite Ho. destruct Hown as [-> | ->]; simpl; unfold updateObjectStatusInner;
    erewrite K_bind_ok by (by apply getNestedMap_ok); erewrite K_bind_ok by (by apply getNestedMap_ok);
    by rewrite bool_decide_true.
Qed.

(** *** Deletion *)

Lemma deleteRemoteObject_fresh r gvr name (w : world) : RemoteReachable r = true →
  (∀ ro, content (w_remote w) !! rkey r gvr name = Some ro →
     remoteLabelSelector (localClusterID r) (o_labels ro) = true) →
  let cached := lister (remoteLabelSelector (localClusterID r)) (w_remote w) (rkey r gvr name) in
  match content (w_remote w) !! rkey r gvr name with
  | None => deleteRemoteObject r gvr name cached w = Ret (w, Ok true)
  | Some ro => ∃ s', deleteRemoteObject r gvr name cached w = Ret (mkWorld (w_local w) s', Ok false) ∧
                     delete_eff (rkey r gvr name) (content (w_remote w)) (content s')
  end.
Proof.
  intros HR Hsel. unfold deleteRemoteObject, lister. rewrite HR. simpl.
  destruct (content (w_remote w) !! rkey r gvr name) as [ro|] eqn:Hr; [|done]. rewrite (Hsel ro eq_refl).
  pose proof (Delete_answers (rkey r gvr name) (w_remote w) (mk_is_Some _ _ Hr)) as Ha.
  destruct (Delete (rkey r gvr name) (w_remote w)) as [s' [[]|e]] eqn:HD; [|done].
  exists s'. unfold mbind, K_bind, attempt, on_remote. unfold rkey in HD. rewrite HD. split; [done|].
  by apply Delete_ok.
Qed.

(** C13: An object is replicated.  With up-to-date caches and servers that answer, the
    handler returns without error on an object that asks for replication towards
    the cluster; the local object then has the finalizer and an unchanged spec, the
    remote object exists and has the spec of the local one, and the two statuses
    agree, on the local one if the resource is owned locally and on the remote one
    if it is shared.  A replica that is created has the annotations and the labels
    of the local object, except that its origin, the remote cluster, the replicated
    mark and the request are set for a replica and the ownership label is left out; a
    replica that was there keeps its labels and annotations (the handler does not
    update them). *)
Theorem replication_converges (r : Reflector) (gvr name : string) (own : OwnershipType) (lo : Obj P) (w : world) :
  replicable r gvr name own lo w →
  ∃ w' lo' ro', handle_fresh r gvr name w = Ret (w', Ok ()) ∧
    content (w_local w') !! lkey r gvr name = Some lo' ∧ content (w_remote w') !! rkey r gvr name = Some ro' ∧
    finalizer ∈ o_finalizers lo' ∧ o_spec lo' = o_spec lo ∧ map_of (o_spec ro') = map_of (o_spec lo) ∧
    remoteLabelSelector (localClusterID r) (o_labels ro') = true ∧
    map_of (o_status lo') = map_of (o_status ro') ∧
    map_of (o_status ro') = match own with
                            | OwnershipLocal => map_of (o_status lo)
                            | _ => match content (w_remote w) !! rkey r gvr name with
                                   | Some ro => map_of (o_status ro)
                                   | None => Some emptyMap
                                   end
                            end ∧
    replica_meta (localClusterID r) lo ro' (content (w_remote w) !! rkey r gvr name).
Proof. intros (w' & lo' & ro' & H)%handle_replicates. exists w', lo', ro'. naive_solver. Qed.

(** Once replicated, nothing is written again.  The handler run a second time
    leaves both clusters exactly as they are. *)
Theorem replication_stable (r : Reflector) (gvr name : string) (own : OwnershipType) (lo : Obj P) (w w' : world)
    (res : result kerr ()) :
  replicable r gvr name own lo w → handle_fresh r gvr name w = Ret (w', res) →
  handle_fresh r gvr name w' = Ret (w', Ok ()).
Proof.
  intros HR Hw. destruct (handle_replicates _ _ _ _ _ _ HR)
    as (w1 & lo' & ro' & Hw1 & Hl & Hr & Hfin & HS & HSr & HL & HD & Hli & Hsel & HT & HT' & _).
  assert (w1 = w') as -> by congruence.
  destruct HR as (Hres & Hown & Hl0 & Hsel0 & Hdest & Hdel & Hsp & Hst & Hrem).
  assert (Hstat : is_Some (map_of (o_status ro'))).
  { rewrite HT'. destruct own; [done|..]; destruct (content (w_remote w) !! _) as [ro|] eqn:E; try by eexists.
    all: by apply (Hrem ro). }
  eapply (handle_in_sync r gvr name own lo' ro'); [|done|done|by rewrite HS|done].
  split; [done|]. split; [done|]. split; [done|]. rewrite HL, HS, HT.
  do 5 (split; [done|]). intros ro Hro. assert (ro = ro') as -> by congruence.
  split; [done|]. split; [done|]. by rewrite HSr.
Qed.

(** Deletion completes.  When the local object is being deleted and only the
    finalizer of the replicator holds it, and the remote object has no finalizer
    left, two rounds on up-to-date caches are enough: the first deletes the remote
    object and keeps the local one, the second lets the local one go. *)
Theorem deletion_completes (r : Reflector) (gvr name : string) (rs : reflectedResource) (lo ro : Obj P) (w : world) :
  resources r !! gvr = Some rs → RemoteReachable r = true →
  content (w_local w) !! lkey r gvr name = Some lo → localLabelSelector (o_labels lo) = true →
  o_labels lo !! ReplicationDestinationLabel = Some (remoteClusterID r) → o_deleting lo = true →
  o_finalizers lo = [finalizer] →
  content (w_remote w) !! rkey r gvr name = Some ro →
  remoteLabelSelector (localClusterID r) (o_labels ro) = true → o_finalizers ro = [] →
  ∃ w1 w2, handle_fresh r gvr name w = Ret (w1, Ok ()) ∧
    content (w_remote w1) !! rkey r gvr name = None ∧ content (w_local w1) !! lkey r gvr name = Some lo ∧
    handle_fresh r gvr name w1 = Ret (w2, Ok ()) ∧
    content (w_remote w2) !! rkey r gvr name = None ∧ content (w_local w2) !! lkey r gvr name = None.
Proof.
  intros Hres HR Hl Hsel Hdest Hdel Hfin Hr Hrsel Hrfin.
  pose proof (deleteRemoteObject_fresh r gvr name w HR) as H1. rewrite Hr in H1.
  destruct H1 as (s1 & H1 & cur & o' & Hcur & Hs1 & (_ & _ & HF) & _ & _ & HD); [naive_solver|].
  assert (cur = ro) as -> by congruence.
  assert (Hgone : content s1 !! rkey r gvr name = None).
  { rewrite Hs1. unfold store_obj. rewrite HD, HF, Hrfin. simpl. by rewrite lookup_delete_eq. }
  set (w1 := mkWorld (w_local w) s1).
  pose proof (deleteRemoteObject_fresh r gvr name w1 HR) as H2. simpl in H2. rewrite Hgone in H2.
  specialize (H2 ltac:(done)).
  destruct (Update_total (lkey r gvr name) (set_finalizers lo []) (w_local w) lo Hl eq_refl)
    as (s2 & o2 & HU & cur & Hcur2 & _ & Hs2 & (_ & _ & HF2) & _ & _ & HD2).
  assert (cur = lo) as -> by congruence.
  exists w1, (mkWorld s2 s1). unfold handle_fresh, Replicator.handle.
  assert (Hlc : lister localLabelSelector (w_local w) (lkey r gvr name) = Ok lo).
  { unfold lister. by rewrite Hl, Hsel. }
  simpl. rewrite Hres, Hlc, Hdel, bool_decide_true by done. simpl.
  split; [by erewrite K_bind_ok by exact H1|]. split; [done|]. split; [done|].
  erewrite K_bind_ok by exact H2. unfold ensureLocalFinalizer, RemoveFinalizer.
  rewrite Hfin, bool_decide_true by set_solver. simpl. split.
  { erewrite K_bind_ok; [done|]. unfold on_local. unfold lkey in HU. simpl.
    by rewrite HU. }
  split; [done|]. rewrite Hs2. unfold store_obj. rewrite HD2, Hdel, HF2. simpl. by rewrite lookup_delete_eq.
Qed.
End answers.

(** *** Any caches, any answers *)

Lemma preserves_getNestedMap I x : preserves I (getNestedMap emptyMap x : K world P).
Proof. destruct x; [apply preserves_ret|apply preserves_panic|apply preserves_ret]. Qed.

Hint Resolve preserves_getNestedMap : preserves.

(** An invariant of the worlds that each write respects. *)
Section invariant.
Context (r : Reflector) (gvr name : string) (I : world → Prop).
Context (I_remote : ∀ {A} (f : server → server * result kerr A) w s res,
  I w → f (w_remote w) = (s, res) →
  (∀ k, k ≠ rkey r gvr name → content s !! k = content (w_remote w) !! k) → I (mkWorld (w_local w) s)).
Context (I_status : ∀ o w s res, I w → UpdateStatus (lkey r gvr name) o (w_local w) = (s, res) →
  I (mkWorld s (w_remote w))).
Context (I_add : ∀ o w s res, I w → finalizer ∈ o_finalizers o →
  Update (lkey r gvr name) o (w_local w) = (s, res) → I (mkWorld s (w_remote w))).

Lemma inv_remote {A} (f : server → server * result kerr A) :
  (∀ s s' res k, f s = (s', res) → k ≠ rkey r gvr name → content s' !! k = content s !! k) →
  preserves I (on_remote f).
Proof.
  intros Hf w w' res HI. unfold on_remote. destruct (f (w_remote w)) as [s rr] eqn:E. intros [= <- <-].
  eapply I_remote; [done|exact E|]. intros k Hk. by eapply Hf.
Qed.

Lemma inv_status own lo ro : preserves I (updateObjectStatus emptyMap r gvr name own lo ro).
Proof.
  destruct own; simpl; unfold updateObjectStatusInner; preserve.
  - apply inv_remote. intros s s' res k. by apply UpdateStatus_frame.
  - intros w w' res HI. unfold on_local.
    destruct (UpdateStatus _ _ _) as [s rr] eqn:E. intros [= <- <-]. by eapply I_status.
Qed.
Lemma inv_create own lo : preserves I (createRemoteObject emptyMap r gvr name own lo).
Proof.
  unfold createRemoteObject. preserve; [|apply inv_status].
  apply inv_remote. intros s s' res k. by apply Create_frame.
Qed.
Lemma inv_spec lo ro : preserves I (updateRemoteObjectSpec emptyMap r gvr name lo ro).
Proof.
  unfold updateRemoteObjectSpec. preserve. apply inv_remote. intros s s' res k. by apply Update_frame.
Qed.
Lemma inv_delete cached : preserves I (deleteRemoteObject r gvr name cached).
Proof.
  unfold deleteRemoteObject. preserve. apply inv_remote. intros s s' res k. by apply Delete_frame.
Qed.
Lemma inv_add lo : preserves I (ensureLocalFinalizer (lkey r gvr name) lo AddFinalizer).
Proof.
  unfold ensureLocalFinalizer, AddFinalizer. case_bool_decide as Hin; simpl; [apply preserves_ret|].
  intros w w' res HI. unfold on_local. destruct (Update _ _ _) as [s rr] eqn:E. intros [= <- <-].
  eapply I_add; [done| |exact E]. simpl. set_solver.
Qed.

(** The whole handler, when removing the finalizer respects it too. *)
Lemma inv_handle lc rc synced :
  (∀ lo, lc = Ok lo → o_deleting lo = true →
     preserves I (v ← deleteRemoteObject r gvr name rc;
                  if (v : bool) then _ ← ensureLocalFinalizer (lkey r gvr name) lo RemoveFinalizer; mret ()
                  else mret ())) →
  preserves I (handle r gvr name lc rc synced).
Proof.
  intros Hrm. unfold Replicator.handle.
  destruct (resources r !! gvr) as [rs|]; [|apply preserves_ret].
  destruct lc as [lo|[]]; [| |apply preserves_bind; [apply inv_delete|intros; apply preserves_ret]|..];
    try apply preserves_fail.
  case_match; [apply preserves_ret|]. destruct (o_deleting lo) eqn:Hd; [by apply Hrm|].
  apply preserves_bind; [apply inv_add|]. intros lo'. case_match; [apply preserves_fail|].
  destruct rc as [ro|[]]; try solve [apply preserves_ret|apply preserves_fail].
  - apply preserves_bind; [apply inv_spec|]. intros ro'. apply inv_status.
  - apply preserves_bind; [apply preserves_attempt, inv_create|]. preserve.
Qed.
End invariant.

(** The finalizer of the replicator is on the local object. *)
Definition guarded (r : Reflector) (gvr name : string) (w : world) : Prop :=
  ∃ lo, content (w_local w) !! lkey r gvr name = Some lo ∧ finalizer ∈ o_finalizers lo.

Lemma lives_finalizer (o : Obj P) x : x ∈ o_finalizers o → lives o.
Proof. intros Hin _ Hnil. rewrite Hnil in Hin. by apply not_elem_of_nil in Hin. Qed.

Lemma update_guarded r gvr name (o : Obj P) w s res : guarded r gvr name w → finalizer ∈ o_finalizers o →
  Update (lkey r gvr name) o (w_local w) = (s, res) → guarded r gvr name (mkWorld s (w_remote w)).
Proof.
  intros (lo & Hl & Hf) Ho HU. unfold guarded. simpl.
  assert (HE : ∀ o', update_eff (lkey r gvr name) o (content (w_local w)) o' (content s) →
    ∃ lo, content s !! lkey r gvr name = Some lo ∧ finalizer ∈ o_finalizers lo).
  { intros o' (cur & _ & _ & -> & (_ & _ & HF) & _). exists o'. rewrite HF. split; [|done].
    rewrite store_obj_lives by (eapply lives_finalizer; by rewrite HF). by rewrite lookup_insert_eq. }
  destruct res as [o'|e]; [by eapply HE, Update_ok|].
  apply Update_err in HU as [->|[o' HU]]; [by exists lo|by eapply HE].
Qed.

Lemma status_guarded r gvr name (o : Obj P) w s res : guarded r gvr name w →
  UpdateStatus (lkey r gvr name) o (w_local w) = (s, res) → guarded r gvr name (mkWorld s (w_remote w)).
Proof.
  intros (lo & Hl & Hf) HU. unfold guarded. simpl.
  assert (HE : ∀ o', update_status_eff (lkey r gvr name) o (content (w_local w)) o' (content s) →
    ∃ lo, content s !! lkey r gvr name = Some lo ∧ finalizer ∈ o_finalizers lo).
  { intros o' (cur & Hc & _ & -> & (_ & _ & HF) & _). assert (cur = lo) as -> by congruence.
    exists o'. rewrite HF. split; [|done].
    rewrite store_obj_lives by (eapply lives_finalizer; by rewrite HF). by rewrite lookup_insert_eq. }
  destruct res as [o'|e]; [by eapply HE, UpdateStatus_ok|].
  apply UpdateStatus_err in HU as [->|[o' HU]]; [by exists lo|by eapply HE].
Qed.

Lemma delete_vanished r gvr name rc (w w' : world) : deleteRemoteObject r gvr name rc w = Ret (w', Ok true) →
  RemoteReachable r = false ∨ rc = Err NotFound ∨ rc = Err Forbidden ∨
  content (w_remote w') !! rkey r gvr name = None.
Proof.
  unfold deleteRemoteObject. destruct (RemoteReachable r); simpl; [|by left].
  destruct rc as [ro|[]]; try done; [|by right; right; left|by right; left].
  unfold mbind, K_bind, attempt, on_remote.
  destruct (Delete _ _) as [s [[]|[]]] eqn:HD; try done. intros [= <-]. do 3 right. simpl.
  apply Delete_gone in HD as [? ->]. done.
Qed.

(** C14: The finalizer is given up only when the remote object is reported gone.
    Whatever the caches say and whichever calls fail, if the local object had the
    finalizer before the handler ran and does not have it afterwards, then the
    object was being deleted and the remote cluster was declared unreachable, or
    the remote lister answered "not found" or "forbidden", or the remote object
    no longer exists. *)
Theorem finalizer_guards_replica (r : Reflector) (gvr name : string) (lc rc : result kerr (Obj P))
    (synced : bool) (w w' : world) (res : result kerr ()) :
  handle r gvr name lc rc synced w = Ret (w', res) → guarded r gvr name w → ¬ guarded r gvr name w' →
  (∃ lo, lc = Ok lo ∧ o_deleting lo = true) ∧
  (RemoteReachable r = false ∨ rc = Err NotFound ∨ rc = Err Forbidden ∨
   content (w_remote w') !! rkey r gvr name = None).
Proof.
  intros Hh Hg Hng.
  assert (Hdec : (∃ lo, lc = Ok lo ∧ o_deleting lo = true) ∨ ¬ ∃ lo, lc = Ok lo ∧ o_deleting lo = true).
  { destruct lc as [lo|]; [|right; naive_solver]. destruct (o_deleting lo) eqn:Hd; [left; by exists lo|].
    right. intros (lo' & [= <-] & ?). congruence. }
  destruct Hdec as [Hd|Hd].
  - split; [done|]. destruct Hd as (lo & -> & Hd).
    unfold Replicator.handle in Hh. destruct (resources r !! gvr); [|by injection Hh as <- _].
    destruct (bool_decide _) in Hh; simpl in Hh; [|by injection Hh as <- _]. rewrite Hd in Hh.
    assert (Hdp : preserves (guarded r gvr name) (deleteRemoteObject r gvr name rc)).
    { apply inv_delete. intros A f w0 s rz Hg0 _ _. exact Hg0. }
    apply K_bind_inv in Hh as [(v & w1 & H1 & H2)|(e & H1 & _)].
    2: { destruct Hng. by eapply Hdp. }
    destruct v; [|injection H2 as <- _; destruct Hng; by eapply Hdp].
    assert (Hrem : w_remote w' = w_remote w1).
    { unfold ensureLocalFinalizer, RemoveFinalizer in H2.
      apply K_bind_inv in H2 as [(a & w2 & H2 & [= <- _])|(e & H2 & _)];
        (destruct (bool_decide _) in H2; simpl in H2; [unfold on_local in H2; destruct (Update _ _ _); by simplify_eq/=
                                        |by injection H2 as <- _]). }
    apply delete_vanished in H1. by rewrite Hrem.
  - destruct Hng. eapply (inv_handle r gvr name (guarded r gvr name)); [..|exact Hg|exact Hh].
    + intros A f w0 s rz Hg0 _ _. exact Hg0.
    + intros o w0 s rz Hg0 HU. by eapply status_guarded.
    + intros o w0 s rz Hg0 Ho HU. by eapply update_guarded.
    + intros lo Hlo Hdel. destruct Hd. by exists lo.
Qed.

(** The handler touches the object it is called for and nothing else.  Whatever
    the caches and the answers, every other object of both clusters is as before;
    and when the local object is destined to another cluster, nothing changes. *)
Theorem handler_frame (r : Reflector) (gvr name : string) (lc rc : result kerr (Obj P)) (synced : bool)
    (w w' : world) (res : result kerr ()) :
  handle r gvr name lc rc synced w = Ret (w', res) →
  (∀ k, k ≠ lkey r gvr name → content (w_local w') !! k = content (w_local w) !! k) ∧
  (∀ k, k ≠ rkey r gvr name → content (w_remote w') !! k = content (w_remote w) !! k) ∧
  (∀ lo, lc = Ok lo → o_labels lo !! ReplicationDestinationLabel ≠ Some (remoteClusterID r) → w' = w).
Proof.
  intros Hh. set (I := fun w0 : world =>
    (∀ k, k ≠ lkey r gvr name → content (w_local w0) !! k = content (w_local w) !! k) ∧
    (∀ k, k ≠ rkey r gvr name → content (w_remote w0) !! k = content (w_remote w) !! k)).
  assert (HU : ∀ o w0 s rz, I w0 → Update (lkey r gvr name) o (w_local w0) = (s, rz) → I (mkWorld s (w_remote w0))).
  { intros o w0 s rz [I1 I2] HU. split; [|done]. intros k Hk. rewrite <- I1 by done. by eapply Update_frame. }
  assert (HR : ∀ A (f : server → server * result kerr A) w0 s rz, I w0 → f (w_remote w0) = (s, rz) →
    (∀ k, k ≠ rkey r gvr name → content s !! k = content (w_remote w0) !! k) → I (mkWorld (w_local w0) s)).
  { intros A f w0 s rz [I1 I2] _ Hfr. split; [done|]. intros k Hk. simpl. by rewrite Hfr, I2. }
  assert (HI : I w').
  { eapply (inv_handle r gvr name I); [done|..|done|exact Hh].
    - intros o w0 s rz [I1 I2] HS. split; [|done]. intros k Hk. rewrite <- I1 by done. by eapply UpdateStatus_frame.
    - intros o w0 s rz Hi _. by apply HU.
    - intros lo _ _. apply preserves_bind; [by apply inv_delete|]. intros []; [|apply preserves_ret].
      apply preserves_bind; [|intros; apply preserves_ret].
      unfold ensureLocalFinalizer, RemoveFinalizer. case_bool_decide; simpl; [|apply preserves_ret].
      intros w0 w1 rz Hi. unfold on_local. destruct (Update _ _ _) eqn:E. intros [= <- <-]. by eapply HU. }
  destruct HI as [I1 I2]. split; [done|]. split; [done|].
  intros lo -> Hdest. unfold Replicator.handle in Hh. destruct (resources r !! gvr); [|by injection Hh].
  rewrite bool_decide_false in Hh by done. by injection Hh.
Qed.
End handler.

(** ** The controller *)

(** No object of the resource is left on either side, as far as can be known. *)
Definition drained (r : Reflector) (lists : string → listing * listing) (gvr : string) : Prop :=
  fst (lists gvr) = Ok 0%nat ∧
  (RemoteReachable r = false ∨ snd (lists gvr) = Ok 0%nat ∨ snd (lists gvr) = Err Forbidden).

Lemma check_local reachable l : check_presence reachable false l = None ↔ l = Ok 0%nat.
Proof.
  unfold check_presence. simpl. destruct l as [n|[]]; try (split; done).
  destruct n; simpl; split; done.
Qed.
Lemma check_remote reachable l : check_presence reachable true l = None ↔
  reachable = false ∨ l = Ok 0%nat ∨ l = Err Forbidden.
Proof.
  unfold check_presence. destruct reachable; simpl; [|split; [by left|done]].
  destruct l as [[|n]|[]]; simpl; split; naive_solver.
Qed.

Lemma stopForResource_ok skip rf lists gvr r hs r' hs' :
  stopForResource skip rf lists gvr (r, hs) = Ok (r', hs') →
  RemoteReachable r' = RemoteReachable r ∧ localNamespace r' = localNamespace r ∧
  resources r' = delete gvr (resources r) ∧
  (is_Some (resources r !! gvr) → hs' = hs ∖ {[ (gvr, localNamespace r) ]} ∧ (skip = false → drained r lists gvr)) ∧
  hs' ⊆ hs.
Proof.
  unfold stopForResource. destruct (resources r !! gvr) as [x|] eqn:Hx.
  2: { intros [= <- <-]. split; [done|]. split; [done|]. split; [by rewrite delete_id|].
       split; [by intros [? ?]|done]. }
  unfold drained. destruct (lists gvr) as [l rm]. simpl.
  pose proof (check_local (RemoteReachable r) l) as HL. pose proof (check_remote (RemoteReachable r) rm) as HR.
  destruct skip.
  { intros [= <- <-]. repeat split; try done. set_solver. }
  destruct rf; simpl; destruct (check_presence _ true rm) as [e|], (check_presence _ false l) as [e'|];
    simpl; try done.
  all: intros [= <- <-]; split; [done|]; split; [done|]; split; [done|].
  all: split; [|set_solver]; intros _; split; [done|]; intros _; split; [by apply HL|by apply HR].
Qed.

Lemma stop_ok skip rf lists order r hs r' hs' : stop skip rf lists order (r, hs) = (r', hs', None) →
  ∀ gvr, gvr ∈ order → is_Some (resources r !! gvr) →
    resources r' !! gvr = None ∧ (gvr, localNamespace r) ∉ hs' ∧ (skip = false → drained r lists gvr).
Proof.
  assert (Hmono : ∀ order r hs r' hs', stop skip rf lists order (r, hs) = (r', hs', None) →
    hs' ⊆ hs ∧ ∀ g, resources r !! g = None → resources r' !! g = None).
  { clear. induction order as [|g order IH]; intros r hs r' hs'; cbn [stop]; [by intros [= <- <-]|].
    destruct (stopForResource skip rf lists g (r, hs)) as [[r1 hs1]|] eqn:E; [|done].
    apply stopForResource_ok in E as (_ & _ & Hd & _ & Hs). intros [Hs' Hn]%IH. split; [set_solver|].
    intros g' Hg'. apply Hn. rewrite Hd. apply lookup_delete_None. by right. }
  revert r hs. induction order as [|g order IH]; intros r hs; cbn [stop]; [by intros _ gvr []%not_elem_of_nil|].
  destruct (stopForResource skip rf lists g (r, hs)) as [[r1 hs1]|] eqn:E; [|done].
  apply stopForResource_ok in E as (HR & HN & Hd & Hh & Hs). intros Hst gvr Hin Hgvr.
  destruct (decide (gvr = g)) as [->|Hne].
  - destruct (Hh Hgvr) as [-> Hdr]. apply Hmono in Hst as [Hs' Hn]. split; [|split; [set_solver|done]].
    apply Hn. rewrite Hd. apply lookup_delete_eq.
  - apply elem_of_cons in Hin as [?|Hin]; [done|].
    destruct (IH r1 hs1 Hst gvr Hin) as (H1 & H2 & H3); [by rewrite Hd, lookup_delete_ne|].
    rewrite HN in H2. split; [done|]. split; [done|]. unfold drained in *. by rewrite HR in H3.
Qed.

(** The identity of a remote cluster is released only after its reflection has
    stopped.  When a reconciliation takes the finalizer off a secret that is being
    deleted, there is no reflector towards the cluster any more, none of its
    handlers is left, and for every resource it reflected no local object was left,
    nor a remote one unless the cluster is unreachable or denies access. *)
Theorem secret_released_after_stop (localID : string) (registered : list (string * OwnershipType))
    (env : secretEnv) (s : Secret) (c c' : Controller) (e : option kerr) :
  s_finalizer s = true → Reconcile localID registered env (Ok s) c = Ret (c', false, e) →
  s_deleting s = true ∧ e = None ∧
  ∃ id ns, validateSecret s = Some (id, ns) ∧ Reflectors c' !! id = None ∧
    ∀ r gvr, Reflectors c !! id = Some r → is_Some (resources r !! gvr) → gvr ∈ env_order env →
      drained r (env_lists env) gvr ∧ (gvr, localNamespace r) ∉ handlers c'.
Proof.
  intros Hf. unfold Reconcile. rewrite Hf. destruct (validateSecret s) as [[id ns]|]; [|done].
  destruct (s_deleting s); simpl.
  - unfold stopReflector. destruct (Reflectors c !! id) as [r|] eqn:Hr.
    + destruct (stop _ _ _ _ _) as [[r1 hs] [e1|]] eqn:Hst; [done|].
      destruct (env_update env); [done|]. intros [= <- <-]. split; [done|]. split; [done|].
      exists id, ns. split; [done|]. split; [apply lookup_delete_eq|].
      intros rz gvr Hrz Hg Ho. assert (rz = r) as -> by congruence. destruct (stop_ok _ _ _ _ _ _ _ _ Hst gvr Ho Hg) as (_ & ? & Hd).
      split; [by apply Hd|done].
    + destruct (env_update env); [done|]. intros [= <- <-]. split; [done|]. split; [done|].
      exists id, ns. split; [done|]. split; [done|]. intros rz gvr Hrz. congruence.
  - assert (Hfin : ∀ c0, ¬ ('(c, e) ← enforceReflectionStatus registered id false (env_remoteFirst env)
                                 (env_lists env) c0; Ret (c, true, e)) = Ret (c', false, e)).
    { intros c0. unfold mbind, outcome_bind. by destruct (enforceReflectionStatus _ _ _ _ _ _) as [[]| |]. }
    destruct (Reflectors c !! id) as [r|].
    + destruct (bool_decide _ && bool_decide _); [by intros ?%Hfin|].
      destruct (stopReflector _ _ _ _ _ _) as [c1 [e1|]]; [done|].
      destruct (env_hash env), (env_client env); try done; by intros ?%Hfin.
    + destruct (env_hash env), (env_client env); try done; by intros ?%Hfin.
Qed.

(** ** Concrete instances *)

Definition ex_reflector : Reflector :=
  mkReflector true "local-ns" "home" "remote-ns" "away" {[ "slices"%string := mkResource OwnershipShared true ]} "h".
Definition ex_obj (deleting : bool) : Obj Z :=
  mkObj {[ ReplicationRequestedLabel := "true"%string; ReplicationDestinationLabel := "away"%string ]} ∅
    (if deleting then [finalizer] else []) deleting 7 (AMap 42) (AMap 0).
Definition ex_world (deleting : bool) : @world Z memory :=
  mkWorld (Api := memory) {[ ("slices", "local-ns", "a")%string := ex_obj deleting ]} ∅.
Definition ex_replica : Obj Z :=
  mkObj (mutateLabelsForRemote "home" (o_labels (ex_obj false))) ∅ [] false 1 (AMap 42) (AMap 5).
Definition ex_both : @world Z memory :=
  mkWorld (Api := memory) {[ ("slices", "local-ns", "a")%string := ex_obj true ]}
    {[ ("slices", "remote-ns", "a")%string := ex_replica ]}.

Lemma ex_replicable : replicable (Api := memory) 0 ex_reflector "slices" "a" OwnershipShared (ex_obj false) (ex_world false).
Proof.
  split; [eexists; split; [reflexivity|done]|]. split; [by right|]. split; [reflexivity|]. split; [reflexivity|].
  split; [reflexivity|]. split; [reflexivity|]. split; [by eexists|]. split; [by eexists|]. done.
Qed.

Lemma replication_converges_witness :
  ∃ w' lo' ro', handle_fresh (Api := memory) 0 ex_reflector "slices" "a" (ex_world false) = Ret (w', Ok ()) ∧
    w_local w' !! ("slices", "local-ns", "a")%string = Some lo' ∧
    w_remote w' !! ("slices", "remote-ns", "a")%string = Some ro' ∧
    finalizer ∈ o_finalizers lo' ∧ map_of 0 (o_spec ro') = Some 42 ∧
    replica_meta (localClusterID ex_reflector) (ex_obj false) ro' None.
Proof.
  destruct (replication_converges (Api := memory) 0 ex_reflector "slices" "a" OwnershipShared (ex_obj false)
    (ex_world false) ex_replicable) as (w' & lo' & ro' & H1 & H2 & H3 & H4 & _ & H5 & _ & _ & _ & H6).
  exists w', lo', ro'. done.
Defined.

Lemma replication_stable_witness :
  ∃ w', handle_fresh (Api := memory) 0 ex_reflector "slices" "a" (ex_world false) = Ret (w', Ok ()) ∧
    handle_fresh (Api := memory) 0 ex_reflector "slices" "a" w' = Ret (w', Ok ()).
Proof.
  destruct (handle_replicates (Api := memory) 0 ex_reflector "slices" "a" OwnershipShared (ex_obj false)
    (ex_world false) ex_replicable) as (w' & _ & _ & H1 & _).
  exists w'. split; [done|].
  exact (replication_stable (Api := memory) 0 ex_reflector "slices" "a" OwnershipShared (ex_obj false)
    (ex_world false) w' (Ok ()) ex_replicable H1).
Defined.

Lemma deletion_completes_witness :
  ∃ w1 w2, handle_fresh (Api := memory) 0 ex_reflector "slices" "a" ex_both = Ret (w1, Ok ()) ∧
    handle_fresh (Api := memory) 0 ex_reflector "slices" "a" w1 = Ret (w2, Ok ()) ∧
    w_local w2 !! ("slices", "local-ns", "a")%string = None.
Proof.
  destruct (deletion_completes (Api := memory) 0 ex_reflector "slices" "a" (mkResource OwnershipShared true)
    (ex_obj true) ex_replica ex_both eq_refl eq_refl eq_refl eq_refl eq_refl eq_refl eq_refl eq_refl eq_refl eq_refl)
    as (w1 & w2 & H1 & _ & _ & H2 & _ & H3).
  exists w1, w2. done.
Defined.

Definition ex_orphan : world (Api := @memory Z) :=
  mkWorld (Api := memory) {[ ("slices", "local-ns", "a")%string := ex_obj true ]} ∅.

Lemma finalizer_guards_replica_witness :
  ∃ w' res, handle (Api := memory) 0 ex_reflector "slices" "a" (Ok (ex_obj true)) (Err NotFound) true ex_orphan = Ret (w', res) ∧
    guarded (Api := memory) ex_reflector "slices" "a" ex_orphan ∧ ¬ guarded (Api := memory) ex_reflector "slices" "a" w' ∧
    (RemoteReachable ex_reflector = false ∨ (Err NotFound : result kerr (Obj Z)) = Err NotFound ∨
     (Err NotFound : result kerr (Obj Z)) = Err Forbidden ∨
     w_remote w' !! ("slices", "remote-ns", "a")%string = None).
Proof.
  assert (Hg : guarded (Api := @memory Z) ex_reflector "slices" "a" ex_orphan).
  { eexists. split; [reflexivity|]. simpl. set_solver. }
  assert (Hn : ¬ guarded (Api := @memory Z) ex_reflector "slices" "a" (mkWorld (Api := @memory Z) ∅ ∅))
    by (by intros (lo & ? & _)).
  assert (Hh : handle (Api := memory) 0 ex_reflector "slices" "a" (Ok (ex_obj true)) (Err NotFound) true ex_orphan
    = Ret (mkWorld (Api := @memory Z) ∅ ∅, Ok ())) by reflexivity.
  eexists _, _. split; [exact Hh|]. split; [done|]. split; [done|].
  exact (proj2 (finalizer_guards_replica (Api := memory) 0 ex_reflector "slices" "a" (Ok (ex_obj true))
    (Err NotFound) true ex_orphan _ _ Hh Hg Hn)).
Defined.

Lemma handler_frame_witness :
  let w := ex_world false in
  ∃ w' res, handle (Api := memory) 0 ex_reflector "slices" "a" (Ok (ex_obj false)) (Err NotFound) true w = Ret (w', res) ∧
    ∀ k, k ≠ ("slices", "local-ns", "a")%string → w_local w' !! k = w_local w !! k.
Proof.
  intros w. destruct (handle_replicates (Api := memory) 0 ex_reflector "slices" "a" OwnershipShared (ex_obj false)
    w ex_replicable) as (w' & _ & _ & H1 & _).
  exists w', (Ok ()). split; [exact H1|].
  exact (proj1 (handler_frame (Api := memory) 0 ex_reflector "slices" "a" (Ok (ex_obj false))
    (Err NotFound) true w w' (Ok ()) H1)).
Defined.

Definition ex_secret (deleting fin : bool) : Secret :=
  mkSecret (Some {[ RemoteClusterIDLabel := "away"%string ]}) (Some {[ RemoteTenantNamespaceAnnotKey := "remote-ns"%string ]})
    "local-ns" deleting fin "h".
Definition ex_env : secretEnv :=
  mkEnv None (Some "h"%string) None false (fun _ => (Ok 0%nat, Ok 0%nat)) ["slices"%string].

Definition ex_released : Controller :=
  match Reconcile "home" [] ex_env (Ok (ex_secret true true)) (mkController {[ "away"%string := ex_reflector ]} ∅) with
  | Ret (c, _, _) => c
  | _ => mkController ∅ ∅
  end.

Lemma secret_released_after_stop_witness : Reflectors ex_released !! "away"%string = None.
Proof.
  assert (HR : Reconcile "home" [] ex_env (Ok (ex_secret true true))
    (mkController {[ "away"%string := ex_reflector ]} ∅) = Ret (ex_released, false, None)) by (vm_compute; reflexivity).
  destruct (secret_released_after_stop "home" [] ex_env (ex_secret true true)
    (mkController {[ "away"%string := ex_reflector ]} ∅) ex_released None eq_refl HR)
    as (_ & _ & id & ns & Hv & H & _). injection Hv as <- <-. exact H.
Defined.

(** A secret that is being deleted can start a new reflection.  Once the
    finalizer has been taken off a secret that something else still holds, the next
    reconciliation puts the finalizer back and sets up a new reflector. *)
Theorem deleted_secret_restarts :
  ∃ r, Reconcile "home" [("slices"%string, OwnershipShared)] ex_env (Ok (ex_secret true false)) (mkController ∅ ∅)
       = Ret (mkController {[ "away"%string := r ]} ∅, true, None) ∧ RemoteReachable r = true.
Proof. eexists. split; vm_compute; reflexivity. Qed.
