(* ===== verification/Conncheck.v ===== *)
(** * Conncheck: the check of the tunnel between gateways
      (src/pkg/conncheck, src/pkg/gateway/connection)

    Each gateway pings its peer over the tunnel and answers the pings of the peer.
    Three kinds of goroutines share the state: the receiver, the observer that
    declares peers disconnected, and the callers that add, run and delete senders.
    A method under its mutexes is a function; the callbacks run outside of them, so
    the goroutines interleave as steps of a machine.  Times are nanoseconds;
    durations have the width of [int64]. *)

From S2P Require Export GoNet.
Local Open Scope Z_scope.

(** ** Time *)

Definition MaxInt64 : Z := 2 ^ 63 - 1.
Definition MinInt64 : Z := - 2 ^ 63.
(** The value of an [int64] operation. *)
Definition int64 (z : Z) : Z := (z + 2 ^ 63) mod 2 ^ 64 - 2 ^ 63.
(** [Time.Sub] saturates. *)
Definition Sub (t u : Z) : Z := Z.max MinInt64 (Z.min MaxInt64 (t - u)).
(** The zero [time.Time], January 1 of year 1. *)
Definition zeroTime : Z := -62135596800 * 10 ^ 9.

(** ** State *)

(** The options that are read; the threshold is a [uint], the interval a
    [Duration]. *)
Record Options := mkOptions { PingPort : Z; PingLossThreshold : Z; PingInterval : Z }.

(** An observer is a closure: it is told apart by a number, and may be nil. *)
Record Peer := mkPeer {
  connected : bool; latency : Z; lastPingTimestamp : Z; lastPongTimestamp : Z; observer : option nat
}.
Record Sender := mkSender { raddr_IP : IP; raddr_Port : Z; cancelled : bool }.

(** A nil [*Sender] is [None]. *)
Record ConnChecker := mkConnChecker {
  senders : gmap string (option Sender); runningSenders : gmap string (option Sender);
  peers : gmap string Peer
}.
Definition NewConnChecker : ConnChecker := mkConnChecker ∅ ∅ ∅.

Inductive cc_error := EmptyClusterID | DuplicateError (id : string) | InvalidIP (ip : string)
  | SenderNotFound (id : string) | AlreadyRunning (id : string) | NotInitialized (id : string).

(** A call of an observer: which one, connected, latency. *)
Notation notification := (nat * bool * Z)%type.

(** ** Senders *)

Definition NewSender (opts : Options) (ip : string) : result cc_error Sender :=
  match ParseIP ip with
  | [] => Err (InvalidIP ip)
  | pip => Ok (mkSender pip (PingPort opts) false)
  end.

Definition HasSender (id : string) (c : ConnChecker) : bool := bool_decide (is_Some (senders c !! id)).

Definition InitPeer (id : string) (obs : option nat) (now : Z) (c : ConnChecker) : ConnChecker :=
  mkConnChecker (senders c) (runningSenders c) (<[id := mkPeer false 0 zeroTime now obs]> (peers c)).

(** The result of [NewSender] is stored before its error is looked at. *)
Definition AddSender (opts : Options) (id ip : string) (obs : option nat) (now : Z) (c : ConnChecker) :
    ConnChecker * result cc_error () :=
  if bool_decide (id = ""%string) then (c, Err EmptyClusterID)
  else match senders c !! id with
  | Some _ => (c, Err (DuplicateError id))
  | None =>
    match NewSender opts ip with
    | Err e => (mkConnChecker (<[id := None]> (senders c)) (runningSenders c) (peers c), Err e)
    | Ok s => (InitPeer id obs now
                 (mkConnChecker (<[id := Some s]> (senders c)) (runningSenders c) (peers c)), Ok ())
    end
  end.

Definition setRunning (id : string) (c : ConnChecker) : ConnChecker * result cc_error (option Sender) :=
  match senders c !! id with
  | None => (c, Err (SenderNotFound id))
  | Some s => match runningSenders c !! id with
              | Some _ => (c, Err (AlreadyRunning id))
              | None => (mkConnChecker (senders c) (<[id := s]> (runningSenders c)) (peers c), Ok s)
              end
  end.

(** [RunSender] up to its loop: [sender.raddr] is dereferenced. *)
Definition RunSender (id : string) (c : ConnChecker) : outcome (ConnChecker * option Sender) :=
  match setRunning id c with
  | (c, Err _) => Ret (c, None)
  | (c, Ok None) => Panic
  | (c, Ok (Some s)) => Ret (c, Some s)
  end.

(** [c.senders[clusterID].cancel()] dereferences the sender. *)
Definition DelAndStopSender (id : string) (c : ConnChecker) : outcome ConnChecker :=
  match senders c !! id with
  | Some None => Panic
  | _ => Ret (mkConnChecker (delete id (senders c)) (delete id (runningSenders c)) (delete id (peers c)))
  end.

Definition GetStatus (id : string) (c : ConnChecker) : result cc_error (bool * Z) :=
  match peers c !! id with
  | Some p => Ok (connected p, latency p)
  | None => Err (SenderNotFound id)
  end.

(** ** The receiver *)

Inductive MsgTypes := PING | PONG | MsgOther (s : string).
Record Msg := mkMsg { m_ClusterID : string; m_MsgType : MsgTypes; m_TimeStamp : Z }.

Definition notify (p : Peer) (b : bool) (l : Z) : option notification := (fun o => (o, b, l)) <$> observer p.

(** The part of [ReceivePong] under the mutex, and the callback due afterwards. *)
Definition ReceivePong (msg : Msg) (receivedAt : Z) (c : ConnChecker) :
    ConnChecker * result cc_error (option notification) :=
  match peers c !! m_ClusterID msg with
  | None => (c, Err (NotInitialized (m_ClusterID msg)))
  | Some p =>
    if m_TimeStamp msg <? lastPingTimestamp p then (c, Ok None)
    else
      let l := Sub receivedAt (m_TimeStamp msg) in
      let p := mkPeer true l (m_TimeStamp msg) receivedAt (observer p) in
      (mkConnChecker (senders c) (runningSenders c) (<[m_ClusterID msg := p]> (peers c)), Ok (notify p true l))
  end.

(** A message in the body of the loop of [Run]: the answer to send, or the effect
    of a PONG. *)
Definition receive (msg : Msg) (receivedAt : Z) (c : ConnChecker) :
    ConnChecker * option Msg * option notification :=
  match m_MsgType msg with
  | PING => (c, Some (mkMsg (m_ClusterID msg) PONG (m_TimeStamp msg)), None)
  | PONG => match ReceivePong msg receivedAt c with
            | (c, Ok n) => (c, None, n)
            | (c, Err _) => (c, None, None)
            end
  | MsgOther _ => (c, None, None)
  end.

(** ** The disconnect observer *)

(** [thresholdDuration*PingInterval] on [int64]. *)
Definition thresholdDuration (opts : Options) : Z :=
  if MaxInt64 <? PingLossThreshold opts then MaxInt64 else PingLossThreshold opts.
Definition loss_limit (opts : Options) : Z := int64 (PingInterval opts * thresholdDuration opts).

(** One peer, under the mutex. *)
Definition check_peer (opts : Options) (now : Z) (id : string) (c : ConnChecker) :
    ConnChecker * option notification :=
  match peers c !! id with
  | None => (c, None)
  | Some p =>
    if Sub now (lastPongTimestamp p) <=? loss_limit opts then (c, None)
    else
      let p := mkPeer false 0 (lastPingTimestamp p) (lastPongTimestamp p) (observer p) in
      (mkConnChecker (senders c) (runningSenders c) (<[id := p]> (peers c)), notify p false 0)
  end.

(** ** The goroutines *)

(** The shared state, the clock, the callback the receiver is about to run, the
    peers the observer has still to check and the callback it is about to run, and
    the callbacks run so far. *)
Record machine := mkMachine {
  mc_state : ConnChecker; mc_clock : Z; mc_recv : option notification;
  mc_todo : list string; mc_disc : option notification; mc_trace : list notification
}.

Inductive step (opts : Options) : machine → machine → Prop :=
| step_tick m t : mc_clock m ≤ t →
    step opts m (mkMachine (mc_state m) t (mc_recv m) (mc_todo m) (mc_disc m) (mc_trace m))
| step_receive m msg receivedAt c answer n : mc_recv m = None → receivedAt ≤ mc_clock m →
    receive msg receivedAt (mc_state m) = (c, answer, n) →
    step opts m (mkMachine c (mc_clock m) n (mc_todo m) (mc_disc m) (mc_trace m))
| step_recv_callback m n : mc_recv m = Some n →
    step opts m (mkMachine (mc_state m) (mc_clock m) None (mc_todo m) (mc_disc m) (mc_trace m ++ [n]))
| step_snapshot m ids : mc_todo m = [] → mc_disc m = None →
    ids ≡ₚ fst <$> map_to_list (peers (mc_state m)) →
    step opts m (mkMachine (mc_state m) (mc_clock m) (mc_recv m) ids None (mc_trace m))
| step_check m id ids c n : mc_todo m = id :: ids → mc_disc m = None →
    check_peer opts (mc_clock m) id (mc_state m) = (c, n) →
    step opts m (mkMachine c (mc_clock m) (mc_recv m) ids n (mc_trace m))
| step_disc_callback m n : mc_disc m = Some n →
    step opts m (mkMachine (mc_state m) (mc_clock m) (mc_recv m) (mc_todo m) None (mc_trace m ++ [n]))
| step_add m id ip obs c res : AddSender opts id ip obs (mc_clock m) (mc_state m) = (c, res) →
    step opts m (mkMachine c (mc_clock m) (mc_recv m) (mc_todo m) (mc_disc m) (mc_trace m))
| step_run m id c s : RunSender id (mc_state m) = Ret (c, s) →
    step opts m (mkMachine c (mc_clock m) (mc_recv m) (mc_todo m) (mc_disc m) (mc_trace m))
| step_delete m id c : DelAndStopSender id (mc_state m) = Ret c →
    step opts m (mkMachine c (mc_clock m) (mc_recv m) (mc_todo m) (mc_disc m) (mc_trace m)).

Definition initial (t : Z) : machine := mkMachine NewConnChecker t None [] None [].
Definition reachable (opts : Options) (m : machine) : Prop := ∃ t, rtc (step opts) (initial t) m.

(** ** The controller of connections *)

(** [onTransition]: the last state seen, and whether [onChange] is called. *)
Definition onTransition (lastConnected connected : bool) : bool * bool :=
  (connected, negb (bool_decide (lastConnected = connected))).

Inductive ConnectionStatusValue := Connected | ConnectionError.

(** [ensureSender]: whether the sender is to be run. *)
Definition ensureSender (opts : Options) (remoteIP : result cc_error string) (gwName : string)
    (obs : option nat) (now : Z) (c : ConnChecker) : ConnChecker * result cc_error bool :=
  if HasSender gwName c then (c, Ok false)
  else match remoteIP with
  | Err e => (c, Err e)
  | Ok ip => match AddSender opts gwName ip obs now c with
             | (c, Err (DuplicateError _)) => (c, Ok false)
             | (c, Err e) => (c, Err e)
             | (c, Ok _) => (c, Ok true)
             end
  end.

(** [Reconcile] on an existing connection: the status written, with the outcome of
    the write. *)
Definition Reconcile (opts : Options) (pingEnabled : bool) (remoteIP : result cc_error string) (gwName : string)
    (obs : option nat) (now : Z) (update : result cc_error ()) (c : ConnChecker) :
    ConnChecker * option (ConnectionStatusValue * Z) * result cc_error () :=
  if pingEnabled then
    match ensureSender opts remoteIP gwName obs now c with
    | (c, Err e) => (c, None, Err e)
    | (c, Ok _) =>
      let status := match GetStatus gwName c with
                    | Ok (true, l) => (Connected, l)
                    | Ok (false, l) => (ConnectionError, l)
                    | Err _ => (ConnectionError, 0)
                    end in
      (c, Some status, update)
    end
  else (c, Some (Connected, 0), update).

(** ** What the connection checker guarantees *)

(** ** Arithmetic of durations *)

Lemma int64_id z : MinInt64 ≤ z ≤ MaxInt64 → int64 z = z.
Proof. unfold MinInt64, MaxInt64, int64. intros. rewrite Z.mod_small; lia. Qed.

Lemma Sub_exact t u : MinInt64 ≤ t - u ≤ MaxInt64 → Sub t u = t - u.
Proof. unfold Sub. lia. Qed.

(** ** The invariant *)

(** A peer at a time: what it reports is what the last accepted PONG says. *)
Definition peer_ok (now : Z) (p : Peer) : Prop :=
  lastPongTimestamp p ≤ now ∧
  (connected p = true → latency p = Sub (lastPongTimestamp p) (lastPingTimestamp p)) ∧
  (connected p = false → latency p = 0).

(** Every peer has a usable sender, and what runs is a sender. *)
Definition state_ok (now : Z) (c : ConnChecker) : Prop :=
  (∀ id p, peers c !! id = Some p → peer_ok now p ∧ ∃ s, senders c !! id = Some (Some s)) ∧
  (∀ id s, runningSenders c !! id = Some s → senders c !! id = Some s).

Definition callback_ok (n : notification) : Prop := n.1.2 = false → n.2 = 0.

Definition machine_ok (m : machine) : Prop :=
  state_ok (mc_clock m) (mc_state m) ∧
  (∀ n, mc_recv m = Some n → n.1.2 = true) ∧ (∀ n, mc_disc m = Some n → n.1.2 = false ∧ n.2 = 0) ∧
  Forall callback_ok (mc_trace m).

Lemma peer_ok_mono t t' p : t ≤ t' → peer_ok t p → peer_ok t' p.
Proof. intros ? (? & ? & ?). split; [lia|done]. Qed.

Lemma state_ok_mono t t' c : t ≤ t' → state_ok t c → state_ok t' c.
Proof.
  intros Ht [Hp Hr]. split; [|done]. intros id p Hid. destruct (Hp id p Hid) as [? ?].
  split; [by eapply peer_ok_mono|done].
Qed.

(** Replacing a peer that is there. *)
Lemma state_ok_set_peer now c id p p' : state_ok now c → peers c !! id = Some p → peer_ok now p' →
  state_ok now (mkConnChecker (senders c) (runningSenders c) (<[id := p']> (peers c))).
Proof.
  intros [Hp Hr] Hid Hok. split; [|done]. simpl. intros id' q [[<- <-]|[Hne Hq]]%lookup_insert_Some.
  - split; [done|]. by destruct (Hp id p Hid).
  - by apply Hp.
Qed.

Lemma receive_ok now at_ msg c c' answer n : at_ ≤ now → state_ok now c →
  receive msg at_ c = (c', answer, n) → state_ok now c' ∧ ∀ x, n = Some x → x.1.2 = true.
Proof.
  intros Hat Hok. unfold receive, ReceivePong. destruct (m_MsgType msg); [by intros [= <- <- <-]| |by intros [= <- <- <-]].
  destruct (peers c !! m_ClusterID msg) as [p|] eqn:Hp; [|by intros [= <- <- <-]].
  destruct (_ <? _); [by intros [= <- <- <-]|]. intros [= <- <- <-]. split.
  - eapply state_ok_set_peer; [done..|]. split; [done|]. by split.
  - unfold notify. simpl. by intros x (o & _ & ->)%fmap_Some.
Qed.

Lemma check_peer_ok opts now t id c c' n : state_ok now c → check_peer opts t id c = (c', n) →
  state_ok now c' ∧ ∀ x, n = Some x → x.1.2 = false ∧ x.2 = 0.
Proof.
  intros Hok. unfold check_peer. destruct (peers c !! id) as [p|] eqn:Hp; [|by intros [= <- <-]].
  destruct (_ <=? _); [by intros [= <- <-]|]. intros [= <- <-]. split.
  - eapply state_ok_set_peer; [done..|]. destruct Hok as [Hok _]. destruct (Hok id p Hp) as [(? & _) _]. by split.
  - unfold notify. simpl. by intros x (o & _ & ->)%fmap_Some.
Qed.

Lemma AddSender_ok opts id ip obs now c c' res : state_ok now c →
  AddSender opts id ip obs now c = (c', res) → state_ok now c'.
Proof.
  intros [Hp Hr]. unfold AddSender. case_bool_decide; [by intros [= <- <-]|].
  destruct (senders c !! id) as [s0|] eqn:Hs; [by intros [= <- <-]|].
  assert (Hold : ∀ x id', is_Some (senders c !! id') →
    <[id := x]> (senders c) !! id' = senders c !! id').
  { intros x id' [s' Hs']. apply lookup_insert_ne. congruence. }
  assert (Hrun : ∀ x id' s', runningSenders c !! id' = Some s' → <[id := x]> (senders c) !! id' = Some s').
  { intros x id' s' Hid'. specialize (Hr id' s' Hid'). by rewrite Hold. }
  destruct (NewSender opts ip) as [s|e]; intros [= <- <-]; (split; [|apply Hrun]); simpl.
  - intros id' q [[<- <-]|[Hne Hq]]%lookup_insert_Some.
    + split; [|exists s; apply lookup_insert_eq]. split; [done|]. by split.
    + destruct (Hp id' q Hq) as [? [s' Hs']]. split; [done|]. exists s'. by rewrite Hold.
  - intros id' q Hq. destruct (Hp id' q Hq) as [? [s' Hs']]. split; [done|]. exists s'. by rewrite Hold.
Qed.

Lemma RunSender_ok now id c c' s : state_ok now c → RunSender id c = Ret (c', s) → state_ok now c'.
Proof.
  intros Hok. unfold RunSender, setRunning. destruct (senders c !! id) as [s0|] eqn:Hs; [|by intros [= <- <-]].
  destruct (runningSenders c !! id) eqn:Hrun; [by intros [= <- <-]|].
  destruct s0 as [s0|]; [|done]. intros [= <- <-]. destruct Hok as [Hp Hr]. split; [done|]. simpl.
  intros id' s' [[<- <-]|[Hne Hq]]%lookup_insert_Some; [done|by apply Hr].
Qed.

Lemma DelAndStopSender_ok now id c c' : state_ok now c → DelAndStopSender id c = Ret c' → state_ok now c'.
Proof.
  intros [Hp Hr]. unfold DelAndStopSender.
  assert (HD : state_ok now (mkConnChecker (delete id (senders c)) (delete id (runningSenders c)) (delete id (peers c)))).
  { split; simpl.
    - intros id' p [Hne Hid']%lookup_delete_Some. destruct (Hp id' p Hid') as [? [s Hs]].
      split; [done|]. exists s. by rewrite lookup_delete_ne.
    - intros id' s [Hne Hid']%lookup_delete_Some. rewrite lookup_delete_ne by done. by apply Hr. }
  destruct (senders c !! id) as [[s|]|]; [|done|]; by intros [= <-].
Qed.

Lemma step_ok opts m m' : step opts m m' → machine_ok m → machine_ok m'.
Proof.
  intros Hstep (Hs & Hrv & Hdc & Htr). unfold callback_ok in *.
  destruct Hstep as [m t Ht|m msg at_ c a n Hn Hat Hrec|m n Hn|m ids H1 H2 H3|m id ids c n H1 H2 H3|m n Hn
                    |m id ip obs c res Ha|m id c s Hr|m id c Hd]; simpl in *.
  - split; [by eapply state_ok_mono|done].
  - destruct (receive_ok _ _ _ _ _ _ _ Hat Hs Hrec) as [? ?]. split; [done|]. by split.
  - split; [done|]. split; [done|]. split; [done|]. apply Forall_app. split; [done|].
    constructor; [|constructor]. intros Hf. specialize (Hrv n Hn). simpl in *. congruence.
  - split; [done|]. split; [done|]. by split.
  - destruct (check_peer_ok _ _ _ _ _ _ _ Hs H3) as [? ?]. split; [done|]. by split.
  - split; [done|]. split; [done|]. split; [done|]. apply Forall_app. split; [done|].
    constructor; [|constructor]. intros _. by apply Hdc.
  - split; [by eapply AddSender_ok|]. by split.
  - split; [by eapply RunSender_ok|]. by split.
  - split; [by eapply DelAndStopSender_ok|]. by split.
Qed.

Lemma reachable_machine_ok opts m : reachable opts m → machine_ok m.
Proof.
  intros [t Hr]. assert (H0 : machine_ok (initial t)).
  { split; [|split; [done|split; [done|constructor]]]. by split. }
  induction Hr as [|x y z Hxy _ IH]; [done|]. by apply IH, (step_ok _ _ _ Hxy).
Qed.

(** ** Properties *)

(** However the goroutines interleave, what the checker reports of a peer is
    consistent.  In every reachable state a peer that is connected has the latency
    of its last accepted PONG and one that is not has none, the PONG is not from
    the future, the peer has a sender, whatever runs is a registered sender, and
    every callback that reported a disconnection carried latency zero. *)
Theorem conncheck_consistent (opts : Options) (m : machine) : reachable opts m →
  (∀ id p, peers (mc_state m) !! id = Some p →
     lastPongTimestamp p ≤ mc_clock m ∧
     latency p = (if connected p then Sub (lastPongTimestamp p) (lastPingTimestamp p) else 0) ∧
     ∃ s, senders (mc_state m) !! id = Some (Some s)) ∧
  (∀ id s, runningSenders (mc_state m) !! id = Some s → senders (mc_state m) !! id = Some s) ∧
  ∀ obs b l, (obs, b, l) ∈ mc_trace m → b = false → l = 0.
Proof.
  intros ([Hp Hr] & _ & _ & Htr)%reachable_machine_ok. split; [|split; [done|]].
  - intros id p Hid. destruct (Hp id p Hid) as [(Hl & Hc & Hd) Hs]. split; [done|]. split; [|done].
    destruct (connected p); [by apply Hc|by apply Hd].
  - intros obs b l Hin. rewrite Forall_forall in Htr. apply (Htr _ Hin).
Qed.

(** C15: A lost peer is noticed and a live one is left alone.  As long as the
    interval times the threshold fits a duration, a check turns a peer off exactly
    when its last PONG is older than that, and calls its observer only then. *)
Theorem loss_detected_exactly (opts : Options) (now : Z) (id : string) (c c' : ConnChecker) (p : Peer)
    (n : option notification) :
  0 ≤ PingInterval opts → 0 ≤ PingLossThreshold opts ≤ MaxInt64 →
  PingInterval opts * PingLossThreshold opts ≤ MaxInt64 →
  MinInt64 ≤ now - lastPongTimestamp p ≤ MaxInt64 →
  peers c !! id = Some p → check_peer opts now id c = (c', n) →
  ∃ p', peers c' !! id = Some p' ∧
    (now - lastPongTimestamp p ≤ PingInterval opts * PingLossThreshold opts → p' = p ∧ n = None) ∧
    (PingInterval opts * PingLossThreshold opts < now - lastPongTimestamp p →
     connected p' = false ∧ latency p' = 0 ∧ n = (fun o => (o, false, 0)) <$> observer p) ∧
    ∀ id', id' ≠ id → peers c' !! id' = peers c !! id'.
Proof.
  intros Hi Ht Hm Hb Hp. unfold check_peer, loss_limit, thresholdDuration. rewrite Hp.
  rewrite (proj2 (Z.ltb_ge _ _)) by lia. rewrite int64_id by (unfold MinInt64, MaxInt64 in *; nia).
  rewrite Sub_exact by done. destruct (Z.leb_spec (now - lastPongTimestamp p) (PingInterval opts * PingLossThreshold opts)).
  - intros [= <- <-]. exists p. split; [done|]. split; [done|]. split; [lia|done].
  - intros [= <- <-]. eexists. split; [apply lookup_insert_eq|]. split; [lia|]. split; [done|].
    intros id' Hne. simpl. by rewrite lookup_insert_ne.
Qed.

(** A large threshold disconnects everyone.  When the product of the interval and
    the threshold overflows to a negative duration, as it does for the largest
    threshold and an even number of nanoseconds, every check turns off every peer,
    even one that has just answered. *)
Theorem threshold_overflow (opts : Options) (now : Z) (id : string) (c : ConnChecker) (p : Peer) :
  PingLossThreshold opts = MaxInt64 → 0 < PingInterval opts < 2 ^ 62 → Z.even (PingInterval opts) = true →
  peers c !! id = Some p → lastPongTimestamp p ≤ now →
  loss_limit opts = - PingInterval opts ∧
  ∃ p', peers (fst (check_peer opts now id c)) !! id = Some p' ∧ connected p' = false.
Proof.
  intros Ht Hi He Hp Hpong.
  assert (HL : loss_limit opts = - PingInterval opts).
  { unfold loss_limit, thresholdDuration. rewrite Ht, (proj2 (Z.ltb_ge _ _)) by lia.
    apply Z.even_spec in He as [k Hk]. rewrite Hk in *. unfold int64, MaxInt64.
    replace (2 * k * (2 ^ 63 - 1) + 2 ^ 63) with (- (2 * k) + 2 ^ 63 + k * 2 ^ 64) by lia.
    rewrite Z_mod_plus_full, Z.mod_small by lia. lia. }
  split; [done|]. unfold check_peer. rewrite Hp, HL.
  rewrite (proj2 (Z.leb_gt _ _)) by (unfold Sub, MinInt64, MaxInt64; lia).
  eexists. split; [apply lookup_insert_eq|done].
Qed.

(** The measured latency is the round-trip time, and late answers are ignored.
    A ping answered by the other side comes back with its cluster and time stamp;
    received [d] later, it makes the peer connected with latency [d] unless a newer
    one was received before, in which case nothing changes. *)
Theorem ping_roundtrip (id : string) (t d : Z) (there here : ConnChecker) (p : Peer) :
  0 ≤ d ≤ MaxInt64 → peers here !! id = Some p →
  ∃ pong, receive (mkMsg id PING t) t there = (there, Some pong, None) ∧
    (lastPingTimestamp p ≤ t →
     ∃ here' n, receive pong (t + d) here = (here', None, n) ∧ GetStatus id here' = Ok (true, d) ∧
       n = (fun o => (o, true, d)) <$> observer p) ∧
    (t < lastPingTimestamp p → receive pong (t + d) here = (here, None, None)).
Proof.
  intros Hd Hp. eexists. split; [reflexivity|]. unfold receive, ReceivePong. simpl. rewrite Hp. split.
  - intros Ht. rewrite (proj2 (Z.ltb_ge _ _)) by done.
    assert (HS : Sub (t + d) t = d) by (rewrite Sub_exact; unfold MinInt64; lia).
    eexists _, _. split; [reflexivity|]. unfold GetStatus. simpl. rewrite lookup_insert_eq. simpl.
    by rewrite HS.
  - intros Ht. by rewrite (proj2 (Z.ltb_lt _ _)).
Qed.

(** ** Concrete runs *)

Definition ex_opts : Options := mkOptions 12345 5 2000000000.
Definition ex_pong (t : Z) : Msg := mkMsg "gw" PONG t.

Definition ex_state (b : bool) (l ping pong : Z) : ConnChecker :=
  mkConnChecker {[ "gw"%string := Some (mkSender (ParseIP "169.254.18.2") 12345 false) ]} ∅
    {[ "gw"%string := mkPeer b l ping pong (Some 0%nat) ]}.

Ltac machine_simpl := cbn [mc_state mc_clock mc_recv mc_todo mc_disc mc_trace].

(** The last callback can contradict the state.  The observer of a peer can be told
    last that it is disconnected while the checker, with no callback pending, holds
    it connected: the disconnection was decided before the PONG arrived and
    announced after it. *)
Theorem stale_callback_reachable :
  ∃ m, reachable ex_opts m ∧ GetStatus "gw" (mc_state m) = Ok (true, 5) ∧
    mc_recv m = None ∧ mc_disc m = None ∧ mc_todo m = [] ∧
    mc_trace m = [(0%nat, true, 5); (0%nat, false, 0)].
Proof.
  set (t := 20000000000).
  exists (mkMachine (ex_state true 5 (t - 5) t) t None [] None [(0%nat, true, 5); (0%nat, false, 0)]).
  split; [|repeat split; vm_compute; reflexivity]. exists 0.
  eapply rtc_l; [eapply (step_add _ _ "gw" "169.254.18.2" (Some 0%nat)); vm_compute; reflexivity|]; machine_simpl.
  eapply rtc_l; [apply (step_tick _ _ t); simpl; lia|]; machine_simpl.
  eapply rtc_l; [apply (step_snapshot _ _ ["gw"%string]); reflexivity|]; machine_simpl.
  eapply rtc_l; [eapply step_check; [reflexivity|reflexivity|vm_compute; reflexivity]|]; machine_simpl.
  eapply rtc_l; [eapply (step_receive _ _ (ex_pong (t - 5)) t); [reflexivity|simpl; lia|vm_compute; reflexivity]|]; machine_simpl.
  eapply rtc_l; [apply (step_recv_callback _ _ (0%nat, true, 5)); vm_compute; reflexivity|]; machine_simpl.
  eapply rtc_l; [apply (step_disc_callback _ _ (0%nat, false, 0)); vm_compute; reflexivity|]; machine_simpl.
  apply rtc_refl.
Qed.

(** A sender that could not be created stays registered.  After an attempt with an
    address that does not parse, the cluster counts as having a sender, so a second
    attempt with a good address is refused as a duplicate, and running or deleting
    the sender dereferences a nil pointer. *)
Theorem failed_sender_stays (opts : Options) (id ip : string) (obs : option nat) (now : Z) (c : ConnChecker) :
  id ≠ ""%string → senders c !! id = None → runningSenders c !! id = None → ParseIP ip = [] →
  ∃ c', AddSender opts id ip obs now c = (c', Err (InvalidIP ip)) ∧ HasSender id c' = true ∧
    (∀ ip' obs' now', AddSender opts id ip' obs' now' c' = (c', Err (DuplicateError id))) ∧
    RunSender id c' = Panic ∧ DelAndStopSender id c' = Panic.
Proof.
  intros Hid Hs Hr Hip. unfold AddSender, NewSender. rewrite bool_decide_false, Hs, Hip by done.
  eexists. split; [reflexivity|]. unfold HasSender, RunSender, DelAndStopSender, setRunning. simpl.
  rewrite !lookup_insert_eq, Hr. split; [by apply bool_decide_eq_true|]. done.
Qed.

(** The status written for a connection is the state of its peer.  With the check
    enabled and the sender registered, the connection is reported as connected, with
    its latency, exactly when the peer is; without a peer it is in error. *)
Theorem connection_status (opts : Options) (remoteIP : result cc_error string) (gw : string) (obs : option nat)
    (now : Z) (update : result cc_error ()) (c : ConnChecker) : HasSender gw c = true →
  Reconcile opts true remoteIP gw obs now update c =
  (c, Some (match peers c !! gw with
            | Some p => (if connected p then Connected else ConnectionError, latency p)
            | None => (ConnectionError, 0)
            end), update).
Proof.
  intros Hs. unfold Reconcile, ensureSender, GetStatus. rewrite Hs.
  destruct (peers c !! gw) as [p|]; [|done]. by destruct (connected p).
Qed.

Lemma conncheck_consistent_witness :
  latency (mkPeer false 0 zeroTime 0 None) = 0.
Proof.
  assert (HR : reachable ex_opts (mkMachine (mkConnChecker
    {[ "gw"%string := Some (mkSender (ParseIP "169.254.18.2") 12345 false) ]} ∅
    {[ "gw"%string := mkPeer false 0 zeroTime 0 None ]}) 0 None [] None [])).
  { exists 0. eapply rtc_l; [eapply (step_add _ _ "gw" "169.254.18.2" None); vm_compute; reflexivity|].
    apply rtc_refl. }
  destruct (conncheck_consistent ex_opts _ HR) as [Hp _].
  exact (proj1 (proj2 (Hp "gw"%string (mkPeer false 0 zeroTime 0 None) eq_refl))).
Defined.

Lemma loss_detected_exactly_witness :
  ∃ p', peers (fst (check_peer ex_opts 20000000000 "gw" (ex_state true 7 0 7))) !! "gw"%string = Some p' ∧
    connected p' = false.
Proof.
  destruct (loss_detected_exactly ex_opts 20000000000 "gw" (ex_state true 7 0 7)
    (fst (check_peer ex_opts 20000000000 "gw" (ex_state true 7 0 7))) (mkPeer true 7 0 7 (Some 0%nat))
    (snd (check_peer ex_opts 20000000000 "gw" (ex_state true 7 0 7)))) as (p' & H1 & _ & H2 & _).
  - simpl. lia.
  - unfold MaxInt64. simpl. lia.
  - unfold MaxInt64. simpl. lia.
  - unfold MaxInt64, MinInt64. simpl. lia.
  - reflexivity.
  - apply surjective_pairing.
  - exists p'. split; [exact H1|]. apply H2. simpl. lia.
Defined.

Lemma threshold_overflow_witness :
  loss_limit (mkOptions 12345 MaxInt64 2000000000) = -2000000000.
Proof.
  apply (threshold_overflow (mkOptions 12345 MaxInt64 2000000000) 7 "gw" (ex_state true 7 0 7)
    (mkPeer true 7 0 7 (Some 0%nat))); [reflexivity|simpl; lia|reflexivity|reflexivity|simpl; lia].
Defined.

Lemma ping_roundtrip_witness :
  ∃ here' n, receive (ex_pong 100) 107 (ex_state false 0 zeroTime 0) = (here', None, n) ∧
    GetStatus "gw" here' = Ok (true, 7).
Proof.
  destruct (ping_roundtrip "gw" 100 7 NewConnChecker (ex_state false 0 zeroTime 0)
    (mkPeer false 0 zeroTime 0 (Some 0%nat))) as (pong & H1 & H2 & _); [unfold MaxInt64; lia|reflexivity|].
  injection H1 as <-. destruct H2 as (h & n & H3 & H4 & _); [unfold zeroTime; simpl; lia|].
  exists h, n. split; [exact H3|exact H4].
Defined.

Lemma failed_sender_stays_witness :
  ∃ c', AddSender ex_opts "gw" "nowhere" None 0 NewConnChecker = (c', Err (InvalidIP "nowhere")) ∧
    DelAndStopSender "gw" c' = Panic.
Proof.
  destruct (failed_sender_stays ex_opts "gw" "nowhere" None 0 NewConnChecker) as (c' & H1 & _ & _ & _ & H2);
    [done|reflexivity|reflexivity|vm_compute; reflexivity|].
  exists c'. split; [exact H1|exact H2].
Defined.

Lemma connection_status_witness :
  Reconcile ex_opts true (Ok "169.254.18.2"%string) "gw" None 9 (Ok ()) (ex_state true 7 0 7)
  = (ex_state true 7 0 7, Some (Connected, 7), Ok ()).
Proof. exact (connection_status ex_opts _ "gw" None 9 (Ok ()) (ex_state true 7 0 7) eq_refl). Defined.
