(* ===== verification/Route.v ===== *)
(** * Route: policy routing from route configurations
      (src/pkg/route, src/pkg/webhooks/routeconfiguration)

    A [RouteConfiguration] is a routing table with its policy rules and their
    routes.  The reconciler lists the rules and routes of the table, deletes those
    the configuration does not contain, and adds or replaces the others, looking
    them up in the lists taken before the deletions.  The kernel (netlink) and the
    file that names the tables are an interface. *)

From S2P Require Export GoNet GoStrings.
From Stdlib Require Import Ascii.
Local Open Scope Z_scope.

(** ** The API *)

Inductive Scope := GlobalScope | LinkScope | HostScope | SiteScope | NowhereScope | ScopeOther (s : string).
Record NextHop := mkNextHop { nh_Gw : string; nh_Dev : string; nh_Weight : option Z }.
Record Route := mkRoute {
  rt_Dst : option string; rt_Src : option string; rt_Gw : option string; rt_NextHops : list NextHop;
  rt_Dev : option string; rt_Onlink : option bool; rt_Scope : option Scope
}.
Record Rule := mkRule {
  ru_Dst : option string; ru_Src : option string; ru_Iif : option string; ru_Oif : option string;
  ru_FwMark : option Z; ru_Priority : option Z; ru_Routes : list Route
}.
Record Table := mkTable { tb_Name : string; tb_Rules : list Rule }.
Record RouteConfiguration := mkRouteConfiguration {
  rc_uid : string; rc_labels : gmap string string; rc_Table : Table
}.

(** ** The text of a network *)

(** [simpleMaskLength] on the bits of the mask. *)
Fixpoint byte_bits (n : nat) (b : Z) : list bool :=
  match n with O => [] | S n => Z.testbit b (Z.of_nat n) :: byte_bits n b end.
Fixpoint leading_ones (l : list bool) : Z * list bool :=
  match l with
  | true :: l => let '(n, r) := leading_ones l in (n + 1, r)
  | _ => (0, l)
  end.
Definition simpleMaskLength (m : list Z) : option Z :=
  let '(n, r) := leading_ones (m ≫= byte_bits 8) in
  if forallb negb r then Some n else None.
(** [IPNet.String]. *)
Definition IPNet_String (n : IPNet) : string :=
  let nn := match To4 (ipn_IP n) with [] => ipn_IP n | x => x end in
  match simpleMaskLength (ipn_Mask n) with
  | Some l => (IP_String nn ++ "/" ++ itoa l)%string
  | None => (IP_String nn ++ "/" ++ String.concat "" (hex_byte <$> ipn_Mask n))%string
  end.

(** ** Netlink *)

Record NexthopInfo := mkNexthopInfo { ni_Gw : IP; ni_LinkIndex : Z; ni_Hops : Z }.
(** [MultiPath] is a list of pointers, never nil. *)
Record nlRoute := mkNlRoute {
  nr_Dst : option IPNet; nr_Src : IP; nr_Gw : IP; nr_MultiPath : list NexthopInfo;
  nr_LinkIndex : Z; nr_Table : Z; nr_Flags : Z; nr_Scope : Z
}.
Record nlRule := mkNlRule {
  nu_Src : option IPNet; nu_Dst : option IPNet; nu_IifName : string; nu_OifName : string;
  nu_Mark : Z; nu_Priority : Z; nu_Table : Z
}.

#[export] Instance IPNet_eq_dec : EqDecision IPNet.
Proof. solve_decision. Defined.
#[export] Instance NexthopInfo_eq_dec : EqDecision NexthopInfo.
Proof. solve_decision. Defined.
#[export] Instance nlRoute_eq_dec : EqDecision nlRoute.
Proof. solve_decision. Defined.
#[export] Instance nlRule_eq_dec : EqDecision nlRule.
Proof. solve_decision. Defined.

Inductive rerr := LinkNotFound (name : string) | NetworkUnreachable | BadCIDR (s : string)
  | DuplicateRoutes (dst : string) | MarkOutOfRange (m : Z) | EmptyTableName | EmptyTableID | OtherRerr.

(** The kernel gives a network of length zero back as none, and chooses the
    priority of a rule that has none. *)
Definition net_stored (asked kept : option IPNet) : Prop :=
  kept = asked ∨ ∃ n, asked = Some n ∧ simpleMaskLength (ipn_Mask n) = Some 0 ∧ kept = None.
Definition rule_stored (asked kept : nlRule) : Prop :=
  net_stored (nu_Src asked) (nu_Src kept) ∧ net_stored (nu_Dst asked) (nu_Dst kept) ∧
  nu_IifName kept = nu_IifName asked ∧ nu_OifName kept = nu_OifName asked ∧
  nu_Mark kept = nu_Mark asked ∧ nu_Table kept = nu_Table asked ∧
  (0 < nu_Priority asked → nu_Priority kept = nu_Priority asked).

Class Netlink := {
  host : Type;
  routes_of : host → list nlRoute;
  rules_of : host → list nlRule;
  (** The lines of the file of table names, if it exists. *)
  tables_of : host → option (list string);
  LinkByName : host → string → result rerr Z;
  RouteList : host → Z → result rerr (list nlRoute);
  RouteAdd : nlRoute → host → host * result rerr ();
  RouteReplace : nlRoute → host → host * result rerr ();
  RouteDel : nlRoute → host → host * result rerr ();
  RuleList : host → Z → result rerr (list nlRule);
  RuleAdd : nlRule → host → host * result rerr ();
  RuleDel : nlRule → host → host * result rerr ();
  ReadTables : host → result rerr (option (list string));
  AppendTable : string → host → host * result rerr ();
  WriteTables : list string → host → host * result rerr ();
  RouteList_ok h t l : RouteList h t = Ok l → l ≡ₚ List.filter (fun r => nr_Table r =? t) (routes_of h);
  RuleList_ok h t l : RuleList h t = Ok l → l ≡ₚ List.filter (fun r => nu_Table r =? t) (rules_of h);
  RuleAdd_ok r h h' : RuleAdd r h = (h', Ok ()) →
    (∃ r', rule_stored r r' ∧ rules_of h' ≡ₚ r' :: rules_of h) ∧ routes_of h' = routes_of h;
  RuleDel_ok r h h' : RuleDel r h = (h', Ok ()) → rules_of h ≡ₚ r :: rules_of h' ∧ routes_of h' = routes_of h;
  (** The calls on routes and on the file do not concern the rules. *)
  RouteAdd_rules r h h' res : RouteAdd r h = (h', res) → rules_of h' = rules_of h;
  RouteReplace_rules r h h' res : RouteReplace r h = (h', res) → rules_of h' = rules_of h;
  RouteDel_rules r h h' res : RouteDel r h = (h', res) → rules_of h' = rules_of h;
  RouteDel_ok r h h' : RouteDel r h = (h', Ok ()) → routes_of h ≡ₚ r :: routes_of h';
  AppendTable_ok s h h' res : AppendTable s h = (h', res) → rules_of h' = rules_of h ∧ routes_of h' = routes_of h;
  WriteTables_ok l h h' res : WriteTables l h = (h', res) → rules_of h' = rules_of h ∧ routes_of h' = routes_of h
}.

Section reconciler.
Context {NL : Netlink}.
(** Of netlink, the flag, the numbers of the scopes and [NexthopInfo.Equal]; the hash. *)
Context (FLAG_ONLINK : Z) (scopenum : Scope → Z) (hop_Equal : NexthopInfo → NexthopInfo → bool)
  (Sum256 : string → list Z).

Definition R (A : Type) : Type := host → host * result rerr A.
#[local] Instance R_ret : MRet R := fun A a h => (h, Ok a).
#[local] Instance R_bind : MBind R := fun A B f m h =>
  match m h with
  | (h, Ok a) => f a h
  | (h, Err e) => (h, Err e)
  end.
Definition rfail {A} (e : rerr) : R A := fun h => (h, Err e).
Definition rlift {A} (r : result rerr A) : R A := fun h => (h, r).
Definition query {A} (f : host → result rerr A) : R A := fun h => (h, f h).

(** The body for each element, until one fails. *)
Fixpoint for_each {A} (f : A → R ()) (l : list A) : R () :=
  match l with
  | [] => mret ()
  | x :: l => _ ← f x; for_each f l
  end.

(** ** route.go *)

Definition parse_net (s : string) : result rerr IPNet :=
  match ParseCIDR s with Some n => Ok n | None => Err (BadCIDR s) end.
Definition opt_net (o : option string) : result rerr (option IPNet) :=
  match o with
  | None => Ok None
  | Some s => match parse_net s with Ok n => Ok (Some n) | Err e => Err e end
  end.

Fixpoint forge_hops (h : host) (l : list NextHop) : result rerr (list NexthopInfo) :=
  match l with
  | [] => Ok []
  | nh :: l =>
    match LinkByName h (nh_Dev nh) with
    | Err e => Err e
    | Ok link => match forge_hops h l with
                 | Err e => Err e
                 | Ok l => Ok (mkNexthopInfo (ParseIP (nh_Gw nh)) link (default 0 (nh_Weight nh)) :: l)
                 end
    end
  end.

Definition known_scope (s : Scope) : Z := match s with ScopeOther _ => 0 | _ => scopenum s end.

Definition forgeNetlinkRoute (r : Route) (tableID : Z) (h : host) : result rerr nlRoute :=
  match opt_net (rt_Dst r) with
  | Err e => Err e
  | Ok dst =>
    match (match rt_Dev r with None => Ok 0 | Some d => LinkByName h d end) with
    | Err e => Err e
    | Ok link =>
      let src := match rt_Src r with None => [] | Some s => ParseIP s end in
      let gw := match rt_Gw r with None => [] | Some s => ParseIP s end in
      let flags := match rt_Onlink r with Some true => FLAG_ONLINK | _ => 0 end in
      let scope := match rt_Scope r with None => 0 | Some s => known_scope s end in
      match rt_NextHops r with
      | [] => Ok (mkNlRoute dst src gw [] link tableID flags scope)
      | hops => match forge_hops h hops with
                | Err e => Err e
                | Ok mp => Ok (mkNlRoute dst src [] mp 0 tableID flags scope)
                end
      end
    end
  end.

(** [FindRouteInList]: more than one match is an error. *)
Fixpoint find_route (dst : string) (found : option nlRoute) (existing : list nlRoute) :
    result rerr (option nlRoute) :=
  match existing with
  | [] => Ok found
  | x :: existing =>
    match nr_Dst x with
    | None => find_route dst found existing
    | Some d =>
      if negb (bool_decide (IPNet_String d = dst)) then find_route dst found existing
      else match found with
           | Some _ => Err (DuplicateRoutes dst)
           | None => find_route dst (Some x) existing
           end
    end
  end.
Definition FindRouteInList (r : Route) (existing : list nlRoute) : result rerr (option nlRoute) :=
  match rt_Dst r with
  | None => Ok None
  | Some s => match parse_net s with
              | Err e => Err e
              | Ok n => find_route (IPNet_String n) None existing
              end
  end.

(** The order of [sortNextHops]. *)
Definition hop_le (a b : NexthopInfo) : bool :=
  match String.compare (IP_String (ni_Gw a)) (IP_String (ni_Gw b)) with
  | Lt => true
  | Gt => false
  | Eq => if negb (ni_LinkIndex a =? ni_LinkIndex b) then ni_LinkIndex a <? ni_LinkIndex b
          else ni_Hops a <=? ni_Hops b
  end.
Fixpoint insert_hop (x : NexthopInfo) (l : list NexthopInfo) : list NexthopInfo :=
  match l with
  | [] => [x]
  | y :: l => if hop_le x y then x :: y :: l else y :: insert_hop x l
  end.
Definition sortNextHops (l : list NexthopInfo) : list NexthopInfo := foldr insert_hop [] l.

(** Different as far as both sides give a value. *)
Definition ip_differs (a b : IP) : bool :=
  negb (bool_decide (a = [])) && negb (bool_decide (b = [])) && negb (bool_decide (IP_String a = IP_String b)).
Definition IsEqualRoute (a b : nlRoute) : bool :=
  if match nr_Dst a, nr_Dst b with
     | Some x, Some y => negb (bool_decide (IPNet_String x = IPNet_String y))
     | _, _ => false
     end then false
  else if ip_differs (nr_Src a) (nr_Src b) then false
  else if ip_differs (nr_Gw a) (nr_Gw b) then false
  else if negb (nr_LinkIndex a =? 0) && negb (nr_LinkIndex b =? 0) && negb (nr_LinkIndex a =? nr_LinkIndex b)
       then false
  else if negb (nr_Flags a =? nr_Flags b) then false
  else if negb (List.length (nr_MultiPath a) =? List.length (nr_MultiPath b))%nat then false
  else forallb (fun '(x, y) => hop_Equal x y) (zip (sortNextHops (nr_MultiPath a)) (sortNextHops (nr_MultiPath b))).

Fixpoint contained_route (x : nlRoute) (routes : list Route) (h : host) : bool :=
  match routes with
  | [] => false
  | r :: routes =>
    match forgeNetlinkRoute r (nr_Table x) h with
    | Err _ => false
    | Ok r => if IsEqualRoute x r then true else contained_route x routes h
    end
  end.
Definition IsContainedRoute (x : nlRoute) (routes : list Route) : R bool :=
  fun h => (h, Ok (contained_route x routes h)).

Definition CleanRoutes (routes : list Route) (existing : list nlRoute) : R () :=
  for_each (fun x => b ← IsContainedRoute x routes; if (b : bool) then mret () else RouteDel x) existing.

Definition EnsureRoutesPresence (routes : list Route) (tableID : Z) (existing : list nlRoute) : R () :=
  for_each (fun r =>
    route ← query (forgeNetlinkRoute r tableID);
    found ← rlift (FindRouteInList r existing);
    match found with
    | Some x => if negb (IsEqualRoute route x) then RouteReplace route else mret ()
    | None => RouteAdd route
    end) routes.

Definition EnsureRoutesAbsence (routes : list Route) (existing : list nlRoute) : R () :=
  for_each (fun r =>
    match rt_Dst r with
    | None => mret ()
    | Some _ =>
      found ← rlift (FindRouteInList r existing);
      match found with Some x => RouteDel x | None => mret () end
    end) routes.

Definition GetRoutesByTableID (tableID : Z) : R (list nlRoute) := query (fun h => RouteList h tableID).
Definition FlushRoutesByTableID (tableID : Z) : R () :=
  routes ← GetRoutesByTableID tableID; for_each RouteDel routes.

(** ** rule.go *)

Definition net_differs (o : option string) (x : option IPNet) : bool :=
  match o, x with
  | Some s, Some n => negb (bool_decide (s = IPNet_String n))
  | None, Some _ => true
  | _, None => false
  end.
Definition name_differs (o : option string) (x : string) : bool :=
  match o with
  | Some s => negb (bool_decide (s = x))
  | None => negb (bool_decide (x = ""%string))
  end.
Definition MaxUint32 : Z := 2 ^ 32 - 1.
Definition mark_out_of_range (m : Z) : bool := (m <? 0) || (MaxUint32 <? m).

Definition RuleIsEqual (r : Rule) (x : nlRule) : bool :=
  if net_differs (ru_Src r) (nu_Src x) then false
  else if net_differs (ru_Dst r) (nu_Dst x) then false
  else if name_differs (ru_Iif r) (nu_IifName x) then false
  else if name_differs (ru_Oif r) (nu_OifName x) then false
  else if match ru_FwMark r with
          | Some m => mark_out_of_range m || negb (m =? nu_Mark x)
          | None => false
          end then false
  else match ru_Priority r with
       | Some p => p =? nu_Priority x
       | None => true
       end.

Definition ExistsRule (r : Rule) (rules : list nlRule) : option nlRule := List.find (RuleIsEqual r) rules.
Definition IsContainedRule (x : nlRule) (rules : list Rule) : bool := existsb (fun r => RuleIsEqual r x) rules.

(** [netlink.NewRule] leaves the priority at -1. *)
Definition AddRule (r : Rule) (tableID : Z) : R () :=
  src ← rlift (opt_net (ru_Src r));
  dst ← rlift (opt_net (ru_Dst r));
  mark ← rlift (match ru_FwMark r with
                | None => Ok 0
                | Some m => if mark_out_of_range m then Err (MarkOutOfRange m) else Ok m
                end);
  RuleAdd (mkNlRule src dst (default ""%string (ru_Iif r)) (default ""%string (ru_Oif r)) mark
    (match ru_Priority r with Some p => if 0 <? p then p else -1 | None => -1 end) tableID).

Definition EnsureRulePresence (r : Rule) (tableID : Z) (existing : list nlRule) : R () :=
  match ExistsRule r existing with Some _ => mret () | None => AddRule r tableID end.
Definition EnsureRuleAbsence (r : Rule) (existing : list nlRule) : R () :=
  match ExistsRule r existing with Some x => RuleDel x | None => mret () end.
Definition GetRulesByTableID (tableID : Z) : R (list nlRule) :=
  l ← query (fun h => RuleList h tableID); mret (List.filter (fun x => nu_Table x =? tableID) l).
Definition FlushRulesByTableID (tableID : Z) : R () :=
  rules ← GetRulesByTableID tableID; for_each RuleDel rules.
Definition CleanRules (rules : list Rule) (existing : list nlRule) : R () :=
  for_each (fun x => if IsContainedRule x rules then mret () else RuleDel x) existing.

(** ** table.go *)

(** [id] aliases the first bytes of [hash]: both assignments change it. *)
Definition generateTableID (name : string) : Z :=
  let hash := Sum256 name in
  let b (i : nat) : Z := nth i hash 0 in
  let b3 := Z.shiftr (b 3%nat) 1 in
  let b1 := Z.lor (b 1%nat) 1 in
  Z.lor (Z.shiftl b3 24) (Z.lor (Z.shiftl (b 2%nat) 16) (Z.lor (Z.shiftl b1 8) (b 0%nat))).
Definition GetTableID (name : string) : result rerr Z :=
  if bool_decide (name = ""%string) then Err EmptyTableName else Ok (generateTableID name).

(** An entry concerns a table when its text contains the number. *)
Definition mentions (tableID : Z) (entry : string) : bool := strings_Contains entry (itoa tableID).
Definition ExistsTableID (tableID : Z) : R bool :=
  if tableID =? 0 then rfail EmptyTableID
  else lines ← query ReadTables; mret (existsb (mentions tableID) (default [] lines)).
Definition forgeTableEntry (tableID : Z) (name : string) : string :=
  (itoa tableID ++ String (ascii_of_nat 9) name)%string.
Definition AddTableID (tableID : Z) (name : string) : R () := AppendTable (forgeTableEntry tableID name).
Definition filterDeletedLines (tableID : Z) (lines : list string) : list string :=
  List.filter (fun l => negb (mentions tableID l)) lines.
Definition DeleteTableID (tableID : Z) : R () :=
  lines ← query ReadTables; WriteTables (filterDeletedLines tableID (default [] lines)).
Definition EnsureTablePresence (name : string) (tableID : Z) : R () :=
  b ← ExistsTableID tableID; if (b : bool) then mret () else AddTableID tableID name.
Definition EnsureTableAbsence (tableID : Z) : R () :=
  b ← ExistsTableID tableID; if (b : bool) then DeleteTableID tableID else mret ().

(** ** routeconfiguration_controller.go *)

Inductive requeue := Done | After1s.

Definition flush_table (tableID : Z) : R () :=
  _ ← FlushRulesByTableID tableID; _ ← FlushRoutesByTableID tableID; EnsureTableAbsence tableID.

(** The errors of [EnsureRoutesPresence] that are retried later. *)
Fixpoint apply_rules (rules : list Rule) (tableID : Z) (xrules : list nlRule) (xroutes : list nlRoute) : R requeue :=
  match rules with
  | [] => mret Done
  | r :: rules =>
    _ ← EnsureRulePresence r tableID xrules;
    (fun h => match EnsureRoutesPresence (ru_Routes r) tableID xroutes h with
              | (h, Ok _) => apply_rules rules tableID xrules xroutes h
              | (h, Err (LinkNotFound _)) | (h, Err NetworkUnreachable) => (h, Ok After1s)
              | (h, Err e) => (h, Err e)
              end) : R requeue
  end.

Definition apply_table (t : Table) (tableID : Z) : R requeue :=
  xrules ← GetRulesByTableID tableID;
  _ ← CleanRules (tb_Rules t) xrules;
  xroutes ← GetRoutesByTableID tableID;
  _ ← CleanRoutes (tb_Rules t ≫= ru_Routes) xroutes;
  _ ← EnsureTablePresence (tb_Name t) tableID;
  apply_rules (tb_Rules t) tableID xrules xroutes.

Definition TrimSuffix (s suf : string) : string :=
  let n := String.length s in let m := String.length suf in
  if (m <=? n)%nat && bool_decide (String.substring (n - m) m s = suf) then String.substring 0 (n - m) s else s.

(** Failures of the optimistic clean-up are only logged, each step on its own. *)
Definition ignore (m : R ()) : R () := fun h => (fst (m h), Ok ()).
Definition flushStaleRules (name : string) : R () :=
  let tableName := TrimSuffix (TrimSuffix name "-gw-node") "-gw-ext" in
  match GetTableID tableName with
  | Err _ => mret ()
  | Ok tableID =>
    _ ← ignore (FlushRulesByTableID tableID);
    _ ← ignore (FlushRoutesByTableID tableID);
    ignore (EnsureTableAbsence tableID)
  end.

(** The answer to [Get]: the table, whether it is being deleted, the finalizer. *)
Inductive rc_get := RcNotFound | RcFailed | RcOk (t : Table) (deleting containsFinalizer : bool).

(** [Reconcile]: whether to come back, and whether the finalizer is there. *)
Definition Reconcile (enableFinalizer : bool) (update : result rerr ()) (name : string) (got : rc_get) :
    R (requeue * bool) :=
  match got with
  | RcNotFound => _ ← flushStaleRules name; mret (Done, false)
  | RcFailed => rfail OtherRerr
  | RcOk t deleting containsFinalizer =>
    tableID ← rlift (GetTableID (tb_Name t));
    if negb deleting && negb containsFinalizer && enableFinalizer then
      _ ← rlift update; mret (Done, true)
    else if deleting then
      _ ← flush_table tableID;
      if containsFinalizer && enableFinalizer then _ ← rlift update; mret (Done, false)
      else mret (Done, containsFinalizer)
    else
      q ← apply_table t tableID; mret (q, containsFinalizer)
  end.
End reconciler.

(** ** The webhook *)

Inductive rw_answer := RwAllowed | RwDenied | RwErrored.

Definition checkImmutableTableName (new old : RouteConfiguration) : bool :=
  bool_decide (tb_Name (rc_Table new) = tb_Name (rc_Table old)).
Definition checkUniqueTableName (items : option (list RouteConfiguration)) (rc : RouteConfiguration) : bool :=
  match items with
  | None => false
  | Some l => forallb (fun i => bool_decide (rc_uid i = rc_uid rc) ||
      negb (bool_decide (tb_Name (rc_Table i) = tb_Name (rc_Table rc)) && bool_decide (rc_labels i = rc_labels rc))) l
  end.
(** The text of a mark; ["%d"] of a negative number has a sign. *)
Definition itoa_signed (z : Z) : string := if z <? 0 then String "-"%char (itoa (- z)) else itoa z.
Definition tag (t : string) (o : option string) : string :=
  match o with Some s => (t ++ s ++ ",")%string | None => ""%string end.
Definition rule_key (r : Rule) : string :=
  (tag "src:" (ru_Src r) ++ tag "dst:" (ru_Dst r) ++ tag "iif:" (ru_Iif r) ++ tag "oif:" (ru_Oif r) ++
   tag "mark:" (itoa_signed <$> ru_FwMark r))%string.
Definition checkUniqueRules (rules : list Rule) : bool := bool_decide (NoDup (rule_key <$> rules)).
(** [routes[i].Dst.String()] dereferences the destination. *)
Fixpoint unique_routes (seen : gset string) (routes : list Route) : outcome bool :=
  match routes with
  | [] => Ret true
  | r :: routes =>
    match rt_Dst r with
    | None => Panic
    | Some d => if bool_decide (d ∈ seen) then Ret false else unique_routes ({[d]} ∪ seen) routes
    end
  end.
Definition checkUniqueRoutes (routes : list Route) : outcome bool := unique_routes ∅ routes.
Fixpoint check_all_routes (rules : list Rule) : outcome bool :=
  match rules with
  | [] => Ret true
  | r :: rules => b ← checkUniqueRoutes (ru_Routes r); if (b : bool) then check_all_routes rules else Ret false
  end.

(** [Handle]: decoding failures are [None]. *)
Definition Handle (update : bool) (items : option (list RouteConfiguration)) (new old : option RouteConfiguration) :
    outcome rw_answer :=
  match new with
  | None => Ret RwErrored
  | Some rc =>
    match (if update then match old with None => None | Some o => Some (checkImmutableTableName rc o) end
           else Some true) with
    | None => Ret RwErrored
    | Some false => Ret RwDenied
    | Some true =>
      if negb (checkUniqueTableName items rc) then Ret RwDenied
      else if negb (checkUniqueRules (tb_Rules (rc_Table rc))) then Ret RwDenied
      else b ← check_all_routes (tb_Rules (rc_Table rc)); Ret (if (b : bool) then RwAllowed else RwDenied)
    end
  end.
