(* ===== verification/RouteConverge.v ===== *)
(** * RouteConverge: the rules and routes of a table through a reconciliation

    What each call of the reconciler does to the rules and the routes in the kernel;
    the state a successful reconciliation leads to ([rules_match]), that nothing is
    done there, and what is left after a flush. *)

From S2P Require Export Route.
From Stdlib Require Import Ascii.
Local Open Scope Z_scope.

Section rules.
Context {NL : Netlink}.
Context (FLAG_ONLINK : Z) (scopenum : Scope → Z) (hop_Equal : NexthopInfo → NexthopInfo → bool)
  (Sum256 : string → list Z).
#[local] Existing Instance R_ret.
#[local] Existing Instance R_bind.

Notation apply_table := (apply_table FLAG_ONLINK scopenum hop_Equal).
Notation apply_rules := (apply_rules FLAG_ONLINK scopenum hop_Equal).
Notation EnsureRoutesPresence := (EnsureRoutesPresence FLAG_ONLINK scopenum hop_Equal).
Notation CleanRoutes := (CleanRoutes FLAG_ONLINK scopenum hop_Equal).

(** ** Runs that succeed *)

Lemma R_bind_ok {A B} (m : R A) (f : A → R B) h h' b : (m ≫= f) h = (h', Ok b) →
  ∃ h1 a, m h = (h1, Ok a) ∧ f a h1 = (h', Ok b).
Proof. unfold mbind, R_bind. destruct (m h) as [h1 [a|e]]; [eauto|done]. Qed.

Lemma query_ok {A} (f : host → result rerr A) h h' a : query f h = (h', Ok a) → h' = h ∧ f h = Ok a.
Proof. unfold query. naive_solver. Qed.

(** ** Steps that leave the rules as they are *)

Definition keeps_rules {A} (m : R A) : Prop := ∀ h h' res, m h = (h', res) → rules_of h' = rules_of h.

Lemma keeps_pure {A} (r : host → result rerr A) : keeps_rules (fun h => (h, r h)).
Proof. intros h h' res. naive_solver. Qed.

Lemma keeps_bind {A B} (m : R A) (f : A → R B) :
  keeps_rules m → (∀ a, keeps_rules (f a)) → keeps_rules (m ≫= f).
Proof.
  intros Hm Hf h h' res. unfold mbind, R_bind. destruct (m h) as [h1 [a|e]] eqn:E; intros ?.
  - etrans; [by eapply Hf|by eapply Hm].
  - simplify_eq. by eapply Hm.
Qed.

Lemma keeps_for_each {A} (f : A → R ()) l : (∀ a, keeps_rules (f a)) → keeps_rules (for_each f l).
Proof.
  intros Hf. induction l as [|a l IH]; simpl; [apply keeps_pure|by apply keeps_bind].
Qed.

Lemma keeps_RouteDel x : keeps_rules (RouteDel x).
Proof. intros h h' res. apply RouteDel_rules. Qed.

Lemma keeps_CleanRoutes routes l : keeps_rules (CleanRoutes routes l).
Proof.
  apply keeps_for_each. intros x. apply keeps_bind; [apply keeps_pure|].
  intros []; [apply keeps_pure|apply keeps_RouteDel].
Qed.

Lemma keeps_EnsureRoutesPresence routes id l : keeps_rules (EnsureRoutesPresence routes id l).
Proof.
  apply keeps_for_each. intros r. apply keeps_bind; [apply keeps_pure|]. intros x.
  apply keeps_bind; [apply keeps_pure|]. intros [y|].
  - destruct (negb _); [intros h h' res; apply RouteReplace_rules|apply keeps_pure].
  - intros h h' res. apply RouteAdd_rules.
Qed.

Lemma keeps_ExistsTableID id : keeps_rules (ExistsTableID id).
Proof.
  unfold ExistsTableID. destruct (id =? 0); [apply keeps_pure|].
  apply keeps_bind; intros; apply keeps_pure.
Qed.

Lemma keeps_EnsureTablePresence name id : keeps_rules (EnsureTablePresence name id).
Proof.
  apply keeps_bind; [apply keeps_ExistsTableID|]. intros []; [apply keeps_pure|].
  intros h h' res H. by apply AppendTable_ok in H as [? _].
Qed.

Lemma keeps_EnsureTableAbsence id : keeps_rules (EnsureTableAbsence id).
Proof.
  apply keeps_bind; [apply keeps_ExistsTableID|]. intros []; [|apply keeps_pure].
  apply keeps_bind; [apply keeps_pure|]. intros l h h' res H. by apply WriteTables_ok in H as [? _].
Qed.

(** ** The rules of the table and the others *)

Definition of_table (id : Z) (x : nlRule) : bool := nu_Table x =? id.
Definition table_rules (id : Z) (h : host) : list nlRule := List.filter (of_table id) (rules_of h).
Definition other_rules (id : Z) (h : host) : list nlRule := List.filter (fun x => negb (of_table id x)) (rules_of h).

Lemma filter_split {A} (p : A → bool) (l : list A) : l ≡ₚ List.filter p l ++ List.filter (fun x => negb (p x)) l.
Proof.
  induction l as [|x l IH]; simpl; [done|]. destruct (p x); simpl; [by rewrite <-IH|].
  rewrite <-Permutation_middle. by rewrite <-IH.
Qed.

Lemma rules_split id h : rules_of h ≡ₚ table_rules id h ++ other_rules id h.
Proof. apply filter_split. Qed.

Lemma filter_perm {A} (p : A → bool) (l l' : list A) : l ≡ₚ l' → List.filter p l ≡ₚ List.filter p l'.
Proof.
  induction 1 as [|x l l' H IH|x y l|l l' l'' H IH H' IH']; simpl; [done| | |by etrans].
  - destruct (p x); [by constructor|done].
  - destruct (p x), (p y); by try constructor.
Qed.

Lemma filter_none {A} (p : A → bool) (l : list A) : (∀ x, x ∈ l → p x = false) → List.filter p l = [].
Proof.
  induction l as [|x l IH]; intros H; simpl; [done|].
  rewrite (H x) by left. apply IH. intros. apply H. by right.
Qed.

Lemma filter_all {A} (p : A → bool) (l : list A) : (∀ x, x ∈ l → p x = true) → List.filter p l = l.
Proof.
  induction l as [|x l IH]; intros H; simpl; [done|].
  rewrite (H x) by left. f_equal. apply IH. intros. apply H. by right.
Qed.

Lemma elem_of_lfilter {A} (p : A → bool) (l : list A) x : x ∈ List.filter p l ↔ x ∈ l ∧ p x = true.
Proof. by rewrite !list_elem_of_In, filter_In. Qed.

Lemma GetRules_ok id h h' l : GetRulesByTableID id h = (h', Ok l) → h' = h ∧ l ≡ₚ table_rules id h.
Proof.
  intros (h1 & a & (-> & H1)%query_ok & H2)%R_bind_ok. unfold mret, R_ret in H2. simplify_eq. split; [done|].
  apply RuleList_ok in H1. rewrite (filter_all _ a); [done|].
  intros x Hx. rewrite H1, elem_of_lfilter in Hx. by destruct Hx.
Qed.

(** Deleting, one by one, the elements of a list that the test picks. *)
Lemma delete_each (p : nlRule → bool) l h h' :
  for_each (fun x => if p x then mret () else RuleDel x) l h = (h', Ok ()) →
  rules_of h ≡ₚ List.filter (fun x => negb (p x)) l ++ rules_of h' ∧ routes_of h' = routes_of h.
Proof.
  revert h. induction l as [|x l IH]; intros h; simpl.
  { intros H. unfold mret, R_ret in H. by simplify_eq. }
  intros (h1 & [] & H1 & H2)%R_bind_ok. apply IH in H2 as [H2 H2']. destruct (p x); simpl.
  - unfold mret, R_ret in H1. by simplify_eq.
  - apply RuleDel_ok in H1 as [H1 H1']. split; [by rewrite H1, H2|congruence].
Qed.

Lemma CleanRules_ok rules xrules id h h' : xrules ≡ₚ table_rules id h → CleanRules rules xrules h = (h', Ok ()) →
  rules_of h' ≡ₚ List.filter (fun x => IsContainedRule x rules) xrules ++ other_rules id h.
Proof.
  intros Hx H. apply delete_each in H as [H _].
  rewrite (rules_split id), <-Hx in H.
  rewrite (filter_split (fun x => IsContainedRule x rules) xrules) in H at 1.
  rewrite (Permutation_app_comm (List.filter _ _) (List.filter _ _)), <-(assoc_L (++)) in H.
  by apply Permutation_app_inv_l in H.
Qed.

(** ** Rules that are in the kernel's form *)

(** Texts the kernel prints the same way, and values it can hold. *)
Definition canonical_net (o : option string) : Prop :=
  match o with None => True | Some s => ∃ n, ParseCIDR s = Some n ∧ IPNet_String n = s end.
Definition canonical (r : Rule) : Prop :=
  canonical_net (ru_Src r) ∧ canonical_net (ru_Dst r) ∧
  (∀ p, ru_Priority r = Some p → 0 < p).

Lemma stored_net_matches o n kept : canonical_net o → opt_net o = Ok n → net_stored n kept →
  net_differs o kept = false.
Proof.
  unfold net_stored, opt_net, parse_net, net_differs. intros Ho Hn Hk.
  destruct o as [s|]; simpl in *.
  - destruct Ho as (m & Hm & Hs). rewrite Hm in Hn. simplify_eq.
    destruct kept as [k|]; [|done]. destruct Hk as [Hk|(? & ? & ? & ?)]; [|done].
    simplify_eq. by rewrite bool_decide_eq_true_2.
  - simplify_eq. destruct Hk as [->|(? & ? & ? & ?)]; [done|done].
Qed.

Lemma default_matches o : name_differs o (default ""%string o) = false.
Proof. destruct o; simpl; [by rewrite bool_decide_eq_true_2|done]. Qed.

(** A kernel rule that selects what a rule of the configuration says, field by
    field: a network of length zero selects everything. *)
Definition net_given (o : option string) (kept : option IPNet) : Prop :=
  match o with
  | None => kept = None
  | Some s => ∃ n, ParseCIDR s = Some n ∧
      (kept = Some n ∨ simpleMaskLength (ipn_Mask n) = Some 0 ∧ kept = None)
  end.
Definition written (id : Z) (r : Rule) (x : nlRule) : Prop :=
  net_given (ru_Src r) (nu_Src x) ∧ net_given (ru_Dst r) (nu_Dst x) ∧
  nu_IifName x = default ""%string (ru_Iif r) ∧ nu_OifName x = default ""%string (ru_Oif r) ∧
  nu_Mark x = default 0 (ru_FwMark r) ∧ (∀ p, ru_Priority r = Some p → nu_Priority x = p) ∧ nu_Table x = id.

Lemma stored_net_given o n kept : opt_net o = Ok n → net_stored n kept → net_given o kept.
Proof.
  unfold net_stored, opt_net, parse_net. destruct o as [s|]; simpl.
  - destruct (ParseCIDR s) as [m|] eqn:Hm; [|done]. intros [= <-] Hk. exists m. split; [done|].
    destruct Hk as [->|(k & [= <-] & ? & ->)]; [by left|by right].
  - intros [= <-] [->|(k & ? & ? & ?)]; done.
Qed.

(** A rule that is added is found there the next time. *)
Lemma AddRule_ok r id h h' : canonical r → AddRule r id h = (h', Ok ()) →
  ∃ x, RuleIsEqual r x = true ∧ written id r x ∧ rules_of h' ≡ₚ x :: rules_of h.
Proof.
  intros (Hs & Hd & Hp) H. unfold AddRule, rlift in H.
  apply R_bind_ok in H as (h1 & src & E1 & H). apply R_bind_ok in H as (h2 & dst & E2 & H).
  apply R_bind_ok in H as (h3 & mark & E3 & H). simplify_eq.
  apply RuleAdd_ok in H as [(x & Hst & Hperm) _]. exists x.
  destruct Hst as (S1 & S2 & S3 & S4 & S5 & S6 & S7). simpl in *. split_and!; [| |done].
  2:{ split_and!; [by eapply stored_net_given..|done|done| | |done].
      - rewrite S5. destruct (ru_FwMark r) as [m|]; [destruct (mark_out_of_range m)|]; by simplify_eq/=.
      - intros p E. rewrite E in S7. specialize (Hp p E). rewrite (proj2 (Z.ltb_lt 0 p) Hp) in S7. by apply S7. }
  unfold RuleIsEqual. rewrite (stored_net_matches _ src), (stored_net_matches _ dst), S3, S4, !default_matches by done.
  assert (Hmark : match ru_FwMark r with Some m => mark_out_of_range m || negb (m =? nu_Mark x) | None => false end = false).
  { destruct (ru_FwMark r) as [m|]; [|done]. destruct (mark_out_of_range m); [done|].
    assert (m = nu_Mark x) as <- by congruence. by rewrite Z.eqb_refl. }
  rewrite Hmark. destruct (ru_Priority r) as [p|]; [|done]. specialize (Hp p eq_refl).
  rewrite (proj2 (Z.ltb_lt 0 p) Hp) in S7. apply Z.eqb_eq. by rewrite S7.
Qed.

Lemma ExistsRule_Some r l x : ExistsRule r l = Some x → x ∈ l ∧ RuleIsEqual r x = true.
Proof. intros H. apply find_some in H. by rewrite list_elem_of_In. Qed.

Lemma contained_by r rules x : r ∈ rules → RuleIsEqual r x = true → IsContainedRule x rules = true.
Proof. intros Hr Hx. apply existsb_exists. exists r. by rewrite <-list_elem_of_In. Qed.

(** Presence of one rule: it adds at most a rule that matches. *)
Lemma EnsureRulePresence_ok r id xrules h h' : canonical r → EnsureRulePresence r id xrules h = (h', Ok ()) →
  ∃ new, rules_of h' ≡ₚ new ++ rules_of h ∧ (∀ x, x ∈ new → RuleIsEqual r x = true ∧ written id r x) ∧
    ∃ x, (x ∈ new ∨ x ∈ xrules) ∧ RuleIsEqual r x = true.
Proof.
  intros Hc. unfold EnsureRulePresence. destruct (ExistsRule r xrules) as [x|] eqn:E.
  - apply ExistsRule_Some in E as [Ex Eq]. unfold mret, R_ret. intros H. simplify_eq.
    exists []. split; [done|]. split; [by intros ? []%not_elem_of_nil|eauto].
  - intros (x & Hx & Ht & Hp)%AddRule_ok; [|done]. exists [x]. split; [done|]. split.
    + by intros y ->%list_elem_of_singleton.
    + exists x. split; [left; by left|done].
Qed.

(** New rules, all written for one of those given; every rule given has one, if all were
    gone through. *)
Definition rules_added (rules : list Rule) (id : Z) (xrules : list nlRule) (h h' : host) (q : requeue) : Prop :=
  ∃ new, rules_of h' ≡ₚ new ++ rules_of h ∧
    (∀ x, x ∈ new → ∃ r, r ∈ rules ∧ RuleIsEqual r x = true ∧ written id r x) ∧
    (q = Done → ∀ r, r ∈ rules → ∃ x, (x ∈ new ∨ x ∈ xrules) ∧ RuleIsEqual r x = true).

(** The loop over the rules of the configuration. *)
Lemma apply_rules_ok rules id xrules xroutes h h' q : Forall canonical rules →
  apply_rules rules id xrules xroutes h = (h', Ok q) → rules_added rules id xrules h h' q.
Proof.
  revert h. induction rules as [|r rules IH]; intros h Hc H.
  { simpl in H. unfold mret, R_ret in H. simplify_eq. exists []. split; [done|].
    split; [by intros ? []%not_elem_of_nil|]. by intros _ ? []%not_elem_of_nil. }
  apply Forall_cons in Hc as [Hr Hc]. simpl in H. apply R_bind_ok in H as (h1 & [] & H1 & H).
  apply EnsureRulePresence_ok in H1 as (new & Hp & Hn & y & Hy & Hyr); [|done].
  assert (Hnew : ∀ x, x ∈ new → ∃ r', r' ∈ r :: rules ∧ RuleIsEqual r' x = true ∧ written id r' x).
  { intros x Hx. destruct (Hn x Hx) as [? ?]. exists r. split; [left|done]. }
  destruct (EnsureRoutesPresence (ru_Routes r) id xroutes h1) as [h2 res] eqn:E.
  apply keeps_EnsureRoutesPresence in E.
  assert (Hstop : rules_added (r :: rules) id xrules h h2 After1s) by (exists new; by rewrite E).
  destruct res as [[]|[]]; simplify_eq; try done.
  apply IH in H as (more & Hm & Hmn & Hq); [|done]. exists (more ++ new). split_and!.
  - by rewrite Hm, E, Hp, (assoc_L (++)).
  - intros x [Hx|Hx]%elem_of_app; [|by apply Hnew]. destruct (Hmn x Hx) as (r' & ? & ?). exists r'. split; [by right|done].
  - intros -> r0 [->|Hr0]%elem_of_cons.
    + exists y. split; [|done]. destruct Hy; [left; apply elem_of_app; by right|by right].
    + destruct (Hq eq_refl r0 Hr0) as (x & Hx & ?). exists x. split; [|done].
      destruct Hx; [left; apply elem_of_app; by left|by right].
Qed.

(** The rules after a reconciliation: those that were there and are contained in
    the configuration, and new ones that are. *)
Lemma apply_table_rules t id h h' q : Forall canonical (tb_Rules t) → apply_table t id h = (h', Ok q) →
  ∃ new, rules_of h' ≡ₚ (new ++ List.filter (fun x => IsContainedRule x (tb_Rules t)) (table_rules id h)) ++ other_rules id h ∧
    (∀ x, x ∈ new → ∃ r, r ∈ tb_Rules t ∧ RuleIsEqual r x = true ∧ written id r x) ∧
    (q = Done → ∀ r, r ∈ tb_Rules t → ∃ x, (x ∈ new ∨ x ∈ table_rules id h) ∧ RuleIsEqual r x = true).
Proof.
  intros Hc H. unfold Route.apply_table in H.
  apply R_bind_ok in H as (h1 & xrules & (-> & Hx)%GetRules_ok & H).
  apply R_bind_ok in H as (h2 & [] & H2%(CleanRules_ok _ _ id) & H); [|done].
  apply R_bind_ok in H as (h3 & xroutes & H3%(keeps_pure _) & H).
  apply R_bind_ok in H as (h4 & [] & H4%keeps_CleanRoutes & H).
  apply R_bind_ok in H as (h5 & [] & H5%keeps_EnsureTablePresence & H).
  apply apply_rules_ok in H as (new & Hp & Hn & Hq); [|done]. exists new. split_and!.
  - rewrite Hp, H5, H4, H3, H2, (assoc_L (++)). by rewrite (filter_perm _ _ _ Hx).
  - done.
  - intros E r Hr. destruct (Hq E r Hr) as (x & Hx' & ?). exists x. by rewrite <-Hx.
Qed.

(** ** Rules already in place *)

(** Nothing to delete and nothing to add. *)
Lemma apply_rules_none rules id xrules xroutes h h' q :
  (∀ r, r ∈ rules → ∃ x, x ∈ xrules ∧ RuleIsEqual r x = true) →
  apply_rules rules id xrules xroutes h = (h', Ok q) → rules_of h' = rules_of h.
Proof.
  revert h. induction rules as [|r rules IH]; intros h Hx H; simpl in H.
  { unfold mret, R_ret in H. by simplify_eq. }
  unfold EnsureRulePresence in H at 1. destruct (ExistsRule r xrules) as [y|] eqn:Ey.
  2:{ destruct (Hx r) as (x & Hin & Heq); [left|].
      rewrite (find_none _ _ Ey x) in Heq; [done|by apply list_elem_of_In]. }
  apply R_bind_ok in H as (h1 & [] & H1 & H). unfold mret, R_ret in H1. simplify_eq.
  destruct (EnsureRoutesPresence (ru_Routes r) id xroutes h1) as [h2 res] eqn:E.
  apply keeps_EnsureRoutesPresence in E.
  destruct res as [[]|[]]; simplify_eq; try done.
  rewrite (IH h2); [done| |done]. intros r0 Hr0. apply Hx. by right.
Qed.

Lemma for_each_skip {A} (p : A → bool) (f : A → R ()) l h : (∀ x, x ∈ l → p x = true) →
  for_each (fun x => if p x then mret () else f x) l h = (h, Ok ()).
Proof.
  induction l as [|x l IH]; intros H; simpl; [done|]. rewrite (H x) by left.
  apply IH. intros. apply H. by right.
Qed.

Lemma apply_table_in_place t id h h' q :
  (∀ r, r ∈ tb_Rules t → ∃ x, x ∈ table_rules id h ∧ RuleIsEqual r x = true) →
  (∀ x, x ∈ table_rules id h → IsContainedRule x (tb_Rules t) = true) →
  apply_table t id h = (h', Ok q) → rules_of h' = rules_of h.
Proof.
  intros Hr Hx H. unfold Route.apply_table in H.
  apply R_bind_ok in H as (h1 & xrules & (-> & Hp)%GetRules_ok & H).
  apply R_bind_ok in H as (h2 & [] & H2 & H). unfold CleanRules in H2. rewrite for_each_skip in H2.
  2:{ intros x. rewrite Hp. apply Hx. }
  simplify_eq.
  apply R_bind_ok in H as (h3 & xroutes & H3%(keeps_pure _) & H).
  apply R_bind_ok in H as (h4 & [] & H4%keeps_CleanRoutes & H).
  apply R_bind_ok in H as (h5 & [] & H5%keeps_EnsureTablePresence & H).
  apply apply_rules_none in H; [congruence|]. intros r Hrr. destruct (Hr r Hrr) as (x & ? & ?).
  exists x. by rewrite Hp.
Qed.

(** What [apply_table] guarantees of the rules. *)
Definition rules_match (t : Table) (id : Z) (h : host) : Prop :=
  (∀ r, r ∈ tb_Rules t → ∃ x, x ∈ table_rules id h ∧ RuleIsEqual r x = true) ∧
  (∀ x, x ∈ table_rules id h → IsContainedRule x (tb_Rules t) = true).

Lemma table_rules_of_app l1 l2 id h : rules_of h ≡ₚ l1 ++ l2 →
  (∀ x, x ∈ l1 → nu_Table x = id) → (∀ x, x ∈ l2 → nu_Table x ≠ id) →
  table_rules id h ≡ₚ l1 ∧ other_rules id h ≡ₚ l2.
Proof.
  intros Hp H1 H2. unfold table_rules, other_rules. split.
  - rewrite (filter_perm _ _ _ Hp), List.filter_app, filter_all, filter_none, app_nil_r; [done| |].
    + intros x Hx. apply Z.eqb_neq. by apply H2.
    + intros x Hx. apply Z.eqb_eq. by apply H1.
  - rewrite (filter_perm _ _ _ Hp), List.filter_app, filter_none, filter_all; [done| |].
    + intros x Hx. apply negb_true_iff, Z.eqb_neq. by apply H2.
    + intros x Hx. apply negb_false_iff, Z.eqb_eq. by apply H1.
Qed.

Lemma apply_table_match t id h h' q : Forall canonical (tb_Rules t) → apply_table t id h = (h', Ok q) →
  (q = Done → rules_match t id h') ∧
  (∀ x, x ∈ table_rules id h' → IsContainedRule x (tb_Rules t) = true) ∧
  (∀ x, x ∈ table_rules id h' → x ∈ table_rules id h ∨
     ∃ r, r ∈ tb_Rules t ∧ RuleIsEqual r x = true ∧ written id r x) ∧
  other_rules id h' ≡ₚ other_rules id h.
Proof.
  intros Hc (new & Hp & Hn & Hq)%apply_table_rules; [|done].
  assert (Hcon : ∀ x, x ∈ new → IsContainedRule x (tb_Rules t) = true).
  { intros x (r & ? & ? & _)%Hn. by eapply contained_by. }
  apply (table_rules_of_app _ _ id) in Hp as [Hp Ho].
  - split_and!; [|intros x|intros x|done].
    + intros E. split.
      * intros r Hr. destruct (Hq E r Hr) as (x & Hx & Heq). exists x. split; [|done].
        rewrite Hp, elem_of_app, elem_of_lfilter.
        destruct Hx; [by left|right; split; [done|by eapply contained_by]].
      * intros x. rewrite Hp, elem_of_app, elem_of_lfilter. intros [?|[_ ?]]; [by apply Hcon|done].
    + rewrite Hp, elem_of_app, elem_of_lfilter. intros [?|[_ ?]]; [by apply Hcon|done].
    + rewrite Hp, elem_of_app, elem_of_lfilter. intros [?|[? _]]; [right; by apply Hn|by left].
  - intros x. rewrite elem_of_app, elem_of_lfilter. unfold table_rules. rewrite elem_of_lfilter.
    intros [(r & _ & _ & W)%Hn|[[_ ?%Z.eqb_eq] _]]; [|done]. by destruct W as (_ & _ & _ & _ & _ & _ & ?).
  - intros x. unfold other_rules. rewrite elem_of_lfilter. by intros [_ ?%negb_true_iff%Z.eqb_neq].
Qed.

(** What the comparison of the code accepts, field by field: a kernel rule
    without a source, or without a destination, passes for any. *)
Definition net_accepts (o : option string) (x : option IPNet) : Prop :=
  match x with None => True | Some n => o = Some (IPNet_String n) end.
Definition accepts (r : Rule) (x : nlRule) : Prop :=
  net_accepts (ru_Src r) (nu_Src x) ∧ net_accepts (ru_Dst r) (nu_Dst x) ∧
  nu_IifName x = default ""%string (ru_Iif r) ∧ nu_OifName x = default ""%string (ru_Oif r) ∧
  (∀ m, ru_FwMark r = Some m → nu_Mark x = m) ∧ (∀ p, ru_Priority r = Some p → nu_Priority x = p).

Lemma net_differs_accepts o x : net_differs o x = false ↔ net_accepts o x.
Proof.
  unfold net_differs, net_accepts. destruct o as [s|], x as [n|]; try done.
  rewrite negb_false_iff, bool_decide_eq_true. split; congruence.
Qed.

Lemma name_differs_default o x : name_differs o x = false ↔ x = default ""%string o.
Proof. unfold name_differs. destruct o; simpl; rewrite negb_false_iff, bool_decide_eq_true; split; congruence. Qed.

Lemma RuleIsEqual_accepts r x : RuleIsEqual r x = true → accepts r x.
Proof.
  unfold RuleIsEqual, accepts. rewrite <-!net_differs_accepts, <-!name_differs_default.
  destruct (net_differs (ru_Src r) _), (net_differs (ru_Dst r) _), (name_differs (ru_Iif r) _), (name_differs (ru_Oif r) _); try done.
  destruct (match ru_FwMark r with Some m => mark_out_of_range m || negb (m =? nu_Mark x) | None => false end) eqn:Hm; [done|].
  intros Hp. split_and!; [done..| |].
  - intros m E. rewrite E in Hm. apply orb_false_iff in Hm as [_ Hm%negb_false_iff]. by apply Z.eqb_eq in Hm.
  - intros p E. rewrite E in Hp. by apply Z.eqb_eq in Hp.
Qed.

(** ** Flushing *)

Definition table_routes (id : Z) (h : host) : list nlRoute := List.filter (fun x => nr_Table x =? id) (routes_of h).

Lemma FlushRules_ok id h h' : FlushRulesByTableID id h = (h', Ok ()) →
  rules_of h' ≡ₚ other_rules id h ∧ routes_of h' = routes_of h.
Proof.
  intros (h1 & l & (-> & Hl)%GetRules_ok & H)%R_bind_ok.
  apply (delete_each (fun _ => false)) in H as [H Hr]. split; [|done].
  rewrite filter_all, Hl, (rules_split id h) in H by done. symmetry. by apply Permutation_app_inv_l in H.
Qed.

Lemma delete_routes l h h' : for_each RouteDel l h = (h', Ok ()) →
  routes_of h ≡ₚ l ++ routes_of h' ∧ rules_of h' = rules_of h.
Proof.
  revert h. induction l as [|x l IH]; intros h; simpl.
  { intros H. unfold mret, R_ret in H. by simplify_eq. }
  intros (h1 & [] & H1 & H2)%R_bind_ok. apply IH in H2 as [H2 H2'].
  pose proof (keeps_RouteDel x _ _ _ H1). apply RouteDel_ok in H1. split; [by rewrite H1, H2|congruence].
Qed.

Lemma FlushRoutes_ok id h h' : FlushRoutesByTableID id h = (h', Ok ()) →
  routes_of h' ≡ₚ List.filter (fun x => negb (nr_Table x =? id)) (routes_of h) ∧ rules_of h' = rules_of h.
Proof.
  intros (h1 & l & (-> & Hl%RouteList_ok)%query_ok & H)%R_bind_ok. apply delete_routes in H as [H ?].
  split; [|done]. rewrite Hl in H. apply (Permutation_app_inv_l (List.filter (fun x => nr_Table x =? id) (routes_of h))).
  rewrite <-H. apply filter_split.
Qed.

Lemma ExistsTableID_pure id h h' b : ExistsTableID id h = (h', Ok b) → h' = h.
Proof.
  unfold ExistsTableID. destruct (id =? 0); [done|].
  intros (h1 & l & [-> _]%query_ok & H1)%R_bind_ok. unfold mret, R_ret in H1. by simplify_eq.
Qed.

Lemma EnsureTableAbsence_routes id h h' : EnsureTableAbsence id h = (h', Ok ()) → routes_of h' = routes_of h.
Proof.
  intros (h1 & b & ->%ExistsTableID_pure & H2)%R_bind_ok. destruct b; [|unfold mret, R_ret in H2; by simplify_eq].
  apply R_bind_ok in H2 as (h2 & l & [-> _]%query_ok & H2). by apply WriteTables_ok in H2 as [_ ?].
Qed.

Lemma flush_table_ok id h h' : flush_table id h = (h', Ok ()) →
  rules_of h' ≡ₚ other_rules id h ∧ routes_of h' ≡ₚ List.filter (fun x => negb (nr_Table x =? id)) (routes_of h).
Proof.
  intros (h1 & [] & [A1 A2]%FlushRules_ok & (h2 & [] & [B1 B2]%FlushRoutes_ok & H)%R_bind_ok)%R_bind_ok.
  pose proof (keeps_EnsureTableAbsence _ _ _ _ H) as Hk. apply EnsureTableAbsence_routes in H.
  split; [by rewrite Hk, B2|]. by rewrite H, B1, A2.
Qed.

Lemma flush_table_empty id h h' : flush_table id h = (h', Ok ()) →
  table_rules id h' = [] ∧ table_routes id h' = [].
Proof.
  intros [A B]%flush_table_ok. unfold table_rules, table_routes.
  split; apply Permutation_nil; symmetry; [rewrite (filter_perm _ _ _ A)|rewrite (filter_perm _ _ _ B)];
    rewrite filter_none; try done; intros x; [unfold other_rules|]; rewrite elem_of_lfilter;
    by intros [_ ?%negb_true_iff].
Qed.

Lemma Reconcile_deleting enable update name t cf h h' q fin :
  Reconcile FLAG_ONLINK scopenum hop_Equal Sum256 enable update name (RcOk t true cf) h = (h', Ok (q, fin)) →
  flush_table (generateTableID Sum256 (tb_Name t)) h = (h', Ok ()) ∧ (enable = true → fin = false).
Proof.
  intros H. unfold Reconcile, GetTableID in H. simpl in H.
  apply R_bind_ok in H as (h0 & tid & H0 & H). unfold rlift in H0.
  destruct (bool_decide (tb_Name t = ""%string)); simplify_eq.
  apply R_bind_ok in H as (h1 & [] & H1 & H).
  destruct cf, enable; simpl in H; unfold mret, R_ret in H; [|by simplify_eq..].
  apply R_bind_ok in H as (h2 & [] & H2 & H). unfold rlift in H2. by simplify_eq.
Qed.

(** ** Routes when a link is missing *)

Lemma EnsureRulePresence_routes r id xrules h h' : EnsureRulePresence r id xrules h = (h', Ok ()) →
  routes_of h' = routes_of h.
Proof.
  unfold EnsureRulePresence. destruct (ExistsRule r xrules).
  { unfold mret, R_ret. by intros [= ->]. }
  unfold AddRule, rlift. intros (h1 & src & E1 & H)%R_bind_ok. apply R_bind_ok in H as (h2 & dst & E2 & H).
  apply R_bind_ok in H as (h3 & mark & E3 & H). simplify_eq. by apply RuleAdd_ok in H as [_ ?].
Qed.

Lemma EnsureTablePresence_routes name id h h' : EnsureTablePresence name id h = (h', Ok ()) →
  routes_of h' = routes_of h.
Proof.
  intros (h1 & b & ->%ExistsTableID_pure & H2)%R_bind_ok. destruct b; [unfold mret, R_ret in H2; by simplify_eq|]. by apply AppendTable_ok in H2 as [_ ?].
Qed.

(** A route that cannot be forged hides those after it. *)
Lemma CleanRoutes_unforgeable r0 rest xroutes e h h' :
  (∀ id h, forgeNetlinkRoute FLAG_ONLINK scopenum r0 id h = Err e) →
  CleanRoutes (r0 :: rest) xroutes h = (h', Ok ()) → routes_of h ≡ₚ xroutes ++ routes_of h'.
Proof.
  intros Hf. revert h. induction xroutes as [|x l IH]; intros h H.
  { unfold Route.CleanRoutes, mret, R_ret in H. simpl in H. unfold mret, R_ret in H. by simplify_eq. }
  unfold Route.CleanRoutes in H. simpl in H. apply R_bind_ok in H as (h1 & [] & H1 & H).
  apply IH in H. apply R_bind_ok in H1 as (h2 & b & Hb & H1).
  unfold IsContainedRoute in Hb. simpl in Hb. rewrite Hf in Hb. simplify_eq.
  apply RouteDel_ok in H1. by rewrite H1, H.
Qed.

Lemma forge_missing_link r d n dst : opt_net (rt_Dst r) = Ok dst → rt_Dev r = Some d →
  (∀ h, LinkByName h d = Err (LinkNotFound n)) →
  ∀ id h, forgeNetlinkRoute FLAG_ONLINK scopenum r id h = Err (LinkNotFound n).
Proof. intros Hd Hv Hl id h. unfold forgeNetlinkRoute. by rewrite Hd, Hv, Hl. Qed.

Lemma apply_table_unforgeable t r rules r0 rest n id h h' q :
  tb_Rules t = r :: rules → ru_Routes r = r0 :: rest →
  (∀ id h, forgeNetlinkRoute FLAG_ONLINK scopenum r0 id h = Err (LinkNotFound n)) →
  apply_table t id h = (h', Ok q) → q = After1s ∧ table_routes id h' = [].
Proof.
  intros Ht Hr Hf H. unfold Route.apply_table in H. rewrite Ht in H.
  apply R_bind_ok in H as (h1 & xrules & (-> & Hx)%GetRules_ok & H).
  apply R_bind_ok in H as (h2 & [] & [_ H2]%delete_each & H).
  apply R_bind_ok in H as (h3 & xroutes & [-> H3%RouteList_ok]%query_ok & H).
  apply R_bind_ok in H as (h4 & [] & H4 & H). rewrite bind_cons, Hr in H4. simpl in H4.
  apply (CleanRoutes_unforgeable _ _ _ (LinkNotFound n)) in H4; [|done].
  apply R_bind_ok in H as (h5 & [] & H5%EnsureTablePresence_routes & H).
  simpl in H. apply R_bind_ok in H as (h6 & [] & H6%EnsureRulePresence_routes & H).
  rewrite Hr in H. unfold Route.EnsureRoutesPresence in H. simpl in H.
  unfold query, mbind, R_bind in H. rewrite Hf in H. simplify_eq. split; [done|].
  unfold table_routes. rewrite H6, H5. rewrite H3 in H4.
  apply Permutation_nil. symmetry. 
  assert (Hp : routes_of h4 ≡ₚ List.filter (fun x => negb (nr_Table x =? id)) (routes_of h2)).
  { apply (Permutation_app_inv_l (List.filter (fun x => nr_Table x =? id) (routes_of h2))).
    rewrite <-H4. apply filter_split. }
  rewrite (filter_perm _ _ _ Hp), filter_none; [done|].
  intros x. rewrite elem_of_lfilter. by intros [_ ?%negb_true_iff].
Qed.
End rules.
