(* ===== verification/RouteProps.v ===== *)
(** * RouteProps: what a reconciliation of a route configuration leaves in the kernel

    The rules of the table after a successful reconciliation are those of the
    configuration, although the second half works on a list taken before the first
    half deleted; a deletion leaves nothing of the table.  The comparison is lenient
    where the kernel has no selector, so a selector added later is not applied. *)

From S2P Require Export RouteConverge.
From Stdlib Require Import Ascii.
Local Open Scope Z_scope.

(** ** A kernel *)

Record ex_host := mkExHost { eh_routes : list nlRoute; eh_rules : list nlRule; eh_tables : option (list string) }.

Definition ex_priority (r : nlRule) : nlRule :=
  mkNlRule (nu_Src r) (nu_Dst r) (nu_IifName r) (nu_OifName r) (nu_Mark r)
    (if 0 <? nu_Priority r then nu_Priority r else 32765) (nu_Table r).

Fixpoint remove_one {A} `{EqDecision A} (x : A) (l : list A) : option (list A) :=
  match l with
  | [] => None
  | y :: l => if bool_decide (y = x) then Some l else cons y <$> remove_one x l
  end.

Lemma remove_one_perm {A} `{EqDecision A} (x : A) l l' : remove_one x l = Some l' → l ≡ₚ x :: l'.
Proof.
  revert l'. induction l as [|y l IH]; intros l'; simpl; [done|]. case_bool_decide as E.
  - by intros [= ->]; subst.
  - intros (l1 & H1%IH & ->)%fmap_Some. rewrite H1. constructor.
Qed.

Definition ex_links (n : string) : result rerr Z :=
  if bool_decide (n = "eth0"%string) then Ok 2 else Err (LinkNotFound n).

#[export] Program Instance ex_netlink : Netlink := {|
  host := ex_host;
  routes_of := eh_routes; rules_of := eh_rules; tables_of := eh_tables;
  LinkByName := fun _ n => ex_links n;
  RouteList := fun h t => Ok (List.filter (fun r => nr_Table r =? t) (eh_routes h));
  RouteAdd := fun r h => (mkExHost (eh_routes h ++ [r]) (eh_rules h) (eh_tables h), Ok ());
  RouteReplace := fun r h =>
    (mkExHost (List.filter (fun x => negb (bool_decide (nr_Dst x = nr_Dst r))) (eh_routes h) ++ [r]) (eh_rules h) (eh_tables h), Ok ());
  RouteDel := fun r h => match remove_one r (eh_routes h) with
                         | Some l => (mkExHost l (eh_rules h) (eh_tables h), Ok ())
                         | None => (h, Err OtherRerr)
                         end;
  RuleList := fun h t => Ok (List.filter (fun r => nu_Table r =? t) (eh_rules h));
  RuleAdd := fun r h => (mkExHost (eh_routes h) (ex_priority r :: eh_rules h) (eh_tables h), Ok ());
  RuleDel := fun r h => match remove_one r (eh_rules h) with
                        | Some l => (mkExHost (eh_routes h) l (eh_tables h), Ok ())
                        | None => (h, Err OtherRerr)
                        end;
  ReadTables := fun h => Ok (eh_tables h);
  AppendTable := fun s h => (mkExHost (eh_routes h) (eh_rules h) (Some (default [] (eh_tables h) ++ [s])), Ok ());
  WriteTables := fun l h => (mkExHost (eh_routes h) (eh_rules h) (Some l), Ok ())
|}.
Next Obligation. naive_solver. Qed.
Next Obligation. naive_solver. Qed.
Next Obligation.
  intros r h h' [= <-]. split; [|done]. exists (ex_priority r). split; [|done].
  unfold rule_stored, net_stored, ex_priority; simpl. split_and!; auto.
  intros H. by rewrite (proj2 (Z.ltb_lt _ _) H).
Qed.
Next Obligation.
  intros r h h'. simpl. destruct (remove_one r (eh_rules h)) eqn:E; intros ?; simplify_eq.
  split; [by apply remove_one_perm|done].
Qed.
Next Obligation. naive_solver. Qed.
Next Obligation. naive_solver. Qed.
Next Obligation. intros r h h' res. simpl. destruct (remove_one r (eh_routes h)); naive_solver. Qed.
Next Obligation.
  intros r h h'. simpl. destruct (remove_one r (eh_routes h)) eqn:E; intros ?; simplify_eq.
  by apply remove_one_perm.
Qed.
Next Obligation. naive_solver. Qed.
Next Obligation. naive_solver. Qed.

(** ** Configurations *)

Definition with_source (s : string) (r : Rule) : Rule :=
  mkRule (ru_Dst r) (Some s) (ru_Iif r) (ru_Oif r) (ru_FwMark r) (ru_Priority r) (ru_Routes r).
Definition narrowed (s : string) (t : Table) : Table := mkTable (tb_Name t) (with_source s <$> tb_Rules t).

Lemma narrowed_equal s r x : ru_Src r = None → RuleIsEqual r x = true → RuleIsEqual (with_source s r) x = true.
Proof.
  unfold RuleIsEqual. simpl. intros ->. destruct (nu_Src x) as [n|]; simpl; [done|]. done.
Qed.

Lemma narrowed_match {NL : Netlink} s t id h : (∀ r, r ∈ tb_Rules t → ru_Src r = None) →
  rules_match t id h → rules_match (narrowed s t) id h.
Proof.
  intros Hs [H1 H2]. split.
  - intros r (r0 & -> & Hr)%list_elem_of_fmap. destruct (H1 r0 Hr) as (x & ? & ?).
    exists x. split; [done|]. apply narrowed_equal; [by apply Hs|done].
  - intros x Hx. apply H2 in Hx. apply existsb_exists in Hx as (r & Hr%list_elem_of_In & Hx).
    apply (contained_by (with_source s r)); [by apply list_elem_of_fmap_2|].
    apply narrowed_equal; [by apply Hs|done].
Qed.

(** ** The number of a table *)

Lemma lor_concat a b n : 0 <= n → 0 <= b < 2 ^ n → Z.lor (Z.shiftl a n) b = a * 2 ^ n + b.
Proof.
  intros Hn Hb. assert (H : Z.land (Z.shiftl a n) b = 0).
  { apply Z.bits_inj'. intros i Hi. rewrite Z.land_spec, Z.bits_0. destruct (Z.lt_ge_cases i n).
    - by rewrite Z.shiftl_spec_low.
    - rewrite <-(Z.mod_small b (2 ^ n)), Z.mod_pow2_bits_high, andb_false_r by lia. done. }
  by rewrite <-Z.lxor_lor, <-Z.add_nocarry_lxor, Z.shiftl_mul_pow2 by done.
Qed.

Lemma lor_1 b : Z.lor b 1 = 2 * (b / 2) + 1.
Proof.
  assert (b mod 2 = 0 ∨ b mod 2 = 1) as Hb by (pose proof (Z.mod_pos_bound b 2); lia).
  assert (Hc : Z.lor (Z.shiftl (b / 2) 1) (b mod 2) = b).
  { rewrite lor_concat; [|lia|simpl; lia]. pose proof (Z.div_mod b 2). simpl. lia. }
  rewrite <-Hc at 1. rewrite <-Z.lor_assoc.
  replace (Z.lor (b mod 2) 1) with 1 by (destruct Hb as [-> | ->]; done).
  rewrite lor_concat by (simpl; lia). simpl. lia.
Qed.

(** The bytes of the number. *)
Lemma generateTableID_bytes (Sum256 : string → list Z) name (b : nat → Z) :
  (∀ i, b i = nth i (Sum256 name) 0) → (∀ i, 0 <= b i < 256) →
  generateTableID Sum256 name =
    (b 3%nat / 2) * 2 ^ 24 + (b 2%nat) * 2 ^ 16 + (2 * (b 1%nat / 2) + 1) * 2 ^ 8 + b 0%nat.
Proof.
  intros Hb Hr. unfold generateTableID. rewrite <-!Hb, lor_1, Z.shiftr_div_pow2 by lia.
  pose proof (Hr 0%nat). pose proof (Hr 1%nat). pose proof (Hr 2%nat). pose proof (Hr 3%nat).
  pose proof (Z.div_mod (b 1%nat) 2). pose proof (Z.mod_pos_bound (b 1%nat) 2).
  change (2 ^ 1) with 2.
  rewrite (lor_concat _ (b 0%nat)) by lia. rewrite (lor_concat (b 2%nat)) by lia. rewrite lor_concat by lia. lia.
Qed.

Section properties.
Context {NL : Netlink}.
Context (FLAG_ONLINK : Z) (scopenum : Scope → Z) (hop_Equal : NexthopInfo → NexthopInfo → bool)
  (Sum256 : string → list Z).
Notation apply_table := (apply_table FLAG_ONLINK scopenum hop_Equal).
Notation Reconcile := (Reconcile FLAG_ONLINK scopenum hop_Equal Sum256).

(** C16: After a reconciliation that applied a configuration whose networks are
    written as the kernel prints them and whose priorities are positive,
    - every rule of the configuration has a rule in the kernel's table with its
      interfaces, mark and priority (where given) and with its source and
      destination, or none;
    - every rule of that table is such a rule for one of the configuration, also
      when the run stopped for a missing link; and the rules it wrote select
      exactly what the configuration says, source and destination included: only
      a rule that was there before may select more (see
      [selector_never_added]);
    - the rules of other tables are as they were, and reconciling again changes
      no rule.
    Presence is looked up in the list taken before the deletions. *)
Theorem route_rules_converge (t : Table) (id : Z) (h h' : host) (q : requeue) :
  Forall canonical (tb_Rules t) → apply_table t id h = (h', Ok q) →
  (q = Done →
     (∀ r, r ∈ tb_Rules t → ∃ x, x ∈ table_rules id h' ∧ accepts r x) ∧
     ∀ h'' q', apply_table t id h' = (h'', Ok q') → rules_of h'' = rules_of h') ∧
  (∀ x, x ∈ table_rules id h' →
     (∃ r, r ∈ tb_Rules t ∧ accepts r x) ∧
     (x ∈ table_rules id h ∨ ∃ r, r ∈ tb_Rules t ∧ accepts r x ∧ written id r x)) ∧
  other_rules id h' ≡ₚ other_rules id h.
Proof.
  intros Hc H. apply apply_table_match in H as (H1 & H2 & Hw & H3); [|done]. split_and!; [| |done].
  - intros E. destruct (H1 E) as [HA HB]. split.
    + intros r Hr. destruct (HA r Hr) as (x & ? & ?). exists x. split; [done|by apply RuleIsEqual_accepts].
    + intros h'' q' H. by eapply apply_table_in_place.
  - intros x Hx. split.
    + apply H2 in Hx. apply existsb_exists in Hx as (r & Hr%list_elem_of_In & Hx).
      exists r. split; [done|by apply RuleIsEqual_accepts].
    + destruct (Hw x Hx) as [?|(r & ? & ? & ?)]; [by left|right].
      exists r. split_and!; [done|by apply RuleIsEqual_accepts|done].
Qed.

(** A source selector added to the rules of an applied configuration never reaches
    the kernel: the comparison takes a kernel rule without a source as equal to a rule
    with any source, so the wider rules stay. *)
Theorem selector_never_added (t : Table) (s : string) (id : Z) (h h' h'' : host) (q : requeue) :
  Forall canonical (tb_Rules t) → (∀ r, r ∈ tb_Rules t → ru_Src r = None) →
  apply_table t id h = (h', Ok Done) → apply_table (narrowed s t) id h' = (h'', Ok q) →
  rules_of h'' = rules_of h' ∧ ∀ x, x ∈ table_rules id h'' → nu_Src x = None.
Proof.
  intros Hc Hs H H'. apply apply_table_match in H as (H1 & H2 & _ & _); [|done].
  destruct (narrowed_match s _ _ _ Hs (H1 eq_refl)) as [A B].
  assert (E : rules_of h'' = rules_of h') by (by eapply apply_table_in_place). split; [done|].
  unfold table_rules. rewrite E. intros x Hx.
  apply H2 in Hx. apply existsb_exists in Hx as (r & Hr%list_elem_of_In & Hx).
  apply Hs in Hr. unfold RuleIsEqual in Hx. rewrite Hr in Hx. by destruct (nu_Src x).
Qed.

(** When the reconciliation of a configuration being deleted succeeds, nothing of
    its table is left in the kernel, the rules and routes of the other tables are as
    they were, and only then is the finalizer gone. *)
Theorem route_deletion_flushes (enable cf fin : bool) (update : result rerr ()) (name : string) (t : Table)
    (h h' : host) (q : requeue) :
  let id := generateTableID Sum256 (tb_Name t) in
  Reconcile enable update name (RcOk t true cf) h = (h', Ok (q, fin)) →
  table_rules id h' = [] ∧ table_routes id h' = [] ∧
  rules_of h' ≡ₚ other_rules id h ∧
  routes_of h' ≡ₚ List.filter (fun x => negb (nr_Table x =? id)) (routes_of h) ∧
  (enable = true → fin = false).
Proof.
  intros id [H Hf]%Reconcile_deleting. pose proof (flush_table_empty _ _ _ H) as [? ?].
  apply flush_table_ok in H as [? ?]. by split_and!.
Qed.

(** Two configurations may share a table when their labels differ: the webhook
    admits both, and deleting one removes the rules of the other from the kernel. *)
Theorem shared_table_flushed (rc1 rc2 : RouteConfiguration) (enable cf fin : bool) (update : result rerr ())
    (name : string) (h h' : host) (q : requeue) :
  rc_uid rc1 ≠ rc_uid rc2 → rc_labels rc1 ≠ rc_labels rc2 → tb_Name (rc_Table rc1) = tb_Name (rc_Table rc2) →
  tb_Rules (rc_Table rc1) ≠ [] →
  Reconcile enable update name (RcOk (rc_Table rc2) true cf) h = (h', Ok (q, fin)) →
  checkUniqueTableName (Some [rc1]) rc2 = true ∧
  ¬ rules_match (rc_Table rc1) (generateTableID Sum256 (tb_Name (rc_Table rc1))) h'.
Proof.
  intros Hu Hl Hn Hr H. split.
  - simpl. rewrite (bool_decide_eq_false_2 (rc_labels rc1 = _)) by done. by rewrite andb_false_r, orb_true_r.
  - intros [A _]. destruct (tb_Rules (rc_Table rc1)) as [|r rs] eqn:E; [done|].
    destruct (A r) as (x & Hx & _); [left|]. rewrite Hn in Hx.
    apply Reconcile_deleting in H as [[H _]%flush_table_empty _]. rewrite H in Hx. by apply not_elem_of_nil in Hx.
Qed.

(** A link that is missing costs the table all of its routes.  When the device of the
    first route of a configuration does not exist, that route cannot be compared, which
    counts as no match for every route of the kernel: all of them are deleted, the ones
    the configuration wants included, and the reconciliation stops before adding any. *)
Theorem missing_link_drops_routes (t : Table) (r : Rule) (rules : list Rule) (r0 : Route) (rest : list Route)
    (d n : string) (dst : option IPNet) (id : Z) (h h' : host) (q : requeue) :
  tb_Rules t = r :: rules → ru_Routes r = r0 :: rest → rt_Dev r0 = Some d → opt_net (rt_Dst r0) = Ok dst →
  (∀ h, LinkByName h d = Err (LinkNotFound n)) →
  apply_table t id h = (h', Ok q) → q = After1s ∧ table_routes id h' = [].
Proof.
  intros Ht Hr Hd Hn Hl. apply (apply_table_unforgeable FLAG_ONLINK scopenum hop_Equal t r rules r0 rest n); [done..|].
  by eapply forge_missing_link.
Qed.
End properties.

(** The hash of a name: 32 bytes. *)
Definition is_hash (l : list Z) : Prop := List.length l = 32%nat ∧ Forall (fun b => 0 <= b < 256) l.

Lemma hash_byte l i : is_hash l → 0 <= nth i l 0 < 256.
Proof.
  intros [Hl Hb]. destruct (Nat.lt_ge_cases i 32) as [Hi|Hi].
  - rewrite Forall_forall in Hb. apply Hb, list_elem_of_In, nth_In. lia.
  - rewrite nth_overflow by lia. lia.
Qed.

Lemma byte_halves b : 0 <= b < 256 → 0 <= b / 2 < 128.
Proof. intros. split; [apply Z.div_pos; lia|apply Z.div_lt_upper_bound; lia]. Qed.

(** The number of a table is outside of the range the system uses and fits in
    31 bits, whatever the hash of its name; two names have the same number exactly when
    their hashes agree on the first four bytes but for the lowest bits of the second and
    of the fourth. *)
Theorem table_id_bounds (Sum256 : string → list Z) (name name' : string) (id id' : Z) :
  is_hash (Sum256 name) → is_hash (Sum256 name') →
  GetTableID Sum256 name = Ok id → GetTableID Sum256 name' = Ok id' →
  256 <= id < 2 ^ 31 ∧
  let b (n : string) (i : nat) : Z := nth i (Sum256 n) 0 in
  (id = id' ↔ b name 0%nat = b name' 0%nat ∧ b name 1%nat / 2 = b name' 1%nat / 2 ∧
              b name 2%nat = b name' 2%nat ∧ b name 3%nat / 2 = b name' 3%nat / 2).
Proof.
  intros Hh Hh' H H'. unfold GetTableID in H, H'. do 2 case_bool_decide; [done..|]. simplify_eq.
  rewrite (generateTableID_bytes Sum256 name (fun i => nth i (Sum256 name) 0)) by auto using hash_byte.
  rewrite (generateTableID_bytes Sum256 name' (fun i => nth i (Sum256 name') 0)) by auto using hash_byte.
  cbv zeta beta. repeat match goal with
  | |- context [nth ?i ?l 0] =>
    let b := fresh "b" in let Hb := fresh "Hb" in
    pose proof (hash_byte l i ltac:(done)) as Hb; set (b := nth i l 0) in *; clearbody b;
    pose proof (byte_halves b Hb)
  end. clear - Hb Hb0 Hb1 Hb2 Hb3 Hb4 Hb5 Hb6 H H1 H2 H3 H4 H5 H6 H7. lia.
Qed.

(** ** Examples *)

Definition ex_rule : Rule := mkRule (Some "10.71.0.0/16"%string) None (Some "eth0"%string) None (Some 7) None
  [mkRoute (Some "10.71.0.0/16"%string) None (Some "10.80.0.2"%string) [] (Some "eth0"%string) None None].
Definition ex_table : Table := mkTable "cluster-a" [ex_rule].
Definition ex_stale : nlRule := mkNlRule None None "eth1" "" 0 32766 300.
Definition ex_foreign : nlRule := mkNlRule None None "" "" 0 32767 254.
Definition ex_before : ex_host := mkExHost [] [ex_stale; ex_foreign] None.
Definition ex_applied : nlRule := mkNlRule None (Some (mkIPNet [10; 71; 0; 0] [255; 255; 0; 0])) "eth0" "" 7 32765 300.
Definition ex_after : ex_host := mkExHost
  [mkNlRoute (Some (mkIPNet [10; 71; 0; 0] [255; 255; 0; 0])) [] (v4InV6Prefix ++ [10; 80; 0; 2]) [] 2 300 0 0]
  [ex_applied; ex_foreign] (Some [forgeTableEntry 300 "cluster-a"]).
Definition ex_apply (t : Table) : R requeue := apply_table 4 (fun _ => 0) (fun x y => bool_decide (x = y)) t 300.

Lemma ex_canonical : Forall canonical (tb_Rules ex_table).
Proof.
  apply Forall_singleton. split_and!; simpl; [done| |done].
  exists (mkIPNet [10; 71; 0; 0] [255; 255; 0; 0]). by vm_compute.
Qed.

Lemma ex_apply_ok : ex_apply ex_table ex_before = (ex_after, Ok Done).
Proof. reflexivity. Qed.

Lemma route_rules_converge_witness :
  (∃ x, x ∈ table_rules (NL := ex_netlink) 300 ex_after ∧ accepts ex_rule x ∧ written 300 ex_rule x) ∧
  other_rules (NL := ex_netlink) 300 ex_after ≡ₚ [ex_foreign].
Proof.
  destruct (route_rules_converge (NL := ex_netlink) 4 (fun _ => 0) (fun x y => bool_decide (x = y)) ex_table 300 ex_before ex_after Done)
    as (H & Hx & Ho); [apply ex_canonical|apply ex_apply_ok|].
  split; [|rewrite Ho; reflexivity]. exists ex_applied.
  assert (Hin : ex_applied ∈ table_rules (NL := ex_netlink) 300 ex_after) by left. split; [done|].
  destruct (Hx ex_applied Hin) as [_ [Hold|(r & ->%list_elem_of_singleton & ? & ?)]]; [|done].
  by apply list_elem_of_singleton in Hold.
Defined.

(** The source added to the rule is not applied. *)
Lemma selector_never_added_witness :
  ex_apply (narrowed "10.1.0.0/24" ex_table) ex_after = (ex_after, Ok Done) ∧
  ∀ x, x ∈ table_rules (NL := ex_netlink) 300 ex_after → nu_Src x = None.
Proof.
  assert (H : ex_apply (narrowed "10.1.0.0/24" ex_table) ex_after = (ex_after, Ok Done)) by reflexivity.
  split; [exact H|].
  apply (selector_never_added (NL := ex_netlink) 4 (fun _ => 0) (fun x y => bool_decide (x = y)) ex_table "10.1.0.0/24"
           300 ex_before ex_after ex_after Done); [apply ex_canonical| |apply ex_apply_ok|apply H].
  by intros r ->%list_elem_of_singleton.
Defined.

(** Next to the route in place, one over a link that is gone. *)
Definition ex_gone : Route := mkRoute (Some "10.72.0.0/16"%string) None None [] (Some "eth9"%string) None None.
Definition ex_two_routes : Table := mkTable "cluster-a"
  [mkRule (ru_Dst ex_rule) None (ru_Iif ex_rule) None (ru_FwMark ex_rule) None (ex_gone :: ru_Routes ex_rule)].

Definition ex_routeless : ex_host := mkExHost [] (eh_rules ex_after) (eh_tables ex_after).

Lemma missing_link_drops_routes_witness :
  ex_apply ex_two_routes ex_after = (ex_routeless, Ok After1s) ∧ table_routes (NL := ex_netlink) 300 ex_routeless = [].
Proof.
  assert (H : ex_apply ex_two_routes ex_after = (ex_routeless, Ok After1s)) by reflexivity. split; [exact H|].
  apply (missing_link_drops_routes (NL := ex_netlink) 4 (fun _ => 0) (fun x y => bool_decide (x = y)) ex_two_routes _ _
           ex_gone _ "eth9" "eth9" _ 300 ex_after ex_routeless After1s eq_refl eq_refl eq_refl eq_refl); [done|apply H].
Defined.

(** A hash that gives the number 300 to every name: 300 is [44 + 1 * 256]. *)
Definition ex_sum (_ : string) : list Z := [44; 1] ++ replicate 30 0.
Definition ex_emptied : ex_host := mkExHost [] [ex_foreign] (Some []).
Definition ex_delete : R (requeue * bool) :=
  Reconcile 4 (fun _ => 0) (fun x y => bool_decide (x = y)) ex_sum true (Ok ()) "a" (RcOk ex_table true true).

Lemma ex_delete_ok : ex_delete ex_after = (ex_emptied, Ok (Done, false)).
Proof. reflexivity. Qed.

Lemma route_deletion_flushes_witness :
  table_rules (NL := ex_netlink) (generateTableID ex_sum "cluster-a") ex_emptied = [].
Proof.
  apply (route_deletion_flushes (NL := ex_netlink) 4 (fun _ => 0) (fun x y => bool_decide (x = y)) ex_sum true true false
           (Ok ()) "a" ex_table ex_after ex_emptied Done ex_delete_ok).
Defined.

Lemma shared_table_flushed_witness :
  let rc1 := mkRouteConfiguration "u1" ∅ ex_table in
  let rc2 := mkRouteConfiguration "u2" {["k"%string := "v"%string]} ex_table in
  checkUniqueTableName (Some [rc1]) rc2 = true.
Proof.
  intros rc1 rc2.
  apply (shared_table_flushed (NL := ex_netlink) 4 (fun _ => 0) (fun x y => bool_decide (x = y)) ex_sum rc1 rc2 true true false
           (Ok ()) "a" ex_after ex_emptied Done); [done|done|done|done|apply ex_delete_ok].
Defined.

Lemma table_id_bounds_witness : GetTableID ex_sum "cluster-a" = Ok 300 ∧ 256 <= 300 < 2 ^ 31.
Proof.
  split; [reflexivity|].
  assert (H : is_hash (ex_sum "cluster-a")) by (split; [reflexivity|repeat constructor; lia]).
  apply (table_id_bounds ex_sum "cluster-a" "cluster-a" 300 300 H H); reflexivity.
Defined.

(** An entry of the file of tables belongs to a table as soon as its text contains
    the number: with the table 1285 absent, the entry of 12850 makes it seem present and
    its own is not written; and the deletion of 1285 removes the entry of 12850, and any
    whose name contains the digits. *)
Theorem table_entries_confused :
  snd (ExistsTableID (NL := ex_netlink) 1285 (mkExHost [] [] (Some [forgeTableEntry 12850 "b"]))) = Ok true ∧
  fst (EnsureTablePresence (NL := ex_netlink) "a" 1285 (mkExHost [] [] (Some [forgeTableEntry 12850 "b"]))) =
    mkExHost [] [] (Some [forgeTableEntry 12850 "b"]) ∧
  filterDeletedLines 1285 [forgeTableEntry 1285 "a"; forgeTableEntry 12850 "b"; forgeTableEntry 400 "site-1285"; forgeTableEntry 500 "c"]
    = [forgeTableEntry 500 "c"].
Proof. split_and!; reflexivity. Qed.
