(* ===== verification/VkForge.v ===== *)
(** * VkForge: how the virtual kubelet forges pods
      (src/pkg/virtualKubelet/forge/{pods,meta,forge,configmaps,secrets}.go,
       src/pkg/utils/maps/maps.go, src/pkg/utils/pod/pod.go)

    A pod bound to a virtual node is offloaded as a shadow pod of the remote
    cluster; the status of the remote pod is copied back.  Fields of pods that are
    only copied are given by their text; an absent one is [None].  A nil map behaves
    as an empty one where it is only read.  Mutators may call closures that change a
    state of type [S] and panic when they are nil. *)

From S2P Require Export GoNet GoStrings Kube.
From Stdlib Require Import Ascii.
Local Open Scope Z_scope.

(** ** Pods *)

(** The text of a field that is only copied or compared. *)
Definition json : Type := string.

Record EnvVarSource := mkEnvVarSource { FieldRef : option string; vf_other : option json }.
Record EnvVar := mkEnvVar { e_Name : string; e_Value : string; e_ValueFrom : option EnvVarSource }.
Record Container := mkContainer {
  c_Name : string; c_Image : string; c_Env : list EnvVar; c_Requests : gmap string json; c_Limits : gmap string json;
  c_other : option json
}.
Record KeyToPath := mkKeyToPath { k_Key : string; k_Path : string; k_Mode : option Z }.
Record ConfigMapProjection := mkCmp { cp_Name : string; cp_Items : list KeyToPath; cp_Optional : option bool }.
Record TokenProjection := mkTp { tp_Audience : string; tp_Seconds : option Z; tp_Path : string }.
Record SecretProjection := mkSp { sp_Name : string; sp_Items : list KeyToPath; sp_Optional : option bool }.
Record VolumeProjection := mkVolumeProjection {
  vp_ConfigMap : option ConfigMapProjection; vp_ServiceAccountToken : option TokenProjection;
  vp_Secret : option SecretProjection; vp_other : option json
}.
Record ProjectedVolumeSource := mkProjected { pj_Sources : list VolumeProjection; pj_other : option json }.
Record Volume := mkVolume { v_Name : string; v_Projected : option ProjectedVolumeSource; v_other : option json }.
Record HostAlias := mkHostAlias { ha_IP : string; ha_Hostnames : list string }.
Record Toleration := mkToleration {
  t_Key : string; t_Operator : string; t_Value : string; t_Effect : string; t_Seconds : option Z
}.
Record PodAffinityTerm := mkTerm { pt_TopologyKey : string; pt_MatchLabels : option labels; pt_other : option json }.
Record PodAntiAffinity := mkAntiAffinity {
  aa_Required : list PodAffinityTerm; aa_Preferred : list (Z * PodAffinityTerm)
}.
(** [RequiredDuringScheduling] is a pointer to a list of terms. *)
Record NodeAffinity := mkNodeAffinity { na_Required : option (list json); na_Preferred : list json }.
Record Affinity := mkAffinity {
  af_Node : option NodeAffinity; af_Pod : option json; af_AntiPod : option PodAntiAffinity
}.
Record PodResourceClaim := mkClaim {
  rc_Name : string; rc_ResourceClaimName : option string; rc_TemplateName : option string
}.
Record PodResourceClaimStatus := mkClaimStatus { rs_Name : string; rs_ResourceClaimName : option string }.

(** The fields copied from the local to the remote pod as they are. *)
Record Copied := mkCopied {
  cf_Resources : option json; cf_ActiveDeadlineSeconds : option Z; cf_DNSConfig : option json; cf_DNSPolicy : option json;
  cf_EnableServiceLinks : option json; cf_Hostname : option json; cf_ImagePullSecrets : option json;
  cf_ReadinessGates : option json; cf_RestartPolicy : option json; cf_SecurityContext : option json;
  cf_SetHostnameAsFQDN : option json; cf_ShareProcessNamespace : option json; cf_Subdomain : option json;
  cf_TerminationGracePeriodSeconds : option json; cf_HostIPC : bool; cf_HostPID : bool
}.
(** [ps_other] holds the fields that are never reflected (node name, priority,
    scheduler and so on). *)
Record PodSpec := mkPodSpec {
  ps_Containers : list Container; ps_InitContainers : list Container; ps_ResourceClaims : list PodResourceClaim;
  ps_Tolerations : list Toleration; ps_Volumes : list Volume; ps_HostAliases : list HostAlias;
  ps_ServiceAccountName : string; ps_Automount : option bool; ps_HostNetwork : bool;
  ps_Affinity : option Affinity; ps_NodeSelector : labels; ps_RuntimeClassName : option string;
  ps_copied : Copied; ps_other : option json
}.

Record ContainerState := mkState {
  cs_Waiting : option json; cs_Running : option json; cs_Terminated : option (Z * string * option json)
}.
Record ContainerStatus := mkContainerStatus {
  cs_Name : string; cs_Ready : bool; cs_RestartCount : Z; cs_State : ContainerState; cs_other : option json
}.
Record PodCondition := mkCondition { pc_Type : string; pc_Status : string; pc_Reason : string; pc_Time : Z }.
(** [PodIPs] may be nil or empty, which [reflect.DeepEqual] tells apart. *)
Record PodStatus := mkPodStatus {
  st_Phase : string; st_Reason : string; st_Conditions : list PodCondition; st_PodIP : string;
  st_PodIPs : option (list string); st_HostIP : string; st_HostIPs : option (list string);
  st_ContainerStatuses : list ContainerStatus; st_InitContainerStatuses : list ContainerStatus;
  st_EphemeralContainerStatuses : list ContainerStatus;
  st_ResourceClaimStatuses : list PodResourceClaimStatus; st_other : option json
}.
Record Pod := mkPod {
  p_Name : string; p_UID : string; p_Labels : labels; p_Annotations : labels; p_Deleting : bool;
  p_Spec : PodSpec; p_Status : PodStatus
}.
(** The metadata the code does not touch is [sh_UID] and whether it is being deleted. *)
Record ShadowPod := mkShadowPod {
  sh_Name : string; sh_Namespace : string; sh_UID : string; sh_Labels : labels; sh_Annotations : labels;
  sh_Deleting : bool; sh_Spec : PodSpec; sh_Phase : string
}.
Record ForgingOpts := mkForgingOpts {
  LabelsNotReflected : list string; AnnotationsNotReflected : list string; fo_NodeSelector : labels;
  fo_Tolerations : list Toleration; fo_Affinity : option (option NodeAffinity); fo_RuntimeClassName : option string
}.

Definition no_copied : Copied :=
  mkCopied None None None None None None None None None None None None None None false false.
Definition empty_spec : PodSpec := mkPodSpec [] [] [] [] [] [] "" None false None ∅ None no_copied None.

(** The setters of a specification. *)
Definition set_containers (r : PodSpec) (c ic : list Container) : PodSpec :=
  mkPodSpec c ic (ps_ResourceClaims r) (ps_Tolerations r) (ps_Volumes r) (ps_HostAliases r) (ps_ServiceAccountName r)
    (ps_Automount r) (ps_HostNetwork r) (ps_Affinity r) (ps_NodeSelector r) (ps_RuntimeClassName r) (ps_copied r) (ps_other r).
Definition set_claims (r : PodSpec) (x : list PodResourceClaim) : PodSpec :=
  mkPodSpec (ps_Containers r) (ps_InitContainers r) x (ps_Tolerations r) (ps_Volumes r) (ps_HostAliases r)
    (ps_ServiceAccountName r) (ps_Automount r) (ps_HostNetwork r) (ps_Affinity r) (ps_NodeSelector r)
    (ps_RuntimeClassName r) (ps_copied r) (ps_other r).
Definition set_tolerations (r : PodSpec) (x : list Toleration) : PodSpec :=
  mkPodSpec (ps_Containers r) (ps_InitContainers r) (ps_ResourceClaims r) x (ps_Volumes r) (ps_HostAliases r)
    (ps_ServiceAccountName r) (ps_Automount r) (ps_HostNetwork r) (ps_Affinity r) (ps_NodeSelector r)
    (ps_RuntimeClassName r) (ps_copied r) (ps_other r).
Definition set_volumes (r : PodSpec) (x : list Volume) : PodSpec :=
  mkPodSpec (ps_Containers r) (ps_InitContainers r) (ps_ResourceClaims r) (ps_Tolerations r) x (ps_HostAliases r)
    (ps_ServiceAccountName r) (ps_Automount r) (ps_HostNetwork r) (ps_Affinity r) (ps_NodeSelector r)
    (ps_RuntimeClassName r) (ps_copied r) (ps_other r).
Definition set_aliases (r : PodSpec) (x : list HostAlias) : PodSpec :=
  mkPodSpec (ps_Containers r) (ps_InitContainers r) (ps_ResourceClaims r) (ps_Tolerations r) (ps_Volumes r) x
    (ps_ServiceAccountName r) (ps_Automount r) (ps_HostNetwork r) (ps_Affinity r) (ps_NodeSelector r)
    (ps_RuntimeClassName r) (ps_copied r) (ps_other r).
Definition set_service_account (r : PodSpec) (sa : string) (automount : option bool) : PodSpec :=
  mkPodSpec (ps_Containers r) (ps_InitContainers r) (ps_ResourceClaims r) (ps_Tolerations r) (ps_Volumes r)
    (ps_HostAliases r) sa automount (ps_HostNetwork r) (ps_Affinity r) (ps_NodeSelector r)
    (ps_RuntimeClassName r) (ps_copied r) (ps_other r).
Definition set_affinity (r : PodSpec) (x : option Affinity) : PodSpec :=
  mkPodSpec (ps_Containers r) (ps_InitContainers r) (ps_ResourceClaims r) (ps_Tolerations r) (ps_Volumes r)
    (ps_HostAliases r) (ps_ServiceAccountName r) (ps_Automount r) (ps_HostNetwork r) x (ps_NodeSelector r)
    (ps_RuntimeClassName r) (ps_copied r) (ps_other r).
Definition set_node_selector (r : PodSpec) (x : labels) : PodSpec :=
  mkPodSpec (ps_Containers r) (ps_InitContainers r) (ps_ResourceClaims r) (ps_Tolerations r) (ps_Volumes r)
    (ps_HostAliases r) (ps_ServiceAccountName r) (ps_Automount r) (ps_HostNetwork r) (ps_Affinity r) x
    (ps_RuntimeClassName r) (ps_copied r) (ps_other r).
Definition set_runtime_class (r : PodSpec) (x : option string) : PodSpec :=
  mkPodSpec (ps_Containers r) (ps_InitContainers r) (ps_ResourceClaims r) (ps_Tolerations r) (ps_Volumes r)
    (ps_HostAliases r) (ps_ServiceAccountName r) (ps_Automount r) (ps_HostNetwork r) (ps_Affinity r) (ps_NodeSelector r)
    x (ps_copied r) (ps_other r).

(** ** maps.go *)

Definition FilterWhitelist (whitelist : list string) (check : string) : bool := existsb (fun el => bool_decide (el = check)) whitelist.
Definition FilterBlacklist (blacklist : list string) (check : string) : bool := negb (FilterWhitelist blacklist check).
Definition Filter {A} (m : gmap string A) (f : string → bool) : gmap string A := filter (fun kv => f kv.1 = true) m.

(** ** Constants *)

Definition LocalPodLabelKey : string := "liqo.io/shadowPod".
Definition LocalPodLabelValue : string := "true".
Definition LiqoOriginClusterIDKey : string := "offloading.liqo.io/origin".
Definition LiqoDestinationClusterIDKey : string := "offloading.liqo.io/destination".
Definition LiqoOriginClusterNodeName : string := "offloading.liqo.io/nodename".
Definition PodAntiAffinityPresetKey : string := "liqo.io/anti-affinity-preset".
Definition PodAntiAffinityLabelsKey : string := "liqo.io/anti-affinity-labels".
Definition APIServerSupportAnnotation : string := "liqo.io/api-server-support".
Definition RemoteServiceAccountNameAnnotation : string := "liqo.io/remote-service-account-name".
Definition RemoteRuntimeClassNameAnnotKey : string := "liqo.io/remote-runtime-class-name".
Definition LiqoRuntimeClassName : string := "liqo".
Definition VirtualNodeTolerationKey : string := "virtual-node.omni.cast.ai/not-allowed".
Definition RemoteUnavailableKey : string := "liqo.io/remote-unavailable".
Definition RemoteUnavailableValue : string := "true".
Definition ServiceAccountVolumeName : string := "kube-api-access-".
Definition KubernetesAPIService : string := "kubernetes.default".
Definition RootCAConfigMapName : string := "kube-root-ca.crt".
Definition LabelHostname : string := "kubernetes.io/hostname".
Definition PodOffloadingAbortedReason : string := "OffloadingAborted".
Definition RemotePodTerminatedReason : string := "RemotePodTerminated".
(** The label keys of Kubernetes itself that anti-affinity ignores. *)
Definition ControllerRevisionHashLabelKey : string := "controller-revision-hash".
Definition DefaultDeploymentUniqueLabelKey : string := "pod-template-hash".
Definition StatefulSetPodNameLabel : string := "statefulset.kubernetes.io/pod-name".

Inductive APIServerSupportType :=
  APIServerSupportDisabled | APIServerSupportLegacy | APIServerSupportTokenAPI | APIServerSupportRemote.
#[export] Instance APIServerSupportType_eq_dec : EqDecision APIServerSupportType.
Proof. solve_decision. Defined.

(** ** Names *)

Definition isAlphanumeric (c : ascii) : bool :=
  let b := byte_of c in GoStrings.between 97 122 b || GoStrings.between 65 90 b || GoStrings.between 48 57 b.
Fixpoint last_char (s : string) : option ascii :=
  match s with EmptyString => None | String c EmptyString => Some c | String _ s => last_char s end.
Definition RemoteConfigMapName (LocalCluster : string) (local : string) : string :=
  if bool_decide (local = RootCAConfigMapName) then
    let suffix := if (5 <? String.length LocalCluster)%nat then String.substring 0 5 LocalCluster else LocalCluster in
    let name := (RootCAConfigMapName ++ "." ++ suffix)%string in
    match last_char name with
    | Some c => if negb (isAlphanumeric c) then (name ++ "a")%string else name
    | None => name
    end
  else local.
Definition LocalConfigMapName (LocalCluster : string) (remote : string) : string :=
  if bool_decide (remote = RemoteConfigMapName LocalCluster RootCAConfigMapName) then RootCAConfigMapName else remote.
Definition ServiceAccountSecretName (podName : string) : string := (podName ++ "-token")%string.
Definition ServiceAccountTokenKey (Sum256 : string → list Z) (volumeName path : string) : string :=
  (volumeName ++ "-" ++ String.concat "" (hex_byte <$> take 3 (Sum256 path)))%string.

(** ** Status of the local pod *)

Definition int32 (z : Z) : Z := (z + 2 ^ 31) mod 2 ^ 32 - 2 ^ 31.
Definition PodFailed : string := "Failed".
Definition PodSucceeded : string := "Succeeded".
Definition ConditionTrue : string := "True".
Definition ConditionFalse : string := "False".
Definition PodReady : string := "Ready".

(** [TerminateContainerState]. *)
Definition TerminateContainerState (phase reason : string) (cs : ContainerStatus) : ContainerStatus :=
  let state :=
    if bool_decide (cs_Terminated (cs_State cs) = None) && (bool_decide (phase = PodFailed) || bool_decide (phase = PodSucceeded))
    then mkState None None (Some (if bool_decide (phase = PodFailed) then 1 else 0, reason, None))
    else cs_State cs in
  mkContainerStatus (cs_Name cs) false (cs_RestartCount cs) state (cs_other cs).

(** [metav1.Now] is read once for each condition that changes. *)
Definition reject_condition (reason : string) (now : Z) (c : PodCondition) : PodCondition :=
  if bool_decide (pc_Status c = ConditionTrue) then mkCondition (pc_Type c) ConditionFalse reason now else c.
Definition LocalRejectedPodStatus (now : nat → Z) (local : PodStatus) (phase reason : string) : PodStatus :=
  mkPodStatus phase reason (imap (fun i => reject_condition reason (now i)) (st_Conditions local)) (st_PodIP local) (st_PodIPs local)
    (st_HostIP local) (st_HostIPs local) (TerminateContainerState phase reason <$> st_ContainerStatuses local)
    (TerminateContainerState phase reason <$> st_InitContainerStatuses local)
    (TerminateContainerState phase reason <$> st_EphemeralContainerStatuses local)
    (st_ResourceClaimStatuses local) (st_other local).

Definition set_pod_ips (r : PodStatus) (ip : string) (ips : option (list string)) : PodStatus :=
  mkPodStatus (st_Phase r) (st_Reason r) (st_Conditions r) ip ips (st_HostIP r) (st_HostIPs r)
    (st_ContainerStatuses r) (st_InitContainerStatuses r) (st_EphemeralContainerStatuses r)
    (st_ResourceClaimStatuses r) (st_other r).
Definition PreserveResourceClaimStatusesMutator (local : list PodResourceClaimStatus) (r : PodStatus) : PodStatus :=
  mkPodStatus (st_Phase r) (st_Reason r) (st_Conditions r) (st_PodIP r) (st_PodIPs r) (st_HostIP r) (st_HostIPs r)
    (st_ContainerStatuses r) (st_InitContainerStatuses r) (st_EphemeralContainerStatuses r) local (st_other r).
Definition OpaqueIPTranslationMutator (r : PodStatus) : PodStatus := set_pod_ips r "" (Some []).

Definition add_restarts (restarts : Z) (cs : ContainerStatus) : ContainerStatus :=
  mkContainerStatus (cs_Name cs) (cs_Ready cs) (int32 (cs_RestartCount cs + restarts)) (cs_State cs) (cs_other cs).

(** [LocalPodStatus]; the translator may fail by changing a state, or panic. *)
Definition LocalPodStatus {S} (LiqoNodeIP : string) (remote : PodStatus) (translator : string → S → outcome (string * S))
    (restarts : Z) (mutators : list (PodStatus → PodStatus)) (s : S) : outcome (PodStatus * S) :=
  '(remote, s) ← (if bool_decide (st_PodIP remote = ""%string) then Ret (remote, s)
                  else '(ip, s) ← translator (st_PodIP remote) s; Ret (set_pod_ips remote ip (Some [ip]), s));
  let remote := mkPodStatus (st_Phase remote) (st_Reason remote) (st_Conditions remote) (st_PodIP remote) (st_PodIPs remote)
    LiqoNodeIP (Some [LiqoNodeIP]) (add_restarts restarts <$> st_ContainerStatuses remote)
    (st_InitContainerStatuses remote) (st_EphemeralContainerStatuses remote) (st_ResourceClaimStatuses remote) (st_other remote) in
  Ret (foldl (fun r m => m r) remote mutators, s).

(** [LocalPodOffloadedLabel]: whether the label is missing. *)
Definition LocalPodOffloadedLabel (local : Pod) : bool :=
  negb (bool_decide (p_Labels local !! LocalPodLabelKey = Some LocalPodLabelValue)).
Definition HasRemoteUnavailableLabel (p : Pod) : bool :=
  bool_decide (p_Labels p !! RemoteUnavailableKey = Some RemoteUnavailableValue).
Definition ServiceAccountName (p : Pod) : string :=
  if bool_decide (ps_ServiceAccountName (p_Spec p) = ""%string) then "default"%string else ps_ServiceAccountName (p_Spec p).

(** ** Specification of the remote pod *)

Section forge.
(** The state of the closures the mutators call. *)
Context {S : Type}.
Context (LocalCluster RemoteCluster LiqoNodeName KubernetesServicePort : string) (Sum256 : string → list Z).

(** [RemotePodSpecMutator]. *)
Definition mutator : Type := PodSpec → S → outcome (PodSpec * S).

Definition RemoteTolerations (input : list Toleration) : list Toleration :=
  List.filter (fun t => negb (bool_decide (t_Key t = VirtualNodeTolerationKey))) input.

(** The body of the loop over the sources of a projected volume: [None] when the
    source is removed. *)
Definition convert_source (support : APIServerSupportType) (retriever : option (S → S * string)) (volume : string)
    (source : VolumeProjection) (s : S) : outcome (option VolumeProjection * S) :=
  match vp_ConfigMap source with
  | Some cm =>
    Ret (Some (mkVolumeProjection (Some (mkCmp (RemoteConfigMapName LocalCluster (cp_Name cm)) (cp_Items cm) (cp_Optional cm)))
                 (vp_ServiceAccountToken source) (vp_Secret source) (vp_other source)), s)
  | None =>
    match vp_ServiceAccountToken source with
    | None => Ret (Some source, s)
    | Some token =>
      if bool_decide (support = APIServerSupportDisabled) ||
         (bool_decide (support = APIServerSupportLegacy) && negb (HasPrefix volume ServiceAccountVolumeName))
      then Ret (None, s)
      else
        let secretKey := if bool_decide (support = APIServerSupportTokenAPI)
                         then ServiceAccountTokenKey Sum256 volume (tp_Path token) else "token"%string in
        match retriever with
        | None => Panic
        | Some f => let '(s, name) := f s in
          Ret (Some (mkVolumeProjection None None (Some (mkSp name [mkKeyToPath secretKey (tp_Path token) None] None))
                 (vp_other source)), s)
        end
    end
  end.

(** The loop: [n] iterations are left, [j] is the index before [offset] is taken
    off; the slice shrinks as it goes. *)
Fixpoint sources_loop (support : APIServerSupportType) (retriever : option (S → S * string)) (volume : string)
    (n j offset : nat) (sources : list VolumeProjection) (s : S) : outcome (list VolumeProjection * S) :=
  match n with
  | O => Ret (sources, s)
  | Datatypes.S n =>
    let i := (j - offset)%nat in
    match sources !! i with
    | None => Panic
    | Some source =>
      '(r, s) ← convert_source support retriever volume source s;
      match r with
      | None => sources_loop support retriever volume n (Datatypes.S j) (Datatypes.S offset)
                  (take i sources ++ drop (Datatypes.S i) sources) s
      | Some x => sources_loop support retriever volume n (Datatypes.S j) offset (<[i := x]> sources) s
      end
    end
  end.

Fixpoint RemoteVolumes (support : APIServerSupportType) (retriever : option (S → S * string)) (volumes : list Volume) (s : S) :
    outcome (list Volume * S) :=
  match volumes with
  | [] => Ret ([], s)
  | v :: volumes =>
    '(v, s) ← match v_Projected v with
              | None => Ret (v, s)
              | Some pj =>
                '(l, s) ← sources_loop support retriever (v_Name v) (List.length (pj_Sources pj)) 0 0 (pj_Sources pj) s;
                Ret (mkVolume (v_Name v) (Some (mkProjected l (pj_other pj))) (v_other v), s)
              end;
    '(volumes, s) ← RemoteVolumes support retriever volumes s;
    Ret (v :: volumes, s)
  end.

Definition has_colon (s : string) : bool := strings_Contains s ":".
Definition JoinHostPort (host port : string) : string :=
  if has_colon host then ("[" ++ host ++ "]:" ++ port)%string else (host ++ ":" ++ port)%string.

Definition fix_env (saName : string) (e : EnvVar) : EnvVar :=
  match e_ValueFrom e with
  | Some src => if bool_decide (FieldRef src = Some "spec.serviceAccountName"%string)
                then mkEnvVar (e_Name e) saName None else e
  | None => e
  end.
Definition RemoteContainerEnvVariablesAPIServerSupport (saName host port : string) (envs : list EnvVar) : list EnvVar :=
  let custom := negb (bool_decide (host = ""%string)) && negb (bool_decide (port = ""%string)) in
  let service := if custom then host else KubernetesAPIService in
  let sport := if custom then port else KubernetesServicePort in
  let hostport := ("tcp://" ++ JoinHostPort service sport)%string in
  let env n v := mkEnvVar n v None in
  (fix_env saName <$> envs) ++
  [ env "KUBERNETES_SERVICE_HOST"%string service; env "KUBERNETES_SERVICE_PORT"%string sport;
    env "KUBERNETES_PORT"%string hostport; env ("KUBERNETES_PORT_" ++ sport ++ "_TCP")%string hostport;
    env ("KUBERNETES_PORT_" ++ sport ++ "_TCP_PROTO")%string "tcp"%string;
    env ("KUBERNETES_PORT_" ++ sport ++ "_TCP_ADDR")%string service;
    env ("KUBERNETES_PORT_" ++ sport ++ "_TCP_PORT")%string sport ].
Definition RemoteContainersAPIServerSupport (saName host port : string) (l : list Container) : list Container :=
  (fun c => mkContainer (c_Name c) (c_Image c) (RemoteContainerEnvVariablesAPIServerSupport saName host port (c_Env c))
              (c_Requests c) (c_Limits c) (c_other c)) <$> l.
Definition RemoteHostAliasesAPIServerSupport (aliases : list HostAlias) (addresses : list string) : list HostAlias :=
  aliases ++ ((fun a => mkHostAlias a [KubernetesAPIService; (KubernetesAPIService ++ ".svc")%string]) <$>
              List.filter (fun a => negb (bool_decide (a = ""%string))) addresses).

(** *** Mutators *)

(** The annotation of the pod overrides the default. *)
Definition getAPIServerSupport (support : APIServerSupportType) (annotations : labels) : APIServerSupportType :=
  match annotations !! APIServerSupportAnnotation with
  | None => support
  | Some v => if bool_decide (v = "disabled"%string) then APIServerSupportDisabled
              else if bool_decide (v = "remote"%string) then APIServerSupportRemote
              else support
  end.

Definition APIServerSupportMutator (support : APIServerSupportType) (annotations : labels) (saName : string)
    (retriever : option (S → S * string)) (getIPs : S → S * list string) (host port : string) : mutator := fun remote s =>
  let support := getAPIServerSupport support annotations in
  '(remote, s) ← (if bool_decide (support = APIServerSupportRemote) then Ret (remote, s)
                  else '(v, s) ← RemoteVolumes support retriever (ps_Volumes remote) s; Ret (set_volumes remote v, s));
  if bool_decide (support = APIServerSupportDisabled) || bool_decide (support = APIServerSupportRemote) then Ret (remote, s)
  else
    let remote := set_containers remote (RemoteContainersAPIServerSupport saName host port (ps_Containers remote))
                    (RemoteContainersAPIServerSupport saName host port (ps_InitContainers remote)) in
    if bool_decide (host = ""%string) && bool_decide (port = ""%string) then
      let '(s, ips) := getIPs s in
      Ret (set_aliases remote (RemoteHostAliasesAPIServerSupport (ps_HostAliases remote) ips), s)
    else Ret (remote, s).

(** The mutators that call no closure. *)
Definition pure (f : PodSpec → PodSpec) : mutator := fun r s => Ret (f r, s).

Definition ServiceAccountMutator (support : APIServerSupportType) (annotations : labels) (r : PodSpec) : PodSpec :=
  match getAPIServerSupport support annotations with
  | APIServerSupportRemote =>
    set_service_account r (default (ps_ServiceAccountName r) (annotations !! RemoteServiceAccountNameAnnotation)) (Some true)
  | _ => set_service_account r "" (ps_Automount r)
  end.

Definition resolved_claims (statuses : list PodResourceClaimStatus) : gmap string string :=
  foldl (fun m x => match rs_ResourceClaimName x with Some n => <[rs_Name x := n]> m | None => m end) ∅ statuses.
Definition DRAClaimRewriteMutator (statuses : list PodResourceClaimStatus) (r : PodSpec) : PodSpec :=
  set_claims r ((fun rc => match rc_TemplateName rc, resolved_claims statuses !! rc_Name rc with
                           | Some _, Some name => mkClaim (rc_Name rc) (Some name) None
                           | _, _ => rc
                           end) <$> ps_ResourceClaims r).
(** [CheckDRAClaimStatusesReady]: a status without a name counts as resolved. *)
Definition CheckDRAClaimStatusesReady (p : Pod) : bool :=
  forallb (fun rc => bool_decide (rc_TemplateName rc = None) ||
                     existsb (fun x => bool_decide (rs_Name x = rc_Name rc)) (st_ResourceClaimStatuses (p_Status p)))
    (ps_ResourceClaims (p_Spec p)).

Definition AntiAffinityPropagateMutator (affinity : option Affinity) (r : PodSpec) : PodSpec :=
  match affinity with
  | Some a => match af_AntiPod a with
              | Some anti => set_affinity r (Some (mkAffinity None None (Some anti)))
              | None => r
              end
  | None => r
  end.
Definition hostname_term (l : labels) : PodAffinityTerm := mkTerm LabelHostname (Some l) None.
Definition AntiAffinitySoftMutator (l : labels) (r : PodSpec) : PodSpec :=
  set_affinity r (Some (mkAffinity None None (Some (mkAntiAffinity [] [(1, hostname_term l)])))).
Definition AntiAffinityHardMutator (l : labels) (r : PodSpec) : PodSpec :=
  set_affinity r (Some (mkAffinity None None (Some (mkAntiAffinity [hostname_term l] [])))).

Definition NodeSelectorMutator (sel : labels) (r : PodSpec) : PodSpec := set_node_selector r (sel ∪ ps_NodeSelector r).
Definition TolerationsMutator (l : list Toleration) (r : PodSpec) : PodSpec := set_tolerations r (ps_Tolerations r ++ l).
Definition AffinityMutator (affinity : option (option NodeAffinity)) (r : PodSpec) : PodSpec :=
  match affinity with
  | None | Some None => r
  | Some (Some na) =>
    match ps_Affinity r with
    | None => set_affinity r (Some (mkAffinity (Some na) None None))
    | Some a =>
      match af_Node a with
      | None => set_affinity r (Some (mkAffinity (Some na) (af_Pod a) (af_AntiPod a)))
      | Some old =>
        let required := match na_Required na, na_Required old with
                        | None, o => o
                        | Some x, None => Some x
                        | Some x, Some y => Some (y ++ x)
                        end in
        set_affinity r (Some (mkAffinity (Some (mkNodeAffinity required (na_Preferred old ++ na_Preferred na)))
                                (af_Pod a) (af_AntiPod a)))
      end
    end
  end.

Definition FilterAntiAffinityLabels (l : labels) (whitelist : string) : labels :=
  if bool_decide (whitelist = ""%string)
  then Filter l (FilterBlacklist [ControllerRevisionHashLabelKey; DefaultDeploymentUniqueLabelKey; StatefulSetPodNameLabel])
  else Filter l (FilterWhitelist (Split ","%char whitelist)).

Definition strip_cast (c : Container) : Container :=
  let f (m : gmap string json) := Filter m (fun k => negb (strings_Contains k "cast.ai/")) in
  mkContainer (c_Name c) (c_Image c) (c_Env c) (f (c_Requests c)) (f (c_Limits c)) (c_other c).
Definition CastResourcesMutator (r : PodSpec) : PodSpec :=
  set_containers r (strip_cast <$> ps_Containers r) (strip_cast <$> ps_InitContainers r).

Definition usable_class (o : option string) : option string :=
  match o with
  | Some v => if bool_decide (v = ""%string) || bool_decide (v = LiqoRuntimeClassName) then None else Some v
  | None => None
  end.
Definition RuntimeClassNameMutator (local : Pod) (opts : option ForgingOpts) (r : PodSpec) : PodSpec :=
  match p_Annotations local !! RemoteRuntimeClassNameAnnotKey with
  | Some (String _ _ as v) => set_runtime_class r (Some v)
  | _ =>
    match usable_class (ps_RuntimeClassName (p_Spec local)) with
    | Some v => set_runtime_class r (Some v)
    | None => match usable_class (o ← opts; fo_RuntimeClassName o) with
              | Some v => set_runtime_class r (Some v)
              | None => r
              end
    end
  end.

(** *** Forging *)

Fixpoint run_mutators (l : list mutator) (r : PodSpec) (s : S) : outcome (PodSpec * S) :=
  match l with
  | [] => Ret (r, s)
  | m :: l => '(r, s) ← m r s; run_mutators l r s
  end.

Definition RemotePodSpec (creation : bool) (local remote : PodSpec) (mutators : list mutator) (s : S) : outcome (PodSpec * S) :=
  if negb creation then Ret (remote, s)
  else run_mutators mutators
    (mkPodSpec (ps_Containers local) (ps_InitContainers local) (ps_ResourceClaims local) (RemoteTolerations (ps_Tolerations local))
       (ps_Volumes local) (ps_HostAliases local) (ps_ServiceAccountName local) (Some false) false
       (ps_Affinity remote) (ps_NodeSelector remote) (ps_RuntimeClassName remote) (ps_copied local) (ps_other remote)) s.

Definition ReflectionLabels : labels :=
  {[ LiqoOriginClusterIDKey := LocalCluster; LiqoDestinationClusterIDKey := RemoteCluster ]}.
(** [IsReflected] on the labels of an object. *)
Definition IsReflected (l : labels) : bool :=
  bool_decide (l !! LiqoOriginClusterIDKey = Some LocalCluster) &&
  bool_decide (l !! LiqoDestinationClusterIDKey = Some RemoteCluster).
Definition FilterNotReflected (m : labels) (blackListedKeys : list string) : labels := Filter m (FilterBlacklist blackListedKeys).

(** The labels of the local pod that are reflected. *)
Definition filtered_labels (local : Pod) (opts : ForgingOpts) : labels :=
  FilterNotReflected (<[LiqoOriginClusterNodeName := LiqoNodeName]> (delete LocalPodLabelKey (p_Labels local))) (LabelsNotReflected opts).

Definition affinity_preset (local : Pod) (opts : ForgingOpts) : list mutator :=
  let l := FilterAntiAffinityLabels (filtered_labels local opts) (default ""%string (p_Annotations local !! PodAntiAffinityLabelsKey)) in
  match p_Annotations local !! PodAntiAffinityPresetKey with
  | Some v => if bool_decide (v = "propagate"%string) then [pure (AntiAffinityPropagateMutator (ps_Affinity (p_Spec local)))]
              else if bool_decide (v = "soft"%string) then [pure (AntiAffinitySoftMutator l)]
              else if bool_decide (v = "hard"%string) then [pure (AntiAffinityHardMutator l)]
              else []
  | None => []
  end.

(** [RemoteShadowPod]; [forgingOpts] is dereferenced. *)
Definition RemoteShadowPod (local : Pod) (remote : option ShadowPod) (targetNamespace : string) (opts : option ForgingOpts)
    (mutators : list mutator) (s : S) : outcome (ShadowPod * S) :=
  match opts with
  | None => Panic
  | Some o =>
    let creation := match remote with None => true | Some _ => false end in
    let base := default (mkShadowPod (p_Name local) targetNamespace "" ∅ ∅ false empty_spec "") remote in
    '(spec, s) ← RemotePodSpec creation (p_Spec local) (sh_Spec base)
       (mutators ++ affinity_preset local o ++ [pure (RuntimeClassNameMutator local opts); pure CastResourcesMutator]) s;
    Ret (mkShadowPod (sh_Name base) (sh_Namespace base) (sh_UID base) (ReflectionLabels ∪ filtered_labels local o)
           (FilterNotReflected (p_Annotations local) (AnnotationsNotReflected o)) (sh_Deleting base) spec "", s)
  end.
End forge.

(** ** What the forged pods are

    The in-place loop over the sources of a projected volume computes a plain map
    and filter; forged pods are recognised as reflected; names of config maps go
    back and forth; what the forged specification keeps of the local one. *)

(** ** The loop over the sources *)

Section sources.
Context {S : Type} (LocalCluster : string) (Sum256 : string → list Z).
Context (support : APIServerSupportType) (retriever : option (S → S * string)) (volume : string).
Notation convert_source := (convert_source LocalCluster Sum256 support retriever volume).
Notation sources_loop := (sources_loop LocalCluster Sum256 support retriever volume).

(** The reference: convert each source, keep what is left. *)
Fixpoint convert_sources (l : list VolumeProjection) (s : S) : outcome (list VolumeProjection * S) :=
  match l with
  | [] => Ret ([], s)
  | x :: l =>
    '(r, s) ← convert_source x s;
    '(l, s) ← convert_sources l s;
    Ret (match r with Some y => y :: l | None => l end, s)
  end.

Lemma sources_loop_from pre l offset s :
  sources_loop (List.length l) (List.length pre + offset) offset (pre ++ l) s =
  ('(l, s) ← convert_sources l s; Ret (pre ++ l, s)).
Proof.
  revert pre offset s. induction l as [|x l IH]; intros pre offset s; simpl; [done|].
  replace (List.length pre + offset - offset)%nat with (List.length pre) by lia.
  rewrite list_lookup_middle by done.
  destruct (convert_source x s) as [[[y|] s']| |]; [| |done..]; simpl.
  - rewrite insert_app_r_alt, Nat.sub_diag by lia. simpl.
    specialize (IH (pre ++ [y]) offset s'). rewrite length_app in IH. simpl in IH.
    replace (Datatypes.S (List.length pre + offset)) with (List.length pre + 1 + offset)%nat by lia.
    rewrite <-(assoc_L (++)) in IH. simpl in IH. rewrite IH.
    destruct (convert_sources l s') as [[l' s'']| |]; [|done..]. simpl. by rewrite <-(assoc_L (++)).
  - assert (drop (Datatypes.S (List.length pre)) (pre ++ x :: l) = l) as ->.
    { rewrite <-Nat.add_1_r, drop_app_add. done. }
    rewrite take_app_length. specialize (IH pre (Datatypes.S offset) s').
    replace (Datatypes.S (List.length pre + offset)) with (List.length pre + Datatypes.S offset)%nat by lia.
    rewrite IH. by destruct (convert_sources l s') as [[l' s'']| |].
Qed.

Lemma sources_loop_spec l s : sources_loop (List.length l) 0 0 l s = convert_sources l s.
Proof.
  etrans; [apply (sources_loop_from [] l 0 s)|]. by destruct (convert_sources l s) as [[l' s'']| |].
Qed.
End sources.

Section volumes.
Context {S : Type} (LocalCluster : string) (Sum256 : string → list Z).
Context (support : APIServerSupportType) (retriever : option (S → S * string)).

(** Every projected volume with its sources converted. *)
Fixpoint convert_volumes (volumes : list Volume) (s : S) : outcome (list Volume * S) :=
  match volumes with
  | [] => Ret ([], s)
  | v :: volumes =>
    '(v, s) ← match v_Projected v with
              | None => Ret (v, s)
              | Some pj =>
                '(l, s) ← convert_sources LocalCluster Sum256 support retriever (v_Name v) (pj_Sources pj) s;
                Ret (mkVolume (v_Name v) (Some (mkProjected l (pj_other pj))) (v_other v), s)
              end;
    '(volumes, s) ← convert_volumes volumes s;
    Ret (v :: volumes, s)
  end.

Lemma RemoteVolumes_convert volumes s :
  RemoteVolumes LocalCluster Sum256 support retriever volumes s = convert_volumes volumes s.
Proof.
  revert s. induction volumes as [|v volumes IH]; intros s; simpl; [done|].
  destruct (v_Projected v) as [pj|]; simpl; [|by rewrite IH]. rewrite sources_loop_spec.
  destruct (convert_sources _ _ _ _ _ _ _) as [[l s']| |]; simpl; [|done..]. by rewrite IH.
Qed.

(** A source that is kept refers to no token any more. *)
Definition tokenless (x : VolumeProjection) : Prop := vp_ConfigMap x = None → vp_ServiceAccountToken x = None.
Definition volume_tokenless (v : Volume) : Prop :=
  match v_Projected v with Some pj => Forall tokenless (pj_Sources pj) | None => True end.

(** The closure is not nil when it is called. *)
Definition callable : Prop := is_Some retriever ∨ support = APIServerSupportDisabled.

Lemma convert_source_ok volume x s : callable →
  ∃ r s', convert_source LocalCluster Sum256 support retriever volume x s = Ret (r, s') ∧ (∀ y, r = Some y → tokenless y).
Proof.
  intros Hc. unfold convert_source. destruct (vp_ConfigMap x) as [cm|] eqn:Ecm.
  { eexists _, _. split; [done|]. by intros y [= <-]. }
  destruct (vp_ServiceAccountToken x) as [t|] eqn:Et.
  2:{ eexists _, _. split; [done|]. by intros y [= <-] _. }
  destruct (bool_decide (support = APIServerSupportDisabled)) eqn:Ed; simpl.
  { eexists _, _. split; [done|]. done. }
  apply bool_decide_eq_false in Ed. destruct Hc as [[f ->]|?]; [|done].
  destruct (bool_decide (support = APIServerSupportLegacy) && _); [eexists _, _; split; done|].
  destruct (f s) as [s' n]. eexists _, _. split; [done|]. by intros y [= <-].
Qed.

Lemma convert_sources_ok volume l s : callable →
  ∃ l' s', convert_sources LocalCluster Sum256 support retriever volume l s = Ret (l', s') ∧ Forall tokenless l'.
Proof.
  intros Hc. revert s. induction l as [|x l IH]; intros s; simpl; [by eexists _, _|].
  destruct (convert_source_ok volume x s Hc) as (r & s1 & -> & Hr). simpl.
  destruct (IH s1) as (l' & s2 & -> & Hl). simpl. eexists _, _. split; [done|].
  destruct r as [y|]; [|done]. constructor; [by apply Hr|done].
Qed.

Lemma convert_volumes_ok volumes s : callable →
  ∃ vs s', convert_volumes volumes s = Ret (vs, s') ∧ v_Name <$> vs = v_Name <$> volumes ∧ Forall volume_tokenless vs.
Proof.
  intros Hc. revert s. induction volumes as [|v volumes IH]; intros s; simpl; [by eexists _, _|].
  destruct (v_Projected v) as [pj|] eqn:Ev; simpl.
  - destruct (convert_sources_ok (v_Name v) (pj_Sources pj) s Hc) as (l & s1 & -> & Hl). simpl.
    destruct (IH s1) as (vs & s2 & -> & Hn & Hf). simpl. eexists _, _. split; [done|]. simpl.
    split; [by f_equal|by constructor].
  - destruct (IH s) as (vs & s2 & -> & Hn & Hf). simpl. eexists _, _. split; [done|]. simpl.
    split; [by f_equal|]. constructor; [|done]. unfold volume_tokenless. by rewrite Ev.
Qed.

(** What the closure keeps is kept. *)
Section invariant.
Context (J : S → Prop) (HJ : ∀ f s, retriever = Some f → J s → J (fst (f s))).

Lemma convert_source_inv volume x s r s' : J s →
  convert_source LocalCluster Sum256 support retriever volume x s = Ret (r, s') → J s'.
Proof.
  intros Hs. unfold convert_source. destruct (vp_ConfigMap x); [by intros [= _ <-]|].
  destruct (vp_ServiceAccountToken x); [|by intros [= _ <-]].
  destruct (_ || _); [by intros [= _ <-]|]. destruct retriever as [f|]; [|done].
  specialize (HJ f s eq_refl Hs). destruct (f s). by intros [= _ <-].
Qed.

Lemma convert_sources_inv volume l s l' s' : J s →
  convert_sources LocalCluster Sum256 support retriever volume l s = Ret (l', s') → J s'.
Proof.
  revert s l'. induction l as [|x l IH]; intros s l' Hs; simpl; [by intros [= _ <-]|].
  destruct (convert_source _ _ _ _ _ x s) as [[r s2]| |] eqn:E; simpl; [|done..].
  destruct (convert_sources _ _ _ _ _ l s2) as [[l2 s3]| |] eqn:E2; simpl; [|done..].
  intros [= _ <-]. eapply IH; [|done]. by eapply convert_source_inv.
Qed.

Lemma convert_volumes_inv volumes s vs s' : J s → convert_volumes volumes s = Ret (vs, s') → J s'.
Proof.
  revert s vs. induction volumes as [|v volumes IH]; intros s vs Hs; simpl; [by intros [= _ <-]|].
  destruct (v_Projected v) as [pj|]; simpl.
  - destruct (convert_sources _ _ _ _ _ (pj_Sources pj) s) as [[l s1]| |] eqn:E; simpl; [|done..].
    destruct (convert_volumes volumes s1) as [[vs1 s2]| |] eqn:E2; simpl; [|done..]. intros [= _ <-].
    eapply IH; [|done]. by eapply convert_sources_inv.
  - destruct (convert_volumes volumes s) as [[vs1 s2]| |] eqn:E2; simpl; [|done..]. intros [= _ <-]. by eapply IH.
Qed.
End invariant.

(** The volumes of the remote pod.  The loop that removes sources from the slice it
    ranges over computes the conversion of every source in order, without going out of
    range; when the secret of the service account can be asked for, or support is
    disabled, it returns, with the same volumes in the same order, none of which
    refers to a token of the local service account any more. *)
Theorem remote_volumes_exact (volumes : list Volume) (s : S) :
  RemoteVolumes LocalCluster Sum256 support retriever volumes s = convert_volumes volumes s ∧
  (callable → ∃ vs s', RemoteVolumes LocalCluster Sum256 support retriever volumes s = Ret (vs, s') ∧
     v_Name <$> vs = v_Name <$> volumes ∧ Forall volume_tokenless vs).
Proof.
  rewrite RemoteVolumes_convert. split; [done|]. apply convert_volumes_ok.
Qed.
End volumes.

(** ** Names and labels *)

Lemma string_length_app a b : String.length (a ++ b)%string = (String.length a + String.length b)%nat.
Proof. induction a as [|c a IH]; simpl; [done|]. by rewrite IH. Qed.

Lemma remote_root_longer c : (String.length RootCAConfigMapName < String.length (RemoteConfigMapName c RootCAConfigMapName))%nat.
Proof.
  unfold RemoteConfigMapName. rewrite bool_decide_eq_true_2 by done.
  destruct (last_char _) as [x|]; [destruct (negb _)|]; rewrite ?string_length_app; simpl; lia.
Qed.

(** The names of config maps.  Going to the remote name and back is the identity but
    for a local config map that already has the remote name of the root CA, and
    the remote name of the root CA is never the one the remote cluster uses itself. *)
Theorem configmap_name_roundtrip (c n : string) :
  (LocalConfigMapName c (RemoteConfigMapName c n) = n ↔ n ≠ RemoteConfigMapName c RootCAConfigMapName) ∧
  RemoteConfigMapName c RootCAConfigMapName ≠ RootCAConfigMapName.
Proof.
  pose proof (remote_root_longer c) as Hl.
  assert (Hne : RemoteConfigMapName c RootCAConfigMapName ≠ RootCAConfigMapName) by (intros E; rewrite E in Hl; lia).
  split; [|done]. unfold LocalConfigMapName.
  destruct (decide (n = RootCAConfigMapName)) as [->|Hn].
  - rewrite bool_decide_eq_true_2 by done. split; [by intros _ ?|done].
  - assert (RemoteConfigMapName c n = n) as -> by (unfold RemoteConfigMapName; by rewrite bool_decide_eq_false_2).
    destruct (decide (n = RemoteConfigMapName c RootCAConfigMapName)) as [->|?].
    + rewrite bool_decide_eq_true_2 by done. split; [|done]. intros E. by rewrite E in Hne.
    + by rewrite bool_decide_eq_false_2.
Qed.

Lemma IsReflected_labels local remote l : IsReflected local remote (ReflectionLabels local remote ∪ l) = true.
Proof.
  unfold IsReflected, ReflectionLabels.
  rewrite andb_true_iff, !bool_decide_eq_true. split; apply lookup_union_Some_l.
  - by rewrite lookup_insert_eq.
  - by rewrite lookup_insert_ne, lookup_singleton_eq.
Qed.
