(* ===== verification/VkPod.v ===== *)
(** * VkPod: reflection of pods by the virtual kubelet
      (src/pkg/virtualKubelet/reflection/workload/podns.go)

    [Handle] reads the local pod, the remote pod and the remote shadow pod from
    caches and writes through the clients of the two clusters.  What it knows of a
    pod between two calls is a [PodInfo], shared through a map.  The calls of the
    clients are recorded, and answered by an arbitrary function of the history. *)

From S2P Require Export Remap VkForge.
Local Open Scope Z_scope.

#[export] Instance ContainerState_eq_dec : EqDecision ContainerState.
Proof. solve_decision. Defined.
#[export] Instance ContainerStatus_eq_dec : EqDecision ContainerStatus.
Proof. solve_decision. Defined.
#[export] Instance PodCondition_eq_dec : EqDecision PodCondition.
Proof. solve_decision. Defined.
#[export] Instance PodResourceClaimStatus_eq_dec : EqDecision PodResourceClaimStatus.
Proof. solve_decision. Defined.
#[export] Instance PodStatus_eq_dec : EqDecision PodStatus.
Proof. solve_decision. Defined.

Record PodInfo := mkPodInfo {
  PreventCreationUntilSeen : bool; Restarts : Z; RemoteUID : string; ServiceAccountSecret : string;
  OriginalIP : string; TranslatedIP : string
}.
Definition new_info : PodInfo := mkPodInfo false 0 "" "" "" "".
Definition set_prevent (i : PodInfo) (b : bool) : PodInfo :=
  mkPodInfo b (Restarts i) (RemoteUID i) (ServiceAccountSecret i) (OriginalIP i) (TranslatedIP i).
Definition set_secret (i : PodInfo) (n : string) : PodInfo :=
  mkPodInfo (PreventCreationUntilSeen i) (Restarts i) (RemoteUID i) n (OriginalIP i) (TranslatedIP i).
Definition set_restarts (i : PodInfo) (n : Z) (uid : string) : PodInfo :=
  mkPodInfo (PreventCreationUntilSeen i) n uid (ServiceAccountSecret i) (OriginalIP i) (TranslatedIP i).
Definition set_ips (i : PodInfo) (o t : string) : PodInfo :=
  mkPodInfo (PreventCreationUntilSeen i) (Restarts i) (RemoteUID i) (ServiceAccountSecret i) o t.

Record PodReflectorConfig := mkConfig {
  APIServerSupport : APIServerSupportType; NetConfiguration : option Configuration;
  HomeAPIServerHost : string; HomeAPIServerPort : string; DisableIPReflection : bool
}.

(** Deletions carry the UID as a precondition. *)
Inductive call :=
| DeleteLocalPod (name uid : string)
| DeleteShadowPod (name uid : string)
| CreateShadowPod (s : ShadowPod)
| UpdateShadowPod (s : ShadowPod)
| ApplyOffloadedLabel (name : string)
| UpdateLocalStatus (name : string) (st : PodStatus).

Record pworld := mkPworld { pods : gmap string PodInfo; calls : list call }.

(** ** Comparison of specifications *)

(** [AreContainersEqual]: the first container of the same name decides. *)
Definition same_image (updated : list Container) (c : Container) : bool :=
  match List.find (fun u => bool_decide (c_Name c = c_Name u)) updated with
  | Some u => bool_decide (c_Image c = c_Image u)
  | None => false
  end.
Definition AreContainersEqual (previous updated : list Container) : bool :=
  (List.length previous =? List.length updated)%nat && forallb (same_image updated) previous.
Definition IsPodSpecEqual (previous updated : PodSpec) : bool :=
  AreContainersEqual (ps_Containers previous) (ps_Containers updated) &&
  AreContainersEqual (ps_InitContainers previous) (ps_InitContainers updated) &&
  bool_decide (cf_ActiveDeadlineSeconds (ps_copied previous) = cf_ActiveDeadlineSeconds (ps_copied updated)) &&
  (List.length (ps_Tolerations previous) =? List.length (ps_Tolerations updated))%nat.
Definition ShouldUpdateShadowPod (shadow target : ShadowPod) : bool :=
  negb (bool_decide (sh_Labels shadow = sh_Labels target)) ||
  negb (bool_decide (sh_Annotations shadow = sh_Annotations target)) ||
  negb (IsPodSpecEqual (sh_Spec shadow) (sh_Spec target)).

Section reflector.
Context (LocalCluster RemoteCluster LiqoNodeName LiqoNodeIP KubernetesServicePort : string) (Sum256 : string → list Z).
Context (config : PodReflectorConfig) (opts : option ForgingOpts) (remoteNamespace : string).
(** The names of the remote secrets of a service account, and the answer of
    [kubernetesServiceIPGetter]. *)
Context (secrets : string → list string) (serviceIPs : list string * option kerr).
(** The answers of the API servers, and the clock. *)
Context (answer : list call → call → option kerr) (now : nat → Z).

Notation P := (K pworld).

Definition issue (c : call) : P () := fun w =>
  Ret (mkPworld (pods w) (calls w ++ [c]), match answer (calls w) c with None => Ok () | Some e => Err e end).
(** [RetrievePodInfo]: the entry is created when it is missing. *)
Definition RetrievePodInfo (po : string) : P PodInfo := fun w =>
  let i := default new_info (pods w !! po) in Ret (mkPworld (<[po := i]> (pods w)) (calls w), Ok i).
Definition store_info (po : string) (i : PodInfo) : P () := fun w => Ret (mkPworld (<[po := i]> (pods w)) (calls w), Ok ()).
Definition ForgetPodInfo (po : string) : P () := fun w => Ret (mkPworld (delete po (pods w)) (calls w), Ok ()).
Definition lift {A} (o : outcome A) : P A := fun w => a ← o; Ret (w, Ok a).
(** Errors "not found" are taken as success. *)
Definition ignore_not_found (m : P ()) : P () :=
  r ← attempt m; match r with Ok _ | Err NotFound => mret () | Err e => fail e end.
Definition DeleteRemote (name uid : string) : P () := ignore_not_found (issue (DeleteShadowPod name uid)).

(** ** Service accounts and addresses *)

Definition RetrieveLegacyServiceAccountSecretName (info : PodInfo) (saName : string) : PodInfo * string * option kerr :=
  if negb (bool_decide (ServiceAccountSecret info = ""%string)) then (info, ServiceAccountSecret info, None)
  else match secrets saName with
       | [n] => (set_secret info n, n, None)
       | _ => (info, ""%string, Some OtherErr)
       end.

Definition MapPodIP (cfg : Configuration) (info : PodInfo) (original : string) : outcome (PodInfo * result kerr string) :=
  if bool_decide (OriginalIP info = original) then Ret (info, Ok (TranslatedIP info))
  else
    r ← MapAddressWithConfiguration (Some cfg) original;
    match r with
    | Err _ => Ret (info, Err OtherErr)
    | Ok t => Ret (set_ips info original t, Ok t)
    end.

Definition InferAdditionalRestarts (local remote : PodStatus) : Z :=
  match st_ContainerStatuses local with
  | [] => 0
  | status :: _ =>
    match List.find (fun c => bool_decide (cs_Name status = cs_Name c)) (st_ContainerStatuses remote) with
    | Some c => let difference := int32 (cs_RestartCount status - cs_RestartCount c) in
                if 0 <? difference then difference else 0
    | None => 0
    end
  end.

(** ** Forging *)

(** The state of the closures: the information on the pod and their errors. *)
Record fstate := mkFstate { fs_info : PodInfo; fs_saerr : option kerr; fs_kserr : option kerr }.

Definition saSecretRetriever (local : Pod) : option (fstate → fstate * string) :=
  match APIServerSupport config with
  | APIServerSupportLegacy => Some (fun s =>
      let '(i, n, e) := RetrieveLegacyServiceAccountSecretName (fs_info s) (ServiceAccountName local) in
      (mkFstate i e (fs_kserr s), n))
  | APIServerSupportTokenAPI => Some (fun s => (s, ServiceAccountSecretName (p_Name local)))
  | _ => None
  end.
Definition ipsGetter (s : fstate) : fstate * list string :=
  match NetConfiguration config with
  | None => (s, [])
  | Some _ => (mkFstate (fs_info s) (fs_saerr s) (snd serviceIPs), fst serviceIPs)
  end.

Definition shadow_mutators (local : Pod) : list (mutator (S := fstate)) :=
  [APIServerSupportMutator LocalCluster KubernetesServicePort Sum256 (APIServerSupport config) (p_Annotations local) (ServiceAccountName local)
     (saSecretRetriever local) ipsGetter (HomeAPIServerHost config) (HomeAPIServerPort config);
   pure (ServiceAccountMutator (APIServerSupport config) (p_Annotations local));
   pure (DRAClaimRewriteMutator (st_ResourceClaimStatuses (p_Status local)))] ++
  match opts with
  | None => []
  | Some o => [pure (NodeSelectorMutator (fo_NodeSelector o)); pure (TolerationsMutator (fo_Tolerations o));
               pure (AffinityMutator (fo_Affinity o))]
  end.

(** [ForgeShadowPod]: the information on the pod changes even when it fails. *)
Definition ForgeShadowPod (local : Pod) (shadow : option ShadowPod) (info : PodInfo) : outcome (PodInfo * result kerr ShadowPod) :=
  if negb (CheckDRAClaimStatusesReady local) then Ret (info, Err OtherErr)
  else
    '(target, s) ← RemoteShadowPod LocalCluster RemoteCluster LiqoNodeName local shadow remoteNamespace opts
                     (shadow_mutators local) (mkFstate info None None);
    Ret (fs_info s, match fs_saerr s, fs_kserr s with
                    | Some e, _ => Err e
                    | None, Some e => Err e
                    | None, None => Ok target
                    end).

(** ** Status *)

(** The Ready condition of a pod whose remote cluster is unavailable. *)
Fixpoint not_ready (l : list PodCondition) : list PodCondition :=
  match l with
  | [] => [mkCondition PodReady ConditionFalse "" (now 0)]
  | c :: l => if bool_decide (pc_Type c = PodReady)
              then mkCondition (pc_Type c) ConditionFalse (pc_Reason c) (pc_Time c) :: l
              else c :: not_ready l
  end.
Definition set_conditions (r : PodStatus) (l : list PodCondition) : PodStatus :=
  mkPodStatus (st_Phase r) (st_Reason r) l (st_PodIP r) (st_PodIPs r) (st_HostIP r) (st_HostIPs r)
    (st_ContainerStatuses r) (st_InitContainerStatuses r) (st_EphemeralContainerStatuses r)
    (st_ResourceClaimStatuses r) (st_other r).

(** The translator, with the error it leaves behind. *)
Definition translator (original : string) (s : PodInfo * option kerr) : outcome (string * (PodInfo * option kerr)) :=
  match NetConfiguration config with
  | None => Ret (original, s)
  | Some cfg =>
    '(i, r) ← MapPodIP cfg (fst s) original;
    Ret (match r with Ok t => (t, (i, None)) | Err e => (""%string, (i, Some e)) end)
  end.

Definition status_mutators (local : Pod) : list (PodStatus → PodStatus) :=
  PreserveResourceClaimStatusesMutator (st_ResourceClaimStatuses (p_Status local)) ::
  (if DisableIPReflection config then [OpaqueIPTranslationMutator] else []).

Definition count_restarts (local remote : Pod) (info : PodInfo) : PodInfo :=
  if bool_decide (RemoteUID info = p_UID remote) then info
  else set_restarts info
    (if bool_decide (RemoteUID info = ""%string) then InferAdditionalRestarts (p_Status local) (p_Status remote)
     else int32 (Restarts info + 1)) (p_UID remote).

Definition update_status (name : string) (local : Pod) (st : PodStatus) : P () :=
  if bool_decide (p_Status local = st) then mret () else issue (UpdateLocalStatus name st).

Definition HandleStatus (name : string) (local : Pod) (remote : option Pod) (shadow : option ShadowPod) (info : PodInfo) : P () :=
  match remote with
  | None =>
    match shadow with
    | None => mret ()
    | Some sh =>
      if bool_decide (sh_Phase sh = PodSucceeded) || bool_decide (sh_Phase sh = PodFailed)
      then update_status name local (LocalRejectedPodStatus now (p_Status local) (sh_Phase sh) RemotePodTerminatedReason)
      else mret ()
    end
  | Some rem =>
    let info := count_restarts local rem info in
    '(st, (info, terr)) ← lift (LocalPodStatus LiqoNodeIP (p_Status rem) translator (Restarts info) (status_mutators local) (info, None));
    _ ← store_info name info;
    match terr with
    | Some e => fail e
    | None =>
      let st := if HasRemoteUnavailableLabel local then set_conditions st (not_ready (st_Conditions st)) else st in
      update_status name local st
    end
  end.

(** ** Handle *)

Definition HandleLabels (local : Pod) : P () :=
  if LocalPodOffloadedLabel local then issue (ApplyOffloadedLabel (p_Name local)) else mret ().

Definition not_ours (l : option labels) : bool :=
  match l with Some l => negb (IsReflected LocalCluster RemoteCluster l) | None => false end.
Definition alive (shadow : option ShadowPod) : option ShadowPod :=
  match shadow with Some sh => if sh_Deleting sh then None else Some sh | None => None end.

(** The part for a pod that runs: its presence is enforced. *)
Definition enforce_presence (name : string) (local : Pod) (remote : option Pod) (shadow : option ShadowPod) : P () :=
  _ ← HandleLabels local;
  info ← RetrievePodInfo name;
  match shadow with
  | None =>
    if PreventCreationUntilSeen info then mret ()
    else
      '(info, target) ← lift (ForgeShadowPod local None (set_prevent info false));
      _ ← store_info name info;
      match target with
      | Err e => fail e
      | Ok target =>
        r ← attempt (issue (CreateShadowPod target));
        match r with
        | Err AlreadyExists => mret ()
        | Err e => fail e
        | Ok _ => store_info name (set_prevent info true)
        end
      end
  | Some sh =>
    '(info, target) ← lift (ForgeShadowPod local (Some sh) (set_prevent info false));
    _ ← store_info name info;
    match target with
    | Err e => fail e
    | Ok target =>
      _ ← (if negb (HasRemoteUnavailableLabel local) && ShouldUpdateShadowPod sh target
           then issue (UpdateShadowPod target) else mret ());
      HandleStatus name local remote shadow info
    end
  end.

Definition Handle (name : string) (local : option Pod) (remote : option Pod) (shadow : option ShadowPod) : P () :=
  if not_ours (p_Labels <$> remote) || not_ours (sh_Labels <$> shadow) then mret ()
  else match local with
  | None => match shadow with
            | Some sh => DeleteRemote name (sh_UID sh)
            | None => mret ()
            end
  | Some lo =>
    if p_Deleting lo then
      match remote, shadow with
      | None, None => _ ← ignore_not_found (issue (DeleteLocalPod name (p_UID lo))); ForgetPodInfo name
      | _, _ => match alive shadow with
                | Some sh => DeleteRemote name (sh_UID sh)
                | None => info ← RetrievePodInfo name; HandleStatus name lo remote shadow info
                end
      end
    else if bool_decide (st_Phase (p_Status lo) = PodFailed) && bool_decide (st_Reason (p_Status lo) = PodOffloadingAbortedReason) then
      match alive shadow with
      | Some sh => DeleteRemote name (sh_UID sh)
      | None => mret ()
      end
    else if (bool_decide (st_Phase (p_Status lo) = PodSucceeded) || bool_decide (st_Phase (p_Status lo) = PodFailed)) &&
            match remote with None => true | Some rem => bool_decide (st_Phase (p_Status rem) = st_Phase (p_Status lo)) end
    then mret ()
    else enforce_presence name lo remote shadow
  end.
End reflector.
