(* ===== verification/VkPodProps.v ===== *)
(** * VkPodProps: the reflection of pods does what it should

    The handler returns, issues only calls that the objects it has seen justify,
    stops writing to the remote cluster once the shadow pod is there, and copies back
    the status with the address translated as the configuration says. *)

From S2P Require Export VkForge VkPod.
Local Open Scope Z_scope.

(** ** Computations and the calls they issue *)

Definition issues_only {A} (P : call → Prop) (m : K pworld A) : Prop :=
  ∀ w w' res, m w = Ret (w', res) → ∃ l, calls w' = calls w ++ l ∧ Forall P l.

Lemma issues_same {A} P (m : K pworld A) : (∀ w w' res, m w = Ret (w', res) → calls w' = calls w) → issues_only P m.
Proof. intros H w w' res E. exists []. rewrite app_nil_r. split; [by eapply H|constructor]. Qed.
Lemma issues_ret {A} P (a : A) : issues_only P (mret a).
Proof. apply issues_same. by intros w w' res [= <- _]. Qed.
Lemma issues_fail {A} P e : issues_only P (fail e : K pworld A).
Proof. apply issues_same. by intros w w' res [= <- _]. Qed.
Lemma issues_bind {A B} P (m : K pworld A) (f : A → K pworld B) :
  issues_only P m → (∀ a, issues_only P (f a)) → issues_only P (m ≫= f).
Proof.
  intros Hm Hf w w' res [(a & w1 & H1 & H2)|(e & H1 & ->)]%K_bind_inv; [|by eapply Hm].
  apply Hm in H1 as (l1 & E1 & F1). apply Hf in H2 as (l2 & E2 & F2).
  exists (l1 ++ l2). rewrite E2, E1, (assoc_L (++)). split; [done|]. by apply Forall_app.
Qed.
Lemma issues_attempt {A} P (m : K pworld A) : issues_only P m → issues_only P (attempt m).
Proof.
  intros Hm w w' res. unfold attempt. destruct (m w) as [[w1 r1]| |] eqn:E; [|done..].
  intros [= <- _]. by eapply Hm.
Qed.
Lemma issues_retrieve P po : issues_only P (RetrievePodInfo po).
Proof. apply issues_same. by intros w w' res [= <- _]. Qed.
Lemma issues_store P po i : issues_only P (store_info po i).
Proof. apply issues_same. by intros w w' res [= <- _]. Qed.
Lemma issues_forget P po : issues_only P (ForgetPodInfo po).
Proof. apply issues_same. by intros w w' res [= <- _]. Qed.
(** What a pure step returned is known to what follows. *)
Lemma issues_lift {A B} P (o : outcome A) (f : A → K pworld B) :
  (∀ a, o = Ret a → issues_only P (f a)) → issues_only P (lift o ≫= f).
Proof.
  intros Hf w w' res. unfold mbind, K_bind, lift. destruct o as [a| |]; simpl; [|done..]. by apply Hf.
Qed.

Create HintDb issues.
#[export] Hint Resolve issues_ret issues_fail issues_retrieve issues_store issues_forget : issues.
Ltac issuing := repeat first
  [ solve [auto with issues nocore] | apply issues_lift | apply issues_bind | apply issues_attempt
  | progress intros | case_match ].

#[local] Arguments APIServerSupportMutator : simpl never.
#[local] Arguments MapAddressWithConfiguration : simpl never.

(** The outermost condition of a computation. *)
Ltac branch H := match goal with |- issues_only _ (if ?b then _ else _) => destruct b eqn:H end.

Section props.
Context (LocalCluster RemoteCluster LiqoNodeName LiqoNodeIP KubernetesServicePort : string) (Sum256 : string → list Z).
Context (config : PodReflectorConfig) (opts : option ForgingOpts) (remoteNamespace : string).
Context (secrets : string → list string) (serviceIPs : list string * option kerr).
Context (answer : list call → call → option kerr) (now : nat → Z).

Notation ForgeShadowPod := (ForgeShadowPod LocalCluster RemoteCluster LiqoNodeName KubernetesServicePort Sum256 config opts
  remoteNamespace secrets serviceIPs).
Notation shadow_mutators := (shadow_mutators LocalCluster KubernetesServicePort Sum256 config opts secrets serviceIPs).
Notation HandleStatus := (HandleStatus LiqoNodeIP config answer now).
Notation enforce_presence := (enforce_presence LocalCluster RemoteCluster LiqoNodeName LiqoNodeIP KubernetesServicePort Sum256 config
  opts remoteNamespace secrets serviceIPs answer now).
Notation Handle := (Handle LocalCluster RemoteCluster LiqoNodeName LiqoNodeIP KubernetesServicePort Sum256 config opts remoteNamespace
  secrets serviceIPs answer now).
Notation IsReflected := (IsReflected LocalCluster RemoteCluster).

(** ** Forging returns *)

Lemma saSecretRetriever_callable local :
  getAPIServerSupport (APIServerSupport config) (p_Annotations local) ≠ APIServerSupportRemote →
  callable (getAPIServerSupport (APIServerSupport config) (p_Annotations local)) (saSecretRetriever config secrets local).
Proof.
  unfold callable, getAPIServerSupport, saSecretRetriever.
  destruct (p_Annotations local !! APIServerSupportAnnotation) as [v|].
  - destruct (bool_decide (v = "disabled"%string)); [by right|].
    destruct (bool_decide (v = "remote"%string)); [done|].
    destruct (APIServerSupport config); intros; naive_solver.
  - destruct (APIServerSupport config); intros; naive_solver.
Qed.

(** The addresses known of the pod are the same. *)
Definition same_ips (i j : PodInfo) : Prop := OriginalIP j = OriginalIP i ∧ TranslatedIP j = TranslatedIP i.

Lemma retriever_same_ips local i f s : saSecretRetriever config secrets local = Some f →
  same_ips i (fs_info s) → same_ips i (fs_info (fst (f s))).
Proof.
  unfold saSecretRetriever, RetrieveLegacyServiceAccountSecretName. intros Hf Hs.
  destruct (APIServerSupport config); simplify_eq; [|done].
  case_bool_decide; simpl; [|done]. by destruct (secrets _) as [|n [|]].
Qed.

Lemma APIServerSupportMutator_returns local r s : ∃ r' s',
  APIServerSupportMutator LocalCluster KubernetesServicePort Sum256 (APIServerSupport config) (p_Annotations local) (ServiceAccountName local)
    (saSecretRetriever config secrets local) (ipsGetter config serviceIPs) (HomeAPIServerHost config) (HomeAPIServerPort config) r s
  = Ret (r', s') ∧ ps_Tolerations r' = ps_Tolerations r ∧ ps_Affinity r' = ps_Affinity r ∧ same_ips (fs_info s) (fs_info s').
Proof.
  unfold APIServerSupportMutator. set (sup := getAPIServerSupport _ _).
  destruct (decide (sup = APIServerSupportRemote)) as [->|Hr].
  { simpl. eexists _, _. split; [done|]. done. }
  rewrite (bool_decide_eq_false_2 (sup = APIServerSupportRemote)) by done.
  destruct (remote_volumes_exact LocalCluster Sum256 sup (saSecretRetriever config secrets local) (ps_Volumes r) s)
    as [Hc (vs & s1 & Hv & _)]; [by apply saSecretRetriever_callable|]. rewrite Hv. simpl.
  assert (Hi : same_ips (fs_info s) (fs_info s1)).
  { rewrite Hc in Hv. eapply (convert_volumes_inv _ _ _ _ (fun s1 => same_ips (fs_info s) (fs_info s1))); [|done|exact Hv].
    intros f s0. apply retriever_same_ips. }
  rewrite orb_false_r. destruct (bool_decide (sup = APIServerSupportDisabled)); [by eexists _, _|].
  destruct (bool_decide _ && bool_decide _); [|by eexists _, _].
  destruct (ipsGetter config serviceIPs s1) as [s2 ips] eqn:Eg. eexists _, _. split; [done|]. split; [done|]. split; [done|].
  unfold ipsGetter in Eg. by destruct (NetConfiguration config); injection Eg as <- _.
Qed.

Lemma run_pure {S} (fs : list (PodSpec → PodSpec)) r (s : S) :
  run_mutators (pure <$> fs) r s = Ret (foldl (fun r f => f r) r fs, s).
Proof. revert r. induction fs as [|f fs IH]; intros r; simpl; [done|]. apply IH. Qed.

Lemma run_mutators_app {S} (l1 l2 : list (mutator (S := S))) r s :
  run_mutators (l1 ++ l2) r s = ('(r, s) ← run_mutators l1 r s; run_mutators l2 r s).
Proof.
  revert r s. induction l1 as [|m l1 IH]; intros r s; simpl; [done|].
  destruct (m r s) as [[r' s']| |]; simpl; [apply IH|done..].
Qed.

(** The mutators after the first one call no closure. *)
Definition preset_functions (local : Pod) (o : ForgingOpts) : list (PodSpec → PodSpec) :=
  let l := FilterAntiAffinityLabels (filtered_labels LiqoNodeName local o) (default ""%string (p_Annotations local !! PodAntiAffinityLabelsKey)) in
  match p_Annotations local !! PodAntiAffinityPresetKey with
  | Some v => if bool_decide (v = "propagate"%string) then [AntiAffinityPropagateMutator (ps_Affinity (p_Spec local))]
              else if bool_decide (v = "soft"%string) then [AntiAffinitySoftMutator l]
              else if bool_decide (v = "hard"%string) then [AntiAffinityHardMutator l]
              else []
  | None => []
  end.
Definition pure_functions (local : Pod) (o : ForgingOpts) : list (PodSpec → PodSpec) :=
  [ServiceAccountMutator (APIServerSupport config) (p_Annotations local);
   DRAClaimRewriteMutator (st_ResourceClaimStatuses (p_Status local));
   NodeSelectorMutator (fo_NodeSelector o); TolerationsMutator (fo_Tolerations o); AffinityMutator (fo_Affinity o)] ++
  preset_functions local o ++ [RuntimeClassNameMutator local (Some o); CastResourcesMutator].

Lemma affinity_preset_pure {S} local o : affinity_preset (S := S) LiqoNodeName local o = pure <$> preset_functions local o.
Proof. unfold affinity_preset, preset_functions. by repeat case_match. Qed.

(** The specification before the mutators. *)
Definition base_spec (l : PodSpec) : PodSpec :=
  mkPodSpec (ps_Containers l) (ps_InitContainers l) (ps_ResourceClaims l) (RemoteTolerations (ps_Tolerations l))
    (ps_Volumes l) (ps_HostAliases l) (ps_ServiceAccountName l) (Some false) false None ∅ None (ps_copied l) None.

Lemma ForgeShadowPod_create local info o : opts = Some o → CheckDRAClaimStatusesReady local = true →
  ∃ r s, ps_Tolerations r = RemoteTolerations (ps_Tolerations (p_Spec local)) ∧ ps_Affinity r = None ∧
    same_ips info (fs_info s) ∧
    ForgeShadowPod local None info = Ret (fs_info s,
      match fs_saerr s, fs_kserr s with
      | Some e, _ => Err e
      | None, Some e => Err e
      | None, None => Ok (mkShadowPod (p_Name local) remoteNamespace ""
          (ReflectionLabels LocalCluster RemoteCluster ∪ filtered_labels LiqoNodeName local o)
          (FilterNotReflected (p_Annotations local) (AnnotationsNotReflected o)) false
          (foldl (fun r f => f r) r (pure_functions local o)) "")
      end).
Proof.
  intros Ho Hd. destruct (APIServerSupportMutator_returns local (base_spec (p_Spec local)) (mkFstate info None None))
    as (r & s & Hm & Ht & Ha & Hi).
  exists r, s. split; [done|]. split; [done|]. split; [done|].
  unfold base_spec in Hm. unfold VkPod.ForgeShadowPod. rewrite Hd, Ho. simpl. unfold RemotePodSpec. simpl. rewrite Hm. simpl.
  rewrite affinity_preset_pure, (run_mutators_app (pure <$> preset_functions local o)), run_pure. simpl.
  unfold pure_functions. by rewrite !foldl_app.
Qed.

Lemma ForgeShadowPod_update local sh info o : opts = Some o → CheckDRAClaimStatusesReady local = true →
  ForgeShadowPod local (Some sh) info = Ret (info, Ok (mkShadowPod (sh_Name sh) (sh_Namespace sh) (sh_UID sh)
    (ReflectionLabels LocalCluster RemoteCluster ∪ filtered_labels LiqoNodeName local o)
    (FilterNotReflected (p_Annotations local) (AnnotationsNotReflected o)) (sh_Deleting sh) (sh_Spec sh) "")).
Proof. intros Ho Hd. unfold VkPod.ForgeShadowPod. by rewrite Hd, Ho. Qed.

Lemma ForgeShadowPod_ready local shadow info i target : ForgeShadowPod local shadow info = Ret (i, Ok target) →
  CheckDRAClaimStatusesReady local = true ∧ is_Some opts.
Proof.
  intros H. unfold VkPod.ForgeShadowPod in H. destruct (CheckDRAClaimStatusesReady local); [|done].
  split; [done|]. by destruct opts.
Qed.

(** Whatever is forged is recognised, and for a shadow pod that exists only its
    labels and annotations change. *)
Lemma ForgeShadowPod_spec local shadow info i target : ForgeShadowPod local shadow info = Ret (i, Ok target) →
  IsReflected (sh_Labels target) = true ∧
  match shadow with
  | Some sh => sh_UID target = sh_UID sh ∧ sh_Name target = sh_Name sh ∧ sh_Spec target = sh_Spec sh
  | None => sh_Name target = p_Name local ∧ sh_Namespace target = remoteNamespace
  end.
Proof.
  intros H. pose proof (ForgeShadowPod_ready _ _ _ _ _ H) as [Hd [o Ho]]. destruct shadow as [sh|].
  - rewrite (ForgeShadowPod_update _ _ _ o) in H by done. injection H as <- <-.
    split; [apply IsReflected_labels|done].
  - destruct (ForgeShadowPod_create local info o) as (r & s & _ & _ & _ & E); [done..|].
    rewrite E in H. destruct (fs_saerr s), (fs_kserr s); [done..|]. injection H as <- <-.
    split; [apply IsReflected_labels|done].
Qed.

(** ** Calls *)

Lemma issues_issue (P : call → Prop) c : P c → issues_only P (issue answer c).
Proof. intros Hc w w' res [= <- _]. exists [c]. split; [done|]. by constructor. Qed.

Lemma issues_update_status (P : call → Prop) name lo st : P (UpdateLocalStatus name st) → issues_only P (update_status answer name lo st).
Proof. intros. unfold update_status. issuing. by apply issues_issue. Qed.

Lemma issues_status (P : call → Prop) name lo remote shadow info :
  (∀ st, P (UpdateLocalStatus name st)) → issues_only P (HandleStatus name lo remote shadow info).
Proof.
  intros HP. unfold VkPod.HandleStatus. issuing; by apply issues_update_status.
Qed.

Lemma issues_ignore (P : call → Prop) m : issues_only P m → issues_only P (ignore_not_found m).
Proof. intros. unfold ignore_not_found. issuing. Qed.

Lemma issues_delete (P : call → Prop) name uid : P (DeleteShadowPod name uid) → issues_only P (DeleteRemote answer name uid).
Proof. intros. by apply issues_ignore, issues_issue. Qed.

(** Why a call may be made, given what the caches hold. *)
Definition aborted (lo : Pod) : Prop :=
  st_Phase (p_Status lo) = PodFailed ∧ st_Reason (p_Status lo) = PodOffloadingAbortedReason.
Definition justified (name : string) (local remote : option Pod) (shadow : option ShadowPod) (c : call) : Prop :=
  match c with
  | DeleteLocalPod n uid =>
    n = name ∧ remote = None ∧ shadow = None ∧ ∃ lo, local = Some lo ∧ p_Deleting lo = true ∧ uid = p_UID lo
  | DeleteShadowPod n uid =>
    n = name ∧ (∃ sh, shadow = Some sh ∧ uid = sh_UID sh ∧ IsReflected (sh_Labels sh) = true) ∧
    ∀ lo, local = Some lo → p_Deleting lo = true ∨ aborted lo
  | CreateShadowPod s =>
    shadow = None ∧ IsReflected (sh_Labels s) = true ∧ sh_Namespace s = remoteNamespace ∧
    ∃ lo, local = Some lo ∧ p_Deleting lo = false ∧ ¬ aborted lo ∧ sh_Name s = p_Name lo
  | UpdateShadowPod s =>
    ∃ sh lo, shadow = Some sh ∧ local = Some lo ∧ p_Deleting lo = false ∧ HasRemoteUnavailableLabel lo = false ∧
      IsReflected (sh_Labels sh) = true ∧ IsReflected (sh_Labels s) = true ∧
      sh_UID s = sh_UID sh ∧ sh_Name s = sh_Name sh ∧ sh_Spec s = sh_Spec sh
  | ApplyOffloadedLabel n => ∃ lo, local = Some lo ∧ n = p_Name lo ∧ p_Deleting lo = false
  | UpdateLocalStatus n _ => n = name ∧ is_Some local ∧ ∀ rem, remote = Some rem → IsReflected (p_Labels rem) = true
  end.

Lemma not_ours_false l : not_ours LocalCluster RemoteCluster l = false → ∀ x, l = Some x → IsReflected x = true.
Proof. unfold not_ours. intros H x ->. by apply negb_false_iff in H. Qed.

Lemma alive_Some shadow sh : alive shadow = Some sh → shadow = Some sh ∧ sh_Deleting sh = false.
Proof. unfold alive. destruct shadow as [x|]; [|done]. destruct (sh_Deleting x) eqn:E; naive_solver. Qed.

Lemma enforce_justified name lo remote shadow :
  p_Deleting lo = false → ¬ aborted lo →
  (∀ rem, remote = Some rem → IsReflected (p_Labels rem) = true) →
  (∀ sh, shadow = Some sh → IsReflected (sh_Labels sh) = true) →
  issues_only (justified name (Some lo) remote shadow) (enforce_presence name lo remote shadow).
Proof.
  intros Hd Ha Hr Hs. unfold VkPod.enforce_presence, HandleLabels.
  apply issues_bind; [case_match; [apply issues_issue; simpl; eauto|apply issues_ret]|]. intros _.
  apply issues_bind; [apply issues_retrieve|]. intros info. destruct shadow as [sh|].
  - apply issues_lift. intros [i target] Hf. apply issues_bind; [apply issues_store|]. intros _.
    destruct target as [target|e]; [|apply issues_fail].
    apply ForgeShadowPod_spec in Hf as (Hrf & Hu & Hn & Hsp).
    apply issues_bind; [|intros _; apply issues_status; intros st; simpl; split_and!; eauto].
    destruct (HasRemoteUnavailableLabel lo) eqn:El; simpl; [apply issues_ret|].
    case_match; [|apply issues_ret]. apply issues_issue. exists sh, lo. split_and!; auto.
  - case_match; [apply issues_ret|]. apply issues_lift. intros [i target] Hf.
    apply issues_bind; [apply issues_store|]. intros _. destruct target as [target|e]; [|apply issues_fail].
    apply ForgeShadowPod_spec in Hf as (Hrf & Hn & Hns).
    apply issues_bind; [apply issues_attempt, issues_issue; simpl; split_and!; eauto|].
    intros r. issuing.
Qed.

Lemma terminating_justified name lo remote shadow : p_Deleting lo = true →
  (∀ rem, remote = Some rem → IsReflected (p_Labels rem) = true) →
  (∀ sh, shadow = Some sh → IsReflected (sh_Labels sh) = true) →
  issues_only (justified name (Some lo) remote shadow)
    match alive shadow with
    | Some sh => DeleteRemote answer name (sh_UID sh)
    | None => RetrievePodInfo name ≫= HandleStatus name lo remote shadow
    end.
Proof.
  intros Hd Hrem Hsh. destruct (alive shadow) as [sh|] eqn:Ea.
  - apply alive_Some in Ea as [-> _]. apply issues_delete. simpl. split_and!; eauto. intros ? [= <-]. by left.
  - apply issues_bind; [apply issues_retrieve|]. intros info. apply issues_status. intros st. simpl. split_and!; eauto.
Qed.

(** C17: The handler of a pod writes only what the objects in the caches justify, whatever
    the servers answer.  The local pod is removed for good only when it is terminating
    and neither the remote pod nor the shadow pod exist; a shadow pod is deleted only if
    it is ours, by its UID, and the local pod is gone, terminating or was rejected; a
    shadow pod is created only when there is none and the local pod is live, in the
    right namespace and with the labels by which it is recognised later; an update
    changes labels and annotations and never the specification; objects of others
    are never touched. *)
Theorem pod_calls_justified (name : string) (local remote : option Pod) (shadow : option ShadowPod) :
  issues_only (justified name local remote shadow) (Handle name local remote shadow).
Proof.
  unfold VkPod.Handle. destruct (not_ours _ _ (p_Labels <$> remote)) eqn:Hr; simpl; [apply issues_ret|].
  destruct (not_ours _ _ (sh_Labels <$> shadow)) eqn:Hs; [apply issues_ret|].
  pose proof (not_ours_false _ Hr) as Hr'. pose proof (not_ours_false _ Hs) as Hs'. clear Hr Hs.
  assert (Hrem : ∀ rem, remote = Some rem → IsReflected (p_Labels rem) = true) by (intros rem ->; by apply Hr').
  assert (Hsh : ∀ sh, shadow = Some sh → IsReflected (sh_Labels sh) = true) by (intros sh ->; by apply Hs').
  destruct local as [lo|].
  2:{ destruct shadow as [sh|]; [|apply issues_ret]. apply issues_delete. simpl. split_and!; eauto. done. }
  destruct (p_Deleting lo) eqn:Hd.
  { destruct remote as [rem|]; [by apply terminating_justified|]. destruct shadow as [sh|]; [by apply terminating_justified|].
    apply issues_bind; [|intros; apply issues_forget]. apply issues_ignore, issues_issue. simpl. split_and!; eauto. }
  case_match eqn:Hab.
  { apply andb_true_iff in Hab as [?%bool_decide_eq_true ?%bool_decide_eq_true].
    destruct (alive shadow) as [sh|] eqn:Ea; [|apply issues_ret]. apply alive_Some in Ea as [-> _].
    apply issues_delete. simpl. split_and!; eauto. intros ? [= <-]. by right. }
  case_match; [apply issues_ret|]. apply enforce_justified; [done| |done|done].
  intros [H1 H2]. apply andb_false_iff in Hab as [?%bool_decide_eq_false|?%bool_decide_eq_false]; done.
Qed.

(** ** Settling *)

Lemma find_by_name l c : NoDup (c_Name <$> l) → c ∈ l → List.find (fun u => bool_decide (c_Name c = c_Name u)) l = Some c.
Proof.
  induction l as [|x l IH]; intros Hn Hc; [by apply not_elem_of_nil in Hc|]. rewrite fmap_cons in Hn.
  apply NoDup_cons in Hn as [Hx Hn]. simpl. apply elem_of_cons in Hc as [->|Hc].
  - by rewrite bool_decide_eq_true_2.
  - rewrite bool_decide_eq_false_2; [by apply IH|]. intros E. apply Hx. rewrite <-E. by apply list_elem_of_fmap_2.
Qed.

Lemma AreContainersEqual_refl l : NoDup (c_Name <$> l) → AreContainersEqual l l = true.
Proof.
  intros Hn. unfold AreContainersEqual. rewrite Nat.eqb_refl. simpl. apply forallb_forall.
  intros c Hc%list_elem_of_In. unfold same_image. rewrite find_by_name by done. by apply bool_decide_eq_true.
Qed.

Definition distinct_names (r : PodSpec) : Prop :=
  NoDup (c_Name <$> ps_Containers r) ∧ NoDup (c_Name <$> ps_InitContainers r).

Lemma IsPodSpecEqual_refl r : distinct_names r → IsPodSpecEqual r r = true.
Proof.
  intros [H1 H2]. unfold IsPodSpecEqual. rewrite !AreContainersEqual_refl by done.
  by rewrite bool_decide_eq_true_2, Nat.eqb_refl.
Qed.

(** The calls that write to the remote cluster. *)
Definition remote_write (c : call) : Prop :=
  match c with DeleteShadowPod _ _ | CreateShadowPod _ | UpdateShadowPod _ => True | _ => False end.

(** A shadow pod in the cache that is the one that was created. *)
Definition created_as (target sh : ShadowPod) : Prop :=
  sh_Labels sh = sh_Labels target ∧ sh_Annotations sh = sh_Annotations target ∧ sh_Spec sh = sh_Spec target.

Lemma forged_again local info i target sh info' : ForgeShadowPod local None info = Ret (i, Ok target) →
  created_as target sh → distinct_names (sh_Spec target) →
  ∃ t, ForgeShadowPod local (Some sh) info' = Ret (info', Ok t) ∧ ShouldUpdateShadowPod sh t = false.
Proof.
  intros H (Hl & Ha & Hs) Hn. pose proof (ForgeShadowPod_ready _ _ _ _ _ H) as [Hd [o Ho]].
  destruct (ForgeShadowPod_create local info o Ho Hd) as (r & s & _ & _ & _ & E). rewrite E in H.
  destruct (fs_saerr s), (fs_kserr s); [done..|]. injection H as <- <-.
  eexists. split; [by apply ForgeShadowPod_update|]. unfold ShouldUpdateShadowPod.
  simpl in *. rewrite Hl, Ha, Hs, !bool_decide_eq_true_2 by done. simpl. by rewrite IsPodSpecEqual_refl.
Qed.

(** Reflection settles.  Once the shadow pod in the cache is the one that was forged
    for the local pod when it was created, handling the same pod again writes nothing to
    the remote cluster, whatever the remote pod is, whatever the servers answer and
    however often it happens; only the label and the status of the local pod are written. *)
Theorem pod_settles (name : string) (local : Pod) (remote : option Pod) (sh target : ShadowPod) (info i : PodInfo) :
  ForgeShadowPod local None info = Ret (i, Ok target) → created_as target sh → distinct_names (sh_Spec target) →
  p_Deleting local = false → ¬ aborted local →
  issues_only (fun c => ¬ remote_write c) (Handle name (Some local) remote (Some sh)).
Proof.
  intros Hf Hc Hn Hd Ha. unfold VkPod.Handle. branch Ho; [apply issues_ret|]. rewrite Hd.
  branch Hab.
  { apply andb_true_iff in Hab as [?%bool_decide_eq_true ?%bool_decide_eq_true]. by destruct Ha. }
  branch Ht; [apply issues_ret|]. unfold VkPod.enforce_presence.
  apply issues_bind; [unfold HandleLabels; branch Hl; [apply issues_issue; by intros []|apply issues_ret]|].
  intros _. apply issues_bind; [apply issues_retrieve|]. intros info'.
  apply issues_lift. intros [i' r] Hr.
  destruct (forged_again _ _ _ _ _ (set_prevent info' false) Hf Hc Hn) as (t & Et & Hu).
  rewrite Et in Hr. injection Hr as <- <-. apply issues_bind; [apply issues_store|]. intros _.
  rewrite Hu, andb_false_r. apply issues_bind; [apply issues_ret|]. intros _. apply issues_status. by intros st [].
Qed.

(** ** The cache of translated addresses *)

(** The address of a remote pod as the local cluster sees it. *)
Definition mapped (ip t : string) : Prop :=
  match NetConfiguration config with
  | None => t = ip
  | Some cfg => MapAddressWithConfiguration (Some cfg) ip = Ret (Ok t)
  end.
Definition info_valid (i : PodInfo) : Prop :=
  ∀ cfg, NetConfiguration config = Some cfg → OriginalIP i ≠ ""%string →
    MapAddressWithConfiguration (Some cfg) (OriginalIP i) = Ret (Ok (TranslatedIP i)).
Definition infos_valid (w : pworld) : Prop := ∀ n i, pods w !! n = Some i → info_valid i.

Lemma info_valid_ips i j : OriginalIP j = OriginalIP i → TranslatedIP j = TranslatedIP i → info_valid i → info_valid j.
Proof. unfold info_valid. by intros -> ->. Qed.

Lemma translator_spec ip i t i' e : ip ≠ ""%string → info_valid i → translator config ip (i, None) = Ret (t, (i', e)) →
  info_valid i' ∧ (e = None → mapped ip t).
Proof.
  intros Hne Hv. unfold translator, mapped, MapPodIP. destruct (NetConfiguration config) as [cfg|] eqn:Ec.
  2:{ by intros [= -> -> <-]. }
  simpl. case_bool_decide as Eo; simpl.
  - intros H. injection H as <- <- <-. split; [done|]. intros _. rewrite <-Eo. apply Hv; [done|by rewrite Eo].
  - destruct (MapAddressWithConfiguration (Some cfg) ip) as [[t'|e']| |] eqn:Em; simpl; [| |done..].
    + intros H. injection H as <- <- <-. split; [|done]. intros cfg' Hc' _. simpl. by rewrite Ec in Hc'; injection Hc' as <-.
    + intros H. by injection H as <- <- <-.
Qed.

(** The status that is written for a remote pod. *)
Definition reflected_status (lo rem : Pod) (restarts : Z) (ip : string) : PodStatus :=
  let r := p_Status rem in
  mkPodStatus (st_Phase r) (st_Reason r)
    (if HasRemoteUnavailableLabel lo then not_ready now (st_Conditions r) else st_Conditions r)
    (if DisableIPReflection config then "" else ip)
    (if DisableIPReflection config then Some [] else if bool_decide (st_PodIP r = ""%string) then st_PodIPs r else Some [ip])
    LiqoNodeIP (Some [LiqoNodeIP]) (add_restarts restarts <$> st_ContainerStatuses r) (st_InitContainerStatuses r)
    (st_EphemeralContainerStatuses r) (st_ResourceClaimStatuses (p_Status lo)) (st_other r).

Lemma LocalPodStatus_spec lo rem n i st i' e : info_valid i →
  LocalPodStatus LiqoNodeIP (p_Status rem) (translator config) n (status_mutators config lo) (i, None) = Ret (st, (i', e)) →
  info_valid i' ∧ (e = None → ∃ ip, (if bool_decide (st_PodIP (p_Status rem) = ""%string) then ip = ""%string else mapped (st_PodIP (p_Status rem)) ip) ∧
    (if HasRemoteUnavailableLabel lo then set_conditions st (not_ready now (st_Conditions st)) else st) = reflected_status lo rem n ip).
Proof.
  intros Hv. unfold LocalPodStatus, status_mutators, reflected_status. case_bool_decide as Eip; simpl.
  - intros H. assert (i' = i ∧ e = None) as [-> ->] by (destruct (DisableIPReflection config); by injection H).
    split; [done|]. intros _. exists ""%string. split; [done|].
    destruct (DisableIPReflection config), (HasRemoteUnavailableLabel lo); injection H as <-; simpl; by rewrite ?Eip.
  - destruct (translator config _ (i, None)) as [[t [i1 e1]]| |] eqn:Et; simpl; [|done..].
    apply translator_spec in Et as [Hi He]; [|done..].
    intros H. assert (i' = i1 ∧ e = e1) as [-> ->] by (destruct (DisableIPReflection config); by injection H).
    split; [done|]. intros E. exists t. split; [by apply He|].
    destruct (DisableIPReflection config), (HasRemoteUnavailableLabel lo); injection H as <-; done.
Qed.

Lemma count_restarts_valid lo rem i : info_valid i → info_valid (count_restarts lo rem i).
Proof. unfold count_restarts. case_bool_decide; [done|]. by apply info_valid_ips. Qed.

(** The status written to the local pod is the one of the remote pod, with its address
    translated as the network configuration says (through the cache or not), the address
    of the virtual node as host, the restarts of the pods that ran before added to every
    container, and the claims of the local pod kept; a pod whose cluster is unavailable
    is not ready, and nothing is written when the status is already there. *)
Theorem pod_status_reflected (name : string) (lo rem : Pod) (shadow : option ShadowPod) (info : PodInfo) (w w' : pworld) (res : result kerr ()) :
  info_valid info → HandleStatus name lo (Some rem) shadow info w = Ret (w', res) →
  (calls w' = calls w ∧ is_ok res = false) ∨
  ∃ ip st, (if bool_decide (st_PodIP (p_Status rem) = ""%string) then ip = ""%string else mapped (st_PodIP (p_Status rem)) ip) ∧
    st = reflected_status lo rem (Restarts (count_restarts lo rem info)) ip ∧
    calls w' = calls w ++ (if bool_decide (p_Status lo = st) then [] else [UpdateLocalStatus name st]).
Proof.
  intros Hv. unfold VkPod.HandleStatus.
  intros [([st [i e]] & w1 & H1 & H2)|(e & H1 & ->)]%K_bind_inv.
  2:{ unfold lift in H1. by destruct (LocalPodStatus _ _ _ _ _ _). }
  unfold lift in H1. destruct (LocalPodStatus _ _ _ _ _ _) as [[st1 s1]| |] eqn:E; [|done..]. simpl in H1. simplify_eq.
  apply LocalPodStatus_spec in E as [_ He]; [|by apply count_restarts_valid].
  rewrite (K_bind_ok _ _ _ _ _ eq_refl) in H2. destruct e as [e|].
  { left. unfold fail in H2. simplify_eq. done. }
  right. destruct (He eq_refl) as (ip & Hip & Est). exists ip, (reflected_status lo rem (Restarts (count_restarts lo rem info)) ip).
  split; [done|]. split; [done|]. rewrite Est in H2. unfold update_status in H2.
  destruct (bool_decide (p_Status lo = _)); [unfold mret, K_ret in H2|unfold issue in H2]; simplify_eq; simpl; [by rewrite app_nil_r|done].
Qed.

(** The information on a pod that forging leaves has the same addresses. *)
Lemma ForgeShadowPod_info local shadow info i r : ForgeShadowPod local shadow info = Ret (i, r) → same_ips info i.
Proof.
  intros H. destruct (CheckDRAClaimStatusesReady local) eqn:Hd.
  2:{ unfold VkPod.ForgeShadowPod in H. rewrite Hd in H. by injection H as <- _. }
  assert (∃ o, opts = Some o) as [o Ho].
  { destruct opts as [o|] eqn:Ho; [by exists o|]. unfold VkPod.ForgeShadowPod in H. by rewrite Hd in H. }
  destruct shadow as [sh|].
  - rewrite (ForgeShadowPod_update _ _ _ o) in H by done. by injection H as <- _.
  - destruct (ForgeShadowPod_create local info o Ho Hd) as (r0 & s & _ & _ & Hi & E). rewrite E in H. by injection H as <- _.
Qed.

Lemma preserves_issue c : preserves infos_valid (issue answer c).
Proof. by intros w w' res HI [= <- _]. Qed.
Lemma preserves_retrieve {A} name (f : PodInfo → K pworld A) :
  (∀ i, info_valid i → preserves infos_valid (f i)) → preserves infos_valid (RetrievePodInfo name ≫= f).
Proof.
  intros Hf w w' res HI. rewrite (K_bind_ok _ _ _ _ _ eq_refl). apply Hf.
  - destruct (pods w !! name) as [i|] eqn:E; simpl; [by eapply HI|]. by intros cfg _ ?.
  - intros n i. simpl. intros [[<- <-]|[_ ?]]%lookup_insert_Some; [|by eapply HI].
    destruct (pods w !! name) as [i|] eqn:E; simpl; [by eapply HI|]. by intros cfg _ ?.
Qed.
Lemma preserves_store name i : info_valid i → preserves infos_valid (store_info name i).
Proof.
  intros Hi w w' res HI [= <- _] n j. simpl. intros [[<- <-]|[_ ?]]%lookup_insert_Some; [done|by eapply HI].
Qed.
Lemma preserves_forget name : preserves infos_valid (ForgetPodInfo name).
Proof. intros w w' res HI [= <- _] n j. simpl. intros [_ ?]%lookup_delete_Some. by eapply HI. Qed.
Lemma preserves_lift {A B} (o : outcome A) (f : A → K pworld B) :
  (∀ a, o = Ret a → preserves infos_valid (f a)) → preserves infos_valid (lift o ≫= f).
Proof.
  intros Hf w w' res HI. unfold mbind, K_bind, lift. destruct o as [a| |]; simpl; [|done..]. by apply Hf.
Qed.
Lemma preserves_status name lo remote shadow info : info_valid info → preserves infos_valid (HandleStatus name lo remote shadow info).
Proof.
  intros Hi. unfold VkPod.HandleStatus. destruct remote as [rem|].
  - apply preserves_lift. intros [st [i e]] E. apply LocalPodStatus_spec in E as [Hv _]; [|by apply count_restarts_valid].
    apply preserves_bind; [by apply preserves_store|]. intros _. unfold update_status. destruct e; [apply preserves_fail|].
    case_match; [apply preserves_ret|apply preserves_issue].
  - unfold update_status. destruct shadow; [|apply preserves_ret].
    repeat case_match; first [apply preserves_ret | apply preserves_issue].
Qed.

Lemma preserves_enforce name lo remote shadow : preserves infos_valid (enforce_presence name lo remote shadow).
Proof.
  unfold VkPod.enforce_presence, HandleLabels.
  apply preserves_bind; [destruct (LocalPodOffloadedLabel lo); [apply preserves_issue|apply preserves_ret]|]. intros _.
  apply preserves_retrieve. intros info Hi.
  assert (Hf : ∀ sh i r, ForgeShadowPod lo sh (set_prevent info false) = Ret (i, r) → info_valid i).
  { intros sh i r [H1 H2]%ForgeShadowPod_info. revert Hi. by apply info_valid_ips. }
  destruct shadow as [sh|].
  - apply preserves_lift. intros [i target] Ht%Hf. apply preserves_bind; [by apply preserves_store|]. intros _.
    destruct target as [target|e]; [|apply preserves_fail].
    apply preserves_bind; [destruct (_ && _); [apply preserves_issue|apply preserves_ret]|]. intros _. by apply preserves_status.
  - destruct (PreventCreationUntilSeen info); [apply preserves_ret|].
    apply preserves_lift. intros [i target] Ht%Hf. apply preserves_bind; [by apply preserves_store|]. intros _.
    destruct target as [target|e]; [|apply preserves_fail].
    apply preserves_bind; [apply preserves_attempt, preserves_issue|]. intros [[]|[]]; try apply preserves_fail; try apply preserves_ret.
    apply preserves_store. revert Ht. by apply info_valid_ips.
Qed.

(** The translations kept of the pods are right.  Handling any pod, whatever is in the
    caches and whatever the servers answer, keeps the invariant that the translated
    address kept of every pod is the one the network configuration gives. *)
Theorem pod_ip_cache_valid (name : string) (local remote : option Pod) (shadow : option ShadowPod) :
  infos_valid (mkPworld ∅ []) ∧ preserves infos_valid (Handle name local remote shadow).
Proof.
  split; [intros n i; simpl; by rewrite lookup_empty|].
  assert (Hdel : ∀ c, preserves infos_valid (ignore_not_found (issue answer c))).
  { intros c. unfold ignore_not_found. preserve. apply preserves_issue. }
  assert (Hst : ∀ lo, preserves infos_valid (RetrievePodInfo name ≫= HandleStatus name lo remote shadow)).
  { intros lo. apply preserves_retrieve. intros i. apply preserves_status. }
  unfold VkPod.Handle, DeleteRemote. destruct (_ || _); [apply preserves_ret|].
  destruct local as [lo|]; [|by destruct shadow; [apply Hdel|apply preserves_ret]].
  destruct (p_Deleting lo).
  { destruct remote, shadow; try (destruct (alive _); [apply Hdel|apply Hst]).
    apply preserves_bind; [apply Hdel|intros; apply preserves_forget]. }
  destruct (_ && _); [by destruct (alive shadow); [apply Hdel|apply preserves_ret]|].
  destruct (_ && _); [apply preserves_ret|apply preserves_enforce].
Qed.

(** ** What the specification keeps *)

(** The node affinity that the virtual node imposes is lost when a pod asks for an
    anti-affinity preset: the mutator of the preset comes later and replaces the whole
    affinity, so the shadow pod has no node affinity whatever the forging options say. *)
Theorem preset_drops_node_affinity (local : Pod) (info i : PodInfo) (target : ShadowPod) (v : string) :
  p_Annotations local !! PodAntiAffinityPresetKey = Some v → v = "soft"%string ∨ v = "hard"%string →
  ForgeShadowPod local None info = Ret (i, Ok target) →
  ∃ a, ps_Affinity (sh_Spec target) = Some a ∧ af_Node a = None ∧ is_Some (af_AntiPod a).
Proof.
  intros Hp Hv H. pose proof (ForgeShadowPod_ready _ _ _ _ _ H) as [Hd [o Ho]].
  destruct (ForgeShadowPod_create local info o Ho Hd) as (r & s & _ & _ & _ & E). rewrite E in H.
  destruct (fs_saerr s), (fs_kserr s); [done..|]. injection H as _ <-. simpl.
  unfold pure_functions, preset_functions. rewrite Hp, !foldl_app. simpl.
  assert (Hrt : ∀ x, ps_Affinity (RuntimeClassNameMutator local (Some o) x) = ps_Affinity x)
    by (intros x; unfold RuntimeClassNameMutator; by repeat case_match).
  destruct Hv as [-> | ->]; simpl; rewrite Hrt; by eexists.
Qed.

(** The tolerations of the shadow pod: those of the local pod that do not name the
    taint of virtual nodes, then those of the forging options. *)
Lemma forged_tolerations local info i target o : opts = Some o → ForgeShadowPod local None info = Ret (i, Ok target) →
  ps_Tolerations (sh_Spec target) = RemoteTolerations (ps_Tolerations (p_Spec local)) ++ fo_Tolerations o.
Proof.
  intros Ho H. pose proof (ForgeShadowPod_ready _ _ _ _ _ H) as [Hd _].
  destruct (ForgeShadowPod_create local info o Ho Hd) as (r & s & Ht & _ & _ & E). rewrite E in H.
  destruct (fs_saerr s), (fs_kserr s); [done..|]. injection H as _ <-. simpl.
  unfold pure_functions. rewrite !foldl_app. simpl.
  assert (Hrt : ∀ x, ps_Tolerations (RuntimeClassNameMutator local (Some o) x) = ps_Tolerations x)
    by (intros x; unfold RuntimeClassNameMutator; by repeat case_match).
  assert (Hpr : ∀ x, ps_Tolerations (foldl (fun r f => f r) x (preset_functions local o)) = ps_Tolerations x).
  { intros x. unfold preset_functions, AntiAffinityPropagateMutator. by repeat case_match. }
  assert (Haf : ∀ x, ps_Tolerations (AffinityMutator (fo_Affinity o) x) = ps_Tolerations x)
    by (intros x; unfold AffinityMutator; by repeat case_match).
  rewrite Hrt, Hpr, Haf. simpl. f_equal. unfold ServiceAccountMutator. by repeat case_match.
Qed.

(** ** Restarts *)

Lemma int32_small z : - 2 ^ 31 <= z < 2 ^ 31 → int32 z = z.
Proof. intros H. unfold int32. rewrite Z.mod_small by lia. lia. Qed.

(** A restart of the virtual kubelet loses no restart of a container.  When nothing is
    known of a pod that was reflected before, the restarts of the first container of the
    local status are compared with those of the remote one, and the count reported
    afterwards is the larger of the two, without overflow. *)
Theorem restarts_survive (lo rem : Pod) (info : PodInfo) (c c' : ContainerStatus) (cs : list ContainerStatus) :
  RemoteUID info = ""%string → p_UID rem ≠ ""%string →
  st_ContainerStatuses (p_Status lo) = c :: cs →
  List.find (fun x => bool_decide (cs_Name c = cs_Name x)) (st_ContainerStatuses (p_Status rem)) = Some c' →
  0 <= cs_RestartCount c < 2 ^ 31 → 0 <= cs_RestartCount c' < 2 ^ 31 →
  cs_RestartCount (add_restarts (Restarts (count_restarts lo rem info)) c') = Z.max (cs_RestartCount c) (cs_RestartCount c').
Proof.
  intros Hu Hr Hl Hf Hc Hc'. unfold count_restarts. rewrite Hu.
  rewrite (bool_decide_eq_false_2 (""%string = p_UID rem)) by done. rewrite bool_decide_eq_true_2 by done.
  simpl. unfold InferAdditionalRestarts. rewrite Hl, Hf, (int32_small (cs_RestartCount c - cs_RestartCount c')) by lia.
  destruct (Z.ltb_spec 0 (cs_RestartCount c - cs_RestartCount c')); rewrite int32_small by lia; lia.
Qed.

(** A remote pod that is replaced while the virtual kubelet runs counts as one
    restart, whatever the replaced one had. *)
Lemma replaced_counts_one lo rem info : RemoteUID info ≠ ""%string → RemoteUID info ≠ p_UID rem →
  Restarts (count_restarts lo rem info) = int32 (Restarts info + 1).
Proof.
  intros H1 H2. unfold count_restarts. by rewrite (bool_decide_eq_false_2 (RemoteUID info = p_UID rem)), bool_decide_eq_false_2.
Qed.

(** Without reflection of addresses the status of a pod is written again every time:
    the empty list of addresses that is forged never equals the missing one that the
    API server gives back. *)
Theorem opaque_ips_rewritten (name : string) (lo rem : Pod) (shadow : option ShadowPod) (info : PodInfo) (w w' : pworld) :
  DisableIPReflection config = true → st_PodIPs (p_Status lo) = None →
  HandleStatus name lo (Some rem) shadow info w = Ret (w', Ok ()) →
  ∃ st, calls w' = calls w ++ [UpdateLocalStatus name st].
Proof.
  intros Hd Hn. unfold VkPod.HandleStatus.
  intros [([st [i e]] & w1 & H1 & H2)|(e & H1 & ?)]%K_bind_inv; [|done].
  unfold lift in H1. destruct (LocalPodStatus _ _ _ _ _ _) as [[st1 s1]| |] eqn:E; [|done..]. simpl in H1. simplify_eq.
  rewrite (K_bind_ok _ _ _ _ _ eq_refl) in H2. destruct e as [e|]; [done|].
  assert (Hst : st_PodIPs st = Some []).
  { unfold LocalPodStatus, status_mutators in E. rewrite Hd in E.
    destruct (bool_decide _) in E; simpl in E; [by injection E as <- _|].
    destruct (translator _ _ _) as [[t s2]| |]; simpl in E; [by injection E as <- _|done..]. }
  set (st' := if HasRemoteUnavailableLabel lo then _ else st) in H2.
  assert (Hst' : st_PodIPs st' = Some []) by (unfold st'; by destruct (HasRemoteUnavailableLabel lo)).
  exists st'. unfold update_status in H2. rewrite bool_decide_eq_false_2 in H2 by congruence.
  unfold issue in H2. by simplify_eq.
Qed.

(** ** The handler returns *)

Definition returns {A} (m : K pworld A) : Prop := ∀ w, ∃ w' r, m w = Ret (w', r).

Lemma returns_ret {A} (a : A) : returns (mret a).
Proof. intros w. by eexists _, _. Qed.
Lemma returns_fail {A} e : returns (fail e : K pworld A).
Proof. intros w. by eexists _, _. Qed.
Lemma returns_bind {A B} (m : K pworld A) (f : A → K pworld B) : returns m → (∀ a, returns (f a)) → returns (m ≫= f).
Proof.
  intros Hm Hf w. unfold mbind, K_bind. destruct (Hm w) as (w1 & [a|e] & ->); [apply Hf|by eexists _, _].
Qed.
Lemma returns_lift {A B} (o : outcome A) (f : A → K pworld B) a : o = Ret a → returns (f a) → returns (lift o ≫= f).
Proof. intros -> Hf w. apply Hf. Qed.
Lemma returns_attempt {A} (m : K pworld A) : returns m → returns (attempt m).
Proof. intros Hm w. unfold attempt. destruct (Hm w) as (w1 & r & ->). by eexists _, _. Qed.
Lemma returns_issue c : returns (issue answer c).
Proof. intros w. by eexists _, _. Qed.
Lemma returns_info name : returns (RetrievePodInfo name).
Proof. intros w. by eexists _, _. Qed.
Lemma returns_store name i : returns (store_info name i).
Proof. intros w. by eexists _, _. Qed.
Lemma returns_forget name : returns (ForgetPodInfo name).
Proof. intros w. by eexists _, _. Qed.

Lemma returns_status name lo remote shadow info :
  (∀ cfg rem, NetConfiguration config = Some cfg → remote = Some rem →
     ∃ r, MapAddressWithConfiguration (Some cfg) (st_PodIP (p_Status rem)) = Ret r) →
  returns (HandleStatus name lo remote shadow info).
Proof.
  intros Hm. unfold VkPod.HandleStatus.
  assert (Hu : ∀ st, returns (update_status answer name lo st))
    by (intros st; unfold update_status; case_match; [apply returns_ret|apply returns_issue]).
  destruct remote as [rem|].
  2:{ destruct shadow as [sh|]; [|apply returns_ret]. case_match; [apply Hu|apply returns_ret]. }
  assert (∃ x, LocalPodStatus LiqoNodeIP (p_Status rem) (translator config) (Restarts (count_restarts lo rem info))
    (status_mutators config lo) (count_restarts lo rem info, None) = Ret x) as [[st [i e]] Hx].
  { unfold LocalPodStatus. case_bool_decide; [by eexists|]. unfold translator, MapPodIP.
    destruct (NetConfiguration config) as [cfg|]; [|by eexists]. simpl.
    case_bool_decide; [by eexists|]. destruct (Hm cfg rem eq_refl eq_refl) as [[t|e] ->]; by eexists. }
  eapply returns_lift; [exact Hx|]. apply returns_bind; [apply returns_store|]. intros _.
  destruct e; [apply returns_fail|apply Hu].
Qed.

Lemma ForgeShadowPod_returns local shadow info o : opts = Some o → ∃ i r, ForgeShadowPod local shadow info = Ret (i, r).
Proof.
  intros Ho. destruct (CheckDRAClaimStatusesReady local) eqn:Hd.
  2:{ unfold VkPod.ForgeShadowPod. rewrite Hd. by eexists _, _. }
  destruct shadow as [sh|]; [eexists _, _; by apply ForgeShadowPod_update|].
  destruct (ForgeShadowPod_create local info o Ho Hd) as (r & s & _ & _ & _ & ->). by eexists _, _.
Qed.

Lemma returns_enforce name lo remote shadow o : opts = Some o →
  (∀ cfg rem, NetConfiguration config = Some cfg → remote = Some rem →
     ∃ r, MapAddressWithConfiguration (Some cfg) (st_PodIP (p_Status rem)) = Ret r) →
  returns (enforce_presence name lo remote shadow).
Proof.
  intros Ho Hm. unfold VkPod.enforce_presence, HandleLabels.
  apply returns_bind; [destruct (LocalPodOffloadedLabel lo); [apply returns_issue|apply returns_ret]|]. intros _.
  apply returns_bind; [apply returns_info|]. intros info.
  destruct (ForgeShadowPod_returns lo shadow (set_prevent info false) o Ho) as (i & r & Hf).
  destruct shadow as [sh|].
  - eapply returns_lift; [exact Hf|]. apply returns_bind; [apply returns_store|]. intros _.
    destruct r as [target|e]; [|apply returns_fail].
    apply returns_bind; [destruct (_ && _); [apply returns_issue|apply returns_ret]|]. intros _. by apply returns_status.
  - destruct (PreventCreationUntilSeen info); [apply returns_ret|].
    eapply returns_lift; [exact Hf|]. apply returns_bind; [apply returns_store|]. intros _.
    destruct r as [target|e]; [|apply returns_fail].
    apply returns_bind; [apply returns_attempt, returns_issue|].
    intros [[]|[]]; first [apply returns_store | apply returns_fail | apply returns_ret].
Qed.

(** The handler of a pod never panics: with forging options and an address that can be
    mapped, it returns on any content of the caches; in particular the closure that
    looks up the secret of the service account is never called when it is nil. *)
Theorem pod_handle_returns (name : string) (local remote : option Pod) (shadow : option ShadowPod) (o : ForgingOpts) :
  opts = Some o →
  (∀ cfg rem, NetConfiguration config = Some cfg → remote = Some rem →
     ∃ r, MapAddressWithConfiguration (Some cfg) (st_PodIP (p_Status rem)) = Ret r) →
  returns (Handle name local remote shadow).
Proof.
  intros Ho Hm. unfold VkPod.Handle, DeleteRemote.
  assert (Hdel : ∀ c, returns (ignore_not_found (issue answer c))).
  { intros c. apply returns_bind; [apply returns_attempt, returns_issue|].
    intros [[]|[]]; first [apply returns_ret | apply returns_fail]. }
  assert (Hst : ∀ lo, returns (RetrievePodInfo name ≫= HandleStatus name lo remote shadow)).
  { intros lo. apply returns_bind; [apply returns_info|]. intros i. by apply returns_status. }
  destruct (_ || _); [apply returns_ret|].
  destruct local as [lo|]; [|by destruct shadow; [apply Hdel|apply returns_ret]].
  destruct (p_Deleting lo).
  { destruct remote, shadow; try (destruct (alive _); [apply Hdel|apply Hst]).
    apply returns_bind; [apply Hdel|intros; apply returns_forget]. }
  destruct (_ && _); [by destruct (alive shadow); [apply Hdel|apply returns_ret]|].
  destruct (_ && _); [apply returns_ret|by eapply returns_enforce].
Qed.
End props.

(** ** Examples *)

Definition ex_config (disableIP : bool) : PodReflectorConfig := mkConfig APIServerSupportTokenAPI (Some example_cfg) "" "" disableIP.
Definition ex_opts : ForgingOpts :=
  mkForgingOpts [] [] ∅ [] (Some (Some (mkNodeAffinity (Some ["zone=a"%string]) []))) None.
Definition ex_token_volume : Volume :=
  mkVolume "kube-api-access-x" (Some (mkProjected
    [mkVolumeProjection None (Some (mkTp "" None "token")) None None;
     mkVolumeProjection (Some (mkCmp RootCAConfigMapName [] None)) None None None] None)) None.
Definition ex_spec : PodSpec :=
  mkPodSpec [mkContainer "app" "nginx" [] ∅ ∅ None] [] [] [mkToleration VirtualNodeTolerationKey "Exists" "" "" None]
    [ex_token_volume] [] "sa" None false None ∅ None no_copied None.
Definition ex_pod_status (restarts : Z) (ip : string) (ips : option (list string)) : PodStatus :=
  mkPodStatus "Running" "" [] ip ips "" None [mkContainerStatus "app" true restarts (mkState None None None) None] [] [] [] None.
Definition ex_local (annotations : labels) (status : PodStatus) : Pod :=
  mkPod "p" "u1" {[ "app"%string := "web"%string ]} annotations false ex_spec status.
Definition ex_remote (uid : string) : Pod :=
  mkPod "p" uid (ReflectionLabels "home" "away") ∅ false ex_spec (ex_pod_status 2 "10.1.0.5" (Some ["10.1.0.5"%string])).
Definition ex_hash (_ : string) : list Z := replicate 32 10.
Definition ex_forge (local : Pod) : outcome (PodInfo * result kerr ShadowPod) :=
  ForgeShadowPod "home" "away" "vnode" "443" ex_hash (ex_config false) (Some ex_opts) "ns" (fun _ => []) ([], None) local None new_info.
Definition ex_target (local : Pod) : ShadowPod :=
  match ex_forge local with
  | Ret (_, Ok t) => t
  | _ => mkShadowPod "" "" "" ∅ ∅ false empty_spec ""
  end.
Definition ex_plain : Pod := ex_local ∅ (ex_pod_status 5 "" None).
Definition ex_soft : Pod := ex_local {[ PodAntiAffinityPresetKey := "soft"%string ]} (ex_pod_status 5 "" None).
Definition ex_yes (_ : list call) (_ : call) : option kerr := None.

Lemma ex_forge_ok : ex_forge ex_plain = Ret (new_info, Ok (ex_target ex_plain)) ∧ ex_forge ex_soft = Ret (new_info, Ok (ex_target ex_soft)).
Proof. split; vm_compute; reflexivity. Qed.

Lemma remote_volumes_exact_witness :
  ∃ vs s', RemoteVolumes "home" ex_hash APIServerSupportTokenAPI (Some (fun n : nat => (S n, "p-token"%string))) [ex_token_volume] 0%nat = Ret (vs, s') ∧
    v_Name <$> vs = ["kube-api-access-x"%string] ∧ Forall volume_tokenless vs.
Proof.
  apply (proj2 (remote_volumes_exact "home" ex_hash APIServerSupportTokenAPI (Some (fun n : nat => (S n, "p-token"%string))) [ex_token_volume] 0%nat)).
  left. by eexists.
Defined.

Lemma pod_settles_witness :
  issues_only (fun c => ¬ remote_write c) (Handle "home" "away" "vnode" "10.0.0.1" "443" ex_hash (ex_config false) (Some ex_opts) "ns"
    (fun _ => []) ([], None) ex_yes (fun _ => 0) "p" (Some ex_plain) None (Some (ex_target ex_plain))).
Proof.
  apply (pod_settles "home" "away" "vnode" "10.0.0.1" "443" ex_hash (ex_config false) (Some ex_opts) "ns" (fun _ => []) ([], None) ex_yes
    (fun _ => 0) "p" ex_plain None (ex_target ex_plain) (ex_target ex_plain) new_info new_info).
  - apply ex_forge_ok.
  - done.
  - split; vm_compute; repeat constructor; set_solver.
  - reflexivity.
  - by intros [H _].
Defined.

Definition ex_run (disableIP : bool) : outcome (pworld * result kerr ()) :=
  HandleStatus "10.0.0.1" (ex_config disableIP) ex_yes (fun _ => 0) "p" ex_plain (Some (ex_remote "u9")) None new_info (mkPworld ∅ []).
Definition ex_succeeded (o : outcome (pworld * result kerr ())) : bool := match o with Ret (_, r) => is_ok r | _ => false end.

Lemma ex_run_ok b : ∃ w', ex_run b = Ret (w', Ok ()).
Proof.
  assert (H : ex_succeeded (ex_run b) = true) by (destruct b; vm_compute; reflexivity).
  destruct (ex_run b) as [[w' [[]|e]]| |]; [by exists w'|discriminate H..].
Qed.

Lemma pod_status_reflected_witness : ∃ w' ip st, ex_run false = Ret (w', Ok ()) ∧
  mapped (ex_config false) "10.1.0.5" ip ∧ st = reflected_status "10.0.0.1" (ex_config false) (fun _ => 0) ex_plain (ex_remote "u9") 3 ip ∧
  calls w' = [UpdateLocalStatus "p" st].
Proof.
  assert (Hv : info_valid (ex_config false) new_info) by (by intros cfg _ ?).
  destruct (ex_run_ok false) as [w' Hw].
  pose proof (pod_status_reflected "10.0.0.1" (ex_config false) ex_yes (fun _ => 0) "p" ex_plain (ex_remote "u9") None new_info
    (mkPworld ∅ []) w' (Ok ()) Hv) as Hp. unfold ex_run in Hw. specialize (Hp Hw). destruct Hp as [[_ H]|(ip & st & Hip & Hst & Hc)]; [discriminate H|].
  exists w', ip, st. split; [exact Hw|]. split; [exact Hip|]. split; [exact Hst|].
  rewrite Hc. rewrite bool_decide_eq_false_2; [reflexivity|]. rewrite Hst. discriminate.
Defined.

Lemma preset_drops_node_affinity_witness : ∃ a, ps_Affinity (sh_Spec (ex_target ex_soft)) = Some a ∧ af_Node a = None ∧ is_Some (af_AntiPod a).
Proof.
  apply (preset_drops_node_affinity "home" "away" "vnode" "443" ex_hash (ex_config false) (Some ex_opts) "ns" (fun _ => []) ([], None)
    ex_soft new_info new_info (ex_target ex_soft) "soft"); [reflexivity|by left|apply ex_forge_ok].
Defined.

(** Without the preset the node affinity is there. *)
Example plain_keeps_node_affinity :
  ps_Affinity (sh_Spec (ex_target ex_plain)) = Some (mkAffinity (Some (mkNodeAffinity (Some ["zone=a"%string]) [])) None None).
Proof. vm_compute. reflexivity. Qed.

Lemma restarts_survive_witness :
  cs_RestartCount (add_restarts (Restarts (count_restarts ex_plain (ex_remote "u9") new_info))
    (mkContainerStatus "app" true 2 (mkState None None None) None)) = 5.
Proof.
  apply (restarts_survive ex_plain (ex_remote "u9") new_info (mkContainerStatus "app" true 5 (mkState None None None) None)
    (mkContainerStatus "app" true 2 (mkState None None None) None) []); try reflexivity; try discriminate; simpl; lia.
Defined.

(** While the virtual kubelet runs, the replacement of a remote pod lowers the count:
    the local status said 5, and the new pod with none is reported with 1. *)
Example replaced_pod_lowers_count :
  Restarts (count_restarts ex_plain (ex_remote "u10") (mkPodInfo false 0 "u9" "" "" "")) = 1 ∧
  cs_RestartCount <$> st_ContainerStatuses (p_Status ex_plain) = [5].
Proof. split; reflexivity. Qed.

(** A toleration of every taint is kept, the one of virtual nodes included. *)
Example wildcard_toleration_kept :
  RemoteTolerations [mkToleration "" "Exists" "" "" None; mkToleration VirtualNodeTolerationKey "Exists" "" "" None]
  = [mkToleration "" "Exists" "" "" None].
Proof. reflexivity. Qed.

Lemma opaque_ips_rewritten_witness : ∃ w' st, ex_run true = Ret (w', Ok ()) ∧ calls w' = [UpdateLocalStatus "p" st].
Proof.
  destruct (ex_run_ok true) as [w' Hw].
  unfold ex_run in Hw. pose proof (opaque_ips_rewritten "10.0.0.1" (ex_config true) ex_yes (fun _ => 0) "p" ex_plain (ex_remote "u9")
    None new_info (mkPworld ∅ []) w' eq_refl eq_refl Hw) as [st Hc].
  exists w', st. split; [exact Hw|exact Hc].
Defined.

Lemma pod_handle_returns_witness :
  returns (Handle "home" "away" "vnode" "10.0.0.1" "443" ex_hash (ex_config false) (Some ex_opts) "ns" (fun _ => []) ([], None) ex_yes
    (fun _ => 0) "p" (Some ex_plain) (Some (ex_remote "u9")) None).
Proof.
  apply (pod_handle_returns _ _ _ _ _ _ _ _ _ _ _ _ _ "p" (Some ex_plain) (Some (ex_remote "u9")) None ex_opts eq_refl).
  intros cfg rem [= <-] [= <-]. eexists. vm_compute. reflexivity.
Defined.
