(* ===== verification/KubeClient.v ===== *)
(** * KubeClient: the client of the controllers
      (src/pkg/utils/resource/wrappers.go)

    Controllers read and write objects through a client; the firewall webhooks sit
    between the client and the server.  [controllerutil.CreateOrUpdate] is not part
    of the repository: a class with what its documentation says. *)

From S2P Require Export GoStrings Kube.
Local Open Scope Z_scope.

#[export] Instance field_eq_dec {P} `{EqDecision P} : EqDecision (field P).
Proof. solve_decision. Defined.
#[export] Instance Obj_eq_dec {P} `{EqDecision P} : EqDecision (Obj P).
Proof. solve_decision. Defined.

(** The client, over a world [W]. *)
Record Client (W P : Type) := mkClient {
  c_Get : okey → K W (Obj P);
  c_List : string → string → labels → K W (list (string * Obj P));
  c_Create : okey → Obj P → K W (Obj P);
  c_Update : okey → Obj P → K W (Obj P);
  c_Delete : okey → K W ()
}.
Arguments mkClient {W P}.
Arguments c_Get {W P}.
Arguments c_List {W P}.
Arguments c_Create {W P}.
Arguments c_Update {W P}.
Arguments c_Delete {W P}.

Definition lift_outcome {W A} (o : outcome (result kerr A)) : K W A := fun w => r ← o; Ret (w, r).

(** An object with only a name and a namespace. *)
Definition blank {P} : Obj P := mkObj ∅ ∅ [] false 0 Absent Absent.

Notation mutate_fn P := (Obj P → outcome (result kerr (Obj P))).

(** "CreateOrUpdate attempts to fetch the given object from the Kubernetes cluster.
    If the object didn't exist before, MutateFn will be called, and it will be
    created.  If it did exist before, MutateFn will be called, and if it changed the
    object, it will be updated.  Otherwise, it will be left unchanged." *)
Class CreateOrUpdater (P : Type) `{EqDecision P} := {
  ctrl_CreateOrUpdateK {W} : Client W P → okey → (Obj P → K W (Obj P)) → K W (Obj P);
  couK_missing {W} (c : Client W P) k f w w1 : c_Get c k w = Ret (w1, Err NotFound) →
    ctrl_CreateOrUpdateK c k f w = (o ← f blank; c_Create c k o) w1;
  couK_failed {W} (c : Client W P) k f w w1 e : c_Get c k w = Ret (w1, Err e) → e ≠ NotFound →
    ctrl_CreateOrUpdateK c k f w = Ret (w1, Err e);
  couK_found {W} (c : Client W P) k f w w1 o : c_Get c k w = Ret (w1, Ok o) →
    ctrl_CreateOrUpdateK c k f w = (o' ← f o; if decide (o' = o) then mret o else c_Update c k o') w1;
  couK_panics {W} (c : Client W P) k f w : c_Get c k w = Panic → ctrl_CreateOrUpdateK c k f w = Panic
}.

(** A mutation that only looks at the object. *)
Section pure_mutation.
Context `{CU : CreateOrUpdater P} {W : Type} (c : Client W P) (k : okey) (f : mutate_fn P).
Definition ctrl_CreateOrUpdate : K W (Obj P) := ctrl_CreateOrUpdateK c k (fun o => lift_outcome (f o)).
Lemma cou_missing w w1 : c_Get c k w = Ret (w1, Err NotFound) → ctrl_CreateOrUpdate w = (o ← lift_outcome (f blank); c_Create c k o) w1.
Proof. apply (couK_missing c k (fun o => lift_outcome (f o))). Qed.
Lemma cou_failed w w1 e : c_Get c k w = Ret (w1, Err e) → e ≠ NotFound → ctrl_CreateOrUpdate w = Ret (w1, Err e).
Proof. apply (couK_failed c k (fun o => lift_outcome (f o))). Qed.
Lemma cou_found w w1 o : c_Get c k w = Ret (w1, Ok o) →
  ctrl_CreateOrUpdate w = (o' ← lift_outcome (f o); if decide (o' = o) then mret o else c_Update c k o') w1.
Proof. apply (couK_found c k (fun o => lift_outcome (f o))). Qed.
Lemma cou_panics w : c_Get c k w = Panic → ctrl_CreateOrUpdate w = Panic.
Proof. apply (couK_panics c k (fun o => lift_outcome (f o))). Qed.
End pure_mutation.

(** ** wrappers.go *)

(** [strings.ReplaceAll] for an old string that is not empty: [skip] characters of
    the match are left. *)
Fixpoint replace_from (skip : nat) (old new s : string) : string :=
  match s with
  | EmptyString => EmptyString
  | String c rest =>
    match skip with
    | S n => replace_from n old new rest
    | O => if String.prefix old s then (new ++ replace_from (String.length old - 1) old new rest)%string
           else String c (replace_from 0 old new rest)
    end
  end.
Definition strings_ReplaceAll (s old new : string) : string := replace_from 0 old new s.

Definition knownVariables : list string := ["namespace"; "name"; "kind"; "group"].
Definition getVar (variable : string) (k : okey) (gk : string * string) : string :=
  let '(_, ns, name) := k in
  if bool_decide (variable = "namespace"%string) then ns
  else if bool_decide (variable = "name"%string) then name
  else if bool_decide (variable = "kind"%string) then fst gk
  else if bool_decide (variable = "group"%string) then snd gk
  else "".
(** The variables in the order the map is visited, which varies. *)
Definition buildVariablesMap (order : list string) (kinds : string → option (string * string)) (k : okey) :
    option (list (string * string)) :=
  match kinds (k.1.1) with
  | None => None
  | Some gk => Some ((fun v => (v, getVar v k gk)) <$> order)
  end.
Definition replaceVariables (s : string) (vars : list (string * string)) : string :=
  foldl (fun s v => strings_ReplaceAll s ("${" ++ fst v ++ "}") (snd v)) s vars.

(** The global labels and annotations are added last. *)
Definition wrapped {P} (order : list string) (kinds : string → option (string * string)) (globalLabels globalAnnotations : labels)
    (k : okey) (f : mutate_fn P) : mutate_fn P := fun o =>
  r ← f o;
  match r with
  | Err e => Ret (Err e)
  | Ok o =>
    match buildVariablesMap order kinds k with
    | None => Ret (Err OtherErr)
    | Some vars =>
      Ret (Ok (mkObj (((fun v => replaceVariables v vars) <$> globalLabels) ∪ o_labels o)
                 (((fun v => replaceVariables v vars) <$> globalAnnotations) ∪ o_annotations o)
                 (o_finalizers o) (o_deleting o) (o_version o) (o_spec o) (o_status o)))
    end
  end.
Definition CreateOrUpdate {W P} `{CreateOrUpdater P} (order : list string) (kinds : string → option (string * string))
    (globalLabels globalAnnotations : labels) (c : Client W P) (k : okey) (f : mutate_fn P) : K W (Obj P) :=
  ctrl_CreateOrUpdate c k (wrapped order kinds globalLabels globalAnnotations k f).

(** The same for a mutation that has effects of its own. *)
Definition wrappedK {W P} (order : list string) (kinds : string → option (string * string)) (globalLabels globalAnnotations : labels)
    (k : okey) (f : Obj P → K W (Obj P)) : Obj P → K W (Obj P) := fun o =>
  o ← f o; lift_outcome (wrapped order kinds globalLabels globalAnnotations k (fun o => Ret (Ok o)) o).
Definition CreateOrUpdateK {W P} `{CreateOrUpdater P} (order : list string) (kinds : string → option (string * string))
    (globalLabels globalAnnotations : labels) (c : Client W P) (k : okey) (f : Obj P → K W (Obj P)) : K W (Obj P) :=
  ctrl_CreateOrUpdateK c k (wrappedK order kinds globalLabels globalAnnotations k f).

(** An implementation that meets the documentation. *)
Definition create_or_update {P} `{EqDecision P} {W} (c : Client W P) (k : okey) (f : Obj P → K W (Obj P)) : K W (Obj P) := fun w =>
  match c_Get c k w with
  | Ret (w1, Err NotFound) => (o ← f blank; c_Create c k o) w1
  | Ret (w1, Err e) => Ret (w1, Err e)
  | Ret (w1, Ok o) => (o' ← f o; if decide (o' = o) then mret o else c_Update c k o') w1
  | Panic => Panic
  | Diverge => Diverge
  end.
Lemma create_or_update_laws {P} `{EqDecision P} :
  (∀ W (c : Client W P) k f w w1, c_Get c k w = Ret (w1, Err NotFound) →
     create_or_update c k f w = (o ← f blank; c_Create c k o) w1) ∧
  (∀ W (c : Client W P) k f w w1 e, c_Get c k w = Ret (w1, Err e) → e ≠ NotFound → create_or_update c k f w = Ret (w1, Err e)) ∧
  (∀ W (c : Client W P) k f w w1 o, c_Get c k w = Ret (w1, Ok o) → create_or_update c k f w =
     (o' ← f o; if decide (o' = o) then mret o else c_Update c k o') w1) ∧
  (∀ W (c : Client W P) k f w, c_Get c k w = Panic → create_or_update c k f w = Panic).
Proof.
  repeat split; intros *; unfold create_or_update; intros ->; [done| |done..].
  by destruct e.
Qed.
Definition documented (P : Type) `{EqDecision P} : CreateOrUpdater P := {|
  ctrl_CreateOrUpdateK := fun W => create_or_update;
  couK_missing := fun W => proj1 create_or_update_laws W;
  couK_failed := fun W => proj1 (proj2 create_or_update_laws) W;
  couK_found := fun W => proj1 (proj2 (proj2 create_or_update_laws)) W;
  couK_panics := fun W => proj2 (proj2 (proj2 create_or_update_laws)) W
|}.

(** ** A client of an API server without webhooks

    The client most controllers are proved against: reads are up to date and writes
    go straight to the server.  Writes of the objects a controller owns, kept out of
    the server, are recorded in a log when they succeed. *)

Lemma attempt_inv {W A} (m : K W A) w w' r : attempt m w = Ret (w', r) → ∃ x, m w = Ret (w', x) ∧ r = Ok x.
Proof. unfold attempt. destruct (m w) as [[w1 x]| |]; [|done..]. intros [= <- <-]. by exists x. Qed.
Lemma attempt_ok {W A} (m : K W A) w w' x : m w = Ret (w', x) → attempt m w = Ret (w', Ok x).
Proof. unfold attempt. by intros ->. Qed.

Section api.
Context {P L : Type} {Api : KubeApi P}.

Record pworld := mkPworld { pw_server : server; pw_log : list L }.
Notation "w ⋅ k" := (content (pw_server w) !! k) (at level 20, k at next level).

Definition on_pserver {A} (f : server → server * result kerr A) : K pworld A := fun w =>
  let '(s, r) := f (pw_server w) in Ret (mkPworld s (pw_log w), r).
Definition plain_get (k : okey) : K pworld (Obj P) := fun w =>
  Ret (w, match w ⋅ k with Some o => Ok o | None => Err NotFound end).
Definition plain_client (lists : string → string → labels → server → list (string * Obj P)) : Client pworld P := {|
  c_Get := plain_get;
  c_List := fun r ns l w => Ret (w, Ok (lists r ns l (pw_server w)));
  c_Create := fun k o => on_pserver (Create k o);
  c_Update := fun k o => on_pserver (Update k o);
  c_Delete := fun k => on_pserver (Delete k)
|}.
(** A write that is answered. *)
Definition log_write (answer : pworld → L → option kerr) (x : L) : K pworld () := fun w =>
  match answer w x with
  | Some e => Ret (w, Err e)
  | None => Ret (mkPworld (pw_server w) (pw_log w ++ [x]), Ok ())
  end.

Lemma on_pserver_inv {A} (f : server → server * result kerr A) w w' r : on_pserver f w = Ret (w', r) →
  f (pw_server w) = (pw_server w', r) ∧ pw_log w' = pw_log w.
Proof. unfold on_pserver. destruct (f (pw_server w)) as [s r']. by intros [= <- <-]. Qed.
Lemma on_pserver_returns {A} (f : server → server * result kerr A) w :
  on_pserver f w = Ret (mkPworld (f (pw_server w)).1 (pw_log w), (f (pw_server w)).2).
Proof. unfold on_pserver. by destruct (f (pw_server w)). Qed.

(** What a call leaves alone. *)
Definition only (k : okey) (w w' : pworld) : Prop := pw_log w' = pw_log w ∧ ∀ k', k' ≠ k → w' ⋅ k' = w ⋅ k'.
Lemma only_refl k w : only k w w.
Proof. done. Qed.

Context (lists : string → string → labels → server → list (string * Obj P)).
Notation cl := (plain_client lists).

Lemma plain_create_frame k o w w' r : c_Create cl k o w = Ret (w', r) → only k w w'.
Proof. intros [H Hl]%on_pserver_inv. split; [done|]. intros. by eapply Create_frame. Qed.
Lemma plain_update_frame k o w w' r : c_Update cl k o w = Ret (w', r) → only k w w'.
Proof. intros [H Hl]%on_pserver_inv. split; [done|]. intros. by eapply Update_frame. Qed.
Lemma plain_delete_frame k w w' r : c_Delete cl k w = Ret (w', r) → only k w w'.
Proof. intros [H Hl]%on_pserver_inv. split; [done|]. intros. by eapply Delete_frame. Qed.

(** What the calls leave when the server answers. *)
Section answered.
Context {R : Responsive P}.
Lemma plain_get_runs k o w : w ⋅ k = Some o → c_Get cl k w = Ret (w, Ok o).
Proof. cbn. unfold plain_get. by intros ->. Qed.
Lemma plain_get_misses k w : w ⋅ k = None → c_Get cl k w = Ret (w, Err NotFound).
Proof. cbn. unfold plain_get. by intros ->. Qed.
Lemma plain_create_runs k o w : w ⋅ k = None →
  ∃ w' o', c_Create cl k o w = Ret (w', Ok o') ∧ only k w w' ∧ w' ⋅ k = Some o' ∧ same_meta o o' ∧ o_spec o' = o_spec o ∧ o_deleting o' = false.
Proof.
  intros Hk. pose proof (Create_answers k o (pw_server w) Hk) as Ha. cbn. rewrite on_pserver_returns.
  destruct (Create k o (pw_server w)) as [s' [o'|]] eqn:E; [|done]. eexists _, o'. split; [done|]. split; [split; [done|]; intros; by eapply Create_frame|].
  apply Create_ok in E as (_ & E & Hm & Hs & _ & Hd). cbn. rewrite E, lookup_insert_eq. done.
Qed.
Lemma plain_update_runs k o w cur : w ⋅ k = Some cur → o_version o = o_version cur → o_finalizers o = o_finalizers cur → lives cur →
  ∃ w' o', c_Update cl k o w = Ret (w', Ok o') ∧ only k w w' ∧ w' ⋅ k = Some o' ∧ same_meta o o' ∧ o_spec o' = o_spec o ∧ o_status o' = o_status cur ∧
    o_deleting o' = o_deleting cur.
Proof.
  intros Hk Hv Hf Hl. pose proof (Update_answers k o (pw_server w) cur Hk Hv) as Ha. cbn. rewrite on_pserver_returns.
  destruct (Update k o (pw_server w)) as [s' [o'|]] eqn:E; [|done]. eexists _, o'. split; [done|]. split; [split; [done|]; intros; by eapply Update_frame|].
  apply Update_ok in E as (cur' & Hc & _ & E & Hm & Hs & Hst & Hd). assert (cur' = cur) as -> by congruence. cbn.
  rewrite E, store_obj_lives, lookup_insert_eq; [done|]. intros Hx. destruct Hm as (_ & _ & ->). rewrite Hf. apply Hl. congruence.
Qed.
Lemma plain_update_status_runs k o w cur : w ⋅ k = Some cur → o_version o = o_version cur → lives cur →
  ∃ w' o', on_pserver (UpdateStatus k o) w = Ret (w', Ok o') ∧ only k w w' ∧ w' ⋅ k = Some o' ∧ same_meta cur o' ∧ o_spec o' = o_spec cur ∧
    o_status o' = o_status o ∧ o_deleting o' = o_deleting cur.
Proof.
  intros Hk Hv Hl. pose proof (UpdateStatus_answers k o (pw_server w) cur Hk Hv) as Ha. rewrite on_pserver_returns.
  destruct (UpdateStatus k o (pw_server w)) as [s' [o'|]] eqn:E; [|done]. eexists _, o'. split; [done|]. split; [split; [done|]; intros; by eapply UpdateStatus_frame|].
  apply UpdateStatus_ok in E as (cur' & Hc & _ & E & Hm & Hs & Hst & Hd). assert (cur' = cur) as -> by congruence. cbn.
  rewrite E, store_obj_lives, lookup_insert_eq; [done|]. intros Hx. destruct Hm as (_ & _ & ->). apply Hl. congruence.
Qed.
End answered.

Context `{Heq : EqDecision P} {CU : CreateOrUpdater P} (order : list string) (kinds : string → option (string * string))
  (globalLabels globalAnnotations : labels).
Notation wrap := (wrapped order kinds globalLabels globalAnnotations).
Notation cou := (CreateOrUpdate order kinds globalLabels globalAnnotations cl).

Lemma plain_cou_eq k f w : cou k f w =
  match w ⋅ k with
  | None => (o ← lift_outcome (wrap k f blank); c_Create cl k o) w
  | Some o => (o' ← lift_outcome (wrap k f o); if decide (o' = o) then mret o else c_Update cl k o') w
  end.
Proof.
  unfold CreateOrUpdate. destruct (w ⋅ k) as [o|] eqn:Hk.
  - apply cou_found. cbn. unfold plain_get. by rewrite Hk.
  - apply cou_missing. cbn. unfold plain_get. by rewrite Hk.
Qed.
Lemma lift_outcome_ret {W A} (o : outcome (result kerr A)) (w w' : W) r : lift_outcome o w = Ret (w', r) → w' = w ∧ o = Ret r.
Proof. unfold lift_outcome. destruct o as [a| |]; cbn; [|done..]. by intros [= <- <-]. Qed.

Lemma plain_cou_frame k f w w' r : cou k f w = Ret (w', r) → only k w w'.
Proof.
  rewrite plain_cou_eq. destruct (w ⋅ k) as [o|];
    (intros [(o1 & w1 & [-> _]%lift_outcome_ret & H)|(e & [-> _]%lift_outcome_ret & _)]%K_bind_inv; [|apply only_refl]).
  - destruct (decide (o1 = o)); [injection H as <- _; apply only_refl|by eapply plain_update_frame].
  - by eapply plain_create_frame.
Qed.

(** A server that answers, an object that is not about to go and a mutation that
    keeps the version: the call succeeds and the object is there. *)
Context {R : Responsive P}.
Definition gentle_at (f : mutate_fn P) (o : Obj P) : Prop := ∃ o1, f o = Ret (Ok o1) ∧ o_version o1 = o_version o ∧ o_finalizers o1 = o_finalizers o.
Definition gentle (f : mutate_fn P) : Prop := ∀ o, gentle_at f o.
Lemma wrap_gentle_at k f gk o : kinds k.1.1 = Some gk → gentle_at f o → gentle_at (wrap k f) o.
Proof.
  intros Hk (o1 & E & Hv & Hfin). unfold gentle_at, wrapped. rewrite E. cbn [mbind outcome_bind].
  unfold buildVariablesMap. rewrite Hk. eexists. split; [reflexivity|]. done.
Qed.
Lemma plain_cou_succeeds_at k f w gk : kinds k.1.1 = Some gk → gentle_at f (default blank (w ⋅ k)) → (∀ o, w ⋅ k = Some o → lives o) →
  ∃ w' o', cou k f w = Ret (w', Ok o') ∧ only k w w' ∧ w' ⋅ k = Some o' ∧ lives o' ∧
    ∃ o1, wrap k f (default blank (w ⋅ k)) = Ret (Ok o1) ∧ same_meta o1 o' ∧ o_spec o' = o_spec o1.
Proof.
  intros Hk Hf Hl. apply (wrap_gentle_at k f gk _ Hk) in Hf as (o1 & H1 & Hv & Hfin).
  assert (Hret : ∃ w' r, cou k f w = Ret (w', r)).
  { rewrite plain_cou_eq. destruct (w ⋅ k) as [o|]; cbn [default from_option id] in H1; rewrite H1; erewrite K_bind_ok by reflexivity.
    - case_decide; [by eexists _, _|]. cbn. rewrite on_pserver_returns. by eexists _, _.
    - cbn. rewrite on_pserver_returns. by eexists _, _. }
  destruct Hret as (w' & r & E). pose proof (plain_cou_frame _ _ _ _ _ E) as Ho. pose proof E as Hrun. rewrite plain_cou_eq in E.
  destruct (w ⋅ k) as [o|] eqn:Hw; cbn [default from_option id] in H1, Hv, Hfin |- *; rewrite H1 in E; erewrite K_bind_ok in E by reflexivity; revert E.
  - case_decide as Hd.
    { subst o1. intros [= <- <-]. exists w, o. cbn. split; [done|]. split; [done|]. split; [done|]. split; [by apply Hl|]. by exists o. }
    intros [H _]%on_pserver_inv.
    pose proof (Update_answers k o1 (pw_server w) o Hw Hv) as Ha. rewrite H in Ha. destruct r as [o'|]; [|done].
    destruct (Update_ok _ _ _ _ _ H) as (cur & Hc & _ & Hst & (Hm1 & Hm2 & Hfin') & Hsp & _ & Hd'). assert (cur = o) as -> by congruence.
    assert (Hl' : lives o') by (intros Hx; rewrite Hfin', Hfin; apply (Hl o eq_refl); congruence).
    exists w', o'. split; [done|]. split; [done|]. split; [by rewrite Hst, store_obj_lives, lookup_insert_eq|]. split; [done|]. by exists o1.
  - intros [H _]%on_pserver_inv. pose proof (Create_answers k o1 (pw_server w) Hw) as Ha. rewrite H in Ha. destruct r as [o'|]; [|done].
    destruct (Create_ok _ _ _ _ _ H) as (_ & Hst & Hm & Hsp & _ & Hd'). exists w', o'. split; [done|]. split; [done|].
    split; [by rewrite Hst, lookup_insert_eq|]. split; [intros ?; congruence|]. by exists o1.
Qed.
Lemma plain_cou_succeeds k f w gk : kinds k.1.1 = Some gk → gentle f → (∀ o, w ⋅ k = Some o → lives o) →
  ∃ w' o', cou k f w = Ret (w', Ok o') ∧ only k w w' ∧ w' ⋅ k = Some o' ∧ lives o' ∧
    ∃ o1, wrap k f (default blank (w ⋅ k)) = Ret (Ok o1) ∧ same_meta o1 o' ∧ o_spec o' = o_spec o1.
Proof. intros Hk Hf. by apply (plain_cou_succeeds_at k f w gk). Qed.
(** What a mutation of the stored object leaves. *)
Lemma plain_cou_stores k f w o1 : is_Some (kinds k.1.1) → (∀ o, w ⋅ k = Some o → lives o) → f (default blank (w ⋅ k)) = Ret (Ok o1) →
  o_version o1 = o_version (default blank (w ⋅ k)) → o_finalizers o1 = o_finalizers (default blank (w ⋅ k)) →
  ∃ w' o, cou k f w = Ret (w', Ok o) ∧ only k w w' ∧ w' ⋅ k = Some o ∧ lives o ∧ o_spec o = o_spec o1.
Proof.
  intros [gk Hgk] Hl Hf Hv Hfin. destruct (plain_cou_succeeds_at k f w gk Hgk) as (w' & o & E & Ho & Hw' & Hlo & o2 & H1 & _ & Hsp).
  - by eexists.
  - done.
  - exists w', o. split; [done|]. split; [done|]. split; [done|]. split; [done|].
    revert H1. unfold wrapped. rewrite Hf. cbn [mbind outcome_bind]. unfold buildVariablesMap. rewrite Hgk. intros [= <-]. by rewrite Hsp.
Qed.
End api.
Arguments pworld _ _ {_}.

(** Listings of a server in memory. *)
Definition mem_lists {P} (res ns : string) (l : labels) (s : server (KubeApi := memory (P := P))) : list (string * Obj P) :=
  omap (fun x : okey * Obj P => let '((r, n, name), o) := x in
          if decide (r = res ∧ n = ns ∧ l ⊆ o_labels o) then Some (name, o) else None) (map_to_list (content s)).
Lemma mem_lists_law {P} (res ns : string) (l : labels) (s : server (KubeApi := memory (P := P))) (name : string) (o : Obj P) :
  (name, o) ∈ mem_lists res ns l s ↔ content s !! (res, ns, name) = Some o ∧ l ⊆ o_labels o.
Proof.
  unfold mem_lists. rewrite list_elem_of_omap. split.
  - intros ([[[r n] nm] o'] & Hin%elem_of_map_to_list & Hd). case_decide as Hc; [|done]. injection Hd as -> ->. by destruct Hc as (-> & -> & ?).
  - intros [Ho Hs]. exists ((res, ns, name), o). split; [by apply elem_of_map_to_list|]. by rewrite decide_True.
Qed.
Lemma mem_lists_nodup {P} (res ns : string) (l : labels) (s : server (KubeApi := memory (P := P))) : NoDup (mem_lists res ns l s).
Proof.
  unfold mem_lists. pose proof (NoDup_fst_map_to_list (content s)) as Hn. induction (map_to_list (content s)) as [|[[[r n] name] o] rest IH]; [constructor|].
  cbn in Hn |- *. apply NoDup_cons in Hn as [Hk Hn]. case_decide as Hd; [|by apply IH]. apply NoDup_cons. split; [|by apply IH].
  destruct Hd as (-> & -> & _). intros ([[[r n] nm] o'] & Hin & Hx)%list_elem_of_omap. case_decide as Hc; [|done]. destruct Hc as (-> & -> & _). injection Hx as -> ->.
  apply Hk, list_elem_of_fmap. by exists ((res, ns, name), o).
Qed.
