(* ===== verification/Remapping.v ===== *)
(** * Remapping: the NAT rules for remapped networks and addresses
      (src/pkg/liqo-controller-manager/networking/external-network/remapping/
       {cidr,ip,label,const,finalizer,configuration_controller,ip_controller}.go)

    A gateway sees the networks of a remote cluster under remapped prefixes: for
    each pair of a network and its remapped image a rule translates destinations
    and one translates sources.  An IP resource maps one address in the same way.
    The rules are published as firewall configurations, which the reconciler of
    FirewallReconcile applies. *)

From S2P Require Export Firewall Remap KubeClient.
Local Open Scope Z_scope.

#[export] Instance MatchPosition_eq_dec : EqDecision MatchPosition.
Proof. solve_decision. Defined.
#[export] Instance MatchDevPosition_eq_dec : EqDecision MatchDevPosition.
Proof. solve_decision. Defined.
#[export] Instance NatType_eq_dec : EqDecision NatType.
Proof. solve_decision. Defined.
#[export] Instance MatchIP_eq_dec : EqDecision MatchIP.
Proof. solve_decision. Defined.
#[export] Instance MatchPort_eq_dec : EqDecision MatchPort.
Proof. solve_decision. Defined.
#[export] Instance MatchDev_eq_dec : EqDecision MatchDev.
Proof. solve_decision. Defined.
#[export] Instance Match_eq_dec : EqDecision Match.
Proof. solve_decision. Defined.
#[export] Instance FilterRule_eq_dec : EqDecision FilterRule.
Proof. solve_decision. Defined.
#[export] Instance NatRule_eq_dec : EqDecision NatRule.
Proof. solve_decision. Defined.
#[export] Instance RouteRule_eq_dec : EqDecision RouteRule.
Proof. solve_decision. Defined.
#[export] Instance RulesSet_eq_dec : EqDecision RulesSet.
Proof. solve_decision. Defined.
#[export] Instance Chain_eq_dec : EqDecision Chain.
Proof. solve_decision. Defined.
#[export] Instance Table_eq_dec : EqDecision Table.
Proof. solve_decision. Defined.

(** ** Objects *)

Record OwnerRef := mkOwnerRef { or_uid : string; or_controller : bool }.
#[export] Instance OwnerRef_eq_dec : EqDecision OwnerRef.
Proof. solve_decision. Defined.

(** What a client writes besides labels, annotations and finalizers: owner
    references and spec of networks and firewall configurations; and the status of
    a network. *)
Inductive payload :=
| PNetwork (owners : list OwnerRef) (cidr : string) (preAllocated : Z)
| PNetworkStatus (cidr : string)
| PFirewall (owners : list OwnerRef) (t : Table).
#[export] Instance payload_eq_dec : EqDecision payload.
Proof. solve_decision. Defined.

(** A Configuration: the part [cf_net] is the one Remap uses; the condition on
    tunneled networks carries its message. *)
Record Cfg := mkCfg {
  cf_Name : string; cf_Namespace : string; cf_UID : string; cf_Labels : option labels;
  cf_Local : option ClusterCIDR; cf_net : Configuration; cf_Tunneled : list string;
  cf_StatusTunneled : list string; cf_TunneledCondition : option (Condition * string)
}.

(** An IP resource. *)
Record IPObj := mkIPObj {
  ip_Name : string; ip_Namespace : string; ip_Spec : string; ip_Masquerade : option bool;
  ip_Status : string; ip_Finalizers : list string; ip_Deleting : bool
}.

(** [controllerutil.SetOwnerReference] and [SetControllerReference]: an owner is in
    the list afterwards; a reference to the same object is not duplicated; there is
    one controller. *)
Class OwnerRefs := {
  SetOwnerReference : string → list OwnerRef → result kerr (list OwnerRef);
  SetControllerReference : string → list OwnerRef → result kerr (list OwnerRef);
  SetOwnerReference_in uid l l' : SetOwnerReference uid l = Ok l' → uid ∈ or_uid <$> l';
  SetOwnerReference_same uid l l' : SetOwnerReference uid l = Ok l' → SetOwnerReference uid l' = Ok l';
  SetControllerReference_in uid l l' : SetControllerReference uid l = Ok l' → mkOwnerRef uid true ∈ l';
  SetControllerReference_same uid l l' : SetControllerReference uid l = Ok l' → SetControllerReference uid l' = Ok l'
}.

(** ** Names *)

Definition TablePodCIDRName : string := "remap-podcidr".
Definition TableExternalCIDRName : string := "remap-externalcidr".
Definition TableIPMappingGwName : string := "remap-ipmapping-gw".
Definition TableIPMappingFabricName : string := "remap-ipmapping-fabric".
Definition DNATChainName : string := "outgoing".
Definition SNATChainName : string := "incoming".
Definition PreroutingChainName : string := "prerouting".
Definition PostroutingChainName : string := "postrouting".
Definition TunnelInterfaceName : string := "liqo-tunnel".
Definition ChainPriorityNATDest : Z := -100.
Definition ChainPriorityNATSource : Z := 100.
Definition FirewallCategoryTargetKey : string := "networking.liqo.io/firewall-category".
Definition FirewallSubCategoryTargetKey : string := "networking.liqo.io/firewall-subcategory".
Definition FirewallUniqueTargetKey : string := "networking.liqo.io/firewall-unique".
Definition RemoteClusterID : string := "liqo.io/remote-cluster-id".
Definition ipMappingControllerFinalizer : string := "ipmapping-nat-controller.liqo.io/finalizer".
Definition firewallconfigurations : string := "firewallconfigurations".

Definition ForgeFirewallTargetLabels (remoteID : string) : labels :=
  {[ FirewallCategoryTargetKey := "gateway"%string; FirewallUniqueTargetKey := remoteID ]}.
Definition ForgeFirewallTargetLabelsIPMappingGw : labels :=
  {[ FirewallCategoryTargetKey := "gateway"%string; FirewallSubCategoryTargetKey := "ip-mapping"%string ]}.
Definition ForgeFirewallTargetLabelsIPMappingFabric : labels :=
  {[ FirewallCategoryTargetKey := "fabric"%string; FirewallSubCategoryTargetKey := "ip-mapping"%string ]}.

(** ** Firewall configurations as stored *)

Definition empty_table : Table := mkTable None [] None.
Definition fw_of (o : Obj payload) : list OwnerRef * Table :=
  match o_spec o with AMap (PFirewall ow t) => (ow, t) | _ => ([], empty_table) end.
Definition set_fw (o : Obj payload) (l : labels) (owners : list OwnerRef) (t : Table) : Obj payload :=
  mkObj l (o_annotations o) (o_finalizers o) (o_deleting o) (o_version o) (AMap (PFirewall owners t)) (o_status o).

(** ** cidr.go *)

Inductive CIDRType := PodCIDR | ExternalCIDR.

Definition match_ip (op : MatchOperation) (value : string) (pos : MatchPosition) : Match :=
  mkMatch op (Some (mkMatchIP value pos)) None None None.
Definition match_dev (op : MatchOperation) (value : string) (pos : MatchDevPosition) : Match :=
  mkMatch op None None None (Some (mkMatchDev value pos false)).

Definition tableCIDRName (ty : CIDRType) : string :=
  match ty with PodCIDR => TablePodCIDRName | ExternalCIDR => TableExternalCIDRName end.
(** The status is dereferenced. *)
Definition cidrPairsForType (cfg : Cfg) (ty : CIDRType) : outcome (list string * list string) :=
  match statusRemote (cf_net cfg) with
  | None => Panic
  | Some st => Ret (match ty with
                    | PodCIDR => (Pod (specRemote (cf_net cfg)), Pod st)
                    | ExternalCIDR => (External (specRemote (cf_net cfg)), External st)
                    end)
  end.
(** The loops of the two functions below: the lists are visited in parallel. *)
Fixpoint cidr_rules (f : string → string → NatRule) (spec status : list string) : outcome (list NatRule) :=
  match spec with
  | [] => Ret []
  | s :: spec =>
    match status with
    | [] => Panic
    | t :: status => rest ← cidr_rules f spec status; Ret (if bool_decide (s = t) then rest else f s t :: rest)
    end
  end.
Definition dnat_rule (iface spec status : string) : NatRule :=
  mkNatRule None
    [match_ip MatchOperationEq status MatchPositionDst; match_dev MatchOperationNeq iface MatchDevPositionIn;
     match_dev MatchOperationNeq TunnelInterfaceName MatchDevPositionIn]
    NatTypeDestination (Some spec).
Definition snat_rule (iface spec status : string) : NatRule :=
  mkNatRule None
    [match_dev MatchOperationNeq iface MatchDevPositionOut; match_ip MatchOperationEq spec MatchPositionSrc;
     match_dev MatchOperationEq TunnelInterfaceName MatchDevPositionIn]
    NatTypeSource (Some status).
Definition forgeCIDRFirewallConfigurationDNATRules (cfg : Cfg) (iface : string) (ty : CIDRType) : outcome (list NatRule) :=
  '(spec, status) ← cidrPairsForType cfg ty; cidr_rules (dnat_rule iface) spec status.
Definition forgeCIDRFirewallConfigurationSNATRules (cfg : Cfg) (iface : string) (ty : CIDRType) : outcome (list NatRule) :=
  '(spec, status) ← cidrPairsForType cfg ty; cidr_rules (snat_rule iface) spec status.
Definition forgeCIDRFirewallConfigurationDNATChain (cfg : Cfg) (iface : string) (ty : CIDRType) : outcome Chain :=
  rules ← forgeCIDRFirewallConfigurationDNATRules cfg iface ty;
  Ret (mkChain (Some DNATChainName) (mkRulesSet (Some rules) None None) ChainTypeNAT (Some ChainPolicyAccept)
         (Some ChainHookPrerouting) (Some ChainPriorityNATDest)).
Definition forgeCIDRFirewallConfigurationSNATChain (cfg : Cfg) (iface : string) (ty : CIDRType) : outcome Chain :=
  rules ← forgeCIDRFirewallConfigurationSNATRules cfg iface ty;
  Ret (mkChain (Some SNATChainName) (mkRulesSet (Some rules) None None) ChainTypeNAT (Some ChainPolicyAccept)
         (Some ChainHookPostrouting) (Some ChainPriorityNATSource)).
Definition forgeCIDRFirewallConfigurationSpec (cfg : Cfg) (iface : string) (ty : CIDRType) : outcome Table :=
  dnat ← forgeCIDRFirewallConfigurationDNATChain cfg iface ty;
  snat ← forgeCIDRFirewallConfigurationSNATChain cfg iface ty;
  Ret (mkTable (Some (tableCIDRName ty)) [dnat; snat] (Some TableFamilyIPv4)).

(** ** ip.go *)

Definition generateNatMappingIPGwName (ip : IPObj) : string := (ip_Name ip ++ "-" ++ TableIPMappingGwName)%string.
Definition generateNatMappingIPFabricName (ip : IPObj) : string := (ip_Name ip ++ "-" ++ TableIPMappingFabricName)%string.

Definition position_is (pos : MatchPosition) (m : Match) : bool :=
  match m_ip m with Some i => bool_decide (mip_position i = pos) | None => false end.
Definition containsNATRule (rules : list NatRule) (to : string) (pos : MatchPosition) : bool :=
  existsb (fun r => bool_decide (nr_to r = Some to) && existsb (position_is pos) (nr_match r)) rules.
Definition dst_is (dst : string) (m : Match) : bool :=
  match m_ip m with
  | Some i => bool_decide (mip_position i = MatchPositionDst) && bool_decide (mip_value i = dst)
  | None => false
  end.
Definition containsNatRuleMasquerade (rules : list NatRule) (dst : string) : bool :=
  existsb (fun r => bool_decide (nr_to r = None) && bool_decide (nr_type r = NatTypeMasquerade) && existsb (dst_is dst) (nr_match r)) rules.

Definition set_nat_rules (rs : RulesSet) (l : option (list NatRule)) : RulesSet := mkRulesSet l (FilterRules rs) (RouteRules rs).
Definition append_nat_rule (rs : RulesSet) (r : NatRule) : RulesSet := set_nat_rules rs (Some (default [] (NatRules rs) ++ [r])).

Definition ip_dnat_rule (ip : IPObj) : NatRule :=
  mkNatRule (Some (ip_Name ip)) [match_ip MatchOperationEq (ip_Status ip) MatchPositionDst] NatTypeDestination (Some (ip_Spec ip)).
Definition ip_snat_rule (ip : IPObj) : NatRule :=
  mkNatRule (Some (ip_Name ip)) [match_ip MatchOperationEq (ip_Status ip) MatchPositionSrc] NatTypeSource (Some (ip_Spec ip)).
Definition ip_masq_rule (ip : IPObj) : NatRule :=
  mkNatRule (Some (ip_Name ip)) [match_ip MatchOperationEq (ip_Spec ip) MatchPositionDst] NatTypeMasquerade None.
Definition ensureFirewallConfigurationDNATRules (rs : RulesSet) (ip : IPObj) : RulesSet :=
  if containsNATRule (default [] (NatRules rs)) (ip_Spec ip) MatchPositionDst then rs else append_nat_rule rs (ip_dnat_rule ip).
Definition ensureFirewallConfigurationSNATRules (rs : RulesSet) (ip : IPObj) : RulesSet :=
  if containsNATRule (default [] (NatRules rs)) (ip_Spec ip) MatchPositionSrc then rs else append_nat_rule rs (ip_snat_rule ip).
Definition ensureFirewallConfigurationMasqSNATRules (rs : RulesSet) (ip : IPObj) : RulesSet :=
  if containsNatRuleMasquerade (default [] (NatRules rs)) (ip_Spec ip) then rs else append_nat_rule rs (ip_masq_rule ip).

Definition zero_chain : Chain := mkChain None (mkRulesSet None None None) (ChainTypeOther "") None None None.
Definition two_chains (l : list Chain) : Chain * Chain :=
  match l with [a; b] => (a, b) | _ => (zero_chain, zero_chain) end.
Definition set_chain (rs : RulesSet) (name : string) (hook : ChainHook) (priority : Z) : Chain :=
  mkChain (Some name) rs ChainTypeNAT (Some ChainPolicyAccept) (Some hook) (Some priority).
Definition enforceFirewallConfigurationChains (l : list Chain) (ip : IPObj) : list Chain :=
  let '(pre, post) := two_chains l in
  [set_chain (ensureFirewallConfigurationDNATRules (ch_rules pre) ip) PreroutingChainName ChainHookPrerouting ChainPriorityNATDest;
   set_chain (ensureFirewallConfigurationSNATRules (ch_rules post) ip) PostroutingChainName ChainHookPostrouting ChainPriorityNATSource].
Definition enforceFirewallConfigurationMasqChains (l : list Chain) (ip : IPObj) : list Chain :=
  let '(pre, post) := two_chains l in
  [set_chain (ensureFirewallConfigurationDNATRules (ch_rules pre) ip) PreroutingChainName ChainHookPrerouting ChainPriorityNATDest;
   set_chain (ensureFirewallConfigurationMasqSNATRules (ch_rules post) ip) PostroutingChainName ChainHookPostrouting (ChainPriorityNATSource - 1)].
Definition enforceFirewallConfigurationSpec (t : Table) (namespace : string) (ip : IPObj) : Table :=
  mkTable (Some (generateNatMappingIPGwName ip ++ "-" ++ namespace)%string)
    (enforceFirewallConfigurationChains (tb_chains t) ip) (Some TableFamilyIPv4).
Definition enforceFirewallConfigurationMasqSpec (t : Table) (namespace : string) (ip : IPObj) : Table :=
  mkTable (Some (generateNatMappingIPFabricName ip ++ "-" ++ namespace)%string)
    (enforceFirewallConfigurationMasqChains (tb_chains t) ip) (Some TableFamilyIPv4).
Definition mutateFirewallConfiguration (ip : IPObj) : mutate_fn payload := fun o =>
  Ret (Ok (set_fw o ForgeFirewallTargetLabelsIPMappingGw (fst (fw_of o)) (enforceFirewallConfigurationSpec (snd (fw_of o)) (ip_Namespace ip) ip))).
Definition mutateFirewallConfigurationMasquerade (ip : IPObj) : mutate_fn payload := fun o =>
  Ret (Ok (set_fw o ForgeFirewallTargetLabelsIPMappingFabric (fst (fw_of o)) (enforceFirewallConfigurationMasqSpec (snd (fw_of o)) (ip_Namespace ip) ip))).

Definition is_rule_of (ip : IPObj) (r : NatRule) : bool := bool_decide (nr_name r = Some (ip_Name ip)).
Definition clean_chain (ip : IPObj) (c : Chain) : Chain :=
  set_rules c (set_nat_rules (ch_rules c) (List.filter (fun r => negb (is_rule_of ip r)) <$> NatRules (ch_rules c))).
Definition clean_table (ip : IPObj) (t : Table) : Table := mkTable (tb_name t) (clean_chain ip <$> tb_chains t) (tb_family t).
Definition cleanFirewallConfiguration (o : Obj payload) (ip : IPObj) : Obj payload :=
  set_fw o (o_labels o) (fst (fw_of o)) (clean_table ip (snd (fw_of o))).
Definition allChainsVoid (t : Table) : bool :=
  forallb (fun c => negb (0 <? List.length (default [] (NatRules (ch_rules c))))%nat) (tb_chains t).

Section controllers.
Context `{OR : OwnerRefs} `{CU : CreateOrUpdater payload}.
(** The world, its client, the order maps are visited, the kinds of resources, the
    global labels and annotations, and the writes of the objects themselves. *)
Context {W : Type} (cl : Client W payload) (order : list string) (kinds : string → option (string * string))
  (globalLabels globalAnnotations : labels) (update_ip : IPObj → K W ()).

Notation create_or_update := (CreateOrUpdate order kinds globalLabels globalAnnotations cl).

Definition mutateCIDRFirewallConfiguration (cfg : Cfg) (iface : string) (ty : CIDRType) : mutate_fn payload := fun o =>
  match cf_Labels cfg with
  | None => Ret (Err OtherErr)
  | Some l =>
    t ← forgeCIDRFirewallConfigurationSpec cfg iface ty;
    match SetOwnerReference (cf_UID cfg) (fst (fw_of o)) with
    | Err e => Ret (Err e)
    | Ok owners => Ret (Ok (set_fw o (ForgeFirewallTargetLabels (default ""%string (l !! RemoteClusterID))) owners t))
    end
  end.
Definition cidr_key (cfg : Cfg) (ty : CIDRType) : okey :=
  (firewallconfigurations, cf_Namespace cfg, (cf_Name cfg ++ "-" ++ tableCIDRName ty)%string).
Definition CreateOrUpdateNatMappingCIDR (cfg : Cfg) (iface : string) (ty : CIDRType) : K W () :=
  _ ← create_or_update (cidr_key cfg ty) (mutateCIDRFirewallConfiguration cfg iface ty); mret ().

(** [RemappingReconciler.Reconcile] on what [Get] answered. *)
Definition RemappingReconcile (got : result kerr Cfg) (iface : string) : K W () :=
  match got with
  | Err NotFound => mret ()
  | Err e => fail e
  | Ok cfg =>
    _ ← CreateOrUpdateNatMappingCIDR cfg iface PodCIDR;
    CreateOrUpdateNatMappingCIDR cfg iface ExternalCIDR
  end.

Definition gw_key (ip : IPObj) : okey := (firewallconfigurations, ip_Namespace ip, generateNatMappingIPGwName ip).
Definition fabric_key (ip : IPObj) : okey := (firewallconfigurations, ip_Namespace ip, generateNatMappingIPFabricName ip).

Definition deleteFirewallConfiguration (k : okey) (o : Obj payload) : K W () :=
  if allChainsVoid (snd (fw_of o)) then
    r ← attempt (c_Delete cl k);
    match r with Ok _ | Err NotFound => mret () | Err e => fail e end
  else mret ().
Definition deleteNatMappingIPWithFirewallconfiguration (k : okey) (ip : IPObj) (o : Obj payload) : K W () :=
  r ← attempt (c_Update cl k (cleanFirewallConfiguration o ip));
  match r with
  | Err NotFound => mret ()
  | Err e => fail e
  | Ok o => deleteFirewallConfiguration k o
  end.
Definition ensureFirewallConfigurationMasqueradeAbsence (ip : IPObj) : K W () :=
  r ← attempt (c_Get cl (fabric_key ip));
  match r with
  | Err NotFound => mret ()
  | Err e => fail e
  | Ok o => deleteNatMappingIPWithFirewallconfiguration (fabric_key ip) ip o
  end.
Definition CreateOrUpdateNatMappingIP (ip : IPObj) : K W () :=
  _ ← create_or_update (gw_key ip) (mutateFirewallConfiguration ip);
  match ip_Masquerade ip with
  | Some true => _ ← create_or_update (fabric_key ip) (mutateFirewallConfigurationMasquerade ip); mret ()
  | _ => ensureFirewallConfigurationMasqueradeAbsence ip
  end.
Definition DeleteNatMappingIP (ip : IPObj) : K W () :=
  r ← attempt (c_Get cl (gw_key ip));
  match r with
  | Err NotFound => ensureFirewallConfigurationMasqueradeAbsence ip
  | Err e => fail e
  | Ok o =>
    _ ← deleteNatMappingIPWithFirewallconfiguration (gw_key ip) ip o;
    ensureFirewallConfigurationMasqueradeAbsence ip
  end.

Definition set_ip_finalizers (ip : IPObj) (l : list string) : IPObj :=
  mkIPObj (ip_Name ip) (ip_Namespace ip) (ip_Spec ip) (ip_Masquerade ip) (ip_Status ip) l (ip_Deleting ip).
Definition ensureIPMappingFinalizerPresence (ip : IPObj) : K W () :=
  update_ip (set_ip_finalizers ip (if bool_decide (ipMappingControllerFinalizer ∈ ip_Finalizers ip) then ip_Finalizers ip
                                   else ip_Finalizers ip ++ [ipMappingControllerFinalizer])).
Definition ensureIPMappingFinalizerAbsence (ip : IPObj) : K W () :=
  update_ip (set_ip_finalizers ip (List.filter (fun f => negb (bool_decide (f = ipMappingControllerFinalizer))) (ip_Finalizers ip))).

(** [IPReconciler.Reconcile]. *)
Definition IPReconcile (got : result kerr IPObj) : K W () :=
  match got with
  | Err NotFound => mret ()
  | Err e => fail e
  | Ok ip =>
    let containsFinalizer := bool_decide (ipMappingControllerFinalizer ∈ ip_Finalizers ip) in
    if ip_Deleting ip then
      if containsFinalizer then _ ← DeleteNatMappingIP ip; ensureIPMappingFinalizerAbsence ip else mret ()
    else if bool_decide (ip_Status ip = ""%string) then mret ()
    else if negb containsFinalizer then ensureIPMappingFinalizerPresence ip
    else CreateOrUpdateNatMappingIP ip
  end.
End controllers.

(** An implementation of the references. *)
#[export] Program Instance plain_owners : OwnerRefs := {|
  SetOwnerReference := fun uid l => Ok (if bool_decide (uid ∈ or_uid <$> l) then l else l ++ [mkOwnerRef uid false]);
  SetControllerReference := fun uid l =>
    if existsb (fun r => or_controller r && negb (bool_decide (or_uid r = uid))) l then Err OtherErr
    else if bool_decide (mkOwnerRef uid true ∈ l) then Ok l
    else Ok (List.filter (fun r => negb (bool_decide (or_uid r = uid))) l ++ [mkOwnerRef uid true])
|}.
Next Obligation.
  intros uid l l' [= <-]. case_bool_decide; [done|]. rewrite fmap_app. apply elem_of_app. right. cbn. by constructor.
Qed.
Next Obligation.
  intros uid l l' [= <-]. cbn. destruct (decide (uid ∈ or_uid <$> l)) as [H|H].
  - by rewrite !(bool_decide_true _ H).
  - rewrite (bool_decide_false _ H), bool_decide_true; [done|]. rewrite fmap_app. apply elem_of_app. right. cbn. by constructor.
Qed.
Next Obligation.
  intros uid l l'. cbn. case_match; [done|]. case_bool_decide; intros [= <-]; [done|]. apply elem_of_app. right. cbn. by constructor.
Qed.
Next Obligation.
  intros uid l l'. cbn. destruct (existsb _ l) eqn:E; [done|]. case_bool_decide as H; intros [= <-]; [rewrite E; try done; by rewrite bool_decide_true|].
  rewrite existsb_app. cbn. rewrite (bool_decide_true (uid = uid)) by done. cbn. rewrite orb_false_r.
  replace (existsb _ (List.filter _ l)) with false.
  - rewrite bool_decide_true; [done|]. apply elem_of_app. right. cbn. by constructor.
  - symmetry. apply not_true_is_false. intros (x & Hx & Hp)%existsb_exists. apply filter_In in Hx as [Hx _].
    assert (existsb (fun r => or_controller r && negb (bool_decide (or_uid r = uid))) l = true) by (apply existsb_exists; eauto). congruence.
Qed.
