(* ===== verification/NetConfig.v ===== *)
(** * NetConfig: the controller of network configurations
      (src/pkg/liqo-controller-manager/networking/external-network/configuration/
       {configuration_controller,network,label,tunneled_masquerade,conditions}.go)

    A Configuration lists the networks of a remote cluster.  For each one the
    controller keeps a Network resource, whose status the IPAM fills; the statuses,
    in the order of the spec, are the remapped networks.  A condition tells the
    other controllers that the status describes the current generation. *)

From S2P Require Import NetworkLabels.
From S2P Require Export Remapping.
Local Open Scope Z_scope.

(** ** label.go *)

Inductive LabelCIDRTypeValue := LabelCIDRTypePod | LabelCIDRTypeExternal | LabelCIDRTypeTunneled.
Definition LabelCIDRType : string := "configuration.liqo.io/cidr-type".
Definition cidr_type_string (ty : LabelCIDRTypeValue) : string :=
  match ty with LabelCIDRTypePod => "pod" | LabelCIDRTypeExternal => "external" | LabelCIDRTypeTunneled => "tunneled" end.
Definition LabelCIDRTypeValues : list LabelCIDRTypeValue := [LabelCIDRTypePod; LabelCIDRTypeExternal; LabelCIDRTypeTunneled].
#[export] Instance LabelCIDRTypeValue_eq_dec : EqDecision LabelCIDRTypeValue.
Proof. solve_decision. Defined.

Definition remote_id (cfg : Cfg) : option string := l ← cf_Labels cfg; l !! RemoteClusterID.
Definition ForgeNetworkLabel (cfg : Cfg) (ty : LabelCIDRTypeValue) : result kerr labels :=
  match remote_id cfg with
  | None => Err OtherErr
  | Some id => Ok {[ RemoteClusterID := id; LabelCIDRType := cidr_type_string ty ]}
  end.

(** ** network.go *)

Definition networks : string := "networks".
Definition NetworkSharedLabelKey : string := "ipam.liqo.io/network-shared".
Definition NetworkSharedLabelValue : string := "true".
Definition ForgeNetworkName (cfg : Cfg) (ty : LabelCIDRTypeValue) (cidr : string) : string :=
  (cf_Name cfg ++ "-" ++ cidr_type_string ty ++ "-" ++ EscapeForNameStr cidr)%string.
Definition network_key (cfg : Cfg) (ty : LabelCIDRTypeValue) (cidr : string) : okey :=
  (networks, cf_Namespace cfg, ForgeNetworkName cfg ty cidr).

Record EnsureNetworkOptions := mkEnsureNetworkOptions { NotRemapped : bool; Shared : bool }.

(** A network as stored: owners and spec; the status. *)
Definition net_of (o : Obj payload) : list OwnerRef * string * Z :=
  match o_spec o with AMap (PNetwork ow c n) => (ow, c, n) | _ => ([], ""%string, 0) end.
Definition net_owners (o : Obj payload) : list OwnerRef := (net_of o).1.1.
Definition net_cidr (o : Obj payload) : string := (net_of o).1.2.
Definition net_prealloc (o : Obj payload) : Z := (net_of o).2.
Definition net_status (o : Obj payload) : string :=
  match o_status o with AMap (PNetworkStatus c) => c | _ => ""%string end.

Definition ownedByConfiguration (o : Obj payload) (cfg : Cfg) : bool :=
  existsb (fun r => bool_decide (or_uid r = cf_UID cfg)) (net_owners o).

Definition ensureNetworkOptions (ty : LabelCIDRTypeValue) : EnsureNetworkOptions :=
  match ty with LabelCIDRTypeTunneled => mkEnsureNetworkOptions true true | _ => mkEnsureNetworkOptions false false end.
Definition option_labels (opts : EnsureNetworkOptions) (l : labels) : labels :=
  let l := if NotRemapped opts then <[NetworkNotRemappedLabelKey := NetworkNotRemappedLabelValue]> l else l in
  if Shared opts then <[NetworkSharedLabelKey := NetworkSharedLabelValue]> l else l.

(** ** Status of the configuration *)

Definition selectSpecCIDRs (cfg : Cfg) (ty : LabelCIDRTypeValue) : list string :=
  match ty with
  | LabelCIDRTypePod => Pod (specRemote (cf_net cfg))
  | LabelCIDRTypeExternal => External (specRemote (cf_net cfg))
  | LabelCIDRTypeTunneled => cf_Tunneled cfg
  end.
Definition set_net (cfg : Cfg) (n : Configuration) : Cfg :=
  mkCfg (cf_Name cfg) (cf_Namespace cfg) (cf_UID cfg) (cf_Labels cfg) (cf_Local cfg) n (cf_Tunneled cfg)
    (cf_StatusTunneled cfg) (cf_TunneledCondition cfg).
Definition set_remote_status (cfg : Cfg) (st : ClusterCIDR) : Cfg :=
  let n := cf_net cfg in set_net cfg (mkConfiguration (generation n) (specRemote n) (cidrs_condition n) (Some st)).
Definition set_tunneled_status (cfg : Cfg) (l : list string) : Cfg :=
  mkCfg (cf_Name cfg) (cf_Namespace cfg) (cf_UID cfg) (cf_Labels cfg) (cf_Local cfg) (cf_net cfg) (cf_Tunneled cfg)
    l (cf_TunneledCondition cfg).
Definition writeStatusForCIDRType (cfg : Cfg) (ty : LabelCIDRTypeValue) (remapped : list string) : Cfg :=
  let st := default (mkClusterCIDR [] []) (statusRemote (cf_net cfg)) in
  match ty with
  | LabelCIDRTypePod => set_remote_status cfg (mkClusterCIDR remapped (External st))
  | LabelCIDRTypeExternal => set_remote_status cfg (mkClusterCIDR (Pod st) remapped)
  | LabelCIDRTypeTunneled => set_tunneled_status cfg remapped
  end.
Definition isRemapComplete (cfg : Cfg) : bool :=
  match statusRemote (cf_net cfg) with
  | None => false
  | Some st =>
    let spec := specRemote (cf_net cfg) in
    if negb (List.length (Pod st) =? List.length (Pod spec))%nat || negb (List.length (External st) =? List.length (External spec))%nat
    then false else AllNonVoid (Pod st) && AllNonVoid (External st)
  end.
Definition isTunneledReservationComplete (cfg : Cfg) : bool :=
  (List.length (cf_StatusTunneled cfg) =? List.length (cf_Tunneled cfg))%nat.

Definition conditionMessageWaitingForTunneledCIDRs : string := "Waiting for all tunneled CIDRs to be reserved".
Definition conditionMessageTunneledCIDRsConfigured : string := "All tunneled CIDRs are reserved".
(** Reason and message of the first condition follow from its truth; transition
    times change only with it. *)
Definition setConfigurationConditions (cfg : Cfg) : Cfg :=
  let n := cf_net cfg in
  let c := mkCondition (generation n) (isRemapComplete cfg) in
  let complete := isTunneledReservationComplete cfg in
  let msg := if complete then conditionMessageTunneledCIDRsConfigured else conditionMessageWaitingForTunneledCIDRs in
  let msg := if (0 <? List.length (cf_StatusTunneled cfg))%nat
             then (msg ++ ": " ++ String.concat ", " (cf_StatusTunneled cfg))%string else msg in
  mkCfg (cf_Name cfg) (cf_Namespace cfg) (cf_UID cfg) (cf_Labels cfg) (cf_Local cfg)
    (mkConfiguration (generation n) (specRemote n) (Some c) (statusRemote n))
    (cf_Tunneled cfg) (cf_StatusTunneled cfg) (Some (mkCondition (generation n) complete, msg)).

#[export] Instance ClusterCIDR_eq_dec : EqDecision ClusterCIDR.
Proof. solve_decision. Defined.
#[export] Instance Condition_eq_dec : EqDecision Condition.
Proof. solve_decision. Defined.
(** [equality.Semantic.DeepEqual] of the statuses. *)
Definition same_status (a b : Cfg) : bool :=
  bool_decide (statusRemote (cf_net a) = statusRemote (cf_net b)) &&
  bool_decide (cidrs_condition (cf_net a) = cidrs_condition (cf_net b)) &&
  bool_decide (cf_StatusTunneled a = cf_StatusTunneled b) &&
  bool_decide (cf_TunneledCondition a = cf_TunneledCondition b).

(** ** tunneled_masquerade.go *)

Definition tunneledMasqueradeChainName : string := "postrouting-tunneled-snat".
Definition generateTunneledMasqueradeFirewallConfigurationName (cfg : Cfg) : string := (cf_Name cfg ++ "-tunneled-masquerade")%string.
Definition tunneled_rule (cidr : string) : NatRule :=
  mkNatRule (Some ("tunneled-snat-" ++ EscapeForNameStr cidr)%string)
    [match_ip MatchOperationEq cidr MatchPositionDst; match_dev MatchOperationEq TunnelInterfaceName MatchDevPositionOut]
    NatTypeMasquerade None.
Definition forgeTunneledMasqueradeChain (cfg : Cfg) : Chain :=
  mkChain (Some tunneledMasqueradeChainName) (mkRulesSet (Some (tunneled_rule <$> cf_StatusTunneled cfg)) None None) ChainTypeNAT
    (Some ChainPolicyAccept) (Some ChainHookPostrouting) (Some ChainPriorityNATSource).

Section controller.
Context `{OR : OwnerRefs} `{CU : CreateOrUpdater payload}.
Context {W : Type} (cl : Client W payload) (order : list string) (kinds : string → option (string * string))
  (globalLabels globalAnnotations : labels).
(** The writes of the Configuration: the object as the server returns it. *)
Context (update_cfg : Cfg → K W Cfg) (update_cfg_status : Cfg → K W ()).

Notation create_or_update := (CreateOrUpdate order kinds globalLabels globalAnnotations cl).

Definition mutate_network (cfg : Cfg) (ty : LabelCIDRTypeValue) (cidr : string) (opts : EnsureNetworkOptions) : mutate_fn payload := fun o =>
  match ForgeNetworkLabel cfg ty with
  | Err e => Ret (Err e)
  | Ok l =>
    match SetControllerReference (cf_UID cfg) (net_owners o) with
    | Err e => Ret (Err e)
    | Ok owners => Ret (Ok (mkObj (option_labels opts l) (o_annotations o) (o_finalizers o) (o_deleting o) (o_version o)
                              (AMap (PNetwork owners cidr (net_prealloc o))) (o_status o)))
    end
  end.
Definition EnsureNetwork (cfg : Cfg) (ty : LabelCIDRTypeValue) (cidr : string) (opts : EnsureNetworkOptions) : K W (Obj payload) :=
  create_or_update (network_key cfg ty cidr) (mutate_network cfg ty cidr opts).

(** Whether a network of the configuration is one of those desired. *)
Definition desired_network (cfg : Cfg) (ty : LabelCIDRTypeValue) (desired : list string) (name : string) (o : Obj payload) : bool :=
  bool_decide (net_cidr o ∈ desired) && bool_decide (name = ForgeNetworkName cfg ty (net_cidr o)).
Fixpoint delete_orphans (cfg : Cfg) (ty : LabelCIDRTypeValue) (desired : list string) (l : list (string * Obj payload)) (pending : bool) : K W bool :=
  match l with
  | [] => mret pending
  | (name, o) :: l =>
    if negb (ownedByConfiguration o cfg) then delete_orphans cfg ty desired l pending
    else if desired_network cfg ty desired name o then delete_orphans cfg ty desired l pending
    else if o_deleting o then delete_orphans cfg ty desired l true
    else
      r ← attempt (c_Delete cl (networks, cf_Namespace cfg, name));
      match r with
      | Ok _ | Err NotFound => delete_orphans cfg ty desired l true
      | Err e => fail e
      end
  end.
Definition DeleteOrphanNetworks (cfg : Cfg) (ty : LabelCIDRTypeValue) (desired : list string) : K W bool :=
  match ForgeNetworkLabel cfg ty with
  | Err e => fail e
  | Ok ls => l ← c_List cl networks (cf_Namespace cfg) ls; delete_orphans cfg ty desired l false
  end.

(** The loop over the spec. *)
Fixpoint ensure_networks (cfg : Cfg) (ty : LabelCIDRTypeValue) (spec : list string) : K W (list string) :=
  match spec with
  | [] => mret []
  | c :: spec =>
    nw ← EnsureNetwork cfg ty c (ensureNetworkOptions ty);
    rest ← ensure_networks cfg ty spec;
    mret (if bool_decide (ty = LabelCIDRTypeTunneled) && bool_decide (net_status nw = ""%string) then rest else net_status nw :: rest)
  end.
Definition remapCIDRType (cfg : Cfg) (ty : LabelCIDRTypeValue) : K W Cfg :=
  let spec := selectSpecCIDRs cfg ty in
  pending ← DeleteOrphanNetworks cfg ty spec;
  if (pending : bool) then mret cfg
  else remapped ← ensure_networks cfg ty spec; mret (writeStatusForCIDRType cfg ty remapped).
Fixpoint remap_types (cfg : Cfg) (l : list LabelCIDRTypeValue) : K W Cfg :=
  match l with
  | [] => mret cfg
  | ty :: l => if bool_decide (ty = LabelCIDRTypeTunneled) then remap_types cfg l
               else cfg ← remapCIDRType cfg ty; remap_types cfg l
  end.
Definition RemapConfiguration (cfg : Cfg) : K W Cfg := remap_types cfg LabelCIDRTypeValues.
Definition reserveTunneledCIDRs (cfg : Cfg) : K W Cfg := remapCIDRType cfg LabelCIDRTypeTunneled.

Definition tunneled_key (cfg : Cfg) : okey :=
  (firewallconfigurations, cf_Namespace cfg, generateTunneledMasqueradeFirewallConfigurationName cfg).
Definition ensureTunneledMasquerade (cfg : Cfg) : K W () :=
  if (List.length (cf_StatusTunneled cfg) =? 0)%nat then
    r ← attempt (c_Delete cl (tunneled_key cfg));
    match r with Ok _ | Err NotFound => mret () | Err e => fail e end
  else
    match remote_id cfg with
    | None => fail OtherErr
    | Some id =>
      _ ← create_or_update (tunneled_key cfg) (fun o =>
            match SetControllerReference (cf_UID cfg) (fst (fw_of o)) with
            | Err e => Ret (Err e)
            | Ok owners =>
              Ret (Ok (set_fw o (ForgeFirewallTargetLabels id ∪ o_labels o) owners
                         (mkTable (Some (generateTunneledMasqueradeFirewallConfigurationName cfg)) [forgeTunneledMasqueradeChain cfg] (Some TableFamilyIPv4))))
            end);
      mret ()
    end.

(** [defaultLocalNetwork]; the networks of the local cluster are remembered. *)
Definition defaultLocalNetwork (cluster : option (list NetworkRes)) (localCIDR : option ClusterCIDR) (cfg : Cfg) :
    option ClusterCIDR * K W Cfg :=
  let known := match localCIDR with
    | Some c => Ok c
    | None => match GetPodCIDRs cluster "", GetExternalCIDR cluster "" with
              | Ok pods, Ok ext => Ok (mkClusterCIDR pods [ext])
              | _, _ => Err OtherErr
              end
    end in
  match known with
  | Err e => (localCIDR, fail e)
  | Ok c => (Some c, update_cfg (mkCfg (cf_Name cfg) (cf_Namespace cfg) (cf_UID cfg) (cf_Labels cfg) (Some c) (cf_net cfg)
                                   (cf_Tunneled cfg) (cf_StatusTunneled cfg) (cf_TunneledCondition cfg)))
  end.

(** [Reconcile] once the object has been read: what it writes, and the object at
    the end. *)
Definition reconcile_cfg (original cfg : Cfg) : K W Cfg :=
  cfg ← RemapConfiguration cfg;
  cfg ← reserveTunneledCIDRs cfg;
  _ ← ensureTunneledMasquerade cfg;
  let cfg := setConfigurationConditions cfg in
  if same_status original cfg then mret cfg else _ ← update_cfg_status cfg; mret cfg.
Definition Reconcile (cluster : option (list NetworkRes)) (localCIDR : option ClusterCIDR) (got : result kerr Cfg) :
    option ClusterCIDR * K W () :=
  match got with
  | Err NotFound => (localCIDR, mret ())
  | Err e => (localCIDR, fail e)
  | Ok cfg =>
    let '(localCIDR, m) := match cf_Local cfg with
                           | None => defaultLocalNetwork cluster localCIDR cfg
                           | Some _ => (localCIDR, mret cfg)
                           end in
    (localCIDR, cfg' ← m; _ ← reconcile_cfg cfg cfg'; mret ())
  end.
End controller.
