(* ===== verification/RemapSem.v ===== *)
(** * RemapSem: what the forged NAT rules do to packets

    The rules of a configuration compiled and run on packets: which packets a rule
    takes, and where they end up.  How the kernel translates to a prefix is a class,
    as the matching of expressions is. *)

From S2P Require Export FirewallSem FirewallWebhook NetConfig.
Local Open Scope Z_scope.

(** A translation to a prefix, given by its first and last address, keeps the host
    part of the address. *)
Class NftNat := {
  nat_to : list Z → list Z → Z → Z;
  nat_to_prefix v n a : net_ok 32 v n → 0 ≤ a < 2 ^ 32 →
    nat_to (be_bytes 4 v) (be_bytes 4 (v + (2 ^ (32 - n) - 1))) a = remap 32 v n a
}.

(** ** The lists of rules *)

(** The pairs of networks that differ. *)
Definition moved (spec status : list string) : list (string * string) :=
  List.filter (fun p => negb (bool_decide (fst p = snd p))) (zip spec status).

Lemma cidr_rules_spec f spec status : (List.length spec ≤ List.length status)%nat →
  cidr_rules f spec status = Ret ((fun p => f (fst p) (snd p)) <$> moved spec status).
Proof.
  unfold moved. revert status. induction spec as [|s spec IH]; intros [|t status] H; simpl in *; [done..|lia|].
  rewrite IH by lia. cbn [mbind outcome_bind]. by case_bool_decide.
Qed.
Lemma cidr_rules_panics f spec status : (List.length status < List.length spec)%nat → cidr_rules f spec status = Panic.
Proof.
  revert status. induction spec as [|s spec IH]; intros [|t status] H; simpl in *; [lia..|done|].
  by rewrite IH by lia.
Qed.
Lemma moved_elem spec status i s t : spec !! i = Some s → status !! i = Some t → s ≠ t → (s, t) ∈ moved spec status.
Proof.
  intros Hs Ht Hne. unfold moved. apply list_elem_of_In, filter_In. split; [|by simpl; rewrite bool_decide_false].
  apply list_elem_of_In, list_elem_of_lookup. exists i. by rewrite lookup_zip_with, Hs, Ht.
Qed.

(** ** Compiling one rule *)

(** The text of an IPv4 network without host bits. *)
Definition prefix_text (s : string) (q : Prefix) : Prop := ParsePrefix s = Some q ∧ bitlen (pAddr q) = 32 ∧ Masked q = q.

Lemma prefix_text_net s q : prefix_text s q →
  ParseCIDR s = Some (net_4 (val (pAddr q)) (pBits q)) ∧ net_ok 32 (val (pAddr q)) (pBits q) ∧ wf4 q ∧ s ≠ ""%string.
Proof.
  intros (Hp & H4 & Hm). destruct (masked_prefix s q Hp H4 Hm) as (Hw & Hc & _). split; [done|].
  split; [by destruct Hw|]. split; [done|]. by intros ->.
Qed.

#[local] Arguments ifname : simpl never.
#[local] Arguments iifname : simpl never.

Section compile.
Context {NM : NftMatch} (p : packet) (t : Tuple) (HC : carries p t).

Definition enters_by (name : string) : bool := bool_decide (take 16 (iifname p) = ifname name).
Definition leaves_by (name : string) : bool := bool_decide (take 16 (oifname p) = ifname name).

Lemma length_ifname n : List.length (ifname n) = 16%nat.
Proof. unfold ifname. rewrite length_take, length_app, length_replicate. lia. Qed.

Lemma match_ip_tests v pos q : prefix_text v q → known pos →
  ∃ es, applyMatch (match_ip MatchOperationEq v pos) = Ret (Ok es) ∧ tests p es (Contains q (selected t pos)).
Proof.
  intros Hq Hpos. pose proof (prefix_text_net v q Hq) as (Hc & _). destruct Hq as (Hq & H4 & Hm).
  assert (Hpl : plain_ip (mkMatchIP v pos)) by (split; [done|]; right; by exists q).
  destruct (applyMatchIP_tests p t HC (match_ip MatchOperationEq v pos) _ Hpl) as (es & He & Ht).
  unfold applyMatch. cbn. rewrite He. cbn. eexists. split; [done|]. rewrite app_nil_r.
  replace (Contains q (selected t pos)) with (matchIP t (mkMatchIP v pos)); [done|].
  unfold matchIP. cbn [mip_value mip_position]. rewrite Hq. by destruct Hpos as [->| ->].
Qed.
Lemma match_dev_tests op v pos b :
  op = MatchOperationEq ∧ b = false ∨ op = MatchOperationNeq ∧ b = true →
  pos = MatchDevPositionIn ∨ pos = MatchDevPositionOut →
  ∃ es, applyMatch (match_dev op v pos) = Ret (Ok es) ∧
    tests p es (xorb b (if bool_decide (pos = MatchDevPositionIn) then enters_by v else leaves_by v)).
Proof.
  intros Hop Hpos. unfold applyMatch, enters_by, leaves_by.
  destruct Hop as [[-> ->]|[-> ->]], Hpos as [->| ->]; cbn; (eexists; split; [done|]).
  all: match goal with |- tests _ [Meta ?k _ _; Cmp ?op _ ?d] _ => pose proof (tests_meta_cmp p k op d) as HT end.
  all: unfold cmp_holds in HT; rewrite length_ifname in HT; cbn in HT.
  all: repeat case_bool_decide; done.
Qed.

Lemma applyMatches_cons m ms e es a b : applyMatch m = Ret (Ok e) → tests p e a → applyMatches ms = Ret (Ok es) → tests p es b →
  applyMatches (m :: ms) = Ret (Ok (e ++ es)) ∧ tests p (e ++ es) (a && b).
Proof. intros He Ha Hes Hb. cbn. rewrite He. cbn. rewrite Hes. split; [done|by apply tests_app]. Qed.

(** The packets the rule for destinations takes. *)
Lemma dnat_rule_tests iface spec status q : prefix_text status q →
  ∃ es, applyMatches (nr_match (dnat_rule iface spec status)) = Ret (Ok es) ∧
    run [] p es = Contains q (DestinationAddress t) && (negb (enters_by iface) && (negb (enters_by TunnelInterfaceName) && true)).
Proof.
  intros Hq. destruct (match_ip_tests status MatchPositionDst q Hq (or_intror eq_refl)) as (e1 & E1 & T1).
  destruct (match_dev_tests MatchOperationNeq iface MatchDevPositionIn true) as (e2 & E2 & T2); [by right|by left|].
  destruct (match_dev_tests MatchOperationNeq TunnelInterfaceName MatchDevPositionIn true) as (e3 & E3 & T3); [by right|by left|].
  destruct (applyMatches_cons _ [] _ _ _ _ E3 T3 eq_refl (tests_nil p)) as [H3 S3].
  destruct (applyMatches_cons _ _ _ _ _ _ E2 T2 H3 S3) as [H2 S2].
  destruct (applyMatches_cons _ _ _ _ _ _ E1 T1 H2 S2) as [H1 S1].
  eexists. split; [exact H1|]. by rewrite (tests_run _ _ _ _ S1).
Qed.
(** And the one for sources. *)
Lemma snat_rule_tests iface spec status q : prefix_text spec q →
  ∃ es, applyMatches (nr_match (snat_rule iface spec status)) = Ret (Ok es) ∧
    run [] p es = negb (leaves_by iface) && (Contains q (SourceAddress t) && (enters_by TunnelInterfaceName && true)).
Proof.
  intros Hq. destruct (match_ip_tests spec MatchPositionSrc q Hq (or_introl eq_refl)) as (e1 & E1 & T1).
  destruct (match_dev_tests MatchOperationNeq iface MatchDevPositionOut true) as (e2 & E2 & T2); [by right|by right|].
  destruct (match_dev_tests MatchOperationEq TunnelInterfaceName MatchDevPositionIn false) as (e3 & E3 & T3); [by left|by left|].
  destruct (applyMatches_cons _ [] _ _ _ _ E3 T3 eq_refl (tests_nil p)) as [H3 S3].
  destruct (applyMatches_cons _ _ _ _ _ _ E1 T1 H3 S3) as [H1 S1].
  destruct (applyMatches_cons _ _ _ _ _ _ E2 T2 H1 S1) as [H2 S2].
  eexists. split; [exact H2|]. rewrite (tests_run _ _ _ _ S2). by case_bool_decide; destruct (enters_by _).
Qed.
End compile.

(** The range a rule translates to is the network of its target. *)
Lemma applyNatRule_prefix r to q family ty : nr_to r = Some to → prefix_text to q → getNatRuleType r = Ret (Ok ty) →
  applyNatRule r family = Ret (Ok [Immediate 1 (be_bytes 4 (val (pAddr q)));
    Immediate 2 (be_bytes 4 (val (pAddr q) + (2 ^ (32 - pBits q) - 1))); NAT ty 1 2 true family]).
Proof.
  intros Hto Hq Hty. destruct (prefix_text_net to q Hq) as (Hc & [Hn Hv Hh] & _ & Hne).
  unfold applyNatRule. rewrite Hto, Hty. cbn [GetIPValueType].
  destruct to as [|ch rest] eqn:E; [done|]. rewrite <- E in *. clear E ch rest.
  rewrite Hc. cbn [or_fail mbind F_bind mret F_ret applyNatSubnet]. rewrite Hc. cbn [or_fail mbind F_bind mret F_ret net_4 ipn_IP ipn_Mask].
  unfold CIDRMask. change (Z.to_nat (32 / 8)) with 4%nat. rewrite !Uint_bytes. change (8 * Z.of_nat 4) with 32.
  cbn [mret F_ret]. pose proof (Z.pow_pos_nonneg 2 (32 - pBits q) ltac:(lia) ltac:(lia)).
  pose proof (Z.pow_le_mono_r 2 (32 - pBits q) 32 ltac:(lia) ltac:(lia)).
  rewrite !(Z.mod_small _ (2 ^ 32)) by lia. unfold mret, F_ret. do 6 f_equal.
  assert (Hx : Z.lxor (2 ^ 32 - 2 ^ (32 - pBits q)) 4294967295 = Z.ones (32 - pBits q)).
  { rewrite <- (not_mask_32 (32 - pBits q)) by lia. done. }
  rewrite Hx, land_mask by lia. replace (val (pAddr q) / _ * _) with (val (pAddr q)).
  2: { pose proof (Z.div_mod (val (pAddr q)) (2 ^ (32 - pBits q)) ltac:(lia)). lia. }
  rewrite (lor_low _ _ (32 - pBits q)); rewrite ?Z.ones_equiv; lia.
Qed.

(** ** A cluster with the firewall webhooks in front of its API server

    The client the controllers of Remapping and NetConfig are proved against: reads
    are up to date; writes of firewall configurations pass the mutating and then the
    validating webhook before they reach the server. *)

Section api.
Context {Api : KubeApi payload}.

(** The server, the number of names the webhook has drawn, and the writes of IPs
    and configurations that succeeded. *)
Record nworld := mkNworld { nw_server : server; nw_draws : nat; nw_ips : list IPObj; nw_cfgs : list Cfg }.

Context (uuid : nat → string) (uid : okey → string) (items : server → list FirewallConfiguration).
Context (lists : string → string → labels → server → list (string * Obj payload)).
(** The answers to the writes of IPs and configurations. *)
Context (ip_answer : nworld → IPObj → option kerr) (cfg_answer : nworld → Cfg → option kerr).

Definition set_server (w : nworld) (s : server) : nworld := mkNworld s (nw_draws w) (nw_ips w) (nw_cfgs w).
Definition set_draws (w : nworld) (n : nat) : nworld := mkNworld (nw_server w) n (nw_ips w) (nw_cfgs w).
Notation "w ⋅ k" := (content (nw_server w) !! k) (at level 20, k at next level).

Definition on_server {A} (f : server → server * result kerr A) : K nworld A := fun w =>
  let '(s, r) := f (nw_server w) in Ret (set_server w s, r).

Definition named_table (t : Table) (n : nat) : Table := mkTable (tb_name t) (generateRuleNames uuid (tb_chains t) n).1 (tb_family t).
Definition fw_config (k : okey) (o : Obj payload) : FirewallConfiguration := mkFirewallConfiguration (uid k) (o_labels o) (snd (fw_of o)).
Definition admission (k : okey) (old : option (Obj payload)) (o : Obj payload) : K nworld (Obj payload) := fun w =>
  if bool_decide (k.1.1 = firewallconfigurations) then
    match mutate_Handle uuid (Some (fw_config k o)) (nw_draws w) with
    | None => Ret (w, Err OtherErr)
    | Some fw =>
      r ← validate_Handle (match old with Some _ => true | None => false end) (Some (items (nw_server w))) (Some fw) (fw_config k <$> old);
      Ret (set_draws w (generateRuleNames uuid (tb_chains (snd (fw_of o))) (nw_draws w)).2,
           match r with FwAllowed => Ok (set_fw o (o_labels o) (fst (fw_of o)) (fw_table fw)) | _ => Err Forbidden end)
    end
  else Ret (w, Ok o).

Definition get_obj (k : okey) : K nworld (Obj payload) := fun w =>
  Ret (w, match w ⋅ k with Some o => Ok o | None => Err NotFound end).
Definition create_obj (k : okey) (o : Obj payload) : K nworld (Obj payload) := o ← admission k None o; on_server (Create k o).
Definition update_obj (k : okey) (o : Obj payload) : K nworld (Obj payload) := fun w =>
  match w ⋅ k with
  | None => on_server (Update k o) w
  | Some old => (o ← admission k (Some old) o; on_server (Update k o)) w
  end.
Definition net_client : Client nworld payload := {|
  c_Get := get_obj;
  c_List := fun r ns l w => Ret (w, Ok (lists r ns l (nw_server w)));
  c_Create := create_obj;
  c_Update := update_obj;
  c_Delete := fun k => on_server (Delete k)
|}.

Definition write_ip (ip : IPObj) : K nworld () := fun w =>
  match ip_answer w ip with
  | Some e => Ret (w, Err e)
  | None => Ret (mkNworld (nw_server w) (nw_draws w) (nw_ips w ++ [ip]) (nw_cfgs w), Ok ())
  end.
Definition write_cfg_status (cfg : Cfg) : K nworld () := fun w =>
  match cfg_answer w cfg with
  | Some e => Ret (w, Err e)
  | None => Ret (mkNworld (nw_server w) (nw_draws w) (nw_ips w) (nw_cfgs w ++ [cfg]), Ok ())
  end.

(** ** What the webhooks do to an object *)

(** The object that reaches the server. *)
Definition admitted (k : okey) (o : Obj payload) (n : nat) (o1 : Obj payload) : Prop :=
  (k.1.1 = firewallconfigurations ∧ o1 = set_fw o (o_labels o) (fst (fw_of o)) (named_table (snd (fw_of o)) n)) ∨
  (k.1.1 ≠ firewallconfigurations ∧ o1 = o).
(** Nothing but the number of names and the server changes. *)
Definition quiet (w w' : nworld) : Prop := nw_ips w' = nw_ips w ∧ nw_cfgs w' = nw_cfgs w.

Lemma admission_inv k old o w w' r : admission k old o w = Ret (w', r) →
  nw_server w' = nw_server w ∧ quiet w w' ∧ (∀ o1, r = Ok o1 → admitted k o (nw_draws w) o1).
Proof.
  unfold admission, admitted. case_bool_decide as Hk.
  - cbn [mutate_Handle mbind option_bind]. destruct (validate_Handle _ _ _ _) as [v| |]; cbn [mbind outcome_bind]; [|done..].
    intros [= <- <-]. split; [done|]. split; [done|]. intros o1 Ho1. left. split; [done|]. destruct v; by inversion Ho1.
  - intros [= <- <-]. split; [done|]. split; [done|]. intros o1 [= <-]. by right.
Qed.

Lemma on_server_inv {A} (f : server → server * result kerr A) w w' r : on_server f w = Ret (w', r) →
  f (nw_server w) = (nw_server w', r) ∧ quiet w w' ∧ nw_draws w' = nw_draws w.
Proof. unfold on_server. destruct (f (nw_server w)) as [s r']. by intros [= <- <-]. Qed.

Lemma create_inv k o w w' r : create_obj k o w = Ret (w', r) →
  quiet w w' ∧ (∀ k', k' ≠ k → w' ⋅ k' = w ⋅ k') ∧
  (∀ o', r = Ok o' → ∃ o1, admitted k o (nw_draws w) o1 ∧ create_eff k o1 (content (nw_server w)) o' (content (nw_server w'))).
Proof.
  unfold create_obj. intros [(o1 & w1 & H1 & H2)|(e & H1 & ->)]%K_bind_inv; pose proof (admission_inv _ _ _ _ _ _ H1) as (Hs & [Hq1 Hq2] & Ha).
  - apply on_server_inv in H2 as (H2 & [Hq3 Hq4] & _). rewrite Hs in H2. split; [split; congruence|].
    split; [intros k' Hk'; by eapply Create_frame|]. intros o' ->. exists o1. split; [by apply Ha|by apply Create_ok].
  - rewrite Hs. done.
Qed.

Lemma update_inv k o w w' r : update_obj k o w = Ret (w', r) →
  quiet w w' ∧ (∀ k', k' ≠ k → w' ⋅ k' = w ⋅ k') ∧ (r = Err NotFound → w' ⋅ k = None) ∧
  (∀ o', r = Ok o' → ∃ o1, admitted k o (nw_draws w) o1 ∧ update_eff k o1 (content (nw_server w)) o' (content (nw_server w'))).
Proof.
  unfold update_obj. destruct (w ⋅ k) as [old|] eqn:Hk.
  - intros [(o1 & w1 & H1 & H2)|(e & H1 & ->)]%K_bind_inv; pose proof (admission_inv _ _ _ _ _ _ H1) as (Hs & [Hq1 Hq2] & Ha).
    + apply on_server_inv in H2 as (H2 & [Hq3 Hq4] & _). rewrite Hs in H2. split; [split; congruence|].
      split; [intros k' Hk'; by eapply Update_frame|].
      split; [intros ->; by apply Update_gone in H2 as [? ->]|].
      intros o' ->. exists o1. split; [by apply Ha|by apply Update_ok].
    + rewrite Hs. split; [done|]. split; [done|]. split; [|done]. intros [= ->].
      exfalso. clear -H1. revert H1. unfold admission. case_bool_decide; [|done]. cbn [mutate_Handle mbind option_bind].
      match goal with |- context [validate_Handle ?a ?b ?c ?d] => by destruct (validate_Handle a b c d) as [[]| |] end.
  - intros (H2 & Hq & _)%on_server_inv. split; [done|]. split; [intros k' Hk'; by eapply Update_frame|].
    split; [intros ->; by apply Update_gone in H2 as [? ->]|].
    intros o' ->. apply Update_ok in H2 as (cur & Hc & _). congruence.
Qed.
(** The webhook has named the rules of an object that is updated. *)
Lemma update_draws k o w w' r old : k.1.1 = firewallconfigurations → w ⋅ k = Some old → update_obj k o w = Ret (w', r) →
  nw_draws w' = (generateRuleNames uuid (tb_chains (snd (fw_of o))) (nw_draws w)).2.
Proof.
  intros Hk Ho. unfold update_obj. rewrite Ho.
  assert (Ha : ∀ w1 r1, admission k (Some old) o w = Ret (w1, r1) → nw_draws w1 = (generateRuleNames uuid (tb_chains (snd (fw_of o))) (nw_draws w)).2).
  { intros w1 r1. unfold admission. rewrite bool_decide_true by done. cbn [mutate_Handle mbind option_bind].
    match goal with |- context [validate_Handle ?a ?b ?c ?d] => destruct (validate_Handle a b c d) as [v| |] end; cbn [mbind outcome_bind]; [|done..].
    by intros [= <- _]. }
  intros [(o1 & w1 & H1 & (_ & _ & H2)%on_server_inv)|(e & H1 & ->)]%K_bind_inv; apply Ha in H1; congruence.
Qed.
(** All stored objects live. *)
Definition all_live (w : nworld) : Prop := ∀ k o, w ⋅ k = Some o → lives o.
Lemma delete_inv k w w' r : on_server (Delete k) w = Ret (w', r) →
  quiet w w' ∧ (∀ k', k' ≠ k → w' ⋅ k' = w ⋅ k') ∧ (all_live w → all_live w') ∧
  (∀ o', w' ⋅ k = Some o' → ∃ o, w ⋅ k = Some o ∧ same_meta o o' ∧ o_spec o' = o_spec o ∧ o_status o' = o_status o).
Proof.
  intros (H & Hq & _)%on_server_inv. split; [done|]. assert (Hf : ∀ k', k' ≠ k → w' ⋅ k' = w ⋅ k') by (intros k' Hk'; by eapply Delete_frame).
  split; [done|].
  assert (Heff : delete_eff k (content (nw_server w)) (content (nw_server w')) ∨ content (nw_server w') = content (nw_server w)).
  { destruct r as [[]|e]; [apply Delete_ok in H; by left|apply Delete_err in H as [?|?]; auto]. }
  destruct Heff as [(cur & o1 & Hc & Hm & Hsm & Hsp & Hst & Hd)|E]; [|split; [intros Hl k'; rewrite E; apply Hl|]; rewrite E; intros o' Ho'; by exists o'].
  assert (Hk : ∀ o', w' ⋅ k = Some o' → o' = o1 ∧ lives o1).
  { intros o' Ho'. rewrite Hm in Ho'. unfold store_obj in Ho'. destruct (o_deleting o1 && _) eqn:Ed; simplify_map_eq. split; [done|].
    intros Hd'. rewrite Hd' in Ed. cbn in Ed. by apply bool_decide_eq_false in Ed. }
  split; [|intros o' [-> _]%Hk; eauto]. intros Hl k' o' Ho'.
  destruct (decide (k' = k)) as [->|Hne]; [by destruct (Hk o' Ho') as [-> ?]|]. rewrite Hf in Ho' by done. by eapply Hl.
Qed.

(** ** Create or update *)

Context `{CU : CreateOrUpdater payload} (order : list string) (kinds : string → option (string * string))
  (globalLabels globalAnnotations : labels).
Notation wrap := (wrapped order kinds globalLabels globalAnnotations).
Notation cou := (CreateOrUpdate order kinds globalLabels globalAnnotations net_client).

Lemma cou_eq k f w : cou k f w =
  match w ⋅ k with
  | None => (o ← lift_outcome (wrap k f blank); create_obj k o) w
  | Some o => (o' ← lift_outcome (wrap k f o); if decide (o' = o) then mret o else update_obj k o') w
  end.
Proof.
  unfold CreateOrUpdate. destruct (w ⋅ k) as [o|] eqn:Hk.
  - apply cou_found. cbn. unfold get_obj. by rewrite Hk.
  - apply cou_missing. cbn. unfold get_obj. by rewrite Hk.
Qed.

Lemma lift_outcome_inv {A} (o : outcome (result kerr A)) (w w' : nworld) r : lift_outcome o w = Ret (w', r) → w' = w ∧ o = Ret r.
Proof. unfold lift_outcome. destruct o as [a| |]; cbn; [|done..]. by intros [= <- <-]. Qed.

(** A mutation that leaves finalizers, deletion, version and status alone. *)
Definition mild (f : mutate_fn payload) : Prop := ∀ o o1, f o = Ret (Ok o1) →
  o_finalizers o1 = o_finalizers o ∧ o_deleting o1 = o_deleting o ∧ o_version o1 = o_version o ∧ o_status o1 = o_status o.
Lemma wrap_mild k f : mild f → mild (wrap k f).
Proof.
  intros Hf o o1. unfold wrapped. destruct (f o) as [[o0|e]| |] eqn:E; cbn [mbind outcome_bind]; [|done..].
  destruct (buildVariablesMap _ _ _); [|done]. intros [= <-]. by apply Hf in E.
Qed.

(** What the server holds after a creation or an update. *)
Lemma cou_inv k f w w' o' : mild f → cou k f w = Ret (w', Ok o') → (∀ o, w ⋅ k = Some o → lives o) →
  quiet w w' ∧ (∀ k', k' ≠ k → w' ⋅ k' = w ⋅ k') ∧ w' ⋅ k = Some o' ∧ lives o' ∧
  (w' = w ∧ wrap k f o' = Ret (Ok o') ∨
   ∃ base o1 o2, base = default blank (w ⋅ k) ∧ wrap k f base = Ret (Ok o1) ∧ admitted k o1 (nw_draws w) o2 ∧
     same_meta o2 o' ∧ o_spec o' = o_spec o2 ∧ o_status o' = o_status base).
Proof.
  intros Hf. pose proof (wrap_mild k f Hf) as Hm. rewrite cou_eq. destruct (w ⋅ k) as [o|] eqn:Hk.
  - intros [(o1 & w1 & [-> H1]%lift_outcome_inv & H2)|(e & _ & [=])]%K_bind_inv Hl. specialize (Hl o eq_refl).
    destruct (decide (o1 = o)) as [->|Hne].
    { injection H2 as <- <-. rewrite Hk. split; [done|]. split; [done|]. split; [done|]. split; [done|]. by left. }
    apply update_inv in H2 as (Hq & Hfr & _ & Hu). destruct (Hu o' eq_refl) as (o2 & Ha & cur & Hc & _ & Hst & Hsm & Hsp & Hs & Hd).
    rewrite Hk in Hc. injection Hc as <-. destruct (Hm _ _ H1) as (Hfin & Hdel & _ & Hs1).
    assert (Hl' : lives o').
    { intros Hd'. destruct Hsm as (_ & _ & ->).
      assert (o_finalizers o2 = o_finalizers o1) as -> by (by destruct Ha as [[_ ->]|[_ ->]]). rewrite Hfin. apply Hl. congruence. }
    split; [done|]. split; [done|]. rewrite Hst, store_obj_lives by done. split; [by rewrite lookup_insert_eq|]. split; [done|]. right. exists o, o1, o2. done.
  - intros [(o1 & w1 & [-> H1]%lift_outcome_inv & H2)|(e & _ & [=])]%K_bind_inv _.
    apply create_inv in H2 as (Hq & Hfr & Hc). destruct (Hc o' eq_refl) as (o2 & Ha & _ & Hst & Hsm & Hsp & Hs & Hd).
    split; [done|]. split; [done|]. rewrite Hst, lookup_insert_eq. split; [done|]. split; [intros ?; congruence|].
    right. exists blank, o1, o2. done.
Qed.
Lemma cou_again k f w o : w ⋅ k = Some o → wrap k f o = Ret (Ok o) → cou k f w = Ret (w, Ok o).
Proof.
  intros Hk Hw. rewrite cou_eq, Hk, Hw. erewrite K_bind_ok by reflexivity. by rewrite decide_True.
Qed.
End api.
