(* ===== verification/RemappingProps.v ===== *)
(** * RemappingProps: what the remapping controllers achieve *)

From S2P Require Export RemapSem.
Local Open Scope Z_scope.

(** ** Traffic of remapped networks *)

(** A kernel that meets [NftNat]: host bits come from the address. *)
Definition netmap (lo hi : list Z) (a : Z) : Z :=
  Z.lor (be_val lo) (Z.land a (Z.lxor (be_val lo) (be_val hi))).
#[export] Program Instance kernel_nat : NftNat := {| nat_to := netmap |}.
Next Obligation.
  intros v n a [Hn Hv Hh] Ha. unfold netmap, remap.
  pose proof (Z.pow_pos_nonneg 2 (32 - n) ltac:(lia) ltac:(lia)) as Hp.
  assert (Hhi : v + (2 ^ (32 - n) - 1) < 2 ^ 32).
  { pose proof (remap_range 32 v n (2 ^ (32 - n) - 1) ltac:(by split)) as [Hr _]. unfold remap in Hr.
    rewrite Z.mod_small in Hr by lia. lia. }
  rewrite !be_val_bytes, !Z.mod_small by (change (8 * Z.of_nat 4) with 32; lia).
  assert (Hx : Z.lxor v (v + (2 ^ (32 - n) - 1)) = Z.ones (32 - n)).
  { rewrite <- (lor_low v (2 ^ (32 - n) - 1) (32 - n)) by lia. rewrite Z.ones_equiv.
    replace (Z.pred (2 ^ (32 - n))) with (2 ^ (32 - n) - 1) by lia.
    rewrite <- Z.lxor_lor, <- Z.lxor_assoc, Z.lxor_nilpotent, Z.lxor_0_l; [done|].
    replace (2 ^ (32 - n) - 1) with (Z.ones (32 - n)) by (rewrite Z.ones_equiv; lia).
    by rewrite Z.land_ones by lia. }
  rewrite Hx, Z.land_ones by lia. apply (lor_low _ _ (32 - n)); [lia|done|]. by apply Z.mod_pos_bound.
Qed.

Lemma complete_lengths cfg : isRemapComplete cfg = true →
  ∃ st, statusRemote (cf_net cfg) = Some st ∧ List.length (Pod st) = List.length (Pod (specRemote (cf_net cfg))) ∧
        List.length (External st) = List.length (External (specRemote (cf_net cfg))).
Proof.
  unfold isRemapComplete. destruct (statusRemote _) as [st|]; [|done]. case_match eqn:E; [done|].
  apply orb_false_iff in E as [E1 E2]. apply negb_false_iff, Nat.eqb_eq in E1, E2. by exists st.
Qed.

(** The lists of a type of network. *)
Definition spec_of (ty : CIDRType) (c : ClusterCIDR) : list string := match ty with PodCIDR => Pod c | ExternalCIDR => External c end.

Lemma pairs_of cfg ty st : statusRemote (cf_net cfg) = Some st →
  cidrPairsForType cfg ty = Ret (spec_of ty (specRemote (cf_net cfg)), spec_of ty st).
Proof. unfold cidrPairsForType. intros ->. by destruct ty. Qed.

Lemma forged_rules cfg iface ty st : statusRemote (cf_net cfg) = Some st →
  (List.length (spec_of ty (specRemote (cf_net cfg))) ≤ List.length (spec_of ty st))%nat →
  forgeCIDRFirewallConfigurationDNATRules cfg iface ty
    = Ret ((fun p => dnat_rule iface (fst p) (snd p)) <$> moved (spec_of ty (specRemote (cf_net cfg))) (spec_of ty st)) ∧
  forgeCIDRFirewallConfigurationSNATRules cfg iface ty
    = Ret ((fun p => snat_rule iface (fst p) (snd p)) <$> moved (spec_of ty (specRemote (cf_net cfg))) (spec_of ty st)).
Proof.
  intros Hst Hl. unfold forgeCIDRFirewallConfigurationDNATRules, forgeCIDRFirewallConfigurationSNATRules.
  rewrite (pairs_of _ _ _ Hst). cbn [mbind outcome_bind]. by rewrite !cidr_rules_spec.
Qed.

Lemma in_network q q' a : wf4 q → wf4 q' → pBits q = pBits q' → 0 ≤ a < 2 ^ 32 →
  a / 2 ^ (32 - pBits q) = val (pAddr q) / 2 ^ (32 - pBits q) →
  Contains q (mkAddr 32 a "") = true ∧ Contains q' (mkAddr 32 (remap 32 (val (pAddr q')) (pBits q') a) "") = true.
Proof.
  intros Hq Hq' Hb Ha He. pose proof (remap_range 32 (val (pAddr q')) (pBits q') a ltac:(by destruct Hq')) as (_ & Hr & _).
  pose proof Hq as [Hl _ _ Hn _]. pose proof Hq' as [Hl' _ _ Hn' _]. rewrite !Contains_spec by done. unfold net. cbn [bitlen zone val].
  rewrite Hl, Hl', !Z.shiftr_div_pow2 by lia. done.
Qed.

(** A list of translation rules on a packet: the first rule whose compiled
    matches accept the packet translates the address, with a translation of the
    expected kind; a packet no rule accepts keeps it. *)
Fixpoint run_nat `{NM : NftMatch} `{NN : NftNat} (ty : NATType) (family : Z) (p : packet) (rules : list NatRule) (a : Z) :
    option Z :=
  match rules with
  | [] => Some a
  | r :: rules =>
    match applyMatches (nr_match r) with
    | Ret (Ok es) =>
      if run [] p es then
        match applyNatRule r family with
        | Ret (Ok [Immediate 1 lo; Immediate 2 hi; NAT ty' 1 2 true _]) =>
          if decide (ty' = ty) then Some (nat_to lo hi a) else None
        | _ => None
        end
      else run_nat ty family p rules a
    | _ => None
    end
  end.

Lemma run_nat_skip `{NM : NftMatch} `{NN : NftNat} ty family p l rules a :
  Forall (fun r => ∃ es, applyMatches (nr_match r) = Ret (Ok es) ∧ run [] p es = false) l →
  run_nat ty family p (l ++ rules) a = run_nat ty family p rules a.
Proof. induction 1 as [|r l (es & He & Hr) _ IH]; [done|]. simpl. by rewrite He, Hr. Qed.

Lemma moved_lookup spec status s s' : (s, s') ∈ moved spec status →
  ∃ j, spec !! j = Some s ∧ status !! j = Some s'.
Proof.
  unfold moved. intros [H _]%list_elem_of_In%filter_In. apply list_elem_of_In, list_elem_of_lookup in H as [j H].
  exists j. rewrite lookup_zip_with in H. destruct (spec !! j), (status !! j); by simplify_eq/=.
Qed.

(** The rule of the i-th pair, and the rules before it. *)
Lemma moved_split spec status i s s' : spec !! i = Some s → status !! i = Some s' → s ≠ s' →
  ∃ l1 l2, moved spec status = l1 ++ (s, s') :: l2 ∧
    ∀ t t', (t, t') ∈ l1 → ∃ j, (j < i)%nat ∧ spec !! j = Some t ∧ status !! j = Some t'.
Proof.
  revert status i. induction spec as [|x spec IH]; intros [|y status] [|i] Hs Hs' Hne; try done.
  - simplify_eq/=. exists [], (moved spec status). unfold moved. simpl. rewrite bool_decide_false by done.
    split; [done|]. by intros ? ? ?%not_elem_of_nil.
  - destruct (IH status i Hs Hs' Hne) as (l1 & l2 & Hm & Hl). unfold moved in *. simpl.
    exists (if negb (bool_decide (x = y)) then (x, y) :: l1 else l1), l2. split; [rewrite Hm; by case_bool_decide|].
    intros t t' Ht. assert ((t, t') = (x, y) ∨ (t, t') ∈ l1) as [[= -> ->]|Hin].
    { case_bool_decide; simpl in Ht; [by right|by apply elem_of_cons in Ht]. }
    + exists 0%nat. split; [lia|done].
    + destruct (Hl t t' Hin) as (j & ? & ? & ?). exists (S j). split; [lia|done].
Qed.

(** The networks of a list of texts, and the only one an address belongs to. *)
Definition net_texts (texts : list string) (qs : list Prefix) : Prop := Forall2 prefix_text texts qs.
Definition belongs (qs : list Prefix) (i : nat) (a : Z) : Prop :=
  ∀ j q, qs !! j = Some q → Contains q (mkAddr 32 a "") = true ↔ j = i.
Definition nowhere (qs : list Prefix) (a : Z) : Prop :=
  ∀ j q, qs !! j = Some q → Contains q (mkAddr 32 a "") = false.

Section forged_chains.
Context `{NM : NftMatch} `{NN : NftNat} (family : Z) (iface : string) (spec status : list string) (qs qs' : list Prefix).
Context (Hqs : net_texts spec qs) (Hqs' : net_texts status qs').
Let dnat : list NatRule := (fun p => dnat_rule iface (fst p) (snd p)) <$> moved spec status.
Let snat : list NatRule := (fun p => snat_rule iface (fst p) (snd p)) <$> moved spec status.

Lemma network_text texts l j s : net_texts texts l → texts !! j = Some s → ∃ q, l !! j = Some q ∧ prefix_text s q.
Proof. intros H Hs. destruct (Forall2_lookup_l _ _ _ _ _ H Hs) as (q & ? & ?). by exists q. Qed.

(** Rules whose network does not hold the address, or whose interfaces differ. *)
Lemma dnat_skips p t c l : carries p t → DestinationAddress t = mkAddr 32 c "" →
  (∀ s s', (s, s') ∈ l → ∃ j, spec !! j = Some s ∧ status !! j = Some s' ∧
     ∀ q', qs' !! j = Some q' → Contains q' (mkAddr 32 c "") && negb (enters_by p iface || enters_by p TunnelInterfaceName) = false) →
  Forall (fun r => ∃ es, applyMatches (nr_match r) = Ret (Ok es) ∧ run [] p es = false)
    ((fun p => dnat_rule iface (fst p) (snd p)) <$> l).
Proof.
  intros HC Hd Hl. apply Forall_fmap, Forall_forall. intros [s s'] Hin.
  destruct (Hl s s' Hin) as (j & _ & Hs' & Hq). destruct (network_text _ _ _ _ Hqs' Hs') as (q' & Hj & Ht).
  destruct (dnat_rule_tests p t HC iface s s' q' Ht) as (es & He & Hr). exists es. split; [done|].
  specialize (Hq q' Hj). rewrite Hr, Hd. destruct (Contains _ _), (enters_by p iface), (enters_by p TunnelInterfaceName); done.
Qed.
Lemma snat_skips p t c l : carries p t → SourceAddress t = mkAddr 32 c "" →
  (∀ s s', (s, s') ∈ l → ∃ j, spec !! j = Some s ∧ status !! j = Some s' ∧
     ∀ q, qs !! j = Some q → Contains q (mkAddr 32 c "") && (enters_by p TunnelInterfaceName && negb (leaves_by p iface)) = false) →
  Forall (fun r => ∃ es, applyMatches (nr_match r) = Ret (Ok es) ∧ run [] p es = false)
    ((fun p => snat_rule iface (fst p) (snd p)) <$> l).
Proof.
  intros HC Hd Hl. apply Forall_fmap, Forall_forall. intros [s s'] Hin.
  destruct (Hl s s' Hin) as (j & Hs & _ & Hq). destruct (network_text _ _ _ _ Hqs Hs) as (q & Hj & Ht).
  destruct (snat_rule_tests p t HC iface s s' q Ht) as (es & He & Hr). exists es. split; [done|].
  specialize (Hq q Hj). rewrite Hr, Hd. destruct (Contains _ _), (leaves_by p iface), (enters_by p TunnelInterfaceName); done.
Qed.

Lemma dnat_passes p t c : carries p t → DestinationAddress t = mkAddr 32 c "" →
  enters_by p iface || enters_by p TunnelInterfaceName = true ∨ nowhere qs' c →
  run_nat NATTypeDestNAT family p dnat c = Some c.
Proof.
  intros HC Hd Hno. unfold dnat. rewrite <- (app_nil_r (_ <$> _)), run_nat_skip; [done|].
  apply (dnat_skips p t c); [done..|]. intros s s' (j & ? & ?)%moved_lookup. exists j. split; [done|]. split; [done|].
  intros q' Hq. destruct Hno as [->|Hno]; [by rewrite andb_false_r|by rewrite (Hno j q' Hq)].
Qed.
Lemma snat_passes p t c : carries p t → SourceAddress t = mkAddr 32 c "" →
  enters_by p TunnelInterfaceName && negb (leaves_by p iface) = false ∨ nowhere qs c →
  run_nat NATTypeSourceNAT family p snat c = Some c.
Proof.
  intros HC Hd Hno. unfold snat. rewrite <- (app_nil_r (_ <$> _)), run_nat_skip; [done|].
  apply (snat_skips p t c); [done..|]. intros s s' (j & ? & ?)%moved_lookup. exists j. split; [done|]. split; [done|].
  intros q Hq. destruct Hno as [->|Hno]; [by rewrite andb_false_r|by rewrite (Hno j q Hq)].
Qed.

Context (i : nat) (s s' : string) (q q' : Prefix) (Hs : spec !! i = Some s) (Hs' : status !! i = Some s') (Hne : s ≠ s').
Context (Hq : qs !! i = Some q) (Hq' : qs' !! i = Some q').

Lemma dnat_translates p t b : carries p t → DestinationAddress t = mkAddr 32 b "" → belongs qs' i b → 0 ≤ b < 2 ^ 32 →
  enters_by p iface || enters_by p TunnelInterfaceName = false →
  run_nat NATTypeDestNAT family p dnat b = Some (remap 32 (val (pAddr q)) (pBits q) b).
Proof.
  intros HC Hd Hb Hrange Hg. destruct (moved_split _ _ _ _ _ Hs Hs' Hne) as (l1 & l2 & Hm & Hl).
  unfold dnat. rewrite Hm, fmap_app, run_nat_skip.
  - destruct (network_text _ _ _ _ Hqs' Hs') as (q0' & Hj' & Ht'). destruct (network_text _ _ _ _ Hqs Hs) as (q0 & Hj & Ht).
    assert (q0' = q') as -> by congruence. assert (q0 = q) as -> by congruence.
    destruct (dnat_rule_tests p t HC iface s s' q' Ht') as (es & He & Hr).
    cbn [fmap list_fmap run_nat fst snd]. rewrite He, Hr, Hd, (proj2 (Hb i q' Hq') eq_refl).
    apply orb_false_iff in Hg as [-> ->]. cbn [negb andb].
    rewrite (applyNatRule_prefix _ s q family NATTypeDestNAT) by done. cbn. rewrite decide_True by done.
    f_equal. apply nat_to_prefix; [|done]. by destruct (prefix_text_net s q Ht) as (_ & ? & _).
  - apply (dnat_skips p t b); [done..|]. intros x x' (j & Hlt & ? & ?)%Hl. exists j. split; [done|]. split; [done|].
    intros y Hy. destruct (Contains y (mkAddr 32 b "")) eqn:Hc; [|done]. apply (Hb j y Hy) in Hc. lia.
Qed.
Lemma snat_translates p t a : carries p t → SourceAddress t = mkAddr 32 a "" → belongs qs i a → 0 ≤ a < 2 ^ 32 →
  enters_by p TunnelInterfaceName && negb (leaves_by p iface) = true →
  run_nat NATTypeSourceNAT family p snat a = Some (remap 32 (val (pAddr q')) (pBits q') a).
Proof.
  intros HC Hd Hb Hrange Hg. destruct (moved_split _ _ _ _ _ Hs Hs' Hne) as (l1 & l2 & Hm & Hl).
  unfold snat. rewrite Hm, fmap_app, run_nat_skip.
  - destruct (network_text _ _ _ _ Hqs' Hs') as (q0' & Hj' & Ht'). destruct (network_text _ _ _ _ Hqs Hs) as (q0 & Hj & Ht).
    assert (q0' = q') as -> by congruence. assert (q0 = q) as -> by congruence.
    destruct (snat_rule_tests p t HC iface s s' q Ht) as (es & He & Hr).
    cbn [fmap list_fmap run_nat fst snd]. rewrite He, Hr, Hd, (proj2 (Hb i q Hq) eq_refl).
    apply andb_true_iff in Hg as [-> ->]. cbn [negb andb].
    rewrite (applyNatRule_prefix _ s' q' family NATTypeSourceNAT) by done. cbn. rewrite decide_True by done.
    f_equal. apply nat_to_prefix; [|done]. by destruct (prefix_text_net s' q' Ht') as (_ & ? & _).
  - apply (snat_skips p t a); [done..|]. intros x x' (j & Hlt & ? & ?)%Hl. exists j. split; [done|]. split; [done|].
    intros y Hy. destruct (Contains y (mkAddr 32 a "")) eqn:Hc; [|done]. apply (Hb j y Hy) in Hc. lia.
Qed.
End forged_chains.

(** The texts of the two sides of a peering denote masked IPv4 networks, in pairs
    of one length. *)
Definition paired (spec status : list string) (qs qs' : list Prefix) : Prop :=
  net_texts spec qs ∧ net_texts status qs' ∧ Forall2 (fun q q' => pBits q = pBits q') qs qs'.

Lemma remapped_within spec status qs qs' i s s' q q' address a :
  paired spec status qs qs' → spec !! i = Some s → status !! i = Some s' → s ≠ s' →
  qs !! i = Some q → qs' !! i = Some q' → ParseIP address = v4InV6Prefix ++ be_bytes 4 a → 0 ≤ a < 2 ^ 32 →
  belongs qs i a →
  let b := remap 32 (val (pAddr q')) (pBits q') a in
  remapWithin (ParseIP address) address spec status = Ret (Ok (convertByteSliceToString (be_bytes 4 b), true)) ∧
  0 ≤ b < 2 ^ 32 ∧ Contains q' (mkAddr 32 b "") = true ∧ remap 32 (val (pAddr q)) (pBits q) b = a.
Proof.
  intros (HQ & HQ' & HB) Hs Hs' Hne Hq Hq' Hip Ha Hin b.
  destruct (network_text _ _ _ _ HQ Hs) as (q0 & E & Ht). assert (q0 = q) as -> by congruence. clear E.
  destruct (network_text _ _ _ _ HQ' Hs') as (q0 & E & Ht'). assert (q0 = q') as -> by congruence. clear E.
  assert (Hb : pBits q = pBits q') by (exact (Forall2_lookup_lr _ _ _ _ _ _ HB Hq Hq')).
  destruct (prefix_text_net s q Ht) as (Hc & Hok & Hw & _). destruct (prefix_text_net s' q' Ht') as (Hc' & Hok' & Hw' & _).
  assert (He : a / 2 ^ (32 - pBits q) = val (pAddr q) / 2 ^ (32 - pBits q)).
  { pose proof (proj2 (Hin i q Hq) eq_refl) as H. apply Contains_spec in H as (_ & _ & Hn); [|done].
    unfold net in Hn. cbn [bitlen val] in Hn.
    destruct Hw as [Hl _ _ Hbits _]. rewrite Hl, !Z.shiftr_div_pow2 in Hn by lia. done. }
  destruct (remap_range 32 (val (pAddr q')) (pBits q') a Hok') as (Hbr & _).
  split_and!; [|apply Hbr|apply Hbr|by apply (in_network q q')|].
  - rewrite <- (take_drop_middle _ _ _ Hs). unfold b. rewrite <- Hb.
    apply (remapWithin_hit _ _ _ _ _ _ s' (val (pAddr q))); rewrite ?Hb; try done; try by rewrite <- Hb.
    + intros x Hx. apply list_elem_of_lookup in Hx as [j Hx]. apply lookup_take_Some in Hx as [Hx Hj].
      destruct (network_text _ _ _ _ HQ Hx) as (y & Hy & Hyt). destruct (prefix_text_net x y Hyt) as (Hyc & Hyok & Hyw & _).
      eexists. split; [exact Hyc|]. apply not_true_iff_false. rewrite Hip, (Contains_4 _ _ _ a Hyok); [|done|done].
      intros Hin'. assert (Hcy : Contains y (mkAddr 32 a "") = true).
      { apply Contains_spec; [done|]. destruct Hyw as [Hl _ _ Hbits _]. unfold net. cbn [bitlen zone val].
        rewrite Hl, !Z.shiftr_div_pow2 by lia. done. }
      apply (Hin j y Hy) in Hcy. lia.
    + rewrite length_take_le; [done|]. apply lookup_lt_Some in Hs. lia.
    + by rewrite Hip.
  - unfold b. rewrite <- Hb. apply remap_back; [done|by rewrite Hb|lia|done].
Qed.

(** C20: Traffic of a remapped network is delivered.  The remote networks of one
    kind, pod or external, are masked IPv4 networks paired with local ones of the
    same length; the one at [i] is remapped, and the address [a] belongs to it and to
    no other of them (for an external network, nor to any pod network).  Then the
    address is mapped to one, [b], of the paired network, and, if [b] belongs to no
    other of the paired networks, the two chains of the forged configuration behave
    as follows, rule after rule until the first that accepts the packet:
    - a packet to [b] gets the destination [a], unless it enters by the default
      interface or by the tunnel, and then it keeps its destination;
    - a packet from [a] that comes out of the tunnel gets the source [b], unless it
      leaves by the default interface; any other packet from [a] keeps its source;
    - a packet to an address of none of the paired networks keeps its destination,
      and a packet from an address of none of the remote networks its source. *)
Theorem remapped_traffic_delivered `{NM : NftMatch} `{NN : NftNat} (cfg : Cfg) (st : ClusterCIDR) (ty : CIDRType)
    (iface : string) (qs qs' : list Prefix) (i : nat) (s s' : string) (address : string) (a family : Z) :
  AreConfigurationNetworkCIDRsConfigured (cf_net cfg) = true → statusRemote (cf_net cfg) = Some st →
  paired (spec_of ty (specRemote (cf_net cfg))) (spec_of ty st) qs qs' →
  spec_of ty (specRemote (cf_net cfg)) !! i = Some s → spec_of ty st !! i = Some s' → s ≠ s' →
  ParseIP address = v4InV6Prefix ++ be_bytes 4 a → 0 ≤ a < 2 ^ 32 → belongs qs i a →
  (ty = ExternalCIDR → outside (ParseIP address) (Pod (specRemote (cf_net cfg)))) →
  ∃ b, MapAddressWithConfiguration (Some (cf_net cfg)) address = Ret (Ok (convertByteSliceToString (be_bytes 4 b))) ∧
    0 ≤ b < 2 ^ 32 ∧ (∃ q', qs' !! i = Some q' ∧ Contains q' (mkAddr 32 b "") = true) ∧
    (belongs qs' i b → ∃ d sn, forgeCIDRFirewallConfigurationSpec cfg iface ty
         = Ret (mkTable (Some (tableCIDRName ty)) [d; sn] (Some TableFamilyIPv4)) ∧
       ch_hook d = Some ChainHookPrerouting ∧ ch_hook sn = Some ChainHookPostrouting ∧
       ch_type d = ChainTypeNAT ∧ ch_type sn = ChainTypeNAT ∧
       ∀ p t, carries p t →
         let to := run_nat NATTypeDestNAT family p (default [] (NatRules (ch_rules d))) in
         let from := run_nat NATTypeSourceNAT family p (default [] (NatRules (ch_rules sn))) in
         (DestinationAddress t = mkAddr 32 b "" →
            to b = Some (if enters_by p iface || enters_by p TunnelInterfaceName then b else a)) ∧
         (SourceAddress t = mkAddr 32 a "" →
            from a = Some (if enters_by p TunnelInterfaceName && negb (leaves_by p iface) then b else a)) ∧
         (∀ c, DestinationAddress t = mkAddr 32 c "" → nowhere qs' c → to c = Some c) ∧
         (∀ c, SourceAddress t = mkAddr 32 c "" → nowhere qs c → from c = Some c)).
Proof.
  intros Hcfg Hst Hpair Hs Hs' Hne Hip Ha Hin Hext. pose proof Hpair as (HQ & HQ' & HB).
  destruct (network_text _ _ _ _ HQ Hs) as (q & Hq & _). destruct (network_text _ _ _ _ HQ' Hs') as (q' & Hq' & _).
  destruct (remapped_within _ _ _ _ _ _ _ _ _ _ _ Hpair Hs Hs' Hne Hq Hq' Hip Ha Hin) as (Hrw & Hb & Hc & Hback).
  set (b := remap 32 (val (pAddr q')) (pBits q') a) in *. exists b.
  split; [|split; [done|split; [by exists q'|]]].
  - unfold MapAddressWithConfiguration. rewrite Hcfg, Hst. cbn [negb].
    destruct (ParseIP address) eqn:E; [by rewrite <- E in Hip; rewrite E in Hip|]. rewrite <- E in *. clear E.
    destruct ty; cbn [spec_of] in *; [by rewrite Hrw|].
    assert (Hpod : remapWithin (ParseIP address) address (Pod (specRemote (cf_net cfg))) (Pod st) = Ret (Ok (""%string, false)))
      by (by apply remap_loop_none, Hext).
    rewrite Hpod. cbn [mbind outcome_bind]. by rewrite Hrw.
  - intros Hbel.
    assert (Hlen : (List.length (spec_of ty (specRemote (cf_net cfg))) ≤ List.length (spec_of ty st))%nat).
    { apply Forall2_length in HQ, HQ', HB. lia. }
    destruct (forged_rules cfg iface ty st Hst Hlen) as [Hd Hsn].
    unfold forgeCIDRFirewallConfigurationSpec, forgeCIDRFirewallConfigurationDNATChain, forgeCIDRFirewallConfigurationSNATChain.
    rewrite Hd, Hsn. cbn [mbind outcome_bind]. eexists _, _. split; [reflexivity|]. do 4 (split; [done|]).
    intros p t HC. cbn [ch_rules NatRules default]. cbv zeta. split_and!.
    + intros Hdst. destruct (enters_by p iface || enters_by p TunnelInterfaceName) eqn:Hg.
      * by apply (dnat_passes family iface _ _ qs' HQ' p t); auto.
      * rewrite (dnat_translates family iface _ _ qs qs' HQ HQ' i s s' q q' Hs Hs' Hne Hq Hq' p t); try done. by rewrite Hback.
    + intros Hsrc. destruct (enters_by p TunnelInterfaceName && negb (leaves_by p iface)) eqn:Hg.
      * by rewrite (snat_translates family iface _ _ qs qs' HQ HQ' i s s' q q' Hs Hs' Hne Hq Hq' p t).
      * by apply (snat_passes family iface _ _ qs HQ p t); auto.
    + intros c Hdst Hno. by apply (dnat_passes family iface _ _ qs' HQ' p t); auto.
    + intros c Hsrc Hno. by apply (snat_passes family iface _ _ qs HQ p t); auto.
Qed.

(** ** Admission *)

Section admission.
Context (uuid : nat → string).

Lemma set_void_names_Forall {A} (P : A → Prop) get set l n : (∀ i a, P a → P (set (uuid i) a)) → Forall P l →
  Forall P (set_void_names uuid get set l n).1.
Proof.
  intros Hset HP. revert n. induction HP as [|r l Hr Hl IH]; intros n; simpl; [done|].
  destruct (void_name (get r)).
  - specialize (IH (S n)). destruct (set_void_names uuid get set l (S n)). simpl in *. auto.
  - specialize (IH n). destruct (set_void_names uuid get set l n). simpl in *. auto.
Qed.

(** A chain of NAT rules for one hook. *)
Definition nat_chain (h : ChainHook) (c : Chain) : Prop :=
  ch_type c = ChainTypeNAT ∧ ch_hook c = Some h ∧ allowedTableFamilyChainTypeHook TableFamilyIPv4 ChainTypeNAT h = true ∧
  ∃ l, ch_rules c = mkRulesSet (Some l) None None ∧ Forall (nat_rule_ok h) l.

Lemma generate_nat_chain c n l : ch_type c = ChainTypeNAT → ch_rules c = mkRulesSet (Some l) None None →
  ∃ l', (generate_chain_names uuid c n).1 = set_rules c (mkRulesSet (Some l') None None) ∧ l' = (set_void_names uuid nr_name set_nr_name l n).1.
Proof.
  intros Ht Hr. unfold generate_chain_names. rewrite Ht, Hr. cbn [NatRules default].
  destruct (set_void_names _ _ _ _ _) as [l' n']. by exists l'.
Qed.

Lemma named_nat_chain h c n : (∀ i j, uuid i = uuid j → i = j) → (∀ i, uuid i ≠ ""%string) →
  nat_chain h c → NoDup (given (rule_names c)) → (∀ i, uuid i ∉ given (rule_names c)) →
  chain_ok TableFamilyIPv4 (generate_chain_names uuid c n).1.
Proof.
  intros Hinj Hne (Ht & Hh & Hal & l & Hr & Hl) Hnd Hfr.
  destruct (generate_nat_chain c n l Ht Hr) as (l' & Hg & ->).
  pose proof (fill_names_distinct uuid (rule_names c) n Hinj Hnd Hfr) as (ns & Hf & Hns & Hin).
  rewrite <- rule_names_fill in Hf. rewrite Hg in *. exists h. split; [done|]. cbn [ch_type set_rules ch_rules NatRules FilterRules default].
  rewrite Ht. split; [done|]. split; [split; [done|split; by intros [? ?]]|]. split; [by exists ns|].
  split; [|split; [|done]].
  - rewrite Hf. intros (s & [= <-] & Hs)%list_elem_of_fmap. destruct (Hin _ Hs) as [Hx|(i & _ & E)]; [|by eapply Hne].
    unfold given in Hx. by apply list_elem_of_In, filter_In in Hx as [_ ?].
  - by apply set_void_names_Forall.
Qed.

Lemma generateRuleNames_Forall (P Q : Chain → Prop) chains n : (∀ c n, P c → Q (generate_chain_names uuid c n).1) →
  Forall P chains → Forall Q (generateRuleNames uuid chains n).1.
Proof.
  intros HPQ HP. revert n. induction HP as [|c chains Hc _ IH]; intros n; simpl; [done|].
  pose proof (HPQ c n Hc). destruct (generate_chain_names uuid c n) as [c' n']. specialize (IH n').
  destruct (generateRuleNames uuid chains n') as [cs n'']. simpl in *. auto.
Qed.
Lemma generateRuleNames_chain_names chains n : ch_name <$> (generateRuleNames uuid chains n).1 = ch_name <$> chains.
Proof.
  revert n. induction chains as [|c chains IH]; intros n; simpl; [done|].
  assert (ch_name (generate_chain_names uuid c n).1 = ch_name c) as Hc.
  { unfold generate_chain_names. by repeat (case_match; simpl). }
  destruct (generate_chain_names uuid c n) as [c' n']. specialize (IH n').
  destruct (generateRuleNames uuid chains n') as [cs n'']. simpl in *. f_equal; [done|exact IH].
Qed.
End admission.

(** The tables the controllers publish. *)
Inductive forged : Table → Prop :=
| forged_cidr cfg iface ty t : forgeCIDRFirewallConfigurationSpec cfg iface ty = Ret t → forged t
| forged_ip ns ip : ip_Name ip ≠ ""%string → forged (enforceFirewallConfigurationSpec empty_table ns ip)
| forged_masquerade ns ip : ip_Name ip ≠ ""%string → forged (enforceFirewallConfigurationMasqSpec empty_table ns ip)
| forged_tunneled cfg : NoDup (EscapeForNameStr <$> cf_StatusTunneled cfg) →
    forged (mkTable (Some (generateTunneledMasqueradeFirewallConfigurationName cfg)) [forgeTunneledMasqueradeChain cfg] (Some TableFamilyIPv4)).

(** What the webhooks look at in them. *)
Definition nat_table (t : Table) : Prop :=
  is_Some (tb_name t) ∧ tb_family t = Some TableFamilyIPv4 ∧ distinct_names (ch_name <$> tb_chains t) ∧
  Forall (fun c => (∃ h, nat_chain h c) ∧ NoDup (given (rule_names c))) (tb_chains t).

Lemma nat_rule_names c l : ch_type c = ChainTypeNAT → NatRules (ch_rules c) = Some l → rule_names c = nr_name <$> l.
Proof. unfold rule_names. by intros -> ->. Qed.
Lemma nat_chain_intro name h pol prio l : allowedTableFamilyChainTypeHook TableFamilyIPv4 ChainTypeNAT h = true →
  Forall (nat_rule_ok h) l → NoDup (given (nr_name <$> l)) →
  (∃ h', nat_chain h' (mkChain name (mkRulesSet (Some l) None None) ChainTypeNAT pol (Some h) prio)) ∧
  NoDup (given (rule_names (mkChain name (mkRulesSet (Some l) None None) ChainTypeNAT pol (Some h) prio))).
Proof.
  intros Ha Hl Hnd. split; [|by rewrite (nat_rule_names _ l)]. exists h. split; [done|]. split; [done|]. split; [done|]. by exists l.
Qed.
Lemma unnamed_given l : Forall (fun r => nr_name r = None) l → given (nr_name <$> l) = [].
Proof. unfold given. induction 1 as [|r l Hr _ IH]; [done|]. cbn [fmap list_fmap]. by rewrite Hr. Qed.

Lemma cidr_chain_ok f spec status rules h : cidr_rules f spec status = Ret rules →
  (∀ s t, nr_name (f s t) = None ∧ nat_rule_ok h (f s t)) → Forall (nat_rule_ok h) rules ∧ given (nr_name <$> rules) = [].
Proof.
  intros Hr Hf. assert (∃ l : list (string * string), rules = (fun p => f (fst p) (snd p)) <$> l) as [l ->].
  { destruct (decide (List.length spec ≤ List.length status)%nat) as [H|H].
    - rewrite cidr_rules_spec in Hr by done. injection Hr as <-. eauto.
    - by rewrite cidr_rules_panics in Hr by lia. }
  split; [|apply unnamed_given]; apply Forall_fmap, Forall_true; intros [s t]; apply Hf.
Qed.

Lemma names_distinct (a b : string) : a ≠ b → distinct_names [Some a; Some b].
Proof.
  intros Hab. exists [a; b]. split; [done|]. apply NoDup_cons. split; [by intros ?%list_elem_of_singleton|apply NoDup_singleton].
Qed.
Lemma given_some ns : ""%string ∉ ns → given (Some <$> ns) = ns.
Proof.
  unfold given. induction ns as [|n ns IH]; [done|]. rewrite not_elem_of_cons. intros [Hn Hns].
  cbn. rewrite bool_decide_false by done. cbn. f_equal. exact (IH Hns).
Qed.
Lemma given_one n : n ≠ ""%string → NoDup (given [Some n]).
Proof. intros Hn. change [Some n] with (Some <$> [n]). rewrite given_some by (by intros ?%list_elem_of_singleton). apply NoDup_singleton. Qed.
Lemma tunneled_names (l : list string) : nr_name <$> (tunneled_rule <$> l) = Some <$> ((fun c => ("tunneled-snat-" ++ EscapeForNameStr c)%string) <$> l).
Proof. by rewrite <- !list_fmap_compose. Qed.
Lemma given_tunneled (l : list string) : NoDup (EscapeForNameStr <$> l) → NoDup (given (nr_name <$> (tunneled_rule <$> l))).
Proof.
  intros Hnd. rewrite tunneled_names, given_some by (intros (c & [=] & _)%list_elem_of_fmap).
  change (fun c => _) with (String.append "tunneled-snat-" ∘ EscapeForNameStr). rewrite list_fmap_compose.
  apply NoDup_fmap_2; [|done]. intros a b. apply string_app_inj.
Qed.

Lemma forged_nat_table t : forged t → nat_table t.
Proof.
  destruct 1 as [cfg iface ty t Ht|ns ip Hip|ns ip Hip|cfg Hnd].
  - unfold forgeCIDRFirewallConfigurationSpec, forgeCIDRFirewallConfigurationDNATChain, forgeCIDRFirewallConfigurationSNATChain,
      forgeCIDRFirewallConfigurationDNATRules, forgeCIDRFirewallConfigurationSNATRules in Ht.
    destruct (cidrPairsForType cfg ty) as [[spec status]| |]; cbn [mbind outcome_bind] in Ht; [|done..].
    destruct (cidr_rules (dnat_rule iface) _ _) as [dn| |] eqn:Hd; cbn [mbind outcome_bind] in Ht; [|done..].
    destruct (cidr_rules (snat_rule iface) _ _) as [sn| |] eqn:Hs; cbn [mbind outcome_bind] in Ht; [|done..].
    injection Ht as <-.
    destruct (cidr_chain_ok _ _ _ _ ChainHookPrerouting Hd) as [D1 D2]; [intros; split; [done|]; split; [by left|done]|].
    destruct (cidr_chain_ok _ _ _ _ ChainHookPostrouting Hs) as [S1 S2]; [intros; split; [done|]; split; [by left|done]|].
    split; [done|]. split; [done|]. split; [by apply names_distinct|].
    apply Forall_cons. split; [apply nat_chain_intro; [done..|rewrite D2; constructor]|].
    apply Forall_singleton, nat_chain_intro; [done..|rewrite S2; constructor].
  - split; [done|]. split; [done|]. split; [by apply names_distinct|].
    apply Forall_cons. split; [|apply Forall_singleton]; (apply nat_chain_intro; [done| |by apply given_one]); apply Forall_singleton.
    + split; [by left|done].
    + split; [by left|done].
  - split; [done|]. split; [done|]. split; [by apply names_distinct|].
    apply Forall_cons. split; [|apply Forall_singleton]; (apply nat_chain_intro; [done| |by apply given_one]); apply Forall_singleton.
    + split; [by left|done].
    + split; [by left|done].
  - split; [done|]. split; [done|]. split; [exists [tunneledMasqueradeChainName]; split; [done|apply NoDup_singleton]|].
    apply Forall_singleton, nat_chain_intro; [done|apply Forall_fmap, Forall_true; intros c; split; [by left|done]|].
    apply given_tunneled, Hnd.
Qed.

(** What the controllers publish is admitted.  A table forged for networks, for an
    IP, for its masquerade or for tunneled networks with distinct names passes the
    mutating webhook, which names its unnamed rules, and then the validating one,
    on creation and on updates that keep the name of the table, when no other
    configuration with the same labels uses that name. *)
Theorem forged_configurations_admitted (uuid : nat → string) (update : bool) (items : list FirewallConfiguration)
    (fw : FirewallConfiguration) (old : option FirewallConfiguration) (name : string) (n : nat) :
  (∀ i j, uuid i = uuid j → i = j) → (∀ i, uuid i ≠ ""%string) →
  (∀ i c, c ∈ tb_chains (fw_table fw) → uuid i ∉ given (rule_names c)) →
  forged (fw_table fw) → tb_name (fw_table fw) = Some name → table_name_free items fw name →
  (update = true → ∃ o, old = Some o ∧ tb_name (fw_table o) = Some name) →
  ∃ fw', mutate_Handle uuid (Some fw) n = Some fw' ∧ validate_Handle update (Some items) (Some fw') old = Ret FwAllowed.
Proof.
  intros Hinj Hne Hfr (_ & Hfam & Hnames & Hchains)%forged_nat_table Hname Hfree Hold. eexists. split; [reflexivity|].
  apply validate_allowed. exists name. cbn [fw_table tb_name tb_chains tb_family fw_uid fw_labels].
  split; [done|]. split; [done|]. split; [done|]. rewrite generateRuleNames_chain_names. split; [done|].
  eapply (generateRuleNames_Forall uuid (fun c => (∃ h, nat_chain h c) ∧ NoDup (given (rule_names c)) ∧ ∀ i, uuid i ∉ given (rule_names c))).
  - intros c m ([h Hc] & Hnd & Hu). exists TableFamilyIPv4. split; [done|]. by eapply named_nat_chain.
  - apply Forall_forall. intros c Hc. rewrite Forall_forall in Hchains. destruct (Hchains c Hc) as [? ?].
    split; [done|]. split; [done|]. intros i. by apply Hfr.
Qed.

(** Tunneled networks that appear twice are refused: the names of the rules are
    derived from the networks, and the webhook wants them distinct. *)
Theorem duplicate_tunneled_denied (uuid : nat → string) (update : bool) (items : list FirewallConfiguration)
    (fw fw' : FirewallConfiguration) (old : option FirewallConfiguration) (cfg : Cfg) (n : nat) :
  tb_chains (fw_table fw) = [forgeTunneledMasqueradeChain cfg] →
  ¬ NoDup (cf_StatusTunneled cfg) → mutate_Handle uuid (Some fw) n = Some fw' →
  validate_Handle update (Some items) (Some fw') old ≠ Ret FwAllowed.
Proof.
  intros Hch Hdup [= <-] (name & _ & _ & _ & _ & Hall)%validate_allowed. apply Hdup. cbn [fw_table tb_chains tb_family] in Hall.
  rewrite Hch in Hall. cbn [generateRuleNames] in Hall.
  pose proof (rule_names_fill uuid (forgeTunneledMasqueradeChain cfg) n) as Hr.
  destruct (generate_chain_names uuid (forgeTunneledMasqueradeChain cfg) n) as [c' m]. cbn [fst] in *.
  apply Forall_cons in Hall as [(f & _ & h & _ & _ & _ & (ns & Hns & Hnd) & _) _]. rewrite Hr in Hns.
  rewrite (nat_rule_names _ (tunneled_rule <$> cf_StatusTunneled cfg)), tunneled_names in Hns by done.
  assert (Hfill : ∀ l : list string, fill_names uuid (Some <$> ((fun c => ("tunneled-snat-" ++ EscapeForNameStr c)%string) <$> l)) n
                    = Some <$> ((fun c => ("tunneled-snat-" ++ EscapeForNameStr c)%string) <$> l)).
  { induction l as [|c l IH]; [done|]. cbn [fmap list_fmap fill_names void_name]. rewrite bool_decide_false by done. f_equal. exact IH. }
  rewrite Hfill in Hns. apply (inj (fmap Some)) in Hns as <-. by apply NoDup_fmap_1 in Hnd.
Qed.

(** ** IP mappings *)

Section ip.
Context {Api : KubeApi payload} {OR : OwnerRefs} {CU : CreateOrUpdater payload}.
Context (uuid : nat → string) (uid : okey → string) (items : server → list FirewallConfiguration).
Context (lists : string → string → labels → server → list (string * Obj payload)) (ip_answer : nworld → IPObj → option kerr).
Context (order : list string) (kinds : string → option (string * string)) (globalLabels globalAnnotations : labels).

Notation "w ⋅ k" := (content (nw_server w) !! k) (at level 20, k at next level).
Notation client := (net_client uuid uid items lists).
Notation wrap := (wrapped order kinds globalLabels globalAnnotations).
Notation cou := (CreateOrUpdate order kinds globalLabels globalAnnotations client).
Notation write := (write_ip ip_answer).

(** No rule of a stored configuration is named after the IP. *)
Definition gone_at (ip : IPObj) (k : okey) (w : nworld) : Prop := ∀ o c r, w ⋅ k = Some o →
  c ∈ tb_chains (snd (fw_of o)) → r ∈ default [] (NatRules (ch_rules c)) → nr_name r ≠ Some (ip_Name ip).

Lemma cleaned_names ip c n : (∀ i, uuid i ≠ ip_Name ip) →
  Forall (fun r => nr_name r ≠ Some (ip_Name ip)) (default [] (NatRules (ch_rules (generate_chain_names uuid (clean_chain ip c) n).1))).
Proof.
  intros Hu. set (P r := nr_name r ≠ Some (ip_Name ip)).
  assert (Hc : Forall P (default [] (NatRules (ch_rules (clean_chain ip c))))).
  { cbn. destruct (NatRules (ch_rules c)) as [l|]; [|done]. cbn. apply Forall_forall. intros r Hr.
    apply list_elem_of_In, filter_In in Hr as [_ Hr]. unfold is_rule_of in Hr. by apply negb_true_iff, bool_decide_eq_false in Hr. }
  unfold generate_chain_names. destruct (ch_type (clean_chain ip c)); cbn [fst].
  - by destruct (set_void_names _ fr_name _ _ _).
  - by destruct (set_void_names _ rr_name _ _ _).
  - pose proof (set_void_names_Forall uuid P nr_name set_nr_name _ n ltac:(intros u a _; unfold P; cbn; intros [= E]; by eapply Hu) Hc) as Hs.
    destruct (set_void_names _ nr_name _ _ _) as [l m]. cbn in *. by destruct (NatRules (ch_rules c)).
  - done.
Qed.

Lemma cleaned_gone ip t n : (∀ i, uuid i ≠ ip_Name ip) →
  ∀ c r, c ∈ tb_chains (named_table uuid (clean_table ip t) n) → r ∈ default [] (NatRules (ch_rules c)) → nr_name r ≠ Some (ip_Name ip).
Proof.
  intros Hu c r Hc Hr. cbn in Hc.
  pose proof (generateRuleNames_Forall uuid (fun c => ∃ c0, c = clean_chain ip c0)
    (fun c => Forall (fun r => nr_name r ≠ Some (ip_Name ip)) (default [] (NatRules (ch_rules c)))) (clean_chain ip <$> tb_chains t) n) as H.
  rewrite !Forall_forall in H. specialize (H ltac:(intros ? ? [? ->]; by apply cleaned_names) ltac:(intros x (y & -> & _)%list_elem_of_fmap; eauto) c Hc).
  rewrite Forall_forall in H. by apply H.
Qed.

Lemma clean_step k ip o w w' r : (∀ i, uuid i ≠ ip_Name ip) → k.1.1 = firewallconfigurations → w ⋅ k = Some o →
  deleteNatMappingIPWithFirewallconfiguration client k ip o w = Ret (w', r) →
  quiet w w' ∧ (∀ k', k' ≠ k → w' ⋅ k' = w ⋅ k') ∧ (r = Ok () → gone_at ip k w').
Proof.
  intros Hu Hk Ho. unfold deleteNatMappingIPWithFirewallconfiguration.
  intros [(r1 & w1 & H1 & H2)|(e & H1 & ->)]%K_bind_inv.
  2: { unfold attempt in H1. by destruct (c_Update _ _ _ w) as [[? ?]| |]. }
  unfold attempt in H1. destruct (c_Update _ _ _ w) as [[w2 r2]| |] eqn:E; [|done..]. injection H1 as -> ->.
  cbn in E. apply update_inv in E as ([Hq1 Hq2] & Hf & Hn & Hok). destruct r1 as [o1|e].
  - destruct (Hok o1 eq_refl) as (o2 & [[_ Ha]|[? _]] & cur & _ & _ & Hst & _ & Hsp & _); [|done].
    assert (Hg : ∀ w3 o3, w3 ⋅ k = Some o3 → o_spec o3 = o_spec o1 → gone_at ip k w3).
    { intros w3 o3 H3 Hs3 o4 c r3 H4 Hc Hr. rewrite H3 in H4. injection H4 as <-. unfold fw_of in Hc. rewrite Hs3, Hsp, Ha in Hc.
      eapply cleaned_gone; [done|exact Hc|done]. }
    assert (Hg1 : gone_at ip k w1).
    { intros o4 c r3 H4. assert (o4 = o1) as -> by (rewrite Hst in H4; unfold store_obj in H4; case_match; by simplify_map_eq).
      by apply (Hg w1 o1). }
    unfold deleteFirewallConfiguration in H2. destruct (allChainsVoid _); [|by injection H2 as <- <-].
    apply K_bind_inv in H2 as [(r2 & w2 & H1 & H2)|(e & H1 & ->)].
    2: { unfold attempt in H1. by destruct (c_Delete _ _ w1) as [[? ?]| |]. }
    unfold attempt in H1. destruct (c_Delete _ _ w1) as [[w3 r3]| |] eqn:E; [|done..]. injection H1 as -> ->.
    assert (Hw : w2 = w') by (destruct r2 as [|[]]; injection H2; done). rewrite <- Hw.
    apply delete_inv in E as ([Hq3 Hq4] & Hf' & _ & Hd). split; [split; congruence|].
    split; [intros k' Hne; by rewrite Hf', Hf|]. intros _ o4 c r4 H4. destruct (Hd o4 H4) as (o5 & H5 & _ & Hs5 & _).
    unfold fw_of. rewrite Hs5. by apply Hg1.
  - assert (Hw : w1 = w') by (destruct e; by injection H2). rewrite <- Hw. split; [done|]. split; [done|].
    intros ->. assert (e = NotFound) as -> by (by destruct e; injection H2). intros o4 c r4 H4. by rewrite Hn in H4.
Qed.

Lemma ip_keys_differ ip : gw_key ip ≠ fabric_key ip.
Proof. unfold gw_key, fabric_key, generateNatMappingIPGwName, generateNatMappingIPFabricName. intros [= H]. by apply string_app_inj in H. Qed.

Lemma masquerade_absence ip w w' r : (∀ i, uuid i ≠ ip_Name ip) →
  ensureFirewallConfigurationMasqueradeAbsence client ip w = Ret (w', r) →
  quiet w w' ∧ (∀ k', k' ≠ fabric_key ip → w' ⋅ k' = w ⋅ k') ∧ (r = Ok () → gone_at ip (fabric_key ip) w').
Proof.
  intros Hu. unfold ensureFirewallConfigurationMasqueradeAbsence. unfold mbind, K_bind, attempt. cbn. unfold get_obj.
  destruct (w ⋅ fabric_key ip) as [o|] eqn:Ho; cbn; [by apply clean_step|].
  intros [= <- <-]. split; [done|]. split; [done|]. intros _ o c r H. congruence.
Qed.

Lemma delete_mapping ip w w' r : (∀ i, uuid i ≠ ip_Name ip) → DeleteNatMappingIP client ip w = Ret (w', r) →
  quiet w w' ∧ (∀ k', k' ≠ gw_key ip → k' ≠ fabric_key ip → w' ⋅ k' = w ⋅ k') ∧
  (r = Ok () → gone_at ip (gw_key ip) w' ∧ gone_at ip (fabric_key ip) w').
Proof.
  intros Hu. unfold DeleteNatMappingIP. unfold mbind at 1, K_bind at 1, attempt. cbn. unfold get_obj.
  destruct (w ⋅ gw_key ip) as [o|] eqn:Ho; cbn.
  - intros [([] & w1 & H1 & H2)|(e & H1 & ->)]%K_bind_inv.
    + apply clean_step in H1 as ([Hq1 Hq2] & Hf & Hg); [|done..]. apply masquerade_absence in H2 as ([Hq3 Hq4] & Hf' & Hg'); [|done].
      split; [split; congruence|]. split; [intros k' H1 H2; by rewrite Hf', Hf|]. intros ->. split; [|by apply Hg'].
      intros o' c r. rewrite Hf' by apply ip_keys_differ. by apply Hg.
    + apply clean_step in H1 as (Hq & Hf & _); [|done..]. split; [done|]. split; [intros; by apply Hf|done].
  - intros (Hq & Hf & Hg)%masquerade_absence; [|done]. split; [done|]. split; [intros; by apply Hf|]. intros Hr. split; [|by apply Hg].
    intros o' c r' H'. rewrite Hf in H' by apply ip_keys_differ. congruence.
Qed.

(** The finalizer of an IP is given up only once its rules are gone.  Whatever the
    server answers, when the reconciliation of an IP being deleted writes the IP, no
    rule named after it is left in its two firewall configurations, and no other
    object of the cluster has changed. *)
Theorem ip_finalizer_after_cleaning (ip : IPObj) (w w' : nworld) (r : result kerr ()) :
  (∀ i, uuid i ≠ ip_Name ip) → ip_Deleting ip = true →
  IPReconcile client order kinds globalLabels globalAnnotations write (Ok ip) w = Ret (w', r) →
  (nw_ips w' ≠ nw_ips w → gone_at ip (gw_key ip) w' ∧ gone_at ip (fabric_key ip) w') ∧
  ∀ k, k ≠ gw_key ip → k ≠ fabric_key ip → w' ⋅ k = w ⋅ k.
Proof.
  intros Hu Hd. unfold IPReconcile. rewrite Hd. case_bool_decide; [|by intros [= <- <-]].
  intros [([] & w1 & H1 & H2)|(e & H1 & ->)]%K_bind_inv; apply delete_mapping in H1 as ([Hq _] & Hf & Hg); try done.
  unfold ensureIPMappingFinalizerAbsence, write_ip in H2. destruct (ip_answer _ _); injection H2 as <- <-; [done|].
  split; [by intros _; apply Hg|done].
Qed.

(** *** Reconciling again *)

Lemma existsb_named g l n : (∀ u a, g (set_nr_name u a) = g a) → existsb g (set_void_names uuid nr_name set_nr_name l n).1 = existsb g l.
Proof.
  intros Hg. revert n. induction l as [|r l IH]; intros n; simpl; [done|]. destruct (void_name (nr_name r)).
  - specialize (IH (S n)). destruct (set_void_names uuid nr_name set_nr_name l (S n)). simpl in *. by rewrite Hg, IH.
  - specialize (IH n). destruct (set_void_names uuid nr_name set_nr_name l n). simpl in *. by rewrite IH.
Qed.
Lemma named_set_chain rs name hook prio n : ∃ l', (generate_chain_names uuid (set_chain rs name hook prio) n).1
    = set_chain (set_nat_rules rs ((fun _ => l') <$> NatRules rs)) name hook prio ∧
  ∀ g, (∀ u a, g (set_nr_name u a) = g a) → existsb g (default [] ((fun _ => l') <$> NatRules rs)) = existsb g (default [] (NatRules rs)).
Proof.
  unfold generate_chain_names. cbn [ch_type set_chain ch_rules].
  pose proof (fun g => existsb_named g (default [] (NatRules rs)) n) as He.
  destruct (set_void_names _ _ _ _ _) as [l' m]. exists l'. split; [done|]. intros g Hg. cbn in He. rewrite <- (He g Hg).
  destruct (NatRules rs); cbn; [done|]. specialize (He g Hg). by rewrite He.
Qed.

(** A step that adds a rule when no rule passes a test is stable under naming. *)
Lemma ensure_stable g r rs : g r = true →
  existsb g (default [] (NatRules (if existsb g (default [] (NatRules rs)) then rs else append_nat_rule rs r))) = true.
Proof.
  intros Hg. destruct (existsb g (default [] (NatRules rs))) eqn:E; [done|].
  change (existsb g (default [] (NatRules rs) ++ [r]) = true). rewrite existsb_app, E. cbn. by rewrite Hg.
Qed.

Definition dnat_test (ip : IPObj) (pos : MatchPosition) (r : NatRule) : bool :=
  bool_decide (nr_to r = Some (ip_Spec ip)) && existsb (position_is pos) (nr_match r).
Definition masq_test (ip : IPObj) (r : NatRule) : bool :=
  bool_decide (nr_to r = None) && bool_decide (nr_type r = NatTypeMasquerade) && existsb (dst_is (ip_Spec ip)) (nr_match r).

Lemma enforce_stable ip t ns n :
  enforceFirewallConfigurationSpec (named_table uuid (enforceFirewallConfigurationSpec t ns ip) n) ns ip
    = named_table uuid (enforceFirewallConfigurationSpec t ns ip) n ∧
  enforceFirewallConfigurationMasqSpec (named_table uuid (enforceFirewallConfigurationMasqSpec t ns ip) n) ns ip
    = named_table uuid (enforceFirewallConfigurationMasqSpec t ns ip) n.
Proof.
  assert (Hg : ∀ A B n (f g : NatRule → bool) a b,
    (∀ u x, f (set_nr_name u x) = f x) → (∀ u x, g (set_nr_name u x) = g x) →
    existsb f (default [] (NatRules A)) = true → existsb g (default [] (NatRules B)) = true →
    ∃ A' B' n', (generateRuleNames uuid [set_chain A PreroutingChainName ChainHookPrerouting a; set_chain B PostroutingChainName ChainHookPostrouting b] n)
      = ([set_chain A' PreroutingChainName ChainHookPrerouting a; set_chain B' PostroutingChainName ChainHookPostrouting b], n') ∧
      existsb f (default [] (NatRules A')) = true ∧ existsb g (default [] (NatRules B')) = true).
  { intros A B n0 f g a b Hf Hg HA HB. cbn [generateRuleNames].
    destruct (named_set_chain A PreroutingChainName ChainHookPrerouting a n0) as (la & Ha & Hla).
    destruct (generate_chain_names _ _ n0) as [c1 n1]. cbn in Ha. rewrite Ha.
    destruct (named_set_chain B PostroutingChainName ChainHookPostrouting b n1) as (lb & Hb & Hlb).
    destruct (generate_chain_names _ _ n1) as [c2 n2]. cbn in Hb. rewrite Hb. eexists _, _, _. split; [done|].
    cbn [set_nat_rules NatRules]. by rewrite Hla, Hlb. }
  split; unfold enforceFirewallConfigurationSpec, enforceFirewallConfigurationMasqSpec, named_table; cbn [tb_name tb_family tb_chains]; f_equal.
  - unfold enforceFirewallConfigurationChains at 2 3. destruct (two_chains (tb_chains t)) as [pre post].
    destruct (Hg (ensureFirewallConfigurationDNATRules (ch_rules pre) ip) (ensureFirewallConfigurationSNATRules (ch_rules post) ip) n
      (dnat_test ip MatchPositionDst) (dnat_test ip MatchPositionSrc) ChainPriorityNATDest ChainPriorityNATSource) as (A & B & n' & -> & HA & HB); try done.
    { apply (ensure_stable (dnat_test ip MatchPositionDst)). unfold dnat_test. cbn. by rewrite bool_decide_true. }
    { apply (ensure_stable (dnat_test ip MatchPositionSrc)). unfold dnat_test. cbn. by rewrite bool_decide_true. }
    cbn [fst enforceFirewallConfigurationChains two_chains]. unfold ensureFirewallConfigurationDNATRules, ensureFirewallConfigurationSNATRules, containsNATRule.
    cbn [ch_rules set_chain]. unfold dnat_test in HA, HB. by rewrite HA, HB.
  - unfold enforceFirewallConfigurationMasqChains at 2 3. destruct (two_chains (tb_chains t)) as [pre post].
    destruct (Hg (ensureFirewallConfigurationDNATRules (ch_rules pre) ip) (ensureFirewallConfigurationMasqSNATRules (ch_rules post) ip) n
      (dnat_test ip MatchPositionDst) (masq_test ip) ChainPriorityNATDest (ChainPriorityNATSource - 1)) as (A & B & n' & -> & HA & HB); try done.
    { apply (ensure_stable (dnat_test ip MatchPositionDst)). unfold dnat_test. cbn. by rewrite bool_decide_true. }
    { apply (ensure_stable (masq_test ip)). unfold masq_test, dst_is. cbn. by rewrite !bool_decide_true by done. }
    cbn [fst enforceFirewallConfigurationMasqChains two_chains]. unfold ensureFirewallConfigurationDNATRules, ensureFirewallConfigurationMasqSNATRules,
      containsNATRule, containsNatRuleMasquerade. cbn [ch_rules set_chain]. unfold dnat_test in HA. unfold masq_test in HB. by rewrite HA, HB.
Qed.

(** A mutation that sets the labels and maps the table. *)
Definition fw_mutation (l : labels) (f : Table → Table) : mutate_fn payload := fun o =>
  Ret (Ok (set_fw o l (fst (fw_of o)) (f (snd (fw_of o))))).
Lemma fw_mutation_mild l f : mild (fw_mutation l f).
Proof. by intros o o1 [= <-]. Qed.

Lemma wrap_settled k l f base o1 o2 o' n : (∀ t, f (named_table uuid (f t) n) = named_table uuid (f t) n) →
  k.1.1 = firewallconfigurations → wrap k (fw_mutation l f) base = Ret (Ok o1) → admitted uuid k o1 n o2 →
  same_meta o2 o' → o_spec o' = o_spec o2 → wrap k (fw_mutation l f) o' = Ret (Ok o').
Proof.
  intros Hf Hk Hw [[_ Ha]|[? _]] (Hl & Han & Hfin) Hsp; [|done]. unfold wrapped in *. cbn [fw_mutation mbind outcome_bind] in *.
  destruct (buildVariablesMap order kinds k) as [vars|]; [|done]. injection Hw as <-. subst o2.
  assert (Hfw : fw_of o' = (fst (fw_of base), named_table uuid (f (snd (fw_of base))) n)) by (unfold fw_of at 1; by rewrite Hsp).
  rewrite Hfw. cbn [fst snd]. rewrite Hf. clear Hf Hfw.
  destruct o' as [l' a' f' d' v' s' t']. cbn in *. subst. f_equal. f_equal.
  f_equal. by rewrite (assoc_L (∪)), (idemp_L (∪)).
Qed.

Lemma cou_settles k l f w w' o' : (∀ t n, f (named_table uuid (f t) n) = named_table uuid (f t) n) →
  k.1.1 = firewallconfigurations → (∀ o, w ⋅ k = Some o → lives o) → cou k (fw_mutation l f) w = Ret (w', Ok o') →
  quiet w w' ∧ (∀ k', k' ≠ k → w' ⋅ k' = w ⋅ k') ∧ w' ⋅ k = Some o' ∧ lives o' ∧
  ∀ w'', w'' ⋅ k = Some o' → cou k (fw_mutation l f) w'' = Ret (w'', Ok o').
Proof.
  intros Hf Hk Hl Hc. apply cou_inv in Hc as (Hq & Hfr & Hst & Hli & Hcase); [|apply fw_mutation_mild|done].
  split; [done|]. split; [done|]. split; [done|]. split; [done|]. intros w'' Hw''. apply cou_again; [done|].
  destruct Hcase as [[_ H]|(base & o1 & o2 & _ & Hw & Ha & Hm & Hsp & _)]; [done|].
  by eapply wrap_settled.
Qed.

Notation map_ip := (CreateOrUpdateNatMappingIP client order kinds globalLabels globalAnnotations).
Definition gw_mutation (ip : IPObj) := fw_mutation ForgeFirewallTargetLabelsIPMappingGw (fun t => enforceFirewallConfigurationSpec t (ip_Namespace ip) ip).
Definition fabric_mutation (ip : IPObj) :=
  fw_mutation ForgeFirewallTargetLabelsIPMappingFabric (fun t => enforceFirewallConfigurationMasqSpec t (ip_Namespace ip) ip).

Lemma named_ip_table ip n : ip_Name ip ≠ ""%string →
  named_table uuid (enforceFirewallConfigurationSpec empty_table (ip_Namespace ip) ip) n = enforceFirewallConfigurationSpec empty_table (ip_Namespace ip) ip.
Proof.
  intros Hn. unfold named_table, enforceFirewallConfigurationSpec. cbn [tb_name tb_chains tb_family]. f_equal.
  cbn. rewrite !bool_decide_false by done. done.
Qed.

Lemma gw_created ip w w' o : ip_Name ip ≠ ""%string → w ⋅ gw_key ip = None → cou (gw_key ip) (gw_mutation ip) w = Ret (w', Ok o) →
  snd (fw_of o) = enforceFirewallConfigurationSpec empty_table (ip_Namespace ip) ip.
Proof.
  intros Hn Hk Hc. pose proof Hc as Hc'. apply cou_inv in Hc as (_ & _ & Hst & _ & Hcase); [|apply fw_mutation_mild|by rewrite Hk].
  destruct Hcase as [[-> _]|(base & o1 & o2 & -> & Hw & [[_ ->]|[? _]] & _ & Hsp & _)]; [by rewrite Hk in Hst| |done].
  rewrite Hk in Hw. cbn [default] in Hw. unfold wrapped in Hw. cbn [gw_mutation fw_mutation mbind outcome_bind] in Hw.
  destruct (buildVariablesMap order kinds (gw_key ip)); [|done]. injection Hw as <-. unfold fw_of. rewrite Hsp. cbn [set_fw o_spec fw_of snd fst].
  by apply named_ip_table.
Qed.

Lemma absence_noop ip w : w ⋅ fabric_key ip = None → ensureFirewallConfigurationMasqueradeAbsence client ip w = Ret (w, Ok ()).
Proof. intros H. unfold ensureFirewallConfigurationMasqueradeAbsence, mbind, K_bind, attempt, net_client, c_Get, get_obj. by rewrite H. Qed.

(** The mapping of an IP settles.  When it has been created or updated, doing it
    again changes nothing in the cluster; a mapping that did not exist has one rule
    that rewrites the destination of packets to the remapped address, and one for
    sources; no object but the two configurations of the IP is touched.  (Without
    masquerade the configuration of the fabric, if it is there, is cleaned and
    deleted instead.) *)
Theorem ip_mapping_settles (ip : IPObj) (w w' : nworld) :
  (∀ k o, w ⋅ k = Some o → lives o) → ip_Masquerade ip = Some true ∨ w ⋅ fabric_key ip = None →
  map_ip ip w = Ret (w', Ok ()) →
  map_ip ip w' = Ret (w', Ok ()) ∧ (∀ k, k ≠ gw_key ip → k ≠ fabric_key ip → w' ⋅ k = w ⋅ k) ∧
  ∃ o, w' ⋅ gw_key ip = Some o ∧
    (ip_Name ip ≠ ""%string → w ⋅ gw_key ip = None → snd (fw_of o) = enforceFirewallConfigurationSpec empty_table (ip_Namespace ip) ip).
Proof.
  intros Hl Hm. unfold CreateOrUpdateNatMappingIP. intros [(o & w1 & H1 & H2)|(e & _ & [=])]%K_bind_inv.
  pose proof (fun Hn Hk => gw_created ip w w1 o Hn Hk H1) as Hnew.
  pose proof (cou_settles (gw_key ip) _ _ w w1 o (fun t n => proj1 (enforce_stable ip t (ip_Namespace ip) n)) eq_refl (Hl _) H1) as (_ & Hf1 & Hs1 & _ & Hagain).
  assert (Hl1 : ∀ o, w1 ⋅ fabric_key ip = Some o → lives o).
  { intros x. rewrite Hf1 by (apply not_eq_sym, ip_keys_differ). apply Hl. }
  assert (Hcase : (ip_Masquerade ip = Some true ∧ ∃ o2, cou (fabric_key ip) (fabric_mutation ip) w1 = Ret (w', Ok o2)) ∨
                  (ip_Masquerade ip ≠ Some true ∧ w' = w1 ∧ w1 ⋅ fabric_key ip = None)).
  { destruct (ip_Masquerade ip) as [[]|] eqn:E; [left| right..].
    - split; [done|]. apply K_bind_inv in H2 as [(o2 & w2 & H2 & [= <-])|(e & _ & [=])]. by exists o2.
    - destruct Hm as [?|Hm]; [done|]. rewrite <- (Hf1 (fabric_key ip)) in Hm by (apply not_eq_sym, ip_keys_differ). split; [done|]. split; [|done].
      rewrite absence_noop in H2 by done. by injection H2.
    - destruct Hm as [?|Hm]; [done|]. rewrite <- (Hf1 (fabric_key ip)) in Hm by (apply not_eq_sym, ip_keys_differ). split; [done|]. split; [|done].
      rewrite absence_noop in H2 by done. by injection H2. }
  destruct Hcase as [[Hmq (o2 & H3)]|(Hmq & -> & Hnone)].
  - pose proof (cou_settles (fabric_key ip) _ _ w1 w' o2 (fun t n => proj2 (enforce_stable ip t (ip_Namespace ip) n)) eq_refl Hl1 H3) as (_ & Hf2 & Hs2 & _ & Hagain2).
    assert (Hgw : w' ⋅ gw_key ip = Some o) by (rewrite Hf2; [done|apply ip_keys_differ]).
    split; [|split; [intros k H5 H6; by rewrite Hf2, Hf1|by exists o]].
    erewrite K_bind_ok by exact (Hagain w' Hgw). rewrite Hmq. erewrite K_bind_ok by exact (Hagain2 w' Hs2). done.
  - split; [|split; [intros k H5 H6; by rewrite Hf1|by exists o]].
    erewrite K_bind_ok by exact (Hagain w1 Hs1). pose proof (absence_noop ip w1 Hnone).
    by destruct (ip_Masquerade ip) as [[]|].
Qed.

(** *** Networks *)

Notation map_cidr := (CreateOrUpdateNatMappingCIDR client order kinds globalLabels globalAnnotations).

Lemma set_void_names_draws l n : Forall (fun r => nr_name r = None) l →
  (set_void_names uuid nr_name set_nr_name l n).2 = (n + List.length l)%nat ∧
  Forall (fun r => nr_name r ≠ None) (set_void_names uuid nr_name set_nr_name l n).1 ∧
  List.length (set_void_names uuid nr_name set_nr_name l n).1 = List.length l.
Proof.
  intros Hl. revert n. induction Hl as [|r l Hr _ IH]; intros n; simpl; [rewrite Nat.add_0_r; done|]. rewrite Hr. cbn [void_name].
  destruct (IH (S n)) as (H1 & H2 & H3). destruct (set_void_names uuid nr_name set_nr_name l (S n)) as [l' m]. cbn in *.
  split; [lia|]. split; [by constructor|by rewrite H3].
Qed.

Lemma generate_unnamed c n l : ch_type c = ChainTypeNAT → ch_rules c = mkRulesSet (Some l) None None → Forall (fun r => nr_name r = None) l →
  ∃ l', generate_chain_names uuid c n = (set_rules c (mkRulesSet (Some l') None None), (n + List.length l)%nat) ∧
    Forall (fun r => nr_name r ≠ None) l' ∧ List.length l' = List.length l.
Proof.
  intros Ht Hr Hl. destruct (set_void_names_draws l n Hl) as (H1 & H2 & H3). unfold generate_chain_names. rewrite Ht, Hr.
  cbn [NatRules]. change (default [] (Some l)) with l. destruct (set_void_names uuid nr_name set_nr_name l n) as [l' m].
  cbn [fst snd] in *. subst m. by exists l'.
Qed.

Definition cidr_table (cfg : Cfg) (iface : string) (ty : CIDRType) (l : list (string * string)) : Table :=
  mkTable (Some (tableCIDRName ty))
    [mkChain (Some DNATChainName) (mkRulesSet (Some ((fun p => dnat_rule iface (fst p) (snd p)) <$> l)) None None) ChainTypeNAT
       (Some ChainPolicyAccept) (Some ChainHookPrerouting) (Some ChainPriorityNATDest);
     mkChain (Some SNATChainName) (mkRulesSet (Some ((fun p => snat_rule iface (fst p) (snd p)) <$> l)) None None) ChainTypeNAT
       (Some ChainPolicyAccept) (Some ChainHookPostrouting) (Some ChainPriorityNATSource)] (Some TableFamilyIPv4).
Lemma forged_table cfg iface ty st : statusRemote (cf_net cfg) = Some st →
  (List.length (spec_of ty (specRemote (cf_net cfg))) ≤ List.length (spec_of ty st))%nat →
  forgeCIDRFirewallConfigurationSpec cfg iface ty = Ret (cidr_table cfg iface ty (moved (spec_of ty (specRemote (cf_net cfg))) (spec_of ty st))).
Proof.
  intros Hst Hl. destruct (forged_rules cfg iface ty st Hst Hl) as [Hd Hs].
  unfold forgeCIDRFirewallConfigurationSpec, forgeCIDRFirewallConfigurationDNATChain, forgeCIDRFirewallConfigurationSNATChain.
  by rewrite Hd, Hs.
Qed.

(** A table whose first rule is named. *)
Definition first_named (t : Table) : Prop :=
  ∃ c cs r rs, tb_chains t = c :: cs ∧ NatRules (ch_rules c) = Some (r :: rs) ∧ nr_name r ≠ None.
Lemma named_cidr_table cfg iface ty l n : l ≠ [] →
  first_named (named_table uuid (cidr_table cfg iface ty l) n) ∧ ¬ first_named (cidr_table cfg iface ty l) ∧
  (n < (generateRuleNames uuid (tb_chains (cidr_table cfg iface ty l)) n).2)%nat.
Proof.
  intros Hne. destruct l as [|[s t] l]; [done|].
  assert (Hall : ∀ f : string → string → NatRule, (∀ a b, nr_name (f a b) = None) → Forall (fun r => nr_name r = None) ((fun p => f (fst p) (snd p)) <$> ((s, t) :: l)))
    by (intros f Hf; apply Forall_fmap, Forall_true; intros [a b]; apply Hf).
  pose proof (Hall (dnat_rule iface) ltac:(done)) as Hd. pose proof (Hall (snat_rule iface) ltac:(done)) as Hs.
  unfold first_named, named_table. cbn [cidr_table tb_chains generateRuleNames].
  match goal with |- context [generate_chain_names uuid ?c n] => destruct (generate_unnamed c n _ eq_refl eq_refl Hd) as (l1 & -> & H1 & L1) end.
  match goal with |- context [generate_chain_names uuid ?c ?m] => destruct (generate_unnamed c m _ eq_refl eq_refl Hs) as (l2 & -> & _ & _) end.
  cbn [fst snd]. split; [|split].
  - destruct l1 as [|r l1]; [done|]. eexists _, _, r, l1. split; [done|]. split; [done|]. by apply Forall_cons in H1 as [? _].
  - intros (c & cs & r & rs & [= <- _] & [= <- _] & H). done.
  - cbn. lia.
Qed.

(** The mapping of networks never settles.  The rules are forged without names and
    the webhook gives them new ones: after a successful reconciliation the next one
    updates the configuration again, although nothing has changed, and every rule
    gets another name. *)
Theorem cidr_mapping_never_settles (cfg : Cfg) (iface : string) (ty : CIDRType) (st : ClusterCIDR) (w w1 w2 : nworld) :
  isRemapComplete cfg = true → statusRemote (cf_net cfg) = Some st → moved (spec_of ty (specRemote (cf_net cfg))) (spec_of ty st) ≠ [] →
  (∀ o, w ⋅ cidr_key cfg ty = Some o → lives o ∧ first_named (snd (fw_of o))) →
  map_cidr cfg iface ty w = Ret (w1, Ok ()) → map_cidr cfg iface ty w1 = Ret (w2, Ok ()) → (nw_draws w1 < nw_draws w2)%nat.
Proof.
  intros Hc Hst Hmv Hl. destruct (complete_lengths cfg Hc) as (st0 & Hst0 & Hp & He). rewrite Hst in Hst0. injection Hst0 as <-.
  assert (Hlen : (List.length (spec_of ty (specRemote (cf_net cfg))) ≤ List.length (spec_of ty st))%nat) by (destruct ty; cbn; lia).
  pose proof (forged_table cfg iface ty st Hst Hlen) as Ht. set (l := moved _ _) in *.
  unfold CreateOrUpdateNatMappingCIDR. set (f := mutateCIDRFirewallConfiguration cfg iface ty).
  assert (Hf : ∀ o o1, wrap (cidr_key cfg ty) f o = Ret (Ok o1) → snd (fw_of o1) = cidr_table cfg iface ty l).
  { intros o o1. unfold wrapped, f, mutateCIDRFirewallConfiguration. destruct (cf_Labels cfg); [|done]. rewrite Ht. cbn [mbind outcome_bind].
    destruct (SetOwnerReference _ _); [|done]. cbn [mbind outcome_bind]. destruct (buildVariablesMap _ _ _); [|done]. by intros [= <-]. }
  assert (Hmild : mild f).
  { intros o o1. unfold f, mutateCIDRFirewallConfiguration. destruct (cf_Labels cfg); [|done]. rewrite Ht. cbn [mbind outcome_bind].
    destruct (SetOwnerReference _ _); [|done]. by intros [= <-]. }
  intros [(o1 & w1' & H1 & [= <-])|(e & _ & [=])]%K_bind_inv [(o2 & w2' & H2 & [= <-])|(e2 & _ & [=])]%K_bind_inv.
  apply cou_inv in H1 as (_ & _ & Hs1 & Hli & Hcase); [|done|intros o Ho; by apply Hl].
  assert (Hnamed : first_named (snd (fw_of o1))).
  { destruct Hcase as [[-> Hw]|(base & o3 & o4 & _ & Hw & [[_ ->]|[? _]] & _ & Hsp & _)]; [by apply Hl| |done].
    apply Hf in Hw. unfold fw_of at 1. rewrite Hsp. cbn [set_fw o_spec snd]. rewrite Hw. by apply named_cidr_table. }
  rewrite cou_eq, Hs1 in H2. apply K_bind_inv in H2 as [(o3 & w3 & [-> Hw]%lift_outcome_inv & H2)|(e & _ & [=])].
  destruct (decide (o3 = o1)) as [->|Hne].
  - apply Hf in Hw. rewrite Hw in Hnamed. by destruct (named_cidr_table cfg iface ty l 0 Hmv) as (_ & [] & _).
  - pose proof (update_draws uuid uid items (cidr_key cfg ty) o3 w1' w2' (Ok o2) o1 eq_refl Hs1 H2) as ->. rewrite (Hf _ _ Hw).
    by apply named_cidr_table.
Qed.
End ip.

(** ** Witnesses *)

#[export] Instance payload_updater : CreateOrUpdater payload := documented payload.

Definition ex_net : Configuration :=
  mkConfiguration 3 (mkClusterCIDR ["10.80.0.0/16"%string; "10.244.0.0/16"%string] ["10.70.0.0/16"%string]) (Some (mkCondition 3 true))
    (Some (mkClusterCIDR ["10.80.0.0/16"%string; "10.71.0.0/16"%string] ["10.70.0.0/16"%string])).
Definition ex_cfg : Cfg :=
  mkCfg "cl" "ns" "u1" (Some {[ RemoteClusterID := "milan"%string ]}) (Some (mkClusterCIDR [] [])) ex_net [] [] None.
Definition ex_header : list Z := replicate 12 0 ++ [10; 244; 3; 7] ++ [10; 71; 3; 7].
Definition ex_packet : packet := mkPacket ex_header (be_bytes 2 9 ++ be_bytes 2 80) 6 (ifname "eth1") (ifname "eth2").
Definition ex_tuple : Tuple := mkTuple (mkAddr 32 (be_val [10; 244; 3; 7]) "") (mkAddr 32 (be_val [10; 71; 3; 7]) "") 6 9 80.

(** The packet of the example, to 10.71.3.7, is sent to 10.244.3.7. *)
Definition ex_prefixes (l : list (list Z)) : list Prefix := (fun bs => mkPrefix (mkAddr 32 (be_val bs) "") 16) <$> l.
Lemma remapped_traffic_delivered_witness :
  ∃ d sn, forgeCIDRFirewallConfigurationSpec ex_cfg "eth0" PodCIDR
      = Ret (mkTable (Some (tableCIDRName PodCIDR)) [d; sn] (Some TableFamilyIPv4)) ∧
    run_nat NATTypeDestNAT 2 ex_packet (default [] (NatRules (ch_rules d))) (be_val [10; 71; 3; 7])
      = Some (be_val [10; 244; 3; 7]).
Proof.
  destruct (remapped_traffic_delivered ex_cfg (mkClusterCIDR ["10.80.0.0/16"%string; "10.71.0.0/16"%string] ["10.70.0.0/16"%string])
    PodCIDR "eth0" (ex_prefixes [[10; 80; 0; 0]; [10; 244; 0; 0]]) (ex_prefixes [[10; 80; 0; 0]; [10; 71; 0; 0]]) 1
    "10.244.0.0/16" "10.71.0.0/16" "10.244.3.7" (be_val [10; 244; 3; 7]) 2) as (b & Hmap & Hb & _ & H).
  - reflexivity.
  - reflexivity.
  - split_and!; repeat constructor; vm_compute; reflexivity.
  - reflexivity.
  - reflexivity.
  - done.
  - vm_compute. reflexivity.
  - vm_compute. intuition congruence.
  - intros [|[|j]] q Hq; [..|done]; injection Hq as <-; vm_compute; split; congruence.
  - done.
  - assert (b = be_val [10; 71; 3; 7]) as ->.
    { assert (Hm : MapAddressWithConfiguration (Some ex_net) "10.244.3.7" = Ret (Ok "10.71.3.7"%string)) by (vm_compute; reflexivity).
      assert (Ht : convertByteSliceToString (be_bytes 4 b) = "10.71.3.7"%string) by (cbn [cf_net ex_cfg] in Hmap; congruence).
      pose proof (ParseIP_quad b Hb) as Hq. rewrite Ht in Hq.
      assert (Hq' : ParseIP "10.71.3.7" = v4InV6Prefix ++ [10; 71; 3; 7]) by (vm_compute; reflexivity).
      rewrite Hq' in Hq. apply app_inv_head in Hq. rewrite Hq. symmetry. by apply be_val_bytes4. }
    destruct H as (d & sn & Hf & _ & _ & _ & _ & Hp).
    { intros [|[|j]] q Hq; [..|done]; injection Hq as <-; vm_compute; split; congruence. }
    exists d, sn. split; [done|]. destruct (Hp ex_packet ex_tuple) as (Hd & _).
    { split; vm_compute; intuition congruence. }
    rewrite Hd by (vm_compute; reflexivity). vm_compute. reflexivity.
Defined.

Definition ex_table : Table := cidr_table ex_cfg "eth0" PodCIDR [("10.244.0.0/16", "10.71.0.0/16")]%string.
Lemma forged_configurations_admitted_witness :
  ∃ fw', mutate_Handle ex_uuid (Some (mkFirewallConfiguration "f1" ∅ ex_table)) 5 = Some fw' ∧ validate_Handle false (Some []) (Some fw') None = Ret FwAllowed.
Proof.
  apply (forged_configurations_admitted ex_uuid false [] (mkFirewallConfiguration "f1" ∅ ex_table) None TablePodCIDRName 5).
  - intros i j E. apply (f_equal String.length) in E. rewrite !ex_uuid_length in E. lia.
  - intros i E. apply (f_equal String.length) in E. by rewrite ex_uuid_length in E.
  - intros i c Hc. apply elem_of_cons in Hc as [->|[->|[]%not_elem_of_nil]%elem_of_cons]; cbn; apply not_elem_of_nil.
  - apply (forged_cidr ex_cfg "eth0" PodCIDR). vm_compute. reflexivity.
  - reflexivity.
  - intros i []%not_elem_of_nil.
  - discriminate.
Defined.

Definition ex_dup : Cfg :=
  mkCfg "cl" "ns" "u1" (Some {[ RemoteClusterID := "milan"%string ]}) None ex_net [] ["10.1.0.0/16"%string; "10.1.0.0/16"%string] None.
Lemma duplicate_tunneled_denied_witness :
  validate_Handle false (Some []) (Some (mkFirewallConfiguration "f1" ∅ (mkTable (Some "t"%string)
    (generateRuleNames ex_uuid [forgeTunneledMasqueradeChain ex_dup] 0).1 (Some TableFamilyIPv4)))) None ≠ Ret FwAllowed.
Proof.
  apply (duplicate_tunneled_denied ex_uuid false []
    (mkFirewallConfiguration "f1" ∅ (mkTable (Some "t"%string) [forgeTunneledMasqueradeChain ex_dup] (Some TableFamilyIPv4))) _ None ex_dup 0).
  - reflexivity.
  - intros H. apply NoDup_cons in H as [H _]. apply H. by constructor.
  - reflexivity.
Defined.

(** An IP with a remapped address, and a cluster with its mapping. *)
Definition ex_ip (deleting : bool) : IPObj :=
  mkIPObj "api" "ns" "1.2.3.4" (Some true) "10.70.0.9" [ipMappingControllerFinalizer] deleting.
Definition ex_kinds (r : string) : option (string * string) := Some ("FirewallConfiguration", "networking.liqo.io")%string.
Definition ex_empty : nworld (Api := memory) := mkNworld (∅ : gmap okey (Obj payload)) 0 [] [].
Definition ex_client : Client nworld payload := net_client (Api := memory) ex_uuid (fun _ => "u"%string) (fun _ => []) (fun _ _ _ _ => []).
Definition ex_map : outcome (nworld (Api := memory) * result kerr ()) :=
  CreateOrUpdateNatMappingIP ex_client knownVariables ex_kinds ∅ ∅ (ex_ip false) ex_empty.
Definition ex_mapped : nworld := match ex_map with Ret (w, _) => w | _ => ex_empty end.
Lemma ex_map_ok : ex_map = Ret (ex_mapped, Ok ()).
Proof.
  unfold ex_mapped. assert (H : match ex_map with Ret (_, Ok _) => true | _ => false end = true) by (vm_compute; reflexivity).
  by destruct ex_map as [[w [[]|e]]| |].
Qed.

Lemma ip_mapping_settles_witness :
  CreateOrUpdateNatMappingIP ex_client knownVariables ex_kinds ∅ ∅ (ex_ip false) ex_mapped = Ret (ex_mapped, Ok ()) ∧
  ∃ o, content (nw_server ex_mapped) !! gw_key (ex_ip false) = Some o ∧ snd (fw_of o) = enforceFirewallConfigurationSpec empty_table "ns" (ex_ip false).
Proof.
  pose proof (ip_mapping_settles ex_uuid (fun _ => "u"%string) (fun _ => []) (fun _ _ _ _ => []) knownVariables ex_kinds ∅ ∅
    (ex_ip false) ex_empty ex_mapped) as H.
  destruct H as (H1 & _ & o & Ho & Ht).
  - intros k o. change (content (nw_server ex_empty)) with (∅ : gmap okey (Obj payload)). by rewrite lookup_empty.
  - by left.
  - exact ex_map_ok.
  - split; [exact H1|]. exists o. split; [exact Ho|]. apply Ht; [done|].
    change (content (nw_server ex_empty)) with (∅ : gmap okey (Obj payload)). by rewrite lookup_empty.
Defined.

Definition ex_unmap : outcome (nworld (Api := memory) * result kerr ()) :=
  IPReconcile ex_client knownVariables ex_kinds ∅ ∅ (write_ip (fun _ _ => None)) (Ok (ex_ip true)) ex_mapped.
Definition ex_unmapped : nworld := match ex_unmap with Ret (w, _) => w | _ => ex_empty end.
Lemma ex_unmap_ok : ex_unmap = Ret (ex_unmapped, Ok ()) ∧ List.length (nw_ips ex_unmapped) = 1%nat.
Proof.
  unfold ex_unmapped.
  assert (H : match ex_unmap with Ret (w, Ok _) => (List.length (nw_ips w) =? 1)%nat | _ => false end = true) by (vm_compute; reflexivity).
  destruct ex_unmap as [[w [[]|e]]| |]; [|done..]. split; [done|]. by apply Nat.eqb_eq.
Qed.

Lemma ip_finalizer_after_cleaning_witness :
  gone_at (ex_ip true) (gw_key (ex_ip true)) ex_unmapped ∧ gone_at (ex_ip true) (fabric_key (ex_ip true)) ex_unmapped.
Proof.
  pose proof (ip_finalizer_after_cleaning ex_uuid (fun _ => "u"%string) (fun _ => []) (fun _ _ _ _ => []) (fun _ _ => None) knownVariables ex_kinds ∅ ∅
    (ex_ip true) ex_mapped ex_unmapped (Ok ())) as H.
  destruct H as [H _].
  - intros i E. apply (f_equal String.list_ascii_of_string) in E. unfold ex_uuid in E. rewrite String.list_ascii_of_string_of_list_ascii in E.
    by destruct i.
  - reflexivity.
  - exact (proj1 ex_unmap_ok).
  - apply H. intros E. apply (f_equal List.length) in E. rewrite (proj2 ex_unmap_ok) in E.
    assert (List.length (nw_ips ex_mapped) = 0%nat) by (vm_compute; reflexivity). congruence.
Defined.

Definition ex_remap (w : nworld (Api := memory)) : outcome (nworld (Api := memory) * result kerr ()) :=
  CreateOrUpdateNatMappingCIDR ex_client knownVariables ex_kinds ∅ ∅ ex_cfg "eth0" PodCIDR w.
Definition ex_after (o : outcome (nworld (Api := memory) * result kerr ())) : nworld := match o with Ret (w, _) => w | _ => ex_empty end.
Lemma ex_remap_ok : ex_remap ex_empty = Ret (ex_after (ex_remap ex_empty), Ok ()) ∧
  ex_remap (ex_after (ex_remap ex_empty)) = Ret (ex_after (ex_remap (ex_after (ex_remap ex_empty))), Ok ()).
Proof.
  assert (Hok : ∀ o, match o with Ret (_, Ok _) => true | _ => false end = true → o = Ret (ex_after o, Ok ())) by (by intros [[w [[]|e]]| |]).
  split; apply Hok; vm_compute; reflexivity.
Qed.
Lemma cidr_mapping_never_settles_witness :
  (nw_draws (ex_after (ex_remap ex_empty)) < nw_draws (ex_after (ex_remap (ex_after (ex_remap ex_empty)))))%nat.
Proof.
  apply (cidr_mapping_never_settles ex_uuid (fun _ => "u"%string) (fun _ => []) (fun _ _ _ _ => []) knownVariables ex_kinds ∅ ∅ ex_cfg "eth0" PodCIDR
    (mkClusterCIDR ["10.80.0.0/16"%string; "10.71.0.0/16"%string] ["10.70.0.0/16"%string]) ex_empty).
  - reflexivity.
  - reflexivity.
  - done.
  - intros o. change (content (nw_server ex_empty)) with (∅ : gmap okey (Obj payload)). by rewrite lookup_empty.
  - exact (proj1 ex_remap_ok).
  - exact (proj2 ex_remap_ok).
Defined.
