(* ===== verification/NetConfigProps.v ===== *)
(** * NetConfigProps: what the status of a configuration means *)

From S2P Require Export RemappingProps.
Local Open Scope Z_scope.

Section config.
Context {Api : KubeApi payload} {OR : OwnerRefs} {CU : CreateOrUpdater payload}.
Context (uuid : nat → string) (uid : okey → string) (items : server → list FirewallConfiguration).
Context (lists : string → string → labels → server → list (string * Obj payload)) (cfg_answer : nworld → Cfg → option kerr).
Context (order : list string) (kinds : string → option (string * string)) (globalLabels globalAnnotations : labels).
(** Listing returns the objects of the namespace that carry the labels. *)
Context (Hlists : ∀ res ns l s name o, (name, o) ∈ lists res ns l s ↔ content s !! (res, ns, name) = Some o ∧ l ⊆ o_labels o).
Context (Hglobal : globalLabels !! LabelCIDRType = None).

Notation "w ⋅ k" := (content (nw_server w) !! k) (at level 20, k at next level).
Notation client := (net_client uuid uid items lists).
Notation wrap := (wrapped order kinds globalLabels globalAnnotations).
Notation ensure := (EnsureNetwork client order kinds globalLabels globalAnnotations).
Notation ensure_all := (ensure_networks client order kinds globalLabels globalAnnotations).
Notation remap_type := (remapCIDRType client order kinds globalLabels globalAnnotations).
Notation reconcile := (reconcile_cfg client order kinds globalLabels globalAnnotations (write_cfg_status cfg_answer)).

(** The remapped network a Network resource holds. *)
Definition status_at (w : nworld) (k : okey) : string := match w ⋅ k with Some o => net_status o | None => ""%string end.
Definition statuses (w : nworld) (cfg : Cfg) (ty : LabelCIDRTypeValue) : list string :=
  (fun c => status_at w (network_key cfg ty c)) <$> selectSpecCIDRs cfg ty.

Lemma mutate_network_mild cfg ty c opts : mild (mutate_network cfg ty c opts).
Proof.
  intros o o1. unfold mutate_network. destruct (ForgeNetworkLabel cfg ty); [|done]. destruct (SetControllerReference _ _); [|done]. by intros [= <-].
Qed.
Lemma mutate_network_label cfg ty c opts k o o1 : wrap k (mutate_network cfg ty c opts) o = Ret (Ok o1) →
  o_labels o1 !! LabelCIDRType = Some (cidr_type_string ty).
Proof.
  unfold wrapped, mutate_network, ForgeNetworkLabel. destruct (remote_id cfg); [|done]. destruct (SetControllerReference _ _); [|done].
  cbn [mbind outcome_bind]. destruct (buildVariablesMap _ _ _); [|done]. intros [= <-]. cbn [o_labels]. rewrite lookup_union_r.
  - unfold option_labels. destruct (NotRemapped opts), (Shared opts); by simplify_map_eq.
  - by rewrite lookup_fmap, Hglobal.
Qed.

Lemma ensure_spec cfg ty c opts w w' nw : all_live w → ensure cfg ty c opts w = Ret (w', Ok nw) →
  quiet w w' ∧ all_live w' ∧ net_status nw = status_at w (network_key cfg ty c) ∧ (∀ k, status_at w' k = status_at w k) ∧
  (∀ k o, w' ⋅ k = Some o → w ⋅ k = Some o ∨ o_labels o !! LabelCIDRType = Some (cidr_type_string ty)).
Proof.
  intros Hl Hc. unfold EnsureNetwork in Hc. set (k := network_key cfg ty c) in *.
  apply cou_inv in Hc as (Hq & Hf & Hs & Hli & Hcase); [|apply mutate_network_mild|apply Hl].
  assert (Hst : net_status nw = status_at w k).
  { destruct Hcase as [[-> _]|(base & o1 & o2 & -> & _ & _ & _ & _ & Hs2)]; [unfold status_at; by rewrite Hs|].
    unfold status_at, net_status. rewrite Hs2. by destruct (w ⋅ k). }
  assert (Hlab : o_labels nw !! LabelCIDRType = Some (cidr_type_string ty)).
  { destruct Hcase as [[-> Hw]|(base & o1 & o2 & _ & Hw & [[? _]|[_ ->]] & (-> & _) & _)]; [|done|]; by eapply mutate_network_label. }
  split; [done|]. split; [|split; [done|split]].
  - intros k' o Ho. destruct (decide (k' = k)) as [->|Hne]; [rewrite Hs in Ho; by injection Ho as <-|]. rewrite Hf in Ho by done. by eapply Hl.
  - intros k'. destruct (decide (k' = k)) as [->|Hne]; [by rewrite <- Hst; unfold status_at; rewrite Hs|]. unfold status_at. by rewrite Hf.
  - intros k' o Ho. destruct (decide (k' = k)) as [->|Hne]; [right; congruence|]. rewrite Hf in Ho by done. by left.
Qed.

Definition keep (ty : LabelCIDRTypeValue) (l : list string) : list string :=
  if bool_decide (ty = LabelCIDRTypeTunneled) then List.filter (fun s => negb (bool_decide (s = ""%string))) l else l.
Lemma ensure_all_spec cfg ty spec w w' l : all_live w → ensure_all cfg ty spec w = Ret (w', Ok l) →
  quiet w w' ∧ all_live w' ∧ l = keep ty ((fun c => status_at w (network_key cfg ty c)) <$> spec) ∧ (∀ k, status_at w' k = status_at w k) ∧
  (∀ k o, w' ⋅ k = Some o → w ⋅ k = Some o ∨ o_labels o !! LabelCIDRType = Some (cidr_type_string ty)).
Proof.
  revert w l. induction spec as [|c spec IH]; intros w l Hl.
  { intros [= <- <-]. split; [done|]. split; [done|]. split; [by unfold keep; case_bool_decide|]. split; [done|]. by left. }
  cbn [ensure_networks]. intros [(nw & w1 & H1 & H2)|(e & _ & [=])]%K_bind_inv.
  apply K_bind_inv in H2 as [(rest & w2 & H2 & [= <- <-])|(e & _ & [=])].
  apply ensure_spec in H1 as ([Hq1 Hq2] & Hl1 & Hst & Hsm & Hlab); [|done]. apply IH in H2 as ([Hq3 Hq4] & Hl2 & -> & Hsm2 & Hlab2); [|done].
  split; [split; congruence|]. split; [done|]. split; [|split].
  - cbn [fmap list_fmap].
    rewrite Hst, (list_fmap_ext (fun c => status_at w1 (network_key cfg ty c)) (fun c => status_at w (network_key cfg ty c)) spec) by (intros; apply Hsm).
    unfold keep. case_bool_decide; cbn; [|done]. by case_bool_decide.
  - intros k. by rewrite Hsm2.
  - intros k o Ho. destruct (Hlab2 k o Ho) as [?|?]; [by apply Hlab|by right].
Qed.

Lemma ensure_all_frame cfg ty spec w w' l k : all_live w → ensure_all cfg ty spec w = Ret (w', Ok l) →
  (∀ c, c ∈ spec → k ≠ network_key cfg ty c) → w' ⋅ k = w ⋅ k.
Proof.
  revert w l. induction spec as [|c spec IH]; intros w l Hl; [by intros [= <- <-]|].
  cbn [ensure_networks]. intros [(nw & w1 & H1 & H2)|(e & _ & [=])]%K_bind_inv Hk.
  apply K_bind_inv in H2 as [(rest & w2 & H2 & [= <- <-])|(e & _ & [=])].
  pose proof (ensure_spec _ _ _ _ _ _ _ Hl H1) as (_ & Hl1 & _).
  rewrite (IH _ _ Hl1 H2) by (intros; apply Hk; by right).
  unfold EnsureNetwork in H1. apply cou_inv in H1 as (_ & Hf & _); [|apply mutate_network_mild|apply Hl].
  apply Hf, Hk. left.
Qed.

(** ** Orphans *)

(** The networks of a type that the configuration owns. *)
Definition owned_network (cfg : Cfg) (ty : LabelCIDRTypeValue) (w : nworld) (name : string) (o : Obj payload) : Prop :=
  w ⋅ (networks, cf_Namespace cfg, name) = Some o ∧ ownedByConfiguration o cfg = true ∧
  ∃ l, ForgeNetworkLabel cfg ty = Ok l ∧ l ⊆ o_labels o.
Definition settled (cfg : Cfg) (ty : LabelCIDRTypeValue) (w : nworld) : Prop := ∀ name o, owned_network cfg ty w name o →
  desired_network cfg ty (selectSpecCIDRs cfg ty) name o = true.
Definition orphan (cfg : Cfg) (ty : LabelCIDRTypeValue) (w : nworld) (name : string) (o : Obj payload) : Prop :=
  owned_network cfg ty w name o ∧ desired_network cfg ty (selectSpecCIDRs cfg ty) name o = false.

(** The objects that are left are those of before. *)
Definition shrinks (w w' : nworld) : Prop := ∀ k o', w' ⋅ k = Some o' →
  ∃ o, w ⋅ k = Some o ∧ same_meta o o' ∧ o_spec o' = o_spec o ∧ o_status o' = o_status o.
Lemma shrinks_refl w : shrinks w w.
Proof. intros k o Ho. by exists o. Qed.
Lemma shrinks_trans w w1 w2 : shrinks w w1 → shrinks w1 w2 → shrinks w w2.
Proof.
  intros H1 H2 k o'' (o' & Ho' & (Ha & Hb & Hc) & Hsp & Hst)%H2. apply H1 in Ho' as (o & Ho & (Ha' & Hb' & Hc') & Hsp' & Hst').
  exists o. unfold same_meta. by rewrite Ha, Hb, Hc, Hsp, Hst.
Qed.

Lemma delete_orphans_spec cfg ty desired l pending w w' b : delete_orphans client cfg ty desired l pending w = Ret (w', Ok b) → all_live w →
  quiet w w' ∧ shrinks w w' ∧ all_live w' ∧
  b = pending || existsb (fun x => ownedByConfiguration (snd x) cfg && negb (desired_network cfg ty desired (fst x) (snd x))) l ∧
  (∀ k, (∀ name o, (name, o) ∈ l → ownedByConfiguration o cfg = true → desired_network cfg ty desired name o = false → k ≠ (networks, cf_Namespace cfg, name)) →
     w' ⋅ k = w ⋅ k).
Proof.
  revert pending w. induction l as [|[name o] l IH]; intros pending w.
  { cbn. intros [= <- <-] Hl. split; [done|]. split; [apply shrinks_refl|]. split; [done|]. by rewrite orb_false_r. }
  cbn [delete_orphans existsb fst snd]. destruct (ownedByConfiguration o cfg) eqn:Eo; cbn [negb andb orb].
  2: { intros H Hl. apply IH in H as (H1 & H2 & H3 & H4 & H5); [|done]. split; [done|]. split; [done|]. split; [done|]. split; [done|].
       intros k Hk. apply H5. intros n' o' Hin. apply Hk. by right. }
  destruct (desired_network cfg ty desired name o) eqn:Ed; cbn [negb andb orb].
  { intros H Hl. apply IH in H as (H1 & H2 & H3 & H4 & H5); [|done]. split; [done|]. split; [done|]. split; [done|]. split; [done|].
    intros k Hk. apply H5. intros n' o' Hin. apply Hk. by right. }
  rewrite orb_true_r. destruct (o_deleting o).
  { intros H Hl. apply IH in H as (H1 & H2 & H3 & H4 & H5); [|done]. split; [done|]. split; [done|]. split; [done|]. split; [done|].
    intros k Hk. apply H5. intros n' o' Hin. apply Hk. by right. }
  intros [(r & w1 & H1 & H2)|(e & _ & [=])]%K_bind_inv Hl. unfold attempt in H1. destruct (c_Delete _ _ w) as [[w2 r2]| |] eqn:E; [|done..].
  injection H1 as -> ->. cbn in E. apply delete_inv in E as ([Hq1 Hq2] & Hf & Hli & Hd).
  assert (H3 : delete_orphans client cfg ty desired l true w1 = Ret (w', Ok b)) by (destruct r as [|[]]; done).
  apply IH in H3 as ([Hq3 Hq4] & Hsh & Hl' & -> & Hk); [|by apply Hli]. split; [split; congruence|].
  split; [|split; [done|split; [done|]]].
  - eapply shrinks_trans; [|done]. intros k o' Ho'. destruct (decide (k = (networks, cf_Namespace cfg, name))) as [->|Hne]; [by apply Hd|].
    rewrite Hf in Ho' by done. by exists o'.
  - intros k Hkk. rewrite Hk; [apply Hf; apply (Hkk name o); [by left|done..]|]. intros n' o' Hin. apply Hkk. by right.
Qed.

Lemma delete_orphans_none cfg ty desired l pending w :
  existsb (fun x => ownedByConfiguration (snd x) cfg && negb (desired_network cfg ty desired (fst x) (snd x))) l = false →
  delete_orphans client cfg ty desired l pending w = Ret (w, Ok pending).
Proof.
  induction l as [|[name o] l IH]; [done|]. cbn [existsb fst snd delete_orphans]. intros [H1 H2]%orb_false_iff.
  destruct (ownedByConfiguration o cfg); cbn [negb andb] in *; [|by apply IH]. apply negb_false_iff in H1 as ->. by apply IH.
Qed.

(** ** One type of networks *)

Definition relabelled (ty : LabelCIDRTypeValue) (w w' : nworld) : Prop :=
  ∀ k o, w' ⋅ k = Some o → w ⋅ k = Some o ∨ o_labels o !! LabelCIDRType = Some (cidr_type_string ty).

Lemma remap_type_inv cfg ty w w' cfg' : all_live w → remap_type cfg ty w = Ret (w', Ok cfg') →
  (settled cfg ty w ∧ ensure_all cfg ty (selectSpecCIDRs cfg ty) w = Ret (w', Ok (keep ty (statuses w cfg ty))) ∧
   cfg' = writeStatusForCIDRType cfg ty (keep ty (statuses w cfg ty)) ∧ (∀ k, status_at w' k = status_at w k) ∧ relabelled ty w w' ∧ all_live w' ∧ quiet w w') ∨
  ((∃ name o, orphan cfg ty w name o) ∧ cfg' = cfg ∧ shrinks w w' ∧ all_live w' ∧ quiet w w' ∧
   ∀ k, (∀ name o, orphan cfg ty w name o → k ≠ (networks, cf_Namespace cfg, name)) → w' ⋅ k = w ⋅ k).
Proof.
  intros Hl. unfold remapCIDRType, DeleteOrphanNetworks. destruct (ForgeNetworkLabel cfg ty) as [ls|e] eqn:Els; [|by intros [(? & ? & [=] & _)|(? & _ & [=])]%K_bind_inv].
  intros [(b & w1 & H1 & H2)|(e & _ & [=])]%K_bind_inv.
  apply K_bind_inv in H1 as [(l & w0 & [= <- <-] & H1)|(e & _ & [=])].
  pose proof (delete_orphans_none cfg ty (selectSpecCIDRs cfg ty) (lists networks (cf_Namespace cfg) ls (nw_server w)) false w) as Hnone.
  pose proof (delete_orphans_spec _ _ _ _ _ _ _ _ H1 Hl) as (Hq & Hsh & Hl1 & -> & Hk). cbn [orb] in H2, H1.
  assert (Hown : ∀ name o, (name, o) ∈ lists networks (cf_Namespace cfg) ls (nw_server w) → ownedByConfiguration o cfg = true → owned_network cfg ty w name o).
  { intros name o [Ho Hsub]%Hlists Hc. split; [done|]. split; [done|]. by exists ls. }
  destruct (existsb _ _) eqn:E.
  - right. injection H2 as <- <-. apply existsb_exists in E as ([name o] & Hin%list_elem_of_In & [Hc Hd]%andb_true_iff). cbn in Hc, Hd.
    split; [exists name, o; split; [by apply Hown|by apply negb_true_iff]|]. split; [done|]. split; [done|]. split; [done|]. split; [done|].
    intros k Hne. apply Hk. intros n' o' Hin' Hc' Hd'. apply (Hne n' o'). split; [by apply Hown|done].
  - left. assert (Hs : settled cfg ty w).
    { intros name o (Ho & Hc & ls' & Hls' & Hsub). rewrite Els in Hls'. injection Hls' as <-. apply not_false_iff_true. intros Hd.
      apply not_true_iff_false in E. apply E. apply existsb_exists. exists (name, o). split; [by apply list_elem_of_In, Hlists|]. cbn. by rewrite Hc, Hd. }
    apply K_bind_inv in H2 as [(l & w2 & H2 & [= <- <-])|(e & _ & [=])].
    rewrite Hnone in H1 by done. injection H1 as <-. pose proof (ensure_all_spec _ _ _ _ _ _ Hl H2) as (Hq' & Hl2 & -> & Hsm & Hlab).
    split; [done|]. split; [done|]. split; [done|]. split; [done|]. split; [done|]. done.
Qed.

(** ** The whole reconciliation *)

Lemma reconcile_inv original cfg w w' cfg' : all_live w → reconcile original cfg w = Ret (w', Ok cfg') →
  ∃ cfg1 w1 cfg2 w2 cfg3, remap_type cfg LabelCIDRTypePod w = Ret (w1, Ok cfg1) ∧ remap_type cfg1 LabelCIDRTypeExternal w1 = Ret (w2, Ok cfg2) ∧
    cf_net cfg3 = cf_net cfg2 ∧ cfg' = setConfigurationConditions cfg3.
Proof.
  intros Hl. unfold reconcile_cfg. intros [(cfg2 & w2 & H1 & H2)|(e & _ & [=])]%K_bind_inv.
  unfold RemapConfiguration in H1. cbn [LabelCIDRTypeValues remap_types] in H1. rewrite !(bool_decide_false (_ = LabelCIDRTypeTunneled)) in H1 by done.
  rewrite bool_decide_true in H1 by done.
  apply K_bind_inv in H1 as [(cfg1 & w1 & H1 & H1')|(e & _ & [=])]. apply K_bind_inv in H1' as [(cfg1' & w1' & H1' & [= -> ->])|(e & _ & [=])].
  assert (Hl2 : all_live w2).
  { assert (Hl1 : all_live w1) by (apply remap_type_inv in H1 as [(_ & _ & _ & _ & _ & ? & _)|(_ & _ & _ & ? & _)]; done).
    apply remap_type_inv in H1' as [(_ & _ & _ & _ & _ & ? & _)|(_ & _ & _ & ? & _)]; done. }
  apply K_bind_inv in H2 as [(cfg3 & w3 & H3 & H4)|(e & _ & [=])]. exists cfg1, w1, cfg2, w2, cfg3. split; [done|]. split; [done|]. split.
  - unfold reserveTunneledCIDRs in H3. by apply remap_type_inv in H3 as [(_ & _ & -> & _)|(_ & -> & _)].
  - apply K_bind_inv in H4 as [([] & w4 & _ & H4)|(e & _ & [=])]. destruct (same_status _ _); [by injection H4|].
    by apply K_bind_inv in H4 as [([] & w5 & _ & [= _ <-])|(e & _ & [=])].
Qed.

Lemma configured_iff_complete cfg : AreConfigurationNetworkCIDRsConfigured (cf_net (setConfigurationConditions cfg)) = isRemapComplete cfg.
Proof. unfold AreConfigurationNetworkCIDRsConfigured. cbn. by rewrite Z.eqb_refl. Qed.
Lemma AllNonVoid_iff l : AllNonVoid l = true ↔ l ≠ [] ∧ Forall (fun s => s ≠ ""%string) l.
Proof.
  assert (H : ∀ l, forallb (fun c => negb (bool_decide (c = ""%string))) l = true ↔ Forall (fun s => s ≠ ""%string) l).
  { intros l'. rewrite forallb_forall, List.Forall_forall. setoid_rewrite negb_true_iff. by setoid_rewrite bool_decide_eq_false. }
  destruct l as [|x l]; [split; [done|by intros [? _]]|]. unfold AllNonVoid. rewrite H. naive_solver.
Qed.
Lemma complete_iff cfg pods ext : statusRemote (cf_net cfg) = Some (mkClusterCIDR pods ext) →
  List.length pods = List.length (Pod (specRemote (cf_net cfg))) → List.length ext = List.length (External (specRemote (cf_net cfg))) →
  isRemapComplete cfg = true ↔ (pods ≠ [] ∧ Forall (fun s => s ≠ ""%string) pods) ∧ (ext ≠ [] ∧ Forall (fun s => s ≠ ""%string) ext).
Proof.
  intros Hst Hp He. unfold isRemapComplete. rewrite Hst. cbn [Pod External]. rewrite Hp, He, !Nat.eqb_refl. cbn [negb orb].
  by rewrite andb_true_iff, !AllNonVoid_iff.
Qed.

Lemma type_label cfg ty ls o : ForgeNetworkLabel cfg ty = Ok ls → ls ⊆ o_labels o → o_labels (P := payload) o !! LabelCIDRType = Some (cidr_type_string ty).
Proof.
  unfold ForgeNetworkLabel. destruct (remote_id cfg); [|done]. intros [= <-] Hsub. eapply lookup_weaken; [|done]. by simplify_map_eq.
Qed.
Lemma settled_relabelled cfg ty ty' w w' : ty ≠ ty' → relabelled ty' w w' → settled cfg ty w → settled cfg ty w'.
Proof.
  intros Hty Hrel Hs name o (Ho & Hc & ls & Hls & Hsub). apply Hs. destruct (Hrel _ _ Ho) as [?|Hlab]; [split; [done|split; [done|by exists ls]]|].
  rewrite (type_label cfg ty ls o Hls Hsub) in Hlab. by destruct ty, ty'.
Qed.

Lemma settled_shrinks cfg ty w w' : shrinks w w' → settled cfg ty w → settled cfg ty w'.
Proof.
  intros Hsh Hs name o (Ho & Hc & ls & Hls & Hsub). destruct (Hsh _ _ Ho) as (o0 & Ho0 & (Hlab & _) & Hsp & _).
  assert (Hnet : net_of o = net_of o0) by (unfold net_of; by rewrite Hsp).
  unfold desired_network, net_cidr. rewrite Hnet. apply (Hs name o0). split; [done|]. split.
  - unfold ownedByConfiguration, net_owners in *. by rewrite <- Hnet.
  - exists ls. split; [done|]. by rewrite <- Hlab.
Qed.

(** What a reconciliation publishes for one kind of networks: the prefixes of the
    Networks of the spec, in order, or, while a Network of an older spec is left,
    what was published before. *)
Definition published (cfg : Cfg) (ty : LabelCIDRTypeValue) (w : nworld) (old new : list string) : Prop :=
  settled cfg ty w ∧ new = statuses w cfg ty ∨ (∃ name o, orphan cfg ty w name o) ∧ new = old.

Lemma orphan_before cfg ty ty' w w' : ty ≠ ty' → relabelled ty' w w' ∨ shrinks w w' →
  (∃ name o, orphan cfg ty w' name o) → ∃ name o, orphan cfg ty w name o.
Proof.
  intros Hty Hw (name & o & (Ho & Hc & ls & Hls & Hsub) & Hd). destruct Hw as [Hrel|Hsh].
  - exists name, o. split; [|done]. destruct (Hrel _ _ Ho) as [?|Hlab]; [split; [done|split; [done|by exists ls]]|].
    rewrite (type_label cfg ty ls o Hls Hsub) in Hlab. by destruct ty, ty'.
  - destruct (Hsh _ _ Ho) as (o0 & Ho0 & (Hlab & _) & Hsp & _). exists name, o0.
    assert (Hnet : net_of o = net_of o0) by (unfold net_of; by rewrite Hsp).
    unfold desired_network, net_cidr in *. rewrite Hnet in Hd. split; [|done]. split; [done|]. split.
    + unfold ownedByConfiguration, net_owners in *. by rewrite <- Hnet.
    + exists ls. split; [done|]. by rewrite <- Hlab.
Qed.

Lemma settled_before cfg ty ty' w w' : ty ≠ ty' → relabelled ty' w w' ∨ shrinks w w' → settled cfg ty w → settled cfg ty w'.
Proof. intros Hty [Hrel|Hsh]; [by apply (settled_relabelled cfg ty ty')|by apply settled_shrinks]. Qed.

Lemma not_settled_orphan cfg ty w : (∃ name o, orphan cfg ty w name o) → ¬ settled cfg ty w.
Proof. intros (name & o & Ho & Hd) Hs. by rewrite (Hs name o Ho) in Hd. Qed.

Lemma condition_iff cfg : isRemapComplete cfg = true ↔
  let st := default (mkClusterCIDR [] []) (statusRemote (cf_net cfg)) in
  (List.length (Pod st) = List.length (Pod (specRemote (cf_net cfg))) ∧ Pod st ≠ [] ∧ Forall (fun s => s ≠ ""%string) (Pod st)) ∧
  (List.length (External st) = List.length (External (specRemote (cf_net cfg))) ∧ External st ≠ [] ∧ Forall (fun s => s ≠ ""%string) (External st)).
Proof.
  unfold isRemapComplete. destruct (statusRemote (cf_net cfg)) as [st|]; cbn; [|split; [done|]; by intros ((_ & ? & _) & _)].
  destruct (negb _ || negb _) eqn:E.
  - split; [done|]. intros ((H1 & _) & (H2 & _)). by rewrite H1, H2, !Nat.eqb_refl in E.
  - apply orb_false_iff in E as [E1%negb_false_iff E2%negb_false_iff]. apply Nat.eqb_eq in E1, E2.
    rewrite andb_true_iff, !AllNonVoid_iff. naive_solver.
Qed.

(** C21: What the condition of a configuration says.  A successful reconciliation
    leaves the spec and, for each kind of networks, pod and external, publishes in
    the order of the spec the remapped networks that the Network resources hold, if
    no Network of an older spec is left, and keeps what was published otherwise;
    the condition for the current generation is then true exactly when as many
    networks as in the spec are published for each kind, at least one, and none of
    them is missing.  So the condition tells the truth once the Networks of older
    specs are gone, and may be true for stale networks before (see
    [stale_networks_configured]).  The Networks named after a network of the spec
    carry the label of its kind. *)
Theorem configured_networks_exact (original cfg cfg' : Cfg) (w w' : nworld) :
  all_live w →
  (∀ ty c o, w ⋅ network_key cfg ty c = Some o → o_labels o !! LabelCIDRType = Some (cidr_type_string ty)) →
  reconcile original cfg w = Ret (w', Ok cfg') →
  let spec := specRemote (cf_net cfg) in
  let old := default (mkClusterCIDR [] []) (statusRemote (cf_net cfg)) in
  let new := default (mkClusterCIDR [] []) (statusRemote (cf_net cfg')) in
  specRemote (cf_net cfg') = spec ∧
  published cfg LabelCIDRTypePod w (Pod old) (Pod new) ∧
  published cfg LabelCIDRTypeExternal w (External old) (External new) ∧
  (AreConfigurationNetworkCIDRsConfigured (cf_net cfg') = true ↔
   (List.length (Pod new) = List.length (Pod spec) ∧ Pod new ≠ [] ∧ Forall (fun s => s ≠ ""%string) (Pod new)) ∧
   (List.length (External new) = List.length (External spec) ∧ External new ≠ [] ∧ Forall (fun s => s ≠ ""%string) (External new))).
Proof.
  intros Hl Hname (cfg1 & w1 & cfg2 & w2 & cfg3 & H1 & H2 & H3 & ->)%reconcile_inv; [|done]. cbv zeta.
  rewrite configured_iff_complete, condition_iff. cbn [setConfigurationConditions cf_net specRemote statusRemote]. rewrite H3.
  apply remap_type_inv in H1 as HP; [|done].
  assert (Hcfg1 : (published cfg LabelCIDRTypePod w (Pod (default (mkClusterCIDR [] []) (statusRemote (cf_net cfg))))
             (Pod (default (mkClusterCIDR [] []) (statusRemote (cf_net cfg1))))) ∧
     External (default (mkClusterCIDR [] []) (statusRemote (cf_net cfg1))) = External (default (mkClusterCIDR [] []) (statusRemote (cf_net cfg))) ∧
     (∃ l, cfg1 = cfg ∨ cfg1 = writeStatusForCIDRType cfg LabelCIDRTypePod l) ∧ all_live w1 ∧
     (relabelled LabelCIDRTypePod w w1 ∨ shrinks w w1) ∧
     (∀ name o, owned_network cfg LabelCIDRTypeExternal w name o → owned_network cfg LabelCIDRTypeExternal w1 name o) ∧ statuses w1 cfg LabelCIDRTypeExternal = statuses w cfg LabelCIDRTypeExternal).
  { destruct HP as [(Hs & He & -> & Hst & Hrel & Hl1 & _)|(Ho & -> & Hsh & Hl1 & _ & Hfr)]; split_and!; try done.
    - by left.
    - eexists. by right.
    - by left.
    - intros name o (Hok & Hc & ls & Hls & Hsub). split; [|split; [done|by exists ls]].
      rewrite (ensure_all_frame _ _ _ _ _ _ _ Hl He); [done|]. intros c _ Ek. rewrite Ek in Hok. apply Hname in Hok.
      by rewrite (type_label _ _ _ _ Hls Hsub) in Hok.
    - unfold statuses. apply list_fmap_ext. intros; apply Hst.
    - by right.
    - by exists []; left.
    - by right.
    - intros name o (Hok & Hc & ls & Hls & Hsub). split; [|split; [done|by exists ls]].
      rewrite Hfr; [done|]. intros n' o' [(Ho' & _ & ls' & Hls' & Hsub') _] Ek. rewrite Ek, Ho' in Hok. injection Hok as ->.
      pose proof (type_label _ _ _ _ Hls Hsub) as E1. rewrite (type_label _ _ _ _ Hls' Hsub') in E1. done.
    - unfold statuses. apply list_fmap_ext. intros i c _. unfold status_at. cbn.
      destruct (w ⋅ network_key cfg LabelCIDRTypeExternal c) as [o|] eqn:E.
      + rewrite Hfr, E; [done|]. intros n' o' [(Ho' & _ & ls & Hls & Hsub) _] Ek. apply Hname in E as Hlab.
        rewrite Ek, Ho' in E. injection E as ->. by rewrite (type_label _ _ _ _ Hls Hsub) in Hlab.
      + destruct (w1 ⋅ network_key cfg LabelCIDRTypeExternal c) as [o'|] eqn:E'; [|done].
        destruct (Hsh _ _ E') as (o & ? & _). congruence. }
  clear HP H1. destruct Hcfg1 as (Hpod & Hext & (l & Hc1) & Hl1 & Hw & Hsub & Hstat).
  assert (Hspec : specRemote (cf_net cfg1) = specRemote (cf_net cfg)) by (destruct Hc1 as [->| ->]; done).
  assert (Hs1 : settled cfg1 LabelCIDRTypeExternal w1 ↔ settled cfg LabelCIDRTypeExternal w1) by (destruct Hc1 as [->| ->]; done).
  assert (Ho1 : (∃ name o, orphan cfg1 LabelCIDRTypeExternal w1 name o) ↔ ∃ name o, orphan cfg LabelCIDRTypeExternal w1 name o)
    by (destruct Hc1 as [->| ->]; done).
  assert (Hst1 : statuses w1 cfg1 LabelCIDRTypeExternal = statuses w1 cfg LabelCIDRTypeExternal) by (destruct Hc1 as [->| ->]; done).
  apply remap_type_inv in H2 as [(Hs & _ & -> & _)|(Ho & -> & _)]; [| |done].
  - cbn [writeStatusForCIDRType set_remote_status cf_net specRemote statusRemote set_net default Pod External].
    split; [done|]. split; [done|]. rewrite Hst1, Hstat in *. split; [|by rewrite Hspec].
    left. split; [|done]. apply Hs1 in Hs. intros name o Hown. by apply (Hs name o), Hsub.
  - split; [done|]. split; [done|]. rewrite Hspec. split; [|done]. right. split; [|done].
    apply (orphan_before cfg LabelCIDRTypeExternal LabelCIDRTypePod w w1); [done|done|]. by apply Ho1.
Qed.

(** A stale status is published as current.  While a Network of an older spec is
    still there the status of the pods is left as it was; if it happens to have as
    many networks as the new spec, the condition is set for the new generation all
    the same, and the networks of the old spec pass for the images of the new
    ones. *)
Theorem stale_networks_configured (original cfg cfg' : Cfg) (w w' : nworld) (st : ClusterCIDR) (name : string) (o : Obj payload) :
  all_live w → orphan cfg LabelCIDRTypePod w name o → statusRemote (cf_net cfg) = Some st →
  List.length (Pod st) = List.length (Pod (specRemote (cf_net cfg))) → AllNonVoid (Pod st) = true →
  settled cfg LabelCIDRTypeExternal w → External (specRemote (cf_net cfg)) ≠ [] →
  (∀ c, c ∈ External (specRemote (cf_net cfg)) → ∃ o, w ⋅ network_key cfg LabelCIDRTypeExternal c = Some o ∧
     o_labels o !! LabelCIDRType = Some (cidr_type_string LabelCIDRTypeExternal) ∧ net_status o ≠ ""%string) →
  reconcile original cfg w = Ret (w', Ok cfg') →
  AreConfigurationNetworkCIDRsConfigured (cf_net cfg') = true ∧ specRemote (cf_net cfg') = specRemote (cf_net cfg) ∧
  ∃ st', statusRemote (cf_net cfg') = Some st' ∧ Pod st' = Pod st.
Proof.
  intros Hl Horph Hst Hlen Hnv Hse Hne Hext (cfg1 & w1 & cfg2 & w2 & cfg3 & H1 & H2 & H3 & ->)%reconcile_inv; [|done].
  apply remap_type_inv in H1 as [(Hs & _)|(_ & -> & Hsh & Hl1 & _ & Hfr)]; [| |done].
  { destruct Horph as [Ho Hd]. by rewrite (Hs name o Ho) in Hd. }
  pose proof (settled_shrinks cfg LabelCIDRTypeExternal w w1 Hsh Hse) as Hse1.
  apply remap_type_inv in H2 as [(_ & _ & -> & _)|((n2 & o2 & Ho & Hd) & _)]; [|by rewrite (Hse1 n2 o2 Ho) in Hd|done].
  assert (He : Forall (fun s => s ≠ ""%string) (statuses w1 cfg LabelCIDRTypeExternal)).
  { unfold statuses. apply Forall_fmap, Forall_forall. intros c (oc & Hoc & Hlab & Hc)%Hext. cbn. unfold status_at. rewrite Hfr; [by rewrite Hoc|].
    intros n' o' [(Ho' & _ & ls & Hls & Hsub) _] E. rewrite E, Ho' in Hoc. injection Hoc as ->. by rewrite (type_label _ _ _ _ Hls Hsub) in Hlab. }
  cbn in H3. rewrite Hst in H3. cbn in H3. rewrite configured_iff_complete. cbn [setConfigurationConditions cf_net specRemote statusRemote]. rewrite H3.
  split; [|split; [done|by eexists]].
  apply (complete_iff cfg3 (Pod st) (statuses w1 cfg LabelCIDRTypeExternal)); [by rewrite H3|by rewrite H3|rewrite H3; unfold statuses; by rewrite length_fmap|].
  split; [by apply AllNonVoid_iff|]. split; [|done]. unfold statuses. cbn. by destruct (External (specRemote (cf_net cfg))).
Qed.
End config.

(** ** Witnesses *)

Definition ex_netobj (ty : LabelCIDRTypeValue) (cidr status : string) : Obj payload :=
  mkObj {[ RemoteClusterID := "milan"%string; LabelCIDRType := cidr_type_string ty ]} ∅ ["ipam"%string] false 1
    (AMap (PNetwork [mkOwnerRef "u1" true] cidr 0)) (AMap (PNetworkStatus status)).
(** The configuration asks for one pod network and one external network. *)
Definition ex_config (status : string) : Cfg :=
  mkCfg "cl" "ns" "u1" (Some {[ RemoteClusterID := "milan"%string ]}) (Some (mkClusterCIDR [] []))
    (mkConfiguration 4 (mkClusterCIDR ["10.244.0.0/16"%string] ["10.90.0.0/16"%string]) (Some (mkCondition 3 true))
       (Some (mkClusterCIDR [status] ["10.91.0.0/16"%string]))) [] [] None.
Definition ex_server (pod_cidr pod_status : string) : gmap okey (Obj payload) :=
  <[network_key (ex_config "") LabelCIDRTypePod pod_cidr := ex_netobj LabelCIDRTypePod pod_cidr pod_status]>
  {[ network_key (ex_config "") LabelCIDRTypeExternal "10.90.0.0/16" := ex_netobj LabelCIDRTypeExternal "10.90.0.0/16" "10.91.0.0/16" ]}.
Definition ex_world (pod_cidr pod_status : string) : nworld (Api := memory) := mkNworld (ex_server pod_cidr pod_status : server (KubeApi := memory)) 0 [] [].
Definition ex_reconcile (status : string) (w : nworld (Api := memory)) : outcome (nworld (Api := memory) * result kerr Cfg) :=
  reconcile_cfg (net_client (Api := memory) ex_uuid (fun _ => "u"%string) (fun _ => []) (mem_lists (P := payload))) knownVariables ex_kinds ∅ ∅
    (write_cfg_status (fun _ _ => None)) (ex_config status) (ex_config status) w.
Definition ex_reconciled (o : outcome (nworld (Api := memory) * result kerr Cfg)) : nworld * Cfg :=
  match o with Ret (w, Ok c) => (w, c) | _ => (ex_empty, ex_config "") end.
Lemma ex_reconciled_ok o : match o with Ret (_, Ok _) => true | _ => false end = true → o = Ret (fst (ex_reconciled o), Ok (snd (ex_reconciled o))).
Proof. by destruct o as [[w [c|e]]| |]. Qed.

Lemma ex_live a b : all_live (ex_world a b).
Proof. intros k o Ho. cbn in Ho. apply lookup_insert_Some in Ho as [[_ <-]|[_ [_ <-]%lookup_singleton_Some]]; by intros. Qed.
(** Checking [settled] on the list of networks. *)
Lemma ex_settled cfg ty w :
  match ForgeNetworkLabel cfg ty with
  | Ok ls => forallb (fun x => desired_network cfg ty (selectSpecCIDRs cfg ty) (fst x) (snd x)) ((mem_lists (P := payload)) networks (cf_Namespace cfg) ls (nw_server w))
  | Err _ => true
  end = true → settled (Api := memory) cfg ty w.
Proof.
  intros H name o (Ho & _ & ls & Hls & Hsub). rewrite Hls in H. rewrite forallb_forall in H. apply (H (name, o)).
  apply list_elem_of_In. by apply (mem_lists_law (P := payload)).
Qed.

Lemma ex_named ty c (o : Obj payload) :
  content (KubeApi := memory) (nw_server (ex_world "10.244.0.0/16" "10.71.0.0/16")) !! network_key (ex_config "") ty c = Some o →
  o_labels o !! LabelCIDRType = Some (cidr_type_string ty).
Proof.
  intros Ho. cbn in Ho. apply lookup_insert_Some in Ho as [[E <-]|[_ [E <-]%lookup_singleton_Some]];
    destruct ty; try done; exfalso; unfold network_key, ForgeNetworkName in E; cbn in E; congruence.
Qed.

Lemma configured_networks_exact_witness :
  AreConfigurationNetworkCIDRsConfigured (cf_net (ex_reconciled (ex_reconcile "" (ex_world "10.244.0.0/16" "10.71.0.0/16"))).2) = true ∧
  Pod (default (mkClusterCIDR [] []) (statusRemote (cf_net (ex_reconciled (ex_reconcile "" (ex_world "10.244.0.0/16" "10.71.0.0/16"))).2)))
    = ["10.71.0.0/16"%string].
Proof.
  pose proof (configured_networks_exact ex_uuid (fun _ => "u"%string) (fun _ => []) (mem_lists (P := payload)) (fun _ _ => None) knownVariables ex_kinds ∅ ∅ (mem_lists_law (P := payload)) eq_refl
    (ex_config "") (ex_config "") (ex_reconciled (ex_reconcile "" (ex_world "10.244.0.0/16" "10.71.0.0/16"))).2 (ex_world "10.244.0.0/16" "10.71.0.0/16")
    (ex_reconciled (ex_reconcile "" (ex_world "10.244.0.0/16" "10.71.0.0/16"))).1) as H.
  destruct H as (_ & Hp & He & Hc).
  - apply ex_live.
  - exact ex_named.
  - apply ex_reconciled_ok. vm_compute. reflexivity.
  - destruct Hp as [[_ Hp]|[Hp _]]; [|exfalso; eapply not_settled_orphan; [exact Hp|apply ex_settled; vm_compute; reflexivity]].
    destruct He as [[_ He]|[He _]]; [|exfalso; eapply not_settled_orphan; [exact He|apply ex_settled; vm_compute; reflexivity]].
    split; [|rewrite Hp; vm_compute; reflexivity]. apply Hc. rewrite Hp, He.
    split; (split_and!; [vm_compute; reflexivity|vm_compute; discriminate|]); apply Forall_singleton; vm_compute; discriminate.
Defined.

(** The pod network was 10.200.0.0/16 before: its Network is still there. *)
Lemma stale_networks_configured_witness :
  AreConfigurationNetworkCIDRsConfigured (cf_net (ex_reconciled (ex_reconcile "10.71.0.0/16" (ex_world "10.200.0.0/16" "10.71.0.0/16"))).2) = true ∧
  ∃ st', statusRemote (cf_net (ex_reconciled (ex_reconcile "10.71.0.0/16" (ex_world "10.200.0.0/16" "10.71.0.0/16"))).2) = Some st' ∧
         Pod st' = ["10.71.0.0/16"%string].
Proof.
  pose proof (stale_networks_configured ex_uuid (fun _ => "u"%string) (fun _ => []) (mem_lists (P := payload)) (fun _ _ => None) knownVariables ex_kinds ∅ ∅ (mem_lists_law (P := payload)) eq_refl
    (ex_config "10.71.0.0/16") (ex_config "10.71.0.0/16") (ex_reconciled (ex_reconcile "10.71.0.0/16" (ex_world "10.200.0.0/16" "10.71.0.0/16"))).2
    (ex_world "10.200.0.0/16" "10.71.0.0/16") (ex_reconciled (ex_reconcile "10.71.0.0/16" (ex_world "10.200.0.0/16" "10.71.0.0/16"))).1
    (mkClusterCIDR ["10.71.0.0/16"%string] ["10.91.0.0/16"%string]) "cl-pod-10-200-0-0-16"
    (ex_netobj LabelCIDRTypePod "10.200.0.0/16" "10.71.0.0/16")) as H.
  destruct H as (Hc & _ & st' & Hst & Hp).
  - apply ex_live.
  - split; [|vm_compute; reflexivity]. split; [vm_compute; reflexivity|]. split; [vm_compute; reflexivity|].
    eexists. split; [reflexivity|]. done.
  - reflexivity.
  - reflexivity.
  - reflexivity.
  - apply ex_settled. vm_compute. reflexivity.
  - done.
  - intros c Hc. apply list_elem_of_singleton in Hc as ->. exists (ex_netobj LabelCIDRTypeExternal "10.90.0.0/16" "10.91.0.0/16").
    split; [vm_compute; reflexivity|]. split; [vm_compute; reflexivity|]. vm_compute. discriminate.
  - apply ex_reconciled_ok. vm_compute. reflexivity.
  - split; [exact Hc|]. exists st'. split; [exact Hst|exact Hp].
Defined.
(** The rule then forged sends traffic for the image of 10.200.0.0/16 to the new
    network. *)
Example stale_rule_forged :
  forgeCIDRFirewallConfigurationDNATRules (ex_reconciled (ex_reconcile "10.71.0.0/16" (ex_world "10.200.0.0/16" "10.71.0.0/16"))).2 "eth0" PodCIDR
  = Ret [dnat_rule "eth0" "10.244.0.0/16" "10.71.0.0/16"].
Proof. vm_compute. reflexivity. Qed.
