(* ===== verification/NetworkCtrl.v ===== *)
(** * NetworkCtrl: the controllers of Network and IP resources
      (src/pkg/liqo-controller-manager/networking/network-controller/{network_controller,utils}.go,
       src/pkg/liqo-controller-manager/networking/ip-controller/{ip_controller,exposition}.go)

    A Network asks the IPAM daemon for a prefix and an IP for an address; the answer
    goes to the status, and a finalizer keeps the resource until the daemon has been
    told.  The daemon of IpamServer is reached through a client, which may be
    missing. *)

From S2P Require Import NetworkLabels IpamServer.
From S2P Require Export Remapping.
Local Open Scope Z_scope.

Definition ipamNetworkFinalizer : string := "network.ipam.liqo.io/finalizer".
Definition ipamIPFinalizer : string := "ip.ipam.liqo.io/finalizer".
Definition PreinstalledAnnotKey : string := "liqo.io/preinstalled".
Definition NetworkNamespaceLabelKey : string := "ipam.liqo.io/network-namespace".
Definition NetworkNameLabelKey : string := "ipam.liqo.io/network-name".

(** A Network and an IP with the metadata the controllers use; the template of a
    service is given by its labels, annotations, spec and ports. *)
Record NetworkObj := mkNetworkObj {
  n_res : NetworkRes; n_Annotations : option labels; n_PreAllocated : Z; n_Finalizers : list string; n_Deleting : bool
}.
Record ServiceTemplate := mkServiceTemplate {
  tpl_labels : labels; tpl_annotations : labels; tpl_spec : string; tpl_ports : list string
}.
Record IPRes := mkIPRes {
  i_Name : string; i_Namespace : string; i_UID : string; i_Labels : labels; i_Annotations : option labels;
  i_Finalizers : list string; i_Deleting : bool; i_IP : string; i_NetworkRef : option (string * string);
  i_Template : option ServiceTemplate; i_StatusIP : string; i_StatusCIDR : string
}.

Definition preinstalled (a : option labels) : bool :=
  match a with
  | None => false
  | Some m => match m !! PreinstalledAnnotKey with Some v => negb (EqualFold v "false") | None => false end
  end.
Definition set_status_cidr (nw : NetworkObj) (c : string) : NetworkObj :=
  let r := n_res nw in
  mkNetworkObj (mkNetworkRes (NetworkLabels.nr_name r) (nr_namespace r) (nr_labels r) (nr_spec_cidr r) c) (n_Annotations nw) (n_PreAllocated nw)
    (n_Finalizers nw) (n_Deleting nw).
Definition set_net_finalizers (nw : NetworkObj) (l : list string) : NetworkObj :=
  mkNetworkObj (n_res nw) (n_Annotations nw) (n_PreAllocated nw) l (n_Deleting nw).
(** [ipamutils.NetworkIsExclusive] on the object. *)
Definition exclusive_network (nw : NetworkObj) : bool :=
  NetworkIsExclusive (mkNetwork (n_Deleting nw) (default ∅ (nr_labels (n_res nw))) (nr_status_cidr (n_res nw)) (n_PreAllocated nw)).

(** The IPAM client. *)
Record IpamClient (W : Type) := mkIpamClient {
  cl_NetworkAcquire : NetworkAcquireRequest → K W string;
  cl_NetworkRelease : string → K W ();
  cl_IPAcquire : string → K W string;
  cl_IPRelease : string → string → K W ()
}.
Arguments mkIpamClient {W}.
Arguments cl_NetworkAcquire {W}.
Arguments cl_NetworkRelease {W}.
Arguments cl_IPAcquire {W}.
Arguments cl_IPRelease {W}.

(** ** Networks *)

Section network.
Context {W : Type} (ipam : option (IpamClient W)) (update update_status : NetworkObj → K W ()).

Definition getRemappedCIDR (desired : string) (immutable exclusive : bool) (preallocated : Z) : K W string :=
  match ipam with
  | None => mret desired
  | Some c => cl_NetworkAcquire c (mkNetworkAcquireRequest desired immutable exclusive preallocated)
  end.
Definition deleteRemappedCIDR (cidr : string) : K W () :=
  match ipam with None => mret () | Some c => cl_NetworkRelease c cidr end.

Definition handleNetworkStatus (nw : NetworkObj) : K W () :=
  let has := bool_decide (ipamNetworkFinalizer ∈ n_Finalizers nw) in
  if negb (n_Deleting nw) then
    if negb has && negb (preinstalled (n_Annotations nw)) then
      update (set_net_finalizers nw (n_Finalizers nw ++ [ipamNetworkFinalizer]))
    else if bool_decide (nr_status_cidr (n_res nw) = ""%string) then
      remapped ← getRemappedCIDR (nr_spec_cidr (n_res nw)) (NetworkNotRemapped (n_res nw)) (exclusive_network nw) (n_PreAllocated nw);
      update_status (set_status_cidr nw remapped)
    else mret ()
  else if has then
    let status := nr_status_cidr (n_res nw) in
    _ ← (if bool_decide (status = ""%string) then mret ()
         else match ParseCIDR status with
              | None => Kube.fail OtherErr
              | Some _ => deleteRemappedCIDR status
              end);
    update (set_net_finalizers (set_status_cidr nw "") (List.filter (fun f => negb (bool_decide (f = ipamNetworkFinalizer))) (n_Finalizers nw)))
  else mret ().

(** [NetworkReconciler.Reconcile] on what [Get] answered. *)
Definition NetworkReconcile (got : result kerr NetworkObj) : K W () :=
  match got with
  | Err NotFound => mret ()
  | Err e => Kube.fail e
  | Ok nw => handleNetworkStatus nw
  end.
End network.

(** ** IPs *)

(** Services and endpoint slices. *)
Inductive svc_payload :=
| PService (owners : list OwnerRef) (spec : string)
| PEndpointSlice (owners : list OwnerRef) (addressType : string) (addresses : list string) (ready : bool) (ports : list string).
#[export] Instance svc_payload_eq_dec : EqDecision svc_payload.
Proof. solve_decision. Defined.
Definition svc_owners (o : Obj svc_payload) : list OwnerRef :=
  match o_spec o with AMap (PService ow _) | AMap (PEndpointSlice ow _ _ _ _) => ow | _ => [] end.

Section ip.
Context `{OR : OwnerRefs} `{CU : CreateOrUpdater svc_payload}.
Context {W : Type} (ipam : option (IpamClient W)).
(** The writes of the IP, which return the object; the clients; what the reads of
    networks answer. *)
Context (update : IPRes → K W IPRes) (update_status : IPRes → K W IPRes) (cl : Client W svc_payload) (order : list string)
  (kinds : string → option (string * string)) (globalLabels globalAnnotations : labels).
Context (cluster : option (list NetworkRes)) (get_network : string * string → result kerr NetworkRes).

Definition services : string := "services".
Definition endpointslices : string := "endpointslices".
Definition LabelServiceName : string := "kubernetes.io/service-name".

(** *** exposition.go *)

Definition set_svc (o : Obj svc_payload) (l a : labels) (p : svc_payload) : Obj svc_payload :=
  mkObj l a (o_finalizers o) (o_deleting o) (o_version o) (AMap p) (o_status o).
Definition svcMutateFn (ip : IPRes) (t : ServiceTemplate) : mutate_fn svc_payload := fun o =>
  match SetControllerReference (i_UID ip) (svc_owners o) with
  | Err e => Ret (Err e)
  | Ok owners => Ret (Ok (set_svc o (tpl_labels t ∪ o_labels o) (tpl_annotations t ∪ o_annotations o) (PService owners (tpl_spec t))))
  end.
Definition epsMutateFn (ip : IPRes) (t : ServiceTemplate) : mutate_fn svc_payload := fun o =>
  match SetControllerReference (i_UID ip) (svc_owners o) with
  | Err e => Ret (Err e)
  | Ok owners => Ret (Ok (set_svc o ({[ LabelServiceName := i_Name ip ]} ∪ o_labels o) (o_annotations o)
                            (PEndpointSlice owners "IPv4" [i_IP ip] true (tpl_ports t))))
  end.
Definition enforceResource (k : okey) (f : mutate_fn svc_payload) : K W () :=
  _ ← CreateOrUpdate order kinds globalLabels globalAnnotations cl k f; mret ().
Definition ensureResourceAbsence (k : okey) : K W () :=
  r ← attempt (c_Get cl k);
  match r with
  | Err NotFound => mret ()
  | Err e => Kube.fail e
  | Ok _ =>
    r ← attempt (c_Delete cl k);
    match r with Ok _ | Err NotFound => mret () | Err e => Kube.fail e end
  end.
Definition svc_key (ip : IPRes) : okey := (services, i_Namespace ip, i_Name ip).
Definition eps_key (ip : IPRes) : okey := (endpointslices, i_Namespace ip, i_Name ip).
Definition handleAssociatedService (ip : IPRes) : K W () :=
  match i_Template ip with
  | Some t => _ ← enforceResource (svc_key ip) (svcMutateFn ip t); enforceResource (eps_key ip) (epsMutateFn ip t)
  | None => _ ← ensureResourceAbsence (svc_key ip); ensureResourceAbsence (eps_key ip)
  end.
Definition ensureAssociatedServiceAbsence (ip : IPRes) : K W () :=
  _ ← ensureResourceAbsence (svc_key ip); ensureResourceAbsence (eps_key ip).

(** *** ip_controller.go *)

(** The external network, remembered once it is known. *)
Definition ext_state : Type := option ((string * string) * string).

Definition handleNetworkRef (ext : ext_state) (ip : IPRes) : ext_state * result kerr ((string * string) * string) :=
  match i_NetworkRef ip with
  | None =>
    match ext with
    | Some x => (ext, Ok x)
    | None =>
      match GetUniqueNetworkByLabel cluster TypeExternalCIDR "" with
      | Err NotFoundError => (ext, Err NotFound)
      | Err _ => (ext, Err OtherErr)
      | Ok nw =>
        if bool_decide (nr_status_cidr nw = ""%string) then (ext, Err OtherErr)
        else let x := ((nr_namespace nw, NetworkLabels.nr_name nw), nr_status_cidr nw) in (Some x, Ok x)
      end
    end
  | Some ref =>
    match get_network ref with
    | Err e => (ext, Err e)
    | Ok nw => if bool_decide (nr_status_cidr nw = ""%string) then (ext, Err OtherErr) else (ext, Ok (ref, nr_status_cidr nw))
    end
  end.

Definition acquireIP (cidr : string) : K W string :=
  match ipam with None => Kube.fail OtherErr | Some c => cl_IPAcquire c cidr end.
Definition releaseIP (ip cidr : string) : K W () :=
  match ipam with None => mret () | Some c => cl_IPRelease c ip cidr end.

Definition set_ip_status (ip : IPRes) (a c : string) : IPRes :=
  mkIPRes (i_Name ip) (i_Namespace ip) (i_UID ip) (i_Labels ip) (i_Annotations ip) (i_Finalizers ip) (i_Deleting ip) (i_IP ip)
    (i_NetworkRef ip) (i_Template ip) a c.
Definition set_ip_meta (ip : IPRes) (l : labels) (f : list string) : IPRes :=
  mkIPRes (i_Name ip) (i_Namespace ip) (i_UID ip) l (i_Annotations ip) f (i_Deleting ip) (i_IP ip) (i_NetworkRef ip) (i_Template ip)
    (i_StatusIP ip) (i_StatusCIDR ip).

Definition forgeIPStatus (ip : IPRes) (cidr : string) : K W IPRes :=
  if bool_decide (i_StatusIP ip = ""%string) then a ← acquireIP cidr; mret (set_ip_status ip a cidr) else mret ip.
Definition handleIPStatusDeletion (ip : IPRes) : K W IPRes :=
  if negb (bool_decide (i_StatusIP ip = ""%string)) && negb (bool_decide (i_StatusCIDR ip = ""%string)) then
    _ ← releaseIP (i_StatusIP ip) (i_StatusCIDR ip); update_status (set_ip_status ip "" "")
  else mret ip.

(** The part of [Reconcile] for an IP that is being deleted. *)
Definition delete_ip (ip : IPRes) : K W () :=
  ip ← handleIPStatusDeletion ip;
  _ ← ensureAssociatedServiceAbsence ip;
  if bool_decide (ipamIPFinalizer ∈ i_Finalizers ip)
  then _ ← update (set_ip_meta ip (i_Labels ip) (List.filter (fun f => negb (bool_decide (f = ipamIPFinalizer))) (i_Finalizers ip))); mret ()
  else mret ().
Definition ensure_ip (ip : IPRes) (ref : string * string) (cidr : string) : K W () :=
  if negb (bool_decide (ipamIPFinalizer ∈ i_Finalizers ip)) && negb (preinstalled (i_Annotations ip)) then
    _ ← update (set_ip_meta ip (i_Labels ip) (i_Finalizers ip ++ [ipamIPFinalizer])); mret ()
  else
    ip ← update (set_ip_meta ip (<[NetworkNameLabelKey := snd ref]> (<[NetworkNamespaceLabelKey := fst ref]> (i_Labels ip))) (i_Finalizers ip));
    ip ← (if bool_decide (i_StatusIP ip = ""%string) then ip ← forgeIPStatus ip cidr; update_status ip else mret ip);
    handleAssociatedService ip.

(** [IPReconciler.Reconcile]; the second result is the state of the reconciler. *)
Definition IPReconcile (ext : ext_state) (got : result kerr IPRes) : ext_state * K W () :=
  match got with
  | Err NotFound => (ext, mret ())
  | Err e => (ext, Kube.fail e)
  | Ok ip =>
    let '(ext, r) := handleNetworkRef ext ip in
    (ext, match r with
          | Err NotFound => if i_Deleting ip then delete_ip ip else mret ()
          | Err e => Kube.fail e
          | Ok (ref, cidr) => if i_Deleting ip then delete_ip ip else ensure_ip ip ref cidr
          end)
  end.
End ip.
