(* ===== verification/NetworkLife.v ===== *)
(** * NetworkLife: Networks, their controller and the IPAM daemon together

    The controller of [NetworkCtrl] runs against the daemon of [IpamServer] and a
    store of Networks.  Users create, edit and delete Networks, the IP controller
    sends its requests, and each reconciliation reads the Network, may call the
    daemon and writes back; a write can be refused, or take effect although its
    answer is lost. *)

From S2P Require Export NetworkLabels IpamServerSpec NetworkCtrl.
Local Open Scope Z_scope.

(** ** What the daemon's handlers leave behind *)

Section daemon.
Context (clock : nat → Z) {T : Ticking clock} (ps : list Prefix) (graphviz : bool) (dumps : Ipam → bool).
Context (Hdump : ∀ st, graphviz && negb (dumps st) = false).

(** The state stays behind the clock. *)
Definition ageing {A} (m : SM A) : Prop := ∀ st τ, past clock st τ →
  wlp (m st) τ (fun '(_, st') τ' => (τ ≤ τ')%nat ∧ past clock st' τ').

Lemma ageing_ret {A} (a : A) : ageing (mret a).
Proof. intros st τ H. by apply wlp_ret. Qed.
Lemma ageing_fail {A} e : ageing (IpamServer.fail (A:=A) e).
Proof. intros st τ H. by apply wlp_ret. Qed.
Lemma ageing_get : ageing get.
Proof. intros st τ H. by apply wlp_ret. Qed.
Lemma ageing_bind {A B} (m : SM A) (f : A → SM B) : ageing m → (∀ a, ageing (f a)) → ageing (m ≫= f).
Proof.
  intros Hm Hf st τ H. apply wlp_bind. eapply wlp_mono; [by apply Hm|].
  intros [[a|e] st'] τ' [Hle H']; [|by apply wlp_ret].
  eapply wlp_mono; [by apply Hf|]. intros [r st''] τ'' [? ?]. split; [lia|done].
Qed.
Lemma ageing_recover {A} (m : SM A) h : ageing m → ageing h → ageing (recover m h).
Proof.
  intros Hm Hh st τ H. apply wlp_bind. eapply wlp_mono; [by apply Hm|].
  intros [[a|e] st'] τ' [Hle H']; [by apply wlp_ret|]. apply wlp_bind.
  eapply wlp_mono; [by apply Hh|]. intros [r st''] τ'' [? ?]. apply wlp_ret. split; [lia|done].
Qed.
Lemma ageing_for_each {A} (l : list A) f : (∀ x, ageing (f x)) → ageing (for_each l f).
Proof. intros Hf. induction l; cbn [for_each]; [apply ageing_ret|]. by apply ageing_bind. Qed.
Lemma ageing_dump {A} (a : A) : ageing (dump graphviz dumps a).
Proof. intros st τ. apply dump_past. Qed.
Lemma ageing_core_err {A} (f : Ipam → M (result core_error A * Ipam)) :
  (∀ st τ, past clock st τ → wlp (f st) τ (fun '(_, st') τ' => (τ ≤ τ')%nat ∧ past clock st' τ')) → ageing (core_err f).
Proof.
  intros Hf st τ H. apply wlp_bind. eapply wlp_mono; [by apply Hf|]. intros [r st'] τ' H'. by apply wlp_ret.
Qed.
Lemma ageing_isInPool p : ageing (isInPool p).
Proof. apply ageing_bind; auto using ageing_get, ageing_ret. Qed.
Lemma ageing_networkRelease p g : ageing (IpamServer.networkRelease clock graphviz dumps p g).
Proof.
  apply ageing_bind; [|intros [q|]; auto using ageing_dump, ageing_ret].
  intros st τ H. do 2 apply wlp_bind. eapply wlp_mono; [apply release_roots_aged; [apply T|exact H]|].
  intros [res ts] τ' [? ?]. by do 2 apply wlp_ret.
Qed.
Lemma ageing_preallocated p n : ageing (acquirePreallocatedIPs clock graphviz dumps p n).
Proof.
  unfold acquirePreallocatedIPs. case_match; [apply ageing_fail|]. apply ageing_for_each. intros a.
  apply ageing_bind.
  - apply ageing_bind; [apply ageing_get|]. intros st. apply ageing_bind; [|intros; apply ageing_ret].
    destruct (IPIsAllocated st p a); [apply ageing_ret|apply ageing_fail].
  - intros [|]; [|apply ageing_ret]. apply ageing_bind; [|intros [|]; auto using ageing_dump, ageing_fail].
    apply ageing_core_err. intros st τ. by apply IPAcquireWithAddr_past, T.
Qed.

Lemma ageing_NetworkAcquire_handler req : ageing (NetworkAcquire_handler clock graphviz dumps req).
Proof.
  apply ageing_bind; [unfold parse_prefix; case_match; auto using ageing_ret, ageing_fail|]. intros p.
  apply ageing_bind; [apply ageing_isInPool|]. intros b. do 2 (case_match; [auto using ageing_ret, ageing_fail|]).
  apply ageing_bind.
  - destruct (Immutable req); intros st τ Hst; [by apply networkAcquireSpecific_past; [apply T|]|by apply networkAcquire_past; [apply T|]].
  - intros q. apply ageing_bind; [|intros; apply ageing_ret].
    apply ageing_recover; [apply ageing_preallocated|apply ageing_networkRelease].
Qed.
Lemma ageing_NetworkRelease_handler c : ageing (NetworkRelease_handler clock graphviz dumps c).
Proof.
  apply ageing_bind; [unfold parse_prefix; case_match; auto using ageing_ret, ageing_fail|]. intros p. apply ageing_networkRelease.
Qed.
Lemma ageing_IPAcquire_handler c : ageing (IPAcquire_handler clock graphviz dumps c).
Proof.
  apply ageing_bind; [unfold parse_prefix; case_match; auto using ageing_ret, ageing_fail|]. intros p.
  apply ageing_bind; [apply ageing_isInPool|]. intros b. case_match; [apply ageing_fail|].
  apply ageing_bind; [|intros [q|]; auto using ageing_dump, ageing_fail].
  apply ageing_core_err. intros st τ. by apply IPAcquire_past, T.
Qed.
Lemma ageing_IPRelease_handler i c : ageing (IPRelease_handler clock graphviz dumps i c).
Proof.
  apply ageing_bind; [unfold parse_addr; case_match; auto using ageing_ret, ageing_fail|]. intros a.
  apply ageing_bind; [unfold parse_prefix; case_match; auto using ageing_ret, ageing_fail|]. intros p.
  apply ageing_bind; [|intros [q|]; auto using ageing_dump, ageing_ret].
  apply ageing_core_err. intros st τ. by apply IPRelease_past, T.
Qed.

(** Releasing counts one holder less, if there was one. *)
Definition after_release (c : Z) : Z := if decide (c = 0) then 0 else release_delta c.

Lemma NetworkRelease_handler_spec st c p τ : reachable clock ps st → past clock st τ → ParsePrefix c = Some p →
  wp (NetworkRelease_handler clock graphviz dumps c st) τ (fun '(r, st') τ' =>
    r = Ok () ∧ reachable clock ps st' ∧ past clock st' τ' ∧
    ∀ x, refs st' x = refs st x + if decide (x = p) then after_release (refs st p) else 0).
Proof using T Hdump.
  intros Hst Hpast Hp. pose proof (ParsePrefix_valid _ _ Hp) as Hv.
  eapply wp_mono; [apply (wp_wlp _ _ (fun '(r, st') _ => r = Ok () ∧ reachable clock ps st' ∧
    ∀ x, refs st' x = refs st x + if decide (x = p) then after_release (refs st p) else 0));
    [|by apply ageing_NetworkRelease_handler]|].
  - unfold NetworkRelease_handler, parse_prefix. rewrite Hp. apply wp_bind, wp_ret. do 2 apply wp_bind.
    eapply wp_mono; [by apply (release_wp clock ps)|]. intros [res st'] τ' [Hst' (_ & _ & -> & Hrc)]. apply wp_ret.
    assert (Hdelta : (if match roots_at (roots st) p with
                         | Some n => isAcquired n && (lastUpdateTimestamp n + 0 <? clock τ) | None => false end
                      then release_delta (roots_rc (roots st) p) else 0) = after_release (refs st p)).
    { unfold refs, roots_rc, after_release. destruct (roots_at (roots st) p) as [n|] eqn:Hat; [|done].
      pose proof (past_at clock st τ p n Hpast Hat). rewrite (proj2 (Z.ltb_lt _ _)) by lia.
      rewrite andb_true_r. unfold isAcquired. case_decide as Hd; [by rewrite Hd|]. by rewrite (proj2 (Z.eqb_neq _ _) Hd). }
    rewrite Hdelta in Hrc. destruct (match roots_at _ _ with Some _ => _ | None => _ end); [apply wp_dump; by rewrite Hdump|by apply wp_ret].
  - intros [r st'] τ' [(-> & ? & ?) [_ ?]]. done.
Qed.

(** A network that is free is granted as it was asked for. *)
Lemma acquire_prefix_grants st p ex τ : reachable clock ps st → past clock st τ → wf4 p → in_pools ps p → can_acquire (refs st) p ex →
  wp (core (fun st => NetworkAcquireWithPrefix clock st p ex) st) τ (fun '(r, st') τ' =>
    r = Ok (Some p) ∧ reachable clock ps st' ∧ past clock st' τ' ∧ acquired st' p).
Proof using T.
  intros Hst Hpast Hp Hin Hc. assert (Hv : valid_prefix p) by auto with liqo.
  assert (Hw : wp (core (fun st => NetworkAcquireWithPrefix clock st p ex) st) τ (fun '(r, st') _ =>
    r = Ok (Some p) ∧ reachable clock ps st' ∧ acquired st' p)).
  { apply wp_bind. eapply wp_mono; [by apply (acquire_prefix_wp clock ps)|]. intros [[q|] st'] τ' [Hst' Hs]; apply wp_ret.
    - destruct Hs as (_ & _ & -> & _ & _ & _ & Hrc). split_and!; [done|done|]. unfold acquired, refs.
      rewrite Hrc, decide_True by done. destruct (refs_shape ps st p) as [Hge _]; [by destruct (reachable_inv _ _ _ Hst)|].
      by apply (release_cancels (refs st) p ex).
    - destruct Hs as (_ & _ & Hno & _). by destruct Hno. }
  eapply wp_mono; [exact (wp_wlp _ _ _ _ Hw (acquire_prefix_past clock T st p ex τ Hpast))|].
  intros [r st'] τ' [(-> & ? & ?) [_ ?]]. done.
Qed.

Lemma NetworkAcquire_handler_grants st req p τ : reachable clock ps st → past clock st τ → ParsePrefix (Cidr req) = Some p →
  wf4 p → in_pools ps p → can_acquire (refs st) p (negb (Immutable req) || Exclusive req) →
  0 ≤ PreAllocated req → PreAllocated req ≤ pBits p → PreAllocated req ≤ psize p →
  wp (NetworkAcquire_handler clock graphviz dumps req st) τ (fun '(r, _) _ => r = Ok p).
Proof using T Hdump.
  intros Hst Hpast Hparse Hp Hin Hc Hn0 Hn1 Hn2. unfold NetworkAcquire_handler, parse_prefix. rewrite Hparse.
  apply wp_bind, wp_ret. unfold isInPool. apply wp_bind, wp_ret.
  rewrite (proj2 (IsPrefixInRoots_spec ps st p ltac:(by destruct (reachable_inv _ _ _ Hst)) ltac:(auto with liqo)) Hin). cbn [negb andb].
  apply wp_bind. eapply (wp_mono _ _ (fun '(r, st') τ' => r = Ok p ∧ reachable clock ps st' ∧ past clock st' τ' ∧ acquired st' p)).
  - destruct (Immutable req); cbn [negb orb] in Hc; apply wp_bind; (eapply wp_mono; [by apply acquire_prefix_grants|]);
      intros [r st'] τ' (-> & ? & ? & ?); [|apply wp_bind, wp_ret]; apply wp_dump; by rewrite Hdump.
  - intros [r st'] τ' (-> & Hst' & Hpast' & Hacq). do 2 apply wp_bind.
    eapply wp_mono; [by apply (acquirePreallocatedIPs_spec clock T ps)|].
    intros [r st''] τ'' (_ & Hiff & _). rewrite (proj2 Hiff) by done. by do 2 apply wp_ret.
Qed.

(** Address requests do not touch the counters. *)
Definition keeps_refs {A} (m : SM A) : Prop := ∀ st τ, reachable clock ps st →
  wp (m st) τ (fun '(_, st') _ => reachable clock ps st' ∧ ∀ x, refs st' x = refs st x).

Lemma keeps_refs_dump {A B} (f : Ipam → M (result core_error B * Ipam)) (g : B → SM A) :
  (∀ st τ, reachable clock ps st → wp (f st) τ (fun '(_, st') _ => reachable clock ps st' ∧ ∀ x, refs st' x = refs st x)) →
  (∀ b, keeps_refs (g b)) → keeps_refs (core_err f ≫= g).
Proof.
  intros Hf Hg st τ H. do 2 apply wp_bind. eapply wp_mono; [by apply Hf|].
  intros [[b|e] st'] τ' [H' E]; apply wp_ret; [|by apply wp_ret].
  eapply wp_mono; [by apply Hg|]. intros [r st''] τ'' [? E']. split; [done|]. intros x. by rewrite E', E.
Qed.
Lemma keeps_refs_op st (o : op) τ : reachable clock ps st → op_valid o →
  match o with OIPAcquire _ | OIPAcquireAddr _ _ | OIPRelease _ _ _ => True | _ => False end →
  wp (run_op clock st o) τ (fun '(_, st') _ => reachable clock ps st' ∧ ∀ x, refs st' x = refs st x).
Proof.
  intros H Hv Ho. pose proof (reachable_inv _ _ _ H) as [Hok _].
  eapply wp_mono; [exact (wp_and _ _ _ _ (run_op_safe clock ps st o τ H Hv) (run_op_sim clock ps st o τ Hok Hv))|].
  intros [rep st'] τ' [Hr [_ Hs]]. split; [done|]. inversion Hs; subst; simpl in Ho; try done;
    match goal with H : a_ips _ _ _ _ |- _ => apply H end.
Qed.
Lemma keeps_refs_ret {A} (a : A) : keeps_refs (mret a).
Proof. intros st τ H. by apply wp_ret. Qed.
Lemma keeps_refs_fail {A} e : keeps_refs (IpamServer.fail (A:=A) e).
Proof. intros st τ H. by apply wp_ret. Qed.
Lemma keeps_refs_finish {A} (a : A) : keeps_refs (dump graphviz dumps a).
Proof. intros st τ H. by apply wp_dump. Qed.

Lemma keeps_refs_IPAcquire_handler c : keeps_refs (IPAcquire_handler clock graphviz dumps c).
Proof.
  intros st τ H. unfold IPAcquire_handler, parse_prefix. destruct (ParsePrefix c) as [p|] eqn:Hp; [|by apply wp_ret].
  apply ParsePrefix_valid in Hp. apply wp_bind, wp_ret. unfold isInPool. apply wp_bind, wp_ret.
  case_match; [by apply wp_ret|]. eapply keeps_refs_dump; [|intros [q|]; [apply keeps_refs_finish|apply keeps_refs_fail]|done].
  intros st1 τ1 H1. pose proof (keeps_refs_op st1 (OIPAcquire p) τ1 H1 Hp I) as Hw. apply wp_bind_inv in Hw. eapply wp_mono; [exact Hw|]. by intros [? ?] ? ?.
Qed.
Lemma keeps_refs_IPRelease_handler i c : keeps_refs (IPRelease_handler clock graphviz dumps i c).
Proof.
  intros st τ H. unfold IPRelease_handler, parse_addr, parse_prefix. destruct (ParseAddr i) as [a|] eqn:Ha; [|by apply wp_ret].
  apply ParseAddr_valid in Ha. apply wp_bind, wp_ret. destruct (ParsePrefix c) as [p|] eqn:Hp; [|by apply wp_ret].
  apply ParsePrefix_valid in Hp. apply wp_bind, wp_ret.
  eapply keeps_refs_dump; [|intros [q|]; [apply keeps_refs_finish|apply keeps_refs_ret]|done].
  intros st1 τ1 H1. pose proof (keeps_refs_op st1 (OIPRelease p a 0) τ1 H1 (conj Hp Ha) I) as Hw. apply wp_bind_inv in Hw. eapply wp_mono; [exact Hw|]. by intros [? ?] ? ?.
Qed.
End daemon.

(** ** The system *)

(** [netip.Prefix.String] and [netip.Addr.String], on IPv4. *)
Definition Prefix_String (p : Prefix) : string := prefix_text (be_bytes 4 (val (pAddr p))) (pBits p).
Definition Addr_String (a : Addr) : string := convertByteSliceToString (be_bytes 4 (val a)).

Lemma Prefix_String_parse p : valid_prefix p → bitlen (pAddr p) = 32 → ParsePrefix (Prefix_String p) = Some p.
Proof.
  intros [Hl Hv Hz Hb] H4. rewrite H4 in *. unfold Prefix_String.
  destruct (be_bytes 4 (val (pAddr p))) as [|b0 [|b1 [|b2 [|b3 [|]]]]] eqn:E; try done.
  assert (Hr : ∀ b, b ∈ [b0; b1; b2; b3] → 0 ≤ b < 256) by (rewrite <- E; intros b; apply be_bytes_range).
  rewrite parse_prefix_text by (lia || (apply Hr; set_solver)).
  rewrite (proj2 (Z.leb_le _ _)), <- E, be_val_bytes4 by lia.
  destruct p as [[bl v z] n]. cbn in *. by subst.
Qed.

Notation nkey := (string * string)%type.
Record sys := mkSys { s_ipam : Ipam; s_tick : nat; s_nets : gmap nkey NetworkObj }.

(** What becomes of a write. *)
Inductive verdict := Applied | Lost | Refused.

(** A Network that is being deleted goes with its last finalizer. *)
Definition stored (nw : NetworkObj) : option NetworkObj :=
  if n_Deleting nw && bool_decide (n_Finalizers nw = []) then None else Some nw.
Definition put (k : nkey) (o : option NetworkObj) (w : sys) : sys :=
  mkSys (s_ipam w) (s_tick w) (partial_alter (fun _ => o) k (s_nets w)).
Definition write (v : verdict) (k : nkey) (f : NetworkObj → NetworkObj) : K sys () := fun w =>
  match s_nets w !! k with
  | None => Ret (w, Err NotFound)
  | Some cur =>
    match v with
    | Applied => Ret (put k (stored (f cur)) w, Ok ())
    | Lost => Ret (put k (stored (f cur)) w, Err OtherErr)
    | Refused => Ret (w, Err Conflict)
    end
  end.
(** An update keeps the status and the deletion of the stored object, a status
    update everything else. *)
Definition update (v : verdict) (k : nkey) (nw : NetworkObj) : K sys () :=
  write v k (fun cur => mkNetworkObj (mkNetworkRes (NetworkLabels.nr_name (n_res nw)) (nr_namespace (n_res nw)) (nr_labels (n_res nw))
    (nr_spec_cidr (n_res nw)) (nr_status_cidr (n_res cur))) (n_Annotations nw) (n_PreAllocated nw) (n_Finalizers nw) (n_Deleting cur)).
Definition update_status (v : verdict) (k : nkey) (nw : NetworkObj) : K sys () :=
  write v k (fun cur => set_status_cidr cur (nr_status_cidr (n_res nw))).

Section life.
Context (clock : nat → Z) (ps : list Prefix) (graphviz : bool) (dumps : Ipam → bool).

(** A call to the daemon. *)
Definition rpc {A} (m : SM A) : K sys A := fun w =>
  match m (s_ipam w) (s_tick w) with
  | Ret ((Ok a, st), τ) => Ret (mkSys st τ (s_nets w), Ok a)
  | Ret ((Err _, st), τ) => Ret (mkSys st τ (s_nets w), Err OtherErr)
  | Panic => Panic
  | Diverge => Diverge
  end.
Definition daemon_client : IpamClient sys := mkIpamClient
  (fun req => q ← rpc (NetworkAcquire_handler clock graphviz dumps req); mret (Prefix_String q))
  (fun c => rpc (NetworkRelease_handler clock graphviz dumps c))
  (fun c => a ← rpc (IPAcquire_handler clock graphviz dumps c); mret (Addr_String a))
  (fun i c => rpc (IPRelease_handler clock graphviz dumps i c)).

Definition reconcile (v : verdict) (k : nkey) : K sys () := fun w =>
  NetworkReconcile (Some daemon_client) (update v k) (update_status v k)
    (match s_nets w !! k with Some nw => Ok nw | None => Err NotFound end) w.

(** *** Who holds what *)

Definition in_use (nw : NetworkObj) : bool := negb (n_Deleting nw) || bool_decide (ipamNetworkFinalizer ∈ n_Finalizers nw).
Definition holds (nw : NetworkObj) (q : Prefix) : bool :=
  bool_decide (ParsePrefix (nr_status_cidr (n_res nw)) = Some q) && in_use nw.
(** The network was asked for itself alone. *)
Definition is_exclusive (nw : NetworkObj) : bool := negb (NetworkNotRemapped (n_res nw)) || exclusive_network nw.
(** The reconciliation will ask the daemon to release. *)
Definition releases (nw : NetworkObj) : bool :=
  n_Deleting nw && bool_decide (ipamNetworkFinalizer ∈ n_Finalizers nw) && negb (bool_decide (nr_status_cidr (n_res nw) = ""%string)).

(** IPv4, and the number of addresses is unsigned. *)
Definition admissible (nw : NetworkObj) : Prop :=
  0 ≤ n_PreAllocated nw ∧ ∀ p, ParsePrefix (nr_spec_cidr (n_res nw)) = Some p → bitlen (pAddr p) = 32.
(** A new Network; an edit, which concerns labels, annotations and other fields. *)
Definition fresh (nw : NetworkObj) : Prop :=
  nr_status_cidr (n_res nw) = ""%string ∧ n_Deleting nw = false ∧ ipamNetworkFinalizer ∉ n_Finalizers nw.
Definition edited (nw nw' : NetworkObj) : Prop :=
  nr_status_cidr (n_res nw') = nr_status_cidr (n_res nw) ∧ n_Deleting nw' = n_Deleting nw ∧
  n_Finalizers nw' = n_Finalizers nw ∧ nr_spec_cidr (n_res nw') = nr_spec_cidr (n_res nw) ∧
  n_PreAllocated nw' = n_PreAllocated nw ∧ is_exclusive nw' = is_exclusive nw.
Definition set_deleting (nw : NetworkObj) : NetworkObj :=
  mkNetworkObj (n_res nw) (n_Annotations nw) (n_PreAllocated nw) (n_Finalizers nw) true.

Inductive step (w : sys) : sys → Prop :=
| step_create k nw : s_nets w !! k = None → fresh nw → admissible nw → step w (put k (Some nw) w)
| step_edit k nw nw' : s_nets w !! k = Some nw → edited nw nw' → step w (put k (Some nw') w)
| step_delete k nw : s_nets w !! k = Some nw → step w (put k (stored (set_deleting nw)) w)
| step_reconcile v k w' r : (∀ nw, s_nets w !! k = Some nw → releases nw = true → v ≠ Refused) →
    reconcile v k w = Ret (w', r) → step w w'
| step_ip_acquire c w' r : cl_IPAcquire daemon_client c w = Ret (w', r) → step w w'
| step_ip_release i c w' r : cl_IPRelease daemon_client i c w = Ret (w', r) → step w w'
| step_wait w' : s_ipam w' = s_ipam w → s_nets w' = s_nets w → (s_tick w ≤ s_tick w')%nat → step w w'.

(** The histories that start without Networks, on a daemon with any past. *)
Inductive history : sys → Prop :=
| history_init w : reachable clock ps (s_ipam w) → past clock (s_ipam w) (s_tick w) → s_nets w = ∅ → history w
| history_step w w' : history w → step w w' → history w'.
End life.
