(* ===== verification/NetworkCtrlProps.v ===== *)
(** * NetworkCtrlProps: what the life of Networks guarantees

    The invariant that ties the counters of the daemon to the Networks of the
    cluster, the isolation of exclusive Networks, and what happens when the write
    that follows a release is refused. *)

From S2P Require Export NetworkLife.
Local Open Scope Z_scope.

(** ** Counting the holders of a network *)

Definition holders (q : Prefix) (m : gmap nkey NetworkObj) : nat := size (filter (fun kv => holds kv.2 q = true) m).
(** One if the object holds [q]. *)
Definition share (o : option NetworkObj) (q : Prefix) : Z :=
  match o with Some nw => if holds nw q then 1 else 0 | None => 0 end.

Lemma holders_delete q m k : Z.of_nat (holders q m) = Z.of_nat (holders q (delete k m)) + share (m !! k) q.
Proof.
  unfold holders. rewrite map_filter_delete, map_size_delete. unfold share.
  destruct (filter (fun kv => holds kv.2 q = true) m !! k) as [nw|] eqn:E.
  - pose proof E as [-> H]%map_lookup_filter_Some. simpl in H. rewrite H.
    assert (size (filter (fun kv : nkey * NetworkObj => holds kv.2 q = true) m) ≠ 0%nat); [|cbn match; lia].
    intros He%map_size_empty_inv. by rewrite He, lookup_empty in E.
  - apply map_lookup_filter_None in E as [->|E]; [unfold id; cbn match; lia|]. destruct (m !! k) as [nw|]; [|unfold id; cbn match; lia].
    specialize (E nw eq_refl). simpl in E. destruct (holds nw q); [done|unfold id; cbn match; lia].
Qed.

Lemma holders_put q m k o : Z.of_nat (holders q (partial_alter (fun _ => o) k m)) =
  Z.of_nat (holders q m) - share (m !! k) q + share o q.
Proof.
  rewrite (holders_delete q m k), (holders_delete q (partial_alter _ _ _) k), lookup_partial_alter.
  rewrite decide_True by done.
  replace (delete k (partial_alter (fun _ => o) k m)) with (delete k m); [lia|].
  apply map_eq. intros j. destruct (decide (j = k)) as [->|]; [by rewrite !lookup_delete_eq|].
  by rewrite !lookup_delete_ne, lookup_partial_alter_ne by done.
Qed.

Lemma share_range o q : 0 ≤ share o q ≤ 1.
Proof. unfold share. repeat case_match; lia. Qed.
Lemma holders_one q m k nw : m !! k = Some nw → holds nw q = true → 1 ≤ Z.of_nat (holders q m).
Proof. intros Hk Hh. rewrite (holders_delete q m k), Hk. simpl. rewrite Hh. lia. Qed.
Lemma holders_two q m k k' nw nw' : k ≠ k' → m !! k = Some nw → m !! k' = Some nw' →
  holds nw q = true → holds nw' q = true → 2 ≤ Z.of_nat (holders q m).
Proof.
  intros Hne Hk Hk' Hh Hh'. rewrite (holders_delete q m k), Hk. simpl. rewrite Hh.
  pose proof (holders_one q (delete k m) k' nw'). rewrite lookup_delete_ne in * by done. specialize (H Hk' Hh'). lia.
Qed.

(** ** The invariant *)

(** What the controller asks for a Network. *)
Notation request_of nw := (mkNetworkAcquireRequest (nr_spec_cidr (n_res nw)) (NetworkNotRemapped (n_res nw)) (exclusive_network nw) (n_PreAllocated nw)).

Section life.
Context (clock : nat → Z) {T : Ticking clock} (ps : list Prefix) (graphviz : bool) (dumps : Ipam → bool).
Context (Hdump : ∀ st, graphviz && negb (dumps st) = false).

Record Inv (w : sys) : Prop := {
  inv_reachable : reachable clock ps (s_ipam w);
  inv_past : past clock (s_ipam w) (s_tick w);
  (** Every network counts at least as many holders as Networks hold it. *)
  inv_count q : in_pools ps q → Z.of_nat (holders q (s_nets w)) ≤ Z.abs (refs (s_ipam w) q);
  (** The daemon and the Networks agree on what is exclusive. *)
  inv_exclusive k nw q : s_nets w !! k = Some nw → holds nw q = true → in_pools ps q →
    refs (s_ipam w) q = -1 ↔ is_exclusive nw = true;
  inv_admissible k nw : s_nets w !! k = Some nw → admissible nw
}.

Lemma refs_low st x : reachable clock ps st → -1 ≤ refs st x.
Proof. intros H. by destruct (refs_shape ps st x) as [? _]; [by destruct (reachable_inv _ _ _ H)|]. Qed.

(** One Network changes, and the counters with it. *)
Lemma Inv_put w st τ k o : Inv w → reachable clock ps st → past clock st τ →
  (∀ q, in_pools ps q → share o q - share (s_nets w !! k) q ≤ Z.abs (refs st q) - Z.abs (refs (s_ipam w) q)) →
  (∀ k' nw q, k' ≠ k → s_nets w !! k' = Some nw → holds nw q = true → in_pools ps q →
     refs st q = -1 ↔ refs (s_ipam w) q = -1) →
  (∀ nw q, o = Some nw → holds nw q = true → in_pools ps q → refs st q = -1 ↔ is_exclusive nw = true) →
  (∀ nw, o = Some nw → admissible nw) →
  Inv (put k o (mkSys st τ (s_nets w))).
Proof.
  intros [_ _ Hc He Ha] Hr Hp Hd Hother Hown Hadm.
  assert (Hcases : ∀ k' nw, s_nets (put k o (mkSys st τ (s_nets w))) !! k' = Some nw →
    (k' = k ∧ o = Some nw) ∨ (k' ≠ k ∧ s_nets w !! k' = Some nw)).
  { intros k' nw. cbn. destruct (decide (k' = k)) as [->|].
    - rewrite lookup_partial_alter, decide_True by done. by left.
    - rewrite lookup_partial_alter_ne by done. by right. }
  split; [done|done|..].
  - intros q Hq. cbn. rewrite holders_put. specialize (Hc q Hq). specialize (Hd q Hq). lia.
  - intros k' nw q Hk Hh Hq. cbn [s_ipam put]. destruct (Hcases _ _ Hk) as [[-> Ho]|[Hne Hk']]; [by apply Hown|].
    rewrite (Hother k' nw q) by done. by eapply He.
  - intros k' nw Hk. destruct (Hcases _ _ Hk) as [[-> Ho]|[Hne Hk']]; [by apply Hadm|by eapply Ha].
Qed.

(** The counters do not move. *)
Lemma Inv_same w st τ k o : Inv w → reachable clock ps st → past clock st τ → (∀ x, refs st x = refs (s_ipam w) x) →
  (∀ q, share o q ≤ share (s_nets w !! k) q) →
  (∀ nw, o = Some nw → ∃ old, s_nets w !! k = Some old ∧ is_exclusive nw = is_exclusive old) →
  (∀ nw, o = Some nw → admissible nw) →
  Inv (put k o (mkSys st τ (s_nets w))).
Proof.
  intros HI Hr Hp Hrc Hs Hold Hadm. apply Inv_put; auto.
  - intros q Hq. rewrite Hrc. specialize (Hs q). lia.
  - intros k' nw q _ Hk Hh Hq. by rewrite Hrc.
  - intros nw q Ho Hh Hq. destruct (Hold nw Ho) as (old & Hk & ->). rewrite Hrc.
    eapply inv_exclusive; eauto. specialize (Hs q). rewrite Ho, Hk in Hs. simpl in Hs. rewrite Hh in Hs.
    by destruct (holds old q).
Qed.

Lemma put_same k (w : sys) : put k (s_nets w !! k) w = w.
Proof. destruct w as [st τ m]. unfold put. cbn. f_equal. by apply partial_alter_id. Qed.

Lemma Inv_daemon w st τ : Inv w → reachable clock ps st → past clock st τ → (∀ x, refs st x = refs (s_ipam w) x) →
  Inv (mkSys st τ (s_nets w)).
Proof.
  intros [] Hr Hp Hrc. split; cbn; auto; intros; rewrite ?Hrc; eauto.
Qed.

(** ** The steps *)

Lemma not_holding nw q : nr_status_cidr (n_res nw) = ""%string → holds nw q = false.
Proof. intros H. unfold holds. rewrite H, bool_decide_false; [done|]. by vm_compute. Qed.

Lemma holds_ext nw nw' q : nr_status_cidr (n_res nw') = nr_status_cidr (n_res nw) → in_use nw' = in_use nw →
  holds nw' q = holds nw q.
Proof. unfold holds. by intros -> ->. Qed.

Lemma holds_granted nw q x : valid_prefix q → bitlen (pAddr q) = 32 →
  holds (set_status_cidr nw (Prefix_String q)) x = bool_decide (q = x) && in_use nw.
Proof.
  intros Hv H4. unfold holds. change (nr_status_cidr (n_res (set_status_cidr nw (Prefix_String q)))) with (Prefix_String q).
  rewrite Prefix_String_parse by done. f_equal. apply bool_decide_ext. split; [by intros [= ->]|by intros ->].
Qed.

Lemma write_inv v k f w w' r : write v k f w = Ret (w', r) →
  (w' = w ∧ (v = Refused ∨ s_nets w !! k = None)) ∨ (∃ cur, s_nets w !! k = Some cur ∧ w' = put k (stored (f cur)) w).
Proof.
  unfold write. destruct (s_nets w !! k) as [cur|] eqn:E; [|intros [= <- <-]; auto].
  destruct v; intros [= <- <-]; eauto.
Qed.

(** A finalizer is added. *)
Lemma Inv_add_finalizer v k nw w w' r : Inv w → s_nets w !! k = Some nw → n_Deleting nw = false →
  update v k (set_net_finalizers nw (n_Finalizers nw ++ [ipamNetworkFinalizer])) w = Ret (w', r) → Inv w'.
Proof.
  intros HI Hk Hd [[-> _]|(cur & Hk' & ->)]%write_inv; [done|]. rewrite Hk in Hk'. injection Hk' as <-.
  unfold stored. cbn [n_Deleting]. rewrite Hd. cbn [andb].
  destruct w as [st τ m]. apply (Inv_same (mkSys st τ m)); try done; [apply HI|apply HI|..].
  - intros q. rewrite Hk. simpl. by rewrite (holds_ext nw) by (unfold in_use; cbn; by rewrite ?Hd).
  - intros nw' [= <-]. exists nw. by split.
  - intros nw' [= <-]. apply (inv_admissible _ HI k nw Hk).
Qed.

(** The answer of the daemon is written to the status. *)
Lemma grant_put w st τ k nw q : Inv w → s_nets w !! k = Some nw → n_Deleting nw = false →
  nr_status_cidr (n_res nw) = ""%string → reachable clock ps st → past clock st τ →
  granted ps (s_ipam w) (mkNetworkAcquireRequest (nr_spec_cidr (n_res nw)) (NetworkNotRemapped (n_res nw)) (exclusive_network nw) (n_PreAllocated nw)) q st →
  Inv (put k (Some (set_status_cidr nw (Prefix_String q))) (mkSys st τ (s_nets w))) ∧ Inv (mkSys st τ (s_nets w)).
Proof.
  intros HI Hk Hd Hs Hr Hp (Hq & Hin & Hcan & Hrc & _). cbn [Immutable Exclusive] in *.
  change (negb _ || exclusive_network nw) with (is_exclusive nw) in *.
  pose proof (refs_low _ q (inv_reachable _ HI)) as Hlow.
  pose proof (proj2 (Overlaps_under q q Hq Hq) (or_introl (under_refl q Hq))) as Hov.
  assert (Hfree : refs (s_ipam w) q ≠ 0 → if is_exclusive nw then False else refs (s_ipam w) q ≠ -1).
  { intros Hne. by apply Hcan. }
  assert (Hone : Z.abs (refs st q) = Z.abs (refs (s_ipam w) q) + 1).
  { rewrite Hrc, decide_True by done. unfold acquire_delta. destruct (is_exclusive nw); lia. }
  assert (Hother : ∀ k' nw' x, k' ≠ k → s_nets w !! k' = Some nw' → holds nw' x = true → in_pools ps x →
     refs st x = -1 ↔ refs (s_ipam w) x = -1).
  { intros k' nw' x _ Hk' Hh Hx. rewrite Hrc. case_decide as E; [|by rewrite Z.add_0_r]. subst x.
    pose proof (holders_one q _ _ _ Hk' Hh) as H1. pose proof (inv_count _ HI q Hin).
    assert (refs (s_ipam w) q ≠ 0) by lia. specialize (Hfree H0). unfold acquire_delta. destruct (is_exclusive nw); [done|lia]. }
  assert (Habs : ∀ x, Z.abs (refs st x) - Z.abs (refs (s_ipam w) x) = if decide (x = q) then 1 else 0).
  { intros x. case_decide as E; [subst; lia|]. rewrite Hrc, decide_False by done. lia. }
  split.
  - apply Inv_put; auto.
    + intros x Hx. rewrite Habs, Hk. unfold share at 2. rewrite (not_holding nw) by done. case_decide as E.
      * pose proof (share_range (Some (set_status_cidr nw (Prefix_String q))) x). lia.
      * simpl. rewrite holds_granted by (auto with liqo || by destruct Hq). by rewrite bool_decide_false by congruence.
    + intros nw' x [= <-] Hh Hx. rewrite holds_granted in Hh by (auto with liqo || by destruct Hq).
      apply andb_true_iff in Hh as [Hh%bool_decide_eq_true _]. subst x. rewrite Hrc, decide_True by done.
      change (is_exclusive (set_status_cidr nw (Prefix_String q))) with (is_exclusive nw).
      unfold acquire_delta. destruct (is_exclusive nw); [|lia]. destruct (decide (refs (s_ipam w) q = 0)); [lia|tauto].
    + intros nw' [= <-]. apply (inv_admissible _ HI k nw Hk).
  - replace (mkSys st τ (s_nets w)) with (put k (s_nets w !! k) (mkSys st τ (s_nets w))) by apply (put_same k (mkSys st τ (s_nets w))).
    apply Inv_put; auto.
    + intros x Hx. rewrite Habs. case_decide; lia.
    + intros nw' x Hk' Hh. rewrite Hk in Hk'. injection Hk' as <-. by rewrite not_holding in Hh.
    + intros nw' Hk'. by eapply inv_admissible.
Qed.

Lemma update_returns v k nw w : ∃ w' r, update v k nw w = Ret (w', r).
Proof. unfold update, write. destruct (s_nets w !! k); [destruct v|]; eauto. Qed.

(** The computation returns and keeps the invariant. *)
Definition good {A} (m : K sys A) (w : sys) : Prop := ∃ w' r, m w = Ret (w', r) ∧ Inv w'.

Lemma good_write v k f w : Inv w → (∀ cur, s_nets w !! k = Some cur → v ≠ Refused → Inv (put k (stored (f cur)) w)) → good (write v k f) w.
Proof.
  intros HI Hf. unfold good, write. destruct (s_nets w !! k) as [cur|] eqn:E; [destruct v|]; do 2 eexists; (split; [reflexivity|]);
    try done; by apply Hf.
Qed.

Lemma rpc_ok {A} (m : SM A) w a st τ : m (s_ipam w) (s_tick w) = Ret ((Ok a, st), τ) → rpc m w = Ret (mkSys st τ (s_nets w), Ok a).
Proof. unfold rpc. by intros ->. Qed.
Lemma rpc_err {A} (m : SM A) w e st τ : m (s_ipam w) (s_tick w) = Ret ((Err e, st), τ) →
  rpc m w = Ret (mkSys st τ (s_nets w), Err OtherErr).
Proof. unfold rpc. by intros ->. Qed.

Lemma acquire_outside w k nw p : Inv w → s_nets w !! k = Some nw → valid_prefix p → bitlen (pAddr p) = 32 → ¬ in_pools ps p →
  Inv (put k (Some (set_status_cidr nw (Prefix_String p))) (mkSys (s_ipam w) (s_tick w) (s_nets w))).
Proof.
  intros HI Hk Hv H4 Hno. apply Inv_put; [done|apply HI|apply HI|..]; auto.
  - intros x Hx. simpl share at 1. rewrite holds_granted, bool_decide_false by (done || congruence).
    cbn [andb]. pose proof (share_range (s_nets w !! k) x). lia.
  - intros nw' x [= <-] Hh Hx. by rewrite holds_granted, bool_decide_false in Hh by (done || congruence).
  - intros nw' [= <-]. apply (inv_admissible _ HI k nw Hk).
Qed.

Lemma acquire_runs w k nw : Inv w → s_nets w !! k = Some nw → n_Deleting nw = false → nr_status_cidr (n_res nw) = ""%string →
  ∃ res st τ, NetworkAcquire_handler clock graphviz dumps (request_of nw) (s_ipam w) (s_tick w) = Ret ((res, st), τ) ∧
    Inv (mkSys st τ (s_nets w)) ∧
    ∀ q, res = Ok q → Inv (put k (Some (set_status_cidr nw (Prefix_String q))) (mkSys st τ (s_nets w))).
Proof using T Hdump.
  intros HI Hk Hd Hs. destruct (inv_admissible _ HI k nw Hk) as [Hn H4].
  destruct (ParsePrefix (Cidr (request_of nw))) as [p|] eqn:Hp.
  2:{ exists (Err (ParseFailed (Cidr (request_of nw)))), (s_ipam w), (s_tick w).
      unfold NetworkAcquire_handler, parse_prefix. rewrite Hp. by destruct w. }
  specialize (H4 p Hp). pose proof (ParsePrefix_valid _ _ Hp) as Hv.
  assert (Hb : pBits p ≤ 32) by (destruct Hv; lia).
  pose proof (NetworkAcquire_handler_spec clock T ps graphviz dumps Hdump (s_ipam w) (request_of nw) p (s_tick w)
    (inv_reachable _ HI) (inv_past _ HI) Hp Hn (or_intror Hb)) as Hspec.
  destruct (wp_inv _ _ _ (wp_wlp _ _ _ _ Hspec (ageing_NetworkAcquire_handler clock graphviz dumps (request_of nw) _ _ (inv_past _ HI))))
    as ([res st] & τ & Hrun & [Hr Hres] & [_ Hpast]).
  exists res, st, τ. split; [done|]. destruct res as [q|e]; [|split; [by apply Inv_daemon|done]].
  destruct Hres as [Hq Hres]. destruct (negb (IsPrefixInRoots (s_ipam w) p) && _ && _) eqn:Hout.
  - apply andb_true_iff in Hout as [[Hout Him]%andb_true_iff Hex]. subst st. rewrite Him in Hq. subst q.
    assert (Hno : ¬ in_pools ps p).
    { intros Hin. apply (IsPrefixInRoots_spec ps (s_ipam w) p) in Hin; [|by destruct (reachable_inv _ _ _ Hr)|done].
      by rewrite Hin in Hout. }
    pose proof (Inv_daemon w (s_ipam w) τ HI Hr Hpast (fun _ => eq_refl)) as HI'. split; [done|]. intros q [= <-].
    by apply (acquire_outside (mkSys (s_ipam w) τ (s_nets w))).
  - destruct (grant_put w st τ k nw q HI Hk Hd Hs Hr Hpast Hres) as [H1 H2]. split; [done|]. by intros q' [= <-].
Qed.

Lemma good_acquire w k nw v : Inv w → s_nets w !! k = Some nw → n_Deleting nw = false → nr_status_cidr (n_res nw) = ""%string →
  good (remapped ← getRemappedCIDR (Some (daemon_client clock graphviz dumps)) (nr_spec_cidr (n_res nw)) (NetworkNotRemapped (n_res nw))
          (exclusive_network nw) (n_PreAllocated nw);
        update_status v k (set_status_cidr nw remapped)) w.
Proof using T Hdump.
  intros HI Hk Hd Hs. destruct (acquire_runs w k nw HI Hk Hd Hs) as ([q|e] & st & τ & Hrun & Hleft & Hput).
  - assert (Hg : good (update_status v k (set_status_cidr nw (Prefix_String q))) (mkSys st τ (s_nets w))).
    { apply good_write; [done|]. intros cur Hc _. cbn in Hc. rewrite Hk in Hc. injection Hc as <-.
      unfold stored. cbn [n_Deleting set_status_cidr]. rewrite Hd. by apply Hput. }
    destruct Hg as (w' & r & Hw & HI'). exists w', r. split; [|done].
    rewrite (K_bind_ok _ _ _ (mkSys st τ (s_nets w)) (Prefix_String q)); [done|]. cbn [getRemappedCIDR daemon_client cl_NetworkAcquire].
    by rewrite (K_bind_ok _ _ _ (mkSys st τ (s_nets w)) q) by (by apply rpc_ok).
  - exists (mkSys st τ (s_nets w)), (Err OtherErr). split; [|done]. unfold mbind, K_bind. cbn [getRemappedCIDR daemon_client cl_NetworkAcquire].
    unfold mbind, K_bind. by rewrite (rpc_err _ _ _ _ _ Hrun).
Qed.

(** *** Releasing *)

Lemma holds_inj nw q x : holds nw q = true → holds nw x = true → x = q.
Proof.
  unfold holds. intros [Hq%bool_decide_eq_true _]%andb_true_iff [Hx%bool_decide_eq_true _]%andb_true_iff. congruence.
Qed.

Lemma release_put w st τ k nw p o : Inv w → s_nets w !! k = Some nw → holds nw p = true → reachable clock ps st → past clock st τ →
  (∀ x, refs st x = refs (s_ipam w) x + if decide (x = p) then after_release (refs (s_ipam w) p) else 0) →
  (∀ q, share o q = 0) → (∀ nw', o = Some nw' → admissible nw') →
  Inv (put k o (mkSys st τ (s_nets w))).
Proof.
  intros HI Hk Hh Hr Hp Hrc Ho Hadm. pose proof (refs_low _ p (inv_reachable _ HI)) as Hlow.
  unfold after_release, release_delta in Hrc. apply Inv_put; auto.
  - intros x Hx. rewrite Ho, Hk, Hrc. simpl. destruct (decide (x = p)) as [->|E]; [rewrite Hh|].
    + case_decide; [lia|]. destruct (Z.eqb_spec (refs (s_ipam w) p) (-1)); lia.
    + destruct (holds nw x) eqn:Hx'; [|lia]. by pose proof (holds_inj _ _ _ Hh Hx').
  - intros k' nw' x Hne Hk' Hh' Hx. rewrite Hrc. destruct (decide (x = p)) as [->|E]; [|by rewrite Z.add_0_r].
    pose proof (holders_two p _ k k' nw nw' ltac:(done) Hk Hk' Hh Hh'). pose proof (inv_count _ HI p Hx).
    case_decide; [lia|]. destruct (Z.eqb_spec (refs (s_ipam w) p) (-1)); lia.
  - intros nw' x -> Hh' Hx. specialize (Ho x). simpl in Ho. by rewrite Hh' in Ho.
Qed.

(** What the last update leaves of a Network that is being deleted. *)
Definition finalized (nw : NetworkObj) : option NetworkObj :=
  stored (set_net_finalizers nw (List.filter (fun f => negb (bool_decide (f = ipamNetworkFinalizer))) (n_Finalizers nw))).

Lemma finalized_share nw q : n_Deleting nw = true → share (finalized nw) q = 0.
Proof.
  intros Hd. unfold finalized, stored. case_match; [done|]. simpl. unfold holds, in_use. cbn. rewrite Hd. cbn [negb orb].
  rewrite (bool_decide_false (_ ∈ _)), andb_false_r; [done|]. rewrite list_elem_of_In, filter_In. intros [_ H']. by rewrite bool_decide_true in H'.
Qed.
Lemma finalized_admissible nw nw' : admissible nw → finalized nw = Some nw' → admissible nw'.
Proof. unfold finalized, stored. intros H. case_match; [done|]. by intros [= <-]. Qed.

Definition cleanup (v : verdict) (k : nkey) (nw : NetworkObj) : K sys () :=
  update v k (set_net_finalizers (set_status_cidr nw "") (List.filter (fun f => negb (bool_decide (f = ipamNetworkFinalizer))) (n_Finalizers nw))).

Lemma cleanup_runs v k nw w : s_nets w !! k = Some nw → ∃ r, cleanup v k nw w =
  Ret (match v with Refused => w | _ => put k (finalized nw) w end, r).
Proof.
  intros Hk. unfold cleanup, update, write. rewrite Hk. unfold finalized. destruct nw as [[] ? ? ? ?], v; eexists; reflexivity.
Qed.

Lemma good_release w k nw v : Inv w → s_nets w !! k = Some nw → n_Deleting nw = true → ipamNetworkFinalizer ∈ n_Finalizers nw →
  (releases nw = true → v ≠ Refused) →
  good (_ ← (if bool_decide (nr_status_cidr (n_res nw) = ""%string) then mret ()
             else match ParseCIDR (nr_status_cidr (n_res nw)) with
                  | None => Kube.fail OtherErr
                  | Some _ => deleteRemappedCIDR (Some (daemon_client clock graphviz dumps)) (nr_status_cidr (n_res nw))
                  end); cleanup v k nw) w.
Proof using T Hdump.
  intros HI Hk Hd Hf Hv. unfold releases in Hv. rewrite Hd, (bool_decide_true _ Hf) in Hv. cbn [andb] in Hv.
  case_bool_decide as Hs.
  { destruct (cleanup_runs v k nw w Hk) as [r Hc]. do 2 eexists. split; [exact Hc|].
    destruct w as [st τ m]. assert (Inv (put k (finalized nw) (mkSys st τ m))); [|by destruct v].
    apply (Inv_same (mkSys st τ m)); try done; [apply HI|apply HI|..].
    - intros q. rewrite finalized_share by done. apply share_range.
    - intros nw' Hnw. exists nw. split; [done|]. unfold finalized, stored in Hnw. case_match; [done|]. by injection Hnw as <-.
    - intros nw'. apply finalized_admissible, (inv_admissible _ HI k nw Hk). }
  destruct (ParseCIDR _) as [n|]; [|by exists w, (Err OtherErr)]. cbn [deleteRemappedCIDR daemon_client cl_NetworkRelease].
  destruct (ParsePrefix (nr_status_cidr (n_res nw))) as [p|] eqn:Hp.
  2:{ exists w, (Err OtherErr). split; [|done]. unfold mbind, K_bind. erewrite rpc_err; [|unfold NetworkRelease_handler, parse_prefix; by rewrite Hp].
      by destruct w. }
  destruct (wp_inv _ _ _ (NetworkRelease_handler_spec clock ps graphviz dumps Hdump _ _ p _ (inv_reachable _ HI) (inv_past _ HI) Hp))
    as ([res st] & τ & Hrun & -> & Hr & Hpast & Hrc).
  destruct (cleanup_runs v k nw (mkSys st τ (s_nets w)) Hk) as [r Hc]. do 2 eexists.
  split; [rewrite (K_bind_ok _ _ _ (mkSys st τ (s_nets w)) ()) by (by apply rpc_ok); exact Hc|].
  assert (Inv (put k (finalized nw) (mkSys st τ (s_nets w)))); [|by destruct v; [| |destruct Hv]].
  apply (release_put w st τ k nw p); auto.
  - unfold holds, in_use. by rewrite Hp, Hd, !bool_decide_true.
  - intros q. by apply finalized_share.
  - intros nw'. apply finalized_admissible, (inv_admissible _ HI k nw Hk).
Qed.

(** *** Every step *)

Lemma good_reconcile v k w : Inv w → (∀ nw, s_nets w !! k = Some nw → releases nw = true → v ≠ Refused) →
  good (reconcile clock graphviz dumps v k) w.
Proof using T Hdump.
  intros HI Hv. unfold good, reconcile. destruct (s_nets w !! k) as [nw|] eqn:Hk; [|by exists w, (Ok ())].
  specialize (Hv nw eq_refl). cbn [NetworkReconcile]. unfold handleNetworkStatus.
  destruct (n_Deleting nw) eqn:Hd; cbn [negb].
  - case_bool_decide as Hf; [|by exists w, (Ok ())]. by apply good_release.
  - destruct (negb _ && _).
    + destruct (update_returns v k (set_net_finalizers nw (n_Finalizers nw ++ [ipamNetworkFinalizer])) w) as (w' & r & Hw). exists w', r. split; [exact Hw|]. by eapply Inv_add_finalizer.
    + case_bool_decide; [by apply good_acquire|by exists w, (Ok ())].
Qed.

Lemma rpc_inv {A} (m : SM A) w w' r : rpc m w = Ret (w', r) →
  ∃ a st τ, m (s_ipam w) (s_tick w) = Ret ((a, st), τ) ∧ w' = mkSys st τ (s_nets w).
Proof.
  unfold rpc. destruct (m _ _) as [[[[a|e] st] τ]| |]; intros [= <- <-]; eauto.
Qed.

Lemma Inv_ip_request {A} (m : SM A) w w' r : Inv w → keeps_refs clock ps m → ageing clock m → rpc m w = Ret (w', r) → Inv w'.
Proof.
  intros HI Hk Ha (a & st & τ & Hrun & ->)%rpc_inv.
  pose proof (Hk _ (s_tick w) (inv_reachable _ HI)) as Hw. unfold wp in Hw. rewrite Hrun in Hw. destruct Hw.
  destruct (Ha _ _ (inv_past _ HI) _ _ Hrun). by apply Inv_daemon.
Qed.

Lemma step_Inv w w' : Inv w → step clock graphviz dumps w w' → Inv w'.
Proof using T Hdump.
  intros HI [k nw Hk (Hs & Hd & Hf) Hadm|k nw nw' Hk (Hs & Hd & Hf & Hc & Hp & He)|k nw Hk|v k w1 r Hv Hrun|c w1 r Hrun|i c w1 r Hrun|w1 Hi Hn Ht].
  - destruct w as [st τ m]. apply (Inv_put (mkSys st τ m)); auto; [apply HI|apply HI|..].
    + intros q Hq. rewrite Hk. simpl. rewrite not_holding by done. lia.
    + intros nw' q [= <-] Hh. by rewrite not_holding in Hh.
    + by intros nw' [= <-].
  - destruct w as [st τ m]. apply (Inv_same (mkSys st τ m)); auto; [apply HI|apply HI|..].
    + intros q. rewrite Hk. simpl. rewrite (holds_ext nw) by (unfold in_use; by rewrite ?Hd, ?Hf). done.
    + intros nw1 [= <-]. eauto.
    + intros nw1 [= <-]. pose proof (inv_admissible _ HI k nw Hk). unfold admissible. by rewrite Hc, Hp.
  - destruct w as [st τ m]. apply (Inv_same (mkSys st τ m)); auto; [apply HI|apply HI|..]; unfold stored; rewrite ?Hk.
    + intros q. case_match; [apply share_range|]. simpl. unfold holds, in_use. cbn.
      destruct (n_Deleting nw), (bool_decide (_ = Some _)), (bool_decide (_ ∈ _)); simpl; lia.
    + intros nw1. case_match; [done|]. intros [= <-]. by exists nw.
    + intros nw1. case_match; [done|]. intros [= <-]. by apply (inv_admissible _ HI k nw).
  - destruct (good_reconcile v k w HI Hv) as (w2 & r2 & E & HI2). rewrite Hrun in E. by injection E as <- <-.
  - cbn [daemon_client cl_IPAcquire] in Hrun. apply K_bind_inv in Hrun as [(a & w2 & Hw & Hret)|(e & Hw & _)].
    + injection Hret as <- _. eapply Inv_ip_request; [done|apply keeps_refs_IPAcquire_handler|by apply ageing_IPAcquire_handler|done].
    + eapply Inv_ip_request; [done|apply keeps_refs_IPAcquire_handler|by apply ageing_IPAcquire_handler|done].
  - eapply Inv_ip_request; [done|apply keeps_refs_IPRelease_handler|by apply ageing_IPRelease_handler|exact Hrun].
  - destruct w1 as [st τ m]. cbn in *. subst. apply Inv_daemon; [done|apply HI| |done].
    eapply past_later; [apply T|exact Ht|apply HI].
Qed.

Lemma history_Inv w : history clock ps graphviz dumps w → Inv w.
Proof using T Hdump.
  induction 1 as [w Hr Hp Hn|w w' _ HI Hs]; [|by eapply step_Inv].
  split; [done|done|..]; rewrite Hn.
  - intros q _. unfold holders. rewrite map_filter_empty, map_size_empty. lia.
  - intros k nw q Hk. by rewrite lookup_empty in Hk.
  - intros k nw Hk. by rewrite lookup_empty in Hk.
Qed.
End life.

(** ** Properties *)

(** What a reconciliation leaves. *)
Definition after (clock : nat → Z) (graphviz : bool) (dumps : Ipam → bool) (v : verdict) (k : nkey) (w : sys) : sys :=
  match reconcile clock graphviz dumps v k w with Ret (w', _) => w' | _ => w end.

Lemma reconcile_history clock (T : Ticking clock) ps graphviz dumps w v k :
  (∀ st, graphviz && negb (dumps st) = false) → history clock ps graphviz dumps w →
  (∀ nw, s_nets w !! k = Some nw → releases nw = true → v ≠ Refused) →
  ∃ r, reconcile clock graphviz dumps v k w = Ret (after clock graphviz dumps v k w, r) ∧
    history clock ps graphviz dumps (after clock graphviz dumps v k w).
Proof.
  intros Hdump Hh Hv. destruct (good_reconcile clock ps graphviz dumps Hdump v k w) as (w' & r & E & _);
    [by apply (history_Inv clock ps graphviz dumps)|done|].
  exists r. unfold after. rewrite E. split; [done|]. eapply history_step; [done|]. by eapply step_reconcile.
Qed.



Definition with_finalizer (nw : NetworkObj) : NetworkObj := set_net_finalizers nw (n_Finalizers nw ++ [ipamNetworkFinalizer]).

(** The two useful reconciliations of a new Network. *)
Lemma reconcile_finalizer clock graphviz dumps w k nw : s_nets w !! k = Some nw → n_Deleting nw = false →
  ipamNetworkFinalizer ∉ n_Finalizers nw → preinstalled (n_Annotations nw) = false →
  reconcile clock graphviz dumps Applied k w = Ret (put k (Some (with_finalizer nw)) w, Ok ()).
Proof.
  intros Hk Hd Hf Hpre. unfold reconcile. rewrite Hk. cbn [NetworkReconcile]. unfold handleNetworkStatus.
  rewrite Hd, Hpre, bool_decide_false by done. cbn [negb andb]. unfold update, write. rewrite Hk. unfold stored.
  destruct nw as [[] ? ? ? ?]. cbn in Hd |- *. by subst.
Qed.
Lemma reconcile_status clock graphviz dumps w k nw p st τ : s_nets w !! k = Some nw → n_Deleting nw = false →
  ipamNetworkFinalizer ∈ n_Finalizers nw → nr_status_cidr (n_res nw) = ""%string →
  NetworkAcquire_handler clock graphviz dumps (request_of nw) (s_ipam w) (s_tick w) = Ret ((Ok p, st), τ) →
  reconcile clock graphviz dumps Applied k w = Ret (put k (Some (set_status_cidr nw (Prefix_String p))) (mkSys st τ (s_nets w)), Ok ()).
Proof.
  intros Hk Hd Hf Hs Hrun. unfold reconcile. rewrite Hk. cbn [NetworkReconcile]. unfold handleNetworkStatus.
  rewrite Hd, (bool_decide_true _ Hf). cbn [negb andb]. rewrite (bool_decide_true _ Hs). unfold getRemappedCIDR.
  cbn [daemon_client cl_NetworkAcquire]. erewrite K_bind_ok; [|erewrite K_bind_ok; [reflexivity|apply rpc_ok; exact Hrun]].
  unfold update_status, write. cbn [s_nets]. rewrite Hk. unfold stored. cbn [n_Deleting set_status_cidr]. by rewrite Hd.
Qed.

(** A Network obtains the prefix it asks for.  In every such history, a new
    Network whose prefix lies in a pool, is free, and has room for the preallocated
    addresses, ends with exactly this prefix in its status and the finalizer that
    protects it, after two reconciliations that return and whose writes are applied. *)
Theorem network_obtains_prefix clock (T : Ticking clock) ps graphviz dumps w k nw p :
  (∀ st, graphviz && negb (dumps st) = false) → history clock ps graphviz dumps w →
  s_nets w !! k = Some nw → fresh nw → preinstalled (n_Annotations nw) = false →
  ParsePrefix (nr_spec_cidr (n_res nw)) = Some p → wf4 p → in_pools ps p →
  can_acquire (refs (s_ipam w)) p (is_exclusive nw) → n_PreAllocated nw ≤ pBits p → n_PreAllocated nw ≤ psize p →
  ∃ w1 w2 nw2, reconcile clock graphviz dumps Applied k w = Ret (w1, Ok ()) ∧
    reconcile clock graphviz dumps Applied k w1 = Ret (w2, Ok ()) ∧
    s_nets w2 !! k = Some nw2 ∧ nr_status_cidr (n_res nw2) = Prefix_String p ∧ holds nw2 p = true ∧
    ipamNetworkFinalizer ∈ n_Finalizers nw2.
Proof.
  intros Hdump Hh Hk (Hs & Hd & Hf) Hpre Hp Hw Hin Hc Hn1 Hn2.
  pose proof (history_Inv clock ps graphviz dumps Hdump w Hh) as HI.
  destruct (inv_admissible _ _ _ HI k nw Hk) as [Hn0 _].
  destruct (wp_inv _ _ _ (NetworkAcquire_handler_grants clock ps graphviz dumps Hdump (s_ipam w) (request_of nw) p (s_tick w)
    (inv_reachable _ _ _ HI) (inv_past _ _ _ HI) Hp Hw Hin Hc Hn0 Hn1 Hn2)) as ([r st] & τ & Hrun & ->).
  assert (Hk1 : s_nets (put k (Some (with_finalizer nw)) w) !! k = Some (with_finalizer nw)).
  { cbn. by rewrite lookup_partial_alter, decide_True. }
  assert (Hfin : ipamNetworkFinalizer ∈ n_Finalizers (with_finalizer nw)) by (apply elem_of_app; right; left).
  do 2 eexists. exists (set_status_cidr (with_finalizer nw) (Prefix_String p)).
  split; [by apply reconcile_finalizer|]. split; [by apply (reconcile_status _ _ _ _ _ _ p st τ Hk1)|].
  split; [cbn; by rewrite lookup_partial_alter, decide_True|]. split; [done|]. split; [|done].
  rewrite holds_granted, bool_decide_true by (auto with liqo || by destruct Hw). unfold in_use. cbn. by rewrite Hd.
Qed.

(** ** Addresses *)

Lemma K_bind_ext {W A B} (m : K W A) (f g : A → K W B) w : (∀ a w1, m w = Ret (w1, Ok a) → f a w1 = g a w1) → (m ≫= f) w = (m ≫= g) w.
Proof. intros H. unfold mbind, K_bind. destruct (m w) as [[w1 [a|e]]| |]; auto. Qed.

(** The finalizer of an IP goes after its address.  Whatever the daemon, the
    services and the API server answer: if [P] holds once the daemon has confirmed
    the release and the other calls do not undo it, then the update that removes the
    finalizer is only ever sent in worlds where [P] holds (two updates that agree
    there cannot be told apart). *)
Theorem ip_finalizer_after_release {W} (c : IpamClient W) (u u' us : IPRes → K W IPRes) (cl : Client W svc_payload) (P : W → Prop) ip w :
  i_StatusIP ip ≠ ""%string → i_StatusCIDR ip ≠ ""%string →
  (∀ w1 w2, cl_IPRelease c (i_StatusIP ip) (i_StatusCIDR ip) w1 = Ret (w2, Ok ()) → P w2) →
  (∀ x, preserves P (us x)) → (∀ k, preserves P (c_Get cl k)) → (∀ k, preserves P (c_Delete cl k)) →
  (∀ x w1, P w1 → u x w1 = u' x w1) →
  delete_ip (Some c) u us cl ip w = delete_ip (Some c) u' us cl ip w.
Proof.
  intros H1 H2 Hrel Hus Hget Hdel Hu. unfold delete_ip. apply K_bind_ext. intros ip1 w1 Hw1.
  unfold handleIPStatusDeletion in Hw1. rewrite !bool_decide_false in Hw1 by done. cbn [negb andb] in Hw1.
  apply K_bind_inv in Hw1 as [([] & w2 & Hr & Hs)|(e & _ & He)]; [|done].
  apply Hrel in Hr. apply Hus in Hs; [|done].
  assert (Habs : preserves P (ensureAssociatedServiceAbsence cl ip1)).
  { unfold ensureAssociatedServiceAbsence, ensureResourceAbsence. preserve. }
  apply K_bind_ext. intros [] w3 Hw3. apply Habs in Hw3; [|done].
  case_bool_decide; [|done]. unfold mbind, K_bind. by rewrite Hu.
Qed.

(** ** Concrete histories *)

Definition life_pools : list Prefix := [net4 10 0 0 0 8].
Definition life_start : sys := mkSys (state_of (run_from ticks life_pools [])) 10 ∅.
Definition life_net (name cidr : string) (l : option labels) : NetworkObj :=
  mkNetworkObj (mkNetworkRes name "liqo" l cidr "") None 0 [] false.
Definition nkey_of (name : string) : nkey := ("liqo"%string, name).
Definition life_create (nw : NetworkObj) (w : sys) : sys := put (nkey_of (NetworkLabels.nr_name (n_res nw))) (Some nw) w.
Definition life_delete (name : string) (w : sys) : sys :=
  match s_nets w !! nkey_of name with Some nw => put (nkey_of name) (stored (set_deleting nw)) w | None => w end.
Notation rec v name := (after ticks false (fun _ => true) v (nkey_of name)).
Definition shared_labels : labels :=
  {[ NetworkNotRemappedLabelKey := "true"%string; NetworkSharedLabelKey := "true"%string ]}.
Definition life_status (w : sys) (name : string) : option (string * bool * bool) :=
  match s_nets w !! nkey_of name with
  | Some nw => Some (nr_status_cidr (n_res nw), in_use nw, is_exclusive nw)
  | None => None
  end.

Definition twice (v : verdict) (name : string) (w : sys) : sys := rec v name (rec v name w).

(** A refused write breaks the isolation.  Two Networks share 10.2.0.0/16 and one
    is deleted: the daemon releases its share, the update that removes the finalizer
    is refused (a conflict, say), and the next reconciliation releases again, because
    the status still names the prefix.  The share of the other Network is gone, and a
    Network that wants the prefix for itself obtains it while the other still uses
    it. *)
Theorem refused_write_breaks_isolation :
  let w := twice Applied "d" (life_create (life_net "d" "10.2.0.0/16" (Some shared_labels))
             (twice Applied "a" (life_create (life_net "a" "10.2.0.0/16" (Some shared_labels)) life_start))) in
  let w' := rec Applied "a" (rec Refused "a" (life_delete "a" w)) in
  let w'' := twice Applied "e" (life_create (life_net "e" "10.2.0.0/16" None) w') in
  (life_status w "a", life_status w "d", life_status w' "a") =
    (Some ("10.2.0.0/16"%string, true, false), Some ("10.2.0.0/16"%string, true, false), None) ∧
  (life_status w'' "d", life_status w'' "e") =
    (Some ("10.2.0.0/16"%string, true, false), Some ("10.2.0.0/16"%string, true, true)).
Proof. cbv zeta. split; vm_compute; reflexivity. Qed.

(** ** Witnesses *)

Lemma life_start_history : history ticks life_pools false (fun _ => true) life_start.
Proof.
  apply history_init.
  - apply (reachable_run ticks _ []); [apply example_pool|by intros o ?%not_elem_of_nil|reflexivity].
  - apply Forall_forall. intros t Ht. apply olderb_spec.
    apply (proj1 (forallb_true_iff (olderb (ticks 10)) (roots (s_ipam life_start)))); [|done]. vm_compute. reflexivity.
  - reflexivity.
Qed.

Definition life_a : NetworkObj := life_net "a" "10.1.0.0/16" None.
Definition life_b : NetworkObj := life_net "b" "10.1.0.0/16" None.
Definition life_one : sys := life_create life_a life_start.
Definition life_two : sys := life_create life_b (twice Applied "a" life_one).
Definition life_end : sys := twice Applied "b" life_two.
Definition life_done (name cidr : string) : NetworkObj :=
  mkNetworkObj (mkNetworkRes name "liqo" None "10.1.0.0/16" cidr) None 0 [ipamNetworkFinalizer] false.

Lemma life_fresh name : fresh (life_net name "10.1.0.0/16" None).
Proof. split_and!; [done|done|]. by intros ?%not_elem_of_nil. Qed.
Lemma life_admissible name : admissible (life_net name "10.1.0.0/16" None).
Proof. split; [done|]. intros p Hp. vm_compute in Hp. by injection Hp as <-. Qed.
Lemma twice_history name w : history ticks life_pools false (fun _ => true) w →
  history ticks life_pools false (fun _ => true) (twice Applied name w).
Proof.
  intros H. unfold twice.
  destruct (reconcile_history ticks ticks_ticking life_pools false (fun _ => true) w Applied (nkey_of name)) as (_ & _ & H1); [done..|].
  by destruct (reconcile_history ticks ticks_ticking life_pools false (fun _ => true) (rec Applied name w) Applied (nkey_of name)) as (_ & _ & ?).
Qed.
Lemma life_one_history : history ticks life_pools false (fun _ => true) life_one.
Proof. eapply history_step; [apply life_start_history|]. apply step_create; [done|apply life_fresh|apply life_admissible]. Qed.
Lemma life_two_history : history ticks life_pools false (fun _ => true) life_two.
Proof.
  eapply history_step; [apply twice_history, life_one_history|].
  apply step_create; [vm_compute; reflexivity|apply life_fresh|apply life_admissible].
Qed.
Ltac in_life_pool := exists (net4 10 0 0 0 8); split; [left|split_and!; vm_compute; done].


Lemma life_start_free x : refs (s_ipam life_start) x = 0.
Proof.
  assert (E : s_ipam life_start = mkIpam [Node (mkNode (ticks 0) (net4 10 0 0 0 8) 0 [] zeroAddr) Nil Nil]) by (vm_compute; reflexivity).
  rewrite E. unfold refs, roots_rc. simpl. by case_decide.
Qed.

Lemma network_obtains_prefix_witness :
  ∃ w1 w2 nw2, reconcile ticks false (fun _ => true) Applied (nkey_of "a") life_one = Ret (w1, Ok ()) ∧
    reconcile ticks false (fun _ => true) Applied (nkey_of "a") w1 = Ret (w2, Ok ()) ∧
    s_nets w2 !! nkey_of "a" = Some nw2 ∧ nr_status_cidr (n_res nw2) = "10.1.0.0/16"%string ∧ holds nw2 (net4 10 1 0 0 16) = true ∧
    ipamNetworkFinalizer ∈ n_Finalizers nw2.
Proof.
  change "10.1.0.0/16"%string with (Prefix_String (net4 10 1 0 0 16)).
  apply (network_obtains_prefix ticks ticks_ticking life_pools false (fun _ => true) life_one (nkey_of "a") life_a (net4 10 1 0 0 16));
    [done|apply life_one_history|vm_compute; reflexivity|apply life_fresh|done|vm_compute; reflexivity|..].
  - split; vm_compute; done.
  - in_life_pool.
  - intros x Hx. by rewrite life_start_free in Hx.
  - vm_compute. discriminate.
  - vm_compute. discriminate.
Defined.

(** A world that logs the calls. *)
Definition log_client : IpamClient (list string) := mkIpamClient
  (fun _ l => Ret (l, Err OtherErr)) (fun _ l => Ret (l, Err OtherErr)) (fun _ l => Ret (l, Err OtherErr))
  (fun a c l => Ret (l ++ ["release"%string], Ok ())).
Definition log_svc : Client (list string) svc_payload := mkClient
  (fun _ l => Ret (l, Err NotFound)) (fun _ _ _ l => Ret (l, Ok [])) (fun _ o l => Ret (l, Ok o)) (fun _ o l => Ret (l, Ok o)) (fun _ l => Ret (l, Ok ())).
Definition log_update (what : string) (x : IPRes) : K (list string) IPRes := fun l => Ret (l ++ [what], Ok x).
Definition log_late (x : IPRes) : K (list string) IPRes := fun l =>
  if bool_decide ("release"%string ∈ l) then Ret (l ++ ["finalizer"%string], Ok x) else Panic.
Definition log_ip : IPRes := mkIPRes "svc" "default" "u1" ∅ None [ipamIPFinalizer] true "10.0.0.9" None None "10.1.0.4" "10.1.0.0/16".

Lemma ip_finalizer_after_release_witness :
  delete_ip (Some log_client) (log_update "finalizer") (log_update "status") log_svc log_ip [] =
    delete_ip (Some log_client) log_late (log_update "status") log_svc log_ip [] ∧
  match delete_ip (Some log_client) (log_update "finalizer") (log_update "status") log_svc log_ip [] with
  | Ret (l, Ok _) => bool_decide (l = ["release"; "status"; "finalizer"]%string)
  | _ => false
  end = true.
Proof.
  split; [|vm_compute; reflexivity].
  apply (ip_finalizer_after_release log_client (log_update "finalizer") log_late (log_update "status") log_svc (fun l => "release"%string ∈ l) log_ip);
    [done|done|..].
  - intros l l' [= <-]. apply elem_of_app. right. left.
  - intros x l l' r Hl [= <- _]. apply elem_of_app. by left.
  - by intros k l l' r Hl [= <- _].
  - by intros k l l' r Hl [= <- _].
  - intros x l Hl. unfold log_late. by rewrite bool_decide_true.
Defined.
