(* ===== verification/PodWebhook.v ===== *)
(** * PodWebhook: where the pods of an offloaded namespace may run
      (src/pkg/webhooks/pod/{pod,mutations}.go, src/pkg/utils/nodeUtils.go)

    The mutating webhook of pods adds a toleration for virtual nodes and a node
    selector that follows the strategy of the NamespaceOffloading.  What a node
    selector and a toleration accept is the documented meaning of the Kubernetes
    API. *)

From S2P Require Export Kube Netip.
From Stdlib Require Import Ascii.
Local Open Scope Z_scope.

(** ** Node selectors *)

Inductive NodeSelectorOperator := OpIn | OpNotIn | OpExists | OpDoesNotExist | OpGt | OpLt.
Record NodeSelectorRequirement := mkRequirement { rq_Key : string; rq_Operator : NodeSelectorOperator; rq_Values : list string }.
Record NodeSelectorTerm := mkNodeSelectorTerm { MatchExpressions : list NodeSelectorRequirement; MatchFields : list NodeSelectorRequirement }.
(** The list of terms of a selector. *)
Notation NodeSelector := (list NodeSelectorTerm).

Record Taint := mkTaint { ta_Key : string; ta_Value : string; ta_Effect : string }.
Record Node := mkNode { nd_Name : string; nd_Labels : labels; nd_Taints : list Taint }.

(** [strconv.ParseInt(s, 10, 64)]. *)
Definition in_int64 (n : Z) : option Z := if (- 2 ^ 63 <=? n) && (n <? 2 ^ 63) then Some n else None.
Definition ParseInt (s : string) : option Z :=
  match s with
  | EmptyString => None
  | String c r =>
    if bool_decide (c = "-"%char) then match r with EmptyString => None | _ => n ← atoi_run r 0; in_int64 (- n) end
    else if bool_decide (c = "+"%char) then match r with EmptyString => None | _ => n ← atoi_run r 0; in_int64 n end
    else n ← atoi_run s 0; in_int64 n
  end.

(** "The requirements are ANDed; the terms are ORed.  A null or empty node selector
    term matches no objects."  The one field is the name of the node. *)
Definition compare_int (f : Z → Z → bool) (v : option string) (values : list string) : bool :=
  match v ≫= ParseInt, values with
  | Some a, [s] => match ParseInt s with Some b => f a b | None => false end
  | _, _ => false
  end.
Definition matches_requirement (m : labels) (r : NodeSelectorRequirement) : bool :=
  let v := m !! rq_Key r in
  match rq_Operator r with
  | OpIn => match v with Some x => bool_decide (x ∈ rq_Values r) | None => false end
  | OpNotIn => match v with Some x => negb (bool_decide (x ∈ rq_Values r)) | None => true end
  | OpExists => match v with Some _ => true | None => false end
  | OpDoesNotExist => match v with Some _ => false | None => true end
  | OpGt => compare_int Z.gtb v (rq_Values r)
  | OpLt => compare_int Z.ltb v (rq_Values r)
  end.
Definition node_fields (n : Node) : labels := {[ "metadata.name"%string := nd_Name n ]}.
Definition empty_term (t : NodeSelectorTerm) : bool :=
  bool_decide (MatchExpressions t = nil) && bool_decide (MatchFields t = nil).
Definition matches_term (n : Node) (t : NodeSelectorTerm) : bool :=
  negb (empty_term t) && forallb (matches_requirement (nd_Labels n)) (MatchExpressions t) &&
  forallb (matches_requirement (node_fields n)) (MatchFields t).
Definition matches_selector (n : Node) (s : NodeSelector) : bool := existsb (matches_term n) s.

(** nodeUtils.go *)

Definition TypeLabel : string := "liqo.io/type".
Definition TypeNode : string := "virtual-node".
Definition RemoteClusterIDLabel : string := "liqo.io/remote-cluster-id".

Definition IsVirtualNode (n : Node) : bool :=
  match nd_Labels n !! TypeLabel with Some t => bool_decide (t = TypeNode) | None => false end.
Definition GetNodeClusterID (n : Node) : option string :=
  match nd_Labels n !! RemoteClusterIDLabel with
  | Some id => if bool_decide (id = ""%string) then None else Some id
  | None => None
  end.
(** Every pair of terms, the terms of the first selector outermost. *)
Definition MergeNodeSelector (ns1 ns2 : NodeSelector) : NodeSelector :=
  t1 ← ns1; t2 ← ns2; [mkNodeSelectorTerm (MatchExpressions t1 ++ MatchExpressions t2) []].

(** ** Pods *)

Record Toleration := mkToleration { to_Key : string; to_Operator : string; to_Value : string; to_Effect : string }.
(** The parts of an affinity the webhook does not look at are texts. *)
Record NodeAffinity := mkNodeAffinity { na_Required : option NodeSelector; na_Preferred : string }.
Record Affinity := mkAffinity { af_Node : option NodeAffinity; af_Others : string }.
Record Pod := mkPod { po_RuntimeClassName : option string; po_Tolerations : list Toleration; po_Affinity : option Affinity }.

(** "An empty key with operator Exists matches all keys; an empty effect matches all
    effects; an empty operator is Equal." *)
Definition tolerates (t : Toleration) (x : Taint) : bool :=
  (bool_decide (to_Effect t = ""%string) || bool_decide (to_Effect t = ta_Effect x)) &&
  (if bool_decide (to_Operator t = "Exists"%string)
   then bool_decide (to_Key t = ""%string) || bool_decide (to_Key t = ta_Key x)
   else (bool_decide (to_Operator t = ""%string) || bool_decide (to_Operator t = "Equal"%string)) &&
        bool_decide (to_Key t = ta_Key x) && bool_decide (to_Value t = ta_Value x)).
Definition hard_taint (x : Taint) : bool := negb (bool_decide (ta_Effect x = "PreferNoSchedule"%string)).
Definition required_terms (p : Pod) : option NodeSelector := a ← po_Affinity p; na ← af_Node a; na_Required na.
(** The required node affinity accepts the node. *)
Definition affinity_allows (p : Pod) (n : Node) : bool :=
  match required_terms p with None => true | Some s => matches_selector n s end.
Definition taints_allow (p : Pod) (n : Node) : bool :=
  forallb (fun x => negb (hard_taint x) || existsb (fun t => tolerates t x) (po_Tolerations p)) (nd_Taints n).
(** What the scheduler may choose, as far as taints and node affinity say. *)
Definition may_run (p : Pod) (n : Node) : bool := taints_allow p n && affinity_allows p n.

(** ** mutations.go *)

Inductive PodOffloadingStrategyType :=
| LocalPodOffloadingStrategyType | RemotePodOffloadingStrategyType | LocalAndRemotePodOffloadingStrategyType | OtherPodStrategy (s : string).
#[export] Instance PodOffloadingStrategyType_eq_dec : EqDecision PodOffloadingStrategyType.
Proof. solve_decision. Defined.

Definition VirtualNodeTolerationKey : string := "virtual-node.omni.cast.ai/not-allowed".
Definition getVirtualNodeToleration : Toleration := mkToleration VirtualNodeTolerationKey "Exists" "" "NoExecute".
Definition createTolerationFromNamespaceOffloading (s : PodOffloadingStrategyType) : option Toleration :=
  match s with
  | LocalAndRemotePodOffloadingStrategyType | RemotePodOffloadingStrategyType => Some getVirtualNodeToleration
  | LocalPodOffloadingStrategyType => Some (mkToleration "" "" "" "")
  | OtherPodStrategy _ => None
  end.

Definition virtual_only : NodeSelectorRequirement := mkRequirement TypeLabel OpIn [TypeNode].
Definition local_only : NodeSelectorRequirement := mkRequirement TypeLabel OpNotIn [TypeNode].
Definition require_virtual (t : NodeSelectorTerm) : NodeSelectorTerm := mkNodeSelectorTerm (MatchExpressions t ++ [virtual_only]) (MatchFields t).
(** The outer option is the error, the inner one a nil selector. *)
Definition createNodeSelectorFromNamespaceOffloading (strategy : PodOffloadingStrategyType) (clusterSelector : NodeSelector) :
    option (option NodeSelector) :=
  match strategy with
  | RemotePodOffloadingStrategyType =>
    let terms := match clusterSelector with [] => [mkNodeSelectorTerm [] []] | _ => clusterSelector end in
    Some (Some (require_virtual <$> terms))
  | LocalAndRemotePodOffloadingStrategyType =>
    match clusterSelector with
    | [] => Some None
    | _ => Some (Some (clusterSelector ++ [mkNodeSelectorTerm [local_only] []]))
    end
  | LocalPodOffloadingStrategyType => Some None
  | OtherPodStrategy _ => None
  end.

Definition set_pod_affinity (p : Pod) (a : Affinity) : Pod := mkPod (po_RuntimeClassName p) (po_Tolerations p) (Some a).
Definition fillPodWithTheNewNodeSelector (imposed : option NodeSelector) (p : Pod) : Pod :=
  match imposed with
  | None => p
  | Some s =>
    match po_Affinity p with
    | None => set_pod_affinity p (mkAffinity (Some (mkNodeAffinity (Some s) "")) "")
    | Some a =>
      match af_Node a with
      | None => set_pod_affinity p (mkAffinity (Some (mkNodeAffinity (Some s) "")) (af_Others a))
      | Some na =>
        let required := match na_Required na with
          | None | Some [] => s
          | Some terms => MergeNodeSelector terms s
          end in
        set_pod_affinity p (mkAffinity (Some (mkNodeAffinity (Some required) (na_Preferred na))) (af_Others a))
      end
    end
  end.

Definition add_toleration (p : Pod) (t : Toleration) : Pod := mkPod (po_RuntimeClassName p) (po_Tolerations p ++ [t]) (po_Affinity p).
Definition mutatePod (strategy : PodOffloadingStrategyType) (clusterSelector : NodeSelector) (p : Pod) (liqoRuntimeClassName : string) : option Pod :=
  if bool_decide (strategy = LocalPodOffloadingStrategyType) then Some p
  else if bool_decide (po_RuntimeClassName p = Some liqoRuntimeClassName) then Some p
  else
    t ← createTolerationFromNamespaceOffloading strategy;
    let p := add_toleration p t in
    imposed ← createNodeSelectorFromNamespaceOffloading strategy clusterSelector;
    Some (fillPodWithTheNewNodeSelector imposed p).

(** [Handle]: the decoded pod and what the client answers about the
    NamespaceOffloading; the response. *)
Inductive pod_response := PodBadRequest | PodInternalError | PodPatched (p : Pod).
Definition pod_Handle (pod : option Pod) (nsoff : result kerr (PodOffloadingStrategyType * NodeSelector)) (runtimeClassName : string) : pod_response :=
  match pod with
  | None => PodBadRequest
  | Some p =>
    match nsoff with
    | Err _ => PodInternalError
    | Ok (strategy, selector) =>
      match mutatePod strategy selector p runtimeClassName with
      | None => PodInternalError
      | Some p => PodPatched p
      end
    end
  end.

(** ** The mutated pod runs exactly where the strategy says *)

(** ** Selectors *)

(** A term that constrains labels and nothing else. *)
Definition plain (t : NodeSelectorTerm) : Prop := MatchFields t = [] ∧ MatchExpressions t ≠ [].

Lemma matches_plain n t : plain t → matches_term n t = forallb (matches_requirement (nd_Labels n)) (MatchExpressions t).
Proof.
  intros [Hf He]. unfold matches_term, empty_term. rewrite Hf, (bool_decide_false _ He). cbn [negb andb forallb].
  by rewrite andb_true_r.
Qed.
Lemma matches_appended n t l : plain t →
  matches_term n (mkNodeSelectorTerm (MatchExpressions t ++ l) []) = matches_term n t && forallb (matches_requirement (nd_Labels n)) l.
Proof.
  intros Ht. rewrite (matches_plain n t Ht), matches_plain; [apply forallb_app|]. split; [done|]. cbn.
  destruct Ht as [_ He]. by destruct (MatchExpressions t).
Qed.
Lemma virtual_only_spec n : matches_requirement (nd_Labels n) virtual_only = IsVirtualNode n.
Proof.
  unfold matches_requirement, IsVirtualNode. cbn. destruct (nd_Labels n !! TypeLabel); [|done].
  apply bool_decide_ext. by rewrite list_elem_of_singleton.
Qed.
Lemma local_only_spec n : matches_requirement (nd_Labels n) local_only = negb (IsVirtualNode n).
Proof.
  unfold matches_requirement, IsVirtualNode. cbn. destruct (nd_Labels n !! TypeLabel); [|done]. f_equal.
  apply bool_decide_ext. by rewrite list_elem_of_singleton.
Qed.

Lemma existsb_bind {A B} (f : B → bool) (g : A → list B) l : existsb f (l ≫= g) = existsb (fun a => existsb f (g a)) l.
Proof. induction l as [|a l IH]; [done|]. rewrite bind_cons, existsb_app, IH. done. Qed.
Lemma existsb_ext_in {A} (f g : A → bool) l : (∀ a, a ∈ l → f a = g a) → existsb f l = existsb g l.
Proof.
  induction l as [|a l IH]; intros H; [done|]. simpl. rewrite (H a), IH; [done|intros b Hb; apply H; by right|left].
Qed.
Lemma existsb_andb_r {A} (f : A → bool) b l : existsb (fun a => f a && b) l = existsb f l && b.
Proof. induction l as [|a l IH]; [done|]. simpl. rewrite IH. by destruct (f a), (existsb f l), b. Qed.

(** Merging is the conjunction. *)
Lemma merge_selector_spec n s1 s2 : Forall plain s1 → Forall plain s2 →
  matches_selector n (MergeNodeSelector s1 s2) = matches_selector n s1 && matches_selector n s2.
Proof.
  intros H1 H2. unfold matches_selector, MergeNodeSelector. rewrite existsb_bind, <- existsb_andb_r.
  apply existsb_ext_in. intros t1 Ht1. rewrite existsb_bind. rewrite Forall_forall in H1, H2.
  rewrite (andb_comm (matches_term n t1)), <- existsb_andb_r. apply existsb_ext_in. intros t2 Ht2. simpl. rewrite orb_false_r.
  rewrite matches_appended by auto. by rewrite <- matches_plain, andb_comm by auto.
Qed.

(** ** The strategy *)

(** Where a strategy lets pods go. *)
Definition placement (strategy : PodOffloadingStrategyType) (selector : NodeSelector) (n : Node) : bool :=
  match strategy with
  | RemotePodOffloadingStrategyType => IsVirtualNode n && (bool_decide (selector = []) || matches_selector n selector)
  | LocalAndRemotePodOffloadingStrategyType => negb (IsVirtualNode n) || bool_decide (selector = []) || matches_selector n selector
  | _ => true
  end.
(** The taints of a node other than the one of virtual nodes. *)
Definition other_taints (n : Node) : Node :=
  mkNode (nd_Name n) (nd_Labels n) (List.filter (fun x => negb (tolerates getVirtualNodeToleration x)) (nd_Taints n)).

Lemma imposed_spec strategy selector s n : Forall plain selector →
  createNodeSelectorFromNamespaceOffloading strategy selector = Some (Some s) →
  Forall plain s ∧ matches_selector n s = placement strategy selector n.
Proof.
  intros Hs. destruct strategy; cbn [createNodeSelectorFromNamespaceOffloading placement]; try done.
  - destruct selector as [|t ts]; intros E.
    + injection E as <-. split; [by repeat constructor|]. cbn -[matches_term]. rewrite orb_false_r, andb_true_r.
      rewrite (matches_plain n) by (by split). cbn [forallb MatchExpressions require_virtual app]. by rewrite virtual_only_spec, andb_true_r.
    + assert (Es : s = require_virtual <$> t :: ts) by congruence. subst s. clear E. split.
      * apply Forall_fmap, (Forall_impl _ _ _ Hs). intros x [Hf He]. split; [done|]. cbn. by destruct (MatchExpressions x).
      * rewrite bool_decide_false by done. cbn [orb]. unfold matches_selector.
        rewrite andb_comm, <- existsb_andb_r. rewrite Forall_forall in Hs. generalize dependent (t :: ts). intros l Hs.
        induction l as [|x l IH]; [done|]. rewrite fmap_cons. cbn [existsb]. rewrite IH by (intros y Hy; apply Hs; by right). f_equal.
        assert (Hx : plain x) by (apply Hs; left). unfold require_virtual. pose proof Hx as [-> _].
        rewrite matches_appended by done. cbn [forallb]. by rewrite virtual_only_spec, andb_true_r.
  - destruct selector as [|t ts]; [done|]. intros E.
    assert (Es : s = (t :: ts) ++ [mkNodeSelectorTerm [local_only] []]) by congruence. subst s. split.
    + apply Forall_app. split; [done|]. by repeat constructor.
    + rewrite bool_decide_false by done. unfold matches_selector. rewrite existsb_app. cbn [existsb].
      rewrite (matches_plain n (mkNodeSelectorTerm [local_only] [])) by (by split). cbn [forallb MatchExpressions].
      rewrite local_only_spec. rewrite orb_false_r, andb_true_r, orb_false_r. apply orb_comm.
Qed.

#[local] Arguments MergeNodeSelector : simpl never.
#[local] Arguments matches_selector : simpl never.

Lemma fill_allows imposed p n : Forall plain (default [] (required_terms p)) → required_terms p ≠ Some [] →
  (∀ s, imposed = Some s → Forall plain s) →
  affinity_allows (fillPodWithTheNewNodeSelector imposed p) n =
    affinity_allows p n && match imposed with None => true | Some s => matches_selector n s end.
Proof.
  intros Hp Hne Hs. destruct imposed as [s|]; [|by rewrite andb_true_r]. specialize (Hs s eq_refl).
  unfold affinity_allows, fillPodWithTheNewNodeSelector in *. unfold required_terms in *.
  destruct (po_Affinity p) as [[[[req pref]|] oth]|]; cbn in *; [|done..].
  destruct req as [[|t ts]|]; cbn in *; [done| |done]. by rewrite merge_selector_spec.
Qed.
Lemma taints_added p n : taints_allow (add_toleration p getVirtualNodeToleration) n = taints_allow p (other_taints n).
Proof.
  unfold taints_allow, other_taints. cbn. induction (nd_Taints n) as [|x l IH]; [done|]. cbn [forallb List.filter].
  rewrite existsb_app. cbn [existsb]. rewrite orb_false_r, IH.
  destruct (tolerates getVirtualNodeToleration x); cbn [negb forallb]; [by rewrite !orb_true_r|by rewrite orb_false_r].
Qed.

(** C25: a pod of an offloaded namespace runs exactly where its NamespaceOffloading
    says.  Conditions: the strategy is Remote or LocalAndRemote; the pod does not
    have the runtime class that opts out; every term of the cluster selector and of
    the pod's required node affinity constrains labels and nothing else (a term
    with fields, that is a pod pinned to nodes by name, loses them, see
    [pinned_pod_released], and an empty term matches nothing), and a required
    affinity, if given, has a term.  Then the mutation succeeds, and the mutated pod
    may run on a node exactly when the node's taints other than the one of virtual
    nodes and the pod's own affinity allow it and the strategy does: on virtual nodes
    of the cluster selector (Remote), or on local nodes and those (LocalAndRemote). *)
Theorem mutated_pod_placement strategy selector p cls n :
  strategy = RemotePodOffloadingStrategyType ∨ strategy = LocalAndRemotePodOffloadingStrategyType →
  po_RuntimeClassName p ≠ Some cls → Forall plain selector →
  Forall plain (default [] (required_terms p)) → required_terms p ≠ Some [] →
  ∃ p', mutatePod strategy selector p cls = Some p' ∧
    may_run p' n = taints_allow p (other_taints n) && affinity_allows p n && placement strategy selector n.
Proof.
  intros Hst Hcls Hsel Hp Hne. unfold mutatePod.
  rewrite (bool_decide_false (strategy = _)) by (by destruct Hst as [-> | ->]). rewrite (bool_decide_false _ Hcls).
  assert (Ht : createTolerationFromNamespaceOffloading strategy = Some getVirtualNodeToleration) by (by destruct Hst as [-> | ->]).
  rewrite Ht. cbn [mbind option_bind].
  destruct (createNodeSelectorFromNamespaceOffloading strategy selector) as [imposed|] eqn:Hi; [|by destruct Hst as [-> | ->], selector].
  eexists. split; [reflexivity|]. unfold may_run.
  assert (Htaint : ∀ q, taints_allow (fillPodWithTheNewNodeSelector imposed q) n = taints_allow q n).
  { intros q. unfold fillPodWithTheNewNodeSelector. by repeat case_match. }
  rewrite Htaint, taints_added, fill_allows; [|done|done|intros s ->; by apply (imposed_spec strategy selector s n)].
  change (affinity_allows (add_toleration p getVirtualNodeToleration) n) with (affinity_allows p n). rewrite <- andb_assoc. do 2 f_equal.
  destruct imposed as [s|]; [by apply (imposed_spec strategy selector s n)|].
  destruct Hst as [-> | ->], selector; simpl in *; try done. by rewrite orb_true_r.
Qed.

(** A pod pinned to a node by name, as those of a DaemonSet are, loses the pin
    when its selector is merged: it may then run on every node the strategy allows. *)
Theorem pinned_pod_released strategy selector p cls name others n :
  strategy = RemotePodOffloadingStrategyType ∨ strategy = LocalAndRemotePodOffloadingStrategyType ∧ selector ≠ [] →
  po_RuntimeClassName p ≠ Some cls → Forall plain selector →
  po_Affinity p = Some (mkAffinity (Some (mkNodeAffinity (Some
    [mkNodeSelectorTerm [] [mkRequirement "metadata.name" OpIn [name]]]) "")) others) →
  nd_Taints n = [] →
  may_run p n = bool_decide (nd_Name n = name) ∧
  ∃ p', mutatePod strategy selector p cls = Some p' ∧ may_run p' n = placement strategy selector n.
Proof.
  intros Hst Hcls Hsel Hp Hn. split.
  { unfold may_run, taints_allow, affinity_allows, required_terms. rewrite Hn, Hp. cbn.
    unfold matches_selector. cbn [existsb]. rewrite orb_false_r. unfold matches_term, empty_term. cbn [MatchFields MatchExpressions forallb].
    rewrite andb_true_r. unfold matches_requirement, node_fields. cbn [rq_Key rq_Operator rq_Values]. rewrite lookup_singleton_eq.
    rewrite (bool_decide_false (_ :: _ = [])), !andb_false_r, andb_true_r by done. cbn [negb andb].
    apply bool_decide_ext. by rewrite list_elem_of_singleton. }
  unfold mutatePod. rewrite (bool_decide_false (strategy = _)) by (by destruct Hst as [->|[-> _]]). rewrite (bool_decide_false _ Hcls).
  assert (Ht : createTolerationFromNamespaceOffloading strategy = Some getVirtualNodeToleration) by (by destruct Hst as [->|[-> _]]).
  rewrite Ht. cbn [mbind option_bind].
  assert (Hi : ∃ s, createNodeSelectorFromNamespaceOffloading strategy selector = Some (Some s)).
  { destruct Hst as [->|[-> Hne]]; [by eexists|]. destruct selector; [done|by eexists]. }
  destruct Hi as [s Hi]. rewrite Hi. eexists. split; [reflexivity|].
  destruct (imposed_spec strategy selector s n Hsel Hi) as [Hs <-].
  unfold may_run, taints_allow, affinity_allows, required_terms, fillPodWithTheNewNodeSelector, add_toleration. cbn. rewrite Hp. cbn.
  rewrite Hn. cbn [forallb andb]. unfold MergeNodeSelector, matches_selector. cbn [mbind list_bind]. rewrite app_nil_r, existsb_bind.
  rewrite Forall_forall in Hs. apply existsb_ext_in. intros t Ht'. simpl. rewrite orb_false_r.
  rewrite !matches_plain; [done|by apply Hs|split; [done|by destruct (Hs t Ht')]].
Qed.

(** ** Witnesses *)

Definition ex_selector : NodeSelector := [mkNodeSelectorTerm [mkRequirement "region" OpIn ["eu"%string]] []].
Definition ex_pod : Pod := mkPod None [] (Some (mkAffinity (Some (mkNodeAffinity (Some
  [mkNodeSelectorTerm [mkRequirement "arch" OpNotIn ["arm"%string]] []]) "")) "")).
Definition ex_virtual : Node :=
  mkNode "liqo-milan" {[ TypeLabel := TypeNode; "region"%string := "eu"%string ]} [mkTaint VirtualNodeTolerationKey "true" "NoExecute"].

Lemma ex_selector_plain : Forall plain ex_selector.
Proof. by repeat constructor. Qed.

Lemma mutated_pod_placement_witness :
  ∃ p', mutatePod RemotePodOffloadingStrategyType ex_selector ex_pod "liqo" = Some p' ∧
    may_run p' ex_virtual = taints_allow ex_pod (other_taints ex_virtual) && affinity_allows ex_pod ex_virtual &&
      placement RemotePodOffloadingStrategyType ex_selector ex_virtual.
Proof.
  apply (mutated_pod_placement RemotePodOffloadingStrategyType ex_selector ex_pod "liqo" ex_virtual);
    [by left|done|apply ex_selector_plain|by repeat constructor|done].
Defined.

Definition ex_pinned : Pod := mkPod None [] (Some (mkAffinity (Some (mkNodeAffinity (Some
  [mkNodeSelectorTerm [] [mkRequirement "metadata.name" OpIn ["worker-1"%string]]]) "")) "")).
Definition ex_worker : Node := mkNode "worker-2" ∅ [].

Lemma pinned_pod_released_witness :
  may_run ex_pinned ex_worker = bool_decide (nd_Name ex_worker = "worker-1"%string) ∧
  ∃ p', mutatePod LocalAndRemotePodOffloadingStrategyType ex_selector ex_pinned "liqo" = Some p' ∧
    may_run p' ex_worker = placement LocalAndRemotePodOffloadingStrategyType ex_selector ex_worker.
Proof.
  apply (pinned_pod_released LocalAndRemotePodOffloadingStrategyType ex_selector ex_pinned "liqo" "worker-1" "" ex_worker);
    [by right|done|apply ex_selector_plain|done|done].
Defined.

Example pinned_pod_escapes :
  match mutatePod LocalAndRemotePodOffloadingStrategyType ex_selector ex_pinned "liqo" with
  | Some p' => (may_run ex_pinned ex_worker, may_run p' ex_worker)
  | None => (true, false)
  end = (false, true).
Proof. vm_compute. reflexivity. Qed.
