(* ===== verification/NsMap.v ===== *)
(** * NsMap: the controller of NamespaceMaps
      (src/pkg/liqo-controller-manager/offloading/namespacemap-controller/
       {enforcement,finalizer,namespacemap_controller}.go)

    A NamespaceMap comes from another cluster and lists the namespaces it wants
    here.  The controller creates them, binds the remote cluster to a role in each,
    deletes those no longer wanted, and reports a phase per namespace. *)

From S2P Require Export KubeClient.
From Stdlib Require Import Ascii.
Local Open Scope Z_scope.

Inductive MappingPhase := MappingAccepted | MappingCreationLoopBackOff | MappingTerminating | OtherPhase (s : string).
#[export] Instance MappingPhase_eq_dec : EqDecision MappingPhase.
Proof. solve_decision. Defined.
Record RemoteNamespaceStatus := mkRemote { RemoteNamespace : string; Phase : MappingPhase }.
#[export] Instance RemoteNamespaceStatus_eq_dec : EqDecision RemoteNamespaceStatus.
Proof. solve_decision. Defined.

(** Nil maps are empty ones: the code only reads them, or creates them before it
    writes. *)
Record NamespaceMap := mkNamespaceMap {
  nm_Name : string; nm_Namespace : string; nm_Labels : labels; nm_Finalizers : list string; nm_Deleting : bool;
  DesiredMapping : gmap string string; CurrentMapping : gmap string RemoteNamespaceStatus
}.
Definition set_nm_finalizers (nm : NamespaceMap) (l : list string) : NamespaceMap :=
  mkNamespaceMap (nm_Name nm) (nm_Namespace nm) (nm_Labels nm) l (nm_Deleting nm) (DesiredMapping nm) (CurrentMapping nm).
Definition set_current (nm : NamespaceMap) (m : gmap string RemoteNamespaceStatus) : NamespaceMap :=
  mkNamespaceMap (nm_Name nm) (nm_Namespace nm) (nm_Labels nm) (nm_Finalizers nm) (nm_Deleting nm) (DesiredMapping nm) m.

(** Namespaces and role bindings: the subjects and the role. *)
Inductive ns_payload := PNamespace | PBinding (subjects : list string) (role : string).
#[export] Instance ns_payload_eq_dec : EqDecision ns_payload.
Proof. solve_decision. Defined.

Definition NamespaceMapControllerFinalizer : string := "namespacemap-controller.liqo.io/finalizer".
Definition ManagedByAnnotation : string := "liqo.io/managed-by-namespace-map".
Definition OriginalNameAnnotation : string := "liqo.io/original-name".
Definition ReplicationOriginKey : string := "liqo.io/originID".
Definition RemoteClusterIDKey : string := "liqo.io/remote-cluster-id".
Definition K8sAppManagedByKey : string := "app.kubernetes.io/managed-by".
Definition RemoteNamespaceClusterRoleName : string := "liqo-virtual-kubelet-remote".

(** [cache.MetaNamespaceKeyFunc]. *)
Definition nm_id (nm : NamespaceMap) : string :=
  if bool_decide (nm_Namespace nm = ""%string) then nm_Name nm else (nm_Namespace nm ++ "/" ++ nm_Name nm)%string.

Definition ns_key (name : string) : okey := ("namespaces"%string, ""%string, name).
Definition binding_key (ns : string) (nm : NamespaceMap) : okey := ("rolebindings"%string, ns, nm_Namespace nm).

Definition forged_namespace (nm : NamespaceMap) (originName : string) : Obj ns_payload :=
  mkObj {[ RemoteClusterIDKey := default ""%string (nm_Labels nm !! ReplicationOriginKey) ]}
    {[ ManagedByAnnotation := nm_id nm; OriginalNameAnnotation := originName ]} [] false 0 (AMap PNamespace) Absent.
Definition managed_by (o : Obj ns_payload) (id : string) : bool := bool_decide (o_annotations o !! ManagedByAnnotation = Some id).

(** A binding that is new gets its subject and role. *)
Definition mutate_binding (nm : NamespaceMap) : mutate_fn ns_payload := fun o =>
  let origin := default ""%string (nm_Labels nm !! ReplicationOriginKey) in
  Ret (Ok (mkObj ({[ K8sAppManagedByKey := "liqo"%string; RemoteClusterIDKey := origin ]} ∪ o_labels o)
             ({[ ManagedByAnnotation := nm_id nm ]} ∪ o_annotations o) (o_finalizers o) (o_deleting o) (o_version o)
             (match o_spec o with Absent => AMap (PBinding [origin] RemoteNamespaceClusterRoleName) | s => s end) (o_status o))).

Section controller.
Context `{CU : CreateOrUpdater ns_payload}.
Context {W : Type} (cl : Client W ns_payload) (update_nm update_nm_status : NamespaceMap → K W ()).
(** How the wrapper of [CreateOrUpdate] is configured. *)
Context (order : list string) (kinds : string → option (string * string)) (globalLabels globalAnnotations : labels).
(** The order in which Go walks a map. *)
Context (range_desired : gmap string string → list (string * string))
        (range_current : gmap string RemoteNamespaceStatus → list (string * RemoteNamespaceStatus)).

(** ** enforcement.go *)

(** What follows once the namespace is known: whether an error may be ignored, and
    the error. *)
Definition bind_namespace (name : string) (nm : NamespaceMap) (ns : Obj ns_payload) : K W (bool * option kerr) :=
  if negb (managed_by ns (nm_id nm)) then mret (false, Some OtherErr)
  else
    r ← attempt (CreateOrUpdate order kinds globalLabels globalAnnotations cl (binding_key name nm) (mutate_binding nm));
    match r with Err e => mret (true, Some e) | Ok _ => mret (true, None) end.
Definition createNamespace (name originName : string) (nm : NamespaceMap) : K W (bool * option kerr) :=
  r ← attempt (c_Get cl (ns_key name));
  match r with
  | Ok ns => bind_namespace name nm ns
  | Err NotFound =>
    r ← attempt (c_Create cl (ns_key name) (forged_namespace nm originName));
    match r with
    | Ok ns => bind_namespace name nm ns
    | Err AlreadyExists => bind_namespace name nm (forged_namespace nm originName)
    | Err e => mret (false, Some e)
    end
  | Err e => mret (true, Some e)
  end.

(** The phase after an attempt to create. *)
Definition creation_phase (previous : option RemoteNamespaceStatus) (res : bool * option kerr) : MappingPhase :=
  match res.2 with
  | None => MappingAccepted
  | Some _ =>
    if negb res.1 || negb (bool_decide (Phase <$> previous = Some MappingAccepted)) then MappingCreationLoopBackOff else MappingAccepted
  end.
Fixpoint existence_loop (nm : NamespaceMap) (l : list (string * string)) (cur : gmap string RemoteNamespaceStatus) (err : option kerr) :
    K W (gmap string RemoteNamespaceStatus * option kerr) :=
  match l with
  | [] => mret (cur, err)
  | (originName, destinationName) :: l =>
    res ← createNamespace destinationName originName nm;
    existence_loop nm l (<[originName := mkRemote destinationName (creation_phase (cur !! originName) res)]> cur)
      (match res.2 with Some e => Some e | None => err end)
  end.
Definition ensureNamespacesExistence (nm : NamespaceMap) : K W (NamespaceMap * option kerr) :=
  '(cur, err) ← existence_loop nm (range_desired (DesiredMapping nm)) (CurrentMapping nm) None;
  mret (set_current nm cur, err).

Definition deleteNamespace (name id : string) : K W (bool * option kerr) :=
  r ← attempt (c_Get cl (ns_key name));
  match r with
  | Err NotFound => mret (false, None)
  | Err e => mret (true, Some e)
  | Ok ns =>
    if negb (managed_by ns id) then mret (false, None)
    else if o_deleting ns then mret (true, None)
    else
      r ← attempt (c_Delete cl (ns_key name));
      match r with Err e => mret (true, Some e) | Ok _ => mret (true, None) end
  end.
(** The variable tested after a deletion is the one of the whole loop. *)
Fixpoint deletion_loop (nm : NamespaceMap) (l : list (string * RemoteNamespaceStatus)) (cur : gmap string RemoteNamespaceStatus)
    (err : option kerr) : K W (gmap string RemoteNamespaceStatus * option kerr) :=
  match l with
  | [] => mret (cur, err)
  | (originName, st) :: l =>
    if bool_decide (is_Some (DesiredMapping nm !! originName)) && negb (nm_Deleting nm) then deletion_loop nm l cur err
    else
      res ← deleteNamespace (RemoteNamespace st) (nm_id nm);
      match err with
      | Some _ => deletion_loop nm l cur res.2
      | None =>
        deletion_loop nm l (if (res.1 : bool) then <[originName := mkRemote (RemoteNamespace st) MappingTerminating]> cur
                            else delete originName cur) err
      end
  end.
Definition ensureNamespacesDeletion (nm : NamespaceMap) : K W (NamespaceMap * option kerr) :=
  '(cur, err) ← deletion_loop nm (range_current (CurrentMapping nm)) (CurrentMapping nm) None;
  mret (set_current nm cur, err).

Definition EnsureNamespaces (nm : NamespaceMap) : K W () :=
  '(nm, e1) ← ensureNamespacesExistence nm;
  '(nm, e2) ← ensureNamespacesDeletion nm;
  _ ← update_nm_status nm;
  match e1 with
  | Some e => fail e
  | None => match e2 with Some e => fail e | None => mret () end
  end.

(** ** finalizer.go *)

Definition SetNamespaceMapControllerFinalizer (nm : NamespaceMap) : K W NamespaceMap :=
  if bool_decide (NamespaceMapControllerFinalizer ∈ nm_Finalizers nm) then mret nm
  else let nm := set_nm_finalizers nm (nm_Finalizers nm ++ [NamespaceMapControllerFinalizer]) in _ ← update_nm nm; mret nm.
Definition RemoveNamespaceMapControllerFinalizer (nm : NamespaceMap) : K W () :=
  if bool_decide (NamespaceMapControllerFinalizer ∈ nm_Finalizers nm)
  then update_nm (set_nm_finalizers nm (List.filter (fun f => negb (bool_decide (f = NamespaceMapControllerFinalizer))) (nm_Finalizers nm)))
  else mret ().

Definition NamespaceMapDeletionProcess (nm : NamespaceMap) : K W () :=
  '(nm, err) ← ensureNamespacesDeletion nm;
  _ ← update_nm_status nm;
  match err with
  | Some e => fail e
  | None => if bool_decide (CurrentMapping nm = ∅) then RemoveNamespaceMapControllerFinalizer nm else mret ()
  end.

(** [NamespaceMapReconciler.Reconcile] on what [Get] answered. *)
Definition NamespaceMapReconcile (got : result kerr NamespaceMap) : K W () :=
  match got with
  | Err NotFound => mret ()
  | Err e => fail e
  | Ok nm =>
    if nm_Deleting nm then NamespaceMapDeletionProcess nm
    else nm ← SetNamespaceMapControllerFinalizer nm; EnsureNamespaces nm
  end.
End controller.

(** ** namespacemap_controller.go: which NamespaceMap a namespace or a role binding
    wakes up *)

(** [cache.SplitMetaNamespaceKey]. *)
Definition SplitMetaNamespaceKey (key : string) : option (string * string) :=
  match Split "/"%char key with
  | [name] => Some (""%string, name)
  | [ns; name] => Some (ns, name)
  | _ => None
  end.
Definition nm_enqueuer (o : Obj ns_payload) : list (string * string) :=
  match o_annotations o !! ManagedByAnnotation with
  | None => []
  | Some key => match SplitMetaNamespaceKey key with Some r => [r] | None => [] end
  end.
