(* ===== verification/NsMapProps.v ===== *)
(** * NsMapProps: what the controller of NamespaceMaps does to the namespaces of its cluster *)

From S2P Require Export NsMap KubeClient.
From Stdlib Require Import Ascii.
Local Open Scope Z_scope.

Lemma nm_id_finalizers nm l : nm_id (set_nm_finalizers nm l) = nm_id nm.
Proof. done. Qed.
Lemma nm_id_current nm m : nm_id (set_current nm m) = nm_id nm.
Proof. done. Qed.
Lemma ns_key_inj n n' : ns_key n = ns_key n' → n = n'.
Proof. by intros [=]. Qed.
Lemma binding_key_ne n n' nm : n ≠ n' → binding_key n nm ≠ binding_key n' nm.
Proof. intros H [=]. done. Qed.


(** ** The way back from a namespace to its NamespaceMap *)

(** A namespace the controller creates, or a role binding it forges, wakes up
    the NamespaceMap it was created for, and no other: its key is split back into
    namespace and name. *)
Theorem forged_wakes_its_map nm origin : Split "/"%char (nm_Namespace nm) = [nm_Namespace nm] → Split "/"%char (nm_Name nm) = [nm_Name nm] →
  nm_enqueuer (forged_namespace nm origin) = [(nm_Namespace nm, nm_Name nm)].
Proof.
  intros H1 H2. unfold nm_enqueuer, forged_namespace. cbn [o_annotations]. rewrite lookup_insert_eq.
  unfold SplitMetaNamespaceKey, nm_id. case_bool_decide as Hns.
  - rewrite H2. by rewrite Hns.
  - change ("/" ++ nm_Name nm)%string with (String "/"%char (nm_Name nm)). by rewrite Split_app, H2.
Qed.

(** ** Errors of deletions, for any client *)

Section any_client.
Context {W : Type} (cl : Client W ns_payload).
Context (range_current : gmap string RemoteNamespaceStatus → list (string * RemoteNamespaceStatus)).

Lemma deleteNamespace_value name id w w' r : deleteNamespace cl name id w = Ret (w', r) → ∃ x, r = Ok x.
Proof.
  unfold deleteNamespace. intros [(r1 & w1 & _ & Hr)|(e' & (x & _ & ?)%attempt_inv & ->)]%K_bind_inv; [|done]. revert Hr.
  repeat (case_match; try (intros [= <- <-]; by eexists)).
  intros [(r2 & w2 & _ & Hr)|(e' & (x & _ & ?)%attempt_inv & ->)]%K_bind_inv; [|done]. destruct r2; injection Hr as <- <-; by eexists.
Qed.
Lemma deletion_loop_no_error nm l cur w w' r : deletion_loop cl nm l cur None w = Ret (w', r) →
  ∃ cur', r = Ok (cur', None).
Proof.
  revert cur w. induction l as [|[o st] l IH]; intros cur w; cbn [deletion_loop].
  - intros [= <- <-]. by eexists.
  - case_match; [apply IH|]. intros [(res & w1 & _ & Hr)|(e & Hr & ->)]%K_bind_inv; [by eapply IH|].
    by apply deleteNamespace_value in Hr as [? ?].
Qed.
Lemma deletion_no_error nm w w' r : ensureNamespacesDeletion cl range_current nm w = Ret (w', r) →
  ∃ cur, r = Ok (set_current nm cur, None).
Proof.
  unfold ensureNamespacesDeletion. intros [([cur err] & w1 & H1 & H2)|(e & H1 & ->)]%K_bind_inv;
    apply deletion_loop_no_error in H1 as [cur' H1]; [|done].
  injection H1 as -> ->. injection H2 as <- <-. by eexists.
Qed.

(** The error of a deletion never leaves the loop: the reconciliation of a
    NamespaceMap that is being deleted reports success whatever the client answers,
    as long as the NamespaceMap itself is written.  It is then not retried by the
    error, contrary to the comment of [NamespaceMapDeletionProcess]. *)
Theorem deletion_errors_lost (update_nm update_nm_status : NamespaceMap → K W ()) `{CU : CreateOrUpdater ns_payload}
    order kinds globalLabels globalAnnotations range_desired nm w w' r :
  (∀ x w1 w2 r, update_nm x w1 = Ret (w2, r) → r = Ok ()) → (∀ x w1 w2 r, update_nm_status x w1 = Ret (w2, r) → r = Ok ()) →
  nm_Deleting nm = true →
  NamespaceMapReconcile cl update_nm update_nm_status order kinds globalLabels globalAnnotations range_desired range_current (Ok nm) w = Ret (w', r) →
  r = Ok ().
Proof.
  intros Hu Hs Hd. cbn [NamespaceMapReconcile]. rewrite Hd. unfold NamespaceMapDeletionProcess.
  intros [([nm1 e] & w1 & H1 & H2)|(e & H1 & ->)]%K_bind_inv; apply deletion_no_error in H1 as [cur H1]; [|done]. injection H1 as -> ->.
  apply K_bind_inv in H2 as [([] & w2 & _ & H2)|(e & H2 & ->)]; [|by apply Hs in H2].
  revert H2. case_match; [|by intros [= _ <-]]. unfold RemoveNamespaceMapControllerFinalizer. case_match; [apply Hu|by intros [= _ <-]].
Qed.

(** When the read of a namespace finds nothing and its creation answers that it
    exists, the role of the remote cluster is granted in it: whose namespace it is
    is looked up in the object that was to be created. *)
Theorem stale_read_binds `{CU : CreateOrUpdater ns_payload} order kinds globalLabels globalAnnotations name origin nm w w1 w2 :
  c_Get cl (ns_key name) w = Ret (w1, Err NotFound) →
  c_Create cl (ns_key name) (forged_namespace nm origin) w1 = Ret (w2, Err AlreadyExists) →
  createNamespace cl order kinds globalLabels globalAnnotations name origin nm w =
    (r ← attempt (CreateOrUpdate order kinds globalLabels globalAnnotations cl (binding_key name nm) (mutate_binding nm));
     match r with Err e => mret (true, Some e) | Ok _ => mret (true, None) end) w2.
Proof.
  intros Hg Hc. unfold createNamespace. erewrite K_bind_ok by (apply attempt_ok, Hg). cbv beta iota.
  erewrite K_bind_ok by (apply attempt_ok, Hc). cbv beta iota. unfold bind_namespace, managed_by, forged_namespace. cbn [o_annotations].
  by rewrite bool_decide_true by apply lookup_insert_eq.
Qed.
End any_client.

(** ** Against a server, with reads that are up to date *)

Section server.
Context {Api : KubeApi ns_payload} {CU : CreateOrUpdater ns_payload}.
Context (lists : string → string → labels → server → list (string * Obj ns_payload)).
Context (spec_answer status_answer : pworld ns_payload NamespaceMap → NamespaceMap → option kerr).
Context (order : list string) (kinds : string → option (string * string)) (globalLabels globalAnnotations : labels).
Context (range_desired : gmap string string → list (string * string))
        (range_current : gmap string RemoteNamespaceStatus → list (string * RemoteNamespaceStatus)).
Notation world := (pworld ns_payload NamespaceMap).
Notation cl := (plain_client (L:=NamespaceMap) lists).
Notation "w ⋅ k" := (content (pw_server w) !! k) (at level 20, k at next level).
Notation reconcile := (NamespaceMapReconcile cl (log_write spec_answer) (log_write status_answer) order kinds globalLabels globalAnnotations
                         range_desired range_current).

Lemma plain_get_inv k (w w' : world) x : c_Get cl k w = Ret (w', x) →
  w' = w ∧ (x = Err NotFound ∧ w ⋅ k = None ∨ ∃ o, x = Ok o ∧ w ⋅ k = Some o).
Proof. cbn. unfold plain_get. intros [= <- <-]. split; [done|]. destruct (w ⋅ k); eauto. Qed.

(** *** A namespace of someone else *)

Section foreign.
Context (id : string) (name : string) (o : Obj ns_payload) (bk : okey) (b : option (Obj ns_payload)).
Context (Hforeign : managed_by o id = false) (Hbk : bk.1.1 = "rolebindings"%string) (Hbn : bk.1.2 = name).
Definition untouched (w : world) : Prop := w ⋅ ns_key name = Some o ∧ w ⋅ bk = b.

Lemma only_untouched k w w' : only k w w' → k ≠ ns_key name → k ≠ bk → untouched w → untouched w'.
Proof. intros [_ H] H1 H2 [Hn Hb]. by split; rewrite H. Qed.
Lemma ns_key_not_bk n : ns_key n ≠ bk.
Proof. intros <-. done. Qed.
Lemma log_untouched answer x w w' r : log_write (P:=ns_payload) answer x w = Ret (w', r) → untouched w → untouched w'.
Proof. unfold log_write. destruct (answer w x); by intros [= <- _]. Qed.

Lemma bind_untouched n nm ns w w' r : n ≠ name → bind_namespace cl order kinds globalLabels globalAnnotations n nm ns w = Ret (w', r) →
  untouched w → untouched w'.
Proof.
  intros Hne. unfold bind_namespace. case_match; [by intros [= <- _]|].
  intros [(r1 & w1 & (x & H1 & [= ->])%attempt_inv & H2)|(e & (x & _ & ?)%attempt_inv & _)]%K_bind_inv; [|done].
  apply plain_cou_frame in H1. intros Hu. assert (w' = w1) as -> by (destruct x; by injection H2).
  eapply only_untouched; [done|done| |done]. intros <-. by destruct Hne.
Qed.
Lemma create_untouched n origin nm w w' r : nm_id nm = id →
  createNamespace cl order kinds globalLabels globalAnnotations n origin nm w = Ret (w', r) → untouched w → untouched w'.
Proof.
  intros Hid. unfold createNamespace.
  intros [(r1 & w1 & (x & [-> Hx]%plain_get_inv & [= ->])%attempt_inv & H2)|(e & (x & _ & ?)%attempt_inv & _)]%K_bind_inv Hu; [|done].
  destruct Hx as [[-> Hx]|(ns & -> & Hx)].
  - assert (Hne : n ≠ name) by (intros ->; by rewrite (proj1 Hu) in Hx).
    apply K_bind_inv in H2 as [(r2 & w2 & (y & H1%plain_create_frame & [= ->])%attempt_inv & H2)|(e & (y & _ & ?)%attempt_inv & _)]; [|done].
    assert (Hu2 : untouched w2) by (eapply only_untouched; [done|by intros ?%ns_key_inj|apply ns_key_not_bk|done]).
    destruct y as [ns|[]]; try (by eapply bind_untouched); by injection H2 as <- _.
  - destruct (decide (n = name)) as [->|Hne]; [|by eapply bind_untouched].
    rewrite (proj1 Hu) in Hx. injection Hx as <-. unfold bind_namespace in H2. rewrite Hid, Hforeign in H2. by injection H2 as <- _.
Qed.
Lemma delete_untouched n w w' r : deleteNamespace cl n id w = Ret (w', r) → untouched w → untouched w'.
Proof.
  unfold deleteNamespace.
  intros [(r1 & w1 & (x & [-> Hx]%plain_get_inv & [= ->])%attempt_inv & H2)|(e & (x & _ & ?)%attempt_inv & _)]%K_bind_inv Hu; [|done].
  destruct Hx as [[-> Hx]|(ns & -> & Hx)]; [by injection H2 as <- _|].
  destruct (managed_by ns id) eqn:Hm; cbn [negb] in H2; [|by injection H2 as <- _]. case_match; [by injection H2 as <- _|].
  assert (Hne : n ≠ name) by (intros ->; rewrite (proj1 Hu) in Hx; congruence).
  apply K_bind_inv in H2 as [(r2 & w2 & (y & H1%plain_delete_frame & [= ->])%attempt_inv & H2)|(e & (y & _ & ?)%attempt_inv & _)]; [|done].
  assert (w' = w2) as -> by (by destruct y; injection H2).
  eapply only_untouched; [done|by intros ?%ns_key_inj|apply ns_key_not_bk|done].
Qed.

Lemma existence_loop_untouched nm l cur err : nm_id nm = id →
  preserves untouched (existence_loop cl order kinds globalLabels globalAnnotations nm l cur err).
Proof.
  intros Hid. revert cur err. induction l as [|[on dn] l IH]; intros cur err; cbn [existence_loop]; [apply preserves_ret|].
  apply preserves_bind; [intros w w' r Hu Hr; by eapply create_untouched|]. intros a. apply IH.
Qed.
Lemma deletion_loop_untouched nm l cur err : nm_id nm = id → preserves untouched (deletion_loop cl nm l cur err).
Proof.
  intros Hid. revert cur err. induction l as [|[on st] l IH]; intros cur err; cbn [deletion_loop]; [apply preserves_ret|].
  case_match; [apply IH|]. rewrite Hid.
  apply preserves_bind; [intros w w' r Hu Hr; by eapply delete_untouched|]. intros a. case_match; apply IH.
Qed.
Lemma log_preserves answer x : preserves untouched (log_write (P:=ns_payload) answer x).
Proof. intros w w' r Hu Hr. by eapply log_untouched. Qed.
Lemma deletion_untouched nm : nm_id nm = id → preserves untouched (ensureNamespacesDeletion cl range_current nm).
Proof. intros Hid. apply preserves_bind; [by apply deletion_loop_untouched|]. intros [??]. apply preserves_ret. Qed.
Lemma existence_untouched nm : nm_id nm = id →
  preserves untouched (ensureNamespacesExistence cl order kinds globalLabels globalAnnotations range_desired nm).
Proof. intros Hid. apply preserves_bind; [by apply existence_loop_untouched|]. intros [??]. apply preserves_ret. Qed.
End foreign.

Lemma log_write_inv answer x (w w' : world) r : log_write (P:=ns_payload) answer x w = Ret (w', r) →
  pw_server w' = pw_server w ∧ pw_log w' = match r with Ok _ => pw_log w ++ [x] | Err _ => pw_log w end.
Proof. unfold log_write. destruct (answer w x); by intros [= <- <-]. Qed.
Lemma existence_shape nm w w' nm' e :
  ensureNamespacesExistence cl order kinds globalLabels globalAnnotations range_desired nm w = Ret (w', Ok (nm', e)) →
  ∃ cur, nm' = set_current nm cur.
Proof.
  intros [([cur err] & w1 & _ & H2)|(x & _ & ?)]%K_bind_inv; [|done]. injection H2 as _ <- _. by eexists.
Qed.

Lemma ensure_untouched id name o bk b : managed_by o id = false → bk.1.1 = "rolebindings"%string → bk.1.2 = name → ∀ nm, nm_id nm = id →
  preserves (untouched name o bk b)
    (EnsureNamespaces cl (log_write status_answer) order kinds globalLabels globalAnnotations range_desired range_current nm).
Proof.
  intros Hm Hb1 Hb2 nm Hid w w' r Hu. unfold EnsureNamespaces.
  intros [([nm1 e1] & w1 & H1 & H)|(e & H1 & _)]%K_bind_inv; [|by eapply existence_untouched].
  pose proof (existence_shape _ _ _ _ _ H1) as [cur ->]. eapply existence_untouched in H1; [|done..]. revert H H1. intros H Hu1.
  revert H. apply (preserves_bind (untouched name o bk b)); [by eapply deletion_untouched| |done].
  intros [nm2 e2]. apply preserves_bind; [apply log_preserves|]. intros []. preserve.
Qed.
Lemma deletion_process_untouched id name o bk b : managed_by o id = false → bk.1.1 = "rolebindings"%string → bk.1.2 = name → ∀ nm, nm_id nm = id →
  preserves (untouched name o bk b) (NamespaceMapDeletionProcess cl (log_write spec_answer) (log_write status_answer) range_current nm).
Proof.
  intros Hm Hb1 Hb2 nm Hid. apply preserves_bind; [by eapply deletion_untouched|]. intros [nm1 e].
  apply preserves_bind; [apply log_preserves|]. intros [].
  case_match; [apply preserves_fail|]. case_match; [|apply preserves_ret].
  unfold RemoveNamespaceMapControllerFinalizer. case_match; [apply log_preserves|apply preserves_ret].
Qed.
Lemma reconcile_untouched id name o bk b : managed_by o id = false → bk.1.1 = "rolebindings"%string → bk.1.2 = name → ∀ nm, nm_id nm = id →
  preserves (untouched name o bk b) (reconcile (Ok nm)).
Proof.
  intros Hm Hb1 Hb2 nm Hid. cbn [NamespaceMapReconcile]. case_match; [by eapply deletion_process_untouched|].
  unfold SetNamespaceMapControllerFinalizer. intros w w' r Hu.
  intros [(nm1 & w1 & H1 & H2)|(e & H1 & _)]%K_bind_inv; revert H1; case_bool_decide.
  - intros [= <- <-]. by eapply ensure_untouched.
  - intros [([] & w2 & H1 & [= -> <-])|(x & _ & ?)]%K_bind_inv; [|done].
    eapply (ensure_untouched id name o bk b Hm Hb1 Hb2 (set_nm_finalizers nm _) Hid w1); [|exact H2]. by eapply log_untouched.
  - done.
  - intros [([] & w2 & _ & [=])|(x & H1 & _)]%K_bind_inv. by eapply log_untouched.
Qed.

(** *** The last step of a deletion *)

Lemma delete_log n id w w' r : deleteNamespace cl n id w = Ret (w', r) → pw_log w' = pw_log w.
Proof.
  unfold deleteNamespace.
  intros [(r1 & w1 & (x & [-> Hx]%plain_get_inv & [= ->])%attempt_inv & H2)|(e & (x & _ & ?)%attempt_inv & _)]%K_bind_inv; [|done].
  destruct Hx as [[-> Hx]|(ns & -> & Hx)]; [by injection H2 as <- _|]. do 2 (case_match; [by injection H2 as <- _|]).
  apply K_bind_inv in H2 as [(r2 & w2 & (y & [H1 _]%plain_delete_frame & [= ->])%attempt_inv & H2)|(e & (y & _ & ?)%attempt_inv & _)]; [|done].
  by destruct y; injection H2 as <- _.
Qed.
Lemma deletion_loop_log nm l cur err w0 : preserves (fun w => pw_log w = pw_log w0) (deletion_loop cl nm l cur err).
Proof.
  revert cur err. induction l as [|[on st] l IH]; intros cur err; cbn [deletion_loop]; [apply preserves_ret|].
  case_match; [apply IH|].
  apply preserves_bind; [intros w w' r Hu Hr; rewrite <- Hu; by eapply delete_log|]. intros a. case_match; apply IH.
Qed.

(** No namespace of this name belongs to the NamespaceMap. *)
Definition released (id n : string) (w : world) : Prop := ∀ o, w ⋅ ns_key n = Some o → managed_by o id = false.
Lemma managed_meta (o o' : Obj ns_payload) id : same_meta o o' → managed_by o' id = managed_by o id.
Proof. intros (_ & E & _). unfold managed_by. by rewrite E. Qed.
Lemma plain_delete_meta k (w w' : world) r o' : c_Delete cl k w = Ret (w', r) → w' ⋅ k = Some o' →
  ∃ o, w ⋅ k = Some o ∧ same_meta o o'.
Proof.
  intros [H _]%on_pserver_inv Ho'.
  assert (Heff : delete_eff k (content (pw_server w)) (content (pw_server w')) ∨ content (pw_server w') = content (pw_server w)).
  { destruct r as [[]|e]; [apply Delete_ok in H; by left|apply Delete_err in H as [?|?]; auto]. }
  destruct Heff as [(cur & o1 & Hc & Hm & Hsm & _)|E]; [|exists o'; by rewrite <- E].
  exists cur. split; [done|]. rewrite Hm in Ho'. unfold store_obj in Ho'. case_match; by simplify_map_eq.
Qed.
Lemma delete_released id n n' w w' r : deleteNamespace cl n' id w = Ret (w', r) → released id n w → released id n w'.
Proof.
  unfold deleteNamespace.
  intros [(r1 & w1 & (x & [-> Hx]%plain_get_inv & [= ->])%attempt_inv & H2)|(e & (x & _ & ?)%attempt_inv & _)]%K_bind_inv Hu; [|done].
  destruct Hx as [[-> Hx]|(ns & -> & Hx)]; [by injection H2 as <- _|].
  do 2 (case_match; [by injection H2 as <- _|]).
  apply K_bind_inv in H2 as [(r2 & w2 & (y & H1 & [= ->])%attempt_inv & H2)|(e & (y & _ & ?)%attempt_inv & _)]; [|done].
  assert (w' = w2) as -> by (by destruct y; injection H2).
  intros o' Ho'. destruct (decide (n = n')) as [->|Hne].
  - destruct (plain_delete_meta _ _ _ _ _ H1 Ho') as (o & Ho & Hm). rewrite (managed_meta _ _ _ Hm). by apply Hu.
  - apply Hu. rewrite <- Ho'. symmetry. apply (plain_delete_frame _ _ _ _ _ H1). by intros ?%ns_key_inj.
Qed.
Lemma delete_says_released id n w w' e : deleteNamespace cl n id w = Ret (w', Ok (false, e)) → released id n w'.
Proof.
  unfold deleteNamespace.
  intros [(r1 & w1 & (x & [-> Hx]%plain_get_inv & [= ->])%attempt_inv & H2)|(e' & (x & _ & ?)%attempt_inv & _)]%K_bind_inv; [|done].
  destruct Hx as [[-> Hx]|(ns & -> & Hx)]; [injection H2 as <- _; intros o Ho; congruence|].
  destruct (managed_by ns id) eqn:Hm; cbn [negb] in H2.
  - case_match; [done|].
    apply K_bind_inv in H2 as [(r2 & w2 & (y & H1 & [= ->])%attempt_inv & H2)|(e' & (y & _ & ?)%attempt_inv & _)]; [|done]. by destruct y.
  - injection H2 as <- _. intros o Ho. congruence.
Qed.
Lemma deletion_loop_released id n nm l cur err : nm_id nm = id → preserves (released id n) (deletion_loop cl nm l cur err).
Proof.
  intros Hid. revert cur err. induction l as [|[on st] l IH]; intros cur err; cbn [deletion_loop]; [apply preserves_ret|].
  case_match; [apply IH|]. rewrite Hid.
  apply preserves_bind; [intros w w' r Hu Hr; by eapply delete_released|]. intros a. case_match; apply IH.
Qed.
(** Entries that leave the status stand for namespaces that are released. *)
Lemma deletion_loop_empties nm l cur w w' cur' e : nm_Deleting nm = true → NoDup l.*1 →
  deletion_loop cl nm l cur None w = Ret (w', Ok (cur', e)) →
  (∀ on, on ∉ l.*1 → cur' !! on = cur !! on) ∧ (∀ on st, (on, st) ∈ l → cur' !! on = None → released (nm_id nm) (RemoteNamespace st) w').
Proof.
  intros Hd. revert cur w. induction l as [|[on st] l IH]; intros cur w Hnd; cbn [deletion_loop].
  { intros [= <- <- <-]. split; [done|]. intros ?? []%not_elem_of_nil. }
  rewrite fmap_cons in Hnd. apply NoDup_cons in Hnd as [Hni Hnd]. cbn in Hni. rewrite Hd, andb_false_r.
  intros [([ex er] & w1 & H1 & H2)|(x & _ & ?)]%K_bind_inv; [|done]. cbn [fst snd] in H2.
  destruct (IH _ _ Hnd H2) as [Hout Hin]. split.
  - intros on' Hon'. rewrite fmap_cons, not_elem_of_cons in Hon'. cbn in Hon'. rewrite Hout by apply Hon'.
    destruct ex; [rewrite lookup_insert_ne by (intros ->; by destruct Hon')|rewrite lookup_delete_ne by (intros ->; by destruct Hon')]; done.
  - intros on' st' Hel Hnone. apply elem_of_cons in Hel as [[= -> ->]|Hel]; [|by eapply Hin].
    rewrite Hout in Hnone by done. destruct ex; [by rewrite lookup_insert_eq in Hnone|].
    eapply deletion_loop_released; [reflexivity| |exact H2]. by eapply delete_says_released.
Qed.

(** *** What a reconciliation achieves when the server answers *)

Context {R : Responsive ns_payload}.
Definition origin_of (nm : NamespaceMap) : string := default ""%string (nm_Labels nm !! ReplicationOriginKey).
Definition granted (nm : NamespaceMap) (b : Obj ns_payload) : Prop :=
  lives b ∧ o_spec b = AMap (PBinding [origin_of nm] RemoteNamespaceClusterRoleName).
(** The name is free or already the NamespaceMap's. *)
Definition free (nm : NamespaceMap) (n : string) (w : world) : Prop :=
  (∀ o, w ⋅ ns_key n = Some o → managed_by o (nm_id nm) = true) ∧ (∀ b, w ⋅ binding_key n nm = Some b → granted nm b).
(** The namespace is there with its binding. *)
Definition provided (nm : NamespaceMap) (n : string) (w : world) : Prop :=
  (∃ o, w ⋅ ns_key n = Some o ∧ managed_by o (nm_id nm) = true) ∧ (∃ b, w ⋅ binding_key n nm = Some b ∧ granted nm b).

Lemma binding_gentle nm : gentle (mutate_binding nm).
Proof. intros o. eexists. split; [reflexivity|done]. Qed.
Context (Hkind : is_Some (kinds "rolebindings")).

Lemma bind_provides n nm ns w : managed_by ns (nm_id nm) = true → (∃ o, w ⋅ ns_key n = Some o ∧ managed_by o (nm_id nm) = true) →
  free nm n w → ∃ w', bind_namespace cl order kinds globalLabels globalAnnotations n nm ns w = Ret (w', Ok (true, None)) ∧
    only (binding_key n nm) w w' ∧ provided nm n w'.
Proof.
  intros Hm Hns [_ Hb]. destruct Hkind as [gk Hgk].
  destruct (plain_cou_succeeds lists order kinds globalLabels globalAnnotations (binding_key n nm) (mutate_binding nm) w gk Hgk (binding_gentle nm))
    as (w' & b & E & Ho & Hw' & Hl & o1 & Hf & _ & Hsp); [intros b Hb'; by apply Hb|].
  exists w'. unfold bind_namespace. rewrite Hm. cbn [negb]. split.
  { unfold attempt, mbind, K_bind. by rewrite E. }
  split; [done|]. split.
  - destruct Hns as (o & Ho1 & Ho2). exists o. split; [|done]. by rewrite (proj2 Ho).
  - exists b. split; [done|]. split; [done|]. rewrite Hsp. unfold wrapped, mutate_binding in Hf. cbn [mbind outcome_bind] in Hf.
    destruct (buildVariablesMap _ _ _); [|done]. injection Hf as <-. cbn [o_spec].
    destruct (w ⋅ binding_key n nm) as [b0|] eqn:E0; cbn [from_option id o_spec blank]; [|done]. by rewrite (proj2 (Hb b0 eq_refl)).
Qed.

(** Frames of a creation. *)
Definition creation_frame (n : string) (nm : NamespaceMap) (w w' : world) : Prop :=
  pw_log w' = pw_log w ∧ ∀ k, k ≠ ns_key n → k ≠ binding_key n nm → w' ⋅ k = w ⋅ k.
Lemma create_provides n origin nm w : free nm n w →
  ∃ w', createNamespace cl order kinds globalLabels globalAnnotations n origin nm w = Ret (w', Ok (true, None)) ∧
    creation_frame n nm w w' ∧ provided nm n w'.
Proof.
  intros Hf. unfold createNamespace.
  assert (Hframe : ∀ w1 w2, creation_frame n nm w w1 → only (binding_key n nm) w1 w2 → creation_frame n nm w w2).
  { intros w1 w2 [Hl1 Hf1] [Hl2 Hf2]. split; [congruence|]. intros k Hk1 Hk2. by rewrite Hf2, Hf1. }
  destruct (w ⋅ ns_key n) as [o|] eqn:Hn.
  - destruct (bind_provides n nm o w) as (w' & E & Ho & Hp); [by apply Hf|exists o; split; [done|by apply Hf]|done|].
    exists w'. split; [|split; [by eapply Hframe|done]]. erewrite K_bind_ok by (apply attempt_ok; cbn; unfold plain_get; by rewrite Hn). exact E.
  - erewrite K_bind_ok by (apply attempt_ok; cbn; unfold plain_get; by rewrite Hn). cbv beta iota.
    pose proof (Create_answers (ns_key n) (forged_namespace nm origin) (pw_server w) Hn) as Ha.
    destruct (Create (ns_key n) (forged_namespace nm origin) (pw_server w)) as [s1 [o'|]] eqn:Hc; [|done].
    destruct (Create_ok _ _ _ _ _ Hc) as (_ & Hst & Hm & _). set (w1 := mkPworld s1 (pw_log w) : world).
    assert (Hw1 : c_Create cl (ns_key n) (forged_namespace nm origin) w = Ret (w1, Ok o')) by (cbn; unfold on_pserver; by rewrite Hc).
    assert (Hmo : managed_by o' (nm_id nm) = true).
    { rewrite (managed_meta _ _ _ Hm). unfold managed_by, forged_namespace. cbn [o_annotations]. by apply bool_decide_eq_true_2, lookup_insert_eq. }
    pose proof (plain_create_frame _ _ _ _ _ _ Hw1) as [Hl1 Hf1].
    assert (Hn1 : w1 ⋅ ns_key n = Some o') by (cbn; by rewrite Hst, lookup_insert_eq).
    destruct (bind_provides n nm o' w1) as (w' & E & Ho & Hp); [done|by exists o'| |].
    { split; [intros o Ho; congruence|]. intros b Hb. apply Hf. rewrite <- Hb. symmetry. by apply Hf1. }
    exists w'. split; [|split; [apply (Hframe w1); [by split; auto|done]|done]].
    erewrite K_bind_ok by (apply attempt_ok; exact Hw1). exact E.
Qed.
Lemma creation_keeps n nm w w' : creation_frame n nm w w' → provided nm n w' → ∀ n',
  (free nm n' w → free nm n' w') ∧ (provided nm n' w → provided nm n' w').
Proof.
  intros [_ Hf] Hp n'. destruct (decide (n' = n)) as [->|Hne].
  - split; [intros _|done]. destruct Hp as [(o & Ho & Hm) (b & Hb & Hg)]. split; intros ? ?; congruence.
  - unfold free, provided. rewrite !Hf; [done|done|by apply binding_key_ne|by intros ?%ns_key_inj|done].
Qed.

Definition accept (cur : gmap string RemoteNamespaceStatus) (e : string * string) : gmap string RemoteNamespaceStatus :=
  <[e.1 := mkRemote e.2 MappingAccepted]> cur.
Lemma existence_provides nm l cur w : (∀ on dn, (on, dn) ∈ l → free nm dn w) →
  ∃ w', existence_loop cl order kinds globalLabels globalAnnotations nm l cur None w = Ret (w', Ok (foldl accept cur l, None)) ∧
    pw_log w' = pw_log w ∧ (∀ n, provided nm n w → provided nm n w') ∧ (∀ on dn, (on, dn) ∈ l → provided nm dn w') ∧
    (∀ k, (∀ on dn, (on, dn) ∈ l → k ≠ ns_key dn ∧ k ≠ binding_key dn nm) → w' ⋅ k = w ⋅ k).
Proof.
  revert cur w. induction l as [|[on dn] l IH]; intros cur w Hfree; cbn [existence_loop foldl].
  { exists w. do 3 (split; [done|]). split; [|done]. intros ?? []%not_elem_of_nil. }
  destruct (create_provides dn on nm w) as (w1 & E & Hfr & Hp); [eapply Hfree; by apply elem_of_cons; left|].
  pose proof (creation_keeps _ _ _ _ Hfr Hp) as Hkeep.
  destruct (IH (<[on := mkRemote dn MappingAccepted]> cur) w1) as (w' & E' & Hl & Hk & Hp' & Hf').
  { intros on' dn' Hel. apply Hkeep. eapply Hfree. by apply elem_of_cons; right. }
  exists w'. erewrite K_bind_ok by exact E. split; [exact E'|]. split; [rewrite Hl; apply Hfr|].
  split; [intros n Hn; by apply Hk, Hkeep|]. split.
  - intros on' dn' [[= -> ->]|Hel]%elem_of_cons; [by apply Hk|by eapply Hp'].
  - intros k Hk'. rewrite Hf' by (intros on' dn' Hel; eapply Hk'; by apply elem_of_cons; right).
    destruct (Hk' on dn) as [H1 H2]; [by apply elem_of_cons; left|]. by apply Hfr.
Qed.

(** The namespace is going, or not the NamespaceMap's. *)
Definition withdrawn (id n : string) (w : world) : Prop :=
  ∀ o, w ⋅ ns_key n = Some o → managed_by o id = false ∨ o_deleting o = true.
Lemma delete_withdraws n id w : ∃ w' res, deleteNamespace cl n id w = Ret (w', Ok res) ∧ only (ns_key n) w w' ∧ withdrawn id n w'.
Proof.
  unfold deleteNamespace. destruct (w ⋅ ns_key n) as [o|] eqn:Hn;
    (erewrite K_bind_ok by (apply attempt_ok; cbn; unfold plain_get; by rewrite Hn)); cbv beta iota.
  2: { exists w, (false, None). split; [done|]. split; [apply only_refl|]. intros o Ho. congruence. }
  destruct (managed_by o id) eqn:Hm; cbn [negb].
  2: { exists w, (false, None). split; [done|]. split; [apply only_refl|]. intros o' Ho'. left. congruence. }
  destruct (o_deleting o) eqn:Hd.
  { exists w, (true, None). split; [done|]. split; [apply only_refl|]. intros o' Ho'. right. congruence. }
  pose proof (Delete_answers (ns_key n) (pw_server w) (ex_intro _ o Hn)) as Ha.
  destruct (Delete (ns_key n) (pw_server w)) as [s1 [[]|]] eqn:Hc; [|done]. set (w1 := mkPworld s1 (pw_log w) : world).
  assert (Hw1 : c_Delete cl (ns_key n) w = Ret (w1, Ok ())) by (cbn; unfold on_pserver; by rewrite Hc).
  exists w1, (true, None). split; [by erewrite K_bind_ok by (apply attempt_ok; exact Hw1)|].
  split; [by eapply plain_delete_frame|]. intros o' Ho'. right.
  destruct (Delete_ok _ _ _ Hc) as (cur & o1 & _ & Hst & _ & _ & _ & Hdel). cbn in Ho'. rewrite Hst in Ho'.
  unfold store_obj in Ho'. case_match; by simplify_map_eq.
Qed.
Lemma only_withdrawn n n' id w w' : only (ns_key n) w w' → withdrawn id n w' → withdrawn id n' w → withdrawn id n' w'.
Proof.
  intros [_ Ho] Hn Hn'. destruct (decide (n' = n)) as [->|Hne]; [done|]. intros o. rewrite Ho by (by intros ?%ns_key_inj). apply Hn'.
Qed.
Lemma only_provided n n' nm w w' : only (ns_key n) w w' → n' ≠ n → provided nm n' w → provided nm n' w'.
Proof. intros [_ Ho] Hne. unfold provided. by rewrite !Ho by (done || by intros ?%ns_key_inj). Qed.

(** The namespaces that a list of status entries wants withdrawn. *)
Definition stale (nm : NamespaceMap) (l : list (string * RemoteNamespaceStatus)) (n : string) : Prop :=
  ∃ on st, (on, st) ∈ l ∧ DesiredMapping nm !! on = None ∧ RemoteNamespace st = n.
Lemma stale_cons nm e l n : stale nm l n → stale nm (e :: l) n.
Proof. intros (on & st & Hel & H). exists on, st. split; [by apply elem_of_cons; right|done]. Qed.
Lemma deletion_withdraws nm l cur w : nm_Deleting nm = false →
  ∃ w' cur', deletion_loop cl nm l cur None w = Ret (w', Ok (cur', None)) ∧ pw_log w' = pw_log w ∧
    (∀ on, is_Some (DesiredMapping nm !! on) → cur' !! on = cur !! on) ∧
    (∀ n, ¬ stale nm l n → provided nm n w → provided nm n w') ∧
    (∀ n, stale nm l n ∨ withdrawn (nm_id nm) n w → withdrawn (nm_id nm) n w').
Proof.
  intros Hd. revert cur w. induction l as [|[on st] l IH]; intros cur w; cbn [deletion_loop].
  { exists w, cur. do 4 (split; [done|]). intros n [(? & ? & []%not_elem_of_nil & _)|?]; done. }
  rewrite Hd, andb_true_r. case_bool_decide as Hdes.
  { destruct (IH cur w) as (w' & cur' & E & Hl & Hc & Hp & Hw). exists w', cur'. do 3 (split; [done|]). split.
    - intros n Hn. apply Hp. contradict Hn. by apply stale_cons.
    - intros n [(on' & st' & [[= -> ->]|Hel]%elem_of_cons & Hn & <-)|Hn]; apply Hw; [by rewrite Hn in Hdes; destruct Hdes|left; by exists on', st'|by right]. }
  destruct (delete_withdraws (RemoteNamespace st) (nm_id nm) w) as (w1 & res & E1 & Ho & Hw1). erewrite K_bind_ok by exact E1.
  cbv beta iota. set (cur1 := if res.1 then _ else _). destruct (IH cur1 w1) as (w' & cur' & E & Hl & Hc & Hp & Hw).
  exists w', cur'. split; [exact E|]. split; [rewrite Hl; apply Ho|]. split.
  - intros on' Hon'. rewrite Hc by done. subst cur1.
    destruct res.1; [apply lookup_insert_ne|apply lookup_delete_ne]; by intros <-.
  - split.
    + intros n Hn Hpn. apply Hp; [contradict Hn; by apply stale_cons|]. eapply only_provided; [done| |done].
      intros ->. apply Hn. exists on, st. split; [by apply elem_of_cons; left|]. split; [|done]. by apply eq_None_not_Some.
    + intros n [(on' & st' & [[= -> ->]|Hel]%elem_of_cons & Hn & <-)|Hn]; apply Hw;
        [by right|left; by exists on', st'|right; by eapply only_withdrawn].
Qed.

Context (Hrd : ∀ m, range_desired m ≡ₚ map_to_list m) (Hrc : ∀ m, range_current m ≡ₚ map_to_list m).
Lemma foldl_accept_other cur l on : on ∉ l.*1 → foldl accept cur l !! on = cur !! on.
Proof.
  revert cur. induction l as [|[o d] l IH]; intros cur Hni; [done|]. cbn [foldl]. rewrite fmap_cons, not_elem_of_cons in Hni.
  rewrite IH by apply Hni. unfold accept. apply lookup_insert_ne. intros E. by destruct Hni as [[] _].
Qed.
Lemma foldl_accept cur l on dn : NoDup l.*1 → (on, dn) ∈ l → foldl accept cur l !! on = Some (mkRemote dn MappingAccepted).
Proof.
  revert cur. induction l as [|[o d] l IH]; intros cur Hnd Hel; [by apply not_elem_of_nil in Hel|].
  rewrite fmap_cons in Hnd. apply NoDup_cons in Hnd as [Hni Hnd]. cbn [foldl]. apply elem_of_cons in Hel as [[= <- <-]|Hel]; [|by apply IH].
  rewrite foldl_accept_other by done. unfold accept. by rewrite lookup_insert_eq.
Qed.
Lemma NoDup_range m : NoDup (range_current m).*1.
Proof. rewrite Hrc. apply NoDup_fst_map_to_list. Qed.
Lemma range_desired_keys m : NoDup (range_desired m).*1.
Proof. rewrite Hrd. apply NoDup_fst_map_to_list. Qed.
Lemma log_write_ok answer x (w : world) : answer w x = None →
  log_write (P:=ns_payload) answer x w = Ret (mkPworld (pw_server w) (pw_log w ++ [x]), Ok ()).
Proof. unfold log_write. by intros ->. Qed.
Lemma ensure_enforces nm w : nm_Deleting nm = false → (∀ w x, status_answer w x = None) →
  (∀ on dn, DesiredMapping nm !! on = Some dn → free nm dn w ∧
     ∀ on' st, CurrentMapping nm !! on' = Some st → DesiredMapping nm !! on' = None → RemoteNamespace st ≠ dn) →
  ∃ w' nm', EnsureNamespaces cl (log_write status_answer) order kinds globalLabels globalAnnotations range_desired range_current nm w = Ret (w', Ok ()) ∧
    last (pw_log w') = Some nm' ∧
    (∀ on dn, DesiredMapping nm !! on = Some dn → provided nm dn w' ∧ CurrentMapping nm' !! on = Some (mkRemote dn MappingAccepted)) ∧
    (∀ on st, CurrentMapping nm !! on = Some st → DesiredMapping nm !! on = None → withdrawn (nm_id nm) (RemoteNamespace st) w').
Proof.
  intros Hdel Hans Hdes.
  assert (Hel : ∀ on dn, (on, dn) ∈ range_desired (DesiredMapping nm) ↔ DesiredMapping nm !! on = Some dn)
    by (intros; by rewrite Hrd, elem_of_map_to_list).
  destruct (existence_provides nm (range_desired (DesiredMapping nm)) (CurrentMapping nm) w) as (w1 & E1 & Hl1 & _ & Hp1 & _).
  { intros on dn H%Hel. by apply (Hdes on dn H). }
  set (cur := foldl accept _ _) in E1. set (nm1 := set_current nm cur).
  assert (Hcur : ∀ on, DesiredMapping nm !! on = None → cur !! on = CurrentMapping nm !! on).
  { intros on Hon. apply foldl_accept_other. intros ([on' dn] & -> & H%Hel)%list_elem_of_fmap. cbn in Hon. congruence. }
  destruct (deletion_withdraws nm1 (range_current cur) cur w1 Hdel) as (w2 & cur2 & E2 & Hl2 & Hc2 & Hp2 & Hw2).
  set (nm2 := set_current nm1 cur2). exists (mkPworld (pw_server w2) (pw_log w2 ++ [nm2])), nm2. split.
  { unfold EnsureNamespaces. erewrite K_bind_ok by (unfold ensureNamespacesExistence; erewrite K_bind_ok by exact E1; reflexivity).
    cbv beta iota. erewrite K_bind_ok by (unfold ensureNamespacesDeletion; erewrite K_bind_ok by exact E2; reflexivity).
    cbv beta iota. by erewrite K_bind_ok by (by apply log_write_ok). }
  split; [cbn; by rewrite last_snoc|]. split.
  - intros on dn Hon. destruct (Hdes on dn Hon) as [_ Hst]. split.
    + apply (Hp2 dn); [|by apply (Hp1 on), Hel]. intros (on' & st & H & Hno & <-). rewrite Hrc, elem_of_map_to_list in H.
      rewrite Hcur in H by done. by eapply Hst.
    + cbn. rewrite Hc2 by (by exists dn). apply foldl_accept; [apply range_desired_keys|by apply Hel].
  - intros on st Hon Hno. apply (Hw2 (RemoteNamespace st)). left. exists on, st. split; [|done].
    rewrite Hrc, elem_of_map_to_list. by rewrite Hcur.
Qed.

(** C23: with reads that are up to date, a reconciliation of a NamespaceMap, whatever
    calls fail, leaves alone a namespace that exists and does not belong to the
    NamespaceMap: it is neither deleted nor changed, and the remote cluster gets no
    role in it. *)
Theorem foreign_namespace_untouched nm name o w w' r : w ⋅ ns_key name = Some o → managed_by o (nm_id nm) = false →
  reconcile (Ok nm) w = Ret (w', r) → w' ⋅ ns_key name = Some o ∧ w' ⋅ binding_key name nm = w ⋅ binding_key name nm.
Proof.
  intros Ho Hm H. apply (reconcile_untouched (nm_id nm) name o (binding_key name nm) (w ⋅ binding_key name nm) Hm eq_refl eq_refl nm eq_refl
    w w' r); [done|exact H].
Qed.

(** The finalizer of a NamespaceMap that is being deleted is taken away only
    when every namespace of its status is gone or belongs to someone else. *)
Theorem finalizer_after_namespaces nm w w' r x on st : nm_Deleting nm = true → NamespaceMapControllerFinalizer ∈ nm_Finalizers nm →
  pw_log w = [] → reconcile (Ok nm) w = Ret (w', r) → x ∈ pw_log w' → NamespaceMapControllerFinalizer ∉ nm_Finalizers x →
  CurrentMapping nm !! on = Some st → released (nm_id nm) (RemoteNamespace st) w'.
Proof.
  intros Hdel Hfin Hlog. cbn [NamespaceMapReconcile]. rewrite Hdel. unfold NamespaceMapDeletionProcess.
  intros [([nm1 err] & w1 & H1 & H2)|(e & H1 & ->)]%K_bind_inv Hx Hnx Hon; [|by apply deletion_no_error in H1 as [??]].
  pose proof H1 as Hshape. apply deletion_no_error in Hshape as [cur [= -> ->]].
  apply K_bind_inv in H1 as [([cur1 e1] & w0 & H1 & [= -> ->])|(e & _ & ?)]; [|done].
  destruct (deletion_loop_empties nm _ _ _ _ _ _ Hdel (NoDup_range _) H1) as [_ Hrel].
  assert (Hl1 : pw_log w1 = []) by (rewrite <- Hlog; by eapply (deletion_loop_log _ _ _ _ _ w), H1).
  apply K_bind_inv in H2 as [([] & w2 & H2 & H3)|(e & H2 & ->)].
  - apply log_write_inv in H2 as [Hs2 Hl2]; cbn in Hl2. rewrite Hl1 in Hl2. case_bool_decide as Hempty.
    + unfold RemoveNamespaceMapControllerFinalizer in H3. cbn in H3. rewrite bool_decide_true in H3 by done.
      apply log_write_inv in H3 as [Hs3 _]. unfold released. rewrite Hs3, Hs2. eapply Hrel; [by rewrite Hrc, elem_of_map_to_list|].
      cbn in Hempty. by rewrite Hempty.
    + injection H3 as <- _. rewrite Hl2 in Hx. apply list_elem_of_singleton in Hx as ->. by destruct Hnx.
  - apply log_write_inv in H2 as [_ Hl2]. rewrite Hl1 in Hl2. cbn in Hl2. rewrite Hl2 in Hx. by apply elem_of_nil in Hx.
Qed.

End server.

(** ** Examples *)

#[export] Instance ns_updater : CreateOrUpdater ns_payload := documented ns_payload.
Definition ns_kinds (r : string) : option (string * string) := if bool_decide (r = "rolebindings"%string) then Some ("RoleBinding", "rbac")%string else None.
Notation ex_nworld := (pworld (Api := memory) ns_payload NamespaceMap).
Definition ex_nsmap (deleting : bool) (fs : list string) (desired : gmap string string) (cur : gmap string RemoteNamespaceStatus) : NamespaceMap :=
  mkNamespaceMap "milan" "liqo-tenant-milan" {[ ReplicationOriginKey := "milan"%string ]} fs deleting desired cur.
Definition ex_foreign : Obj ns_payload := mkObj ∅ ∅ [] false 1 (AMap PNamespace) Absent.
Definition ex_owned : Obj ns_payload := mkObj ∅ {[ ManagedByAnnotation := "liqo-tenant-milan/milan"%string ]} [] false 1 (AMap PNamespace) Absent.
Definition ex_reconcile (nm : NamespaceMap) (w : ex_nworld) : outcome (ex_nworld * result kerr ()) :=
  NamespaceMapReconcile (plain_client (fun _ _ _ _ => [])) (log_write (fun _ _ => None)) (log_write (fun _ _ => None)) knownVariables ns_kinds ∅ ∅
    map_to_list map_to_list (Ok nm) w.
Definition ex_world (m : gmap okey (Obj ns_payload)) : ex_nworld := mkPworld (m : server (KubeApi := memory)) [].
Definition ex_end (w : ex_nworld) (o : outcome (ex_nworld * result kerr ())) : ex_nworld := match o with Ret (w, _) => w | _ => w end.
Definition ex_result (o : outcome (ex_nworld * result kerr ())) : option (result kerr ()) := match o with Ret (_, r) => Some r | _ => None end.
Lemma ex_returns w o r : ex_result o = Some r → o = Ret (ex_end w o, r).
Proof. destruct o as [[w' r']| |]; cbn; [|done..]. by intros [= ->]. Qed.

Definition ex_claiming : NamespaceMap := ex_nsmap false [] {[ "web"%string := "kube-system"%string ]} ∅.
Definition ex_system : ex_nworld := ex_world {[ ns_key "kube-system" := ex_foreign ]}.
Lemma foreign_namespace_untouched_witness :
  let w' := ex_end ex_system (ex_reconcile ex_claiming ex_system) in
  ex_reconcile ex_claiming ex_system = Ret (w', Err OtherErr) ∧ content (pw_server w') !! ns_key "kube-system" = Some ex_foreign.
Proof.
  assert (H : ex_reconcile ex_claiming ex_system = Ret (ex_end ex_system (ex_reconcile ex_claiming ex_system), Err OtherErr))
    by (apply ex_returns; vm_compute; reflexivity).
  split; [exact H|].
  refine (proj1 (foreign_namespace_untouched (fun _ _ _ _ => []) (fun _ _ => None) (fun _ _ => None) knownVariables ns_kinds ∅ ∅ map_to_list map_to_list
    ex_claiming "kube-system" ex_foreign ex_system _ _ _ _ H));
    [apply lookup_singleton_eq|vm_compute; reflexivity].
Defined.

Definition ex_leaving : NamespaceMap := ex_nsmap true [NamespaceMapControllerFinalizer] {[ "web"%string := "web-milan"%string ]}
  {[ "web"%string := mkRemote "web-milan" MappingAccepted ]}.
Definition ex_empty_world : ex_nworld := ex_world ∅.
Definition ex_gone : NamespaceMap := ex_nsmap true [] {[ "web"%string := "web-milan"%string ]} ∅.
Lemma finalizer_after_namespaces_witness :
  let w' := ex_end ex_empty_world (ex_reconcile ex_leaving ex_empty_world) in released "liqo-tenant-milan/milan" "web-milan" w'.
Proof.
  assert (H : ex_reconcile ex_leaving ex_empty_world = Ret (ex_end ex_empty_world (ex_reconcile ex_leaving ex_empty_world), Ok ()))
    by (apply ex_returns; vm_compute; reflexivity).
  refine (finalizer_after_namespaces (fun _ _ _ _ => []) (fun _ _ => None) (fun _ _ => None) knownVariables ns_kinds ∅ ∅ map_to_list map_to_list (fun _ => reflexivity _) ex_leaving ex_empty_world _ _
    ex_gone "web" (mkRemote "web-milan" MappingAccepted) eq_refl _ eq_refl H _ _ _).
  - by apply list_elem_of_singleton.
  - assert (E : nth_error (pw_log (ex_end ex_empty_world (ex_reconcile ex_leaving ex_empty_world))) 1 = Some ex_gone) by (vm_compute; reflexivity).
    apply list_elem_of_In. by eapply nth_error_In.
  - apply not_elem_of_nil.
  - apply lookup_singleton_eq.
Defined.

Definition ex_moving : NamespaceMap := ex_nsmap false [] {[ "web"%string := "web-milan"%string ]} {[ "db"%string := mkRemote "db-milan" MappingAccepted ]}.
Definition ex_before : ex_nworld := ex_world {[ ns_key "db-milan" := ex_owned ]}.

(** A server that refuses deletions. *)
Definition refusing : Client ex_nworld ns_payload := {|
  c_Get := plain_get; c_List := fun _ _ _ w => Ret (w, Ok []); c_Create := fun k o => on_pserver (Create k o);
  c_Update := fun k o => on_pserver (Update k o); c_Delete := fun _ w => Ret (w, Err Forbidden)
|}.
Definition ex_refused (w : ex_nworld) : outcome (ex_nworld * result kerr ()) :=
  NamespaceMapReconcile refusing (log_write (fun _ _ => None)) (log_write (fun _ _ => None)) knownVariables ns_kinds ∅ ∅
    map_to_list map_to_list (Ok ex_leaving) w.
Definition ex_kept : ex_nworld := ex_world {[ ns_key "web-milan" := ex_owned ]}.
Lemma deletion_errors_lost_witness : ∃ w' r, ex_refused ex_kept = Ret (w', r) ∧ r = Ok () ∧
  bool_decide (is_Some (content (pw_server w') !! ns_key "web-milan")) = true.
Proof.
  destruct (ex_refused ex_kept) as [[w' r]| |] eqn:E;
    [|exfalso; assert (H : bool_decide (is_Some (ex_result (ex_refused ex_kept))) = true) by (vm_compute; reflexivity); rewrite E in H; discriminate H..].
  exists w', r. split; [reflexivity|]. split.
  - refine (deletion_errors_lost refusing map_to_list (log_write (fun _ _ => None)) (log_write (fun _ _ => None)) knownVariables ns_kinds ∅ ∅ map_to_list ex_leaving ex_kept w' r _ _ eq_refl E);
      intros x w1 w2 r1; unfold log_write; by intros [= _ <-].
  - assert (H : bool_decide (is_Some (content (pw_server (ex_end ex_kept (ex_refused ex_kept))) !! ns_key "web-milan")) = true) by (vm_compute; reflexivity).
    rewrite E in H. exact H.
Defined.

(** A cache without the namespaces of the server. *)
Definition lagging : Client ex_nworld ns_payload := {|
  c_Get := fun k w => if bool_decide (k.1.1 = "namespaces"%string) then Ret (w, Err NotFound) else plain_get k w;
  c_List := fun _ _ _ w => Ret (w, Ok []);
  c_Create := fun k o w => if bool_decide (is_Some (content (pw_server w) !! k)) then Ret (w, Err AlreadyExists) else on_pserver (Create k o) w;
  c_Update := fun k o => on_pserver (Update k o); c_Delete := fun k => on_pserver (Delete k)
|}.
Definition ex_bind (w : ex_nworld) : outcome (ex_nworld * result kerr (bool * option kerr)) :=
  createNamespace lagging knownVariables ns_kinds ∅ ∅ "kube-system" "web" ex_claiming w.
Lemma stale_read_binds_witness : ∃ w', ex_bind ex_system = Ret (w', Ok (true, None)) ∧
  bool_decide (o_spec <$> content (pw_server w') !! binding_key "kube-system" ex_claiming =
               Some (AMap (PBinding ["milan"%string] RemoteNamespaceClusterRoleName))) = true.
Proof.
  unfold ex_bind. rewrite (stale_read_binds lagging knownVariables ns_kinds ∅ ∅ "kube-system" "web" ex_claiming ex_system ex_system ex_system).
  2: reflexivity.
  2: cbn [c_Create lagging]; rewrite bool_decide_true; [reflexivity|exists ex_foreign; apply lookup_singleton_eq].
  match goal with |- ∃ w', ?x = _ ∧ _ => set (o := x) end.
  assert (H : match o with
              | Ret (w', Ok (true, None)) => bool_decide (o_spec <$> content (pw_server w') !! binding_key "kube-system" ex_claiming =
                                                          Some (AMap (PBinding ["milan"%string] RemoteNamespaceClusterRoleName)))
              | _ => false
              end = true) by (vm_compute; reflexivity).
  destruct o as [[w' [[[] [|]]|e]]| |]; [discriminate H| |discriminate H..]. exists w'. split; [reflexivity|exact H].
Defined.

Lemma forged_wakes_its_map_witness : nm_enqueuer (forged_namespace ex_claiming "web") = [("liqo-tenant-milan", "milan")%string].
Proof. apply (forged_wakes_its_map ex_claiming); reflexivity. Defined.
