(* ===== verification/NsOff.v ===== *)
(** * NsOff: the controller of NamespaceOffloadings and its webhook
      (src/pkg/liqo-controller-manager/offloading/namespaceoffloading-controller/
       {namespaceoffloading_controller,clusterselector,mappings,lifecycle,labels,status}.go,
       src/pkg/webhooks/namespaceoffloading/nsoff.go, src/pkg/utils/virtualnode/virtualnode.go,
       src/pkg/utils/syncset)

    A NamespaceOffloading selects the clusters a namespace is extended to.  The
    controller writes the wanted namespace into the NamespaceMap of each selected
    cluster and summarises what the NamespaceMaps report. *)

From S2P Require Export PodWebhook NsMap.
Local Open Scope Z_scope.

Inductive NamespaceMappingStrategyType := EnforceSameName | DefaultName | SelectedName | OtherMapping (s : string).
#[export] Instance NamespaceMappingStrategyType_eq_dec : EqDecision NamespaceMappingStrategyType.
Proof. solve_decision. Defined.
Inductive OffloadingPhaseType := PhaseReady | PhaseNoClusterSelected | PhaseInProgress | PhaseSomeFailed | PhaseAllFailed | PhaseTerminating | PhaseUnset.
#[export] Instance OffloadingPhaseType_eq_dec : EqDecision OffloadingPhaseType.
Proof. solve_decision. Defined.
Inductive RemoteNamespaceConditionType := NamespaceOffloadingRequired | NamespaceReady.
#[export] Instance RemoteNamespaceConditionType_eq_dec : EqDecision RemoteNamespaceConditionType.
Proof. solve_decision. Defined.

Record RemoteNamespaceCondition := mkCondition {
  rc_Type : RemoteNamespaceConditionType; rc_Status : bool; rc_Reason : string; rc_Message : string; rc_Time : Z
}.
#[export] Instance RemoteNamespaceCondition_eq_dec : EqDecision RemoteNamespaceCondition.
Proof. solve_decision. Defined.
Record NamespaceOffloadingStatus := mkNsoffStatus {
  st_RemoteNamespaceName : string; OffloadingPhase : OffloadingPhaseType;
  RemoteNamespacesConditions : gmap string (list RemoteNamespaceCondition); ObservedGeneration : Z
}.
#[export] Instance NamespaceOffloadingStatus_eq_dec : EqDecision NamespaceOffloadingStatus.
Proof. solve_decision. Defined.
Record NamespaceOffloading := mkNsoff {
  no_Name : string; no_Namespace : string; no_Generation : Z; no_Finalizers : list string; no_Deleting : bool;
  NamespaceMappingStrategy : NamespaceMappingStrategyType; RemoteNamespaceName : string;
  PodOffloadingStrategy : PodOffloadingStrategyType; ClusterSelector : NodeSelector; no_Status : NamespaceOffloadingStatus
}.
Definition set_nsoff_finalizers (n : NamespaceOffloading) (l : list string) : NamespaceOffloading :=
  mkNsoff (no_Name n) (no_Namespace n) (no_Generation n) l (no_Deleting n) (NamespaceMappingStrategy n) (RemoteNamespaceName n)
    (PodOffloadingStrategy n) (ClusterSelector n) (no_Status n).
Definition set_nsoff_status (n : NamespaceOffloading) (s : NamespaceOffloadingStatus) : NamespaceOffloading :=
  mkNsoff (no_Name n) (no_Namespace n) (no_Generation n) (no_Finalizers n) (no_Deleting n) (NamespaceMappingStrategy n) (RemoteNamespaceName n)
    (PodOffloadingStrategy n) (ClusterSelector n) s.
Definition set_conditions (s : NamespaceOffloadingStatus) (m : gmap string (list RemoteNamespaceCondition)) : NamespaceOffloadingStatus :=
  mkNsoffStatus (st_RemoteNamespaceName s) (OffloadingPhase s) m (ObservedGeneration s).

(** Nil [VirtualNode] labels are an empty map. *)
Record VirtualNode := mkVirtualNode { vn_Name : string; vn_ClusterID : string; vn_Labels : labels; vn_StorageClasses : list string }.

Definition namespaceOffloadingControllerFinalizer : string := "namespaceoffloading-controller.liqo.io/finalizer".
Definition DefaultNamespaceOffloadingName : string := "offloading".
Definition SchedulingLiqoLabel : string := "liqo.io/scheduling-enabled".
Definition SchedulingLiqoLabelValue : string := "true".
Definition StorageAvailableLabel : string := "storage.liqo.io/available".

(** ** The webhook *)

Inductive operation := OpCreate | OpUpdate | OpOther.
Inductive nsoff_response := NsoffBadRequest | NsoffDenied | NsoffAllowed (warnings : nat).
Definition nsoff_handleCreate (n : NamespaceOffloading) : nsoff_response :=
  if bool_decide (NamespaceMappingStrategy n = SelectedName) && bool_decide (RemoteNamespaceName n = ""%string) then NsoffDenied
  else NsoffAllowed 0.
Definition nsoff_handleUpdate (old : option NamespaceOffloading) (n : NamespaceOffloading) : nsoff_response :=
  match old with
  | None => NsoffBadRequest
  | Some old =>
    if negb (bool_decide (NamespaceMappingStrategy old = NamespaceMappingStrategy n)) then NsoffDenied
    else if negb (bool_decide (RemoteNamespaceName old = RemoteNamespaceName n)) then NsoffDenied
    else if negb (bool_decide (PodOffloadingStrategy n = LocalAndRemotePodOffloadingStrategyType)) &&
            negb (bool_decide (PodOffloadingStrategy old = PodOffloadingStrategy n)) then NsoffAllowed 1
    else NsoffAllowed 0
  end.
(** The decoded objects. *)
Definition nsoff_Handle (op : operation) (obj old : option NamespaceOffloading) : nsoff_response :=
  match obj with
  | None => NsoffBadRequest
  | Some n =>
    if negb (bool_decide (no_Name n = DefaultNamespaceOffloadingName)) then NsoffDenied
    else match op with
         | OpCreate => nsoff_handleCreate n
         | OpUpdate => nsoff_handleUpdate old n
         | OpOther => NsoffAllowed 0
         end
  end.

(** ** status.go *)

Definition remoteNamespaceName (localCluster : string) (n : NamespaceOffloading) : string :=
  match NamespaceMappingStrategy n with
  | EnforceSameName => no_Namespace n
  | SelectedName => RemoteNamespaceName n
  | DefaultName | OtherMapping _ => (no_Namespace n ++ "-" ++ localCluster)%string
  end.

Notation conditions := (gmap string (list RemoteNamespaceCondition)).
Definition ensureRemoteConditionsConsistence (m : conditions) (nsmaps : list NamespaceMap) : conditions :=
  filter (fun kv => kv.1 ∈ nm_Name <$> nsmaps) m.

Definition nsoffRequiredCondition (now : Z) (required : bool) : RemoteNamespaceCondition :=
  if required
  then mkCondition NamespaceOffloadingRequired true "ClusterSelected" "The remote cluster has been selected through the ClusterSelector field" now
  else mkCondition NamespaceOffloadingRequired false "ClusterNotSelected" "The remote cluster has not been selected through the ClusterSelector field" now.
Definition nsoffReadyCondition (now : Z) (phase : MappingPhase) : RemoteNamespaceCondition :=
  match phase with
  | MappingAccepted => mkCondition NamespaceReady true "NamespaceCreated" "Namespace correctly offloaded to the remote cluster" now
  | MappingCreationLoopBackOff => mkCondition NamespaceReady false "CreationLoopBackOff" "Some problems occurred during remote namespace creation" now
  | MappingTerminating => mkCondition NamespaceReady false "Terminating" "The remote namespace is being deleted" now
  | OtherPhase _ => mkCondition NamespaceReady false "Creating" "The remote namespace is being created" now
  end.
(** The first condition of the type is replaced, unless it says the same. *)
Fixpoint put_condition (l : list RemoteNamespaceCondition) (c : RemoteNamespaceCondition) : list RemoteNamespaceCondition :=
  match l with
  | [] => [c]
  | d :: l =>
    if bool_decide (rc_Type d = rc_Type c) then
      (if bool_decide (rc_Status d = rc_Status c) && bool_decide (rc_Reason d = rc_Reason c) then d else c) :: l
    else d :: put_condition l c
  end.
Definition setRemoteCondition (m : conditions) (name : string) (c : RemoteNamespaceCondition) : conditions :=
  <[name := put_condition (default [] (m !! name)) c]> m.

Definition no_phase : MappingPhase := OtherPhase "".
Definition phase_in (ns : string) (nm : NamespaceMap) : MappingPhase :=
  match CurrentMapping nm !! ns with Some st => Phase st | None => no_phase end.
Definition requested_in (ns : string) (nm : NamespaceMap) : bool := bool_decide (is_Some (DesiredMapping nm !! ns)).
Definition cluster_conditions (now : Z) (ns : string) (deleting : bool) (m : conditions) (nm : NamespaceMap) : conditions :=
  let requested := requested_in ns nm in
  let phase := phase_in ns nm in
  if deleting && negb requested && bool_decide (phase = no_phase) then delete (nm_Name nm) m
  else
    let m := setRemoteCondition m (nm_Name nm) (nsoffRequiredCondition now requested) in
    if requested || negb (bool_decide (phase = no_phase)) then setRemoteCondition m (nm_Name nm) (nsoffReadyCondition now phase) else m.
Definition count_maps (f : NamespaceMap → bool) (l : list NamespaceMap) : Z := Z.of_nat (List.length (List.filter f l)).
Definition setRemoteConditionsForEveryCluster (now : Z) (ns : string) (deleting : bool) (m : conditions) (nsmaps : list NamespaceMap) :
    conditions * (Z * Z * Z) :=
  (foldl (cluster_conditions now ns deleting) m nsmaps,
   (count_maps (requested_in ns) nsmaps, count_maps (fun nm => bool_decide (phase_in ns nm = MappingAccepted)) nsmaps,
    count_maps (fun nm => bool_decide (phase_in ns nm = MappingCreationLoopBackOff)) nsmaps)).
Definition offloading_phase (deleting : bool) (required ready failed : Z) : OffloadingPhaseType :=
  if deleting then PhaseTerminating
  else if required =? 0 then PhaseNoClusterSelected
  else if ready =? required then PhaseReady
  else if failed =? required then PhaseAllFailed
  else if 0 <? failed then PhaseSomeFailed
  else PhaseInProgress.
(** The status [enforceStatus] computes. *)
Definition new_status (localCluster : string) (now : Z) (n : NamespaceOffloading) (nsmaps : list NamespaceMap) : NamespaceOffloadingStatus :=
  let m := ensureRemoteConditionsConsistence (RemoteNamespacesConditions (no_Status n)) nsmaps in
  let '(m, (required, ready, failed)) := setRemoteConditionsForEveryCluster now (no_Namespace n) (no_Deleting n) m nsmaps in
  mkNsoffStatus (remoteNamespaceName localCluster n) (offloading_phase (no_Deleting n) required ready failed) m (no_Generation n).

Section controller.
Context {W : Type} (cl : Client W ns_payload) (update_nsoff update_nsoff_status : NamespaceOffloading → K W ()).
(** The merge patch of one entry of a NamespaceMap; the lists; the matching of
    selectors; the set of known namespaces. *)
Context (patch_mapping : NamespaceMap → string → option string → K W ()) (list_maps : K W (list NamespaceMap))
        (list_virtual_nodes : K W (list VirtualNode)) (list_nodes : string → K W (list Node)).
Context (match_terms : Node → NodeSelector → result kerr bool) (namespaces_Add namespaces_Remove : string → K W ()).
Context (localCluster : string) (now : Z) (range_maps : gmap string NamespaceMap → list (string * NamespaceMap)).

(** The NamespaceMaps of a reconciliation by cluster, shared by its parts. *)
Notation nsmaps := (gmap string NamespaceMap).
Definition maps_of (m : nsmaps) : list NamespaceMap := snd <$> range_maps m.

(** *** mappings.go: the object in memory changes before the patch is sent; the
    answer of the server, decoded into it, is taken to change nothing else *)

Definition set_desired (nm : NamespaceMap) (d : gmap string string) : NamespaceMap :=
  mkNamespaceMap (nm_Name nm) (nm_Namespace nm) (nm_Labels nm) (nm_Finalizers nm) (nm_Deleting nm) d (CurrentMapping nm).
Definition removeDesiredMapping (localName : string) (nm : NamespaceMap) : K W (NamespaceMap * option kerr) :=
  if bool_decide (is_Some (DesiredMapping nm !! localName)) then
    r ← attempt (patch_mapping nm localName None);
    mret (set_desired nm (delete localName (DesiredMapping nm)), match r with Ok _ => None | Err e => Some e end)
  else mret (nm, None).
Definition addDesiredMapping (localName remoteName : string) (nm : NamespaceMap) : K W (NamespaceMap * option kerr) :=
  if bool_decide (DesiredMapping nm !! localName = Some remoteName) then mret (nm, None)
  else
    r ← attempt (patch_mapping nm localName (Some remoteName));
    mret (set_desired nm (<[localName := remoteName]> (DesiredMapping nm)), match r with Ok _ => None | Err e => Some e end).
Fixpoint remove_loop (localName : string) (l : list (string * NamespaceMap)) (m : nsmaps) (failed : bool) : K W (nsmaps * bool) :=
  match l with
  | [] => mret (m, failed)
  | (id, nm) :: l =>
    '(nm, e) ← removeDesiredMapping localName nm;
    remove_loop localName l (<[id := nm]> m) (failed || match e with Some _ => true | None => false end)
  end.
Definition removeDesiredMappings (localName : string) (m : nsmaps) : K W (nsmaps * option kerr) :=
  '(m, failed) ← remove_loop localName (range_maps m) m false; mret (m, if (failed : bool) then Some OtherErr else None).

(** *** virtualnode.go *)

(** [GetLabelSelectors]: an error other than not found dereferences a nil node. *)
Definition GetLabelSelectors (vn : VirtualNode) : K W labels :=
  r ← attempt (list_nodes (vn_ClusterID vn));
  let absent := {[ RemoteClusterIDKey := vn_ClusterID vn;
                   StorageAvailableLabel := if bool_decide (vn_StorageClasses vn = []) then "true"%string else "false"%string ]} ∪ vn_Labels vn in
  match r with
  | Err NotFound => mret absent
  | Err _ => panic
  | Ok nodes =>
    match List.find (fun n => bool_decide (nd_Name n = vn_Name vn)) nodes with
    | Some n => mret (nd_Labels n)
    | None => mret absent
    end
  end.
Definition ForgeFakeNodeFromVirtualNode (vn : VirtualNode) : K W Node := l ← GetLabelSelectors vn; mret (mkNode (vn_Name vn) l []).

(** *** clusterselector.go *)

Definition MatchVirtualNodeSelectorTerms (vn : VirtualNode) (selector : NodeSelector) : K W bool :=
  match selector with
  | [] => mret true
  | _ =>
    n ← ForgeFakeNodeFromVirtualNode vn;
    match match_terms n selector with Ok b => mret b | Err e => fail e end
  end.
(** Errors of single mappings are joined; the first one stands for them. *)
Fixpoint selector_loop (n : NamespaceOffloading) (vns : list VirtualNode) (m : nsmaps) (errs : option kerr) : K W (nsmaps * option kerr) :=
  match vns with
  | [] => mret (m, errs)
  | vn :: vns =>
    r ← attempt (MatchVirtualNodeSelectorTerms vn (ClusterSelector n));
    match r with
    | Err e => mret (m, Some e)
    | Ok b =>
      match m !! vn_ClusterID vn with
      | None => panic
      | Some nm =>
        '(nm, e) ← (if (b : bool) then addDesiredMapping (no_Namespace n) (remoteNamespaceName localCluster n) nm
                    else removeDesiredMapping (no_Namespace n) nm);
        selector_loop n vns (<[vn_ClusterID vn := nm]> m) (match errs with Some x => Some x | None => e end)
      end
    end
  end.
Definition enforceClusterSelector (n : NamespaceOffloading) (m : nsmaps) : K W (nsmaps * option kerr) :=
  r ← attempt list_virtual_nodes;
  match r with
  | Err e => mret (m, Some e)
  | Ok vns =>
    if forallb (fun vn => bool_decide (is_Some (m !! vn_ClusterID vn))) vns then selector_loop n vns m None
    else mret (m, Some OtherErr)
  end.
Definition getClusterIDMap : K W nsmaps :=
  l ← list_maps;
  mret (foldl (fun m nm => match nm_Labels nm !! RemoteClusterIDKey with
                           | Some v => if bool_decide (v = ""%string) then m else <[v := nm]> m
                           | None => m
                           end) ∅ l).

(** *** labels.go *)

Definition set_obj_labels (o : Obj ns_payload) (l : labels) : Obj ns_payload :=
  mkObj l (o_annotations o) (o_finalizers o) (o_deleting o) (o_version o) (o_spec o) (o_status o).
Definition enforceSchedulingLabelPresence (name : string) : K W () :=
  ns ← c_Get cl (ns_key name);
  if bool_decide (o_labels ns !! SchedulingLiqoLabel = Some SchedulingLiqoLabelValue) then mret ()
  else _ ← c_Update cl (ns_key name) (set_obj_labels ns (<[SchedulingLiqoLabel := SchedulingLiqoLabelValue]> (o_labels ns))); mret ().
Definition enforceSchedulingLabelAbsence (name : string) : K W () :=
  ns ← c_Get cl (ns_key name);
  if bool_decide (o_labels ns !! SchedulingLiqoLabel = Some SchedulingLiqoLabelValue)
  then _ ← c_Update cl (ns_key name) (set_obj_labels ns (delete SchedulingLiqoLabel (o_labels ns))); mret ()
  else mret ().

(** *** lifecycle.go *)

Definition error_of {A} (r : result kerr A) : option kerr := match r with Ok _ => None | Err e => Some e end.
Definition deletionLogic (n : NamespaceOffloading) (m : nsmaps) : K W (NamespaceOffloading * nsmaps * option kerr) :=
  r ← attempt (enforceSchedulingLabelAbsence (no_Namespace n));
  match r with
  | Err e => mret (n, m, Some e)
  | Ok _ =>
    '(m, e) ← removeDesiredMappings (no_Namespace n) m;
    match e with
    | Some e => mret (n, m, Some e)
    | None =>
      if negb (bool_decide (RemoteNamespacesConditions (no_Status n) = ∅)) then mret (n, m, Some OtherErr)
      else
        let n := set_nsoff_finalizers n (List.filter (fun f => negb (bool_decide (f = namespaceOffloadingControllerFinalizer))) (no_Finalizers n)) in
        r ← attempt (update_nsoff n); mret (n, m, error_of r)
    end
  end.
Definition enforceFinalizerPresence (n : NamespaceOffloading) : K W (NamespaceOffloading * option kerr) :=
  if bool_decide (namespaceOffloadingControllerFinalizer ∈ no_Finalizers n) then mret (n, None)
  else
    let n := set_nsoff_finalizers n (no_Finalizers n ++ [namespaceOffloadingControllerFinalizer]) in
    r ← attempt (update_nsoff n); mret (n, error_of r).

(** *** status.go and the reconciliation *)

Definition enforceStatus (n : NamespaceOffloading) (m : nsmaps) : K W () :=
  let st := new_status localCluster now n (maps_of m) in
  if bool_decide (st = no_Status n) then mret () else update_nsoff_status (set_nsoff_status n st).

(** The body of [Reconcile] up to its deferred function. *)
Definition reconcile_body (n : NamespaceOffloading) (m : nsmaps) : K W (NamespaceOffloading * nsmaps * option kerr) :=
  if no_Deleting n then deletionLogic n m
  else
    '(n, e) ← enforceFinalizerPresence n;
    match e with
    | Some e => mret (n, m, Some e)
    | None =>
      '(m, e) ← enforceClusterSelector n m;
      match e with
      | Some e => mret (n, m, Some e)
      | None =>
        r ← attempt (match PodOffloadingStrategy n with
                     | LocalAndRemotePodOffloadingStrategyType | RemotePodOffloadingStrategyType => enforceSchedulingLabelPresence (no_Namespace n)
                     | _ => enforceSchedulingLabelAbsence (no_Namespace n)
                     end);
        mret (n, m, error_of r)
      end
    end.
(** The deferred function assigns the error that is returned. *)
Definition NsoffReconcile (ns : string) (got : result kerr NamespaceOffloading) : K W () :=
  match got with
  | Err NotFound => namespaces_Remove ns
  | Err e => fail e
  | Ok n =>
    m ← getClusterIDMap;
    _ ← namespaces_Add ns;
    '(n, m, _) ← reconcile_body n m;
    enforceStatus n m
  end.
End controller.

(** ** Events of NamespaceMaps: the namespaces to reconcile

    The set of known namespaces is read as a whole. *)

Inductive map_event := MapCreated | MapUpdated (oldMappings newMappings : gmap string RemoteNamespaceStatus) | MapDeleted.
Definition namespaceMapHandlers (namespaces : gset string) (ev : map_event) : list string :=
  match ev with
  | MapCreated | MapDeleted => elements namespaces
  | MapUpdated oldM newM =>
    (List.filter (fun kv => match newM !! kv.1 with
                            | Some st => negb (bool_decide (Phase kv.2 = Phase st))
                            | None => true
                            end) (map_to_list oldM)).*1 ++
    (List.filter (fun kv => negb (bool_decide (is_Some (oldM !! kv.1)))) (map_to_list newM)).*1
  end.
(** [enqueueAll] on the list that was read. *)
Definition enqueueAll (listed : result kerr (list NamespaceOffloading)) : list (string * string) :=
  match listed with
  | Err _ => []
  | Ok l => (fun n => (no_Namespace n, no_Name n)) <$> l
  end.
