(* ===== verification/NsOffProps.v ===== *)
(** * NsOffProps: what a NamespaceOffloading leads to, and what its status says *)

From S2P Require Export NsOff KubeClient.
Local Open Scope Z_scope.

(** ** The phase *)

(** What the phase should say of the clusters that are requested. *)
Definition phase_of_clusters (ns : string) (maps : list NamespaceMap) : OffloadingPhaseType :=
  let requested := List.filter (requested_in ns) maps in
  let all p := forallb (fun nm => bool_decide (phase_in ns nm = p)) requested in
  if bool_decide (requested = []) then PhaseNoClusterSelected
  else if all MappingAccepted then PhaseReady
  else if all MappingCreationLoopBackOff then PhaseAllFailed
  else if existsb (fun nm => bool_decide (phase_in ns nm = MappingCreationLoopBackOff)) requested then PhaseSomeFailed
  else PhaseInProgress.

Lemma filter_length_le {A} (f g : A → bool) l : (∀ x, x ∈ l → g x = true → f x = true) →
  (List.length (List.filter g l) <= List.length (List.filter f l))%nat ∧
  (List.length (List.filter g l) = List.length (List.filter f l) ↔ forallb g (List.filter f l) = true).
Proof.
  induction l as [|x l IH]; intros H; [done|]. destruct IH as [IH1 IH2]; [intros y Hy; by apply H, elem_of_cons; right|].
  specialize (H x ltac:(by apply elem_of_cons; left)). cbn [List.filter].
  destruct (g x) eqn:Hg; [rewrite H by done; cbn; rewrite Hg; cbn; split; [lia|]; rewrite <- IH2; lia|].
  destruct (f x) eqn:Hf; cbn; [rewrite Hg; cbn; split; [lia|]; split; [lia|done]|]. done.
Qed.
Lemma filter_pos {A} (f g : A → bool) l : (∀ x, x ∈ l → g x = true → f x = true) →
  (0 < List.length (List.filter g l))%nat ↔ existsb g (List.filter f l) = true.
Proof.
  induction l as [|x l IH]; intros H; [cbn; split; [lia|done]|].
  assert (IH' := IH (fun y Hy => H y ltac:(by apply elem_of_cons; right))).
  specialize (H x ltac:(by apply elem_of_cons; left)). cbn [List.filter].
  destruct (g x) eqn:Hg; [rewrite H by done; cbn; rewrite Hg; split; [done|lia]|]. rewrite IH'.
  destruct (f x); cbn; [by rewrite Hg|done].
Qed.

(** The clusters whose remote namespace is ready or failed are requested ones. *)
Definition settled_maps (ns : string) (maps : list NamespaceMap) : Prop := ∀ nm, nm ∈ maps →
  phase_in ns nm = MappingAccepted ∨ phase_in ns nm = MappingCreationLoopBackOff → requested_in ns nm = true.
Lemma phase_spec ns maps : settled_maps ns maps →
  let '(_, (required, ready, failed)) := setRemoteConditionsForEveryCluster 0 ns false ∅ maps in
  offloading_phase false required ready failed = phase_of_clusters ns maps.
Proof.
  intros Hs. unfold setRemoteConditionsForEveryCluster, offloading_phase, phase_of_clusters, count_maps.
  set (acc := fun nm => bool_decide (phase_in ns nm = MappingAccepted)).
  set (lb := fun nm => bool_decide (phase_in ns nm = MappingCreationLoopBackOff)).
  assert (H1 : ∀ nm, nm ∈ maps → acc nm = true → requested_in ns nm = true) by (intros nm Hel H%bool_decide_eq_true; apply Hs; auto).
  assert (H2 : ∀ nm, nm ∈ maps → lb nm = true → requested_in ns nm = true) by (intros nm Hel H%bool_decide_eq_true; apply Hs; auto).
  destruct (filter_length_le (requested_in ns) acc maps H1) as [L1 E1]. destruct (filter_length_le (requested_in ns) lb maps H2) as [L2 E2].
  pose proof (filter_pos (requested_in ns) lb maps H2) as E3. set (req := List.filter (requested_in ns) maps) in *.
  case_bool_decide as Hreq; [by rewrite Hreq|].
  destruct (Z.eqb_spec (Z.of_nat (List.length req)) 0); [by destruct req|].
  destruct (Z.eqb_spec (Z.of_nat (List.length (List.filter acc maps))) (Z.of_nat (List.length req))), (forallb acc req); try tauto; try (exfalso; intuition lia).
  destruct (Z.eqb_spec (Z.of_nat (List.length (List.filter lb maps))) (Z.of_nat (List.length req))), (forallb lb req); try tauto; try (exfalso; intuition lia).
  destruct (Z.ltb_spec 0 (Z.of_nat (List.length (List.filter lb maps)))), (existsb lb req); try tauto; exfalso; intuition lia.
Qed.
Lemma new_status_phase localCluster now n maps : no_Deleting n = false → settled_maps (no_Namespace n) maps →
  OffloadingPhase (new_status localCluster now n maps) = phase_of_clusters (no_Namespace n) maps.
Proof.
  intros Hd Hs. rewrite <- phase_spec by done. unfold new_status, setRemoteConditionsForEveryCluster. cbn [OffloadingPhase]. by rewrite Hd.
Qed.

(** When only requested clusters report the namespace as ready or failed, the
    phase of a NamespaceOffloading is the summary of the requested ones: none
    selected, all ready, all failed, some failed, or in progress. *)
Theorem status_summarises localCluster now n maps : no_Deleting n = false → settled_maps (no_Namespace n) maps →
  OffloadingPhase (new_status localCluster now n maps) = phase_of_clusters (no_Namespace n) maps ∧
  st_RemoteNamespaceName (new_status localCluster now n maps) = remoteNamespaceName localCluster n.
Proof. intros Hd Hs. split; [by apply new_status_phase|done]. Qed.

(** A cluster no longer requested counts as ready until its namespace goes, so
    the phase is ready although the only requested cluster failed. *)
Theorem withdrawn_cluster_counts localCluster now n a b : no_Deleting n = false →
  requested_in (no_Namespace n) a = true → phase_in (no_Namespace n) a = MappingCreationLoopBackOff →
  requested_in (no_Namespace n) b = false → phase_in (no_Namespace n) b = MappingAccepted →
  OffloadingPhase (new_status localCluster now n [a; b]) = PhaseReady ∧ phase_of_clusters (no_Namespace n) [a; b] = PhaseAllFailed.
Proof.
  intros Hd Ha Hpa Hb Hpb. unfold new_status, setRemoteConditionsForEveryCluster, phase_of_clusters, count_maps. cbn [OffloadingPhase List.filter].
  rewrite Hd, Ha, Hb, Hpa, Hpb. cbn [forallb]. by rewrite Hpa.
Qed.

(** An update the webhook admits keeps the name of the remote namespace. *)
Theorem admitted_update_keeps_name localCluster old n k : no_Namespace n = no_Namespace old →
  nsoff_Handle OpUpdate (Some n) (Some old) = NsoffAllowed k → remoteNamespaceName localCluster n = remoteNamespaceName localCluster old.
Proof.
  intros Hns. cbn. case_bool_decide; cbn [negb]; [|done]. case_bool_decide as H1; cbn [negb]; [|done]. case_bool_decide as H2; cbn [negb]; [|done].
  intros _. unfold remoteNamespaceName. by rewrite Hns, <- H1, <- H2.
Qed.

(** An update of a NamespaceMap wakes up exactly the namespaces whose phase differs. *)
Lemma update_wakes_changed known oldM newM ns :
  ns ∈ namespaceMapHandlers known (MapUpdated oldM newM) ↔ Phase <$> oldM !! ns ≠ Phase <$> newM !! ns.
Proof.
  cbn [namespaceMapHandlers]. rewrite elem_of_app, !list_elem_of_fmap. split.
  - intros [([k st] & -> & H)|([k st] & -> & H)]; apply list_elem_of_In, filter_In in H as [H Hc]; apply list_elem_of_In in H;
      rewrite elem_of_map_to_list in H; cbn in *; rewrite H.
    + destruct (newM !! k) as [st'|]; [|done]. cbn. case_bool_decide; [done|]. congruence.
    + case_bool_decide as Hs; [done|]. by destruct (oldM !! k) eqn:E; [destruct Hs|].
  - intros Hne. destruct (oldM !! ns) as [st|] eqn:Ho.
    + left. exists (ns, st). split; [done|]. apply list_elem_of_In, filter_In. split; [by apply list_elem_of_In, elem_of_map_to_list|]. cbn.
      destruct (newM !! ns) as [st'|]; [|done]. cbn in Hne. apply negb_true_iff, bool_decide_eq_false. congruence.
    + destruct (newM !! ns) as [st'|] eqn:Hn; [|done]. right. exists (ns, st'). split; [done|]. apply list_elem_of_In, filter_In.
      split; [by apply list_elem_of_In, elem_of_map_to_list|]. cbn. rewrite Ho. apply negb_true_iff, bool_decide_eq_false. apply is_Some_None.
Qed.

(** ** The cluster selector *)

(** The selector reads the specification only. *)
Lemma enforce_selector_ext {W} (patch_mapping : NamespaceMap → string → option string → K W ()) list_vns list_nodes match_terms localCluster n n' m w :
  no_Namespace n' = no_Namespace n → ClusterSelector n' = ClusterSelector n → remoteNamespaceName localCluster n' = remoteNamespaceName localCluster n →
  enforceClusterSelector patch_mapping list_vns list_nodes match_terms localCluster n' m w =
  enforceClusterSelector patch_mapping list_vns list_nodes match_terms localCluster n m w.
Proof.
  intros E1 E2 E3. unfold enforceClusterSelector, mbind, K_bind. destruct (attempt list_vns w) as [[w1 [[vns|e]|e]]| |]; [|done..].
  case_match; [|done]. generalize (None : option kerr) as er. clear -E1 E2 E3. revert m w1. induction vns as [|vn vns IH]; intros m w er; [done|].
  cbn [selector_loop]. rewrite E1, E2, E3. unfold mbind, K_bind.
  destruct (attempt (MatchVirtualNodeSelectorTerms _ _ _ _) w) as [[w1 [[b|e]|e]]| |]; [|done..].
  destruct (m !! vn_ClusterID vn) as [nm|]; [|done]. destruct b.
  - destruct (addDesiredMapping _ _ _ _ w1) as [[w2 [[nm' e]|e]]| |]; [apply IH|done..].
  - destruct (removeDesiredMapping _ _ _ w1) as [[w2 [[nm' e]|e]]| |]; [apply IH|done..].
Qed.

Section selector.
Context {W : Type} (patch_mapping : NamespaceMap → string → option string → K W ()).
Context (list_nodes : string → K W (list Node)) (match_terms : Node → NodeSelector → result kerr bool).
Context (localCluster : string) (n : NamespaceOffloading).
(** Patches are answered and the selector decides. *)
Context (chosen : VirtualNode → bool).
Context (Hpatch : ∀ nm k v w, ∃ w', patch_mapping nm k v w = Ret (w', Ok ())).
Context (Hmatch : ∀ vn w, MatchVirtualNodeSelectorTerms list_nodes match_terms vn (ClusterSelector n) w = Ret (w, Ok (chosen vn))).
Notation loop := (selector_loop patch_mapping list_nodes match_terms localCluster n).

(** The mapping of the namespace as the selector wants it. *)
Definition decided (b : bool) (nm : NamespaceMap) : NamespaceMap :=
  set_desired nm (if b then <[no_Namespace n := remoteNamespaceName localCluster n]> (DesiredMapping nm)
                  else delete (no_Namespace n) (DesiredMapping nm)).
Lemma set_desired_id nm : set_desired nm (DesiredMapping nm) = nm.
Proof. by destruct nm. Qed.
Lemma add_decides nm w : ∃ w', addDesiredMapping patch_mapping (no_Namespace n) (remoteNamespaceName localCluster n) nm w = Ret (w', Ok (decided true nm, None)).
Proof.
  unfold addDesiredMapping. case_bool_decide as H.
  - exists w. unfold decided. by rewrite (insert_id _ _ _ H), set_desired_id.
  - destruct (Hpatch nm (no_Namespace n) (Some (remoteNamespaceName localCluster n)) w) as [w' E]. exists w'.
    by erewrite K_bind_ok by (apply attempt_ok, E).
Qed.
Lemma remove_decides nm w : ∃ w', removeDesiredMapping patch_mapping (no_Namespace n) nm w = Ret (w', Ok (decided false nm, None)).
Proof.
  unfold removeDesiredMapping. case_bool_decide as H.
  - destruct (Hpatch nm (no_Namespace n) None w) as [w' E]. exists w'. by erewrite K_bind_ok by (apply attempt_ok, E).
  - exists w. unfold decided. rewrite delete_id by (by apply eq_None_not_Some). by rewrite set_desired_id.
Qed.

(** The last virtual node of a cluster decides. *)
Fixpoint verdict (vns : list VirtualNode) (c : string) (nm : NamespaceMap) : NamespaceMap :=
  match vns with
  | [] => nm
  | vn :: vns => verdict vns c (if bool_decide (vn_ClusterID vn = c) then decided (chosen vn) nm else nm)
  end.
Lemma selector_loop_verdict vns m w : (∀ vn, vn ∈ vns → is_Some (m !! vn_ClusterID vn)) →
  ∃ w' m', loop vns m None w = Ret (w', Ok (m', None)) ∧ ∀ c, m' !! c = verdict vns c <$> m !! c.
Proof.
  revert m w. induction vns as [|vn vns IH]; intros m w Hin; cbn [selector_loop verdict].
  { exists w, m. split; [done|]. intros c. by destruct (m !! c). }
  erewrite K_bind_ok by (apply attempt_ok, Hmatch). cbv beta iota.
  destruct (Hin vn) as [nm Hnm]; [by apply elem_of_cons; left|]. rewrite Hnm.
  assert (Hstep : ∃ w1, (if chosen vn then addDesiredMapping patch_mapping (no_Namespace n) (remoteNamespaceName localCluster n) nm
                         else removeDesiredMapping patch_mapping (no_Namespace n) nm) w = Ret (w1, Ok (decided (chosen vn) nm, None)))
    by (destruct (chosen vn); [apply add_decides|apply remove_decides]).
  destruct Hstep as [w1 E1]. erewrite K_bind_ok by exact E1. cbv beta iota.
  destruct (IH (<[vn_ClusterID vn := decided (chosen vn) nm]> m) w1) as (w' & m' & E & Hm').
  { intros vn' Hvn'. rewrite lookup_insert_is_Some'. right. apply Hin. by apply elem_of_cons; right. }
  exists w', m'. split; [exact E|]. intros c. rewrite Hm'. case_bool_decide as Hc.
  - subst c. by rewrite lookup_insert_eq, Hnm.
  - by rewrite lookup_insert_ne.
Qed.
Lemma verdict_other vns c nm : c ∉ vn_ClusterID <$> vns → verdict vns c nm = nm.
Proof.
  revert nm. induction vns as [|vn vns IH]; intros nm; [done|]. rewrite fmap_cons, not_elem_of_cons. intros [H1 H2]. cbn.
  rewrite bool_decide_false by congruence. by apply IH.
Qed.
Lemma verdict_once vns vn nm : NoDup (vn_ClusterID <$> vns) → vn ∈ vns → verdict vns (vn_ClusterID vn) nm = decided (chosen vn) nm.
Proof.
  revert nm. induction vns as [|v vns IH]; intros nm; [by intros _ []%not_elem_of_nil|]. rewrite fmap_cons, NoDup_cons. intros [Hni Hnd].
  intros [->|Hel]%elem_of_cons; cbn; [rewrite bool_decide_true by done; by apply verdict_other|].
  rewrite bool_decide_false; [by apply IH|]. intros E. apply Hni. rewrite E. by apply list_elem_of_fmap_2.
Qed.

(** When patches are answered, the clusters have one virtual node each and a
    NamespaceMap, the enforcement of the selector leaves the namespace in exactly the
    NamespaceMaps of the clusters whose virtual node matches, under the remote name;
    other mappings and other NamespaceMaps are as before. *)
Theorem selector_enforced list_virtual_nodes vns m w : list_virtual_nodes w = Ret (w, Ok vns) → NoDup (vn_ClusterID <$> vns) →
  (∀ vn, vn ∈ vns → is_Some (m !! vn_ClusterID vn)) →
  ∃ w' m', enforceClusterSelector patch_mapping list_virtual_nodes list_nodes match_terms localCluster n m w = Ret (w', Ok (m', None)) ∧
    (∀ vn nm, vn ∈ vns → m !! vn_ClusterID vn = Some nm → ∃ nm', m' !! vn_ClusterID vn = Some nm' ∧
       DesiredMapping nm' !! no_Namespace n = (if chosen vn then Some (remoteNamespaceName localCluster n) else None) ∧
       (∀ k, k ≠ no_Namespace n → DesiredMapping nm' !! k = DesiredMapping nm !! k) ∧ CurrentMapping nm' = CurrentMapping nm) ∧
    (∀ c, c ∉ vn_ClusterID <$> vns → m' !! c = m !! c).
Proof.
  intros Hl Hnd Hin. unfold enforceClusterSelector. erewrite K_bind_ok by (apply attempt_ok, Hl). cbv beta iota.
  destruct (selector_loop_verdict vns m w Hin) as (w' & m' & E & Hm'). exists w', m'. split.
  - replace (forallb _ vns) with true; [exact E|]. symmetry. apply forallb_forall. intros vn Hvn%list_elem_of_In. by apply bool_decide_eq_true, Hin.
  - split.
    + intros vn nm Hvn Hnm. exists (decided (chosen vn) nm). rewrite Hm', Hnm. cbn. rewrite verdict_once by done. split; [done|].
      unfold decided. destruct (chosen vn); cbn [DesiredMapping set_desired].
      * split; [by rewrite lookup_insert_eq|]. split; [intros k Hk; by rewrite lookup_insert_ne|done].
      * split; [by rewrite lookup_delete_eq|]. split; [intros k Hk; by rewrite lookup_delete_ne|done].
    + intros c Hc. rewrite Hm'. destruct (m !! c) as [nm|]; [cbn|done]. by rewrite verdict_other.
Qed.
End selector.

(** ** Errors *)

Section errors.
Context {W : Type} (cl : Client W ns_payload) (update_nsoff update_nsoff_status : NamespaceOffloading → K W ()).
Context (patch_mapping : NamespaceMap → string → option string → K W ()) (list_maps : K W (list NamespaceMap))
        (list_virtual_nodes : K W (list VirtualNode)) (list_nodes : string → K W (list Node)).
Context (match_terms : Node → NodeSelector → result kerr bool) (namespaces_Add namespaces_Remove : string → K W ()).
Context (localCluster : string) (now : Z) (range_maps : gmap string NamespaceMap → list (string * NamespaceMap)).

(** What goes wrong in the body of a reconciliation of a NamespaceOffloading is
    not reported: the deferred update of the status assigns the error returned, so
    the reconciliation succeeds when that update does. *)
Theorem body_errors_lost ns n w w1 w2 w3 m n' m' e :
  (∀ x w1 w2 r, update_nsoff_status x w1 = Ret (w2, r) → r = Ok ()) →
  getClusterIDMap list_maps w = Ret (w1, Ok m) → namespaces_Add ns w1 = Ret (w2, Ok ()) →
  reconcile_body cl update_nsoff patch_mapping list_virtual_nodes list_nodes match_terms localCluster range_maps n m w2 = Ret (w3, Ok (n', m', Some e)) →
  ∀ w' r, NsoffReconcile cl update_nsoff update_nsoff_status patch_mapping list_maps list_virtual_nodes list_nodes match_terms
            namespaces_Add namespaces_Remove localCluster now range_maps ns (Ok n) w = Ret (w', r) → r = Ok ().
Proof.
  intros Hs Hm Ha Hb w' r. cbn [NsoffReconcile]. erewrite K_bind_ok by exact Hm. erewrite K_bind_ok by exact Ha.
  erewrite K_bind_ok by exact Hb. cbv beta iota. unfold enforceStatus. cbv zeta. case_match; [by intros [= _ <-]|apply Hs].
Qed.

(** A failed list of nodes ends the process: the name of a nil node is read for the
    error message. *)
Lemma node_list_error_panics vn selector w w1 e : selector ≠ [] → list_nodes (vn_ClusterID vn) w = Ret (w1, Err e) → e ≠ NotFound →
  MatchVirtualNodeSelectorTerms list_nodes match_terms vn selector w = Panic.
Proof.
  intros Hne Hl He. destruct selector as [|t l]; [done|]. cbn [MatchVirtualNodeSelectorTerms].
  unfold ForgeFakeNodeFromVirtualNode, GetLabelSelectors, attempt, mbind, K_bind. rewrite Hl. by destruct e.
Qed.
(** A virtual node without storage is matched as one with storage, and conversely. *)
Lemma storage_label_inverted vn w w1 : list_nodes (vn_ClusterID vn) w = Ret (w1, Ok []) →
  ∃ l, GetLabelSelectors list_nodes vn w = Ret (w1, Ok l) ∧
    l !! StorageAvailableLabel = Some (if bool_decide (vn_StorageClasses vn = []) then "true" else "false")%string.
Proof.
  intros Hl. eexists. split; [unfold GetLabelSelectors; by erewrite K_bind_ok by (apply attempt_ok, Hl)|].
  apply lookup_union_Some_l. rewrite lookup_insert_ne by done. apply lookup_singleton_eq.
Qed.
End errors.

(** Two virtual nodes of one cluster, the first matched and the second not: the
    mapping is written and taken back at every run. *)
Definition record_patch (nm : NamespaceMap) (k : string) (v : option string) : K (list (string * option string)) () :=
  fun w => Ret (w ++ [(k, v)], Ok ()).
Theorem shared_cluster_flaps list_nodes match_terms localCluster n v1 v2 nm w : vn_ClusterID v1 = vn_ClusterID v2 →
  (∀ w, MatchVirtualNodeSelectorTerms list_nodes match_terms v1 (ClusterSelector n) w = Ret (w, Ok true)) →
  (∀ w, MatchVirtualNodeSelectorTerms list_nodes match_terms v2 (ClusterSelector n) w = Ret (w, Ok false)) →
  DesiredMapping nm !! no_Namespace n = None →
  selector_loop record_patch list_nodes match_terms localCluster n [v1; v2] {[ vn_ClusterID v1 := nm ]} None w =
    Ret (w ++ [(no_Namespace n, Some (remoteNamespaceName localCluster n)); (no_Namespace n, None)], Ok ({[ vn_ClusterID v1 := nm ]}, None)).
Proof.
  intros Hc H1 H2 Hnm. cbn [selector_loop]. erewrite K_bind_ok by (apply attempt_ok, H1). cbv beta iota. rewrite lookup_singleton_eq.
  unfold addDesiredMapping. rewrite bool_decide_false by (by rewrite Hnm).
  erewrite K_bind_ok by (erewrite K_bind_ok by (apply attempt_ok; reflexivity); reflexivity). cbv beta iota.
  erewrite K_bind_ok by (apply attempt_ok, H2). cbv beta iota. rewrite <- Hc, lookup_insert_eq.
  unfold removeDesiredMapping. rewrite bool_decide_true by (cbn; rewrite lookup_insert_eq; by eexists).
  erewrite K_bind_ok by (erewrite K_bind_ok by (apply attempt_ok; reflexivity); reflexivity). cbv beta iota.
  rewrite <- app_assoc. cbn [app]. unfold mret, K_ret. do 4 f_equal. rewrite !insert_insert_eq, insert_singleton_eq. f_equal.
  unfold set_desired. cbn. rewrite delete_insert_id by done. by destruct nm.
Qed.

(** ** A whole reconciliation *)

Inductive off_write := WSpec (n : NamespaceOffloading) | WStatus (n : NamespaceOffloading) | WPatch (nm : NamespaceMap) (k : string) (v : option string).

Section flow.
Context {Api : KubeApi ns_payload} {R : Responsive ns_payload}.
Context (lists : string → string → labels → server → list (string * Obj ns_payload)).
Notation world := (pworld ns_payload off_write).
Context (answer : world → off_write → option kerr) (maps : list NamespaceMap) (vns : list VirtualNode).
Context (list_nodes : string → K world (list Node)) (match_terms : Node → NodeSelector → result kerr bool).
Context (localCluster : string) (now : Z) (range_maps : gmap string NamespaceMap → list (string * NamespaceMap)).
Context (n : NamespaceOffloading) (chosen : VirtualNode → bool).
Notation cl := (plain_client (L:=off_write) lists).
Notation patch := (fun nm k v => log_write answer (WPatch nm k v)).
Notation list_maps := (fun w : world => Ret (w, Ok maps) : outcome (world * result kerr (list NamespaceMap))).
Notation list_vns := (fun w : world => Ret (w, Ok vns) : outcome (world * result kerr (list VirtualNode))).
Notation no_effect := (fun (_ : string) (w : world) => Ret (w, Ok ()) : outcome (world * result kerr ())).
Notation reconcile := (NsoffReconcile cl (fun n => log_write answer (WSpec n)) (fun n => log_write answer (WStatus n)) patch
  list_maps list_vns list_nodes match_terms no_effect no_effect localCluster now range_maps).
Notation "w ⋅ k" := (content (pw_server w) !! k) (at level 20, k at next level).
Context (Hans : ∀ w x, answer w x = None) (Hrange : ∀ m, range_maps m ≡ₚ map_to_list m).
Context (Hmatch : ∀ vn w, MatchVirtualNodeSelectorTerms list_nodes match_terms vn (ClusterSelector n) w = Ret (w, Ok (chosen vn))).

Definition cluster_map : gmap string NamespaceMap :=
  foldl (fun m nm => match nm_Labels nm !! RemoteClusterIDKey with
                     | Some v => if bool_decide (v = ""%string) then m else <[v := nm]> m
                     | None => m
                     end) ∅ maps.

Lemma write_answered x w : ∃ w', log_write answer x w = Ret (w', Ok ()) ∧ pw_server w' = pw_server w ∧ pw_log w' = pw_log w ++ [x].
Proof. eexists. unfold log_write. rewrite Hans. done. Qed.
(** Either label routine succeeds on a namespace that exists. *)
Lemma update_answered k o o' w : w ⋅ k = Some o → o_version o' = o_version o → ∃ w' o2, c_Update cl k o' w = Ret (w', Ok o2) ∧ pw_log w' = pw_log w.
Proof.
  intros Hk Hv. pose proof (Update_answers k o' (pw_server w) o Hk Hv) as Ha. cbn [c_Update plain_client]. rewrite on_pserver_returns.
  destruct (Update k o' (pw_server w)) as [s [o2|]]; [|done]. by eexists _, o2.
Qed.
Lemma labels_answered (present : bool) ns o w : w ⋅ ns_key ns = Some o →
  ∃ w', (if present then enforceSchedulingLabelPresence cl ns else enforceSchedulingLabelAbsence cl ns) w = Ret (w', Ok ()) ∧ pw_log w' = pw_log w.
Proof.
  intros Hk. assert (Hg : c_Get cl (ns_key ns) w = Ret (w, Ok o)) by (cbn; unfold plain_get; by rewrite Hk).
  destruct present; [unfold enforceSchedulingLabelPresence|unfold enforceSchedulingLabelAbsence]; (erewrite K_bind_ok by exact Hg); case_bool_decide.
  1,4: by exists w.
  all: match goal with |- context [c_Update _ _ ?o'] => destruct (update_answered (ns_key ns) o o' w Hk eq_refl) as (w' & o2 & E & Hl) end;
    exists w'; by erewrite K_bind_ok by exact E.
Qed.

Lemma selector_settles m w : NoDup (vn_ClusterID <$> vns) → (∀ vn, vn ∈ vns → is_Some (m !! vn_ClusterID vn)) →
  ∃ w' m', enforceClusterSelector patch list_vns list_nodes match_terms localCluster n m w = Ret (w', Ok (m', None)) ∧ pw_server w' = pw_server w ∧
    ∀ c, m' !! c = verdict localCluster n chosen vns c <$> m !! c.
Proof.
  intros Hnd Hin. unfold enforceClusterSelector. erewrite K_bind_ok by (apply attempt_ok; reflexivity). cbv beta iota.
  destruct (selector_loop_verdict patch list_nodes match_terms localCluster n chosen) with (vns := vns) (m := m) (w := w) as (w' & m' & E & Hm');
    [intros nm k v w0; destruct (write_answered (WPatch nm k v) w0) as (w' & E & _); by exists w'|exact Hmatch|exact Hin|].
  exists w', m'. split; [|split; [|exact Hm']].
  - replace (forallb _ vns) with true; [exact E|]. symmetry. apply forallb_forall. intros vn Hvn%list_elem_of_In. by apply bool_decide_eq_true, Hin.
  - assert (Hp : preserves (fun w' => pw_server w' = pw_server w) (selector_loop patch list_nodes match_terms localCluster n vns m None)); [|by eapply Hp, E].
    assert (Hlog : ∀ x, preserves (fun w' => pw_server w' = pw_server w) (log_write answer x)).
    { intros x w1 w2 r Hw1. unfold log_write. rewrite Hans. by intros [= <- _]. }
    clear -Hlog Hmatch. generalize (None : option kerr) as e. revert m. induction vns as [|vn l IH]; intros m e; cbn [selector_loop]; [apply preserves_ret|].
    apply preserves_bind; [apply preserves_attempt; intros w1 w2 r Hw1; rewrite Hmatch; by intros [= <- _]|].
    intros [b|]; [|apply preserves_ret]. destruct (m !! vn_ClusterID vn) as [nm|]; [|apply preserves_panic].
    apply preserves_bind; [|intros [nm' e']; apply IH].
    destruct b; [unfold addDesiredMapping|unfold removeDesiredMapping]; case_match; try apply preserves_ret;
      (apply preserves_bind; [apply preserves_attempt, Hlog|intros; apply preserves_ret]).
Qed.

(** The clusters that are known, and what they report: ready where they are chosen. *)
Definition reported (m : gmap string NamespaceMap) : Prop := ∀ c nm, m !! c = Some nm → ∃ vn, vn ∈ vns ∧ vn_ClusterID vn = c ∧
  if chosen vn then phase_in (no_Namespace n) nm = MappingAccepted
  else phase_in (no_Namespace n) nm ≠ MappingAccepted ∧ phase_in (no_Namespace n) nm ≠ MappingCreationLoopBackOff.
Lemma phase_decided b nm : phase_in (no_Namespace n) (decided localCluster n b nm) = phase_in (no_Namespace n) nm.
Proof. done. Qed.
Lemma requested_decided b nm : requested_in (no_Namespace n) (decided localCluster n b nm) = b.
Proof.
  unfold requested_in, decided. destruct b; cbn; [rewrite lookup_insert_eq; by apply bool_decide_eq_true_2|].
  rewrite lookup_delete_eq. by apply bool_decide_eq_false_2, is_Some_None.
Qed.
Lemma verdicts_ready m m' : NoDup (vn_ClusterID <$> vns) → reported m → (∃ vn, vn ∈ vns ∧ chosen vn = true ∧ is_Some (m !! vn_ClusterID vn)) →
  (∀ c, m' !! c = verdict localCluster n chosen vns c <$> m !! c) →
  settled_maps (no_Namespace n) (maps_of range_maps m') ∧ phase_of_clusters (no_Namespace n) (maps_of range_maps m') = PhaseReady.
Proof.
  intros Hnd Hrep Hex Hm'.
  assert (Hall : ∀ nm', nm' ∈ maps_of range_maps m' → ∃ b nm, nm' = decided localCluster n b nm ∧
    if b then phase_in (no_Namespace n) nm = MappingAccepted
    else phase_in (no_Namespace n) nm ≠ MappingAccepted ∧ phase_in (no_Namespace n) nm ≠ MappingCreationLoopBackOff).
  { intros nm' ([c x] & -> & Hel)%list_elem_of_fmap. rewrite Hrange, elem_of_map_to_list, Hm' in Hel. cbn.
    destruct (m !! c) as [nm|] eqn:Hc; [|done]. injection Hel as <-. destruct (Hrep c nm Hc) as (vn & Hvn & <- & Hph).
    exists (chosen vn), nm. split; [by apply verdict_once|done]. }
  split.
  - intros nm' (b & nm & -> & Hb)%Hall. rewrite phase_decided, requested_decided. destruct b; [done|]. destruct Hb. by intros [?|?].
  - unfold phase_of_clusters. rewrite bool_decide_false.
    + replace (forallb _ _) with true; [done|]. symmetry. apply forallb_forall. intros nm' [Hin Hreq]%filter_In.
      apply list_elem_of_In in Hin. apply Hall in Hin as (b & nm & -> & Hb). rewrite requested_decided in Hreq. subst b.
      by apply bool_decide_eq_true_2.
    + destruct Hex as (vn & Hvn & Hch & [nm Hnm]). intros Hempty.
      assert (Hin : decided localCluster n true nm ∈ maps_of range_maps m').
      { apply list_elem_of_fmap. exists (vn_ClusterID vn, decided localCluster n true nm). split; [done|].
        rewrite Hrange, elem_of_map_to_list, Hm', Hnm. cbn. by rewrite verdict_once, Hch. }
      apply list_elem_of_In in Hin. assert (Hf := proj2 (filter_In (requested_in (no_Namespace n)) _ _) (conj Hin (requested_decided true nm))).
      by rewrite Hempty in Hf.
Qed.

(** The object in memory after the finalizer is enforced. *)
Definition with_finalizer : NamespaceOffloading :=
  if bool_decide (namespaceOffloadingControllerFinalizer ∈ no_Finalizers n) then n
  else set_nsoff_finalizers n (no_Finalizers n ++ [namespaceOffloadingControllerFinalizer]).
Lemma finalizer_answered w : ∃ w', enforceFinalizerPresence (fun n => log_write answer (WSpec n)) n w = Ret (w', Ok (with_finalizer, None)) ∧
  pw_server w' = pw_server w.
Proof.
  unfold enforceFinalizerPresence, with_finalizer. case_bool_decide; [by exists w|]. cbv zeta.
  match goal with |- context [WSpec ?x] => destruct (write_answered (WSpec x) w) as (w' & E & Hs & _) end.
  exists w'. split; [|exact Hs]. by erewrite K_bind_ok by (apply attempt_ok, E).
Qed.

(** C24: the second half of an offloading.  Conditions: every virtual node belongs to
    a cluster of its own and that cluster has a NamespaceMap (several nodes of one
    cluster undo each other, see [shared_cluster_flaps]); every NamespaceMap belongs
    to the cluster of a virtual node; the selector matches at least one virtual
    node; the matched clusters report the namespace as accepted, and the others
    report it neither as accepted nor as failed (a cluster withdrawn but still
    reporting counts, see [withdrawn_cluster_counts]).  Then a reconciliation of the
    NamespaceOffloading, not being deleted, whose reads and writes are answered,
    succeeds and leaves it with the phase ready and the remote name: in its status
    already, or by its last write. *)
Theorem offloading_becomes_ready ns o w : no_Deleting n = false → no_Namespace n = ns → w ⋅ ns_key ns = Some o →
  NoDup (vn_ClusterID <$> vns) → (∀ vn, vn ∈ vns → is_Some (cluster_map !! vn_ClusterID vn)) → reported cluster_map →
  (∃ vn, vn ∈ vns ∧ chosen vn = true) →
  ∃ w' st, reconcile ns (Ok n) w = Ret (w', Ok ()) ∧ OffloadingPhase st = PhaseReady ∧ st_RemoteNamespaceName st = remoteNamespaceName localCluster n ∧
    (no_Status n = st ∨ last (pw_log w') = Some (WStatus (set_nsoff_status with_finalizer st))).
Proof.
  intros Hd Hns Hk Hnd Hin Hrep (vn & Hvn & Hch). cbn [NsoffReconcile].
  erewrite K_bind_ok by (unfold getClusterIDMap; erewrite K_bind_ok by reflexivity; reflexivity). fold cluster_map.
  erewrite K_bind_ok by reflexivity.
  destruct (finalizer_answered w) as (w1 & E1 & Hs1).
  destruct (selector_settles cluster_map w1 Hnd Hin) as (w2 & m' & E2 & Hs2 & Hm').
  assert (Hwf : no_Namespace with_finalizer = no_Namespace n ∧ ClusterSelector with_finalizer = ClusterSelector n ∧ no_Deleting with_finalizer = no_Deleting n ∧
    NamespaceMappingStrategy with_finalizer = NamespaceMappingStrategy n ∧ RemoteNamespaceName with_finalizer = RemoteNamespaceName n ∧
    PodOffloadingStrategy with_finalizer = PodOffloadingStrategy n ∧ no_Status with_finalizer = no_Status n)
    by (unfold with_finalizer; by case_bool_decide).
  destruct Hwf as (F1 & F2 & F3 & F4 & F5 & F6 & F7).
  assert (Hname : remoteNamespaceName localCluster with_finalizer = remoteNamespaceName localCluster n) by (unfold remoteNamespaceName; by rewrite F1, F4, F5).
  assert (Hsel : enforceClusterSelector patch list_vns list_nodes match_terms localCluster with_finalizer cluster_map w1 = Ret (w2, Ok (m', None))).
  { rewrite <- E2. by apply enforce_selector_ext. }
  assert (Hk2 : w2 ⋅ ns_key (no_Namespace with_finalizer) = Some o) by (rewrite F1, Hns, Hs2, Hs1; exact Hk).
  set (present := match PodOffloadingStrategy n with LocalAndRemotePodOffloadingStrategyType | RemotePodOffloadingStrategyType => true | _ => false end).
  destruct (labels_answered present _ o w2 Hk2) as (w3 & E3 & Hl3).
  set (st := new_status localCluster now with_finalizer (maps_of range_maps m')).
  destruct (verdicts_ready cluster_map m' Hnd Hrep) as [Hset Hph]; [exists vn; split; [done|]; split; [done|by apply Hin]|exact Hm'|].
  assert (Hready : OffloadingPhase st = PhaseReady) by (unfold st; rewrite new_status_phase; rewrite ?F1; rewrite ?F3; done).
  destruct (write_answered (WStatus (set_nsoff_status with_finalizer st)) w3) as (w4 & E4 & _ & Hl4).
  assert (Hbody : reconcile_body cl (fun n => log_write answer (WSpec n)) patch list_vns list_nodes match_terms localCluster range_maps n cluster_map w =
                  Ret (w3, Ok (with_finalizer, m', None))).
  { unfold reconcile_body. rewrite Hd. erewrite K_bind_ok by exact E1. cbv beta iota. erewrite K_bind_ok by exact Hsel. cbv beta iota.
    rewrite F6. subst present. destruct (PodOffloadingStrategy n); by erewrite K_bind_ok by (apply attempt_ok, E3). }
  erewrite K_bind_ok by exact Hbody. cbv beta iota. unfold enforceStatus. cbv zeta. fold st. case_bool_decide as Hst.
  - exists w3, st. split; [done|]. split; [done|]. split; [exact Hname|]. left. by rewrite <- F7.
  - exists w4, st. split; [exact E4|]. split; [done|]. split; [exact Hname|]. right. by rewrite Hl4, last_snoc.
Qed.
End flow.

(** ** Examples *)

Definition ex_off : NamespaceOffloading :=
  mkNsoff "offloading" "web" 1 [] false DefaultName "" LocalAndRemotePodOffloadingStrategyType [] (mkNsoffStatus "" PhaseUnset ∅ 0).
Definition ex_map (c : string) (d : gmap string string) (cur : gmap string RemoteNamespaceStatus) : NamespaceMap :=
  mkNamespaceMap c ("liqo-tenant-" ++ c) {[ RemoteClusterIDKey := c ]} [] false d cur.
Definition ex_vn (c : string) : VirtualNode := mkVirtualNode c c ∅ [].
Definition ex_ready : NamespaceMap := ex_map "turin" ∅ {[ "web"%string := mkRemote "web-milan" MappingAccepted ]}.

Lemma status_summarises_witness :
  OffloadingPhase (new_status "milan" 5 ex_off [ex_map "rome" {[ "web"%string := "web-milan"%string ]} {[ "web"%string := mkRemote "web-milan" MappingAccepted ]};
                                                ex_map "turin" ∅ ∅]) = PhaseReady.
Proof.
  rewrite (proj1 (status_summarises "milan" 5 ex_off [ex_map "rome" {[ "web"%string := "web-milan"%string ]} {[ "web"%string := mkRemote "web-milan" MappingAccepted ]};
                                                ex_map "turin" ∅ ∅] eq_refl ltac:(
    intros nm [->|[->|[]%not_elem_of_nil]%elem_of_cons]%elem_of_cons; intros H; [vm_compute; reflexivity|]; exfalso;
    assert (E : phase_in (no_Namespace ex_off) (ex_map "turin" ∅ ∅) = no_phase) by (vm_compute; reflexivity); rewrite E in H; by destruct H))).
  vm_compute. reflexivity.
Defined.

Lemma withdrawn_cluster_counts_witness :
  OffloadingPhase (new_status "milan" 5 ex_off [ex_map "rome" {[ "web"%string := "web-milan"%string ]} {[ "web"%string := mkRemote "web-milan" MappingCreationLoopBackOff ]};
                                                ex_ready]) = PhaseReady.
Proof. apply (withdrawn_cluster_counts "milan" 5 ex_off); vm_compute; reflexivity. Defined.

Definition ex_oworld : pworld (Api := memory) ns_payload off_write :=
  mkPworld ({[ ns_key "web" := mkObj ∅ ∅ [] false 1 (AMap PNamespace) Absent ]} : server (KubeApi := memory)) [].
Definition ex_patch (nm : NamespaceMap) (k : string) (v : option string) : K (pworld (Api := memory) ns_payload off_write) () :=
  log_write (fun _ _ => None) (WPatch nm k v).
Lemma selector_enforced_witness : ∃ w' m',
  enforceClusterSelector ex_patch (fun w => Ret (w, Ok [ex_vn "turin"])) (fun _ w => Ret (w, Ok [])) (fun _ _ => Ok true) "milan" ex_off
    {[ "turin"%string := ex_ready ]} ex_oworld = Ret (w', Ok (m', None)) ∧
  ∃ nm, m' !! "turin"%string = Some nm ∧ DesiredMapping nm !! "web"%string = Some "web-milan"%string.
Proof.
  destruct (selector_enforced ex_patch (fun _ w => Ret (w, Ok [])) (fun _ _ => Ok true) "milan" ex_off (fun _ => true)
    (fun _ _ _ w => ex_intro _ _ eq_refl) (fun _ _ => eq_refl) (fun w => Ret (w, Ok [ex_vn "turin"])) [ex_vn "turin"] {[ "turin"%string := ex_ready ]} ex_oworld
    eq_refl) as (w' & m' & E & H & _).
  - cbn. apply NoDup_singleton.
  - intros vn ->%list_elem_of_singleton. exists ex_ready. apply lookup_singleton_eq.
  - exists w', m'. split; [exact E|]. destruct (H (ex_vn "turin") ex_ready) as (nm & H1 & H2 & _); [by apply list_elem_of_singleton|apply lookup_singleton_eq|].
    exists nm. split; [exact H1|exact H2].
Defined.

Lemma offloading_becomes_ready_witness : ∃ w' st,
  NsoffReconcile (plain_client (fun _ _ _ _ => [])) (fun n => log_write (fun _ _ => None) (WSpec n)) (fun n => log_write (fun _ _ => None) (WStatus n))
    ex_patch (fun w => Ret (w, Ok [ex_ready])) (fun w => Ret (w, Ok [ex_vn "turin"])) (fun _ w => Ret (w, Ok [])) (fun _ _ => Ok true)
    (fun _ w => Ret (w, Ok ())) (fun _ w => Ret (w, Ok ())) "milan" 5 map_to_list "web" (Ok ex_off) ex_oworld = Ret (w', Ok ()) ∧
  OffloadingPhase st = PhaseReady ∧ last (pw_log w') = Some (WStatus (set_nsoff_status (with_finalizer ex_off) st)).
Proof.
  assert (Hm : cluster_map [ex_ready] = {[ "turin"%string := ex_ready ]}) by reflexivity.
  destruct (offloading_becomes_ready (fun _ _ _ _ => []) (fun _ _ => None) [ex_ready] [ex_vn "turin"] (fun _ w => Ret (w, Ok [])) (fun _ _ => Ok true)
    "milan" 5 map_to_list ex_off (fun _ => true) (fun _ _ => eq_refl) (fun _ => reflexivity _) (fun _ _ => eq_refl)
    "web" (mkObj ∅ ∅ [] false 1 (AMap PNamespace) Absent) ex_oworld eq_refl eq_refl) as (w' & st & E & Hp & _ & Hst).
  - change (({[ ns_key "web" := mkObj ∅ ∅ [] false 1 (AMap PNamespace) Absent ]} : gmap okey (Obj ns_payload)) !! ns_key "web" =
            Some (mkObj ∅ ∅ [] false 1 (AMap PNamespace) Absent)). apply lookup_singleton_eq.
  - cbn. apply NoDup_singleton.
  - intros vn ->%list_elem_of_singleton. exists ex_ready. rewrite Hm. apply lookup_singleton_eq.
  - intros c nm. rewrite Hm. intros [<- <-]%lookup_singleton_Some. exists (ex_vn "turin"). split; [by apply list_elem_of_singleton|].
    split; [reflexivity|vm_compute; reflexivity].
  - exists (ex_vn "turin"). split; [by apply list_elem_of_singleton|reflexivity].
  - exists w', st. split; [exact E|]. split; [exact Hp|]. destruct Hst as [Hst|Hst]; [|exact Hst]. subst st. discriminate Hp.
Defined.
