(* ===== verification/AuthCrypto.v ===== *)
(** * AuthCrypto: keys, nonces, certificate requests and the renewal of certificates
      (src/pkg/liqo-controller-manager/authentication/{keys,csr}.go,
       src/pkg/utils/certificate/certificate.go)

    Signatures, hashes and encodings come from Go's crypto packages: a class with the
    operations the code calls, and a second one with what it relies on. *)

From S2P Require Export GoStrings Kube.
From Stdlib Require Import Ascii.
Local Open Scope Z_scope.

(** Byte strings are strings. *)
Inductive PrivateKey := EdPrivate (k : string) | RsaPrivate (k : string) | EcPrivate (k : string) | OtherPrivate.
Inductive PublicKey := EdPublic (k : string) | RsaPublic (k : string) | EcPublic (k : string) | OtherPublic.
Record CertificateRequest := mkCSR { CommonName : string; Organization : list string; csr_PublicKey : PublicKey }.

(** The calls: signing may use randomness and fail; a PEM block leaves a rest. *)
Class CryptoOps := {
  sha256 : string → string;
  ed_Sign : string → string → string;
  ed_Verify : string → string → string → bool;
  rsa_Sign : string → string → string → option string;
  rsa_Verify : string → string → string → bool;
  ec_Sign : string → string → string → option string;
  ec_Verify : string → string → string → bool;
  ed_public : string → string;
  rsa_public : string → string;
  ec_public : string → string;
  pem_Decode : string → option (string * string);
  pem_Encode : string → string;
  ParseCertificateRequest : string → option CertificateRequest;
  CreateCertificateRequest : string → CertificateRequest → PrivateKey → option string;
  MarshalPKIXPublicKey : PublicKey → option string;
  ParsePKIXPublicKey : string → option PublicKey;
  ParseCertificate : string → option (Z * Z)
}.

Definition public_of `{CryptoOps} (k : PrivateKey) : PublicKey :=
  match k with
  | EdPrivate k => EdPublic (ed_public k)
  | RsaPrivate k => RsaPublic (rsa_public k)
  | EcPrivate k => EcPublic (ec_public k)
  | OtherPrivate => OtherPublic
  end.
(** A signature verifies under the public key; what is encoded is decoded, with
    nothing left. *)
Class CryptoLaws `{CryptoOps} := {
  ed_signs k m : ed_Verify (ed_public k) m (ed_Sign k m) = true;
  rsa_signs rnd k m s : rsa_Sign rnd k m = Some s → rsa_Verify (rsa_public k) m s = true;
  ec_signs rnd k m s : ec_Sign rnd k m = Some s → ec_Verify (ec_public k) m s = true;
  pem_roundtrip b : pem_Decode (pem_Encode b) = Some (b, ""%string);
  request_roundtrip rnd r k b : csr_PublicKey r = public_of k → CreateCertificateRequest rnd r k = Some b → ParseCertificateRequest b = Some r;
  pkix_roundtrip k b : MarshalPKIXPublicKey k = Some b → ParsePKIXPublicKey b = Some k
}.

Section crypto.
Context `{CryptoOps}.

(** ** keys.go *)

Definition SignNonce (rnd : string) (priv : PrivateKey) (nonce : string) : option string :=
  match priv with
  | EdPrivate k => Some (ed_Sign k nonce)
  | RsaPrivate k => rsa_Sign rnd k (sha256 nonce)
  | EcPrivate k => ec_Sign rnd k (sha256 nonce)
  | OtherPrivate => None
  end.
Definition VerifyNonce (pub : PublicKey) (nonce signature : string) : option bool :=
  match pub with
  | EdPublic k => Some (ed_Verify k nonce signature)
  | RsaPublic k => Some (rsa_Verify k (sha256 nonce) signature)
  | EcPublic k => Some (ec_Verify k (sha256 nonce) signature)
  | OtherPublic => None
  end.

(** ** csr.go *)

(** [%x] of a byte string. *)
Definition hex_digit (n : N) : ascii := ascii_of_N (if (n <? 10)%N then 48 + n else 87 + n)%N.
Fixpoint hex (s : string) : string :=
  match s with
  | EmptyString => EmptyString
  | String c s => let n := N_of_ascii c in String (hex_digit (n / 16)) (String (hex_digit (n mod 16)) (hex s))
  end.
Definition common_name (name clusterID : string) : string := (name ++ "-" ++ hex (String.substring 0 6 (sha256 clusterID)))%string.
Definition CommonNameControlPlaneCSR (clusterID : string) : string := clusterID.
Definition OrganizationControlPlaneCSR : string := "liqo.io".
Definition IsControlPlaneUser (groups : list string) : bool := existsb (fun g => bool_decide (g = OrganizationControlPlaneCSR)) groups.

(** The first organization is read without a look at their number. *)
Definition checkCSR (csr publicKeyDER : string) (checkPublicKey : bool) (commonName organization : string) : outcome bool :=
  match pem_Decode csr with
  | None => Ret false
  | Some (block, rest) =>
    if negb (bool_decide (rest = ""%string)) then Ret false
    else match ParseCertificateRequest block with
         | None => Ret false
         | Some r =>
           if negb (bool_decide (CommonName r = commonName)) then Ret false
           else match Organization r with
                | [] => Panic
                | o :: _ =>
                  if negb (bool_decide (o = organization)) then Ret false
                  else if negb checkPublicKey then Ret true
                  else if bool_decide (publicKeyDER = ""%string) then Ret false
                  else match MarshalPKIXPublicKey (csr_PublicKey r) with
                       | None => Ret false
                       | Some der => Ret (bool_decide (der = publicKeyDER))
                       end
                end
         end
  end.
Definition CheckCSRForControlPlane (csr publicKeyDER remoteClusterID : string) : outcome bool :=
  checkCSR csr publicKeyDER true (CommonNameControlPlaneCSR remoteClusterID) OrganizationControlPlaneCSR.
(** A key that is not a PEM block is taken as an Ed25519 key when it has its size. *)
Definition ParseTenantPublicKey (publicKey : string) : option (PublicKey * string) :=
  match pem_Decode publicKey with
  | None =>
    if (String.length publicKey =? 32)%nat then der ← MarshalPKIXPublicKey (EdPublic publicKey); Some (EdPublic publicKey, der) else None
  | Some (block, _) => k ← ParsePKIXPublicKey block; Some (k, block)
  end.
Definition CheckCSRForResourceSlice (tenantPublicKey name consumer csr : string) (checkPublicKey : bool) : outcome bool :=
  match (if checkPublicKey then snd <$> ParseTenantPublicKey tenantPublicKey else Some ""%string) with
  | None => Ret false
  | Some der => checkCSR csr der checkPublicKey (common_name name consumer) consumer
  end.

Definition generateCSR (rnd : string) (key : PrivateKey) (commonName organization : string) : option string :=
  match key with
  | OtherPrivate => None
  | _ => pem_Encode <$> CreateCertificateRequest rnd (mkCSR commonName [organization] (public_of key)) key
  end.
Definition GenerateCSRForResourceSlice (rnd : string) (key : PrivateKey) (name consumer : string) : option string :=
  generateCSR rnd key (common_name name consumer) consumer.
Definition GenerateCSRForControlPlane (rnd : string) (key : PrivateKey) (clusterID : string) : option string :=
  generateCSR rnd key (CommonNameControlPlaneCSR clusterID) OrganizationControlPlaneCSR.

(** ** certificate.go: instants and durations in nanoseconds *)

(** [int64] arithmetic; [Time.Sub] saturates; division truncates. *)
Definition int64 (n : Z) : Z := (n + 2 ^ 63) mod 2 ^ 64 - 2 ^ 63.
Definition saturate (n : Z) : Z := Z.max (- 2 ^ 63) (Z.min (2 ^ 63 - 1) n).
Definition NextRenewalCheck (now notBefore notAfter : Z) : Z :=
  let lifetime := saturate (notAfter - notBefore) in
  let twoThirdsPoint := notAfter + Z.quot (int64 (- lifetime)) 3 in
  Z.quot (int64 (saturate (twoThirdsPoint - now) * 11)) 10.
Definition ShouldRenewCertificate (now : Z) (pemCert : string) : option (bool * Z) :=
  '(block, _) ← pem_Decode pemCert;
  '(notBefore, notAfter) ← ParseCertificate block;
  let requeueIn := NextRenewalCheck now notBefore notAfter in
  Some (if requeueIn <=? 0 then (true, 0) else (false, requeueIn)).
End crypto.
