(* ===== verification/Tenant.v ===== *)
(** * Tenant: the consumers of a cluster, their namespaces and their bindings
      (src/pkg/tenantNamespace/{namespaceManager,bindings,utils}.go)

    One namespace per remote cluster, found by its labels, and the role bindings of
    the cluster in it and in the whole cluster; then the Tenants, their webhooks and
    their controller. *)

From S2P Require Export KubeClient.
From S2P Require Export AuthCrypto NsMap.
Local Open Scope Z_scope.

(** The kind, the name and the role of a binding's subject. *)
Inductive tn_payload := TNamespace | TBinding (subjectKind subject role : string).
#[export] Instance tn_payload_eq_dec : EqDecision tn_payload.
Proof. solve_decision. Defined.

Module TenantNsLabels.
Definition RemoteClusterID : string := "liqo.io/remote-cluster-id".
Definition TenantNamespaceLabel : string := "liqo.io/tenant-namespace".
Definition ManagedBy : string := "app.kubernetes.io/managed-by".
Definition PodSecurityAudit : string := "pod-security.kubernetes.io/audit".
Definition PodSecurityEnforce : string := "pod-security.kubernetes.io/enforce".
Definition PodSecurityWarn : string := "pod-security.kubernetes.io/warn".
End TenantNsLabels.
Import TenantNsLabels.

Definition getNameForNamespace (cluster : string) : string := ("omni-" ++ cluster)%string.
Definition tn_key (name : string) : okey := ("namespaces"%string, ""%string, name).
Definition getRoleBindingName (role : string) : string := ("liqo-binding-" ++ role)%string.
Definition getClusterRoleBindingName (role cluster : string) : string := ("liqo-binding-" ++ role ++ "-" ++ cluster)%string.
Definition rb_key (ns role : string) : okey := ("rolebindings"%string, ns, getRoleBindingName role).
Definition crb_key (role cluster : string) : okey := ("clusterrolebindings"%string, ""%string, getClusterRoleBindingName role cluster).

(** [ForgeNamespace] without a name of its own. *)
Definition ForgeNamespace (cluster : string) : Obj tn_payload :=
  mkObj {[ RemoteClusterID := cluster; TenantNamespaceLabel := "true"%string; PodSecurityAudit := "privileged"%string;
           PodSecurityEnforce := "privileged"%string; PodSecurityWarn := "privileged"%string ]} ∅ [] false 0 (AMap TNamespace) Absent.
(** The selector of [GetNamespace]. *)
Definition tenant_selector (cluster : string) (o : Obj tn_payload) : bool :=
  bool_decide (o_labels o !! RemoteClusterID = Some cluster) && bool_decide (is_Some (o_labels o !! TenantNamespaceLabel)).

Section manager.
Context {W : Type} (cl : Client W tn_payload).
(** The namespaces a selector matches, possibly from a cache. *)
Context (listNamespaces : string → K W (list (string * Obj tn_payload))).
Context (globalLabels globalAnnotations : labels).

Definition GetNamespace (cluster : string) : K W (string * Obj tn_payload) :=
  r ← attempt (listNamespaces cluster);
  namespaces ← match r with
               | Ok l => mret l
               | Err Forbidden =>
                 r ← attempt (c_Get cl (tn_key (getNameForNamespace cluster)));
                 match r with
                 | Err NotFound => fail OtherErr
                 | Err e => fail e
                 | Ok ns => if tenant_selector cluster ns then mret [(getNameForNamespace cluster, ns)] else fail OtherErr
                 end
               | Err e => fail e
               end;
  match (namespaces : list (string * Obj tn_payload)) with
  | [] => fail NotFound
  | [ns] => mret ns
  | _ => fail OtherErr
  end.
Definition CreateNamespace (cluster : string) : K W (string * Obj tn_payload) :=
  r ← attempt (GetNamespace cluster);
  match r with
  | Ok ns => mret ns
  | Err NotFound => ns ← c_Create cl (tn_key (getNameForNamespace cluster)) (ForgeNamespace cluster); mret (getNameForNamespace cluster, ns)
  | Err e => fail e
  end.

(** ** bindings.go *)

Definition forge_binding (cluster kind role : string) : Obj tn_payload :=
  mkObj (globalLabels ∪ {[ ManagedBy := "liqo"%string; RemoteClusterID := cluster ]}) globalAnnotations [] false 0 (AMap (TBinding kind cluster role)) Absent.
Definition create_or_get (k : okey) (o : Obj tn_payload) : K W (Obj tn_payload) :=
  r ← attempt (c_Create cl k o);
  match r with
  | Ok o => mret o
  | Err AlreadyExists => c_Get cl k
  | Err e => fail e
  end.
Definition bindClusterRole (cluster ns role : string) : K W (Obj tn_payload) := create_or_get (rb_key ns role) (forge_binding cluster "User" role).
Definition bindClusterRoleClusterWide (cluster role : string) : K W (Obj tn_payload) :=
  create_or_get (crb_key role cluster) (forge_binding cluster "Group" role).
Definition ignore_not_found (m : K W ()) : K W () :=
  r ← attempt m; match r with Err NotFound => mret () | Err e => fail e | Ok _ => mret () end.
Definition unbindClusterRole (ns role : string) : K W () := ignore_not_found (c_Delete cl (rb_key ns role)).
Definition unbindClusterRoleClusterWide (cluster role : string) : K W () := ignore_not_found (c_Delete cl (crb_key role cluster)).
Fixpoint each {A B} (f : A → K W B) (l : list A) : K W () :=
  match l with [] => mret () | x :: l => _ ← f x; each f l end.
Definition BindClusterRoles (cluster : string) (roles : list string) : K W () :=
  '(ns, _) ← GetNamespace cluster; each (bindClusterRole cluster ns) roles.
Definition UnbindClusterRoles (cluster : string) (roles : list string) : K W () :=
  '(ns, _) ← GetNamespace cluster; each (unbindClusterRole ns) roles.
Definition BindClusterRolesClusterWide (cluster : string) (roles : list string) : K W () := each (bindClusterRoleClusterWide cluster) roles.
Definition UnbindClusterRolesClusterWide (cluster : string) (roles : list string) : K W () := each (unbindClusterRoleClusterWide cluster) roles.
End manager.

(** ** utils.go *)

Definition GetClusterIDFromTenantNamespace (ns : Obj tn_payload) : option string :=
  _ ← o_labels ns !! TenantNamespaceLabel; o_labels ns !! RemoteClusterID.

(** What the controllers ask of the manager. *)
Record TenantManager (W : Type) := mkTenantManager {
  tm_GetNamespace : string → K W string;
  tm_CreateNamespace : string → K W string;
  tm_BindClusterRoles : string → list string → K W ();
  tm_UnbindClusterRoles : string → list string → K W ();
  tm_BindClusterRolesClusterWide : string → list string → K W ();
  tm_UnbindClusterRolesClusterWide : string → list string → K W ()
}.
Arguments mkTenantManager {W}. Arguments tm_GetNamespace {W}. Arguments tm_CreateNamespace {W}. Arguments tm_BindClusterRoles {W}.
Arguments tm_UnbindClusterRoles {W}. Arguments tm_BindClusterRolesClusterWide {W}. Arguments tm_UnbindClusterRolesClusterWide {W}.
Definition tenant_manager {W} (cl : Client W tn_payload) (listNamespaces : string → K W (list (string * Obj tn_payload)))
    (globalLabels globalAnnotations : labels) : TenantManager W := {|
  tm_GetNamespace := fun c => '(ns, _) ← GetNamespace cl listNamespaces c; mret ns;
  tm_CreateNamespace := fun c => '(ns, _) ← CreateNamespace cl listNamespaces c; mret ns;
  tm_BindClusterRoles := BindClusterRoles cl listNamespaces globalLabels globalAnnotations;
  tm_UnbindClusterRoles := UnbindClusterRoles cl listNamespaces;
  tm_BindClusterRolesClusterWide := BindClusterRolesClusterWide cl globalLabels globalAnnotations;
  tm_UnbindClusterRolesClusterWide := UnbindClusterRolesClusterWide cl
|}.

(** ** Consumers of a cluster, their webhooks and their controller
      (src/pkg/webhooks/tenant/{validate,mutate}.go,
       src/pkg/liqo-controller-manager/authentication/tenant-controller/{tenant_controller,finalizer}.go,
       src/pkg/liqo-controller-manager/authentication/getters/nonce.go)

    A Tenant stands for a remote cluster that may consume resources here.  Before it
    gets an identity it must show, by signing a nonce, that it holds the key its
    certificate request is made with. *)

Inductive AuthzPolicy := KeysExchange | TolerateNoHandshake.
#[export] Instance AuthzPolicy_eq_dec : EqDecision AuthzPolicy.
Proof. solve_decision. Defined.
Inductive TenantCondition := TenantActive | TenantCordoned | TenantDrained | TenantOther (s : string).
#[export] Instance TenantCondition_eq_dec : EqDecision TenantCondition.
Proof. solve_decision. Defined.
Record AwsConfig := mkAwsConfig { AwsAccessKeyID : string; AwsSecretAccessKey : string; AwsRegion : string; AwsClusterName : string; AwsUserArn : string }.
#[export] Instance AwsConfig_eq_dec : EqDecision AwsConfig.
Proof. solve_decision. Defined.
Record AuthParams := mkAuthParams { ap_CA : string; ap_SignedCRT : string; ap_APIServer : string; ap_ProxyURL : option string; ap_Aws : option AwsConfig }.
#[export] Instance AuthParams_eq_dec : EqDecision AuthParams.
Proof. solve_decision. Defined.
Record Tenant := mkTenant {
  tn_Name : string; tn_Namespace : string; tn_UID : string; tn_Labels : labels; tn_Finalizers : list string; tn_Deleting : bool;
  tn_ClusterID : string; tn_AuthzPolicy : option AuthzPolicy; tn_PublicKey : string; tn_CSR : string; tn_Signature : string;
  tn_ProxyURL : option string; tn_Condition : TenantCondition;
  tn_TenantNamespace : string; tn_AuthParams : option AuthParams
}.
Definition GetAuthzPolicyValue (p : option AuthzPolicy) : AuthzPolicy := default KeysExchange p.
Definition set_tn_finalizers (t : Tenant) (l : list string) : Tenant :=
  mkTenant (tn_Name t) (tn_Namespace t) (tn_UID t) (tn_Labels t) l (tn_Deleting t) (tn_ClusterID t) (tn_AuthzPolicy t) (tn_PublicKey t) (tn_CSR t)
    (tn_Signature t) (tn_ProxyURL t) (tn_Condition t) (tn_TenantNamespace t) (tn_AuthParams t).
Definition set_tn_labels (t : Tenant) (l : labels) : Tenant :=
  mkTenant (tn_Name t) (tn_Namespace t) (tn_UID t) l (tn_Finalizers t) (tn_Deleting t) (tn_ClusterID t) (tn_AuthzPolicy t) (tn_PublicKey t) (tn_CSR t)
    (tn_Signature t) (tn_ProxyURL t) (tn_Condition t) (tn_TenantNamespace t) (tn_AuthParams t).
Definition set_tn_status (t : Tenant) (ns : string) (a : option AuthParams) : Tenant :=
  mkTenant (tn_Name t) (tn_Namespace t) (tn_UID t) (tn_Labels t) (tn_Finalizers t) (tn_Deleting t) (tn_ClusterID t) (tn_AuthzPolicy t) (tn_PublicKey t)
    (tn_CSR t) (tn_Signature t) (tn_ProxyURL t) (tn_Condition t) ns a.

(** ** The webhooks *)

Inductive tenant_response := TenantErrored (code : Z) | TenantDenied | TenantAllowed.
(** The answer of the cluster about a namespace, and the tenants it lists in a
    namespace or under a name. *)
Record tenant_view := mkTenantView {
  tv_namespace : string → result kerr labels;
  tv_tenants : option (string + string) → result kerr (list Tenant)
}.
Definition in_namespace (ns : string) : option (string + string) := Some (inl ns).
Definition with_name (name : string) : option (string + string) := Some (inr name).

Definition tenantConsistencyChecks (v : tenant_view) (t : Tenant) : result Z () :=
  match tv_namespace v (tn_Namespace t) with
  | Err _ => Err 500
  | Ok l =>
    if negb (bool_decide (l !! TenantNsLabels.TenantNamespaceLabel = Some "true"%string)) then Err 400
    else if negb (bool_decide (default ""%string (tn_Labels t !! RemoteClusterIDKey) = tn_ClusterID t)) then Err 400
    else if negb (bool_decide (tn_ClusterID t = default ""%string (l !! RemoteClusterIDKey))) then Err 403
    else Ok ()
  end.
Definition tenant_handleCreate (v : tenant_view) (obj : option Tenant) : tenant_response :=
  match obj with
  | None => TenantErrored 500
  | Some t =>
    match tenantConsistencyChecks v t with
    | Err c => TenantErrored c
    | Ok _ =>
      match tv_tenants v (in_namespace (tn_Namespace t)) with
      | Err _ => TenantErrored 500
      | Ok (_ :: _) => TenantDenied
      | Ok [] =>
        match tv_tenants v (with_name (tn_Name t)) with
        | Err _ => TenantErrored 500
        | Ok (_ :: _) => TenantDenied
        | Ok [] => TenantAllowed
        end
      end
    end
  end.
Definition tenant_handleUpdate (v : tenant_view) (obj : option Tenant) : tenant_response :=
  match obj with
  | None => TenantErrored 500
  | Some t =>
    match tenantConsistencyChecks v t with
    | Err c => TenantErrored c
    | Ok _ =>
      match tv_tenants v (with_name (tn_Name t)) with
      | Err _ => TenantErrored 500
      | Ok [x] => if bool_decide (tn_UID x = tn_UID t) then TenantAllowed else TenantDenied
      | Ok _ => TenantAllowed
      end
    end
  end.
(** The mutating webhook: the label is filled in when it is missing. *)
Definition tenant_mutate (t : Tenant) : Tenant :=
  match tn_Labels t !! RemoteClusterIDKey with
  | Some _ => t
  | None => set_tn_labels t (<[RemoteClusterIDKey := tn_ClusterID t]> (tn_Labels t))
  end.

(** ** ResourceSlices, as far as the controller of Tenants touches them *)

Definition CordonTenantAnnotation : string := "liqo.io/cordon-tenant".
Record sliceref := mkSliceref { sl_Name : string; sl_Namespace : string; sl_Annotations : labels }.

(** ** The controller *)

Inductive IdentityType := ControlPlaneIdentity | ResourceSliceIdentity.
#[export] Instance IdentityType_eq_dec : EqDecision IdentityType.
Proof. solve_decision. Defined.
Record SigningRequest := mkSigningRequest {
  so_Cluster : string; so_TenantNamespace : string; so_Type : IdentityType; so_Name : string; so_CSR : string; so_ProxyURL : option string; so_IsRenew : bool
}.
Definition tenantControllerFinalizer : string := "tenant.liqo.io/finalizer".

Section controller.
Context `{CryptoOps} {W : Type} (nsm : TenantManager W).
(** The provider of identities, and the calls to the cluster. *)
Context (ForgeAuthParams : SigningRequest → K W AuthParams).
Context (list_roles : string → K W (list string)) (nonce_secrets : string → K W (list (gmap string string))).
Context (list_slices : string → K W (list sliceref)) (update_slice : sliceref → K W ()) (delete_slice : sliceref → K W ()).
Context (list_maps : string → K W (list NamespaceMap)) (delete_map : NamespaceMap → K W ()).
Context (update_tenant update_tenant_status : Tenant → K W ()) (now : Z).

Fixpoint getClusterRoles (names : list string) : K W (list string) :=
  match names with
  | [] => mret []
  | n :: names =>
    l ← list_roles n;
    match (l : list string) with
    | [] => fail OtherErr
    | _ => rest ← getClusterRoles names; mret (l ++ rest)
    end
  end.
(** The roles are read once and kept. *)
Definition ensureSetup (kept : list string * list string) : K W (list string * list string) :=
  roles ← match kept.1 with [] => getClusterRoles ["remote-controlplane"%string] | l => mret l end;
  wide ← match kept.2 with [] => getClusterRoles ["virtual-kubelet-remote-clusterwide"%string] | l => mret l end;
  mret (roles, wide).

Definition GetNonceFromSecret (data : gmap string string) : option string :=
  match data !! "nonce"%string with
  | None => None
  | Some n => if bool_decide (n = ""%string) then None else Some n
  end.
(** [getters.GetNonceSecretByClusterID]. *)
Definition GetNonceSecretByClusterID (cluster : string) : K W (gmap string string) :=
  l ← nonce_secrets cluster;
  match (l : list (gmap string string)) with [] => fail NotFound | [s] => mret s | _ => fail OtherErr end.
Definition verifyHandshake (t : Tenant) : K W bool :=
  secret ← GetNonceSecretByClusterID (tn_ClusterID t);
  match GetNonceFromSecret secret with
  | None => fail OtherErr
  | Some nonce =>
    match ParseTenantPublicKey (tn_PublicKey t) with
    | None => fail OtherErr
    | Some (publicKey, publicKeyDER) =>
      match VerifyNonce publicKey nonce (tn_Signature t) with
      | None => fail OtherErr
      | Some false => mret false
      | Some true =>
        match CheckCSRForControlPlane (tn_CSR t) publicKeyDER (tn_ClusterID t) with
        | Ret b => mret b
        | _ => panic
        end
      end
    end
  end.

Definition set_cordon (s : sliceref) (m : labels) : sliceref := mkSliceref (sl_Name s) (sl_Namespace s) m.
Definition handleTenantCordoned (t : Tenant) : K W () :=
  l ← list_slices (tn_ClusterID t);
  each (fun s => update_slice (set_cordon s (<[CordonTenantAnnotation := "true"%string]> (sl_Annotations s)))) l.
Definition handleTenantUncordoned (t : Tenant) : K W () :=
  l ← list_slices (tn_ClusterID t);
  each (fun s => if bool_decide (is_Some (sl_Annotations s !! CordonTenantAnnotation))
                 then update_slice (set_cordon s (delete CordonTenantAnnotation (sl_Annotations s))) else mret ()) l.
Definition handleTenantDrained (t : Tenant) (roles wide : list string) : K W () :=
  _ ← tm_UnbindClusterRolesClusterWide nsm (tn_ClusterID t) wide;
  _ ← tm_UnbindClusterRoles nsm (tn_ClusterID t) roles;
  slices ← list_slices (tn_ClusterID t);
  _ ← each (fun s => ignore_not_found (delete_slice s)) slices;
  maps ← list_maps (tn_ClusterID t);
  each (fun m => ignore_not_found (delete_map m)) maps.

(** A status update that fails replaces the error. *)
Definition with_status {A} (t : Tenant) (m : K W (Tenant * A)) : K W A :=
  r ← attempt m;
  _ ← update_tenant_status (match r with Ok (t', _) => t' | Err _ => t end);
  match r with Ok (_, a) => mret a | Err e => fail e end.
(** The identity of the tenant and its bindings, for a tenant that did a handshake. *)
Definition tenant_identity (t : Tenant) (roles : list string) : K W (Tenant * Z) :=
  check ← match tn_AuthParams t with
          | Some a => if bool_decide (ap_SignedCRT a = ""%string) then mret (false, 0)
                      else match ShouldRenewCertificate now (ap_SignedCRT a) with Some x => mret x | None => fail OtherErr end
          | None => mret (false, 0)
          end;
  a ← ForgeAuthParams (mkSigningRequest (tn_ClusterID t) (tn_TenantNamespace t) ControlPlaneIdentity (tn_Name t) (tn_CSR t) (tn_ProxyURL t) check.1);
  mret (set_tn_status t (tn_TenantNamespace t) (Some a), check.2).

Definition tenant_body (t : Tenant) (roles wide : list string) : K W Z :=
  ns ← tm_CreateNamespace nsm (tn_ClusterID t);
  let t := set_tn_status t ns (tn_AuthParams t) in
  r ← attempt (if bool_decide (GetAuthzPolicyValue (tn_AuthzPolicy t) = TolerateNoHandshake) then mret (t, 0) else tenant_identity t roles);
  match r with
  | Err e => _ ← update_tenant_status t; fail e
  | Ok (t, requeueIn) =>
    with_status t
      (_ ← (if bool_decide (GetAuthzPolicyValue (tn_AuthzPolicy t) = TolerateNoHandshake) then mret () else tm_BindClusterRoles nsm (tn_ClusterID t) roles);
       _ ← tm_BindClusterRolesClusterWide nsm (tn_ClusterID t) wide;
       mret (t, requeueIn))
  end.

Definition TenantReconcile (kept : list string * list string) (got : result kerr Tenant) : K W Z :=
  '(roles, wide) ← ensureSetup kept;
  match got with
  | Err NotFound => mret 0
  | Err e => fail e
  | Ok t =>
    if tn_Deleting t then
      _ ← tm_UnbindClusterRolesClusterWide nsm (tn_ClusterID t) wide;
      _ ← update_tenant (set_tn_finalizers t (List.filter (fun f => negb (bool_decide (f = tenantControllerFinalizer))) (tn_Finalizers t))); mret 0
    else if negb (bool_decide (tenantControllerFinalizer ∈ tn_Finalizers t)) then
      _ ← update_tenant (set_tn_finalizers t (tn_Finalizers t ++ [tenantControllerFinalizer])); mret 0
    else
      match tn_Condition t with
      | TenantDrained => _ ← handleTenantDrained t roles wide; mret 0
      | c =>
        _ ← (if bool_decide (c = TenantCordoned) then handleTenantCordoned t else handleTenantUncordoned t);
        ok ← (if bool_decide (GetAuthzPolicyValue (tn_AuthzPolicy t) = TolerateNoHandshake) then mret true else verifyHandshake t);
        if (ok : bool) then tenant_body t roles wide else mret 0
      end
  end.
End controller.
