(* ===== verification/Slice.v ===== *)
(** * Slice: ResourceSlices, from the request to the quota and the virtual node
      (src/pkg/liqo-controller-manager/authentication/resourceslice.go,
       .../authentication/remoteresourceslice-controller/{remoteresourceslice_controller,slicestatus}.go,
       .../authentication/localresourceslice-controller, .../authentication/forge/resourceslice.go,
       .../quotacreator-controller, .../virtualnodecreator-controller, .../offloading/forge/virtualnode.go,
       src/pkg/webhooks/resourceslice/validate.go, src/pkg/webhooks/virtualnode/validate.go)

    A consumer asks for resources with a ResourceSlice.  The provider signs its
    certificate request, accepts or denies the resources, and makes a quota of what
    it accepted; the consumer makes a virtual node of it. *)

From S2P Require Import ShadowPod.
From S2P Require Export Tenant.
From Stdlib Require Import Ascii.
Local Open Scope Z_scope.

Inductive SliceConditionType := CondAuthentication | CondResources.
#[export] Instance SliceConditionType_eq_dec : EqDecision SliceConditionType.
Proof. solve_decision. Defined.
Inductive SliceConditionStatus := CondAccepted | CondDenied | CondEmpty | CondOther (s : string).
#[export] Instance SliceConditionStatus_eq_dec : EqDecision SliceConditionStatus.
Proof. solve_decision. Defined.
Record SliceCondition := mkSliceCondition { sc_Type : SliceConditionType; sc_Status : SliceConditionStatus; sc_Time : Z; sc_Reason : string; sc_Message : string }.
Record ClassType := mkClassType { ct_Name : string; ct_Default : bool }.

Section slice.
Context {Q : Type}.

Record ResourceSlice := mkSlice {
  rs_Name : string; rs_Namespace : string; rs_Labels : labels; rs_Annotations : labels; rs_Deleting : bool;
  rs_Consumer : option string; rs_Provider : option string; rs_Resources : ResourceList Q; rs_Class : string; rs_CSR : string;
  st_Conditions : list SliceCondition; st_Class : string; st_Resources : ResourceList Q; st_AuthParams : option AuthParams;
  st_StorageClasses : list ClassType; st_IngressClasses : list ClassType; st_LoadBalancerClasses : list ClassType; st_NodeLabels : labels;
  st_NodeSelector : labels
}.
Definition set_slice_status (s : ResourceSlice) (conds : list SliceCondition) (class : string) (res : ResourceList Q) (auth : option AuthParams)
    (sto ing lb : list ClassType) (nl : labels) : ResourceSlice :=
  mkSlice (rs_Name s) (rs_Namespace s) (rs_Labels s) (rs_Annotations s) (rs_Deleting s) (rs_Consumer s) (rs_Provider s) (rs_Resources s) (rs_Class s) (rs_CSR s)
    conds class res auth sto ing lb nl (st_NodeSelector s).
Definition set_conds (s : ResourceSlice) (l : list SliceCondition) : ResourceSlice :=
  set_slice_status s l (st_Class s) (st_Resources s) (st_AuthParams s) (st_StorageClasses s) (st_IngressClasses s) (st_LoadBalancerClasses s) (st_NodeLabels s).
Definition set_slice_class (s : ResourceSlice) (c : string) : ResourceSlice :=
  set_slice_status s (st_Conditions s) c (st_Resources s) (st_AuthParams s) (st_StorageClasses s) (st_IngressClasses s) (st_LoadBalancerClasses s) (st_NodeLabels s).
Definition set_slice_auth (s : ResourceSlice) (a : option AuthParams) : ResourceSlice :=
  set_slice_status s (st_Conditions s) (st_Class s) (st_Resources s) a (st_StorageClasses s) (st_IngressClasses s) (st_LoadBalancerClasses s) (st_NodeLabels s).
Definition set_slice_resources (s : ResourceSlice) (r : ResourceList Q) : ResourceSlice :=
  set_slice_status s (st_Conditions s) (st_Class s) r (st_AuthParams s) (st_StorageClasses s) (st_IngressClasses s) (st_LoadBalancerClasses s) (st_NodeLabels s).
Definition set_slice_spec (s : ResourceSlice) (lab ann : labels) (cons prov : option string) (res : ResourceList Q) (class csr : string) : ResourceSlice :=
  mkSlice (rs_Name s) (rs_Namespace s) lab ann (rs_Deleting s) cons prov res class csr
    (st_Conditions s) (st_Class s) (st_Resources s) (st_AuthParams s) (st_StorageClasses s) (st_IngressClasses s) (st_LoadBalancerClasses s) (st_NodeLabels s)
    (st_NodeSelector s).

(** ** resourceslice.go *)

Definition GetCondition (s : ResourceSlice) (ty : SliceConditionType) : option SliceCondition :=
  List.find (fun c => bool_decide (sc_Type c = ty)) (st_Conditions s).
(** The first condition of the type, or a new one at the end. *)
Fixpoint ensure_condition (now : Z) (ty : SliceConditionType) (st : SliceConditionStatus) (reason message : string) (l : list SliceCondition) : list SliceCondition :=
  match l with
  | [] => [mkSliceCondition ty st now reason message]
  | c :: l =>
    if bool_decide (sc_Type c = ty) then
      (if bool_decide (sc_Status c = st) && bool_decide (reason = sc_Reason c) && bool_decide (message = sc_Message c) then c
       else mkSliceCondition ty st now reason message) :: l
    else c :: ensure_condition now ty st reason message l
  end.
Definition EnsureCondition (now : Z) (s : ResourceSlice) (ty : SliceConditionType) (st : SliceConditionStatus) (reason message : string) : ResourceSlice :=
  set_conds s (ensure_condition now ty st reason message (st_Conditions s)).
Definition acceptAuthentication now (s : ResourceSlice) :=
  EnsureCondition now s CondAuthentication CondAccepted "ResourceSliceAuthenticationAccepted" "ResourceSlice authentication accepted".
Definition denyAuthentication now (s : ResourceSlice) :=
  EnsureCondition now s CondAuthentication CondDenied "ResourceSliceAuthenticationDenied" "ResourceSlice authentication denied".
Definition acceptResources now (s : ResourceSlice) :=
  EnsureCondition now s CondResources CondAccepted "ResourceSliceResourcesAccepted" "ResourceSlice resources accepted".
Definition denyResourcesWithReason now (s : ResourceSlice) (reason message : string) := EnsureCondition now s CondResources CondDenied reason message.
Definition denyResources now (s : ResourceSlice) := denyResourcesWithReason now s "ResourceSliceResourcesDenied" "ResourceSlice resources denied".

(** ** slicestatus.go *)

Record SliceStatusOptions := mkSliceOptions {
  EnableStorage : bool; LocalRealStorageClassName : string; opt_IngressClasses : list ClassType; opt_LoadBalancerClasses : list ClassType;
  ClusterLabels : labels; DefaultResourceQuantity : ResourceList Q; DefaultResourceSliceClassEnabled : bool; DefaultResourceSliceClass : string
}.
Fixpoint insert_class (c : ClassType) (l : list ClassType) : list ClassType :=
  match l with [] => [c] | d :: l => if String.ltb (ct_Name d) (ct_Name c) then d :: insert_class c l else c :: d :: l end.
Definition sort_classes (l : list ClassType) : list ClassType := foldr insert_class [] l.
Definition IsDefaultClass : string := "storageclass.kubernetes.io/is-default-class".
(** A storage class of the cluster: its name and annotations. *)
Definition storage_type (opts : SliceStatusOptions) (c : string * labels) : ClassType :=
  mkClassType c.1 (if bool_decide (LocalRealStorageClassName opts = ""%string) then bool_decide (c.2 !! IsDefaultClass = Some "true"%string)
                   else bool_decide (c.1 = LocalRealStorageClassName opts)).
End slice.
Arguments ResourceSlice : clear implicits.
Arguments SliceStatusOptions : clear implicits.

(** ** The provider: remoteresourceslice_controller.go *)

Section provider.
Context {Q : Type} `{CryptoOps} {W : Type}.
Context (nsm : TenantManager W) (ForgeAuthParams : SigningRequest → K W AuthParams).
(** The tenants a label and a namespace select; the labels of a namespace; the
    storage classes; the write of the status. *)
Context (list_tenants : string → string → K W (list Tenant)) (namespace_labels : string → K W labels) (list_storage : K W (list (string * labels))).
Context (update_slice_status : ResourceSlice Q → K W ()) (opts : SliceStatusOptions Q) (now : Z).
(** The order in which Go walks the resources. *)
Context (range_resources : ResourceList Q → list (string * Q)).

Definition GetTenantByClusterID (cluster ns : string) : K W Tenant :=
  l ← list_tenants cluster ns;
  match (l : list Tenant) with [] => fail NotFound | [t] => mret t | _ => fail OtherErr end.
Inductive namespace_check := NsValid | NsInvalid.
Definition validateRSNamespace (ns consumer : string) : K W namespace_check :=
  l ← namespace_labels ns;
  match (l : labels) !! TenantNsLabels.TenantNamespaceLabel with
  | None => mret NsInvalid
  | Some v =>
    if is_false v then mret NsInvalid
    else if bool_decide ((l : labels) !! RemoteClusterIDKey = Some consumer) then mret NsValid else mret NsInvalid
  end.

(** What has been written into the object is kept on an error. *)
Definition handleAuthenticationStatus (s : ResourceSlice Q) (consumer : string) (t : Tenant) : K W (ResourceSlice Q * result kerr Z) :=
  let shouldCheckPublicKey := negb (bool_decide (GetAuthzPolicyValue (tn_AuthzPolicy t) = TolerateNoHandshake)) in
  match CheckCSRForResourceSlice (tn_PublicKey t) (rs_Name s) consumer (rs_CSR s) shouldCheckPublicKey with
  | Panic | Diverge => panic
  | Ret false => mret (denyAuthentication now s, Ok 0)
  | Ret true =>
    let renewal := match st_AuthParams s with
                   | Some a => if bool_decide (ap_SignedCRT a = ""%string) then Some (false, 0) else ShouldRenewCertificate now (ap_SignedCRT a)
                   | None => Some (false, 0)
                   end in
    match renewal with
    | None => mret (s, Err OtherErr)
    | Some (shouldRenew, requeueIn) =>
      r ← attempt (ForgeAuthParams (mkSigningRequest consumer (rs_Namespace s) ResourceSliceIdentity (rs_Name s) (rs_CSR s) (tn_ProxyURL t) shouldRenew));
      match r with
      | Err e => mret (denyAuthentication now s, Err e)
      | Ok a => mret (acceptAuthentication now (set_slice_auth s (Some a)), Ok requeueIn)
      end
    end
  end.

(** [cmp.Or]. *)
Definition cmp_Or (l : list string) : string := default ""%string (List.find (fun s => negb (bool_decide (s = ""%string))) l).
Definition ResourceSliceClassDefault : string := "default".
Definition resolveClass (s : ResourceSlice Q) : ResourceSlice Q :=
  if negb (bool_decide (st_Class s = ""%string)) then s
  else
    let defaultClass := match GetCondition s CondResources with
                        | Some c => if bool_decide (sc_Status c = CondEmpty) then DefaultResourceSliceClass opts else ResourceSliceClassDefault
                        | None => DefaultResourceSliceClass opts
                        end in
    set_slice_class s (cmp_Or [rs_Class s; defaultClass; ResourceSliceClassDefault]).
Definition isInResourceClasses (s : ResourceSlice Q) : bool := bool_decide (st_Class s = ResourceSliceClassDefault) || bool_decide (st_Class s = ""%string).
Definition getStorageClasses : K W (list ClassType) :=
  if negb (EnableStorage opts) then mret []
  else l ← list_storage; mret (sort_classes (storage_type opts <$> l)).
(** The resources granted: those of the spec over the defaults, into what is there. *)
Definition granted_resources (s : ResourceSlice Q) : ResourceList Q :=
  let m := foldl (fun m e => <[e.1 := default e.2 (rs_Resources s !! e.1)]> m) (st_Resources s) (range_resources (DefaultResourceQuantity opts)) in
  foldl (fun m e => <[e.1 := e.2]> m) m (range_resources (rs_Resources s)).
Definition handleResourcesStatus (s : ResourceSlice Q) (t : Tenant) : K W (ResourceSlice Q * result kerr ()) :=
  let s := resolveClass s in
  match tn_Condition t with
  | TenantActive =>
    if negb (isInResourceClasses s) then mret (s, Ok ())
    else if negb (DefaultResourceSliceClassEnabled opts) then
      mret (denyResourcesWithReason now s "DefaultResourceSliceClassDisabled"
              "the default ResourceSlice class has been administratively disabled on the provider", Ok ())
    else
      let s := set_slice_resources s (granted_resources s) in
      r ← attempt getStorageClasses;
      match r with
      | Err e => mret (set_slice_status s (st_Conditions s) (st_Class s) (st_Resources s) (st_AuthParams s) [] (st_IngressClasses s)
                         (st_LoadBalancerClasses s) (st_NodeLabels s), Err e)
      | Ok sto =>
        mret (acceptResources now (set_slice_status s (st_Conditions s) (st_Class s) (st_Resources s) (st_AuthParams s) sto (opt_IngressClasses opts)
                                     (opt_LoadBalancerClasses opts) (ClusterLabels opts)), Ok ())
      end
  | TenantCordoned =>
    match GetCondition s CondResources with
    | Some c => if bool_decide (sc_Status c = CondEmpty) then mret (denyResources now s, Ok ()) else mret (s, Ok ())
    | None => mret (denyResources now s, Ok ())
    end
  | TenantDrained => mret (denyResources now s, Ok ())
  | TenantOther _ => mret (s, Ok ())
  end.

(** What happens before the deferred write of the status. *)
Definition slice_body (s : ResourceSlice Q) (consumer : string) (t : Tenant) : K W (ResourceSlice Q * result kerr Z) :=
  r ← attempt (validateRSNamespace (rs_Namespace s) consumer);
  match r with
  | Err e => mret (s, Err e)
  | Ok NsInvalid => mret (denyAuthentication now s, Ok 0)
  | Ok NsValid =>
    '(s, r) ← handleAuthenticationStatus s consumer t;
    match r with
    | Err e => mret (s, Err e)
    | Ok requeueIn =>
      '(s, r) ← handleResourcesStatus s t;
      mret (s, match r with Ok _ => Ok requeueIn | Err e => Err e end)
    end
  end.
Definition SliceReconcile (got : result kerr (ResourceSlice Q)) : K W Z :=
  match got with
  | Err NotFound => mret 0
  | Err e => fail e
  | Ok s =>
    match rs_Consumer s with
    | None => mret 0
    | Some consumer =>
      ns ← tm_GetNamespace nsm consumer;
      if negb (bool_decide (ns = rs_Namespace s)) then mret 0
      else
        t ← GetTenantByClusterID consumer ns;
        '(s, r) ← slice_body s consumer t;
        _ ← update_slice_status s;
        match r with Ok z => mret z | Err e => fail e end
    end
  end.
End provider.

(** ** quotacreator_controller.go *)

Definition CordonResourceAnnotation : string := "liqo.io/cordon".
Definition cordon_value (v : string) : bool := negb (bool_decide (v = "false"%string) || bool_decide (v = "False"%string) || bool_decide (v = "0"%string)).
Definition hasToBeCordoned {Q} (s : ResourceSlice Q) : bool :=
  match rs_Annotations s !! CordonResourceAnnotation with Some v => cordon_value v | None => false end ||
  match rs_Annotations s !! CordonTenantAnnotation with Some v => cordon_value v | None => false end.
Definition condition_accepted {Q} (s : ResourceSlice Q) (ty : SliceConditionType) : bool :=
  match GetCondition s ty with Some c => bool_decide (sc_Status c = CondAccepted) | None => false end.

Section quota.
Context {Q : Type} `{EqDecision Q} `{CryptoOps} {W : Type} `{CU : CreateOrUpdater (ShadowPod.Quota Q)}.
Context (cl : Client W (ShadowPod.Quota Q)) (order : list string) (kinds : string → option (string * string)) (globalLabels globalAnnotations : labels).
Context (DefaultLimitsEnforcement : LimitsEnforcement).
(** [SetControllerReference] refuses an object that another controller owns. *)
Context (owned_by_other : Obj (ShadowPod.Quota Q) → bool).

Definition quota_key (s : ResourceSlice Q) (user : string) : okey := ("quotas"%string, rs_Namespace s, user).
Definition mutate_quota (s : ResourceSlice Q) (user : string) : mutate_fn (ShadowPod.Quota Q) := fun o =>
  if owned_by_other o then Ret (Err OtherErr)
  else Ret (Ok (set_spec o (AMap (ShadowPod.mkQuota user DefaultLimitsEnforcement (st_Resources s) (if hasToBeCordoned s then Some true else None))))).
Definition QuotaReconcile (got : result kerr (ResourceSlice Q)) : K W () :=
  match got with
  | Err NotFound => mret ()
  | Err e => fail e
  | Ok s =>
    if negb (condition_accepted s CondResources) then mret ()
    else match rs_Consumer s with
         | None => panic
         | Some consumer =>
           let user := common_name (rs_Name s) consumer in
           _ ← CreateOrUpdate order kinds globalLabels globalAnnotations cl (quota_key s user) (mutate_quota s user); mret ()
         end
  end.
End quota.

(** ** The consumer: localresourceslice_controller.go, forge/resourceslice.go *)

Definition ReplicationRequestedKey : string := "liqo.io/replication".
Definition ReplicationDestinationKey : string := "liqo.io/remoteID".
Definition ReplicationStatusKey : string := "liqo.io/replicated".
Definition CreateVirtualNodeAnnotation : string := "liqo.io/create-virtual-node".
Definition ResourceSliceNameLabelKey : string := "liqo.io/resourceslice-name".

Section consumer.
Context {Q : Type} `{CryptoOps} {W : Type}.

(** [resourceList] with the quantities as Kubernetes parses them. *)
Fixpoint resourceList (ParseQuantity : string → option Q) (l : list (string * string)) : option (ResourceList Q) :=
  match l with
  | [] => Some ∅
  | (name, quantity) :: l =>
    if bool_decide (quantity = ""%string) then resourceList ParseQuantity l
    else q ← ParseQuantity quantity; m ← resourceList ParseQuantity l; Some (<[name := q]> m)
  end.
Definition MutateResourceSlice (ParseQuantity : string → option Q) (s : ResourceSlice Q) (remote class : string) (resources : list (string * string))
    (createVirtualNode : bool) : option (ResourceSlice Q) :=
  let lab := <[RemoteClusterIDKey := remote]> (<[ReplicationDestinationKey := remote]> (<[ReplicationRequestedKey := "true"%string]> (rs_Labels s))) in
  let ann := if createVirtualNode then <[CreateVirtualNodeAnnotation := "true"%string]> (rs_Annotations s) else rs_Annotations s in
  rl ← resourceList ParseQuantity resources;
  Some (set_slice_spec s lab ann None (Some remote) rl (if bool_decide (class = ""%string) then rs_Class s else class) "").

Context (namespace_obj : string → K W (Obj tn_payload)) (cluster_key : K W PrivateKey) (update_slice : ResourceSlice Q → K W ()).
Context (localClusterID rnd : string).
Definition LocalSliceReconcile (got : result kerr (ResourceSlice Q)) : K W () :=
  match got with
  | Err NotFound => mret ()
  | Err e => fail e
  | Ok s =>
    let consumer := default localClusterID (rs_Consumer s) in
    provider ← match rs_Provider s with
               | Some p => mret p
               | None =>
                 let l := default ""%string (rs_Labels s !! RemoteClusterIDKey) in
                 if negb (bool_decide (l = ""%string)) then mret l
                 else ns ← namespace_obj (rs_Namespace s);
                      match GetClusterIDFromTenantNamespace ns with Some c => mret c | None => fail OtherErr end
               end;
    key ← cluster_key;
    csr ← (if bool_decide (rs_CSR s = ""%string) then
             match GenerateCSRForResourceSlice rnd key (rs_Name s) consumer with Some c => mret c | None => fail OtherErr end
           else mret (rs_CSR s));
    update_slice (set_slice_spec s (rs_Labels s) (rs_Annotations s) (Some consumer) (Some provider) (rs_Resources s) (rs_Class s) csr)
  end.
End consumer.

(** ** The virtual node: offloading/forge/virtualnode.go, virtualnodecreator_controller.go *)

Record VirtualNodeSpec (Q : Type) := mkVirtualNodeSpec {
  vs_ClusterID : string; vs_Labels : labels; vs_CreateNode : option bool; vs_DisableNetworkCheck : option bool;
  vs_KubeconfigSecret : string; vs_VkOptionsTemplate : option string; vs_Hard : ResourceList Q;
  vs_StorageClasses : list ClassType; vs_IngressClasses : list ClassType; vs_LoadBalancerClasses : list ClassType;
  vs_RuntimeClass : option string; vs_NodeSelector : labels
}.
Arguments mkVirtualNodeSpec {Q}. Arguments vs_ClusterID {Q}. Arguments vs_Labels {Q}. Arguments vs_CreateNode {Q}. Arguments vs_DisableNetworkCheck {Q}.
Arguments vs_KubeconfigSecret {Q}. Arguments vs_VkOptionsTemplate {Q}. Arguments vs_Hard {Q}. Arguments vs_StorageClasses {Q}. Arguments vs_IngressClasses {Q}.
Arguments vs_LoadBalancerClasses {Q}. Arguments vs_RuntimeClass {Q}. Arguments vs_NodeSelector {Q}.
Record VirtualNodeOptions (Q : Type) := mkVirtualNodeOptions {
  vo_Secret : string; vo_Template : option string; vo_Resources : ResourceList Q; vo_StorageClasses : list ClassType;
  vo_IngressClasses : list ClassType; vo_LoadBalancerClasses : list ClassType; vo_NodeLabels : labels; vo_NodeSelector : labels
}.
Arguments mkVirtualNodeOptions {Q}. Arguments vo_Secret {Q}. Arguments vo_Template {Q}. Arguments vo_Resources {Q}. Arguments vo_StorageClasses {Q}.
Arguments vo_IngressClasses {Q}. Arguments vo_LoadBalancerClasses {Q}. Arguments vo_NodeLabels {Q}. Arguments vo_NodeSelector {Q}.

Section virtualnode.
Context {Q : Type} `{EqDecision Q} {W : Type} `{CU : CreateOrUpdater (VirtualNodeSpec Q)}.

Definition VirtualNodeOptionsFromResourceSlice (s : ResourceSlice Q) (secret : string) (template : option string) : VirtualNodeOptions Q :=
  mkVirtualNodeOptions secret template (st_Resources s) (st_StorageClasses s) (st_IngressClasses s) (st_LoadBalancerClasses s) (st_NodeLabels s) (st_NodeSelector s).
(** A runtime class and a selector are written only when they are not empty; an
    offloading patch without either is none. *)
Definition MutateVirtualNode (remote : string) (opts : VirtualNodeOptions Q) (createNode disableNetworkCheck : option bool) (runtimeClass : option string)
    (vs : VirtualNodeSpec Q) : VirtualNodeSpec Q :=
  mkVirtualNodeSpec remote (vo_NodeLabels opts ∪ <[RemoteClusterIDKey := remote]> (vs_Labels vs))
    (match createNode with Some b => Some b | None => vs_CreateNode vs end)
    (match disableNetworkCheck with Some b => Some b | None => vs_DisableNetworkCheck vs end)
    (vo_Secret opts) (vo_Template opts) (vo_Resources opts) (vo_StorageClasses opts) (vo_IngressClasses opts) (vo_LoadBalancerClasses opts)
    (match runtimeClass with Some r => if bool_decide (r = ""%string) then vs_RuntimeClass vs else Some r | None => vs_RuntimeClass vs end)
    (if bool_decide (vo_NodeSelector opts = ∅) then vs_NodeSelector vs else vo_NodeSelector opts).
Definition empty_node_spec : VirtualNodeSpec Q := mkVirtualNodeSpec "" ∅ None None "" None ∅ [] [] [] None ∅.

(** An Identity: its name, cluster, labels and the reference to its secret. *)
Record Identity := mkIdentity { id_Name : string; id_ClusterID : string; id_Labels : labels; id_Secret : option string }.
Context (cl : Client W (VirtualNodeSpec Q)) (order : list string) (kinds : string → option (string * string)) (globalLabels globalAnnotations : labels).
Context (slice_identities : string → K W (list Identity)) (kubeconfig_secret : Identity → K W string) (owned_by_other : Obj (VirtualNodeSpec Q) → bool).

Definition allConditionsAccepted (s : ResourceSlice Q) : bool := condition_accepted s CondAuthentication && condition_accepted s CondResources.
Definition GetIdentityFromResourceSlice (cluster name : string) : K W Identity :=
  l ← slice_identities cluster;
  match List.find (fun i => bool_decide (id_Labels i !! ResourceSliceNameLabelKey = Some name)) l with Some i => mret i | None => fail NotFound end.
Definition mutate_virtual_node (s : ResourceSlice Q) (i : Identity) (secret : string) : mutate_fn (VirtualNodeSpec Q) := fun o =>
  if owned_by_other o then Ret (Err OtherErr)
  else
    let vs := match o_spec o with AMap v => v | _ => empty_node_spec end in
    let vs := MutateVirtualNode (id_ClusterID i) (VirtualNodeOptionsFromResourceSlice s secret (vs_VkOptionsTemplate vs)) None None None vs in
    Ret (Ok (mkObj (<[ResourceSliceNameLabelKey := rs_Name s]> (<[RemoteClusterIDKey := id_ClusterID i]> (o_labels o))) (o_annotations o) (o_finalizers o)
               (o_deleting o) (o_version o) (AMap vs) (o_status o))).
Definition VirtualNodeCreatorReconcile (got : result kerr (ResourceSlice Q)) : K W () :=
  match got with
  | Err NotFound => mret ()
  | Err e => fail e
  | Ok s =>
    if rs_Deleting s then mret ()
    else
      let a := default ""%string (rs_Annotations s !! CreateVirtualNodeAnnotation) in
      if bool_decide (a = ""%string) || is_false a then mret ()
      else if negb (allConditionsAccepted s) then mret ()
      else
        let remote := default ""%string (rs_Labels s !! RemoteClusterIDKey) in
        if bool_decide (remote = ""%string) then fail OtherErr
        else
          i ← GetIdentityFromResourceSlice remote (rs_Name s);
          match id_Secret i with
          | None => mret ()
          | Some n =>
            if bool_decide (n = ""%string) then mret ()
            else
              secret ← kubeconfig_secret i;
              _ ← CreateOrUpdate order kinds globalLabels globalAnnotations cl ("virtualnodes"%string, rs_Namespace s, rs_Name s) (mutate_virtual_node s i secret);
              mret ()
          end
  end.
End virtualnode.

(** ** The webhooks of ResourceSlices and VirtualNodes *)

Inductive slice_response := SliceBadRequest | SliceDenied | SliceAllowed.
(** [reflection.IsReplicated]. *)
Definition slice_replicated {Q} (s : ResourceSlice Q) : bool :=
  bool_decide (rs_Labels s !! ReplicationStatusKey = Some "true"%string).
Definition same_entry (key : string) (old new : labels) : bool := bool_decide (old !! key = new !! key).
Definition slice_handleCreate {Q} (local_names : result kerr (list string)) (obj : option (ResourceSlice Q)) : slice_response :=
  match obj with
  | None => SliceBadRequest
  | Some s =>
    if slice_replicated s then SliceAllowed
    else match local_names with
         | Err _ => SliceDenied
         | Ok l => if bool_decide (rs_Name s ∈ l) then SliceDenied else SliceAllowed
         end
  end.
Definition slice_handleUpdate {Q} (groups : list string) (obj old : option (ResourceSlice Q)) : slice_response :=
  if negb (IsControlPlaneUser groups) then SliceAllowed
  else match obj, old with
       | Some n, Some o =>
         if negb (same_entry RemoteClusterIDKey (rs_Labels o) (rs_Labels n)) then SliceDenied
         else if negb (same_entry CordonResourceAnnotation (rs_Annotations o) (rs_Annotations n)) then SliceDenied
         else SliceAllowed
       | _, _ => SliceBadRequest
       end.
(** [checkNodeDuplicate]: whether a node of the name can be read. *)
Definition virtualnode_handleCreate (obj : option string) (get_node : string → result kerr ()) : slice_response :=
  match obj with
  | None => SliceBadRequest
  | Some name => match get_node name with Err NotFound => SliceAllowed | _ => SliceDenied end
  end.
