(* ===== verification/AuthProps.v ===== *)
(** * AuthProps: which identities are signed, what a slice is granted, when a
      certificate is renewed *)

From S2P Require Export Resources Slice KubeClient.
From Stdlib Require Import Ascii.
Local Open Scope Z_scope.

(** ** Requests and keys *)

Section crypto.
Context `{CryptoOps}.

(** A certificate request as [checkCSR] accepts it. *)
Definition request_for (csr commonName organization : string) (der : option string) : Prop :=
  ∃ block r rest, pem_Decode csr = Some (block, ""%string) ∧ ParseCertificateRequest block = Some r ∧ CommonName r = commonName ∧
    Organization r = organization :: rest ∧ (∀ d, der = Some d → MarshalPKIXPublicKey (csr_PublicKey r) = Some d).
Lemma checkCSR_sound csr der check cn org : checkCSR csr der check cn org = Ret true → request_for csr cn org (if check then Some der else None).
Proof.
  unfold checkCSR. destruct (pem_Decode csr) as [[block rest]|] eqn:E1; [|done]. case_bool_decide as E2; [|done]. subst rest. cbn [negb].
  destruct (ParseCertificateRequest block) as [r|] eqn:E3; [|done]. case_bool_decide as E4; [|done]. cbn [negb].
  destruct (Organization r) as [|o l] eqn:E5; [done|]. case_bool_decide as E6; [|done]. subst o. cbn [negb]. intros Hr.
  exists block, r, l. do 4 (split; [done|]). destruct check; [|done]. cbn [negb] in Hr. case_bool_decide; [done|].
  destruct (MarshalPKIXPublicKey _) as [d|]; [|done]. injection Hr as Hr%bool_decide_eq_true. subst d. by intros d [= <-].
Qed.

Context `{!CryptoLaws}.
Lemma generate_checks rnd key cn org csr der check : generateCSR rnd key cn org = Some csr →
  (check = true → MarshalPKIXPublicKey (public_of key) = Some der ∧ der ≠ ""%string) → checkCSR csr der check cn org = Ret true.
Proof.
  intros Hg Hd. assert (∃ b, CreateCertificateRequest rnd (mkCSR cn [org] (public_of key)) key = Some b ∧ csr = pem_Encode b) as (b & Hb & ->).
  { unfold generateCSR in Hg. destruct key; [..|done]; apply fmap_Some in Hg as (b & Hb & ->); eauto. }
  unfold checkCSR. rewrite pem_roundtrip, bool_decide_true by done. cbn [negb]. rewrite (request_roundtrip rnd (mkCSR cn [org] (public_of key)) key b eq_refl Hb). cbn [CommonName Organization csr_PublicKey].
  rewrite !bool_decide_true by done. cbn [negb]. destruct check; [|done]. destruct Hd as [Hd Hne]; [done|]. cbn [negb]. rewrite bool_decide_false by done. rewrite Hd. by rewrite bool_decide_true.
Qed.
Lemma sign_verifies rnd key nonce sig : SignNonce rnd key nonce = Some sig → VerifyNonce (public_of key) nonce sig = Some true.
Proof.
  destruct key; cbn; [intros [= <-]; by rewrite ed_signs|intros Hs; by rewrite (rsa_signs _ _ _ _ Hs)|intros Hs; by rewrite (ec_signs _ _ _ _ Hs)|done].
Qed.
End crypto.

(** ** Renewal *)

(** The instant of two thirds of the life, as the code computes it. *)
Definition two_thirds (notBefore notAfter : Z) : Z := notAfter - (notAfter - notBefore) `quot` 3.
Lemma int64_small n : - 2 ^ 63 ≤ n < 2 ^ 63 → int64 n = n.
Proof. intros. unfold int64. rewrite Z.mod_small; lia. Qed.
Lemma renewal_check_eq now notBefore notAfter : 0 ≤ notAfter - notBefore < 2 ^ 63 → - 2 ^ 59 ≤ two_thirds notBefore notAfter - now ≤ 2 ^ 59 →
  NextRenewalCheck now notBefore notAfter = ((two_thirds notBefore notAfter - now) * 11) `quot` 10.
Proof.
  intros H1 H2. unfold NextRenewalCheck. assert (saturate (notAfter - notBefore) = notAfter - notBefore) as -> by (unfold saturate; lia).
  rewrite (int64_small (- _)) by lia. rewrite Z.quot_opp_l by lia. fold (two_thirds notBefore notAfter).
  assert (Hs : ∀ x, - 2 ^ 59 ≤ x ≤ 2 ^ 59 → saturate x = x) by (intros; unfold saturate; lia).
  change (notAfter + - ((notAfter - notBefore) `quot` 3)) with (two_thirds notBefore notAfter). rewrite Hs by done. by rewrite int64_small by lia.
Qed.

(** A certificate is renewed exactly from the end of two thirds of its life on,
    and until then the next check falls on that instant or at most a tenth of the wait
    after it; for waits up to 2^59 nanoseconds, about eighteen years. *)
Theorem renewal_at_two_thirds `{CryptoOps} now crt block rest notBefore notAfter : pem_Decode crt = Some (block, rest) →
  ParseCertificate block = Some (notBefore, notAfter) → 0 ≤ notAfter - notBefore < 2 ^ 63 → - 2 ^ 59 ≤ two_thirds notBefore notAfter - now ≤ 2 ^ 59 →
  ∃ renew wait, ShouldRenewCertificate now crt = Some (renew, wait) ∧ (renew = true ↔ two_thirds notBefore notAfter ≤ now) ∧
    (renew = false → two_thirds notBefore notAfter ≤ now + wait ≤ now + (two_thirds notBefore notAfter - now) * 11 / 10).
Proof.
  intros Hp Hc Hl Hw. unfold ShouldRenewCertificate. rewrite Hp. cbn [mbind option_bind]. rewrite Hc. cbn [mbind option_bind].
  rewrite (renewal_check_eq _ _ _ Hl Hw). set (u := two_thirds notBefore notAfter - now) in *.
  destruct (Z.leb_spec ((u * 11) `quot` 10) 0) as [H0|H0]; eexists _, _; (split; [reflexivity|]).
  - split; [|done]. split; [intros _|done]. destruct (Z_le_gt_dec u 0); [lia|]. rewrite Z.quot_div_nonneg in H0 by lia.
    assert (1 ≤ u * 11 / 10) by (apply Z.div_le_lower_bound; lia). lia.
  - assert (0 < u) by (destruct (Z_le_gt_dec u 0) as [Hu|]; [|lia]; assert ((u * 11) `quot` 10 ≤ 0) by (apply Z.quot_le_upper_bound; lia); lia).
    rewrite Z.quot_div_nonneg in * by lia. split; [split; [done|lia]|]. intros _. split; [|lia].
    assert (u ≤ u * 11 / 10) by (apply Z.div_le_lower_bound; lia). lia.
Qed.

(** ** What is signed *)

Section signing.
Context `{CryptoOps} {W : Type} (log : W → list SigningRequest).
(** The requests signed since [old] satisfy [P]. *)
Definition signed_since (old : list SigningRequest) (P : SigningRequest → Prop) (w : W) : Prop := ∃ new, log w = old ++ new ∧ Forall P new.
(** A call that signs nothing. *)
Definition unsigned {A} (m : K W A) : Prop := ∀ w w' r, m w = Ret (w', r) → log w' = log w.
Lemma unsigned_since {A} old P (m : K W A) : unsigned m → preserves (signed_since old P) m.
Proof. intros Hm w w' r (new & E & Hn) Hr. exists new. by rewrite (Hm _ _ _ Hr). Qed.
Lemma each_since {A B} old P (f : A → K W B) l : (∀ x, preserves (signed_since old P) (f x)) → preserves (signed_since old P) (each f l).
Proof. intros Hf. induction l; cbn [each]; [apply preserves_ret|]. by apply preserves_bind. Qed.

Context (nsm : TenantManager W) (ForgeAuthParams : SigningRequest → K W AuthParams).
Context (Hforge : ∀ q w w' r, ForgeAuthParams q w = Ret (w', r) → log w' = log w ++ [q]).
Context (Hget : ∀ c, unsigned (tm_GetNamespace nsm c)) (Hcreate : ∀ c, unsigned (tm_CreateNamespace nsm c))
        (Hbind : ∀ c l, unsigned (tm_BindClusterRoles nsm c l)) (Hunbind : ∀ c l, unsigned (tm_UnbindClusterRoles nsm c l))
        (Hbindw : ∀ c l, unsigned (tm_BindClusterRolesClusterWide nsm c l)) (Hunbindw : ∀ c l, unsigned (tm_UnbindClusterRolesClusterWide nsm c l)).
Lemma forge_since old (P : SigningRequest → Prop) q : P q → preserves (signed_since old P) (ForgeAuthParams q).
Proof.
  intros Hq w w' r (new & E & Hn) Hr. exists (new ++ [q]). rewrite (Hforge _ _ _ _ Hr), E, app_assoc. split; [done|].
  apply Forall_app. split; [done|by constructor].
Qed.

Section tenant.
Context (list_roles : string → K W (list string)) (nonce_secrets : string → K W (list (gmap string string))).
Context (list_slices : string → K W (list sliceref)) (update_slice : sliceref → K W ()) (delete_slice : sliceref → K W ()).
Context (list_maps : string → K W (list NamespaceMap)) (delete_map : NamespaceMap → K W ()).
Context (update_tenant update_tenant_status : Tenant → K W ()) (now : Z).
Context (Hroles : ∀ n, unsigned (list_roles n)) (Hnonces : ∀ c, unsigned (nonce_secrets c)) (Hslices : ∀ c, unsigned (list_slices c))
        (Hupds : ∀ s, unsigned (update_slice s)) (Hdels : ∀ s, unsigned (delete_slice s)) (Hmaps : ∀ c, unsigned (list_maps c))
        (Hdelm : ∀ m, unsigned (delete_map m)) (Hupt : ∀ t, unsigned (update_tenant t)) (Hupst : ∀ t, unsigned (update_tenant_status t)).
(** The secrets that hold the nonces issued to a cluster. *)
Context (issued : string → gmap string string → Prop).
Context (Hissued : ∀ c w w' l s, nonce_secrets c w = Ret (w', Ok l) → s ∈ l → issued c s).
Notation reconcile := (TenantReconcile nsm ForgeAuthParams list_roles nonce_secrets list_slices update_slice delete_slice list_maps delete_map
                         update_tenant update_tenant_status now).

(** The tenant holds the key: it signed a nonce issued to its cluster with the key
    its request is made with, and the request names the cluster. *)
Definition handshaken (t : Tenant) : Prop := ∃ secret nonce pub der, issued (tn_ClusterID t) secret ∧ GetNonceFromSecret secret = Some nonce ∧
  ParseTenantPublicKey (tn_PublicKey t) = Some (pub, der) ∧ VerifyNonce pub nonce (tn_Signature t) = Some true ∧
  request_for (tn_CSR t) (tn_ClusterID t) OrganizationControlPlaneCSR (Some der).
Lemma verifyHandshake_sound t w w' : verifyHandshake nonce_secrets t w = Ret (w', Ok true) → handshaken t.
Proof.
  unfold verifyHandshake. intros [(secret & w1 & H1 & H2)|(e & _ & ?)]%K_bind_inv; [|done].
  apply K_bind_inv in H1 as [(l & w0 & Hl & H1)|(e & _ & ?)]; [|done].
  assert (Hin : secret ∈ l) by (destruct l as [|s [|]]; [done|injection H1 as _ <-; by apply list_elem_of_singleton|done]).
  destruct (GetNonceFromSecret secret) as [nonce|] eqn:E1; [|done]. destruct (ParseTenantPublicKey _) as [[pub der]|] eqn:E2; [|done].
  destruct (VerifyNonce pub nonce (tn_Signature t)) as [[|]|] eqn:E3; [|done..].
  destruct (CheckCSRForControlPlane _ _ _) as [b| |] eqn:E4; [|done..]. injection H2 as _ ->.
  exists secret, nonce, pub, der. split; [by eapply Hissued|]. do 3 (split; [done|]). by apply (checkCSR_sound _ _ true).
Qed.
Lemma verifyHandshake_unsigned t : unsigned (verifyHandshake nonce_secrets t).
Proof.
  intros w w' r. unfold verifyHandshake. intros [(secret & w1 & H1 & H2)|(e & H1 & _)]%K_bind_inv.
  - assert (log w1 = log w) as <-.
    { apply K_bind_inv in H1 as [(l & w0 & Hl & H1)|(e & H1 & _)]; [|by eapply Hnonces]. rewrite <- (Hnonces _ _ _ _ Hl).
      destruct l as [|s [|]]; by injection H1 as <-. }
    repeat case_match; try done; by injection H2 as <-.
  - apply K_bind_inv in H1 as [(l & w0 & Hl & H1)|(e' & H1 & _)]; [|by eapply Hnonces]. rewrite <- (Hnonces _ _ _ _ Hl).
    destruct l as [|s [|]]; by injection H1 as <-.
Qed.

Definition for_tenant (t : Tenant) (q : SigningRequest) : Prop :=
  so_Cluster q = tn_ClusterID t ∧ so_CSR q = tn_CSR t ∧ so_Type q = ControlPlaneIdentity ∧ handshaken t.
#[local] Hint Resolve unsigned_since each_since : preserves.
Lemma identity_since old t t' roles : tn_ClusterID t' = tn_ClusterID t → tn_CSR t' = tn_CSR t → handshaken t →
  preserves (signed_since old (for_tenant t)) (tenant_identity ForgeAuthParams now t' roles).
Proof.
  intros E1 E2 Hh. unfold tenant_identity. apply preserves_bind; [preserve|]. intros check. apply preserves_bind; [|preserve].
  by apply forge_since.
Qed.
Lemma body_since old t roles wide : GetAuthzPolicyValue (tn_AuthzPolicy t) = TolerateNoHandshake ∨ handshaken t →
  preserves (signed_since old (for_tenant t)) (tenant_body nsm ForgeAuthParams update_tenant_status now t roles wide).
Proof.
  intros Hp. unfold tenant_body. apply preserves_bind; [by apply unsigned_since|]. intros ns. cbv zeta. apply preserves_bind.
  - apply preserves_attempt. case_bool_decide as Hd; [apply preserves_ret|]. destruct Hp as [?|Hh]; [done|]. by apply identity_since.
  - intros [[t' z]|e]; [|apply preserves_bind; [by apply unsigned_since|preserve]]. unfold with_status. apply preserves_bind.
    + apply preserves_attempt. apply preserves_bind; [case_match; [apply preserves_ret|by apply unsigned_since]|]. intros [].
      apply preserves_bind; [by apply unsigned_since|preserve].
    + intros r. apply preserves_bind; [by apply unsigned_since|preserve].
Qed.
Lemma roles_since old P names : preserves (signed_since old P) (getClusterRoles list_roles names).
Proof.
  induction names as [|n names IH]; cbn [getClusterRoles]; [apply preserves_ret|]. apply preserves_bind; [by apply unsigned_since|].
  intros [|]; [apply preserves_fail|]. apply preserves_bind; [done|preserve].
Qed.
Lemma ignore_since old P m : preserves (signed_since old P) m → preserves (signed_since old P) (ignore_not_found m).
Proof. intros Hm. unfold ignore_not_found. apply preserves_bind; [by apply preserves_attempt|]. preserve. Qed.
Lemma condition_since old P t roles wide :
  preserves (signed_since old P) (handleTenantDrained nsm list_slices delete_slice list_maps delete_map t roles wide) ∧
  preserves (signed_since old P) (handleTenantCordoned list_slices update_slice t) ∧
  preserves (signed_since old P) (handleTenantUncordoned list_slices update_slice t).
Proof.
  assert (Heach : ∀ A (f : A → K W ()) l, (∀ x, unsigned (f x)) → preserves (signed_since old P) (each (fun x => ignore_not_found (f x)) l))
    by (intros A f l Hf; apply each_since; intros x; by apply ignore_since, unsigned_since).
  split; [|split].
  - do 3 (apply preserves_bind; [by apply unsigned_since|intros]). apply preserves_bind; [by apply Heach|intros].
    apply preserves_bind; [by apply unsigned_since|intros; by apply Heach].
  - apply preserves_bind; [by apply unsigned_since|]. intros l. apply each_since. intros. by apply unsigned_since.
  - apply preserves_bind; [by apply unsigned_since|]. intros l. apply each_since. intros.
    case_match; [by apply unsigned_since|apply preserves_ret].
Qed.

(** C26: whatever the answers of the cluster, every certificate request the
    controller of Tenants has signed while it reconciles a Tenant is that of the
    Tenant, names its cluster, and is made with the key with which the Tenant signed
    a nonce issued to its cluster. *)
Theorem tenant_identity_verified kept t w w' r : reconcile kept (Ok t) w = Ret (w', r) → signed_since (log w) (for_tenant t) w'.
Proof.
  assert (Hw : signed_since (log w) (for_tenant t) w) by (exists []; by rewrite app_nil_r).
  revert r. intros r Hr. revert Hw Hr. unfold TenantReconcile. apply (preserves_bind (signed_since (log w) (for_tenant t))).
  { unfold ensureSetup. destruct kept as [[|x l] [|y l']]; repeat (apply preserves_bind; [apply roles_since || apply preserves_ret|intros]); apply preserves_ret. }
  intros [roles wide]. destruct (tn_Deleting t).
  { apply preserves_bind; [by apply unsigned_since|]. intros []. apply preserves_bind; [by apply unsigned_since|preserve]. }
  case_match; [apply preserves_bind; [by apply unsigned_since|preserve]|].
  destruct (condition_since (log w) (for_tenant t) t roles wide) as (Hd & Hc & Hu).
  assert (Htail : preserves (signed_since (log w) (for_tenant t))
    (ok ← (if bool_decide (GetAuthzPolicyValue (tn_AuthzPolicy t) = TolerateNoHandshake) then mret true else verifyHandshake nonce_secrets t);
     if (ok : bool) then tenant_body nsm ForgeAuthParams update_tenant_status now t roles wide else mret 0)).
  { destruct (bool_decide (GetAuthzPolicyValue (tn_AuthzPolicy t) = TolerateNoHandshake)) eqn:Hp.
    { apply bool_decide_eq_true in Hp. apply preserves_bind; [apply preserves_ret|]. intros [|]; [apply body_since; by left|apply preserves_ret]. }
    intros w1 w2 r2 Hw1 [(ok & w3 & H3 & H4)|(e & H3 & _)]%K_bind_inv.
    - pose proof (unsigned_since _ _ _ (verifyHandshake_unsigned t) _ _ _ Hw1 H3) as Hw3. destruct ok; [|by injection H4 as <-].
      eapply body_since; [|exact Hw3|exact H4]. right. by eapply verifyHandshake_sound.
    - by eapply (unsigned_since _ _ _ (verifyHandshake_unsigned t)). }
  assert (Hother : ∀ c, preserves (signed_since (log w) (for_tenant t))
    (_ ← (if bool_decide (c = TenantCordoned) then handleTenantCordoned list_slices update_slice t else handleTenantUncordoned list_slices update_slice t);
     ok ← (if bool_decide (GetAuthzPolicyValue (tn_AuthzPolicy t) = TolerateNoHandshake) then mret true else verifyHandshake nonce_secrets t);
     if (ok : bool) then tenant_body nsm ForgeAuthParams update_tenant_status now t roles wide else mret 0)).
  { intros c. apply preserves_bind; [by destruct (bool_decide (c = TenantCordoned))|]. intros []. exact Htail. }
  destruct (tn_Condition t); [apply Hother|apply Hother| |apply Hother].
  apply preserves_bind; [exact Hd|preserve].
Qed.
End tenant.

Section slice.
Context {Q : Type} (list_tenants : string → string → K W (list Tenant)) (namespace_labels : string → K W labels) (list_storage : K W (list (string * labels))).
Context (update_slice_status : ResourceSlice Q → K W ()) (opts : SliceStatusOptions Q) (now : Z) (range_resources : ResourceList Q → list (string * Q)).
Context (Htenants : ∀ c ns, unsigned (list_tenants c ns)) (Hlabels : ∀ ns, unsigned (namespace_labels ns)) (Hstorage : unsigned list_storage)
        (Hstatus : ∀ s, unsigned (update_slice_status s)).
(** The tenants of a cluster and the labels of a namespace. *)
Context (tenant_of : string → string → Tenant → Prop) (labelled : string → labels → Prop).
Context (Htenant_of : ∀ c ns w w' l t, list_tenants c ns w = Ret (w', Ok l) → t ∈ l → tenant_of c ns t).
Context (Hlabelled : ∀ ns w w' l, namespace_labels ns w = Ret (w', Ok l) → labelled ns l).
Notation reconcile := (SliceReconcile nsm ForgeAuthParams list_tenants namespace_labels list_storage update_slice_status opts now range_resources).

(** The request names the slice and its consumer, the slice lies in the namespace
    labelled with the consumer, and the key is that of a tenant of the consumer,
    unless that tenant needs no handshake. *)
Definition for_slice (s : ResourceSlice Q) (q : SigningRequest) : Prop :=
  ∃ consumer t l, rs_Consumer s = Some consumer ∧ tenant_of consumer (rs_Namespace s) t ∧ labelled (rs_Namespace s) l ∧
    l !! RemoteClusterIDKey = Some consumer ∧ so_Cluster q = consumer ∧ so_CSR q = rs_CSR s ∧ so_Type q = ResourceSliceIdentity ∧
    ∃ der, request_for (rs_CSR s) (common_name (rs_Name s) consumer) consumer der ∧
      (GetAuthzPolicyValue (tn_AuthzPolicy t) = TolerateNoHandshake ∨ ∃ pub d, ParseTenantPublicKey (tn_PublicKey t) = Some (pub, d) ∧ der = Some d).
Lemma check_slice_sound key name consumer csr check : CheckCSRForResourceSlice key name consumer csr check = Ret true →
  ∃ der, request_for csr (common_name name consumer) consumer der ∧ (check = false ∨ ∃ pub d, ParseTenantPublicKey key = Some (pub, d) ∧ der = Some d).
Proof.
  unfold CheckCSRForResourceSlice. destruct check.
  - destruct (ParseTenantPublicKey key) as [[pub d]|]; [|done]. cbn. intros Hc%checkCSR_sound. exists (Some d). split; [done|]. right. by exists pub, d.
  - intros Hc%checkCSR_sound. exists None. split; [done|by left].
Qed.

Lemma authentication_since old (s : ResourceSlice Q) consumer t (P : SigningRequest → Prop) :
  (∀ q der, so_Cluster q = consumer → so_CSR q = rs_CSR s → so_Type q = ResourceSliceIdentity → request_for (rs_CSR s) (common_name (rs_Name s) consumer) consumer der →
     (GetAuthzPolicyValue (tn_AuthzPolicy t) = TolerateNoHandshake ∨ ∃ pub d, ParseTenantPublicKey (tn_PublicKey t) = Some (pub, d) ∧ der = Some d) → P q) →
  preserves (signed_since old P) (handleAuthenticationStatus ForgeAuthParams now s consumer t).
Proof.
  intros HP. unfold handleAuthenticationStatus. cbv zeta. destruct (CheckCSRForResourceSlice _ _ _ _ _) as [[|]| |] eqn:Hc; [|apply preserves_ret|apply preserves_panic..].
  apply check_slice_sound in Hc as (der & Hr & Hk).
  match goal with |- context [match ?x with Some _ => _ | None => _ end] => destruct x as [[renew wait]|] end; [|apply preserves_ret].
  apply preserves_bind; [|preserve]. apply preserves_attempt, forge_since. eapply (HP _ der); [done..|exact Hr|].
  destruct Hk as [Hk|Hk]; [left; apply negb_false_iff in Hk; by apply bool_decide_eq_true in Hk|by right].
Qed.

Lemma validate_inv ns consumer w w' x : validateRSNamespace namespace_labels ns consumer w = Ret (w', x) →
  log w' = log w ∧ match x with Ok NsValid => ∃ l, labelled ns l ∧ l !! RemoteClusterIDKey = Some consumer | _ => True end.
Proof.
  unfold validateRSNamespace. intros [(l & w1 & Hl & H1)|(e & Hl & ->)]%K_bind_inv; rewrite <- (Hlabels _ _ _ _ Hl); [|done].
  destruct (l !! TenantNsLabels.TenantNamespaceLabel) as [v|]; [|by injection H1 as <- <-]. destruct (is_false v); [by injection H1 as <- <-|].
  destruct (bool_decide (l !! RemoteClusterIDKey = Some consumer)) eqn:E; injection H1 as <- <-; [|done]. apply bool_decide_eq_true in E.
  split; [done|]. exists l. split; [by eapply Hlabelled|done].
Qed.

(** C27: whatever the answers of the cluster, every certificate request signed while
    a ResourceSlice is reconciled is that of the slice, names the slice and the
    consumer, comes from the namespace labelled with the consumer, and, for a tenant
    whose authentication policy asks for the handshake, is made with the key of
    that tenant of the consumer.  For a tenant that tolerates no handshake the key
    is not checked. *)
Theorem slice_identity_verified s w w' r : reconcile (Ok s) w = Ret (w', r) → signed_since (log w) (for_slice s) w'.
Proof.
  assert (Hw : signed_since (log w) (for_slice s) w) by (exists []; by rewrite app_nil_r).
  intros Hr. revert Hw Hr. generalize (log w) as old. intros old. unfold SliceReconcile. destruct (rs_Consumer s) as [consumer|] eqn:Hcons; [|apply preserves_ret].
  apply (preserves_bind (signed_since old (for_slice s))); [by apply unsigned_since|]. intros ns. case_bool_decide as Hns; [|apply preserves_ret]. subst ns. cbn [negb].
  intros w1 w2 r2 Hw1 [(t & w3 & H3 & H4)|(e & H3 & _)]%K_bind_inv.
  2: { apply K_bind_inv in H3 as [(l & w4 & Hl & H3)|(e' & Hl & _)]; [|exact (unsigned_since _ _ _ (Htenants _ _) _ _ _ Hw1 Hl)].
       pose proof (unsigned_since _ _ _ (Htenants _ _) _ _ _ Hw1 Hl). destruct l as [|? [|]]; by injection H3 as <-. }
  apply K_bind_inv in H3 as [(l & w4 & Hl & H3)|(e & _ & ?)]; [|done]. pose proof (unsigned_since _ _ _ (Htenants _ _) _ _ _ Hw1 Hl) as Hw4.
  assert (Ht : tenant_of consumer (rs_Namespace s) t ∧ w3 = w4).
  { destruct l as [|t' [|]]; [done| |done]. injection H3 as <- <-. split; [|done]. eapply Htenant_of; [exact Hl|]. by apply list_elem_of_singleton. }
  destruct Ht as [Ht ->]. revert Hw4 H4. apply preserves_bind.
  - unfold slice_body. intros w5 w6 r6 Hw5 [(chk & w7 & (x & H7 & [= ->])%attempt_inv & H8)|(e & (x & _ & ?)%attempt_inv & _)]%K_bind_inv; [|done].
    apply validate_inv in H7 as [Hlog7 Hval].
    assert (Hw7 : signed_since old (for_slice s) w7) by (destruct Hw5 as (new & E & Hn); exists new; by rewrite Hlog7).
    destruct x as [[|]|e]; [|by injection H8 as <-..]. destruct Hval as (lb & Hlb & Hid).
    + revert Hw7 H8. apply preserves_bind.
      * apply authentication_since. intros q der Hq1 Hq2 Hq3 Hq4 Hq5. exists consumer, t, lb. split; [done|]. split; [done|].
        split; [done|]. split; [done|]. do 3 (split; [done|]). by exists der.
      * intros [s' [z|e]]; [|apply preserves_ret]. apply preserves_bind; [|preserve].
        unfold handleResourcesStatus, getStorageClasses. cbv zeta. repeat (case_match; try apply preserves_ret).
        all: apply preserves_bind; [apply preserves_attempt|preserve]; try apply preserves_ret; apply preserves_bind; [by apply unsigned_since|preserve].
  - intros [s' z]. apply preserves_bind; [by apply unsigned_since|preserve].
Qed.
End slice.
End signing.

(** ** The handshake *)

(** A cluster that signs the nonce it was issued and makes its request with the
    same key passes the handshake: what one side forges the other accepts. *)
Theorem handshake_completes `{CryptoLaws} {W} (nonce_secrets : string → K W (list (gmap string string))) t key rnd rnd' nonce secret der w w' :
  nonce_secrets (tn_ClusterID t) w = Ret (w', Ok [secret]) → GetNonceFromSecret secret = Some nonce →
  MarshalPKIXPublicKey (public_of key) = Some der → der ≠ ""%string → tn_PublicKey t = pem_Encode der →
  SignNonce rnd key nonce = Some (tn_Signature t) → GenerateCSRForControlPlane rnd' key (tn_ClusterID t) = Some (tn_CSR t) →
  verifyHandshake nonce_secrets t w = Ret (w', Ok true).
Proof.
  intros Hn Hs Hd Hne Hp Hsig Hcsr. unfold verifyHandshake.
  erewrite K_bind_ok by (unfold GetNonceSecretByClusterID; erewrite K_bind_ok by exact Hn; reflexivity). rewrite Hs.
  unfold ParseTenantPublicKey. rewrite Hp, pem_roundtrip. cbn [mbind option_bind]. rewrite (pkix_roundtrip _ _ Hd). cbn [mbind option_bind].
  rewrite (sign_verifies _ _ _ _ Hsig). unfold CheckCSRForControlPlane. by rewrite (generate_checks _ _ _ _ _ _ true Hcsr (fun _ => conj Hd Hne)).
Qed.

(** The request of a slice the consumer makes is accepted by the provider. *)
Lemma slice_request_accepted `{CryptoLaws} rnd key name consumer csr der check : MarshalPKIXPublicKey (public_of key) = Some der → der ≠ ""%string →
  GenerateCSRForResourceSlice rnd key name consumer = Some csr → CheckCSRForResourceSlice (pem_Encode der) name consumer csr check = Ret true.
Proof.
  intros Hd Hne Hg. unfold CheckCSRForResourceSlice, ParseTenantPublicKey. rewrite pem_roundtrip. cbn [mbind option_bind]. rewrite (pkix_roundtrip _ _ Hd).
  destruct check; cbn; by apply (generate_checks _ _ _ _ _ _ _ Hg).
Qed.

(** A request that names the slice but no organization stops the provider. *)
Lemma anonymous_request_panics `{CryptoOps} csr der check cn org block r : pem_Decode csr = Some (block, ""%string) →
  ParseCertificateRequest block = Some r → CommonName r = cn → Organization r = [] → checkCSR csr der check cn org = Panic.
Proof.
  intros H1 H2 H3 H4. unfold checkCSR. rewrite H1, bool_decide_true by done. cbn [negb]. rewrite H2, bool_decide_true by done. cbn [negb]. by rewrite H4.
Qed.

(** A certificate with more than about 27 years to the end of its two thirds is
    renewed at once: the multiplication overflows. *)
Example long_certificate_renewed : NextRenewalCheck 0 0 (45 * 365 * 86400 * 10 ^ 9) < 0.
Proof. vm_compute. reflexivity. Qed.

(** ** What a slice is granted *)

Section grants.
Context {Q : Type} (opts : SliceStatusOptions Q) (range_resources : ResourceList Q → list (string * Q)).
Context (Hrange : ∀ m, range_resources m ≡ₚ map_to_list m).

Lemma foldl_insert_lookup (f : string * Q → Q) l (m : ResourceList Q) k : NoDup l.*1 →
  foldl (fun m e => <[e.1 := f e]> m) m l !! k = match list_to_map (M:=gmap string Q) ((fun e => (e.1, f e)) <$> l) !! k with Some q => Some q | None => m !! k end.
Proof.
  revert m. induction l as [|[a q] l IH]; intros m Hnd; [cbn; by rewrite lookup_empty|]. rewrite fmap_cons in Hnd. apply NoDup_cons in Hnd as [Hni Hnd].
  cbn [foldl]. rewrite IH by done. rewrite fmap_cons. cbn [list_to_map]. cbn.
  destruct (decide (k = a)) as [->|Hne]; [|by rewrite !lookup_insert_ne by done].
  rewrite !lookup_insert_eq. rewrite (proj1 (not_elem_of_list_to_map _ a)); [done|]. by rewrite <- list_fmap_compose.
Qed.
Lemma ranged (m : ResourceList Q) (f : string * Q → Q) k :
  list_to_map (M:=gmap string Q) ((fun e => (e.1, f e)) <$> range_resources m) !! k = (fun q => f (k, q)) <$> m !! k.
Proof.
  assert (Hnd : NoDup (range_resources m).*1) by (rewrite Hrange; apply NoDup_fst_map_to_list).
  assert (Hnd' : NoDup (((fun e => (e.1, f e)) <$> range_resources m).*1)) by (by rewrite <- list_fmap_compose).
  destruct (m !! k) as [q|] eqn:E; cbn.
  - apply elem_of_list_to_map; [done|]. apply list_elem_of_fmap. exists (k, q). split; [done|]. rewrite Hrange. by apply elem_of_map_to_list.
  - apply not_elem_of_list_to_map. rewrite <- list_fmap_compose. intros ([a q] & -> & Hel)%list_elem_of_fmap. rewrite Hrange in Hel.
    apply elem_of_map_to_list in Hel. cbn in E. congruence.
Qed.
(** What was asked for, else the default, else what was there before. *)
Lemma granted_lookup s k : granted_resources opts range_resources s !! k =
  match rs_Resources s !! k with
  | Some q => Some q
  | None => match DefaultResourceQuantity opts !! k with Some q => Some q | None => st_Resources s !! k end
  end.
Proof.
  unfold granted_resources. cbv zeta. assert (Hnd : ∀ m, NoDup (range_resources m).*1) by (intros; rewrite Hrange; apply NoDup_fst_map_to_list).
  rewrite (foldl_insert_lookup snd) by done. rewrite (ranged (rs_Resources s) snd).
  destruct (rs_Resources s !! k) as [q|] eqn:E; [done|]. cbn [fmap option_fmap option_map].
  rewrite (foldl_insert_lookup (fun e => default e.2 (rs_Resources s !! e.1))) by done. rewrite (ranged _ (fun e => default e.2 (rs_Resources s !! e.1))).
  destruct (DefaultResourceQuantity opts !! k); cbn; [by rewrite E|done].
Qed.
End grants.

(** A resource the consumer no longer asks for stays granted. *)
Lemma withdrawn_resource_kept {Q} (opts : SliceStatusOptions Q) range_resources (s : ResourceSlice Q) k q :
  (∀ m, range_resources m ≡ₚ map_to_list m) → rs_Resources s !! k = None → DefaultResourceQuantity opts !! k = None → st_Resources s !! k = Some q →
  granted_resources opts range_resources s !! k = Some q.
Proof. intros Hr H1 H2 H3. by rewrite granted_lookup, H1, H2. Qed.

(** ** From the slice to the quota of its identity *)

Section quota.
Context {Q Other : Type} `{EqDecision Q} `{CryptoOps} {Api : KubeApi (ShadowPod.Quota Q)} {R : Responsive (ShadowPod.Quota Q)}.
Context `{EqDecision (ShadowPod.Quota Q)} {CU : CreateOrUpdater (ShadowPod.Quota Q)}.
Context (lists : string → string → labels → server → list (string * Obj (ShadowPod.Quota Q))).
Context (order : list string) (kinds : string → option (string * string)) (globalLabels globalAnnotations : labels).
Context (limits : ShadowPod.LimitsEnforcement) (owned_by_other : Obj (ShadowPod.Quota Q) → bool).
Context (Hkind : is_Some (kinds "quotas")) (Howner : ∀ o, owned_by_other o = false).
Notation world := (pworld (ShadowPod.Quota Q) ()).
Notation "w ⋅ k" := (content (pw_server w) !! k) (at level 20, k at next level).
Notation reconcile := (QuotaReconcile (plain_client (L:=()) lists) order kinds globalLabels globalAnnotations limits owned_by_other).

Lemma mutate_quota_gentle s user : gentle (mutate_quota limits owned_by_other s user).
Proof. intros o. unfold gentle_at, mutate_quota. rewrite Howner. eexists. split; [reflexivity|done]. Qed.

(** C28: once the resources of a slice are accepted, the identity its certificate
    request names has a quota of exactly the accepted resources: a reconciliation
    against a server that answers writes it, and the webhook that admits shadow pods
    finds it for a pod of that user. *)
Theorem identity_bounded_by_quota (s : ResourceSlice Q) consumer key check (w : world) :
  condition_accepted s CondResources = true → rs_Consumer s = Some consumer →
  CheckCSRForResourceSlice key (rs_Name s) consumer (rs_CSR s) check = Ret true →
  (∀ o, w ⋅ quota_key s (common_name (rs_Name s) consumer) = Some o → lives o) →
  ∃ block r w' o q, pem_Decode (rs_CSR s) = Some (block, ""%string) ∧ ParseCertificateRequest block = Some r ∧
    reconcile (Ok s) w = Ret (w', Ok ()) ∧ w' ⋅ quota_key s (CommonName r) = Some o ∧ o_spec o = AMap q ∧
    ShadowPod.q_user q = CommonName r ∧ ShadowPod.q_resources q = st_Resources s ∧
    (ShadowPod.q_cordoned q = Some true ↔ hasToBeCordoned s = true) ∧
    ∀ (cl : ShadowPod.Client Q Other) l, ShadowPod.cl_quotas cl = Some l → q ∈ l →
      (∀ q', q' ∈ l → EscapeLabel (ShadowPod.q_user q') = EscapeLabel (CommonName r) → q' = q) →
      ShadowPod.GetQuotaByUser cl (EscapeLabel (CommonName r)) = Ok q.
Proof.
  intros Hacc Hcons Hcsr Hlive. apply check_slice_sound in Hcsr as (der & (block & r & rest & E1 & E2 & E3 & _) & _). destruct Hkind as [gk Hgk].
  set (user := common_name (rs_Name s) consumer) in *.
  destruct (plain_cou_succeeds lists order kinds globalLabels globalAnnotations (quota_key s user) (mutate_quota limits owned_by_other s user) w gk Hgk
    (mutate_quota_gentle s user) Hlive) as (w' & o & E & Ho & Hw' & Hl & o1 & Hf & _ & Hsp).
  set (q := ShadowPod.mkQuota user limits (st_Resources s) (if hasToBeCordoned s then Some true else None)).
  assert (Hq : o_spec o = AMap q).
  { rewrite Hsp. unfold wrapped, mutate_quota in Hf. rewrite Howner in Hf. cbn [mbind outcome_bind] in Hf. destruct (buildVariablesMap _ _ _); [|done]. by injection Hf as <-. }
  exists block, r, w', o, q. rewrite E3. do 2 (split; [done|]). split.
  { cbn [QuotaReconcile]. rewrite Hacc. cbn [negb]. rewrite Hcons. fold user. by erewrite K_bind_ok by exact E. }
  do 2 (split; [done|]). do 2 (split; [done|]). split; [cbn; by destruct (hasToBeCordoned s)|].
  intros cl l Hl1 Hin Huniq. unfold ShadowPod.GetQuotaByUser. rewrite Hl1.
  destruct (list_find _ l) as [[i q']|] eqn:Ef.
  - apply list_find_Some in Ef as (Hi & He & _). f_equal. apply Huniq; [|done]. by eapply list_elem_of_lookup_2.
  - exfalso. apply (list_find_None (fun q => EscapeLabel (ShadowPod.q_user q) = EscapeLabel user)) in Ef. rewrite Forall_forall in Ef. by apply (Ef q Hin).
Qed.
End quota.

(** ** Tenants admitted by the webhook *)

(** The webhook sees the tenants of the cluster. *)
Definition view_of (nss : gmap string labels) (ts : list Tenant) : tenant_view := {|
  tv_namespace := fun ns => match nss !! ns with Some l => Ok l | None => Err NotFound end;
  tv_tenants := fun sel => Ok (List.filter (fun t => match sel with
                                                     | Some (inl ns) => bool_decide (tn_Namespace t = ns)
                                                     | Some (inr name) => bool_decide (tn_Name t = name)
                                                     | None => true
                                                     end) ts)
|}.
(** Creations pass both webhooks; an update keeps the identity of the object and,
    by the schema, its cluster. *)
Inductive tenant_step (nss : gmap string labels) : list Tenant → list Tenant → Prop :=
| tenant_created ts t : tenant_handleCreate (view_of nss ts) (Some (tenant_mutate t)) = TenantAllowed → tn_UID t ∉ tn_UID <$> ts →
    tenant_step nss ts (ts ++ [tenant_mutate t])
| tenant_updated ts1 old ts2 t : tn_UID t = tn_UID old → tn_Name t = tn_Name old → tn_Namespace t = tn_Namespace old → tn_ClusterID t = tn_ClusterID old →
    tenant_handleUpdate (view_of nss (ts1 ++ old :: ts2)) (Some (tenant_mutate t)) = TenantAllowed →
    tenant_step nss (ts1 ++ old :: ts2) (ts1 ++ tenant_mutate t :: ts2)
| tenant_deleted ts1 t ts2 : tenant_step nss (ts1 ++ t :: ts2) (ts1 ++ ts2).

Lemma mutate_keeps t : tn_Name (tenant_mutate t) = tn_Name t ∧ tn_Namespace (tenant_mutate t) = tn_Namespace t ∧ tn_ClusterID (tenant_mutate t) = tn_ClusterID t.
Proof. unfold tenant_mutate. by case_match. Qed.
(** The label of a tenant, its cluster and the label of its namespace agree. *)
Definition placed (nss : gmap string labels) (t : Tenant) : Prop := ∃ l, nss !! tn_Namespace t = Some l ∧
  l !! TenantNsLabels.TenantNamespaceLabel = Some "true"%string ∧ default ""%string (tn_Labels t !! RemoteClusterIDKey) = tn_ClusterID t ∧
  tn_ClusterID t = default ""%string (l !! RemoteClusterIDKey).
Lemma checks_placed nss ts t : tenantConsistencyChecks (view_of nss ts) t = Ok () → placed nss t.
Proof.
  unfold tenantConsistencyChecks. cbn. destruct (nss !! tn_Namespace t) as [l|] eqn:E; [|done].
  case_bool_decide; [|done]. case_bool_decide; [|done]. case_bool_decide; [|done]. intros _. by exists l.
Qed.
Definition tenants_ok (nss : gmap string labels) (ts : list Tenant) : Prop :=
  NoDup (tn_Name <$> ts) ∧ NoDup (tn_Namespace <$> ts) ∧ Forall (placed nss) ts.
Lemma filter_nil_notin {A B} `{EqDecision B} (f : A → B) (b : B) l : List.filter (fun x => bool_decide (f x = b)) l = [] → b ∉ f <$> l.
Proof.
  intros E (x & -> & Hx)%list_elem_of_fmap. apply list_elem_of_In in Hx. assert (H := proj2 (filter_In (fun y => bool_decide (f y = f x)) x l) (conj Hx (bool_decide_eq_true_2 _ eq_refl))).
  by rewrite E in H.
Qed.
Lemma tenants_ok_step nss ts ts' : tenant_step nss ts ts' → tenants_ok nss ts → tenants_ok nss ts'.
Proof.
  intros Hs (Hn & Hm & Hp). destruct Hs as [ts t Ha Hu|ts1 old ts2 t H1 H2 H3 H4 Ha|ts1 t ts2].
  - unfold tenant_handleCreate in Ha. destruct (tenantConsistencyChecks _ _) as [[]|] eqn:Hc; [|done]. cbn [tv_tenants view_of in_namespace with_name] in Ha.
    destruct (List.filter _ ts) as [|x l] eqn:E1 in Ha; [|done]. destruct (List.filter _ ts) as [|x l] eqn:E2 in Ha; [|done].
    apply filter_nil_notin in E1, E2. unfold tenants_ok. rewrite !fmap_app, Forall_app. cbn.
    split; [|split; [|split; [done|constructor; [by eapply checks_placed|constructor]]]];
      (apply NoDup_app; split; [done|]; split; [intros x Hx ->%list_elem_of_singleton; done|apply NoDup_singleton]).
  - unfold tenant_handleUpdate in Ha. destruct (tenantConsistencyChecks _ _) as [[]|] eqn:Hc; [|done]. destruct (mutate_keeps t) as (K1 & K2 & _).
    unfold tenants_ok in *. rewrite !fmap_app, !fmap_cons in *. rewrite K1, K2, H2, H3. split; [done|]. split; [done|].
    rewrite Forall_app, Forall_cons in *. split; [by apply Hp|]. split; [by eapply checks_placed|by apply Hp].
  - unfold tenants_ok in *. rewrite !fmap_app, !fmap_cons in *. rewrite Forall_app, Forall_cons in *. rewrite !NoDup_app, !NoDup_cons in *. set_solver.
Qed.

(** However tenants are created, edited and deleted through the webhooks, names
    and namespaces are used once, each tenant lies in a tenant namespace of its own
    cluster, and, when no two namespaces stand for one cluster, a cluster has at most
    one tenant. *)
Theorem tenants_consistent nss ts : rtc (tenant_step nss) [] ts →
  tenants_ok nss ts ∧
  ((∀ ns1 ns2 l1 l2, nss !! ns1 = Some l1 → nss !! ns2 = Some l2 → l1 !! RemoteClusterIDKey = l2 !! RemoteClusterIDKey → is_Some (l1 !! RemoteClusterIDKey) → ns1 = ns2) →
   ∀ i j t u, ts !! i = Some t → ts !! j = Some u → tn_ClusterID t = tn_ClusterID u → tn_ClusterID t ≠ ""%string → i = j).
Proof.
  intros Hr. assert (Hok : tenants_ok nss ts).
  { apply (rtc_ind_r (R:=tenant_step nss) (tenants_ok nss) []); [by split; [constructor|split; constructor]| |done]. intros y z _ Hs Hy. by eapply tenants_ok_step. }
  split; [done|]. intros Huniq i j t u Ht Hu Hc Hne. destruct Hok as (_ & Hm & Hp). rewrite Forall_lookup in Hp.
  destruct (Hp i t Ht) as (l1 & A1 & _ & _ & A2), (Hp j u Hu) as (l2 & B1 & _ & _ & B2).
  assert (Hns : tn_Namespace t = tn_Namespace u).
  { apply (Huniq _ _ l1 l2 A1 B1); destruct (l1 !! RemoteClusterIDKey), (l2 !! RemoteClusterIDKey); cbn in *; try congruence; by eexists. }
  eapply NoDup_lookup; [exact Hm| |]; rewrite list_lookup_fmap; [by rewrite Ht|by rewrite Hu; cbn; rewrite Hns].
Qed.

(** ** Examples: keys and encodings that meet the laws *)

#[export] Instance PublicKey_eq_dec : EqDecision PublicKey.
Proof. solve_decision. Defined.
#[export] Instance CertificateRequest_eq_dec : EqDecision CertificateRequest.
Proof. solve_decision. Defined.
Definition toy_sign (k m : string) : string := (k ++ "|" ++ m)%string.
Definition cp_request : CertificateRequest := mkCSR "milan" ["liqo.io"%string] (EdPublic "k").
Definition rs_request : CertificateRequest := mkCSR ("pool-" ++ hex "milan") ["milan"%string] (EdPublic "k").
#[local] Instance toy : CryptoOps := {|
  sha256 := fun s => s;
  ed_Sign := toy_sign; ed_Verify := fun k m s => bool_decide (s = toy_sign k m);
  rsa_Sign := fun _ k m => Some (toy_sign k m); rsa_Verify := fun k m s => bool_decide (s = toy_sign k m);
  ec_Sign := fun _ k m => Some (toy_sign k m); ec_Verify := fun k m s => bool_decide (s = toy_sign k m);
  ed_public := fun k => k; rsa_public := fun k => k; ec_public := fun k => k;
  pem_Decode := fun s => match s with String "P"%char b => Some (b, ""%string) | _ => None end;
  pem_Encode := fun b => String "P"%char b;
  ParseCertificateRequest := fun b => if bool_decide (b = "cp"%string) then Some cp_request else if bool_decide (b = "rs"%string) then Some rs_request else None;
  CreateCertificateRequest := fun _ r _ => if bool_decide (r = cp_request) then Some "cp"%string else if bool_decide (r = rs_request) then Some "rs"%string else None;
  MarshalPKIXPublicKey := fun k => match k with EdPublic s => Some (String "E"%char s) | RsaPublic s => Some (String "R"%char s) | EcPublic s => Some (String "C"%char s) | OtherPublic => None end;
  ParsePKIXPublicKey := fun b => match b with String "E"%char s => Some (EdPublic s) | String "R"%char s => Some (RsaPublic s) | String "C"%char s => Some (EcPublic s) | _ => None end;
  ParseCertificate := fun b => if bool_decide (b = "crt"%string) then Some (0, 3000) else None
|}.
#[local] Instance toy_laws : CryptoLaws.
Proof.
  split; cbn.
  - intros. by apply bool_decide_eq_true_2.
  - intros ???? [= <-]. by apply bool_decide_eq_true_2.
  - intros ???? [= <-]. by apply bool_decide_eq_true_2.
  - done.
  - intros rnd r k b _. case_bool_decide as E1; [by intros [= <-]; subst|]. case_bool_decide as E2; [by intros [= <-]; subst|done].
  - by intros [] b [= <-].
Qed.

Definition ex_tenant : Tenant :=
  mkTenant "milan" "omni-milan" "u1" ∅ [tenantControllerFinalizer] false "milan" None "PEk" "Pcp" "k|n0nce" None TenantActive "" None.
Definition ex_nonces (_ : string) (w : list SigningRequest) : outcome (list SigningRequest * result kerr (list (gmap string string))) :=
  Ret (w, Ok [{[ "nonce"%string := "n0nce"%string ]}]).
Lemma handshake_completes_witness : verifyHandshake ex_nonces ex_tenant [] = Ret ([], Ok true).
Proof.
  apply (handshake_completes ex_nonces ex_tenant (EdPrivate "k") "" "" "n0nce" {[ "nonce"%string := "n0nce"%string ]} "Ek" [] []); reflexivity || discriminate.
Defined.

Lemma renewal_at_two_thirds_witness : ∃ renew wait, ShouldRenewCertificate 1000 "Pcrt" = Some (renew, wait) ∧ renew = false ∧ 2000 ≤ 1000 + wait ≤ 2100.
Proof.
  destruct (renewal_at_two_thirds 1000 "Pcrt" "crt" "" 0 3000) as (renew & wait & E & Hr & Hw); [reflexivity|reflexivity|lia|vm_compute; split; discriminate|].
  exists renew, wait. split; [exact E|]. assert (Hf : renew = false) by (apply not_true_iff_false; rewrite Hr; vm_compute; intros F; by apply F).
  split; [exact Hf|]. apply Hw in Hf. exact Hf.
Defined.

(** A manager and a signer that answer; signing is recorded. *)
Definition ex_manager : TenantManager (list SigningRequest) :=
  mkTenantManager (fun c w => Ret (w, Ok ("omni-" ++ c)%string)) (fun c w => Ret (w, Ok ("omni-" ++ c)%string)) (fun _ _ w => Ret (w, Ok ()))
    (fun _ _ w => Ret (w, Ok ())) (fun _ _ w => Ret (w, Ok ())) (fun _ _ w => Ret (w, Ok ())).
Definition ex_forge (q : SigningRequest) (w : list SigningRequest) : outcome (list SigningRequest * result kerr AuthParams) :=
  Ret (w ++ [q], Ok (mkAuthParams "ca" "Pcrt" "https://api" None None)).
Definition ex_done {A} (_ : A) (w : list SigningRequest) : outcome (list SigningRequest * result kerr ()) := Ret (w, Ok ()).
Definition ex_none {A B} (_ : A) (w : list SigningRequest) : outcome (list SigningRequest * result kerr (list B)) := Ret (w, Ok []).
Definition ex_reconcile_tenant (w : list SigningRequest) : outcome (list SigningRequest * result kerr Z) :=
  TenantReconcile ex_manager ex_forge (fun n w => Ret (w, Ok [n])) ex_nonces ex_none ex_done ex_done ex_none ex_done ex_done ex_done 500 ([], []) (Ok ex_tenant) w.
Definition ex_request : SigningRequest := mkSigningRequest "milan" "omni-milan" ControlPlaneIdentity "milan" "Pcp" None false.
Lemma tenant_identity_verified_witness :
  ex_reconcile_tenant [] = Ret ([ex_request], Ok 0) ∧ for_tenant (fun c s => c = "milan"%string ∧ s = {[ "nonce"%string := "n0nce"%string ]}) ex_tenant ex_request.
Proof.
  assert (E : ex_reconcile_tenant [] = Ret ([ex_request], Ok 0)) by reflexivity. split; [exact E|].
  destruct (tenant_identity_verified (fun w : list SigningRequest => w) ex_manager ex_forge ltac:(by intros q w w' r [= <- _])
    ltac:(by intros c w w' r [= <- _]) ltac:(by intros c l w w' r [= <- _]) ltac:(by intros c l w w' r [= <- _]) ltac:(by intros c l w w' r [= <- _])
    ltac:(by intros c l w w' r [= <- _]) (fun n w => Ret (w, Ok [n])) ex_nonces ex_none ex_done ex_done ex_none ex_done ex_done ex_done 500
    ltac:(by intros c w w' r [= <- _]) ltac:(by intros c w w' r [= <- _]) ltac:(by intros c w w' r [= <- _]) ltac:(by intros c w w' r [= <- _])
    ltac:(by intros c w w' r [= <- _]) ltac:(by intros c w w' r [= <- _]) ltac:(by intros c w w' r [= <- _]) ltac:(by intros c w w' r [= <- _])
    ltac:(by intros c w w' r [= <- _]) (fun c s => s = {[ "nonce"%string := "n0nce"%string ]})
    ltac:(intros c w w' l s [= <- <-]; by intros ->%list_elem_of_singleton)
    ([], []) ex_tenant [] [ex_request] (Ok 0) E) as (new & Hnew & Hall).
  cbn in Hnew. subst new. apply Forall_cons in Hall as [(H1 & H2 & H3 & (secret & nonce & pub & der & Hi & Hrest)) _].
  split; [exact H1|]. split; [exact H2|]. split; [exact H3|]. exists secret, nonce, pub, der. split; [split; [reflexivity|exact Hi]|exact Hrest].
Defined.

Definition ex_slice : ResourceSlice Z :=
  mkSlice "pool" "omni-milan" ∅ ∅ false (Some "milan"%string) (Some "turin"%string) {[ "cpu"%string := 4 ]} "" "Prs"
    [] "" ∅ None [] [] [] ∅ ∅.
Definition ex_opts : SliceStatusOptions Z := mkSliceOptions false "" [] [] ∅ {[ "memory"%string := 8 ]} true "".
Definition ex_ns_labels : labels := {[ TenantNsLabels.TenantNamespaceLabel := "true"%string; RemoteClusterIDKey := "milan"%string ]}.
Definition ex_reconcile_slice (w : list SigningRequest) : outcome (list SigningRequest * result kerr Z) :=
  SliceReconcile ex_manager ex_forge (fun _ _ w => Ret (w, Ok [ex_tenant])) (fun _ w => Ret (w, Ok ex_ns_labels)) (fun w => Ret (w, Ok []))
    ex_done ex_opts 500 map_to_list (Ok ex_slice) w.
Definition ex_slice_request : SigningRequest := mkSigningRequest "milan" "omni-milan" ResourceSliceIdentity "pool" "Prs" None false.
Lemma slice_identity_verified_witness :
  ex_reconcile_slice [] = Ret ([ex_slice_request], Ok 0) ∧ for_slice (fun _ _ t => t = ex_tenant) (fun _ l => l = ex_ns_labels) ex_slice ex_slice_request.
Proof.
  assert (E : ex_reconcile_slice [] = Ret ([ex_slice_request], Ok 0)) by reflexivity. split; [exact E|].
  destruct (slice_identity_verified (fun w : list SigningRequest => w) ex_manager ex_forge ltac:(by intros q w w' r [= <- _])
    ltac:(by intros c w w' r [= <- _]) (fun _ _ w => Ret (w, Ok [ex_tenant])) (fun _ w => Ret (w, Ok ex_ns_labels)) (fun w => Ret (w, Ok []))
    ex_done ex_opts 500 map_to_list ltac:(by intros c ns w w' r [= <- _]) ltac:(by intros c w w' r [= <- _]) ltac:(by intros w w' r [= <- _])
    ltac:(by intros c w w' r [= <- _]) (fun _ _ t => t = ex_tenant) (fun _ l => l = ex_ns_labels)
    ltac:(intros c ns w w' l t [= <- <-]; by intros ->%list_elem_of_singleton) ltac:(by intros ns w w' l [= <- <-])
    ex_slice [] [ex_slice_request] (Ok 0) E) as (new & Hnew & Hall).
  cbn in Hnew. subst new. by apply Forall_cons in Hall as [H _].
Defined.

#[export] Instance LimitsEnforcement_eq_dec : EqDecision ShadowPod.LimitsEnforcement.
Proof. solve_decision. Defined.
#[export] Instance Quota_eq_dec {Q} `{EqDecision Q} : EqDecision (ShadowPod.Quota Q).
Proof. solve_decision. Defined.
Definition ex_accepted : ResourceSlice Z := acceptResources 7 (set_slice_resources ex_slice {[ "cpu"%string := 4; "memory"%string := 8 ]}).
Lemma identity_bounded_by_quota_witness : ∃ w' o q,
  QuotaReconcile (CU := documented (ShadowPod.Quota Z)) (plain_client (Api := memory) (L:=()) (fun _ _ _ _ => [])) knownVariables (fun _ => Some ("Quota", "offloading")%string) ∅ ∅
    ShadowPod.NoLimitsEnforcement (fun _ => false) (Ok ex_accepted) (mkPworld (∅ : server (KubeApi := memory)) []) = Ret (w', Ok ()) ∧
  content (pw_server w') !! quota_key ex_accepted (CommonName rs_request) = Some o ∧ o_spec o = AMap q ∧
  ShadowPod.q_resources q = {[ "cpu"%string := 4; "memory"%string := 8 ]}.
Proof.
  destruct (identity_bounded_by_quota (Other := ()) (CU := documented (ShadowPod.Quota Z)) (Api := memory) (fun _ _ _ _ => []) knownVariables
    (fun _ => Some ("Quota", "offloading")%string) ∅ ∅ ShadowPod.NoLimitsEnforcement (fun _ => false) (mk_is_Some _ _ eq_refl) (fun _ => eq_refl)
    ex_accepted "milan" "PEk" true (mkPworld (∅ : server (KubeApi := memory)) [])) as (block & r & w' & o & q & E1 & E2 & E3 & E4 & E5 & _ & E7 & _).
  - reflexivity.
  - reflexivity.
  - reflexivity.
  - intros o Ho. change ((∅ : gmap okey (Obj (ShadowPod.Quota Z))) !! quota_key ex_accepted (common_name (rs_Name ex_accepted) "milan") = Some o) in Ho.
    by rewrite lookup_empty in Ho.
  - injection E1 as <-. injection E2 as <-. exists w', o, q. split; [exact E3|]. split; [exact E4|]. split; [exact E5|exact E7].
Defined.

Definition ex_namespaces : gmap string labels := {[ "omni-milan"%string := ex_ns_labels ]}.
Lemma tenants_consistent_witness : rtc (tenant_step ex_namespaces) [] [tenant_mutate ex_tenant] ∧ tenants_ok ex_namespaces [tenant_mutate ex_tenant].
Proof.
  assert (H : rtc (tenant_step ex_namespaces) [] [tenant_mutate ex_tenant]).
  { apply rtc_once. apply (tenant_created ex_namespaces [] ex_tenant); [vm_compute; reflexivity|apply not_elem_of_nil]. }
  split; [exact H|]. exact (proj1 (tenants_consistent ex_namespaces [tenant_mutate ex_tenant] H)).
Defined.
