(* ===== verification/AuthExchange.v ===== *)
(** * AuthExchange: keys, nonces, identities and their renewal
      (src/pkg/liqo-controller-manager/authentication/{keys.go,noncecreator-controller,noncesigner-controller,
       identity-controller,identitycreator-controller,localrenewer-controller,remoterenwer-controller,
       forge/{identity,kubeconfig,nonce,signednonce,tenant}.go,utils/{identity,nonce,tenant}.go,getters/nonce.go},
       src/pkg/utils/kubeconfig/kubeconfig.go)

    The consumer proves who it is by signing a nonce of the provider; it gets an
    identity, from which a kubeconfig is made, and renewed certificates reach it through
    Renew objects.  A secret written with [StringData] is stored by the server with that
    data merged. *)

From S2P Require Remapping.
From S2P Require Export Slice AuthProps.
From Stdlib Require Import Ascii.
Import Remapping(OwnerRef, OwnerRefs, SetControllerReference).
#[local] Existing Instance Remapping.OwnerRef_eq_dec.
Local Open Scope Z_scope.

(** Owners come first; identities and renewals have a status. *)
Inductive apl :=
| PSecret (owners : list OwnerRef) (data : labels)
| PIdentity (owners : list OwnerRef) (cluster : string) (type : IdentityType) (auth : AuthParams) (namespace : option string)
| PIdentityStatus (kubeconfig : string)
| PRenew (owners : list OwnerRef) (consumer : string) (type : IdentityType)
| PRenewStatus (auth : option AuthParams).
#[export] Instance apl_eq_dec : EqDecision apl.
Proof. solve_decision. Defined.

Definition AuthKeysSecretName : string := "authentication-keys".
Definition PrivateKeyField : string := "privateKey".
Definition PublicKeyField : string := "publicKey".
Definition NonceSecretLabelKey : string := "liqo.io/nonce".
Definition SignedNonceSecretLabelKey : string := "liqo.io/signed-nonce".
Definition NonceSecretField : string := "nonce".
Definition SignedNonceSecretField : string := "signedNonce".
Definition KubeconfigSecretField : string := "kubeconfig".
Definition IdentityTypeLabelKey : string := "liqo.io/identity-type".
Definition RemoteTenantNamespaceAnnotKey : string := "liqo.io/remote-tenant-namespace".
Definition ResourceSliceNameLabelKey : string := "liqo.io/resourceslice-name".
Definition ReplicationRequestedLabel : string := "liqo.io/replication".
Definition ReplicationDestinationLabel : string := "liqo.io/remoteID".
Definition identity_type_text (t : IdentityType) : string :=
  match t with ControlPlaneIdentity => "ControlPlane" | ResourceSliceIdentity => "ResourceSlice" end.

Definition secret_owners (o : Obj apl) : list OwnerRef := match o_spec o with AMap (PSecret ow _) => ow | _ => [] end.
Definition secret_data (o : Obj apl) : labels := match o_spec o with AMap (PSecret _ d) => d | _ => ∅ end.
Definition set_secret (o : Obj apl) (ow : list OwnerRef) (d : labels) : Obj apl := set_spec o (AMap (PSecret ow d)).
Definition set_labels {P} (o : Obj P) (l : labels) : Obj P :=
  mkObj l (o_annotations o) (o_finalizers o) (o_deleting o) (o_version o) (o_spec o) (o_status o).
Definition set_annotations {P} (o : Obj P) (a : labels) : Obj P :=
  mkObj (o_labels o) a (o_finalizers o) (o_deleting o) (o_version o) (o_spec o) (o_status o).
Definition of_option {W A} (o : option A) : K W A := match o with Some a => mret a | None => fail OtherErr end.
(** An object that is gone ends a reconciliation without an error. *)
Definition get_or_done {W A} (m : K W A) (f : A → K W ()) : K W () :=
  r ← attempt m; match r with Err NotFound => mret () | Err e => fail e | Ok a => f a end.

(** The operations on keys of Go's library that [CryptoOps] lacks. *)
Class KeyOps := {
  ParsePKCS8PrivateKey : string → option PrivateKey;
  MarshalPKCS8PrivateKey : PrivateKey → option string;
  ed_GenerateKey : string → option string;
  rsa_GenerateKey : string → option string
}.
Class KeyLaws `{KeyOps} := { pkcs8_roundtrip k b : MarshalPKCS8PrivateKey k = Some b → ParsePKCS8PrivateKey b = Some k }.

Section keys.
Context `{CryptoOps} `{KeyOps} {W : Type} (cl : Client W apl).
(** Of [CreateOrUpdate]. *)
Context (order : list string) (kinds : string → option (string * string)) (globalLabels globalAnnotations : labels).

(** ** keys.go *)

Definition encode_keys (k : PrivateKey) : option (string * string) :=
  priv ← MarshalPKCS8PrivateKey k; pub ← MarshalPKIXPublicKey (public_of k); Some (pem_Encode priv, pem_Encode pub).
Definition GenerateEd25519Keys (rnd : string) : option (string * string) := k ← ed_GenerateKey rnd; encode_keys (EdPrivate k).
Definition GenerateRSAKeys (rnd : string) : option (string * string) := k ← rsa_GenerateKey rnd; encode_keys (RsaPrivate k).
Definition keys_key (ns : string) : okey := ("secrets"%string, ns, AuthKeysSecretName).
(** [CreateOrUpdate] of an object that is filled already, with a mutation that does
    nothing: a fetch that misses leaves the object as it is. *)
Definition create_or_keep (k : okey) (given : Obj apl) : K W () :=
  r ← attempt (c_Get cl k);
  let touch o := lift_outcome (wrapped order kinds globalLabels globalAnnotations k (fun o => Ret (Ok o)) o) in
  match r with
  | Err NotFound => o ← touch given; _ ← c_Create cl k o; mret ()
  | Err e => fail e
  | Ok o => o' ← touch o; if decide (o' = o) then mret () else _ ← c_Update cl k o'; mret ()
  end.
Definition InitClusterKeys (rnd ns : string) (tlsCompatibilityMode : bool) : K W () :=
  r ← attempt (c_Get cl (keys_key ns));
  match r with
  | Err NotFound =>
    '(private, public) ← of_option (if tlsCompatibilityMode then GenerateRSAKeys rnd else GenerateEd25519Keys rnd);
    create_or_keep (keys_key ns) (set_secret blank [] {[ PrivateKeyField := private; PublicKeyField := public ]})
  | Err e => fail e
  | Ok _ => mret ()
  end.
(** The private key and the encoding of the public one. *)
Definition GetClusterKeys (ns : string) : K W (PrivateKey * string) :=
  secret ← c_Get cl (keys_key ns);
  privateKey ← of_option (secret_data secret !! PrivateKeyField);
  '(block, _) ← of_option (pem_Decode privateKey);
  priv ← of_option (ParsePKCS8PrivateKey block);
  publicKey ← of_option (secret_data secret !! PublicKeyField);
  '(der, _) ← of_option (pem_Decode publicKey);
  mret (priv, der).
Definition GetClusterKeysPEM (ns : string) : K W (string * string) :=
  secret ← c_Get cl (keys_key ns);
  privateKey ← of_option (secret_data secret !! PrivateKeyField);
  publicKey ← of_option (secret_data secret !! PublicKeyField);
  mret (privateKey, publicKey).

(** ** Nonces *)

(** [base64.StdEncoding.EncodeToString]. *)
Definition b64_digit (n : N) : ascii :=
  ascii_of_N (if n <? 26 then 65 + n else if n <? 52 then 71 + n else if n <? 62 then n - 4 else if n =? 62 then 43 else 47)%N.
Definition b64_quad (a b c : N) : string * string * string * string :=
  let d n := String (b64_digit n) "" in
  (d (a / 4), d (a mod 4 * 16 + b / 16), d (b mod 16 * 4 + c / 64), d (c mod 64))%N.
Fixpoint base64 (s : string) : string :=
  match s with
  | EmptyString => EmptyString
  | String a EmptyString => let '(w, x, _, _) := b64_quad (N_of_ascii a) 0 0 in (w ++ x ++ "==")%string
  | String a (String b EmptyString) => let '(w, x, y, _) := b64_quad (N_of_ascii a) (N_of_ascii b) 0 in (w ++ x ++ y ++ "=")%string
  | String a (String b (String c s)) =>
    let '(w, x, y, z) := b64_quad (N_of_ascii a) (N_of_ascii b) (N_of_ascii c) in (w ++ x ++ y ++ z ++ base64 s)%string
  end.
Definition generateNonceSecretName : string := "liqo-nonce".
Definition generateSignedNonceSecretName : string := "liqo-signed-nonce".
Definition nonce_key (ns : string) : okey := ("secrets"%string, ns, generateNonceSecretName).
Definition signed_key (ns : string) : okey := ("secrets"%string, ns, generateSignedNonceSecretName).
Definition MutateNonce (remoteClusterID : string) : mutate_fn apl := fun o =>
  Ret (Ok (set_labels o (<[TenantNsLabels.RemoteClusterID := remoteClusterID]> (<[NonceSecretLabelKey := "true"%string]> (o_labels o))))).
Definition SignedNonce (remoteClusterID nonce : string) : Obj apl :=
  set_labels (set_secret blank [] {[ NonceSecretField := nonce ]})
    {[ SignedNonceSecretLabelKey := "true"%string; TenantNsLabels.RemoteClusterID := remoteClusterID ]}.
Definition EnsureNonceSecret `{CreateOrUpdater apl} (remoteClusterID ns : string) : K W () :=
  _ ← CreateOrUpdate order kinds globalLabels globalAnnotations cl (nonce_key ns) (MutateNonce remoteClusterID); mret ().

(** [GetNonceSecretByClusterID] and [GetSignedNonceSecretByClusterID], in one namespace. *)
Definition secret_by_label (key cluster ns : string) : K W (Obj apl) :=
  l ← c_List cl "secrets" ns {[ TenantNsLabels.RemoteClusterID := cluster; key := "true"%string ]};
  match (l : list (string * Obj apl)) with [] => fail NotFound | [(_, o)] => mret o | _ => fail OtherErr end.
Definition GetSignedNonceFromSecret (data : labels) : option string :=
  match data !! SignedNonceSecretField with
  | None => None
  | Some n => if bool_decide (n = ""%string) then None else Some n
  end.
Definition RetrieveNonce (cluster ns : string) : K W string :=
  o ← secret_by_label NonceSecretLabelKey cluster ns; of_option (GetNonceFromSecret (secret_data o)).
Definition RetrieveSignedNonce (cluster ns : string) : K W string :=
  o ← secret_by_label SignedNonceSecretLabelKey cluster ns; of_option (GetSignedNonceFromSecret (secret_data o)).
(** Global labels and annotations are added as they are. *)
Definition EnsureSignedNonceSecret (cluster ns : string) (nonce : option string) : K W () :=
  r ← attempt (secret_by_label SignedNonceSecretLabelKey cluster ns);
  match r with
  | Err NotFound =>
    match nonce with
    | None => fail OtherErr
    | Some n =>
      if bool_decide (n = ""%string) then fail OtherErr
      else let o := SignedNonce cluster n in
           _ ← c_Create cl (signed_key ns) (set_annotations (set_labels o (globalLabels ∪ o_labels o)) (globalAnnotations ∪ o_annotations o)); mret ()
    end
  | Err e => fail e
  | Ok o =>
    existing ← of_option (GetNonceFromSecret (secret_data o));
    match nonce with Some n => if bool_decide (n = existing) then mret () else fail OtherErr | None => mret () end
  end.

(** The namespace of a tenant; the controllers of the two secrets. *)
Context (GetNamespace : string → K W string).
Definition in_tenant_namespace (o : Obj apl) (ns : string) (f : K W ()) : K W () :=
  match o_labels o !! TenantNsLabels.RemoteClusterID with
  | None => mret ()
  | Some cluster => tenant ← GetNamespace cluster; if bool_decide (ns = tenant) then f else mret ()
  end.
Definition generateNonce (random : option string) : option string := base64 <$> random.
Definition NonceCreatorReconcile (random : option string) (ns name : string) : K W () :=
  let k := ("secrets"%string, ns, name) in
  get_or_done (c_Get cl k) (fun o =>
    if bool_decide (is_Some (secret_data o !! NonceSecretField)) then mret ()
    else in_tenant_namespace o ns
           (nonce ← of_option (generateNonce random);
            _ ← c_Update cl k (set_secret o (secret_owners o) (<[NonceSecretField := nonce]> (secret_data o))); mret ())).
Definition NonceSignerReconcile (liqoNamespace rnd ns name : string) : K W () :=
  let k := ("secrets"%string, ns, name) in
  get_or_done (c_Get cl k) (fun o => in_tenant_namespace o ns
    ('(privateKey, _) ← GetClusterKeys liqoNamespace;
     nonce ← of_option (GetNonceFromSecret (secret_data o));
     signedNonce ← of_option (SignNonce rnd privateKey nonce);
     if bool_decide (secret_data o !! SignedNonceSecretField = Some signedNonce) then mret ()
     else _ ← c_Update cl k (set_secret o (secret_owners o) (<[SignedNonceSecretField := signedNonce]> (secret_data o))); mret ())).

(** ** Tenants, as the consumer makes them (forge/tenant.go, utils/tenant.go) *)

Definition MutateTenant (t : Tenant) (cluster publicKey csr signature : string) (proxyURL : option string) : Tenant :=
  mkTenant (tn_Name t) (tn_Namespace t) (tn_UID t) (<[TenantNsLabels.RemoteClusterID := cluster]> (tn_Labels t)) (tn_Finalizers t) (tn_Deleting t)
    cluster None publicKey csr signature (match proxyURL with Some u => if bool_decide (u = ""%string) then None else Some u | None => None end) (TenantOther "")
    (tn_TenantNamespace t) (tn_AuthParams t).
Definition forge_Tenant (cluster : string) (namespace : option string) : Tenant :=
  mkTenant cluster (default ""%string namespace) "" ∅ [] false "" None "" "" "" None (TenantOther "") "" None.
Definition TenantForRemoteCluster (cluster publicKey csr signature : string) (namespace proxyURL : option string) : Tenant :=
  MutateTenant (forge_Tenant cluster namespace) cluster (pem_Encode publicKey) csr signature proxyURL.
Definition GenerateTenant (rnd cluster liqoNamespace remoteTenantNamespace signature : string) (proxyURL : option string) : K W Tenant :=
  '(privateKey, publicKey) ← GetClusterKeys liqoNamespace;
  csr ← of_option (GenerateCSRForControlPlane rnd privateKey cluster);
  mret (TenantForRemoteCluster cluster publicKey csr signature (Some remoteTenantNamespace) proxyURL).
End keys.

(** ** Kubeconfigs *)

Record KcCluster := mkKcCluster { kc_Server : string; kc_CA : string; kc_ProxyURL : string }.
Record KcContext := mkKcContext { kc_Cluster : string; kc_Namespace : string; kc_AuthInfo : string }.
Record KcAuthInfo := mkKcAuthInfo { kc_ClientKey : string; kc_ClientCertificate : string }.
Record Kubeconfig := mkKubeconfig {
  kc_Clusters : gmap string KcCluster; kc_Contexts : gmap string KcContext; kc_CurrentContext : string; kc_AuthInfos : gmap string KcAuthInfo
}.
(** [clientcmd.Write] and [clientcmd.Load]. *)
Class KubeconfigCodec := {
  kc_Write : Kubeconfig → option string;
  kc_Load : string → option Kubeconfig;
  kc_roundtrip c s : kc_Write c = Some s → kc_Load s = Some c
}.
Definition GenerateKubeconfig `{KubeconfigCodec} (user cluster server ca clientCertificate clientKey : string) (proxyURL namespace : option string) : option string :=
  kc_Write (mkKubeconfig {[ cluster := mkKcCluster server ca (default ""%string proxyURL) ]}
              {[ "default-context"%string := mkKcContext cluster (default ""%string namespace) user ]} "default-context"
              {[ user := mkKcAuthInfo clientKey clientCertificate ]}).

(** ** Identities *)

Record Identity := mkIdentity {
  id_Owners : list OwnerRef; id_ClusterID : string; id_Type : IdentityType; id_AuthParams : AuthParams; id_Namespace : option string
}.
Definition identity_of (o : Obj apl) : option Identity :=
  match o_spec o with AMap (PIdentity ow c t a ns) => Some (mkIdentity ow c t a ns) | _ => None end.
Definition identity_owners (o : Obj apl) : list OwnerRef := match identity_of o with Some i => id_Owners i | None => [] end.
Definition set_identity (o : Obj apl) (i : Identity) : Obj apl :=
  set_spec o (AMap (PIdentity (id_Owners i) (id_ClusterID i) (id_Type i) (id_AuthParams i) (id_Namespace i))).
Definition ControlPlaneIdentityName (remoteClusterID : string) : string := ("controlplane-" ++ remoteClusterID)%string.
Definition ResourceSliceIdentityName (slice : string) : string := ("resourceslice-" ++ slice)%string.
Definition identity_key (ns name : string) : okey := ("identities"%string, ns, name).
Definition renew_key (ns name : string) : okey := ("renews"%string, ns, name).
Definition MutateIdentity (o : Obj apl) (remoteClusterID : string) (type : IdentityType) (auth : AuthParams) (defaultNs : option string) : Obj apl :=
  set_identity (set_labels o (<[TenantNsLabels.RemoteClusterID := remoteClusterID]> (o_labels o))) (mkIdentity (identity_owners o) remoteClusterID type auth defaultNs).
Definition IdentityForRemoteCluster (localClusterID : string) (type : IdentityType) (auth : AuthParams) (defaultNs : option string) : Obj apl :=
  MutateIdentity blank localClusterID type auth defaultNs.
(** The identity the provider makes for the consumer, with its name and namespace. *)
Definition GenerateIdentityControlPlane {W} (list_tenants : string → string → K W (list Tenant))
    (remoteClusterID remoteTenantNamespace localClusterID : string) (localTenantNamespace : option string) : K W (okey * Obj apl) :=
  tenant ← GetTenantByClusterID list_tenants remoteClusterID (default ""%string localTenantNamespace);
  match tn_AuthParams tenant with
  | Some a =>
    if bool_decide (tn_TenantNamespace tenant = ""%string) then fail OtherErr
    else mret (identity_key remoteTenantNamespace (ControlPlaneIdentityName localClusterID),
               IdentityForRemoteCluster localClusterID ControlPlaneIdentity a (Some (tn_TenantNamespace tenant)))
  | None => fail OtherErr
  end.

Definition generateKubeconfigSecretName (identity : string) : string := ("kubeconfig-" ++ identity)%string.
Definition kubeconfig_key (ns identity : string) : okey := ("secrets"%string, ns, generateKubeconfigSecretName identity).
Definition aws_data (a : option AwsConfig) (data : labels) : labels :=
  match a with
  | None => data
  | Some c => <["awsAccessKeyID"%string := AwsAccessKeyID c]> (<["awsSecretAccessKey"%string := AwsSecretAccessKey c]> (<["awsRegion"%string := AwsRegion c]>
                (<["awsEksClusterID"%string := AwsClusterName c]> (<["awsIamUserArn"%string := AwsUserArn c]> data))))
  end.
Definition MutateKubeconfigSecret `{KubeconfigCodec} (name : string) (i : Identity) (clientKey : string) (namespace : option string) (o : Obj apl) : result kerr (Obj apl) :=
  let o := set_labels o (<[IdentityTypeLabelKey := identity_type_text (id_Type i)]> (<[TenantNsLabels.RemoteClusterID := id_ClusterID i]> (o_labels o))) in
  let o := match namespace with
           | Some n => if bool_decide (n = ""%string) then o else set_annotations o (<[RemoteTenantNamespaceAnnotKey := n]> (o_annotations o))
           | None => o
           end in
  let a := id_AuthParams i in
  match GenerateKubeconfig name (id_ClusterID i) (ap_APIServer a) (ap_CA a) (ap_SignedCRT a) clientKey (ap_ProxyURL a) namespace with
  | None => Err OtherErr
  | Some kubeconfig => Ok (set_secret o (secret_owners o) (aws_data (ap_Aws a) (<[KubeconfigSecretField := kubeconfig]> (secret_data o))))
  end.

Section identities.
Context `{KubeconfigCodec} `{OR : OwnerRefs} `{CU : CreateOrUpdater apl} {W : Type} (cl : Client W apl).
Context (order : list string) (kinds : string → option (string * string)) (globalLabels globalAnnotations : labels).
(** The write of a status, and the identifier of an object. *)
Context (UpdateStatus : okey → Obj apl → K W (Obj apl)) (uid_of : okey → string).

(** ** identity_controller.go *)

Definition ensureKubeconfigSecret (liqoNamespace ns name : string) (i : Identity) : K W string :=
  '(privateKey, _) ← GetClusterKeysPEM cl liqoNamespace;
  let namespace := if bool_decide (id_Type i = ControlPlaneIdentity) then id_Namespace i else None in
  _ ← CreateOrUpdate order kinds globalLabels globalAnnotations cl (kubeconfig_key ns name)
        (fun o => Ret match MutateKubeconfigSecret name i privateKey namespace o with
                      | Err e => Err e
                      | Ok o => match SetControllerReference (uid_of (identity_key ns name)) (secret_owners o) with
                                | Err e => Err e
                                | Ok ow => Ok (set_secret o ow (secret_data o))
                                end
                      end);
  mret (generateKubeconfigSecretName name).
Definition IdentityReconcile (liqoNamespace ns name : string) : K W () :=
  get_or_done (c_Get cl (identity_key ns name)) (fun o =>
    i ← of_option (identity_of o);
    secret ← ensureKubeconfigSecret liqoNamespace ns name i;
    _ ← UpdateStatus (identity_key ns name) (set_status o (AMap (PIdentityStatus secret))); mret ()).

(** ** identitycreator_controller.go *)

Section creator.
Context {Q : Type} (get_slice : string → string → K W (ResourceSlice Q)).
(** Which events of a slice reach the controller; events of its identity always do. *)
Definition withAuthCondition (s : ResourceSlice Q) : bool := match GetCondition s CondAuthentication with Some _ => true | None => false end.
(** The condition is read through a pointer. *)
Definition authenticationDenied (s : ResourceSlice Q) : outcome bool :=
  match GetCondition s CondAuthentication with None => Panic | Some c => Ret (bool_decide (sc_Status c = CondDenied)) end.
Definition IdentityCreatorReconcile (ns name : string) : K W () :=
  get_or_done (get_slice ns name) (fun s =>
    denied ← lift_outcome (d ← authenticationDenied s; Ret (Ok d));
    let k := identity_key ns (ResourceSliceIdentityName (rs_Name s)) in
    if (denied : bool) then r ← attempt (c_Delete cl k); match r with Ok _ | Err NotFound => mret () | Err e => fail e end
    else
      provider ← of_option (rs_Provider s);
      auth ← of_option (st_AuthParams s);
      _ ← CreateOrUpdate order kinds globalLabels globalAnnotations cl k
            (fun o =>
               let o := MutateIdentity o provider ResourceSliceIdentity auth None in
               let o := set_labels o (<[ResourceSliceNameLabelKey := rs_Name s]> (o_labels o)) in
               Ret match SetControllerReference (uid_of ("resourceslices"%string, ns, rs_Name s)) (identity_owners o) with
                   | Err e => Err e
                   | Ok ow => Ok (set_identity o (mkIdentity ow provider ResourceSliceIdentity auth None))
                   end);
      mret ()).
End creator.

(** ** localrenewer_controller.go *)

Definition renew_of (o : Obj apl) : list OwnerRef * string * IdentityType :=
  match o_spec o with AMap (PRenew ow c t) => (ow, c, t) | _ => ([], ""%string, ControlPlaneIdentity) end.
Definition renew_auth (o : Obj apl) : option AuthParams := match o_status o with AMap (PRenewStatus a) => a | _ => None end.
Definition ensureRenew (LocalClusterID ns name : string) (i : Identity) : K W () :=
  _ ← ctrl_CreateOrUpdate cl (renew_key ns name)
        (fun o =>
           let o := set_labels o (<[TenantNsLabels.RemoteClusterID := id_ClusterID i]> (<[ReplicationDestinationLabel := id_ClusterID i]>
                      (<[ReplicationRequestedLabel := "true"%string]> (o_labels o)))) in
           Ret match SetControllerReference (uid_of (identity_key ns name)) (renew_of o).1.1 with
               | Err e => Err e
               | Ok ow => Ok (set_spec o (AMap (PRenew ow LocalClusterID (id_Type i))))
               end);
  mret ().
Definition handleRenewedAuthParams (ns name : string) (o : Obj apl) (i : Identity) : K W () :=
  get_or_done (c_Get cl (renew_key ns name)) (fun renew =>
    if o_deleting renew then mret ()
    else match renew_auth renew with
         | None => mret ()
         | Some a =>
           if bool_decide (ap_SignedCRT a = ap_SignedCRT (id_AuthParams i)) then mret ()
           else _ ← c_Update cl (identity_key ns name) (set_identity o (mkIdentity (id_Owners i) (id_ClusterID i) (id_Type i) a (id_Namespace i))); mret ()
         end).
Definition LocalRenewerReconcile (LocalClusterID ns name : string) : K W () :=
  get_or_done (c_Get cl (identity_key ns name)) (fun o =>
    if o_deleting o then mret ()
    else
      i ← of_option (identity_of o);
      _ ← ensureRenew LocalClusterID ns name i;
      handleRenewedAuthParams ns name o i).

(** ** remoterenewer_controller.go *)

Section remote.
Context (GetNamespace : string → K W string) (list_tenants : string → string → K W (list Tenant)).
Definition RemoteRenewerReconcile (ns name : string) : K W () :=
  get_or_done (c_Get cl (renew_key ns name)) (fun renew =>
    if o_deleting renew then mret ()
    else
      let consumer := (renew_of renew).1.2 in
      tenantNamespace ← GetNamespace consumer;
      if negb (bool_decide (tenantNamespace = ns)) then mret ()
      else
        tenant ← GetTenantByClusterID list_tenants consumer tenantNamespace;
        match tn_AuthParams tenant with
        | None => mret ()
        | Some a =>
          if bool_decide (ap_SignedCRT a = ""%string) then mret ()
          else if match renew_auth renew with Some b => bool_decide (ap_SignedCRT b = ap_SignedCRT a) | None => false end then mret ()
          else _ ← UpdateStatus (renew_key ns name) (set_status renew (AMap (PRenewStatus (Some a)))); mret ()
        end).
(** The renewals a tenant wakes up; nothing when the listing fails. *)
Definition renewsEnqueuer (t : Tenant) : K W (list (string * string)) :=
  r ← attempt (c_List cl "renews" (tn_Namespace t) ∅);
  match r with
  | Err _ => mret []
  | Ok l => mret ((fun x : string * Obj apl => (tn_Namespace t, x.1)) <$> List.filter (fun x => bool_decide ((renew_of x.2).2 = ControlPlaneIdentity)) l)
  end.
End remote.
End identities.

(** ** Renewal, end to end *)

Section plain.
Context {Api : KubeApi apl} {R : Responsive apl} `{KC : KubeconfigCodec} `{OR : OwnerRefs} {CU : CreateOrUpdater apl} {L : Type}.
Context (lists : string → string → labels → server → list (string * Obj apl)).
Context (order : list string) (kinds : string → option (string * string)) (globalLabels globalAnnotations : labels) (uid_of : okey → string).
Notation W := (pworld apl L).
Notation "w ⋅ k" := (content (pw_server w) !! k) (at level 20, k at next level).
Notation cl := (plain_client lists).
Notation write_status := (fun k o => on_pserver (UpdateStatus k o)).

Lemma get_or_done_runs {A} (m : K W A) f w w1 a : m w = Ret (w1, Ok a) → get_or_done m f w = f a w1.
Proof. intros E. unfold get_or_done. by erewrite K_bind_ok by (apply attempt_ok; exact E). Qed.
Lemma of_option_runs {A} (o : option A) a (w : W) : o = Some a → of_option o w = Ret (w, Ok a).
Proof. by intros ->. Qed.

Section provider.
Context (GetNamespace : string → K W string) (list_tenants : string → string → K W (list Tenant)).
Lemma remote_renews ns name renew tenant a (w : W) : w ⋅ (renew_key ns name) = Some renew → o_deleting renew = false →
  GetNamespace (renew_of renew).1.2 w = Ret (w, Ok ns) → list_tenants (renew_of renew).1.2 ns w = Ret (w, Ok [tenant]) →
  tn_AuthParams tenant = Some a → ap_SignedCRT a ≠ ""%string →
  ∃ w' renew' b, RemoteRenewerReconcile cl write_status GetNamespace list_tenants ns name w = Ret (w', Ok ()) ∧ only (renew_key ns name) w w' ∧
    w' ⋅ (renew_key ns name) = Some renew' ∧ renew_auth renew' = Some b ∧ ap_SignedCRT b = ap_SignedCRT a.
Proof.
  intros Hr Hd Hns Ht Ha Hne. unfold RemoteRenewerReconcile. rewrite (get_or_done_runs _ _ w w renew) by by apply plain_get_runs. cbv beta. rewrite Hd.
  cbv zeta. rewrite (K_bind_ok _ _ _ _ _ Hns). rewrite bool_decide_true by done. cbn [negb]. unfold GetTenantByClusterID.
  erewrite K_bind_ok by (by rewrite (K_bind_ok _ _ _ _ _ Ht)). rewrite Ha, bool_decide_false by done. case_match eqn:Eb.
  - destruct (renew_auth renew) as [b|] eqn:Eb'; [|done]. apply bool_decide_eq_true in Eb. exists w, renew, b. done.
  - destruct (plain_update_status_runs (renew_key ns name) (set_status renew (AMap (PRenewStatus (Some a)))) w renew Hr eq_refl ltac:(intros ?; congruence))
      as (w' & renew' & E & Ho & Hw & _ & _ & Hst & _).
    exists w', renew', a. split; [by rewrite (K_bind_ok _ _ _ _ _ E)|]. split; [done|]. split; [done|]. split; [|done]. unfold renew_auth. by rewrite Hst.
Qed.
(** Only the certificates are compared: a tenant whose server, certificate authority or
    proxy has changed under the same certificate leaves the renewal as it is. *)
Theorem moved_server_unnoticed ns name renew tenant a b (w : W) : w ⋅ (renew_key ns name) = Some renew → o_deleting renew = false →
  GetNamespace (renew_of renew).1.2 w = Ret (w, Ok ns) → list_tenants (renew_of renew).1.2 ns w = Ret (w, Ok [tenant]) →
  tn_AuthParams tenant = Some a → renew_auth renew = Some b → ap_SignedCRT b = ap_SignedCRT a →
  RemoteRenewerReconcile cl write_status GetNamespace list_tenants ns name w = Ret (w, Ok ()).
Proof.
  intros Hr Hd Hns Ht Ha Hb Hab. unfold RemoteRenewerReconcile. rewrite (get_or_done_runs _ _ w w renew) by by apply plain_get_runs. cbv beta. rewrite Hd.
  cbv zeta. rewrite (K_bind_ok _ _ _ _ _ Hns). rewrite bool_decide_true by done. cbn [negb]. unfold GetTenantByClusterID.
  erewrite K_bind_ok by (by rewrite (K_bind_ok _ _ _ _ _ Ht)). rewrite Ha, Hb. rewrite (bool_decide_true (_ = ap_SignedCRT a)) by done. by destruct (bool_decide _).
Qed.
End provider.

Section consumer.
Context (LocalClusterID liqoNamespace ns name : string).
Notation ik := (identity_key ns name).
Notation rk := (renew_key ns name).
Notation kk := (kubeconfig_key ns name).

Lemma ensure_renews i renew ow (w : W) : w ⋅ rk = Some renew → o_deleting renew = false → SetControllerReference (uid_of ik) (renew_of renew).1.1 = Ok ow →
  ∃ w' renew', ensureRenew cl uid_of LocalClusterID ns name i w = Ret (w', Ok ()) ∧ only rk w w' ∧ w' ⋅ rk = Some renew' ∧
    o_deleting renew' = false ∧ renew_auth renew' = renew_auth renew ∧ renew_of renew' = (ow, LocalClusterID, id_Type i).
Proof.
  intros Hr Hd How. unfold ensureRenew. match goal with |- context [ctrl_CreateOrUpdate _ _ ?g] => set (f := g) end.
  assert (∃ o1, f renew = Ret (Ok o1) ∧ o_version o1 = o_version renew ∧ o_finalizers o1 = o_finalizers renew ∧ o_spec o1 = AMap (PRenew ow LocalClusterID (id_Type i))) as (o1 & Ef & Hv & Hfin & Hsp).
  { unfold f. cbv zeta. change (renew_of (set_labels renew _)) with (renew_of renew). rewrite How. by eexists. }
  assert (E : ctrl_CreateOrUpdate cl rk f w = (if decide (o1 = renew) then mret renew else c_Update cl rk o1) w).
  { rewrite (cou_found cl rk f w w renew) by by apply plain_get_runs. by erewrite K_bind_ok by (unfold lift_outcome; by rewrite Ef). }
  destruct (decide (o1 = renew)) as [->|Hne].
  - exists w, renew. split; [by rewrite (K_bind_ok _ _ _ _ _ E)|]. split; [done|]. split; [done|]. split; [done|]. split; [done|]. unfold renew_of. by rewrite Hsp.
  - destruct (plain_update_runs lists rk o1 w renew Hr Hv Hfin ltac:(intros ?; congruence)) as (w' & renew' & E' & Ho & Hw & _ & Hs & Hst & Hdel).
    exists w', renew'. split; [rewrite E' in E; by rewrite (K_bind_ok _ _ _ _ _ E)|]. split; [done|]. split; [done|]. split; [congruence|].
    unfold renew_auth, renew_of. by rewrite Hst, Hs, Hsp.
Qed.
Lemma local_renews o i renew ow b (w : W) : w ⋅ ik = Some o → o_deleting o = false → identity_of o = Some i →
  w ⋅ rk = Some renew → o_deleting renew = false → SetControllerReference (uid_of ik) (renew_of renew).1.1 = Ok ow → renew_auth renew = Some b →
  ∃ w' o' i', LocalRenewerReconcile cl uid_of LocalClusterID ns name w = Ret (w', Ok ()) ∧ (∀ k, k ≠ ik → k ≠ rk → w' ⋅ k = w ⋅ k) ∧
    w' ⋅ ik = Some o' ∧ o_deleting o' = false ∧ identity_of o' = Some i' ∧ ap_SignedCRT (id_AuthParams i') = ap_SignedCRT b.
Proof.
  intros Ho Hd Hi Hr Hdr How Hb. destruct (ensure_renews i renew ow w Hr Hdr How) as (w1 & renew1 & E1 & [_ Hout1] & Hr1 & Hd1 & Hb1 & _).
  assert (Hne : ik ≠ rk) by done. unfold LocalRenewerReconcile. rewrite (get_or_done_runs _ _ w w o) by by apply plain_get_runs. cbv beta. rewrite Hd.
  rewrite (K_bind_ok _ _ _ _ _ (of_option_runs _ i w Hi)), (K_bind_ok _ _ _ _ _ E1). unfold handleRenewedAuthParams.
  rewrite (get_or_done_runs _ _ w1 w1 renew1) by by apply plain_get_runs. cbv beta. rewrite Hd1, Hb1, Hb.
  case_bool_decide as Hc.
  - exists w1, o, i. split; [done|]. split; [intros; by apply Hout1|]. by rewrite Hout1.
  - set (i' := mkIdentity _ _ _ b _). assert (Ho1 : w1 ⋅ ik = Some o) by by rewrite Hout1.
    destruct (plain_update_runs lists ik (set_identity o i') w1 o Ho1 eq_refl eq_refl ltac:(intros ?; congruence)) as (w' & o' & E' & [_ Hout2] & Hw & _ & Hs & _ & Hdel).
    exists w', o', i'. split; [by rewrite (K_bind_ok _ _ _ _ _ E')|]. split; [intros; by rewrite Hout2, Hout1|]. split; [done|]. split; [congruence|].
    split; [unfold identity_of; by rewrite Hs|done].
Qed.

(** The kubeconfig of an identity logs in with a key and a certificate. *)
Definition logs_in (w : W) (key crt : string) : Prop := ∃ s text cfg ctx auth, w ⋅ kk = Some s ∧ secret_data s !! KubeconfigSecretField = Some text ∧
  kc_Load text = Some cfg ∧ kc_Contexts cfg !! kc_CurrentContext cfg = Some ctx ∧ kc_AuthInfos cfg !! kc_AuthInfo ctx = Some auth ∧
  kc_ClientKey auth = key ∧ kc_ClientCertificate auth = crt.
Lemma aws_keeps_kubeconfig a data : aws_data a data !! KubeconfigSecretField = data !! KubeconfigSecretField.
Proof. destruct a; [|done]. unfold aws_data. by rewrite !lookup_insert_ne by done. Qed.
Lemma mutated_kubeconfig i key namespace o o1 : MutateKubeconfigSecret name i key namespace o = Ok o1 →
  o_version o1 = o_version o ∧ o_finalizers o1 = o_finalizers o ∧ secret_owners o1 = secret_owners o ∧
  ∃ text, GenerateKubeconfig name (id_ClusterID i) (ap_APIServer (id_AuthParams i)) (ap_CA (id_AuthParams i)) (ap_SignedCRT (id_AuthParams i)) key
            (ap_ProxyURL (id_AuthParams i)) namespace = Some text ∧ secret_data o1 !! KubeconfigSecretField = Some text.
Proof.
  unfold MutateKubeconfigSecret. cbv zeta. destruct (GenerateKubeconfig _ _ _ _ _ _ _ _) as [text|]; [|done]. intros [= <-].
  destruct namespace as [n|]; [case_bool_decide|]; (split; [done|]); (split; [done|]); (split; [done|]); exists text; (split; [done|]);
    cbn; by rewrite aws_keeps_kubeconfig, lookup_insert_eq.
Qed.
Lemma generated_logs_in user cluster server ca crt key proxy namespace text : GenerateKubeconfig user cluster server ca crt key proxy namespace = Some text →
  ∃ cfg ctx auth, kc_Load text = Some cfg ∧ kc_Contexts cfg !! kc_CurrentContext cfg = Some ctx ∧ kc_AuthInfos cfg !! kc_AuthInfo ctx = Some auth ∧
    kc_ClientKey auth = key ∧ kc_ClientCertificate auth = crt.
Proof.
  intros H%kc_roundtrip. eexists _, _, _. split; [exact H|]. cbn. split; [by rewrite lookup_singleton_eq|]. cbn. split; [by rewrite lookup_singleton_eq|]. done.
Qed.
Section written.
Context (i : Identity) (keys : Obj apl) (priv pub : string) (gk : string * string) (ow : list OwnerRef) (w : W).
Hypothesis Hkeys : w ⋅ (keys_key liqoNamespace) = Some keys.
Hypothesis Hpriv : secret_data keys !! PrivateKeyField = Some priv.
Hypothesis Hpub : secret_data keys !! PublicKeyField = Some pub.
Hypothesis Hgk : kinds "secrets"%string = Some gk.
Hypothesis Hlive : ∀ s, w ⋅ kk = Some s → lives s.
Hypothesis Howner : SetControllerReference (uid_of ik) (secret_owners (default blank (w ⋅ kk))) = Ok ow.
Hypothesis Hwrite : ∀ c, is_Some (kc_Write c).
Lemma mutation_succeeds i' key namespace o : ∃ m, MutateKubeconfigSecret name i' key namespace o = Ok m.
Proof. unfold MutateKubeconfigSecret, GenerateKubeconfig. cbv zeta. edestruct Hwrite as [t ->]. by eexists. Qed.
Lemma keys_read : GetClusterKeysPEM cl liqoNamespace w = Ret (w, Ok (priv, pub)).
Proof.
  unfold GetClusterKeysPEM. rewrite (K_bind_ok _ _ _ _ _ (plain_get_runs lists _ keys w Hkeys)).
  by rewrite (K_bind_ok _ _ _ _ _ (of_option_runs _ priv w Hpriv)), (K_bind_ok _ _ _ _ _ (of_option_runs _ pub w Hpub)).
Qed.
Lemma kubeconfig_ensured : ∃ w', ensureKubeconfigSecret cl order kinds globalLabels globalAnnotations uid_of liqoNamespace ns name i w = Ret (w', Ok (generateKubeconfigSecretName name)) ∧
  only kk w w' ∧ logs_in w' priv (ap_SignedCRT (id_AuthParams i)).
Proof.
  unfold ensureKubeconfigSecret. rewrite (K_bind_ok _ _ _ _ _ keys_read). cbv beta iota zeta. set (namespace := if bool_decide _ then _ else _).
  destruct (mutation_succeeds i priv namespace (default blank (w ⋅ kk))) as [m Em].
  destruct (mutated_kubeconfig _ _ _ _ _ Em) as (Hv & Hfin & Hso & text & Hgen & Ht).
  match goal with |- context [CreateOrUpdate _ _ _ _ _ _ ?g] => set (f := g) end.
  destruct (plain_cou_stores lists order kinds globalLabels globalAnnotations kk f w (set_secret m ow (secret_data m))) as (w1 & s & E1 & Ho & Hs & _ & Hsp);
    [by exists gk|done|unfold f; by rewrite Em, Hso, Howner|done|done|].
  exists w1. split; [by rewrite (K_bind_ok _ _ _ _ _ E1)|]. split; [done|].
  destruct (generated_logs_in _ _ _ _ _ _ _ _ _ Hgen) as (cfg & ctx & auth & H1 & H2 & H3 & H4 & H5). exists s, text, cfg, ctx, auth.
  split; [done|]. split; [unfold secret_data; by rewrite Hsp|]. done.
Qed.
Lemma identity_reconciled o : w ⋅ ik = Some o → o_deleting o = false → identity_of o = Some i →
  ∃ w', IdentityReconcile cl order kinds globalLabels globalAnnotations write_status uid_of liqoNamespace ns name w = Ret (w', Ok ()) ∧
    logs_in w' priv (ap_SignedCRT (id_AuthParams i)).
Proof.
  intros Ho Hd Hi. destruct kubeconfig_ensured as (w1 & E1 & [_ Hout] & s & text & cfg & ctx & auth & Hs & Hrest).
  assert (Ho1 : w1 ⋅ ik = Some o) by by rewrite Hout.
  destruct (plain_update_status_runs ik (set_status o (AMap (PIdentityStatus (generateKubeconfigSecretName name)))) w1 o Ho1 eq_refl ltac:(intros ?; congruence))
    as (w' & o' & E2 & [_ Hout2] & _).
  exists w'. split.
  - unfold IdentityReconcile. rewrite (get_or_done_runs _ _ w w o) by by apply plain_get_runs. cbv beta.
    by rewrite (K_bind_ok _ _ _ _ _ (of_option_runs _ i w Hi)), (K_bind_ok _ _ _ _ _ E1), (K_bind_ok _ _ _ _ _ E2).
  - exists s, text, cfg, ctx, auth. split; [by rewrite Hout2|done].
Qed.
End written.
End consumer.

(** C40: A tenant got a new certificate.  The provider's run puts it into the status of the
    Renew; once the consumer's copy shows that status, a run of its renewer and one of
    the controller of identities leave a kubeconfig that logs in with the cluster's key
    and the new certificate. *)
Theorem renewed_certificate_arrives GetNamespace list_tenants nsp name renewp tenant a (wp : W) :
  wp ⋅ (renew_key nsp name) = Some renewp → o_deleting renewp = false → GetNamespace (renew_of renewp).1.2 wp = Ret (wp, Ok nsp) →
  list_tenants (renew_of renewp).1.2 nsp wp = Ret (wp, Ok [tenant]) → tn_AuthParams tenant = Some a → ap_SignedCRT a ≠ ""%string →
  (∀ c, is_Some (kc_Write c)) → is_Some (kinds "secrets"%string) →
  ∃ wp' renewp', RemoteRenewerReconcile cl write_status GetNamespace list_tenants nsp name wp = Ret (wp', Ok ()) ∧ wp' ⋅ (renew_key nsp name) = Some renewp' ∧
    ∀ LocalClusterID liqoNamespace ns o i renew keys priv pub (wc : W),
      wc ⋅ (identity_key ns name) = Some o → o_deleting o = false → identity_of o = Some i →
      wc ⋅ (renew_key ns name) = Some renew → o_deleting renew = false → renew_auth renew = renew_auth renewp' →
      is_ok (SetControllerReference (uid_of (identity_key ns name)) (renew_of renew).1.1) = true →
      wc ⋅ (keys_key liqoNamespace) = Some keys → secret_data keys !! PrivateKeyField = Some priv → secret_data keys !! PublicKeyField = Some pub →
      (∀ s, wc ⋅ (kubeconfig_key ns name) = Some s → lives s) →
      is_ok (SetControllerReference (uid_of (identity_key ns name)) (secret_owners (default blank (wc ⋅ (kubeconfig_key ns name))))) = true →
      ∃ wc1 wc2, LocalRenewerReconcile cl uid_of LocalClusterID ns name wc = Ret (wc1, Ok ()) ∧
        IdentityReconcile cl order kinds globalLabels globalAnnotations write_status uid_of liqoNamespace ns name wc1 = Ret (wc2, Ok ()) ∧
        logs_in ns name wc2 priv (ap_SignedCRT a).
Proof.
  intros Hr Hd Hns Ht Ha Hne Hwr [gk Hgk]. destruct (remote_renews _ _ nsp name renewp tenant a wp Hr Hd Hns Ht Ha Hne) as (wp' & renewp' & b & E & _ & Hw & Hb & Hab).
  exists wp', renewp'. split; [done|]. split; [done|]. intros * Ho Hdo Hi Hrc Hdr Hra How Hk Hpriv Hpub Hl How2. rewrite Hb in Hra.
  destruct (SetControllerReference _ (renew_of renew).1.1) as [ow|] eqn:Eow; [|done]. destruct (SetControllerReference _ (secret_owners _)) as [ow2|] eqn:Eow2; [|done].
  destruct (local_renews LocalClusterID ns name o i renew ow b wc Ho Hdo Hi Hrc Hdr Eow Hra) as (wc1 & o1 & i1 & E1 & Hout & Ho1 & Hd1 & Hi1 & Hcrt).
  assert (Hkk : wc1 ⋅ (kubeconfig_key ns name) = wc ⋅ (kubeconfig_key ns name)) by by apply Hout.
  destruct (identity_reconciled liqoNamespace ns name i1 keys priv pub gk ow2 wc1) with (o := o1) as (wc2 & E2 & Hlog); [by rewrite Hout|done|done|done|by rewrite Hkk|by rewrite Hkk|done|done|done|done|].
  exists wc1, wc2. split; [done|]. split; [done|]. by rewrite <- Hab, <- Hcrt.
Qed.
End plain.

(** A slice whose condition is gone stops the controller, which events of the identity
    wake up all the same. *)
Theorem lost_condition_panics `{OR : OwnerRefs} `{CU : CreateOrUpdater apl} {W Q} (cl : Client W apl) order kinds gl ga uid_of
    (get_slice : string → string → K W (ResourceSlice Q)) ns name s w w1 :
  get_slice ns name w = Ret (w1, Ok s) → withAuthCondition s = false → IdentityCreatorReconcile cl order kinds gl ga uid_of get_slice ns name w = Panic.
Proof.
  unfold withAuthCondition. intros E Hc. unfold IdentityCreatorReconcile, get_or_done. rewrite (K_bind_ok _ _ _ _ _ (attempt_ok _ _ _ _ E)). cbv beta iota.
  unfold authenticationDenied. by destruct (GetCondition s CondAuthentication).
Qed.

(** ** The exchange of nonces, end to end *)

Section exchange.
Context `{CR : CryptoOps} {CRL : CryptoLaws} `{KO : KeyOps} {KOL : KeyLaws}.
Context {Api : KubeApi apl} {R : Responsive apl} {CU : CreateOrUpdater apl} {L : Type}.
Context (lists : string → string → labels → server → list (string * Obj apl)).
Hypothesis lists_law : ∀ (res ns : string) (l : labels) (s : server) (name : string) (o : Obj apl), (name, o) ∈ lists res ns l s ↔ content s !! (res, ns, name) = Some o ∧ l ⊆ o_labels o.
Hypothesis lists_nodup : ∀ (res ns : string) (l : labels) (s : server), NoDup (lists res ns l s).
Context (order : list string) (kinds : string → option (string * string)) (globalLabels globalAnnotations : labels).
Notation W := (pworld apl L).
Notation "w ⋅ k" := (content (pw_server w) !! k) (at level 20, k at next level).
Notation cl := (plain_client lists).

(** A secret with the keys of a cluster. *)
Definition holds_keys (s : Obj apl) (key : PrivateKey) (der : string) : Prop := ∃ priv, MarshalPKCS8PrivateKey key = Some priv ∧
  MarshalPKIXPublicKey (public_of key) = Some der ∧ secret_data s !! PrivateKeyField = Some (pem_Encode priv) ∧ secret_data s !! PublicKeyField = Some (pem_Encode der).
Lemma keys_found liqo s key der (w : W) : w ⋅ (keys_key liqo) = Some s → holds_keys s key der → GetClusterKeys cl liqo w = Ret (w, Ok (key, der)).
Proof.
  intros Hk (priv & Hm & _ & H1 & H2). unfold GetClusterKeys. rewrite (K_bind_ok _ _ _ _ _ (plain_get_runs lists _ s w Hk)), (K_bind_ok _ _ _ _ _ (of_option_runs _ _ w H1)).
  rewrite (K_bind_ok _ _ _ _ _ (of_option_runs _ _ w (pem_roundtrip priv))). cbv beta iota. rewrite (K_bind_ok _ _ _ _ _ (of_option_runs _ _ w (pkcs8_roundtrip _ _ Hm))).
  rewrite (K_bind_ok _ _ _ _ _ (of_option_runs _ _ w H2)). by rewrite (K_bind_ok _ _ _ _ _ (of_option_runs _ _ w (pem_roundtrip der))).
Qed.
Lemma encode_keys_inv key private public : encode_keys key = Some (private, public) →
  ∃ priv der, MarshalPKCS8PrivateKey key = Some priv ∧ MarshalPKIXPublicKey (public_of key) = Some der ∧ private = pem_Encode priv ∧ public = pem_Encode der.
Proof. unfold encode_keys. intros (priv & H1 & (der & H2 & [= <- <-])%bind_Some)%bind_Some. by exists priv, der. Qed.
(** A cluster without keys gets a pair that is read back; one that has keys keeps them. *)
Theorem keys_initialised rnd liqo (tls : bool) (w : W) private public : is_Some (kinds "secrets"%string) →
  (if tls then GenerateRSAKeys rnd else GenerateEd25519Keys rnd) = Some (private, public) → w ⋅ (keys_key liqo) = None →
  ∃ w' key der, InitClusterKeys cl order kinds globalLabels globalAnnotations rnd liqo tls w = Ret (w', Ok ()) ∧ GetClusterKeys cl liqo w' = Ret (w', Ok (key, der)) ∧
    MarshalPKIXPublicKey (public_of key) = Some der ∧
    ∀ rnd' tls', InitClusterKeys cl order kinds globalLabels globalAnnotations rnd' liqo tls' w' = Ret (w', Ok ()).
Proof.
  intros [gk Hgk] Hgen Hk. assert (∃ key, encode_keys key = Some (private, public)) as [key (priv & der & H1 & H2 & -> & ->)%encode_keys_inv].
  { destruct tls; apply bind_Some in Hgen as (k & _ & ?); by eexists. }
  pose proof (attempt_ok _ _ _ _ (plain_get_misses lists (keys_key liqo) w Hk)) as Hget.
  set (given := set_secret blank [] {[ PrivateKeyField := pem_Encode priv; PublicKeyField := pem_Encode der ]}).
  destruct (wrapped order kinds globalLabels globalAnnotations (keys_key liqo) (fun o => Ret (Ok o)) given) as [[o1|]| |] eqn:Ewr;
    [|exfalso; revert Ewr; unfold wrapped; cbn [mbind outcome_bind]; unfold buildVariablesMap; cbn [keys_key fst]; by rewrite Hgk..].
  assert (Hsp1 : o_spec o1 = o_spec given).
  { revert Ewr. unfold wrapped. cbn [mbind outcome_bind]. destruct (buildVariablesMap _ _ _); [|done]. by intros [= <-]. }
  destruct (plain_create_runs lists (keys_key liqo) o1 w Hk) as (w' & o' & Ec & _ & Hw & _ & Hsp & _).
  exists w', key, der. split; [|split; [|split; [done|]]].
  - unfold InitClusterKeys. rewrite (K_bind_ok _ _ _ _ _ Hget). cbv beta iota. rewrite (K_bind_ok _ _ _ _ _ (of_option_runs _ _ w Hgen)). cbv beta iota.
    unfold create_or_keep. rewrite (K_bind_ok _ _ _ _ _ Hget). cbv beta iota zeta. erewrite K_bind_ok by (unfold lift_outcome; fold given; by rewrite Ewr).
    by rewrite (K_bind_ok _ _ _ _ _ Ec).
  - apply (keys_found liqo o'); [done|]. exists priv. unfold secret_data. rewrite Hsp, Hsp1. done.
  - intros rnd' tls'. unfold InitClusterKeys. by rewrite (K_bind_ok _ _ _ _ _ (attempt_ok _ _ _ _ (plain_get_runs lists _ o' w' Hw))).
Qed.

(** One secret, or none, under labels. *)
Lemma listed_one ns l (w : W) name o : w ⋅ ("secrets"%string, ns, name) = Some o → l ⊆ o_labels o →
  (∀ name' o', w ⋅ ("secrets"%string, ns, name') = Some o' → l ⊆ o_labels o' → name' = name) → lists "secrets" ns l (pw_server w) = [(name, o)].
Proof.
  intros Ho Hl Hu. assert (Hall : ∀ x, x ∈ lists "secrets" ns l (pw_server w) → x = (name, o)).
  { intros [n o'] [H1 H2]%lists_law. assert (n = name) as -> by by eapply Hu. congruence. }
  pose proof (lists_nodup "secrets" ns l (pw_server w)) as Hn. assert (Hin : (name, o) ∈ lists "secrets" ns l (pw_server w)) by by apply lists_law.
  destruct (lists "secrets" ns l (pw_server w)) as [|x [|y rest]]; [by apply elem_of_nil in Hin|by rewrite (Hall x) by by left|].
  exfalso. apply NoDup_cons in Hn as [Hx _]. apply Hx. rewrite (Hall x), <- (Hall y) by set_solver. by left.
Qed.
Lemma listed_none ns l (w : W) : (∀ name o, w ⋅ ("secrets"%string, ns, name) = Some o → ¬ l ⊆ o_labels o) → lists "secrets" ns l (pw_server w) = [].
Proof.
  intros Hu. destruct (lists "secrets" ns l (pw_server w)) as [|[n o] rest] eqn:E; [done|]. exfalso.
  assert ((n, o) ∈ lists "secrets" ns l (pw_server w)) as [H1 H2]%lists_law by (rewrite E; by left). by eapply Hu.
Qed.
Definition nonce_labels (key cluster : string) : labels := {[ TenantNsLabels.RemoteClusterID := cluster; key := "true"%string ]}.
Lemma found_by_label key cluster ns (w : W) name o : lists "secrets" ns (nonce_labels key cluster) (pw_server w) = [(name, o)] →
  secret_by_label cl key cluster ns w = Ret (w, Ok o).
Proof. intros E. unfold secret_by_label. erewrite K_bind_ok; [|cbn; reflexivity]. fold (nonce_labels key cluster). by rewrite E. Qed.
Lemma missed_by_label key cluster ns (w : W) : lists "secrets" ns (nonce_labels key cluster) (pw_server w) = [] →
  secret_by_label cl key cluster ns w = Ret (w, Err NotFound).
Proof. intros E. unfold secret_by_label. erewrite K_bind_ok; [|cbn; reflexivity]. fold (nonce_labels key cluster). by rewrite E. Qed.

(** The controllers, on a secret of the namespace of its cluster. *)
Section controllers.
Context (GetNamespace : string → K W string) (ns name cluster : string).
Notation sk := ("secrets"%string, ns, name).
Lemma in_namespace_runs o f (w : W) : o_labels o !! TenantNsLabels.RemoteClusterID = Some cluster → GetNamespace cluster w = Ret (w, Ok ns) →
  in_tenant_namespace GetNamespace o ns f w = f w.
Proof. intros Hl Hn. unfold in_tenant_namespace. rewrite Hl, (K_bind_ok _ _ _ _ _ Hn). by rewrite bool_decide_true. Qed.
Lemma nonce_created random o (w : W) : w ⋅ sk = Some o → o_deleting o = false → secret_data o !! NonceSecretField = None →
  o_labels o !! TenantNsLabels.RemoteClusterID = Some cluster → GetNamespace cluster w = Ret (w, Ok ns) →
  ∃ w' o', NonceCreatorReconcile cl GetNamespace (Some random) ns name w = Ret (w', Ok ()) ∧ only sk w w' ∧ w' ⋅ sk = Some o' ∧ o_labels o' = o_labels o ∧
    secret_data o' !! NonceSecretField = Some (base64 random).
Proof.
  intros Ho Hd Hn Hl Hns. unfold NonceCreatorReconcile. cbv zeta. rewrite (get_or_done_runs _ _ w w o) by by apply plain_get_runs. cbv beta.
  rewrite bool_decide_false by (rewrite Hn; by intros [? [=]]). rewrite (in_namespace_runs o _ w Hl Hns). erewrite K_bind_ok by reflexivity.
  match goal with |- context [c_Update _ _ ?x] => destruct (plain_update_runs lists sk x w o Ho eq_refl eq_refl ltac:(intros ?; congruence)) as (w' & o' & E & Hon & Hw & (Hl' & _) & Hsp & _) end.
  exists w', o'. split; [by rewrite (K_bind_ok _ _ _ _ _ E)|]. split; [done|]. split; [done|]. split; [done|]. unfold secret_data. rewrite Hsp. cbn. by rewrite lookup_insert_eq.
Qed.
(** Whatever is stored, a run leaves the signature it made. *)
Lemma nonce_signed liqo keys key der rnd nonce signature o (w : W) : w ⋅ sk = Some o → o_deleting o = false → GetNonceFromSecret (secret_data o) = Some nonce →
  o_labels o !! TenantNsLabels.RemoteClusterID = Some cluster → GetNamespace cluster w = Ret (w, Ok ns) →
  w ⋅ (keys_key liqo) = Some keys → holds_keys keys key der → SignNonce rnd key nonce = Some signature →
  ∃ w' o', NonceSignerReconcile cl GetNamespace liqo rnd ns name w = Ret (w', Ok ()) ∧ only sk w w' ∧ w' ⋅ sk = Some o' ∧ o_labels o' = o_labels o ∧ o_deleting o' = false ∧
    secret_data o' !! SignedNonceSecretField = Some signature ∧ GetNonceFromSecret (secret_data o') = Some nonce.
Proof.
  intros Ho Hd Hn Hl Hns Hk Hkeys Hs. unfold NonceSignerReconcile. cbv zeta. rewrite (get_or_done_runs _ _ w w o) by by apply plain_get_runs. cbv beta.
  rewrite (in_namespace_runs o _ w Hl Hns), (K_bind_ok _ _ _ _ _ (keys_found liqo keys key der w Hk Hkeys)). cbv beta iota.
  rewrite (K_bind_ok _ _ _ _ _ (of_option_runs _ _ w Hn)), (K_bind_ok _ _ _ _ _ (of_option_runs _ _ w Hs)). case_bool_decide as Hc; [by exists w, o|].
  match goal with |- context [c_Update _ _ ?x] => destruct (plain_update_runs lists sk x w o Ho eq_refl eq_refl ltac:(intros ?; congruence)) as (w' & o' & E & Hon & Hw & (Hl' & _) & Hsp & _ & Hd') end.
  exists w', o'. split; [by rewrite (K_bind_ok _ _ _ _ _ E)|]. split; [done|]. split; [done|]. split; [done|]. split; [congruence|]. unfold secret_data. rewrite Hsp. cbn.
  split; [by rewrite lookup_insert_eq|]. unfold GetNonceFromSecret in *. by rewrite lookup_insert_ne.
Qed.
(** A key whose signatures are randomized, as those of ECDSA are, makes the controller
    write the secret again at every run, and each write wakes it up. *)
Theorem randomized_signature_rewritten liqo keys key der rnd nonce old new o (w : W) : w ⋅ sk = Some o → o_deleting o = false → GetNonceFromSecret (secret_data o) = Some nonce →
  o_labels o !! TenantNsLabels.RemoteClusterID = Some cluster → GetNamespace cluster w = Ret (w, Ok ns) → w ⋅ (keys_key liqo) = Some keys → holds_keys keys key der →
  secret_data o !! SignedNonceSecretField = Some old → SignNonce rnd key nonce = Some new → new ≠ old →
  ∃ w', NonceSignerReconcile cl GetNamespace liqo rnd ns name w = Ret (w', Ok ()) ∧ w' ⋅ sk ≠ w ⋅ sk.
Proof.
  intros Ho Hd Hn Hl Hns Hk Hkeys Hold Hs Hne. destruct (nonce_signed liqo keys key der rnd nonce new o w Ho Hd Hn Hl Hns Hk Hkeys Hs) as (w' & o' & E & _ & Hw & _ & _ & Hsig & _).
  exists w'. split; [done|]. rewrite Hw, Ho. congruence.
Qed.
End controllers.

Lemma nonce_labels_sub key cluster l : key ≠ TenantNsLabels.RemoteClusterID → l !! TenantNsLabels.RemoteClusterID = Some cluster → l !! key = Some "true"%string → nonce_labels key cluster ⊆ l.
Proof.
  intros Hk H1 H2. apply map_subseteq_spec. intros k v. unfold nonce_labels. destruct (decide (k = TenantNsLabels.RemoteClusterID)) as [->|Hne].
  - rewrite lookup_insert_eq. congruence.
  - rewrite lookup_insert_ne by done. intros [<- <-]%lookup_singleton_Some. done.
Qed.
(** Global labels that leave alone the labels the clusters are found by. *)
Hypothesis no_cluster : globalLabels !! TenantNsLabels.RemoteClusterID = None.
Hypothesis no_nonce : globalLabels !! NonceSecretLabelKey = None.
Hypothesis no_signed : globalLabels !! SignedNonceSecretLabelKey = None.
Hypothesis secrets_known : is_Some (kinds "secrets"%string).
Definition unlabelled (key cluster ns : string) (w : W) : Prop := ∀ name o, w ⋅ ("secrets"%string, ns, name) = Some o → ¬ nonce_labels key cluster ⊆ o_labels o.
Lemma unlabelled_others key cluster ns name (w w' : W) : unlabelled key cluster ns w → only ("secrets"%string, ns, name) w w' →
  ∀ name' o', w' ⋅ ("secrets"%string, ns, name') = Some o' → nonce_labels key cluster ⊆ o_labels o' → name' = name.
Proof.
  intros Hu [_ Ho] name' o' H1 H2. destruct (decide (name' = name)) as [|Hne]; [done|]. rewrite Ho in H1 by congruence. by destruct (Hu _ _ H1).
Qed.
Lemma nonce_secret_ensured cluster ns (w : W) : w ⋅ (nonce_key ns) = None → ∃ w' o, EnsureNonceSecret cl order kinds globalLabels globalAnnotations cluster ns w = Ret (w', Ok ()) ∧
  only (nonce_key ns) w w' ∧ w' ⋅ (nonce_key ns) = Some o ∧ o_deleting o = false ∧ secret_data o = ∅ ∧ nonce_labels NonceSecretLabelKey cluster ⊆ o_labels o.
Proof.
  intros Hk. destruct secrets_known as [gk Hgk]. unfold EnsureNonceSecret. unfold CreateOrUpdate.
  assert (∃ o1, wrapped order kinds globalLabels globalAnnotations (nonce_key ns) (MutateNonce cluster) blank = Ret (Ok o1) ∧ o_spec o1 = Absent ∧
            nonce_labels NonceSecretLabelKey cluster ⊆ o_labels o1) as (o1 & E1 & Hs1 & Hl1).
  { unfold wrapped. cbn [MutateNonce mbind outcome_bind]. unfold buildVariablesMap. cbn [nonce_key fst]. rewrite Hgk. eexists. split; [reflexivity|]. split; [done|].
    cbn [o_labels set_labels]. apply nonce_labels_sub; [done| |]; rewrite lookup_union_r by (by rewrite lookup_fmap, ?no_cluster, ?no_nonce).
    - by rewrite lookup_insert_eq.
    - by rewrite lookup_insert_ne, lookup_insert_eq. }
  destruct (plain_create_runs lists (nonce_key ns) o1 w Hk) as (w' & o & Ec & Ho & Hw & (Hl & _) & Hsp & Hd).
  exists w', o. split; [|split; [done|]; split; [done|]; split; [done|]; split; [unfold secret_data; by rewrite Hsp, Hs1|by rewrite Hl]].
  erewrite K_bind_ok; [reflexivity|]. rewrite (cou_missing cl (nonce_key ns) _ w w) by by apply plain_get_misses. by erewrite K_bind_ok by (unfold lift_outcome; by rewrite E1).
Qed.
Section both.
Context (provider consumer nsp nsc liqo : string) (NamespaceAtProvider NamespaceAtConsumer : string → K W string).
Hypothesis at_provider : ∀ w, NamespaceAtProvider consumer w = Ret (w, Ok nsp).
Hypothesis at_consumer : ∀ w, NamespaceAtConsumer provider w = Ret (w, Ok nsc).
(** The secrets the controller of tenants looks at. *)
Definition provider_nonces (cluster : string) : K W (list labels) :=
  l ← c_List cl "secrets" nsp (nonce_labels NonceSecretLabelKey cluster); mret ((fun x : string * Obj apl => secret_data x.2) <$> l).

Lemma base64_nonempty random : random ≠ ""%string → base64 random ≠ ""%string.
Proof. destruct random as [|a [|b [|c r]]]; cbn; done. Qed.
(** The provider's part: the nonce is there, and is what the tenant is checked with. *)
Lemma nonce_offered random (wp : W) : random ≠ ""%string → wp ⋅ (nonce_key nsp) = None → unlabelled NonceSecretLabelKey consumer nsp wp →
  ∃ wp1 wp2 secret, EnsureNonceSecret cl order kinds globalLabels globalAnnotations consumer nsp wp = Ret (wp1, Ok ()) ∧
    NonceCreatorReconcile cl NamespaceAtProvider (Some random) nsp generateNonceSecretName wp1 = Ret (wp2, Ok ()) ∧
    RetrieveNonce cl consumer nsp wp2 = Ret (wp2, Ok (base64 random)) ∧ provider_nonces consumer wp2 = Ret (wp2, Ok [secret]) ∧ GetNonceFromSecret secret = Some (base64 random).
Proof.
  intros Hr Hk Hu. destruct (nonce_secret_ensured consumer nsp wp Hk) as (wp1 & o1 & E1 & Ho1 & Hw1 & Hd1 & Hs1 & Hl1).
  destruct (nonce_created NamespaceAtProvider nsp generateNonceSecretName consumer random o1 wp1) as (wp2 & o2 & E2 & Ho2 & Hw2 & Hl2 & Hn2).
  { done. } { done. } { by rewrite Hs1. } { eapply lookup_weaken; [|exact Hl1]. unfold nonce_labels. by rewrite lookup_insert_eq. } { done. }
  assert (Hone : lists "secrets" nsp (nonce_labels NonceSecretLabelKey consumer) (pw_server wp2) = [(generateNonceSecretName, o2)]).
  { apply listed_one; [done|by rewrite Hl2|]. eapply unlabelled_others; [exact Hu|]. split; [by rewrite (proj1 Ho2), (proj1 Ho1)|]. intros k Hk'. by rewrite (proj2 Ho2), (proj2 Ho1). }
  assert (Hg : GetNonceFromSecret (secret_data o2) = Some (base64 random)) by (unfold GetNonceFromSecret; unfold NonceSecretField in Hn2; by rewrite Hn2, bool_decide_false by by apply base64_nonempty).
  exists wp1, wp2, (secret_data o2). split; [done|]. split; [done|]. split; [|split; [|done]].
  - unfold RetrieveNonce. rewrite (K_bind_ok _ _ _ _ _ (found_by_label _ _ _ _ _ _ Hone)). by apply of_option_runs.
  - unfold provider_nonces. erewrite K_bind_ok by reflexivity. by rewrite Hone.
Qed.
(** The consumer's part: the nonce it was given comes back signed with its key. *)
Lemma nonce_answered nonce keys key der rnd signature (wc : W) : nonce ≠ ""%string → wc ⋅ (signed_key nsc) = None → unlabelled SignedNonceSecretLabelKey provider nsc wc →
  wc ⋅ (keys_key liqo) = Some keys → keys_key liqo ≠ signed_key nsc → holds_keys keys key der → SignNonce rnd key nonce = Some signature → signature ≠ ""%string →
  ∃ wc1 wc2, EnsureSignedNonceSecret cl globalLabels globalAnnotations provider nsc (Some nonce) wc = Ret (wc1, Ok ()) ∧
    NonceSignerReconcile cl NamespaceAtConsumer liqo rnd nsc generateSignedNonceSecretName wc1 = Ret (wc2, Ok ()) ∧
    RetrieveSignedNonce cl provider nsc wc2 = Ret (wc2, Ok signature) ∧ wc2 ⋅ (keys_key liqo) = Some keys.
Proof.
  intros Hn Hk Hu Hkeys Hne Hh Hs Hsig. set (o := SignedNonce provider nonce).
  destruct (plain_create_runs lists (signed_key nsc) (set_annotations (set_labels o (globalLabels ∪ o_labels o)) (globalAnnotations ∪ o_annotations o)) wc Hk)
    as (wc1 & o1 & E1 & Ho1 & Hw1 & (Hl1 & _) & Hsp1 & Hd1).
  cbn [o_labels set_annotations set_labels] in Hl1.
  assert (Hc1 : o_labels o1 !! TenantNsLabels.RemoteClusterID = Some provider) by (by rewrite Hl1, lookup_union_r).
  assert (Hs1 : o_labels o1 !! SignedNonceSecretLabelKey = Some "true"%string) by (by rewrite Hl1, lookup_union_r).
  assert (Hg : GetNonceFromSecret (secret_data o1) = Some nonce).
  { assert (secret_data o1 = {[ NonceSecretField := nonce ]}) as -> by (unfold secret_data; by rewrite Hsp1).
    unfold GetNonceFromSecret, NonceSecretField. by rewrite lookup_singleton_eq, bool_decide_false. }
  assert (Hkeys1 : wc1 ⋅ (keys_key liqo) = Some keys) by by rewrite (proj2 Ho1).
  destruct (nonce_signed NamespaceAtConsumer nsc generateSignedNonceSecretName provider liqo keys key der rnd nonce signature o1 wc1 Hw1 Hd1 Hg Hc1 (at_consumer wc1) Hkeys1 Hh Hs)
    as (wc2 & o2 & E2 & Ho2 & Hw2 & Hl2 & _ & Hsig2 & _).
  assert (Hone : lists "secrets" nsc (nonce_labels SignedNonceSecretLabelKey provider) (pw_server wc2) = [(generateSignedNonceSecretName, o2)]).
  { apply listed_one; [done|rewrite Hl2; by apply nonce_labels_sub|]. eapply unlabelled_others; [exact Hu|]. split; [by rewrite (proj1 Ho2), (proj1 Ho1)|].
    intros k Hk'. by rewrite (proj2 Ho2), (proj2 Ho1). }
  exists wc1, wc2. split; [|split; [done|split]].
  - unfold EnsureSignedNonceSecret. rewrite (K_bind_ok _ _ _ _ _ (attempt_ok _ _ _ _ (missed_by_label _ _ _ _ (listed_none _ _ _ Hu)))). cbv beta iota.
    rewrite bool_decide_false by done. cbv zeta. fold o. by rewrite (K_bind_ok _ _ _ _ _ E1).
  - unfold RetrieveSignedNonce. rewrite (K_bind_ok _ _ _ _ _ (found_by_label _ _ _ _ _ _ Hone)). apply of_option_runs.
    unfold GetSignedNonceFromSecret. by rewrite Hsig2, bool_decide_false.
  - by rewrite (proj2 Ho2).
Qed.
(** The provider offers a nonce, the consumer signs it and makes a tenant of the
    signature, and the provider accepts the tenant. *)
Theorem nonce_exchange_completes random rnd rnd' keys key der signature csr proxy (wp wc : W) :
  random ≠ ""%string → wp ⋅ (nonce_key nsp) = None → unlabelled NonceSecretLabelKey consumer nsp wp →
  wc ⋅ (signed_key nsc) = None → unlabelled SignedNonceSecretLabelKey provider nsc wc → wc ⋅ (keys_key liqo) = Some keys →
  holds_keys keys key der → der ≠ ""%string → SignNonce rnd key (base64 random) = Some signature → signature ≠ ""%string →
  GenerateCSRForControlPlane rnd' key consumer = Some csr →
  ∃ wp1 wp2 nonce wc1 wc2 t, EnsureNonceSecret cl order kinds globalLabels globalAnnotations consumer nsp wp = Ret (wp1, Ok ()) ∧
    NonceCreatorReconcile cl NamespaceAtProvider (Some random) nsp generateNonceSecretName wp1 = Ret (wp2, Ok ()) ∧
    RetrieveNonce cl consumer nsp wp2 = Ret (wp2, Ok nonce) ∧
    EnsureSignedNonceSecret cl globalLabels globalAnnotations provider nsc (Some nonce) wc = Ret (wc1, Ok ()) ∧
    NonceSignerReconcile cl NamespaceAtConsumer liqo rnd nsc generateSignedNonceSecretName wc1 = Ret (wc2, Ok ()) ∧
    RetrieveSignedNonce cl provider nsc wc2 = Ret (wc2, Ok signature) ∧
    GenerateTenant cl rnd' consumer liqo nsp signature proxy wc2 = Ret (wc2, Ok t) ∧
    verifyHandshake provider_nonces t wp2 = Ret (wp2, Ok true).
Proof.
  intros Hr Hkp Hup Hkc Huc Hkeys Hh Hder Hs Hsig Hcsr. destruct (nonce_offered random wp Hr Hkp Hup) as (wp1 & wp2 & secret & E1 & E2 & E3 & E4 & E5).
  destruct (nonce_answered (base64 random) keys key der rnd signature wc (base64_nonempty random Hr) Hkc Huc Hkeys) as (wc1 & wc2 & F1 & F2 & F3 & F4); [by intros [= _]|done|done|done|].
  exists wp1, wp2, (base64 random), wc1, wc2, (TenantForRemoteCluster consumer der csr signature (Some nsp) proxy).
  split; [done|]. split; [done|]. split; [done|]. split; [done|]. split; [done|]. split; [done|]. split.
  - unfold GenerateTenant. rewrite (K_bind_ok _ _ _ _ _ (keys_found liqo keys key der wc2 F4 Hh)). cbv beta iota. by rewrite (K_bind_ok _ _ _ _ _ (of_option_runs _ _ wc2 Hcsr)).
  - destruct Hh as (priv & _ & Hpub & _). by apply (handshake_completes provider_nonces _ key rnd rnd' (base64 random) secret der).
Qed.
End both.
End exchange.

(** ** Examples *)

#[local] Instance KcCluster_dec : EqDecision KcCluster.
Proof. solve_decision. Defined.
#[local] Instance KcContext_dec : EqDecision KcContext.
Proof. solve_decision. Defined.
#[local] Instance KcAuthInfo_dec : EqDecision KcAuthInfo.
Proof. solve_decision. Defined.
#[local] Instance Kubeconfig_dec : EqDecision Kubeconfig.
Proof. solve_decision. Defined.
#[local] Program Instance KcCluster_countable : Countable KcCluster :=
  inj_countable' (fun c => (kc_Server c, kc_CA c, kc_ProxyURL c)) (fun '(a, b, c) => mkKcCluster a b c) _.
Next Obligation. by intros []. Qed.
#[local] Program Instance KcContext_countable : Countable KcContext :=
  inj_countable' (fun c => (kc_Cluster c, kc_Namespace c, kc_AuthInfo c)) (fun '(a, b, c) => mkKcContext a b c) _.
Next Obligation. by intros []. Qed.
#[local] Program Instance KcAuthInfo_countable : Countable KcAuthInfo :=
  inj_countable' (fun c => (kc_ClientKey c, kc_ClientCertificate c)) (fun '(a, b) => mkKcAuthInfo a b) _.
Next Obligation. by intros []. Qed.
#[local] Program Instance Kubeconfig_countable : Countable Kubeconfig :=
  inj_countable' (fun c => (kc_Clusters c, kc_Contexts c, kc_CurrentContext c, kc_AuthInfos c)) (fun '(a, b, c, d) => mkKubeconfig a b c d) _.
Next Obligation. by intros []. Qed.
#[local] Program Instance toy_kubeconfig : KubeconfigCodec := {| kc_Write := fun c => Some (bits (encode c)); kc_Load := fun s => p ← unbits s; decode p |}.
Next Obligation. intros c s [= <-]. cbn. rewrite unbits_bits. cbn. apply decode_encode. Qed.

#[local] Existing Instance AuthProps.toy.
#[local] Existing Instance AuthProps.toy_laws.
#[local] Existing Instance Remapping.plain_owners.
#[local] Instance toy_keys : KeyOps := {|
  MarshalPKCS8PrivateKey := fun k => match k with EdPrivate s => Some (String "E" s) | RsaPrivate s => Some (String "R" s) | EcPrivate s => Some (String "C" s) | OtherPrivate => None end;
  ParsePKCS8PrivateKey := fun b => match b with String "E" s => Some (EdPrivate s) | String "R" s => Some (RsaPrivate s) | String "C" s => Some (EcPrivate s) | _ => None end;
  ed_GenerateKey := Some; rsa_GenerateKey := Some
|}.
#[local] Instance toy_key_laws : KeyLaws.
Proof. split. by intros [] b [= <-]. Qed.

Definition ex_kinds (r : string) : option (string * string) := Some (r, ""%string).
Definition ex_params (crt : string) : AuthParams := mkAuthParams "ca" crt "https://api" None None.
Definition ex_world (l : list (okey * Obj apl)) : pworld apl () := mkPworld (Api := memory) (list_to_map l) [].
Definition ex_keys : Obj apl := set_secret blank [] {[ PrivateKeyField := "PEk"%string; PublicKeyField := "PEk"%string ]}.
Definition ex_renew (c : string) (a : option AuthParams) : Obj apl := set_status (set_spec blank (AMap (PRenew [] c ControlPlaneIdentity))) (AMap (PRenewStatus a)).
Definition ex_provider : pworld apl () := ex_world [(renew_key "liqo-tenant-milan" "controlplane-rome", ex_renew "milan" (Some (ex_params "old")))].
Definition ex_consumer (a : option AuthParams) : pworld apl () := ex_world [
  (identity_key "liqo-tenant-rome" "controlplane-rome", set_identity blank (mkIdentity [] "rome" ControlPlaneIdentity (ex_params "old") (Some "liqo-tenant-milan"%string)));
  (renew_key "liqo-tenant-rome" "controlplane-rome", ex_renew "milan" a); (keys_key "liqo", ex_keys)].
Definition ex_milan : Tenant :=
  mkTenant "milan" "liqo-tenant-milan" "u" ∅ [] false "milan" None "" "" "" None TenantActive "liqo-tenant-milan" (Some (ex_params "new")).
Lemma renewed_certificate_arrives_witness : ∃ a wc1 wc2,
  LocalRenewerReconcile (CU := documented apl) (plain_client mem_lists) (fun k => k.2) "milan" "liqo-tenant-rome" "controlplane-rome" (ex_consumer (Some a)) = Ret (wc1, Ok ()) ∧
  IdentityReconcile (CU := documented apl) (plain_client mem_lists) [] ex_kinds ∅ ∅ (fun k o => on_pserver (UpdateStatus k o)) (fun k => k.2) "liqo" "liqo-tenant-rome" "controlplane-rome" wc1 = Ret (wc2, Ok ()) ∧
  logs_in "liqo-tenant-rome" "controlplane-rome" wc2 "PEk" "new".
Proof.
  destruct (renewed_certificate_arrives (CU := documented apl) mem_lists [] ex_kinds ∅ ∅ (fun k => k.2) (fun _ w => Ret (w, Ok "liqo-tenant-milan"%string)) (fun _ _ w => Ret (w, Ok [ex_milan]))
    "liqo-tenant-milan" "controlplane-rome" (ex_renew "milan" (Some (ex_params "old"))) ex_milan (ex_params "new") ex_provider) as (wp' & renewp' & E & Hw & Hrest);
    [reflexivity|reflexivity|reflexivity|reflexivity|reflexivity|discriminate|by eexists|by eexists|].
  assert (Hc : match RemoteRenewerReconcile (plain_client mem_lists) (fun k o => on_pserver (UpdateStatus k o)) (fun _ w => Ret (w, Ok "liqo-tenant-milan"%string)) (fun _ _ w => Ret (w, Ok [ex_milan]))
                       "liqo-tenant-milan" "controlplane-rome" ex_provider with
               | Ret (w, _) => renew_auth <$> content (pw_server w) !! renew_key "liqo-tenant-milan" "controlplane-rome" | _ => None end = Some (Some (ex_params "new")))
    by (vm_compute; reflexivity).
  rewrite E, Hw in Hc. injection Hc as Hc.
  destruct (Hrest "milan" "liqo" "liqo-tenant-rome" (set_identity blank (mkIdentity [] "rome" ControlPlaneIdentity (ex_params "old") (Some "liqo-tenant-milan")))%string
    (mkIdentity [] "rome" ControlPlaneIdentity (ex_params "old") (Some "liqo-tenant-milan"))%string (ex_renew "milan" (Some (ex_params "new"))) ex_keys "PEk" "PEk" (ex_consumer (Some (ex_params "new"))))%string
    as (wc1 & wc2 & E1 & E2 & E3);
    [reflexivity|reflexivity|reflexivity|reflexivity|reflexivity|by rewrite Hc|reflexivity|reflexivity|reflexivity|reflexivity|by intros s [=]|reflexivity|].
  exists (ex_params "new"), wc1, wc2. exact (conj E1 (conj E2 E3)).
Defined.

Definition ex_fresh : pworld apl () := ex_world [].
Definition ex_with_keys : pworld apl () := ex_world [(keys_key "liqo", ex_keys)].
Lemma nonce_exchange_completes_witness : ∃ (wp2 wc2 : pworld apl ()) nonce t,
  RetrieveNonce (plain_client mem_lists) "milan" "liqo-tenant-milan" wp2 = Ret (wp2, Ok nonce) ∧
  GenerateTenant (plain_client mem_lists) "" "milan" "liqo" "liqo-tenant-milan" (toy_sign "k" (base64 "random")) None wc2 = Ret (wc2, Ok t) ∧
  verifyHandshake (provider_nonces mem_lists "liqo-tenant-milan") t wp2 = Ret (wp2, Ok true).
Proof.
  destruct (nonce_exchange_completes (CU := documented apl) mem_lists mem_lists_law mem_lists_nodup [] ex_kinds ∅ ∅ (lookup_empty _) (lookup_empty _) (lookup_empty _) (ex_intro _ _ eq_refl)
    "rome" "milan" "liqo-tenant-milan" "liqo-tenant-rome" "liqo" (fun _ w => Ret (w, Ok "liqo-tenant-milan"%string)) (fun _ w => Ret (w, Ok "liqo-tenant-rome"%string))
    (fun _ => eq_refl) (fun _ => eq_refl) "random" "" "" ex_keys (EdPrivate "k") "Ek" (toy_sign "k" (base64 "random")) "Pcp" None ex_fresh ex_with_keys)
    as (wp1 & wp2 & nonce & wc1 & wc2 & t & _ & _ & E & _ & _ & _ & F & G).
  - discriminate.
  - reflexivity.
  - intros name o [=].
  - reflexivity.
  - intros name o H. cbn in H. apply lookup_insert_Some in H as [[[= <-] _]|[_ [=]]].
  - reflexivity.
  - exists "Ek"%string. repeat split.
  - discriminate.
  - reflexivity.
  - discriminate.
  - reflexivity.
  - exists wp2, wc2, nonce, t. exact (conj E (conj F G)).
Defined.
