(* ===== verification/ForeignCluster.v ===== *)
(** * ForeignCluster: the state of a peering
      (src/apis/core/v1beta1/foreigncluster_types.go, src/pkg/utils/foreigncluster,
       src/pkg/liqo-controller-manager/core/foreigncluster-controller)

    A ForeignCluster summarises what is known of a remote cluster: which modules are
    in use, the conditions of each, the role of the cluster, and whether its API
    server answers, which a goroutine per cluster checks.  What the controller lists
    is an argument; the conditions are kept between reconciliations. *)

From S2P Require Export Tenant.
Local Open Scope Z_scope.

Inductive RoleType := ConsumerRole | ProviderRole | ConsumerAndProviderRole | UnknownRole.
#[export] Instance RoleType_eq_dec : EqDecision RoleType.
Proof. solve_decision. Defined.
Inductive ConditionType :=
| APIServerStatusCondition
| NetworkConfigurationStatusCondition | NetworkConnectionStatusCondition | NetworkGatewayPresenceCondition
| NetworkGatewayServerStatusCondition | NetworkGatewayClientStatusCondition
| AuthIdentityControlPlaneStatusCondition | AuthTenantStatusCondition
| OffloadingVirtualNodeStatusCondition | OffloadingNodeStatusCondition.
#[export] Instance ConditionType_eq_dec : EqDecision ConditionType.
Proof. solve_decision. Defined.
Inductive ConditionStatusType :=
| StatusNone | StatusPending | StatusEstablished | StatusError | StatusReady | StatusNotReady | StatusSomeNotReady.
#[export] Instance ConditionStatusType_eq_dec : EqDecision ConditionStatusType.
Proof. solve_decision. Defined.

Record Condition := mkCond {
  cd_Type : ConditionType; cd_Status : ConditionStatusType; cd_Time : Z; cd_Reason : string; cd_Message : string
}.
#[export] Instance Condition_eq_dec : EqDecision Condition.
Proof. solve_decision. Defined.
Record Module_ := mkModule { md_Enabled : bool; md_Conditions : list Condition }.
#[export] Instance Module_eq_dec : EqDecision Module_.
Proof. solve_decision. Defined.
Record FcStatus := mkFcStatus {
  fs_ObservedGeneration : Z; fs_Role : RoleType; Networking : Module_; Authentication : Module_; Offloading : Module_;
  APIServerURL : string; ForeignProxyURL : string; TenantLocal : string; TenantRemote : string; fs_Conditions : list Condition
}.
#[export] Instance FcStatus_eq_dec : EqDecision FcStatus.
Proof. solve_decision. Defined.
Record ForeignCluster := mkFc {
  fc_Name : string; fc_Labels : labels; fc_Annotations : labels; fc_Finalizers : list string; fc_Deleting : bool;
  fc_Generation : Z; fc_Created : Z; fc_Version : Z; fc_ClusterID : string; fc_Status : FcStatus
}.

Definition set_role (s : FcStatus) (r : RoleType) : FcStatus :=
  mkFcStatus (fs_ObservedGeneration s) r (Networking s) (Authentication s) (Offloading s) (APIServerURL s) (ForeignProxyURL s)
    (TenantLocal s) (TenantRemote s) (fs_Conditions s).
Definition set_networking (s : FcStatus) (m : Module_) : FcStatus :=
  mkFcStatus (fs_ObservedGeneration s) (fs_Role s) m (Authentication s) (Offloading s) (APIServerURL s) (ForeignProxyURL s)
    (TenantLocal s) (TenantRemote s) (fs_Conditions s).
Definition set_authentication (s : FcStatus) (m : Module_) : FcStatus :=
  mkFcStatus (fs_ObservedGeneration s) (fs_Role s) (Networking s) m (Offloading s) (APIServerURL s) (ForeignProxyURL s)
    (TenantLocal s) (TenantRemote s) (fs_Conditions s).
Definition set_offloading (s : FcStatus) (m : Module_) : FcStatus :=
  mkFcStatus (fs_ObservedGeneration s) (fs_Role s) (Networking s) (Authentication s) m (APIServerURL s) (ForeignProxyURL s)
    (TenantLocal s) (TenantRemote s) (fs_Conditions s).
Definition set_urls (s : FcStatus) (api proxy : string) : FcStatus :=
  mkFcStatus (fs_ObservedGeneration s) (fs_Role s) (Networking s) (Authentication s) (Offloading s) api proxy
    (TenantLocal s) (TenantRemote s) (fs_Conditions s).
Definition set_tenants (s : FcStatus) (local remote : string) : FcStatus :=
  mkFcStatus (fs_ObservedGeneration s) (fs_Role s) (Networking s) (Authentication s) (Offloading s) (APIServerURL s) (ForeignProxyURL s)
    local remote (fs_Conditions s).
Definition set_generic (s : FcStatus) (l : list Condition) : FcStatus :=
  mkFcStatus (fs_ObservedGeneration s) (fs_Role s) (Networking s) (Authentication s) (Offloading s) (APIServerURL s) (ForeignProxyURL s)
    (TenantLocal s) (TenantRemote s) l.
Definition set_observed (s : FcStatus) (g : Z) : FcStatus :=
  mkFcStatus g (fs_Role s) (Networking s) (Authentication s) (Offloading s) (APIServerURL s) (ForeignProxyURL s)
    (TenantLocal s) (TenantRemote s) (fs_Conditions s).
Definition set_fc_status (f : ForeignCluster) (s : FcStatus) : ForeignCluster :=
  mkFc (fc_Name f) (fc_Labels f) (fc_Annotations f) (fc_Finalizers f) (fc_Deleting f) (fc_Generation f) (fc_Created f) (fc_Version f) (fc_ClusterID f) s.
Definition set_fc_finalizers (f : ForeignCluster) (l : list string) : ForeignCluster :=
  mkFc (fc_Name f) (fc_Labels f) (fc_Annotations f) l (fc_Deleting f) (fc_Generation f) (fc_Created f) (fc_Version f) (fc_ClusterID f) (fc_Status f).

(** ** Helpers (pkg/utils/foreigncluster) *)

Definition findCondition (l : list Condition) (t : ConditionType) : option Condition :=
  List.find (fun c => bool_decide (cd_Type c = t)) l.
Definition GetStatus (l : list Condition) (t : ConditionType) : ConditionStatusType :=
  match findCondition l t with Some c => cd_Status c | None => StatusNone end.
Definition GetReason (l : list Condition) (t : ConditionType) : string :=
  match findCondition l t with Some c => cd_Reason c | None => "" end.
Definition GetMessage (l : list Condition) (t : ConditionType) : string :=
  match findCondition l t with Some c => cd_Message c | None => "" end.
Definition deleteCondition (l : list Condition) (t : ConditionType) : list Condition :=
  List.filter (fun c => negb (bool_decide (cd_Type c = t))) l.
(** [EnsureGenericCondition] and [EnsureModuleCondition]: the first condition of the
    type is rewritten when something changed; the flag says that the clock was read. *)
Fixpoint ensureCondition (now : Z) (t : ConditionType) (st : ConditionStatusType) (why : string * string) (l : list Condition) :
    list Condition * bool :=
  match l with
  | [] => ([mkCond t st now why.1 why.2], true)
  | c :: rest =>
    if bool_decide (cd_Type c = t) then
      if negb (bool_decide (cd_Status c = st)) || negb (bool_decide (why.1 = cd_Reason c)) || negb (bool_decide (why.2 = cd_Message c))
      then (mkCond (cd_Type c) st now why.1 why.2 :: rest, true)
      else (c :: rest, false)
    else let '(l', b) := ensureCondition now t st why rest in (c :: l', b)
  end.
Definition IsNetworkingModuleEnabled (s : FcStatus) : bool := md_Enabled (Networking s).
Definition IsNetworkingEstablished (s : FcStatus) : bool :=
  bool_decide (GetStatus (md_Conditions (Networking s)) NetworkConnectionStatusCondition = StatusEstablished).
Definition IsNetworkingEstablishedOrDisabled (s : FcStatus) : bool := IsNetworkingEstablished s || negb (IsNetworkingModuleEnabled s).
Definition GetAPIServerStatus (s : FcStatus) : ConditionStatusType := GetStatus (fs_Conditions s) APIServerStatusCondition.
Definition IsAPIServerReadyOrDisabled (s : FcStatus) : bool :=
  bool_decide (GetAPIServerStatus s = StatusEstablished) || bool_decide (GetAPIServerStatus s = StatusNone).
Definition PermanentlyUnreachableKey : string := "liqo.io/foreign-cluster-permanently-unreachable".
Definition IsDead (fc : option ForeignCluster) : bool * string :=
  match fc with
  | None => (true, "ForeignCluster is nil"%string)
  | Some f =>
    if negb (bool_decide (default ""%string (fc_Annotations f !! PermanentlyUnreachableKey) = "true"%string)) then (false, ""%string)
    else match findCondition (fs_Conditions (fc_Status f)) APIServerStatusCondition with
         | Some c => if bool_decide (cd_Status c = StatusEstablished) then (false, ""%string) else (true, cd_Message c)
         | None => (true, "The foreign cluster has been marked as permanently unreachable"%string)
         end
  end.
Definition SetRole (consumer provider : bool) (s : FcStatus) : FcStatus :=
  set_role s (if consumer && provider then ConsumerAndProviderRole else if consumer then ConsumerRole else if provider then ProviderRole else UnknownRole).
Definition IsProvider (r : RoleType) : bool := bool_decide (r = ProviderRole) || bool_decide (r = ConsumerAndProviderRole).
Definition IsConsumer (r : RoleType) : bool := bool_decide (r = ConsumerRole) || bool_decide (r = ConsumerAndProviderRole).

(** The one created first; a zero time, written 0, gives way to the next one. *)
Fixpoint older_from (best : option ForeignCluster) (l : list ForeignCluster) : option ForeignCluster :=
  match l with
  | [] => best
  | f :: l =>
    let better := match best with None => true | Some b => (fc_Created b =? 0) || (fc_Created f <? fc_Created b) end in
    older_from (if better then Some f else best) l
  end.
Definition GetOlderForeignCluster (l : list ForeignCluster) : option ForeignCluster := older_from None l.
Definition getForeignCluster (l : list ForeignCluster) : result kerr ForeignCluster :=
  match l with
  | [] => Err NotFound
  | [f] => Ok f
  | l => match GetOlderForeignCluster l with Some f => Ok f | None => Err NotFound end
  end.

(** ** Reasons and messages (conditions.go) *)

Definition connectionEstablished : string * string := ("ConnectionEstablished", "The network connection with the foreign cluster is established")%string.
Definition connectionPending : string * string := ("ConnectionPending", "The network connection with the foreign cluster is connecting")%string.
Definition connectionError : string * string := ("ConnectionError", "The network connection with the foreign cluster is in error")%string.
Definition connectionMissing : string * string := ("ConnectionMissing", "There is no network connection with the foreign cluster")%string.
Definition gatewaysReady : string * string := ("GatewaysReady", "All gateway replicas are ready")%string.
Definition gatewaySomeNotReady : string * string := ("GatewaysSomeNotReady", "Some gateway replicas are not ready")%string.
Definition gatewaysNotReady : string * string := ("GatewaysNotReady", "All gateway replicas are not ready")%string.
Definition gatewayMissing : string * string := ("GatewayMissing", "The gateway resource connecting to the foreign cluster is missing")%string.
Definition gatewayPresent : string * string := ("GatewayPresence", "There is a gateway connecting to the foreign cluster")%string.
Definition networkConfigurationPresence : string * string :=
  ("NetworkConfigurationPresence", "The network configuration of the peer cluster is present")%string.
Definition networkConfigurationMissing : string * string :=
  ("NetworkConfigurationMissing", "The network configuration for the connection with the foreign cluster is missing")%string.
Definition tenantReady : string * string := ("TenantReady", "The tenant has been successfully configured")%string.
Definition tenantNotReady : string * string := ("TenantNotReady", "The tenant is not correctly configured")%string.
Definition identityReady : string * string := ("IdentityReady", "The identity has been successfully configured")%string.
Definition identityNotReady : string * string := ("IdentityNotReady", "The identity is not correctly configured")%string.
Definition apiServerReady : string * string := ("APIServerReady", "The foreign cluster API Server is ready")%string.
Definition apiServerNotReady : string * string := ("APIServerNotReady", "The foreign cluster API Server is not ready")%string.
Definition virtualNodesReady : string * string := ("VirtualNodesReady", "All virtual nodes are ready")%string.
Definition virtualNodesSomeNotReady : string * string := ("VirtualNodesSomeNotReady", "Some virtual nodes are not ready")%string.
Definition virtualNodesNotReady : string * string := ("VirtualNodesNotReady", "All virtual nodes are not ready")%string.
Definition nodesReady : string * string := ("NodesReady", "All nodes are ready")%string.
Definition nodesSomeNotReady : string * string := ("NodesSomeNotReady", "Some nodes are not ready")%string.
Definition nodesNotReady : string * string := ("NodesNotReady", "All nodes are not ready")%string.

(** ** What the controller reads *)

Inductive ConnectionStatus := Connected | Connecting | ConnectionErrorStatus | ConnectionUnset.
Record Identity := mkFcIdentity {
  fi_Namespace : string; fi_Type : IdentityType; fi_APIServer : string; fi_ProxyURL : option string;
  fi_RemoteNamespace : option string; fi_Secret : option string
}.
Record VirtualNode := mkFcVirtualNode { fv_Name : string; fv_ClusterID : string; fv_CreateNode : option bool }.
(** A condition of a pod or a node: type and status. *)
Definition conds : Type := list (string * string).
(** The configuration of a client of the remote cluster. *)
Record RestConfig := mkRestConfig { rc_Host : string; rc_CertData : string }.
(** The answers of the cluster on the objects with the label of the remote cluster,
    and of the identity manager. *)
Record fc_view := mkFcView {
  v_configurations : result kerr nat;
  v_servers : result kerr (list (string * string));
  v_clients : result kerr (list (string * string));
  v_deployment : string → string → result kerr (Z * Z);
  v_connections : result kerr (list ConnectionStatus);
  v_tenants : result kerr (list Tenant);
  v_identities : result kerr (list Identity);
  v_config : string → result kerr RestConfig;
  v_vnodes : result kerr (list VirtualNode);
  v_vkpods : VirtualNode → result kerr (list conds);
  v_nodes : string → result kerr (list (string * conds))
}.

(** Getters (k8sGetters.go). *)
Definition GetConfigurationByClusterID (l : result kerr nat) : result kerr () :=
  match l with Err e => Err e | Ok 0%nat => Err NotFound | Ok 1%nat => Ok () | Ok _ => Err OtherErr end.
Definition GetTenantByClusterID (l : result kerr (list Tenant)) : result kerr Tenant :=
  match l with Err e => Err e | Ok [] => Err NotFound | Ok [t] => Ok t | Ok _ => Err OtherErr end.
Definition is_control_plane (i : Identity) : bool := match fi_Type i with ControlPlaneIdentity => true | _ => false end.
Definition GetControlPlaneIdentityByClusterID (l : result kerr (list Identity)) : result kerr Identity :=
  match l with
  | Err e => Err e
  | Ok l => match List.filter is_control_plane l with [] => Err NotFound | [i] => Ok i | _ => Err OtherErr end
  end.
Definition GetNodeFromVirtualNode (nodes : string → result kerr (list (string * conds))) (vn : VirtualNode) : result kerr conds :=
  match nodes (fv_ClusterID vn) with
  | Err e => Err e
  | Ok [] => Err NotFound
  | Ok l => match List.find (fun n => bool_decide (n.1 = fv_Name vn)) l with Some n => Ok n.2 | None => Err NotFound end
  end.
Definition IsPodReady (c : conds) : bool :=
  match List.find (fun x => bool_decide (x.1 = "Ready"%string)) c with Some x => bool_decide (x.2 = "True"%string) | None => false end.
Definition IsNodeReady (c : conds) : bool := existsb (fun x => bool_decide (x.1 = "Ready"%string) && bool_decide (x.2 = "True"%string)) c.
Definition allPodsReady (l : list conds) : bool := forallb IsPodReady l.
Definition expectedNodes (l : list VirtualNode) : nat :=
  List.length (List.filter (fun v => match fv_CreateNode v with Some true => true | _ => false end) l).
Definition GatewayResourceName (name : string) : string := ("gw-" ++ name)%string.

(** ** The status of the modules (status.go)

    The handlers change the status they are given and read the clock; what they
    changed before an error stays changed. *)

Record fcst := mkFcst { s_status : FcStatus; s_tick : nat }.
Definition clearStatusExceptConditions (s : FcStatus) : FcStatus :=
  mkFcStatus 0 UnknownRole (mkModule false (md_Conditions (Networking s))) (mkModule false (md_Conditions (Authentication s)))
    (mkModule false (md_Conditions (Offloading s))) "" "" "" "" (fs_Conditions s).
Definition clearModule : Module_ := mkModule false [].
Definition exceptions : Type := list (ConditionType * (ConditionStatusType * (string * string))).

Section status.
Context (clock : nat → Z) (view : fc_view) (visit : exceptions → exceptions).
Notation F := (K fcst).

Definition upd (f : FcStatus → FcStatus) : F () := fun w => Ret (mkFcst (f (s_status w)) (s_tick w), Ok ()).
Definition ensure (get : FcStatus → Module_) (set : FcStatus → Module_ → FcStatus) (t : ConditionType) (st : ConditionStatusType)
    (why : string * string) : F () := fun w =>
  let m := get (s_status w) in
  let '(l, b) := ensureCondition (clock (s_tick w)) t st why (md_Conditions m) in
  Ret (mkFcst (set (s_status w) (mkModule (md_Enabled m) l)) (if b then S (s_tick w) else s_tick w), Ok ()).
Definition ensure_net : ConditionType → ConditionStatusType → string * string → F () := ensure Networking set_networking.
Definition ensure_auth : ConditionType → ConditionStatusType → string * string → F () := ensure Authentication set_authentication.
Definition ensure_off : ConditionType → ConditionStatusType → string * string → F () := ensure Offloading set_offloading.
Definition enable_net : F () := upd (fun s => set_networking s (mkModule true (md_Conditions (Networking s)))).
Definition enable_auth : F () := upd (fun s => set_authentication s (mkModule true (md_Conditions (Authentication s)))).
Definition enable_off : F () := upd (fun s => set_offloading s (mkModule true (md_Conditions (Offloading s)))).
Definition delete_net (t : ConditionType) : F () :=
  upd (fun s => set_networking s (mkModule (md_Enabled (Networking s)) (deleteCondition (md_Conditions (Networking s)) t))).
Definition delete_auth (t : ConditionType) : F () :=
  upd (fun s => set_authentication s (mkModule (md_Enabled (Authentication s)) (deleteCondition (md_Conditions (Authentication s)) t))).
Definition delete_off (t : ConditionType) : F () :=
  upd (fun s => set_offloading s (mkModule (md_Enabled (Offloading s)) (deleteCondition (md_Conditions (Offloading s)) t))).

Definition handleNetworkConfigurationStatus : F exceptions :=
  match GetConfigurationByClusterID (v_configurations view) with
  | Err NotFound =>
    _ ← delete_net NetworkConfigurationStatusCondition;
    mret [(NetworkConfigurationStatusCondition, (StatusNotReady, networkConfigurationMissing))]
  | Err e => fail e
  | Ok _ =>
    _ ← enable_net;
    _ ← ensure_net NetworkConfigurationStatusCondition StatusReady networkConfigurationPresence;
    mret []
  end.

Definition isGatewayDeploymentReady (gw : string * string) : result kerr bool :=
  match v_deployment view (GatewayResourceName gw.1) gw.2 with
  | Err e => Err e
  | Ok (ready, unavailable) => Ok ((0 <? ready) && (unavailable =? 0))
  end.
(** [checkGwServerDeploymentsReady] and [checkGwClientDeploymentsReady]. *)
Fixpoint checkDeployments (l : list (string * string)) (allReady anyReady : bool) : bool * bool :=
  match l with
  | [] => (allReady, negb allReady && anyReady)
  | gw :: l =>
    match isGatewayDeploymentReady gw with
    | Err _ => checkDeployments l false anyReady
    | Ok true => checkDeployments l allReady true
    | Ok false => checkDeployments l false anyReady
    end
  end.
Definition checkGwDeploymentsReady (l : list (string * string)) : bool * bool := checkDeployments l true false.
(** Lists that cannot be read count as empty. *)
Definition items (l : result kerr (list (string * string))) : list (string * string) := match l with Ok l => l | Err _ => [] end.
Definition gateway_condition (t : ConditionType) (l : list (string * string)) : F () :=
  match l with
  | [] => delete_net t
  | _ =>
    _ ← enable_net;
    let '(allReady, someNotReady) := checkGwDeploymentsReady l in
    if negb allReady && negb someNotReady then ensure_net t StatusNotReady gatewaysNotReady
    else if someNotReady then ensure_net t StatusSomeNotReady gatewaySomeNotReady
    else ensure_net t StatusReady gatewaysReady
  end.
Definition gateway_presence (servers clients : list (string * string)) : ConditionStatusType * (string * string) :=
  match servers, clients with [], [] => (StatusNotReady, gatewayMissing) | _, _ => (StatusReady, gatewayPresent) end.
Definition handleGatewaysStatus (exc : exceptions) : F exceptions :=
  let servers := items (v_servers view) in
  let clients := items (v_clients view) in
  _ ← gateway_condition NetworkGatewayServerStatusCondition servers;
  _ ← gateway_condition NetworkGatewayClientStatusCondition clients;
  mret (exc ++ [(NetworkGatewayPresenceCondition, gateway_presence servers clients)]).

Definition is_connected (c : ConnectionStatus) : bool := match c with Connected => true | _ => false end.
Definition is_connecting (c : ConnectionStatus) : bool := match c with Connecting => true | _ => false end.
Definition handleConnectionStatus (exc : exceptions) : F exceptions :=
  match v_connections view with
  | Err e => fail e
  | Ok [] =>
    _ ← delete_net NetworkConnectionStatusCondition;
    mret (exc ++ [(NetworkConnectionStatusCondition, (StatusNotReady, connectionMissing))])
  | Ok l =>
    _ ← enable_net;
    _ ← (if existsb is_connected l then ensure_net NetworkConnectionStatusCondition StatusEstablished connectionEstablished
         else if existsb is_connecting l then ensure_net NetworkConnectionStatusCondition StatusPending connectionPending
         else ensure_net NetworkConnectionStatusCondition StatusError connectionError);
    mret exc
  end.

(** The exceptions are written in the order the map is visited. *)
Fixpoint write_exceptions (l : exceptions) : F () :=
  match l with
  | [] => mret ()
  | (t, (st, why)) :: l => _ ← ensure_net t st why; write_exceptions l
  end.
Definition write_if_enabled (l : exceptions) : F () := fun w =>
  if md_Enabled (Networking (s_status w)) then write_exceptions l w else Ret (w, Ok ()).
Definition handleNetworkingModuleStatus (moduleEnabled : bool) : F () :=
  if negb moduleEnabled then upd (fun s => set_networking s clearModule)
  else
    exc ← handleNetworkConfigurationStatus;
    exc ← handleGatewaysStatus exc;
    exc ← handleConnectionStatus exc;
    write_if_enabled (visit exc).

(** Whether the cluster consumes and whether it provides; the flags are not used
    after an error. *)
Definition consumer_part : F bool :=
  match GetTenantByClusterID (v_tenants view) with
  | Err NotFound => _ ← delete_auth AuthTenantStatusCondition; mret false
  | Err e => fail e
  | Ok t =>
    _ ← enable_auth;
    _ ← (if bool_decide (tn_TenantNamespace t = ""%string) then mret ()
         else upd (fun s => set_tenants s (tn_TenantNamespace t) (TenantRemote s)));
    let expectKeysExchange := negb (bool_decide (GetAuthzPolicyValue (tn_AuthzPolicy t) = TolerateNoHandshake)) in
    _ ← (if (expectKeysExchange && negb (bool_decide (is_Some (tn_AuthParams t)))) || bool_decide (tn_TenantNamespace t = ""%string)
         then ensure_auth AuthTenantStatusCondition StatusNotReady tenantNotReady
         else ensure_auth AuthTenantStatusCondition StatusReady tenantReady);
    mret true
  end.
Definition non_empty (o : option string) (old : string) : string :=
  match o with Some x => if bool_decide (x = ""%string) then old else x | None => old end.
Definition provider_part : F bool :=
  match GetControlPlaneIdentityByClusterID (v_identities view) with
  | Err NotFound =>
    _ ← delete_auth AuthIdentityControlPlaneStatusCondition;
    match v_config view "" with
    | Err NotFound => mret false
    | Err e => fail e
    | Ok cfg => _ ← enable_auth; _ ← upd (fun s => set_urls s (rc_Host cfg) (ForeignProxyURL s)); mret true
    end
  | Err e => fail e
  | Ok i =>
    _ ← enable_auth;
    _ ← upd (fun s => set_urls s (non_empty (Some (fi_APIServer i)) (APIServerURL s)) (non_empty (fi_ProxyURL i) (ForeignProxyURL s)));
    _ ← upd (fun s => set_tenants s (fi_Namespace i) (non_empty (fi_RemoteNamespace i) (TenantRemote s)));
    _ ← (if bool_decide (default ""%string (fi_Secret i) = ""%string)
         then ensure_auth AuthIdentityControlPlaneStatusCondition StatusNotReady identityNotReady
         else ensure_auth AuthIdentityControlPlaneStatusCondition StatusReady identityReady);
    mret true
  end.
Definition handleAuthenticationModuleStatus (moduleEnabled : bool) : F (bool * bool) :=
  if negb moduleEnabled then _ ← upd (fun s => set_authentication s clearModule); mret (false, false)
  else consumer ← consumer_part; provider ← provider_part; mret (consumer, provider).

Fixpoint count_ready (l : list VirtualNode) (readyVirtualNodes readyNodes : nat) : F (nat * nat) :=
  match l with
  | [] => mret (readyVirtualNodes, readyNodes)
  | vn :: l =>
    match v_vkpods view vn with
    | Err e => fail e
    | Ok pods =>
      let rv := if allPodsReady pods then S readyVirtualNodes else readyVirtualNodes in
      match GetNodeFromVirtualNode (v_nodes view) vn with
      | Err NotFound => count_ready l rv readyNodes
      | Err e => fail e
      | Ok node => count_ready l rv (if IsNodeReady node then S readyNodes else readyNodes)
      end
    end
  end.
Definition handleOffloadingModuleStatus (moduleEnabled : bool) (provider : bool) : F bool :=
  if negb moduleEnabled then _ ← upd (fun s => set_offloading s clearModule); mret provider
  else
    match v_vnodes view with
    | Err e => fail e
    | Ok [] =>
      _ ← delete_off OffloadingVirtualNodeStatusCondition;
      _ ← delete_off OffloadingNodeStatusCondition;
      mret provider
    | Ok l =>
      _ ← enable_off;
      '(rv, rn) ← count_ready l 0 0;
      _ ← (if (rv =? List.length l)%nat then ensure_off OffloadingVirtualNodeStatusCondition StatusReady virtualNodesReady
           else if (rv =? 0)%nat then ensure_off OffloadingVirtualNodeStatusCondition StatusNotReady virtualNodesNotReady
           else ensure_off OffloadingVirtualNodeStatusCondition StatusSomeNotReady virtualNodesSomeNotReady);
      _ ← (if (rn =? expectedNodes l)%nat then ensure_off OffloadingNodeStatusCondition StatusReady nodesReady
           else if (rn =? 0)%nat then ensure_off OffloadingNodeStatusCondition StatusNotReady nodesNotReady
           else ensure_off OffloadingNodeStatusCondition StatusSomeNotReady nodesSomeNotReady);
      mret true
    end.

(** The part of a reconciliation between the reading of the object and the API
    server checker. *)
Definition update_modules (net auth off : bool) : F () :=
  _ ← upd clearStatusExceptConditions;
  _ ← handleNetworkingModuleStatus net;
  '(consumer, provider) ← handleAuthenticationModuleStatus auth;
  provider ← handleOffloadingModuleStatus off provider;
  upd (SetRole consumer provider).
End status.

(** ** The controller and the API server checker (foreigncluster_controller.go, apiserverchecker.go) *)

Definition apiServerCheckerFinalizer : string := "api-server-checker.liqo.io/finalizer".
Record reconciler := mkReconciler {
  NetworkingEnabled : bool; AuthenticationEnabled : bool; OffloadingEnabled : bool; pingInterval : Z
}.
(** A server, and the certificates of the checkers that run. *)
Record fcworld (X : Type) := mkFcworld { fw_api : X; fw_checkers : gmap string string; fw_tick : nat }.
Arguments mkFcworld {X}.
Arguments fw_api {X}.
Arguments fw_checkers {X}.
Arguments fw_tick {X}.

Section controller.
Context {X : Type} (update update_status create : ForeignCluster → X → X * result kerr ()).
Context (list_fc : string → X → result kerr (list ForeignCluster)).
Context (clock : nat → Z) (visit : exceptions → exceptions).
Notation C := (K (fcworld X)).

Definition call_api (f : X → X * result kerr ()) : C () := fun w =>
  let '(x, r) := f (fw_api w) in Ret (mkFcworld x (fw_checkers w) (fw_tick w), r).
Definition set_checkers (f : gmap string string → gmap string string) : C () := fun w =>
  Ret (mkFcworld (fw_api w) (f (fw_checkers w)) (fw_tick w), Ok ()).
Definition get_checkers : C (gmap string string) := fun w => Ret (w, Ok (fw_checkers w)).
(** The handlers of the status, on the status of an object. *)
Definition on_status {A} (m : K fcst A) (fc : ForeignCluster) : C (ForeignCluster * result kerr A) := fun w =>
  match m (mkFcst (fc_Status fc) (fw_tick w)) with
  | Ret (s, r) => Ret (mkFcworld (fw_api w) (fw_checkers w) (s_tick s), Ok (set_fc_status fc (s_status s), r))
  | Panic => Panic
  | Diverge => Diverge
  end.
Definition ensure_generic (t : ConditionType) (st : ConditionStatusType) (why : string * string) (fc : ForeignCluster) : C ForeignCluster := fun w =>
  let '(l, b) := ensureCondition (clock (fw_tick w)) t st why (fs_Conditions (fc_Status fc)) in
  Ret (mkFcworld (fw_api w) (fw_checkers w) (if b then S (fw_tick w) else fw_tick w), Ok (set_fc_status fc (set_generic (fc_Status fc) l))).

Definition has_finalizer (fc : ForeignCluster) : bool := bool_decide (apiServerCheckerFinalizer ∈ fc_Finalizers fc).
Definition ensureFinalizer_add (fc : ForeignCluster) : C () :=
  if has_finalizer fc then mret ()
  else call_api (update (set_fc_finalizers fc (fc_Finalizers fc ++ [apiServerCheckerFinalizer]))).
Definition ensureFinalizer_remove (fc : ForeignCluster) : C () :=
  if has_finalizer fc
  then call_api (update (set_fc_finalizers fc (List.filter (fun f => negb (bool_decide (f = apiServerCheckerFinalizer))) (fc_Finalizers fc))))
  else mret ().

(** Whether the reconciliation goes on, with the object. *)
Definition remove_if_present (fc : ForeignCluster) : C (bool * ForeignCluster) :=
  if has_finalizer fc then _ ← ensureFinalizer_remove fc; mret (false, fc) else mret (true, fc).
Definition handleAPIServerChecker (r : reconciler) (config : string → result kerr RestConfig) (fc : ForeignCluster) : C (bool * ForeignCluster) :=
  let st := fc_Status fc in
  let needCondition := negb (bool_decide (APIServerURL st = ""%string)) || negb (bool_decide (ForeignProxyURL st = ""%string)) in
  if needCondition && (pingInterval r =? 0) then
    fc ← ensure_generic APIServerStatusCondition StatusEstablished apiServerReady fc;
    remove_if_present fc
  else
    checkers ← get_checkers;
    if negb needCondition || fc_Deleting fc then
      _ ← set_checkers (delete (fc_ClusterID fc));
      remove_if_present (set_fc_status fc (set_generic st (deleteCondition (fs_Conditions st) APIServerStatusCondition)))
    else
      match config (TenantLocal st) with
      | Err e => fail e
      | Ok cfg =>
        let running := (checkers : gmap string string) !! fc_ClusterID fc in
        if bool_decide (running = Some (rc_CertData cfg)) then mret (true, fc)
        else
          _ ← set_checkers (delete (fc_ClusterID fc));
          _ ← ensureFinalizer_add fc;
          _ ← set_checkers (<[fc_ClusterID fc := rc_CertData cfg]>);
          mret (false, fc)
      end.

(** The deferred status update replaces the error when it fails itself; after the
    checker it is made only when the reconciliation goes on. *)
Definition FcReconcile (r : reconciler) (view : fc_view) (got : result kerr ForeignCluster) : C () :=
  match got with
  | Err NotFound => mret ()
  | Err e => fail e
  | Ok fc =>
    if bool_decide (fc_ClusterID fc = ""%string) then fail OtherErr
    else
      '(fc, res) ← on_status (update_modules clock view visit (NetworkingEnabled r) (AuthenticationEnabled r) (OffloadingEnabled r)) fc;
      match (res : result kerr ()) with
      | Err e => _ ← call_api (update_status fc); fail e
      | Ok _ =>
        '(cont, fc) ← handleAPIServerChecker r (v_config view) fc;
        if (cont : bool) then call_api (update_status (set_fc_status fc (set_observed (fc_Status fc) (fc_Generation fc)))) else mret ()
      end
  end.

(** One turn of a running checker. *)
Definition checker_turn (clusterID : string) (ready : bool) : C () := fun w =>
  match list_fc clusterID (fw_api w) with
  | Err _ => Ret (w, Ok ())
  | Ok l =>
    match getForeignCluster l with
    | Err _ => Ret (w, Ok ())
    | Ok fc =>
      let '(newStatus, why) := if ready then (StatusEstablished, apiServerReady) else (StatusError, apiServerNotReady) in
      if bool_decide (GetAPIServerStatus (fc_Status fc) = newStatus) then Ret (w, Ok ())
      else
        (fc ← ensure_generic APIServerStatusCondition newStatus why fc;
         r ← attempt (call_api (update_status fc));
         mret ()) w
    end
  end.

(** What an object with a label makes of its ForeignCluster: created when there is
    none, otherwise reconciled.  The server sets times, versions and the default role. *)
Definition foreignclusterEnqueuer (objLabels : labels) : C (option string) :=
  match objLabels !! RemoteClusterIDKey with
  | None => mret None
  | Some id => fun w =>
    match list_fc id (fw_api w) with
    | Err _ => Ret (w, Ok None)
    | Ok l =>
      match getForeignCluster l with
      | Ok fc => Ret (w, Ok (Some (fc_Name fc)))
      | Err NotFound =>
        (r ← attempt (call_api (create (mkFc id {[ RemoteClusterIDKey := id ]} ∅ [] false 1 0 0 id
             (mkFcStatus 0 UnknownRole clearModule clearModule clearModule "" "" "" "" []))));
         mret None) w
      | Err _ => Ret (w, Ok None)
      end
    end
  end.
End controller.
