(* ===== verification/ForeignClusterProps.v ===== *)
(** * ForeignClusterProps: the conditions of a peering, and who checks its API server

    What a reconciliation writes is a function of what it lists, not of the history;
    a second one changes nothing unless something is missing; a checker runs only
    while a finalizer keeps its ForeignCluster.  A listing that fails leaves the
    modules marked as disabled. *)

From S2P Require Import KubeClient ForeignCluster.
Local Open Scope Z_scope.

#[export] Instance result_eq_dec {E A} `{EqDecision E, EqDecision A} : EqDecision (result E A).
Proof. solve_decision. Defined.

(** ** Conditions *)

(** The status and the explanation a list gives for a type. *)
Definition said (l : list Condition) (t : ConditionType) : option (ConditionStatusType * (string * string)) :=
  (fun c => (cd_Status c, (cd_Reason c, cd_Message c))) <$> findCondition l t.

Lemma said_cons c l t : said (c :: l) t = if decide (cd_Type c = t) then Some (cd_Status c, (cd_Reason c, cd_Message c)) else said l t.
Proof. unfold said, findCondition. cbn. case_decide; [by rewrite bool_decide_true|by rewrite bool_decide_false]. Qed.
Arguments said : simpl never.
Arguments findCondition : simpl never.
Arguments deleteCondition : simpl never.
Lemma GetStatus_said l t : GetStatus l t = default StatusNone (fst <$> said l t).
Proof. unfold GetStatus, said. by destruct (findCondition l t). Qed.
Lemma said_ensure now t st why l t' :
  said (ensureCondition now t st why l).1 t' = if decide (t = t') then Some (st, why) else said l t'.
Proof.
  destruct why as [rs ms]. induction l as [|c l IH]; [cbn [ensureCondition fst]; by rewrite said_cons|]. cbn [ensureCondition].
  destruct (decide (cd_Type c = t)) as [<-|Hne].
  - rewrite bool_decide_true by done. destruct (_ || _) eqn:E; cbn; rewrite !said_cons; [by repeat case_decide|]. cbn.
    apply orb_false_iff in E as [[H1 H2]%orb_false_iff H3]. rewrite negb_false_iff, bool_decide_eq_true in H1, H2, H3.
    cbn in *. subst. repeat case_decide; congruence.
  - rewrite bool_decide_false by done. destruct (ensureCondition now t st (rs, ms) l) as [l' b]. cbn in *.
    rewrite !said_cons, IH. repeat case_decide; congruence.
Qed.
Lemma ensure_noop now t st why l : said l t = Some (st, why) → ensureCondition now t st why l = (l, false).
Proof.
  destruct why as [rs ms]. induction l as [|c l IH]; [done|]. rewrite said_cons. cbn. case_decide as Ht.
  - intros [= -> -> ->]. rewrite (bool_decide_true (cd_Type c = t)), !bool_decide_true by done. done.
  - rewrite bool_decide_false by done. intros H. by rewrite (IH H).
Qed.
Lemma deleteCondition_cons c l t :
  deleteCondition (c :: l) t = if decide (cd_Type c = t) then deleteCondition l t else c :: deleteCondition l t.
Proof. unfold deleteCondition. cbn. case_decide; [by rewrite bool_decide_true|by rewrite bool_decide_false]. Qed.
Lemma said_delete t l t' : said (deleteCondition l t) t' = if decide (t = t') then None else said l t'.
Proof.
  induction l as [|c l IH]; [by case_decide|]. rewrite deleteCondition_cons.
  repeat (case_decide || rewrite said_cons || rewrite IH); congruence.
Qed.
Lemma delete_noop t l : said l t = None → deleteCondition l t = l.
Proof.
  induction l as [|c l IH]; [done|]. rewrite said_cons, deleteCondition_cons. case_decide; [done|]. intros Hs. by rewrite (IH Hs).
Qed.
Lemma find_cons c l t : findCondition (c :: l) t = if decide (cd_Type c = t) then Some c else findCondition l t.
Proof. unfold findCondition. cbn. case_decide; [by rewrite bool_decide_true|by rewrite bool_decide_false]. Qed.
Lemma said_find l t : said l t = None → findCondition l t = None.
Proof. unfold said. by destruct (findCondition l t). Qed.
Lemma find_ensure now t st why l t' c : findCondition (ensureCondition now t st why l).1 t' = Some c →
  findCondition l t' = Some c ∨ (t = t' ∧ (ensureCondition now t st why l).2 = true ∧ cd_Time c = now).
Proof.
  induction l as [|d l IH]; cbn [ensureCondition].
  - cbn [fst snd]. rewrite find_cons. cbn [cd_Type]. case_decide; [intros [= <-]; auto|done].
  - destruct (bool_decide_reflect (cd_Type d = t)) as [<-|Hne].
    + destruct (_ || _); cbn [fst snd]; [|auto]. rewrite !find_cons. cbn [cd_Type]. case_decide; [intros [= <-]; auto|auto].
    + destruct (ensureCondition now t st why l) as [l' b]. cbn [fst snd] in *. rewrite !find_cons. case_decide; auto.
Qed.

(** ** What the modules should say *)

Section spec.
Context (view : fc_view).

Definition servers := items (v_servers view).
Definition clients := items (v_clients view).
Definition connections : list ConnectionStatus := match v_connections view with Ok l => l | Err _ => [] end.
Definition net_enabled : bool :=
  bool_decide (v_configurations view = Ok 1%nat) || negb (bool_decide (servers = [])) || negb (bool_decide (clients = [])) ||
  match connections with [] => false | _ => true end.
Definition deployments_say (l : list (string * string)) : option (ConditionStatusType * (string * string)) :=
  match l with
  | [] => None
  | _ =>
    let ready gw := bool_decide (isGatewayDeploymentReady view gw = Ok true) in
    Some (if forallb ready l then (StatusReady, gatewaysReady)
          else if existsb ready l then (StatusSomeNotReady, gatewaySomeNotReady) else (StatusNotReady, gatewaysNotReady))
  end.
Definition is_net (t : ConditionType) : bool :=
  match t with
  | NetworkConfigurationStatusCondition | NetworkConnectionStatusCondition | NetworkGatewayPresenceCondition
  | NetworkGatewayServerStatusCondition | NetworkGatewayClientStatusCondition => true
  | _ => false
  end.
(** The conditions of the networking module.  When nothing enables it there is none,
    except for the presence of a gateway, which stays as it was. *)
Definition net_says (old : list Condition) (t : ConditionType) : option (ConditionStatusType * (string * string)) :=
  if negb net_enabled then if decide (t = NetworkGatewayPresenceCondition) then said old t else None
  else match t with
  | NetworkConfigurationStatusCondition =>
    Some (if bool_decide (v_configurations view = Ok 1%nat) then (StatusReady, networkConfigurationPresence) else (StatusNotReady, networkConfigurationMissing))
  | NetworkGatewayPresenceCondition =>
    Some (if bool_decide (servers = []) && bool_decide (clients = []) then (StatusNotReady, gatewayMissing) else (StatusReady, gatewayPresent))
  | NetworkGatewayServerStatusCondition => deployments_say servers
  | NetworkGatewayClientStatusCondition => deployments_say clients
  | NetworkConnectionStatusCondition =>
    Some (match connections with
          | [] => (StatusNotReady, connectionMissing)
          | l => if existsb is_connected l then (StatusEstablished, connectionEstablished)
                 else if existsb is_connecting l then (StatusPending, connectionPending) else (StatusError, connectionError)
          end)
  | _ => None
  end.
End spec.

(** ** Runs that succeed *)

Definition runs {W A} (m : K W A) (w : W) (Q : A → W → Prop) : Prop :=
  match m w with Ret (w', Ok a) => Q a w' | _ => False end.
Lemma runs_ret {W A} (a : A) (w : W) (Q : A → W → Prop) : Q a w → runs (mret a) w Q.
Proof. done. Qed.
Lemma runs_bind {W A B} (m : K W A) (f : A → K W B) w (Q : B → W → Prop) :
  runs m w (fun a w' => runs (f a) w' Q) → runs (m ≫= f) w Q.
Proof. unfold runs, mbind, K_bind. by destruct (m w) as [[w' [a|e]]| |]. Qed.
Lemma runs_mono {W A} (m : K W A) w (Q Q' : A → W → Prop) : runs m w Q → (∀ a w', Q a w' → Q' a w') → runs m w Q'.
Proof. unfold runs. destruct (m w) as [[w' [a|e]]| |]; auto. Qed.
Lemma runs_inv {W A} (m : K W A) w Q : runs m w Q → ∃ a w', m w = Ret (w', Ok a) ∧ Q a w'.
Proof. unfold runs. destruct (m w) as [[w' [a|e]]| |]; [eauto|done..]. Qed.
Lemma runs_of {W A} (m : K W A) w a w' Q : m w = Ret (w', Ok a) → Q a w' → runs m w Q.
Proof. unfold runs. by intros ->. Qed.

Section modules.
Context (clock : nat → Z) (view : fc_view) (visit : exceptions → exceptions).
Hypothesis visit_perm : ∀ l, visit l ≡ₚ l.

Notation says := (ConditionType → option (ConditionStatusType * (string * string))).
Definition put (t : ConditionType) (x : option (ConditionStatusType * (string * string))) (sy : says) : says :=
  fun t' => if decide (t = t') then x else sy t'.
(** Only the networking module of [s0] has changed. *)
Definition Net (s0 : FcStatus) (en : bool) (sy : says) (w : fcst) : Prop :=
  ∃ m, s_status w = set_networking s0 m ∧ md_Enabled m = en ∧ ∀ t, said (md_Conditions m) t = sy t.

Lemma Net_enable s0 en sy w : Net s0 en sy w → runs enable_net w (fun _ => Net s0 true sy).
Proof. intros (m & E & He & Hs). cbn. eexists. rewrite E. cbn. split; [reflexivity|]. done. Qed.
Lemma Net_ensure s0 en sy w t st why : Net s0 en sy w → runs (ensure_net clock t st why) w (fun _ => Net s0 en (put t (Some (st, why)) sy)).
Proof.
  intros (m & E & He & Hs). unfold runs, ensure_net, ensure. rewrite E. cbn.
  destruct (ensureCondition _ t st why (md_Conditions m)) as [l b] eqn:El. eexists. cbn. split; [reflexivity|]. split; [done|].
  intros t'. cbn. unfold put. rewrite <- Hs, <- (said_ensure (clock (s_tick w)) t st why). by rewrite El.
Qed.
Lemma Net_delete s0 en sy w t : Net s0 en sy w → runs (delete_net t) w (fun _ => Net s0 en (put t None sy)).
Proof.
  intros (m & E & He & Hs). cbn. rewrite E. cbn. eexists. split; [reflexivity|]. split; [done|]. intros t'. cbn. unfold put. by rewrite said_delete, Hs.
Qed.
Lemma Net_ext s0 en en' sy sy' w : Net s0 en sy w → en = en' → (∀ t, sy t = sy' t) → Net s0 en' sy' w.
Proof. intros (m & E & He & Hs) -> Hsy. exists m. split; [done|]. split; [done|]. intros t. by rewrite Hs. Qed.

Lemma checkDeployments_spec l a b :
  let ready gw := bool_decide (isGatewayDeploymentReady view gw = Ok true) in
  checkDeployments view l a b = (a && forallb ready l, negb (a && forallb ready l) && (b || existsb ready l)).
Proof.
  revert a b. induction l as [|gw l IH]; intros a b ready; cbn; [by rewrite andb_true_r, orb_false_r|].
  unfold ready. destruct (isGatewayDeploymentReady view gw) as [[|]|e] eqn:E; rewrite IH; cbn.
  - rewrite bool_decide_true by done. cbn. by rewrite orb_true_r.
  - rewrite bool_decide_false by done. cbn. by rewrite andb_false_r.
  - rewrite bool_decide_false by done. cbn. by rewrite andb_false_r.
Qed.
Lemma Net_gateways s0 en sy w t l : Net s0 en sy w →
  runs (gateway_condition clock view t l) w (fun _ => Net s0 (en || negb (bool_decide (l = []))) (put t (deployments_say view l) sy)).
Proof.
  intros H. destruct l as [|gw l]; cbn [gateway_condition].
  { rewrite (bool_decide_true ([] = [])), orb_false_r by done. by apply Net_delete. }
  apply runs_bind. eapply runs_mono; [by eapply Net_enable|]. intros [] w1 H1. rewrite bool_decide_false, orb_true_r by done.
  unfold checkGwDeploymentsReady. rewrite checkDeployments_spec. cbn [andb orb negb]. unfold deployments_say.
  destruct (forallb _ _); cbn [negb andb]; [by apply Net_ensure|]. destruct (existsb _ _); cbn [negb andb]; by apply Net_ensure.
Qed.
Definition exc_says (l : exceptions) (t : ConditionType) : option (ConditionStatusType * (string * string)) :=
  snd <$> List.find (fun x => bool_decide (x.1 = t)) l.
Lemma exc_says_in l t x : NoDup l.*1 → exc_says l t = Some x ↔ (t, x) ∈ l.
Proof.
  unfold exc_says. induction l as [|[t1 x1] l IH]; cbn; [by rewrite elem_of_nil|]. intros [Hn Hd]%NoDup_cons. rewrite elem_of_cons.
  destruct (decide (t1 = t)) as [->|Hne].
  - rewrite bool_decide_true by done. split; [intros [= ->]; by left|]. intros [[= ->]|Hin]; [done|]. destruct Hn. apply list_elem_of_fmap. by exists (t, x).
  - rewrite bool_decide_false, IH by done. naive_solver.
Qed.
Lemma exc_says_perm l l' t : l ≡ₚ l' → NoDup l.*1 → exc_says l t = exc_says l' t.
Proof.
  intros Hp Hd. apply option_eq. intros x. rewrite !exc_says_in; [|by rewrite <- Hp|done]. by rewrite Hp.
Qed.
Lemma Net_exceptions s0 en l : NoDup l.*1 → ∀ sy w, Net s0 en sy w →
  runs (write_exceptions clock l) w (fun _ => Net s0 en (fun t => match exc_says l t with Some x => Some x | None => sy t end)).
Proof.
  induction l as [|[t [st why]] l IH]; intros Hd sy w H; [exact H|]. apply NoDup_cons in Hd as [Hn Hd].
  apply runs_bind. eapply runs_mono; [by eapply Net_ensure|]. intros [] w1 H1. eapply runs_mono; [by eapply IH|].
  intros [] w2 H2. eapply Net_ext; [exact H2|done|]. intros t'. cbn beta. unfold put, exc_says at 2. cbn.
  destruct (decide (t = t')) as [<-|Hne].
  - rewrite bool_decide_true by done. cbn. destruct (exc_says l t) as [x|] eqn:E; [|done]. apply exc_says_in in E; [|done].
    destruct Hn. apply list_elem_of_fmap. by exists (t, x).
  - by rewrite bool_decide_false by done.
Qed.

(** The listings of the networking module could be read. *)
Definition net_readable : Prop := (∃ n, v_configurations view = Ok n ∧ (n ≤ 1)%nat) ∧ is_ok (v_connections view) = true.
Definition has_config : bool := bool_decide (v_configurations view = Ok 1%nat).
Lemma Net_config s0 en sy w : net_readable → Net s0 en sy w →
  runs (handleNetworkConfigurationStatus clock view) w (fun exc w' =>
    exc = (if has_config then [] else [(NetworkConfigurationStatusCondition, (StatusNotReady, networkConfigurationMissing))]) ∧
    Net s0 (en || has_config) (put NetworkConfigurationStatusCondition
      (if has_config then Some (StatusReady, networkConfigurationPresence) else None) sy) w').
Proof.
  intros [(n & E & Hn) _] H. unfold handleNetworkConfigurationStatus, has_config. rewrite E.
  destruct n as [|[|n]]; [| |lia]; cbn [GetConfigurationByClusterID]; apply runs_bind.
  - rewrite bool_decide_false, orb_false_r by done. eapply runs_mono; [by eapply Net_delete|]. intros [] w1 H1. by apply runs_ret.
  - rewrite bool_decide_true, orb_true_r by done. eapply runs_mono; [by eapply Net_enable|]. intros [] w1 H1.
    apply runs_bind. eapply runs_mono; [by eapply Net_ensure|]. intros [] w2 H2. by apply runs_ret.
Qed.
Lemma Net_connection s0 en sy w exc : net_readable → Net s0 en sy w →
  runs (handleConnectionStatus clock view exc) w (fun exc' w' => ∃ x,
    Net s0 (en || match connections view with [] => false | _ => true end) (put NetworkConnectionStatusCondition x sy) w' ∧
    match connections view with
    | [] => x = None ∧ exc' = exc ++ [(NetworkConnectionStatusCondition, (StatusNotReady, connectionMissing))]
    | l => x = Some (if existsb is_connected l then (StatusEstablished, connectionEstablished)
                     else if existsb is_connecting l then (StatusPending, connectionPending) else (StatusError, connectionError)) ∧ exc' = exc
    end).
Proof.
  intros [_ Hc] H. unfold handleConnectionStatus, connections. destruct (v_connections view) as [[|c l]|]; [| |done]; apply runs_bind.
  - rewrite orb_false_r. eapply runs_mono; [by eapply Net_delete|]. intros [] w1 H1. by eexists.
  - rewrite orb_true_r. eapply runs_mono; [by eapply Net_enable|]. intros [] w1 H1. apply runs_bind.
    destruct (existsb is_connected _); [|destruct (existsb is_connecting _)];
      (eapply runs_mono; [by eapply Net_ensure|]; intros [] w2 H2; by eexists).
Qed.

Lemma networking_says s0 w : net_readable → s_status w = s0 → md_Enabled (Networking s0) = false →
  runs (handleNetworkingModuleStatus clock view visit true) w (fun _ w' => ∃ m, s_status w' = set_networking s0 m ∧
    md_Enabled m = net_enabled view ∧
    ∀ t, is_net t = true →
      said (md_Conditions m) t = net_says view (md_Conditions (Networking s0)) t).
Proof.
  intros Hr Hw Hen. assert (H : Net s0 false (said (md_Conditions (Networking s0))) w) by (exists (Networking s0); subst; by destruct s_status).
  cbn [handleNetworkingModuleStatus negb]. apply runs_bind. eapply runs_mono; [by eapply Net_config|]. intros exc w1 [-> H1].
  apply runs_bind. unfold handleGatewaysStatus. apply runs_bind. eapply runs_mono; [by eapply Net_gateways|]. intros [] w2 H2.
  apply runs_bind. eapply runs_mono; [by eapply Net_gateways|]. intros [] w3 H3. apply runs_ret.
  apply runs_bind. eapply runs_mono; [by eapply Net_connection|]. intros exc w4 (x & H4 & Hx).
  assert (Hen4 : (false || has_config || negb (bool_decide (items (v_servers view) = [])) || negb (bool_decide (items (v_clients view) = [])) ||
    match connections view with [] => false | _ => true end) = net_enabled view) by reflexivity.
  rewrite Hen4 in H4. clear Hen4 H H1 H2 H3. unfold write_if_enabled, runs. destruct H4 as (m & E & He & Hs). rewrite E. cbn [Networking set_networking].
  rewrite He. destruct (net_enabled view) eqn:Hne.
  2: { exists m. split; [done|]. split; [done|]. intros t Ht. rewrite Hs. unfold net_says. rewrite Hne. cbn [negb].
    unfold net_enabled in Hne. apply orb_false_iff in Hne as [[[Hc Hsv]%orb_false_iff Hcl]%orb_false_iff Hcn].
    unfold has_config. rewrite Hc. apply negb_false_iff, bool_decide_eq_true in Hsv, Hcl. unfold servers, clients in *. rewrite Hsv, Hcl.
    destruct (connections view); [|done]. destruct Hx as [-> _]. clear -Ht. unfold put. cbn.
    destruct t; try discriminate Ht; reflexivity. }
  match goal with |- context [write_exceptions clock (visit ?l)] => set (exc0 := l) in * end.
  assert (Hd : NoDup (visit exc0).*1).
  { rewrite visit_perm. subst exc0. destruct (connections view) as [|c l]; destruct Hx as [_ ->]; destruct has_config; cbn;
      repeat (apply NoDup_cons; split; [set_solver|]); apply NoDup_nil_2. }
  pose proof (Net_exceptions s0 true (visit exc0) Hd _ w4 (ex_intro _ m (conj E (conj He Hs)))) as Hw5.
  eapply runs_mono; [exact Hw5|]. intros [] w5 (m' & E' & He' & Hs'). exists m'. split; [done|]. split; [done|]. intros t Ht.
  rewrite Hs'. rewrite (exc_says_perm (visit exc0) exc0) by done. unfold net_says. rewrite Hne. cbn [negb]. subst exc0. unfold put, exc_says, has_config.
  destruct (connections view) as [|c l]; destruct Hx as [-> ->]; unfold has_config, servers, clients; destruct (bool_decide (v_configurations view = Ok 1%nat));
    destruct t; try discriminate Ht; try reflexivity; by destruct (items (v_servers view)), (items (v_clients view)).
Qed.

(** ** The other modules and the role *)

Definition readable : Prop :=
  net_readable ∧ (∃ l, v_tenants view = Ok l ∧ (List.length l ≤ 1)%nat) ∧
  (∃ l, v_identities view = Ok l ∧ (List.length (List.filter is_control_plane l) ≤ 1)%nat) ∧
  (∀ e, v_config view "" = Err e → e = NotFound) ∧ is_ok (v_vnodes view) = true ∧
  (∀ vn, is_ok (v_vkpods view vn) = true) ∧ (∀ c e, v_nodes view c = Err e → e = NotFound).
Definition is_consumer : bool := match v_tenants view with Ok (_ :: _) => true | _ => false end.
Definition is_provider : bool :=
  match v_identities view with Ok l => existsb is_control_plane l | Err _ => false end || is_ok (v_config view "") ||
  match v_vnodes view with Ok (_ :: _) => true | _ => false end.
Definition offers_nodes : bool := match v_vnodes view with Ok (_ :: _) => true | _ => false end.

(** The tenant and the control plane identity of the cluster, when there are. *)
Definition the_tenant : option Tenant := match v_tenants view with Ok [t] => Some t | _ => None end.
Definition the_identity : option Identity := match v_identities view with Ok l => head (List.filter is_control_plane l) | Err _ => None end.
Definition auth_enabled : bool := is_consumer || bool_decide (is_Some the_identity) || is_ok (v_config view "").
(** A tenant is configured when it has a namespace and has sent its key, unless it need not. *)
Definition tenant_configured (t : Tenant) : Prop :=
  tn_TenantNamespace t ≠ ""%string ∧ (GetAuthzPolicyValue (tn_AuthzPolicy t) = TolerateNoHandshake ∨ is_Some (tn_AuthParams t)).
#[local] Instance tenant_configured_dec t : Decision (tenant_configured t).
Proof. unfold tenant_configured. apply _. Defined.
Definition is_auth (t : ConditionType) : bool :=
  match t with AuthTenantStatusCondition | AuthIdentityControlPlaneStatusCondition => true | _ => false end.
Definition auth_says (t : ConditionType) : option (ConditionStatusType * (string * string)) :=
  match t with
  | AuthTenantStatusCondition =>
    (fun tn => if bool_decide (tenant_configured tn) then (StatusReady, tenantReady) else (StatusNotReady, tenantNotReady)) <$> the_tenant
  | AuthIdentityControlPlaneStatusCondition =>
    (fun i => if bool_decide (default ""%string (fi_Secret i) = ""%string) then (StatusNotReady, identityNotReady) else (StatusReady, identityReady)) <$> the_identity
  | _ => None
  end.

(** A virtual node works when its pods are ready; its node is there when the cluster
    has one of its name, and it is ready. *)
Definition vnode_ready (vn : VirtualNode) : bool := match v_vkpods view vn with Ok pods => forallb IsPodReady pods | Err _ => false end.
Definition listed_node_ready (vn : VirtualNode) : bool :=
  match v_nodes view (fv_ClusterID vn) with
  | Ok l => match List.find (fun n => bool_decide (n.1 = fv_Name vn)) l with Some n => IsNodeReady n.2 | None => false end
  | Err _ => false
  end.
Definition wants_node (vn : VirtualNode) : bool := bool_decide (fv_CreateNode vn = Some true).
Definition count {A} (f : A → bool) (l : list A) : nat := List.length (List.filter f l).
(** All, none or some: of the expected ones. *)
Definition counts_say (found expected : nat) (all none some : string * string) : ConditionStatusType * (string * string) :=
  if (found =? expected)%nat then (StatusReady, all) else if (found =? 0)%nat then (StatusNotReady, none) else (StatusSomeNotReady, some).
Definition is_off (t : ConditionType) : bool :=
  match t with OffloadingVirtualNodeStatusCondition | OffloadingNodeStatusCondition => true | _ => false end.
Definition off_says (t : ConditionType) : option (ConditionStatusType * (string * string)) :=
  match v_vnodes view, t with
  | Ok (vn :: l), OffloadingVirtualNodeStatusCondition =>
    Some (counts_say (count vnode_ready (vn :: l)) (List.length (vn :: l)) virtualNodesReady virtualNodesNotReady virtualNodesSomeNotReady)
  | Ok (vn :: l), OffloadingNodeStatusCondition =>
    Some (counts_say (count listed_node_ready (vn :: l)) (count wants_node (vn :: l)) nodesReady nodesNotReady nodesSomeNotReady)
  | _, _ => None
  end.

Lemma runs_upd f w (Q : () → fcst → Prop) : Q () (mkFcst (f (s_status w)) (s_tick w)) → runs (upd f) w Q.
Proof. done. Qed.
Lemma runs_ensure get set t st why w (Q : () → fcst → Prop) :
  (∀ m k, md_Enabled m = md_Enabled (get (s_status w)) →
     (∀ t', said (md_Conditions m) t' = put t (Some (st, why)) (said (md_Conditions (get (s_status w)))) t') → Q () (mkFcst (set (s_status w) m) k)) →
  runs (ensure clock get set t st why) w Q.
Proof.
  unfold runs, ensure. destruct (ensureCondition _ _ _ _ _) as [l b] eqn:E. intros H. apply H; [done|]. intros t'. unfold put.
  by rewrite <- (said_ensure (clock (s_tick w)) t st why), E.
Qed.

(** What is not about authentication. *)
Definition elsewhere_same (s s' : FcStatus) : Prop := Networking s' = Networking s ∧ Offloading s' = Offloading s.
Record authenticated (s s' : FcStatus) (en : bool) (t : ConditionType) (x : option (ConditionStatusType * (string * string))) : Prop := {
  au_same : elsewhere_same s s';
  au_enabled : md_Enabled (Authentication s') = md_Enabled (Authentication s) || en;
  au_said t' : said (md_Conditions (Authentication s')) t' = put t x (said (md_Conditions (Authentication s))) t'
}.
Lemma consumer_runs w : readable → TenantLocal (s_status w) = ""%string →
  runs (consumer_part clock view) w (fun b w' => let s := s_status w in let s' := s_status w' in
    b = is_consumer ∧ authenticated s s' is_consumer AuthTenantStatusCondition (auth_says AuthTenantStatusCondition) ∧
    TenantLocal s' = default ""%string (tn_TenantNamespace <$> the_tenant) ∧
    TenantRemote s' = TenantRemote s ∧ APIServerURL s' = APIServerURL s ∧ ForeignProxyURL s' = ForeignProxyURL s).
Proof.
  intros (_ & (l & E & Hl) & _) Ht. unfold consumer_part, is_consumer, auth_says, the_tenant. rewrite E.
  destruct l as [|tn [|tn' l]]; cbn [GetTenantByClusterID List.length] in *; [| |lia].
  { apply runs_bind, runs_upd, runs_ret. split; [done|]. split; [|by cbn]. split; [done|by rewrite orb_false_r|]. intros t'. cbn. by rewrite said_delete. }
  set (why := if (_ && _) || _ then ensure_auth clock AuthTenantStatusCondition StatusNotReady tenantNotReady else _).
  assert (Hwhy : why = ensure_auth clock AuthTenantStatusCondition (if bool_decide (tenant_configured tn) then StatusReady else StatusNotReady)
    (if bool_decide (tenant_configured tn) then tenantReady else tenantNotReady)).
  { unfold why. destruct (bool_decide_reflect (tenant_configured tn)) as [[Hn Hp]|Hn].
    - rewrite (bool_decide_eq_false_2 _ Hn), orb_false_r. destruct Hp as [Hp|Hp]; rewrite (bool_decide_eq_true_2 _ Hp); [done|by rewrite andb_false_r].
    - destruct (bool_decide_reflect (tn_TenantNamespace tn = ""%string)) as [_|Hx]; [by rewrite orb_true_r|]. rewrite !bool_decide_eq_false_2; [done|..]; intros ?; apply Hn; unfold tenant_configured; auto. }
  apply runs_bind, runs_upd, runs_bind.
  destruct (bool_decide_reflect (tn_TenantNamespace tn = ""%string)) as [Hx|Hx]; [apply runs_ret|apply runs_upd]; apply runs_bind; rewrite Hwhy; apply runs_ensure;
    intros m k Hm Hs; apply runs_ret; cbn in Hm, Hs |- *; (split; [done|]); (split; [|by rewrite ?Hx]);
    (split; [done|cbn; by rewrite orb_true_r|]); intros t'; cbn; rewrite Hs; by destruct (bool_decide (tenant_configured tn)).
Qed.
Lemma provider_runs w : readable → APIServerURL (s_status w) = ""%string → ForeignProxyURL (s_status w) = ""%string → TenantRemote (s_status w) = ""%string →
  runs (provider_part clock view) w (fun b w' => let s := s_status w in let s' := s_status w' in
    (b || offers_nodes) = is_provider ∧
    authenticated s s' (bool_decide (is_Some the_identity) || is_ok (v_config view "") && negb (bool_decide (is_Some the_identity)))
      AuthIdentityControlPlaneStatusCondition (auth_says AuthIdentityControlPlaneStatusCondition) ∧
    TenantLocal s' = default (TenantLocal s) (fi_Namespace <$> the_identity) ∧
    TenantRemote s' = default ""%string (the_identity ≫= fi_RemoteNamespace) ∧
    APIServerURL s' = match the_identity with Some i => fi_APIServer i | None => match v_config view "" with Ok cfg => rc_Host cfg | Err _ => ""%string end end ∧
    ForeignProxyURL s' = default ""%string (the_identity ≫= fi_ProxyURL)).
Proof.
  intros (_ & _ & (l & E & Hl) & Hc & _) H1 H2 H3. unfold provider_part, is_provider, GetControlPlaneIdentityByClusterID, the_identity, auth_says, the_identity. rewrite E.
  assert (Hex : existsb is_control_plane l = negb (bool_decide (List.filter is_control_plane l = []))).
  { clear. induction l as [|i l IH]; [done|]. cbn. destruct (is_control_plane i); [done|apply IH]. }
  assert (Hne : ∀ o, non_empty o "" = default ""%string o) by (by intros [[|]|]).
  destruct (List.filter is_control_plane l) as [|i [|i' l']] eqn:Ef; cbn [List.length] in Hl; [| |lia]; rewrite Hex; cbn [head].
  - apply runs_bind, runs_upd. rewrite (bool_decide_eq_false_2 (is_Some None)) by (by intros [? ?]).
    destruct (v_config view "") as [cfg|e]; [apply runs_bind, runs_upd, runs_bind, runs_upd, runs_ret|rewrite (Hc e eq_refl); apply runs_ret]; cbn;
      (split; [done|]); (split; [|by rewrite ?H1, ?H2, ?H3]); (split; [done|cbn; by rewrite ?orb_true_r, ?orb_false_r|intros t'; cbn; by rewrite said_delete]).
  - rewrite (bool_decide_eq_true_2 (is_Some (Some i))) by (by eexists).
    apply runs_bind, runs_upd, runs_bind, runs_upd, runs_bind, runs_upd, runs_bind. cbn.
    destruct (bool_decide (default _ (fi_Secret i) = _)); apply runs_ensure; intros m k Hm Hs; apply runs_ret; cbn in Hm, Hs |- *; rewrite H1, H2, H3, !Hne;
      (split; [done|]); (split; [|by destruct (fi_APIServer i)]); (split; [done|cbn; by rewrite Hm, orb_true_r|intros t'; cbn; by rewrite Hs]).
Qed.
Lemma count_ready_runs l a b w : readable → runs (count_ready view l a b) w (fun n w' => w' = w ∧ n = (a + count vnode_ready l, b + count listed_node_ready l)%nat).
Proof.
  intros (_ & _ & _ & _ & _ & Hp & Hn). revert a b. induction l as [|vn l IH]; intros a b; cbn [count_ready].
  { apply runs_ret. split; [done|]. unfold count. cbn. by rewrite !Nat.add_0_r. }
  pose proof (Hp vn) as Hpv. destruct (v_vkpods view vn) as [pods|] eqn:Ep; [|done]. unfold GetNodeFromVirtualNode.
  assert (Hv : vnode_ready vn = allPodsReady pods) by (unfold vnode_ready; by rewrite Ep).
  assert (Hstep : ∀ (nr : bool), listed_node_ready vn = nr →
    runs (count_ready view l (if allPodsReady pods then S a else a) (if nr then S b else b)) w
      (fun n w' => w' = w ∧ n = (a + count vnode_ready (vn :: l), b + count listed_node_ready (vn :: l))%nat)).
  { intros nr Hnr. eapply runs_mono; [apply IH|]. cbn beta. intros n w' [-> ->]. split; [done|]. unfold count. cbn [List.filter]. rewrite Hv, Hnr.
    destruct (allPodsReady pods), nr; cbn [List.length]; f_equal; lia. }
  unfold listed_node_ready in Hstep. destruct (v_nodes view (fv_ClusterID vn)) as [[|x nodes]|e] eqn:En.
  - by apply (Hstep false).
  - destruct (List.find _ _) as [n|] eqn:Ef; [by apply Hstep|by apply (Hstep false)].
  - rewrite (Hn _ _ En). by apply (Hstep false).
Qed.
Lemma counts_runs t found expected all none some w (Q : () → fcst → Prop) :
  runs (ensure_off clock t (counts_say found expected all none some).1 (counts_say found expected all none some).2) w Q →
  runs (if (found =? expected)%nat then ensure_off clock t StatusReady all
        else if (found =? 0)%nat then ensure_off clock t StatusNotReady none else ensure_off clock t StatusSomeNotReady some) w Q.
Proof. unfold counts_say. by destruct (found =? expected)%nat, (found =? 0)%nat. Qed.
Lemma expectedNodes_count l : expectedNodes l = count wants_node l.
Proof.
  unfold expectedNodes, count. f_equal. apply List.filter_ext. intros vn. unfold wants_node. by destruct (fv_CreateNode vn) as [[]|].
Qed.
Lemma offloading_runs w p : readable → md_Enabled (Offloading (s_status w)) = false →
  runs (handleOffloadingModuleStatus clock view true p) w (fun b w' => b = p || offers_nodes ∧
    md_Enabled (Offloading (s_status w')) = offers_nodes ∧ (∀ t, is_off t = true → said (md_Conditions (Offloading (s_status w'))) t = off_says t) ∧
    ∃ m, s_status w' = set_offloading (s_status w) m).
Proof.
  intros Hr Ho. pose proof Hr as (_ & _ & _ & _ & Hv & _). unfold handleOffloadingModuleStatus, offers_nodes, off_says. cbn [negb].
  destruct (v_vnodes view) as [[|vn l]|]; [| |done].
  { apply runs_bind, runs_upd, runs_bind, runs_upd, runs_ret. rewrite orb_false_r. split; [done|]. split; [done|]. split; [|by eexists].
    intros t Ht. cbn. rewrite !said_delete. destruct t; try discriminate Ht; reflexivity. }
  rewrite orb_true_r. apply runs_bind, runs_upd, runs_bind. eapply runs_mono; [by apply count_ready_runs|]. intros [rv rn] w1 [-> [= -> ->]].
  rewrite expectedNodes_count. apply runs_bind, counts_runs, runs_ensure. intros m k Hm Hs. apply runs_bind, counts_runs, runs_ensure. intros m' k' Hm' Hs'.
  apply runs_ret. cbn in Hm, Hs, Hm', Hs' |- *. split; [done|]. split; [by rewrite Hm', Hm|]. split; [|by eexists].
  intros t Ht. rewrite Hs'. unfold put. rewrite Hs. unfold put. destruct t; try discriminate Ht; repeat (case_decide; try done); by rewrite <- surjective_pairing.
Qed.


(** ** Transition times *)

Definition Qt (l : list Condition) (k : nat) (w : fcst) : Prop := md_Conditions (Networking (s_status w)) = l ∧ s_tick w = k.
Lemma Qt_enable l k w : Qt l k w → runs enable_net w (fun _ => Qt l k).
Proof. done. Qed.
Lemma Qt_ensure l k w t st why : said l t = Some (st, why) → Qt l k w → runs (ensure_net clock t st why) w (fun _ => Qt l k).
Proof. intros Hs [Hl Hk]. unfold runs, ensure_net, ensure. by rewrite Hl, ensure_noop. Qed.
Lemma Qt_delete l k w t : said l t = None → Qt l k w → runs (delete_net t) w (fun _ => Qt l k).
Proof. intros Hs [Hl Hk]. split; [|done]. cbn. by rewrite Hl, delete_noop. Qed.
Lemma Qt_gateways l k w t gws : said l t = deployments_say view gws → Qt l k w → runs (gateway_condition clock view t gws) w (fun _ => Qt l k).
Proof.
  intros Hs H. destruct gws as [|gw gws]; cbn [gateway_condition]; [by apply Qt_delete|].
  apply runs_bind. eapply runs_mono; [by eapply Qt_enable|]. intros [] w1 H1.
  unfold checkGwDeploymentsReady. rewrite checkDeployments_spec. cbn [andb orb negb]. unfold deployments_say in Hs.
  destruct (forallb _ _); cbn [negb andb]; [by apply Qt_ensure|]. destruct (existsb _ _); cbn [negb andb]; by apply Qt_ensure.
Qed.
(** The conditions say what the listing calls for. *)
Definition settled_net (l : list Condition) : Prop := ∀ t, is_net t = true → said l t = net_says view l t.
Lemma Qt_config l k w : has_config = true → settled_net l → Qt l k w →
  runs (handleNetworkConfigurationStatus clock view) w (fun exc w' => exc = [] ∧ Qt l k w').
Proof.
  unfold has_config. intros Hc Hs H. pose proof (Hs NetworkConfigurationStatusCondition eq_refl) as Hs1.
  unfold net_says, net_enabled in Hs1. rewrite Hc in Hs1. cbn in Hs1. apply bool_decide_eq_true in Hc.
  unfold handleNetworkConfigurationStatus. rewrite Hc. cbn [GetConfigurationByClusterID].
  apply runs_bind. eapply runs_mono; [by eapply Qt_enable|]. intros [] w1 H1. apply runs_bind. eapply runs_mono; [by eapply Qt_ensure|].
  intros [] w2 H2. by apply runs_ret.
Qed.
Lemma Qt_connection l k w exc : has_config = true → is_ok (v_connections view) = true → connections view ≠ [] → settled_net l → Qt l k w →
  runs (handleConnectionStatus clock view exc) w (fun exc' w' => exc' = exc ∧ Qt l k w').
Proof.
  unfold has_config. intros Hc Hok Hcn Hs H. pose proof (Hs NetworkConnectionStatusCondition eq_refl) as Hs1.
  unfold net_says, net_enabled in Hs1. rewrite Hc in Hs1. cbn -[existsb] in Hs1. unfold handleConnectionStatus, connections in *.
  destruct (v_connections view) as [[|c cs]|]; [done| |done].
  apply runs_bind. eapply runs_mono; [by eapply Qt_enable|]. intros [] w5 H5. apply runs_bind.
  destruct (existsb is_connected _); [|destruct (existsb is_connecting _)];
    (eapply runs_mono; [by eapply Qt_ensure|]; intros [] w6 H6; by apply runs_ret).
Qed.
Lemma Qt_presence l k w : has_config = true → settled_net l → Qt l k w →
  runs (write_if_enabled clock [(NetworkGatewayPresenceCondition, gateway_presence (items (v_servers view)) (items (v_clients view)))]) w (fun _ => Qt l k).
Proof.
  unfold has_config. intros Hc Hs H. pose proof (Hs NetworkGatewayPresenceCondition eq_refl) as Hs1.
  unfold net_says, net_enabled in Hs1. rewrite Hc in Hs1. cbn in Hs1. unfold write_if_enabled, runs. destruct (md_Enabled _); [|done].
  assert (He : said l NetworkGatewayPresenceCondition = Some (gateway_presence (items (v_servers view)) (items (v_clients view))))
    by (rewrite Hs1; unfold servers, clients; by destruct (items (v_servers view)), (items (v_clients view))).
  destruct (gateway_presence _ _) as [st why]. apply runs_bind. by apply Qt_ensure.
Qed.
(** Where the configuration and a connection exist, conditions that say what the
    listing calls for, as they do after any reconciliation, are not touched: they
    keep their transition times and the clock is not read. *)
Theorem transition_times_kept w :
  has_config = true → is_ok (v_connections view) = true → connections view ≠ [] → settled_net (md_Conditions (Networking (s_status w))) →
  runs (handleNetworkingModuleStatus clock view visit true) w (fun _ w' =>
    md_Conditions (Networking (s_status w')) = md_Conditions (Networking (s_status w)) ∧ s_tick w' = s_tick w).
Proof.
  intros Hc Hok Hcn Hs. set (l := md_Conditions (Networking (s_status w))) in *. assert (H : Qt l (s_tick w) w) by done.
  assert (Hen : net_enabled view = true) by (unfold net_enabled; unfold has_config in Hc; by rewrite Hc).
  cbn [handleNetworkingModuleStatus negb]. apply runs_bind. eapply runs_mono; [by eapply Qt_config|]. intros exc w2 [-> H2].
  apply runs_bind. unfold handleGatewaysStatus.
  assert (Hgw : ∀ t, is_net t = true → said l t = net_says view l t) by done. unfold net_says in Hgw. rewrite Hen in Hgw. cbn [negb] in Hgw.
  apply runs_bind. eapply runs_mono; [eapply Qt_gateways; [apply (Hgw NetworkGatewayServerStatusCondition eq_refl)|exact H2]|]. intros [] w3 H3.
  apply runs_bind. eapply runs_mono; [eapply Qt_gateways; [apply (Hgw NetworkGatewayClientStatusCondition eq_refl)|exact H3]|]. intros [] w4 H4.
  apply runs_ret, runs_bind. eapply runs_mono; [by eapply Qt_connection|]. intros exc w5 [-> H5]. cbn [app].
  match goal with |- context [visit ?x] => replace (visit x) with x by (symmetry; apply Permutation_singleton_r, visit_perm) end.
  by apply Qt_presence.
Qed.

(** A condition of the type, if there is one, was stamped by this run. *)
Definition fresh_stamp (t : ConditionType) (k0 : nat) (w : fcst) : Prop :=
  (k0 ≤ s_tick w)%nat ∧ ∀ c, findCondition (md_Conditions (Networking (s_status w))) t = Some c → ∃ k, (k0 ≤ k)%nat ∧ cd_Time c = clock k.
Lemma fresh_ensure t k0 t' st why : preserves (fresh_stamp t k0) (ensure_net clock t' st why).
Proof.
  intros w w' res [Hk Hc]. unfold ensure_net, ensure.
  pose proof (find_ensure (clock (s_tick w)) t' st why (md_Conditions (Networking (s_status w))) t) as Hf.
  destruct (ensureCondition _ _ _ _ _) as [l b]. intros [= <- _]. split; cbn; [destruct b; lia|]. intros c Hl.
  destruct (Hf c Hl) as [Hold|(_ & _ & Ht)]; [by apply Hc|]. by exists (s_tick w).
Qed.
Lemma fresh_exceptions t k0 l : preserves (fresh_stamp t k0) (write_exceptions clock l).
Proof.
  induction l as [|[t' [st why]] l IH]; cbn; [apply preserves_ret|]. apply preserves_bind; [apply fresh_ensure|]. by intros.
Qed.
Definition later (k0 : nat) (w : fcst) : Prop := (k0 ≤ s_tick w)%nat.
Lemma later_ensure k0 t st why : preserves (later k0) (ensure_net clock t st why).
Proof. intros w w' res Hk. unfold ensure_net, ensure. destruct (ensureCondition _ _ _ _ _) as [l b]. intros [= <- _]. unfold later in *. cbn. destruct b; lia. Qed.
Lemma later_upd k0 f : preserves (later k0) (upd f).
Proof. by intros w w' res Hk [= <- _]. Qed.
#[local] Hint Resolve later_ensure later_upd : preserves.
Lemma later_gateways k0 exc : preserves (later k0) (handleGatewaysStatus clock view exc).
Proof. unfold handleGatewaysStatus, gateway_condition, enable_net, delete_net. preserve. Qed.
Lemma later_config k0 : preserves (later k0) (handleNetworkConfigurationStatus clock view).
Proof. unfold handleNetworkConfigurationStatus, enable_net, delete_net. preserve. Qed.

(** A condition that reports something missing gets a new transition time at every
    reconciliation, although the conditions are kept to preserve it: the condition is
    deleted and written again.  Here for the connection. *)
Theorem missing_connection_restamped w : net_readable → connections view = [] → net_enabled view = true →
  md_Enabled (Networking (s_status w)) = false →
  runs (handleNetworkingModuleStatus clock view visit true) w (fun _ w' => ∃ c k,
    findCondition (md_Conditions (Networking (s_status w'))) NetworkConnectionStatusCondition = Some c ∧
    cd_Status c = StatusNotReady ∧ cd_Time c = clock k ∧ (s_tick w ≤ k)%nat).
Proof.
  intros Hr Hc Hen Hdis. destruct (runs_inv _ _ _ (networking_says (s_status w) w Hr eq_refl Hdis)) as ([] & w' & E & m & Em & _ & Hs).
  eapply runs_of; [exact E|]. pose proof (Hs NetworkConnectionStatusCondition eq_refl) as Hs1. unfold net_says in Hs1. rewrite Hen, Hc in Hs1. cbn in Hs1.
  assert (Hf : fresh_stamp NetworkConnectionStatusCondition (s_tick w) w').
  { revert E. cbn [handleNetworkingModuleStatus negb].
    intros [(exc & w1 & E1 & E)|(e & _ & ?)]%K_bind_inv; [|done]. revert E. intros [(exc2 & w2 & E2 & E)|(e & _ & ?)]%K_bind_inv; [|done].
    assert (H1 : later (s_tick w) w1) by (eapply later_config; [|exact E1]; unfold later; lia).
    assert (H2 : later (s_tick w) w2) by (by eapply later_gateways; [|exact E2]).
    revert E. intros [(exc3 & w3 & E3 & E)|(e & _ & ?)]%K_bind_inv; [|done]. revert E3. unfold handleConnectionStatus.
    destruct Hr as [_ Hok]. unfold connections in Hc. destruct (v_connections view) as [l|]; [|done]. subst l.
    intros [= <- <-]. revert E. unfold write_if_enabled. case_match.
    - intros E. eapply fresh_exceptions; [|exact E]. split; [exact H2|]. cbn. intros c Hcd. rewrite said_find in Hcd; [done|]. by rewrite said_delete.
    - intros [= <-]. split; [exact H2|]. cbn. intros c Hcd. rewrite said_find in Hcd; [done|]. by rewrite said_delete. }
  destruct Hf as [_ Hf]. revert Hs1. unfold said. rewrite Em in Hf |- *. cbn [Networking set_networking] in *.
  destruct (findCondition (md_Conditions m) NetworkConnectionStatusCondition) as [c|] eqn:Ef; [|done]. cbn. intros [= Hst _ _].
  destruct (Hf c eq_refl) as (k & Hk & Ht). by exists c, k.
Qed.

(** When nothing of the network is left, the module is disabled, but the condition
    on the presence of a gateway stays and goes on saying there is one. *)
Theorem presence_condition_stale w : net_readable → net_enabled view = false → md_Enabled (Networking (s_status w)) = false →
  runs (handleNetworkingModuleStatus clock view visit true) w (fun _ w' =>
    md_Enabled (Networking (s_status w')) = false ∧
    said (md_Conditions (Networking (s_status w'))) NetworkGatewayPresenceCondition =
    said (md_Conditions (Networking (s_status w))) NetworkGatewayPresenceCondition).
Proof.
  intros Hr Hen Hdis. eapply runs_mono; [by eapply (networking_says (s_status w))|]. intros [] w' (m & Em & He & Hs). rewrite Em. cbn.
  split; [by rewrite He|]. rewrite (Hs NetworkGatewayPresenceCondition eq_refl). unfold net_says. by rewrite Hen.
Qed.
End modules.

(** ** A server that may refuse a write or lose its answer *)

Inductive fate := Answered | Refused (e : kerr) | Lost (e : kerr).
Record fcserver := mkFcserver { sv_fcs : gmap string ForeignCluster; sv_fates : list fate }.
Definition bump (f : ForeignCluster) : ForeignCluster :=
  mkFc (fc_Name f) (fc_Labels f) (fc_Annotations f) (fc_Finalizers f) (fc_Deleting f) (fc_Generation f) (fc_Created f) (fc_Version f + 1) (fc_ClusterID f) (fc_Status f).
(** An object without finalizers goes when it is being deleted. *)
Definition store_fc (f : ForeignCluster) (m : gmap string ForeignCluster) : gmap string ForeignCluster :=
  if fc_Deleting f && bool_decide (fc_Finalizers f = []) then delete (fc_Name f) m else <[fc_Name f := bump f]> m.
Definition guarded (new : ForeignCluster → ForeignCluster → ForeignCluster) (f : ForeignCluster) (x : fcserver) : fcserver * result kerr () :=
  match sv_fcs x !! fc_Name f with
  | None => (x, Err NotFound)
  | Some cur =>
    if negb (fc_Version f =? fc_Version cur) then (x, Err Conflict)
    else match sv_fates x with
         | Refused e :: r => (mkFcserver (sv_fcs x) r, Err e)
         | Lost e :: r => (mkFcserver (store_fc (new cur f) (sv_fcs x)) r, Err e)
         | Answered :: r => (mkFcserver (store_fc (new cur f) (sv_fcs x)) r, Ok ())
         | [] => (mkFcserver (store_fc (new cur f) (sv_fcs x)) [], Ok ())
         end
  end.
(** Updates keep the status, status updates keep the rest; the identifier of the
    cluster is immutable. *)
Definition sv_update : ForeignCluster → fcserver → fcserver * result kerr () := guarded (fun cur f =>
  mkFc (fc_Name cur) (fc_Labels f) (fc_Annotations f) (fc_Finalizers f) (fc_Deleting cur) (fc_Generation cur) (fc_Created cur) (fc_Version cur) (fc_ClusterID cur) (fc_Status cur)).
Definition sv_update_status : ForeignCluster → fcserver → fcserver * result kerr () := guarded (fun cur f => set_fc_status cur (fc_Status f)).
Definition sv_create (f : ForeignCluster) (x : fcserver) : fcserver * result kerr () :=
  match sv_fcs x !! fc_Name f with
  | Some _ => (x, Err AlreadyExists)
  | None => (mkFcserver (<[fc_Name f := bump f]> (sv_fcs x)) (sv_fates x), Ok ())
  end.
Definition sv_list (id : string) (x : fcserver) : result kerr (list ForeignCluster) :=
  Ok ((map_to_list (sv_fcs x)).*2 ≫= (fun f => if bool_decide (fc_Labels f !! RemoteClusterIDKey = Some id) then [f] else [])).
Definition sv_get (name : string) (x : fcserver) : result kerr ForeignCluster :=
  match sv_fcs x !! name with Some f => Ok f | None => Err NotFound end.

Section machine.
Context (clock : nat → Z) (visit : exceptions → exceptions) (r : reconciler).
Notation W := (fcworld fcserver).
Notation reconcile := (FcReconcile sv_update sv_update_status clock visit r).

(** Reconciliations with any listing, turns of running checkers, objects with a
    label, and users, who leave the finalizer of the controller alone. *)
Inductive fcstep : W → W → Prop :=
| fc_reconciles name view w w' res : reconcile view (sv_get name (fw_api w)) w = Ret (w', res) → fcstep w w'
| fc_checks id ready w w' res : is_Some (fw_checkers w !! id) →
    checker_turn sv_update_status sv_list clock id ready w = Ret (w', res) → fcstep w w'
| fc_enqueues l w w' res : foreignclusterEnqueuer sv_create sv_list l w = Ret (w', res) → fcstep w w'
| fc_created f w : sv_fcs (fw_api w) !! fc_Name f = None →
    fcstep w (mkFcworld (mkFcserver (<[fc_Name f := f]> (sv_fcs (fw_api w))) (sv_fates (fw_api w))) (fw_checkers w) (fw_tick w))
| fc_edited cur f w : sv_fcs (fw_api w) !! fc_Name f = Some cur → fc_ClusterID f = fc_ClusterID cur →
    (apiServerCheckerFinalizer ∈ fc_Finalizers cur → apiServerCheckerFinalizer ∈ fc_Finalizers f) →
    fcstep w (mkFcworld (mkFcserver (store_fc f (sv_fcs (fw_api w))) (sv_fates (fw_api w))) (fw_checkers w) (fw_tick w))
| fc_fates fs w : fcstep w (mkFcworld (mkFcserver (sv_fcs (fw_api w)) fs) (fw_checkers w) (fw_tick w)).

(** Object names are the keys, a checker is backed by a finalizer, and without
    pings there are no checkers. *)
Definition backed (w : W) : Prop := ∀ id, is_Some (fw_checkers w !! id) →
  ∃ f, sv_fcs (fw_api w) !! fc_Name f = Some f ∧ fc_ClusterID f = id ∧ apiServerCheckerFinalizer ∈ fc_Finalizers f.
Record fc_inv (w : W) : Prop := {
  inv_names : ∀ n f, sv_fcs (fw_api w) !! n = Some f → fc_Name f = n;
  inv_ping : pingInterval r = 0 → fw_checkers w = ∅;
  inv_backed : backed w
}.

(** ** The checkers *)

Definition named (m : gmap string ForeignCluster) : Prop := ∀ n f, m !! n = Some f → fc_Name f = n.
Definition backs (m : gmap string ForeignCluster) (id : string) : Prop :=
  ∃ f, m !! fc_Name f = Some f ∧ fc_ClusterID f = id ∧ apiServerCheckerFinalizer ∈ fc_Finalizers f.

Lemma store_named f m : named m → named (store_fc f m).
Proof.
  intros Hn n g. unfold store_fc. destruct (_ && _); [rewrite lookup_delete_Some|rewrite lookup_insert_Some]; [naive_solver|].
  intros [[<- <-]|[_ H]]; [done|by apply Hn].
Qed.
(** An object that is stored in the place of another one backs at least as much,
    if it keeps the identifier, and the finalizer where that matters. *)
Lemma store_backs f cur m id : m !! fc_Name f = Some cur → fc_ClusterID f = fc_ClusterID cur →
  (fc_ClusterID cur = id → apiServerCheckerFinalizer ∈ fc_Finalizers cur → apiServerCheckerFinalizer ∈ fc_Finalizers f) →
  named m → backs m id → backs (store_fc f m) id.
Proof.
  intros Hf Hid Hfin Hn (g & Hg & Hgid & Hgf). destruct (decide (fc_Name g = fc_Name f)) as [He|Hne].
  - assert (g = cur) as -> by congruence. specialize (Hfin Hgid Hgf). unfold store_fc.
    rewrite (bool_decide_false (fc_Finalizers f = [])), andb_false_r by (intros E; rewrite E in Hfin; by apply not_elem_of_nil in Hfin).
    exists (bump f). cbn. rewrite lookup_insert_eq. split; [done|]. split; [congruence|done].
  - exists g. unfold store_fc. destruct (_ && _); rewrite ?lookup_delete_ne, ?lookup_insert_ne by done; done.
Qed.
Lemma store_new f m id : apiServerCheckerFinalizer ∈ fc_Finalizers f → fc_ClusterID f = id → backs (store_fc f m) id.
Proof.
  intros Hf <-. unfold store_fc.
  rewrite (bool_decide_false (fc_Finalizers f = [])), andb_false_r by (intros E; rewrite E in Hf; by apply not_elem_of_nil in Hf).
  exists (bump f). cbn. by rewrite lookup_insert_eq.
Qed.
Lemma guarded_inv new f x x' res : guarded new f x = (x', res) →
  (sv_fcs x' = sv_fcs x ∧ res ≠ Ok ()) ∨ ∃ cur, sv_fcs x !! fc_Name f = Some cur ∧ sv_fcs x' = store_fc (new cur f) (sv_fcs x).
Proof.
  unfold guarded. destruct (sv_fcs x !! fc_Name f) as [cur|]; [|intros [= <- <-]; by left].
  destruct (negb _); [intros [= <- <-]; by left|]. destruct (sv_fates x) as [|[|e|e] fs]; intros [= <- <-]; eauto.
Qed.

(** What a call does to the world. *)
Lemma call_api_inv f (w w' : W) res : call_api f w = Ret (w', res) →
  f (fw_api w) = (fw_api w', res) ∧ fw_checkers w' = fw_checkers w.
Proof. unfold call_api. destruct (f (fw_api w)) as [x q]. by intros [= <- <-]. Qed.
Lemma status_update_inv f (w w' : W) res : fc_inv w → call_api (sv_update_status f) w = Ret (w', res) → fc_inv w'.
Proof.
  intros [Hn Hp Hb] [E Hc]%call_api_inv. destruct (guarded_inv _ _ _ _ _ E) as [[Hs _]|(cur & Hcur & Hs)].
  - split; [by rewrite Hs|by rewrite Hc|]. intros id. unfold backed in Hb. rewrite Hs, Hc. apply Hb.
  - split; [rewrite Hs; by apply store_named|by rewrite Hc|]. intros id. rewrite Hs, Hc. intros Hid.
    apply (store_backs _ cur); cbn; [by rewrite (Hn _ _ Hcur)|done|done|done|by apply Hb].
Qed.
Lemma drop_checker_inv id (w : W) : fc_inv w → fc_inv (mkFcworld (fw_api w) (delete id (fw_checkers w)) (fw_tick w)).
Proof.
  intros [Hn Hp Hb]. split; [done|cbn; intros Hz; by rewrite (Hp Hz), delete_empty|]. intros id' [x Hx]. cbn in Hx |- *. apply Hb. exists x.
  by apply lookup_delete_Some in Hx as [_ ?].
Qed.
(** The removal of the finalizer, once no checker of the cluster runs. *)
Lemma remove_if_present_inv fc (w w' : W) res : fc_inv w → fw_checkers w !! fc_ClusterID fc = None →
  (∀ cur, sv_fcs (fw_api w) !! fc_Name fc = Some cur → fc_ClusterID cur = fc_ClusterID fc) →
  remove_if_present sv_update fc w = Ret (w', res) → fc_inv w' ∧ (∀ b fc', res = Ok (b, fc') → b = true → w' = w ∧ fc' = fc).
Proof.
  intros Hi Hnone Hid. unfold remove_if_present, ensureFinalizer_remove. destruct (has_finalizer fc); [|intros [= <- <-]; split; [done|by intros b fc' [= <- <-]]].
  intros H. assert (Hno : ∀ b fc', res = Ok (b, fc') → b = true → w' = w ∧ fc' = fc).
  { apply K_bind_inv in H as [([] & w1 & _ & [= _ <-])|(e & _ & ->)]; [by intros b fc' [= <- <-]|done]. }
  split; [|done]. assert (∃ q, call_api (sv_update (set_fc_finalizers fc (List.filter (fun f => negb (bool_decide (f = apiServerCheckerFinalizer))) (fc_Finalizers fc)))) w = Ret (w', q)) as [q E].
  { apply K_bind_inv in H as [([] & w1 & E & [= <- _])|(e & E & _)]; eauto. }
  apply call_api_inv in E as [E Hc]. destruct Hi as [Hn Hp Hb]. destruct (guarded_inv _ _ _ _ _ E) as [[Hs _]|(cur & Hcur & Hs)].
  - split; [by rewrite Hs|by rewrite Hc|]. intros id. rewrite Hs, Hc. apply Hb.
  - split; [rewrite Hs; by apply store_named|by rewrite Hc|]. intros id. rewrite Hs, Hc. intros His.
    apply (store_backs _ cur); cbn; [by rewrite (Hn _ _ Hcur)|done| |done|by apply Hb].
    intros <-. cbn in Hcur. rewrite (Hid _ Hcur), Hnone in His. by destruct His.
Qed.

(** The object as it was read. *)
Definition read_now (w : W) (fc : ForeignCluster) : Prop :=
  ∃ cur, sv_fcs (fw_api w) !! fc_Name fc = Some cur ∧ fc_ClusterID cur = fc_ClusterID fc ∧ fc_Finalizers cur = fc_Finalizers fc.
Lemma tick_inv (w : W) k : fc_inv w → fc_inv (mkFcworld (fw_api w) (fw_checkers w) k).
Proof. intros []. by split. Qed.
Lemma start_checker_inv fc cert (w w' : W) res : fc_inv w → pingInterval r ≠ 0 → read_now w fc →
  (_ ← set_checkers (delete (fc_ClusterID fc)); _ ← ensureFinalizer_add sv_update fc; _ ← set_checkers (<[fc_ClusterID fc := cert]>); mret (false, fc)) w = Ret (w', res) →
  fc_inv w'.
Proof.
  intros Hi Hping (cur & Hcur & Hid & Hfin). set (w1 := mkFcworld (fw_api w) (delete (fc_ClusterID fc) (fw_checkers w)) (fw_tick w)).
  assert (Hi1 : fc_inv w1) by by apply drop_checker_inv.
  assert (Hstart : ∀ w2 : W, fc_inv w2 → backs (sv_fcs (fw_api w2)) (fc_ClusterID fc) →
    fc_inv (mkFcworld (fw_api w2) (<[fc_ClusterID fc := cert]> (fw_checkers w2)) (fw_tick w2))).
  { intros w2 [Hn Hp Hb] Hbk. split; [done|by intros ?|]. intros id [x Hx]. cbn in Hx |- *.
    apply lookup_insert_Some in Hx as [[<- _]|[_ Hx]]; [done|]. apply Hb. by exists x. }
  erewrite K_bind_ok by reflexivity. fold w1. intros [([] & w2 & E & E2)|(e & E & ->)]%K_bind_inv; revert E; unfold ensureFinalizer_add, has_finalizer.
  - cbn in E2. injection E2 as <- _. case_bool_decide as Hhas.
    + intros [= <-]. apply Hstart; [done|]. exists cur. rewrite (inv_names _ Hi _ _ Hcur), Hid, Hfin. done.
    + intros [E Hc]%call_api_inv. destruct (guarded_inv _ _ _ _ _ E) as [[_ ?]|(cur' & Hcur' & Hs)]; [done|].
      cbn in Hcur'. assert (cur' = cur) as -> by congruence. apply Hstart.
      * split; [rewrite Hs; apply store_named; exact (inv_names _ Hi1)|by intros ?|]. intros id. rewrite Hs, Hc. intros His.
        apply (store_backs _ cur); cbn; [by rewrite (inv_names _ Hi _ _ Hcur)|done|set_solver|exact (inv_names _ Hi)|by apply (inv_backed _ Hi1)].
      * rewrite Hs. apply store_new; cbn; [set_solver|done].
  - case_bool_decide as Hhas; [done|]. intros [E Hc]%call_api_inv. destruct (guarded_inv _ _ _ _ _ E) as [[Hs _]|(cur' & Hcur' & Hs)].
    + split; [rewrite Hs; exact (inv_names _ Hi)|by intros ?|]. intros id. rewrite Hs, Hc. apply (inv_backed _ Hi1).
    + cbn in Hcur'. assert (cur' = cur) as -> by congruence.
      split; [rewrite Hs; apply store_named; exact (inv_names _ Hi)|by intros ?|]. intros id. rewrite Hs, Hc. intros His.
      apply (store_backs _ cur); cbn; [by rewrite (inv_names _ Hi _ _ Hcur)|done|set_solver|exact (inv_names _ Hi)|by apply (inv_backed _ Hi1)].
Qed.
Lemma handle_checker_inv config fc (w w' : W) res : fc_inv w → read_now w fc →
  handleAPIServerChecker sv_update clock r config fc w = Ret (w', res) → fc_inv w'.
Proof.
  intros Hi Hr. pose proof Hr as (cur & Hcur & Hid & _). unfold handleAPIServerChecker.
  destruct (negb _ || negb _) eqn:Hneed; cbn [andb negb orb].
  2: { erewrite K_bind_ok by reflexivity. erewrite K_bind_ok by reflexivity. intros H.
    refine (proj1 (remove_if_present_inv _ _ _ _ _ _ _ H)); [by apply drop_checker_inv|cbn; by rewrite lookup_delete_eq|]. cbn. intros c' Hc'. congruence. }
  destruct (pingInterval r =? 0) eqn:Hp.
  { apply Z.eqb_eq in Hp. unfold ensure_generic at 1. unfold mbind at 1, K_bind at 1. destruct (ensureCondition _ _ _ _ _) as [l b].
    intros H. refine (proj1 (remove_if_present_inv _ _ _ _ _ _ _ H)); [by apply tick_inv|cbn; by rewrite (inv_ping _ Hi Hp)|].
    cbn. intros c' Hc'. congruence. }
  apply Z.eqb_neq in Hp. erewrite K_bind_ok by reflexivity. destruct (fc_Deleting fc).
  { erewrite K_bind_ok by reflexivity. intros H.
    refine (proj1 (remove_if_present_inv _ _ _ _ _ _ _ H)); [by apply drop_checker_inv|cbn; by rewrite lookup_delete_eq|]. cbn. intros c' Hc'. congruence. }
  destruct (config _) as [cfg|e]; [|intros H; by injection H as <- _]. cbn beta zeta. destruct (bool_decide (_ = Some _)); [intros H; by injection H as <- _|]. by apply start_checker_inv.
Qed.

Lemma on_status_inv {A} (m : K fcst A) fc (w w' : W) fc' res : on_status m fc w = Ret (w', Ok (fc', res)) →
  ∃ s k, m (mkFcst (fc_Status fc) (fw_tick w)) = Ret (mkFcst s k, res) ∧ fc' = set_fc_status fc s ∧ w' = mkFcworld (fw_api w) (fw_checkers w) k.
Proof. unfold on_status. destruct (m _) as [[[s k] q]| |]; [|done..]. intros [= <- <- <-]. by exists s, k. Qed.
Lemma on_status_ok {A} (m : K fcst A) fc (w w' : W) e : on_status m fc w = Ret (w', Err e) → False.
Proof. unfold on_status. by destruct (m _) as [[? ?]| |]. Qed.
Lemma fc_reconcile_inv view name (w w' : W) res : fc_inv w → reconcile view (sv_get name (fw_api w)) w = Ret (w', res) → fc_inv w'.
Proof.
  intros Hi. unfold FcReconcile, sv_get. destruct (sv_fcs (fw_api w) !! name) as [fc|] eqn:Hfc; [|by intros [= <- _]].
  destruct (bool_decide _); [by intros [= <- _]|]. pose proof (inv_names _ Hi _ _ Hfc) as Hname.
  intros [([fc1 q] & w1 & E1 & E2)|(e & E & _)]%K_bind_inv; [|by apply on_status_ok in E].
  apply on_status_inv in E1 as (s & k & _ & -> & ->). pose proof (tick_inv w k Hi) as Hi1.
  assert (Hrd : read_now (mkFcworld (fw_api w) (fw_checkers w) k) (set_fc_status fc s)) by (exists fc; cbn; by rewrite Hname).
  destruct q as [[]|e].
  - apply K_bind_inv in E2 as [([cont fc2] & w2 & E2 & E3)|(e & E2 & _)]; [|by eapply handle_checker_inv; [exact Hi1|exact Hrd|exact E2]].
    apply handle_checker_inv in E2; [|exact Hi1|exact Hrd]. destruct cont; [exact (status_update_inv _ _ _ _ E2 E3)|by injection E3 as <- _].
  - apply K_bind_inv in E2 as [([] & w2 & E2 & E3)|(e' & E2 & _)]; [|by eapply status_update_inv; [exact Hi1|exact E2]].
    apply status_update_inv in E2; [|exact Hi1]. by injection E3 as <- _.
Qed.
Lemma checker_turn_inv id ready (w w' : W) res : fc_inv w → checker_turn sv_update_status sv_list clock id ready w = Ret (w', res) → fc_inv w'.
Proof.
  intros Hi. unfold checker_turn. destruct (sv_list id (fw_api w)) as [l|]; [|by intros [= <- _]]. destruct (getForeignCluster l) as [fc|]; [|by intros [= <- _]].
  destruct (if ready then _ else _) as [st why]. destruct (bool_decide _); [by intros [= <- _]|].
  unfold ensure_generic at 1. unfold mbind at 1, K_bind at 1. destruct (ensureCondition _ _ _ _ _) as [cs b].
  intros [(q & w1 & (x & E & _)%attempt_inv & [= <- _])|(e & (x & E & ?)%attempt_inv & _)]%K_bind_inv; (eapply status_update_inv; [|exact E]); by apply tick_inv.
Qed.
Lemma insert_new_inv f (w w' : W) : fc_inv w → sv_fcs (fw_api w) !! fc_Name f = None →
  sv_fcs (fw_api w') = <[fc_Name f := f]> (sv_fcs (fw_api w)) → fw_checkers w' = fw_checkers w → fc_inv w'.
Proof.
  intros [Hn Hp Hb] Hnone Hs Hc. split; [|by rewrite Hc|].
  - rewrite Hs. intros n g [[<- <-]|[_ H]]%lookup_insert_Some; [done|by apply Hn].
  - intros id. rewrite Hs, Hc. intros His. destruct (Hb id His) as (g & Hg & Hid & Hf). exists g. rewrite lookup_insert_ne; [done|]. intros E. congruence.
Qed.
Lemma enqueue_inv l (w w' : W) res : fc_inv w → foreignclusterEnqueuer sv_create sv_list l w = Ret (w', res) → fc_inv w'.
Proof.
  intros Hi. unfold foreignclusterEnqueuer. destruct (l !! RemoteClusterIDKey) as [id|]; [|by intros [= <- _]].
  destruct (sv_list id (fw_api w)) as [fcs|]; [|by intros [= <- _]]. destruct (getForeignCluster fcs) as [fc|[]]; [by intros [= <- _]| | | | |]; [by intros [= <- _]| |by intros [= <- _]..].
  intros [(q & w1 & (x & E & _)%attempt_inv & [= <- _])|(e & (x & E & ?)%attempt_inv & _)]%K_bind_inv; [|done].
  apply call_api_inv in E as [E Hc]. unfold sv_create in E. cbn [fc_Name] in E. destruct (sv_fcs (fw_api w) !! id) eqn:Hid.
  - injection E as E _. destruct Hi as [Hn Hp Hb]. split; [by rewrite <- E|by rewrite Hc|]. intros id'. rewrite <- E, Hc. apply Hb.
  - injection E as E _. match type of E with context [<[_ := ?g]> _] => apply (insert_new_inv g w w1) end; [done|done| |done]. by rewrite <- E.
Qed.
Lemma step_inv (w w' : W) : fc_inv w → fcstep w w' → fc_inv w'.
Proof.
  intros Hi Hs. revert Hi. destruct Hs as [name view w1 w2 res E|id ready w1 w2 res _ E|l w1 w2 res E|f w1 Hf|cur f w1 Hf Hid Hfin|fs w1]; intros Hi.
  - exact (fc_reconcile_inv _ _ _ _ _ Hi E).
  - exact (checker_turn_inv _ _ _ _ _ Hi E).
  - exact (enqueue_inv _ _ _ _ Hi E).
  - by eapply (insert_new_inv f w1).
  - destruct Hi as [Hn Hp Hb]. split; [by apply store_named|done|]. intros id His. apply (store_backs _ cur); [done|done|auto|done|by apply Hb].
  - destruct Hi as [Hn Hp Hb]. by split.
Qed.

(** In every state reachable from one without checkers, a checker that runs for a
    cluster is backed by a ForeignCluster of the cluster that carries the finalizer:
    none is left running for a ForeignCluster that is gone, whatever writes are refused
    and whatever answers are lost. *)
Theorem checker_has_finalizer (w0 w : W) : named (sv_fcs (fw_api w0)) → fw_checkers w0 = ∅ → rtc fcstep w0 w →
  ∀ id, is_Some (fw_checkers w !! id) → backs (sv_fcs (fw_api w)) id.
Proof.
  intros Hn Hc Hr. assert (Hi : fc_inv w); [|apply (inv_backed _ Hi)].
  assert (Hi0 : fc_inv w0) by (split; [done|done|intros id [x Hx]; by rewrite Hc in Hx]).
  clear Hn Hc. induction Hr as [|w0 w1 w2 Hs Hr IH]; [done|]. apply IH. by eapply step_inv.
Qed.

(** ** What a failed listing leaves behind *)

(** When two network configurations exist for the cluster, the reconciliation
    fails, but the status it publishes says that no module is enabled; the networking
    then counts as established or disabled, also when the connection is in error. *)
Theorem failed_listing_disables view name fc (w : W) : NetworkingEnabled r = true →
  sv_fcs (fw_api w) !! name = Some fc → fc_Name fc = name → fc_ClusterID fc ≠ ""%string → fc_Deleting fc = false →
  sv_fates (fw_api w) = [] → (∃ n, v_configurations view = Ok n ∧ (1 < n)%nat) →
  ∃ w' fc', reconcile view (sv_get name (fw_api w)) w = Ret (w', Err OtherErr) ∧ sv_fcs (fw_api w') !! name = Some fc' ∧
    md_Conditions (Networking (fc_Status fc')) = md_Conditions (Networking (fc_Status fc)) ∧
    IsNetworkingModuleEnabled (fc_Status fc') = false ∧ IsNetworkingEstablishedOrDisabled (fc_Status fc') = true.
Proof.
  intros Hnet Hfc Hname Hid Hdel Hf (n & Hn & Hlt). unfold FcReconcile, sv_get. rewrite Hfc. rewrite bool_decide_false by done. rewrite Hnet.
  assert (E : update_modules clock view visit true (AuthenticationEnabled r) (OffloadingEnabled r) (mkFcst (fc_Status fc) (fw_tick w)) =
    Ret (mkFcst (clearStatusExceptConditions (fc_Status fc)) (fw_tick w), Err OtherErr)).
  { unfold update_modules. erewrite K_bind_ok by reflexivity. cbn [handleNetworkingModuleStatus negb].
    unfold handleNetworkConfigurationStatus at 1. rewrite Hn. destruct n as [|[|n]]; [lia|lia|]. reflexivity. }
  unfold on_status, mbind, K_bind. rewrite E. cbn beta iota zeta. unfold call_api, sv_update_status, guarded. cbn [fc_Name set_fc_status fw_api].
  rewrite Hname, Hfc. cbn [fc_Version]. rewrite Z.eqb_refl. cbn [negb]. rewrite Hf.
  eexists _, _. split; [reflexivity|]. cbn. unfold store_fc. cbn. rewrite Hdel, Hname. cbn. rewrite lookup_insert_eq. split; [reflexivity|]. cbn.
  split; [done|]. split; [done|]. apply orb_true_r.
Qed.

(** While the kubeconfig of a control-plane identity is missing, nothing at all is
    published about the cluster when its API server is to be checked: the condition
    that says the identity is not ready never appears. *)
Theorem identity_wait_unpublished view name fc i e (w : W) :
  NetworkingEnabled r = false → AuthenticationEnabled r = true → OffloadingEnabled r = false → pingInterval r ≠ 0 →
  sv_fcs (fw_api w) !! name = Some fc → fc_ClusterID fc ≠ ""%string → fc_Deleting fc = false →
  v_tenants view = Ok [] → v_identities view = Ok [i] → fi_Type i = ControlPlaneIdentity → fi_APIServer i ≠ ""%string →
  v_config view (fi_Namespace i) = Err e →
  ∃ w', reconcile view (sv_get name (fw_api w)) w = Ret (w', Err e) ∧ fw_api w' = fw_api w.
Proof.
  intros Hn Ha Ho Hp Hfc Hid Hdel Ht Hi Hty Hapi Hcfg. unfold FcReconcile, sv_get. rewrite Hfc. rewrite bool_decide_false by done. rewrite Hn, Ha, Ho.
  assert (E : ∃ s k, update_modules clock view visit false true false (mkFcst (fc_Status fc) (fw_tick w)) = Ret (mkFcst s k, Ok ()) ∧
    APIServerURL s = fi_APIServer i ∧ TenantLocal s = fi_Namespace i).
  { unfold update_modules, handleNetworkingModuleStatus, handleAuthenticationModuleStatus, handleOffloadingModuleStatus. cbn [negb].
    unfold consumer_part, provider_part, GetControlPlaneIdentityByClusterID. rewrite Ht, Hi. cbn [GetTenantByClusterID List.filter].
    unfold is_control_plane. rewrite Hty. cbn [non_empty]. rewrite (bool_decide_false (fi_APIServer i = _)) by done.
    unfold mbind, K_bind, ensure_auth, ensure. cbn. destruct (bool_decide _); cbn; destruct (ensureCondition _ _ _ _ _); cbn; eauto 6. }
  destruct E as (s & k & E & Hurl & Hten). unfold on_status, mbind, K_bind. rewrite E. cbn beta iota zeta. unfold handleAPIServerChecker.
  cbn [fc_Status set_fc_status fc_Deleting s_status]. rewrite Hurl, Hten, (bool_decide_false (fi_APIServer i = _)) by done. cbn [negb orb andb].
  rewrite (proj2 (Z.eqb_neq _ _)) by done. rewrite Hdel. cbn. rewrite Hcfg. by eexists.
Qed.
End machine.

(** ** Examples *)

Definition ex_view : fc_view :=
  mkFcView (Ok 1%nat) (Ok [("gw", "tenant")%string]) (Ok []) (fun _ _ => Ok (1, 0)) (Ok [Connected]) (Ok [])
    (Ok [mkFcIdentity "tenant" ControlPlaneIdentity "https://milan" None None (Some "kubeconfig"%string)])
    (fun _ => Ok (mkRestConfig "https://milan" "cert")) (Ok []) (fun _ => Ok []) (fun _ => Err NotFound).
Definition empty_status : FcStatus := mkFcStatus 0 UnknownRole clearModule clearModule clearModule "" "" "" "" [].
Definition ex_fc : ForeignCluster := mkFc "milan" {[ RemoteClusterIDKey := "milan"%string ]} ∅ [] false 1 5 1 "milan" empty_status.
Definition ex_start : fcworld fcserver := mkFcworld (mkFcserver {[ "milan"%string := ex_fc ]} []) ∅ 0.
Definition ex_rec : reconciler := mkReconciler true true true 10.
Definition ex_reconcile : fcworld fcserver → outcome (fcworld fcserver * result kerr ()) := fun w =>
  FcReconcile sv_update sv_update_status Z.of_nat id ex_rec ex_view (sv_get "milan" (fw_api w)) w.
Definition ex_next : fcworld fcserver := match ex_reconcile ex_start with Ret (w, _) => w | _ => ex_start end.

Lemma ex_readable : readable ex_view.
Proof. split; [split; [exists 1%nat; split; [done|lia]|done]|]. split; [exists []; split; [done|cbn; lia]|]. split; [eexists; split; [reflexivity|cbn; lia]|]. split; [done|]. split; [done|]. split; [done|]. by intros c e [= <-]. Qed.


Lemma checker_has_finalizer_witness : is_Some (fw_checkers ex_next !! "milan"%string) ∧ backs (sv_fcs (fw_api ex_next)) "milan".
Proof.
  assert (Hs : is_Some (fw_checkers ex_next !! "milan"%string)) by (exists "cert"%string; reflexivity).
  split; [exact Hs|]. apply (checker_has_finalizer Z.of_nat id ex_rec ex_start ex_next); [| |apply rtc_once|exact Hs].
  - unfold ex_start. cbn [fw_api sv_fcs]. intros n f [<- <-]%lookup_singleton_Some. reflexivity.
  - reflexivity.
  - assert (Hr : match ex_reconcile ex_start with Ret _ => true | _ => false end = true) by (vm_compute; reflexivity).
    unfold ex_next. destruct (ex_reconcile ex_start) as [[w res]| |] eqn:E; [|done..].
    exact (fc_reconciles Z.of_nat id ex_rec "milan" ex_view ex_start w res E).
Defined.

(** Two configurations for one cluster whose tunnel is in error. *)
Definition ex_view2 : fc_view :=
  mkFcView (Ok 2%nat) (Ok []) (Ok []) (fun _ _ => Err NotFound) (Ok [ConnectionErrorStatus]) (Ok []) (Ok []) (fun _ => Err NotFound) (Ok [])
    (fun _ => Ok []) (fun _ => Err NotFound).
Definition ex_broken : ForeignCluster :=
  set_fc_status ex_fc (set_networking empty_status (mkModule true [mkCond NetworkConnectionStatusCondition StatusError 3 "ConnectionError" ""])).
Lemma failed_listing_disables_witness : ∃ w' fc',
  FcReconcile sv_update sv_update_status Z.of_nat id ex_rec ex_view2 (sv_get "milan" (mkFcserver {[ "milan"%string := ex_broken ]} []))
    (mkFcworld (mkFcserver {[ "milan"%string := ex_broken ]} []) ∅ 0) = Ret (w', Err OtherErr) ∧
  sv_fcs (fw_api w') !! "milan"%string = Some fc' ∧ IsNetworkingEstablishedOrDisabled (fc_Status ex_broken) = false ∧
  IsNetworkingEstablishedOrDisabled (fc_Status fc') = true.
Proof.
  destruct (failed_listing_disables Z.of_nat id ex_rec ex_view2 "milan" ex_broken (mkFcworld (mkFcserver {[ "milan"%string := ex_broken ]} []) ∅ 0)) as
    (w' & fc' & E & Hl & _ & _ & He); [reflexivity|apply lookup_singleton_eq|reflexivity|done|reflexivity|reflexivity|by exists 2%nat; split; [|lia]|].
  exists w', fc'. split; [exact E|]. split; [exact Hl|]. split; [reflexivity|exact He].
Defined.
Definition ex_waiting : fc_view :=
  mkFcView (Ok 1%nat) (Ok []) (Ok []) (fun _ _ => Err NotFound) (Ok []) (Ok [])
    (Ok [mkFcIdentity "tenant" ControlPlaneIdentity "https://milan" None None None]) (fun _ => Err NotFound) (Ok []) (fun _ => Ok []) (fun _ => Err NotFound).
Lemma identity_wait_unpublished_witness : ∃ w',
  FcReconcile sv_update sv_update_status Z.of_nat id (mkReconciler false true false 10) ex_waiting (sv_get "milan" (fw_api ex_start)) ex_start = Ret (w', Err NotFound) ∧
  fw_api w' = fw_api ex_start.
Proof.
  apply (identity_wait_unpublished Z.of_nat id (mkReconciler false true false 10) ex_waiting "milan" ex_fc
    (mkFcIdentity "tenant" ControlPlaneIdentity "https://milan" None None None) NotFound ex_start); try reflexivity; done.
Defined.
Lemma missing_connection_restamped_witness : ∃ w', handleNetworkingModuleStatus Z.of_nat ex_waiting id true (mkFcst empty_status 7) = Ret (w', Ok ()) ∧
  ∃ c k, findCondition (md_Conditions (Networking (s_status w'))) NetworkConnectionStatusCondition = Some c ∧ cd_Time c = Z.of_nat k ∧ (7 ≤ k)%nat.
Proof.
  pose proof (missing_connection_restamped Z.of_nat ex_waiting id (fun l => Permutation_refl l) (mkFcst empty_status 7)
    ltac:(split; [exists 1%nat; split; [done|lia]|done]) eq_refl eq_refl eq_refl) as H.
  destruct (runs_inv _ _ _ H) as ([] & w' & E & c & k & Hf & _ & Ht & Hk). exists w'. split; [exact E|]. by exists c, k.
Defined.
