(* ===== verification/EndpointSlice.v ===== *)
(** * EndpointSlice: endpoints reflected to a remote cluster
      (src/pkg/virtualKubelet/forge/endpointslices.go, src/pkg/virtualKubelet/reflection/exposition/endpointslice.go,
       src/pkg/virtualKubelet/reflection/generic/namespaced.go, src/pkg/utils/directconnection,
       src/pkg/utils/indexer, src/pkg/utils/getters/dataGetters.go)

    The endpoints of a service that do not run on the remote cluster are reflected
    there as a shadow endpoint slice.  Addresses outside of the pod network are
    replaced by the ones the IPAM gave them; the answers are kept in a cache.  For
    services that ask for direct connections, the clusters of the endpoints are
    recorded in an annotation instead. *)

From S2P Require Export ForeignCluster PodWebhook Slice Remap VkForge.
Local Open Scope Z_scope.

Record EndpointHints := mkHints { ForZones : list string; ForNodes : list string }.
Record ObjectReference := mkRef { or_Kind : string; or_rest : string }.
Record Endpoint := mkEndpoint {
  Addresses : list string; ep_Ready : option bool; ep_Serving : option bool; ep_Terminating : option bool; Hostname : option string;
  TargetRef : option ObjectReference; NodeName : option string; Zone : option string; Hints : option EndpointHints
}.
#[export] Instance EndpointHints_eq_dec : EqDecision EndpointHints.
Proof. solve_decision. Defined.
#[export] Instance ObjectReference_eq_dec : EqDecision ObjectReference.
Proof. solve_decision. Defined.
#[export] Instance Endpoint_eq_dec : EqDecision Endpoint.
Proof. solve_decision. Defined.
(** Ports are only copied. *)
Record EndpointSlice := mkEndpointSlice {
  es_Name : string; es_Labels : labels; es_Annotations : labels; es_AddressType : string; es_Endpoints : list Endpoint; es_Ports : list string
}.
Record ShadowEndpointSlice := mkShadowEps {
  se_Name : string; se_Namespace : string; se_UID : string; se_Labels : labels; se_Annotations : labels;
  se_AddressType : string; se_Endpoints : list Endpoint; se_Ports : list string
}.
#[export] Instance ShadowEndpointSlice_eq_dec : EqDecision ShadowEndpointSlice.
Proof. solve_decision. Defined.

Definition LabelManagedBy : string := "endpointslice.kubernetes.io/managed-by".
Definition LabelServiceName : string := "kubernetes.io/service-name".
Definition EndpointSliceManagedBy : string := "endpointslice.reflection.liqo.io".
Definition AllowReflectionAnnotationKey : string := "liqo.io/allow-reflection".
Definition SkipReflectionAnnotationKey : string := "liqo.io/skip-reflection".
Definition DirectConnectionDataAnnotationKey : string := "liqo.io/direct-connections-data".
Definition UseDirectConnectionAnnotationKey : string := "liqo.io/use-direct-connections".
Definition maxAnnotationSize : Z := 256 * 1024.

(** ** Direct connections (directconnection.go)

    The JSON encoding is a class with the law that is relied upon. *)

Notation ClusterAddresses := (gmap string (list string)).
Class AddressCodec := {
  ToJSON : ClusterAddresses → option string;
  FromJSON : string → option ClusterAddresses;
  FromJSON_ToJSON m s : ToJSON m = Some s → FromJSON s = Some m
}.
Definition Add (c : ClusterAddresses) (cluster : string) (ips : list string) : ClusterAddresses :=
  <[cluster := default [] (c !! cluster) ++ ips]> c.
(** The clusters are visited in any order: a later one wins. *)
Definition BuildIndex (order : list (string * list string)) : option (gmap string string) :=
  match order with
  | [] => None
  | _ => Some (foldl (fun m ci => foldl (fun m ip => <[ip := ci.1]> m) m ci.2) ∅ order)
  end.
Definition LookupClusterID (i : option (gmap string string)) (ip : string) : option string :=
  match i with None => None | Some m => m !! ip end.
Definition FromAnnotations `{AddressCodec} (annotations : labels) : option ClusterAddresses :=
  match annotations !! DirectConnectionDataAnnotationKey with None => None | Some v => FromJSON v end.
(** The values an object is indexed by. *)
Definition ExtractDirectConnectionClusterIDs `{AddressCodec} (annotations : labels) : list string :=
  match FromAnnotations annotations with None => [] | Some c => (map_to_list c).*1 end.

(** ** Policies (namespaced.go) *)

Inductive ReflectionType := AllowList | DenyList | OtherReflection (s : string).
Definition ShouldSkipReflection (t : ReflectionType) (annotations : labels) : result kerr bool :=
  match t with
  | AllowList =>
    match annotations !! AllowReflectionAnnotationKey with
    | Some v => Ok (is_false v)
    | None => Ok true
    end
  | DenyList =>
    match annotations !! SkipReflectionAnnotationKey with
    | Some v => Ok (negb (is_false v))
    | None => Ok false
    end
  | OtherReflection _ => Err OtherErr
  end.
Definition marked (annotations : labels) (key : string) : bool :=
  match annotations !! key with Some v => negb (is_false v) | None => false end.
Definition ForcedAllowOrSkip (annotations : labels) : result kerr (option bool) :=
  let allowAnnot := marked annotations AllowReflectionAnnotationKey in
  let skipAnnot := marked annotations SkipReflectionAnnotationKey in
  if allowAnnot && skipAnnot then Err OtherErr
  else if allowAnnot then Ok (Some false)
  else if skipAnnot then Ok (Some true)
  else Ok None.

(** ** Forging (forge/endpointslices.go) *)

(** [RetrieveRemoteClusterIDFromNode]: nil labels are an error, a missing label is
    the empty identifier. *)
Definition RetrieveRemoteClusterIDFromNode (nodeLabels : option labels) : result kerr string :=
  match nodeLabels with None => Err OtherErr | Some l => Ok (default ""%string (l !! RemoteClusterIDKey)) end.
Definition RemoteKind (kind : string) : string := ("Remote" ++ kind)%string.
Definition RemoteEndpointTargetRef (r : option ObjectReference) : option ObjectReference :=
  (fun r => mkRef (RemoteKind (or_Kind r)) (or_rest r)) <$> r.
Definition RemoteEndpointSlicePorts (l : list string) : list string := l.
Definition EndpointSliceLabels : labels := {[ LabelManagedBy := EndpointSliceManagedBy ]}.
Definition IsEndpointSliceManagedByReflection (l : labels) : bool := bool_decide (l !! LabelManagedBy = Some EndpointSliceManagedBy).

Section reflector.
Context `{AddressCodec} (LocalCluster RemoteCluster : string) (opts : ForgingOpts).
Context (localNamespace remoteNamespace : string) (rtype : ReflectionType) (localPodCIDRs : list IPNet).
(** The caches: labels of nodes, annotations of services, IP resources (address and
    remapped address). *)
Context (nodes : string → option (option labels)) (services : string → result kerr labels) (ips : result kerr (list (string * string))).

Definition EndpointToBeReflected (e : Endpoint) : bool :=
  match NodeName e with
  | None => true
  | Some n =>
    match nodes n with
    | None => false
    | Some l => match RetrieveRemoteClusterIDFromNode l with Err _ => false | Ok id => negb (bool_decide (id = RemoteCluster)) end
    end
  end.
Definition remote_endpoint (e : Endpoint) (translated : list string) : Endpoint :=
  mkEndpoint translated (ep_Ready e) None None (Hostname e) (RemoteEndpointTargetRef (TargetRef e)) (Some LocalCluster) (Zone e) (Hints e).
Definition RemoteObjectMeta_labels (local : labels) : labels := ReflectionLabels LocalCluster RemoteCluster ∪ local.
(** Labels and annotations of the remote object. *)
Definition RemoteEndpointSliceObjectMeta (localLabels localAnnotations : labels) : labels * labels :=
  (FilterNotReflected (EndpointSliceLabels ∪ RemoteObjectMeta_labels localLabels) (LabelsNotReflected opts),
   FilterNotReflected localAnnotations (AnnotationsNotReflected opts)).

(** ** The reflector (exposition/endpointslice.go) *)

Inductive eps_call :=
| CreateShadow (s : ShadowEndpointSlice)
| UpdateShadow (s : ShadowEndpointSlice)
| DeleteShadow (name uid : string).
(** The translations known for each endpoint slice, and the calls made. *)
Record eworld := mkEworld { translations : gmap string (gmap string string); ecalls : list eps_call }.
Notation E := (K eworld).
Context (answer : list eps_call → eps_call → option kerr).

Definition issue (c : eps_call) : E () := fun w =>
  Ret (mkEworld (translations w) (ecalls w ++ [c]), match answer (ecalls w) c with None => Ok () | Some e => Err e end).

Definition isLocalPodIP (ip : string) : bool := existsb (fun n => IPNet_Contains n (ParseIP ip)) localPodCIDRs.
Definition MapEndpointIPFromIPResource (original : string) : result kerr string :=
  match ips with
  | Err e => Err e
  | Ok l =>
    match List.find (fun x => bool_decide (x.1 = original)) l with
    | Some x => if bool_decide (x.2 = ""%string) then Err OtherErr else Ok x.2
    | None => Err OtherErr
    end
  end.
(** The loop over the addresses; the cache keeps what was found before an error. *)
Fixpoint map_ips (cache : gmap string string) (originals : list string) : gmap string string * result kerr (list string) :=
  match originals with
  | [] => (cache, Ok [])
  | a :: rest =>
    match cache !! a with
    | Some t => let '(c, r) := map_ips cache rest in (c, match r with Ok l => Ok (t :: l) | Err e => Err e end)
    | None =>
      match (if isLocalPodIP a then Ok a else MapEndpointIPFromIPResource a) with
      | Err _ => (cache, Err OtherErr)
      | Ok t => let '(c, r) := map_ips (<[a := t]> cache) rest in (c, match r with Ok l => Ok (t :: l) | Err e => Err e end)
      end
    end
  end.
Definition MapEndpointIPs (endpointslice : string) (originals : list string) (skipTranslation : bool) : E (list string) := fun w =>
  if skipTranslation then Ret (w, Ok originals)
  else
    let '(c, r) := map_ips (default ∅ (translations w !! endpointslice)) originals in
    Ret (mkEworld (<[endpointslice := c]> (translations w)) (ecalls w), r).

(** [RemoteEndpointSliceEndpoints] with the translator of the handler: nothing is
    translated after the first error. *)
Fixpoint RemoteEndpointSliceEndpoints (name : string) (skip : bool) (locals : list Endpoint) : E (list Endpoint) :=
  match locals with
  | [] => mret []
  | e :: rest =>
    if negb (EndpointToBeReflected e) then RemoteEndpointSliceEndpoints name skip rest
    else
      t ← MapEndpointIPs name (Addresses e) skip;
      l ← RemoteEndpointSliceEndpoints name skip rest;
      mret (remote_endpoint e t :: l)
  end.
Definition RemoteShadowEndpointSlice (local : EndpointSlice) (remote : option ShadowEndpointSlice) (skip : bool) : E ShadowEndpointSlice :=
  eps ← RemoteEndpointSliceEndpoints (es_Name local) skip (es_Endpoints local);
  let base := default (mkShadowEps (es_Name local) remoteNamespace "" ∅ ∅ "" [] []) remote in
  let '(l, a) := RemoteEndpointSliceObjectMeta (es_Labels local) (es_Annotations local) in
  mret (mkShadowEps (se_Name base) (se_Namespace base) (se_UID base) l a (es_AddressType local) eps (RemoteEndpointSlicePorts (es_Ports local))).

Definition EpsShouldSkipReflection (local : EndpointSlice) : result kerr bool :=
  match ForcedAllowOrSkip (es_Annotations local) with
  | Err e => Err e
  | Ok (Some b) => Ok b
  | Ok None =>
    match es_Labels local !! LabelServiceName with
    | None => ShouldSkipReflection rtype (es_Annotations local)
    | Some svc =>
      match services svc with
      | Err _ => ShouldSkipReflection rtype (es_Annotations local)
      | Ok a => ShouldSkipReflection rtype a
      end
    end
  end.
Definition ShouldProvideDirectConnectionData (local : EndpointSlice) : result kerr bool :=
  match es_Labels local !! LabelServiceName with
  | None => Ok false
  | Some svc =>
    match services svc with
    | Err NotFound => Ok false
    | Err e => Err e
    | Ok a => Ok (bool_decide (default ""%string (a !! UseDirectConnectionAnnotationKey) = "true"%string))
    end
  end.
Definition totalAnnotationsSize (a : labels) : Z :=
  map_fold (fun k v n => Z.of_nat (String.length k) + Z.of_nat (String.length v) + n) 0 a.
Definition shouldIncludeDataFromNode (nodeLabels : labels) (cluster : string) : bool :=
  bool_decide (nodeLabels !! TypeLabel = Some TypeNode) && negb (bool_decide (cluster = RemoteCluster)).
Definition connection_data (l : list Endpoint) : ClusterAddresses :=
  foldl (fun c e =>
    match NodeName e, TargetRef e with
    | Some n, Some _ =>
      match nodes n with
      | Some (Some lbl) =>
        match RetrieveRemoteClusterIDFromNode (Some lbl) with
        | Ok id => if shouldIncludeDataFromNode lbl id then Add c id (Addresses e) else c
        | Err _ => c
        end
      | _ => c
      end
    | _, _ => c
    end) ∅ l.
(** The data for the annotation, if there is any. *)
Definition marshaled_data (local : EndpointSlice) : result kerr (option string) :=
  let data := connection_data (es_Endpoints local) in
  if bool_decide (data = ∅) then Ok None
  else match ToJSON data with
       | None => Err OtherErr
       | Some s =>
         if maxAnnotationSize <=? Z.of_nat (String.length DirectConnectionDataAnnotationKey) + Z.of_nat (String.length s) + totalAnnotationsSize (es_Annotations local)
         then Err OtherErr else Ok (Some s)
       end.
Definition add_data (s : ShadowEndpointSlice) (d : option string) : ShadowEndpointSlice :=
  match d with
  | None => s
  | Some d => mkShadowEps (se_Name s) (se_Namespace s) (se_UID s) (se_Labels s) (<[DirectConnectionDataAnnotationKey := d]> (se_Annotations s))
                (se_AddressType s) (se_Endpoints s) (se_Ports s)
  end.
Definition ShouldUpdateShadowEndpointSlice (remote target : ShadowEndpointSlice) : bool :=
  negb (bool_decide (se_Labels remote = se_Labels target)) || negb (bool_decide (se_Annotations remote = se_Annotations target)) ||
  negb (bool_decide (se_AddressType remote = se_AddressType target)) || negb (bool_decide (se_Endpoints remote = se_Endpoints target)) ||
  negb (bool_decide (se_Ports remote = se_Ports target)).

Definition DeleteRemote (name uid : string) : E () :=
  r ← attempt (issue (DeleteShadow name uid)); match r with Ok _ | Err NotFound => mret () | Err e => fail e end.
Definition reflect_present (local : EndpointSlice) (remote : option ShadowEndpointSlice) : E () :=
  match ShouldProvideDirectConnectionData local with
  | Err e => fail e
  | Ok direct =>
    match (if direct then marshaled_data local else Ok None) with
    | Err e => fail e
    | Ok data =>
      target ← RemoteShadowEndpointSlice local remote direct;
      let target := add_data target data in
      match remote with
      | None =>
        r ← attempt (issue (CreateShadow target));
        match r with Ok _ | Err AlreadyExists => mret () | Err e => fail e end
      | Some remote => if ShouldUpdateShadowEndpointSlice remote target then issue (UpdateShadow target) else mret ()
      end
    end
  end.
Definition EpsHandle (name : string) (local : option EndpointSlice) (remote : option ShadowEndpointSlice) : E () :=
  if bool_decide (localNamespace = "default"%string) && bool_decide (name = "kubernetes"%string) then mret ()
  else
    let foreign := match remote with
                   | Some r => negb (IsReflected LocalCluster RemoteCluster (se_Labels r)) || negb (IsEndpointSliceManagedByReflection (se_Labels r))
                   | None => false
                   end in
    if foreign then mret ()
    else
      skip ← match local with
             | Some l => match EpsShouldSkipReflection l with Err e => fail e | Ok b => mret b end
             | None => mret false
             end;
      match (if (skip : bool) then None else local), remote with
      | Some l, _ => reflect_present l remote
      | None, Some r => DeleteRemote name (se_UID r)
      | None, None => mret ()
      end.

(** The endpoint slices of a service, which are handled when it changes. *)
Definition ServiceToEndpointSlicesKeyer (all : list EndpointSlice) (svc : string) : list string :=
  es_Name <$> List.filter (fun e => bool_decide (es_Labels e !! LabelServiceName = Some svc)) all.
End reflector.

(** ** Endpoint slices from shadow endpoint slices
      (src/pkg/liqo-controller-manager/offloading/shadowendpointslice-controller
         /{shadowendpointslice_controller,mapping,utils}.go, src/pkg/liqo-controller-manager/networking/utils)

    The provider makes an endpoint slice of each shadow endpoint slice it received:
    the addresses are mapped with the network configuration of the cluster they
    belong to, and the endpoints are ready only while that cluster is reachable. *)

Definition ManagedByLabelKey : string := "liqo.io/managed-by".
Definition ManagedByShadowEndpointSliceValue : string := "shadowendpointslice".

(** ** Mapping of addresses (mapping.go)

    [cfg] answers with the configuration of a cluster, or not. *)

Section mapping.
Context (cfg : string → option Remap.Configuration).

Definition force_map (cluster addr : string) : outcome (result kerr string) :=
  r ← ForceMapAddressWithConfiguration (Some <$> cfg cluster) addr;
  Ret (match r with Ok a => Ok a | Err _ => Err OtherErr end).
Definition plain_map (cluster addr : string) : outcome (result kerr string) :=
  r ← MapAddress (Some <$> cfg cluster) addr;
  Ret (match r with Ok a => Ok a | Err _ => Err OtherErr end).
Definition map_address (localCluster : string) (index : option (gmap string string)) (addr : string) : outcome (result kerr string) :=
  let mapping := default localCluster (LookupClusterID index addr) in
  if bool_decide (mapping = localCluster) then plain_map localCluster addr else force_map mapping addr.
Definition map_direct (index : option (gmap string string)) (addr : string) : outcome (result kerr string) :=
  match LookupClusterID index addr with None => Ret (Ok addr) | Some c => force_map c addr end.

Fixpoint map_all (f : string → outcome (result kerr string)) (l : list string) : outcome (result kerr (list string)) :=
  match l with
  | [] => Ret (Ok [])
  | a :: l =>
    r ← f a;
    match r with
    | Err e => Ret (Err e)
    | Ok a' => r ← map_all f l; match r with Err e => Ret (Err e) | Ok l' => Ret (Ok (a' :: l')) end
    end
  end.
Definition set_addresses (e : Endpoint) (l : list string) : Endpoint :=
  mkEndpoint l (ep_Ready e) (ep_Serving e) (ep_Terminating e) (Hostname e) (TargetRef e) (NodeName e) (Zone e) (Hints e).
Fixpoint map_endpoints (f : string → outcome (result kerr string)) (l : list Endpoint) : outcome (result kerr (list Endpoint)) :=
  match l with
  | [] => Ret (Ok [])
  | e :: l =>
    r ← map_all f (Addresses e);
    match r with
    | Err er => Ret (Err er)
    | Ok addrs => r ← map_endpoints f l; match r with Err er => Ret (Err er) | Ok l' => Ret (Ok (set_addresses e addrs :: l')) end
    end
  end.
Definition MapEndpointsWithConfiguration (localCluster : string) (l : list Endpoint) (index : option (gmap string string)) :
    outcome (result kerr (list Endpoint)) := map_endpoints (map_address localCluster index) l.
Definition MapOnlyDirectConnectionEndpoints (l : list Endpoint) (index : option (gmap string string)) : outcome (result kerr (list Endpoint)) :=
  map_endpoints (map_direct index) l.
End mapping.

Definition is_direct (index : option (gmap string string)) (e : Endpoint) : bool :=
  existsb (fun a => bool_decide (is_Some (LookupClusterID index a))) (Addresses e).
Definition FilterOutDirectConnectionEndpoints (l : list Endpoint) (index : option (gmap string string)) : list Endpoint :=
  match index with None => l | Some _ => List.filter (fun e => negb (is_direct index e)) l end.

(** ** The apply patch (utils.go): one condition and the zones of the hints *)

Definition EndpointHintsApply (h : option EndpointHints) : option EndpointHints := (fun h => mkHints (ForZones h) []) <$> h.
Definition EndpointsApply (l : list Endpoint) : list Endpoint :=
  (fun e => mkEndpoint (Addresses e) (ep_Ready e) None None (Hostname e) (TargetRef e) (NodeName e) (Zone e) (EndpointHintsApply (Hints e))) <$> l.
Record EpsObject := mkEpsObject {
  eo_Name : string; eo_Namespace : string; eo_Labels : labels; eo_Annotations : labels; eo_AddressType : string;
  eo_Endpoints : list Endpoint; eo_Ports : list string
}.
Definition EndpointSliceApply (o : EpsObject) : EpsObject :=
  mkEpsObject (eo_Name o) (eo_Namespace o) (eo_Labels o) (eo_Annotations o) (eo_AddressType o) (EndpointsApply (eo_Endpoints o)) (eo_Ports o).

(** ** The controller *)

Inductive eps_write := EpsCreate (o : EpsObject) | EpsPatch (o : EpsObject).

Section controller.
Context `{AddressCodec} (DenyDirectConnections : bool) (globalLabels globalAnnotations : labels).
(** The ForeignClusters of an identifier, the configurations, the order in which the
    clusters of the annotation are visited, and the answers to writes. *)
Context (fcs : string → result kerr (list ForeignCluster)) (cfg : string → option Remap.Configuration)
  (order : ClusterAddresses → list (string * list string)) (answer : eps_write → option kerr).
Notation W := (list eps_write).

Definition write (x : eps_write) : K W () := fun w =>
  match answer x with Some e => Ret (w, Err e) | None => Ret (w ++ [x], Ok ()) end.
Definition removeDirectConnectionAnnotation (a : labels) : labels := delete DirectConnectionDataAnnotationKey a.
Definition set_ready (b : bool) (e : Endpoint) : Endpoint :=
  match ep_Ready e with
  | Some false => e
  | _ => mkEndpoint (Addresses e) (Some b) (ep_Serving e) (ep_Terminating e) (Hostname e) (TargetRef e) (NodeName e) (Zone e) (Hints e)
  end.
Definition connection_index (s : ShadowEndpointSlice) : result kerr (option (gmap string string)) :=
  match se_Annotations s !! DirectConnectionDataAnnotationKey with
  | None => Ok None
  | Some v => match FromJSON v with None => Err OtherErr | Some c => Ok (BuildIndex (order c)) end
  end.
Definition remapped_endpoints (clusterID : string) (st : FcStatus) (index : option (gmap string string)) (l : list Endpoint) :
    outcome (result kerr (list Endpoint)) :=
  let l := if DenyDirectConnections then FilterOutDirectConnectionEndpoints l index else l in
  if IsNetworkingModuleEnabled st then MapEndpointsWithConfiguration cfg clusterID l index
  else match index with None => Ret (Ok l) | Some _ => MapOnlyDirectConnectionEndpoints cfg l index end.
Definition new_eps (s : ShadowEndpointSlice) (st : FcStatus) (l : list Endpoint) : EpsObject :=
  mkEpsObject (se_Name s) (se_Namespace s) (<[ManagedByLabelKey := ManagedByShadowEndpointSliceValue]> (se_Labels s))
    (removeDirectConnectionAnnotation (se_Annotations s)) (se_AddressType s)
    (set_ready (IsNetworkingEstablishedOrDisabled st && IsAPIServerReadyOrDisabled st) <$> l) (se_Ports s).
Definition with_globals (o : EpsObject) : EpsObject :=
  mkEpsObject (eo_Name o) (eo_Namespace o) (globalLabels ∪ eo_Labels o) (globalAnnotations ∪ eo_Annotations o) (eo_AddressType o) (eo_Endpoints o) (eo_Ports o).
(** [existing] is the answer about the endpoint slice of the same name. *)
Definition EpsReconcile (got : result kerr ShadowEndpointSlice) (existing : result kerr ()) : K W () :=
  match got with
  | Err NotFound => mret ()
  | Err e => fail e
  | Ok s =>
    match se_Labels s !! LiqoOriginClusterIDKey with
    | None => fail OtherErr
    | Some clusterID =>
      match (match fcs clusterID with Err e => Err e | Ok l => getForeignCluster l end) with
      | Err e => fail e
      | Ok fc =>
        match connection_index s with
        | Err e => fail e
        | Ok index =>
          l ← lift_outcome (remapped_endpoints clusterID (fc_Status fc) index (se_Endpoints s));
          let o := new_eps s (fc_Status fc) l in
          match existing with
          | Err NotFound => write (EpsCreate (with_globals o))
          | Err e => fail e
          | Ok _ => write (EpsPatch (EndpointSliceApply o))
          end
        end
      end
    end
  end.

(** ** What wakes the controller up *)

Definition validateForeignClusterOnUpdate (old new : FcStatus) : bool :=
  negb (bool_decide (IsNetworkingEstablishedOrDisabled old = IsNetworkingEstablishedOrDisabled new)) ||
  negb (bool_decide (IsAPIServerReadyOrDisabled old = IsAPIServerReadyOrDisabled new)).
(** The shadow endpoint slices a ForeignCluster wakes up. *)
Definition from_foreign_cluster (shadows : list ShadowEndpointSlice) (fc : ForeignCluster) : list string :=
  if bool_decide (fc_ClusterID fc = ""%string) then []
  else se_Name <$> List.filter (fun s => bool_decide (se_Labels s !! LiqoOriginClusterIDKey = Some (fc_ClusterID fc))) shadows.
(** [AreConfigurationNetworkCIDRsEqual], with the tunneled networks of the two. *)
Definition AreConfigurationNetworkCIDRsEqual (c1 c2 : Remap.Configuration) (t1 t2 : list string) : outcome bool :=
  if negb (Remap.AreConfigurationNetworkCIDRsConfigured c1) || negb (Remap.AreConfigurationNetworkCIDRsConfigured c2) then Ret false
  else match Remap.statusRemote c1, Remap.statusRemote c2 with
       | Some r1, Some r2 => Ret (bool_decide (Remap.External r1 = Remap.External r2) && bool_decide (Remap.Pod r1 = Remap.Pod r2) && bool_decide (t1 = t2))
       | _, _ => Panic
       end.
Definition validateNetworkConfigOnUpdate (old new : Remap.Configuration) (t1 t2 : list string) : outcome bool :=
  b ← AreConfigurationNetworkCIDRsEqual old new t1 t2; Ret (negb b).
(** [getShadowEndpointSlicesFromNetworkConfig]: the ones the field index knows under
    the cluster of the configuration. *)
Definition getShadowEndpointSlicesFromNetworkConfig (shadows : list ShadowEndpointSlice) (configLabels : labels) : list string :=
  let id := default ""%string (configLabels !! RemoteClusterIDKey) in
  if bool_decide (id = ""%string) then []
  else se_Name <$> List.filter (fun s => bool_decide (id ∈ ExtractDirectConnectionClusterIDs (se_Annotations s))) shadows.
End controller.
