(* ===== verification/ShadowEpsProps.v ===== *)
(** * ShadowEpsProps: the endpoints of a service as the remote cluster sees them

    What the virtual kubelet reflects and what the provider makes of it, together:
    which endpoints appear, under which addresses, and when they are ready.  A
    reflection settles; objects of others are not touched; endpoints over denied
    direct connections never appear. *)

From S2P Require Import KubeClient ForeignCluster ForeignClusterProps EndpointSlice.
From Stdlib Require Import Ascii.
Local Open Scope Z_scope.

(** ** Translation through the cache *)

Section translate.
Context (localPodCIDRs : list IPNet) (ips : result kerr (list (string * string))).
Notation resource := (MapEndpointIPFromIPResource ips).

Definition translate (a : string) : result kerr string := if isLocalPodIP localPodCIDRs a then Ok a else resource a.
Definition cache_ok (c : gmap string string) : Prop := ∀ a t, c !! a = Some t → translate a = Ok t.

Lemma map_ips_ok l : ∀ c c' r, cache_ok c → map_ips localPodCIDRs ips c l = (c', r) →
  cache_ok c' ∧ (∀ ts, r = Ok ts ↔ Forall2 (fun a t => translate a = Ok t) l ts).
Proof.
  induction l as [|a l IH]; intros c c' r Hc; cbn [map_ips].
  { intros [= <- <-]. split; [done|]. intros ts. split; [intros [= <-]; constructor|]. by inversion 1. }
  assert (Hstep : ∀ c1 t, cache_ok c1 → translate a = Ok t →
    (let '(c2, r2) := map_ips localPodCIDRs ips c1 l in (c2, match r2 with Ok l => Ok (t :: l) | Err e => Err e end)) = (c', r) →
    cache_ok c' ∧ (∀ ts, r = Ok ts ↔ Forall2 (fun a t => translate a = Ok t) (a :: l) ts)).
  { intros c1 t Hc1 Ht. destruct (map_ips localPodCIDRs ips c1 l) as [c2 r2] eqn:E. destruct (IH _ _ _ Hc1 E) as [Hc2 Hr2]. intros [= <- <-].
    split; [done|]. intros ts. split.
    - destruct r2 as [l2|]; [|done]. intros [= <-]. constructor; [done|by apply Hr2].
    - intros (t' & ts' & Ht' & Hts & ->)%Forall2_cons_inv_l. apply Hr2 in Hts as ->. congruence. }
  destruct (c !! a) as [t|] eqn:Ea; [by apply Hstep, Hc|]. fold (translate a).
  destruct (translate a) as [t|e] eqn:Et.
  - apply Hstep; [|done]. intros a' t'. rewrite lookup_insert_Some. intros [[<- <-]|[_ ?]]; [done|by apply Hc].
  - intros [= <- <-]. split; [done|]. intros ts. split; [done|]. intros (t' & ts' & Ht' & _)%Forall2_cons_inv_l. congruence.
Qed.
End translate.

(** ** Reflection *)

Section reflection.
Context `{AddressCodec} (LocalCluster RemoteCluster : string) (opts : ForgingOpts).
Context (localNamespace remoteNamespace : string) (rtype : ReflectionType) (localPodCIDRs : list IPNet).
Context (nodes : string → option (option labels)) (services : string → result kerr labels) (ips : result kerr (list (string * string))).
Context (answer : list eps_call → eps_call → option kerr).
Notation Handle := (EpsHandle LocalCluster RemoteCluster opts localNamespace remoteNamespace rtype localPodCIDRs nodes services ips answer).
Notation present := (reflect_present LocalCluster RemoteCluster opts remoteNamespace localPodCIDRs nodes services ips answer).
Notation forge_eps := (RemoteEndpointSliceEndpoints LocalCluster RemoteCluster localPodCIDRs nodes ips).
Notation reflected := (EndpointToBeReflected RemoteCluster nodes).
Notation tr := (translate localPodCIDRs ips).

Definition caches_ok (w : eworld) : Prop := ∀ name c, translations w !! name = Some c → cache_ok localPodCIDRs ips c.
(** An endpoint and its image in the remote cluster. *)
Definition image (skip : bool) (e e' : Endpoint) : Prop :=
  ∃ ts, (if skip then ts = Addresses e else Forall2 (fun a t => tr a = Ok t) (Addresses e) ts) ∧ e' = remote_endpoint LocalCluster e ts.

Lemma MapEndpointIPs_ok name l skip w w' r : caches_ok w → MapEndpointIPs localPodCIDRs ips name l skip w = Ret (w', r) →
  caches_ok w' ∧ ecalls w' = ecalls w ∧
  ∀ ts, r = Ok ts ↔ (if skip then ts = l else Forall2 (fun a t => tr a = Ok t) l ts).
Proof.
  intros Hc. unfold MapEndpointIPs. destruct skip; [intros [= <- <-]; repeat split; [done|intros ?; congruence..]|].
  destruct (map_ips _ _ _ _) as [c q] eqn:E. intros [= <- <-].
  assert (H0 : cache_ok localPodCIDRs ips (default ∅ (translations w !! name))).
  { destruct (translations w !! name) as [c0|] eqn:E0; [by eapply Hc|]. by intros ??. }
  destruct (map_ips_ok _ _ _ _ _ _ H0 E) as [Hc' Hr]. split; [|done].
  intros n c1. cbn. rewrite lookup_insert_Some. intros [[_ <-]|[_ ?]]; [done|by eapply Hc].
Qed.
Lemma forge_eps_ok name skip l : ∀ w w' r, caches_ok w → forge_eps name skip l w = Ret (w', r) →
  caches_ok w' ∧ ecalls w' = ecalls w ∧ ∀ es, r = Ok es ↔ Forall2 (image skip) (List.filter reflected l) es.
Proof.
  induction l as [|e l IH]; intros w w' r Hc; cbn [RemoteEndpointSliceEndpoints List.filter].
  { intros [= <- <-]. split; [done|]. split; [done|]. intros es. split; [intros [= <-]; constructor|]. by inversion 1. }
  destruct (reflected e); cbn [negb]; [|by apply IH].
  intros [(ts & w1 & E1 & E2)|(er & E1 & ->)]%K_bind_inv; destruct (MapEndpointIPs_ok _ _ _ _ _ _ Hc E1) as (Hc1 & Hw1 & Ht).
  - apply K_bind_inv in E2 as [(es & w2 & E2 & [= <- <-])|(er & E2 & ->)]; destruct (IH _ _ _ Hc1 E2) as (Hc2 & Hw2 & He);
      (split; [done|]; split; [congruence|]); intros es'; split.
    + intros [= <-]. constructor; [exists ts; split; [by apply Ht|done]|by apply He].
    + intros (x & xs & (ts' & Hts & ->) & Hxs & ->)%Forall2_cons_inv_l. apply Ht in Hts. apply He in Hxs. congruence.
    + done.
    + intros (x & xs & _ & Hxs & ->)%Forall2_cons_inv_l. apply He in Hxs. congruence.
  - split; [done|]. split; [done|]. intros es. split; [done|]. intros (x & xs & (ts' & Hts & _) & _ & _)%Forall2_cons_inv_l. apply Ht in Hts. congruence.
Qed.

Lemma MapEndpointIPs_returns name l skip w : ∃ w' r, MapEndpointIPs localPodCIDRs ips name l skip w = Ret (w', r).
Proof. unfold MapEndpointIPs. destruct skip; [eauto|]. destruct (map_ips _ _ _ _). eauto. Qed.
Lemma forge_eps_returns name skip l : ∀ w, ∃ w' r, forge_eps name skip l w = Ret (w', r).
Proof.
  induction l as [|e l IH]; intros w; cbn [RemoteEndpointSliceEndpoints]; [by eexists _, _|]. destruct (reflected e); cbn [negb]; [|apply IH].
  destruct (MapEndpointIPs_returns name (Addresses e) skip w) as (w1 & [ts|er] & E1); unfold mbind, K_bind; rewrite E1; [|by eexists _, _].
  destruct (IH w1) as (w2 & [es|er] & E2); rewrite E2; by eexists _, _.
Qed.

(** The forged object: its metadata and endpoints. *)
Record forged (l : EndpointSlice) (direct : bool) (data : option string) (t : ShadowEndpointSlice) : Prop := {
  fg_labels : se_Labels t = (RemoteEndpointSliceObjectMeta LocalCluster RemoteCluster opts (es_Labels l) (es_Annotations l)).1;
  fg_annotations : se_Annotations t =
    match data with
    | None => (RemoteEndpointSliceObjectMeta LocalCluster RemoteCluster opts (es_Labels l) (es_Annotations l)).2
    | Some d => <[DirectConnectionDataAnnotationKey := d]> (RemoteEndpointSliceObjectMeta LocalCluster RemoteCluster opts (es_Labels l) (es_Annotations l)).2
    end;
  fg_type : se_AddressType t = es_AddressType l;
  fg_endpoints : Forall2 (image direct) (List.filter reflected (es_Endpoints l)) (se_Endpoints t);
  fg_ports : se_Ports t = es_Ports l
}.
(** What is decided before anything is forged. *)
Definition decided (l : EndpointSlice) (direct : bool) (data : option string) : Prop :=
  ShouldProvideDirectConnectionData services l = Ok direct ∧ (if direct then marshaled_data RemoteCluster nodes l else Ok None) = Ok data.
Lemma present_inv l remote w w' r : caches_ok w → present l remote w = Ret (w', r) → caches_ok w' ∧
  ((∃ e, r = Err e ∧ ecalls w' = ecalls w) ∨
   ∃ direct data t, decided l direct data ∧ forged l direct data t ∧
     match remote with
     | None => ecalls w' = ecalls w ++ [CreateShadow t] ∧ se_Name t = es_Name l ∧ se_Namespace t = remoteNamespace
     | Some x => if ShouldUpdateShadowEndpointSlice x t then ecalls w' = ecalls w ++ [UpdateShadow t] else ecalls w' = ecalls w ∧ r = Ok ()
     end).
Proof.
  intros Hc. unfold reflect_present. destruct (ShouldProvideDirectConnectionData services l) as [direct|e] eqn:Ed; [|intros [= <- <-]; split; [done|left; eauto]].
  destruct (if direct then _ else _) as [data|e] eqn:Em; [|intros [= <- <-]; split; [done|left; eauto]].
  unfold RemoteShadowEndpointSlice. intros [(t & w1 & E1 & E2)|(e & E1 & ->)]%K_bind_inv.
  2: { apply K_bind_inv in E1 as [(es & w2 & _ & [= _])|(e' & E1 & _)]. destruct (forge_eps_ok _ _ _ _ _ _ Hc E1) as (Hc1 & Hw & _).
    split; [done|]. left. eauto. }
  apply K_bind_inv in E1 as [(es & w2 & E1 & [= <- <-])|(e' & _ & ?)]; [|done].
  destruct (forge_eps_ok _ _ _ _ _ _ Hc E1) as (Hc1 & Hw & He). pose proof (proj1 (He es) eq_refl) as Hes.
  set (target := add_data _ data) in E2.
  assert (Hf : forged l direct data target) by (subst target; by destruct data).
  destruct remote as [x|].
  - destruct (ShouldUpdateShadowEndpointSlice x target) eqn:Eu.
    + unfold issue in E2. injection E2 as <- <-. split; [done|]. right. exists direct, data, target. rewrite Eu. cbn. by rewrite Hw.
    + injection E2 as <- <-. split; [done|]. right. exists direct, data, target. rewrite Eu. by rewrite Hw.
  - assert (Hcalls : caches_ok w' ∧ ecalls w' = ecalls w ++ [CreateShadow target]).
    { apply K_bind_inv in E2 as [(q & w3 & (x & Ei & _)%attempt_inv & E3)|(e' & (x & _ & ?)%attempt_inv & _)]; [|done].
      unfold issue in Ei. injection Ei as <- _. destruct q as [[]|[]]; injection E3 as <- _; cbn; by rewrite Hw. }
    destruct Hcalls as [Hc' Hcalls]. split; [done|]. right. exists direct, data, target. split; [done|]. split; [done|]. split; [done|]. by destruct data.
Qed.

(** ** Objects of others *)

Definition ours (x : ShadowEndpointSlice) : Prop :=
  IsReflected LocalCluster RemoteCluster (se_Labels x) = true ∧ IsEndpointSliceManagedByReflection (se_Labels x) = true.
Definition justified (name : string) (local : option EndpointSlice) (remote : option ShadowEndpointSlice) (c : eps_call) : Prop :=
  match c with
  | CreateShadow t => remote = None ∧ ∃ l, local = Some l ∧ se_Name t = es_Name l ∧ se_Namespace t = remoteNamespace
  | UpdateShadow t => ∃ x, remote = Some x ∧ ours x ∧ se_UID t = se_UID x
  | DeleteShadow n uid => ∃ x, remote = Some x ∧ ours x ∧ n = name ∧ uid = se_UID x
  end.
Definition at_most (P : eps_call → Prop) (w w' : eworld) : Prop := ecalls w' = ecalls w ∨ ∃ c, P c ∧ ecalls w' = ecalls w ++ [c].
Lemma forge_eps_calls name skip l : ∀ w w' r, forge_eps name skip l w = Ret (w', r) → ecalls w' = ecalls w.
Proof.
  intros w w' r. assert (Hp : preserves (fun x => ecalls x = ecalls w) (forge_eps name skip l)); [|by apply (Hp w w' r)].
  induction l as [|e l IH]; cbn [RemoteEndpointSliceEndpoints]; [apply preserves_ret|]. destruct (reflected e); cbn [negb]; [|done].
  apply preserves_bind; [|intros ts; apply preserves_bind; [done|intros es; apply preserves_ret]].
  intros x x' q Hx. unfold MapEndpointIPs. destruct skip; [by intros [= <- _]|]. destruct (map_ips _ _ _ _). by intros [= <- _].
Qed.
Lemma present_calls name l remote w w' r : match remote with Some x => ours x | None => True end → present l remote w = Ret (w', r) →
  at_most (justified name (Some l) remote) w w'.
Proof.
  intros Ho. unfold reflect_present. destruct (ShouldProvideDirectConnectionData services l) as [direct|e]; [|intros [= <- _]; by left].
  destruct (if direct then _ else _) as [data|e]; [|intros [= <- _]; by left].
  unfold RemoteShadowEndpointSlice. intros [(t & w1 & E1 & E2)|(e & E1 & ->)]%K_bind_inv.
  2: { apply K_bind_inv in E1 as [(es & w2 & _ & [= _])|(e' & E1%forge_eps_calls & _)]. by left. }
  apply K_bind_inv in E1 as [(es & w2 & E1%forge_eps_calls & [= <- <-])|(e' & _ & ?)]; [|done].
  set (target := add_data _ data) in E2. destruct remote as [x|].
  - destruct (ShouldUpdateShadowEndpointSlice x target); [|injection E2 as <- _; left; done].
    injection E2 as <- _. right. exists (UpdateShadow target). cbn. rewrite E1. split; [|done]. exists x. split; [done|]. split; [done|]. by destruct data.
  - right. exists (CreateShadow target). split; [split; [done|]; exists l; split; [done|]; by destruct data|].
    apply K_bind_inv in E2 as [(q & w3 & (x & Ei & _)%attempt_inv & E3)|(e' & (x & _ & ?)%attempt_inv & _)]; [|done].
    injection Ei as <- _. rewrite <- E1. destruct q as [[]|[]]; by injection E3 as <- _.
Qed.

(** The handler of an endpoint slice makes at most one call: it creates a shadow
    endpoint slice only where there is none, and updates or deletes only one that
    carries the marks of the reflection between the two clusters, the very object it
    has seen. *)
Theorem reflected_slices_ours name local remote w w' r : Handle name local remote w = Ret (w', r) → at_most (justified name local remote) w w'.
Proof.
  unfold EpsHandle. destruct (bool_decide _ && _); [intros [= <- _]; by left|].
  destruct (match remote with Some _ => _ | None => _ end) eqn:Hf; [intros [= <- _]; by left|].
  assert (Ho : match remote with Some x => ours x | None => True end).
  { destruct remote as [x|]; [|done]. apply orb_false_iff in Hf as [H1 H2]. by split; apply negb_false_iff. }
  intros [(skip & w1 & E1 & E2)|(e & E1 & _)]%K_bind_inv.
  2: { left. destruct local as [l|]; [|done]. destruct (EpsShouldSkipReflection rtype services l); by injection E1 as <- _. }
  assert (w1 = w) as ->. { destruct local as [l|]; [|by injection E1]. destruct (EpsShouldSkipReflection rtype services l); [by injection E1|done]. }
  destruct (if skip then None else local) as [l|] eqn:El.
  - assert (local = Some l) as -> by (by destruct skip). by eapply present_calls.
  - destruct remote as [x|]; [|injection E2 as <- _; by left]. right. exists (DeleteShadow name (se_UID x)). split; [by exists x|].
    apply K_bind_inv in E2 as [(q & w3 & (y & Ei & _)%attempt_inv & E3)|(e' & (y & _ & ?)%attempt_inv & _)]; [|done].
    injection Ei as <- _. destruct q as [[]|[]]; by injection E3 as <- _.
Qed.

(** ** The reflection settles *)

Lemma handle_created name l w w' r t : caches_ok w → Handle name (Some l) None w = Ret (w', r) → ecalls w' = ecalls w ++ [CreateShadow t] →
  caches_ok w' ∧ (bool_decide (localNamespace = "default"%string) && bool_decide (name = "kubernetes"%string)) = false ∧
  EpsShouldSkipReflection rtype services l = Ok false ∧ ∃ direct data, decided l direct data ∧ forged l direct data t.
Proof.
  intros Hc. unfold EpsHandle.
  assert (Hno : ecalls w ≠ ecalls w ++ [CreateShadow t]) by (intros Hx%(f_equal List.length); rewrite length_app in Hx; cbn in Hx; lia).
  destruct (bool_decide _ && _); [by intros [= <- _] Hx|]. destruct (EpsShouldSkipReflection rtype services l) as [[|]|e]; cbn; [by intros [= <- _]| |by intros [= <- _]].
  intros E Hw. destruct (present_inv _ _ _ _ _ Hc E) as [Hc' [(e & _ & He)|(direct & data & t' & Hd & Hf & Hx & _)]]; [congruence|].
  assert (t' = t) as -> by (rewrite Hw in Hx; by simplify_list_eq). eauto 9.
Qed.
Definition marks_kept : Prop :=
  LiqoOriginClusterIDKey ∉ LabelsNotReflected opts ∧ LiqoDestinationClusterIDKey ∉ LabelsNotReflected opts ∧ LabelManagedBy ∉ LabelsNotReflected opts.
Lemma filter_kept (m : labels) bl k v : m !! k = Some v → k ∉ bl → FilterNotReflected m bl !! k = Some v.
Proof.
  intros Hm Hk. unfold FilterNotReflected, Filter. apply map_lookup_filter_Some. split; [done|]. cbn. unfold FilterBlacklist, FilterWhitelist.
  apply negb_true_iff, existsb_false_iff. intros x Hx. apply bool_decide_eq_false. by intros ->.
Qed.
Lemma forged_ours l direct data t : marks_kept → forged l direct data t → ours t.
Proof.
  intros (H1 & H2 & H3) Hf.
  assert (Ho : ∀ k v, ReflectionLabels LocalCluster RemoteCluster !! k = Some v → k ≠ LabelManagedBy → k ∉ LabelsNotReflected opts → se_Labels t !! k = Some v).
  { intros k v Hv Hk Hn. rewrite (fg_labels _ _ _ _ Hf). apply filter_kept; [|done].
    rewrite lookup_union_r by (unfold EndpointSliceLabels; by rewrite lookup_singleton_ne). by apply lookup_union_Some_l. }
  unfold ours, IsReflected, IsEndpointSliceManagedByReflection. rewrite (Ho LiqoOriginClusterIDKey LocalCluster), (Ho LiqoDestinationClusterIDKey RemoteCluster) by done.
  rewrite !bool_decide_true by done. split; [done|]. apply bool_decide_eq_true. rewrite (fg_labels _ _ _ _ Hf). apply filter_kept; [|done].
  apply lookup_union_Some_l, lookup_singleton_eq.
Qed.
Lemma image_functional skip e e1 e2 : image skip e e1 → image skip e e2 → e1 = e2.
Proof.
  intros (ts1 & H1 & ->) (ts2 & H2 & ->). f_equal. destruct skip; [congruence|]. revert ts2 H2.
  induction H1 as [|a t l ts Ht _ IH]; intros ts2; [by inversion 1|]. intros (t' & ts' & Ht' & Hts & ->)%Forall2_cons_inv_l. f_equal; [congruence|by apply IH].
Qed.
Lemma forged_unique l direct data t x : forged l direct data t → forged l direct data x → ShouldUpdateShadowEndpointSlice t x = false.
Proof.
  intros [L1 A1 T1 E1 P1] [L2 A2 T2 E2 P2]. unfold ShouldUpdateShadowEndpointSlice. rewrite L1, L2, A1, A2, T1, T2, P1, P2.
  assert (se_Endpoints t = se_Endpoints x) as ->.
  { revert E1 E2. generalize (se_Endpoints t) (se_Endpoints x) (List.filter reflected (es_Endpoints l)). intros l1 l2 l0 E1. revert l2.
    induction E1 as [|e e1 l0 l1 He _ IH]; intros l2; [by inversion 1|]. intros (e2 & l2' & He2 & Hl2 & ->)%Forall2_cons_inv_l.
    f_equal; [by eapply image_functional|by apply IH]. }
  by rewrite !bool_decide_true.
Qed.
Lemma forge_target l remote direct es w : caches_ok w → Forall2 (image direct) (List.filter reflected (es_Endpoints l)) es →
  let base := default (mkShadowEps (es_Name l) remoteNamespace "" ∅ ∅ "" [] []) remote in
  let meta := RemoteEndpointSliceObjectMeta LocalCluster RemoteCluster opts (es_Labels l) (es_Annotations l) in
  ∃ w', RemoteShadowEndpointSlice LocalCluster RemoteCluster opts remoteNamespace localPodCIDRs nodes ips l remote direct w =
    Ret (w', Ok (mkShadowEps (se_Name base) (se_Namespace base) (se_UID base) meta.1 meta.2 (es_AddressType l) es (es_Ports l))) ∧ ecalls w' = ecalls w.
Proof.
  intros Hc He base meta. destruct (forge_eps_returns (es_Name l) direct (es_Endpoints l) w) as (w' & q & E).
  destruct (forge_eps_ok _ _ _ _ _ _ Hc E) as (_ & Hw & Hq). apply Hq in He as ->. exists w'. split; [|done].
  unfold RemoteShadowEndpointSlice. by erewrite K_bind_ok by exact E.
Qed.
(** What a server stores of a shadow endpoint slice it was given. *)
Definition stored (t x : ShadowEndpointSlice) : Prop :=
  se_Labels x = se_Labels t ∧ se_Annotations x = se_Annotations t ∧ se_AddressType x = se_AddressType t ∧ se_Endpoints x = se_Endpoints t ∧ se_Ports x = se_Ports t.

(** Once the shadow endpoint slice that was forged is stored in the remote
    cluster, handling the unchanged endpoint slice again does nothing, unless the
    labels that mark reflected objects are configured not to be reflected. *)
Theorem reflection_settles name l t x w w1 r : marks_kept → caches_ok w →
  Handle name (Some l) None w = Ret (w1, r) → ecalls w1 = ecalls w ++ [CreateShadow t] → stored t x →
  ∃ w2, Handle name (Some l) (Some x) w1 = Ret (w2, Ok ()) ∧ ecalls w2 = ecalls w1.
Proof.
  intros Hm Hc E Hw (S1 & S2 & S3 & S4 & S5). destruct (handle_created _ _ _ _ _ _ Hc E Hw) as (Hc1 & Hbl & Hskip & direct & data & [Hd1 Hd2] & Hf).
  assert (Hfx : forged l direct data x) by (destruct Hf; split; congruence). destruct (forged_ours _ _ _ _ Hm Hfx) as [Ho1 Ho2].
  unfold EpsHandle. rewrite Hbl, Ho1, Ho2, Hskip. cbn [negb orb].
  destruct (forge_target l (Some x) direct _ w1 Hc1 (fg_endpoints _ _ _ _ Hfx)) as (w2 & E2 & Hw2). exists w2. split; [|done].
  erewrite K_bind_ok by reflexivity. cbn beta iota. unfold reflect_present. rewrite Hd1, Hd2. erewrite K_bind_ok by exact E2. cbn beta iota zeta.
  match goal with |- context [ShouldUpdateShadowEndpointSlice x ?y] => rewrite (forged_unique l direct data x y); [done|done|] end.
  destruct data; split; cbn; try done; apply (fg_endpoints _ _ _ _ Hfx).
Qed.
End reflection.

(** ** The provider *)

Lemma map_all_ok f l l' : map_all f l = Ret (Ok l') ↔ Forall2 (fun a a' => f a = Ret (Ok a')) l l'.
Proof.
  revert l'. induction l as [|a l IH]; intros l'; cbn [map_all].
  { split; [intros [= <-]; constructor|]. by inversion 1. }
  split.
  - destruct (f a) as [[a'|]| |] eqn:Ea; cbn; [|done..]. destruct (map_all f l) as [[l2|]| |] eqn:El; cbn; [|done..].
    intros [= <-]. constructor; [done|]. by apply IH.
  - intros (a' & l2 & Ha & Hl & ->)%Forall2_cons_inv_l. rewrite Ha. cbn. apply IH in Hl. by rewrite Hl.
Qed.
Lemma map_endpoints_ok f l l' : map_endpoints f l = Ret (Ok l') ↔
  Forall2 (fun e e' => ∃ as', Forall2 (fun a a' => f a = Ret (Ok a')) (Addresses e) as' ∧ e' = set_addresses e as') l l'.
Proof.
  revert l'. induction l as [|e l IH]; intros l'; cbn [map_endpoints].
  { split; [intros [= <-]; constructor|]. by inversion 1. }
  split.
  - destruct (map_all f (Addresses e)) as [[as'|]| |] eqn:Ea; cbn; [|done..]. destruct (map_endpoints f l) as [[l2|]| |] eqn:El; cbn; [|done..].
    intros [= <-]. constructor; [exists as'; split; [by apply map_all_ok|done]|]. by apply IH.
  - intros (e' & l2 & (as' & Ha & ->) & Hl & ->)%Forall2_cons_inv_l. apply map_all_ok in Ha. rewrite Ha. cbn. apply IH in Hl. by rewrite Hl.
Qed.

Lemma filter_out_direct l index : FilterOutDirectConnectionEndpoints l index = List.filter (fun e => negb (is_direct index e)) l.
Proof.
  unfold FilterOutDirectConnectionEndpoints. destruct index; [done|]. symmetry. induction l as [|e l IH]; [done|]. cbn [List.filter].
  assert (is_direct None e = false) as -> by (unfold is_direct; apply existsb_false_iff; intros a _; by rewrite bool_decide_false by (by intros [? ?])).
  cbn [negb]. by rewrite IH.
Qed.

Section provider.
Context `{AddressCodec} (Deny : bool) (globalLabels globalAnnotations : labels).
Context (fcs : string → result kerr (list ForeignCluster)) (cfg : string → option Remap.Configuration)
  (order : ClusterAddresses → list (string * list string)) (wanswer : eps_write → option kerr).
Notation Reconcile := (EpsReconcile Deny globalLabels globalAnnotations fcs cfg order wanswer).

Definition written_endpoints (x : eps_write) : list Endpoint := match x with EpsCreate o | EpsPatch o => eo_Endpoints o end.
Definition written_annotations (x : eps_write) : labels := match x with EpsCreate o => eo_Annotations o | EpsPatch o => eo_Annotations o end.
Definition reachable_now (st : FcStatus) : bool := IsNetworkingEstablishedOrDisabled st && IsAPIServerReadyOrDisabled st.
(** The endpoints as they are written: created whole, or patched. *)
Definition as_written (existing : result kerr ()) (l : list Endpoint) : list Endpoint := match existing with Ok _ => EndpointsApply l | Err _ => l end.
(** A reconciliation that wrote: the cluster, the index and the mapped endpoints. *)
Lemma reconcile_written s existing ws ws' r : Reconcile (Ok s) existing ws = Ret (ws', r) → ws' ≠ ws →
  ∃ c l0 fc index l x, se_Labels s !! LiqoOriginClusterIDKey = Some c ∧ fcs c = Ok l0 ∧ getForeignCluster l0 = Ok fc ∧
    connection_index order s = Ok index ∧ remapped_endpoints Deny cfg c (fc_Status fc) index (se_Endpoints s) = Ret (Ok l) ∧
    ws' = ws ++ [x] ∧ written_endpoints x = as_written existing (set_ready (reachable_now (fc_Status fc)) <$> l).
Proof.
  unfold EpsReconcile. intros E Hne. destruct (se_Labels s !! LiqoOriginClusterIDKey) as [c|]; [|injection E as <- _; done].
  destruct (fcs c) as [l0|] eqn:Ef; [|injection E as <- _; done]. destruct (getForeignCluster l0) as [fc|] eqn:Eg; [|injection E as <- _; done].
  destruct (connection_index order s) as [index|] eqn:Ei; [|injection E as <- _; done].
  apply K_bind_inv in E as [(l & w1 & [-> El]%lift_outcome_ret & E)|(e & [-> _]%lift_outcome_ret & _)]; [|done].
  assert (∃ x, write wanswer x ws = Ret (ws', r) ∧ written_endpoints x = as_written existing (set_ready (reachable_now (fc_Status fc)) <$> l)) as (x & Ew & Hx).
  { destruct existing as [[]|[]]; try (injection E as <- _; done); eexists; by split; [exact E|]. }
  unfold write in Ew. destruct (wanswer x); injection Ew as <- _; [done|]. eauto 15.
Qed.
Lemma as_written_in existing l e' : e' ∈ as_written existing l → ∃ e, e ∈ l ∧ Addresses e' = Addresses e ∧ ep_Ready e' = ep_Ready e.
Proof.
  destruct existing; cbn; [|eauto]. unfold EndpointsApply. intros (e & -> & He)%list_elem_of_fmap. eauto.
Qed.

(** While the network connection of the cluster an endpoint slice comes from is not
    established, or its API server does not answer, every endpoint that is written is
    not ready. *)
Theorem unreachable_not_ready s existing ws ws' r c l0 fc x e :
  se_Labels s !! LiqoOriginClusterIDKey = Some c → fcs c = Ok l0 → getForeignCluster l0 = Ok fc →
  IsNetworkingEstablishedOrDisabled (fc_Status fc) = false ∨ IsAPIServerReadyOrDisabled (fc_Status fc) = false →
  Reconcile (Ok s) existing ws = Ret (ws', r) → ws' = ws ++ [x] → e ∈ written_endpoints x → ep_Ready e = Some false.
Proof.
  intros Hc Hl Hfc Hun E Hx He.
  assert (Hne : ws' ≠ ws) by (rewrite Hx; intros Hy%(f_equal List.length); rewrite length_app in Hy; cbn in Hy; lia).
  destruct (reconcile_written _ _ _ _ _ E Hne) as (c' & l0' & fc' & index & l & x' & Hc' & Hl' & Hfc' & _ & _ & Hx' & Hw).
  assert (fc' = fc) as -> by congruence. assert (x' = x) as -> by (rewrite Hx in Hx'; by simplify_list_eq). rewrite Hw in He.
  destruct (as_written_in _ _ _ He) as (e1 & He1 & _ & ->). apply list_elem_of_fmap in He1 as (e0 & -> & _).
  assert (reachable_now (fc_Status fc) = false) as -> by (unfold reachable_now; destruct Hun as [-> | ->]; [done|apply andb_false_r]).
  unfold set_ready. by destruct (ep_Ready e0) as [[]|] eqn:Er.
Qed.

(** With direct connections denied, no endpoint is written for an endpoint of the
    shadow slice that has an address listed in its direct-connection data. *)
Theorem denied_endpoints_absent s existing ws ws' r x index : Deny = true → connection_index order s = Ok index →
  Reconcile (Ok s) existing ws = Ret (ws', r) → ws' = ws ++ [x] →
  ∃ l, Forall2 (fun e e' => Hostname e' = Hostname e ∧ TargetRef e' = TargetRef e ∧ List.length (Addresses e') = List.length (Addresses e))
         (List.filter (fun e => negb (is_direct index e)) (se_Endpoints s)) l ∧ written_endpoints x = as_written existing l.
Proof.
  intros HD Hi E Hx.
  assert (Hne : ws' ≠ ws) by (rewrite Hx; intros Hy%(f_equal List.length); rewrite length_app in Hy; cbn in Hy; lia).
  destruct (reconcile_written _ _ _ _ _ E Hne) as (c & l0 & fc & index' & l & x' & _ & _ & _ & Hi' & Hm & Hx' & Hw).
  assert (index' = index) as -> by congruence. assert (x' = x) as -> by (rewrite Hx in Hx'; by simplify_list_eq).
  eexists. split; [|exact Hw]. unfold remapped_endpoints in Hm. rewrite HD in Hm.
  rewrite filter_out_direct in Hm.
  assert (Hlen : ∀ f l1 l2, map_endpoints f l1 = Ret (Ok l2) →
    Forall2 (fun e e' => Hostname e' = Hostname e ∧ TargetRef e' = TargetRef e ∧ List.length (Addresses e') = List.length (Addresses e)) l1 (set_ready (reachable_now (fc_Status fc)) <$> l2)).
  { intros f l1 l2 H2%map_endpoints_ok. apply Forall2_fmap_r. eapply Forall2_impl; [exact H2|]. intros e e' (as' & Ha & ->). apply Forall2_length in Ha.
    unfold set_ready. cbn. destruct (ep_Ready e) as [[]|]; cbn; by rewrite Ha. }
  destruct (IsNetworkingModuleEnabled _); [by apply (Hlen _ _ _ Hm)|]. destruct index; [by apply (Hlen _ _ _ Hm)|].
  injection Hm as <-. apply Forall2_fmap_r. apply Forall_Forall2_diag, Forall_forall. intros e _. unfold set_ready. cbn. by destruct (ep_Ready e) as [[]|].
Qed.
End provider.

(** ** Both sides together *)

Section elsewhere.
Context (RemoteCluster : string) (nodes : string → option (option labels)).
Notation reflected := (EndpointToBeReflected RemoteCluster nodes).

(** An endpoint that does not run in the remote cluster: it has no node, or its node is
    known and is not a node of that cluster. *)
Definition elsewhere (e : Endpoint) : Prop :=
  NodeName e = None ∨ ∃ n l, NodeName e = Some n ∧ nodes n = Some (Some l) ∧ default ""%string (l !! RemoteClusterIDKey) ≠ RemoteCluster.
#[global] Instance elsewhere_dec e : Decision (elsewhere e).
Proof.
  unfold elsewhere. destruct (NodeName e) as [n|]; [|by left; left]. destruct (nodes n) as [[l|]|] eqn:En; [|right; naive_solver..].
  destruct (decide (default ""%string (l !! RemoteClusterIDKey) = RemoteCluster)); [right; naive_solver|left; right; by exists n, l].
Defined.
Lemma reflected_elsewhere l : List.filter reflected l = filter elsewhere l.
Proof.
  assert (Hr : ∀ e, reflected e = bool_decide (elsewhere e)).
  { intros e. apply Bool.eq_iff_eq_true. rewrite bool_decide_eq_true. unfold elsewhere, EndpointToBeReflected. destruct (NodeName e) as [n|]; [|naive_solver].
    destruct (nodes n) as [[m|]|] eqn:En; cbn; [|naive_solver..]. rewrite negb_true_iff, bool_decide_eq_false. naive_solver. }
  induction l as [|e l IH]; [done|]. cbn [List.filter]. rewrite Hr, filter_cons. case_decide as Hd; [by rewrite bool_decide_eq_true_2, IH|by rewrite bool_decide_eq_false_2, IH].
Qed.
End elsewhere.

Section exposed.
Context `{AddressCodec} (LocalCluster RemoteCluster : string) (opts : ForgingOpts).
Context (localNamespace remoteNamespace : string) (rtype : ReflectionType) (localPodCIDRs : list IPNet).
Context (nodes : string → option (option labels)) (services : string → result kerr labels) (ips : result kerr (list (string * string))).
Context (Deny : bool) (globalLabels globalAnnotations : labels).
Context (fcs : string → result kerr (list ForeignCluster)) (cfg : string → option Remap.Configuration)
  (order : ClusterAddresses → list (string * list string)).
Notation Handle := (EpsHandle LocalCluster RemoteCluster opts localNamespace remoteNamespace rtype localPodCIDRs nodes services ips (fun _ _ => None)).
Notation Reconcile := (EpsReconcile Deny globalLabels globalAnnotations fcs cfg order (fun _ => None)).
Notation elsewhere := (elsewhere RemoteCluster nodes).

(** The address of an endpoint in the networks of the local cluster: a pod address is its
    own, any other has the one of the first IP resource for it. *)
Definition local_image (a t : string) : Prop :=
  ((∃ n, n ∈ localPodCIDRs ∧ IPNet_Contains n (ParseIP a) = true) ∧ t = a) ∨
  ((∀ n, n ∈ localPodCIDRs → IPNet_Contains n (ParseIP a) = false) ∧
    ∃ before rest, ips = Ok (before ++ (a, t) :: rest) ∧ a ∉ before.*1 ∧ t ≠ ""%string).
(** The address under which the remote cluster reaches an address. *)
Definition seen_as (a a' : string) : Prop :=
  ∃ t c st, local_image a t ∧ cfg LocalCluster = Some c ∧ Remap.cidrs_condition c = Some (Remap.mkCondition (Remap.generation c) true) ∧
    Remap.statusRemote c = Some st ∧ ParseIP t ≠ [] ∧ Remap.reached_as c st t a'.

Lemma local_image_translate a t : local_image a t → translate localPodCIDRs ips a = Ok t.
Proof.
  unfold translate, isLocalPodIP, MapEndpointIPFromIPResource. intros [[(n & Hn & Hc) ->]|(Hn & before & rest & -> & Hb & Ht)].
  - rewrite (proj2 (existsb_true_iff _ _)); [done|]. by exists n.
  - destruct (existsb _ _) eqn:Ee; [apply existsb_true_iff in Ee as (n & Hn' & Hc); rewrite Hn in Hc; done|].
    assert (Hf : List.find (fun x => bool_decide (x.1 = a)) (before ++ (a, t) :: rest) = Some (a, t)).
    { induction before as [|x before IH]; cbn; [by rewrite bool_decide_eq_true_2|]. apply not_elem_of_cons in Hb as [Hx Hb].
      rewrite bool_decide_eq_false_2 by done. by apply IH. }
    rewrite Hf. cbn. by rewrite bool_decide_eq_false_2.
Qed.
Lemma seen_as_maps a a' : seen_as a a' → ∃ t, translate localPodCIDRs ips a = Ok t ∧ MapAddress (Some <$> cfg LocalCluster) t = Ret (Ok a').
Proof.
  intros (t & c & st & Ht & Hc & Hcond & Hst & Hip & Hr). exists t. split; [by apply local_image_translate|]. rewrite Hc. by eapply Remap.reached_as_mapped.
Qed.
Definition exposed (st : FcStatus) (e e' : Endpoint) : Prop :=
  Forall2 seen_as (Addresses e) (Addresses e') ∧ NodeName e' = Some LocalCluster ∧ Hostname e' = Hostname e ∧
  ep_Ready e' = Some (default true (ep_Ready e) && reachable_now st).
Lemma map_address_plain addr : map_address cfg LocalCluster None addr =
  match MapAddress (Some <$> cfg LocalCluster) addr with Ret (Ok a) => Ret (Ok a) | Ret (Err _) => Ret (Err OtherErr) | Panic => Panic | Diverge => Diverge end.
Proof. unfold map_address. cbn. rewrite bool_decide_true by done. unfold plain_map. by destruct (MapAddress _ addr) as [[]| |]. Qed.
Lemma seen_list l : (∀ a, a ∈ l → ∃ a', seen_as a a') → ∃ ts l', Forall2 (fun a t => translate localPodCIDRs ips a = Ok t) l ts ∧
  Forall2 (fun t a' => map_address cfg LocalCluster None t = Ret (Ok a')) ts l' ∧ Forall2 seen_as l l'.
Proof.
  induction l as [|a l IH]; intros Hs; [exists [], []; repeat split; constructor|].
  destruct IH as (ts & l' & H1 & H2 & H3); [intros b Hb; apply Hs; by right|]. destruct (Hs a (list_elem_of_here _ _)) as (a' & Hsa). destruct (seen_as_maps _ _ Hsa) as (t & Ht & Ha).
  exists (t :: ts), (a' :: l'). split; [by constructor|]. split; [constructor; [by rewrite map_address_plain, Ha|done]|]. by constructor.
Qed.
Lemma seen_endpoints st l : (∀ e a, e ∈ l → a ∈ Addresses e → ∃ a', seen_as a a') →
  ∃ es es', Forall2 (image LocalCluster localPodCIDRs ips false) l es ∧ map_endpoints (map_address cfg LocalCluster None) es = Ret (Ok es') ∧
    Forall2 (exposed st) l (set_ready (reachable_now st) <$> es').
Proof.
  induction l as [|e l IH]; intros Hs; [exists [], []; repeat split; constructor|].
  destruct IH as (es & es' & H1 & H2 & H3); [intros e' a He'; apply Hs; by right|].
  destruct (seen_list (Addresses e)) as (ts & l' & T1 & T2 & T3); [intros a Ha; apply (Hs e); [by left|done]|].
  exists (remote_endpoint LocalCluster e ts :: es), (set_addresses (remote_endpoint LocalCluster e ts) l' :: es').
  split; [constructor; [by exists ts|done]|]. split.
  - apply map_endpoints_ok. constructor; [|by apply map_endpoints_ok]. by exists l'.
  - constructor; [|done]. unfold exposed, set_ready. cbn. destruct (ep_Ready e) as [[]|] eqn:Er; cbn; rewrite ?Er; by split_and!.
Qed.
(** C29: the first time an endpoint slice without direct connections is reflected, with
    the servers answering and each address of an endpoint that is not in the remote
    cluster having one under which it is reached there: the virtual kubelet creates one
    shadow endpoint slice and the provider writes one endpoint slice of it, with exactly
    the endpoints that have no node or whose node is known and not of the remote cluster,
    in their order, under the addresses by which that cluster reaches them (the pod
    address or that of its IP resource, moved to the network it is remapped to), ready if
    they were and the two clusters are connected. *)
Theorem endpoints_exposed name l w ws fc fl :
  marks_kept opts → caches_ok localPodCIDRs ips w →
  bool_decide (localNamespace = "default"%string) && bool_decide (name = "kubernetes"%string) = false →
  EpsShouldSkipReflection rtype services l = Ok false → ShouldProvideDirectConnectionData services l = Ok false →
  es_Annotations l !! DirectConnectionDataAnnotationKey = None →
  fcs LocalCluster = Ok fl → getForeignCluster fl = Ok fc → IsNetworkingModuleEnabled (fc_Status fc) = true →
  (∀ e a, e ∈ es_Endpoints l → elsewhere e → a ∈ Addresses e → ∃ a', seen_as a a') →
  ∃ w1 t x, Handle name (Some l) None w = Ret (w1, Ok ()) ∧ ecalls w1 = ecalls w ++ [CreateShadow t] ∧
    Reconcile (Ok t) (Err NotFound) ws = Ret (ws ++ [EpsCreate x], Ok ()) ∧
    eo_Name x = es_Name l ∧ eo_Namespace x = remoteNamespace ∧
    Forall2 (exposed (fc_Status fc)) (filter elsewhere (es_Endpoints l)) (eo_Endpoints x).
Proof.
  intros Hm Hc Hbl Hskip Hdir Hann Hfl Hfc Hen Hseen. destruct (seen_endpoints (fc_Status fc) (filter elsewhere (es_Endpoints l))) as (es & es' & H1 & H2 & H3).
  { intros e a [He Hin]%list_elem_of_filter. by apply Hseen. }
  rewrite <- reflected_elsewhere in H1.
  destruct (forge_target LocalCluster RemoteCluster opts remoteNamespace localPodCIDRs nodes ips l None false es w Hc H1) as (w1 & E1 & Hw1).
  cbn [default] in E1. match type of E1 with _ = Ret (_, Ok ?y) => set (t := y) in * end.
  exists (mkEworld (translations w1) (ecalls w ++ [CreateShadow t])), t. eexists. split; [|split; [done|split]].
  - unfold EpsHandle. rewrite Hbl, Hskip. erewrite K_bind_ok by reflexivity. cbn beta iota. unfold reflect_present. rewrite Hdir. cbn beta iota.
    erewrite K_bind_ok by exact E1. cbn [add_data]. unfold issue, attempt, mbind, K_bind. cbn. by rewrite Hw1.
  - assert (Ho : se_Labels t !! LiqoOriginClusterIDKey = Some LocalCluster).
    { destruct (forged_ours LocalCluster RemoteCluster opts localPodCIDRs nodes ips l false None t Hm) as [Ho _]; [by split|].
      by apply andb_true_iff in Ho as [Ho%bool_decide_eq_true _]. }
    unfold EpsReconcile. rewrite Ho, Hfl, Hfc.
    assert (Hidx : connection_index order t = Ok None).
    { unfold connection_index. subst t. cbn. unfold FilterNotReflected, Filter. rewrite (proj2 (map_lookup_filter_None _ _ _)); [done|by left]. }
    rewrite Hidx. assert (Hrm : remapped_endpoints Deny cfg LocalCluster (fc_Status fc) None (se_Endpoints t) = Ret (Ok es')).
    { unfold remapped_endpoints. rewrite Hen. cbn. destruct Deny; exact H2. }
    rewrite Hrm. reflexivity.
  - cbn. by split.
Qed.
End exposed.

(** ** Direct connections *)

Section direct.
Context `{AddressCodec} (RemoteCluster : string) (nodes : string → option (option labels)).
Context (order : ClusterAddresses → list (string * list string)).
Hypothesis order_perm : ∀ c, order c ≡ₚ map_to_list c.

(** The endpoint runs on a virtual node of the cluster, another one than the remote. *)
Definition hosted (c : string) (e : Endpoint) : bool :=
  match NodeName e, TargetRef e with
  | Some n, Some _ =>
    match nodes n with
    | Some (Some lbl) => shouldIncludeDataFromNode RemoteCluster lbl (default ""%string (lbl !! RemoteClusterIDKey)) &&
                         bool_decide (default ""%string (lbl !! RemoteClusterIDKey) = c)
    | _ => false
    end
  | _, _ => false
  end.
Lemma connection_data_in l c a : a ∈ default [] (connection_data RemoteCluster nodes l !! c) ↔ ∃ e, e ∈ l ∧ hosted c e = true ∧ a ∈ Addresses e.
Proof.
  unfold connection_data. induction l as [|e l IH] using rev_ind.
  { split; [by intros ?%not_elem_of_nil|]. by intros (e & ?%not_elem_of_nil & _). }
  rewrite foldl_app. cbn [foldl]. set (d := foldl _ _ l) in *. setoid_rewrite elem_of_app. setoid_rewrite list_elem_of_singleton.
  assert (Hsplit : (∃ e0, (e0 ∈ l ∨ e0 = e) ∧ hosted c e0 = true ∧ a ∈ Addresses e0) ↔
    (a ∈ default [] (d !! c) ∨ (hosted c e = true ∧ a ∈ Addresses e))).
  { rewrite IH. split; [intros (e0 & [?| ->] & ?); eauto|]. intros [(e0 & ? & ? & ?)|[? ?]]; eauto 6. }
  rewrite Hsplit. clear Hsplit IH. assert (Hno : ∀ P Q : Prop, P ↔ P ∨ (false = true ∧ Q)) by (clear; intuition congruence).
  unfold hosted. destruct (NodeName e) as [n|], (TargetRef e); try apply Hno.
  destruct (nodes n) as [[lbl|]|]; try apply Hno. cbn [RetrieveRemoteClusterIDFromNode].
  set (id := default ""%string (lbl !! RemoteClusterIDKey)). destruct (shouldIncludeDataFromNode RemoteCluster lbl id); cbn [andb]; [|apply Hno].
  unfold Add. destruct (decide (id = c)) as [->|Hne].
  - rewrite lookup_insert_eq, bool_decide_true by done. cbn. rewrite elem_of_app. clear; intuition congruence.
  - rewrite lookup_insert_ne, bool_decide_false by done. apply Hno.
Qed.

Definition add_cluster (m : gmap string string) (ci : string * list string) : gmap string string := foldl (fun m ip => <[ip := ci.1]> m) m ci.2.
Lemma add_cluster_lookup m ci a : add_cluster m ci !! a = if bool_decide (a ∈ ci.2) then Some ci.1 else m !! a.
Proof.
  destruct ci as [c l]. unfold add_cluster. cbn. induction l as [|b l IH] using rev_ind; [done|]. rewrite foldl_app. cbn.
  destruct (decide (b = a)) as [->|Hne].
  - rewrite lookup_insert_eq, bool_decide_true by set_solver. done.
  - rewrite lookup_insert_ne, IH by done. repeat case_bool_decide; set_solver.
Qed.
Lemma BuildIndex_in l a c : LookupClusterID (BuildIndex l) a = Some c → ∃ ips, (c, ips) ∈ l ∧ a ∈ ips.
Proof.
  destruct l as [|x l0] eqn:El; [done|]. rewrite <- El. replace (BuildIndex l) with (Some (foldl add_cluster ∅ l)) by (by subst). clear El. cbn.
  induction l as [|ci l IH] using rev_ind; [done|]. rewrite foldl_app. cbn. rewrite add_cluster_lookup.
  case_bool_decide as Ha; [intros [= <-]; exists ci.2; destruct ci; set_solver|]. intros (ips & Hi & Hai)%IH. exists ips. set_solver.
Qed.
Lemma BuildIndex_some l a c ips : (c, ips) ∈ l → a ∈ ips → is_Some (LookupClusterID (BuildIndex l) a).
Proof.
  destruct l as [|x l0] eqn:El; [by intros ?%not_elem_of_nil|]. rewrite <- El. replace (BuildIndex l) with (Some (foldl add_cluster ∅ l)) by (by subst). clear El. cbn.
  intros Hin Ha. induction l as [|ci l IH] using rev_ind; [by apply not_elem_of_nil in Hin|]. rewrite foldl_app. cbn. rewrite add_cluster_lookup.
  case_bool_decide as Hc; [eauto|]. apply IH. apply elem_of_app in Hin as [Hin|Hin]; [done|]. apply list_elem_of_singleton in Hin as <-. done.
Qed.

(** The data on direct connections that a virtual kubelet puts in the annotation is
    read back by the provider as the index of the addresses of the endpoints that run
    on virtual nodes of other clusters, provided no address is used by two of them. *)
Theorem direct_data_roundtrip l d s :
  (∀ e e' c c' a, e ∈ es_Endpoints l → e' ∈ es_Endpoints l → hosted c e = true → hosted c' e' = true → a ∈ Addresses e → a ∈ Addresses e' → c = c') →
  marshaled_data RemoteCluster nodes l = Ok (Some d) → se_Annotations s !! DirectConnectionDataAnnotationKey = Some d →
  ∃ index, connection_index order s = Ok index ∧
    ∀ a c, LookupClusterID index a = Some c ↔ ∃ e, e ∈ es_Endpoints l ∧ hosted c e = true ∧ a ∈ Addresses e.
Proof.
  intros Hone Hd Hs. unfold marshaled_data in Hd. set (data := connection_data RemoteCluster nodes (es_Endpoints l)) in *.
  destruct (bool_decide (data = ∅)); [done|]. destruct (ToJSON data) as [j|] eqn:Ej; [|done]. destruct (maxAnnotationSize <=? _); [done|].
  injection Hd as ->. exists (BuildIndex (order data)). unfold connection_index. rewrite Hs, (FromJSON_ToJSON _ _ Ej). split; [done|].
  assert (Hin : ∀ a c, (∃ ips, (c, ips) ∈ order data ∧ a ∈ ips) ↔ ∃ e, e ∈ es_Endpoints l ∧ hosted c e = true ∧ a ∈ Addresses e).
  { intros a c. rewrite <- connection_data_in. fold data. setoid_rewrite order_perm. setoid_rewrite elem_of_map_to_list.
    destruct (data !! c) as [ips|]; cbn; [naive_solver|]. split; [by intros (? & ? & _)|by intros ?%not_elem_of_nil]. }
  intros a c. split; [intros Hl%BuildIndex_in; by apply Hin|]. intros He. pose proof He as (ips & Hi & Ha)%Hin.
  destruct (BuildIndex_some _ _ _ _ Hi Ha) as [c' Hc']. rewrite Hc'. f_equal. apply BuildIndex_in, Hin in Hc'.
  destruct He as (e & He & Hh & Hae), Hc' as (e' & He' & Hh' & Hae'). exact (Hone e' e c' c a He' He Hh' Hh Hae' Hae).
Qed.
End direct.

(** ** Changes that go unnoticed *)

(** A translation that is in the cache is used whatever the IP resources say by
    then: an address that was remapped again keeps its old translation. *)
Theorem stale_translation nets ips' name a x c w : translations w !! name = Some c → c !! a = Some x →
  ∃ w', MapEndpointIPs nets ips' name [a] false w = Ret (w', Ok [x]).
Proof. intros Hw Ha. unfold MapEndpointIPs. rewrite Hw. cbn. rewrite Ha. by eexists. Qed.

(** When the networking module of a cluster becomes enabled with its connection
    already established, the shadow endpoint slices of the cluster are not reconciled,
    although their addresses must now be mapped. *)
Theorem module_enabled_unnoticed old new : IsNetworkingModuleEnabled old = false → IsNetworkingModuleEnabled new = true →
  IsNetworkingEstablished new = true → IsAPIServerReadyOrDisabled old = IsAPIServerReadyOrDisabled new →
  validateForeignClusterOnUpdate old new = false ∧
  ∀ Deny cfg c l, remapped_endpoints Deny cfg c old None l = Ret (Ok l) ∧
    remapped_endpoints Deny cfg c new None l = MapEndpointsWithConfiguration cfg c l None.
Proof.
  intros Ho Hn He Ha. split.
  - unfold validateForeignClusterOnUpdate, IsNetworkingEstablishedOrDisabled. by rewrite Ho, He, Ha, orb_true_r, !bool_decide_true.
  - intros Deny cfg c l. unfold remapped_endpoints. rewrite Ho, Hn. cbn. by destruct Deny.
Qed.

(** A change of the network configuration of a cluster wakes up only the shadow
    endpoint slices with direct-connection data for the cluster, not the ones that come
    from it, whose addresses are mapped with the configuration. *)
Theorem configuration_change_unnoticed `{AddressCodec} shadows configLabels c :
  configLabels !! RemoteClusterIDKey = Some c →
  (∀ s, s ∈ shadows → se_Labels s !! LiqoOriginClusterIDKey = Some c ∧ se_Annotations s !! DirectConnectionDataAnnotationKey = None) →
  getShadowEndpointSlicesFromNetworkConfig shadows configLabels = [].
Proof.
  intros Hc Hs. unfold getShadowEndpointSlicesFromNetworkConfig. rewrite Hc. cbn. case_bool_decide; [done|].
  replace (List.filter _ shadows) with (@nil ShadowEndpointSlice); [done|]. symmetry.
  induction shadows as [|s0 l IH]; [done|]. cbn. unfold ExtractDirectConnectionClusterIDs, FromAnnotations. rewrite (proj2 (Hs s0 (list_elem_of_here _ _))).
  rewrite bool_decide_false by (apply not_elem_of_nil). apply IH. intros s' Hs'. apply Hs. set_solver.
Qed.

(** ** Examples *)

(** A codec: the bits of the number of a map. *)
#[local] Program Instance bits_codec : AddressCodec := {|
  ToJSON := fun m => Some (bits (encode m)); FromJSON := fun s => p ← unbits s; decode p |}.
Next Obligation. intros m s [= <-]. cbn. rewrite unbits_bits. cbn. apply decode_encode. Qed.

Definition ex_opts : ForgingOpts := mkForgingOpts [] [] ∅ [] None None.
Definition ex_nodes (n : string) : option (option labels) :=
  if bool_decide (n = "worker"%string) then Some (Some ∅)
  else if bool_decide (n = "milan"%string) then Some (Some {[ TypeLabel := TypeNode; RemoteClusterIDKey := "milan"%string ]})
  else if bool_decide (n = "rome"%string) then Some (Some {[ TypeLabel := TypeNode; RemoteClusterIDKey := "rome"%string ]})
  else None.
Definition ex_endpoint (a n : string) : Endpoint := mkEndpoint [a] (Some true) None None None (Some (mkRef "Pod" a)) (Some n) None None.
Definition ex_slice : EndpointSlice :=
  mkEndpointSlice "web" {[ LabelServiceName := "web"%string ]} ∅ "IPv4"
    [ex_endpoint "10.0.0.5" "worker"; ex_endpoint "10.80.0.7" "milan"] ["80"%string].
Definition ex_nets : list IPNet := match ParseCIDR "10.0.0.0/16" with Some n => [n] | None => [] end.
Definition ex_config : Remap.Configuration :=
  Remap.mkConfiguration 1 (Remap.mkClusterCIDR ["10.0.0.0/16"%string] []) (Some (Remap.mkCondition 1 true)) (Some (Remap.mkClusterCIDR ["10.71.0.0/16"%string] [])).
Definition ex_cfg (c : string) : option Remap.Configuration := if bool_decide (c = "turin"%string) then Some ex_config else None.
Definition ex_connected : FcStatus :=
  set_networking empty_status (mkModule true [mkCond NetworkConnectionStatusCondition StatusEstablished 3 "" ""]).
Definition ex_peer : ForeignCluster := mkFc "turin" ∅ ∅ [] false 1 5 1 "turin" ex_connected.
Definition ex_fcs (c : string) : result kerr (list ForeignCluster) := Ok [ex_peer].
Definition ex_services (n : string) : result kerr labels := Ok ∅.

Definition net16 (v : Z) : IPNet := Remap.net_4 v 16.
Lemma net16_ok v : v `mod` 2 ^ 16 = 0 → 0 ≤ v < 2 ^ 32 → net_ok 32 v 16.
Proof. intros Hm Hv. constructor; [lia|done|done]. Qed.
Lemma ex_seen : seen_as "turin" ex_nets (Ok []) ex_cfg "10.0.0.5" "10.71.0.5".
Proof.
  exists "10.0.0.5"%string, ex_config. eexists. split; [left; split; [|done]; exists (net16 167772160); split; [left|reflexivity]|].
  split; [reflexivity|]. split; [reflexivity|]. split; [reflexivity|]. split; [by vm_compute|]. apply Remap.reached_pod.
  change "10.71.0.5"%string with (convertByteSliceToString (be_bytes 4 (Remap.remap 32 172425216 16 167772165))).
  apply (Remap.moved_to _ _ _ [] "10.0.0.0/16"%string [] "10.71.0.0/16"%string 167772160); try reflexivity; try discriminate; try (by apply net16_ok); try lia.
  by intros s ?%elem_of_nil.
Qed.

Lemma endpoints_exposed_witness : ∃ w1 t x,
  EpsHandle "turin" "milan" ex_opts "app" "app-turin" DenyList ex_nets ex_nodes ex_services (Ok []) (fun _ _ => None) "web" (Some ex_slice) None (mkEworld ∅ [])
    = Ret (w1, Ok ()) ∧ ecalls w1 = [CreateShadow t] ∧
  EpsReconcile false ∅ ∅ ex_fcs ex_cfg map_to_list (fun _ => None) (Ok t) (Err NotFound) [] = Ret ([EpsCreate x], Ok ()) ∧
  ∃ e', eo_Endpoints x = [e'] ∧ ep_Ready e' = Some true.
Proof.
  destruct (endpoints_exposed "turin" "milan" ex_opts "app" "app-turin" DenyList ex_nets ex_nodes ex_services (Ok []) false ∅ ∅ ex_fcs ex_cfg map_to_list
    "web" ex_slice (mkEworld ∅ []) [] ex_peer [ex_peer]) as (w1 & t & x & E1 & Hw & E2 & _ & _ & Hx).
  - repeat split; apply not_elem_of_nil.
  - by intros name c.
  - reflexivity.
  - reflexivity.
  - reflexivity.
  - reflexivity.
  - reflexivity.
  - reflexivity.
  - reflexivity.
  - intros e a He Helse Ha. assert (He' : e ∈ filter (elsewhere "milan" ex_nodes) (es_Endpoints ex_slice)) by (by rewrite list_elem_of_filter).
    change (e ∈ [ex_endpoint "10.0.0.5" "worker"]) in He'. apply list_elem_of_singleton in He' as ->.
    apply list_elem_of_singleton in Ha as ->. exists "10.71.0.5"%string. exact ex_seen.
  - exists w1, t, x. split; [exact E1|]. split; [exact Hw|]. split; [exact E2|].
    change (filter (elsewhere "milan" ex_nodes) (es_Endpoints ex_slice)) with [ex_endpoint "10.0.0.5" "worker"] in Hx.
    apply Forall2_cons_inv_l in Hx as (e' & l' & (_ & _ & _ & Hr) & Hl & He). apply Forall2_nil_inv_l in Hl as ->. exists e'. by split.
Defined.

Definition ex_handle (remote : option ShadowEndpointSlice) : eworld → outcome (eworld * result kerr ()) :=
  EpsHandle "turin" "milan" ex_opts "app" "app-turin" DenyList ex_nets ex_nodes ex_services (Ok []) (fun _ _ => None) "web" (Some ex_slice) remote.
(** An endpoint slice somebody else made in the remote cluster. *)
Definition ex_foreign : ShadowEndpointSlice := mkShadowEps "web" "app-turin" "uid" ∅ ∅ "IPv4" [] [].
Lemma reflected_slices_ours_witness : ∃ w', ex_handle (Some ex_foreign) (mkEworld ∅ []) = Ret (w', Ok ()) ∧ ecalls w' = [].
Proof.
  exists (mkEworld ∅ []). assert (E : ex_handle (Some ex_foreign) (mkEworld ∅ []) = Ret (mkEworld ∅ [], Ok ())) by reflexivity. split; [exact E|].
  destruct (reflected_slices_ours "turin" "milan" ex_opts "app" "app-turin" DenyList ex_nets ex_nodes ex_services (Ok []) (fun _ _ => None) "web" (Some ex_slice) (Some ex_foreign)
    _ _ _ E) as [H|(c & Hc & H)]; [exact H|discriminate].
Defined.
Definition ex_w1 : eworld := match ex_handle None (mkEworld ∅ []) with Ret (w, _) => w | _ => mkEworld ∅ [] end.
Definition ex_t : ShadowEndpointSlice := match ecalls ex_w1 with [CreateShadow t] => t | _ => ex_foreign end.
Lemma reflection_settles_witness : ∃ w2, ex_handle None (mkEworld ∅ []) = Ret (ex_w1, Ok ()) ∧ ecalls ex_w1 = [CreateShadow ex_t] ∧
  ex_handle (Some ex_t) ex_w1 = Ret (w2, Ok ()) ∧ ecalls w2 = [CreateShadow ex_t].
Proof.
  assert (E1 : ex_handle None (mkEworld ∅ []) = Ret (ex_w1, Ok ())) by reflexivity. assert (Hw : ecalls ex_w1 = [CreateShadow ex_t]) by reflexivity.
  destruct (reflection_settles "turin" "milan" ex_opts "app" "app-turin" DenyList ex_nets ex_nodes ex_services (Ok []) (fun _ _ => None) "web" ex_slice ex_t ex_t
    (mkEworld ∅ []) ex_w1 (Ok ())) as (w2 & E2 & Hw2).
  - repeat split; apply not_elem_of_nil.
  - by intros name c.
  - exact E1.
  - exact Hw.
  - by repeat split.
  - exists w2. split; [exact E1|]. split; [exact Hw|]. split; [exact E2|]. by rewrite Hw2.
Defined.

(** A cluster whose tunnel is down. *)
Definition ex_down : ForeignCluster := set_fc_status ex_peer (set_networking empty_status (mkModule true [mkCond NetworkConnectionStatusCondition StatusError 3 "" ""])).
Definition ex_shadow : ShadowEndpointSlice :=
  mkShadowEps "web" "app-turin" "uid" {[ LiqoOriginClusterIDKey := "turin"%string ]} ∅ "IPv4" [ex_endpoint "10.0.0.5" "turin"] [].
Definition ex_written (deny : bool) (peer : ForeignCluster) (s : ShadowEndpointSlice) (existing : result kerr ()) : eps_write :=
  match EpsReconcile deny ∅ ∅ (fun _ => Ok [peer]) ex_cfg map_to_list (fun _ => None) (Ok s) existing [] with
  | Ret ([x], _) => x
  | _ => EpsCreate (mkEpsObject "" "" ∅ ∅ "" [] [])
  end.
Lemma unreachable_not_ready_witness :
  EpsReconcile false ∅ ∅ (fun _ => Ok [ex_down]) ex_cfg map_to_list (fun _ => None) (Ok ex_shadow) (Ok ()) [] = Ret ([ex_written false ex_down ex_shadow (Ok ())], Ok ()) ∧
  List.length (written_endpoints (ex_written false ex_down ex_shadow (Ok ()))) = 1%nat ∧
  ∀ e, e ∈ written_endpoints (ex_written false ex_down ex_shadow (Ok ())) → ep_Ready e = Some false.
Proof.
  assert (E : EpsReconcile false ∅ ∅ (fun _ => Ok [ex_down]) ex_cfg map_to_list (fun _ => None) (Ok ex_shadow) (Ok ()) [] =
    Ret ([ex_written false ex_down ex_shadow (Ok ())], Ok ())) by (vm_compute; reflexivity).
  split; [exact E|]. split; [vm_compute; reflexivity|]. intros e He.
  exact (unreachable_not_ready false ∅ ∅ (fun _ => Ok [ex_down]) ex_cfg map_to_list (fun _ => None) ex_shadow (Ok ()) [] _ (Ok ()) "turin" [ex_down] ex_down _ e
    eq_refl eq_refl eq_refl (or_introl eq_refl) E eq_refl He).
Defined.

(** Endpoints on a third cluster, for a service that asks for direct connections. *)
Definition ex_direct : EndpointSlice :=
  mkEndpointSlice "web" {[ LabelServiceName := "web"%string ]} ∅ "IPv4" [ex_endpoint "10.90.0.7" "rome"; ex_endpoint "10.0.0.5" "worker"] [].
Definition ex_data : string := match marshaled_data "milan" ex_nodes ex_direct with Ok (Some d) => d | _ => "" end.
Definition ex_direct_shadow : ShadowEndpointSlice :=
  mkShadowEps "web" "app-turin" "uid" {[ LiqoOriginClusterIDKey := "turin"%string ]} {[ DirectConnectionDataAnnotationKey := ex_data ]} "IPv4"
    [ex_endpoint "10.90.0.7" "turin"; ex_endpoint "10.0.0.5" "turin"] [].
Lemma direct_data_roundtrip_witness : ∃ index, connection_index map_to_list ex_direct_shadow = Ok index ∧ LookupClusterID index "10.90.0.7" = Some "rome"%string.
Proof.
  destruct (direct_data_roundtrip "milan" ex_nodes map_to_list (fun c => Permutation_refl _) ex_direct ex_data ex_direct_shadow) as (index & Hi & Hx).
  - assert (Hh : ∀ e c, e ∈ es_Endpoints ex_direct → hosted "milan" ex_nodes c e = true → c = "rome"%string).
    { intros e c [->|[->|[]%not_elem_of_nil]%elem_of_cons]%elem_of_cons; [|done]. intros Hc. symmetry. by apply bool_decide_eq_true in Hc. }
    intros e e' c c' a He He' Hc Hc' _ _. by rewrite (Hh e c He Hc), (Hh e' c' He' Hc').
  - reflexivity.
  - reflexivity.
  - exists index. split; [exact Hi|]. apply Hx. exists (ex_endpoint "10.90.0.7" "rome"). split; [by left|]. split; [reflexivity|by left].
Defined.
Lemma denied_endpoints_absent_witness : ∃ index l, connection_index map_to_list ex_direct_shadow = Ok index ∧
  written_endpoints (ex_written true ex_peer ex_direct_shadow (Err NotFound)) = l ∧ List.length l = 1%nat.
Proof.
  assert (E : EpsReconcile true ∅ ∅ (fun _ => Ok [ex_peer]) ex_cfg map_to_list (fun _ => None) (Ok ex_direct_shadow) (Err NotFound) [] =
    Ret ([ex_written true ex_peer ex_direct_shadow (Err NotFound)], Ok ())) by (vm_compute; reflexivity).
  destruct (connection_index map_to_list ex_direct_shadow) as [index|] eqn:Hi;
    [|exfalso; assert (Hk : is_ok (connection_index map_to_list ex_direct_shadow) = true) by (vm_compute; reflexivity); rewrite Hi in Hk; discriminate].
  destruct (denied_endpoints_absent true ∅ ∅ (fun _ => Ok [ex_peer]) ex_cfg map_to_list (fun _ => None) ex_direct_shadow (Err NotFound) [] _ (Ok ()) _ index eq_refl Hi E eq_refl)
    as (l & _ & Hw).
  exists index, l. split; [done|]. split; [exact Hw|]. apply (f_equal List.length) in Hw. cbn [as_written] in Hw. rewrite <- Hw. vm_compute. reflexivity.
Defined.
