(* ===== verification/FabricIpam.v ===== *)
(** * FabricIpam: addresses of the internal network
      (src/pkg/liqo-controller-manager/networking/internal-network/fabricipam/
       {fabricipam,k8s,singleton}.go)

    Nodes and gateways have an address on the internal network.  The allocator keeps
    two maps between names and addresses and a cursor, the address it handed out
    last.  The cursor is a slice of bytes that is incremented in place, and the very
    slice that was returned to the last caller: the model keeps slices in a memory
    and passes references to them. *)

From S2P Require Export Remap NetworkLabels.
From S2P Require Import Route.
Local Open Scope Z_scope.

(** The references into memory are indices. *)
Record IPAM := mkIPAM {
  network : IPNet; allocated : gmap string string; allocatedReverse : gmap string string; lastAllocatedIP : nat
}.
Record mem := mkMem { ipam : IPAM; slices : list IP }.
Definition read (m : mem) (l : nat) : IP := match slices m !! l with Some ip => ip | None => [] end.
Definition set_slice (m : mem) (l : nat) (ip : IP) : mem := mkMem (ipam m) (<[l := ip]> (slices m)).
Definition new_slice (m : mem) (ip : IP) : mem * nat := (mkMem (ipam m) (slices m ++ [ip]), List.length (slices m)).

(** ** Arithmetic on the bytes, from the last one *)

Fixpoint add_rev (l : list Z) (n : Z) : list Z :=
  match l with
  | [] => []
  | b :: l => if 0 <? n then let tmp := (b + n) mod 2 ^ 64 in tmp mod 256 :: add_rev l (Z.shiftr tmp 8) else b :: l
  end.
(** [ip.To16] of the nil address is nil. *)
Definition add (ip : IP) (n : Z) : IP :=
  match To4 ip with [] => [] | ip => reverse (add_rev (reverse ip) n) end.
Fixpoint inc_rev (l : list Z) : list Z :=
  match l with
  | [] => []
  | b :: l => let b := (b + 1) mod 256 in b :: (if 0 <? b then l else inc_rev l)
  end.
Definition inc (ip : IP) : IP := reverse (inc_rev (reverse ip)).

(** ** fabricipam.go *)

Inductive fi_error := NameConfigured | IPConfigured | NoMoreIP.

(** [net.ParseCIDR] with both results. *)
Definition parse_cidr (s : string) : option (IP * IPNet) :=
  net ← ParseCIDR s; '(a, _) ← split_first_slash s; ip ← ParseAddr a; Some (As16 ip, net).
(** [IPMask.Size]. *)
Definition Mask_Size (m : list Z) : Z * Z :=
  match simpleMaskLength m with Some n => (n, 8 * Z.of_nat (List.length m)) | None => (0, 0) end.

Definition newIPAM (s : string) : option mem :=
  '(ip, net) ← parse_cidr s;
  let first := IP_String (ipn_IP net) in
  let '(o, b) := Mask_Size (ipn_Mask net) in
  let last := IP_String (add (ParseIP first) ((2 ^ (b - o) - 1) mod 2 ^ 64)) in
  let taken := <[last := last]> {[ first := first ]} in
  Some (mkMem (mkIPAM net taken taken 0) [ip]).

Definition set_maps (i : IPAM) (name ip : string) (last : nat) : IPAM :=
  mkIPAM (network i) (<[name := ip]> (allocated i)) (<[ip := name]> (allocatedReverse i)) last.
Definition configure (m : mem) (name ip : string) : result fi_error mem :=
  let i := ipam m in
  match allocated i !! name with
  | Some _ => Err NameConfigured
  | None =>
    match allocatedReverse i !! ip with
    | Some _ => Err IPConfigured
    | None => Ok (mkMem (set_maps i name ip (lastAllocatedIP i)) (slices m))
    end
  end.
Definition isIPConfigured (m : mem) (ip : string) : bool := bool_decide (is_Some (allocatedReverse (ipam m) !! ip)).

(** Both loops: the slice is incremented until its address is free, or outside the
    network.  An iteration that goes on has met an address that is taken. *)
Fixpoint search (fuel : nat) (m : mem) (l : nat) : outcome (mem * bool) :=
  match fuel with
  | O => Diverge
  | S fuel =>
    if IPNet_Contains (network (ipam m)) (read m l) then
      match allocatedReverse (ipam m) !! IP_String (read m l) with
      | None => Ret (m, true)
      | Some _ => search fuel (set_slice m l (inc (read m l))) l
      end
    else Ret (m, false)
  end.
Definition fuel_for (m : mem) : nat := S (size (allocatedReverse (ipam m))).
(** The body of both loops once an address is found. *)
Definition take_ip (m : mem) (name : string) (l : nat) : mem :=
  mkMem (set_maps (ipam m) name (IP_String (read m l)) l) (slices m).
Definition Allocate (m : mem) (name : string) : outcome (mem * result fi_error nat) :=
  match allocated (ipam m) !! name with
  | Some v => let '(m, l) := new_slice m (ParseIP v) in Ret (m, Ok l)
  | None =>
    let l := lastAllocatedIP (ipam m) in
    '(m, found) ← search (fuel_for m) m l;
    if (found : bool) then Ret (take_ip m name l, Ok l)
    else
      let '(m, l) := new_slice m (Mask (ipn_IP (network (ipam m))) (ipn_Mask (network (ipam m)))) in
      '(m, found) ← search (fuel_for m) m l;
      if (found : bool) then Ret (take_ip m name l, Ok l) else Ret (m, Err NoMoreIP)
  end.

(** ** k8s.go and singleton.go *)

(** The loop of [initInternalNodes] and of [initInternalFabrics], over names and
    addresses. *)
Fixpoint init_items (m : mem) (l : list (string * string)) : result fi_error mem :=
  match l with
  | [] => Ok m
  | (name, ip) :: l =>
    if isIPConfigured m ip then init_items m l
    else match configure m name ip with Ok m => init_items m l | Err e => Err e end
  end.
(** A listing that fails is [None]. *)
Definition Init (m : mem) (nodes fabrics : option (list (string * string))) : option mem :=
  nodes ← nodes;
  match init_items m nodes with
  | Err _ => None
  | Ok m => fabrics ← fabrics; match init_items m fabrics with Ok m => Some m | Err _ => None end
  end.
(** The allocator once it is ready. *)
Definition Get (ready : option mem) (cluster : option (list NetworkRes)) (nodes fabrics : option (list (string * string))) : option mem :=
  match ready with
  | Some m => Some m
  | None =>
    match GetInternalCIDR cluster "" with
    | Err _ => None
    | Ok cidr => m ← newIPAM cidr; Init m nodes fabrics
    end
  end.

(** ** Texts and bytes of IPv4 addresses *)

Abbreviation text a := (convertByteSliceToString (be_bytes 4 a)).
(** A slice that holds the address [a]. *)
Definition holds (ip : IP) (a : Z) : Prop := (ip = be_bytes 4 a ∨ ip = v4InV6Prefix ++ be_bytes 4 a) ∧ 0 ≤ a < 2 ^ 32.
(** A text the allocator reads back as it is. *)
Definition canonical (s : string) : Prop := IP_String (ParseIP s) = s.

Lemma holds_To4 ip a : holds ip a → To4 ip = be_bytes 4 a.
Proof. by intros [[->| ->] _]. Qed.
Lemma holds_String ip a : holds ip a → IP_String ip = text a.
Proof. by intros [[->| ->] _]. Qed.
Lemma text_canonical a : 0 ≤ a < 2 ^ 32 → canonical (text a).
Proof. intros Ha. unfold canonical. by rewrite ParseIP_quad. Qed.
Lemma text_inj a b : 0 ≤ a < 2 ^ 32 → 0 ≤ b < 2 ^ 32 → text a = text b → a = b.
Proof.
  intros Ha Hb H. apply (f_equal ParseIP) in H. rewrite !ParseIP_quad in H by done.
  apply (app_inv_head v4InV6Prefix) in H. by apply (be_bytes_inj 4) in H.
Qed.

Lemma be_bytes_snoc k v : be_bytes (S k) v = be_bytes k (v / 256) ++ [v mod 256].
Proof.
  replace (S k) with (k + 1)%nat by lia. rewrite be_bytes_app. cbn [be_bytes]. by rewrite Z.pow_0_r, Z.div_1_r.
Qed.
Lemma inc_snoc l b : inc (l ++ [b]) = (if 0 <? (b + 1) mod 256 then l else inc l) ++ [(b + 1) mod 256].
Proof.
  unfold inc. rewrite reverse_snoc. cbn [inc_rev]. rewrite reverse_cons. f_equal. case_match; [by rewrite reverse_involutive|done].
Qed.
Lemma byte_carry v : (v mod 256 + 1) mod 256 = (v + 1) mod 256 ∧
  (0 < (v + 1) mod 256 ∧ (v + 1) / 256 = v / 256 ∨ (v + 1) mod 256 = 0 ∧ (v + 1) / 256 = v / 256 + 1).
Proof.
  split; [by rewrite Zplus_mod_idemp_l|].
  pose proof (Z.div_mod v 256 ltac:(lia)). pose proof (Z.mod_pos_bound v 256 ltac:(lia)).
  pose proof (Z.div_mod (v + 1) 256 ltac:(lia)). pose proof (Z.mod_pos_bound (v + 1) 256 ltac:(lia)). lia.
Qed.
(** Incrementing carries into what stands before only at the last address. *)
Lemma inc_bytes k : ∀ p v, 0 ≤ v < 2 ^ (8 * Z.of_nat k) →
  inc (p ++ be_bytes k v) = (if v + 1 <? 2 ^ (8 * Z.of_nat k) then p else inc p) ++ be_bytes k (v + 1).
Proof.
  induction k as [|k IH]; intros p v Hv.
  { cbn [be_bytes]. rewrite !app_nil_r. assert (v = 0) as -> by (cbn in Hv; lia). done. }
  assert (E : 2 ^ (8 * Z.of_nat (S k)) = 256 * 2 ^ (8 * Z.of_nat k))
    by (replace (8 * Z.of_nat (S k)) with (8 + 8 * Z.of_nat k) by lia; by rewrite Z.pow_add_r by lia).
  rewrite E in *. rewrite !be_bytes_snoc, app_assoc, inc_snoc. destruct (byte_carry v) as [-> Hc].
  pose proof (Z.div_mod v 256 ltac:(lia)). pose proof (Z.mod_pos_bound v 256 ltac:(lia)).
  pose proof (Z.div_mod (v + 1) 256 ltac:(lia)). pose proof (Z.mod_pos_bound (v + 1) 256 ltac:(lia)).
  rewrite (app_assoc _ (be_bytes k _)). f_equal. destruct Hc as [[Hp Hd]|[Hp Hd]].
  - rewrite (proj2 (Z.ltb_lt 0 _)) by done. rewrite Hd. rewrite (proj2 (Z.ltb_lt _ _)); [done|].
    assert (v / 256 < 2 ^ (8 * Z.of_nat k)) by (apply Z.div_lt_upper_bound; lia). lia.
  - rewrite Hp, Z.ltb_irrefl, IH, Hd.
    + replace (v + 1 <? 256 * 2 ^ (8 * Z.of_nat k)) with (v / 256 + 1 <? 2 ^ (8 * Z.of_nat k)); [done|].
      apply eq_true_iff_eq. rewrite !Z.ltb_lt. lia.
    + split; [apply Z.div_pos; lia|apply Z.div_lt_upper_bound; lia].
Qed.
Lemma inc_holds ip a : holds ip a → (a + 1 < 2 ^ 32 → holds (inc ip) (a + 1)) ∧ (a + 1 = 2 ^ 32 → inc ip = be_bytes 4 0 ∨ To4 (inc ip) = [] ∧ List.length (inc ip) = 16%nat).
Proof.
  assert (H : ∀ p, 0 ≤ a < 2 ^ 32 → inc (p ++ be_bytes 4 a) = (if a + 1 <? 2 ^ 32 then p else inc p) ++ be_bytes 4 (a + 1))
    by (intros p Ha; by apply (inc_bytes 4)).
  intros [Hip Ha]. split; intros Hlt.
  - split; [|lia]. rewrite (proj2 (Z.ltb_lt _ _)) in H by done.
    destruct Hip as [->| ->]; [left; by apply (H [])|right; by apply H].
  - rewrite Hlt, Z.ltb_irrefl in H. destruct Hip as [->| ->]; [left; by apply (H [])|right; by rewrite H].
Qed.

Lemma add_bytes k : ∀ v n, 0 ≤ v → 0 ≤ n < 2 ^ 63 →
  reverse (add_rev (reverse (be_bytes k v)) n) = be_bytes k (v + n).
Proof.
  induction k as [|k IH]; intros v n Hv Hn; [done|]. rewrite !be_bytes_snoc, reverse_snoc. cbn [add_rev].
  pose proof (Z.div_mod v 256 ltac:(lia)). pose proof (Z.mod_pos_bound v 256 ltac:(lia)).
  assert (Hd : v / 256 + (v mod 256 + n) / 256 = (v + n) / 256).
  { rewrite Z.add_comm, <- Z.div_add by lia. f_equal. lia. }
  destruct (Z.ltb_spec 0 n) as [Hp|Hp].
  - rewrite reverse_cons. rewrite (Z.mod_small (v mod 256 + n) (2 ^ 64)) by lia. rewrite Z.shiftr_div_pow2 by lia.
    change (2 ^ 8) with 256. rewrite IH, Hd, Zplus_mod_idemp_l; [done|by apply Z.div_pos|].
    split; [apply Z.div_pos; lia|apply Z.div_lt_upper_bound; lia].
  - assert (n = 0) as -> by lia. rewrite reverse_cons, reverse_involutive, Z.add_0_r. done.
Qed.
Lemma add_mapped a n : 0 ≤ a → 0 ≤ n < 2 ^ 63 → add (v4InV6Prefix ++ be_bytes 4 a) n = be_bytes 4 (a + n).
Proof. intros Ha Hn. unfold add. rewrite To4_mapped. cbn [be_bytes]. by apply (add_bytes 4). Qed.
Lemma Mask_Size_4 n : 0 ≤ n ≤ 32 → Mask_Size (CIDRMask n 32) = (n, 32).
Proof.
  intros Hn. assert (H : forallb (fun k => bool_decide (Mask_Size (CIDRMask (Z.of_nat k) 32) = (Z.of_nat k, 32))) (seq 0 33) = true)
    by (vm_compute; reflexivity).
  rewrite forallb_true_iff in H. specialize (H (Z.to_nat n)). rewrite Z2Nat.id in H by lia.
  eapply bool_decide_eq_true. apply H. apply elem_of_seq. lia.
Qed.

(** ** What a search finds *)

(** The addresses of the network. *)
Definition within (v n a : Z) : Prop := v ≤ a < v + 2 ^ (32 - n).
Definition taken (m : mem) (a : Z) : Prop := is_Some (allocatedReverse (ipam m) !! text a).

Lemma Contains_within v n ip a : net_ok 32 v n → holds ip a → IPNet_Contains (net_4 v n) ip = true ↔ within v n a.
Proof.
  intros Hok Hip. rewrite (Contains_4 v n ip a) by (done || by apply holds_To4 || apply Hip). destruct Hok as [Hn Hv Hh]. unfold within.
  pose proof (Z.pow_pos_nonneg 2 (32 - n) ltac:(lia) ltac:(lia)) as Hp.
  pose proof (Z.div_mod v (2 ^ (32 - n)) ltac:(lia)). pose proof (Z.div_mod a (2 ^ (32 - n)) ltac:(lia)).
  pose proof (Z.mod_pos_bound a (2 ^ (32 - n)) ltac:(lia)).
  split; [intros E; rewrite <- E in *; lia|]. intros Hw. symmetry. apply (Z.div_unique a _ _ (a - v)); lia.
Qed.
Lemma within_bound v n a : net_ok 32 v n → within v n a → 0 ≤ a < 2 ^ 32.
Proof.
  intros [Hn Hv Hh] Hw. unfold within in Hw. pose proof (Z.pow_pos_nonneg 2 (32 - n) ltac:(lia) ltac:(lia)) as Hp.
  pose proof (Z.div_mod v (2 ^ (32 - n)) ltac:(lia)).
  assert (E : 2 ^ 32 = 2 ^ (32 - n) * 2 ^ n) by (rewrite <- Z.pow_add_r by lia; f_equal; lia).
  assert (v / 2 ^ (32 - n) < 2 ^ n) by (apply Z.div_lt_upper_bound; lia). nia.
Qed.
(** The last address has no successor in a proper network. *)
Lemma inc_leaves v n ip a : net_ok 32 v n → 1 ≤ n → holds ip a → within v n a → a + 1 = 2 ^ 32 →
  IPNet_Contains (net_4 v n) (inc ip) = false.
Proof.
  intros Hok H1 Hip Hw Hlast. destruct (inc_holds ip a Hip) as [_ H]. destruct (H Hlast) as [->|[E El]].
  - apply not_true_is_false. rewrite (Contains_within v n _ 0) by (done || by split; [left|]).
    unfold within in *. assert (2 ^ (32 - n) ≤ 2 ^ 31) by (apply Z.pow_le_mono_r; lia). lia.
  - unfold IPNet_Contains, net_4. cbn [ipn_IP]. rewrite E, El. done.
Qed.

Lemma pigeon (m : gmap string string) (l : list string) : NoDup l → (∀ s, s ∈ l → is_Some (m !! s)) → (List.length l ≤ size m)%nat.
Proof.
  intros Hnd Hl. rewrite <- (size_dom (D := gset string)). rewrite <- (size_list_to_set (C := gset string)) by done.
  apply subseteq_size. intros s. rewrite elem_of_list_to_set, elem_of_dom. apply Hl.
Qed.
Lemma search_outside fuel m l : (0 < fuel)%nat → IPNet_Contains (network (ipam m)) (read m l) = false → search fuel m l = Ret (m, false).
Proof. destruct fuel; [lia|]. cbn [search]. by intros _ ->. Qed.

(** What changes is the slice that is searched with. *)
Definition same_but (l : nat) (m m' : mem) : Prop :=
  ipam m' = ipam m ∧ List.length (slices m') = List.length (slices m) ∧ ∀ l', l' ≠ l → slices m' !! l' = slices m !! l'.
Lemma same_but_refl l m : same_but l m m.
Proof. done. Qed.
Lemma same_but_set l m ip m' : same_but l (set_slice m l ip) m' → same_but l m m'.
Proof.
  intros (H1 & H2 & H3). cbn in *. rewrite length_insert in H2. split; [done|]. split; [done|].
  intros l' Hl'. rewrite H3 by done. by rewrite list_lookup_insert_ne.
Qed.
Lemma read_lookup m l (ip : IP) : slices m !! l = Some ip → read m l = ip.
Proof. unfold read. by intros ->. Qed.

Definition found_at (v n : Z) (m m' : mem) (l : nat) (a : Z) : Prop := ∃ ip b,
  slices m' !! l = Some ip ∧ holds ip b ∧ within v n b ∧ ¬ taken m b ∧ ∀ c, a ≤ c < b → taken m c.
Definition missed (v n : Z) (m m' : mem) (l : nat) (a : Z) : Prop :=
  (∃ ip, slices m' !! l = Some ip ∧ IPNet_Contains (net_4 v n) ip = false) ∧ (v ≤ a → ∀ c, a ≤ c → within v n c → taken m c).

Lemma search_spec v n fuel : ∀ m l ip a seen,
  network (ipam m) = net_4 v n → net_ok 32 v n → 1 ≤ n → slices m !! l = Some ip → holds ip a →
  NoDup seen → (∀ s, s ∈ seen → is_Some (allocatedReverse (ipam m) !! s)) → (∀ s, s ∈ seen → ∃ b, s = text b ∧ 0 ≤ b < a) →
  (size (allocatedReverse (ipam m)) < fuel + List.length seen)%nat →
  ∃ m' found, search fuel m l = Ret (m', found) ∧ same_but l m m' ∧
    if found : bool then found_at v n m m' l a else missed v n m m' l a.
Proof.
  induction fuel as [|fuel IH]; intros m l ip a seen Hnet Hok H1 Hl Hip Hnd Hseen Hlt Hsz.
  { pose proof (pigeon _ _ Hnd Hseen). lia. }
  cbn [search]. rewrite Hnet, (read_lookup _ _ _ Hl). destruct (IPNet_Contains _ ip) eqn:Hc.
  2: { exists m, false. split; [done|]. split; [apply same_but_refl|]. split; [by exists ip|].
       intros Hva c Hac Hw. exfalso. assert (¬ within v n a) as Hna by (intros Hx; apply (Contains_within v n ip) in Hx; [congruence|done..]).
       apply Hna. unfold within in *. lia. }
  apply (Contains_within v n ip a) in Hc as Hw; [|done..]. rewrite (holds_String ip a Hip).
  destruct (allocatedReverse (ipam m) !! text a) as [who|] eqn:Ht.
  2: { exists m, true. split; [done|]. split; [apply same_but_refl|]. exists ip, a. unfold taken. rewrite Ht.
       split; [done|]. split; [done|]. split; [done|]. split; [by intros [? ?]|lia]. }
  pose proof (lookup_lt_Some _ _ _ Hl) as Hlen. set (m1 := set_slice m l (inc ip)).
  assert (Hl1 : slices m1 !! l = Some (inc ip)) by (by apply list_lookup_insert_eq).
  assert (Hnd' : NoDup (text a :: seen)).
  { apply NoDup_cons_2; [|done]. intros (b & E & Hb)%Hlt. apply text_inj in E; [lia|apply Hip|destruct Hip; lia]. }
  assert (Hseen' : ∀ s, s ∈ text a :: seen → is_Some (allocatedReverse (ipam m) !! s))
    by (intros s [->|Hs]%elem_of_cons; [by rewrite Ht|by apply Hseen]).
  pose proof (pigeon _ _ Hnd' Hseen') as Hpg. cbn [List.length] in Hpg.
  destruct (Z.eq_dec (a + 1) (2 ^ 32)) as [Hlast|Hnl].
  - pose proof (inc_leaves v n ip a Hok H1 Hip Hw Hlast) as Hout.
    rewrite search_outside by (lia || by rewrite (read_lookup _ _ _ Hl1); cbn; rewrite Hnet).
    exists m1, false. split; [done|]. split; [by apply same_but_set with (ip := inc ip), same_but_refl|].
    split; [by exists (inc ip)|]. intros Hva c Hac Hcw. apply (within_bound v n c Hok) in Hcw as Hcb.
    assert (c = a) as -> by lia. unfold taken. by rewrite Ht.
  - assert (Ha1 : holds (inc ip) (a + 1)) by (apply inc_holds; [done|destruct Hip; lia]).
    destruct (IH m1 l (inc ip) (a + 1) (text a :: seen)) as (m' & found & E & Hsame & Hpost); [done..|  |cbn [List.length]; cbn; lia|].
    { intros s [->|(b & -> & Hb)%Hlt]%elem_of_cons; [exists a; destruct Hip; split; [done|lia]|exists b; split; [done|lia]]. }
    exists m', found. split; [done|]. split; [by apply same_but_set in Hsame|].
    assert (Hta : taken m a) by (unfold taken; by rewrite Ht). destruct found.
    + destruct Hpost as (ip' & b & Hs' & Hh & Hwb & Hf & Hall). exists ip', b. do 4 (split; [done|]).
      intros c Hc'. destruct (Z.eq_dec c a) as [->|]; [done|]. apply Hall. lia.
    + destruct Hpost as [Hs' Hall]. split; [done|]. intros Hva c Hac Hcw.
      destruct (Z.eq_dec c a) as [->|]; [done|]. apply Hall; [lia|lia|done].
Qed.

(** ** Invariant *)

Notation "m ▹ name" := (allocated (ipam m) !! name) (at level 20, name at next level).
Notation "m ◃ ip" := (allocatedReverse (ipam m) !! ip) (at level 20, ip at next level).

(** The maps are inverse of each other, the first and the last address are taken, and
    the slice of the cursor holds an address, or is outside. *)
Record fab_ok (v n : Z) (m : mem) : Prop := {
  fab_net : network (ipam m) = net_4 v n;
  fab_shape : net_ok 32 v n ∧ 1 ≤ n;
  fab_inverse name ip : m ▹ name = Some ip ↔ m ◃ ip = Some name;
  fab_canonical name ip : m ▹ name = Some ip → canonical ip;
  fab_ends : taken m v ∧ taken m (v + (2 ^ (32 - n) - 1));
  fab_cursor : ∃ ip, slices m !! lastAllocatedIP (ipam m) = Some ip ∧ (IPNet_Contains (net_4 v n) ip = false ∨ ∃ a, holds ip a)
}.

Lemma inverse_pair (f g : gmap string string) name ip :
  (∀ x y, f !! x = Some y ↔ g !! y = Some x) → f !! name = None → g !! ip = None →
  ∀ x y, <[name := ip]> f !! x = Some y ↔ <[ip := name]> g !! y = Some x.
Proof.
  intros Hinv Hf Hg x y. rewrite !lookup_insert_Some, Hinv. split; intros [[-> ->]|[Hne H]]; auto; right; split; auto; intros ->.
  - congruence.
  - apply Hinv in H. congruence.
Qed.
Lemma taken_insert (i : IPAM) name ip l sl sl' a :
  taken (mkMem i sl) a → taken (mkMem (set_maps i name ip l) sl') a.
Proof. unfold taken. cbn. intros H. destruct (decide (ip = text a)) as [->|]; [by rewrite lookup_insert_eq|by rewrite lookup_insert_ne]. Qed.
Lemma set_maps_ok v n i sl sl' name ip l : fab_ok v n (mkMem i sl) → allocated i !! name = None → allocatedReverse i !! ip = None → canonical ip →
  (∃ x, sl' !! l = Some x ∧ (IPNet_Contains (net_4 v n) x = false ∨ ∃ a, holds x a)) → fab_ok v n (mkMem (set_maps i name ip l) sl').
Proof.
  intros [H1 H2 H3 H4 H5 H6] Hn Hi Hc Hl. split; cbn; auto.
  - by apply inverse_pair.
  - intros x y [[-> ->]|[_ H]]%lookup_insert_Some; [done|by eapply H4].
  - destruct H5. split; by eapply taken_insert.
Qed.
Lemma configure_ok v n m name ip m' : fab_ok v n m → canonical ip → configure m name ip = Ok m' →
  fab_ok v n m' ∧ allocated (ipam m') = <[name := ip]> (allocated (ipam m)).
Proof.
  destruct m as [i sl]. intros Hok Hc. unfold configure. destruct (allocated _ !! name) eqn:Hn; [done|].
  destruct (allocatedReverse _ !! ip) eqn:Hi; [done|]. intros [= <-]. split; [|done].
  apply (set_maps_ok v n i sl); [done..|]. apply Hok.
Qed.

(** Only slices have changed. *)
Lemma same_maps_ok v n m m' : fab_ok v n m → ipam m' = ipam m →
  (∃ x, slices m' !! lastAllocatedIP (ipam m) = Some x ∧ (IPNet_Contains (net_4 v n) x = false ∨ ∃ a, holds x a)) → fab_ok v n m'.
Proof. intros [H1 H2 H3 H4 H5 H6] E Hl. unfold taken in *. split; rewrite ?E; auto. unfold taken. by rewrite E. Qed.

Lemma first_search v n m : fab_ok v n m → ∃ m' found, search (fuel_for m) m (lastAllocatedIP (ipam m)) = Ret (m', found) ∧
  same_but (lastAllocatedIP (ipam m)) m m' ∧
  (if found : bool then ∃ a, found_at v n m m' (lastAllocatedIP (ipam m)) a
   else ∃ ip, slices m' !! lastAllocatedIP (ipam m) = Some ip ∧ IPNet_Contains (net_4 v n) ip = false).
Proof.
  intros [Hnet [Hok Hn] Hinv Hcan Hends (ip & Hl & Hip)]. destruct (IPNet_Contains (net_4 v n) ip) eqn:Hc.
  - destruct Hip as [[=]|[a Ha]].
    destruct (search_spec v n (fuel_for m) m _ ip a [] Hnet Hok Hn Hl Ha) as (m' & found & E & Hs & Hp).
    + constructor.
    + by intros s ?%elem_of_nil.
    + by intros s ?%elem_of_nil.
    + unfold fuel_for. cbn. lia.
    + exists m', found. split; [done|]. split; [done|]. destruct found; [by exists a|apply Hp].
  - exists m, false. rewrite search_outside; [|unfold fuel_for; lia|by rewrite Hnet, (read_lookup _ _ _ Hl)].
    split; [done|]. split; [apply same_but_refl|]. by exists ip.
Qed.
Lemma second_search v n m l : network (ipam m) = net_4 v n → net_ok 32 v n ∧ 1 ≤ n → slices m !! l = Some (be_bytes 4 v) →
  ∃ m' found, search (fuel_for m) m l = Ret (m', found) ∧ same_but l m m' ∧
    if found : bool then found_at v n m m' l v else missed v n m m' l v.
Proof.
  intros Hnet [Hok Hn] Hl. apply (search_spec v n _ m l (be_bytes 4 v) v []); [done..| | | | |].
  - split; [by left|apply Hok].
  - constructor.
  - by intros s ?%elem_of_nil.
  - by intros s ?%elem_of_nil.
  - unfold fuel_for. cbn. lia.
Qed.
Lemma network_base v n : net_ok 32 v n → Mask (ipn_IP (net_4 v n)) (ipn_Mask (net_4 v n)) = be_bytes 4 v.
Proof.
  intros [Hn Hv Hh]. unfold Mask, net_4, CIDRMask. cbn [ipn_IP ipn_Mask]. change (Z.to_nat (32 / 8)) with 4%nat.
  rewrite !length_be_bytes. cbn [Nat.eqb andb]. rewrite land_bytes, land_mask by lia. f_equal.
  pose proof (Z.pow_pos_nonneg 2 (32 - n) ltac:(lia) ltac:(lia)). pose proof (Z.div_mod v (2 ^ (32 - n)) ltac:(lia)). lia.
Qed.

(** What [Allocate] returns and leaves. *)
Definition alloc_post (v n : Z) (m : mem) (name : string) (m' : mem) (r : result fi_error nat) : Prop :=
  match r with
  | Ok l => let s := IP_String (read m' l) in
    m' ▹ name = Some s ∧ (∀ other, other ≠ name → m' ▹ other = m ▹ other) ∧
    (m ▹ name = Some s ∨ m ▹ name = None ∧ m ◃ s = None ∧ ∃ b, within v n b ∧ s = text b)
  | Err e => e = NoMoreIP ∧ ipam m' = ipam m ∧ m ▹ name = None ∧ ∀ b, within v n b → taken m b
  end.

Lemma take_ip_ok v n m m0 m' name l a : fab_ok v n m → m ▹ name = None → ipam m0 = ipam m → ipam m' = ipam m → found_at v n m0 m' l a →
  fab_ok v n (take_ip m' name l) ∧ alloc_post v n m name (take_ip m' name l) (Ok l).
Proof.
  intros Hok Hn E0 E (ip & b & Hl & Hip & Hw & Hfree & _). unfold take_ip. rewrite (read_lookup _ _ _ Hl), (holds_String ip b Hip), E.
  assert (Hf : m ◃ text b = None) by (apply eq_None_not_Some; unfold taken in Hfree; by rewrite E0 in Hfree).
  split.
  - destruct m as [i sl]. apply (set_maps_ok v n i sl); [done..|apply text_canonical, Hip|]. exists ip. split; [done|]. right. by exists b.
  - cbn zeta. unfold alloc_post. unfold read. cbn [slices ipam set_maps allocated]. rewrite Hl, (holds_String ip b Hip).
    split; [by rewrite lookup_insert_eq|]. split; [intros; by rewrite lookup_insert_ne|]. right. eauto.
Qed.

Lemma fabric_Allocate_spec v n m name : fab_ok v n m →
  ∃ m' r, Allocate m name = Ret (m', r) ∧ fab_ok v n m' ∧ alloc_post v n m name m' r.
Proof.
  intros Hok. unfold Allocate. destruct (m ▹ name) as [s|] eqn:Hn.
  { eexists _, _. split; [reflexivity|]. split.
    - eapply (same_maps_ok v n m); [done..|]. cbn. destruct (fab_cursor _ _ _ Hok) as (ip & Hl & Hip). exists ip.
      split; [|done]. by apply lookup_app_l_Some.
    - cbn. unfold read. cbn. rewrite lookup_app_r, Nat.sub_diag by done. cbn. rewrite (fab_canonical _ _ _ Hok name s Hn). auto. }
  destruct (first_search v n m Hok) as (m1 & found & -> & (E1 & Hlen & Hrest) & Hp). cbn [mbind outcome_bind]. destruct found.
  { destruct Hp as [a Hp]. eexists _, _. split; [reflexivity|]. by apply (take_ip_ok v n m m m1 name _ a). }
  destruct Hp as (ip & Hl & Hout). rewrite E1, (fab_net _ _ _ Hok). destruct (fab_shape _ _ _ Hok) as [Hsh Hn1].
  rewrite network_base by done. cbn [new_slice].
  set (l := List.length (slices m1)). set (m2 := mkMem _ _).
  destruct (second_search v n m2 l) as (m3 & found & -> & (E3 & Hlen3 & Hrest3) & Hp3); [cbn; by rewrite E1; apply Hok|done| |].
  { cbn. unfold l. by rewrite lookup_app_r, Nat.sub_diag by done. }
  cbn [mbind outcome_bind]. assert (E2 : ipam m2 = ipam m) by done. rewrite E2 in E3. destruct found.
  { eexists _, _. split; [reflexivity|]. by apply (take_ip_ok v n m m2 m3 name l v). }
  eexists _, _. split; [reflexivity|]. destruct Hp3 as [_ Hall]. split.
  - apply (same_maps_ok v n m); [done..|]. exists ip. split; [|by left]. rewrite Hrest3.
    + cbn. apply lookup_app_l_Some. done.
    + unfold l. apply lookup_lt_Some in Hl. lia.
  - split; [done|]. split; [done|]. split; [done|]. intros b Hb. unfold taken in Hall. rewrite E2 in Hall. apply Hall; [lia|apply Hb|done].
Qed.

Lemma parse_cidr_4 s v n : ParseCIDR s = Some (net_4 v n) → ∃ ip a, parse_cidr s = Some (ip, net_4 v n) ∧ holds ip a.
Proof.
  intros Hs. unfold parse_cidr. rewrite Hs. cbn [mbind option_bind]. unfold ParseCIDR in Hs.
  apply bind_Some in Hs as ([t m] & -> & Hs). apply bind_Some in Hs as (ip & Hip & Hs). cbn. rewrite Hip. cbn.
  apply ParseAddr_valid in Hip as [Hl Hv _]. apply bind_Some in Hs as (k & _ & Hs). destruct (_ || _); [done|].
  assert (bitlen ip = 32) as E.
  { destruct Hl as [|Hl]; [done|]. exfalso. rewrite Hl in Hs. by apply (f_equal (fun o => match o with Some x => List.length (ipn_Mask x) | None => 0%nat end)) in Hs. }
  exists (As16 ip), (val ip). split; [done|]. split; [|by rewrite E in Hv]. right. unfold As16, Is4, addr_bytes. by rewrite E.
Qed.
Lemma two_taken (t0 t1 x y : string) : (<[t1 := t1]> {[ t0 := t0 ]} : gmap string string) !! x = Some y ↔ x = y ∧ (x = t0 ∨ x = t1).
Proof.
  destruct (decide (x = t1)) as [->|H1]; [rewrite lookup_insert_eq; naive_solver|].
  rewrite lookup_insert_ne by done. rewrite lookup_singleton_Some. naive_solver.
Qed.
Lemma newIPAM_ok s v n : ParseCIDR s = Some (net_4 v n) → net_ok 32 v n → 1 ≤ n → ∃ m, newIPAM s = Some m ∧ fab_ok v n m.
Proof.
  intros Hs Hok Hn. destruct (parse_cidr_4 s v n Hs) as (ip & a & Hp & Hip). unfold newIPAM. rewrite Hp. cbn [mbind option_bind].
  pose proof Hok as [Hlen Hv Hh]. change (ipn_Mask (net_4 v n)) with (CIDRMask n 32). rewrite Mask_Size_4 by done. pose proof (Z.pow_pos_nonneg 2 (32 - n) ltac:(lia) ltac:(lia)) as Hpos.
  assert (2 ^ (32 - n) ≤ 2 ^ 31) by (apply Z.pow_le_mono_r; lia).
  change (IP_String (ipn_IP (net_4 v n))) with (text v). rewrite ParseIP_quad by done.
  rewrite Z.mod_small by lia. rewrite add_mapped by lia.
  assert (Hw : within v n (v + (2 ^ (32 - n) - 1))) by (unfold within; lia). apply within_bound in Hw; [|done].
  change (IP_String (be_bytes 4 (v + (2 ^ (32 - n) - 1)))) with (text (v + (2 ^ (32 - n) - 1))).
  set (t0 := text v). set (t1 := text (v + (2 ^ (32 - n) - 1))).
  pose proof (two_taken t0 t1) as Hmap.
  eexists. split; [reflexivity|]. split; cbn [ipam network allocated allocatedReverse lastAllocatedIP slices].
  - done.
  - done.
  - intros x y. rewrite !Hmap. clear. naive_solver.
  - intros x y [-> [->| ->]]%Hmap; by apply text_canonical.
  - unfold taken. cbn [ipam allocatedReverse]. split; [exists t0|exists t1]; apply Hmap; auto.
  - exists ip. split; [done|]. right. by exists a.
Qed.

(** The states of the allocator of the network [s]: what is configured at start-up
    are addresses the controllers wrote. *)
Inductive fab_reachable (s : string) : mem → Prop :=
| fab_new m : newIPAM s = Some m → fab_reachable s m
| fab_configure m name ip m' : fab_reachable s m → canonical ip → configure m name ip = Ok m' → fab_reachable s m'
| fab_allocate m name m' r : fab_reachable s m → Allocate m name = Ret (m', r) → fab_reachable s m'.
Lemma fab_reachable_ok s v n m : ParseCIDR s = Some (net_4 v n) → net_ok 32 v n → 1 ≤ n → fab_reachable s m → fab_ok v n m.
Proof.
  intros Hs Hok Hn. induction 1 as [m H|m name ip m' _ IH Hc H|m name m' r _ IH H].
  - destruct (newIPAM_ok s v n Hs Hok Hn) as (m1 & H1 & ?). by rewrite H in H1; injection H1 as ->.
  - by eapply configure_ok.
  - destruct (fabric_Allocate_spec v n m name IH) as (m1 & r1 & H1 & ? & _). by rewrite H in H1; injection H1 as -> _.
Qed.

(** What one lookup of the maps says of another. *)
Lemma fab_unique v n m x y ip : fab_ok v n m → m ▹ x = Some ip → m ▹ y = Some ip → x = y.
Proof. intros Hok Hx%(fab_inverse _ _ _ Hok) Hy%(fab_inverse _ _ _ Hok). congruence. Qed.

(** ** Callers

    A controller calls [Allocate], which gives it a reference, and afterwards writes
    the text of the address into its object: the mutex is held only for the call. *)
Record callers := mkCallers { c_mem : mem; c_pending : list (string * nat); c_written : gmap string string }.
Inductive call_step : callers → callers → Prop :=
| call_allocate m m' name l p w : Allocate m name = Ret (m', Ok l) →
    call_step (mkCallers m p w) (mkCallers m' ((name, l) :: p) w)
| call_write m p p' name l w : (name, l) ∈ p → p' = List.filter (fun c => negb (bool_decide (c = (name, l)))) p →
    call_step (mkCallers m p w) (mkCallers m p' (<[name := IP_String (read m l)]> w)).

(** C31: in every state of the allocator of an IPv4 network, a name is given the
    address it already has, or one of the network that nobody has, neither the first nor the last;
    no other name loses or shares its address; the call returns, and it fails only when all
    addresses are taken. *)
Theorem fabric_address_granted s v n m name : ParseCIDR s = Some (net_4 v n) → net_ok 32 v n → 1 ≤ n → fab_reachable s m →
  ∃ m' r, Allocate m name = Ret (m', r) ∧ fab_reachable s m' ∧
  match r with
  | Ok l => let ip := IP_String (read m' l) in
      m' ▹ name = Some ip ∧ (∀ other, other ≠ name → m' ▹ other = m ▹ other ∧ m' ▹ other ≠ Some ip) ∧
      (m ▹ name = Some ip ∨ m ▹ name = None ∧ ∃ b, ip = text b ∧ v < b < v + (2 ^ (32 - n) - 1))
  | Err _ => m ▹ name = None ∧ ipam m' = ipam m ∧ ∀ b, v ≤ b < v + 2 ^ (32 - n) → is_Some (m ◃ text b)
  end.
Proof.
  intros Hs Hsh Hn Hr. pose proof (fab_reachable_ok s v n m Hs Hsh Hn Hr) as Hok.
  destruct (fabric_Allocate_spec v n m name Hok) as (m' & r & E & Hok' & Hp). exists m', r. split; [done|]. split; [by eapply fab_allocate|].
  destruct r as [l|e]; [|destruct Hp as (_ & ? & ? & ?); auto]. destruct Hp as (Hname & Hother & Hip). cbn zeta in *. split; [done|]. split.
  - intros other Ho. split; [by apply Hother|]. intros Ho'. apply Ho. by eapply fab_unique.
  - destruct Hip as [?|(Hnone & Hfree & b & Hb & Hip)]; [by left|]. right. split; [done|]. exists b. split; [done|].
    rewrite Hip in Hfree. destruct (fab_ends _ _ _ Hok) as [[x H0] [y H1]]. unfold within in Hb.
    assert (b ≠ v) by congruence. assert (b ≠ v + (2 ^ (32 - n) - 1)) by congruence. lia.
Qed.

(** Two controllers that write after both have called publish the same address for
    two names: the slice returned to the first is the cursor the second call
    increments. *)
Theorem fabric_address_overwritten : ∃ m st, newIPAM "10.80.0.0/16" = Some m ∧ rtc call_step (mkCallers m [] ∅) st ∧
  c_written st !! "node-a"%string = Some "10.80.0.2"%string ∧ c_written st !! "node-b"%string = Some "10.80.0.2"%string ∧
  c_mem st ▹ "node-a" = Some "10.80.0.1"%string.
Proof.
  destruct (newIPAM "10.80.0.0/16") as [m|] eqn:Hm; [|by vm_compute in Hm]. vm_compute in Hm. injection Hm as <-.
  eexists _, _. split; [reflexivity|]. split.
  { eapply rtc_l; [eapply (call_allocate _ _ "node-a"); vm_compute; reflexivity|].
    eapply rtc_l; [eapply (call_allocate _ _ "node-b"); vm_compute; reflexivity|].
    eapply rtc_l; [eapply (call_write _ _ _ "node-a" 0); [by apply elem_of_cons; right; left|vm_compute; reflexivity]|].
    eapply rtc_l; [eapply (call_write _ _ _ "node-b" 0); [by left|vm_compute; reflexivity]|].
    apply rtc_refl. }
  by vm_compute.
Qed.

(** ** Witnesses *)

Lemma fabric_address_granted_witness : ∃ m m' r, newIPAM "10.80.0.0/16" = Some m ∧ Allocate m "node-a" = Ret (m', r) ∧
  ∃ l, r = Ok l ∧ IP_String (read m' l) = "10.80.0.1"%string.
Proof.
  destruct (newIPAM "10.80.0.0/16") as [m|] eqn:Hm; [|by vm_compute in Hm].
  destruct (fabric_address_granted "10.80.0.0/16" 0x0a500000 16 m "node-a") as (m' & r & E & _ & _).
  - vm_compute. reflexivity.
  - by apply example_net_ok.
  - lia.
  - by apply fab_new.
  - exists m, m', r. split; [done|]. split; [done|]. vm_compute in Hm. injection Hm as <-. vm_compute in E. injection E as <- <-.
    exists 0%nat. split; [reflexivity|]. vm_compute. reflexivity.
Defined.
