(* ===== verification/InternalNet.v ===== *)
(** * InternalNet: the resources of the internal network
      (src/apis/networking/v1beta1/{internalnode,internalfabric,genevetunnel,routeconfiguration}_types.go,
       src/pkg/{fabric,gateway,route}/label.go)

    Inside a cluster the nodes are joined to the gateways by tunnels.  An InternalNode
    stands for a node, an InternalFabric for a gateway.  Their controllers publish
    route and firewall configurations; routes refer to the objects they are made
    for.  A controller also keeps state of its own, part of the world it runs in. *)

From S2P Require Export Remapping Route.
From S2P Require Export KubeClient.
Local Open Scope Z_scope.

#[export] Instance Scope_eq_dec : EqDecision Scope.
Proof. solve_decision. Defined.
#[export] Instance NextHop_eq_dec : EqDecision NextHop.
Proof. solve_decision. Defined.
#[export] Instance Route_eq_dec : EqDecision Route.
Proof. solve_decision. Defined.

(** ** Resources *)

Record ObjectReference := mkRef { ref_Kind : string; ref_Name : string; ref_Namespace : string; ref_UID : string }.
#[export] Instance ObjectReference_eq_dec : EqDecision ObjectReference.
Proof. solve_decision. Defined.

(** Routes and rules with the references [Route] and [Rule] of the reconciler leave
    out; the networks of origin and the outgoing interfaces of rules are not used. *)
Record TRoute := mkTRoute { tr_route : Route; tr_TargetRef : option ObjectReference }.
#[export] Instance TRoute_eq_dec : EqDecision TRoute.
Proof. solve_decision. Defined.
Record TRule := mkTRule {
  tl_Dst : option string; tl_Iif : option string; tl_FwMark : option Z; tl_Priority : option Z;
  tl_Routes : list TRoute; tl_TargetRef : option ObjectReference
}.
#[export] Instance TRule_eq_dec : EqDecision TRule.
Proof. solve_decision. Defined.
Definition zero_rule : TRule := mkTRule None None None None [] None.
Definition set_tl_Routes (r : TRule) (l : list TRoute) : TRule :=
  mkTRule (tl_Dst r) (tl_Iif r) (tl_FwMark r) (tl_Priority r) l (tl_TargetRef r).
Definition api_rule (r : TRule) : Rule :=
  mkRule (tl_Dst r) None (tl_Iif r) None (tl_FwMark r) (tl_Priority r) (tr_route <$> tl_Routes r).
Definition plain_route (dst gw dev : option string) (scope : option Scope) : Route := mkRoute dst None gw [] dev None scope.

Record InternalNode := mkInternalNode {
  in_Name : string; in_UID : string; in_GatewayName : string; in_NodeIP : string; in_Finalizers : list string; in_Deleting : bool
}.
(** [if_Controller]: the name of the controlling owner. *)
Record InternalFabric := mkInternalFabric {
  if_Name : string; if_Namespace : string; if_UID : string; if_Labels : labels; if_Controller : option string;
  if_Finalizers : list string; if_Deleting : bool;
  if_MTU : Z; if_RemoteCIDRs : list string; if_NodeName : string; if_InterfaceIP : string; if_GatewayIP : string;
  if_ECMPMark : option Z
}.

(** What is stored of the resources the controllers write. *)
Inductive inet :=
| PRoutes (owners : list OwnerRef) (name : string) (rules : list TRule)
| PFw (owners : list OwnerRef) (t : Firewall.Table)
| PTunnel (owners : list OwnerRef) (id : Z) (node : string) (fabric : string * string).
#[export] Instance inet_eq_dec : EqDecision inet.
Proof. solve_decision. Defined.

Definition routeconfigurations : string := "routeconfigurations".
Definition genevetunnels : string := "genevetunnels".
Definition rc_of (o : Obj inet) : list OwnerRef * string * list TRule :=
  match o_spec o with AMap (PRoutes ow n l) => (ow, n, l) | _ => ([], ""%string, []) end.
Definition rc_owners (o : Obj inet) : list OwnerRef := (rc_of o).1.1.
Definition rc_name (o : Obj inet) : string := (rc_of o).1.2.
Definition rc_rules (o : Obj inet) : list TRule := (rc_of o).2.
Definition ifw_of (o : Obj inet) : list OwnerRef * Firewall.Table :=
  match o_spec o with AMap (PFw ow t) => (ow, t) | _ => ([], empty_table) end.
Definition set_obj (o : Obj inet) (l : labels) (p : inet) : Obj inet :=
  mkObj l (o_annotations o) (o_finalizers o) (o_deleting o) (o_version o) (AMap p) (o_status o).

(** ** Labels *)

Definition RouteCategoryTargetKey : string := "networking.liqo.io/route-category".
Definition RouteSubCategoryTargetKey : string := "networking.liqo.io/route-subcategory".
Definition RouteUniqueTargetKey : string := "networking.liqo.io/route-unique".
Definition InternalFabricName : string := "networking.liqo.io/internal-fabric-name".
Definition InternalNodeName : string := "networking.liqo.io/internal-node-name".

Definition fabric_ForgeFirewallTargetLabels : labels :=
  {[ FirewallCategoryTargetKey := "fabric"%string; FirewallSubCategoryTargetKey := "all-nodes"%string ]}.
Definition ForgeFirewallTargetLabelsSingleNode (nodeName : string) : labels :=
  {[ FirewallCategoryTargetKey := "fabric"%string; FirewallSubCategoryTargetKey := "single-node"%string; FirewallUniqueTargetKey := nodeName ]}.
Definition ForgeRouteTargetLabels : labels := {[ RouteCategoryTargetKey := "fabric"%string ]}.
Definition ForgeRouteInternalTargetLabels : labels :=
  {[ RouteCategoryTargetKey := "gateway"%string; RouteSubCategoryTargetKey := "fabric"%string ]}.
Definition ForgeRouteInternalTargetLabelsByNode (nodeName : string) : labels :=
  {[ RouteCategoryTargetKey := "gateway"%string; RouteSubCategoryTargetKey := "fabric-node"%string; RouteUniqueTargetKey := nodeName ]}.
Definition ForgeFirewallInternalTargetLabels : labels :=
  {[ FirewallCategoryTargetKey := "gateway"%string; FirewallSubCategoryTargetKey := "fabric"%string ]}.

Definition cidr32 (ip : string) : string := (ip ++ "/32")%string.
(** [client.ObjectKey.String]. *)
Definition object_key (ns name : string) : string := (ns ++ "/" ++ name)%string.

(** ** State of the process *)

Section process.
Context {W S : Type} (get : W → S) (put : S → W → W).
Definition asks : K W S := fun w => Ret (w, Ok (get w)).
Definition puts (s : S) : K W () := fun w => Ret (put s w, Ok ()).
End process.

(** ** [slices.DeleteFunc]

    The elements that are kept are moved to the front of the array while it is
    visited: a condition that reads the array sees it change. *)
Section delete_func.
Context {E : Type} (del : list E → E → bool).
Fixpoint index_func (i : nat) (arr rest : list E) : option nat :=
  match rest with
  | [] => None
  | v :: rest => if del arr v then Some i else index_func (S i) arr rest
  end.
(** The loop from [j], with [n] elements left. *)
Fixpoint compact (n : nat) (arr : list E) (i j : nat) : list E * nat :=
  match n with
  | O => (arr, i)
  | S n =>
    match arr !! j with
    | None => (arr, i)
    | Some v => if del arr v then compact n arr i (S j) else compact n (<[i := v]> arr) (S i) (S j)
    end
  end.
Definition DeleteFunc (arr : list E) : list E :=
  match index_func 0 arr arr with
  | None => arr
  | Some i => let '(arr, i) := compact (List.length arr - S i) arr i (S i) in take i arr
  end.
End delete_func.

(** Removing the element at [k] by comparing a key that is unique: the element of
    the array the key is read from is the next one from the first move on, and the
    keys still differ. *)
Section unique_key.
Context {E : Type} (key : E → nat) (k : nat).
Definition by_key (arr : list E) (v : E) : bool :=
  match arr !! k with Some x => bool_decide (key v = key x) | None => false end.

Lemma index_func_key arr x i rest pre : arr = pre ++ rest → arr !! k = Some x → NoDup (key <$> arr) → i = List.length pre → (i ≤ k)%nat →
  index_func by_key i arr rest = Some k.
Proof.
  revert i pre. induction rest as [|v rest IH]; intros i pre Harr Hk Hnd Hi Hle.
  { rewrite app_nil_r in Harr. subst pre. apply lookup_lt_Some in Hk. lia. }
  assert (Hiv : arr !! i = Some v) by (rewrite Harr, Hi; by rewrite lookup_app_r, Nat.sub_diag by lia).
  cbn [index_func]. unfold by_key at 1. rewrite Hk. case_bool_decide as Hv.
  - f_equal. eapply (NoDup_lookup (key <$> arr)); [done|..]; rewrite list_lookup_fmap; [by rewrite Hiv|rewrite Hk; cbn; by rewrite Hv].
  - assert (i ≠ k) by congruence.
    apply (IH (S i) (pre ++ [v])); [by rewrite <- app_assoc|done|done|rewrite length_app; cbn; lia|lia].
Qed.
(** The loop after [d] moves. *)
Lemma compact_key arr0 pre mid z rest n : arr0 = pre ++ mid ++ z :: rest → List.length pre = k →
  NoDup (key <$> (pre ++ mid ++ rest)) → (mid = [] → ∀ v, v ∈ rest → key v ≠ key z) → n = List.length rest →
  ∃ arr, compact by_key n arr0 (k + List.length mid) (S (k + List.length mid)) = (arr, (k + List.length mid + List.length rest)%nat) ∧
    take (k + List.length mid + List.length rest) arr = pre ++ mid ++ rest.
Proof.
  revert arr0 mid z n. induction rest as [|v rest IH]; intros arr0 mid z n -> Hpre Hnd Hz ->.
  { cbn [compact List.length]. eexists. split; [f_equal; lia|]. rewrite Nat.add_0_r, app_nil_r, app_assoc, take_app_length'; [done|].
    rewrite length_app. lia. }
  cbn [compact List.length].
  assert (Hlook : (pre ++ mid ++ z :: v :: rest) !! S (k + List.length mid) = Some v).
  { rewrite app_assoc, lookup_app_r by (rewrite length_app; lia). rewrite length_app, Hpre.
    by replace (S (k + List.length mid) - (k + List.length mid))%nat with 1%nat by lia. }
  rewrite Hlook.
  assert (Hkeep : by_key (pre ++ mid ++ z :: v :: rest) v = false).
  { unfold by_key. rewrite lookup_app_r by lia. rewrite Hpre, Nat.sub_diag. destruct mid as [|y mid]; cbn.
    - apply bool_decide_eq_false. apply Hz; [done|left].
    - apply bool_decide_eq_false. intros Hkey. rewrite fmap_app in Hnd. apply NoDup_app in Hnd as (_ & _ & Hnd).
      cbn in Hnd. apply NoDup_cons in Hnd as [Hnd _]. apply Hnd. rewrite <- Hkey, fmap_app, elem_of_app. right. left. }
  rewrite Hkeep.
  assert (Hset : <[(k + List.length mid)%nat := v]> (pre ++ mid ++ z :: v :: rest) = pre ++ (mid ++ [v]) ++ v :: rest).
  { rewrite insert_app_r_alt by lia. rewrite Hpre. replace (k + List.length mid - k)%nat with (List.length mid + 0)%nat by lia.
    rewrite insert_app_r. by rewrite <- app_assoc. }
  rewrite Hset. destruct (IH (pre ++ (mid ++ [v]) ++ v :: rest) (mid ++ [v]) v (List.length rest)) as (arr & Hc & Ht).
  - done.
  - done.
  - by rewrite <- app_assoc.
  - intros H. by destruct mid.
  - done.
  - rewrite length_app in Hc, Ht. cbn [List.length] in Hc, Ht. exists arr.
    replace (k + List.length mid + S (List.length rest))%nat with (k + (List.length mid + 1) + List.length rest)%nat by lia.
    replace (S (k + List.length mid)) with (k + (List.length mid + 1))%nat by lia.
    split; [done|]. by rewrite Ht, <- app_assoc.
Qed.
Lemma DeleteFunc_key arr x : arr !! k = Some x → NoDup (key <$> arr) → DeleteFunc by_key arr = delete k arr.
Proof.
  intros Hk Hnd. unfold DeleteFunc. rewrite (index_func_key arr x 0 arr []) by (done || lia).
  pose proof (lookup_lt_Some _ _ _ Hk) as Hlt.
  destruct (compact_key arr (take k arr) [] x (drop (S k) arr) (List.length arr - S k)) as (arr' & Hc & Ht).
  - cbn. by rewrite take_drop_middle.
  - by rewrite length_take_le by lia.
  - cbn. rewrite <- delete_take_drop. eapply sublist_NoDup; [exact Hnd|]. apply fmap_sublist, sublist_delete.
  - intros _ v Hv Hkey. apply list_elem_of_lookup in Hv as [i Hi]. rewrite lookup_drop in Hi.
    assert (S k + i = k)%nat; [|lia]. eapply (NoDup_lookup (key <$> arr)); [done|by rewrite list_lookup_fmap, Hi|]. rewrite list_lookup_fmap, Hk. cbn. by rewrite Hkey.
  - by rewrite length_drop.
  - cbn [List.length] in Hc, Ht. rewrite !Nat.add_0_r in Hc, Ht. rewrite Hc. cbn. rewrite Ht. by rewrite delete_take_drop.
Qed.
End unique_key.

(** ** The world of the controllers of the internal network

    The client without webhooks; the log holds the successive states of the process. *)

Section world.
Context {Api : KubeApi inet} {R : Responsive inet} {CU : CreateOrUpdater inet} {S : Type} (start : S).
Context (lists : string → string → labels → server → list (string * Obj inet)) (order : list string)
  (kinds : string → option (string * string)) (globalLabels globalAnnotations : labels).

Notation world := (pworld inet S).
Notation "w ⋅ k" := (content (pw_server w) !! k) (at level 20, k at next level).
Abbreviation cl := (plain_client lists).
Abbreviation cou := (CreateOrUpdate order kinds globalLabels globalAnnotations cl).

Definition proc (w : world) : S := default start (last (pw_log w)).
Definition set_proc (s : S) (w : world) : world := mkPworld (pw_server w) (pw_log w ++ [s]).
Lemma proc_set s w : proc (set_proc s w) = s.
Proof. unfold proc, set_proc. cbn. by rewrite last_snoc. Qed.
Lemma proc_only k w w' : only k w w' → proc w' = proc w.
Proof. intros [E _]. unfold proc. by rewrite E. Qed.

(** A read of something that is not a stored object. *)
Definition answer {A} (o : option A) : K world A := fun w => Ret (w, match o with Some a => Ok a | None => Err NotFound end).

Definition all_live (w : world) : Prop := ∀ k o, w ⋅ k = Some o → lives o.
Lemma only_live k w w' o : only k w w' → w' ⋅ k = Some o → lives o → all_live w → all_live w'.
Proof.
  intros [_ Hf] Ho Hlo Hl k' o' Ho'. destruct (decide (k' = k)) as [->|Hne]; [by assert (o' = o) as -> by congruence|].
  rewrite Hf in Ho' by done. by eapply Hl.
Qed.

Lemma cou_stores k f (w : world) lb p : is_Some (kinds k.1.1) → (∀ o, w ⋅ k = Some o → lives o) →
  f (default blank (w ⋅ k)) = Ret (Ok (set_obj (default blank (w ⋅ k)) lb p)) →
  ∃ w' o, cou k f w = Ret (w', Ok o) ∧ only k w w' ∧ w' ⋅ k = Some o ∧ lives o ∧ o_spec o = AMap p.
Proof.
  intros Hk Hl Hf. exact (plain_cou_stores lists order kinds globalLabels globalAnnotations k f w _ Hk Hl Hf eq_refl eq_refl).
Qed.

(** A deletion that is answered: the object is gone, or on its way out. *)
Definition leaving (w : world) (k : okey) : Prop := ∀ o, w ⋅ k = Some o → o_deleting o = true.
Lemma delete_stores k (w : world) o : w ⋅ k = Some o → ∃ w', c_Delete cl k w = Ret (w', Ok ()) ∧ only k w w' ∧
  ∀ o', w' ⋅ k = Some o' → o_deleting o' = true ∧ lives o' ∧ o_spec o' = o_spec o.
Proof.
  intros Ho. pose proof (Delete_answers k (pw_server w) ltac:(by eexists)) as Ha. destruct (Kube.Delete k (pw_server w)) as [s r] eqn:E.
  destruct r as [[]|e]; [|cbn in Ha; congruence]. exists (mkPworld s (pw_log w)).
  assert (Hd : c_Delete cl k w = Ret (mkPworld s (pw_log w), Ok ())) by (cbn; unfold on_pserver; by rewrite E).
  split; [done|]. split; [by eapply plain_delete_frame|]. cbn. intros o' Ho'.
  apply Delete_ok in E as (cur & o3 & Hc & Hst & (_ & _ & Hf) & Hsp & _ & Hd3). rewrite Hst in Ho'. unfold store_obj in Ho'. rewrite Hd3 in Ho'.
  cbn in Ho'. case_bool_decide as Hx; [by rewrite lookup_delete_eq in Ho'|]. rewrite lookup_insert_eq in Ho'. injection Ho' as <-.
  assert (cur = o) as -> by congruence. split; [done|]. split; [by intros _|done].
Qed.
End world.
