(* ===== verification/PodRoutes.v ===== *)
(** * PodRoutes: routes from the gateways to the pods
      (src/pkg/liqo-controller-manager/networking/internal-network/route/
       {pod_controller,pod_k8s,map,leftovers}.go)

    For each node a route configuration tells the gateways how to reach it and the
    pods that run on it: the first rule holds the route to the node, the second one a
    route per pod.  Which node a pod ran on is remembered, for when it is gone. *)

From S2P Require Export InternalNet.
Local Open Scope Z_scope.

Inductive PodPhase := PodPending | PodRunning | PodSucceeded | PodFailed | PodUnknown.
#[export] Instance PodPhase_eq_dec : EqDecision PodPhase.
Proof. solve_decision. Defined.
Record RPod := mkRPod {
  rp_Kind : string; rp_Name : string; rp_Namespace : string; rp_UID : string;
  rp_NodeName : string; rp_PodIP : string; rp_Phase : PodPhase; rp_HostNetwork : bool
}.
Definition pod_key (pod : RPod) : string := object_key (rp_Namespace pod) (rp_Name pod).
(** A pod of which only the name is known. *)
Definition named_pod (ns name : string) : RPod := mkRPod "" name ns "" "" "" PodPending false.
Definition set_NodeName (pod : RPod) (node : string) : RPod :=
  mkRPod (rp_Kind pod) (rp_Name pod) (rp_Namespace pod) (rp_UID pod) node (rp_PodIP pod) (rp_Phase pod) (rp_HostNetwork pod).

(** What the controller remembers: the nodes of the pods, whether the leftovers
    have been looked for, and the events it has sent to itself. *)
Record pstate := mkPstate { podKeyToNode : gmap string string; checked_leftovers : bool; events : list (string * string) }.
Definition set_pods (s : pstate) (m : gmap string string) : pstate := mkPstate m (checked_leftovers s) (events s).

(** ** pod_k8s.go: the rules *)

Definition generatePodRouteConfigurationName (nodeName : string) : string := (nodeName ++ "-gw-node")%string.
Definition pod_ref (pod : RPod) : ObjectReference := mkRef (rp_Kind pod) (rp_Name pod) (rp_Namespace pod) (rp_UID pod).

(** The loops below dereference the destination of each route they pass. *)
Fixpoint find_dst (dst : string) (i : nat) (l : list TRoute) : outcome (option nat) :=
  match l with
  | [] => Ret None
  | r :: l =>
    match rt_Dst (tr_route r) with
    | None => Panic
    | Some d => if bool_decide (d = dst) then Ret (Some i) else find_dst dst (S i) l
    end
  end.
Definition routeByPodIP (pod : RPod) (rule : TRule) : outcome (option nat) := find_dst (cidr32 (rp_PodIP pod)) 0 (tl_Routes rule).
Definition routeContainsNode (node : InternalNode) (rule : TRule) : outcome bool :=
  r ← find_dst (cidr32 (in_NodeIP node)) 0 (tl_Routes rule); Ret (bool_decide (is_Some r)).
Definition owned_by (pod : RPod) (r : TRoute) : bool :=
  match tr_TargetRef r with
  | Some t => bool_decide (ref_Name t = rp_Name pod) && bool_decide (ref_Namespace t = rp_Namespace pod)
  | None => false
  end.
Fixpoint find_owned (pod : RPod) (i : nat) (l : list TRoute) : option nat :=
  match l with
  | [] => None
  | r :: l => if owned_by pod r then Some i else find_owned pod (S i) l
  end.
Definition routeOwnedByPod (pod : RPod) (rule : TRule) : option nat := find_owned pod 0 (tl_Routes rule).

Definition addPodToRoute (pod : RPod) (node : InternalNode) (rule : TRule) : TRule :=
  set_tl_Routes rule (tl_Routes rule ++
    [mkTRoute (plain_route (Some (cidr32 (rp_PodIP pod))) (Some (in_NodeIP node)) None None) (Some (pod_ref pod))]).
Definition addNodeToRoute (node : InternalNode) (rule : TRule) : TRule :=
  set_tl_Routes rule [mkTRoute (plain_route (Some (cidr32 (in_NodeIP node))) None (Some (in_GatewayName node)) (Some LinkScope)) None].
Definition updatePodToRoute (pod : RPod) (node : InternalNode) (r : TRoute) : TRoute :=
  let x := tr_route r in
  mkTRoute (mkRoute (Some (cidr32 (rp_PodIP pod))) (rt_Src x) (Some (in_NodeIP node)) (rt_NextHops x) (rt_Dev x) (rt_Onlink x) (rt_Scope x))
    (Some (pod_ref pod)).

(** The rules once the pod has its route. *)
Definition first_rule (node : InternalNode) (rules : list TRule) : outcome TRule :=
  let r := match rules with [] => mkTRule (Some (cidr32 (in_NodeIP node))) None None None [] None | r :: _ => r end in
  present ← routeContainsNode node r;
  Ret (if (present : bool) then r else addNodeToRoute node r).
Definition second_rule (node : InternalNode) (pod : RPod) (r : TRule) : outcome TRule :=
  found ← routeByPodIP pod r;
  Ret match found with
      | Some i => set_tl_Routes r (alter (updatePodToRoute pod node) i (tl_Routes r))
      | None => addPodToRoute pod node r
      end.
Definition pod_rules (node : InternalNode) (pod : RPod) (rules : list TRule) : outcome (list TRule) :=
  r0 ← first_rule node rules;
  if rp_HostNetwork pod then Ret (r0 :: List.tl rules)
  else
    let rest := match List.tl rules with [] => [mkTRule None (Some TunnelInterfaceName) None None [] None] | l => l end in
    match rest with
    | r1 :: rest => r1 ← second_rule node pod r1; Ret (r0 :: r1 :: rest)
    | [] => Panic
    end.

(** The destinations are pointers, different for different routes of an object that
    was read; those of routes without destination are nil. *)
Definition with_pointers (l : list TRoute) : list (nat * TRoute) :=
  imap (fun i r => (match rt_Dst (tr_route r) with Some _ => S i | None => O end, r)) l.
Definition remove_route (k : nat) (l : list TRoute) : list TRoute := (DeleteFunc (by_key fst k) (with_pointers l)).*2.
Definition without_pod (pod : RPod) (rules : list TRule) : list TRule :=
  match rules with
  | r0 :: r1 :: rest =>
    match routeOwnedByPod pod r1 with
    | Some k => r0 :: set_tl_Routes r1 (remove_route k (tl_Routes r1)) :: rest
    | None => rules
    end
  | _ => rules
  end.

Section controller.
Context `{OR : OwnerRefs} `{CU : CreateOrUpdater inet}.
Context {W : Type} (cl : Client W inet) (order : list string) (kinds : string → option (string * string))
  (globalLabels globalAnnotations : labels) (Namespace : string).
(** The state of the process; reads of pods and InternalNodes. *)
Context (proc : W → pstate) (set_proc : pstate → W → W).
Context (get_pod : string → string → K W RPod) (get_node : string → K W InternalNode).

Notation create_or_update := (CreateOrUpdate order kinds globalLabels globalAnnotations cl).

(** ** map.go *)

Definition PopulatePodKeyToNodeMap (pod : RPod) : K W () :=
  s ← asks proc; puts set_proc (set_pods s (<[pod_key pod := rp_NodeName pod]> (podKeyToNode s))).
Definition GetPodNodeFromMap (key : string) : K W string :=
  s ← asks proc; mret (default ""%string (podKeyToNode s !! key)).
Definition DeletePodKeyFromMap (key : string) : K W () :=
  s ← asks proc; puts set_proc (set_pods s (delete key (podKeyToNode s))).

(** ** pod_k8s.go *)

Definition rc_key (nodeName : string) : okey := (routeconfigurations, Namespace, generatePodRouteConfigurationName nodeName).
Definition forgeRoutePodUpdateFunction (node : InternalNode) (pod : RPod) : mutate_fn inet := fun o =>
  match SetOwnerReference (in_UID node) (rc_owners o) with
  | Err e => Ret (Err e)
  | Ok owners =>
    rules ← pod_rules node pod (rc_rules o);
    Ret (Ok (set_obj o ForgeRouteInternalTargetLabels (PRoutes owners (rp_NodeName pod) rules)))
  end.
Definition forgeRoutePodDeleteFunction (pod : RPod) : mutate_fn inet := fun o =>
  Ret (Ok (set_obj o (o_labels o) (PRoutes (rc_owners o) (rc_name o) (without_pod pod (rc_rules o))))).

Definition enforceRoutePodPresence (pod : RPod) : K W (Obj inet) :=
  node ← get_node (rp_NodeName pod);
  create_or_update (rc_key (rp_NodeName pod)) (forgeRoutePodUpdateFunction node pod).
Definition enforceRoutePodAbsence (pod : RPod) : K W () :=
  nodeName ← (if bool_decide (rp_NodeName pod = ""%string) then GetPodNodeFromMap (pod_key pod) else mret (rp_NodeName pod));
  if bool_decide (nodeName = ""%string) then mret ()
  else
    r ← attempt (c_Get cl (rc_key nodeName));
    match r with
    | Err NotFound => DeletePodKeyFromMap (pod_key pod)
    | Err e => fail e
    | Ok _ =>
      _ ← create_or_update (rc_key nodeName) (forgeRoutePodDeleteFunction pod);
      DeletePodKeyFromMap (pod_key pod)
    end.

(** ** leftovers.go *)

Definition processRoute (r : TRoute) (nodeName : string) : K W () :=
  match tr_TargetRef r with
  | None => mret ()
  | Some t =>
    got ← attempt (get_pod (ref_Namespace t) (ref_Name t));
    match got with
    | Err NotFound =>
      _ ← PopulatePodKeyToNodeMap (set_NodeName (named_pod (ref_Namespace t) (ref_Name t)) nodeName);
      s ← asks proc; puts set_proc (mkPstate (podKeyToNode s) (checked_leftovers s) (events s ++ [(ref_Namespace t, ref_Name t)]))
    | Err e => fail e
    | Ok pod => PopulatePodKeyToNodeMap pod
    end
  end.
Fixpoint processRoutes (l : list TRoute) (nodeName : string) : K W () :=
  match l with [] => mret () | r :: l => _ ← processRoute r nodeName; processRoutes l nodeName end.
Fixpoint processRules (l : list TRule) (nodeName : string) : K W () :=
  match l with [] => mret () | r :: l => _ ← processRoutes (tl_Routes r) nodeName; processRules l nodeName end.
Fixpoint processRouteConfigurations (l : list (string * Obj inet)) : K W () :=
  match l with [] => mret () | (_, o) :: l => _ ← processRules (rc_rules o) (rc_name o); processRouteConfigurations l end.
Definition CheckLeftoverRoutes : K W () :=
  l ← c_List cl routeconfigurations Namespace ∅; processRouteConfigurations l.

(** ** pod_controller.go *)

(** [once.Do(func() { utilruntime.Must(...) })]. *)
Definition leftovers_once : K W () :=
  s ← asks proc;
  if checked_leftovers s then mret ()
  else
    _ ← puts set_proc (mkPstate (podKeyToNode s) true (events s));
    r ← attempt CheckLeftoverRoutes;
    match r with Ok _ => mret () | Err _ => Kube.panic end.
Definition Reconcile (ns name : string) : K W requeue :=
  _ ← leftovers_once;
  got ← attempt (get_pod ns name);
  match got with
  | Err NotFound => _ ← enforceRoutePodAbsence (named_pod ns name); mret Done
  | Err e => fail e
  | Ok pod =>
    if bool_decide (rp_NodeName pod = ""%string) || bool_decide (rp_PodIP pod = ""%string) then mret Done
    else if bool_decide (rp_Phase pod = PodSucceeded) || bool_decide (rp_Phase pod = PodFailed) then
      _ ← enforceRoutePodAbsence pod; mret Done
    else
      _ ← PopulatePodKeyToNodeMap pod;
      r ← attempt (enforceRoutePodPresence pod);
      match r with
      | Ok _ => mret Done
      | Err NotFound => mret After1s
      | Err e => fail e
      end
  end.
End controller.
