(* ===== verification/PodRoutesProps.v ===== *)
(** * PodRoutesProps: which pods the gateways reach, and how *)

From S2P Require Import InternalNet.
From S2P Require Export PodRoutes.
Local Open Scope Z_scope.

(** ** Lists of routes *)

Definition has_dst (r : TRoute) : Prop := is_Some (rt_Dst (tr_route r)).
Definition goes_to (dst : string) (r : TRoute) : bool := bool_decide (rt_Dst (tr_route r) = Some dst).
Definition dsts (l : list TRoute) : list (option string) := (fun r => rt_Dst (tr_route r)) <$> l.

Lemma find_dst_spec dst l i : Forall has_dst l →
  (∃ k r, find_dst dst i l = Ret (Some (i + k)%nat) ∧ l !! k = Some r ∧ rt_Dst (tr_route r) = Some dst) ∨
  find_dst dst i l = Ret None ∧ Some dst ∉ dsts l.
Proof.
  revert i. induction l as [|r l IH]; intros i Hl; cbn [find_dst].
  { right. split; [done|]. by intros ?%elem_of_nil. }
  apply Forall_cons in Hl as [[d Hd] Hl]. rewrite Hd. case_bool_decide as E.
  { left. exists 0%nat, r. rewrite Nat.add_0_r. split; [done|]. split; [done|]. congruence. }
  destruct (IH (S i) Hl) as [(k & r' & -> & Hk & Hr)|[-> Hno]].
  - left. exists (S k), r'. split; [by rewrite Nat.add_succ_r|done].
  - right. split; [done|]. unfold dsts. cbn. rewrite not_elem_of_cons. split; [|done]. congruence.
Qed.
Lemma find_owned_spec pod l i :
  (∃ k r, find_owned pod i l = Some (i + k)%nat ∧ l !! k = Some r ∧ owned_by pod r = true ∧ Forall (fun x => owned_by pod x = false) (take k l)) ∨
  find_owned pod i l = None ∧ Forall (fun x => owned_by pod x = false) l.
Proof.
  revert i. induction l as [|r l IH]; intros i; cbn [find_owned]; [by right|].
  destruct (owned_by pod r) eqn:E.
  { left. exists 0%nat, r. by rewrite Nat.add_0_r. }
  destruct (IH (S i)) as [(k & r' & -> & Hk & Hr & Hall)|[-> Hno]].
  - left. exists (S k), r'. split; [by rewrite Nat.add_succ_r|]. split; [done|]. split; [done|]. cbn. by constructor.
  - right. split; [done|]. by constructor.
Qed.

(** The pointers of routes with a destination are different. *)
Lemma pointers_nodup l : Forall has_dst l → NoDup (fst <$> with_pointers l).
Proof.
  intros Hl. apply NoDup_alt. intros i j p Hi Hj. unfold with_pointers in *.
  rewrite list_lookup_fmap, list_lookup_imap in Hi, Hj.
  destruct (l !! i) as [x|] eqn:Ei; [|done]. destruct (l !! j) as [y|] eqn:Ej; [|done]. cbn in Hi, Hj.
  rewrite Forall_lookup in Hl. destruct (Hl _ _ Ei) as [dx Hx]. destruct (Hl _ _ Ej) as [dy Hy]. rewrite Hx in Hi. rewrite Hy in Hj. congruence.
Qed.
Lemma remove_route_spec k l : Forall has_dst l → is_Some (l !! k) → remove_route k l = delete k l.
Proof.
  intros Hl [r Hr]. unfold remove_route.
  assert (Hp : ∃ p, with_pointers l !! k = Some p) by (unfold with_pointers; rewrite list_lookup_imap, Hr; by eexists).
  destruct Hp as [p Hp]. rewrite (DeleteFunc_key fst k (with_pointers l) p); [|done|by apply pointers_nodup].
  rewrite !delete_take_drop, fmap_app, fmap_take, fmap_drop.
  replace ((with_pointers l).*2) with l; [done|]. unfold with_pointers. rewrite fmap_imap. symmetry.
  apply list_eq. intros i. rewrite list_lookup_imap. by destruct (l !! i).
Qed.

(** ** Tables *)

(** The rules a route configuration of a node can have: none, or as pods come and go. *)
Inductive table_of (node : InternalNode) : list TRule → Prop :=
| table_new : table_of node []
| table_update rules pod rules' : table_of node rules → pod_rules node pod rules = Ret rules' → table_of node rules'
| table_delete rules pod : table_of node rules → table_of node (without_pod pod rules).

Definition node_rule (node : InternalNode) : TRule :=
  addNodeToRoute node (mkTRule (Some (cidr32 (in_NodeIP node))) None None None [] None).
Definition pod_rule (l : list TRoute) : TRule := mkTRule None (Some TunnelInterfaceName) None None l None.
Definition pod_route (node : InternalNode) (ip : string) (ref : ObjectReference) : TRoute :=
  mkTRoute (plain_route (Some (cidr32 ip)) (Some (in_NodeIP node)) None None) (Some ref).
Definition pod_routes (node : InternalNode) (l : list TRoute) : Prop :=
  Forall (fun r => ∃ ip ref, r = pod_route node ip ref) l ∧ NoDup (dsts l).
Definition shape (node : InternalNode) (rules : list TRule) : Prop :=
  rules = [] ∨ rules = [node_rule node] ∨ ∃ l, rules = [node_rule node; pod_rule l] ∧ pod_routes node l.

Lemma pod_routes_dst node l : pod_routes node l → Forall has_dst l.
Proof. intros [H _]. eapply Forall_impl; [exact H|]. cbn. intros r (ip & ref & ->). by eexists. Qed.
Lemma first_rule_shape node rules : shape node rules → first_rule node rules = Ret (node_rule node).
Proof.
  unfold first_rule, routeContainsNode. intros [->|[->|(l & -> & _)]]; cbn; [done|..]; by rewrite bool_decide_eq_true_2.
Qed.
Lemma fmap_dsts l k r : l !! k = Some r → dsts l !! k = Some (rt_Dst (tr_route r)).
Proof. intros H. unfold dsts. by rewrite list_lookup_fmap, H. Qed.

(** The routes of a node once the pod has one. *)
Definition with_pod (node : InternalNode) (pod : RPod) (l l' : list TRoute) : Prop :=
  pod_routes node l' ∧ pod_route node (rp_PodIP pod) (pod_ref pod) ∈ l' ∧
  List.filter (fun r => negb (goes_to (cidr32 (rp_PodIP pod)) r)) l' = List.filter (fun r => negb (goes_to (cidr32 (rp_PodIP pod)) r)) l.

Lemma filter_alter {A} (p : A → bool) (f : A → A) l k x : l !! k = Some x → p x = false → p (f x) = false →
  List.filter p (alter f k l) = List.filter p l.
Proof.
  intros Hk Hp Hf. rewrite <- (take_drop_middle l k x Hk). pose proof (lookup_lt_Some _ _ _ Hk) as Hlt.
  assert (Hlen : List.length (take k l) = k) by (by rewrite length_take_le by lia).
  rewrite alter_app_r_alt by lia. rewrite Hlen, Nat.sub_diag. cbn. rewrite !List.filter_app. f_equal. cbn. by rewrite Hp, Hf.
Qed.
Lemma goes_to_dst dst r : rt_Dst (tr_route r) = Some dst → negb (goes_to dst r) = false.
Proof. intros H. unfold goes_to. rewrite H. by rewrite bool_decide_eq_true_2. Qed.

Lemma second_rule_spec node pod l : pod_routes node l →
  ∃ l', second_rule node pod (pod_rule l) = Ret (pod_rule l') ∧ with_pod node pod l l'.
Proof.
  intros Hl. pose proof (pod_routes_dst _ _ Hl) as Hd. destruct Hl as [Hf Hnd]. unfold second_rule, routeByPodIP. cbn [tl_Routes pod_rule].
  destruct (find_dst_spec (cidr32 (rp_PodIP pod)) l 0 Hd) as [(k & r & -> & Hk & Hr)|[-> Hno]]; cbn [mbind outcome_bind Nat.add].
  - exists (alter (updatePodToRoute pod node) k l). split; [done|].
    assert (Hupd : updatePodToRoute pod node r = pod_route node (rp_PodIP pod) (pod_ref pod)).
    { rewrite Forall_lookup in Hf. destruct (Hf _ _ Hk) as (ip & ref & ->). done. }
    assert (Hin : alter (updatePodToRoute pod node) k l !! k = Some (pod_route node (rp_PodIP pod) (pod_ref pod)))
      by (by rewrite list_lookup_alter_eq, Hk; cbn; rewrite Hupd).
    split; [split|split].
    + apply Forall_lookup. intros i x. destruct (decide (i = k)) as [->|Hne]; [rewrite Hin; intros [= <-]; eauto|].
      rewrite list_lookup_alter_ne by done. rewrite Forall_lookup in Hf. apply Hf.
    + assert (dsts (alter (updatePodToRoute pod node) k l) = dsts l) as ->; [|done].
      apply list_eq. intros i. unfold dsts. rewrite !list_lookup_fmap. destruct (decide (i = k)) as [->|Hne].
      * rewrite Hin, Hk. cbn. by rewrite Hr.
      * by rewrite list_lookup_alter_ne.
    + by eapply list_elem_of_lookup_2.
    + apply (filter_alter _ _ _ _ r); [done|by apply goes_to_dst|]. rewrite Hupd. by apply goes_to_dst.
  - eexists. split; [reflexivity|]. split; [split|split]; cbn [tl_Routes set_tl_Routes pod_rule addPodToRoute].
    + apply Forall_app. split; [done|]. constructor; [|done]. by eexists _, _.
    + unfold dsts. rewrite fmap_app, NoDup_app. split; [done|]. split; [|apply NoDup_singleton].
      intros x Hx [->|?%elem_of_nil]%elem_of_cons; [|done]. done.
    + apply elem_of_app. right. left.
    + rewrite List.filter_app. cbn. rewrite goes_to_dst by done. by rewrite app_nil_r.
Qed.

(** The routes to pods. *)
Definition routes_of (rules : list TRule) : list TRoute := match rules with _ :: r :: _ => tl_Routes r | _ => [] end.

Lemma pod_rules_spec node pod rules : shape node rules →
  ∃ rules', pod_rules node pod rules = Ret rules' ∧ shape node rules' ∧
    (if rp_HostNetwork pod then routes_of rules' = routes_of rules ∧ rules' ≠ [] else with_pod node pod (routes_of rules) (routes_of rules')).
Proof.
  intros Hs. unfold pod_rules. rewrite (first_rule_shape _ _ Hs). cbn [mbind outcome_bind]. destruct (rp_HostNetwork pod).
  - eexists. split; [reflexivity|]. destruct Hs as [->|[->|(l & -> & Hl)]]; cbn.
    + split; [|done]. by right; left.
    + split; [|done]. by right; left.
    + split; [|done]. right. right. eauto.
  - set (rest := match List.tl rules with [] => _ | l => l end).
    assert (Hrest : ∃ l, rest = [pod_rule l] ∧ pod_routes node l ∧ l = routes_of rules).
    { destruct Hs as [->|[->|(l & -> & Hl)]]; cbn in rest; [exists []|exists []|exists l]; (split; [done|]; split; [|done]);
        [split; [done|constructor]..|done]. }
    destruct Hrest as (l & -> & Hl & El). destruct (second_rule_spec node pod l Hl) as (l' & -> & Hw).
    eexists. split; [reflexivity|]. rewrite <- El. cbn. split; [|done]. right. right. exists l'. split; [done|]. apply Hw.
Qed.

Lemma delete_filter {A} (p : A → bool) l k x : l !! k = Some x → p x = false → List.filter p (delete k l) = List.filter p l.
Proof.
  intros Hk Hp. rewrite delete_take_drop. rewrite <- (take_drop_middle l k x Hk) at 3. rewrite !List.filter_app. cbn. by rewrite Hp.
Qed.
Lemma filter_delete_length {A} (p : A → bool) l k x : l !! k = Some x → p x = true →
  List.length (List.filter p l) = S (List.length (List.filter p (delete k l))).
Proof.
  intros Hk Hp. rewrite delete_take_drop. rewrite <- (take_drop_middle l k x Hk) at 1. rewrite !List.filter_app, !length_app. cbn.
  rewrite Hp. cbn. lia.
Qed.
Lemma pod_routes_sublist node l l' : l' `sublist_of` l → pod_routes node l → pod_routes node l'.
Proof.
  intros Hs [Hf Hnd]. split; [rewrite Forall_forall in *; intros x Hx; apply Hf; by eapply elem_of_sublist|]. eapply sublist_NoDup; [exact Hnd|]. by apply fmap_sublist.
Qed.
(** One route that refers to the pod goes, and no other. *)
Lemma without_pod_spec node pod rules : shape node rules →
  shape node (without_pod pod rules) ∧
  List.filter (fun r => negb (owned_by pod r)) (routes_of (without_pod pod rules)) = List.filter (fun r => negb (owned_by pod r)) (routes_of rules) ∧
  List.length (List.filter (owned_by pod) (routes_of (without_pod pod rules))) = (List.length (List.filter (owned_by pod) (routes_of rules)) - 1)%nat.
Proof.
  intros Hs. destruct Hs as [->|[->|(l & -> & Hl)]]; cbn [without_pod routes_of].
  { split; [by left|done]. }
  { split; [by right; left|done]. }
  unfold routeOwnedByPod. cbn [tl_Routes pod_rule]. destruct (find_owned_spec pod l 0) as [(k & r & -> & Hk & Ho & _)|[-> Hno]].
  - cbn [Nat.add routes_of tl_Routes set_tl_Routes pod_rule]. rewrite remove_route_spec; [|by eapply pod_routes_dst|by eexists]. split; [|split].
    + right. right. exists (delete k l). split; [done|]. eapply pod_routes_sublist; [apply sublist_delete|done].
    + apply (delete_filter _ _ _ r); [done|]. by rewrite Ho.
    + rewrite (filter_delete_length _ _ _ r Hk Ho). lia.
  - split; [right; right; eauto|]. split; [done|].
    assert (List.filter (owned_by pod) l = []) as E; [|cbn; by rewrite E].
    clear -Hno. induction Hno as [|x l Hx _ IH]; [done|]. cbn. by rewrite Hx.
Qed.

Lemma table_shape node rules : table_of node rules → shape node rules.
Proof.
  induction 1 as [|rules pod rules' _ IH H|rules pod _ IH].
  - by left.
  - destruct (pod_rules_spec node pod rules IH) as (r1 & H1 & ? & _). rewrite H in H1. by injection H1 as ->.
  - by apply (without_pod_spec node pod).
Qed.

(** What the webhook of route configurations asks of the rules. *)
Definition admissible (rules : list TRule) : Prop :=
  checkUniqueRules (api_rule <$> rules) = true ∧ check_all_routes (api_rule <$> rules) = Ret true.
Lemma unique_routes_ok l seen : Forall has_dst l → NoDup (dsts l) → (∀ d, d ∈ seen → Some d ∉ dsts l) →
  unique_routes seen (tr_route <$> l) = Ret true.
Proof.
  revert seen. induction l as [|r l IH]; intros seen Hl Hnd Hs; [done|]. apply Forall_cons in Hl as [[d Hd] Hl].
  unfold dsts in Hnd. cbn in Hnd. apply NoDup_cons in Hnd as [Hn Hnd]. cbn [fmap list_fmap unique_routes]. rewrite Hd.
  rewrite bool_decide_eq_false_2.
  - apply IH; [done|done|]. intros d' [->%elem_of_singleton|Hd']%elem_of_union; [by rewrite Hd in Hn|].
    intros Hin. apply (Hs d' Hd'). by right.
  - intros Hin. apply (Hs d Hin). unfold dsts. cbn. rewrite Hd. left.
Qed.
Lemma shape_admissible node rules : shape node rules → admissible rules.
Proof.
  assert (Hone : ∀ r, checkUniqueRules [api_rule r] = true) by (intros r; apply bool_decide_eq_true; apply NoDup_singleton).
  intros [->|[->|(l & -> & Hl)]]; split; [done|done|apply Hone|done|..].
  - apply bool_decide_eq_true. cbn. apply NoDup_cons. split; [|apply NoDup_singleton]. by intros [=]%list_elem_of_singleton.
  - cbn [fmap list_fmap check_all_routes]. unfold checkUniqueRoutes. cbn [api_rule ru_Routes pod_rule tl_Routes].
    rewrite (unique_routes_ok l); [done|by eapply pod_routes_dst|apply Hl|by intros d ?%elem_of_empty].
Qed.

(** ** The controller against a server that answers *)

Definition no_pods : pstate := mkPstate ∅ false [].
Section world.
Context {Api : KubeApi inet} {R : Responsive inet} `{OR : OwnerRefs} {CU : CreateOrUpdater inet}.
Context (lists : string → string → labels → server → list (string * Obj inet)) (order : list string)
  (kinds : string → option (string * string)) (globalLabels globalAnnotations : labels) (Namespace : string).
Context (pods : string → string → option RPod) (nodes : string → option InternalNode).
Context (Hkind : is_Some (kinds routeconfigurations)).
Context (Howner : ∀ uid l, is_ok (SetOwnerReference uid l) = true).

Notation world := (pworld inet pstate).
Notation "w ⋅ k" := (content (pw_server w) !! k) (at level 20, k at next level).
Abbreviation proc := (InternalNet.proc no_pods).
Abbreviation cl := (plain_client lists).
Abbreviation reconcile := (Reconcile cl order kinds globalLabels globalAnnotations Namespace proc set_proc
  (fun ns n => answer (pods ns n)) (fun n => answer (nodes n))).
Abbreviation cou := (CreateOrUpdate order kinds globalLabels globalAnnotations cl).
Abbreviation key n := (rc_key Namespace n).

(** The object the server holds after a mutation of the rules. *)
Lemma cou_rules k f (w : world) ow nm rules lb : k.1.1 = routeconfigurations → (∀ o, w ⋅ k = Some o → lives o) →
  f (default blank (w ⋅ k)) = Ret (Ok (set_obj (default blank (w ⋅ k)) lb (PRoutes ow nm rules))) →
  ∃ w' o, cou k f w = Ret (w', Ok o) ∧ only k w w' ∧ w' ⋅ k = Some o ∧ lives o ∧ rc_rules o = rules ∧ rc_name o = nm.
Proof.
  intros Hk Hl Hf. rewrite <- Hk in Hkind.
  destruct (cou_stores lists order kinds globalLabels globalAnnotations k f w lb (PRoutes ow nm rules) Hkind Hl Hf) as (w' & o & E & Ho & Hw' & Hlo & Hsp).
  exists w', o. split; [done|]. split; [done|]. split; [done|]. split; [done|]. unfold rc_rules, rc_name, rc_of. by rewrite Hsp.
Qed.

Lemma leftovers_done w : checked_leftovers (proc w) = true →
  leftovers_once cl Namespace proc set_proc (fun ns n => answer (pods ns n)) w = Ret (w, Ok ()).
Proof. intros H. unfold leftovers_once, asks, mbind, K_bind. by rewrite H. Qed.

(** The pod runs on a node that is known. *)
Definition runs_on (pod : RPod) (node : InternalNode) : Prop :=
  rp_NodeName pod ≠ ""%string ∧ rp_PodIP pod ≠ ""%string ∧ rp_Phase pod ≠ PodSucceeded ∧ rp_Phase pod ≠ PodFailed ∧
  nodes (rp_NodeName pod) = Some node.
Definition stored (node : InternalNode) (w : world) (n : string) : Prop :=
  ∀ o, w ⋅ key n = Some o → lives o ∧ table_of node (rc_rules o).
Definition routes_at (w : world) (n : string) : list TRoute :=
  match w ⋅ key n with Some o => routes_of (rc_rules o) | None => [] end.


(** After the reconciliation of a pod that is gone, or has terminated, one route
    in its name has been removed from its node, the routes of all other pods are as
    they were, also those to the address the pod had, and its node is forgotten. *)
Theorem pod_released ns name pod node n w : checked_leftovers (proc w) = true →
  pods ns name = None ∧ pod = named_pod ns name ∧ podKeyToNode (proc w) !! pod_key pod = Some n ∨
  pods ns name = Some pod ∧ rp_NodeName pod = n ∧ rp_PodIP pod ≠ ""%string ∧ (rp_Phase pod = PodSucceeded ∨ rp_Phase pod = PodFailed) →
  n ≠ ""%string → stored node w n →
  ∃ w', reconcile ns name w = Ret (w', Ok Done) ∧ stored node w' n ∧
    List.filter (fun r => negb (owned_by pod r)) (routes_at w' n) = List.filter (fun r => negb (owned_by pod r)) (routes_at w n) ∧
    List.length (List.filter (owned_by pod) (routes_at w' n)) = (List.length (List.filter (owned_by pod) (routes_at w n)) - 1)%nat ∧
    (∀ k, k ≠ key n → w' ⋅ k = w ⋅ k) ∧ podKeyToNode (proc w') !! pod_key pod = None.
Proof.
  intros Hc Hpod Hn Hst. unfold Reconcile. rewrite (K_bind_ok _ _ _ _ _ (leftovers_done w Hc)).
  enough (∃ w', enforceRoutePodAbsence cl order kinds globalLabels globalAnnotations Namespace proc set_proc pod w = Ret (w', Ok ()) ∧ stored node w' n ∧
    List.filter (fun r => negb (owned_by pod r)) (routes_at w' n) = List.filter (fun r => negb (owned_by pod r)) (routes_at w n) ∧
    List.length (List.filter (owned_by pod) (routes_at w' n)) = (List.length (List.filter (owned_by pod) (routes_at w n)) - 1)%nat ∧
    (∀ k, k ≠ key n → w' ⋅ k = w ⋅ k) ∧ podKeyToNode (proc w') !! pod_key pod = None) as (w' & E & Hrest).
  { exists w'. split; [|done]. destruct Hpod as [(Hp & -> & _)|(Hp & Hnode & Hip & Hph)];
      (erewrite K_bind_ok; [|by apply attempt_ok; unfold answer; rewrite Hp]); cbn beta iota.
    - by rewrite (K_bind_ok _ _ _ _ _ E).
    - rewrite !(bool_decide_eq_false_2 (_ = ""%string)) by congruence. cbn [orb].
      assert (bool_decide (rp_Phase pod = PodSucceeded) || bool_decide (rp_Phase pod = PodFailed) = true) as ->
        by (apply orb_true_iff; by destruct Hph as [Hph|Hph]; [left|right]; apply bool_decide_eq_true).
      by rewrite (K_bind_ok _ _ _ _ _ E). }
  unfold enforceRoutePodAbsence.
  assert (Hname : (if bool_decide (rp_NodeName pod = ""%string) then GetPodNodeFromMap proc (pod_key pod) else mret (rp_NodeName pod)) w = Ret (w, Ok n)).
  { destruct Hpod as [(_ & -> & Hm)|(_ & <- & _)].
    - cbn [named_pod rp_NodeName]. rewrite bool_decide_eq_true_2 by done. unfold GetPodNodeFromMap, asks, mbind, K_bind. by rewrite Hm.
    - by rewrite bool_decide_eq_false_2. }
  rewrite (K_bind_ok _ _ _ _ _ Hname), bool_decide_eq_false_2 by done. erewrite K_bind_ok; [|by apply attempt_ok].
  destruct (w ⋅ key n) as [o|] eqn:Ho.
  - destruct (without_pod_spec node pod (rc_rules o)) as (Hsh & Hfil & Hlen); [apply table_shape; by apply Hst|].
    destruct (cou_rules (key n) (forgeRoutePodDeleteFunction pod) w (rc_owners o) (rc_name o) (without_pod pod (rc_rules o)) (o_labels o))
      as (w' & o' & E & Ho' & Hw' & Hlo & Hru & Hna).
    + done.
    + intros o1 Ho1. by apply Hst.
    + by rewrite Ho.
    + rewrite (K_bind_ok _ _ _ _ _ E). eexists. split; [reflexivity|].
      assert (Hat : ∀ s, routes_at (set_proc s w') n = routes_of (without_pod pod (rc_rules o))) by (intros s; unfold routes_at; cbn; by rewrite Hw', Hru).
      assert (Hat0 : routes_at w n = routes_of (rc_rules o)) by (unfold routes_at; by rewrite Ho).
      rewrite Hat, Hat0, proc_set. split; [|split; [done|split; [done|split]]].
      * intros o1 Ho1. cbn in Ho1. assert (o1 = o') as -> by congruence. split; [done|]. rewrite Hru. apply table_delete. by apply Hst.
      * intros k Hk. cbn. destruct Ho' as [_ Ho']. by apply Ho'.
      * cbn. apply lookup_delete_eq.
  - eexists. split; [reflexivity|].
    assert (Hat0 : ∀ s, routes_at (set_proc s w) n = []) by (intros s; unfold routes_at; cbn; by rewrite Ho).
    assert (Hat1 : routes_at w n = []) by (unfold routes_at; by rewrite Ho).
    rewrite Hat0, Hat1, proc_set. split; [|split; [done|split; [done|split; [done|]]]]; [|cbn; apply lookup_delete_eq].
    intros o1 Ho1. cbn in Ho1. congruence.
Qed.
End world.

(** A pod that comes back under its name with another address before its deletion
    was handled has two routes; when it goes, the one to its current address stays. *)
Definition two_lives : InternalNode * RPod * RPod :=
  (mkInternalNode "n1" "uid-n1" "liqo.aaaaaaaaaa" "10.80.0.1" [] false,
   mkRPod "Pod" "db-0" "default" "uid-1" "n1" "10.244.0.5" PodRunning false,
   mkRPod "Pod" "db-0" "default" "uid-2" "n1" "10.244.0.9" PodRunning false).
Theorem previous_address_stays : let '(node, before, after) := two_lives in
  ∃ r1 r2, pod_rules node before [] = Ret r1 ∧ pod_rules node after r1 = Ret r2 ∧
    dsts (routes_of r2) = [Some "10.244.0.5/32"%string; Some "10.244.0.9/32"%string] ∧
    dsts (routes_of (without_pod after r2)) = [Some "10.244.0.9/32"%string].
Proof. eexists _, _. split; [reflexivity|]. split; [reflexivity|]. by vm_compute. Qed.

(** ** Witnesses *)

#[local] Instance ex_cou : CreateOrUpdater inet := documented inet.
Definition ex_kinds (r : string) : option (string * string) := Some (r, "networking.liqo.io"%string).
Definition ex_node : InternalNode := two_lives.1.1.
Definition ex_pod : RPod := two_lives.1.2.
Definition ex_checked : pworld inet pstate := mkPworld (∅ : gmap okey (Obj inet)) [mkPstate ∅ true []].
Definition ex_reconcile (pod : option RPod) : pworld inet pstate → outcome (pworld inet pstate * result kerr requeue) :=
  Reconcile (plain_client (fun _ _ _ _ => [])) [] ex_kinds ∅ ∅ "liqo" (proc no_pods) set_proc (fun _ _ => answer pod) (fun _ => answer (Some ex_node)) "default" "db-0".

Definition world_of (o : outcome (pworld inet pstate * result kerr requeue)) : pworld inet pstate := match o with Ret (w, _) => w | _ => ex_checked end.

Definition ex_served : pworld inet pstate := world_of (ex_reconcile (Some ex_pod) ex_checked).
Lemma pod_released_witness : ∃ w', ex_reconcile None ex_served = Ret (w', Ok Done) ∧ routes_at "liqo" w' "n1" = [].
Proof.
  destruct (pod_released (fun _ _ _ _ => []) [] ex_kinds ∅ ∅ "liqo" (fun _ _ => None) (fun _ => Some ex_node) ltac:(by eexists)
    "default" "db-0" (named_pod "default" "db-0") ex_node "n1" ex_served) as (w' & E & _).
  - reflexivity.
  - left. split; [reflexivity|]. split; [reflexivity|]. vm_compute. reflexivity.
  - done.
  - intros o Ho.
    assert (Hd : from_option o_deleting false (content (pw_server ex_served) !! rc_key "liqo" "n1") = false) by (vm_compute; reflexivity).
    assert (Hr : Ret (from_option rc_rules [] (content (pw_server ex_served) !! rc_key "liqo" "n1")) = pod_rules ex_node ex_pod []) by (vm_compute; reflexivity).
    rewrite Ho in Hd, Hr. cbn [from_option] in Hd, Hr. split; [intros H; congruence|]. by apply (table_update _ [] ex_pod); [apply table_new|].
  - exists w'. split; [exact E|]. pose proof (f_equal world_of E) as Hw. cbn [world_of] in Hw. rewrite <- Hw. vm_compute. reflexivity.
Defined.
