(* ===== verification/NodeRoutes.v ===== *)
(** * NodeRoutes: return paths through the nodes
      (src/pkg/liqo-controller-manager/networking/internal-network/route/
       {mark,finalizer,internalnode_controller,internalnode_k8s}.go)

    Traffic whose source was masqueraded must go back through the node it came from.
    Each node has a mark: a connection that enters a gateway from the node gets the
    mark, replies get it back from the connection, and a routing rule for the mark
    leads to the node. *)

From S2P Require Export InternalNet.
From S2P Require Import NetworkLabels.
Local Open Scope Z_scope.

(** ** mark.go *)

Record Marks := mkMarks { nextmark : Z; marks : gset Z; marksreverse : gmap string Z }.
Definition no_marks : Marks := mkMarks 1 ∅ ∅.
Definition MaxInt : Z := 2 ^ 63 - 1.
Definition register (m : Marks) (name : string) (mark : Z) : Marks :=
  mkMarks (nextmark m) ({[mark]} ∪ marks m) (<[name := mark]> (marksreverse m)).

(** [*rule.FwMark] and [rule.TargetRef.Name]. *)
Fixpoint register_rules (m : Marks) (l : list TRule) : outcome Marks :=
  match l with
  | [] => Ret m
  | r :: l =>
    match tl_FwMark r, tl_TargetRef r with
    | None, _ => register_rules m l
    | Some _, None => Panic
    | Some mark, Some t => register_rules (register m (ref_Name t) mark) l
    end
  end.
Fixpoint RegisterMarksFromRouteconfigurations (m : Marks) (l : list (list TRule)) : outcome Marks :=
  match l with
  | [] => Ret m
  | rules :: l => m ← register_rules m rules; RegisterMarksFromRouteconfigurations m l
  end.
(** A value that is not a number is an error; a missing one panics. *)
Fixpoint register_filters (m : Marks) (l : list FilterRule) : outcome (option Marks) :=
  match l with
  | [] => Ret (Some m)
  | r :: l =>
    if bool_decide (fr_action r = ActionCtMark) then
      match fr_value r with
      | None => Panic
      | Some v =>
        match Atoi v with
        | None => Ret None
        | Some mark => match fr_name r with None => Panic | Some n => register_filters (register m n mark) l end
        end
      end
    else register_filters m l
  end.
Definition all_filters (t : Firewall.Table) : list FilterRule := tb_chains t ≫= fun c => default [] (FilterRules (ch_rules c)).
Definition RegisterMarksFromFirewallconfigurations (m : Marks) (l : list Firewall.Table) : outcome (option Marks) :=
  register_filters m (l ≫= all_filters).

(** The loop of [AssignMark]: an iteration that goes on has met a mark in use. *)
Fixpoint next_free (fuel : nat) (used : gset Z) (n : Z) : outcome Z :=
  match fuel with
  | O => Diverge
  | S fuel => if bool_decide (n ∈ used) then next_free fuel used (if n =? MaxInt then 1 else n + 1) else Ret n
  end.
Definition AssignMark (m : Marks) (nodename : string) : outcome (Marks * Z) :=
  match marksreverse m !! nodename with
  | Some mark => Ret (m, mark)
  | None =>
    n ← next_free (S (size (marks m))) (marks m) (nextmark m);
    Ret (mkMarks n ({[n]} ∪ marks m) (<[nodename := n]> (marksreverse m)), n)
  end.
(** A name without mark reads as zero. *)
Definition FreeMark (m : Marks) (nodename : string) : Marks :=
  mkMarks (nextmark m) (marks m ∖ {[default 0 (marksreverse m !! nodename)]}) (delete nodename (marksreverse m)).

(** ** internalnode_k8s.go *)

Definition configurationNameSvc : string := "service-nodeport-routing".
Definition configurationNameExtCIDR : string := "extcidr".
Definition ChainPriorityFilter : Z := 0.
Definition generateInternalNodeSvcRouteConfigurationName (nodename : string) : string := (nodename ++ "-" ++ configurationNameSvc)%string.
Definition generateInternalNodeExtCIDRRouteConfigurationName (nodename : string) : string := (nodename ++ "-" ++ configurationNameExtCIDR)%string.

Definition forgeFirewallConfigurationForwardChainRule (node : InternalNode) (mark : Z) (nodePortSrcIP : string) : FilterRule :=
  mkFilterRule (Some (in_Name node)) false
    [match_ip MatchOperationEq nodePortSrcIP MatchPositionSrc; match_dev MatchOperationEq (in_GatewayName node) MatchDevPositionIn]
    ActionCtMark (Some (itoa_signed mark)).
Definition forgeFirewallConfigurationPreroutingChainRule (nodePortSrcIP : string) : FilterRule :=
  mkFilterRule (Some "conntrack-mark-to-meta-mark"%string) false
    [match_ip MatchOperationEq nodePortSrcIP MatchPositionDst; match_dev MatchOperationEq TunnelInterfaceName MatchDevPositionIn]
    ActionSetMetaMarkFromCtMark None.
(** [*r.Name] is dereferenced. *)
Fixpoint existsFirewallConfigurationChainRule (l : list FilterRule) (name : string) : outcome bool :=
  match l with
  | [] => Ret false
  | r :: l =>
    match fr_name r with
    | None => Panic
    | Some n => if bool_decide (n = name) then Ret true else existsFirewallConfigurationChainRule l name
    end
  end.
Definition set_filter_rules (rs : RulesSet) (l : option (list FilterRule)) : RulesSet := mkRulesSet (NatRules rs) l (RouteRules rs).
Definition enforceFirewallConfigurationForwardChainRules (rs : RulesSet) (node : InternalNode) (mark : Z) (nodePortSrcIP : string) : outcome RulesSet :=
  let rule := forgeFirewallConfigurationForwardChainRule node mark nodePortSrcIP in
  present ← existsFirewallConfigurationChainRule (default [] (FilterRules rs)) (in_Name node);
  Ret (if (present : bool) then rs else set_filter_rules rs (Some (default [] (FilterRules rs) ++ [rule]))).
Definition filter_chain (name : string) (hook : ChainHook) (rs : RulesSet) : Chain :=
  mkChain (Some name) rs ChainTypeFilter (Some ChainPolicyAccept) (Some hook) (Some ChainPriorityFilter).
Definition enforceFirewallConfigurationForwardChain (l : list Chain) (node : InternalNode) (mark : Z) (nodePortSrcIP : string) : outcome (list Chain) :=
  let '(c, rest) := match l with [] => (zero_chain, []) | c :: rest => (c, rest) end in
  rs ← enforceFirewallConfigurationForwardChainRules (ch_rules c) node mark nodePortSrcIP;
  Ret (filter_chain "mark-to-conntrack" ChainHookForward rs :: rest).
(** The second chain is added to a single one. *)
Definition enforceFirewallConfigurationPreroutingChain (l : list Chain) (nodePortSrcIP : string) : outcome (list Chain) :=
  let l := match l with [c] => [c; zero_chain] | _ => l end in
  match l with
  | c0 :: c1 :: rest =>
    Ret (c0 :: filter_chain "conntrack-mark-to-meta-mark" ChainHookPrerouting
                 (set_filter_rules (ch_rules c1) (Some [forgeFirewallConfigurationPreroutingChainRule nodePortSrcIP])) :: rest)
  | _ => Panic
  end.
Definition svc_chains (l : list Chain) (node : InternalNode) (mark : Z) (nodePortSrcIP : string) : outcome (list Chain) :=
  l ← enforceFirewallConfigurationForwardChain l node mark nodePortSrcIP;
  enforceFirewallConfigurationPreroutingChain l nodePortSrcIP.

Definition forgeRouteConfigurationRules (node : InternalNode) (mark : Z) (nodePortSrcIP : string) : list TRule :=
  [mkTRule (Some (cidr32 nodePortSrcIP)) None (Some mark) None
     [mkTRoute (plain_route (Some (cidr32 nodePortSrcIP)) (Some (in_NodeIP node)) (Some (in_GatewayName node)) None) None]
     (Some (mkRef "InternalNode" (in_Name node) "" ""))].

(** [slices.DeleteFunc] by [*r.Name]. *)
Fixpoint clean_filters (name : string) (l : list FilterRule) : outcome (list FilterRule) :=
  match l with
  | [] => Ret []
  | r :: l =>
    match fr_name r with
    | None => Panic
    | Some n => l ← clean_filters name l; Ret (if bool_decide (n = name) then l else r :: l)
    end
  end.
Definition cleanFirewallConfigurationChain (c : Chain) (node : InternalNode) : outcome Chain :=
  match FilterRules (ch_rules c) with
  | None => Ret c
  | Some l => l ← clean_filters (in_Name node) l; Ret (set_rules c (set_filter_rules (ch_rules c) (Some l)))
  end.
Fixpoint cleanFirewallConfigurationChains (l : list Chain) (node : InternalNode) : outcome (list Chain) :=
  match l with
  | [] => Ret []
  | c :: l => c ← cleanFirewallConfigurationChain c node; l ← cleanFirewallConfigurationChains l node; Ret (c :: l)
  end.

(** Towards the addresses of remote clusters that the nodes reach. *)
Definition forgeRouteConfigurationExtCIDRRoutes (node : InternalNode) (dst : string) : list TRoute :=
  [mkTRoute (plain_route (Some dst) (Some (in_NodeIP node)) (Some (in_GatewayName node)) None) None].
Definition forgeRouteConfigurationExtCIDRRoutesIP (node : InternalNode) (ips : list IPObj) : list TRoute :=
  (fun ip => mkTRoute (plain_route (Some (cidr32 (ip_Spec ip))) (Some (in_NodeIP node)) (Some (in_GatewayName node)) None) None) <$> ips.
Fixpoint extcidr_rules (node : InternalNode) (configurations : list Configuration) : outcome (list TRule) :=
  match configurations with
  | [] => Ret []
  | cfg :: l =>
    match statusRemote cfg with
    | None => Panic
    | Some st =>
      rest ← extcidr_rules node l;
      Ret (((fun dst => mkTRule (Some dst) (Some TunnelInterfaceName) None None (forgeRouteConfigurationExtCIDRRoutes node dst) None) <$> Pod st) ++ rest)
    end
  end.
Definition forgeRouteConfigurationExtCIDRRules (node : InternalNode) (configurations : list Configuration) (ips : list IPObj) : outcome (list TRule) :=
  rules ← extcidr_rules node configurations;
  Ret (rules ++ [mkTRule None (Some TunnelInterfaceName) None None (forgeRouteConfigurationExtCIDRRoutesIP node ips) None]).
Definition filterObservedConfigurations : list Configuration → list Configuration := List.filter AreConfigurationNetworkCIDRsConfigured.

Definition internalNodesControllerFinalizer : string := "internalnodes-route.liqo.io/finalizer".
Definition set_in_finalizers (node : InternalNode) (l : list string) : InternalNode :=
  mkInternalNode (in_Name node) (in_UID node) (in_GatewayName node) (in_NodeIP node) l (in_Deleting node).

Section controller.
Context `{OR : OwnerRefs} `{CU : CreateOrUpdater inet}.
Context {W : Type} (cl : Client W inet) (order : list string) (kinds : string → option (string * string))
  (globalLabels globalAnnotations : labels) (Namespace : string).
(** The marks, once they have been initialised. *)
Context (proc : W → option Marks) (set_proc : option Marks → W → W) (update_node : InternalNode → K W InternalNode).

Notation create_or_update := (CreateOrUpdate order kinds globalLabels globalAnnotations cl).

(** [once.Do] with [utilruntime.Must]. *)
Definition InitMark : K W Marks :=
  s ← asks proc;
  match s with
  | Some m => mret m
  | None =>
    rcs ← attempt (c_List cl routeconfigurations Namespace ForgeRouteInternalTargetLabels);
    fws ← attempt (c_List cl firewallconfigurations Namespace ForgeFirewallInternalTargetLabels);
    match rcs, fws with
    | Ok rcs, Ok fws =>
      m ← lift_outcome (m ← RegisterMarksFromRouteconfigurations no_marks ((fun x => rc_rules x.2) <$> rcs); Ret (Ok m));
      r ← lift_outcome (r ← RegisterMarksFromFirewallconfigurations m ((fun x => (ifw_of x.2).2) <$> fws); Ret (Ok r));
      match r with
      | Some m => _ ← puts set_proc (Some m); mret m
      | None => Kube.panic
      end
    | _, _ => Kube.panic
    end
  end.

Definition svc_fw_key : okey := (firewallconfigurations, Namespace, configurationNameSvc).
Definition svc_rc_key (node : InternalNode) : okey := (routeconfigurations, Namespace, generateInternalNodeSvcRouteConfigurationName (in_Name node)).
Definition ext_rc_key (node : InternalNode) : okey := (routeconfigurations, Namespace, generateInternalNodeExtCIDRRouteConfigurationName (in_Name node)).

Definition forgeFirewallConfigurationMutateFunction (node : InternalNode) (mark : Z) (nodePortSrcIP : string) : mutate_fn inet := fun o =>
  chains ← svc_chains (tb_chains (ifw_of o).2) node mark nodePortSrcIP;
  Ret (Ok (set_obj o ForgeFirewallInternalTargetLabels
             (PFw (ifw_of o).1 (Firewall.mkTable (Some configurationNameSvc) chains (Some TableFamilyIPv4))))).
Definition forgeRouteConfigurationMutateFunction (node : InternalNode) (mark : Z) (nodePortSrcIP : string) : mutate_fn inet := fun o =>
  match SetOwnerReference (in_UID node) (rc_owners o) with
  | Err e => Ret (Err e)
  | Ok owners => Ret (Ok (set_obj o ForgeRouteInternalTargetLabels
      (PRoutes owners (generateInternalNodeSvcRouteConfigurationName (in_Name node)) (forgeRouteConfigurationRules node mark nodePortSrcIP))))
  end.
Definition forgeRouteConfigurationExtCIDRMutateFunction (node : InternalNode) (configurations : list Configuration) (ips : list IPObj) : mutate_fn inet := fun o =>
  match SetOwnerReference (in_UID node) (rc_owners o) with
  | Err e => Ret (Err e)
  | Ok owners =>
    rules ← forgeRouteConfigurationExtCIDRRules node configurations ips;
    Ret (Ok (set_obj o (ForgeRouteInternalTargetLabelsByNode (in_Name node))
      (PRoutes owners (generateInternalNodeExtCIDRRouteConfigurationName (in_Name node)) rules)))
  end.

Definition enforceRouteWithConntrackPresence (node : InternalNode) (mark : Z) (nodePortSrcIP : string) : K W () :=
  _ ← create_or_update svc_fw_key (forgeFirewallConfigurationMutateFunction node mark nodePortSrcIP);
  _ ← create_or_update (svc_rc_key node) (forgeRouteConfigurationMutateFunction node mark nodePortSrcIP);
  mret ().
Definition deleteVoidFwcfg (o : Obj inet) : K W () :=
  match tb_chains (ifw_of o).2 with
  | c :: _ => if (List.length (default [] (FilterRules (ch_rules c))) =? 0)%nat then c_Delete cl svc_fw_key else mret ()
  | [] => mret ()
  end.
Definition enforceRouteWithConntrackAbsence (node : InternalNode) : K W () :=
  got ← attempt (c_Get cl svc_fw_key);
  match got with
  | Err NotFound => mret ()
  | Err e => fail e
  | Ok o =>
    chains ← lift_outcome (l ← cleanFirewallConfigurationChains (tb_chains (ifw_of o).2) node; Ret (Ok l));
    let t := (ifw_of o).2 in
    o ← c_Update cl svc_fw_key (set_obj o (o_labels o) (PFw (ifw_of o).1 (Firewall.mkTable (tb_name t) chains (tb_family t))));
    deleteVoidFwcfg o
  end.
Definition enforceRouteConfigurationExtCIDR (node : InternalNode) (configurations : list Configuration) (ips : list IPObj) : K W () :=
  _ ← create_or_update (ext_rc_key node) (forgeRouteConfigurationExtCIDRMutateFunction node configurations ips);
  mret ().

Definition enforceInternalNodeFinalizerPresence (node : InternalNode) : K W InternalNode :=
  update_node (set_in_finalizers node (in_Finalizers node ++ [internalNodesControllerFinalizer])).
Definition enforceInternalNodeFinalizerAbsence (node : InternalNode) : K W () :=
  _ ← update_node (set_in_finalizers node (List.filter (fun f => negb (bool_decide (f = internalNodesControllerFinalizer))) (in_Finalizers node)));
  mret ().

Definition lift_result {E A} (r : result E A) : K W A := match r with Ok a => mret a | Err _ => fail OtherErr end.

(** [Reconcile] on what [Get] answered; the networks of the cluster, and the listings
    of configurations and IPs. *)
Definition NodeReconcile (got : result kerr InternalNode) (cluster : option (list NetworkRes))
    (cfgs : result kerr (list Configuration)) (ips : result kerr (list IPObj)) : K W () :=
  match got with
  | Err NotFound => mret ()
  | Err e => fail e
  | Ok node =>
    m ← InitMark;
    let containsFinalizer := bool_decide (internalNodesControllerFinalizer ∈ in_Finalizers node) in
    if in_Deleting node then
      if containsFinalizer then
        _ ← enforceRouteWithConntrackAbsence node;
        _ ← puts set_proc (Some (FreeMark m (in_Name node)));
        enforceInternalNodeFinalizerAbsence node
      else mret ()
    else
      node ← (if containsFinalizer then mret node else enforceInternalNodeFinalizerPresence node);
      extCIDR ← lift_result (GetExternalCIDR cluster "");
      src ← lift_outcome (r ← GetUnknownSourceIP extCIDR; Ret match r with Some s => Ok s | None => Err OtherErr end);
      cfgs ← lift_result cfgs;
      ips ← lift_result ips;
      '(m, mark) ← lift_outcome (x ← AssignMark m (in_Name node); Ret (Ok x));
      _ ← puts set_proc (Some m);
      _ ← enforceRouteWithConntrackPresence node mark src;
      enforceRouteConfigurationExtCIDR node (filterObservedConfigurations cfgs) ips
  end.
End controller.
