(* ===== verification/NodeRoutesProps.v ===== *)
(** * NodeRoutesProps: marks and return paths *)

From S2P Require Import InternalNet NetworkLabels.
From S2P Require Export NodeRoutes.
Local Open Scope Z_scope.

(** ** Marks *)

Record marks_ok (m : Marks) : Prop := {
  mk_next : 1 ≤ nextmark m ≤ MaxInt;
  mk_used n k : marksreverse m !! n = Some k → k ∈ marks m ∧ 1 ≤ k;
  mk_inj n1 n2 k : marksreverse m !! n1 = Some k → marksreverse m !! n2 = Some k → n1 = n2
}.

(** The mark after [k] steps from [n], around the end. *)
Definition mark_at (n : Z) (k : nat) : Z := (n - 1 + Z.of_nat k) mod MaxInt + 1.
Lemma mark_at_0 n : 1 ≤ n ≤ MaxInt → mark_at n 0 = n.
Proof. intros H. unfold mark_at. rewrite Z.add_0_r, Z.mod_small by lia. lia. Qed.
Lemma mark_at_S n k : mark_at n (S k) = if mark_at n k =? MaxInt then 1 else mark_at n k + 1.
Proof.
  unfold mark_at. replace (n - 1 + Z.of_nat (S k)) with (n - 1 + Z.of_nat k + 1) by lia. set (x := n - 1 + Z.of_nat k).
  assert (HM : 1 < MaxInt) by done. pose proof (Z.div_mod x MaxInt ltac:(lia)). pose proof (Z.mod_pos_bound x MaxInt ltac:(lia)).
  destruct (Z.eqb_spec (x mod MaxInt + 1) MaxInt) as [E|E].
  - assert ((x + 1) mod MaxInt = 0) as ->; [|done]. symmetry. apply (Z.mod_unique (x + 1) MaxInt (x / MaxInt + 1)); lia.
  - f_equal. symmetry. apply (Z.mod_unique (x + 1) MaxInt (x / MaxInt)); lia.
Qed.
Lemma mark_at_range n k : 1 ≤ mark_at n k ≤ MaxInt.
Proof. unfold mark_at. pose proof (Z.mod_pos_bound (n - 1 + Z.of_nat k) MaxInt ltac:(done)). lia. Qed.
Lemma mark_at_inj n i j : Z.of_nat i < MaxInt → Z.of_nat j < MaxInt → mark_at n i = mark_at n j → i = j.
Proof.
  unfold mark_at. intros Hi Hj H. assert (HM : 0 < MaxInt) by done.
  set (x := n - 1 + Z.of_nat i) in *. set (y := n - 1 + Z.of_nat j) in *.
  pose proof (Z.div_mod x MaxInt ltac:(lia)). pose proof (Z.div_mod y MaxInt ltac:(lia)).
  assert (x mod MaxInt = y mod MaxInt) by lia. assert (E : x - y = MaxInt * (x / MaxInt - y / MaxInt)) by lia.
  assert (x / MaxInt - y / MaxInt = 0) by nia. lia.
Qed.

Lemma next_free_spec (used : gset Z) n fuel k : (∀ i, (i < k)%nat → mark_at n i ∈ used) →
  (size used < fuel + k)%nat → Z.of_nat (size used) < MaxInt →
  ∃ r, next_free fuel used (mark_at n k) = Ret r ∧ r ∉ used ∧ 1 ≤ r ≤ MaxInt.
Proof.
  revert k. induction fuel as [|fuel IH]; intros k Hseen Hf Hsz.
  { exfalso. assert (size used + 1 ≤ k)%nat as Hk by lia.
    assert (Hnd : NoDup (mark_at n <$> seq 0 (size used + 1))).
    { apply NoDup_fmap_2_strong; [|apply NoDup_seq]. intros i j Hi%elem_of_seq Hj%elem_of_seq. apply mark_at_inj; lia. }
    assert (Hle : (size (list_to_set (mark_at n <$> seq 0 (size used + 1)) : gset Z) ≤ size used)%nat).
    { apply subseteq_size. intros x (i & -> & Hi%elem_of_seq)%elem_of_list_to_set%list_elem_of_fmap. apply Hseen. lia. }
    rewrite size_list_to_set, length_fmap, length_seq in Hle by done. lia. }
  cbn [next_free]. case_bool_decide as Hin.
  - rewrite <- mark_at_S. apply IH; [|lia|done]. intros i Hi. destruct (decide (i = k)) as [->|]; [done|]. apply Hseen. lia.
  - eexists. split; [reflexivity|]. split; [done|apply mark_at_range].
Qed.
Lemma AssignMark_spec m n : marks_ok m → Z.of_nat (size (marks m)) < MaxInt →
  ∃ m' k, AssignMark m n = Ret (m', k) ∧ marks_ok m' ∧ marksreverse m' = <[n := k]> (marksreverse m) ∧
    (marksreverse m !! n = Some k ∧ m' = m ∨ marksreverse m !! n = None ∧ k ∉ marks m).
Proof.
  intros [H1 H2 H3] Hsz. unfold AssignMark. destruct (marksreverse m !! n) as [k|] eqn:Hn.
  { exists m, k. split; [done|]. split; [by split|]. rewrite insert_id by done. auto. }
  destruct (next_free_spec (marks m) (nextmark m) (S (size (marks m))) 0) as (k & E & Hk & Hr); [lia|lia|done|].
  rewrite mark_at_0 in E by done. rewrite E. cbn [mbind outcome_bind]. eexists _, k. split; [reflexivity|]. split; [|by auto].
  split; cbn [nextmark marks marksreverse].
  - done.
  - intros x y [[-> ->]|[_ Hx]]%lookup_insert_Some; [split; [set_solver|lia]|]. apply H2 in Hx as [? ?]. split; [set_solver|done].
  - intros x y z [[<- <-]|[? Hx]]%lookup_insert_Some [[<- E']|[? Hy]]%lookup_insert_Some; [done|..].
    + by apply H2 in Hy as [? _].
    + subst. by apply H2 in Hx as [? _].
    + by eapply H3.
Qed.
Lemma FreeMark_ok m n : marks_ok m → marks_ok (FreeMark m n).
Proof.
  intros [H1 H2 H3]. split; cbn; [done|..].
  - intros x k [Hne Hx]%lookup_delete_Some. destruct (H2 _ _ Hx) as [Hk Hp]. split; [|done]. apply elem_of_difference. split; [done|].
    intros E%elem_of_singleton. destruct (marksreverse m !! n) as [k'|] eqn:En; cbn in E; [|lia]. subst k'. apply Hne. by eapply H3.
  - intros x y k [_ Hx]%lookup_delete_Some [_ Hy]%lookup_delete_Some. by eapply H3.
Qed.
Lemma register_ok m n k : marks_ok m → 1 ≤ k → (marksreverse m !! n = Some k ∨ marksreverse m !! n = None ∧ k ∉ marks m) → marks_ok (register m n k).
Proof.
  intros [H1 H2 H3] Hk Hn. split; cbn; [done|..].
  - intros x y [[-> ->]|[_ Hx]]%lookup_insert_Some; [split; [set_solver|lia]|]. apply H2 in Hx as [? ?]. split; [set_solver|done].
  - intros x y z [[<- <-]|[? Hx]]%lookup_insert_Some [[<- E']|[? Hy]]%lookup_insert_Some; [done|..].
    + destruct Hn as [Hn|[_ Hn]]; [by eapply H3|by apply H2 in Hy as [? _]].
    + subst. destruct Hn as [Hn|[_ Hn]]; [by eapply H3|by apply H2 in Hx as [? _]].
    + by eapply H3.
Qed.

(** Marks as they come about: a restart reads those of nodes from their
    configurations, the mark of each node the same in both. *)
Inductive marks_reachable : Marks → Prop :=
| marks_new : marks_reachable no_marks
| marks_register m n k : marks_reachable m → 1 ≤ k → (marksreverse m !! n = Some k ∨ marksreverse m !! n = None ∧ k ∉ marks m) →
    marks_reachable (register m n k)
| marks_assign m n m' k : marks_reachable m → Z.of_nat (size (marks m)) < MaxInt → AssignMark m n = Ret (m', k) → marks_reachable m'
| marks_free m n : marks_reachable m → marks_reachable (FreeMark m n).
Lemma marks_reachable_ok m : marks_reachable m → marks_ok m.
Proof.
  induction 1 as [|m n k _ IH Hk Hn|m n m' k _ IH Hsz E|m n _ IH].
  - split; cbn; [done|..]; intros *; by rewrite lookup_empty.
  - by apply register_ok.
  - destruct (AssignMark_spec m n IH Hsz) as (m1 & k1 & E1 & Hok & _). rewrite E in E1. by injection E1 as -> _.
  - by apply FreeMark_ok.
Qed.

(** Marks are handed out soundly.  In every reachable state different nodes have
    different marks; a node is given the mark it has, or one that is not in use; and
    the search for one ends. *)
Theorem marks_distinct m n : marks_reachable m → Z.of_nat (size (marks m)) < MaxInt →
  (∀ n1 n2 k, marksreverse m !! n1 = Some k → marksreverse m !! n2 = Some k → n1 = n2) ∧
  ∃ m' k, AssignMark m n = Ret (m', k) ∧ marks_reachable m' ∧ marksreverse m' = <[n := k]> (marksreverse m) ∧
    (∀ k', marksreverse m !! n = Some k' → k = k') ∧ (marksreverse m !! n = None → k ∉ marks m).
Proof.
  intros Hm Hsz. pose proof (marks_reachable_ok m Hm) as Hok. split; [intros *; apply (mk_inj _ Hok)|].
  destruct (AssignMark_spec m n Hok Hsz) as (m' & k & E & Hok' & Hr & Hk). exists m', k. split; [done|].
  split; [by eapply marks_assign|]. split; [done|]. destruct Hk as [[Hk _]|[Hk Hn]]; rewrite Hk; split; [congruence|done..].
Qed.

(** ** Chains *)

Definition fwd_rules (l : list Chain) : list FilterRule :=
  match l with c :: _ => default [] (FilterRules (ch_rules c)) | [] => [] end.
(** The rules of the forward chain are those of nodes, with their marks. *)
Definition agree (m : Marks) (l : list Chain) : Prop := ∀ r, r ∈ fwd_rules l →
  ∃ n k, fr_name r = Some n ∧ marksreverse m !! n = Some k ∧ fr_action r = ActionCtMark ∧ fr_value r = Some (itoa_signed k).
Definition two_or_none (l : list Chain) : Prop := l = [] ∨ ∃ c0 c1, l = [c0; c1].
Definition named_as (name : string) (r : FilterRule) : bool := bool_decide (fr_name r = Some name).

Lemma named_as_some name r n : fr_name r = Some n → named_as name r = bool_decide (n = name).
Proof. intros Hn. unfold named_as. rewrite Hn. apply bool_decide_ext. split; congruence. Qed.
Lemma exists_rule_spec l name : Forall (fun r => is_Some (fr_name r)) l →
  existsFirewallConfigurationChainRule l name = Ret (existsb (named_as name) l).
Proof.
  induction 1 as [|r l [n Hn] _ IH]; [done|]. cbn. rewrite Hn, (named_as_some name r n Hn). by case_bool_decide.
Qed.
Lemma agree_named m l : agree m l → Forall (fun r => is_Some (fr_name r)) (fwd_rules l).
Proof. intros H. apply Forall_forall. intros r Hr. destruct (H r Hr) as (n & k & -> & _). by eexists. Qed.

Lemma svc_chains_spec m l node mark src : agree m l → two_or_none l → marksreverse m !! in_Name node = Some mark →
  ∃ l', svc_chains l node mark src = Ret l' ∧ agree m l' ∧ two_or_none l' ∧
    (∃ r, r ∈ fwd_rules l' ∧ fr_name r = Some (in_Name node) ∧ fr_action r = ActionCtMark ∧ fr_value r = Some (itoa_signed mark)) ∧
    List.filter (fun r => negb (named_as (in_Name node) r)) (fwd_rules l') = List.filter (fun r => negb (named_as (in_Name node) r)) (fwd_rules l) ∧
    (existsb (named_as (in_Name node)) (fwd_rules l) = true → fwd_rules l' = fwd_rules l) ∧
    (∃ c0 c1, l' = [c0; c1] ∧ ch_hook c0 = Some ChainHookForward ∧ ch_hook c1 = Some ChainHookPrerouting ∧
      FilterRules (ch_rules c1) = Some [forgeFirewallConfigurationPreroutingChainRule src]) ∧
    (∀ r, r ∈ fwd_rules l' → fr_name r = Some (in_Name node) → r ∈ fwd_rules l ∨ r = forgeFirewallConfigurationForwardChainRule node mark src).
Proof.
  intros Ha Hl Hm. pose proof (agree_named _ _ Ha) as Hn. unfold svc_chains, enforceFirewallConfigurationForwardChain.
  set (c := match l with [] => zero_chain | c :: _ => c end). set (rest := match l with [] => [] | _ :: rest => rest end).
  assert (Hc : default [] (FilterRules (ch_rules c)) = fwd_rules l) by (by destruct l).
  replace (match l with [] => (zero_chain, []) | c :: rest => (c, rest) end) with (c, rest) by (by destruct l).
  unfold enforceFirewallConfigurationForwardChainRules. rewrite Hc, exists_rule_spec by done. cbn [mbind outcome_bind].
  set (b := existsb (named_as (in_Name node)) (fwd_rules l)).
  set (rs := if b then ch_rules c else _).
  assert (Hpre : ∃ c1, enforceFirewallConfigurationPreroutingChain (filter_chain "mark-to-conntrack" ChainHookForward rs :: rest) src =
    Ret [filter_chain "mark-to-conntrack" ChainHookForward rs; c1] ∧ ch_hook c1 = Some ChainHookPrerouting ∧ FilterRules (ch_rules c1) = Some [forgeFirewallConfigurationPreroutingChainRule src]).
  { destruct Hl as [->|(c0 & c1 & ->)]; cbn in rest; by eexists. }
  destruct Hpre as (c1 & -> & Hh1 & Hc1). eexists. split; [reflexivity|].
  set (rule := forgeFirewallConfigurationForwardChainRule node mark src).
  assert (Hf : fwd_rules [filter_chain "mark-to-conntrack" ChainHookForward rs; c1] = if b then fwd_rules l else fwd_rules l ++ [rule]).
  { cbn. unfold rs. destruct b; [by rewrite Hc|done]. }
  rewrite Hf. split; [|split; [right; by eexists _, _|split; [|split; [|split; [by intros ->|split; [by eexists _, c1|]]]]]].
  - intros r. rewrite Hf. destruct b; [apply Ha|]. intros [Hr| ->%list_elem_of_singleton]%elem_of_app; [by apply Ha|].
    exists (in_Name node), mark. done.
  - destruct b eqn:Eb.
    + apply existsb_true_iff in Eb as (r & Hr & Hname%bool_decide_eq_true). exists r. split; [done|]. split; [done|].
      destruct (Ha r Hr) as (n & k & Hn' & Hk & Hact & Hv). rewrite Hname in Hn'. injection Hn' as <-. rewrite Hm in Hk. by injection Hk as <-.
    + exists rule. split; [|done]. apply elem_of_app. right. left.
  - destruct b; [done|]. rewrite List.filter_app. cbn. unfold named_as at 2. cbn. rewrite bool_decide_eq_true_2 by done. by rewrite app_nil_r.
  - intros r Hr _. destruct b; [by left|]. apply elem_of_app in Hr as [Hr| ->%list_elem_of_singleton]; [by left|by right].
Qed.

Definition all_named (l : list Chain) : Prop := ∀ c r, c ∈ l → r ∈ default [] (FilterRules (ch_rules c)) → is_Some (fr_name r).
Lemma clean_filters_spec name l : Forall (fun r => is_Some (fr_name r)) l →
  clean_filters name l = Ret (List.filter (fun r => negb (named_as name r)) l).
Proof.
  induction 1 as [|r l [n Hn] _ IH]; [done|]. cbn [clean_filters]. rewrite Hn, IH. cbn [mbind outcome_bind List.filter].
  rewrite (named_as_some name r n Hn). by case_bool_decide.
Qed.
Lemma clean_chain_spec c node : (∀ r, r ∈ default [] (FilterRules (ch_rules c)) → is_Some (fr_name r)) →
  ∃ c', cleanFirewallConfigurationChain c node = Ret c' ∧
    default [] (FilterRules (ch_rules c')) = List.filter (fun r => negb (named_as (in_Name node) r)) (default [] (FilterRules (ch_rules c))).
Proof.
  intros Hn. unfold cleanFirewallConfigurationChain. destruct (FilterRules (ch_rules c)) as [l|] eqn:E; [|by exists c; rewrite E].
  cbn [default from_option id] in Hn |- *. rewrite clean_filters_spec by (by apply Forall_forall). by eexists.
Qed.
Lemma clean_node_chains l node : all_named l → ∃ l', cleanFirewallConfigurationChains l node = Ret l' ∧
  fwd_rules l' = List.filter (fun r => negb (named_as (in_Name node) r)) (fwd_rules l) ∧ List.length l' = List.length l.
Proof.
  induction l as [|c l IH]; intros Hn; [by exists []|]. cbn [cleanFirewallConfigurationChains].
  destruct (clean_chain_spec c node) as (c' & -> & Hc); [intros r; apply Hn; left|].
  destruct IH as (l' & -> & _ & Hl); [intros c0 r Hc0; apply Hn; by right|]. cbn [mbind outcome_bind].
  eexists. split; [reflexivity|]. cbn. rewrite Hl. by split.
Qed.
(** The rules that are left are those of nodes that keep their marks. *)
Lemma agree_free m l l' name : agree m l → fwd_rules l' = List.filter (fun r => negb (named_as name r)) (fwd_rules l) → agree (FreeMark m name) l'.
Proof.
  intros Ha E r Hr. rewrite E in Hr. apply list_elem_of_In, filter_In in Hr as [Hr Hn]. apply list_elem_of_In in Hr.
  destruct (Ha r Hr) as (n & k & Hname & Hk & Hact & Hv). exists n, k. split; [done|]. split; [|done]. cbn. rewrite lookup_delete_ne; [done|].
  intros <-. unfold named_as in Hn. rewrite Hname, bool_decide_eq_true_2 in Hn by done. done.
Qed.
Lemma agree_more m m' l n k : agree m l → marksreverse m' = <[n := k]> (marksreverse m) → (∀ k', marksreverse m !! n = Some k' → k = k') → agree m' l.
Proof.
  intros Ha E Hk r Hr. destruct (Ha r Hr) as (x & y & Hx & Hy & Hrest). exists x, y. split; [done|]. split; [|done]. rewrite E.
  destruct (decide (n = x)) as [<-|Hne]; [rewrite lookup_insert_eq; f_equal; by apply Hk|by rewrite lookup_insert_ne].
Qed.

(** ** The controller against a server that answers *)

Section world.
Context {Api : KubeApi inet} {R : Responsive inet} `{OR : OwnerRefs} {CU : CreateOrUpdater inet}.
Context (lists : string → string → labels → server → list (string * Obj inet)) (order : list string)
  (kinds : string → option (string * string)) (globalLabels globalAnnotations : labels) (Namespace : string).
Context (Hkind1 : is_Some (kinds routeconfigurations)) (Hkind2 : is_Some (kinds firewallconfigurations)).
Context (Howner : ∀ uid l, is_ok (SetOwnerReference uid l) = true).

Notation world := (pworld inet (option Marks)).
Notation "w ⋅ k" := (content (pw_server w) !! k) (at level 20, k at next level).
Abbreviation proc := (InternalNet.proc None).
Abbreviation cl := (plain_client lists).
Abbreviation cou := (CreateOrUpdate order kinds globalLabels globalAnnotations cl).
Abbreviation reconcile := (NodeReconcile cl order kinds globalLabels globalAnnotations Namespace proc set_proc (fun node => mret node)).
Abbreviation fw_key := (svc_fw_key Namespace).

Definition svc_stored (m : Marks) (w : world) : Prop := ∀ o, w ⋅ fw_key = Some o →
  lives o ∧ two_or_none (tb_chains (ifw_of o).2) ∧ agree m (tb_chains (ifw_of o).2) ∧ all_named (tb_chains (ifw_of o).2).
Definition stored_chains (w : world) : list Chain := match w ⋅ fw_key with Some o => tb_chains (ifw_of o).2 | None => [] end.

Lemma extcidr_ret node cfgs ips : (∀ cfg, cfg ∈ cfgs → is_Some (statusRemote cfg)) → ∃ rules, forgeRouteConfigurationExtCIDRRules node cfgs ips = Ret rules.
Proof.
  intros H. unfold forgeRouteConfigurationExtCIDRRules.
  assert (∃ l, extcidr_rules node cfgs = Ret l) as [l ->]; [|by eexists]. induction cfgs as [|cfg cfgs IH]; [by eexists|].
  cbn [extcidr_rules]. destruct (H cfg ltac:(left)) as [st ->]. destruct IH as [l ->]; [intros x Hx; apply H; by right|]. by eexists.
Qed.

(** What the writes for one node leave. *)
Lemma fw_written node m mark src w : agree m (stored_chains w) → two_or_none (stored_chains w) → marksreverse m !! in_Name node = Some mark → all_live w →
  ∃ w' o l', cou fw_key (forgeFirewallConfigurationMutateFunction node mark src) w = Ret (w', Ok o) ∧ only fw_key w w' ∧ w' ⋅ fw_key = Some o ∧ lives o ∧
    svc_chains (stored_chains w) node mark src = Ret l' ∧ tb_chains (ifw_of o).2 = l'.
Proof.
  intros Hag Htwo Hmark Hlive. destruct (svc_chains_spec m (stored_chains w) node mark src Hag Htwo Hmark) as (l' & Es & _).
  destruct (cou_stores lists order kinds globalLabels globalAnnotations fw_key (forgeFirewallConfigurationMutateFunction node mark src) w ForgeFirewallInternalTargetLabels
    (PFw (ifw_of (default blank (w ⋅ fw_key))).1 (Firewall.mkTable (Some configurationNameSvc) l' (Some TableFamilyIPv4)))) as (w2 & o2 & E2 & Ho2 & Hw2 & Hl2 & Hsp2).
  - done.
  - intros o. apply (Hlive fw_key).
  - unfold forgeFirewallConfigurationMutateFunction.
    replace (tb_chains (ifw_of (default blank (w ⋅ fw_key))).2) with (stored_chains w) by (unfold stored_chains; by destruct (w ⋅ fw_key)).
    by rewrite Es.
  - exists w2, o2, l'. unfold ifw_of at 1. rewrite Hsp2. done.
Qed.
Lemma rc_written k uid lb name rules f (w : world) : k.1.1 = routeconfigurations → all_live w →
  (∀ o, f o = match SetOwnerReference uid (rc_owners o) with Err e => Ret (Err e) | Ok ow => Ret (Ok (set_obj o lb (PRoutes ow name rules))) end) →
  ∃ w' o, cou k f w = Ret (w', Ok o) ∧ only k w w' ∧ w' ⋅ k = Some o ∧ lives o ∧ rc_rules o = rules.
Proof.
  intros Hk Hlive Hf. pose proof (Howner uid (rc_owners (default blank (w ⋅ k)))) as How.
  destruct (SetOwnerReference _ _) as [ow|] eqn:Eow; [|done].
  destruct (cou_stores lists order kinds globalLabels globalAnnotations k f w lb (PRoutes ow name rules)) as (w3 & o3 & E3 & Ho3 & Hw3 & Hl3 & Hsp3).
  - by rewrite Hk.
  - intros o. apply (Hlive k).
  - by rewrite Hf, Eow.
  - exists w3, o3. unfold rc_rules, rc_of. by rewrite Hsp3.
Qed.
Lemma enforced node m mark src cfgs ips (w : world) : agree m (stored_chains w) → two_or_none (stored_chains w) → marksreverse m !! in_Name node = Some mark → all_live w →
  (∀ cfg, cfg ∈ cfgs → is_Some (statusRemote cfg)) →
  ∃ w' o, (_ ← enforceRouteWithConntrackPresence cl order kinds globalLabels globalAnnotations Namespace node mark src;
           enforceRouteConfigurationExtCIDR cl order kinds globalLabels globalAnnotations Namespace node cfgs ips) w = Ret (w', Ok ()) ∧
    pw_log w' = pw_log w ∧ w' ⋅ fw_key = Some o ∧ lives o ∧ svc_chains (stored_chains w) node mark src = Ret (stored_chains w') ∧
    ∃ o', w' ⋅ svc_rc_key Namespace node = Some o' ∧ rc_rules o' = forgeRouteConfigurationRules node mark src.
Proof.
  intros Hag Htwo Hmark Hlive Hcfg.
  destruct (fw_written node m mark src w Hag Htwo Hmark Hlive) as (w2 & o2 & l' & E2 & Ho2 & Hw2 & Hl2 & Es & Hch).
  pose proof (only_live _ _ _ _ Ho2 Hw2 Hl2 Hlive) as Hlive2.
  destruct (rc_written (svc_rc_key Namespace node) (in_UID node) ForgeRouteInternalTargetLabels _ _ (forgeRouteConfigurationMutateFunction node mark src) w2 eq_refl Hlive2
    ltac:(done)) as (w3 & o3 & E3 & Ho3 & Hw3 & Hl3 & Hru3).
  pose proof (only_live _ _ _ _ Ho3 Hw3 Hl3 Hlive2) as Hlive3. destruct (extcidr_ret node cfgs ips Hcfg) as (rules & Er).
  destruct (rc_written (ext_rc_key Namespace node) (in_UID node) (ForgeRouteInternalTargetLabelsByNode (in_Name node)) (generateInternalNodeExtCIDRRouteConfigurationName (in_Name node)) rules
    (forgeRouteConfigurationExtCIDRMutateFunction node cfgs ips) w3 eq_refl Hlive3) as (w4 & o4 & E4 & Ho4 & Hw4 & _ & _).
  { intros o. unfold forgeRouteConfigurationExtCIDRMutateFunction. by rewrite Er. }
  assert (Hne : ext_rc_key Namespace node ≠ svc_rc_key Namespace node).
  { unfold ext_rc_key, svc_rc_key, generateInternalNodeExtCIDRRouteConfigurationName, generateInternalNodeSvcRouteConfigurationName.
    intros [= H]. by apply (inj (String.append _)) in H. }
  destruct Ho2 as [Hlog2 _], Ho3 as [Hlog3 Hf3], Ho4 as [Hlog4 Hf4].
  assert (Hfw : w4 ⋅ fw_key = Some o2) by (by rewrite Hf4, Hf3).
  exists w4, o2. split; [|split; [congruence|split; [done|split; [done|split]]]].
  - erewrite K_bind_ok; [|unfold enforceRouteWithConntrackPresence; rewrite (K_bind_ok _ _ _ _ _ E2), (K_bind_ok _ _ _ _ _ E3); reflexivity].
    unfold enforceRouteConfigurationExtCIDR. by rewrite (K_bind_ok _ _ _ _ _ E4).
  - unfold stored_chains at 2. by rewrite Hfw, Hch.
  - exists o3. by rewrite Hf4.
Qed.

(** C33: after the reconciliation of a node with the servers answering, the mark that
    its connections get in the forward chain and the mark its routing rule asks for are
    the same, and no other node has it.  A forward rule with the node's name was there
    before, and is kept as it was, or marks the packets with the unknown-source address
    that come in through the node's interface; the rules of other nodes are as they were.
    In the prerouting chain the replies, packets to that address from the tunnel, get the
    mark of their connection back, and the packets to it that carry the mark are routed to
    the node through its interface. *)
Theorem return_path_marked node w m cluster ext src cfgs ips : proc w = Some m → marks_reachable m → Z.of_nat (size (marks m)) < MaxInt →
  in_Deleting node = false → internalNodesControllerFinalizer ∈ in_Finalizers node →
  GetExternalCIDR cluster "" = Ok ext → GetUnknownSourceIP ext = Ret (Some src) →
  (∀ cfg, cfg ∈ filterObservedConfigurations cfgs → is_Some (statusRemote cfg)) →
  svc_stored m w → (∀ k o, w ⋅ k = Some o → lives o) →
  ∃ w' m' mark, reconcile (Ok node) cluster (Ok cfgs) (Ok ips) w = Ret (w', Ok ()) ∧ proc w' = Some m' ∧
    marksreverse m' !! in_Name node = Some mark ∧ (∀ other, other ≠ in_Name node → marksreverse m' !! other ≠ Some mark) ∧
    svc_stored m' w' ∧
    (∃ r, r ∈ fwd_rules (stored_chains w') ∧ fr_name r = Some (in_Name node) ∧ fr_action r = ActionCtMark ∧ fr_value r = Some (itoa_signed mark)) ∧
    (∀ r, r ∈ fwd_rules (stored_chains w') → fr_name r = Some (in_Name node) → r ∈ fwd_rules (stored_chains w) ∨
      (fr_action r = ActionCtMark ∧ fr_value r = Some (itoa_signed mark) ∧
       fr_match r = [mkMatch MatchOperationEq (Some (mkMatchIP src MatchPositionSrc)) None None None;
                     mkMatch MatchOperationEq None None None (Some (mkMatchDev (in_GatewayName node) MatchDevPositionIn false))])) ∧
    List.filter (fun r => negb (named_as (in_Name node) r)) (fwd_rules (stored_chains w')) =
    List.filter (fun r => negb (named_as (in_Name node) r)) (fwd_rules (stored_chains w)) ∧
    (∃ c0 c1 r, stored_chains w' = [c0; c1] ∧ ch_hook c0 = Some ChainHookForward ∧ ch_hook c1 = Some ChainHookPrerouting ∧
      FilterRules (ch_rules c1) = Some [r] ∧ fr_action r = ActionSetMetaMarkFromCtMark ∧
      fr_match r = [mkMatch MatchOperationEq (Some (mkMatchIP src MatchPositionDst)) None None None;
                    mkMatch MatchOperationEq None None None (Some (mkMatchDev TunnelInterfaceName MatchDevPositionIn false))]) ∧
    (∃ o r, w' ⋅ svc_rc_key Namespace node = Some o ∧ rc_rules o = [r] ∧ tl_Dst r = Some (cidr32 src) ∧ tl_FwMark r = Some mark ∧
      tr_route <$> tl_Routes r = [plain_route (Some (cidr32 src)) (Some (in_NodeIP node)) (Some (in_GatewayName node)) None]).
Proof.
  intros Hp Hm Hsz Hdel Hfin Hext Hsrc Hcfg Hst Hlive. pose proof (marks_reachable_ok m Hm) as Hok.
  destruct (AssignMark_spec m (in_Name node) Hok Hsz) as (m' & mark & Ea & Hok' & Hrev & Hk).
  assert (Hmark : marksreverse m' !! in_Name node = Some mark) by (rewrite Hrev; apply lookup_insert_eq).
  assert (Hag : agree m' (stored_chains w) ∧ two_or_none (stored_chains w)).
  { unfold stored_chains. destruct (w ⋅ fw_key) as [o|] eqn:Ho; [|split; [by intros r ?%elem_of_nil|by left]].
    destruct (Hst o Ho) as (_ & H2 & H3 & _). split; [|done]. eapply agree_more; [done..|]. intros k' Hk'. destruct Hk as [[Hk _]|[Hk _]]; congruence. }
  destruct Hag as [Hag Htwo]. destruct (svc_chains_spec m' (stored_chains w) node mark src Hag Htwo Hmark) as (l' & Es & Hag' & Htwo' & Hr & Hfil & _ & (c0 & c1 & Hl' & Hh0 & Hh1 & Hpre) & Hnew).
  destruct (enforced node m' mark src (filterObservedConfigurations cfgs) ips (set_proc (Some m') w)) as (w' & o & E & Hlog & Hfw & Hlo & Es' & Hrc); [done..|].
  change (stored_chains (set_proc (Some m') w)) with (stored_chains w) in Es'. assert (Hch : stored_chains w' = l') by congruence.
  exists w', m', mark. rewrite Hch. split; [|split; [|split; [done|split; [|split; [|split; [done|split; [|split; [done|split; [by eexists c0, c1, _|]]]]]]]]].
  5: { intros r Hr' Hn. by destruct (Hnew r Hr' Hn) as [?| ->]; [left|right]. }
  5: { destruct Hrc as (o' & Ho' & Hr'). eexists o', _. split; [done|]. split; [exact Hr'|]. done. }
  - unfold NodeReconcile. erewrite K_bind_ok by (unfold InitMark, asks, mbind, K_bind; by rewrite Hp). cbn beta iota. rewrite Hdel.
    rewrite bool_decide_eq_true_2 by done. erewrite K_bind_ok by reflexivity. rewrite Hext. erewrite K_bind_ok by reflexivity.
    erewrite K_bind_ok by (unfold lift_outcome; by rewrite Hsrc). erewrite K_bind_ok by reflexivity. erewrite K_bind_ok by reflexivity.
    erewrite K_bind_ok by (unfold lift_outcome; by rewrite Ea). cbn beta iota. by erewrite K_bind_ok by reflexivity.
  - unfold InternalNet.proc. rewrite Hlog. apply (proc_set None).
  - intros other Hother H. apply Hother. by eapply (mk_inj _ Hok').
  - intros o' Ho'. assert (o' = o) as -> by congruence. assert (Ho : tb_chains (ifw_of o).2 = l') by (rewrite <- Hch; unfold stored_chains; by rewrite Hfw).
    rewrite Ho. split; [done|]. split; [done|]. split; [done|].
    rewrite Hl' in Hag' |- *. intros c' r [->|[->|?%elem_of_nil]%elem_of_cons]%elem_of_cons; [|..|done].
    + intros Hr'. destruct (Hag' r) as (n & k & -> & _); [done|]. by eexists.
    + rewrite Hpre. cbn. intros ->%list_elem_of_singleton. by eexists.
Qed.

Lemma two_or_none_length l l' : two_or_none l → List.length l' = List.length l → two_or_none l'.
Proof.
  intros [->|(c0 & c1 & ->)] H; [left; by apply nil_length_inv|]. right. destruct l' as [|a [|b [|]]]; try done. by eexists _, _.
Qed.
Lemma clean_named l l' node : all_named l → cleanFirewallConfigurationChains l node = Ret l' → all_named l'.
Proof.
  revert l'. induction l as [|c l IH]; intros l' Hn; [by intros [= <-]|]. cbn [cleanFirewallConfigurationChains].
  destruct (clean_chain_spec c node) as (c' & -> & Hc); [intros r; apply Hn; left|].
  destruct (clean_node_chains l node) as (l1 & E & _); [intros x r Hx; apply Hn; by right|]. rewrite E. cbn [mbind outcome_bind].
  intros [= <-] x r [->|Hx]%elem_of_cons.
  - rewrite Hc. intros [Hr _]%list_elem_of_In%filter_In. apply (Hn c r); [left|by apply list_elem_of_In].
  - apply (IH l1); [intros y z Hy; apply Hn; by right|done|done].
Qed.

(** The deletion of a node takes its rule away and frees its mark; the rules of the
    other nodes stay. *)
Theorem return_path_removed node w m cluster cfgs ips : proc w = Some m → marks_reachable m →
  in_Deleting node = true → internalNodesControllerFinalizer ∈ in_Finalizers node → svc_stored m w →
  ∃ w', reconcile (Ok node) cluster cfgs ips w = Ret (w', Ok ()) ∧ proc w' = Some (FreeMark m (in_Name node)) ∧
    svc_stored (FreeMark m (in_Name node)) w' ∧
    fwd_rules (stored_chains w') = List.filter (fun r => negb (named_as (in_Name node) r)) (fwd_rules (stored_chains w)).
Proof.
  intros Hp Hm Hdel Hfin Hst. unfold NodeReconcile. erewrite K_bind_ok by (unfold InitMark, asks, mbind, K_bind; by rewrite Hp).
  cbn beta iota. rewrite Hdel, bool_decide_eq_true_2 by done.
  enough (∃ w1, enforceRouteWithConntrackAbsence cl Namespace node w = Ret (w1, Ok ()) ∧ svc_stored (FreeMark m (in_Name node)) w1 ∧
    fwd_rules (stored_chains w1) = List.filter (fun r => negb (named_as (in_Name node) r)) (fwd_rules (stored_chains w))) as (w1 & E & Hs & Hf).
  { rewrite (K_bind_ok _ _ _ _ _ E). erewrite K_bind_ok by reflexivity. eexists. split; [reflexivity|]. split; [apply proc_set|]. done. }
  unfold enforceRouteWithConntrackAbsence. erewrite K_bind_ok; [|by apply attempt_ok]. unfold stored_chains at 2.
  destruct (w ⋅ fw_key) as [o|] eqn:Ho.
  2: { exists w. split; [done|]. split; [by intros o; rewrite Ho|]. unfold stored_chains. by rewrite Ho. }
  destruct (Hst o Ho) as (Hlo & Htwo & Hag & Hna). destruct (clean_node_chains _ node Hna) as (l' & El & Hfwd & Hlen).
  erewrite K_bind_ok; [|unfold lift_outcome; by rewrite El]. set (o1 := set_obj o _ _).
  pose proof (Update_answers fw_key o1 (pw_server w) o Ho eq_refl) as Hans. destruct (Update fw_key o1 (pw_server w)) as [s r] eqn:Eu.
  destruct r as [o2|]; [|done]. destruct (Update_ok _ _ _ _ _ Eu) as (cur & Hc & _ & Hst2 & (_ & _ & Hfin2) & Hsp & _ & Hd).
  assert (cur = o) as -> by congruence. set (w1 := mkPworld s (pw_log w) : world).
  assert (Hlo2 : lives o2) by (intros Hx; rewrite Hfin2; apply Hlo; congruence).
  assert (Hw1 : w1 ⋅ fw_key = Some o2) by (cbn; rewrite Hst2, store_obj_lives by done; apply lookup_insert_eq).
  erewrite (K_bind_ok _ _ w w1) by (cbn; unfold on_pserver; by rewrite Eu).
  assert (Hch : tb_chains (ifw_of o2).2 = l') by (unfold ifw_of; by rewrite Hsp).
  assert (Hgood : lives o2 ∧ two_or_none l' ∧ agree (FreeMark m (in_Name node)) l' ∧ all_named l').
  { split; [done|]. split; [by eapply two_or_none_length|]. split; [by eapply agree_free|by eapply clean_named]. }
  unfold deleteVoidFwcfg. rewrite Hch.
  assert (Hkeep : svc_stored (FreeMark m (in_Name node)) w1 ∧ fwd_rules (stored_chains w1) = fwd_rules l').
  { split; [intros o' Ho'; assert (o' = o2) as -> by congruence; by rewrite Hch|]. unfold stored_chains. by rewrite Hw1, Hch. }
  destruct l' as [|c rest]; [exists w1; split; [done|]; split; [apply Hkeep|]; rewrite (proj2 Hkeep); exact Hfwd|].
  destruct (Nat.eqb_spec (List.length (default [] (FilterRules (ch_rules c)))) 0) as [Hz|Hz];
    [|exists w1; split; [done|]; split; [apply Hkeep|]; rewrite (proj2 Hkeep); exact Hfwd].
  destruct (delete_stores lists fw_key w1 o2 Hw1) as (w2 & Ed & _ & Hdel').
  exists w2. split; [exact Ed|].
  split.
  - intros o' Ho'. destruct (Hdel' o' Ho') as (_ & ? & Hsp'). unfold ifw_of. rewrite Hsp', Hsp. split; [done|apply Hgood].
  - apply nil_length_inv in Hz. unfold stored_chains. destruct (w2 ⋅ fw_key) as [o'|] eqn:Eo'.
    { destruct (Hdel' o' eq_refl) as (_ & _ & Hsp'). unfold ifw_of. by rewrite Hsp', Hsp. }
    rewrite <- Hfwd. cbn. by rewrite Hz.
Qed.
End world.

(** A node whose rule exists keeps it as it is: when the interface to the node or the
    address of unknown sources changes, the connections are no longer marked. *)
Theorem forward_rule_not_updated m l node mark src : agree m l → two_or_none l → marksreverse m !! in_Name node = Some mark →
  (∃ r, r ∈ fwd_rules l ∧ fr_name r = Some (in_Name node)) → ∃ l', svc_chains l node mark src = Ret l' ∧ fwd_rules l' = fwd_rules l.
Proof.
  intros Ha Hl Hm (r & Hr & Hn). destruct (svc_chains_spec m l node mark src Ha Hl Hm) as (l' & E & _ & _ & _ & _ & Hsame & _).
  exists l'. split; [done|]. apply Hsame. apply existsb_true_iff. exists r. split; [done|]. by apply bool_decide_eq_true.
Qed.

(** ** Witnesses *)

Lemma marks_distinct_witness : ∃ m', AssignMark (register no_marks "n1" 1) "n2" = Ret (m', 2) ∧ marksreverse m' !! "n1"%string = Some 1.
Proof.
  destruct (marks_distinct (register no_marks "n1" 1) "n2") as (_ & m' & k & E & _ & Hr & _ & _).
  - apply marks_register; [apply marks_new|lia|right; split; [reflexivity|set_solver]].
  - vm_compute. reflexivity.
  - vm_compute in E. injection E as <- <-. eexists. split; [reflexivity|]. vm_compute. reflexivity.
Defined.

#[local] Instance ex_cou : CreateOrUpdater inet := documented inet.
Definition ex_kinds (r : string) : option (string * string) := Some (r, "networking.liqo.io"%string).
Definition ex_node : InternalNode := mkInternalNode "n1" "uid-n1" "liqo.aaaaaaaaaa" "10.80.0.1" [internalNodesControllerFinalizer] false.
Definition ex_gone : InternalNode := mkInternalNode "n1" "uid-n1" "liqo.aaaaaaaaaa" "10.80.0.1" [internalNodesControllerFinalizer] true.
Definition ex_cluster : option (list NetworkRes) :=
  Some [mkNetworkRes "external" "liqo" (Some {[ NetworkTypeLabelKey := type_string TypeExternalCIDR ]}) "10.70.0.0/16" "10.70.0.0/16"].
Definition ex_start : pworld inet (option Marks) := mkPworld (∅ : gmap okey (Obj inet)) [Some no_marks].
Definition ex_reconcile (node : InternalNode) : pworld inet (option Marks) → outcome (pworld inet (option Marks) * result kerr ()) :=
  NodeReconcile (plain_client (fun _ _ _ _ => [])) [] ex_kinds ∅ ∅ "liqo" (proc None) set_proc (fun node => mret node) (Ok node) ex_cluster (Ok []) (Ok []).
Definition world_of (o : outcome (pworld inet (option Marks) * result kerr ())) : pworld inet (option Marks) := match o with Ret (w, _) => w | _ => ex_start end.

Lemma return_path_marked_witness : ∃ w', ex_reconcile ex_node ex_start = Ret (w', Ok ()) ∧
  fr_value <$> fwd_rules (stored_chains "liqo" w') = [Some "1"%string].
Proof.
  destruct (return_path_marked (fun _ _ _ _ => []) [] ex_kinds ∅ ∅ "liqo" ltac:(by eexists) ltac:(by eexists) ltac:(done) ex_node ex_start no_marks
    ex_cluster "10.70.0.0/16" "10.70.0.0" [] []) as (w' & m' & mark & E & _).
  - reflexivity.
  - apply marks_new.
  - vm_compute. reflexivity.
  - reflexivity.
  - left.
  - vm_compute. reflexivity.
  - vm_compute. reflexivity.
  - by intros cfg ?%elem_of_nil.
  - by intros o Ho.
  - by intros k o Ho.
  - exists w'. split; [exact E|]. pose proof (f_equal world_of E) as Hw. cbn [world_of] in Hw. rewrite <- Hw. vm_compute. reflexivity.
Defined.

Lemma return_path_removed_witness : ∃ w', ex_reconcile ex_gone ex_start = Ret (w', Ok ()) ∧ stored_chains "liqo" w' = [].
Proof.
  destruct (return_path_removed (fun _ _ _ _ => []) [] ex_kinds ∅ ∅ "liqo" ex_gone ex_start no_marks ex_cluster (Ok []) (Ok [])) as (w' & E & _).
  - reflexivity.
  - apply marks_new.
  - reflexivity.
  - left.
  - by intros o Ho.
  - exists w'. split; [exact E|]. pose proof (f_equal world_of E) as Hw. cbn [world_of] in Hw. rewrite <- Hw. vm_compute. reflexivity.
Defined.

Lemma forward_rule_not_updated_witness : ∃ l',
  svc_chains [filter_chain "mark-to-conntrack" ChainHookForward (mkRulesSet None (Some [forgeFirewallConfigurationForwardChainRule ex_node 1 "10.70.0.0"]) None); zero_chain]
    (mkInternalNode "n1" "uid-n1" "liqo.bbbbbbbbbb" "10.80.0.1" [] false) 1 "10.71.0.0" = Ret l' ∧
  fwd_rules l' = [forgeFirewallConfigurationForwardChainRule ex_node 1 "10.70.0.0"].
Proof.
  apply (forward_rule_not_updated (register no_marks "n1" 1)).
  - intros r ->%list_elem_of_singleton. exists "n1"%string, 1. split; [reflexivity|]. split; [reflexivity|]. split; reflexivity.
  - right. eexists _, _. reflexivity.
  - reflexivity.
  - eexists. split; [left|reflexivity].
Defined.
