(* ===== verification/FabricCtl.v ===== *)
(** * FabricCtl: the controller of InternalFabrics
      (src/pkg/liqo-controller-manager/networking/internal-network/internalfabric-controller/
       {internalfabric_controller,route,firewall,genevetunnel}.go)

    An InternalFabric joins the nodes to one gateway of a remote cluster; a cluster
    can have several gateways.  For all of them together the controller publishes the
    routes of the nodes to the remote networks and the marks that keep a connection
    on the gateway it came by; for each of them the routes for its mark and the
    tunnels to the nodes. *)

From S2P Require Export InternalNet.
From S2P Require IdManager.
From Stdlib Require Import Ascii.
Local Open Scope Z_scope.

(** ** internalfabric_controller.go *)

Inductive ConnectionStatusValue := Connected | Connecting | ConnectionError | OtherConnection (s : string).
#[export] Instance ConnectionStatusValue_eq_dec : EqDecision ConnectionStatusValue.
Proof. solve_decision. Defined.
Record GwPod := mkGwPod { gp_Deleting : bool; gp_Running : bool; gp_PodIP : string }.

Definition gatewayNameFromInternalFabric (f : InternalFabric) : string := default (if_Name f) (if_Controller f).
Definition gatewayNameFromOwnerRef (f : InternalFabric) : option string := if_Controller f.
Definition GatewayResourceName (name : string) : string := ("gw-" ++ name)%string.
Definition fabric_key (f : InternalFabric) : string := object_key (if_Namespace f) (if_Name f).
Definition fabricECMPMark (f : InternalFabric) : result kerr Z := match if_ECMPMark f with None => Err OtherErr | Some m => Ok m end.
Definition pod_ready (p : GwPod) : bool := negb (gp_Deleting p) && gp_Running p && negb (bool_decide (gp_PodIP p = ""%string)).
Definition usable_sibling (f : InternalFabric) : bool := negb (if_Deleting f) && negb (bool_decide (if_NodeName f = ""%string)).
Definition set_if_mark (f : InternalFabric) (m : Z) : InternalFabric :=
  mkInternalFabric (if_Name f) (if_Namespace f) (if_UID f) (if_Labels f) (if_Controller f) (if_Finalizers f) (if_Deleting f)
    (if_MTU f) (if_RemoteCIDRs f) (if_NodeName f) (if_InterfaceIP f) (if_GatewayIP f) (Some m).
Definition set_if_finalizers (f : InternalFabric) (l : list string) : InternalFabric :=
  mkInternalFabric (if_Name f) (if_Namespace f) (if_UID f) (if_Labels f) (if_Controller f) l (if_Deleting f)
    (if_MTU f) (if_RemoteCIDRs f) (if_NodeName f) (if_InterfaceIP f) (if_GatewayIP f) (if_ECMPMark f).
Definition InternalFabricGeneveTunnelFinalizer : string := "networking.liqo.io/internal-fabric-geneve-tunnel-finalizer".
Definition deprecatedFinalizer : string := "internalfabric-controller.liqo.io/finalizer".

(** ** route.go *)

Definition defaultMarkRoutePriority : Z := 10001.
Definition defaultECMPRoutePriority : Z := 10000.
Definition generateRouteConfigurationName (remoteClusterID : string) : string := (remoteClusterID ++ "-node-gw")%string.
Definition replicaRouteConfigurationName (remoteClusterID gatewayName : string) : string :=
  (remoteClusterID ++ "-node-gw-replica-" ++ gatewayName)%string.

Definition gateway_rule (priority : Z) (f : InternalFabric) : TRule :=
  mkTRule (Some (cidr32 (if_InterfaceIP f))) None None (Some priority)
    [mkTRoute (plain_route (Some (cidr32 (if_InterfaceIP f))) None (Some (if_NodeName f)) (Some LinkScope)) None] None.
Definition next_hop (f : InternalFabric) : NextHop := mkNextHop (if_InterfaceIP f) (if_NodeName f) None.
(** No route, one through the gateway, or one through all of them. *)
Definition remote_route (connected : list InternalFabric) (cidr : string) : option Route :=
  match connected with
  | [] => None
  | [f] => Some (plain_route (Some cidr) (Some (if_InterfaceIP f)) None None)
  | _ => Some (mkRoute (Some cidr) None None (next_hop <$> connected) None None None)
  end.
Definition remote_rules (priority : Z) (connected : list InternalFabric) (cidrs : list string) : list TRule :=
  omap (fun cidr => r ← remote_route connected cidr; Some (mkTRule (Some cidr) None None (Some priority) [mkTRoute r None] None)) cidrs.
Definition node_gw_rules (RulePriority : Z) (f : InternalFabric) (siblings connected : list InternalFabric) : list TRule :=
  let priority := if 0 <? RulePriority then RulePriority else defaultMarkRoutePriority in
  (gateway_rule priority <$> siblings) ++ remote_rules priority connected (sort_strings (if_RemoteCIDRs f)).
Definition replica_rules (RulePriority : Z) (f : InternalFabric) (mark : Z) : list TRule :=
  let markPriority := if 0 <? RulePriority then RulePriority - 1 else defaultECMPRoutePriority in
  (fun cidr => mkTRule (Some cidr) None (Some mark) (Some markPriority)
     [mkTRoute (plain_route (Some cidr) (Some (if_InterfaceIP f)) (Some (if_NodeName f)) None) None] None) <$> sort_strings (if_RemoteCIDRs f).

(** ** firewall.go *)

Definition generateFirewallConfigurationName (remoteClusterID : string) : string := (remoteClusterID ++ "-node-gw")%string.
(** A replacer of two characters by a third one. *)
Definition sanitizeCIDR (cidr : string) : string := ReplaceAll "/" "-" (ReplaceAll "." "-" cidr).
Definition mark_rule (cidr : string) (i : nat) (f : InternalFabric) (mark : Z) : FilterRule :=
  mkFilterRule (Some ("mark-in-gw-" ++ itoa (Z.of_nat i) ++ "-" ++ sanitizeCIDR cidr)%string) true
    [match_ip MatchOperationEq cidr MatchPositionSrc; match_dev MatchOperationEq (if_NodeName f) MatchDevPositionIn]
    ActionCtMark (Some (itoa_signed mark)).
Definition restore_rule (cidr : string) : FilterRule :=
  mkFilterRule (Some ("restore-mark-" ++ sanitizeCIDR cidr)%string) true [match_ip MatchOperationEq cidr MatchPositionDst]
    ActionSetMetaMarkFromCtMark None.
Fixpoint mark_rules (cidr : string) (i : nat) (l : list InternalFabric) : result kerr (list FilterRule) :=
  match l with
  | [] => Ok []
  | f :: l =>
    match fabricECMPMark f with
    | Err e => Err e
    | Ok mark => match mark_rules cidr (S i) l with Ok rs => Ok (mark_rule cidr i f mark :: rs) | Err e => Err e end
    end
  end.
Fixpoint forward_rules (cidrs : list string) (l : list InternalFabric) : result kerr (list FilterRule) :=
  match cidrs with
  | [] => Ok []
  | cidr :: cidrs =>
    match mark_rules cidr 0 l, forward_rules cidrs l with Ok a, Ok b => Ok (a ++ b) | Err e, _ | _, Err e => Err e end
  end.
Definition ecmp_chain (name : string) (hook : ChainHook) (l : list FilterRule) : Chain :=
  mkChain (Some name) (mkRulesSet None (Some l) None) ChainTypeFilter (Some ChainPolicyAccept) (Some hook) (Some 0).
Definition forgeFirewallChains (f : InternalFabric) (fabrics : list InternalFabric) : result kerr (list Chain) :=
  if (List.length fabrics <=? 1)%nat then Ok []
  else
    let remoteCIDRs := sort_strings (if_RemoteCIDRs f) in
    if (List.length remoteCIDRs =? 0)%nat then Ok []
    else match forward_rules remoteCIDRs fabrics with
         | Err e => Err e
         | Ok l => Ok [ecmp_chain "ecmp-mark" ChainHookForward l; ecmp_chain "ecmp-restore-mark" ChainHookPrerouting (restore_rule <$> remoteCIDRs)]
         end.

(** ** genevetunnel.go *)

Definition geneveTunnelName (f : InternalFabric) (node : string) : string := (if_Name f ++ "-" ++ node)%string.
Definition tunnel_owners (o : Obj inet) : list OwnerRef := match o_spec o with AMap (PTunnel ow _ _ _) => ow | _ => [] end.

(** The allocators, once they have been initialised. *)
Record fstate := mkFstate { ecmpMarkManager : option IdManager.Manager; geneveTunnelManager : option IdManager.Manager }.
Definition set_ecmp (s : fstate) (m : IdManager.Manager) : fstate := mkFstate (Some m) (geneveTunnelManager s).
Definition set_geneve (s : fstate) (m : IdManager.Manager) : fstate := mkFstate (ecmpMarkManager s) (Some m).

Section controller.
Context `{OR : OwnerRefs} `{CU : CreateOrUpdater inet}.
Context {W : Type} (cl : Client W inet) (order : list string) (kinds : string → option (string * string))
  (globalLabels globalAnnotations : labels) (RulePriority : Z).
Context (proc : W → fstate) (set_proc : fstate → W → W).
(** InternalFabrics, InternalNodes, Connections and gateway pods. *)
Context (list_fabrics : option (string * labels) → K W (list InternalFabric)) (list_nodes : K W (list string))
  (get_connection : string → string → K W ConnectionStatusValue) (list_pods : string → string → K W (list GwPod))
  (update_fabric update_fabric_status : InternalFabric → K W ()).

Notation create_or_update := (CreateOrUpdate order kinds globalLabels globalAnnotations cl).

Definition lift_ids {A} (r : result IdManager.id_error A) : K W A := match r with Ok a => mret a | Err _ => fail OtherErr end.
(** [runtime.Must] of the listings. *)
Definition ecmp_manager : K W IdManager.Manager :=
  s ← asks proc;
  match ecmpMarkManager s with
  | Some m => mret m
  | None =>
    l ← attempt (list_fabrics None);
    m ← lift_outcome (m ← IdManager.GetECMPMarkManager (match l with Ok l => Some ((fun f => (fabric_key f, if_ECMPMark f)) <$> l) | Err _ => None end); Ret (Ok m));
    s ← asks proc; _ ← puts set_proc (set_ecmp s m); mret m
  end.
(** Key and identifier of a tunnel; it is in the namespace of its fabric. *)
Definition tunnel_entry (x : string * Obj inet) : string * Z :=
  match o_spec x.2 with AMap (PTunnel _ id _ fab) => (object_key fab.2 x.1, id) | _ => (x.1, 0) end.
Definition geneve_manager : K W IdManager.Manager :=
  s ← asks proc;
  match geneveTunnelManager s with
  | Some m => mret m
  | None =>
    l ← attempt (c_List cl genevetunnels "" ∅);
    m ← lift_outcome (m ← IdManager.GetGeneveTunnelManager (match l with Ok l => Some (tunnel_entry <$> l) | Err _ => None end); Ret (Ok m));
    s ← asks proc; _ ← puts set_proc (set_geneve s m); mret m
  end.

Definition ensureECMPMark (f : InternalFabric) : K W InternalFabric :=
  match if_ECMPMark f with
  | Some _ => mret f
  | None =>
    m ← ecmp_manager;
    let '(r, m) := IdManager.Allocate m (fabric_key f) in
    s ← asks proc; _ ← puts set_proc (set_ecmp s m);
    mark ← lift_ids r;
    let f := set_if_mark f mark in
    _ ← update_fabric_status f; mret f
  end.

Definition listSiblingInternalFabrics (f : InternalFabric) : K W (list InternalFabric) :=
  match if_Labels f !! RemoteClusterID with
  | None => fail OtherErr
  | Some id =>
    l ← list_fabrics (Some (if_Namespace f, {[ RemoteClusterID := id ]}));
    mret (sort_by gatewayNameFromInternalFabric (List.filter usable_sibling l))
  end.
Definition gatewayPodRunning (f : InternalFabric) : K W bool :=
  l ← list_pods (if_Namespace f) (gatewayNameFromInternalFabric f); mret (existsb pod_ready l).
Fixpoint connected_loop (f : InternalFabric) (fabrics : list InternalFabric) : K W (list InternalFabric * bool) :=
  match fabrics with
  | [] => mret ([], false)
  | g :: fabrics =>
    r ← attempt (get_connection (if_Namespace f) (GatewayResourceName (gatewayNameFromInternalFabric g)));
    match r with
    | Err NotFound => connected_loop f fabrics
    | Err e => fail e
    | Ok v =>
      if negb (bool_decide (v = Connected)) then connected_loop f fabrics
      else
        running ← gatewayPodRunning g;
        if (running : bool) then
          '(l, current) ← connected_loop f fabrics;
          mret (g :: l, bool_decide (if_Name g = if_Name f) || current)
        else connected_loop f fabrics
    end
  end.
Definition connectedGateways (f : InternalFabric) (fabrics : list InternalFabric) : K W (list InternalFabric * bool) :=
  match gatewayNameFromOwnerRef f with
  | None => mret (fabrics, true)
  | Some _ => connected_loop f fabrics
  end.

(** The label; it may be empty. *)
Definition named_remote (f : InternalFabric) : option string :=
  id ← if_Labels f !! RemoteClusterID; if bool_decide (id = ""%string) then None else Some id.
Definition node_gw_key (f : InternalFabric) (id : string) : okey := (routeconfigurations, if_Namespace f, generateRouteConfigurationName id).
Definition ensureRouteConfiguration (f : InternalFabric) (siblings connected : list InternalFabric) : K W () :=
  if bool_decide (if_NodeName f = ""%string) then fail OtherErr
  else match named_remote f with
  | None => fail OtherErr
  | Some id =>
    _ ← create_or_update (node_gw_key f id) (fun o =>
          match SetOwnerReference (if_UID f) (rc_owners o) with
          | Err e => Ret (Err e)
          | Ok owners => Ret (Ok (set_obj o (ForgeRouteTargetLabels ∪ o_labels o)
              (PRoutes owners (generateRouteConfigurationName id) (node_gw_rules RulePriority f siblings connected))))
          end);
    mret ()
  end.
Definition replica_key (f : InternalFabric) (id : string) : okey :=
  (routeconfigurations, if_Namespace f, replicaRouteConfigurationName id (gatewayNameFromInternalFabric f)).
Definition ensurePerGatewayReturnRouteConfiguration (f : InternalFabric) : K W () :=
  match if_Labels f !! RemoteClusterID with
  | None => fail OtherErr
  | Some id =>
    match fabricECMPMark f with
    | Err e => fail e
    | Ok mark =>
      _ ← create_or_update (replica_key f id) (fun o =>
            match SetControllerReference (if_UID f) (rc_owners o) with
            | Err e => Ret (Err e)
            | Ok owners => Ret (Ok (set_obj o (<[InternalFabricName := if_Name f]> (ForgeRouteTargetLabels ∪ o_labels o))
                (PRoutes owners (replicaRouteConfigurationName id (gatewayNameFromInternalFabric f)) (replica_rules RulePriority f mark))))
            end);
      mret ()
    end
  end.
(** [client.IgnoreNotFound] of a deletion. *)
Definition delete_ignoring (k : okey) : K W () :=
  r ← attempt (c_Delete cl k); match r with Ok _ | Err NotFound => mret () | Err e => fail e end.
Definition get_and_delete (k : okey) : K W () :=
  r ← attempt (c_Get cl k);
  match r with
  | Err NotFound => mret ()
  | Err e => fail e
  | Ok _ => delete_ignoring k
  end.
Definition cleanupPerGatewayReturnRouteConfiguration (f : InternalFabric) : K W () :=
  match if_Labels f !! RemoteClusterID with
  | None => mret ()
  | Some id => get_and_delete (replica_key f id)
  end.

Definition fabric_fw_key (f : InternalFabric) (id : string) : okey := (firewallconfigurations, if_Namespace f, generateFirewallConfigurationName id).
Definition deleteFirewallConfiguration (k : okey) : K W () := get_and_delete k.
Definition ensureFirewallConfiguration (f : InternalFabric) (siblings : list InternalFabric) : K W () :=
  match named_remote f with
  | None => fail OtherErr
  | Some id =>
    if (List.length siblings <? 2)%nat then deleteFirewallConfiguration (fabric_fw_key f id)
    else
      _ ← create_or_update (fabric_fw_key f id) (fun o =>
            match forgeFirewallChains f siblings with
            | Err e => Ret (Err e)
            | Ok chains =>
              match SetOwnerReference (if_UID f) (ifw_of o).1 with
              | Err e => Ret (Err e)
              | Ok owners => Ret (Ok (set_obj o (fabric_ForgeFirewallTargetLabels ∪ o_labels o)
                  (PFw owners (Firewall.mkTable (Some (generateFirewallConfigurationName id)) chains (Some TableFamilyIPv4)))))
              end
            end);
      mret ()
  end.

Definition tunnel_key (f : InternalFabric) (name : string) : okey := (genevetunnels, if_Namespace f, name).
Definition allocate_tunnel (key : string) : K W Z :=
  m ← geneve_manager;
  let '(r, m) := IdManager.Allocate m key in
  s ← asks proc; _ ← puts set_proc (set_geneve s m);
  lift_ids r.
Definition release_tunnel (key : string) : K W () :=
  m ← geneve_manager; s ← asks proc; puts set_proc (set_geneve s (IdManager.Release m key)).
(** The identifier is allocated while the object is mutated. *)
Definition mutateGeneveTunnel (f : InternalFabric) (node : string) (o : Obj inet) : K W (Obj inet) :=
  id ← allocate_tunnel (object_key (if_Namespace f) (geneveTunnelName f node));
  mret (set_obj o (<[InternalNodeName := node]> (<[InternalFabricName := if_Name f]> (o_labels o)))
         (PTunnel (tunnel_owners o) id node (if_Name f, if_Namespace f))).
Definition own_tunnel (f : InternalFabric) (o : Obj inet) : K W (Obj inet) :=
  match o_spec o with
  | AMap (PTunnel ow id node fab) =>
    match SetControllerReference (if_UID f) ow with
    | Err e => fail e
    | Ok owners => mret (set_obj o (o_labels o) (PTunnel owners id node fab))
    end
  | _ => mret o
  end.
Fixpoint ensure_tunnels (f : InternalFabric) (nodes : list string) : K W () :=
  match nodes with
  | [] => mret ()
  | node :: nodes =>
    _ ← CreateOrUpdateK order kinds globalLabels globalAnnotations cl (tunnel_key f (geneveTunnelName f node))
          (fun o => o ← mutateGeneveTunnel f node o; own_tunnel f o);
    ensure_tunnels f nodes
  end.
Definition ensureGeneveTunnels (f : InternalFabric) (nodes : list string) : K W () :=
  _ ← ensure_tunnels f nodes;
  if (0 <? List.length nodes)%nat && negb (bool_decide (InternalFabricGeneveTunnelFinalizer ∈ if_Finalizers f))
  then update_fabric (set_if_finalizers f (if_Finalizers f ++ [InternalFabricGeneveTunnelFinalizer]))
  else mret ().
Definition list_tunnels (f : InternalFabric) : K W (list (string * Obj inet)) :=
  c_List cl genevetunnels (if_Namespace f) {[ InternalFabricName := if_Name f ]}.
(** The identifier is released first. *)
Definition delete_tunnel (f : InternalFabric) (name : string) : K W () :=
  _ ← release_tunnel (object_key (if_Namespace f) name); delete_ignoring (tunnel_key f name).
Fixpoint cleanup_loop (f : InternalFabric) (nodes : list string) (l : list (string * Obj inet)) : K W () :=
  match l with
  | [] => mret ()
  | (name, o) :: l =>
    _ ← (if bool_decide (default ""%string (o_labels o !! InternalNodeName) ∈ nodes) then mret () else delete_tunnel f name);
    cleanup_loop f nodes l
  end.
Definition cleanupGeneveTunnels (f : InternalFabric) (nodes : list string) : K W () :=
  l ← list_tunnels f; cleanup_loop f nodes l.
Fixpoint delete_loop (f : InternalFabric) (l : list (string * Obj inet)) : K W () :=
  match l with
  | [] => mret ()
  | (name, _) :: l => _ ← delete_tunnel f name; delete_loop f l
  end.
Definition deleteGeneveTunnels (f : InternalFabric) : K W () := l ← list_tunnels f; delete_loop f l.

(** [Reconcile] on what [Get] answered. *)
Definition remove_finalizers (f : InternalFabric) : K W () :=
  let kept := List.filter (fun x => negb (bool_decide (x = InternalFabricGeneveTunnelFinalizer)) && negb (bool_decide (x = deprecatedFinalizer))) (if_Finalizers f) in
  if bool_decide (kept = if_Finalizers f) then mret () else update_fabric (set_if_finalizers f kept).
Definition FabricReconcile (got : result kerr InternalFabric) : K W () :=
  match got with
  | Err NotFound => mret ()
  | Err e => fail e
  | Ok f =>
    if if_Deleting f then
      _ ← (if bool_decide (InternalFabricGeneveTunnelFinalizer ∈ if_Finalizers f) then deleteGeneveTunnels f else mret ());
      remove_finalizers f
    else
      f ← ensureECMPMark f;
      siblings ← listSiblingInternalFabrics f;
      '(connected, currentConnected) ← connectedGateways f siblings;
      _ ← ensureRouteConfiguration f siblings connected;
      _ ← (if (1 <? List.length connected)%nat && currentConnected then ensurePerGatewayReturnRouteConfiguration f
           else cleanupPerGatewayReturnRouteConfiguration f);
      _ ← ensureFirewallConfiguration f siblings;
      nodes ← list_nodes;
      _ ← ensureGeneveTunnels f nodes;
      cleanupGeneveTunnels f nodes
  end.

(** ** What triggers a reconciliation *)

(** Requests for a Connection: its fabric, when it exists. *)
Definition connectionEnqueuer (get_fabric : string → string → result kerr InternalFabric) (gwNamespace gwName connNamespace : string) : list (string * string) :=
  let ns := if bool_decide (gwNamespace = ""%string) then connNamespace else gwNamespace in
  match get_fabric ns gwName with
  | Err _ => []
  | Ok f => [(if_Namespace f, if_Name f)]
  end.
Definition GatewayNameLabel : string := "networking.liqo.io/gateway-name".
Definition NetworkingComponentKey : string := "networking.liqo.io/component".
Definition gatewayPodPredicate (podLabels : labels) : bool :=
  bool_decide (podLabels !! NetworkingComponentKey = Some "gateway"%string) && negb (bool_decide (default ""%string (podLabels !! GatewayNameLabel) = ""%string)).
Definition gatewayPodEnqueuer (get_fabric : string → string → result kerr InternalFabric) (podNamespace : string) (podLabels : labels) : list (string * string) :=
  match podLabels !! GatewayNameLabel with
  | None => []
  | Some gw => match get_fabric podNamespace gw with Err _ => [] | Ok f => [(if_Namespace f, if_Name f)] end
  end.
Definition internalNodeEnqueuer (fabrics : result kerr (list InternalFabric)) : list (string * string) :=
  match fabrics with Err _ => [] | Ok l => (fun f => (if_Namespace f, if_Name f)) <$> l end.
End controller.
