(* ===== verification/FabricCtlProps.v ===== *)
(** * FabricCtlProps: routes and marks follow the gateways that work *)

From S2P Require Export FabricCtl.
From S2P Require FirewallSem.
From Stdlib Require Import Ascii.
Local Open Scope Z_scope.

Abbreviation lacks := FirewallSem.lacks.

(** ** Marks written as text *)

Lemma digit_read d s z : 0 ≤ d < 10 → atoi_run (String (digit d) s) z = atoi_run s (z * 10 + d).
Proof.
  intros Hd. assert (d = 0 ∨ d = 1 ∨ d = 2 ∨ d = 3 ∨ d = 4 ∨ d = 5 ∨ d = 6 ∨ d = 7 ∨ d = 8 ∨ d = 9) by lia.
  cbn [atoi_run]. destruct_or?; subst d; reflexivity.
Qed.
Lemma itoa_aux_read fuel n acc : 0 ≤ n < 10 ^ Z.of_nat fuel → (0 < fuel)%nat →
  atoi_run (itoa_aux fuel n acc) 0 = atoi_run acc n.
Proof.
  revert n acc. induction fuel as [|fuel IH]; intros n acc Hn Hf; [lia|]. cbn [itoa_aux].
  pose proof (Z.div_mod n 10 ltac:(lia)). pose proof (Z.mod_pos_bound n 10 ltac:(lia)).
  destruct (Z.eqb_spec (n / 10) 0); [rewrite digit_read by lia; f_equal; lia|].
  assert (0 < n / 10 < 10 ^ Z.of_nat fuel).
  { split; [pose proof (Z.div_pos n 10 ltac:(lia) ltac:(lia)); lia|]. apply Z.div_lt_upper_bound; [lia|].
    replace (Z.of_nat (S fuel)) with (1 + Z.of_nat fuel) in Hn by lia. rewrite Z.pow_add_r in Hn by lia. lia. }
  rewrite IH; [rewrite digit_read by lia; f_equal; lia|lia|].
  destruct fuel; [cbn in *; lia|lia].
Qed.
Lemma itoa_aux_nonempty fuel n acc : acc ≠ ""%string → itoa_aux fuel n acc ≠ ""%string.
Proof. revert n acc. induction fuel as [|fuel IH]; intros n acc Ha; [done|]. cbn [itoa_aux]. case_match; [done|by apply IH]. Qed.
Lemma itoa_nonempty n : itoa n ≠ ""%string.
Proof. unfold itoa. generalize 19%nat as fuel. intros fuel. cbn [itoa_aux]. case_match; [done|by apply itoa_aux_nonempty]. Qed.
Lemma Atoi_of_digits s v : atoi_run s 0 = Some v → s ≠ ""%string → - 2 ^ 63 ≤ v < 2 ^ 63 → Atoi s = Some v.
Proof.
  intros Hs Hne Hv. assert (Hp : parse_digits s = Some v) by (destruct s; done).
  assert (Hr : (if (- 2 ^ 63 <=? v) && (v <? 2 ^ 63) then Some v else None) = Some v).
  { destruct (Z.leb_spec (- 2 ^ 63) v); [|lia]. destruct (Z.ltb_spec v (2 ^ 63)); [done|lia]. }
  destruct s as [|[b0 b1 b2 b3 b4 b5 b6 b7] s]; [done|].
  destruct b0, b1, b2, b3, b4, b5, b6, b7; try discriminate Hs; unfold Atoi; rewrite Hp; exact Hr.
Qed.
Lemma Atoi_itoa_signed n : 0 ≤ n < 2 ^ 32 → Atoi (itoa_signed n) = Some n.
Proof.
  intros Hn. unfold itoa_signed. destruct (Z.ltb_spec n 0); [lia|]. apply Atoi_of_digits; [|apply itoa_nonempty|lia].
  unfold itoa. rewrite itoa_aux_read; [done|lia|lia].
Qed.

(** ** What the configurations do to packets

    A packet is known by the interface it comes in by and the networks its addresses
    are in.  The rules of a chain are tried in turn: setting a mark does not end the
    chain. *)

Record packet := mkPacket { pk_in : string; pk_src : string → bool; pk_dst : string → bool }.
Definition satisfies (p : packet) (m : Match) : bool :=
  let eq (b : bool) := match m_op m with MatchOperationEq => b | _ => negb b end in
  match m_ip m with
  | None => true
  | Some ip => eq (match mip_position ip with MatchPositionSrc => pk_src p (mip_value ip) | _ => pk_dst p (mip_value ip) end)
  end &&
  match m_dev m with
  | None => true
  | Some d => eq (bool_decide (mdev_value d = pk_in p))
  end.
Definition applies (p : packet) (r : FilterRule) : bool := forallb (satisfies p) (fr_match r).
(** The marks of the connection and of the packet. *)
Definition step_mark (p : packet) (s : Z * Z) (r : FilterRule) : Z * Z :=
  if applies p r then
    match fr_action r with
    | ActionCtMark => (default s.1 (v ← fr_value r; Atoi v), s.2)
    | ActionSetMetaMarkFromCtMark => (s.1, s.1)
    | _ => s
    end
  else s.
Definition run_chain (c : Chain) (p : packet) (s : Z * Z) : Z * Z :=
  fold_left (step_mark p) (default [] (FilterRules (ch_rules c))) s.

(** The policy rules a packet with a mark selects, and the first ones among them. *)
Definition selects (dst : string → bool) (mark : Z) (r : TRule) : bool :=
  match tl_Dst r with None => true | Some d => dst d end && match tl_FwMark r with None => true | Some m => m =? mark end.
Definition routed_first (dst : string → bool) (mark : Z) (rules : TRule → Prop) (r : TRule) : Prop :=
  rules r ∧ selects dst mark r = true ∧
  ∀ r', rules r' → selects dst mark r' = true → default 0 (tl_Priority r) ≤ default 0 (tl_Priority r').
(** The gateways a route goes by, and a rule that leads to some gateways. *)
Definition hops (rt : Route) : list string := match rt_NextHops rt with [] => option_list (rt_Gw rt) | l => nh_Gw <$> l end.
Definition leads_to (l : list InternalFabric) (r : TRule) : Prop :=
  ∃ rt, tl_Routes r = [mkTRoute rt None] ∧ rt_Dst rt = tl_Dst r ∧ hops rt = if_InterfaceIP <$> l.
Definition mark_of (f : InternalFabric) : Z := default 0 (if_ECMPMark f).

(** ** Marks of connections *)

#[export] Instance InternalFabric_eq_dec : EqDecision InternalFabric.
Proof. solve_decision. Defined.
Definition marked (f : InternalFabric) : Prop := ∃ m, if_ECMPMark f = Some m ∧ 0 ≤ m < 2 ^ 32.
Lemma applies_mark_rule p cidr i f m : applies p (mark_rule cidr i f m) = pk_src p cidr && bool_decide (if_NodeName f = pk_in p).
Proof. unfold applies, satisfies. cbn. by rewrite !andb_true_r. Qed.
Lemma step_mark_rule p cidr i f m s : if_ECMPMark f = Some m → 0 ≤ m < 2 ^ 32 →
  step_mark p s (mark_rule cidr i f m) = if pk_src p cidr && bool_decide (if_NodeName f = pk_in p) then (mark_of f, s.2) else s.
Proof.
  intros Hm Hr. unfold step_mark. rewrite applies_mark_rule. case_match; [|done]. cbn.
  rewrite (Atoi_itoa_signed m Hr). unfold mark_of. by rewrite Hm.
Qed.

Section marking.
Context (g : InternalFabric) (src : string → bool).
(** A packet that came in by the interface of [g]. *)
Notation pk dst := (mkPacket (if_NodeName g) src dst).
Definition own_interface (l : list InternalFabric) : Prop := ∀ h, h ∈ l → if_NodeName h = if_NodeName g → h = g.

Lemma mark_rules_run cidr i l dst s : Forall marked l → own_interface l →
  ∃ rs, mark_rules cidr i l = Ok rs ∧
    fold_left (step_mark (pk dst)) rs s = if src cidr && bool_decide (g ∈ l) then (mark_of g, s.2) else s.
Proof.
  intros Hl. revert i s. induction Hl as [|h l (m & Hm & Hr) Hl IH]; intros i s Hown.
  { exists []. split; [done|]. cbn. by rewrite andb_false_r. }
  cbn [mark_rules]. unfold fabricECMPMark. rewrite Hm.
  destruct (IH (S i) (step_mark (pk dst) s (mark_rule cidr i h m)) ltac:(intros x Hx; apply Hown; by right)) as (rs & -> & Hrun).
  exists (mark_rule cidr i h m :: rs). split; [done|]. cbn [fold_left]. rewrite Hrun, (step_mark_rule _ _ _ _ _ _ Hm Hr). cbn [pk_src pk_in].
  destruct (src cidr); cbn [andb]; [|done].
  destruct (decide (h = g)) as [->|Hne].
  - rewrite (bool_decide_true (if_NodeName g = if_NodeName g)), (bool_decide_true (g ∈ g :: l)) by (try done; by left). by case_bool_decide.
  - rewrite (bool_decide_false (if_NodeName h = if_NodeName g)) by (intros Hx; apply Hne, Hown; [by left|done]).
    by rewrite (bool_decide_ext (g ∈ h :: l) (g ∈ l)) by (rewrite elem_of_cons; naive_solver).
Qed.
Lemma forward_rules_run cidrs l dst s : Forall marked l → own_interface l →
  ∃ rs, forward_rules cidrs l = Ok rs ∧
    fold_left (step_mark (pk dst)) rs s = if existsb src cidrs && bool_decide (g ∈ l) then (mark_of g, s.2) else s.
Proof.
  intros Hl Hown. revert s. induction cidrs as [|c cidrs IH]; intros s; [by exists []|]. cbn [forward_rules].
  destruct (mark_rules_run c 0 l dst s Hl Hown) as (r1 & -> & H1).
  destruct (IH (fold_left (step_mark (pk dst)) r1 s)) as (r2 & -> & H2). exists (r1 ++ r2). split; [done|].
  rewrite fold_left_app, H2, H1. cbn [existsb]. destruct (src c), (existsb src cidrs), (bool_decide _); done.
Qed.
End marking.

Lemma restore_rules_run p cidrs s : fold_left (step_mark p) (restore_rule <$> cidrs) s = if existsb (pk_dst p) cidrs then (s.1, s.1) else s.
Proof.
  revert s. induction cidrs as [|c cidrs IH]; intros s; [done|]. cbn [fmap list_fmap fold_left existsb]. rewrite IH.
  assert (E : step_mark p s (restore_rule c) = if pk_dst p c then (s.1, s.1) else s).
  { unfold step_mark, applies, satisfies. cbn. by destruct (pk_dst p c). }
  rewrite E. destruct (pk_dst p c), (existsb _ _); done.
Qed.
Lemma existsb_sort dst (l : list string) c : c ∈ l → dst c = true → existsb dst (sort_strings l) = true.
Proof. intros Hc Hd. apply existsb_exists. exists c. split; [|done]. by apply list_elem_of_In, elem_of_sort_by. Qed.

(** ** The rules that are chosen *)

Definition low (RulePriority : Z) : Z := if 0 <? RulePriority then RulePriority - 1 else defaultECMPRoutePriority.
Lemma replica_rules_low RulePriority h m r : r ∈ replica_rules RulePriority h m →
  default 0 (tl_Priority r) = low RulePriority ∧ tl_FwMark r = Some m ∧ leads_to [h] r.
Proof. intros (c & -> & _)%list_elem_of_fmap. cbn. unfold low. split; [by destruct (0 <? _)|]. split; [done|]. by eexists. Qed.
Lemma remote_route_hops up c : up ≠ [] → ∃ rt, remote_route up c = Some rt ∧ rt_Dst rt = Some c ∧ hops rt = if_InterfaceIP <$> up.
Proof.
  destruct up as [|h [|h' up]]; [done|by eexists|]. intros _. eexists. split; [reflexivity|]. split; [done|]. cbn. do 2 f_equal.
  rewrite <- list_fmap_compose. by apply list_fmap_ext.
Qed.

(** ** Gateways of one cluster *)

Record gateways (f : InternalFabric) (sib : list InternalFabric) : Prop := {
  gw_several : (2 ≤ List.length sib)%nat;
  gw_once : NoDup sib;
  gw_names h h' : h ∈ sib → h' ∈ sib → if_Name h = if_Name h' → h = h';
  gw_owners h h' : h ∈ sib → h' ∈ sib → gatewayNameFromInternalFabric h = gatewayNameFromInternalFabric h' → h = h';
  gw_marked : Forall marked sib;
  gw_marks h h' : h ∈ sib → h' ∈ sib → mark_of h = mark_of h' → h = h';
  gw_interfaces h h' : h ∈ sib → h' ∈ sib → if_NodeName h = if_NodeName h' → h = h';
  gw_remote h : h ∈ sib → if_RemoteCIDRs h = if_RemoteCIDRs f
}.

(** The rules a reply with the mark of [g] is routed by, when there are the rules of
    the nodes and, of several gateways that work, those of each of them. *)
Section chosen.
Context (RulePriority : Z) (f g : InternalFabric) (sib up : list InternalFabric) (dst : string → bool) (c : string) (rules : TRule → Prop).
Context (Hgw : gateways f sib) (Hup : ∀ h, h ∈ up → h ∈ sib) (Hg : g ∈ sib) (Hc : c ∈ if_RemoteCIDRs f) (Hd : dst c = true).
Context (Hdst : ∀ h, h ∈ sib → dst (cidr32 (if_InterfaceIP h)) = false).
Context (Hrules : ∀ r, rules r ↔ r ∈ node_gw_rules RulePriority f sib up ∨
  ((2 ≤ List.length up)%nat ∧ ∃ h, h ∈ up ∧ r ∈ replica_rules RulePriority h (mark_of h))).
Notation high := (if 0 <? RulePriority then RulePriority else defaultMarkRoutePriority).

Lemma remote_rule_there : up ≠ [] → ∃ r, rules r ∧ selects dst (mark_of g) r = true ∧ default 0 (tl_Priority r) = high.
Proof.
  intros Hne. destruct (remote_route_hops up c Hne) as (rt & Ert & _ & _).
  exists (mkTRule (Some c) None None (Some high) [mkTRoute rt None] None). split; [|by unfold selects; cbn; rewrite Hd].
  apply Hrules. left. apply elem_of_app. right. apply list_elem_of_omap. exists c. split; [by apply elem_of_sort_by|]. by rewrite Ert.
Qed.
Lemma remote_rule_only r : r ∈ node_gw_rules RulePriority f sib up → selects dst (mark_of g) r = true →
  up ≠ [] ∧ leads_to up r ∧ default 0 (tl_Priority r) = high.
Proof.
  intros [(h & -> & Hh)%list_elem_of_fmap|Hr]%elem_of_app Hs; [unfold selects in Hs; cbn in Hs; by rewrite (Hdst h Hh) in Hs|].
  apply list_elem_of_omap in Hr as (c' & _ & Hr). assert (Hne : up ≠ []) by (intros ->; done).
  destruct (remote_route_hops up c' Hne) as (rt & Ert & Hrd & Hh). rewrite Ert in Hr. injection Hr as <-. split; [done|]. split; [by exists rt|done].
Qed.
Lemma replica_rule_only h r : h ∈ up → r ∈ replica_rules RulePriority h (mark_of h) → selects dst (mark_of g) r = true → h = g.
Proof.
  intros Hh Hr Hs. destruct (replica_rules_low _ _ _ _ Hr) as (_ & Hm & _). unfold selects in Hs. rewrite Hm in Hs.
  apply andb_true_iff in Hs as [_ Hs%Z.eqb_eq]. by apply (gw_marks _ _ Hgw h g (Hup _ Hh) Hg).
Qed.
Lemma chosen_rules : ((∃ r, routed_first dst (mark_of g) rules r) ↔ up ≠ []) ∧
  ∀ r, routed_first dst (mark_of g) rules r → leads_to (if bool_decide (g ∈ up) then [g] else up) r.
Proof.
  assert (Hlow : low RulePriority < high) by (unfold low, defaultECMPRoutePriority, defaultMarkRoutePriority; destruct (0 <? RulePriority); lia).
  assert (Hall : ∀ r, rules r → selects dst (mark_of g) r = true → up ≠ [] ∧
    (((g ∉ up ∨ List.length up < 2)%nat ∧ leads_to up r ∧ default 0 (tl_Priority r) = high) ∨
     (g ∈ up ∧ (2 ≤ List.length up)%nat ∧ (leads_to [g] r ∧ default 0 (tl_Priority r) = low RulePriority ∨ default 0 (tl_Priority r) = high)))).
  { intros r [Hr|(Hlen & h & Hh & Hr)]%Hrules Hs.
    - destruct (remote_rule_only r Hr Hs) as (Hne & Hle & Hp). split; [done|]. destruct (decide (g ∈ up)); [|left; auto].
      destruct (decide (2 ≤ List.length up)%nat); [right; auto|left; split; [right; lia|done]].
    - assert (h = g) as -> by (by eapply replica_rule_only). split; [by intros ->; apply elem_of_nil in Hh|]. right. split; [done|]. split; [done|]. left.
      destruct (replica_rules_low _ _ _ _ Hr) as (Hp & _ & Hle). done. }
  assert (Hrep : g ∈ up → (2 ≤ List.length up)%nat → ∃ r, rules r ∧ selects dst (mark_of g) r = true ∧ default 0 (tl_Priority r) = low RulePriority).
  { intros Hgu Hlen.
    assert (∃ r, r ∈ replica_rules RulePriority g (mark_of g) ∧ selects dst (mark_of g) r = true) as (r & Hr & Hs).
    { eexists. split; [apply list_elem_of_fmap; exists c; split; [done|]|].
      - apply elem_of_sort_by. by rewrite (gw_remote _ _ Hgw g).
      - unfold selects. cbn. by rewrite Hd, Z.eqb_refl. }
    exists r. split; [apply Hrules; right; split; [done|]; by exists g|]. split; [done|]. by destruct (replica_rules_low _ _ _ _ Hr). }
  split; [split|].
  - intros (r & Hr & Hs & _). by destruct (Hall r Hr Hs).
  - intros Hne. destruct (decide (g ∈ up ∧ (2 ≤ List.length up)%nat)) as [[Hgu Hlen]|Hno].
    + destruct (Hrep Hgu Hlen) as (r & Hr & Hs & Hp). exists r. split; [done|]. split; [done|]. intros r' Hr' Hs'. rewrite Hp.
      destruct (Hall r' Hr' Hs') as [_ [(_ & _ & ->)|(_ & _ & [[_ ->]| ->])]]; lia.
    + destruct (remote_rule_there Hne) as (r & Hr & Hs & Hp). exists r. split; [done|]. split; [done|]. intros r' Hr' Hs'. rewrite Hp.
      destruct (Hall r' Hr' Hs') as [_ [(_ & _ & ->)|(? & ? & _)]]; [lia|by destruct Hno].
  - intros r (Hr & Hs & Hmin). destruct (Hall r Hr Hs) as [Hne [([Hn|Hlen] & Hle & _)|(Hgu & Hlen & Hle)]].
    + by rewrite bool_decide_eq_false_2.
    + case_bool_decide as Hgu; [|done]. destruct up as [|h [|]]; [done| |cbn in Hlen; lia]. by apply list_elem_of_singleton in Hgu as ->.
    + rewrite bool_decide_eq_true_2 by done. destruct Hle as [[Hle _]|Hp]; [done|]. destruct (Hrep Hgu Hlen) as (r' & Hr' & Hs' & Hp').
      specialize (Hmin r' Hr' Hs'). lia.
Qed.
End chosen.

(** What the chains do to a packet from a network of the remote cluster and to a reply. *)
Lemma ecmp_chains f sib g src c : gateways f sib → g ∈ sib → c ∈ if_RemoteCIDRs f → src c = true →
  ∃ fwd pre, forgeFirewallChains f sib = Ok [fwd; pre] ∧ ch_hook fwd = Some ChainHookForward ∧ ch_hook pre = Some ChainHookPrerouting ∧
    (∀ dst ct meta, run_chain fwd (mkPacket (if_NodeName g) src dst) (ct, meta) = (mark_of g, meta)) ∧
    (∀ dev src' ct meta, run_chain pre (mkPacket dev src' src) (ct, meta) = (ct, ct)).
Proof.
  intros Hgw Hg Hc Hs. pose proof (existsb_sort src _ _ Hc Hs) as Hex.
  assert (Hown : own_interface g sib) by (intros h Hh E; by apply (gw_interfaces _ _ Hgw)).
  destruct (forward_rules_run g src (sort_strings (if_RemoteCIDRs f)) sib (fun _ => false) (0, 0) (gw_marked _ _ Hgw) Hown) as (rs & Ers & _).
  unfold forgeFirewallChains. pose proof (gw_several _ _ Hgw). destruct (Nat.leb_spec (List.length sib) 1); [lia|].
  destruct (Nat.eqb_spec (List.length (sort_strings (if_RemoteCIDRs f))) 0) as [E0|_].
  { apply nil_length_inv in E0. by rewrite E0 in Hex. }
  rewrite Ers. do 2 eexists. split; [done|]. split; [done|]. split; [done|]. split.
  - intros dst ct meta. unfold run_chain. cbn [ecmp_chain ch_rules FilterRules default from_option id].
    destruct (forward_rules_run g src (sort_strings (if_RemoteCIDRs f)) sib dst (ct, meta) (gw_marked _ _ Hgw) Hown) as (rs' & Ers' & Hrun).
    assert (rs' = rs) as -> by congruence. by rewrite Hrun, Hex, bool_decide_true.
  - intros dev src' ct meta. unfold run_chain. cbn [ecmp_chain ch_rules FilterRules default from_option id]. rewrite restore_rules_run. cbn [pk_dst]. by rewrite Hex.
Qed.

(** ** The controller against a server that answers *)

Section world.
Context {Api : KubeApi inet} {R : Responsive inet} `{OR : OwnerRefs} {CU : CreateOrUpdater inet}.
Context (lists : string → string → labels → server → list (string * Obj inet)) (order : list string)
  (kinds : string → option (string * string)) (globalLabels globalAnnotations : labels) (RulePriority : Z).
Context (Hkind1 : is_Some (kinds routeconfigurations)) (Hkind2 : is_Some (kinds firewallconfigurations)) (Hkind3 : is_Some (kinds genevetunnels)).
Context (Howner : ∀ uid l, is_ok (SetOwnerReference uid l) = true).

Notation world := (pworld inet fstate).
Notation "w ⋅ k" := (content (pw_server w) !! k) (at level 20, k at next level).
Abbreviation start := (mkFstate None None).
Abbreviation cl := (plain_client lists).
Abbreviation proc := (InternalNet.proc start).

(** The other resources: fabrics, nodes, connections, pods of gateways. *)
Context (fabrics : list InternalFabric) (nodes : list string)
  (connections : string → string → option ConnectionStatusValue) (pods : string → string → list GwPod).
Definition selected (sel : option (string * labels)) : list InternalFabric :=
  match sel with
  | None => fabrics
  | Some (ns, ls) => List.filter (fun f => bool_decide (if_Namespace f = ns) && bool_decide (ls ⊆ if_Labels f)) fabrics
  end.
Abbreviation reconcile := (FabricReconcile cl order kinds globalLabels globalAnnotations RulePriority proc set_proc
  (fun sel => mret (selected sel)) (mret nodes) (fun ns n => answer (connections ns n)) (fun ns gw => mret (pods ns gw))
  (fun _ => mret ()) (fun _ => mret ())).

(** A gateway works when its tunnel is up and one of its pods runs. *)
Definition works (ns : string) (f : InternalFabric) : bool :=
  match connections ns (GatewayResourceName (gatewayNameFromInternalFabric f)) with
  | Some v => bool_decide (v = Connected) && existsb pod_ready (pods (if_Namespace f) (gatewayNameFromInternalFabric f))
  | None => false
  end.
Definition siblings_of (f : InternalFabric) (id : string) : list InternalFabric :=
  sort_by gatewayNameFromInternalFabric (List.filter usable_sibling (selected (Some (if_Namespace f, {[ RemoteClusterID := id ]})))).
Definition working (f : InternalFabric) (l : list InternalFabric) : list InternalFabric := List.filter (works (if_Namespace f)) l.
Definition among (f : InternalFabric) (l : list InternalFabric) : bool := existsb (fun g => bool_decide (if_Name g = if_Name f)) l.

Lemma connected_loop_spec f l (w : world) :
  connected_loop (fun ns n => answer (connections ns n)) (fun ns gw => mret (pods ns gw)) f l w =
  Ret (w, Ok (working f l, among f (working f l))).
Proof.
  induction l as [|g l IH]; [done|]. cbn [connected_loop]. erewrite K_bind_ok; [|by apply attempt_ok].
  unfold working. cbn [List.filter]. fold (working f l).
  assert (E : works (if_Namespace f) g = match connections (if_Namespace f) (GatewayResourceName (gatewayNameFromInternalFabric g)) with
    | Some v => bool_decide (v = Connected) && existsb pod_ready (pods (if_Namespace g) (gatewayNameFromInternalFabric g)) | None => false end) by done.
  rewrite E. destruct (connections _ _) as [v|]; cbn beta iota; [|exact IH].
  case_bool_decide as Hv; cbn [negb andb]; [|exact IH].
  erewrite K_bind_ok by reflexivity. destruct (existsb pod_ready _); [|exact IH]. by rewrite (K_bind_ok _ _ _ _ _ IH).
Qed.

(** *** Tunnels

    Every live tunnel is recorded under its key, so that no two have the same
    identifier. *)
Record tidy (w : world) (m : IdManager.Manager) : Prop := {
  td_manager : geneveTunnelManager (proc w) = Some m;
  td_ids : IdManager.id_ok m;
  td_tunnels ns name o ow id node fab : lacks "/" ns → w ⋅ (genevetunnels, ns, name) = Some o → o_deleting o = false →
    o_spec o = AMap (PTunnel ow id node fab) → IdManager.allocated m !! object_key ns name = Some id
}.
Definition quiet (w w' : world) : Prop := ∀ k, k.1.1 ≠ genevetunnels → w' ⋅ k = w ⋅ k.
Definition calm {A} (c : K world A) : Prop := ∀ w m, tidy w m → ∃ w' m' r, c w = Ret (w', r) ∧ tidy w' m' ∧ quiet w w'.

Lemma calm_mret {A} (a : A) : calm (mret a).
Proof. intros w m H. by exists w, m, (Ok a). Qed.
Lemma calm_fail {A} e : calm (fail e : K world A).
Proof. intros w m H. by exists w, m, (Err e). Qed.
Lemma calm_bind {A B} (c : K world A) (k : A → K world B) : calm c → (∀ a, calm (k a)) → calm (c ≫= k).
Proof.
  intros Hc Hk w m H. destruct (Hc w m H) as (w1 & m1 & [a|e] & E & H1 & Q1).
  - destruct (Hk a w1 m1 H1) as (w2 & m2 & r & E2 & H2 & Q2). exists w2, m2, r. rewrite (K_bind_ok _ _ _ _ _ E).
    split; [done|]. split; [done|]. intros k' Hk'. by rewrite Q2, Q1.
  - exists w1, m1, (Err e). by rewrite (K_bind_err _ _ _ _ _ E).
Qed.
Lemma calm_attempt {A} (c : K world A) : calm c → calm (attempt c).
Proof. intros Hc w m H. destruct (Hc w m H) as (w1 & m1 & r & E & H1 & Q1). exists w1, m1, (Ok r). by rewrite (attempt_ok _ _ _ _ E). Qed.

Lemma object_key_inj ns ns' n n' : lacks "/" ns → lacks "/" ns' → object_key ns n = object_key ns' n' → ns = ns' ∧ n = n'.
Proof.
  unfold object_key. revert ns'. induction ns as [|c ns IH]; intros [|c' ns'] H1 H2; cbn.
  - intros H. injection H as H. by subst.
  - intros [= <- _]. by apply FirewallSem.lacks_cons in H2 as [[] _].
  - intros [= -> _]. by apply FirewallSem.lacks_cons in H1 as [[] _].
  - intros [= <- H]. apply FirewallSem.lacks_cons in H1 as [_ H1], H2 as [_ H2]. destruct (IH ns' H1 H2 H) as [-> ->]. done.
Qed.
Lemma tidy_set w m m' : tidy w m → IdManager.id_ok m' →
  (∀ key id, IdManager.allocated m !! key = Some id → IdManager.allocated m' !! key = Some id) →
  tidy (set_proc (set_geneve (proc w) m') w) m'.
Proof. intros [_ _ Ht] Hok Hsub. split; [by rewrite proc_set|done|]. intros * Hns Ho Hd Hsp. by eapply Hsub, Ht. Qed.

Lemma allocate_tunnel_calm key w m : tidy w m → ∃ w' m' r, allocate_tunnel cl proc set_proc key w = Ret (w', r) ∧ tidy w' m' ∧ pw_server w' = pw_server w ∧
  match r with Ok id => IdManager.allocated m' !! key = Some id | Err _ => True end.
Proof.
  intros H. pose proof H as [Hm Hok _]. destruct (IdManager.Allocate_spec m key Hok) as [Hok' Hpost].
  unfold allocate_tunnel. erewrite K_bind_ok by (unfold geneve_manager; erewrite K_bind_ok by reflexivity; by rewrite Hm).
  destruct (IdManager.Allocate m key) as [r m'] eqn:E. cbn [fst snd] in *.
  erewrite K_bind_ok by reflexivity. erewrite K_bind_ok by reflexivity.
  exists (set_proc (set_geneve (proc w) m') w), m', (match r with Ok a => Ok a | Err _ => Err OtherErr end).
  split; [by destruct r|]. split; [|split; [done|]].
  - apply (tidy_set w m); [done|done|]. intros k' id' Hk'. destruct r as [id|]; [|by destruct Hpost as [-> _]].
    destruct Hpost as [[_ ->]|(Hn & _ & _ & -> & _)]; [done|]. rewrite lookup_insert_ne; [done|]. congruence.
  - destruct r as [id|]; [|done]. destruct Hpost as [[? ->]|(_ & _ & _ & -> & _)]; [done|]. by rewrite lookup_insert_eq.
Qed.

(** A tunnel that is written with the identifier recorded for it. *)
Lemma tidy_write (w : world) m s ns name o : tidy w m → content s = store_obj (genevetunnels, ns, name) o (content (pw_server w)) →
  (∀ ow id node fab, lacks "/" ns → o_spec o = AMap (PTunnel ow id node fab) → o_deleting o = false → IdManager.allocated m !! object_key ns name = Some id) →
  tidy (mkPworld s (pw_log w)) m ∧ quiet w (mkPworld s (pw_log w)).
Proof.
  intros [Hm Hok Ht] Hst Ho. split.
  - split; [done|done|]. intros ns' name' o' ow id node fab Hns Ho' Hd Hsp. cbn [pw_server] in Ho'. rewrite Hst in Ho'. unfold store_obj in Ho'.
    destruct (decide ((genevetunnels, ns', name') = (genevetunnels, ns, name))) as [[= -> ->]|Hne].
    + case_match; [by rewrite lookup_delete_eq in Ho'|]. rewrite lookup_insert_eq in Ho'. injection Ho' as <-. by eapply Ho.
    + eapply Ht; [done| |done|done]. case_match; [rewrite lookup_delete_ne in Ho' by done|rewrite lookup_insert_ne in Ho' by done]; exact Ho'.
  - intros k Hk. cbn [pw_server]. rewrite Hst. unfold store_obj. assert ((genevetunnels, ns, name) ≠ k) by (intros <-; done).
    case_match; [by rewrite lookup_delete_ne|by rewrite lookup_insert_ne].
Qed.

Abbreviation mutate f node := (fun o => o ← mutateGeneveTunnel cl proc set_proc f node o; own_tunnel f o).
Lemma mutate_calm f node o w m : tidy w m → ∃ w' m' r, wrappedK order kinds globalLabels globalAnnotations (tunnel_key f (geneveTunnelName f node)) (mutate f node) o w = Ret (w', r) ∧
  tidy w' m' ∧ pw_server w' = pw_server w ∧
  match r with
  | Ok o1 => ∃ ow id fab, o_spec o1 = AMap (PTunnel ow id node fab) ∧ IdManager.allocated m' !! object_key (if_Namespace f) (geneveTunnelName f node) = Some id
  | Err _ => True
  end.
Proof.
  intros H. destruct (allocate_tunnel_calm (object_key (if_Namespace f) (geneveTunnelName f node)) w m H) as (w1 & m1 & r & E & H1 & Es & Hr).
  unfold wrappedK, mutateGeneveTunnel. destruct r as [id|e].
  - unfold mbind, K_bind. rewrite E. cbn [own_tunnel set_obj o_spec mret K_ret]. unfold own_tunnel. cbn [set_obj o_spec].
    destruct (SetControllerReference (if_UID f) (tunnel_owners o)) as [ow|e]; [|by exists w1, m1, (Err e)].
    cbn. unfold wrapped, buildVariablesMap, lift_outcome. cbn. destruct Hkind3 as [gk Hgk]. rewrite Hgk. cbn.
    eexists _, m1, _. split; [done|]. split; [done|]. split; [done|]. by eexists _, _, _.
  - exists w1, m1, (Err e). split; [apply K_bind_err, K_bind_err, K_bind_err, E|done].
Qed.
Lemma ensure_one_calm f node : calm (CreateOrUpdateK order kinds globalLabels globalAnnotations cl (tunnel_key f (geneveTunnelName f node)) (mutate f node)).
Proof.
  intros w m H. unfold CreateOrUpdateK. set (k := tunnel_key f (geneveTunnelName f node)).
  assert (Hstep : ∀ o (call : Obj inet → K world (Obj inet)),
    (∀ o1 w1, ∃ w2 r2, call o1 w1 = Ret (w2, r2) ∧ pw_log w2 = pw_log w1 ∧
      (content (pw_server w2) = content (pw_server w1) ∨ ∃ o2, content (pw_server w2) = store_obj k o2 (content (pw_server w1)) ∧ o_spec o2 = o_spec o1)) →
    ∃ w' m' r, (o1 ← wrappedK order kinds globalLabels globalAnnotations k (mutate f node) o; call o1) w = Ret (w', r) ∧ tidy w' m' ∧ quiet w w').
  { intros o call Hcall. destruct (mutate_calm f node o w m H) as (w1 & m1 & r & E & H1 & Es & Hr). fold k in E. destruct r as [o1|e].
    2: { exists w1, m1, (Err e). rewrite (K_bind_err _ _ _ _ _ E). split; [done|]. split; [done|]. intros k' _. by rewrite Es. }
    rewrite (K_bind_ok _ _ _ _ _ E). destruct (Hcall o1 w1) as ([s2 l2] & r2 & E2 & Hl & Hc). cbn in Hl, Hc. subst l2. destruct Hr as (ow & id & fab & Hsp & Hal).
    exists (mkPworld s2 (pw_log w1)), m1, r2. split; [done|]. destruct Hc as [Hc|(o2 & Hc & Hsp2)].
    - destruct H1 as [Hm Hok Ht]. split; [|intros k' _; cbn; by rewrite Hc, Es]. split; [done|done|]. cbn. rewrite Hc. exact Ht.
    - destruct (tidy_write w1 m1 s2 (if_Namespace f) (geneveTunnelName f node) o2 H1 Hc) as [? Q].
      { intros ow' id' node' fab' _ Hx _. rewrite Hsp2, Hsp in Hx. by injection Hx as <- <- <- <-. }
      split; [done|]. intros k' Hk'. rewrite Q by done. by rewrite Es. }
  destruct (w ⋅ k) as [o|] eqn:Hk.
  - erewrite couK_found by (cbn; unfold plain_get; by rewrite Hk). apply Hstep. intros o1 w1. case_decide as Hd.
    { exists w1, (Ok o). split; [done|]. split; [done|]. by left. }
    cbn. unfold on_pserver. destruct (Update k o1 (pw_server w1)) as [s2 r2] eqn:E. eexists _, r2. split; [done|]. split; [done|]. cbn.
    destruct r2 as [o2|e]; [apply Update_ok in E as (? & _ & _ & E & _ & Hsp & _); right; by exists o2|].
    apply Update_err in E as [E|(o2 & ? & _ & _ & E & _ & Hsp & _)]; [by left|right; by exists o2].
  - erewrite couK_missing by (cbn; unfold plain_get; by rewrite Hk). apply Hstep. intros o1 w1.
    cbn. unfold on_pserver. destruct (Create k o1 (pw_server w1)) as [s2 r2] eqn:E. eexists _, r2. split; [done|]. split; [done|]. cbn.
    assert (Hc : ∀ o2, create_eff k o1 (content (pw_server w1)) o2 (content s2) → ∃ o2, content s2 = store_obj k o2 (content (pw_server w1)) ∧ o_spec o2 = o_spec o1).
    { intros o2 (_ & E' & _ & Hsp & _ & Hd). exists o2. split; [|done]. rewrite store_obj_lives; [done|]. intros Hx. congruence. }
    destruct r2 as [o2|e]; [right; by eapply Hc, Create_ok|].
    apply Create_err in E as [E|(o2 & E)]; [by left|right; by eapply Hc].
Qed.
Lemma ensure_tunnels_calm f l : calm (ensure_tunnels cl order kinds globalLabels globalAnnotations proc set_proc f l).
Proof. induction l as [|n l IH]; cbn [ensure_tunnels]; [apply calm_mret|]. apply calm_bind; [apply ensure_one_calm|done]. Qed.

Lemma allocated_release m key key' : key' ≠ key → IdManager.allocated (IdManager.Release m key) !! key' = IdManager.allocated m !! key'.
Proof. intros Hne. unfold IdManager.Release. destruct (IdManager.allocated m !! key); [|done]. cbn. by rewrite lookup_delete_ne. Qed.
(** What is left when the tunnel under a released key has gone. *)
Lemma tidy_gone (w : world) m s ns name : tidy w m → lacks "/" ns →
  (∀ o, content s !! (genevetunnels, ns, name) = Some o → o_deleting o = true) → (∀ k, k ≠ (genevetunnels, ns, name) → content s !! k = w ⋅ k) →
  let m' := IdManager.Release m (object_key ns name) in let w' := mkPworld s (pw_log w ++ [set_geneve (proc w) m']) in tidy w' m' ∧ quiet w w'.
Proof.
  intros [Hm Hok Ht] Hns Hgone Hfr m' w'. split.
  - split; [unfold w', InternalNet.proc; cbn [pw_log]; by rewrite last_snoc|by apply IdManager.Release_ok|].
    intros ns' name' o ow id node fab Hns' Ho Hd Hsp. cbn [pw_server w'] in Ho.
    destruct (decide ((genevetunnels, ns', name') = (genevetunnels, ns, name))) as [[= -> ->]|Hne]; [by rewrite (Hgone _ Ho) in Hd|].
    rewrite Hfr in Ho by done. unfold m'. rewrite allocated_release; [by eapply Ht|].
    intros E. by destruct (object_key_inj _ _ _ _ Hns' Hns E) as [-> ->].
  - intros k Hk. cbn. apply Hfr. by intros ->.
Qed.
Lemma delete_tunnel_calm f name : lacks "/" (if_Namespace f) → calm (delete_tunnel cl proc set_proc f name).
Proof.
  intros Hns w m H. pose proof H as [Hm _ _]. unfold delete_tunnel.
  set (m' := IdManager.Release m (object_key (if_Namespace f) name)). set (w1 := set_proc (set_geneve (proc w) m') w).
  erewrite (K_bind_ok _ _ w w1) by (unfold release_tunnel; erewrite K_bind_ok by (unfold geneve_manager; erewrite K_bind_ok by reflexivity; by rewrite Hm); by erewrite K_bind_ok by reflexivity).
  unfold delete_ignoring, tunnel_key. set (k := (genevetunnels, if_Namespace f, name)).
  destruct (w ⋅ k) as [o|] eqn:Hk.
  - destruct (delete_stores lists k w1 o Hk) as ([s2 l2] & E & [Hl Ho] & Hdel). cbn in Hl. subst l2. erewrite K_bind_ok; [|by apply attempt_ok].
    destruct (tidy_gone w m s2 (if_Namespace f) name H Hns) as [? ?]; [intros o' Ho'; by apply Hdel|intros k' Hk'; by apply Ho|].
    by eexists _, _, _.
  - pose proof (Delete_misses k (pw_server w1) Hk) as Hmiss. destruct (Kube.Delete k (pw_server w1)) as [s2 r] eqn:E. cbn in Hmiss. subst r.
    destruct (Delete_gone _ _ _ E) as [_ Hc].
    erewrite K_bind_ok; [|apply attempt_ok; cbn; unfold on_pserver; by rewrite E].
    destruct (tidy_gone w m s2 (if_Namespace f) name H Hns) as [? ?].
    + intros o'. rewrite Hc. cbn. fold k. by rewrite Hk.
    + intros k' _. by rewrite Hc.
    + by eexists _, _, _.
Qed.
Lemma cleanup_loop_calm f l ts : lacks "/" (if_Namespace f) → calm (cleanup_loop cl proc set_proc f l ts).
Proof.
  intros Hns. induction ts as [|[name o] ts IH]; cbn [cleanup_loop]; [apply calm_mret|]. apply calm_bind; [|done].
  case_match; [apply calm_mret|by apply delete_tunnel_calm].
Qed.
Lemma delete_loop_calm f ts : lacks "/" (if_Namespace f) → calm (delete_loop cl proc set_proc f ts).
Proof.
  intros Hns. induction ts as [|[name o] ts IH]; cbn [delete_loop]; [apply calm_mret|]. apply calm_bind; [by apply delete_tunnel_calm|done].
Qed.
Lemma list_tunnels_calm f : calm (list_tunnels cl f).
Proof. intros w m H. eexists w, m, _. split; [reflexivity|]. done. Qed.

(** *** Routes and marks *)

(** Objects other than tunnels are not about to go by themselves. *)
Definition settled_objects (w : world) : Prop := ∀ k o, k.1.1 ≠ genevetunnels → w ⋅ k = Some o → lives o.
Definition staying (w : world) (k : okey) : Prop := ∀ o, w ⋅ k = Some o → o_deleting o = false.
(** The object has the rules, and is being deleted only when it was before. *)
Definition publishes (w w' : world) (k : okey) (rules : list TRule) : Prop :=
  ∃ o, w' ⋅ k = Some o ∧ rc_rules o = rules ∧ (staying w k → o_deleting o = false).
Lemma settled_only k (w w' : world) o : only k w w' → w' ⋅ k = Some o → lives o → settled_objects w → settled_objects w'.
Proof.
  intros [_ Hf] Ho Hlo Hl k' o' Hk' Ho'. destruct (decide (k' = k)) as [->|Hne]; [by assert (o' = o) as -> by congruence|].
  rewrite Hf in Ho' by done. by eapply Hl.
Qed.
Lemma cou_staying k f (w w' : world) o o' : CreateOrUpdate order kinds globalLabels globalAnnotations cl k f w = Ret (w', Ok o) → w' ⋅ k = Some o' →
  staying w k → o_deleting o' = false.
Proof.
  rewrite plain_cou_eq. destruct (w ⋅ k) as [cur|] eqn:Hk; (intros [(o1 & w1 & [-> _]%lift_outcome_ret & Hrun)|(e & _ & ?)]%K_bind_inv Ho Hst; [|done]).
  - revert Hrun. case_decide; [intros [= <- <-]; by apply Hst|]. intros [Hrun _]%on_pserver_inv.
    apply Update_ok in Hrun as (cur' & Hc & _ & E & _ & _ & _ & Hd). rewrite Hk in Hc. injection Hc as <-. rewrite E in Ho. unfold store_obj in Ho.
    rewrite Hd, (Hst cur Hk) in Ho. cbn in Ho. rewrite lookup_insert_eq in Ho. injection Ho as <-. by rewrite Hd, (Hst cur Hk).
  - revert Hrun. intros [Hrun _]%on_pserver_inv. apply Create_ok in Hrun as (_ & E & _ & _ & _ & Hd). rewrite E, lookup_insert_eq in Ho. by injection Ho as <-.
Qed.
Lemma get_and_delete_spec k (w : world) : settled_objects w → ∃ w', get_and_delete cl k w = Ret (w', Ok ()) ∧ only k w w' ∧ leaving w' k ∧ settled_objects w'.
Proof.
  intros Hl. unfold get_and_delete. erewrite K_bind_ok; [|by apply attempt_ok]. destruct (w ⋅ k) as [o|] eqn:Hk.
  - destruct (delete_stores lists k w o Hk) as (w2 & E & Ho & Hdel). exists w2. unfold delete_ignoring.
    erewrite K_bind_ok; [|by apply attempt_ok]. split; [done|]. split; [done|]. split; [intros o' Ho'; by apply Hdel|].
    intros k' o' Hk' Ho'. destruct (decide (k' = k)) as [->|Hne]; [by apply Hdel|]. destruct Ho as [_ Hf]. rewrite Hf in Ho' by done. by eapply Hl.
  - exists w. split; [done|]. split; [done|]. split; [by intros o'; rewrite Hk|done].
Qed.
Lemma routes_written k f lb name rules uid (set_owner : string → list OwnerRef → result kerr (list OwnerRef)) (w : world) : k.1.1 = routeconfigurations → settled_objects w →
  is_ok (set_owner uid (rc_owners (default blank (w ⋅ k)))) = true →
  (∀ o, f o = match set_owner uid (rc_owners o) with Err e => Ret (Err e) | Ok ow => Ret (Ok (set_obj o (lb o) (PRoutes ow name rules))) end) →
  ∃ w' o, CreateOrUpdate order kinds globalLabels globalAnnotations cl k f w = Ret (w', Ok o) ∧ only k w w' ∧ publishes w w' k rules ∧ settled_objects w'.
Proof.
  intros Hk Hlive How Hf. destruct (set_owner uid (rc_owners (default blank (w ⋅ k)))) as [ow|] eqn:Eow; [|done].
  destruct (cou_stores lists order kinds globalLabels globalAnnotations k f w (lb (default blank (w ⋅ k))) (PRoutes ow name rules)) as (w' & o & E & Ho & Hw & Hl & Hsp).
  - by rewrite Hk.
  - intros o. apply (Hlive k). by rewrite Hk.
  - by rewrite Hf, Eow.
  - exists w', o. split; [done|]. split; [done|]. split; [|by eapply settled_only]. exists o. split; [done|]. split; [unfold rc_rules, rc_of; by rewrite Hsp|]. by eapply cou_staying.
Qed.
Lemma firewall_written f id sib chains (w : world) : named_remote f = Some id → settled_objects w → (2 ≤ List.length sib)%nat → forgeFirewallChains f sib = Ok chains →
  ∃ w', ensureFirewallConfiguration cl order kinds globalLabels globalAnnotations f sib w = Ret (w', Ok ()) ∧ only (fabric_fw_key f id) w w' ∧ settled_objects w' ∧
    ∃ o, w' ⋅ fabric_fw_key f id = Some o ∧ tb_chains (ifw_of o).2 = chains ∧ (staying w (fabric_fw_key f id) → o_deleting o = false).
Proof.
  intros Hid Hlive Hlen Hch. unfold ensureFirewallConfiguration. rewrite Hid. destruct (Nat.ltb_spec (List.length sib) 2); [lia|].
  set (k := fabric_fw_key f id). match goal with |- context [CreateOrUpdate _ _ _ _ _ k ?g] => set (F := g) end.
  pose proof (Howner (if_UID f) (ifw_of (default blank (w ⋅ k))).1) as How. destruct (SetOwnerReference _ _) as [ow|] eqn:Eow; [|done].
  destruct (cou_stores lists order kinds globalLabels globalAnnotations k F w (fabric_ForgeFirewallTargetLabels ∪ o_labels (default blank (w ⋅ k)))
    (PFw ow (Firewall.mkTable (Some (generateFirewallConfigurationName id)) chains (Some TableFamilyIPv4)))) as (w' & o & E & Ho & Hw & Hl & Hsp).
  - done.
  - intros o. by apply (Hlive k).
  - unfold F. by rewrite Hch, Eow.
  - exists w'. rewrite (K_bind_ok _ _ _ _ _ E). split; [done|]. split; [done|]. split; [by eapply settled_only|]. exists o. split; [done|]. split; [unfold ifw_of; by rewrite Hsp|]. by eapply cou_staying.
Qed.

Definition tunnels_distinct (w : world) : Prop := ∀ ns ns' name name' o o' ow ow' id node node' fab fab', lacks "/" ns → lacks "/" ns' →
  w ⋅ (genevetunnels, ns, name) = Some o → o_deleting o = false → o_spec o = AMap (PTunnel ow id node fab) →
  w ⋅ (genevetunnels, ns', name') = Some o' → o_deleting o' = false → o_spec o' = AMap (PTunnel ow' id node' fab') → ns = ns' ∧ name = name'.
Lemma tidy_distinct w m : tidy w m → tunnels_distinct w.
Proof.
  intros [_ Hok Ht] ns ns' name name' o o' ow ow' id node node' fab fab' Hns Hns' Ho Hd Hsp Ho' Hd' Hsp'.
  pose proof (Ht _ _ _ _ _ _ _ Hns Ho Hd Hsp) as H1%(IdManager.id_inverse _ Hok). pose proof (Ht _ _ _ _ _ _ _ Hns' Ho' Hd' Hsp') as H2%(IdManager.id_inverse _ Hok).
  apply object_key_inj; [done|done|congruence].
Qed.

Record ready (f : InternalFabric) (id : string) : Prop := {
  rd_live : if_Deleting f = false;
  rd_mark : marked f;
  rd_label : if_Labels f !! RemoteClusterID = Some id;
  rd_id : id ≠ ""%string;
  rd_node : if_NodeName f ≠ ""%string;
  rd_owner : is_Some (if_Controller f);
  rd_namespace : lacks "/" (if_Namespace f)
}.
Lemma tidy_only k (w w' : world) m : k.1.1 ≠ genevetunnels → only k w w' → tidy w m → tidy w' m.
Proof.
  intros Hk [Hl Hf] [Hm Hok Ht]. split; [by unfold InternalNet.proc; rewrite Hl|done|]. intros ns name o ow i node fab Hns. rewrite Hf by (by intros <-). by apply Ht.
Qed.
Lemma forge_chains_ok f sib : Forall marked sib → ∃ chains, forgeFirewallChains f sib = Ok chains.
Proof.
  intros Hm. unfold forgeFirewallChains. case_match; [by eexists|]. case_match; [by eexists|].
  assert (∀ cidrs, ∃ rs, forward_rules cidrs sib = Ok rs) as Hf.
  { assert (∀ c i, ∃ rs, mark_rules c i sib = Ok rs) as Hr.
    { clear -Hm. intros c. induction Hm as [|h l (m & E & _) _ IH]; intros i; cbn; [by eexists|]. unfold fabricECMPMark. rewrite E. destruct (IH (S i)) as [rs ->]. by eexists. }
    induction cidrs as [|c cidrs [rs IH]]; cbn; [by eexists|]. destruct (Hr c 0%nat) as [rs' ->]. rewrite IH. by eexists. }
  destruct (Hf (sort_strings (if_RemoteCIDRs f))) as [rs ->]. by eexists.
Qed.
Lemma replica_stage f id (connected : list InternalFabric) (current : bool) (w : world) : ready f id → settled_objects w →
  is_ok (SetControllerReference (if_UID f) (rc_owners (default blank (w ⋅ replica_key f id)))) = true →
  let several := (1 <? List.length connected)%nat && current in
  ∃ w', (if several then ensurePerGatewayReturnRouteConfiguration cl order kinds globalLabels globalAnnotations RulePriority f
         else cleanupPerGatewayReturnRouteConfiguration cl f) w = Ret (w', Ok ()) ∧ only (replica_key f id) w w' ∧ settled_objects w' ∧
    if several then publishes w w' (replica_key f id) (replica_rules RulePriority f (mark_of f)) else leaving w' (replica_key f id).
Proof.
  intros Hrd Hlive How several. destruct (rd_mark _ _ Hrd) as (mark & Em & _). destruct several.
  - unfold ensurePerGatewayReturnRouteConfiguration, fabricECMPMark, mark_of. rewrite (rd_label _ _ Hrd), Em.
    edestruct (routes_written (replica_key f id)) as (w' & o & E & Ho & Hp & Hl); [done|exact Hlive|exact How| |].
    2: { exists w'. rewrite (K_bind_ok _ _ _ _ _ E). split; [done|]. split; [done|]. split; [done|exact Hp]. }
    intros o. cbn beta. reflexivity.
  - unfold cleanupPerGatewayReturnRouteConfiguration. rewrite (rd_label _ _ Hrd).
    destruct (get_and_delete_spec (replica_key f id) w Hlive) as (w' & E & Ho & Hlv & Hl). by exists w'.
Qed.
Lemma firewall_stage f id sib (w : world) : ready f id → settled_objects w → Forall marked sib →
  ∃ w', ensureFirewallConfiguration cl order kinds globalLabels globalAnnotations f sib w = Ret (w', Ok ()) ∧ only (fabric_fw_key f id) w w' ∧ settled_objects w' ∧
    if (List.length sib <? 2)%nat then leaving w' (fabric_fw_key f id)
    else ∃ o, w' ⋅ fabric_fw_key f id = Some o ∧ forgeFirewallChains f sib = Ok (tb_chains (ifw_of o).2) ∧ (staying w (fabric_fw_key f id) → o_deleting o = false).
Proof.
  intros Hrd Hlive Hm. assert (Hid : named_remote f = Some id).
  { unfold named_remote. rewrite (rd_label _ _ Hrd). cbn. by rewrite bool_decide_false by apply (rd_id _ _ Hrd). }
  destruct (Nat.ltb_spec (List.length sib) 2) as [Hlt|Hge].
  - unfold ensureFirewallConfiguration, deleteFirewallConfiguration. rewrite Hid. destruct (Nat.ltb_spec (List.length sib) 2); [|lia].
    destruct (get_and_delete_spec (fabric_fw_key f id) w Hlive) as (w' & E & Ho & Hlv & Hl). by exists w'.
  - destruct (forge_chains_ok f sib Hm) as [chains Hch]. destruct (firewall_written f id sib chains w Hid Hlive Hge Hch) as (w' & E & Ho & Hl & o & Hw & <- & Hst).
    exists w'. split; [done|]. split; [done|]. split; [done|]. by exists o.
Qed.
Lemma tunnel_stage f : lacks "/" (if_Namespace f) →
  calm (l ← (mret nodes : K world (list string)); _ ← ensureGeneveTunnels cl order kinds globalLabels globalAnnotations proc set_proc (fun _ => mret ()) f l; cleanupGeneveTunnels cl proc set_proc f l).
Proof.
  intros Hns. apply calm_bind; [apply calm_mret|]. intros l. apply calm_bind; [|intros _; apply calm_bind; [apply list_tunnels_calm|intros ts; by apply cleanup_loop_calm]].
  unfold ensureGeneveTunnels. apply calm_bind; [apply ensure_tunnels_calm|]. intros _. case_match; apply calm_mret.
Qed.

(** A reconciliation returns, and afterwards the routes of the nodes lead to the
    gateways that work and to no other, the rules for the mark of this gateway are
    there exactly when it is one of several that work, the marks are set when there
    are several gateways, no two tunnels have the same identifier, and nothing else
    has changed. *)
Theorem fabric_follows f id w m : ready f id → Forall marked (siblings_of f id) → settled_objects w → tidy w m →
  is_ok (SetControllerReference (if_UID f) (rc_owners (default blank (w ⋅ replica_key f id)))) = true →
  let sib := siblings_of f id in let up := working f sib in
  ∃ w' m' r, reconcile (Ok f) w = Ret (w', r) ∧
    publishes w w' (node_gw_key f id) (node_gw_rules RulePriority f sib up) ∧
    (if (1 <? List.length up)%nat && among f up then publishes w w' (replica_key f id) (replica_rules RulePriority f (mark_of f))
     else leaving w' (replica_key f id)) ∧
    (if (List.length sib <? 2)%nat then leaving w' (fabric_fw_key f id)
     else ∃ o, w' ⋅ fabric_fw_key f id = Some o ∧ forgeFirewallChains f sib = Ok (tb_chains (ifw_of o).2) ∧ (staying w (fabric_fw_key f id) → o_deleting o = false)) ∧
    tunnels_distinct w' ∧ tidy w' m' ∧ settled_objects w' ∧
    ∀ k, k.1.1 ≠ genevetunnels → k ≠ node_gw_key f id → k ≠ replica_key f id → k ≠ fabric_fw_key f id → w' ⋅ k = w ⋅ k.
Proof.
  intros Hrd Hsib Hlive Htidy How sib up. unfold FabricReconcile. rewrite (rd_live _ _ Hrd).
  destruct (rd_mark _ _ Hrd) as (mark & Em & _). erewrite K_bind_ok by (unfold ensureECMPMark; by rewrite Em).
  erewrite K_bind_ok by (unfold listSiblingInternalFabrics; rewrite (rd_label _ _ Hrd); by erewrite K_bind_ok by reflexivity).
  fold (siblings_of f id). fold sib. destruct (rd_owner _ _ Hrd) as [owner Eo].
  erewrite K_bind_ok by (unfold connectedGateways, gatewayNameFromOwnerRef; rewrite Eo; apply connected_loop_spec). cbn beta iota. fold up.
  edestruct (routes_written (node_gw_key f id)) as (w1 & o1 & E1 & Ho1 & Hp1 & Hl1); [done|exact Hlive|apply Howner|by intros o|].
  erewrite (K_bind_ok _ _ w w1).
  2: { unfold ensureRouteConfiguration, named_remote. rewrite (bool_decide_false _ (rd_node _ _ Hrd)), (rd_label _ _ Hrd). cbn [mbind option_bind].
       rewrite (bool_decide_false _ (rd_id _ _ Hrd)). by rewrite (K_bind_ok _ _ _ _ _ E1). }
  assert (Hk1 : replica_key f id ≠ node_gw_key f id).
  { unfold replica_key, node_gw_key, replicaRouteConfigurationName, generateRouteConfigurationName. intros [= Hx]. by apply (inj (String.append _)) in Hx. }
  destruct (replica_stage f id up (among f up) w1 Hrd Hl1) as (w2 & E2 & Ho2 & Hl2 & Hp2); [destruct Ho1 as [_ Hf]; by rewrite Hf|].
  rewrite (K_bind_ok _ _ _ _ _ E2). destruct (firewall_stage f id sib w2 Hrd Hl2 Hsib) as (w3 & E3 & Ho3 & Hl3 & Hp3). rewrite (K_bind_ok _ _ _ _ _ E3).
  assert (Ht3 : tidy w3 m) by (do 3 (eapply tidy_only; [|done|]; [done|]); done).
  destruct (tunnel_stage f (rd_namespace _ _ Hrd) w3 m Ht3) as (w4 & m4 & r & E4 & Ht4 & Q4). exists w4, m4, r. split; [exact E4|].
  destruct Ho1 as [_ Hf1], Ho2 as [_ Hf2], Ho3 as [_ Hf3]. destruct Hp1 as (o & Hw & Hru).
  split; [exists o; split; [|done]; rewrite Q4, Hf3, Hf2 by (done || by apply not_eq_sym); exact Hw|].
  split; [|split; [|split; [by eapply tidy_distinct|split; [done|split]]]].
  - unfold publishes, leaving, staying in *. rewrite Hf1 in Hp2 by done. by rewrite Q4, Hf3.
  - unfold leaving, staying in *. rewrite Hf2, Hf1 in Hp3 by done. by rewrite Q4.
  - intros k ob Hk Hob. rewrite Q4 in Hob by done. by eapply Hl3.
  - intros k Hk H1 H2 H3. by rewrite Q4, Hf3, Hf2, Hf1.
Qed.

(** *** All gateways of a cluster, one after the other *)

Fixpoint reconcile_all (l : list InternalFabric) (w : world) : outcome world :=
  match l with
  | [] => Ret w
  | h :: l => x ← reconcile (Ok h) w; reconcile_all l x.1
  end.

Section cluster.
Context (f : InternalFabric) (id : string).
Notation sib := (siblings_of f id).
Notation up := (working f sib).
Context (Hgw : gateways f sib) (Hready : ∀ h, h ∈ sib → ready h id).

Definition in_force (w : world) (k : okey) (r : TRule) : Prop := ∃ o, w ⋅ k = Some o ∧ o_deleting o = false ∧ r ∈ rc_rules o.
(** The rules the server has for the cluster: those of the nodes and those of each
    gateway, unless they are being deleted. *)
Definition cluster_rules (w : world) (r : TRule) : Prop := in_force w (node_gw_key f id) r ∨ ∃ h, h ∈ sib ∧ in_force w (replica_key h id) r.

Definition replica_done (w : world) (h : InternalFabric) : Prop :=
  if (1 <? List.length up)%nat && bool_decide (h ∈ up)
  then ∃ o, w ⋅ replica_key h id = Some o ∧ rc_rules o = replica_rules RulePriority h (mark_of h) ∧ o_deleting o = false
  else leaving w (replica_key h id).
Definition shared_done (w : world) : Prop :=
  (∃ o, w ⋅ node_gw_key f id = Some o ∧ rc_rules o = node_gw_rules RulePriority f sib up ∧ o_deleting o = false) ∧
  ∃ o, w ⋅ fabric_fw_key f id = Some o ∧ forgeFirewallChains f sib = Ok (tb_chains (ifw_of o).2) ∧ o_deleting o = false.
Record good (w : world) : Prop := {
  gd_tidy : ∃ m, tidy w m;
  gd_settled : settled_objects w;
  gd_routes : staying w (node_gw_key f id);
  gd_firewall : staying w (fabric_fw_key f id)
}.
Definition fresh (w : world) (h : InternalFabric) : Prop := staying w (replica_key h id) ∧
  is_ok (SetControllerReference (if_UID h) (rc_owners (default blank (w ⋅ replica_key h id)))) = true.

Lemma sibling_namespace h : h ∈ sib → if_Namespace h = if_Namespace f.
Proof.
  unfold siblings_of. intros Hh%elem_of_sort_by. apply list_elem_of_In, filter_In in Hh as [Hh _]. unfold selected in Hh.
  apply filter_In in Hh as [_ Hh]. by apply andb_true_iff in Hh as [Hh%bool_decide_eq_true _].
Qed.
Lemma working_in h : h ∈ up → h ∈ sib.
Proof. unfold working. intros Hh. apply list_elem_of_In, filter_In in Hh as [Hh _]. by apply list_elem_of_In. Qed.
Lemma among_working h : h ∈ sib → among h up = bool_decide (h ∈ up).
Proof.
  intros Hh. apply Bool.eq_iff_eq_true. unfold among. rewrite existsb_true_iff, bool_decide_eq_true. split; [|intros Hu; exists h; split; [done|by apply bool_decide_eq_true]].
  intros (g & Hg & E%bool_decide_eq_true). by rewrite <- (gw_names _ _ Hgw g h (working_in _ Hg) Hh E).
Qed.
Lemma replica_key_inj h h' : h ∈ sib → h' ∈ sib → replica_key h id = replica_key h' id → h = h'.
Proof.
  intros Hh Hh' E. apply (gw_owners _ _ Hgw); [done|done|]. unfold replica_key, replicaRouteConfigurationName in E. injection E as _ E.
  by apply (inj (String.append _)), (inj (String.append _)) in E.
Qed.
Lemma replica_not_node h : replica_key h id ≠ node_gw_key f id.
Proof. unfold replica_key, node_gw_key, replicaRouteConfigurationName, generateRouteConfigurationName. intros [= _ Hx]. by apply (inj (String.append _)) in Hx. Qed.

Lemma one_fabric h w : h ∈ sib → good w → fresh w h → ∃ w' r, reconcile (Ok h) w = Ret (w', r) ∧ good w' ∧ shared_done w' ∧ replica_done w' h ∧
  ∀ k, k.1.1 ≠ genevetunnels → k ≠ node_gw_key f id → k ≠ fabric_fw_key f id → k ≠ replica_key h id → w' ⋅ k = w ⋅ k.
Proof.
  intros Hh [(m & Ht) Hl Hs1 Hs2] [Hst How]. pose proof (sibling_namespace h Hh) as Hns.
  assert (E1 : siblings_of h id = sib) by (unfold siblings_of; by rewrite Hns).
  assert (E2 : working h sib = up) by (unfold working; by rewrite Hns).
  assert (E3 : node_gw_key h id = node_gw_key f id) by (unfold node_gw_key; by rewrite Hns).
  assert (E4 : fabric_fw_key h id = fabric_fw_key f id) by (unfold fabric_fw_key; by rewrite Hns).
  assert (E5 : node_gw_rules RulePriority h sib up = node_gw_rules RulePriority f sib up) by (unfold node_gw_rules; by rewrite (gw_remote _ _ Hgw h Hh)).
  assert (E6 : forgeFirewallChains h sib = forgeFirewallChains f sib) by (unfold forgeFirewallChains; by rewrite (gw_remote _ _ Hgw h Hh)).
  destruct (fabric_follows h id w m (Hready h Hh)) as (w' & m' & r & E & Hp & Hr & Hf & _ & Ht' & Hl' & Hfr); [rewrite E1; apply (gw_marked _ _ Hgw)|done|done|done|].
  rewrite E1, E2, ?E3, ?E4, ?E5, ?E6 in *. pose proof (gw_several _ _ Hgw). destruct (Nat.ltb_spec (List.length sib) 2); [lia|].
  destruct Hp as (o1 & Ho1 & Hr1 & Hd1), Hf as (o2 & Ho2 & Hc2 & Hd2).
  exists w', r. split; [done|]. split; [|split; [|split; [|intros k ????; by apply Hfr]]].
  - split; [by exists m'|done|..]; intros o Ho; [assert (o = o1) as -> by congruence|assert (o = o2) as -> by congruence]; auto.
  - split; [exists o1|exists o2]; auto.
  - unfold replica_done. rewrite <- (among_working h Hh). destruct (_ && _); [|done]. destruct Hr as (o & Ho & Hru & Hd). exists o. auto.
Qed.
Lemma all_fabrics l : NoDup l → (∀ h, h ∈ l → h ∈ sib) → ∀ w, good w → (∀ h, h ∈ l → fresh w h) →
  ∃ w', reconcile_all l w = Ret w' ∧ good w' ∧ (l ≠ [] ∨ shared_done w → shared_done w') ∧ (∀ h, h ∈ l → replica_done w' h) ∧
    ∀ k, k.1.1 ≠ genevetunnels → k ≠ node_gw_key f id → k ≠ fabric_fw_key f id → (∀ h, h ∈ l → k ≠ replica_key h id) → w' ⋅ k = w ⋅ k.
Proof.
  induction 1 as [|h l Hn Hl IH]; intros Hin w Hg Hfr.
  { exists w. split; [done|]. split; [done|]. split; [by intros [?|?]|]. split; [by intros h ?%elem_of_nil|done]. }
  assert (Hh : h ∈ sib) by (apply Hin; left).
  destruct (one_fabric h w Hh Hg (Hfr h ltac:(left))) as (w1 & r & E1 & Hg1 & Hs1 & Hd1 & Hf1).
  assert (Hsep : ∀ h', h' ∈ l → replica_key h' id ≠ replica_key h id).
  { intros h' Hh' E. apply Hn. by rewrite <- (replica_key_inj h' h (Hin _ ltac:(by right)) Hh E). }
  destruct (IH ltac:(intros h' Hh'; apply Hin; by right) w1 Hg1) as (w' & E & Hg' & Hs' & Hd' & Hf').
  { intros h' Hh'. unfold fresh, staying. rewrite Hf1; [apply Hfr; by right|done|apply replica_not_node|done|by apply Hsep]. }
  exists w'. split; [cbn [reconcile_all]; by rewrite E1|]. split; [done|]. split; [intros _; by apply Hs'; right|]. split.
  - intros h' [->|Hh']%elem_of_cons; [|by apply Hd']. unfold replica_done, leaving in *. rewrite Hf'; [done|done|apply replica_not_node|done|].
    intros h' Hh' Ex. by apply (Hsep h' Hh').
  - intros k Hk H1 H2 H3. rewrite Hf', Hf1; [done|done|done|done|apply H3; left|done|done|done|]. intros h' Hh'. apply H3. by right.
Qed.
(** The rules that are left are those of the nodes and, when several gateways work,
    those of each of them. *)
Lemma cluster_rules_done w : shared_done w → (∀ h, h ∈ sib → replica_done w h) → ∀ r, cluster_rules w r ↔
  r ∈ node_gw_rules RulePriority f sib up ∨ ((2 ≤ List.length up)%nat ∧ ∃ h, h ∈ up ∧ r ∈ replica_rules RulePriority h (mark_of h)).
Proof.
  intros [(o & Ho & Hru & Hd) _] Hrep r. unfold cluster_rules. split.
  - intros [(o' & Ho' & _ & Hr)|(h & Hh & o' & Ho' & Hd' & Hr)]; [left; congruence|]. right. specialize (Hrep h Hh). unfold replica_done in Hrep.
    destruct (Nat.ltb_spec 1 (List.length up)); cbn [andb] in Hrep; [|by rewrite (Hrep _ Ho') in Hd'].
    case_bool_decide; [|by rewrite (Hrep _ Ho') in Hd']. destruct Hrep as (o1 & Ho1 & Hr1 & _). split; [lia|]. exists h. split; [done|]. congruence.
  - intros [Hr|(Hlen & h & Hh & Hr)]; [left; exists o; by rewrite Hru|]. right. pose proof (working_in h Hh) as Hs. specialize (Hrep h Hs). unfold replica_done in Hrep.
    destruct (Nat.ltb_spec 1 (List.length up)); [|lia]. rewrite bool_decide_eq_true_2 in Hrep by done. destruct Hrep as (o1 & Ho1 & Hr1 & Hd1).
    exists h. split; [done|]. exists o1. by rewrite Hr1.
Qed.
End cluster.

(** C34: when the fabrics of the gateways of a cluster have been reconciled one after the
    other, with the servers answering and the configurations not being deleted, a
    connection that comes in by a gateway is answered through it.  With the chains that
    are on the server then, a packet from a network of the cluster that comes in by the
    interface of the gateway gives its connection the mark of the gateway, and a packet
    to such a network gets the mark of its connection.  With the rules that are there, a
    packet with that mark has a route exactly when some gateway works, and every rule
    that comes first for it leads to that gateway alone if it works, and to all the
    gateways that work, and no other, if it does not.  The gateways have different
    marks, interfaces and names and the same remote networks, and the addresses of
    their interfaces are not in those. *)
Theorem ecmp_return_path f id w m g src c :
  gateways f (siblings_of f id) → (∀ h, h ∈ siblings_of f id → ready h id) →
  tidy w m → settled_objects w → staying w (node_gw_key f id) → staying w (fabric_fw_key f id) →
  (∀ h, h ∈ siblings_of f id → staying w (replica_key h id) ∧
    is_ok (SetControllerReference (if_UID h) (rc_owners (default blank (w ⋅ replica_key h id)))) = true) →
  g ∈ siblings_of f id → c ∈ if_RemoteCIDRs f → src c = true →
  (∀ h, h ∈ siblings_of f id → src (cidr32 (if_InterfaceIP h)) = false) →
  ∃ w' o fwd pre, reconcile_all (siblings_of f id) w = Ret w' ∧
    w' ⋅ fabric_fw_key f id = Some o ∧ o_deleting o = false ∧ tb_chains (ifw_of o).2 = [fwd; pre] ∧
    ch_hook fwd = Some ChainHookForward ∧ ch_hook pre = Some ChainHookPrerouting ∧
    (∀ dst ct meta, run_chain fwd (mkPacket (if_NodeName g) src dst) (ct, meta) = (mark_of g, meta)) ∧
    (∀ dev src' ct meta, run_chain pre (mkPacket dev src' src) (ct, meta) = (ct, ct)) ∧
    ((∃ r, routed_first src (mark_of g) (cluster_rules f id w') r) ↔ ∃ h, h ∈ siblings_of f id ∧ works (if_Namespace f) h = true) ∧
    ∀ r, routed_first src (mark_of g) (cluster_rules f id w') r →
      leads_to (if works (if_Namespace f) g then [g] else List.filter (works (if_Namespace f)) (siblings_of f id)) r.
Proof.
  intros Hgw Hready Ht Hl Hs1 Hs2 Hfresh Hg Hc Hd Hdst.
  destruct (all_fabrics f id Hgw Hready (siblings_of f id) (gw_once _ _ Hgw) ltac:(done) w) as (w' & E & _ & Hsh & Hrep & _); [split; [by exists m|done..]|done|].
  destruct Hsh as [Hs3 (o & Ho & Hch & Hdel)]; [left; intros E0; rewrite E0 in Hg; by apply elem_of_nil in Hg|].
  destruct (ecmp_chains f _ g src c Hgw Hg Hc Hd) as (fwd & pre & Ech & Hh1 & Hh2 & Hrun1 & Hrun2).
  destruct (chosen_rules RulePriority f g (siblings_of f id) (working f (siblings_of f id)) src c (cluster_rules f id w') Hgw (working_in f id) Hg Hc Hd Hdst)
    as [Hex Hlead]; [apply cluster_rules_done; [split; [done|by exists o]|done]|].
  exists w', o, fwd, pre. split; [done|]. split; [done|]. split; [done|]. split; [congruence|]. do 4 (split; [done|]). split.
  - rewrite Hex. split.
    + destruct (working f (siblings_of f id)) as [|h l] eqn:Ew; [done|]. intros _. exists h.
      assert (Hh : h ∈ working f (siblings_of f id)) by (rewrite Ew; left). unfold working in Hh. apply list_elem_of_In, filter_In in Hh as [Hh ?]. split; [by apply list_elem_of_In|done].
    + intros (h & Hh & Hw) E0. assert (Hx : h ∈ working f (siblings_of f id)) by (apply list_elem_of_In, filter_In; split; [by apply list_elem_of_In|done]).
      rewrite E0 in Hx. by apply elem_of_nil in Hx.
  - intros r Hr. replace (works (if_Namespace f) g) with (bool_decide (g ∈ working f (siblings_of f id))); [by apply Hlead|].
    apply Bool.eq_iff_eq_true. rewrite bool_decide_eq_true. unfold working. rewrite list_elem_of_In, filter_In, <- list_elem_of_In. naive_solver.
Qed.
End world.

(** ** Witnesses *)

#[local] Instance ex_cou : CreateOrUpdater inet := documented inet.
Definition ex_kinds (r : string) : option (string * string) := Some (r, "networking.liqo.io"%string).
Definition ex_fabric (name : string) (ip : string) (mark : Z) : InternalFabric :=
  mkInternalFabric name "liqo-tenant" ("uid-" ++ name) {[ RemoteClusterID := "remote"%string ]} (Some name) [] false 1450 ["10.90.0.0/16"%string]
    ("liqo." ++ name) ip "10.80.0.1" (Some mark).
Definition ex_a : InternalFabric := ex_fabric "a" "10.80.0.2" 65536.
Definition ex_b : InternalFabric := ex_fabric "b" "10.80.0.3" 65537.
Definition ex_start : pworld inet fstate := mkPworld (∅ : gmap okey (Obj inet)) [mkFstate None (Some (IdManager.New IdManager.U32))].
(** The tunnel of the second gateway is not up yet. *)
Definition ex_connections (ns name : string) : option ConnectionStatusValue := Some (if bool_decide (name = "gw-a"%string) then Connected else Connecting).
Definition ex_pods (ns gw : string) : list GwPod := [mkGwPod false true "10.0.0.9"].
Lemma ex_ab h : h ∈ [ex_a; ex_b] → h = ex_a ∨ h = ex_b.
Proof. intros [->|[->|[]%elem_of_nil]%elem_of_cons]%elem_of_cons; auto. Qed.
Lemma ex_gateways : gateways ex_a [ex_a; ex_b].
Proof.
  split; [cbn; lia| |by intros h h' [-> | ->]%ex_ab [-> | ->]%ex_ab|by intros h h' [-> | ->]%ex_ab [-> | ->]%ex_ab| |by intros h h' [-> | ->]%ex_ab [-> | ->]%ex_ab|by intros h h' [-> | ->]%ex_ab [-> | ->]%ex_ab|by intros h [-> | ->]%ex_ab].
  - apply NoDup_cons. split; [by intros E%list_elem_of_singleton|]. apply NoDup_singleton.
  - repeat constructor; eexists; (split; [reflexivity|lia]).
Qed.
Lemma ex_ready h : h ∈ [ex_a; ex_b] → ready h "remote".
Proof.
  intros [-> | ->]%ex_ab; (split; [done|eexists; split; [reflexivity|lia]|done|done|done|by eexists|]);
    (unfold FirewallSem.lacks; cbn; repeat (apply not_elem_of_cons; split; [discriminate|]); apply not_elem_of_nil).
Qed.
Lemma ex_tidy : tidy ex_start (IdManager.New IdManager.U32).
Proof. split; [reflexivity|apply IdManager.NewWithRange_ok|]. by intros. Qed.
Lemma ex_siblings : siblings_of [ex_a; ex_b] ex_a "remote" = [ex_a; ex_b].
Proof. vm_compute. reflexivity. Qed.
(** Only the second gateway works. *)
Definition ex_second (ns name : string) : option ConnectionStatusValue := Some (if bool_decide (name = "gw-b"%string) then Connected else Connecting).

Lemma ecmp_return_path_witness : ∃ w' r,
  reconcile_all (fun _ _ _ _ => []) [] ex_kinds ∅ ∅ 0 [ex_a; ex_b] ["n1"; "n2"]%string ex_second ex_pods [ex_a; ex_b] ex_start = Ret w' ∧
  routed_first (fun c => bool_decide (c = "10.90.0.0/16"%string)) (mark_of ex_a) (cluster_rules [ex_a; ex_b] ex_a "remote" w') r ∧
  leads_to [ex_b] r.
Proof.
  destruct (ecmp_return_path (fun _ _ _ _ => []) [] ex_kinds ∅ ∅ 0 ltac:(by eexists) ltac:(by eexists) ltac:(by eexists) ltac:(done) [ex_a; ex_b] ["n1"; "n2"]%string
    ex_second ex_pods ex_a "remote" ex_start (IdManager.New IdManager.U32) ex_a (fun c => bool_decide (c = "10.90.0.0/16"%string)) "10.90.0.0/16")
    as (w' & o & fwd & pre & E & _ & _ & _ & _ & _ & _ & _ & Hex & Hlead).
  - rewrite ex_siblings. exact ex_gateways.
  - rewrite ex_siblings. exact ex_ready.
  - exact ex_tidy.
  - by intros k o _ Ho.
  - by intros o Ho.
  - by intros o Ho.
  - intros h _. split; [by intros o Ho|reflexivity].
  - rewrite ex_siblings. left.
  - left.
  - reflexivity.
  - rewrite ex_siblings. by intros h [-> | ->]%ex_ab.
  - rewrite ex_siblings in E, Hex, Hlead. destruct (proj2 Hex) as (r & Hr); [exists ex_b; split; [right; left|vm_compute; reflexivity]|].
    exists w', r. split; [exact E|]. split; [exact Hr|]. specialize (Hlead r Hr).
    replace (works ex_second ex_pods (if_Namespace ex_a) ex_a) with false in Hlead by (vm_compute; reflexivity).
    replace (List.filter (works ex_second ex_pods (if_Namespace ex_a)) [ex_a; ex_b]) with [ex_b] in Hlead by (vm_compute; reflexivity). exact Hlead.
Defined.

Lemma fabric_follows_witness : ∃ w' r, FabricReconcile (plain_client (fun _ _ _ _ => [])) [] ex_kinds ∅ ∅ 0 (InternalNet.proc (mkFstate None None)) set_proc
    (fun sel => mret (selected [ex_a; ex_b] sel)) (mret ["n1"; "n2"]%string) (fun ns n => answer (ex_connections ns n)) (fun ns gw => mret (ex_pods ns gw))
    (fun _ => mret ()) (fun _ => mret ()) (Ok ex_a) ex_start = Ret (w', r) ∧
  content (pw_server w') !! replica_key ex_a "remote" = None.
Proof.
  destruct (fabric_follows (fun _ _ _ _ => []) [] ex_kinds ∅ ∅ 0 ltac:(by eexists) ltac:(by eexists) ltac:(by eexists) ltac:(done) [ex_a; ex_b] ["n1"; "n2"]%string
    ex_connections ex_pods ex_a "remote" ex_start (IdManager.New IdManager.U32)) as (w' & m' & r & E & _).
  - apply ex_ready. left.
  - rewrite ex_siblings. exact (gw_marked _ _ ex_gateways).
  - by intros k o _ Ho.
  - exact ex_tidy.
  - reflexivity.
  - exists w', r. split; [exact E|].
    pose proof (f_equal (fun x => match x with Ret (w, _) => content (pw_server w) !! replica_key ex_a "remote" | _ => None end) E) as Hw.
    cbn beta iota in Hw. rewrite <- Hw. vm_compute. reflexivity.
Defined.
