(* ===== verification/VkMachinery.v ===== *)
(** * VkMachinery: the deployment of a virtual kubelet
      (src/pkg/vkMachinery/{forge/forge,forge/creation,forge/type}.go, src/pkg/utils/maps/maps.go,
       src/pkg/utils/args/stringmap.go, src/apis/offloading/v1beta1/{virtualnode,vkoptionstemplate}_types.go)

    A VirtualNode asks for a virtual kubelet; a VkOptionsTemplate holds the options
    many of them share.  The deployment, its names and its arguments are forged from
    both; labels and annotations are merged into the object that exists. *)

From S2P Require Export Remapping.
From Stdlib Require Import Ascii.
Local Open Scope Z_scope.

(** ** maps.go *)

Definition LabelsTemplateAnnotationKey : string := "liqo.io/template-labels".
Definition AnnotsTemplateAnnotationKey : string := "liqo.io/template-annotations".

(** Nil maps are empty ones: the code clones or creates a map before it writes. *)
Definition SerializeMap (m : labels) : string :=
  foldl (fun s k => (s ++ k ++ ",")%string) ""%string (sort_strings (map_to_list m).*1).
Definition DeSerializeCache (s : string) : list string := Split "," s.
Definition UpdateCache (annots template : labels) (cacheKey : string) : labels := <[cacheKey := SerializeMap template]> annots.
Definition FilteredDeletedEntries (m1 m2 : labels) (cache : list string) : labels :=
  foldl (fun res key => match m2 !! key with None => delete key res | Some _ => res end) m1 cache.
(** Without the annotation the cache is the empty string. *)
Definition cached (annots : labels) (cacheKey : string) : list string := DeSerializeCache (default ""%string (annots !! cacheKey)).
Definition FilteredDeletedLabels (annots labs templateLabs : labels) : labels :=
  FilteredDeletedEntries labs templateLabs (cached annots LabelsTemplateAnnotationKey).
Definition FilteredDeletedAnnotations (annots templateAnnots : labels) : labels :=
  FilteredDeletedEntries annots templateAnnots (cached annots AnnotsTemplateAnnotationKey).
(** Labels and annotations of the object. *)
Definition SmartMergeLabels (labs annots templateLabels : labels) : labels * labels :=
  (templateLabels ∪ FilteredDeletedLabels annots labs templateLabels, UpdateCache annots templateLabels LabelsTemplateAnnotationKey).
Definition SmartMergeAnnotations (annots templateAnnots : labels) : labels :=
  UpdateCache (templateAnnots ∪ FilteredDeletedAnnotations annots templateAnnots) templateAnnots AnnotsTemplateAnnotationKey.

(** ** stringmap.go *)

(** The entries in the order the map is visited. *)
Definition StringMap_String (entries : list (string * string)) : string :=
  String.concat "," ((fun kv => (kv.1 ++ "=" ++ kv.2)%string) <$> entries).
Fixpoint set_chunks (m : labels) (l : list string) : option labels :=
  match l with
  | [] => Some m
  | chunk :: l => '(k, v) ← split_first "=" chunk; set_chunks (<[k := v]> m) l
  end.
Definition StringMap_Set (m : labels) (str : string) : option labels :=
  if bool_decide (str = ""%string) then Some m else set_chunks m (Split "," str).

(** ** Resources *)

Record OffloadingPatch := mkOffloadingPatch {
  op_LabelsNotReflected : list string; op_AnnotationsNotReflected : list string; op_rest : string
}.
#[export] Instance OffloadingPatch_eq_dec : EqDecision OffloadingPatch.
Proof. solve_decision. Defined.
(** A storage, ingress or load-balancer class. *)
Record VkClass := mkVkClass { vc_Name : string; vc_Default : bool }.
#[export] Instance VkClass_eq_dec : EqDecision VkClass.
Proof. solve_decision. Defined.
Record VnSpec := mkVnSpec {
  vs_ClusterID : string; vs_Template : bool; vs_OffloadingPatch : option OffloadingPatch; vs_CreateNode : option bool;
  vs_DisableNetworkCheck : option bool; vs_KubeconfigSecretRef : option string;
  vs_StorageClasses : list VkClass; vs_IngressClasses : list VkClass; vs_LoadBalancerClasses : list VkClass;
  vs_VkOptionsTemplateRef : option (string * string)
}.
#[export] Instance VnSpec_eq_dec : EqDecision VnSpec.
Proof. solve_decision. Defined.
Definition without_template (s : VnSpec) : VnSpec :=
  mkVnSpec (vs_ClusterID s) false (vs_OffloadingPatch s) (vs_CreateNode s) (vs_DisableNetworkCheck s) (vs_KubeconfigSecretRef s)
    (vs_StorageClasses s) (vs_IngressClasses s) (vs_LoadBalancerClasses s) (vs_VkOptionsTemplateRef s).

Record ReflectorConfig := mkReflectorConfig { rc_NumWorkers : Z; rc_Type : string }.
(** [vo_rest]: resources, pull secrets, tolerations, affinity and node selector, which
    are copied as they are. *)
Record VkOptionsTemplate := mkVkOptionsTemplate {
  vo_CreateNode : bool; vo_DisableNetworkCheck : bool; vo_ContainerImage : string; vo_MetricsEnabled : bool; vo_MetricsAddress : string;
  vo_LabelsNotReflected : list string; vo_AnnotationsNotReflected : list string; vo_ReflectorsConfig : gmap string ReflectorConfig;
  vo_ExtraArgs : list string; vo_ExtraAnnotations : labels; vo_ExtraLabels : labels; vo_NodeExtraAnnotations : labels; vo_NodeExtraLabels : labels;
  vo_Replicas : option Z; vo_PullPolicy : string; vo_rest : string
}.
(** A deployment: its owners, its selector and its pod template. *)
Record Deployment := mkDeployment {
  dp_owners : list OwnerRef; dp_paused : bool; dp_replicas : option Z; dp_selector : labels; dp_labels : labels; dp_annotations : labels;
  dp_image : string; dp_pullPolicy : string; dp_args : list string; dp_ports : list Z; dp_nodeName : string; dp_serviceAccount : string; dp_rest : string
}.
#[export] Instance Deployment_eq_dec : EqDecision Deployment.
Proof. solve_decision. Defined.
(** The deployment that is forged, with its metadata. *)
Record ForgedDeployment := mkForged { fd_name : string; fd_namespace : string; fd_labels : labels; fd_annotations : labels; fd_spec : Deployment }.

(** ** forge.go *)

Definition StringifyArgument (key value : string) : string := (key ++ "=" ++ value)%string.
(** The second part is indexed. *)
Definition DestringifyArgument (arg : string) : outcome (string * string) := match split_first "=" arg with Some kv => Ret kv | None => Panic end.
Definition FormatBool (b : bool) : string := if b then "true" else "false".
(** The loops over storage, ingress and load-balancer classes; the last line indexes. *)
Definition getDefaultClass (l : list VkClass) : outcome VkClass :=
  match List.find vc_Default l with Some c => Ret c | None => match l with c :: _ => Ret c | [] => Panic end end.

Definition Reflectors : list string :=
  ["pod"; "service"; "endpointslice"; "ingress"; "configmap"; "secret"; "serviceaccount"; "persistentvolumeclaim"; "event";
   "localstoragepvc"; "resourceslice"; "resourceclaim"]%string.
Definition ReflectorsCustomizableType : list string := ["service"; "ingress"; "configmap"; "secret"; "localstoragepvc"; "event"]%string.
Definition workers_args (config : gmap string ReflectorConfig) : list string :=
  omap (fun r => c ← config !! r; Some (StringifyArgument ("--" ++ r ++ "-reflection-workers") (itoa (rc_NumWorkers c)))) Reflectors.
Definition type_args (config : gmap string ReflectorConfig) : list string :=
  omap (fun r => c ← config !! r; Some (StringifyArgument ("--" ++ r ++ "-reflection-type") (rc_Type c))) ReflectorsCustomizableType.

Definition EffectiveCreateNode (s : VnSpec) (opts : VkOptionsTemplate) : bool := default (vo_CreateNode opts) (vs_CreateNode s).
Definition EffectiveDisableNetworkCheck (s : VnSpec) (opts : VkOptionsTemplate) : bool := default (vo_DisableNetworkCheck opts) (vs_DisableNetworkCheck s).
Definition mergeUnique (primary secondary : list string) : list string :=
  foldl (fun merged s => if bool_decide (s ∈ merged) then merged else merged ++ [s]) [] (primary ++ secondary).
Definition EffectiveOffloadingPatch (s : VnSpec) (opts : VkOptionsTemplate) : option OffloadingPatch :=
  match vs_OffloadingPatch s with
  | None =>
    if (List.length (vo_LabelsNotReflected opts) =? 0)%nat && (List.length (vo_AnnotationsNotReflected opts) =? 0)%nat then None
    else Some (mkOffloadingPatch (vo_LabelsNotReflected opts) (vo_AnnotationsNotReflected opts) "")
  | Some p => Some (mkOffloadingPatch (mergeUnique (op_LabelsNotReflected p) (vo_LabelsNotReflected opts))
                      (mergeUnique (op_AnnotationsNotReflected p) (vo_AnnotationsNotReflected opts)) (op_rest p))
  end.

(** [strconv.ParseInt(s, 10, 32)]. *)
Definition ParseInt32 (s : string) : option Z :=
  v ← Atoi s; if (- 2 ^ 31 <=? v) && (v <? 2 ^ 31) then Some v else None.
Definition last_part (s : string) : string := default ""%string (last (Split ":" s)).
Definition metrics_port (address : string) : Z := match ParseInt32 (last_part address) with Some p => p | None => 8082 end.

Section forge.
(** The order in which a map is visited. *)
Context (range : labels → list (string * string)).
Context (homeCluster liqoNamespace : string) (localPodCIDRs : list string).

Definition class_args (enable key : string) (l : list VkClass) : outcome (list string) :=
  match l with
  | [] => Ret []
  | _ => c ← getDefaultClass l; Ret [enable; StringifyArgument key (vc_Name c)]
  end.
Definition extra_args (key : string) (m : labels) : list string :=
  if bool_decide (m = ∅) then [] else [StringifyArgument key (StringMap_String (range m))].
Definition forge_args (namespace name : string) (s : VnSpec) (opts : VkOptionsTemplate) : outcome (list string) :=
  storage ← class_args "--enable-storage" "--remote-real-storage-class-name" (vs_StorageClasses s);
  ingress ← class_args "--enable-ingress" "--remote-real-ingress-class-name" (vs_IngressClasses s);
  balancer ← class_args "--enable-load-balancer" "--remote-real-load-balancer-class-name" (vs_LoadBalancerClasses s);
  Ret ([StringifyArgument "--foreign-cluster-id" (vs_ClusterID s); StringifyArgument "--nodename" name; StringifyArgument "--node-ip" "$(POD_IP)";
        StringifyArgument "--tenant-namespace" namespace; StringifyArgument "--liqo-namespace" liqoNamespace; StringifyArgument "--home-cluster-id" homeCluster] ++
       (StringifyArgument "--local-podcidr" <$> localPodCIDRs) ++
       match vs_KubeconfigSecretRef s with Some n => if bool_decide (n = ""%string) then [] else [StringifyArgument "--foreign-kubeconfig-secret-name" n] | None => [] end ++
       [StringifyArgument "--create-node" (FormatBool (EffectiveCreateNode s opts)); StringifyArgument "--node-check-network" (FormatBool (negb (EffectiveDisableNetworkCheck s opts)))] ++
       storage ++ ingress ++ balancer ++ workers_args (vo_ReflectorsConfig opts) ++ type_args (vo_ReflectorsConfig opts) ++
       extra_args "--node-extra-annotations" (vo_NodeExtraAnnotations opts) ++ extra_args "--node-extra-labels" (vo_NodeExtraLabels opts) ++ vo_ExtraArgs opts ++
       [StringifyArgument "--metrics-enabled" (FormatBool (vo_MetricsEnabled opts))] ++
       (if vo_MetricsEnabled opts then [StringifyArgument "--metrics-address" (vo_MetricsAddress opts)] else [])).

(** ** creation.go *)

Definition vkNamePrefix : string := "vk-".
Definition VirtualKubeletName (name : string) : string := (vkNamePrefix ++ name)%string.
Definition VirtualKubeletServiceAccountName (name : string) : string := (vkNamePrefix ++ name)%string.
Definition OffloadingComponentKey : string := "offloading.liqo.io/component".
Definition VirtualNodeLabel : string := "liqo.io/virtual-node".
Definition VirtualKubeletLabels (name : string) (s : VnSpec) : labels :=
  {[ RemoteClusterID := vs_ClusterID s; VirtualNodeLabel := name; OffloadingComponentKey := "virtual-kubelet"%string ]}.
Definition VirtualKubeletDeployment (namespace name : string) (s : VnSpec) (opts : VkOptionsTemplate) : outcome ForgedDeployment :=
  let matchLabels := VirtualKubeletLabels name s in
  let depLabels := matchLabels ∪ vo_ExtraLabels opts in
  let depAnnotations := vo_ExtraAnnotations opts in
  args ← forge_args namespace name s opts;
  Ret (mkForged (VirtualKubeletName name) namespace depLabels depAnnotations
         (mkDeployment [] false (vo_Replicas opts) matchLabels depLabels depAnnotations (vo_ContainerImage opts)
            (if bool_decide (vo_PullPolicy opts = ""%string) then "IfNotPresent" else vo_PullPolicy opts) args
            (if vo_MetricsEnabled opts then [metrics_port (vo_MetricsAddress opts)] else []) name (VirtualKubeletServiceAccountName name) (vo_rest opts))).
End forge.

Section names.
(** [k8s.io/utils/strings.ShortenString]. *)
Context (ShortenString : string → nat → string).
Definition VirtualKubeletClusterRoleBindingName (name : string) : string := ShortenString ("liqo-node-" ++ name)%string 253.
Definition VirtualKubeletAuthDelegatorClusterRoleBindingName (name : string) : string := ShortenString ("liqo-auth-delegator-" ++ name)%string 253.
End names.
Definition ClusterRoleLabels (remoteClusterID : string) : labels := {[ RemoteClusterID := remoteClusterID; "app.kubernetes.io/managed-by"%string := "liqo"%string ]}.
Definition LocalClusterRoleName : string := "liqo-virtual-kubelet-local".
Definition AuthDelegatorRoleName : string := "system:auth-delegator".
(** The subjects of a binding: namespaces and names of service accounts. *)
Definition add_subject (sa : string * string) (l : list (string * string)) : list (string * string) := if bool_decide (sa ∈ l) then l else l ++ [sa].
