(* ===== verification/VirtualNode.v ===== *)
(** * VirtualNode: the controller of virtual nodes
      (src/pkg/liqo-controller-manager/offloading/virtualnode-controller/
       {virtualnode_controller,virtualkubelet,deletion-routine,drain,cordon,namespacemap,condition,finalizer}.go,
       src/pkg/vkMachinery/utils/utils.go)

    For a VirtualNode the controller keeps the deployment of a virtual kubelet, which
    in turn keeps a node, and a NamespaceMap for the remote cluster.  A node that is no
    longer wanted is taken down by a routine of its own: it is cordoned and drained,
    the virtual kubelet is stopped, the node deleted and the finalizer removed. *)

From S2P Require Export VkMachinery.
From S2P Require ForeignCluster.
Local Open Scope Z_scope.

(** ** condition.go *)

Inductive VnConditionType := VirtualKubeletConditionType | NodeConditionType.
Inductive VnConditionStatus := CondNone | CondRunning | CondCreating | CondDraining | CondDeleting.
#[export] Instance VnConditionType_eq_dec : EqDecision VnConditionType.
Proof. solve_decision. Defined.
#[export] Instance VnConditionStatus_eq_dec : EqDecision VnConditionStatus.
Proof. solve_decision. Defined.
(** Messages, which are empty, and times are left out. *)
Record VnCondition := mkVnCondition { cn_Type : VnConditionType; cn_Status : VnConditionStatus }.
#[export] Instance VnCondition_eq_dec : EqDecision VnCondition.
Proof. solve_decision. Defined.

(** The changes that are not made: the function returns. *)
Definition refuses (old new : VnConditionStatus) : bool :=
  match old, new with
  | CondRunning, CondCreating | CondNone, CondDraining | CondNone, CondDeleting | CondDeleting, CondDraining => true
  | _, _ => bool_decide (old = new)
  end.
(** The loop over the conditions, and whether it returned. *)
Fixpoint scan (t : VnConditionType) (s : VnConditionStatus) (l : list VnCondition) : list VnCondition * bool :=
  match l with
  | [] => ([], false)
  | c :: l =>
    if bool_decide (cn_Type c = t) then
      if refuses (cn_Status c) s then (c :: l, true) else let '(l, stop) := scan t s l in (mkVnCondition t s :: l, stop)
    else let '(l, stop) := scan t s l in (c :: l, stop)
  end.
(** The changes in the order the map is visited. *)
Fixpoint ForgeCondition (l : list VnCondition) (changes : list (VnConditionType * VnConditionStatus)) : list VnCondition :=
  match changes with
  | [] => l
  | (t, s) :: changes =>
    let '(l, stop) := scan t s l in
    if (stop : bool) then l else ForgeCondition (l ++ [mkVnCondition t s]) changes
  end.
Definition GetCondition (l : list VnCondition) (t : VnConditionType) : option VnCondition := List.find (fun c => bool_decide (cn_Type c = t)) l.

(** ** Objects *)

Record VnStatus := mkVnStatus {
  st_Conditions : list VnCondition; st_OffloadingPatch : option OffloadingPatch; st_CreateNode : option bool; st_DisableNetworkCheck : option bool
}.
#[export] Instance VnStatus_eq_dec : EqDecision VnStatus.
Proof. solve_decision. Defined.
Inductive vpl :=
| PVn (uid : string) (s : VnSpec)
| PVnStatus (s : VnStatus)
| PNode (unschedulable : bool)
| PPod (uid : string) (daemon mirror : bool)
| PDeploy (d : Deployment)
| PAccount (owners : list OwnerRef)
| PRoleBinding (role : string) (subjects : list (string * string))
| PNsMap.
#[export] Instance vpl_eq_dec : EqDecision vpl.
Proof. solve_decision. Defined.

Definition vn_key (ns name : string) : okey := ("virtualnodes"%string, ns, name).
Definition deploy_key (ns name : string) : okey := ("deployments"%string, ns, name).
Definition account_key (ns name : string) : okey := ("serviceaccounts"%string, ns, name).
Definition crb_key (name : string) : okey := ("clusterrolebindings"%string, ""%string, name).
Definition nsmap_key (ns name : string) : okey := ("namespacemaps"%string, ns, name).
Definition zero_spec : VnSpec := mkVnSpec "" false None None None None [] [] [] None.
Definition zero_status : VnStatus := mkVnStatus [] None None None.
Definition vn_uid (o : Obj vpl) : string := match o_spec o with AMap (PVn u _) => u | _ => ""%string end.
Definition vn_spec (o : Obj vpl) : VnSpec := match o_spec o with AMap (PVn _ s) => s | _ => zero_spec end.
Definition vn_status (o : Obj vpl) : VnStatus := match o_status o with AMap (PVnStatus s) => s | _ => zero_status end.
Definition set_vn_status (o : Obj vpl) (s : VnStatus) : Obj vpl := set_status o (AMap (PVnStatus s)).
Definition set_conditions (o : Obj vpl) (l : list VnCondition) : Obj vpl :=
  let s := vn_status o in set_vn_status o (mkVnStatus l (st_OffloadingPatch s) (st_CreateNode s) (st_DisableNetworkCheck s)).
Definition set_effective (o : Obj vpl) (opts : VkOptionsTemplate) : Obj vpl :=
  set_vn_status o (mkVnStatus (st_Conditions (vn_status o)) (EffectiveOffloadingPatch (vn_spec o) opts)
    (Some (EffectiveCreateNode (vn_spec o) opts)) (Some (EffectiveDisableNetworkCheck (vn_spec o) opts))).
Definition deployment_of (o : Obj vpl) : Deployment :=
  match o_spec o with AMap (PDeploy d) => d | _ => mkDeployment [] false None ∅ ∅ ∅ "" "" [] [] "" "" "" end.
Definition subjects_of (o : Obj vpl) : list (string * string) := match o_spec o with AMap (PRoleBinding _ l) => l | _ => [] end.
Definition account_owners (o : Obj vpl) : list OwnerRef := match o_spec o with AMap (PAccount l) => l | _ => [] end.
Definition pod_uid (o : Obj vpl) : string := match o_spec o with AMap (PPod u _ _) => u | _ => ""%string end.
Definition evictable (o : Obj vpl) : bool := match o_spec o with AMap (PPod _ daemon mirror) => negb daemon && negb mirror | _ => true end.

Definition virtualNodeControllerFinalizer : string := "virtualnode-controller.liqo.io/finalizer".
Definition SkipVkDeploymentAnnotation : string := "liqo.io/skip-vk-deployment".
Definition offloadingPatchHashAnnotation : string := "liqo.io/offloading-patch-hash".
Definition ReplicationRequestedLabel : string := "liqo.io/replication".
Definition ReplicationDestinationLabel : string := "liqo.io/remoteID".
Definition ManagedNamespaceMapAnnotKey : string := "liqo.io/managed-namespace-map".
Definition skip_deployment (o : Obj vpl) : bool :=
  match o_annotations o !! SkipVkDeploymentAnnotation with Some v => negb (bool_decide (v = ""%string)) && negb (is_false v) | None => false end.

Section controller.
Context `{OR : OwnerRefs} `{CU : CreateOrUpdater vpl}.
Context {W : Type} (cl : Client W vpl) (order : list string) (kinds : string → option (string * string)) (globalLabels globalAnnotations : labels).
(** Lists of objects with labels in all namespaces, the pods of a node, the status
    subresource, the eviction of a pod, and what happens between two polls. *)
Context (list_all : string → labels → K W (list (okey * Obj vpl))) (pods_on : string → K W (list (okey * Obj vpl)))
  (update_status : okey → Obj vpl → K W (Obj vpl)) (evict : okey → K W ()) (tick : K W ()).
(** Other resources: ForeignClusters, templates, tenant namespaces. *)
Context (list_foreign : string → K W (list ForeignCluster.ForeignCluster)) (get_template : string * string → K W VkOptionsTemplate) (GetNamespace : string → K W string).
Context (range : labels → list (string * string)) (ShortenString : string → nat → string) (patchHash : OffloadingPatch → string).
Context (HomeClusterID LiqoNamespace : string) (LocalPodCIDRs : list string) (VkOptsDefaultTemplate : option (string * string)).
(** The queue of the deletion routine. *)
Context (enqueue : string * string → K W ()).

Notation create_or_update := (CreateOrUpdate order kinds globalLabels globalAnnotations cl).

(** [client.IgnoreNotFound] of a deletion. *)
Definition delete_ignoring (k : okey) : K W () := r ← attempt (c_Delete cl k); match r with Ok _ | Err NotFound => mret () | Err e => fail e end.

(** ** The VirtualNode in memory

    The conditions are changed in place, also before a call that fails. *)
Definition V (A : Type) : Type := K (W * Obj vpl) A.
Definition lift {A} (m : K W A) : V A := fun wv =>
  match m wv.1 with Ret (w, r) => Ret ((w, wv.2), r) | Panic => Panic | Diverge => Diverge end.
Definition current : V (Obj vpl) := fun wv => Ret (wv, Ok wv.2).
Definition assign (o : Obj vpl) : V () := fun wv => Ret ((wv.1, o), Ok ()).
Definition condition (changes : list (VnConditionType * VnConditionStatus)) : V () :=
  o ← current; assign (set_conditions o (ForgeCondition (st_Conditions (vn_status o)) changes)).

(** ** virtualkubelet.go *)

Definition getVkOptionsTemplate (vn : Obj vpl) : K W VkOptionsTemplate :=
  match vs_VkOptionsTemplateRef (vn_spec vn), VkOptsDefaultTemplate with
  | Some ref, _ | None, Some ref => get_template ref
  | None, None => fail OtherErr
  end.
Definition offloadingPatchHash (p : option OffloadingPatch) : string := match p with None => ""%string | Some p => patchHash p end.
Definition mutate_account (vn : Obj vpl) : mutate_fn vpl := fun o =>
  match SetControllerReference (vn_uid vn) (account_owners o) with
  | Err e => Ret (Err e)
  | Ok owners => Ret (Ok (set_spec o (AMap (PAccount owners))))
  end.
(** Both bindings. *)
Definition mutate_binding (ns name role : string) (vn : Obj vpl) : mutate_fn vpl := fun o =>
  Ret (Ok (mkObj (ClusterRoleLabels (vs_ClusterID (vn_spec vn)) ∪ o_labels o) (o_annotations o) (o_finalizers o) (o_deleting o) (o_version o)
             (AMap (PRoleBinding role (add_subject (ns, VirtualKubeletServiceAccountName name) (subjects_of o)))) (o_status o))).
Definition mutate_deployment (forged : ForgedDeployment) (vn : Obj vpl) : mutate_fn vpl := fun o =>
  let '(ls, annots) := SmartMergeLabels (o_labels o) (o_annotations o) (fd_labels forged) in
  let annots := SmartMergeAnnotations annots (fd_annotations forged) in
  let old := deployment_of o in
  let d := fd_spec forged in
  let template := SmartMergeAnnotations (dp_annotations old) (dp_annotations d) in
  match SetControllerReference (vn_uid vn) (dp_owners old) with
  | Err e => Ret (Err e)
  | Ok owners =>
    let template := <[offloadingPatchHashAnnotation := offloadingPatchHash (st_OffloadingPatch (vn_status vn))]> template in
    Ret (Ok (mkObj ls annots (o_finalizers o) (o_deleting o) (o_version o)
      (AMap (PDeploy (mkDeployment owners (dp_paused old) (dp_replicas d) (dp_selector d) (dp_labels d) template (dp_image d) (dp_pullPolicy d)
        (dp_args d) (dp_ports d) (dp_nodeName d) (dp_serviceAccount d) (dp_rest d)))) (o_status o)))
  end.

Definition ensure_resources (ns name : string) (vn : Obj vpl) (opts : VkOptionsTemplate) : K W () :=
  _ ← create_or_update (account_key ns (VirtualKubeletServiceAccountName name)) (mutate_account vn);
  _ ← create_or_update (crb_key (VirtualKubeletClusterRoleBindingName ShortenString name)) (mutate_binding ns name LocalClusterRoleName vn);
  _ ← create_or_update (crb_key (VirtualKubeletAuthDelegatorClusterRoleBindingName ShortenString name)) (mutate_binding ns name AuthDelegatorRoleName vn);
  forged ← lift_outcome (f ← VirtualKubeletDeployment range HomeClusterID LiqoNamespace LocalPodCIDRs ns name (vn_spec vn) opts; Ret (Ok f));
  _ ← create_or_update (deploy_key (fd_namespace forged) (fd_name forged)) (mutate_deployment forged vn);
  mret ().
(** [vk_first]: the order in which the two conditions of the first change are visited. *)
Definition initial_changes (vk_first : bool) (createNode : bool) : list (VnConditionType * VnConditionStatus) :=
  let a := (VirtualKubeletConditionType, CondCreating) in
  let b := (NodeConditionType, if createNode then CondCreating else CondNone) in
  if vk_first then [a; b] else [b; a].
Definition running_changes (createNode : bool) (l : list VnCondition) : list VnCondition :=
  let l := ForgeCondition l [(VirtualKubeletConditionType, CondRunning)] in
  if createNode then ForgeCondition l [(NodeConditionType, CondRunning)] else l.
(** The status is written by a deferred call. *)
Definition ensureVirtualKubeletDeploymentPresence (vk_first : bool) (ns name : string) (vn : Obj vpl) (opts : VkOptionsTemplate) : K W () :=
  let createNode := EffectiveCreateNode (vn_spec vn) opts in
  let vn := set_conditions vn (ForgeCondition (st_Conditions (vn_status vn)) (initial_changes vk_first createNode)) in
  let vn := set_effective vn opts in
  r ← attempt (ensure_resources ns name vn opts);
  let vn := match r with Ok _ => set_conditions vn (running_changes createNode (st_Conditions (vn_status vn))) | Err _ => vn end in
  s ← attempt (update_status (vn_key ns name) vn);
  match r, s with Err e, _ | _, Err e => fail e | Ok _, Ok _ => mret () end.

(** vkMachinery/utils. *)
Definition GetVirtualKubeletDeployment (name : string) (vn : Obj vpl) : K W (option okey) :=
  l ← list_all "deployments" (VirtualKubeletLabels name (vn_spec vn));
  match l with [] => mret None | [d] => mret (Some d.1) | _ => fail OtherErr end.
Definition CheckVirtualKubeletPodAbsence (name : string) (vn : Obj vpl) : K W () :=
  l ← list_all "pods" (VirtualKubeletLabels name (vn_spec vn)); match l with [] => mret () | _ => fail OtherErr end.
Definition ensureVirtualKubeletDeploymentAbsence (name : string) (vn : Obj vpl) : K W () :=
  d ← GetVirtualKubeletDeployment name vn;
  _ ← match d with Some k => delete_ignoring k | None => mret () end;
  _ ← CheckVirtualKubeletPodAbsence name vn;
  _ ← delete_ignoring (crb_key (VirtualKubeletClusterRoleBindingName ShortenString name));
  delete_ignoring (crb_key (VirtualKubeletAuthDelegatorClusterRoleBindingName ShortenString name)).

(** ** cordon.go and drain.go *)

Definition cordonNode (k : okey) (o : Obj vpl) : K W () := _ ← c_Update cl k (set_spec o (AMap (PNode true))); mret ().
Definition getPodsForDeletion (node : string) : K W (list (okey * Obj vpl)) := l ← pods_on node; mret (List.filter (fun p => evictable p.2) l).
Fixpoint forcePodsDeletion (l : list (okey * Obj vpl)) : K W () :=
  match l with [] => mret () | (k, _) :: l => _ ← delete_ignoring k; forcePodsDeletion l end.
(** The pod that is read has an empty identifier when the call fails. *)
Fixpoint waitPodForDelete (fuel : nat) (k : okey) (uid : string) : K W () :=
  match fuel with
  | O => fun _ => Diverge
  | S fuel =>
    r ← attempt (c_Get cl k);
    let updated := match r with Ok o => pod_uid o | Err _ => ""%string end in
    if match r with Err NotFound => true | _ => false end || negb (bool_decide (uid = updated)) then mret ()
    else match r with
         | Err e => fail e
         | Ok _ => _ ← tick; waitPodForDelete fuel k uid
         end
  end.
Fixpoint evict_all (l : list (okey * Obj vpl)) : K W () :=
  match l with [] => mret () | (k, _) :: l => _ ← evict k; evict_all l end.
Fixpoint wait_all (fuel : nat) (l : list (okey * Obj vpl)) : K W () :=
  match l with [] => mret () | (k, o) :: l => _ ← waitPodForDelete fuel k (pod_uid o); wait_all fuel l end.
Definition evictPods (fuel : nat) (l : list (okey * Obj vpl)) : K W () := _ ← evict_all l; wait_all fuel l.
Definition drainNode (fuel : nat) (name clusterID : string) : K W () :=
  pods ← getPodsForDeletion name;
  r ← attempt (l ← list_foreign clusterID; match ForeignCluster.getForeignCluster l with Ok fc => mret fc | Err e => fail e end);
  fc ← match r with Ok fc => mret (Some fc) | Err NotFound => mret None | Err e => fail e end;
  if (ForeignCluster.IsDead fc).1 then forcePodsDeletion pods else evictPods fuel pods.

(** ** namespacemap.go *)

Definition nsmap_labels (clusterID : string) : labels :=
  {[ RemoteClusterID := clusterID; ReplicationRequestedLabel := "true"%string; ReplicationDestinationLabel := clusterID ]}.
(** The error is reported with the name of a map there is none of. *)
Definition ensureNamespaceMapPresence (vn : Obj vpl) : K W () :=
  let clusterID := vs_ClusterID (vn_spec vn) in
  r ← attempt (list_all "namespacemaps" (nsmap_labels clusterID));
  match r with
  | Err NotFound | Ok [] =>
    ns ← GetNamespace clusterID;
    _ ← ctrl_CreateOrUpdate cl (nsmap_key ns clusterID) (fun o => Ret (Ok (mkObj (nsmap_labels clusterID ∪ o_labels o) (o_annotations o) (o_finalizers o) (o_deleting o) (o_version o) (o_spec o) (o_status o))));
    mret ()
  | Ok [_] => mret ()
  | Err _ | Ok _ => panic
  end.
Fixpoint delete_maps (clusterID : string) (l : list (okey * Obj vpl)) : K W () :=
  match l with
  | [] => mret ()
  | (k, nm) :: l =>
    _ ← (if bool_decide (o_annotations nm !! ManagedNamespaceMapAnnotKey = Some "true"%string) then mret ()
         else
           vns ← list_all "virtualnodes" {[ RemoteClusterID := clusterID ]};
           if (List.length vns =? 1)%nat && negb (o_deleting nm) then delete_ignoring k else mret ());
    delete_maps clusterID l
  end.
Definition ensureNamespaceMapAbsence (vn : Obj vpl) : K W () :=
  let clusterID := vs_ClusterID (vn_spec vn) in
  l ← list_all "namespacemaps" {[ ReplicationDestinationLabel := clusterID ]}; delete_maps clusterID l.

(** ** deletion-routine.go *)

Definition GetNodeFromVirtualNode (name clusterID : string) : K W (okey * Obj vpl) :=
  l ← list_all "nodes" {[ RemoteClusterID := clusterID ]};
  match List.find (fun n => bool_decide (n.1.2 = name)) l with Some n => mret n | None => fail NotFound end.
(** [client.IgnoreNotFound]: the pointer stays nil. *)
Definition ignore_missing {A} (m : K W A) : K W (option A) :=
  r ← attempt m; match r with Ok a => mret (Some a) | Err NotFound => mret None | Err e => fail e end.
Definition drain_ignoring (fuel : nat) (name clusterID : string) : K W () :=
  r ← attempt (drainNode fuel name clusterID); match r with Ok _ | Err NotFound => mret () | Err e => fail e end.
(** The name of the node that was found first is printed when one is deleted. *)
Definition deleteVirtualKubelet (fuel : nat) (name : string) : V () :=
  vn ← current;
  let clusterID := vs_ClusterID (vn_spec vn) in
  node ← lift (ignore_missing (GetNodeFromVirtualNode name clusterID));
  _ ← match node with Some (k, o) => _ ← lift (cordonNode k o); lift (drain_ignoring fuel name clusterID) | None => mret () end;
  _ ← (if o_deleting vn then _ ← condition [(VirtualKubeletConditionType, CondDeleting)]; lift (ensureVirtualKubeletDeploymentAbsence name vn) else mret ());
  toDelete ← match node with Some n => mret (Some n) | None => lift (ignore_missing (GetNodeFromVirtualNode name clusterID)) end;
  _ ← condition [(NodeConditionType, CondDeleting)];
  match toDelete with
  | None => mret ()
  | Some (k, _) => _ ← lift (delete_ignoring k); match node with Some _ => mret () | None => panic end
  end.
Definition removeVirtualNodeFinalizer (k : okey) : V () :=
  vn ← current;
  let vn := (RemoveFinalizer virtualNodeControllerFinalizer vn).2 in
  _ ← assign vn;
  vn ← lift (c_Update cl k vn); assign vn.
Definition handle_body (fuel : nat) (k : okey) : V () :=
  _ ← condition [(NodeConditionType, CondDraining)];
  _ ← deleteVirtualKubelet fuel k.2;
  vn ← current;
  if o_deleting vn then _ ← lift (ensureNamespaceMapAbsence vn); removeVirtualNodeFinalizer k
  else condition [(NodeConditionType, CondNone)].
(** The status is written by a deferred call, whose error replaces the other one. *)
Definition deferring_status (k : okey) (vn : Obj vpl) (body : V ()) : K W () := fun w =>
  match body (w, vn) with
  | Ret ((w, vn), r) => (s ← attempt (update_status k vn); match s, r with Err e, _ | Ok _, Err e => fail e | Ok _, Ok _ => mret () end) w
  | Panic => Panic
  | Diverge => Diverge
  end.
Definition handle (fuel : nat) (ns name : string) : K W () :=
  let k := vn_key ns name in
  r ← attempt (c_Get cl k);
  match r with
  | Err NotFound => mret ()
  | Err e => fail e
  | Ok vn => deferring_status k vn (handle_body fuel k)
  end.

(** ** virtualnode_controller.go *)

Definition reconcile_rest (vk_first : bool) (ns name : string) (vn : Obj vpl) : K W () :=
  opts ← getVkOptionsTemplate vn;
  _ ← (if skip_deployment vn then mret ()
       else
         _ ← ensureVirtualKubeletDeploymentPresence vk_first ns name vn opts;
         if EffectiveCreateNode (vn_spec vn) opts then mret () else enqueue (ns, name));
  ensureNamespaceMapPresence vn.
Definition VnReconcile (vk_first : bool) (ns name : string) : K W () :=
  let k := vn_key ns name in
  r ← attempt (c_Get cl k);
  match r with
  | Err NotFound => mret ()
  | Err e => fail e
  | Ok vn =>
    if o_deleting vn then (if bool_decide (virtualNodeControllerFinalizer ∈ o_finalizers vn) then enqueue (ns, name) else mret ())
    else
      vn ← (if bool_decide (virtualNodeControllerFinalizer ∈ o_finalizers vn) then mret vn
            else c_Update cl k (AddFinalizer virtualNodeControllerFinalizer vn).2);
      vn ← (if vs_Template (vn_spec vn) then c_Update cl k (set_spec vn (AMap (PVn (vn_uid vn) (without_template (vn_spec vn))))) else mret vn);
      reconcile_rest vk_first ns name vn
  end.

(** ** Events *)

Definition enqueFromNamespaceMap (ls : labels) : K W (list (string * string)) :=
  match ls !! RemoteClusterID with
  | None => mret []
  | Some id =>
    if bool_decide (id = ""%string) then mret []
    else
      r ← attempt (list_all "virtualnodes" {[ RemoteClusterID := id ]});
      mret match r with Ok l => (fun v => (v.1.1.2, v.1.2)) <$> l | Err _ => [] end
  end.
Definition vkOptionsTemplateRefIndexer (vn : Obj vpl) : list (string * string) :=
  match vs_VkOptionsTemplateRef (vn_spec vn), VkOptsDefaultTemplate with
  | Some ref, _ | None, Some ref => [ref]
  | None, None => []
  end.
Definition enqueueFromVkOptionsTemplate (template : string * string) : K W (list (string * string)) :=
  r ← attempt (list_all "virtualnodes" ∅);
  mret match r with
       | Ok l => (fun v => (v.1.1.2, v.1.2)) <$> List.filter (fun v => bool_decide (template ∈ vkOptionsTemplateRefIndexer v.2)) l
       | Err _ => []
       end.
End controller.
