(* ===== verification/VirtualNodeProps.v ===== *)
(** * VirtualNodeProps: virtual nodes come up and are taken down in order *)

From S2P Require Export VirtualNode.
From S2P Require FirewallSem.
From Stdlib Require Import Ascii.
Local Open Scope Z_scope.

(** ** Conditions *)

(** All entries of a type have the same status. *)
Definition uniform (l : list VnCondition) : Prop := ∀ c c', c ∈ l → c' ∈ l → cn_Type c = cn_Type c' → cn_Status c = cn_Status c'.
Definition status_of (l : list VnCondition) (t : VnConditionType) : option VnConditionStatus := cn_Status <$> GetCondition l t.

Lemma status_of_spec l t : uniform l → ∀ c, c ∈ l → cn_Type c = t → status_of l t = Some (cn_Status c).
Proof.
  intros Hu c Hc Ht. unfold status_of, GetCondition. destruct (List.find _ l) as [c'|] eqn:E; cbn.
  - apply List.find_some in E as [Hin Hb%bool_decide_eq_true]. f_equal. apply Hu; [by apply list_elem_of_In|done|congruence].
  - apply list_elem_of_In in Hc. apply (List.find_none _ _ E) in Hc. by rewrite bool_decide_false_iff in Hc || (apply bool_decide_eq_false in Hc; congruence).
Qed.
Lemma status_of_none l t : status_of l t = None ↔ ∀ c, c ∈ l → cn_Type c ≠ t.
Proof.
  unfold status_of, GetCondition. destruct (List.find _ l) as [c'|] eqn:E; cbn.
  - apply List.find_some in E as [Hin Hb%bool_decide_eq_true]. split; [done|]. intros H. by destruct (H c'); [apply list_elem_of_In|].
  - split; [|done]. intros _ c Hc%list_elem_of_In. apply (List.find_none _ _ E) in Hc. by apply bool_decide_eq_false in Hc.
Qed.

Definition with_status (t : VnConditionType) (s : VnConditionStatus) (c : VnCondition) : VnCondition := if bool_decide (cn_Type c = t) then mkVnCondition t s else c.
Lemma with_status_same t s c : cn_Type c = t → with_status t s c = mkVnCondition t s.
Proof. intros H. unfold with_status. by rewrite bool_decide_true. Qed.
Lemma with_status_other t s c : cn_Type c ≠ t → with_status t s c = c.
Proof. intros H. unfold with_status. by rewrite bool_decide_false. Qed.
Lemma scan_spec t s l : uniform l →
  scan t s l = match status_of l t with
               | Some old => if refuses old s then (l, true) else (with_status t s <$> l, false)
               | None => (l, false)
               end.
Proof.
  induction l as [|c l IH]; intros Hu; [done|]. cbn [scan].
  assert (Hu' : uniform l) by (intros x y Hx Hy; apply Hu; by right). specialize (IH Hu').
  destruct (decide (cn_Type c = t)) as [Hc|Hc].
  - rewrite (status_of_spec (c :: l) t Hu c) by (done || by left). rewrite bool_decide_true by done.
    destruct (refuses (cn_Status c) s) eqn:Er; [done|]. rewrite IH.
    assert (Hst : status_of l t = None ∨ status_of l t = Some (cn_Status c)).
    { destruct (status_of l t) as [x|] eqn:Es; [right|by left]. unfold status_of, GetCondition in Es.
      destruct (List.find _ l) as [c'|] eqn:E; [|done]. apply List.find_some in E as [Hin Hb%bool_decide_eq_true]. injection Es as <-. f_equal.
      apply Hu; [right; by apply list_elem_of_In|by left|congruence]. }
    cbn [fmap list_fmap]. rewrite with_status_same by done. destruct Hst as [Hst|Hst]; rewrite Hst.
    + f_equal. f_equal. symmetry. rewrite status_of_none in Hst. clear -Hst. induction l as [|x l IH]; [done|]. cbn. rewrite with_status_other by (apply Hst; by left). f_equal. apply IH. intros y Hy. apply Hst. by right.
    + by rewrite Er.
  - rewrite bool_decide_false by done. rewrite IH.
    assert (Hst : status_of (c :: l) t = status_of l t) by (unfold status_of, GetCondition; cbn; by rewrite bool_decide_false).
    rewrite Hst. destruct (status_of l t) as [old|]; [|done]. case_match; [done|]. cbn [fmap list_fmap]. by rewrite with_status_other.
Qed.

Lemma uniform_set t s l : uniform l → uniform ((with_status t s <$> l) ++ [mkVnCondition t s]).
Proof.
  intros Hu. assert (H : ∀ c, c ∈ (with_status t s <$> l) ++ [mkVnCondition t s] → (cn_Type c = t ∧ cn_Status c = s) ∨ (cn_Type c ≠ t ∧ c ∈ l)).
  { intros c [(c0 & -> & Hc0)%list_elem_of_fmap|Hc]%elem_of_app.
    - unfold with_status. case_bool_decide; [by left|by right].
    - apply list_elem_of_singleton in Hc as ->. by left. }
  intros c c' [[H1 H2]|[H1 H2]]%H [[H3 H4]|[H3 H4]]%H E; try congruence. by apply Hu.
Qed.
Lemma with_status_absent t s l : status_of l t = None → with_status t s <$> l = l.
Proof.
  rewrite status_of_none. induction l as [|x l IH]; intros H; [done|]. cbn. rewrite with_status_other by (apply H; by left). f_equal. apply IH. intros y Hy. apply H. by right.
Qed.
Lemma status_of_set t s l t' : uniform l → status_of ((with_status t s <$> l) ++ [mkVnCondition t s]) t' = if bool_decide (t' = t) then Some s else status_of l t'.
Proof.
  intros Hu. pose proof (uniform_set t s l Hu) as Hu'. case_bool_decide as Ht.
  - apply (status_of_spec _ _ Hu' (mkVnCondition t s)); [|done]. apply elem_of_app. right. by apply list_elem_of_singleton.
  - destruct (status_of l t') as [x|] eqn:E.
    + unfold status_of, GetCondition in E. destruct (List.find _ l) as [c|] eqn:Ef; [|done]. apply List.find_some in Ef as [Hin Hb%bool_decide_eq_true]. injection E as <-.
      apply (status_of_spec _ _ Hu' c); [|done]. apply elem_of_app. left. apply list_elem_of_fmap. exists c. split; [by rewrite with_status_other by congruence|by apply list_elem_of_In].
    + rewrite status_of_none in E |- *. intros c [(c0 & -> & Hc0)%list_elem_of_fmap|Hc]%elem_of_app.
      * unfold with_status. case_bool_decide; [by apply not_eq_sym|by apply E].
      * apply list_elem_of_singleton in Hc as ->. by apply not_eq_sym.
Qed.
(** One change: refused, or made everywhere and written once more at the end. *)
Lemma forge_one t s l changes : uniform l →
  ForgeCondition l ((t, s) :: changes) =
  if match status_of l t with Some old => refuses old s | None => false end then l
  else ForgeCondition ((with_status t s <$> l) ++ [mkVnCondition t s]) changes.
Proof.
  intros Hu. cbn [ForgeCondition]. rewrite (scan_spec t s l Hu). destruct (status_of l t) as [old|] eqn:E.
  - by destruct (refuses old s).
  - by rewrite with_status_absent.
Qed.

(** How the status of a type may move. *)
Inductive moves : option VnConditionStatus → option VnConditionStatus → Prop :=
| moves_stay x : moves x x
| moves_new s x : moves (Some s) x → moves None x
| moves_to old s x : refuses old s = false → moves (Some s) x → moves (Some old) x.

(** The conditions of a VirtualNode in any history of changes: the entries of a type
    agree, and the status never goes from running back to creating, from none to
    draining or deleting, or from deleting back to draining in one change. *)
Theorem conditions_consistent l changes : uniform l →
  uniform (ForgeCondition l changes) ∧ ∀ t, moves (status_of l t) (status_of (ForgeCondition l changes) t).
Proof.
  revert l. induction changes as [|[t s] changes IH]; intros l Hu; [split; [done|intros t; constructor]|].
  rewrite forge_one by done. destruct (match status_of l t with Some old => refuses old s | None => false end) eqn:E; [split; [done|intros t'; constructor]|].
  destruct (IH _ (uniform_set t s l Hu)) as [Hu' Hm]. split; [done|]. intros t'. specialize (Hm t'). rewrite status_of_set in Hm by done.
  case_bool_decide as Ht; [|done]. subst t'. destruct (status_of l t) as [old|]; [by eapply moves_to|by eapply moves_new].
Qed.

(** Each change adds an entry: a node that is disabled and enabled again [n] times has
    [2 n] entries more. *)
Definition toggle (l : list VnCondition) : list VnCondition := ForgeCondition (ForgeCondition l [(NodeConditionType, CondNone)]) [(NodeConditionType, CondRunning)].
Theorem conditions_pile_up n l : uniform l → status_of l NodeConditionType = Some CondRunning →
  List.length (Nat.iter n toggle l) = (List.length l + 2 * n)%nat ∧ status_of (Nat.iter n toggle l) NodeConditionType = Some CondRunning.
Proof.
  intros Hu Hs. enough (uniform (Nat.iter n toggle l) ∧ List.length (Nat.iter n toggle l) = (List.length l + 2 * n)%nat ∧ status_of (Nat.iter n toggle l) NodeConditionType = Some CondRunning) by tauto.
  induction n as [|n (IH1 & IH2 & IH3)]; [split; [done|split; [cbn; lia|done]]|]. change (Nat.iter (S n) toggle l) with (toggle (Nat.iter n toggle l)).
  set (l0 := Nat.iter n toggle l) in *. assert (E : ForgeCondition l0 [(NodeConditionType, CondNone)] = (with_status NodeConditionType CondNone <$> l0) ++ [mkVnCondition NodeConditionType CondNone]).
  { rewrite forge_one by done. by rewrite IH3. }
  pose proof (uniform_set NodeConditionType CondNone _ IH1) as Hu2. unfold toggle. rewrite E, forge_one by done. rewrite status_of_set by done. rewrite bool_decide_true by done.
  cbn [refuses ForgeCondition]. rewrite bool_decide_false by done.
  split; [by apply uniform_set|]. split; [|rewrite status_of_set by done; by rewrite bool_decide_true].
  rewrite !length_app, !length_fmap, length_app, length_fmap. cbn. lia.
Qed.
(** Whether a running node that is disabled is reported as such depends on the order
    in which a map is visited. *)
Theorem disabled_node_order : let l := [mkVnCondition VirtualKubeletConditionType CondRunning; mkVnCondition NodeConditionType CondRunning] in
  status_of (ForgeCondition l (initial_changes true false)) NodeConditionType = Some CondRunning ∧
  status_of (ForgeCondition l (initial_changes false false)) NodeConditionType = Some CondNone.
Proof. split; reflexivity. Qed.

(** ** Templates *)

Abbreviation lacks := FirewallSem.lacks.
Lemma Split_part c a b : lacks c a → Split c (a ++ String c b) = a :: Split c b.
Proof. intros Ha. by apply Split_app, FirewallSem.Split_lacks. Qed.
Lemma serialized_app s l : foldl (fun s k => (s ++ k ++ ",")%string) s l = (s ++ foldl (fun s k => (s ++ k ++ ",")%string) ""%string l)%string.
Proof.
  revert s. induction l as [|k l IH]; intros s; cbn [foldl]; [by rewrite string_app_nil|]. rewrite (IH (s ++ k ++ ",")%string), (IH ("" ++ k ++ ",")%string).
  by rewrite string_app_assoc.
Qed.
Lemma Split_serialized l : (∀ k, k ∈ l → lacks "," k) → Split "," (foldl (fun s k => (s ++ k ++ ",")%string) ""%string l) = l ++ [""%string].
Proof.
  induction l as [|k l IH]; intros H; [done|]. cbn [foldl]. rewrite serialized_app. change ("" ++ k ++ ",")%string with (k ++ ",")%string. rewrite string_app_assoc.
  change ("," ++ foldl (fun s k => (s ++ k ++ ",")%string) "" l)%string with (String "," (foldl (fun s k => (s ++ k ++ ",")%string) ""%string l)).
  rewrite Split_part by (apply H; by left). cbn. f_equal. apply IH. intros x Hx. apply H. by right.
Qed.
Definition plain_keys (m : labels) : Prop := ∀ k, is_Some (m !! k) → lacks "," k.
(** The keys of a template are read back. *)
Lemma cached_keys annots t key k : plain_keys t → k ∈ cached (UpdateCache annots t key) key ↔ is_Some (t !! k) ∨ k = ""%string.
Proof.
  intros Hp. unfold cached, UpdateCache. rewrite lookup_insert_eq. cbn. unfold DeSerializeCache, SerializeMap. rewrite Split_serialized.
  - rewrite elem_of_app, list_elem_of_singleton. unfold sort_strings. rewrite elem_of_sort_by. f_equiv. rewrite list_elem_of_fmap. split.
    + intros ([k' v] & -> & Hk%elem_of_map_to_list). by exists v.
    + intros [v Hv]. exists (k, v). split; [done|]. by apply elem_of_map_to_list.
  - intros x Hx. unfold sort_strings in Hx. apply elem_of_sort_by in Hx. apply list_elem_of_fmap in Hx as ([k' v] & -> & Hk%elem_of_map_to_list). apply Hp. by exists v.
Qed.
Lemma FilteredDeletedEntries_lookup m1 m2 cache k :
  FilteredDeletedEntries m1 m2 cache !! k = if bool_decide (k ∈ cache) && negb (bool_decide (is_Some (m2 !! k))) then None else m1 !! k.
Proof.
  unfold FilteredDeletedEntries. revert m1. induction cache as [|c cache IH]; intros m1; [done|]. cbn [foldl]. rewrite IH.
  rewrite (bool_decide_ext (k ∈ c :: cache) (k = c ∨ k ∈ cache)) by apply elem_of_cons.
  destruct (decide (k = c)) as [->|Hne].
  - rewrite (bool_decide_true (c = c ∨ _)) by (by left). destruct (m2 !! c) as [v|] eqn:E.
    + rewrite (bool_decide_true (is_Some (Some v))) by done. by rewrite !andb_false_r.
    + rewrite (bool_decide_false (is_Some None)) by (by intros []). rewrite lookup_delete_eq. by destruct (_ && _).
  - rewrite (bool_decide_ext (k = c ∨ k ∈ cache) (k ∈ cache)) by naive_solver. f_equal.
    destruct (m2 !! c); [done|by rewrite lookup_delete_ne].
Qed.

(** What a second template leaves of the labels that a first one gave an object: its own
    labels, no label that only the first one had, and the labels that neither had. *)
Theorem template_labels_follow labs annots t t' l1 a1 l2 a2 k : plain_keys t → k ≠ ""%string →
  SmartMergeLabels labs annots t = (l1, a1) → SmartMergeLabels l1 a1 t' = (l2, a2) →
  l2 !! k = match t' !! k with
            | Some v => Some v
            | None => if bool_decide (is_Some (t !! k)) then None else l1 !! k
            end ∧ cached a2 LabelsTemplateAnnotationKey = cached (UpdateCache ∅ t' LabelsTemplateAnnotationKey) LabelsTemplateAnnotationKey.
Proof.
  intros Hp Hk [= H1 H2] [= H3 H4]. subst. split.
  - destruct (t' !! k) as [v|] eqn:E; [by apply lookup_union_Some_l|]. rewrite lookup_union_r by done.
    unfold FilteredDeletedLabels at 1. rewrite FilteredDeletedEntries_lookup, E. rewrite (bool_decide_false (is_Some None)) by (by intros []).
    cbn [negb]. rewrite andb_true_r. rewrite (bool_decide_ext (k ∈ _) (is_Some (t !! k) ∨ k = ""%string)) by (by apply cached_keys).
    by rewrite (bool_decide_ext (is_Some (t !! k) ∨ k = ""%string) (is_Some (t !! k))) by naive_solver.
  - unfold cached, UpdateCache. by rewrite !lookup_insert_eq.
Qed.

(** ** Arguments that hold maps *)

Lemma lacks_app c a b : lacks c a → lacks c b → lacks c (a ++ b)%string.
Proof.
  induction a as [|d a IH]; intros Ha Hb; [done|]. apply FirewallSem.lacks_cons in Ha as [Hne Ha].
  change (String d a ++ b)%string with (String d (a ++ b)). apply FirewallSem.lacks_cons. auto.
Qed.
Lemma split_first_app c a b : lacks c a → split_first c (a ++ String c b) = Some (a, b).
Proof.
  induction a as [|d a IH]; intros Ha.
  - change ("" ++ String c b)%string with (String c b). cbn [split_first]. by rewrite bool_decide_true.
  - change (String d a ++ String c b)%string with (String d (a ++ String c b)). cbn [split_first].
    apply FirewallSem.lacks_cons in Ha as [Hne Ha]. rewrite bool_decide_false by congruence. by rewrite (IH Ha).
Qed.
Lemma Split_concat l : l ≠ [] → (∀ s, s ∈ l → lacks "," s) → Split "," (String.concat "," l) = l.
Proof.
  induction l as [|s l IH]; intros Hn Hl; [done|]. destruct l as [|s' l].
  - cbn [String.concat]. apply FirewallSem.Split_lacks. apply Hl. by left.
  - change (String.concat "," (s :: s' :: l)) with (s ++ String "," (String.concat "," (s' :: l)))%string.
    rewrite Split_part by (apply Hl; by left). f_equal. apply IH; [done|]. intros x Hx. apply Hl. by right.
Qed.
Definition plain_entry (kv : string * string) : Prop := lacks "," kv.1 ∧ lacks "=" kv.1 ∧ lacks "," kv.2.
Lemma set_chunks_entries m l : (∀ kv, kv ∈ l → plain_entry kv) → NoDup l.*1 → (∀ k, k ∈ l.*1 → m !! k = None) →
  set_chunks m ((fun kv => (kv.1 ++ "=" ++ kv.2)%string) <$> l) = Some (list_to_map l ∪ m).
Proof.
  revert m. induction l as [|[k v] l IH]; intros m Hp Hn Hm; [by rewrite fmap_nil; cbn; rewrite (left_id_L ∅ (∪))|].
  rewrite fmap_cons. cbn [set_chunks fst snd]. change ("=" ++ v)%string with (String "=" v).
  rewrite split_first_app by (destruct (Hp (k, v)) as (_ & ? & _); [by left|done]). cbn [mbind option_bind].
  apply NoDup_cons in Hn as [Hk Hn]. rewrite IH; [|intros kv Hkv; apply Hp; by right|done|].
  - f_equal. cbn [list_to_map foldr uncurry]. change (foldr _ ∅ l) with (list_to_map l : labels). rewrite <- insert_union_l. symmetry. apply insert_union_r. by apply not_elem_of_list_to_map_1.
  - intros k' Hk'. rewrite lookup_insert_ne; [apply Hm; by right|]. intros <-. contradiction.
Qed.
(** The maps that an argument of the virtual kubelet holds are read back by it, in
    whatever order they were written, if no entry has a comma and no key an equals sign. *)
Theorem string_map_roundtrip (range : labels → list (string * string)) m : range m ≡ₚ map_to_list m →
  (∀ k v, m !! k = Some v → plain_entry (k, v)) → StringMap_Set ∅ (StringMap_String (range m)) = Some m.
Proof.
  intros Hr Hp. assert (Hin : ∀ kv, kv ∈ range m → plain_entry kv).
  { intros [k v] Hk. rewrite Hr in Hk. apply elem_of_map_to_list in Hk. by apply Hp. }
  assert (Hnd : NoDup (range m).*1) by (rewrite Hr; apply NoDup_fst_map_to_list).
  assert (Hm : list_to_map (range m) = m) by (by rewrite (list_to_map_proper _ _ Hnd Hr), list_to_map_to_list).
  unfold StringMap_Set, StringMap_String. destruct (range m) as [|[k v] l] eqn:E; [cbn in Hm; by rewrite <- Hm|].
  rewrite bool_decide_false.
  - rewrite Split_concat; [|done|].
    + rewrite set_chunks_entries; [|done|done|by intros; apply lookup_empty]. by rewrite (right_id_L ∅ (∪)), Hm.
    + intros s ([k' v'] & -> & Hs)%list_elem_of_fmap. destruct (Hin _ Hs) as (H1 & _ & H3). cbn in H1, H3. apply lacks_app; [done|]. apply lacks_app; [unfold lacks; vm_compute; set_solver|done].
  - intros H. assert (Hl : lacks "=" ""%string) by (unfold lacks; apply not_elem_of_nil). rewrite <- H in Hl.
    rewrite fmap_cons in Hl. cbn [fst snd] in Hl. clear -Hl. assert (Hg : ∀ a b, ~ lacks "=" (a ++ String "=" b)%string).
    { intros a b. induction a as [|d a IH]; intros Hx; [|change (String d a ++ String "=" b)%string with (String d (a ++ String "=" b)) in Hx];
      apply FirewallSem.lacks_cons in Hx as [? ?]; [done|by apply IH]. }
    destruct ((fun kv => (kv.1 ++ "=" ++ kv.2)%string) <$> l) as [|s ss]; cbn [String.concat] in Hl; [by apply (Hg k v)|].
    apply (Hg k (v ++ "," ++ String.concat "," (s :: ss))%string). by rewrite string_app_assoc in Hl.
Qed.
Lemma string_map_roundtrip_witness : StringMap_Set ∅ (StringMap_String (map_to_list ({["zone" := "a"; "tier" := "x=y"]} : labels)%string)) = Some {["zone" := "a"; "tier" := "x=y"]}%string.
Proof.
  apply (string_map_roundtrip map_to_list); [done|]. intros k v Hk.
  apply lookup_insert_Some in Hk as [[<- <-]|[_ Hk]]; [|apply lookup_singleton_Some in Hk as [<- <-]];
  repeat split; unfold lacks; vm_compute; set_solver.
Defined.
(** A value with a comma is refused: the virtual kubelet that is started with it fails. *)
Theorem string_map_comma : StringMap_Set ∅ (StringMap_String (map_to_list ({["zones" := "a,b"]} : labels)%string)) = None.
Proof. reflexivity. Qed.
(** Two forgings of the same VirtualNode with the same options differ in an argument. *)
Theorem args_order : let m : labels := {["zone" := "a"; "tier" := "b"]}%string in
  let opts := mkVkOptionsTemplate true false "image" false "" [] [] ∅ [] ∅ ∅ ∅ m None "" "" in
  let range r (x : labels) := if (r : bool) then rev (map_to_list x) else map_to_list x in
  VirtualKubeletDeployment (range true) "home" "liqo" [] "tenant" "node" zero_spec opts ≠ VirtualKubeletDeployment (range false) "home" "liqo" [] "tenant" "node" zero_spec opts.
Proof. intros m opts range H. vm_compute in H. congruence. Qed.
