(* ===== verification/VirtualNodeLife.v ===== *)
(** * VirtualNodeLife: the finalizer of a virtual node is the last thing to go

    The deletion routine against an API server.  Evictions, polls and the resources of
    other controllers are what the environment answers. *)

From S2P Require Export VirtualNodeProps.
Local Open Scope Z_scope.

(** A computation whose result tells the rest what to expect. *)
Lemma preserves_bind_post {W A B} (I : W → Prop) (Q : A → Prop) (m : K W A) (f : A → K W B) :
  preserves I m → (∀ w w' a, m w = Ret (w', Ok a) → Q a) → (∀ a, Q a → preserves I (f a)) → preserves I (m ≫= f).
Proof.
  intros Hm HQ Hf w w' res HI [(a & w1 & H1 & H2)|(e & H1 & ->)]%K_bind_inv; [|by eapply Hm].
  eapply Hf; [by eapply HQ| |done]. by eapply Hm.
Qed.
Lemma lift_inv {W A} (m : K W A) wv wv' r : lift m wv = Ret (wv', r) → m wv.1 = Ret (wv'.1, r) ∧ wv'.2 = wv.2.
Proof. unfold lift. destruct (m wv.1) as [[w1 x]| |]; [|done..]. by intros [= <- <-]. Qed.
Lemma current_inv {W} (wv wv' : W * Obj vpl) r : current wv = Ret (wv', r) → wv' = wv ∧ r = Ok wv.2.
Proof. by intros [= <- <-]. Qed.
Lemma lift_run {W A} (m : K W A) w w' vn r : m w = Ret (w', r) → lift m (w, vn) = Ret ((w', vn), r).
Proof. unfold lift. cbn. by intros ->. Qed.
Lemma find_node {W} (list_all : string → labels → K W (list (okey * Obj vpl))) name c w w' l : list_all "nodes"%string {[ RemoteClusterID := c ]} w = Ret (w', Ok l) →
  ignore_missing (GetNodeFromVirtualNode list_all name c) w = Ret (w', Ok (List.find (fun n => bool_decide (n.1.2 = name)) l)).
Proof.
  intros Hl. unfold ignore_missing. assert (E : GetNodeFromVirtualNode list_all name c w = Ret (w', match List.find (fun n => bool_decide (n.1.2 = name)) l with Some n => Ok n | None => Err NotFound end)).
  { unfold GetNodeFromVirtualNode. erewrite K_bind_ok by exact Hl. by case_match. }
  erewrite K_bind_ok by (apply attempt_ok; exact E). by destruct (List.find _ l).
Qed.
(** The same rule for both spellings of the monad. *)
Lemma V_bind_ok {W A B} (m : V (W := W) A) (f : A → V (W := W) B) (wv wv1 : W * Obj vpl) a : m wv = Ret (wv1, Ok a) → (m ≫= f) wv = f a wv1.
Proof. apply (K_bind_ok m). Qed.
Tactic Notation "vstep" "by" tactic3(tac) := first [erewrite K_bind_ok by tac | erewrite V_bind_ok by tac].

Section life.
Context {Api : KubeApi vpl} {L : Type} (lists : string → string → labels → server → list (string * Obj vpl)).
Notation W := (pworld vpl L).
Notation "w ⋅ k" := (content (pw_server w) !! k) (at level 20, k at next level).
Notation cl := (plain_client lists).
Context (pods_on : string → K W (list (okey * Obj vpl))) (evict : okey → K W ()) (tick : K W ())
  (list_foreign : string → K W (list ForeignCluster.ForeignCluster)) (ShortenString : string → nat → string).

(** Objects of a resource with labels; nodes have no namespace. *)
Definition listed (r : string) (ls : labels) (x : okey * Obj vpl) : Prop :=
  x.1.1.1 = r ∧ ls ⊆ o_labels x.2 ∧ (r = "nodes"%string → x.1.1.2 = ""%string).
#[local] Instance listed_dec r ls x : Decision (listed r ls x).
Proof. unfold listed. apply _. Defined.
Definition list_all (r : string) (ls : labels) : K W (list (okey * Obj vpl)) := fun w =>
  Ret (w, Ok (filter (listed r ls) (map_to_list (content (pw_server w))))).
Definition status_update (k : okey) (o : Obj vpl) : K W (Obj vpl) := on_pserver (UpdateStatus k o).

Lemma list_all_inv r ls w w' x : list_all r ls w = Ret (w', x) → w' = w ∧ ∃ l, x = Ok l ∧ ∀ y, y ∈ l ↔ listed r ls y ∧ w ⋅ (y.1) = Some y.2.
Proof.
  intros [= <- <-]. split; [done|]. eexists. split; [done|]. intros [k o]. by rewrite list_elem_of_filter, elem_of_map_to_list.
Qed.

Context (ns name : string).
Notation key := (vn_key ns name).
(** The VirtualNode has the finalizer of the controller. *)
Definition kept (w : W) : Prop := ∃ o, w ⋅ key = Some o ∧ virtualNodeControllerFinalizer ∈ o_finalizers o.

(** What the rest of the cluster does: pods are listed and evicted, and nobody else
    removes the finalizer while the routine waits. *)
Record environment : Prop := {
  env_pods n w w' r : pods_on n w = Ret (w', r) → w' = w ∧ ∀ l, r = Ok l → ∀ p, p ∈ l → p.1.1.1 = "pods"%string;
  env_foreign c w w' r : list_foreign c w = Ret (w', r) → w' = w;
  env_evict k w w' r : evict k w = Ret (w', r) → only k w w';
  env_tick : preserves kept tick
}.

(** ** What is left of a virtual node *)

Definition every (Q : okey → Obj vpl → Prop) (w : W) : Prop := ∀ k o, w ⋅ k = Some o → Q k o.
Lemma every_only Q k (w w' : W) : only k w w' → (∀ o, w' ⋅ k = Some o → Q k o) → every Q w → every Q w'.
Proof.
  intros [_ Ho] Hk HQ k' o H. destruct (decide (k' = k)) as [->|Hne]; [by apply Hk|]. apply HQ. by rewrite <- Ho.
Qed.
Definition no_deployment (s : VnSpec) (k : okey) (o : Obj vpl) : Prop :=
  k.1.1 = "deployments"%string → VirtualKubeletLabels name s ⊆ o_labels o → o_deleting o = true.
Definition no_pod (s : VnSpec) (k : okey) (o : Obj vpl) : Prop :=
  k.1.1 = "pods"%string → ~ VirtualKubeletLabels name s ⊆ o_labels o.
Definition no_object (k' k : okey) (o : Obj vpl) : Prop := k = k' → o_deleting o = true.
Definition no_node (s : VnSpec) (k : okey) (o : Obj vpl) : Prop :=
  k = ("nodes", "", name)%string → {[ RemoteClusterID := vs_ClusterID s ]} ⊆ o_labels o → o_deleting o = true.
Record stopped (s : VnSpec) (w : W) : Prop := {
  sd_deployment : every (no_deployment s) w;
  sd_pods : every (no_pod s) w;
  sd_binding : every (no_object (crb_key (VirtualKubeletClusterRoleBindingName ShortenString name))) w;
  sd_delegator : every (no_object (crb_key (VirtualKubeletAuthDelegatorClusterRoleBindingName ShortenString name))) w
}.
Definition down (s : VnSpec) (w : W) : Prop := stopped s w ∧ every (no_node s) w.

(** ** Calls *)

Lemma kept_only k (w w' : W) : k ≠ key → only k w w' → kept w → kept w'.
Proof. intros Hk [_ Ho] (o & H & Hf). exists o. by rewrite Ho. Qed.
Lemma delete_ignoring_only k (w w' : W) r : delete_ignoring cl k w = Ret (w', r) → only k w w'.
Proof.
  intros [(a & w1 & (x & H1 & [= ->])%attempt_inv & H2)|(e & (x & _ & [=])%attempt_inv & _)]%K_bind_inv.
  apply plain_delete_frame in H1. destruct x as [?|[]]; injection H2 as <- _; done.
Qed.
(** A deletion that returns leaves nothing, or an object that waits for others. *)
Lemma delete_ignoring_done k (w w' : W) : delete_ignoring cl k w = Ret (w', Ok ()) → ∀ o, w' ⋅ k = Some o → o_deleting o = true.
Proof.
  intros [(a & w1 & (x & H1 & [= ->])%attempt_inv & H2)|(e & (x & _ & [=])%attempt_inv & _)]%K_bind_inv.
  apply on_pserver_inv in H1 as [H1 _]. destruct x as [[]|[]]; try discriminate H2; injection H2 as <-; intros o Ho.
  - destruct (Delete_ok _ _ _ H1) as (cur & o' & _ & E & _ & _ & _ & Hd). rewrite E in Ho. unfold store_obj in Ho.
    case_match; [by rewrite lookup_delete_eq in Ho|]. rewrite lookup_insert_eq in Ho. by injection Ho as <-.
  - destruct (Delete_gone _ _ _ H1) as [Hn Hc]. by rewrite Hc, Hn in Ho.
Qed.
Lemma delete_every Q k (w w' : W) : (∀ o, o_deleting o = true → Q k o) → delete_ignoring cl k w = Ret (w', Ok ()) → every Q w → every Q w'.
Proof. intros HQ H. apply (every_only Q k); [by eapply delete_ignoring_only|]. intros o Ho. by eapply HQ, delete_ignoring_done. Qed.
Lemma kept_delete k : k ≠ key → preserves kept (delete_ignoring cl k).
Proof. intros Hk w w' r HI H. by eapply kept_only; [|eapply delete_ignoring_only|]. Qed.
Lemma kept_list r ls : preserves kept (list_all r ls).
Proof. by intros w w' x HI [-> _]%list_all_inv. Qed.
Lemma kept_update k o : k ≠ key → preserves kept (c_Update cl k o).
Proof. intros Hk w w' r HI H. by eapply kept_only; [|eapply plain_update_frame|]. Qed.
Lemma other_key (k : okey) r : k.1.1 = r → r ≠ "virtualnodes"%string → k ≠ key.
Proof. by intros <- Hn ->. Qed.

Context (Henv : environment).
Lemma kept_force l : (∀ p, p ∈ l → p.1.1.1 = "pods"%string) → preserves kept (forcePodsDeletion cl l).
Proof.
  induction l as [|[k o] l IH]; intros Hl; cbn [forcePodsDeletion]; [apply preserves_ret|].
  apply preserves_bind; [|intros _; apply IH; intros p Hp; apply Hl; by right].
  apply kept_delete, (other_key _ "pods"); [apply (Hl (k, o)); by left|done].
Qed.
Lemma kept_evict l : (∀ p, p ∈ l → p.1.1.1 = "pods"%string) → preserves kept (evict_all evict l).
Proof.
  induction l as [|[k o] l IH]; intros Hl; cbn [evict_all]; [apply preserves_ret|].
  apply preserves_bind; [|intros _; apply IH; intros p Hp; apply Hl; by right].
  intros w w' r HI H%(env_evict Henv). eapply kept_only; [|done..]. apply (other_key _ "pods"); [apply (Hl (k, o)); by left|done].
Qed.
Lemma kept_get k : preserves kept (c_Get cl k).
Proof. by intros w w' r HI [= <- _]. Qed.
Lemma kept_waits fuel k uid : preserves kept (waitPodForDelete cl tick fuel k uid).
Proof.
  induction fuel as [|fuel IH]; [done|]. cbn [waitPodForDelete]. apply preserves_bind; [apply preserves_attempt, kept_get|].
  intros r. cbv zeta. case_match; [apply preserves_ret|]. destruct r; [|apply preserves_fail]. apply preserves_bind; [apply (env_tick Henv)|done].
Qed.
Lemma kept_wait_all fuel l : preserves kept (wait_all cl tick fuel l).
Proof. induction l as [|[k o] l IH]; cbn [wait_all]; [apply preserves_ret|]. apply preserves_bind; [apply kept_waits|done]. Qed.
Lemma kept_foreign c : preserves kept (list_foreign c).
Proof. by intros w w' r HI ->%(env_foreign Henv). Qed.
Lemma kept_drain fuel c : preserves kept (drain_ignoring cl pods_on evict tick list_foreign fuel name c).
Proof.
  unfold drain_ignoring. apply preserves_bind; [apply preserves_attempt|intros [?|[]]; auto with preserves].
  unfold drainNode. apply (preserves_bind_post _ (fun l => ∀ p, p ∈ l → p.1.1.1 = "pods"%string)).
  - unfold getPodsForDeletion. apply preserves_bind; [|intros; apply preserves_ret]. by intros w w' r HI [-> _]%(env_pods Henv).
  - intros w w' l [(a & w1 & H1 & [= <- <-])|(e & _ & [=])]%K_bind_inv p Hp. apply (env_pods Henv) in H1 as [_ H1]. apply (H1 a eq_refl).
    apply list_elem_of_In, List.filter_In in Hp as [Hp _]. by apply list_elem_of_In.
  - intros l Hl. apply preserves_bind.
    { apply preserves_attempt, preserves_bind; [apply kept_foreign|]. intros x. case_match; auto with preserves. }
    intros x. apply preserves_bind; [repeat case_match; auto with preserves|]. intros fc. case_match; [by apply kept_force|].
    apply preserves_bind; [by apply kept_evict|intros _; apply kept_wait_all].
Qed.

(** ** The virtual kubelet *)

Lemma deployment_found vn w w' r : GetVirtualKubeletDeployment list_all name vn w = Ret (w', r) → w' = w ∧
  ∀ d, r = Ok d → (∀ k, d = Some k → k.1.1 = "deployments"%string) ∧ every (fun k o => d ≠ Some k → no_deployment (vn_spec vn) k o) w.
Proof.
  intros [(l & w1 & (-> & l' & [= <-] & Hl)%list_all_inv & H2)|(e & (-> & l' & [=] & _)%list_all_inv & _)]%K_bind_inv.
  destruct l as [|[k o] [|y l]]; injection H2 as <- <-; (split; [done|]); intros d; [intros [= <-]|intros [= <-]|intros [=]]; (split; [|intros k' o' H' Hd Hr Hs]).
  - done.
  - exfalso. apply (not_elem_of_nil (k', o')). apply Hl. done.
  - intros ? [= <-]. destruct (Hl (k, o)) as [[[H _] _] _]; [by left|done].
  - exfalso. assert (Hin : (k', o') ∈ [(k, o)]) by (apply Hl; done). apply list_elem_of_singleton in Hin as [= -> ->]. done.
Qed.
Lemma no_pods_found vn w w' : CheckVirtualKubeletPodAbsence list_all name vn w = Ret (w', Ok ()) → w' = w ∧ every (no_pod (vn_spec vn)) w.
Proof.
  intros [(l & w1 & (-> & l' & [= <-] & Hl)%list_all_inv & H2)|(e & _ & [=])]%K_bind_inv.
  destruct l as [|y l]; [|done]. injection H2 as <-. split; [done|]. intros k o Hk Hr Hs.
  apply (not_elem_of_nil (k, o)), Hl. done.
Qed.
Lemma kept_absence vn : preserves kept (ensureVirtualKubeletDeploymentAbsence cl list_all ShortenString name vn).
Proof.
  unfold ensureVirtualKubeletDeploymentAbsence. apply (preserves_bind_post _ (fun d => ∀ k, d = Some k → k.1.1 = "deployments"%string)).
  - by intros w w' r HI [-> _]%deployment_found.
  - intros w w' d [_ H]%deployment_found. by apply H.
  - intros d Hd. apply preserves_bind; [|intros _; apply preserves_bind; [|intros _; apply preserves_bind; [|intros _]]].
    + destruct d; [|apply preserves_ret]. apply kept_delete, (other_key _ "deployments"); [by apply Hd|done].
    + unfold CheckVirtualKubeletPodAbsence. apply preserves_bind; [apply kept_list|]. intros [|]; auto with preserves.
    + by apply kept_delete, (other_key _ "clusterrolebindings").
    + by apply kept_delete, (other_key _ "clusterrolebindings").
Qed.
(** A virtual kubelet that was taken down has no deployment, no pod and no rights. *)
Lemma absence_stops vn w w' : ensureVirtualKubeletDeploymentAbsence cl list_all ShortenString name vn w = Ret (w', Ok ()) → stopped (vn_spec vn) w'.
Proof.
  intros [(d & w1 & [-> Hd]%deployment_found & H)|(e & _ & [=])]%K_bind_inv. destruct (Hd d eq_refl) as [Hk Hrest].
  apply K_bind_inv in H as [([] & w2 & H2 & H)|(e & _ & [=])]. apply K_bind_inv in H as [([] & w3 & [-> Hp]%no_pods_found & H)|(e & _ & [=])].
  apply K_bind_inv in H as [([] & w4 & H4 & H5)|(e & _ & [=])].
  assert (Hdep : every (no_deployment (vn_spec vn)) w2).
  { destruct d as [k|]; [|injection H2 as <-; intros k o Ho; by apply Hrest].
    intros k' o Ho. destruct (decide (k' = k)) as [->|Hne]; [intros _ _; exact (delete_ignoring_done k _ _ H2 _ Ho)|].
    apply Hrest; [|congruence]. apply delete_ignoring_only in H2 as [_ H2]. by rewrite <- H2. }
  split.
  - eapply (delete_every _ _ _ _ _ H5), (delete_every _ _ _ _ _ H4); done.
  - eapply (delete_every _ _ _ _ _ H5), (delete_every _ _ _ _ _ H4); done.
  - eapply (delete_every _ _ _ _ _ H5). intros k o Ho ->. exact (delete_ignoring_done _ _ _ H4 _ Ho).
  - intros k o Ho ->. exact (delete_ignoring_done _ _ _ H5 _ Ho).
  Unshelve. all: intros; red; done.
Qed.
Lemma stopped_only s k (w w' : W) : k.1.1 ≠ "deployments"%string → k.1.1 ≠ "pods"%string → k.1.1 ≠ "clusterrolebindings"%string →
  only k w w' → stopped s w → stopped s w'.
Proof.
  intros H1 H2 H3 Ho [? ? ? ?]. split; eapply every_only; try done; [by intros ? ? ?..|intros ? _ ->; done|intros ? _ ->; done].
Qed.
Lemma down_only s k (w w' : W) : k.1.1 ≠ "deployments"%string → k.1.1 ≠ "pods"%string → k.1.1 ≠ "clusterrolebindings"%string → k.1.1 ≠ "nodes"%string →
  only k w w' → down s w → down s w'.
Proof. intros ? ? ? Hn Ho [? H]. split; [by eapply stopped_only|]. eapply every_only; [done| |done]. intros ? _ ->. done. Qed.

(** ** The node *)

Notation node_key := ("nodes", "", name)%string.
Lemma node_found c w w' r : ignore_missing (GetNodeFromVirtualNode list_all name c) w = Ret (w', r) → w' = w ∧
  ∃ n, r = Ok n ∧ (∀ k o, n = Some (k, o) → k = node_key) ∧
    (n = None → every (fun k o => k = node_key → ~ {[ RemoteClusterID := c ]} ⊆ o_labels o) w).
Proof.
  destruct (list_all_inv "nodes" {[ RemoteClusterID := c ]} w w _ eq_refl) as (_ & l & [= El] & Hl). rewrite (find_node list_all name c w w _ eq_refl), El.
  intros [= <- <-]. split; [done|]. eexists. split; [done|]. destruct (List.find _ l) as [[k o]|] eqn:E; split; try done.
  - intros ? ? [= <- <-]. apply List.find_some in E as [Hin%list_elem_of_In Hn%bool_decide_eq_true]. apply Hl in Hin as [(H1 & _ & H3) _].
    destruct k as [[r0 ns0] n0]. cbn in *. subst. by rewrite H3.
  - intros _ k o Ho -> Hs. assert (Hin : (node_key, o) ∈ l) by (by apply Hl). apply list_elem_of_In in Hin. apply (List.find_none _ _ E) in Hin. by apply bool_decide_eq_false in Hin.
Qed.
Lemma condition_inv changes (wv wv' : W * Obj vpl) r : condition changes wv = Ret (wv', r) →
  wv'.1 = wv.1 ∧ r = Ok () ∧ vn_spec wv'.2 = vn_spec wv.2 ∧ o_deleting wv'.2 = o_deleting wv.2.
Proof. by intros [= <- <-]. Qed.
Notation keptv := (fun wv : W * Obj vpl => kept wv.1).
Lemma kept_lift {A} (m : K W A) : preserves kept m → preserves keptv (lift m).
Proof. intros Hm wv wv' r HI [H _]%lift_inv. by eapply Hm. Qed.
Lemma kept_condition changes : preserves keptv (condition changes).
Proof. intros wv wv' r HI (-> & _)%condition_inv. done. Qed.
Lemma kept_current : preserves keptv current.
Proof. by intros wv wv' r HI [-> _]%current_inv. Qed.
Hint Resolve kept_condition kept_current : preserves.
Lemma kept_node c : preserves kept (ignore_missing (GetNodeFromVirtualNode list_all name c)).
Proof. by intros w w' r HI [-> _]%node_found. Qed.

Notation on_node n := (∀ k o, n = Some (k, o) → k = node_key).
Lemma lifted_node c (wv wv' : W * Obj vpl) n : lift (ignore_missing (GetNodeFromVirtualNode list_all name c)) wv = Ret (wv', Ok n) → on_node n.
Proof. intros [(_ & n' & [= <-] & H & _)%node_found _]%lift_inv. done. Qed.
Lemma node_key_other k : k = node_key → k ≠ key.
Proof. intros ->. by apply (other_key _ "nodes"). Qed.
Notation delete_vk := (deleteVirtualKubelet cl list_all pods_on evict tick list_foreign ShortenString).
Lemma kept_delete_vk fuel : preserves keptv (delete_vk fuel name).
Proof.
  unfold deleteVirtualKubelet. apply preserves_bind; [apply kept_current|]. intros vn.
  apply (preserves_bind_post _ (fun n => on_node n)); [apply kept_lift, kept_node|apply lifted_node|].
  intros node Hn. apply preserves_bind.
  { destruct node as [[k o]|]; [|apply preserves_ret]. apply preserves_bind; [|intros _; apply kept_lift, kept_drain].
    apply kept_lift. unfold cordonNode. apply preserves_bind; [|intros; apply preserves_ret]. apply kept_update, node_key_other. by eapply Hn. }
  intros _. apply preserves_bind.
  { case_match; [|apply preserves_ret]. apply preserves_bind; [apply kept_condition|intros _; apply kept_lift, kept_absence]. }
  intros _. apply (preserves_bind_post _ (fun n => on_node n)).
  - destruct node; [apply preserves_ret|apply kept_lift, kept_node].
  - intros wv wv' a. destruct node; [intros [= _ <-]; done|apply lifted_node].
  - intros n' Hn'. apply preserves_bind; [apply kept_condition|intros _]. destruct n' as [[k o]|]; [|apply preserves_ret].
    apply preserves_bind; [apply kept_lift, kept_delete, node_key_other; by eapply Hn'|]. intros _. destruct node; auto with preserves.
Qed.
(** The VirtualNode in memory is only changed in its status. *)
Notation alike := (fun (s : VnSpec) (d : bool) (wv : W * Obj vpl) => vn_spec wv.2 = s ∧ o_deleting wv.2 = d).
Lemma alike_lift {A} s d (m : K W A) : preserves (alike s d) (lift m).
Proof. intros wv wv' r HI [_ ->]%lift_inv. done. Qed.
Lemma alike_condition s d changes : preserves (alike s d) (condition changes).
Proof. intros wv wv' r [H1 H2] (_ & _ & -> & ->)%condition_inv. done. Qed.
Lemma alike_current s d : preserves (alike s d) current.
Proof. by intros wv wv' r HI [-> _]%current_inv. Qed.
Hint Resolve alike_lift alike_condition alike_current : preserves.
Lemma alike_delete_vk fuel s d : preserves (alike s d) (delete_vk fuel name).
Proof. unfold deleteVirtualKubelet. preserve. Qed.
(** A run of the routine over a VirtualNode that is deleted takes everything down. *)
Lemma delete_vk_down fuel (w w' : W) vn vn' : o_deleting vn = true → delete_vk fuel name (w, vn) = Ret ((w', vn'), Ok ()) → down (vn_spec vn) w'.
Proof.
  intros Hd. unfold deleteVirtualKubelet. intros [(x & wv1 & [-> [= ->]]%current_inv & H)|(e & _ & [=])]%K_bind_inv. cbn [snd] in H.
  apply K_bind_inv in H as [(node & wv2 & Hnode & H)|(e & _ & [=])]. pose proof (lifted_node _ _ _ _ Hnode) as Hon. clear Hnode.
  apply K_bind_inv in H as [([] & wv3 & _ & H)|(e & _ & [=])]. rewrite Hd in H.
  apply K_bind_inv in H as [([] & wv4 & H4 & H)|(e & _ & [=])].
  assert (Hs : stopped (vn_spec vn) wv4.1).
  { apply K_bind_inv in H4 as [([] & wv5 & _ & [H5 _]%lift_inv)|(e & _ & [=])]. by eapply absence_stops. }
  apply K_bind_inv in H as [(n' & wv6 & H6 & H)|(e & _ & [=])].
  assert (wv6.1 = wv4.1 ∧ on_node n' ∧ (n' = None → every (fun k o => k = node_key → ~ {[ RemoteClusterID := vs_ClusterID (vn_spec vn) ]} ⊆ o_labels o) wv6.1)) as (E6 & Hn' & Hnone).
  { destruct node; [by injection H6 as <- <-|]. apply lift_inv in H6 as [(E & n & [= <-] & ? & Hx)%node_found _]. rewrite E. done. }
  apply K_bind_inv in H as [([] & wv7 & (E7 & _)%condition_inv & H)|(e & _ & [=])]. rewrite E6 in E7.
  destruct n' as [[k o]|].
  - apply K_bind_inv in H as [([] & wv8 & [H8 _]%lift_inv & H)|(e & _ & [=])]. destruct node; [|done]. injection H as ->. cbn in H8. rewrite E7 in H8.
    rewrite (Hn' k o eq_refl) in H8. split; [eapply stopped_only; [..|by eapply delete_ignoring_only|done]; done|].
    intros k' o' Ho' -> _. exact (delete_ignoring_done _ _ _ H8 _ Ho').
  - injection H as ->. cbn in E7. rewrite E7. split; [done|]. rewrite E6 in Hnone. intros k o Ho Hk Hl. by destruct (Hnone eq_refl k o Ho Hk).
Qed.

(** ** The run *)

Lemma maps_keep I c l : (∀ k, k.1.1 = "namespacemaps"%string → preserves I (delete_ignoring cl k)) → (∀ r ls, preserves I (list_all r ls)) →
  (∀ y, y ∈ l → y.1.1.1 = "namespacemaps"%string) → preserves I (delete_maps cl list_all c l).
Proof.
  intros Hd Hl Hm. induction l as [|[k nm] l IH]; cbn [delete_maps]; [apply preserves_ret|].
  apply preserves_bind; [|intros _; apply IH; intros y Hy; apply Hm; by right]. case_match; [apply preserves_ret|].
  apply preserves_bind; [apply Hl|]. intros vns. case_match; [|apply preserves_ret]. apply Hd, (Hm (k, nm)). by left.
Qed.
Lemma absence_of_maps_keeps I vn : (∀ k, k.1.1 = "namespacemaps"%string → preserves I (delete_ignoring cl k)) → (∀ r ls, preserves I (list_all r ls)) →
  preserves I (ensureNamespaceMapAbsence cl list_all vn).
Proof.
  intros Hd Hl. unfold ensureNamespaceMapAbsence. apply (preserves_bind_post _ (fun l => ∀ y, y ∈ l → y.1.1.1 = "namespacemaps"%string)); [apply Hl| |].
  - intros w w' l (_ & l' & [= <-] & H)%list_all_inv y [[H1 _] _]%H. done.
  - intros l Hy. by apply maps_keep.
Qed.
Lemma kept_maps vn : preserves kept (ensureNamespaceMapAbsence cl list_all vn).
Proof. apply absence_of_maps_keeps; [|apply kept_list]. intros k Hk. by apply kept_delete, (other_key _ "namespacemaps"). Qed.
Lemma down_maps s vn : preserves (down s) (ensureNamespaceMapAbsence cl list_all vn).
Proof.
  apply absence_of_maps_keeps; [|by intros r ls w w' x HI [-> _]%list_all_inv].
  intros k Hk w w' r HI H. eapply down_only; [..|by eapply delete_ignoring_only|done]; by rewrite Hk.
Qed.
Notation body := (handle_body cl list_all pods_on evict tick list_foreign ShortenString).
Lemma remove_finalizer_down s (w w' : W) vn vn' r : down s w → removeVirtualNodeFinalizer cl key (w, vn) = Ret ((w', vn'), r) → down s w'.
Proof.
  intros Hw. intros [(x & wv1 & [-> [= ->]]%current_inv & H)|(e & [=] & _)]%K_bind_inv.
  cbn [snd] in H. apply K_bind_inv in H as [([] & wv2 & [= <-] & H)|(e & [=] & _)].
  assert (∃ x wv3, lift (c_Update cl key (RemoveFinalizer virtualNodeControllerFinalizer vn).2) (w, (RemoveFinalizer virtualNodeControllerFinalizer vn).2) = Ret (wv3, x) ∧ wv3.1 = w') as (x & wv3 & [H3 _]%lift_inv & <-).
  { apply K_bind_inv in H as [(o & wv3 & H3 & [= E _ _])|(e & H3 & ->)]; eexists _, _; (split; [exact H3|]); done. }
  eapply down_only; [..|by eapply plain_update_frame|done]; done.
Qed.
Lemma body_spec fuel (w w' : W) vn vn' r : kept w → body fuel key (w, vn) = Ret ((w', vn'), r) → kept w' ∨ (o_deleting vn = true ∧ down (vn_spec vn) w').
Proof.
  intros Hk. intros [([] & [w1 vn1] & (E1 & _ & Es & Ed)%condition_inv & H)|(e & (E & _)%condition_inv & _)]%K_bind_inv; [|left; cbn in E; by rewrite E].
  cbn in E1, Es, Ed. subst w1. apply K_bind_inv in H as [([] & [w2 vn2] & H2 & H)|(e & H2 & ->)].
  2: { left. exact (kept_delete_vk fuel (w, vn1) (w', vn') _ Hk H2). }
  pose proof (kept_delete_vk fuel (w, vn1) _ _ Hk H2) as Hk2. cbn in Hk2.
  destruct (alike_delete_vk fuel (vn_spec vn1) (o_deleting vn1) (w, vn1) _ _ (conj eq_refl eq_refl) H2) as [Es2 Ed2]. cbn in Es2, Ed2.
  apply K_bind_inv in H as [(x & wv3 & [-> [= ->]]%current_inv & H)|(e & [=] & _)]. cbn [snd] in H.
  destruct (o_deleting vn2) eqn:E2; [|apply condition_inv in H as (E & _); left; cbn in E; by rewrite E].
  right. split; [congruence|]. rewrite <- Es. assert (Hdown : down (vn_spec vn1) w2) by (eapply delete_vk_down; [|exact H2]; congruence).
  apply K_bind_inv in H as [([] & [w3 vn3] & [H3 _]%lift_inv & H)|(e & [H3 _]%lift_inv & _)].
  - cbn in H3. eapply remove_finalizer_down; [|exact H]. by eapply down_maps.
  - cbn in H3. by eapply down_maps.
Qed.
(** C35: The finalizer leaves a VirtualNode only when it is being deleted and everything that
    the controller keeps for it is gone, or about to: the deployment of the virtual
    kubelet and its pods, both role bindings, and the node. *)
Theorem finalizer_last fuel w w' vn r : w ⋅ key = Some vn → virtualNodeControllerFinalizer ∈ o_finalizers vn →
  handle cl list_all pods_on status_update evict tick list_foreign ShortenString fuel ns name w = Ret (w', r) → ~ kept w' →
  o_deleting vn = true ∧ down (vn_spec vn) w'.
Proof.
  intros Hvn Hfin H Hgone. assert (Hk : kept w) by (by exists vn).
  unfold handle in H. erewrite K_bind_ok in H by (apply attempt_ok; cbn; unfold plain_get; by rewrite Hvn). cbn in H.
  unfold deferring_status in H. destruct (body fuel key (w, vn)) as [[[w1 vn1] r1]| |] eqn:Eb; [|done..].
  apply K_bind_inv in H as [(x & w2 & (y & H2 & [= ->])%attempt_inv & H)|(e & (y & _ & [=])%attempt_inv & _)].
  assert (w2 = w') as -> by (destruct y, r1; by injection H as ->). apply on_pserver_inv in H2 as [H2 Hl].
  assert (Ho : only key w1 w') by (split; [done|]; intros k Hk'; by eapply UpdateStatus_frame).
  destruct (body_spec fuel w w1 vn vn1 r1 Hk Eb) as [Hk1|[Hd Hdown]].
  - exfalso. apply Hgone. destruct Hk1 as (o & Ho1 & Hf1).
    assert (content (pw_server w') = content (pw_server w1) ∨ ∃ o', update_status_eff key vn1 (content (pw_server w1)) o' (content (pw_server w'))) as [E|(o' & cur & Hc & _ & E & (_ & _ & Hf) & _)].
    { destruct y; [right; eexists; by eapply UpdateStatus_ok|by eapply UpdateStatus_err]. }
    + exists o. by rewrite E.
    + assert (cur = o) as -> by congruence. exists o'. rewrite E, store_obj_lives, lookup_insert_eq; [|intros _ Hnil; rewrite <- Hf, Hnil in Hf1; by apply not_elem_of_nil in Hf1].
      by rewrite Hf.
  - split; [done|]. eapply down_only; [..|exact Ho|done]; done.
Qed.

(** ** A VirtualNode that is deleted goes away *)

Context {R : Responsive vpl}.
Lemma delete_runs k (w : W) : ∃ w', delete_ignoring cl k w = Ret (w', Ok ()) ∧ only k w w'.
Proof.
  unfold delete_ignoring. cbn. destruct (Delete k (pw_server w)) as [s' x] eqn:E.
  assert (Hrun : attempt (on_pserver (L := L) (Delete k)) w = Ret (mkPworld s' (pw_log w), Ok x)) by (apply attempt_ok; unfold on_pserver; by rewrite E).
  rewrite (K_bind_ok _ _ _ _ _ Hrun). assert (Hx : x = Ok () ∨ x = Err NotFound).
  { destruct (content (pw_server w) !! k) as [o|] eqn:Hk.
    - left. pose proof (Delete_answers k (pw_server w) ltac:(by exists o)) as H. rewrite E in H. by destruct x as [[]|].
    - right. pose proof (Delete_misses k (pw_server w) Hk) as H. by rewrite E in H. }
  exists (mkPworld s' (pw_log w)). split; [by destruct Hx as [->| ->]|]. split; [done|]. intros k' Hk'. cbn. by eapply Delete_frame.
Qed.
Lemma update_runs k o (w : W) cur : w ⋅ k = Some cur → o_version o = o_version cur →
  ∃ w' o', c_Update cl k o w = Ret (w', Ok o') ∧ only k w w' ∧ content (pw_server w') = store_obj k o' (content (pw_server w)) ∧
    o_finalizers o' = o_finalizers o ∧ o_deleting o' = o_deleting cur.
Proof.
  intros Hk Hv. pose proof (Update_answers k o (pw_server w) cur Hk Hv) as Ha. cbn. rewrite on_pserver_returns.
  destruct (Update k o (pw_server w)) as [s' [o'|]] eqn:E; [|done]. eexists _, o'. split; [done|]. split.
  - split; [done|]. intros k' Hk'. by eapply Update_frame.
  - apply Update_ok in E as (cur' & Hc & _ & E & (_ & _ & ?) & _ & _ & ?). assert (cur' = cur) as -> by congruence. done.
Qed.
(** At most one deployment and no pod carry the labels of the virtual kubelet. *)
Definition one_deployment (s : VnSpec) (w : W) : Prop := ∀ x y,
  listed "deployments" (VirtualKubeletLabels name s) x → w ⋅ (x.1) = Some x.2 →
  listed "deployments" (VirtualKubeletLabels name s) y → w ⋅ (y.1) = Some y.2 → x = y.
Definition spares (r : string) (w w' : W) : Prop := ∀ k, k.1.1 = r → w' ⋅ k = w ⋅ k.
Lemma only_spares r k (w w' : W) : only k w w' → k.1.1 ≠ r → spares r w w'.
Proof. intros [_ Ho] Hk k' <-. apply Ho. congruence. Qed.
Lemma spares_trans r (w1 w2 w3 : W) : spares r w1 w2 → spares r w2 w3 → spares r w1 w3.
Proof. intros H1 H2 k Hk. by rewrite (H2 k Hk), (H1 k Hk). Qed.

Lemma absence_runs vn (w : W) : one_deployment (vn_spec vn) w → every (no_pod (vn_spec vn)) w →
  ∃ w', ensureVirtualKubeletDeploymentAbsence cl list_all ShortenString name vn w = Ret (w', Ok ()) ∧
    ∀ r, r ≠ "deployments"%string → r ≠ "clusterrolebindings"%string → spares r w w'.
Proof.
  intros Hone Hpods. unfold ensureVirtualKubeletDeploymentAbsence.
  assert (∃ d, GetVirtualKubeletDeployment list_all name vn w = Ret (w, Ok d)) as [d Hd].
  { unfold GetVirtualKubeletDeployment. erewrite K_bind_ok by reflexivity.
    set (l := filter _ _). assert (Hl : ∀ x, x ∈ l → listed "deployments" (VirtualKubeletLabels name (vn_spec vn)) x ∧ w ⋅ (x.1) = Some x.2).
    { intros [k o] Hx. apply list_elem_of_filter in Hx as [? Hx%elem_of_map_to_list]. done. }
    assert (Hnd : NoDup l) by apply NoDup_filter, NoDup_map_to_list. destruct l as [|x [|y l]]; [by eexists..|].
    exfalso. apply NoDup_cons in Hnd as [Hx _]. apply Hx. destruct (Hl x) as [? ?]; [by left|]. destruct (Hl y) as [? ?]; [right; by left|].
    rewrite (Hone x y) by done. by left. }
  rewrite (K_bind_ok _ _ _ _ _ Hd). pose proof (deployment_found _ _ _ _ Hd) as [_ Hk]. destruct (Hk d eq_refl) as [Hdep _].
  assert (∃ w1, (match d with Some k => delete_ignoring cl k | None => mret () end) w = Ret (w1, Ok ()) ∧ ∀ r, r ≠ "deployments"%string → spares r w w1) as (w1 & E1 & Hs1).
  { destruct d as [k|]; [|by exists w]. destruct (delete_runs k w) as (w1 & E & Ho). specialize (Hdep k eq_refl). exists w1. split; [done|].
    intros r Hr. eapply only_spares; [exact Ho|rewrite Hdep; congruence]. }
  rewrite (K_bind_ok _ _ _ _ _ E1). assert (E2 : CheckVirtualKubeletPodAbsence list_all name vn w1 = Ret (w1, Ok ())).
  { unfold CheckVirtualKubeletPodAbsence. erewrite K_bind_ok by reflexivity. destruct (filter _ _) as [|[k o] l] eqn:E; [done|].
    exfalso. assert (Hin : (k, o) ∈ (k, o) :: l) by left. rewrite <- E in Hin. apply list_elem_of_filter in Hin as [(Hr & Hs & _) Hin%elem_of_map_to_list].
    cbn in Hr, Hs. rewrite (Hs1 "pods"%string ltac:(done) k Hr) in Hin. by destruct (Hpods k o Hin Hr). }
  rewrite (K_bind_ok _ _ _ _ _ E2).
  destruct (delete_runs (crb_key (VirtualKubeletClusterRoleBindingName ShortenString name)) w1) as (w2 & E3 & Ho3). rewrite (K_bind_ok _ _ _ _ _ E3).
  destruct (delete_runs (crb_key (VirtualKubeletAuthDelegatorClusterRoleBindingName ShortenString name)) w2) as (w3 & E4 & Ho4). exists w3. split; [done|].
  intros r H1 H2. eapply spares_trans; [by apply Hs1|]. eapply spares_trans; (eapply only_spares; [done|cbn; congruence]).
Qed.

(** Nothing is left to evict: no pod is bound to the node. *)
Record drained (c : string) : Prop := {
  dr_pods (w : W) : pods_on name w = Ret (w, Ok []);
  dr_foreign (w : W) : ∃ l, list_foreign c w = Ret (w, Ok l)
}.
Lemma drain_runs fuel c (w : W) : drained c → drain_ignoring cl pods_on evict tick list_foreign fuel name c w = Ret (w, Ok ()).
Proof.
  intros [Hp Hf]. destruct (Hf w) as [l Hl]. unfold drain_ignoring, drainNode, getPodsForDeletion.
  assert (E : (pods ← (l ← pods_on name; mret (List.filter (fun p => evictable p.2) l));
     r ← attempt (l ← list_foreign c; match ForeignCluster.getForeignCluster l with Ok fc => mret fc | Err e => fail e end);
     fc ← match r with Ok fc => mret (Some fc) | Err NotFound => mret None | Err e => fail e end;
     if (ForeignCluster.IsDead fc).1 then forcePodsDeletion cl pods else evictPods cl evict tick fuel pods) w = Ret (w, Ok ())).
  { erewrite K_bind_ok by (erewrite K_bind_ok by apply Hp; reflexivity).
    assert (Hg : ∃ x, ForeignCluster.getForeignCluster l = x ∧ (is_ok x = true ∨ x = Err NotFound)) by (destruct l as [|fc [|]]; cbn; [..|case_match]; eauto).
    destruct Hg as (x & Hx & Hg).
    erewrite K_bind_ok by (apply attempt_ok; erewrite K_bind_ok by exact Hl; rewrite Hx; by instantiate (1 := x); destruct x).
    destruct x as [fc|e]; [|destruct Hg as [|[= ->]]; [done|]]; (erewrite K_bind_ok by reflexivity); by case_match. }
  by erewrite K_bind_ok by (apply attempt_ok; exact E).
Qed.
Lemma maps_run c l (w : W) : (∀ y, y ∈ l → y.1.1.1 = "namespacemaps"%string) →
  ∃ w', delete_maps cl list_all c l w = Ret (w', Ok ()) ∧ spares "virtualnodes" w w'.
Proof.
  revert w. induction l as [|[k nm] l IH]; intros w Hl; [by exists w|]. cbn [delete_maps].
  assert (∃ w1, (if bool_decide (o_annotations nm !! ManagedNamespaceMapAnnotKey = Some "true"%string) then mret ()
     else vns ← list_all "virtualnodes" {[ RemoteClusterID := c ]};
          if (List.length vns =? 1)%nat && negb (o_deleting nm) then delete_ignoring cl k else mret ()) w = Ret (w1, Ok ()) ∧ spares "virtualnodes" w w1) as (w1 & E1 & Hs1).
  { case_bool_decide; [by exists w|]. erewrite K_bind_ok by reflexivity. case_match; [|by exists w].
    destruct (delete_runs k w) as (w1 & E & Ho). exists w1. split; [done|]. eapply only_spares; [done|]. specialize (Hl (k, nm) ltac:(by left)). cbn in Hl. by rewrite Hl. }
  erewrite K_bind_ok by exact E1. destruct (IH w1) as (w2 & E2 & Hs2); [intros y Hy; apply Hl; by right|]. exists w2. split; [done|]. by eapply spares_trans.
Qed.
Lemma node_runs c (w : W) :
  (∃ o, w ⋅ node_key = Some o ∧ ignore_missing (GetNodeFromVirtualNode list_all name c) w = Ret (w, Ok (Some (node_key, o)))) ∨
  ((∀ o, w ⋅ node_key = Some o → ~ {[ RemoteClusterID := c ]} ⊆ o_labels o) ∧ ignore_missing (GetNodeFromVirtualNode list_all name c) w = Ret (w, Ok None)).
Proof.
  assert (∃ n, ignore_missing (GetNodeFromVirtualNode list_all name c) w = Ret (w, Ok n) ∧ ∀ y, n = Some y → w ⋅ (y.1) = Some y.2) as (n & E & Hc).
  { eexists. split; [by apply find_node|].
    intros [k o] Hy. apply List.find_some in Hy as [Hin%list_elem_of_In _]. by apply list_elem_of_filter in Hin as [_ Hin%elem_of_map_to_list]. }
  pose proof (node_found _ _ _ _ E) as (_ & n' & [= <-] & Hk & Hnone). destruct n as [[k o]|].
  - left. exists o. rewrite <- (Hk k o eq_refl). split; [by apply (Hc (k, o))|done].
  - right. split; [|done]. intros o Ho. by apply (Hnone eq_refl _ _ Ho).
Qed.
Lemma stopped_vk_runs vn (w : W) : one_deployment (vn_spec vn) w → every (no_pod (vn_spec vn)) w →
  ∃ w' vn', (_ ← condition [(VirtualKubeletConditionType, CondDeleting)]; lift (ensureVirtualKubeletDeploymentAbsence cl list_all ShortenString name vn)) (w, vn) = Ret ((w', vn'), Ok ()) ∧
    (∀ r, r ≠ "deployments"%string → r ≠ "clusterrolebindings"%string → spares r w w') ∧
    vn' = set_conditions vn (ForgeCondition (st_Conditions (vn_status vn)) [(VirtualKubeletConditionType, CondDeleting)]).
Proof.
  intros Hone Hp. destruct (absence_runs vn w Hone Hp) as (w' & E & Hs). eexists w', _. split; [|done].
  etrans; [by apply (K_bind_ok (condition _))|by apply lift_run].
Qed.
Definition alike_meta (vn vn' : Obj vpl) : Prop :=
  o_version vn' = o_version vn ∧ o_finalizers vn' = o_finalizers vn ∧ o_deleting vn' = o_deleting vn ∧ vn_spec vn' = vn_spec vn.
Lemma spare_facts s (w w' : W) : spares "deployments" w w' → spares "pods" w w' → one_deployment s w → every (no_pod s) w → one_deployment s w' ∧ every (no_pod s) w'.
Proof.
  intros Hd Hp Hone Hpods. split.
  - intros x y Hx Hx' Hy Hy'. apply Hone; try done; [rewrite <- Hx'|rewrite <- Hy']; symmetry; apply Hd; [apply Hx|apply Hy].
  - intros k o Ho Hr. rewrite (Hp k Hr) in Ho. exact (Hpods k o Ho Hr).
Qed.
Lemma delete_vk_runs fuel vn (w : W) : o_deleting vn = true → drained (vs_ClusterID (vn_spec vn)) →
  one_deployment (vn_spec vn) w → every (no_pod (vn_spec vn)) w →
  ∃ w' vn', delete_vk fuel name (w, vn) = Ret ((w', vn'), Ok ()) ∧ spares "virtualnodes" w w' ∧ alike_meta vn vn'.
Proof.
  intros Hd Hdr Hone Hpods. unfold deleteVirtualKubelet. erewrite K_bind_ok by reflexivity. cbn [snd]. rewrite Hd.
  destruct (node_runs (vs_ClusterID (vn_spec vn)) w) as [(o & Ho & Hn)|[Hno Hn]]; (erewrite K_bind_ok by (apply lift_run, Hn)).
  - destruct (update_runs node_key (set_spec o (AMap (PNode true))) w o Ho eq_refl) as (w1 & o1 & E1 & Ho1 & _).
    assert (Hc : cordonNode cl node_key o w = Ret (w1, Ok ())) by (unfold cordonNode; by erewrite K_bind_ok by exact E1).
    erewrite K_bind_ok by (erewrite V_bind_ok by (apply lift_run, Hc); apply lift_run, drain_runs, Hdr).
    assert (Hs : ∀ r, r ≠ "nodes"%string → spares r w w1) by (intros r Hr; eapply only_spares; [exact Ho1|cbn; congruence]).
    destruct (spare_facts (vn_spec vn) w w1) as [Hone1 Hpods1]; [by apply Hs|by apply Hs|done|done|].
    destruct (stopped_vk_runs vn w1 Hone1 Hpods1) as (w2 & vn2 & E2 & Hs2 & ->). erewrite K_bind_ok by exact E2.
    erewrite K_bind_ok by reflexivity. erewrite K_bind_ok by reflexivity. destruct (delete_runs node_key w2) as (w3 & E3 & Ho3).
    eexists w3, _. split; [by erewrite K_bind_ok by (apply lift_run; exact E3)|]. split; [|done].
    eapply spares_trans; [by apply Hs|]. eapply spares_trans; [by apply Hs2|]. by eapply only_spares.
  - erewrite K_bind_ok by reflexivity. destruct (stopped_vk_runs vn w Hone Hpods) as (w2 & vn2 & E2 & Hs2 & ->). erewrite K_bind_ok by exact E2.
    destruct (node_runs (vs_ClusterID (vn_spec vn)) w2) as [(o & Ho & Hn2)|[_ Hn2]].
    + exfalso. pose proof (node_found _ _ _ _ Hn2) as (_ & n & [= <-] & _ & _).
      assert (Hl : {[ RemoteClusterID := vs_ClusterID (vn_spec vn) ]} ⊆ o_labels o).
      { rewrite (find_node list_all name _ w2 w2 _ eq_refl) in Hn2. injection Hn2 as Hf.
        apply List.find_some in Hf as [Hin%list_elem_of_In _]. apply list_elem_of_filter in Hin as [(_ & ? & _) _]. done. }
      apply (Hno o); [|done]. rewrite <- Ho. symmetry. by apply (Hs2 "nodes"%string).
    + erewrite K_bind_ok by (apply lift_run, Hn2). eexists w2, _. split; [by erewrite K_bind_ok by reflexivity|]. split; [by apply Hs2|done].
Qed.
(** C36: A VirtualNode that is deleted goes away with one run of the routine, once the pods
    of its virtual kubelet are gone and its node is drained.  The run itself fails (the
    status of an object that is gone is written) and is done again, without effect. *)
Theorem virtual_node_goes fuel w vn : w ⋅ key = Some vn → o_deleting vn = true → o_finalizers vn = [virtualNodeControllerFinalizer] →
  drained (vs_ClusterID (vn_spec vn)) → one_deployment (vn_spec vn) w → every (no_pod (vn_spec vn)) w →
  ∃ w' w'' e, handle cl list_all pods_on status_update evict tick list_foreign ShortenString fuel ns name w = Ret (w', Err e) ∧ w' ⋅ key = None ∧
    handle cl list_all pods_on status_update evict tick list_foreign ShortenString fuel ns name w' = Ret (w'', Ok ()) ∧ w'' = w'.
Proof.
  intros Hvn Hd Hfin Hdr Hone Hpods.
  set (vn0 := set_conditions vn (ForgeCondition (st_Conditions (vn_status vn)) [(NodeConditionType, CondDraining)])).
  destruct (delete_vk_runs fuel vn0 w Hd Hdr Hone Hpods) as (w1 & vn1 & E1 & Hs1 & (Hv1 & Hf1 & Hd1 & Hsp1)).
  change (o_version vn0) with (o_version vn) in Hv1. change (o_finalizers vn0) with (o_finalizers vn) in Hf1. change (o_deleting vn0) with (o_deleting vn) in Hd1.
  assert (∃ w2, ensureNamespaceMapAbsence cl list_all vn1 w1 = Ret (w2, Ok ()) ∧ spares "virtualnodes" w1 w2) as (w2 & E2 & Hs2).
  { unfold ensureNamespaceMapAbsence. erewrite K_bind_ok by reflexivity. apply maps_run. intros y Hy. by apply list_elem_of_filter in Hy as [[? _] _]. }
  set (vn2 := (RemoveFinalizer virtualNodeControllerFinalizer vn1).2).
  assert (Hvn2 : o_version vn2 = o_version vn ∧ o_finalizers vn2 = []).
  { subst vn2. unfold RemoveFinalizer. rewrite Hf1, Hfin, bool_decide_true by (by left). done. }
  assert (Hw2 : w2 ⋅ key = Some vn) by (rewrite (Hs2 key eq_refl), (Hs1 key eq_refl); done).
  destruct (update_runs key vn2 w2 vn Hw2 (proj1 Hvn2)) as (w3 & o3 & E3 & Ho3 & Hst & Hf3 & Hd3).
  assert (Hgone : w3 ⋅ key = None).
  { rewrite Hst. unfold store_obj. rewrite Hd3, Hd, Hf3, (proj2 Hvn2), bool_decide_true by done. apply lookup_delete_eq. }
  assert (Eb : body fuel key (w, vn) = Ret ((w3, o3), Ok ())).
  { unfold handle_body. vstep by reflexivity. vstep by exact E1. vstep by reflexivity. cbn [snd]. rewrite Hd1, Hd.
    vstep by (apply lift_run; exact E2). unfold removeVirtualNodeFinalizer. vstep by reflexivity. cbn [snd].
    vstep by reflexivity. by vstep by (apply lift_run; exact E3). }
  destruct (UpdateStatus key o3 (pw_server w3)) as [s4 x] eqn:E4.
  assert (∃ e, x = Err e) as [e ->].
  { destruct x as [o4|e]; [|by exists e]. apply UpdateStatus_ok in E4 as (cur & Hc & _). by rewrite Hgone in Hc. }
  assert (Hc4 : content s4 !! key = None).
  { apply UpdateStatus_err in E4 as [->|(o' & cur & Hc & _)]; [done|by rewrite Hgone in Hc]. }
  exists (mkPworld s4 (pw_log w3)), (mkPworld s4 (pw_log w3)), e. split; [|split; [done|split; [|done]]].
  - unfold handle. erewrite K_bind_ok by (apply attempt_ok; cbn; unfold plain_get; by rewrite Hvn). cbn [attempt]. unfold deferring_status. rewrite Eb.
    by erewrite K_bind_ok by (apply attempt_ok; unfold status_update, on_pserver; by rewrite E4).
  - unfold handle. by erewrite K_bind_ok by (apply attempt_ok; cbn; unfold plain_get; cbn; by rewrite Hc4).
Qed.
End life.

(** ** A cluster with one virtual node *)

Definition ex_spec : VnSpec := mkVnSpec "milan" false None None None None [] [] [] None.
Definition ex_vn : Obj vpl := mkObj {[ RemoteClusterID := "milan"%string ]} ∅ [virtualNodeControllerFinalizer] true 3 (AMap (PVn "u1" ex_spec)) Absent.
Definition ex_content : gmap okey (Obj vpl) := {[
  vn_key "tenant" "milan" := ex_vn;
  deploy_key "tenant" "vk-milan" := mkObj (VirtualKubeletLabels "milan" ex_spec) ∅ ["foregroundDeletion"%string] false 1 Absent Absent;
  crb_key "liqo-node-milan" := mkObj ∅ ∅ [] false 1 (AMap (PRoleBinding LocalClusterRoleName [])) Absent;
  ("nodes", "", "milan")%string := mkObj {[ RemoteClusterID := "milan"%string ]} ∅ [] false 1 (AMap (PNode false)) Absent;
  nsmap_key "tenant" "milan" := mkObj {[ ReplicationDestinationLabel := "milan"%string ]} ∅ [] false 1 (AMap PNsMap) Absent
]}.
Notation ex_W := (pworld vpl () (Api := memory)).
Definition ex_world (m : gmap okey (Obj vpl)) : ex_W := mkPworld (m : server (KubeApi := memory)) [].
Definition ex_lists (r ns : string) (l : labels) (s : server (KubeApi := memory (P := vpl))) : list (string * Obj vpl) := [].
Definition ex_pods (n : string) : K ex_W (list (okey * Obj vpl)) := fun w => Ret (w, Ok []).
Definition ex_foreign (c : string) : K ex_W (list ForeignCluster.ForeignCluster) := fun w => Ret (w, Ok []).
Definition ex_shorten (s : string) (n : nat) : string := s.
Definition ex_handle (w : ex_W) : outcome (ex_W * result kerr ()) :=
  handle (plain_client ex_lists) list_all ex_pods status_update (c_Delete (plain_client ex_lists)) (mret ()) ex_foreign ex_shorten 3 "tenant" "milan" w.
Lemma ex_environment : environment ex_pods (c_Delete (plain_client ex_lists)) (mret ()) ex_foreign "tenant" "milan".
Proof.
  split.
  - intros n w w' r [= <- <-]. split; [done|]. intros l [= <-] p Hp. by apply not_elem_of_nil in Hp.
  - by intros c w w' r [= <- _].
  - intros k w w' r H. by eapply plain_delete_frame.
  - apply preserves_ret.
Qed.
Definition holds_run (m : gmap okey (Obj vpl)) (k : okey) : option bool :=
  match ex_handle (ex_world m) with Ret (w', _) => Some (bool_decide (is_Some (content (pw_server w') !! k))) | _ => None end.
Lemma holds_run_inv m k b w' r : holds_run m k = Some b → ex_handle (ex_world m) = Ret (w', r) → bool_decide (is_Some (content (pw_server w') !! k)) = b.
Proof. unfold holds_run. intros H E. rewrite E in H. by injection H. Qed.
Lemma finalizer_last_witness : ∃ w' r, ex_handle (ex_world ex_content) = Ret (w', r) ∧ down ex_shorten "milan" ex_spec w' ∧
  is_Some (content (pw_server w') !! deploy_key "tenant" "vk-milan") ∧ ~ is_Some (content (pw_server w') !! ("nodes", "", "milan")%string).
Proof.
  assert (E1 : holds_run ex_content (vn_key "tenant" "milan") = Some false) by (vm_compute; reflexivity).
  assert (E2 : holds_run ex_content (deploy_key "tenant" "vk-milan") = Some true) by (vm_compute; reflexivity).
  assert (E3 : holds_run ex_content ("nodes", "", "milan")%string = Some false) by (vm_compute; reflexivity).
  destruct (ex_handle (ex_world ex_content)) as [[w' r]| |] eqn:E; [|unfold holds_run in E1; rewrite E in E1; discriminate E1..].
  pose proof (holds_run_inv _ _ _ _ _ E1 E) as H1. apply bool_decide_eq_false in H1. pose proof (holds_run_inv _ _ _ _ _ E2 E) as H2. apply bool_decide_eq_true in H2.
  pose proof (holds_run_inv _ _ _ _ _ E3 E) as H3. apply bool_decide_eq_false in H3.
  exists w', r. split; [reflexivity|]. split; [|exact (conj H2 H3)].
  apply (finalizer_last ex_lists ex_pods (c_Delete (plain_client ex_lists)) (mret ()) ex_foreign ex_shorten "tenant" "milan" ex_environment 3 (ex_world ex_content) w' ex_vn r).
  - vm_compute. reflexivity.
  - left.
  - exact E.
  - intros (o & Ho & _). apply H1. by exists o.
Defined.
Lemma virtual_node_goes_witness : ∃ w' w'' e, ex_handle (ex_world ex_content) = Ret (w', Err e) ∧ content (pw_server w') !! vn_key "tenant" "milan" = None ∧
  ex_handle w' = Ret (w'', Ok ()) ∧ w'' = w'.
Proof.
  apply (virtual_node_goes ex_lists ex_pods (c_Delete (plain_client ex_lists)) (mret ()) ex_foreign ex_shorten "tenant" "milan" 3 (ex_world ex_content) ex_vn).
  - reflexivity.
  - reflexivity.
  - reflexivity.
  - split; [done|]. intros w. by exists [].
  - intros [k o] [k' o'] [Hk _] Hx [Hk' _] Hy. cbn in Hk, Hk', Hx, Hy. unfold ex_content in Hx, Hy.
    repeat (apply lookup_insert_Some in Hx as [[<- <-]|[_ Hx]]; [try discriminate Hk|]); [|rewrite lookup_empty in Hx; discriminate Hx].
    repeat (apply lookup_insert_Some in Hy as [[<- <-]|[_ Hy]]; [try discriminate Hk'|]); [done|rewrite lookup_empty in Hy; discriminate Hy].
  - intros k o Ho Hr. unfold ex_content in Ho. exfalso. cbn in Ho. unfold ex_content in Ho.
    repeat (apply lookup_insert_Some in Ho as [[<- _]|[_ Ho]]; [discriminate Hr|]). rewrite lookup_empty in Ho. discriminate Ho.
Defined.

(** ** What the routine does not handle *)

Section slips.
Context {W : Type} (cl : Client W vpl) (list_all : string → labels → K W (list (okey * Obj vpl))) (pods_on : string → K W (list (okey * Obj vpl)))
  (evict : okey → K W ()) (tick : K W ()) (list_foreign : string → K W (list ForeignCluster.ForeignCluster)) (GetNamespace : string → K W string)
  (ShortenString : string → nat → string).

(** A pod that cannot be read counts as deleted. *)
Theorem wait_ends_on_error fuel k uid w w' e : uid ≠ ""%string → c_Get cl k w = Ret (w', Err e) →
  waitPodForDelete cl tick (S fuel) k uid w = Ret (w', Ok ()).
Proof.
  intros Hu H. cbn [waitPodForDelete]. erewrite K_bind_ok by (apply attempt_ok; exact H). cbv zeta. rewrite (bool_decide_false (uid = ""%string)) by done.
  by rewrite orb_true_r.
Qed.
(** A pod that is gone before it is evicted ends the drain: the other pods stay. *)
Theorem drain_stops_early fuel name c w p pods fcs fc w1 : pods_on name w = Ret (w, Ok (p :: pods)) → evictable p.2 = true →
  list_foreign c w = Ret (w, Ok fcs) → ForeignCluster.getForeignCluster fcs = Ok fc → (ForeignCluster.IsDead (Some fc)).1 = false →
  evict (p.1) w = Ret (w1, Err NotFound) →
  drain_ignoring cl pods_on evict tick list_foreign fuel name c w = Ret (w1, Ok ()).
Proof.
  intros Hp He Hl Hg Hdead Hev. unfold drain_ignoring. erewrite K_bind_ok; [|apply attempt_ok]; [|].
  2: { unfold drainNode, getPodsForDeletion. erewrite K_bind_ok by (erewrite K_bind_ok by exact Hp; reflexivity).
       erewrite K_bind_ok by (apply attempt_ok; erewrite K_bind_ok by exact Hl; rewrite Hg; reflexivity).
       erewrite K_bind_ok by reflexivity. rewrite Hdead. cbn [List.filter]. rewrite He. destruct p as [k o]. unfold evictPods. cbn [evict_all].
       erewrite K_bind_err by (erewrite K_bind_err by exact Hev; reflexivity). reflexivity. }
  reflexivity.
Qed.
(** A node that appears while the routine runs is deleted, and the routine stops for
    good: the name of the node that was not found is read. *)
Theorem late_node_panics fuel name vn w w1 w2 k o w3 : o_deleting vn = false →
  list_all "nodes" {[ RemoteClusterID := vs_ClusterID (vn_spec vn) ]} w = Ret (w1, Ok []) →
  list_all "nodes" {[ RemoteClusterID := vs_ClusterID (vn_spec vn) ]} w1 = Ret (w2, Ok [(k, o)]) → k.2 = name →
  c_Delete cl k w2 = Ret (w3, Ok ()) →
  deleteVirtualKubelet cl list_all pods_on evict tick list_foreign ShortenString fuel name (w, vn) = Panic.
Proof.
  intros Hd H1 H2 Hk H3.
  assert (Hdel : delete_ignoring cl k w2 = Ret (w3, Ok ())) by (unfold delete_ignoring; by erewrite K_bind_ok by (apply attempt_ok; exact H3)).
  apply (find_node _ name) in H1, H2. cbn [List.find] in H1, H2. cbn [fst snd] in H2. rewrite bool_decide_true in H2 by done.
  unfold deleteVirtualKubelet. vstep by reflexivity. cbn [snd]. rewrite Hd. vstep by (apply lift_run, H1).
  vstep by reflexivity. vstep by reflexivity. vstep by (apply lift_run, H2). vstep by reflexivity.
  by vstep by (apply lift_run, Hdel).
Qed.
(** So does a NamespaceMap that cannot be listed, or of which there are two. *)
Theorem map_listing_panics `{CU : CreateOrUpdater vpl} vn w w' r : list_all "namespacemaps" (nsmap_labels (vs_ClusterID (vn_spec vn))) w = Ret (w', r) →
  match r with Err e => e ≠ NotFound | Ok l => (2 ≤ List.length l)%nat end → ensureNamespaceMapPresence cl list_all GetNamespace vn w = Panic.
Proof.
  intros H Hr. unfold ensureNamespaceMapPresence. erewrite K_bind_ok by (apply attempt_ok; exact H). destruct r as [[|x [|y l]]|e]; [cbn in Hr; lia..|done|by destruct e].
Qed.
End slips.
