(* ===== verification/OffloadCtl.v ===== *)
(** * OffloadCtl: offloaded pods where they run, and when a node fails
      (src/pkg/liqo-controller-manager/offloading/{shadowpod-controller/shadowpod_controller,
       nodefailure-controller/nodefailure_controller,podstatus-controller/podstatus_controller}.go,
       src/pkg/utils/{clusterid,nodeUtils}.go)

    The provider makes a pod of each shadow pod.  Pods of a node that failed are
    deleted for good, and the pods of a virtual node that is not ready carry a label.
    Objects are known by namespace and name; the API server is a set of calls. *)

From S2P Require Export Remap KubeClient VkForge.
From S2P Require ForeignCluster PodWebhook.
Local Open Scope Z_scope.

Definition ManagedByLabelKey : string := "liqo.io/managed-by".
Definition ManagedByShadowPodValue : string := "shadowpod".

Definition GetClusterIDFromLabelsWithKey (l : labels) (key : string) : option string := l !! key.

(** Namespace and name. *)
Notation nkey := (string * string)%type.

(** ** shadowpod_controller.go *)

Section shadow.
Context {W : Type}.
(** Reads; a patch of labels and annotations, which returns the pod; the status of a
    shadow pod; the creation of a pod; the configuration of a cluster. *)
Context (get_shadow : nkey → K W ShadowPod) (get_pod : nkey → K W Pod) (patch_pod : nkey → labels → labels → K W Pod)
  (update_status : nkey → ShadowPod → K W ()) (create_pod : nkey → Pod → K W ()) (get_configuration : string → K W (option Configuration)).

Definition with_labels (s : ShadowPod) (l : labels) : ShadowPod :=
  mkShadowPod (sh_Name s) (sh_Namespace s) (sh_UID s) l (sh_Annotations s) (sh_Deleting s) (sh_Spec s) (sh_Phase s).
Definition with_phase (s : ShadowPod) (p : string) : ShadowPod :=
  mkShadowPod (sh_Name s) (sh_Namespace s) (sh_UID s) (sh_Labels s) (sh_Annotations s) (sh_Deleting s) (sh_Spec s) p.
Definition MapAddressOf (clusterID address : string) : K W string :=
  cfg ← get_configuration clusterID;
  lift_outcome (r ← MapAddressWithConfiguration cfg address; Ret match r with Ok a => Ok a | Err _ => Err OtherErr end).
(** The loop of [mutatePodSpec]. *)
Fixpoint mutate_aliases (clusterID : string) (l : list HostAlias) : K W (list HostAlias) :=
  match l with
  | [] => mret []
  | a :: l =>
    a ← (if bool_decide (KubernetesAPIService ∈ ha_Hostnames a) then
           ip ← MapAddressOf clusterID (ha_IP a); mret (mkHostAlias ip (ha_Hostnames a))
         else mret a);
    l ← mutate_aliases clusterID l; mret (a :: l)
  end.
Definition mutatePodSpec (spec : PodSpec) (clusterID : string) : K W PodSpec :=
  l ← mutate_aliases clusterID (ps_HostAliases spec); mret (set_aliases spec l).

Definition fresh_status : PodStatus := mkPodStatus "" "" [] "" None "" None [] [] [] [] None.
(** The reference to the owner, which is set last, is left out. *)
Definition ShadowReconcile (k : nkey) : K W () :=
  r ← attempt (get_shadow k);
  match r with
  | Err NotFound => mret ()
  | Err e => fail e
  | Ok shadow =>
    if bool_decide (sh_Phase shadow = PodSucceeded) || bool_decide (sh_Phase shadow = PodFailed) then mret ()
    else
      let shadow := with_labels shadow ({[ ManagedByLabelKey := ManagedByShadowPodValue ]} ∪ sh_Labels shadow) in
      r ← attempt (get_pod k);
      match r with
      | Ok _ =>
        pod ← patch_pod k (sh_Labels shadow) (sh_Annotations shadow);
        update_status k (with_phase shadow (st_Phase (p_Status pod)))
      | Err NotFound =>
        match GetClusterIDFromLabelsWithKey (sh_Labels shadow) LiqoOriginClusterIDKey with
        | None => mret ()
        | Some clusterID =>
          spec ← mutatePodSpec (sh_Spec shadow) clusterID;
          create_pod k (mkPod k.2 "" (sh_Labels shadow) (sh_Annotations shadow) false spec fresh_status)
        end
      | Err e => fail e
      end
  end.
End shadow.

(** ** Nodes that fail *)

(** Labels and conditions. *)
Record NodeObj := mkNodeObj { no_Labels : labels; no_Conditions : ForeignCluster.conds }.
Definition node_ready (n : NodeObj) : bool := ForeignCluster.IsNodeReady (no_Conditions n).
Definition is_virtual (n : NodeObj) : bool := PodWebhook.IsVirtualNode (PodWebhook.mkNode "" (no_Labels n) []).

Section nodes.
Context {W : Type}.
(** Reads; the pods of a node with a label; a deletion without grace; an update. *)
Context (get_node : string → K W NodeObj) (list_pods : string * string → string → K W (list (nkey * Pod)))
  (delete_pod : nkey → K W ()) (update_pod : nkey → Pod → K W ()).

(** *** nodefailure_controller.go *)

Fixpoint delete_terminating (l : list (nkey * Pod)) : K W () :=
  match l with
  | [] => mret ()
  | (k, p) :: l => _ ← (if p_Deleting p then delete_pod k else mret ()); delete_terminating l
  end.
Definition NodeFailureReconcile (name : string) : K W () :=
  r ← attempt (get_node name);
  match r with
  | Err NotFound => mret ()
  | Err e => fail e
  | Ok node =>
    if node_ready node then mret ()
    else l ← list_pods (ManagedByLabelKey, ManagedByShadowPodValue) name; delete_terminating l
  end.
(** The node that is reconciled when a pod changes. *)
Definition podTerminating (new : Pod) (nodeName : string) : list string :=
  if bool_decide (p_Labels new !! ManagedByLabelKey = Some ManagedByShadowPodValue) && p_Deleting new && negb (bool_decide (nodeName = ""%string))
  then [nodeName] else [].

(** *** podstatus_controller.go *)

Definition with_pod_labels (p : Pod) (l : labels) : Pod := mkPod (p_Name p) (p_UID p) l (p_Annotations p) (p_Deleting p) (p_Spec p) (p_Status p).
Definition mark_available (ready : bool) (p : Pod) : option Pod :=
  if negb ready && negb (HasRemoteUnavailableLabel p) then Some (with_pod_labels p (<[RemoteUnavailableKey := RemoteUnavailableValue]> (p_Labels p)))
  else if ready && HasRemoteUnavailableLabel p then Some (with_pod_labels p (delete RemoteUnavailableKey (p_Labels p)))
  else None.
Fixpoint mark_pods (ready : bool) (l : list (nkey * Pod)) : K W () :=
  match l with
  | [] => mret ()
  | (k, p) :: l => _ ← match mark_available ready p with Some p => update_pod k p | None => mret () end; mark_pods ready l
  end.
Definition PodStatusReconcile (name : string) : K W () :=
  r ← attempt (get_node name);
  match r with
  | Err NotFound => mret ()
  | Err e => fail e
  | Ok node =>
    if negb (is_virtual node) then mret ()
    else l ← list_pods (LocalPodLabelKey, LocalPodLabelValue) name; mark_pods (node_ready node) l
  end.
End nodes.

(** ** Offloaded pods run as they were forged, and follow their nodes *)

(** ** A cluster

    Shadow pods, pods with the node they are bound to, nodes and configurations.  A
    call may fail, with or without its effect. *)

Record cluster := mkCluster {
  cu_shadows : gmap nkey ShadowPod; cu_pods : gmap nkey (Pod * string); cu_nodes : gmap string NodeObj; cu_configs : gmap string Configuration
}.
Definition set_pods (w : cluster) (m : gmap nkey (Pod * string)) : cluster := mkCluster (cu_shadows w) m (cu_nodes w) (cu_configs w).
Definition set_shadows (w : cluster) (m : gmap nkey ShadowPod) : cluster := mkCluster m (cu_pods w) (cu_nodes w) (cu_configs w).

Inductive call := CGetShadow (k : nkey) | CGetPod (k : nkey) | CPatch (k : nkey) | CStatus (k : nkey) | CCreate (k : nkey)
| CConfig (id : string) | CNode (n : string) | CList (l : string * string) (n : string) | CDelete (k : nkey) | CUpdate (k : nkey).

Section cluster.
(** Which calls fail, and whether they took effect; how labels and annotations are
    merged into a pod. *)
Context (refused : cluster → call → option (kerr * bool)) (merge : Pod → labels → labels → Pod).
Record merges : Prop := {
  mg_keeps p l a : p_Name (merge p l a) = p_Name p ∧ p_UID (merge p l a) = p_UID p ∧ p_Deleting (merge p l a) = p_Deleting p ∧
    p_Spec (merge p l a) = p_Spec p ∧ p_Status (merge p l a) = p_Status p;
  mg_labels p l a : l ⊆ p_Labels (merge p l a) ∧ a ⊆ p_Annotations (merge p l a)
}.

Definition answered {A} (c : call) (r : cluster → option (cluster * A)) : K cluster A := fun w =>
  match refused w c with
  | Some (e, false) => Ret (w, Err e)
  | Some (e, true) => Ret (match r w with Some (w', _) => w' | None => w end, Err e)
  | None => match r w with Some (w', a) => Ret (w', Ok a) | None => Ret (w, Err NotFound) end
  end.
Definition read {A} (c : call) (r : cluster → option A) : K cluster A := answered c (fun w => a ← r w; Some (w, a)).
Definition get_shadow (k : nkey) : K cluster ShadowPod := read (CGetShadow k) (fun w => cu_shadows w !! k).
Definition get_pod (k : nkey) : K cluster Pod := read (CGetPod k) (fun w => fst <$> cu_pods w !! k).
Definition patch_pod (k : nkey) (l a : labels) : K cluster Pod := answered (CPatch k) (fun w =>
  '(p, n) ← cu_pods w !! k; Some (set_pods w (<[k := (merge p l a, n)]> (cu_pods w)), merge p l a)).
Definition update_status (k : nkey) (s : ShadowPod) : K cluster () := answered (CStatus k) (fun w =>
  s0 ← cu_shadows w !! k; Some (set_shadows w (<[k := with_phase s0 (sh_Phase s)]> (cu_shadows w)), ())).
(** A pod with the name exists: nothing is created. *)
Definition create_pod (k : nkey) (p : Pod) : K cluster () := fun w =>
  match cu_pods w !! k with
  | Some _ => Ret (w, Err AlreadyExists)
  | None => answered (CCreate k) (fun w => Some (set_pods w (<[k := (p, ""%string)]> (cu_pods w)), ())) w
  end.
Definition get_configuration (id : string) : K cluster (option Configuration) := read (CConfig id) (fun w => Some <$> cu_configs w !! id).
Definition get_node (n : string) : K cluster NodeObj := read (CNode n) (fun w => cu_nodes w !! n).
Definition selected (l : string * string) (n : string) (x : Pod * string) : Prop := p_Labels x.1 !! l.1 = Some l.2 ∧ x.2 = n.
#[local] Instance selected_dec l n x : Decision (selected l n x).
Proof. unfold selected. apply _. Defined.
Definition list_pods (l : string * string) (n : string) : K cluster (list (nkey * Pod)) := read (CList l n) (fun w =>
  Some ((fun x => (x.1, x.2.1)) <$> filter (fun x => selected l n x.2) (map_to_list (cu_pods w)))).
Definition delete_pod (k : nkey) : K cluster () := answered (CDelete k) (fun w =>
  _ ← cu_pods w !! k; Some (set_pods w (delete k (cu_pods w)), ())).
Definition update_pod (k : nkey) (p : Pod) : K cluster () := answered (CUpdate k) (fun w =>
  '(_, n) ← cu_pods w !! k; Some (set_pods w (<[k := (p, n)]> (cu_pods w)), ())).

Notation reconcile := (ShadowReconcile get_shadow get_pod patch_pod update_status create_pod get_configuration).
Notation mutate := (mutatePodSpec get_configuration).

Lemma read_inv {A} c (r : cluster → option A) w w' x : read c r w = Ret (w', x) → w' = w ∧ ∀ a, x = Ok a → r w = Some a.
Proof.
  unfold read, answered. destruct (refused w c) as [[e []]|]; destruct (r w) as [a0|]; cbn; intros [= <- <-]; (split; [done|]); intros a [=]; congruence.
Qed.
(** A call changes the world in one way, or not at all. *)
Lemma answered_inv {A} c (r : cluster → option (cluster * A)) w w' x : answered c r w = Ret (w', x) → w' = w ∨ ∃ a, r w = Some (w', a) ∧ ∀ b, x = Ok b → b = a.
Proof.
  unfold answered. destruct (refused w c) as [[e []]|]; destruct (r w) as [[w1 a]|] eqn:E; intros [= <- <-]; try (by left); right; exists a; (split; [done|]); by intros b [=].
Qed.

(** ** Aliases of the API server *)

(** An alias of the API server of the consumer points to the address by which it is
    reached from here; other aliases are kept. *)
Definition remapped (cfg : option Configuration) (a a' : HostAlias) : Prop :=
  ha_Hostnames a' = ha_Hostnames a ∧
  if bool_decide (KubernetesAPIService ∈ ha_Hostnames a) then MapAddressWithConfiguration cfg (ha_IP a) = Ret (Ok (ha_IP a')) else a' = a.
Lemma mutate_aliases_inv id l w w' r : mutate_aliases get_configuration id l w = Ret (w', r) → w' = w ∧
  ∀ l', r = Ok l' → Forall2 (remapped (cu_configs w !! id)) l l'.
Proof.
  revert w' r. induction l as [|a l IH]; intros w' r; cbn [mutate_aliases]; [intros [= <- <-]; split; [done|]; by intros ? [= <-]|].
  assert (Ha : ∀ w1 x, (if bool_decide (KubernetesAPIService ∈ ha_Hostnames a) then ip ← MapAddressOf get_configuration id (ha_IP a); mret (mkHostAlias ip (ha_Hostnames a)) else mret a) w = Ret (w1, x) →
    w1 = w ∧ ∀ a', x = Ok a' → remapped (cu_configs w !! id) a a').
  { intros w1 x. unfold remapped. case_bool_decide; [|intros [= <- <-]; split; [done|]; by intros ? [= <-]].
    intros [(ip & w2 & H1 & [= <- <-])|(e & H1 & ->)]%K_bind_inv.
    - apply K_bind_inv in H1 as [(cfg & w3 & [-> Hc]%read_inv & [-> H2]%lift_outcome_ret)|(e & _ & [=])]. split; [done|]. intros a' [= <-]. split; [done|]. cbn.
      specialize (Hc cfg eq_refl). destruct (cu_configs w !! id) as [c|]; [|done]. injection Hc as <-.
      destruct (MapAddressWithConfiguration (Some c) (ha_IP a)) as [[x|]| |]; cbn in H2; congruence.
    - split; [|done]. apply K_bind_inv in H1 as [(cfg & w3 & [-> _]%read_inv & [-> _]%lift_outcome_ret)|(e' & [-> _]%read_inv & _)]; done. }
  intros [(a' & w1 & [-> H1]%Ha & H)|(e & [-> _]%Ha & ->)]%K_bind_inv; [|done].
  apply K_bind_inv in H as [(l' & w2 & [-> H2]%IH & [= <- <-])|(e & [-> _]%IH & ->)]; [|done].
  split; [done|]. intros ? [= <-]. constructor; [by apply H1|by apply H2].
Qed.

(** ** The pod of a shadow pod *)

Definition managed (s : ShadowPod) : labels := {[ ManagedByLabelKey := ManagedByShadowPodValue ]} ∪ sh_Labels s.
Definition finished (s : ShadowPod) : bool := bool_decide (sh_Phase s = PodSucceeded) || bool_decide (sh_Phase s = PodFailed).
(** What is created: the labels of the shadow pod and the one of the controller, its
    annotations, and its specification with the aliases remapped. *)
Definition pod_of (k : nkey) (s : ShadowPod) (l : list HostAlias) : Pod :=
  mkPod k.2 "" (managed s) (sh_Annotations s) false (set_aliases (sh_Spec s) l) fresh_status.
Definition justified (w : cluster) (k : nkey) (x : Pod * string) : Prop :=
  ∃ s c l, cu_shadows w !! k = Some s ∧ finished s = false ∧ managed s !! LiqoOriginClusterIDKey = Some c ∧
    Forall2 (remapped (cu_configs w !! c)) (ps_HostAliases (sh_Spec s)) l ∧ x = (pod_of k s l, ""%string).
(** What a run may do to the cluster. *)
Record shadow_effect (k : nkey) (w w' : cluster) : Prop := {
  se_nodes : cu_nodes w' = cu_nodes w;
  se_configs : cu_configs w' = cu_configs w;
  se_others k' : k' ≠ k → cu_pods w' !! k' = cu_pods w !! k' ∧ cu_shadows w' !! k' = cu_shadows w !! k';
  se_pod p n : cu_pods w !! k = Some (p, n) → ∃ p', cu_pods w' !! k = Some (p', n) ∧ p_Spec p' = p_Spec p ∧ p_Status p' = p_Status p ∧ p_UID p' = p_UID p;
  se_new x : cu_pods w !! k = None → cu_pods w' !! k = Some x → justified w k x;
  se_shadow : cu_shadows w' !! k = cu_shadows w !! k ∨
    ∃ s p n, cu_shadows w !! k = Some s ∧ finished s = false ∧ cu_pods w !! k = Some (p, n) ∧ cu_shadows w' !! k = Some (with_phase s (st_Phase (p_Status p)))
}.
Lemma shadow_effect_refl k w : shadow_effect k w w.
Proof. split; try done; [intros p n H; by exists p|congruence|by left]. Qed.

Context (Hmerge : merges).
Lemma patch_inv k l a w w' r : patch_pod k l a w = Ret (w', r) →
  (w' = w ∧ ∃ e, r = Err e) ∨ ∃ p n, cu_pods w !! k = Some (p, n) ∧ w' = set_pods w (<[k := (merge p l a, n)]> (cu_pods w)) ∧ ∀ p', r = Ok p' → p' = merge p l a.
Proof.
  unfold patch_pod, answered. destruct (refused w (CPatch k)) as [[e []]|]; destruct (cu_pods w !! k) as [[p n]|]; cbn; intros [= <- <-];
    try (left; split; [done|by eexists]); right; exists p, n; (split; [done|]); (split; [done|]); by intros ? [=].
Qed.
Lemma status_inv k s w w' r : update_status k s w = Ret (w', r) →
  w' = w ∨ ∃ s0, cu_shadows w !! k = Some s0 ∧ w' = set_shadows w (<[k := with_phase s0 (sh_Phase s)]> (cu_shadows w)).
Proof.
  intros [->|(a & H & _)]%answered_inv; [by left|]. destruct (cu_shadows w !! k) as [s0|]; [|done]. injection H as <- _. right. by exists s0.
Qed.
Lemma create_pod_inv k p w w' r : create_pod k p w = Ret (w', r) →
  w' = w ∨ cu_pods w !! k = None ∧ w' = set_pods w (<[k := (p, ""%string)]> (cu_pods w)).
Proof.
  unfold create_pod. destruct (cu_pods w !! k) eqn:E; [intros [= <- _]; by left|]. intros [->|(a & [= <- _] & _)]%answered_inv; [by left|by right].
Qed.
(** C38: Whatever fails, a run makes a pod only of a shadow pod that is not finished and as
    it says, never touches the specification of a pod that exists, nor any other
    object. *)
Theorem provider_pods_justified k w w' r : reconcile k w = Ret (w', r) → shadow_effect k w w'.
Proof.
  unfold ShadowReconcile. intros [(x & w1 & (y & [-> Hs]%read_inv & [= ->])%attempt_inv & H)|(e & (y & _ & [=])%attempt_inv & _)]%K_bind_inv.
  destruct y as [s|[]]; try (injection H as <- _; apply shadow_effect_refl). specialize (Hs s eq_refl).
  change (_ || _) with (finished s) in H. destruct (finished s) eqn:Hf; [injection H as <- _; apply shadow_effect_refl|]. cbv zeta in H. cbn [sh_Labels with_labels] in H.
  apply K_bind_inv in H as [(x & w1 & (y & [-> Hp]%read_inv & [= ->])%attempt_inv & H)|(e & (y & _ & [=])%attempt_inv & _)].
  destruct y as [p0|[]]; try (injection H as <- _; apply shadow_effect_refl).
  - destruct (cu_pods w !! k) as [[p n]|] eqn:Hk; [|by specialize (Hp p0 eq_refl)]. clear Hp.
    assert (Hpatched : ∀ w1, (∃ l a, w1 = set_pods w (<[k := (merge p l a, n)]> (cu_pods w))) → shadow_effect k w w1).
    { intros w1 (l & a & ->). destruct (mg_keeps Hmerge p l a) as (_ & Hu & _ & Hsp & Hst). split; try done.
      - intros k' Hk'. cbn. by rewrite lookup_insert_ne.
      - intros p' n' [= <- <-]%(eq_trans (eq_sym Hk)). exists (merge p l a). cbn. by rewrite lookup_insert_eq.
      - congruence.
      - by left. }
    apply K_bind_inv in H as [(p1 & w1 & [[-> [e [=]]]|(p' & n' & Hk' & -> & Hr)]%patch_inv & H)|(e & [[-> _]|(p' & n' & Hk' & -> & _)]%patch_inv & _)].
    + rewrite Hk in Hk'. injection Hk' as <- <-. specialize (Hr p1 eq_refl). subst p1. set (w1 := set_pods _ _) in H. assert (Hw1 : shadow_effect k w w1) by (apply Hpatched; by eexists _, _). clear Hpatched.
      apply status_inv in H as [->|(s0 & Hs0 & ->)]; [exact Hw1|]. destruct Hw1 as [? ? Ho Hpod ? _]. cbn in Hs0. assert (s0 = s) as -> by congruence. split; try done.
      * intros k' Hk'. destruct (Ho k' Hk') as [H1 H2]. split; [exact H1|]. cbn [set_shadows cu_shadows]. rewrite lookup_insert_ne by done. exact H2.
      * right. exists s, p, n. split; [done|]. split; [done|]. split; [done|]. cbn [set_shadows cu_shadows with_phase sh_Phase]. rewrite lookup_insert_eq.
        rewrite (proj2 (proj2 (proj2 (proj2 (mg_keeps Hmerge p _ _))))). done.
    + apply shadow_effect_refl.
    + rewrite Hk in Hk'. injection Hk' as <- <-. apply Hpatched. by eexists _, _.
  - change (GetClusterIDFromLabelsWithKey (_ ∪ sh_Labels s) LiqoOriginClusterIDKey) with (managed s !! LiqoOriginClusterIDKey) in H. destruct (managed s !! LiqoOriginClusterIDKey) as [c|] eqn:Hc; [|injection H as <- _; apply shadow_effect_refl].
    apply K_bind_inv in H as [(spec & w1 & H1 & H)|(e & H1 & _)].
    2: { apply K_bind_inv in H1 as [(l & w2 & [-> _]%mutate_aliases_inv & [=])|(e' & [-> _]%mutate_aliases_inv & _)]. apply shadow_effect_refl. }
    apply K_bind_inv in H1 as [(l & w2 & [-> Hl]%mutate_aliases_inv & [= <- <-])|(e' & _ & [=])].
    apply create_pod_inv in H as [->|[Hnone ->]]; [apply shadow_effect_refl|]. split; try done.
    + intros k' Hk'. cbn. by rewrite lookup_insert_ne.
    + congruence.
    + intros x _ Hx. cbn in Hx. rewrite lookup_insert_eq in Hx. injection Hx as <-. exists s, c, l. by specialize (Hl l eq_refl).
    + by left.
Qed.

(** ** A cluster that answers *)

Definition responsive : Prop := ∀ w c, refused w c = None.
Context (Hans : responsive).
Lemma answered_runs {A} c (r : cluster → option (cluster * A)) w w' a : r w = Some (w', a) → answered c r w = Ret (w', Ok a).
Proof. intros H. unfold answered. by rewrite Hans, H. Qed.
Lemma read_runs {A} c (r : cluster → option A) w : read c r w = Ret (w, match r w with Some a => Ok a | None => Err NotFound end).
Proof. unfold read, answered. rewrite Hans. by destruct (r w). Qed.
(** The aliases of the API server can be remapped. *)
Definition reachable (cfg : option Configuration) (a : HostAlias) : Prop :=
  KubernetesAPIService ∈ ha_Hostnames a → is_Some cfg ∧ ∃ ip, MapAddressWithConfiguration cfg (ha_IP a) = Ret (Ok ip).
Lemma mutate_aliases_runs id l w : Forall (reachable (cu_configs w !! id)) l →
  ∃ l', mutate_aliases get_configuration id l w = Ret (w, Ok l') ∧ Forall2 (remapped (cu_configs w !! id)) l l'.
Proof.
  intros Hl. enough (∃ l', mutate_aliases get_configuration id l w = Ret (w, Ok l')) as [l' E].
  { exists l'. split; [done|]. apply mutate_aliases_inv in E as [_ E]. by apply E. }
  induction Hl as [|a l Ha _ [l' IH]]; [by exists []|]. cbn [mutate_aliases].
  assert (∃ a', (if bool_decide (KubernetesAPIService ∈ ha_Hostnames a) then ip ← MapAddressOf get_configuration id (ha_IP a); mret (mkHostAlias ip (ha_Hostnames a)) else mret a) w = Ret (w, Ok a')) as [a' Ea].
  { case_bool_decide as Hin; [|by exists a]. destruct (Ha Hin) as [[cfg Hcfg] [ip Hip]]. rewrite Hcfg in Hip. exists (mkHostAlias ip (ha_Hostnames a)).
    erewrite K_bind_ok; [reflexivity|]. unfold MapAddressOf. erewrite K_bind_ok; [|unfold get_configuration; rewrite read_runs, Hcfg; reflexivity].
    unfold lift_outcome. by rewrite Hip. }
  exists (a' :: l'). erewrite K_bind_ok by exact Ea. by erewrite K_bind_ok by exact IH.
Qed.
Lemma shadow_pod_starts k w s c : cu_shadows w !! k = Some s → finished s = false → cu_pods w !! k = None → managed s !! LiqoOriginClusterIDKey = Some c →
  Forall (reachable (cu_configs w !! c)) (ps_HostAliases (sh_Spec s)) →
  ∃ l, reconcile k w = Ret (set_pods w (<[k := (pod_of k s l, ""%string)]> (cu_pods w)), Ok ()) ∧ Forall2 (remapped (cu_configs w !! c)) (ps_HostAliases (sh_Spec s)) l.
Proof.
  intros Hs Hf Hp Hc Ha. destruct (mutate_aliases_runs c _ w Ha) as (l & El & Hl). exists l. split; [|done].
  unfold ShadowReconcile. erewrite K_bind_ok by (apply attempt_ok, read_runs). rewrite Hs. change (_ || _) with (finished s). rewrite Hf. cbv zeta.
  erewrite K_bind_ok by (apply attempt_ok, read_runs). rewrite Hp. cbn [fmap option_fmap option_map sh_Labels with_labels].
  change (GetClusterIDFromLabelsWithKey (_ ∪ sh_Labels s) LiqoOriginClusterIDKey) with (managed s !! LiqoOriginClusterIDKey). rewrite Hc.
  erewrite K_bind_ok; [|unfold mutatePodSpec; erewrite K_bind_ok by exact El; reflexivity].
  unfold create_pod. rewrite Hp. by apply answered_runs.
Qed.

(** C37: A pod that the virtual kubelet offloads runs in the provider as it was forged: the
    shadow pod that is forged from a local pod becomes a pod with its specification, in
    which only the addresses of the API server are those by which the provider reaches
    it, and with labels that say where it comes from. *)
Theorem offloaded_pod_arrives {S} LocalCluster RemoteCluster LiqoNodeName local ns opts (mutators : list (mutator (S := S))) st st' target w :
  RemoteShadowPod LocalCluster RemoteCluster LiqoNodeName local None ns opts mutators st = Ret (target, st') →
  let k := (ns, p_Name local) in
  cu_shadows w !! k = Some target → cu_pods w !! k = None → Forall (reachable (cu_configs w !! LocalCluster)) (ps_HostAliases (sh_Spec target)) →
  ∃ pod l, reconcile k w = Ret (set_pods w (<[k := (pod, ""%string)]> (cu_pods w)), Ok ()) ∧
    p_Name pod = p_Name local ∧ p_Spec pod = set_aliases (sh_Spec target) l ∧ Forall2 (remapped (cu_configs w !! LocalCluster)) (ps_HostAliases (sh_Spec target)) l ∧
    IsReflected LocalCluster RemoteCluster (p_Labels pod) = true ∧ p_Labels pod !! ManagedByLabelKey = Some ManagedByShadowPodValue.
Proof.
  intros Hforge k Hs Hp Ha. unfold RemoteShadowPod in Hforge. destruct opts as [o|]; [|done].
  destruct (RemotePodSpec _ _ _ _ _) as [[spec st1]| |] eqn:Espec; [|done..]. cbn in Hforge. injection Hforge as Ht _.
  assert (Hlab : sh_Labels target = ReflectionLabels LocalCluster RemoteCluster ∪ filtered_labels LiqoNodeName local o) by (by rewrite <- Ht).
  assert (Hphase : finished target = false) by (rewrite <- Ht; reflexivity).
  assert (Horigin : managed target !! LiqoOriginClusterIDKey = Some LocalCluster).
  { unfold managed. rewrite lookup_union_r by reflexivity. rewrite Hlab. apply lookup_union_Some_l. reflexivity. }
  destruct (shadow_pod_starts k w target LocalCluster Hs Hphase Hp Horigin Ha) as (l & E & Hl).
  exists (pod_of k target l), l. split; [done|]. split; [done|]. split; [done|]. split; [done|]. split.
  - cbn. unfold managed. unfold IsReflected. rewrite !lookup_union_r by reflexivity. rewrite Hlab. apply (IsReflected_labels LocalCluster RemoteCluster).
  - cbn. unfold managed. apply lookup_union_Some_l. reflexivity.
Qed.

(** ** Pods of nodes *)

(** Pods that are listed, once each. *)
Definition listing (w : cluster) (l : list (nkey * Pod)) : Prop := NoDup l.*1 ∧ ∀ k p, (k, p) ∈ l → ∃ n, cu_pods w !! k = Some (p, n).
Lemma listing_cons w w' k p l : listing w ((k, p) :: l) → (∀ k', k' ≠ k → cu_pods w' !! k' = cu_pods w !! k') → listing w' l ∧ k ∉ l.*1.
Proof.
  intros [Hnd Hin] Ho. apply NoDup_cons in Hnd as [Hk Hnd]. split; [|done]. split; [done|]. intros k' p' Hp. destruct (Hin k' p') as [n Hn]; [by right|].
  exists n. rewrite Ho; [done|]. intros ->. apply Hk, list_elem_of_fmap. by exists (k, p').
Qed.
Lemma delete_terminating_runs l w : listing w l → ∃ m, delete_terminating delete_pod l w = Ret (set_pods w m, Ok ()) ∧
  (∀ k, k ∉ l.*1 → m !! k = cu_pods w !! k) ∧ ∀ k p, (k, p) ∈ l → m !! k = if p_Deleting p then None else cu_pods w !! k.
Proof.
  revert w. induction l as [|[k p] l IH]; intros w Hl; cbn [delete_terminating].
  { exists (cu_pods w). split; [by destruct w|]. split; [done|]. by intros k p ?%not_elem_of_nil. }
  destruct (proj2 Hl k p) as [n Hn]; [by left|].
  assert (∃ m1, (if p_Deleting p then delete_pod k else mret ()) w = Ret (set_pods w m1, Ok ()) ∧ m1 !! k = (if p_Deleting p then None else cu_pods w !! k) ∧ ∀ k', k' ≠ k → m1 !! k' = cu_pods w !! k') as (m1 & E1 & H1 & H2).
  { destruct (p_Deleting p); [|exists (cu_pods w); by destruct w]. exists (delete k (cu_pods w)). split; [|split; [apply lookup_delete_eq|intros; by apply lookup_delete_ne]].
    apply answered_runs. by rewrite Hn. }
  destruct (listing_cons w (set_pods w m1) k p l Hl H2) as [Hl1 Hk]. destruct (IH _ Hl1) as (m & E & Hout & Hin). exists m. split; [by erewrite K_bind_ok by exact E1|]. split.
  - intros k' Hk'. rewrite fmap_cons, not_elem_of_cons in Hk'. destruct Hk' as [Hne Hk']. rewrite Hout by done. by apply H2.
  - intros k' p' [[= -> ->]|Hp]%elem_of_cons; [rewrite Hout by done; exact H1|]. rewrite (Hin k' p' Hp). cbn. destruct (p_Deleting p'); [done|].
    apply H2. intros ->. apply Hk, list_elem_of_fmap. by exists (k, p').
Qed.
Lemma mark_pods_runs ready l w : listing w l → ∃ m, mark_pods update_pod ready l w = Ret (set_pods w m, Ok ()) ∧
  (∀ k, k ∉ l.*1 → m !! k = cu_pods w !! k) ∧
  ∀ k p n, (k, p) ∈ l → cu_pods w !! k = Some (p, n) → m !! k = Some (default p (mark_available ready p), n).
Proof.
  revert w. induction l as [|[k p] l IH]; intros w Hl; cbn [mark_pods].
  { exists (cu_pods w). split; [by destruct w|]. split; [done|]. by intros k p n ?%not_elem_of_nil. }
  destruct (proj2 Hl k p) as [n Hn]; [by left|].
  assert (∃ m1, (match mark_available ready p with Some p => update_pod k p | None => mret () end) w = Ret (set_pods w m1, Ok ()) ∧
    m1 !! k = Some (default p (mark_available ready p), n) ∧ ∀ k', k' ≠ k → m1 !! k' = cu_pods w !! k') as (m1 & E1 & H1 & H2).
  { destruct (mark_available ready p) as [p'|]; [|exists (cu_pods w); by destruct w]. exists (<[k := (p', n)]> (cu_pods w)).
    split; [|split; [apply lookup_insert_eq|intros; by apply lookup_insert_ne]]. apply answered_runs. by rewrite Hn. }
  destruct (listing_cons w (set_pods w m1) k p l Hl H2) as [Hl1 Hk]. destruct (IH _ Hl1) as (m & E & Hout & Hin). exists m. split; [by erewrite K_bind_ok by exact E1|]. split.
  - intros k' Hk'. rewrite fmap_cons, not_elem_of_cons in Hk'. destruct Hk' as [Hne Hk']. rewrite Hout by done. by apply H2.
  - intros k' p' n' [[= -> ->]|Hp]%elem_of_cons Hn'; [rewrite Hout by done; cbn; rewrite H1; congruence|]. apply Hin; [done|]. cbn. rewrite H2; [done|].
    intros ->. apply Hk, list_elem_of_fmap. by exists (k, p').
Qed.
Lemma list_pods_runs lab n w : ∃ l, list_pods lab n w = Ret (w, Ok l) ∧ listing w l ∧ ∀ k p n', cu_pods w !! k = Some (p, n') → (k, p) ∈ l ↔ selected lab n (p, n').
Proof.
  unfold list_pods. rewrite read_runs. eexists. split; [reflexivity|]. set (l0 := filter _ _).
  assert (Hl0 : ∀ k x, (k, x) ∈ l0 ↔ selected lab n x ∧ cu_pods w !! k = Some x) by (intros k x; subst l0; by rewrite list_elem_of_filter, elem_of_map_to_list).
  assert (Hin : ∀ k p, (k, p) ∈ (fun x : nkey * (Pod * string) => (x.1, x.2.1)) <$> l0 ↔ ∃ n', selected lab n (p, n') ∧ cu_pods w !! k = Some (p, n')).
  { intros k p. rewrite list_elem_of_fmap. split.
    - intros ([k' [p' n']] & [= -> ->] & Hx%Hl0). by exists n'.
    - intros (n' & Hx). exists (k, (p, n')). split; [done|]. by apply Hl0. }
  split; [split|].
  - rewrite <- list_fmap_compose. apply (NoDup_fmap_fst l0); [|apply NoDup_filter, NoDup_map_to_list].
    intros k x y [_ Hx]%Hl0 [_ Hy]%Hl0. congruence.
  - intros k p (n' & _ & H)%Hin. by exists n'.
  - intros k p n' Hk. rewrite Hin. split; [intros (n2 & Hs & Hk2); congruence|]. intros Hs. by exists n'.
Qed.

(** What becomes of a pod of a node that failed. *)
Definition doomed (name : string) (x : Pod * string) : bool :=
  bool_decide (selected (ManagedByLabelKey, ManagedByShadowPodValue) name x) && p_Deleting x.1.
(** When a node is not ready, the pods of shadow pods that were being deleted on it,
    and no others, are gone after a run. *)
Theorem failed_node_cleared name node w : cu_nodes w !! name = Some node →
  ∃ m, NodeFailureReconcile get_node list_pods delete_pod name w = Ret (set_pods w m, Ok ()) ∧
    ∀ k, m !! k = x ← cu_pods w !! k; if negb (node_ready node) && doomed name x then None else Some x.
Proof.
  intros Hn. unfold NodeFailureReconcile. erewrite K_bind_ok by (apply attempt_ok, read_runs). rewrite Hn. destruct (node_ready node); cbn [negb andb].
  { exists (cu_pods w). split; [by destruct w|]. intros k. by destruct (cu_pods w !! k). }
  destruct (list_pods_runs (ManagedByLabelKey, ManagedByShadowPodValue) name w) as (l & El & Hl & Hin). erewrite K_bind_ok by exact El.
  destruct (delete_terminating_runs l w Hl) as (m & E & Hout & Hm). exists m. split; [done|]. intros k.
  destruct (cu_pods w !! k) as [[p n]|] eqn:Hk; cbn [mbind option_bind]; unfold doomed; cbn [fst].
  - destruct (decide (selected (ManagedByLabelKey, ManagedByShadowPodValue) name (p, n))) as [Hs|Hs].
    + rewrite bool_decide_true by done. rewrite (Hm k p) by (by apply (Hin k p n)). by rewrite Hk.
    + rewrite bool_decide_false by done. cbn [andb]. rewrite <- Hk. apply Hout. intros ([k' p'] & Hkk & Hp)%list_elem_of_fmap. cbn in Hkk. subst k'.
      destruct (proj2 Hl k p' Hp) as [n' Hn']. rewrite Hk in Hn'. injection Hn' as <- <-. apply Hs. by apply (Hin k p n).
  - rewrite <- Hk. apply Hout. intros ([k' p'] & Hkk & Hp)%list_elem_of_fmap. cbn in Hkk. subst k'. destruct (proj2 Hl k p' Hp) as [n' Hn']. congruence.
Qed.

Lemma mark_available_spec ready p : HasRemoteUnavailableLabel (default p (mark_available ready p)) = negb ready.
Proof.
  unfold mark_available. destruct ready; cbn [negb andb]; destruct (HasRemoteUnavailableLabel p) eqn:E; cbn; try done; unfold HasRemoteUnavailableLabel; cbn.
  - rewrite lookup_delete_eq. by rewrite bool_decide_false.
  - rewrite lookup_insert_eq. by rewrite bool_decide_true.
Qed.
Lemma mark_available_keeps ready p : with_pod_labels (default p (mark_available ready p)) ∅ = with_pod_labels p ∅ ∧
  delete RemoteUnavailableKey (p_Labels (default p (mark_available ready p))) = delete RemoteUnavailableKey (p_Labels p).
Proof.
  unfold mark_available. repeat case_match; cbn; try done; (split; [done|]); [apply delete_insert_eq|apply delete_delete_eq].
Qed.
(** After a run for a virtual node, exactly the offloaded pods of a node that is not
    ready are labelled as unavailable, and pods are not changed otherwise. *)
Theorem unavailable_exact name node w : cu_nodes w !! name = Some node → is_virtual node = true →
  ∃ m, PodStatusReconcile get_node list_pods update_pod name w = Ret (set_pods w m, Ok ()) ∧
    ∀ k p n, cu_pods w !! k = Some (p, n) → ∃ p', m !! k = Some (p', n) ∧
      with_pod_labels p' ∅ = with_pod_labels p ∅ ∧ delete RemoteUnavailableKey (p_Labels p') = delete RemoteUnavailableKey (p_Labels p) ∧
      if bool_decide (selected (LocalPodLabelKey, LocalPodLabelValue) name (p, n)) then HasRemoteUnavailableLabel p' = negb (node_ready node) else p' = p.
Proof.
  intros Hn Hv. unfold PodStatusReconcile. erewrite K_bind_ok by (apply attempt_ok, read_runs). rewrite Hn, Hv. cbn [negb].
  destruct (list_pods_runs (LocalPodLabelKey, LocalPodLabelValue) name w) as (l & El & Hl & Hin). erewrite K_bind_ok by exact El.
  destruct (mark_pods_runs (node_ready node) l w Hl) as (m & E & Hout & Hm). exists m. split; [done|]. intros k p n Hk.
  destruct (decide (selected (LocalPodLabelKey, LocalPodLabelValue) name (p, n))) as [Hs|Hs].
  - exists (default p (mark_available (node_ready node) p)). split; [apply Hm; [by apply (Hin k p n)|done]|]. rewrite bool_decide_true by done.
    destruct (mark_available_keeps (node_ready node) p) as [H1 H2]. split; [done|]. split; [done|]. apply mark_available_spec.
  - exists p. rewrite bool_decide_false by done. split; [|done]. rewrite <- Hk. apply Hout. intros ([k' p'] & Hkk & Hp)%list_elem_of_fmap. cbn in Hkk. subst k'.
    destruct (proj2 Hl k p' Hp) as [n' Hn']. rewrite Hk in Hn'. injection Hn' as <- <-. apply Hs. by apply (Hin k p n).
Qed.

(** ** What the controllers do not check *)

(** A pod with the name of a shadow pod is taken for its pod, whoever made it. *)
Theorem foreign_pod_labelled k w s p n : cu_shadows w !! k = Some s → finished s = false → cu_pods w !! k = Some (p, n) →
  ∃ w' p', reconcile k w = Ret (w', Ok ()) ∧ cu_pods w' !! k = Some (p', n) ∧ managed s ⊆ p_Labels p'.
Proof.
  intros Hs Hf Hp. unfold ShadowReconcile. erewrite K_bind_ok by (apply attempt_ok, read_runs). rewrite Hs. change (_ || _) with (finished s). rewrite Hf. cbv zeta.
  erewrite K_bind_ok by (apply attempt_ok, read_runs). rewrite Hp. cbn [fmap option_fmap option_map].
  erewrite K_bind_ok by (apply answered_runs; rewrite Hp; reflexivity). eexists _, _. split; [apply answered_runs; cbn [set_pods cu_shadows]; rewrite Hs; reflexivity|].
  split; [cbn [set_shadows set_pods cu_pods]; apply lookup_insert_eq|]. apply (mg_labels Hmerge).
Qed.
(** A shadow pod that is being deleted still gets a pod. *)
Theorem deleting_shadow_runs k w s c : cu_shadows w !! k = Some s → sh_Deleting s = true → finished s = false → cu_pods w !! k = None →
  managed s !! LiqoOriginClusterIDKey = Some c → ps_HostAliases (sh_Spec s) = [] → ∃ w', reconcile k w = Ret (w', Ok ()) ∧ is_Some (cu_pods w' !! k).
Proof.
  intros Hs _ Hf Hp Hc Ha. destruct (shadow_pod_starts k w s c Hs Hf Hp Hc) as (l & E & _); [by rewrite Ha|]. eexists. split; [exact E|]. cbn. by rewrite lookup_insert_eq.
Qed.
End cluster.

(** ** An offloaded pod *)

Definition ex_refused (w : cluster) (c : call) : option (kerr * bool) := None.
Definition ex_merge (p : Pod) (l a : labels) : Pod := mkPod (p_Name p) (p_UID p) (l ∪ p_Labels p) (a ∪ p_Annotations p) (p_Deleting p) (p_Spec p) (p_Status p).
Lemma ex_merges : merges ex_merge.
Proof. split; [done|]. intros p l a. split; apply map_union_subseteq_l. Qed.
Definition ex_local : Pod := mkPod "web" "u1" {[ "app" := "web" ]}%string ∅ false
  (mkPodSpec [mkContainer "nginx" "nginx" [] ∅ ∅ None] [] [] [] [] [mkHostAlias "10.1.0.5" ["kubernetes.default"%string]] "" None false None ∅ None no_copied None) fresh_status.
Definition ex_opts : ForgingOpts := mkForgingOpts [] [] ∅ [] None None.
Definition ex_forged : outcome (ShadowPod * ()) := RemoteShadowPod "rome" "milan" "liqo-milan" ex_local None "web-rome" (Some ex_opts) [] ().
Definition ex_shadow : ShadowPod := match ex_forged with Ret (s, _) => s | _ => mkShadowPod "" "" "" ∅ ∅ false empty_spec "" end.
Definition ex_cluster : cluster := mkCluster {[ ("web-rome", "web")%string := ex_shadow ]} ∅ ∅ {[ "rome"%string := example_cfg ]}.
Notation ex_reconcile := (ShadowReconcile (get_shadow ex_refused) (get_pod ex_refused) (patch_pod ex_refused ex_merge) (update_status ex_refused) (create_pod ex_refused) (get_configuration ex_refused)).
Lemma offloaded_pod_arrives_witness : ∃ pod l, ex_reconcile ("web-rome", "web")%string ex_cluster = Ret (set_pods ex_cluster {[ ("web-rome", "web")%string := (pod, ""%string) ]}, Ok ()) ∧
  p_Spec pod = set_aliases (sh_Spec ex_shadow) l ∧ Forall2 (remapped (Some example_cfg)) [mkHostAlias "10.1.0.5" ["kubernetes.default"%string]] l.
Proof.
  assert (E : ex_forged = Ret (ex_shadow, ())) by (vm_compute; reflexivity).
  destruct (offloaded_pod_arrives ex_refused ex_merge (fun _ _ => eq_refl) "rome" "milan" "liqo-milan" ex_local "web-rome" (Some ex_opts) [] () () ex_shadow ex_cluster E) as (pod & l & H1 & _ & H2 & H3 & _).
  - vm_compute. reflexivity.
  - reflexivity.
  - assert (Ea : ps_HostAliases (sh_Spec ex_shadow) = [mkHostAlias "10.1.0.5" ["kubernetes.default"%string]]) by (vm_compute; reflexivity). rewrite Ea.
    constructor; [|constructor]. intros _. split; [by exists example_cfg|]. eexists. vm_compute. reflexivity.
  - exists pod, l. split; [exact H1|]. split; [exact H2|]. exact H3.
Defined.
Lemma provider_pods_justified_witness : ∃ w' r, ex_reconcile ("web-rome", "web")%string ex_cluster = Ret (w', r) ∧ shadow_effect ("web-rome", "web")%string ex_cluster w' ∧
  is_Some (cu_pods w' !! ("web-rome", "web")%string).
Proof.
  assert (E : match ex_reconcile ("web-rome", "web")%string ex_cluster with Ret (w', _) => bool_decide (is_Some (cu_pods w' !! ("web-rome", "web")%string)) | _ => false end = true) by (vm_compute; reflexivity).
  destruct (ex_reconcile ("web-rome", "web")%string ex_cluster) as [[w' r]| |] eqn:H; [|discriminate E..]. apply bool_decide_eq_true in E.
  exists w', r. split; [reflexivity|]. split; [|exact E]. exact (provider_pods_justified ex_refused ex_merge ex_merges _ _ _ _ H).
Defined.
