(* ===== verification/IpMapping.v ===== *)
(** * IpMapping: addresses that other clusters need
      (src/pkg/liqo-controller-manager/ipmapping/{pod_controller,configuration_controller,
       endpointslice_controller,k8s,label}.go, src/apis/ipam/v1alpha1/ip_types.go)

    An IP resource asks for an address of the external network under which others
    reach a local address.  They are made for offloaded pods, for the address that
    stands for unknown sources of a remote cluster, and for the API server. *)

From S2P Require Export Remapping.
From S2P Require FirewallSem.
From Stdlib Require Import Ascii.
Local Open Scope Z_scope.

(** Owners, address, masquerade and the other fields of an IP; pods, configurations and
    endpoint slices (the addresses of their endpoints). *)
Inductive ipl :=
| PIp (owners : list OwnerRef) (ip : string) (masquerade : option bool) (rest : string)
| PPodIp (uid ip : string)
| PCfg (uid : string) (remoteExternal : list string)
| PEps (endpoints : list (list string)).
#[export] Instance ipl_eq_dec : EqDecision ipl.
Proof. solve_decision. Defined.

Definition ip_key (ns name : string) : okey := ("ips"%string, ns, name).
Definition ip_owners (o : Obj ipl) : list OwnerRef := match o_spec o with AMap (PIp l _ _ _) => l | _ => [] end.
Definition ip_addr (o : Obj ipl) : string := match o_spec o with AMap (PIp _ a _ _) => a | _ => ""%string end.
Definition ip_masquerade (o : Obj ipl) : option bool := match o_spec o with AMap (PIp _ _ m _) => m | _ => None end.
Definition ip_rest (o : Obj ipl) : string := match o_spec o with AMap (PIp _ _ _ r) => r | _ => ""%string end.
Definition pod_addr (o : Obj ipl) : string * string := match o_spec o with AMap (PPodIp u a) => (u, a) | _ => ("", "")%string end.
Definition cfg_external (o : Obj ipl) : string * list string := match o_spec o with AMap (PCfg u l) => (u, l) | _ => (""%string, []) end.
Definition eps_addresses (o : Obj ipl) : list string := match o_spec o with AMap (PEps l) => mjoin l | _ => [] end.

Definition offloadedPodNameLabelKey : string := "offloading.liqo.io/pod-name".
Definition offloadedPodNamespaceLabelKey : string := "offloading.liqo.io/pod-namespace".
Definition forgeIPLabels (ns name : string) : labels := {[ offloadedPodNameLabelKey := name; offloadedPodNamespaceLabelKey := ns ]}.
Definition IPEndpointSliceNameLabelKey : string := "ipam.liqo.io/endpointslice".
Definition IPTypeLabelKey : string := "ipam.liqo.io/ip-type".
Definition IPTypeAPIServer : string := "api-server".
Definition PreinstalledAnnotKey : string := "liqo.io/preinstalled".
Definition LabelServiceName : string := "kubernetes.io/service-name".
Definition kubernetesServiceName : string := "kubernetes".

(** "IP field is immutable": the rule by which the API server checks updates. *)
Definition validated {W} (cl : Client W ipl) : Client W ipl := mkClient (c_Get cl) (c_List cl) (c_Create cl)
  (fun k o => cur ← c_Get cl k; if bool_decide (k.1.1 = "ips"%string) && negb (bool_decide (ip_addr o = ip_addr cur)) then fail OtherErr else c_Update cl k o)
  (c_Delete cl).

Section controllers.
Context `{OR : OwnerRefs} `{CU : CreateOrUpdater ipl}.
Context {W : Type} (cl : Client W ipl) (order : list string) (kinds : string → option (string * string)) (globalLabels globalAnnotations : labels).
(** [DeleteAllOf] for IPs with labels. *)
Context (delete_all : string → labels → K W ()) (ipNamespace : string).
Notation create_or_update := (CreateOrUpdate order kinds globalLabels globalAnnotations cl).

(** An object that is gone already does not matter. *)
Definition quiet_delete (k : okey) : K W () := r ← attempt (c_Delete cl k); match r with Ok _ | Err NotFound => mret () | Err e => fail e end.

(** ** pod_controller.go and k8s.go *)

Definition mutateIP (ns name : string) (pod : Obj ipl) : mutate_fn ipl := fun o =>
  match SetOwnerReference (pod_addr pod).1 (ip_owners o) with
  | Err e => Ret (Err e)
  | Ok owners => Ret (Ok (mkObj (forgeIPLabels ns name ∪ o_labels o) (o_annotations o) (o_finalizers o) (o_deleting o) (o_version o)
                            (AMap (PIp owners (pod_addr pod).2 (ip_masquerade o) (ip_rest o))) (o_status o)))
  end.
Definition CreateOrUpdateIP (ns name : string) (pod : Obj ipl) : K W (Obj ipl) := create_or_update (ip_key ns name) (mutateIP ns name pod).
(** Whether the pod is looked at again after a second. *)
Definition PodIpReconcile (ns name : string) : K W bool :=
  r ← attempt (c_Get cl ("pods"%string, ns, name));
  match r with
  | Err NotFound => mret false
  | Err e => fail e
  | Ok pod => if bool_decide ((pod_addr pod).2 = ""%string) then mret true else _ ← CreateOrUpdateIP ns name pod; mret false
  end.

(** ** configuration_controller.go *)

Definition forgeUnknownSourceIPName (cfg : string) : string := (cfg ++ "-unknown-source")%string.
(** The labels that are set beforehand are those of an object that is read, if any (its
    version is not 0). *)
Definition mutate_unknown (uid name addr : string) : mutate_fn ipl := fun o =>
  match SetOwnerReference uid (ip_owners o) with
  | Err e => Ret (Err e)
  | Ok owners => Ret (Ok (mkObj (if o_version o =? 0 then {[ RemoteClusterID := name ]} else o_labels o) (o_annotations o) (o_finalizers o) (o_deleting o) (o_version o)
                            (AMap (PIp owners addr None "")) (o_status o)))
  end.
Definition createOrUpdateUnknownSourceIPResource (ns name uid addr : string) : K W () :=
  _ ← create_or_update (ip_key ns (forgeUnknownSourceIPName name)) (mutate_unknown uid name addr); mret ().
Definition deletePreviousUnknownSourceIPs (ns name addr : string) : K W () :=
  let k := ip_key ns (forgeUnknownSourceIPName name) in
  r ← attempt (c_Get cl k);
  match r with
  | Err NotFound => mret ()
  | Err e => fail e
  | Ok ip =>
    if bool_decide (ip_addr ip = addr) then mret ()
    else quiet_delete k
  end.
Definition CfgIpReconcile (ns name : string) : K W () :=
  r ← attempt (c_Get cl ("configurations"%string, ns, name));
  match r with
  | Err NotFound => mret ()
  | Err e => fail e
  | Ok cfg =>
    match GetPrimary (cfg_external cfg).2 with
    | None => fail OtherErr
    | Some cidr =>
      addr ← lift_outcome (r ← GetUnknownSourceIP cidr; Ret match r with Some a => Ok a | None => Err OtherErr end);
      _ ← deletePreviousUnknownSourceIPs ns name addr;
      createOrUpdateUnknownSourceIPResource ns name (cfg_external cfg).1 addr
    end
  end.

(** ** endpointslice_controller.go *)

Definition forgeIPname (eps address : string) : string := (eps ++ "-" ++ ReplaceAll "." "-" address)%string.
Definition mutate_endpoint (addr : string) (lbls annots : labels) : mutate_fn ipl := fun o =>
  Ret (Ok (mkObj (lbls ∪ o_labels o) (annots ∪ o_annotations o) (o_finalizers o) (o_deleting o) (o_version o)
             (AMap (PIp (ip_owners o) addr (Some true) (ip_rest o))) (o_status o))).
Definition ensureIP (name addr : string) (lbls annots : labels) : K W (Obj ipl) := create_or_update (ip_key ipNamespace name) (mutate_endpoint addr lbls annots).
Fixpoint ensure_ips (eps : string) (lbls annots : labels) (l : list string) : K W () :=
  match l with [] => mret () | addr :: l => _ ← ensureIP (forgeIPname eps addr) addr lbls annots; ensure_ips eps lbls annots l end.
Fixpoint delete_stale (expected : list string) (l : list (string * Obj ipl)) : K W () :=
  match l with
  | [] => mret ()
  | (name, _) :: l =>
    _ ← (if bool_decide (name ∈ expected) then mret () else quiet_delete (ip_key ipNamespace name));
    delete_stale expected l
  end.
(** The labels of the IPs and the ones they are listed by are one map: the type that is
    added to the first is also asked for. *)
Definition ip_labels (eps : string) (o : Obj ipl) : labels :=
  let common := {[ IPEndpointSliceNameLabelKey := eps ]} in
  if bool_decide (o_labels o !! LabelServiceName = Some kubernetesServiceName) then <[IPTypeLabelKey := IPTypeAPIServer]> common else common.
Definition EpsIpReconcile (ns name : string) : K W () :=
  r ← attempt (c_Get cl ("endpointslices"%string, ns, name));
  match r with
  | Err NotFound => mret ()
  | Err e => fail e
  | Ok eps =>
    if o_deleting eps then delete_all ipNamespace {[ IPEndpointSliceNameLabelKey := name ]}
    else
      let lbls := ip_labels name eps in
      _ ← ensure_ips name lbls {[ PreinstalledAnnotKey := "true"%string ]} (eps_addresses eps);
      l ← c_List cl "ips" ipNamespace lbls;
      delete_stale (forgeIPname name <$> eps_addresses eps) l
  end.
End controllers.

(** ** The addresses of an endpoint slice *)

Definition lacks_dash (s : string) : Prop := FirewallSem.lacks "-" s.
Lemma ReplaceAll_inj a b : lacks_dash a → lacks_dash b → ReplaceAll "." "-" a = ReplaceAll "." "-" b → a = b.
Proof.
  revert b. induction a as [|x a IH]; intros [|y b] Ha Hb; [done|done|done|]. apply FirewallSem.lacks_cons in Ha as [Hx Ha], Hb as [Hy Hb].
  cbn [ReplaceAll]. intros [= Hc Hr]. f_equal; [|by apply IH]. repeat case_bool_decide; congruence.
Qed.
Lemma forgeIPname_inj eps a b : lacks_dash a → lacks_dash b → forgeIPname eps a = forgeIPname eps b → a = b.
Proof. intros Ha Hb H. apply string_app_inj, (string_app_inj "-") in H. by apply ReplaceAll_inj. Qed.

Section exact.
Context `{OR : OwnerRefs} `{CU : CreateOrUpdater ipl} {Api : KubeApi ipl} {R : Responsive ipl} {L : Type}.
Context (lists : string → string → labels → server → list (string * Obj ipl)) (order : list string) (kinds : string → option (string * string)) (globalLabels globalAnnotations : labels).
Context (delete_all : string → labels → K (pworld ipl L) ()) (ipNamespace : string).
Hypothesis lists_law : ∀ res ns l s name o, (name, o) ∈ lists res ns l s ↔ content s !! (res, ns, name) = Some o ∧ l ⊆ o_labels o.
Hypothesis kind_known : is_Some (kinds "ips"%string).
Notation W := (pworld ipl L).
Notation "w ⋅ k" := (content (pw_server w) !! k) (at level 20, k at next level).
Notation cl := (plain_client lists).
Notation ensure := (ensure_ips cl order kinds globalLabels globalAnnotations ipNamespace).

Definition all_live (w : W) : Prop := ∀ n o, w ⋅ (ip_key ipNamespace n) = Some o → lives o.
Definition holds_ip (w : W) (name addr : string) : Prop := ∃ o, w ⋅ (ip_key ipNamespace name) = Some o ∧ ip_addr o = addr ∧ ip_masquerade o = Some true.
Lemma ensure_ips_runs eps lbls annots l (w : W) : all_live w → Forall lacks_dash l →
  ∃ w', ensure eps lbls annots l w = Ret (w', Ok ()) ∧ all_live w' ∧ (∀ a, a ∈ l → holds_ip w' (forgeIPname eps a) a) ∧
    ∀ k, (∀ a, a ∈ l → k ≠ ip_key ipNamespace (forgeIPname eps a)) → w' ⋅ k = w ⋅ k.
Proof.
  revert w. induction l as [|a l IH]; intros w Hl Hd; [exists w; split; [done|]; split; [done|]; split; [by intros ? ?%not_elem_of_nil|done]|].
  apply Forall_cons in Hd as [Ha Hd]. cbn [ensure_ips]. set (k := ip_key ipNamespace (forgeIPname eps a)).
  edestruct (plain_cou_stores lists order kinds globalLabels globalAnnotations k (mutate_endpoint a lbls annots) w) as (w1 & o1 & E1 & [_ Ho1] & Hk1 & Hlo & Hsp); [exact kind_known|by apply Hl|reflexivity|reflexivity|reflexivity|].
  assert (Hl1 : all_live w1).
  { intros n o Hn. destruct (decide (ip_key ipNamespace n = k)) as [Hkk|Hne]; [rewrite Hkk, Hk1 in Hn; by injection Hn as <-|]. rewrite (Ho1 _ Hne) in Hn. by eapply Hl. }
  destruct (IH w1 Hl1 Hd) as (w2 & E2 & Hl2 & Hin & Hout). exists w2. split; [unfold ensureIP; by erewrite K_bind_ok by exact E1|]. split; [done|]. split.
  - intros b [->|Hb]%elem_of_cons; [|by apply Hin]. destruct (decide (a ∈ l)) as [Hal|Hal]; [by apply Hin|].
    exists o1. rewrite Hout; [split; [done|]; unfold ip_addr, ip_masquerade; by rewrite Hsp|].
    intros b Hb [= Hkk]. apply Hal. rewrite Forall_forall in Hd. by rewrite (forgeIPname_inj eps a b Ha (Hd b Hb) Hkk).
  - intros k' Hk'. rewrite Hout by (intros b Hb; apply Hk'; by right). apply Ho1. apply Hk'. by left.
Qed.
Lemma quiet_delete_runs k (w : W) : ∃ w', quiet_delete cl k w = Ret (w', Ok ()) ∧ only k w w' ∧ ∀ o, w' ⋅ k = Some o → o_deleting o = true.
Proof.
  unfold quiet_delete. cbn. destruct (Delete k (pw_server w)) as [s' x] eqn:E.
  assert (Hrun : attempt (on_pserver (L := L) (Delete k)) w = Ret (mkPworld s' (pw_log w), Ok x)) by (apply attempt_ok; unfold on_pserver; by rewrite E).
  rewrite (K_bind_ok _ _ _ _ _ Hrun). exists (mkPworld s' (pw_log w)).
  assert (Ho : only k w (mkPworld s' (pw_log w))) by (split; [done|]; intros k' Hk'; cbn; by eapply Delete_frame).
  destruct (content (pw_server w) !! k) as [o|] eqn:Hk.
  - pose proof (Delete_answers k (pw_server w) ltac:(by exists o)) as H. rewrite E in H. destruct x as [[]|]; [|done]. split; [done|]. split; [done|].
    apply Delete_ok in E as (cur & o' & _ & E & _ & _ & _ & Hd). cbn. rewrite E. unfold store_obj. intros o2 Ho2. case_match; [by rewrite lookup_delete_eq in Ho2|].
    rewrite lookup_insert_eq in Ho2. by injection Ho2 as <-.
  - pose proof (Delete_misses k (pw_server w) Hk) as H. rewrite E in H. cbn in H. subst x. split; [done|]. split; [done|].
    apply Delete_gone in E as [Hn Hc]. cbn. intros o2. by rewrite Hc, Hn.
Qed.
Lemma delete_stale_runs expected l (w : W) : ∃ w', delete_stale cl ipNamespace expected l w = Ret (w', Ok ()) ∧
  (∀ k, (∀ n, n ∈ l.*1 → n ∉ expected → k ≠ ip_key ipNamespace n) → w' ⋅ k = w ⋅ k) ∧
  ∀ n o, n ∈ l.*1 → n ∉ expected → w' ⋅ (ip_key ipNamespace n) = Some o → o_deleting o = true.
Proof.
  revert w. induction l as [|[n0 o0] l IH]; intros w; [exists w; split; [done|]; split; [done|]; by intros ? ? ?%not_elem_of_nil|]. cbn [delete_stale].
  case_bool_decide as He.
  - destruct (IH w) as (w' & E & Hout & Hin). exists w'. split; [by erewrite K_bind_ok by reflexivity|]. split.
    + intros k Hk. apply Hout. intros n Hn Hne. apply Hk; [by right|done].
    + intros n o [->|Hn]%elem_of_cons Hne; [contradiction|by apply Hin].
  - destruct (quiet_delete_runs (ip_key ipNamespace n0) w) as (w1 & E1 & [_ Ho1] & Hd1). destruct (IH w1) as (w' & E & Hout & Hin). exists w'. split; [by erewrite K_bind_ok by exact E1|]. split.
    + intros k Hk. rewrite Hout by (intros n Hn Hne; apply Hk; [by right|done]). apply Ho1. apply Hk; [by left|done].
    + intros n o Hn Hne Ho. destruct (decide (n ∈ l.*1)) as [Hin'|Hnin]; [by eapply Hin|]. apply elem_of_cons in Hn as [->|]; [|contradiction].
      apply (Hd1 o). rewrite <- Ho. symmetry. apply Hout. intros n Hn _ [= ->]. contradiction.
Qed.

(** After a run the IPs of an endpoint slice are those of its addresses, and the others
    that carry its labels are being deleted. *)
Theorem endpoint_ips_exact ns name eps w : w ⋅ ("endpointslices", ns, name)%string = Some eps → o_deleting eps = false → all_live w → Forall lacks_dash (eps_addresses eps) →
  ∃ w', EpsIpReconcile cl order kinds globalLabels globalAnnotations delete_all ipNamespace ns name w = Ret (w', Ok ()) ∧
    (∀ a, a ∈ eps_addresses eps → holds_ip w' (forgeIPname name a) a) ∧
    (∀ n o, w' ⋅ (ip_key ipNamespace n) = Some o → ip_labels name eps ⊆ o_labels o → n ∈ forgeIPname name <$> eps_addresses eps ∨ o_deleting o = true) ∧
    ∀ k, k.1 ≠ ("ips"%string, ipNamespace) → w' ⋅ k = w ⋅ k.
Proof.
  intros He Hd Hl Hdash. destruct (ensure_ips_runs name (ip_labels name eps) {[ PreinstalledAnnotKey := "true"%string ]} (eps_addresses eps) w Hl Hdash) as (w1 & E1 & _ & Hin1 & Hout1).
  destruct (delete_stale_runs (forgeIPname name <$> eps_addresses eps) (lists "ips" ipNamespace (ip_labels name eps) (pw_server w1)) w1) as (w2 & E2 & Hout2 & Hin2).
  exists w2. split.
  - assert (Hget : c_Get cl ("endpointslices", ns, name)%string w = Ret (w, Ok eps)) by (cbn; unfold plain_get; by rewrite He).
    unfold EpsIpReconcile. erewrite K_bind_ok by (apply attempt_ok; exact Hget). cbv beta iota zeta. rewrite Hd.
    erewrite K_bind_ok by exact E1. by erewrite K_bind_ok by reflexivity.
  - split; [|split].
    + intros a Ha. destruct (Hin1 a Ha) as (o & Ho & Hrest). exists o. split; [|done]. rewrite <- Ho. apply Hout2. intros n _ Hn [= <-]. apply Hn, list_elem_of_fmap. by exists a.
    + intros n o Ho Hs. destruct (decide (n ∈ forgeIPname name <$> eps_addresses eps)) as [|Hn]; [by left|right].
      destruct (decide (n ∈ (lists "ips" ipNamespace (ip_labels name eps) (pw_server w1)).*1)) as [Hi|Hi]; [by eapply Hin2|].
      exfalso. apply Hi. apply list_elem_of_fmap. exists (n, o). split; [done|]. apply lists_law. split; [|done]. rewrite <- Ho. symmetry. apply Hout2.
      intros n' Hn' _ [= ->]. contradiction.
    + intros k Hk. rewrite Hout2; [apply Hout1|]; [intros a _ ->|intros n _ _ ->]; by apply Hk.
Qed.
End exact.

(** ** Addresses do not change *)

Section immutable.
Context `{OR : OwnerRefs} `{CU : CreateOrUpdater ipl} {Api : KubeApi ipl} {L : Type}.
Context (lists : string → string → labels → server → list (string * Obj ipl)) (order : list string) (kinds : string → option (string * string)) (globalLabels globalAnnotations : labels).
Notation W := (pworld ipl L).
Notation "w ⋅ k" := (content (pw_server w) !! k) (at level 20, k at next level).
Notation cl := (plain_client lists).
Notation cou := (CreateOrUpdate order kinds globalLabels globalAnnotations (validated cl)).
Notation wrap := (wrapped order kinds globalLabels globalAnnotations).

(** A mutation that asks for an address. *)
Definition asks (f : mutate_fn ipl) (a : string) : Prop := ∀ o o1, f o = Ret (Ok o1) → ip_addr o1 = a ∧ o_finalizers o1 = o_finalizers o.
Lemma wrap_asks k f a : asks f a → asks (wrap k f) a.
Proof.
  intros Hf o o1. unfold wrapped. destruct (f o) as [[o2|]| |] eqn:E; [|done..]. cbn. destruct (buildVariablesMap _ _ _); [|done]. intros [= <-]. exact (Hf o o2 E).
Qed.
Lemma validated_cou_other k f a (w w' : W) r o : k.1.1 = "ips"%string → asks f a → w ⋅ k = Some o → ip_addr o ≠ a → cou k f w = Ret (w', r) → w' = w ∧ ∃ e, r = Err e.
Proof.
  intros Hk Hf Hw Hne H. unfold CreateOrUpdate in H. assert (Hget : c_Get (validated cl) k w = Ret (w, Ok o)) by (cbn; unfold plain_get; by rewrite Hw).
  rewrite (cou_found _ _ _ _ _ _ Hget) in H. apply K_bind_inv in H as [(o1 & w1 & [-> H1]%lift_outcome_ret & H)|(e & [-> _]%lift_outcome_ret & ->)]; [|by eauto].
  apply (wrap_asks k f a Hf) in H1 as [Ha _]. destruct (decide (o1 = o)) as [->|_]; [congruence|]. cbn in H.
  erewrite K_bind_ok in H by exact Hget. rewrite Hk, (bool_decide_false (ip_addr o1 = ip_addr o)) in H by congruence. injection H as <- <-. by eauto.
Qed.
Lemma validated_cou_ok k f a (w w' : W) r : k.1.1 = "ips"%string → asks f a → (∀ o, w ⋅ k = Some o → lives o) → cou k f w = Ret (w', Ok r) →
  ∃ o, w' ⋅ k = Some o ∧ ip_addr o = a.
Proof.
  intros Hk Hf Hl H. destruct (w ⋅ k) as [o|] eqn:Hw.
  - destruct (decide (ip_addr o = a)) as [Ha|Hne]; [|by destruct (validated_cou_other k f a w w' (Ok r) o Hk Hf Hw Hne H) as (_ & e & [=])].
    unfold CreateOrUpdate in H. assert (Hget : c_Get (validated cl) k w = Ret (w, Ok o)) by (cbn; unfold plain_get; by rewrite Hw). rewrite (cou_found _ _ _ _ _ _ Hget) in H.
    apply K_bind_inv in H as [(o1 & w1 & [-> H1]%lift_outcome_ret & H)|(e & _ & [=])]. apply (wrap_asks k f a Hf) in H1 as [Ha1 Hfin].
    destruct (decide (o1 = o)) as [->|_]; [injection H as <- _; by exists o|]. cbn in H. erewrite K_bind_ok in H by exact Hget.
    rewrite Hk, (bool_decide_true (ip_addr o1 = ip_addr o)) in H by congruence. cbn in H. apply on_pserver_inv in H as [H _].
    apply Update_ok in H as (cur & Hc & _ & Hst & (_ & _ & Hf') & Hsp & _ & Hd). assert (cur = o) as -> by congruence. exists r. rewrite Hst.
    rewrite store_obj_lives; [|intros Hx; rewrite Hf', Hfin; apply (Hl o eq_refl); congruence]. rewrite lookup_insert_eq. split; [done|]. unfold ip_addr in *. by rewrite Hsp.
  - unfold CreateOrUpdate in H. assert (Hget : c_Get (validated cl) k w = Ret (w, Err NotFound)) by (cbn; unfold plain_get; by rewrite Hw). rewrite (cou_missing _ _ _ _ _ Hget) in H.
    apply K_bind_inv in H as [(o1 & w1 & [-> H1]%lift_outcome_ret & H)|(e & _ & [=])]. apply (wrap_asks k f a Hf) in H1 as [Ha1 _]. cbn in H.
    apply on_pserver_inv in H as [H _]. apply Create_ok in H as (_ & Hst & _ & Hsp & _). exists r. rewrite Hst, lookup_insert_eq. split; [done|]. unfold ip_addr in *. by rewrite Hsp.
Qed.

(** A pod that gets another address keeps the IP of the first one: every run fails and
    changes nothing. *)
Theorem pod_address_stuck ns name pod o (w w' : W) r : w ⋅ ("pods", ns, name)%string = Some pod → (pod_addr pod).2 ≠ ""%string →
  w ⋅ (ip_key ns name) = Some o → ip_addr o ≠ (pod_addr pod).2 →
  PodIpReconcile (validated cl) order kinds globalLabels globalAnnotations ns name w = Ret (w', r) → w' = w ∧ ∃ e, r = Err e.
Proof.
  intros Hp Hne Ho Ha H. unfold PodIpReconcile in H. assert (Hget : c_Get (validated cl) ("pods", ns, name)%string w = Ret (w, Ok pod)) by (cbn; unfold plain_get; by rewrite Hp).
  erewrite K_bind_ok in H by (apply attempt_ok; exact Hget). cbv beta iota in H. rewrite bool_decide_false in H by done.
  assert (Hasks : asks (mutateIP ns name pod) (pod_addr pod).2).
  { intros o0 o1. unfold mutateIP. destruct (SetOwnerReference _ _); [|done]. by intros [= <-]. }
  apply K_bind_inv in H as [(o1 & w1 & H1 & [= <- <-])|(e & H1 & ->)].
  - by destruct (validated_cou_other (ip_key ns name) _ _ w w1 (Ok o1) o eq_refl Hasks Ho Ha H1) as (_ & e & [=]).
  - destruct (validated_cou_other (ip_key ns name) _ _ w w' (Err e) o eq_refl Hasks Ho Ha H1) as (-> & _). by eauto.
Qed.

(** A run for a configuration that succeeds leaves the address that stands for unknown
    sources in the first external network of the remote cluster. *)
Theorem unknown_source_right ns name cfg cidr addr (w w' : W) : w ⋅ ("configurations", ns, name)%string = Some cfg → GetPrimary (cfg_external cfg).2 = Some cidr →
  GetUnknownSourceIP cidr = Ret (Some addr) → (∀ o, w ⋅ (ip_key ns (forgeUnknownSourceIPName name)) = Some o → lives o) →
  CfgIpReconcile (validated cl) order kinds globalLabels globalAnnotations ns name w = Ret (w', Ok ()) →
  ∃ o, w' ⋅ (ip_key ns (forgeUnknownSourceIPName name)) = Some o ∧ ip_addr o = addr.
Proof.
  intros Hc Hp Hu Hl H. unfold CfgIpReconcile in H. assert (Hget : c_Get (validated cl) ("configurations", ns, name)%string w = Ret (w, Ok cfg)) by (cbn; unfold plain_get; by rewrite Hc).
  erewrite K_bind_ok in H by (apply attempt_ok; exact Hget). cbv beta iota in H. rewrite Hp in H.
  apply K_bind_inv in H as [(x & w1 & [-> H1]%lift_outcome_ret & H)|(e & _ & [=])]. rewrite Hu in H1. injection H1 as <-.
  set (k := ip_key ns (forgeUnknownSourceIPName name)) in *.
  assert (Hasks : asks (mutate_unknown (cfg_external cfg).1 name addr) addr).
  { intros o0 o1. unfold mutate_unknown. destruct (SetOwnerReference _ _); [|done]. by intros [= <-]. }
  apply K_bind_inv in H as [([] & w2 & H2 & H)|(e & _ & [=])]. unfold createOrUpdateUnknownSourceIPResource in H.
  apply K_bind_inv in H as [(o3 & w3 & H3 & [= <-])|(e & _ & [=])]. eapply (validated_cou_ok k _ addr w2 w3 o3 eq_refl Hasks); [|exact H3].
  intros o Ho. unfold deletePreviousUnknownSourceIPs in H2.
  apply K_bind_inv in H2 as [(x & w4 & (y & Hy & [= ->])%attempt_inv & H2)|(e & (y & _ & [=])%attempt_inv & _)].
  change (c_Get (validated cl) _ w) with (plain_get (L := L) k w) in Hy. unfold plain_get in Hy. destruct (w ⋅ k) as [o0|] eqn:Hk; injection Hy as <- <-; [|injection H2 as <-; by rewrite Hk in Ho].
  case_bool_decide; [injection H2 as <-; rewrite Hk in Ho; injection Ho as <-; by apply Hl|].
  apply K_bind_inv in H2 as [(x & w5 & (y & [Hy _]%on_pserver_inv & [= ->])%attempt_inv & H2)|(e & (y & _ & [=])%attempt_inv & _)].
  destruct y as [[]|[]]; try discriminate H2; injection H2 as <-.
  - apply Delete_ok in Hy as (cur & o' & Hcur & Hst & (_ & _ & Hf) & _ & _ & Hd). rewrite Hst in Ho. unfold store_obj in Ho.
    destruct (o_deleting o' && _) eqn:Eb; [by rewrite lookup_delete_eq in Ho|]. rewrite lookup_insert_eq in Ho. injection Ho as <-. intros _ Hnil.
    rewrite Hd, Hnil in Eb. cbn in Eb. discriminate Eb.
  - apply Delete_gone in Hy as [Hn Hc2]. rewrite Hc2 in Ho. fold k in Hn. congruence.
Qed.
End immutable.

(** ** The addresses of an API server *)

#[local] Instance ex_documented : CreateOrUpdater ipl := documented ipl.
Definition ex_eps : Obj ipl := mkObj {[ LabelServiceName := kubernetesServiceName ]} ∅ [] false 1 (AMap (PEps [["10.0.0.1"; "10.0.0.2"]; ["10.0.0.1"]]%string)) Absent.
Definition ex_ips : gmap okey (Obj ipl) := {[
  ("endpointslices", "default", "kubernetes")%string := ex_eps;
  ip_key "liqo" "kubernetes-10-0-0-9" := mkObj (ip_labels "kubernetes" ex_eps) ∅ [] false 1 (AMap (PIp [] "10.0.0.9" (Some true) "")) Absent
]}.
Definition ex_kinds (r : string) : option (string * string) := Some (r, ""%string).
Lemma endpoint_ips_exact_witness : ∃ w', EpsIpReconcile (W := pworld ipl ()) (plain_client mem_lists) knownVariables ex_kinds ∅ ∅ (fun _ _ => mret ()) "liqo" "default" "kubernetes"
    (mkPworld (ex_ips : server (KubeApi := memory)) []) = Ret (w', Ok ()) ∧
  (∀ a, a ∈ eps_addresses ex_eps → holds_ip "liqo" w' (forgeIPname "kubernetes" a) a) ∧
  ∀ n o, content (pw_server w') !! ip_key "liqo" n = Some o → ip_labels "kubernetes" ex_eps ⊆ o_labels o → n ∈ forgeIPname "kubernetes" <$> eps_addresses ex_eps ∨ o_deleting o = true.
Proof.
  destruct (endpoint_ips_exact (L := ()) mem_lists knownVariables ex_kinds ∅ ∅ (fun _ _ => mret ()) "liqo" mem_lists_law ltac:(by eexists) "default" "kubernetes" ex_eps
    (mkPworld (ex_ips : server (KubeApi := memory)) [])) as (w' & H1 & H2 & H3 & _).
  - reflexivity.
  - reflexivity.
  - intros n o Ho. cbn in Ho. unfold ex_ips in Ho. apply lookup_insert_Some in Ho as [[Hk _]|[_ Ho]]; [discriminate Hk|].
    apply lookup_singleton_Some in Ho as [_ <-]. intros Hd. discriminate Hd.
  - repeat constructor; unfold lacks_dash, FirewallSem.lacks; vm_compute; set_solver.
  - exists w'. split; [exact H1|]. split; [exact H2|exact H3].
Defined.
