(* ===== verification/VkReflect.v ===== *)
(** * VkReflect: reflection of configurations and exposition
      (src/pkg/virtualKubelet/reflection/{configuration/{configmap,secret},exposition/{service,ingress},
       generic/namespaced}.go, src/pkg/virtualKubelet/forge/{configmaps,secrets,services,ingresses,meta}.go)

    Config maps, secrets, services and ingresses of an offloaded namespace are kept in
    the remote cluster: what the handler finds in the caches of both clusters decides
    whether the remote object is applied, deleted or left alone. *)

From S2P Require Export EndpointSlice.
Local Open Scope Z_scope.

(** ** Objects

    Parts that are only copied are given by their text. *)

Record ConfigMap := mkConfigMap {
  cm_Name : string; cm_Labels : labels; cm_Annotations : labels; cm_Data : labels; cm_BinaryData : labels; cm_Immutable : option bool
}.
Record Secret := mkSecret {
  sc_Name : string; sc_Labels : labels; sc_Annotations : labels; sc_Data : labels; sc_Type : string; sc_Immutable : option bool
}.
Record ServicePort := mkServicePort {
  svp_Name : string; svp_Port : Z; svp_TargetPort : string; svp_Protocol : string; svp_NodePort : Z; svp_AppProtocol : option string
}.
(** [ss_copied]: traffic, family and load-balancing policies, source ranges and affinity. *)
Record ServiceSpec := mkServiceSpec {
  ss_Type : string; ss_Selector : labels; ss_Ports : list ServicePort; ss_ExternalName : string; ss_ClusterIP : string; ss_copied : string
}.
Record Service := mkService { sv_Name : string; sv_Labels : labels; sv_Annotations : labels; sv_Spec : ServiceSpec }.
Record IngressServiceBackend := mkIngressService { ib_Name : string; ib_PortName : string; ib_PortNumber : Z }.
Record TypedReference := mkTypedReference { tr_APIGroup : option string; tr_Kind : string; tr_Name : string }.
Record IngressBackend := mkIngressBackend { be_Resource : option TypedReference; be_Service : option IngressServiceBackend }.
Record IngressPath := mkIngressPath { ipa_Path : string; ipa_Type : option string; ipa_Backend : IngressBackend }.
Record IngressRule := mkIngressRule { ir_Host : string; ir_HTTP : option (list IngressPath) }.
Record IngressTLS := mkIngressTLS { it_Hosts : list string; it_SecretName : string }.
Record IngressSpec := mkIngressSpec { is_Class : option string; is_DefaultBackend : option IngressBackend; is_Rules : list IngressRule; is_TLS : list IngressTLS }.
Record Ingress := mkIngress { ing_Name : string; ing_Labels : labels; ing_Annotations : labels; ing_Spec : IngressSpec }.

(** A remote object in the cache, and what is applied to one. *)
Record RemoteMeta := mkRemoteMeta { rm_UID : string; rm_Labels : labels; rm_Annotations : labels }.
Record ApplyConf (D : Type) := mkApply { ap_Name : string; ap_Labels : labels; ap_Annotations : labels; ap_Body : D }.
Arguments mkApply {D}.
Arguments ap_Name {D}.
Arguments ap_Labels {D}.
Arguments ap_Annotations {D}.
Arguments ap_Body {D}.

(** What is applied: fields that are [None] are left to others. *)
Record ConfigMapBody := mkCmBody { cb_Data : labels; cb_BinaryData : labels; cb_Immutable : option bool }.
Record SecretBody := mkScBody { sb_Data : labels; sb_Type : string; sb_Immutable : option bool }.
Record PortApply := mkPortApply {
  pa_Name : string; pa_Port : Z; pa_TargetPort : string; pa_Protocol : string; pa_NodePort : option Z; pa_AppProtocol : option string
}.
Record ServiceBody := mkSvBody {
  vb_Type : string; vb_Selector : labels; vb_Ports : list PortApply; vb_ExternalName : string; vb_ClusterIP : option string;
  vb_LoadBalancerClass : option string; vb_copied : string
}.

Definition ForceRemoteNodePortAnnotationKey : string := "liqo.io/force-remote-node-port".
Definition LiqoSASecretForPodNameKey : string := "offloading.liqo.io/service-account-for-pod-name".
Definition LiqoSASecretForServiceAccountKey : string := "offloading.liqo.io/service-account-name".
Definition SecretTypeServiceAccountToken : string := "kubernetes.io/service-account-token".
Definition SecretTypeOpaque : string := "Opaque".
Definition ServiceAccountNameKey : string := "kubernetes.io/service-account.name".
Definition ClusterIPNone : string := "None".
Definition ServiceTypeLoadBalancer : string := "LoadBalancer".

Section forging.
Context (LocalCluster RemoteCluster : string) (opts : ForgingOpts).

(** The labels and annotations of all of them. *)
Definition remote_labels (l : labels) : labels := ReflectionLabels LocalCluster RemoteCluster ∪ FilterNotReflected l (LabelsNotReflected opts).
Definition remote_annotations (a : labels) : labels := FilterNotReflected a (AnnotationsNotReflected opts).

(** ** configmaps.go, secrets.go *)

Definition RemoteConfigMap (c : ConfigMap) : ApplyConf ConfigMapBody :=
  mkApply (RemoteConfigMapName LocalCluster (cm_Name c)) (remote_labels (cm_Labels c)) (remote_annotations (cm_Annotations c))
    (mkCmBody (cm_Data c) (cm_BinaryData c) (cm_Immutable c)).
Definition IsServiceAccountSecret (r : RemoteMeta) : bool :=
  let m := rm_Annotations r ∪ rm_Labels r in
  bool_decide (is_Some (m !! LiqoSASecretForPodNameKey)) && bool_decide (is_Some (m !! LiqoSASecretForServiceAccountKey)).
Definition RemoteSecret (s : Secret) : ApplyConf SecretBody :=
  let l := remote_labels (sc_Labels s) in
  if bool_decide (sc_Type s = SecretTypeServiceAccountToken) then
    mkApply (sc_Name s) (<[ServiceAccountNameKey := default ""%string (sc_Annotations s !! ServiceAccountNameKey)]> l) (remote_annotations (sc_Annotations s))
      (mkScBody (sc_Data s) SecretTypeOpaque (sc_Immutable s))
  else mkApply (sc_Name s) l (remote_annotations (sc_Annotations s)) (mkScBody (sc_Data s) (sc_Type s) (sc_Immutable s)).

(** ** services.go *)

Definition RemoteServicePort (force : bool) (p : ServicePort) : PortApply :=
  mkPortApply (svp_Name p) (svp_Port p) (svp_TargetPort p) (svp_Protocol p)
    (if force then Some (svp_NodePort p) else if svp_NodePort p =? 0 then Some 0 else None) (svp_AppProtocol p).
Definition RemoteServicePorts (l : list ServicePort) (force : bool) : list PortApply := RemoteServicePort force <$> l.
Definition getForceRemoteNodePort (annotations : labels) : bool := bool_decide (annotations !! ForceRemoteNodePortAnnotationKey = Some "true"%string).
Definition RemoteServiceSpec (s : ServiceSpec) (force enableLoadBalancer : bool) (class : string) : ServiceBody :=
  mkSvBody (ss_Type s) (ss_Selector s) (RemoteServicePorts (ss_Ports s) force) (ss_ExternalName s)
    (if bool_decide (ss_ClusterIP s = ClusterIPNone) then Some ClusterIPNone else None)
    (if bool_decide (ss_Type s = ServiceTypeLoadBalancer) && enableLoadBalancer then Some class else None) (ss_copied s).
Definition RemoteService (enableLoadBalancer : bool) (class : string) (s : Service) : ApplyConf ServiceBody :=
  mkApply (sv_Name s) (remote_labels (sv_Labels s)) (remote_annotations (sv_Annotations s))
    (RemoteServiceSpec (sv_Spec s) (getForceRemoteNodePort (sv_Annotations s)) enableLoadBalancer class).

(** ** ingresses.go *)

Definition FilterIngressAnnotations (a : labels) : labels := FilterNotReflected a ["kubernetes.io/ingress.class"%string].
(** References, backends, rules and certificates are copied field by field. *)
Definition RemoteTypedLocalObjectReference (r : option TypedReference) : option TypedReference := (fun r => mkTypedReference (tr_APIGroup r) (tr_Kind r) (tr_Name r)) <$> r.
Definition RemoteIngressService (s : option IngressServiceBackend) : option IngressServiceBackend := (fun s => mkIngressService (ib_Name s) (ib_PortName s) (ib_PortNumber s)) <$> s.
Definition RemoteIngressBackend (b : IngressBackend) : IngressBackend := mkIngressBackend (RemoteTypedLocalObjectReference (be_Resource b)) (RemoteIngressService (be_Service b)).
Definition RemoteIngressPaths (l : list IngressPath) : list IngressPath := (fun p => mkIngressPath (ipa_Path p) (ipa_Type p) (RemoteIngressBackend (ipa_Backend p))) <$> l.
Definition RemoteIngressRules (l : list IngressRule) : list IngressRule := (fun r => mkIngressRule (ir_Host r) (RemoteIngressPaths <$> ir_HTTP r)) <$> l.
Definition RemoteIngressTLS (l : list IngressTLS) : list IngressTLS := (fun t => mkIngressTLS (it_Hosts t) (it_SecretName t)) <$> l.
Definition RemoteIngressSpec (s : IngressSpec) (enableIngress : bool) (class : string) : IngressSpec :=
  mkIngressSpec (if enableIngress then Some class else None) (RemoteIngressBackend <$> is_DefaultBackend s) (RemoteIngressRules (is_Rules s)) (RemoteIngressTLS (is_TLS s)).
Definition RemoteIngress (enableIngress : bool) (class : string) (i : Ingress) : ApplyConf IngressSpec :=
  mkApply (ing_Name i) (remote_labels (ing_Labels i)) (remote_annotations (FilterIngressAnnotations (ing_Annotations i))) (RemoteIngressSpec (ing_Spec i) enableIngress class).

(** ** Handlers

    What the four have in common.  A local object that is to be skipped counts as
    missing. *)

Section handlers.
Context {W : Type} (rtype : ReflectionType) (localNamespace : string).
Section reflect.
Context {L D : Type} (apply : ApplyConf D → K W ()) (delete : string → string → K W ()).
(** [DeleteRemote], with the identifier as a precondition. *)
Definition delete_remote (name uid : string) : K W () := r ← attempt (delete name uid); match r with Ok _ | Err NotFound => mret () | Err e => fail e end.
Definition reflect (skip : L → result kerr bool) (forge : L → ApplyConf D) (remoteName : string) (local : option L) (remote : option RemoteMeta) : K W () :=
  if match remote with Some r => negb (IsReflected LocalCluster RemoteCluster (rm_Labels r)) | None => false end then mret ()
  else
    skipped ← match local with Some l => match skip l with Ok b => mret b | Err e => fail e end | None => mret false end;
    match (if (skipped : bool) then None else local), remote with
    | None, Some r => delete_remote remoteName (rm_UID r)
    | None, None => mret ()
    | Some l, _ => apply (forge l)
    end.
End reflect.

(** The root certificates are reflected whatever the policy. *)
Definition ConfigMapShouldSkip (c : ConfigMap) : result kerr bool :=
  if bool_decide (cm_Name c = RootCAConfigMapName) then
    match ForcedAllowOrSkip (cm_Annotations c) with Err e => Err e | Ok (Some b) => Ok b | Ok None => Ok false end
  else ShouldSkipReflection rtype (cm_Annotations c).
Definition ConfigMapHandle (apply : ApplyConf ConfigMapBody → K W ()) (delete : string → string → K W ()) (name : string)
    (local : option ConfigMap) (remote : option RemoteMeta) : K W () :=
  reflect apply delete ConfigMapShouldSkip RemoteConfigMap (RemoteConfigMapName LocalCluster name) local remote.
Definition SecretHandle (enableSAReflection : bool) (apply : ApplyConf SecretBody → K W ()) (delete : string → string → K W ()) (name : string)
    (local : option Secret) (remote : option RemoteMeta) : K W () :=
  if negb enableSAReflection && match local with Some l => bool_decide (sc_Type l = SecretTypeServiceAccountToken) | None => false end then mret ()
  else if match remote with Some r => IsServiceAccountSecret r | None => false end then mret ()
  else reflect apply delete (fun s => ShouldSkipReflection rtype (sc_Annotations s)) RemoteSecret name local remote.
Definition ServiceHandle (enableLoadBalancer : bool) (class : string) (apply : ApplyConf ServiceBody → K W ()) (delete : string → string → K W ()) (name : string)
    (local : option Service) (remote : option RemoteMeta) : K W () :=
  if bool_decide (localNamespace = "default"%string) && bool_decide (name = "kubernetes"%string) then mret ()
  else reflect apply delete (fun s => ShouldSkipReflection rtype (sv_Annotations s)) (RemoteService enableLoadBalancer class) name local remote.
Definition IngressHandle (enableIngress : bool) (class : string) (apply : ApplyConf IngressSpec → K W ()) (delete : string → string → K W ()) (name : string)
    (local : option Ingress) (remote : option RemoteMeta) : K W () :=
  reflect apply delete (fun i => ShouldSkipReflection rtype (ing_Annotations i)) (RemoteIngress enableIngress class) name local remote.
End handlers.
End forging.

(** ** The remote cluster

    Objects of one kind.  A call may be refused; an application is merged with what is
    there, as the server says, and shows what was applied. *)

Section remote.
Context (LocalCluster RemoteCluster : string).
Context {D B : Type} (merge : option (RemoteMeta * B) → ApplyConf D → RemoteMeta * B) (shows : B → D → Prop).
Notation store := (gmap string (RemoteMeta * B)).
Context (refused : store → string → option kerr).
Record serves : Prop := {
  sr_labels o a : ap_Labels a ⊆ rm_Labels (merge o a).1;
  sr_annotations o a : ap_Annotations a ⊆ rm_Annotations (merge o a).1;
  sr_body o a : shows (merge o a).2 (ap_Body a);
  sr_uid m b a : rm_UID (merge (Some (m, b)) a).1 = rm_UID m
}.
Definition remote_apply (a : ApplyConf D) : K store () := fun w =>
  match refused w (ap_Name a) with Some e => Ret (w, Err e) | None => Ret (<[ap_Name a := merge (w !! ap_Name a) a]> w, Ok ()) end.
(** The identifier is a precondition. *)
Definition remote_delete (name uid : string) : K store () := fun w =>
  match refused w name with
  | Some e => Ret (w, Err e)
  | None =>
    match w !! name with
    | None => Ret (w, Err NotFound)
    | Some (m, _) => if bool_decide (rm_UID m = uid) then Ret (delete name w, Ok ()) else Ret (w, Err Conflict)
    end
  end.
Notation run := (reflect LocalCluster RemoteCluster remote_apply remote_delete).
Notation ours := (fun m => IsReflected LocalCluster RemoteCluster (rm_Labels m)).

Section kind.
Context {L : Type} (skip : L → result kerr bool) (forge : L → ApplyConf D) (name : string).
Definition wanted (local : option L) : option L := l ← local; match skip l with Ok false => Some l | _ => None end.
Lemma delete_remote_inv uid w w' r : delete_remote remote_delete name uid w = Ret (w', r) →
  w' = w ∨ ∃ m b, w !! name = Some (m, b) ∧ rm_UID m = uid ∧ w' = delete name w.
Proof.
  intros [(x & w1 & (y & Hy & [= ->])%attempt_inv & H)|(e & (y & _ & [=])%attempt_inv & _)]%K_bind_inv.
  assert (w1 = w') as -> by (destruct y as [|[]]; by injection H). unfold remote_delete in Hy.
  destruct (refused w name); [injection Hy as <- _; by left|]. destruct (w !! name) as [[m b]|]; [|injection Hy as <- _; by left].
  case_bool_decide; injection Hy as <- _; [right; by exists m, b|by left].
Qed.
(** Whatever is in the caches and whatever fails, an object is deleted only if the cache
    shows it, with its identifier, as reflected and the local object is gone or to be
    skipped; it is changed only to apply a local object that is wanted, and when the
    cache shows no foreign object. *)
Theorem reflect_justified local cached w w' r : run skip forge name local cached w = Ret (w', r) → w' = w ∨
  (∃ m0 m b, cached = Some m0 ∧ ours m0 = true ∧ wanted local = None ∧ w !! name = Some (m, b) ∧ rm_UID m = rm_UID m0 ∧ w' = delete name w) ∨
  (∃ l, wanted local = Some l ∧ (∀ m0, cached = Some m0 → ours m0 = true) ∧ w' = <[ap_Name (forge l) := merge (w !! ap_Name (forge l)) (forge l)]> w).
Proof.
  unfold reflect. destruct (match cached with Some r => negb (ours r) | None => false end) eqn:Ef; [intros [= <- _]; by left|].
  assert (Hours : ∀ m0, cached = Some m0 → ours m0 = true) by (intros m0 ->; by apply negb_false_iff).
  intros [(skipped & w1 & H1 & H)|(e & H1 & _)]%K_bind_inv.
  - assert (w1 = w ∧ (if (skipped : bool) then None else local) = wanted local) as [-> Hw].
    { unfold wanted. destruct local as [l|]; cbn; [|injection H1 as <- <-; done]. destruct (skip l) as [b|]; [|done]. injection H1 as <- <-. by destruct b. }
    cbn beta in H. rewrite Hw in H. destruct (wanted local) as [l|] eqn:Ew.
    + unfold remote_apply in H. destruct (refused w (ap_Name (forge l))); injection H as <- _; [by left|]. right. right. by exists l.
    + destruct cached as [m0|]; [|injection H as <- _; by left]. apply delete_remote_inv in H as [->|(m & b & Hm & Hu & ->)]; [by left|].
      right. left. exists m0, m, b. by rewrite (Hours m0 eq_refl).
  - assert (w' = w) as -> by (destruct local as [l|]; [destruct (skip l)|]; by injection H1). by left.
Qed.

Lemma ours_of_labels l : ReflectionLabels LocalCluster RemoteCluster ⊆ l → IsReflected LocalCluster RemoteCluster l = true.
Proof.
  intros H. unfold IsReflected. rewrite (lookup_weaken _ _ _ LocalCluster (eq_refl : ReflectionLabels LocalCluster RemoteCluster !! LiqoOriginClusterIDKey = _) H).
  rewrite (lookup_weaken _ _ _ RemoteCluster (eq_refl : ReflectionLabels LocalCluster RemoteCluster !! LiqoDestinationClusterIDKey = _) H). by rewrite !bool_decide_true.
Qed.
Definition foreign (o : option (RemoteMeta * B)) : bool := match o with Some (m, _) => negb (ours m) | None => false end.
(** What the remote cluster has under the name afterwards. *)
Definition settled (local : option L) (before after : option (RemoteMeta * B)) : Prop :=
  if foreign before then after = before
  else match wanted local with
       | None => after = None
       | Some l => ∃ m b, after = Some (m, b) ∧ ours m = true ∧ ap_Labels (forge l) ⊆ rm_Labels m ∧ ap_Annotations (forge l) ⊆ rm_Annotations m ∧ shows b (ap_Body (forge l))
       end.
Section settles.
Context (local : option L) (w : store).
(** The cluster answers, the local object is the one of the name, is forged with the
    marks and has readable annotations. *)
Hypothesis Hserves : serves.
Hypothesis answers : ∀ w n, refused w n = None.
Hypothesis named : ∀ l, local = Some l → ap_Name (forge l) = name.
Hypothesis marked_ours : ∀ l, ReflectionLabels LocalCluster RemoteCluster ⊆ ap_Labels (forge l).
Hypothesis readable : ∀ l e, local = Some l → skip l ≠ Err e.
Lemma wanted_local l : wanted local = Some l → local = Some l.
Proof. unfold wanted. destruct local as [l'|]; [|done]. cbn. destruct (skip l') as [[]|]; congruence. Qed.
Lemma applied_settles l : wanted local = Some l → foreign (w !! name) = false → settled local (w !! name) (Some (merge (w !! name) (forge l))).
Proof.
  intros El Ef. unfold settled. rewrite Ef, El. pose proof (sr_labels Hserves (w !! name) (forge l)) as H1. pose proof (sr_annotations Hserves (w !! name) (forge l)) as H2.
  pose proof (sr_body Hserves (w !! name) (forge l)) as H3. destruct (merge (w !! name) (forge l)) as [m b]. exists m, b. split; [done|]. split; [|done].
  apply ours_of_labels. etrans; [apply marked_ours|done].
Qed.
Lemma delete_remote_ok m b : w !! name = Some (m, b) → delete_remote remote_delete name (rm_UID m) w = Ret (delete name w, Ok ()).
Proof.
  intros Hm. unfold delete_remote. assert (Ed : remote_delete name (rm_UID m) w = Ret (delete name w, Ok ())) by (unfold remote_delete; by rewrite answers, Hm, bool_decide_true).
  by erewrite K_bind_ok by (apply attempt_ok; exact Ed).
Qed.
(** With both caches up to date, one run brings the remote object to what the local one
    asks for and touches no other; an object of others stays as it is. *)
Theorem reflect_settles :
  ∃ w', run skip forge name local (fst <$> w !! name) w = Ret (w', Ok ()) ∧ settled local (w !! name) (w' !! name) ∧ ∀ n, n ≠ name → w' !! n = w !! n.
Proof.
  unfold reflect. destruct (match fst <$> w !! name with Some r => negb (ours r) | None => false end) eqn:Ef.
  { exists w. split; [done|]. split; [|done]. unfold settled. destruct (w !! name) as [[m b]|]; [|done]. cbn in *. by rewrite Ef. }
  assert (Hf : foreign (w !! name) = false) by (by destruct (w !! name) as [[m b]|]).
  assert (∃ sk, (match local with Some l => match skip l with Ok b => mret b | Err e => fail e end | None => mret false end : K store bool) w = Ret (w, Ok sk) ∧ (if (sk : bool) then None else local) = wanted local) as (sk & E1 & Ew).
  { unfold wanted. destruct local as [l|]; cbn; [|by exists false]. destruct (skip l) as [b|e] eqn:El; [exists b; by destruct b|]. by destruct (readable l e eq_refl). }
  erewrite K_bind_ok by exact E1. cbv beta. rewrite Ew. destruct (wanted local) as [l|] eqn:El.
  - exists (<[name := merge (w !! name) (forge l)]> w). split; [unfold remote_apply; by rewrite answers, (named l (wanted_local l El))|].
    split; [|intros n Hn; by rewrite lookup_insert_ne]. rewrite lookup_insert_eq. by apply applied_settles.
  - destruct (w !! name) as [[m b]|] eqn:Hm; cbn [fmap option_fmap option_map fst].
    + exists (delete name w). split; [by apply (delete_remote_ok m b)|]. split; [|intros n Hn; by rewrite lookup_delete_ne].
      unfold settled. by rewrite Hf, El, lookup_delete_eq.
    + exists w. split; [done|]. split; [|done]. unfold settled. by rewrite El, Hm.
Qed.
End settles.
End kind.
End remote.

(** ** The four kinds *)

Section kinds.
Context (LocalCluster RemoteCluster : string) (opts : ForgingOpts) (rtype : ReflectionType) (localNamespace : string).
Lemma remote_labels_marked l : ReflectionLabels LocalCluster RemoteCluster ⊆ remote_labels LocalCluster RemoteCluster opts l.
Proof. apply map_union_subseteq_l. Qed.
(** A policy of one of the two kinds can always be applied. *)
Lemma policy_readable a e : (∀ s, rtype ≠ OtherReflection s) → ShouldSkipReflection rtype a ≠ Err e.
Proof. intros Hr. destruct rtype as [| |s]; cbn; [by destruct (a !! _)|by destruct (a !! _)|by destruct (Hr s)]. Qed.

Definition never_refuses {B} (refused : gmap string (RemoteMeta * B) → string → option kerr) : Prop := ∀ w n, refused w n = None.

(** Secrets of service accounts are left alone on both sides; any other one settles. *)
Theorem secret_settles {B} merge (shows : B → SecretBody → Prop) refused enableSA name (local : option Secret) w :
  serves merge shows → never_refuses refused → (∀ s, rtype ≠ OtherReflection s) → (∀ l, local = Some l → sc_Name l = name) →
  ∃ w', SecretHandle LocalCluster RemoteCluster opts rtype enableSA (remote_apply merge refused) (remote_delete refused) name local (fst <$> w !! name) w = Ret (w', Ok ()) ∧
    (∀ n, n ≠ name → w' !! n = w !! n) ∧
    (if (negb enableSA && match local with Some l => bool_decide (sc_Type l = SecretTypeServiceAccountToken) | None => false end) || match w !! name with Some (m, _) => IsServiceAccountSecret m | None => false end
     then w' = w
     else settled LocalCluster RemoteCluster shows (fun s => ShouldSkipReflection rtype (sc_Annotations s)) (RemoteSecret LocalCluster RemoteCluster opts) local (w !! name) (w' !! name)).
Proof.
  intros Hs Ha Hr Hn. unfold SecretHandle. destruct (negb enableSA && _) eqn:E1; [by exists w|]. cbn [orb].
  destruct (match fst <$> w !! name with Some r => IsServiceAccountSecret r | None => false end) eqn:E2.
  { exists w. split; [done|]. split; [done|]. destruct (w !! name) as [[m b]|]; [|done]. cbn in E2. by rewrite E2. }
  assert (match w !! name with Some (m, _) => IsServiceAccountSecret m | None => false end = false) as -> by (by destruct (w !! name) as [[m b]|]).
  destruct (reflect_settles LocalCluster RemoteCluster merge shows refused (fun s => ShouldSkipReflection rtype (sc_Annotations s)) (RemoteSecret LocalCluster RemoteCluster opts) name local w)
    as (w' & H1 & H2 & H3); [done|done| | | |by exists w'].
  - intros l Hl. unfold RemoteSecret. case_bool_decide; by apply Hn.
  - intros l. unfold RemoteSecret. case_bool_decide; [|apply remote_labels_marked]. apply insert_subseteq_r; [done|apply remote_labels_marked].
  - intros l e _. by apply policy_readable.
Qed.
Theorem service_settles {B} merge (shows : B → ServiceBody → Prop) refused enableLB class name (local : option Service) w :
  serves merge shows → never_refuses refused → (∀ s, rtype ≠ OtherReflection s) → (∀ l, local = Some l → sv_Name l = name) →
  ∃ w', ServiceHandle LocalCluster RemoteCluster opts rtype localNamespace enableLB class (remote_apply merge refused) (remote_delete refused) name local (fst <$> w !! name) w = Ret (w', Ok ()) ∧
    (∀ n, n ≠ name → w' !! n = w !! n) ∧
    (if bool_decide (localNamespace = "default"%string) && bool_decide (name = "kubernetes"%string) then w' = w
     else settled LocalCluster RemoteCluster shows (fun s => ShouldSkipReflection rtype (sv_Annotations s)) (RemoteService LocalCluster RemoteCluster opts enableLB class) local (w !! name) (w' !! name)).
Proof.
  intros Hs Ha Hr Hn. unfold ServiceHandle. destruct (bool_decide _ && _); [by exists w|].
  destruct (reflect_settles LocalCluster RemoteCluster merge shows refused (fun s => ShouldSkipReflection rtype (sv_Annotations s)) (RemoteService LocalCluster RemoteCluster opts enableLB class) name local w)
    as (w' & H1 & H2 & H3); [done|done|done|intros; apply remote_labels_marked|intros; by apply policy_readable|by exists w'].
Qed.
Theorem ingress_settles {B} merge (shows : B → IngressSpec → Prop) refused enableIngress class name (local : option Ingress) w :
  serves merge shows → never_refuses refused → (∀ s, rtype ≠ OtherReflection s) → (∀ l, local = Some l → ing_Name l = name) →
  ∃ w', IngressHandle LocalCluster RemoteCluster opts rtype enableIngress class (remote_apply merge refused) (remote_delete refused) name local (fst <$> w !! name) w = Ret (w', Ok ()) ∧
    (∀ n, n ≠ name → w' !! n = w !! n) ∧
    settled LocalCluster RemoteCluster shows (fun i => ShouldSkipReflection rtype (ing_Annotations i)) (RemoteIngress LocalCluster RemoteCluster opts enableIngress class) local (w !! name) (w' !! name).
Proof.
  intros Hs Ha Hr Hn. unfold IngressHandle.
  destruct (reflect_settles LocalCluster RemoteCluster merge shows refused (fun i => ShouldSkipReflection rtype (ing_Annotations i)) (RemoteIngress LocalCluster RemoteCluster opts enableIngress class) name local w)
    as (w' & H1 & H2 & H3); [done|done|done|intros; apply remote_labels_marked|intros; by apply policy_readable|by exists w'].
Qed.

Lemma config_map_wanted c : ConfigMapShouldSkip rtype c = Ok false → wanted (ConfigMapShouldSkip rtype) (Some c) = Some c.
Proof. intros H. unfold wanted. cbn. by rewrite H. Qed.
(** The certificates of the cluster are wanted under every policy, unless marked. *)
Lemma root_ca_wanted c : cm_Name c = RootCAConfigMapName → marked (cm_Annotations c) SkipReflectionAnnotationKey = false → ConfigMapShouldSkip rtype c = Ok false.
Proof.
  intros Hn Hm. unfold ConfigMapShouldSkip, ForcedAllowOrSkip. rewrite bool_decide_true by done. cbv zeta. rewrite Hm, andb_false_r. by destruct (marked (cm_Annotations c) AllowReflectionAnnotationKey).
Qed.
(** C39: A projected volume of an offloaded pod names a config map of the local namespace.
    Whatever else is in it, the source of the remote pod names one that, once the
    config map has been handled, carries our marks and its data, unless the remote
    cluster has one of its own under that name, which stays as it is; other config maps
    stay as well. *)
Theorem mounted_config_map_arrives {S B} Sum256 support (retriever : option (S → S * string)) volume source cm s merge (shows : B → ConfigMapBody → Prop) refused c w :
  serves merge shows → never_refuses refused → vp_ConfigMap source = Some cm → cm_Name c = cp_Name cm → ConfigMapShouldSkip rtype c = Ok false →
  ∃ source' cm' w', convert_source LocalCluster Sum256 support retriever volume source s = Ret (Some source', s) ∧ vp_ConfigMap source' = Some cm' ∧
    cp_Items cm' = cp_Items cm ∧
    ConfigMapHandle LocalCluster RemoteCluster opts rtype (remote_apply merge refused) (remote_delete refused) (cp_Name cm) (Some c)
      (fst <$> w !! cp_Name cm') w = Ret (w', Ok ()) ∧
    (∀ n, n ≠ cp_Name cm' → w' !! n = w !! n) ∧
    (if foreign LocalCluster RemoteCluster (w !! cp_Name cm') then w' !! cp_Name cm' = w !! cp_Name cm'
     else ∃ m b, w' !! cp_Name cm' = Some (m, b) ∧ IsReflected LocalCluster RemoteCluster (rm_Labels m) = true ∧
       shows b (mkCmBody (cm_Data c) (cm_BinaryData c) (cm_Immutable c))).
Proof.
  intros Hs Ha Hsrc Hn Hskip. unfold convert_source. rewrite Hsrc. set (n' := RemoteConfigMapName LocalCluster (cp_Name cm)).
  destruct (reflect_settles LocalCluster RemoteCluster merge shows refused (ConfigMapShouldSkip rtype) (RemoteConfigMap LocalCluster RemoteCluster opts) n' (Some c) w)
    as (w' & H1 & H2 & H3).
  - done.
  - done.
  - intros l [= <-]. cbn. by rewrite Hn.
  - intros l. apply remote_labels_marked.
  - intros l e [= <-]. by rewrite Hskip.
  - do 2 eexists. exists w'. split; [done|]. split; [done|]. split; [done|]. split; [exact H1|]. split; [done|].
    unfold settled in H2. cbn [cp_Name]. fold n'. destruct (foreign _ _ _); [done|]. rewrite (config_map_wanted c Hskip) in H2. destruct H2 as (m & b & Hw & Ho & _ & _ & Hb). by exists m, b.
Qed.
End kinds.

(** A config map of the namespace that has the name the certificates are given in the
    remote cluster is applied to the same remote config map. *)
Theorem root_ca_name_shared LocalCluster RemoteCluster opts c root : cm_Name root = RootCAConfigMapName →
  cm_Name c = RemoteConfigMapName LocalCluster RootCAConfigMapName →
  ap_Name (RemoteConfigMap LocalCluster RemoteCluster opts c) = ap_Name (RemoteConfigMap LocalCluster RemoteCluster opts root).
Proof.
  intros Hr Hc. cbn. rewrite Hr, Hc. pose proof (remote_root_longer LocalCluster) as Hl. unfold RemoteConfigMapName at 1. rewrite bool_decide_false; [done|]. intros E. rewrite E in Hl. lia.
Qed.

(** ** A server *)

(** An application overrides the marks and the contents. *)
Definition replace_merge {D} (o : option (RemoteMeta * D)) (a : ApplyConf D) : RemoteMeta * D :=
  match o with
  | Some (m, _) => (mkRemoteMeta (rm_UID m) (ap_Labels a ∪ rm_Labels m) (ap_Annotations a ∪ rm_Annotations m), ap_Body a)
  | None => (mkRemoteMeta "new" (ap_Labels a) (ap_Annotations a), ap_Body a)
  end.
Lemma replace_serves {D} : serves (@replace_merge D) (=).
Proof. split; [intros [[m b]|] a|intros [[m b]|] a|intros [[m b]|] a|]; try done; apply map_union_subseteq_l. Qed.
Definition example_opts : ForgingOpts := mkForgingOpts [] [] ∅ [] None None.
Definition example_ca : ConfigMap := mkConfigMap RootCAConfigMapName ∅ ∅ {[ "ca.crt"%string := "PEM"%string ]} ∅ None.
Lemma mounted_config_map_arrives_witness : ∃ w' : gmap string (RemoteMeta * ConfigMapBody),
  ConfigMapHandle "cluster-1" "cluster-2" example_opts AllowList (remote_apply replace_merge (fun _ _ => None)) (remote_delete (fun _ _ => None)) RootCAConfigMapName (Some example_ca)
    None ∅ = Ret (w', Ok ()) ∧ ∃ m, w' !! "kube-root-ca.crt.clust"%string = Some (m, mkCmBody {[ "ca.crt"%string := "PEM"%string ]} ∅ None).
Proof.
  destruct (mounted_config_map_arrives "cluster-1" "cluster-2" example_opts AllowList (fun _ => []) APIServerSupportDisabled (None : option (unit → unit * string)) "kube-api-access"
    (mkVolumeProjection (Some (mkCmp RootCAConfigMapName [] None)) None None None) (mkCmp RootCAConfigMapName [] None) tt replace_merge (=) (fun _ _ => None) example_ca ∅
    replace_serves (fun _ _ => eq_refl) eq_refl eq_refl eq_refl) as (x & cm' & w' & [= <-] & [= <-] & _ & H & _ & Hm).
  exists w'. split; [exact H|]. cbn in Hm. destruct Hm as (m & b & Hw & _ & ->). by exists m.
Defined.
