(* ===== verification/VkEngine.v ===== *)
(** * VkEngine: starting, stopping and dispatching the reflection
      (src/pkg/virtualKubelet/reflection/{generic/reflector,manager/manager,namespacemap/namespace}.go,
       .../reflection/workload/pod.go, src/pkg/utils/virtualkubelet)

    The handler of the NamespaceMap tells the manager which namespaces are reflected; the
    manager tells each reflector, and waits for the caches of the namespace in a routine
    of its own.  Workers take items from a queue and hand them to the reflector of their
    namespace, or to the fallback.  The queue of client-go is seen through the calls it
    gets.  Closures share variables: each start of a namespace has a number, by which its
    context and its readiness flag are known. *)

From S2P Require Export NsMap VkForge.
Local Open Scope Z_scope.

Notation nname := (string * string)%type.
Inductive qop := QAdd (k : nname) | QAddAfter (k : nname) (d : Z) | QAddRateLimited (k : nname) | QForget (k : nname) | QDone (k : nname).
(** The reflector of a namespace: the pair it reflects and the start it belongs to. *)
Record NsReflector := mkNsReflector { nr_local : string; nr_remote : string; nr_gen : nat }.
Inductive ConcurrencyMode := ConcurrencyModeLeader | ConcurrencyModeAll.
#[export] Instance ConcurrencyMode_eq_dec : EqDecision ConcurrencyMode.
Proof. solve_decision. Defined.
Record reflector := mkReflector {
  gr_mode : ConcurrencyMode; gr_reflectors : gmap string NsReflector; gr_fallback : bool; gr_grace : Z; gr_queue : list qop
}.
Inductive ReflectorKind := Dummy | Running (r : reflector).

Definition enqueue (r : reflector) (l : list qop) : reflector := mkReflector (gr_mode r) (gr_reflectors r) (gr_fallback r) (gr_grace r) (gr_queue r ++ l).
Definition set_reflectors (r : reflector) (m : gmap string NsReflector) : reflector := mkReflector (gr_mode r) m (gr_fallback r) (gr_grace r) (gr_queue r).

(** ** reflector.go *)

Definition NewReflector (workers : nat) (mode : ConcurrencyMode) : ReflectorKind :=
  if (workers =? 0)%nat then Dummy else Running (mkReflector mode ∅ false 0 []).
(** Whether the factory gives a fallback. *)
Definition Reflector_Start (fallback : bool) (grace : Z) (r : ReflectorKind) : ReflectorKind :=
  match r with Dummy => Dummy | Running r => Running (mkReflector (gr_mode r) (gr_reflectors r) fallback grace (gr_queue r)) end.

Section engine.
(** The items the fallback knows of a namespace. *)
Context (Keys : string → string → list nname).
Definition Reflector_StartNamespace (n : NsReflector) (r : ReflectorKind) : ReflectorKind :=
  match r with
  | Dummy => Dummy
  | Running r =>
    match gr_reflectors r !! nr_local n with
    | Some _ => Running r
    | None => Running (enqueue (set_reflectors r (<[nr_local n := n]> (gr_reflectors r)))
                         (if gr_fallback r then QAdd <$> Keys (nr_local n) (nr_remote n) else []))
    end
  end.
Definition Reflector_StopNamespace (local remote : string) (r : ReflectorKind) : ReflectorKind :=
  match r with
  | Dummy => Dummy
  | Running r =>
    match gr_reflectors r !! local with
    | None => Running r
    | Some _ => Running (enqueue (set_reflectors r (delete local (gr_reflectors r)))
                           (if gr_fallback r then (fun k => QAddAfter k (gr_grace r)) <$> Keys local remote else []))
    end
  end.

(** ** manager.go *)

(** [m_checked]: starts whose routine found its context open after the caches synced. *)
Record manager := mkManager {
  m_reflectors : list ReflectorKind; m_grace : Z; m_started : bool; m_ready : bool; m_stop : gmap string nat; m_next : nat;
  m_cancelled : gset nat; m_checked : gset nat; m_synced : gset nat
}.
Definition manager_New : manager := mkManager [] 0 false false ∅ 0 ∅ ∅ ∅.
Definition With (r : ReflectorKind) (m : manager) : outcome manager :=
  if m_started m then Panic
  else Ret (mkManager (m_reflectors m ++ [r]) (m_grace m) (m_started m) (m_ready m) (m_stop m) (m_next m) (m_cancelled m) (m_checked m) (m_synced m)).
Definition WithFallbackGracePeriod (d : Z) (m : manager) : outcome manager :=
  if m_started m then Panic
  else Ret (mkManager (m_reflectors m) d (m_started m) (m_ready m) (m_stop m) (m_next m) (m_cancelled m) (m_checked m) (m_synced m)).
(** [Start] up to the handler of namespaces, and after it returned without an error. *)
Definition start_begin (fallbacks : list bool) (m : manager) : outcome manager :=
  if m_started m then Panic
  else Ret (mkManager (zip_with (fun f => Reflector_Start f (m_grace m)) fallbacks (m_reflectors m)) (m_grace m) true (m_ready m) (m_stop m) (m_next m)
              (m_cancelled m) (m_checked m) (m_synced m)).
Definition start_end (m : manager) : manager :=
  mkManager (m_reflectors m) (m_grace m) (m_started m) true (m_stop m) (m_next m) (m_cancelled m) (m_checked m) (m_synced m).
Definition manager_Start (fallbacks : list bool) (handler : option (manager → outcome (manager * bool))) (m : manager) : outcome (manager * bool) :=
  m ← start_begin fallbacks m;
  '(m, ok) ← match handler with Some h => h m | None => Ret (m, true) end;
  Ret (if (ok : bool) then start_end m else m, ok).
Definition StartNamespace (local remote : string) (m : manager) : outcome manager :=
  if negb (m_started m) then Panic
  else match m_stop m !! local with
       | Some _ => Ret m
       | None =>
         Ret (mkManager (Reflector_StartNamespace (mkNsReflector local remote (m_next m)) <$> m_reflectors m) (m_grace m) (m_started m) (m_ready m)
                (<[local := m_next m]> (m_stop m)) (S (m_next m)) (m_cancelled m) (m_checked m) (m_synced m))
       end.
Definition StopNamespace (local remote : string) (m : manager) : outcome manager :=
  match m_stop m !! local with
  | None => Ret m
  | Some g =>
    Ret (mkManager (Reflector_StopNamespace local remote <$> m_reflectors m) (m_grace m) (m_started m) (m_ready m)
           (delete local (m_stop m)) (m_next m) ({[ g ]} ∪ m_cancelled m) (m_checked m) (m_synced m))
  end.
(** The routine of a start, after the caches synced: it looks at its context, then sets
    the flag. *)
Definition init_check (g : nat) (m : manager) : manager :=
  if bool_decide (g ∈ m_cancelled m) then m
  else mkManager (m_reflectors m) (m_grace m) (m_started m) (m_ready m) (m_stop m) (m_next m) (m_cancelled m) ({[ g ]} ∪ m_checked m) (m_synced m).
Definition init_set (g : nat) (m : manager) : manager :=
  if bool_decide (g ∈ m_checked m)
  then mkManager (m_reflectors m) (m_grace m) (m_started m) (m_ready m) (m_stop m) (m_next m) (m_cancelled m) (m_checked m) ({[ g ]} ∪ m_synced m)
  else m.

Definition set_reflector (i : nat) (r : reflector) (m : manager) : manager :=
  mkManager (<[i := Running r]> (m_reflectors m)) (m_grace m) (m_started m) (m_ready m) (m_stop m) (m_next m) (m_cancelled m) (m_checked m) (m_synced m).

(** ** Dispatching *)

Inductive herr := EnqueueAfter (d : Z) | HandleError.
Inductive target := Ignored | NotReady | ToFallback | ToNamespace (n : NsReflector).
Definition dispatch (m : manager) (r : reflector) (namespace : string) : target :=
  match gr_reflectors r !! namespace with
  | None => if negb (gr_fallback r) then Ignored else if negb (m_ready m) then NotReady else ToFallback
  | Some n => if bool_decide (nr_gen n ∈ m_synced m) then ToNamespace n else NotReady
  end.
Section work.
Context {W : Type} (ns_handle : NsReflector → string → W → W * option herr) (fb_handle : nname → W → W * option herr).
Definition handle (m : manager) (r : reflector) (key : nname) (w : W) : W * option herr :=
  match dispatch m r key.1 with
  | Ignored => (w, None)
  | NotReady => (w, Some HandleError)
  | ToFallback => fb_handle key w
  | ToNamespace n => ns_handle n key.2 w
  end.
(** [got] is what the queue gives, nothing once it is shut down. *)
Definition processNextWorkItem (isLeader : bool) (m : manager) (r : reflector) (got : option nname) (w : W) : W * reflector * bool :=
  match got with
  | None => (w, r, false)
  | Some key =>
    if bool_decide (gr_mode r = ConcurrencyModeLeader) && negb isLeader then (w, enqueue r [QDone key], true)
    else
      let '(w, e) := handle m r key w in
      (w, enqueue r [match e with Some (EnqueueAfter d) => QAddAfter key d | Some HandleError => QAddRateLimited key | None => QForget key end; QDone key], true)
  end.
End work.

(** Events of informers: a deletion that was missed comes in a tombstone. *)
Inductive event_type := Added | Modified | Deleted.
Inductive ev_obj (O : Type) := EvObj (o : O) | EvTombstone (o : ev_obj O) | EvOther.
#[global] Arguments EvObj {O}.
#[global] Arguments EvTombstone {O}.
#[global] Arguments EvOther {O}.
Definition event_handler {O} (keyer : O → list nname) (filters : list (event_type → bool)) (ev : event_type) (obj : ev_obj O) (r : reflector) : reflector :=
  match (match ev, obj with Deleted, EvTombstone o => o | _, o => o end) with
  | EvObj o => if existsb (fun f => f ev) filters then r else enqueue r (QAdd <$> keyer o)
  | _ => r
  end.
Definition BasicKeyer (o : nname) : list nname := [o].
Definition NamespacedKeyer (namespace : string) (o : nname) : list nname := [(namespace, o.2)].

(** [List]: the names of what is cached, each with its own namespace. *)
Fixpoint list_names (listers : list (result kerr (list nname))) : result kerr (list nname) :=
  match listers with
  | [] => Ok []
  | Err e :: _ => Err e
  | Ok l :: rest => match list_names rest with Ok k => Ok (l ++ k) | Err e => Err e end
  end.
(** [Resync]; the namespaces in the order they are visited. *)
Fixpoint resync_namespaces (lister : NsReflector → result kerr (list nname)) (order : list NsReflector) (r : reflector) : reflector * result kerr () :=
  match order with
  | [] => (r, Ok ())
  | n :: order => match lister n with Err e => (r, Err e) | Ok l => resync_namespaces lister order (enqueue r (QAdd <$> l)) end
  end.
Definition Resync (lister : NsReflector → result kerr (list nname)) (fallback : result kerr (list nname)) (order : list NsReflector) (r : reflector) : reflector * result kerr () :=
  match gr_mode r with
  | ConcurrencyModeAll => (r, Ok ())
  | ConcurrencyModeLeader =>
    let '(r, e) := resync_namespaces lister order r in
    match e with
    | Err e => (r, Err e)
    | Ok _ => if negb (gr_fallback r) then (r, Ok ()) else match fallback with Err e => (r, Err e) | Ok l => (enqueue r (QAdd <$> l), Ok ()) end
    end
  end.

(** ** namespace.go *)

Inductive nscall := CStart (local remote : string) | CStop (local remote : string).
Definition run_call (c : nscall) (m : manager) : outcome manager :=
  match c with CStart l r => StartNamespace l r m | CStop l r => StopNamespace l r m end.
Definition accepted (s : RemoteNamespaceStatus) : bool := bool_decide (Phase s = MappingAccepted).
Definition startNamespace (e : string * RemoteNamespaceStatus) : list nscall := if accepted e.2 then [CStart e.1 (RemoteNamespace e.2)] else [].
Definition stopNamespace (e : string * RemoteNamespaceStatus) : list nscall := if accepted e.2 then [CStop e.1 (RemoteNamespace e.2)] else [].
(** The order in which Go walks the mapping. *)
Context (range : gmap string RemoteNamespaceStatus → list (string * RemoteNamespaceStatus)).
Definition onAddNamespaceMap (nm : gmap string RemoteNamespaceStatus) : list nscall := range nm ≫= startNamespace.
(** The object is asserted to be a NamespaceMap. *)
Definition onDeleteNamespaceMap (obj : ev_obj (gmap string RemoteNamespaceStatus)) : outcome (list nscall) :=
  match obj with EvObj nm => Ret (range nm ≫= stopNamespace) | _ => Panic end.
Definition was_accepted (m : gmap string RemoteNamespaceStatus) (local : string) : bool := match m !! local with Some s => accepted s | None => false end.
Definition onUpdateNamespaceMap (old new : gmap string RemoteNamespaceStatus) : list nscall :=
  (range old ≫= fun e => if was_accepted new e.1 then [] else stopNamespace e) ++ (range new ≫= fun e => if was_accepted old e.1 then [] else startNamespace e).
Definition checkNamespaceMapUniqueness (maps : nat) : bool := (maps <=? 1)%nat.
Definition IsNamespaceMapped (maps : result kerr (list NamespaceMap)) (namespace : string) : result kerr bool :=
  match maps with
  | Err e => Err e
  | Ok [nm] => if nm_Deleting nm then Err OtherErr else Ok (was_accepted (CurrentMapping nm) namespace)
  | Ok _ => Err OtherErr
  end.
End engine.

(** ** The fallback of pods (workload/pod.go) *)

Definition PodPending : string := "Pending".
Definition PodOffloadingBackOffReason : string := "OffloadingBackOff".
Definition PodOffloadingAbortedReason : string := "OffloadingAborted".
Section fallback.
Context {W : Type} (delete_pod : nname → string → K W ()) (update_pod_status : nname → Pod → PodStatus → K W ()).
(** [mapped]: what the handler of namespaces says, if it can be asked. *)
Definition FallbackHandle (now : nat → Z) (mapped : option (string → result kerr bool)) (key : nname) (local : option Pod) : K W () :=
  match local with
  | None => mret ()
  | Some p =>
    if p_Deleting p then r ← attempt (delete_pod key (p_UID p)); match r with Ok _ | Err NotFound => mret () | Err e => fail e end
    else if bool_decide (st_Phase (p_Status p) = PodSucceeded) then mret ()
    else if bool_decide (st_Phase (p_Status p) = PodFailed) then mret ()
    else
      keep ← match mapped with
             | None => mret false
             | Some f => match f key.1 with Ok b => mret b | Err e => fail e end
             end;
      if (keep : bool) then mret ()
      else
        let running := negb (bool_decide (st_Phase (p_Status p) = PodPending)) || negb (bool_decide (st_ContainerStatuses (p_Status p) = [])) in
        update_pod_status key p
          (if running then LocalRejectedPodStatus now (p_Status p) PodFailed PodOffloadingAbortedReason
           else LocalRejectedPodStatus now (p_Status p) PodPending PodOffloadingBackOffReason)
  end.
End fallback.

(** ** What the manager does, as steps *)

Section steps.
Context (Keys : string → string → list nname) (range : gmap string RemoteNamespaceStatus → list (string * RemoteNamespaceStatus)).
Hypothesis range_perm : ∀ nm, range nm ≡ₚ map_to_list nm.
Notation mapping := (gmap string RemoteNamespaceStatus).

Fixpoint run_calls (l : list nscall) (m : manager) : outcome manager :=
  match l with [] => Ret m | c :: l => m ← run_call Keys c m; run_calls l m end.

(** How a manager comes to be. *)
Inductive configured : manager → Prop :=
| configured_new : configured manager_New
| configured_with m workers mode m' : configured m → With (NewReflector workers mode) m = Ret m' → configured m'
| configured_grace m d m' : configured m → WithFallbackGracePeriod d m = Ret m' → configured m'.

(** While an accepted namespace stays accepted it keeps its remote name. *)
Definition names_kept (old new : mapping) : Prop := ∀ local s s', old !! local = Some s → new !! local = Some s' →
  Phase s = MappingAccepted → Phase s' = MappingAccepted → RemoteNamespace s' = RemoteNamespace s.

(** The manager and the NamespaceMap it was last told of.  The handlers of the informer
    run one after the other; the routines of the namespaces, the workers and the handlers
    of other informers run at any time in between. *)
Inductive estep : manager * option mapping → manager * option mapping → Prop :=
| step_added nm m m' : run_calls (onAddNamespaceMap range nm) m = Ret m' → estep (m, None) (m', Some nm)
| step_updated old new m m' : names_kept old new → run_calls (onUpdateNamespaceMap range old new) m = Ret m' → estep (m, Some old) (m', Some new)
| step_deleted nm l m m' : onDeleteNamespaceMap range (EvObj nm) = Ret l → run_calls l m = Ret m' → estep (m, Some nm) (m', None)
| step_started m cur : estep (m, cur) (start_end m, cur)
| step_check g m cur : (g < m_next m)%nat → estep (m, cur) (init_check g m, cur)
| step_set g m cur : estep (m, cur) (init_set g m, cur)
| step_worker {W} (ns_handle : NsReflector → string → W → W * option herr) fb_handle isLeader i r got (w w' : W) r' b m cur :
    m_reflectors m !! i = Some (Running r) → processNextWorkItem ns_handle fb_handle isLeader m r got w = (w', r', b) →
    estep (m, cur) (set_reflector i r' m, cur)
| step_event {O} (keyer : O → list nname) filters ev obj i r m cur :
    m_reflectors m !! i = Some (Running r) → estep (m, cur) (set_reflector i (event_handler keyer filters ev obj r) m, cur)
| step_resync lister fallback order i r m cur :
    m_reflectors m !! i = Some (Running r) → estep (m, cur) (set_reflector i (Resync lister fallback order r).1 m, cur).

(** *** The namespaces that are reflected *)

(** The accepted namespaces of a map, with their remote names. *)
Definition active (cur : option mapping) : gmap string string :=
  match cur with Some nm => omap (fun s => if accepted s then Some (RemoteNamespace s) else None) nm | None => ∅ end.
Record inv (m : manager) (R : gmap string string) : Prop := {
  iv_started : m_started m = true;
  iv_stop local : is_Some (m_stop m !! local) ↔ is_Some (R !! local);
  iv_live local g : m_stop m !! local = Some g → (g < m_next m)%nat ∧ g ∉ m_cancelled m;
  iv_distinct local local' g : m_stop m !! local = Some g → m_stop m !! local' = Some g → local = local';
  iv_old g : g ∈ m_cancelled m ∪ m_checked m ∪ m_synced m → (g < m_next m)%nat;
  iv_reflectors r local n : Running r ∈ m_reflectors m → gr_reflectors r !! local = Some n ↔
    ∃ remote g, R !! local = Some remote ∧ m_stop m !! local = Some g ∧ n = mkNsReflector local remote g
}.

Definition acall (c : nscall) (R : gmap string string) : gmap string string :=
  match c with
  | CStart l r => match R !! l with Some _ => R | None => <[l := r]> R end
  | CStop l _ => delete l R
  end.
Lemma start_inv local remote m R : inv m R → ∃ m', StartNamespace Keys local remote m = Ret m' ∧ inv m' (acall (CStart local remote) R).
Proof.
  intros [Hs Hst Hl Hd Ho Hr]. unfold StartNamespace. rewrite Hs. cbn [negb acall]. pose proof (Hst local) as Hloc.
  destruct (m_stop m !! local) as [g|] eqn:Eg.
  { destruct Hloc as [[x ->] _]; [by eexists|]. exists m. done. }
  destruct (R !! local) as [x|] eqn:Ex; [destruct Hloc as [_ [? [=]]]; by eexists|]. eexists. split; [reflexivity|].
  split; cbn [m_started m_stop m_next m_cancelled m_checked m_synced m_reflectors].
  - done.
  - intros l. destruct (decide (l = local)) as [->|Hne]; [rewrite !lookup_insert_eq; split; by eexists|by rewrite !lookup_insert_ne].
  - intros l g [[<- <-]|[_ Hg]]%lookup_insert_Some; [|destruct (Hl l g Hg); split; [lia|done]].
    split; [lia|]. intros Hc. specialize (Ho (m_next m)). set_solver by lia.
  - intros l l' g [[<- <-]|[Hn Hg]]%lookup_insert_Some [[<- E]|[Hn' Hg']]%lookup_insert_Some; [done| | |by eapply Hd].
    + destruct (Hl _ _ Hg'). lia.
    + subst g. destruct (Hl _ _ Hg). lia.
  - intros g Hg. specialize (Ho g Hg). lia.
  - intros r l n [r0 [E Hin]]%list_elem_of_fmap. destruct r0 as [|r0]; [done|]. cbn in E. pose proof (Hr r0 l n Hin) as Hr0. pose proof (Hr r0 local) as Hr1.
    assert (Hnone : gr_reflectors r0 !! local = None).
    { destruct (gr_reflectors r0 !! local) as [n0|] eqn:E0; [|done]. destruct (proj1 (Hr1 n0 Hin) eq_refl) as (? & ? & Hx & _). congruence. }
    rewrite Hnone in E. injection E as ->. cbn. destruct (decide (l = local)) as [->|Hne].
    + rewrite !lookup_insert_eq. split; [intros [= <-]; by eexists _, _|intros (? & ? & [= <-] & [= <-] & ->); done].
    + rewrite !lookup_insert_ne by done. exact Hr0.
Qed.
Lemma stop_inv local remote m R : inv m R → ∃ m', StopNamespace Keys local remote m = Ret m' ∧ inv m' (acall (CStop local remote) R).
Proof.
  intros [Hs Hst Hl Hd Ho Hr]. unfold StopNamespace. cbn [acall]. pose proof (Hst local) as Hloc. destruct (m_stop m !! local) as [g|] eqn:Eg.
  2: { assert (R !! local = None) as Hn by (destruct (R !! local); [destruct Hloc as [_ [? [=]]]; by eexists|done]). exists m. split; [done|]. by rewrite delete_id. }
  eexists. split; [reflexivity|]. split; cbn [m_started m_stop m_next m_cancelled m_checked m_synced m_reflectors].
  - done.
  - intros l. destruct (decide (l = local)) as [->|Hne]; [by rewrite !lookup_delete_eq|by rewrite !lookup_delete_ne].
  - intros l g' [Hne Hg']%lookup_delete_Some. destruct (Hl l g' Hg') as [Hlt Hc]. split; [done|]. rewrite elem_of_union, elem_of_singleton.
    intros [->|?]; [|done]. apply Hne. by eapply Hd.
  - intros l l' g' [_ H1]%lookup_delete_Some [_ H2]%lookup_delete_Some. by eapply Hd.
  - intros g' Hg'. destruct (decide (g' = g)) as [->|Hne]; [by apply (Hl local)|]. apply Ho. set_solver.
  - intros r l n [r0 [E Hin]]%list_elem_of_fmap. destruct r0 as [|r0]; [done|]. cbn in E. pose proof (Hr r0 l n Hin) as Hr0.
    destruct Hloc as [[x Hx] _]; [by eexists|]. assert (Hsome : gr_reflectors r0 !! local = Some (mkNsReflector local x g)) by (apply Hr; [done|]; by exists x, g).
    rewrite Hsome in E. injection E as ->. cbn. destruct (decide (l = local)) as [->|Hne].
    + rewrite !lookup_delete_eq. split; [done|by intros (? & ? & ? & _)].
    + rewrite !lookup_delete_ne by done. exact Hr0.
Qed.
Lemma calls_inv l : ∀ m R, inv m R → ∃ m', run_calls l m = Ret m' ∧ inv m' (fold_left (fun R c => acall c R) l R).
Proof.
  induction l as [|c l IH]; intros m R H; [by exists m|]. cbn [run_calls fold_left].
  assert (∃ m', run_call Keys c m = Ret m' ∧ inv m' (acall c R)) as (m1 & -> & H1) by (destruct c; [by apply start_inv|by apply stop_inv]).
  by apply IH.
Qed.

(** What the loops of the handlers come to. *)
Lemma starts_lookup (skip : string → bool) L R k : NoDup L.*1 →
  fold_left (fun R c => acall c R) (L ≫= fun e => if skip e.1 then [] else startNamespace e) R !! k =
  match R !! k with
  | Some x => Some x
  | None => if skip k then None else s ← (list_to_map L : mapping) !! k; if accepted s then Some (RemoteNamespace s) else None
  end.
Proof.
  revert R. induction L as [|[l s] L IH]; intros R; [intros _; cbn; rewrite lookup_empty; by destruct (R !! k), (skip k)|]. intros [Hn Hd]%NoDup_cons.
  rewrite bind_cons, fold_left_app, IH by done. cbn [fst list_to_map foldr curry]. unfold startNamespace. cbn [fst snd].
  destruct (decide (l = k)) as [->|Hne].
  - rewrite lookup_insert_eq. cbn. assert (Hnone : (list_to_map L : mapping) !! k = None) by (by apply not_elem_of_list_to_map_1). rewrite Hnone. cbn.
    destruct (skip k); [cbn; by destruct (R !! k)|]. destruct (accepted s); cbn; [|by destruct (R !! k)]. destruct (R !! k) as [x|] eqn:E; [by rewrite E|by rewrite lookup_insert_eq].
  - rewrite lookup_insert_ne by done. assert (Hk : fold_left (fun R c => acall c R) (if skip l then [] else if accepted s then [CStart l (RemoteNamespace s)] else []) R !! k = R !! k).
    { destruct (skip l); [done|]. destruct (accepted s); [|done]. cbn. destruct (R !! l); [done|by rewrite lookup_insert_ne]. }
    by rewrite Hk.
Qed.
Lemma stops_lookup (skip : string → bool) L R k : NoDup L.*1 →
  fold_left (fun R c => acall c R) (L ≫= fun e => if skip e.1 then [] else stopNamespace e) R !! k =
  if skip k then R !! k else match (list_to_map L : mapping) !! k with Some s => if accepted s then None else R !! k | None => R !! k end.
Proof.
  revert R. induction L as [|[l s] L IH]; intros R; [intros _; cbn; rewrite lookup_empty; by destruct (skip k)|]. intros [Hn Hd]%NoDup_cons.
  rewrite bind_cons, fold_left_app, IH by done. cbn [fst list_to_map foldr curry]. unfold stopNamespace. cbn [fst snd].
  destruct (decide (l = k)) as [->|Hne].
  - rewrite lookup_insert_eq. assert (Hnone : (list_to_map L : mapping) !! k = None) by (by apply not_elem_of_list_to_map_1). rewrite Hnone.
    destruct (skip k); [done|]. destruct (accepted s); cbn; [by rewrite lookup_delete_eq|done].
  - rewrite lookup_insert_ne by done. assert (Hk : fold_left (fun R c => acall c R) (if skip l then [] else if accepted s then [CStop l (RemoteNamespace s)] else []) R !! k = R !! k).
    { destruct (skip l); [done|]. destruct (accepted s); [|done]. cbn. by rewrite lookup_delete_ne. }
    by rewrite Hk.
Qed.
Lemma ordered_keys nm : NoDup (range nm).*1.
Proof. rewrite range_perm. apply NoDup_fst_map_to_list. Qed.
Lemma range_map nm : (list_to_map (range nm) : mapping) = nm.
Proof. rewrite (list_to_map_proper _ _ (ordered_keys nm) (range_perm nm)). apply list_to_map_to_list. Qed.
Lemma active_lookup nm k : active (Some nm) !! k = s ← nm !! k; if accepted s then Some (RemoteNamespace s) else None.
Proof. cbn. apply lookup_omap. Qed.
Lemma added_active nm : fold_left (fun R c => acall c R) (onAddNamespaceMap range nm) ∅ = active (Some nm).
Proof. apply map_eq. intros k. rewrite active_lookup. etrans; [apply (starts_lookup (fun _ => false) _ ∅ k (ordered_keys nm))|]. by rewrite lookup_empty, range_map. Qed.
Lemma deleted_active nm : fold_left (fun R c => acall c R) (range nm ≫= stopNamespace) (active (Some nm)) = ∅.
Proof.
  apply map_eq. intros k. rewrite lookup_empty. etrans; [apply (stops_lookup (fun _ => false) _ _ k (ordered_keys nm))|]. cbn beta iota. rewrite range_map, active_lookup.
  destruct (nm !! k) as [s|]; cbn; [|done]. by destruct (accepted s).
Qed.
Lemma updated_active old new : names_kept old new →
  fold_left (fun R c => acall c R) (onUpdateNamespaceMap range old new) (active (Some old)) = active (Some new).
Proof.
  intros Hk. apply map_eq. intros k. unfold onUpdateNamespaceMap. rewrite fold_left_app.
  rewrite (starts_lookup (was_accepted old)), (stops_lookup (was_accepted new)) by apply ordered_keys. rewrite !range_map, !active_lookup. unfold was_accepted.
  specialize (Hk k). destruct (old !! k) as [s|], (new !! k) as [s'|]; cbn; try done; [| |by destruct (accepted s')].
  - destruct (accepted s') eqn:E', (accepted s) eqn:E; cbn; try done. unfold accepted in *. rewrite bool_decide_eq_true in E, E'. f_equal. symmetry. by eapply Hk.
  - by destruct (accepted s) eqn:E; cbn.
Qed.

Lemma set_reflector_inv i r r' m R : m_reflectors m !! i = Some (Running r) → gr_reflectors r' = gr_reflectors r → inv m R → inv (set_reflector i r' m) R.
Proof.
  intros Hi Hg [Hs Hst Hl Hd Ho Hr]. split; try done. cbn. intros r0 local n Hin. apply list_elem_of_lookup in Hin as (j & Hj).
  destruct (decide (i = j)) as [<-|Hne].
  - rewrite list_lookup_insert_eq in Hj by (by eapply lookup_lt_Some). injection Hj as <-. rewrite Hg. apply Hr. by eapply list_elem_of_lookup_2.
  - rewrite list_lookup_insert_ne in Hj by done. apply Hr. by eapply list_elem_of_lookup_2.
Qed.
Lemma worker_reflectors {W} (ns_handle : NsReflector → string → W → W * option herr) fb_handle isLeader m r got (w w' : W) r' b :
  processNextWorkItem ns_handle fb_handle isLeader m r got w = (w', r', b) → gr_reflectors r' = gr_reflectors r.
Proof.
  unfold processNextWorkItem. destruct got as [key|]; [|by intros [= _ <- _]]. destruct (_ && _); [by intros [= _ <- _]|].
  destruct (handle _ _ _ _ _ _) as [w1 e]. by intros [= _ <- _].
Qed.
Lemma resync_reflectors lister fallback order r : gr_reflectors (Resync lister fallback order r).1 = gr_reflectors r.
Proof.
  assert (Hn : ∀ l r0, gr_reflectors (resync_namespaces lister l r0).1 = gr_reflectors r0).
  { induction l as [|n l IH]; intros r0; [done|]. cbn. destruct (lister n); [by rewrite IH|done]. }
  unfold Resync. destruct (gr_mode r); [|done]. specialize (Hn order r). destruct (resync_namespaces lister order r) as [r1 [[]|e]]; [|done]. cbn in Hn.
  destruct (gr_fallback r1); [|done]. cbn. by destruct fallback.
Qed.
Lemma estep_inv m cur m' cur' : estep (m, cur) (m', cur') → inv m (active cur) → inv m' (active cur').
Proof.
  inversion 1; subst; intros Hi.
  - destruct (calls_inv (onAddNamespaceMap range nm) m ∅ Hi) as (m1 & Ecalls & Hfin). rewrite added_active in Hfin. assert (m1 = m') as <- by congruence. exact Hfin.
  - destruct (calls_inv (onUpdateNamespaceMap range old new) m _ Hi) as (m1 & Ecalls & Hfin). rewrite updated_active in Hfin by done. assert (m1 = m') as <- by congruence. exact Hfin.
  - match goal with H : onDeleteNamespaceMap _ _ = _ |- _ => injection H as <- end.
    destruct (calls_inv (range nm ≫= stopNamespace) m _ Hi) as (m1 & Ecalls & Hfin). rewrite deleted_active in Hfin. assert (m1 = m') as <- by congruence. exact Hfin.
  - by destruct Hi.
  - unfold init_check. case_bool_decide; [done|]. destruct Hi as [Hs Hst Hl Hd Ho Hr]. split; try done. cbn. intros g' Hg'.
    destruct (decide (g' = g)) as [->|]; [done|]. apply Ho. set_solver.
  - unfold init_set. case_bool_decide; [|done]. destruct Hi as [Hs Hst Hl Hd Ho Hr]. split; try done. cbn. intros g' Hg'. apply Ho. set_solver.
  - eapply set_reflector_inv; [done| |done]. by eapply worker_reflectors.
  - eapply set_reflector_inv; [done| |done]. unfold event_handler. by repeat case_match.
  - eapply set_reflector_inv; [done| |done]. apply resync_reflectors.
Qed.

Lemma configured_idle m : configured m → m_started m = false ∧ m_stop m = ∅ ∧ m_cancelled m = ∅ ∧ m_checked m = ∅ ∧ m_synced m = ∅ ∧
  ∀ r, Running r ∈ m_reflectors m → gr_reflectors r = ∅.
Proof.
  induction 1 as [|m workers mode m' _ IH E|m d m' _ IH E].
  - do 5 (split; [done|]). by intros r ?%elem_of_nil.
  - destruct IH as (H1 & H2 & H3 & H4 & H5 & H6). unfold With in E. rewrite H1 in E. injection E as <-. do 5 (split; [done|]). cbn.
    intros r [Hr|Hr%list_elem_of_singleton]%elem_of_app; [by apply H6|]. unfold NewReflector in Hr. destruct (workers =? 0)%nat; [done|by injection Hr as ->].
  - destruct IH as (H1 & H2 & H3 & H4 & H5 & H6). unfold WithFallbackGracePeriod in E. rewrite H1 in E. by injection E as <-.
Qed.
Lemma begin_inv fallbacks m0 m1 : configured m0 → start_begin fallbacks m0 = Ret m1 → inv m1 ∅.
Proof.
  intros (H1 & H2 & H3 & H4 & H5 & H6)%configured_idle E. unfold start_begin in E. rewrite H1 in E. injection E as <-.
  split; cbn [m_started m_stop m_next m_cancelled m_checked m_synced m_reflectors]; rewrite ?H2, ?H3, ?H4, ?H5.
  - done.
  - intros local. by rewrite !lookup_empty.
  - by intros local g.
  - by intros local local' g.
  - intros g. set_solver.
  - intros r local n (i & f & r0 & E & _ & Hin%list_elem_of_lookup_2)%elem_of_lookup_zip_with_1. destruct r0 as [|r0]; [done|]. injection E as ->. cbn. rewrite (H6 r0 Hin), !lookup_empty.
    split; [done|by intros (? & ? & ? & _)].
Qed.
Lemma reached_inv m1 m cur : inv m1 ∅ → rtc estep (m1, None) (m, cur) → inv m (active cur).
Proof.
  intros H1 Hr. remember (m1, None) as x eqn:Ex. remember (m, cur) as y eqn:Ey. assert (Hx : inv x.1 (active x.2)) by (by rewrite Ex). clear Ex H1.
  revert m cur Ey. induction Hr as [x|[a b] [c d] z Hs Hr IH]; intros m cur ->; [done|]. apply IH; [|done]. by eapply estep_inv.
Qed.
Lemma active_accepted cur local remote : active cur !! local = Some remote ↔
  ∃ nm s, cur = Some nm ∧ nm !! local = Some s ∧ Phase s = MappingAccepted ∧ RemoteNamespace s = remote.
Proof.
  destruct cur as [nm|]; [|by split; [|intros (? & ? & ? & _)]]. rewrite active_lookup. split.
  - destruct (nm !! local) as [s|] eqn:E; cbn; [|done]. destruct (accepted s) eqn:Ea; [|done]. intros [= <-]. exists nm, s. by apply bool_decide_eq_true in Ea.
  - intros (nm' & s & [= <-] & E & Ha & <-). rewrite E. cbn. unfold accepted. by rewrite bool_decide_eq_true_2.
Qed.

(** C19: Starting from any configuration of the manager, with one NamespaceMap, whose deletion
    the informer does not miss and in which a namespace keeps its remote name while it is
    accepted: after any of its events, with routines, workers and other events in between,
    every reflector reflects exactly the accepted namespaces of
    the last map, each to its remote name; the handlers of the next event return.  An item
    of an accepted namespace is retried until the routine of the present start of the
    namespace has found the caches synced, which it may, and then given to the reflector of
    that start; an item of any other namespace goes to the fallback, if there is one, once
    the manager has started, and is never given to a reflector. *)
Theorem reflection_follows_map fallbacks m0 m1 m cur r : configured m0 → start_begin fallbacks m0 = Ret m1 → rtc estep (m1, None) (m, cur) →
  Running r ∈ m_reflectors m →
  (∀ local remote, (∃ g, gr_reflectors r !! local = Some (mkNsReflector local remote g)) ↔
     ∃ nm s, cur = Some nm ∧ nm !! local = Some s ∧ Phase s = MappingAccepted ∧ RemoteNamespace s = remote) ∧
  (∀ l, ∃ m', run_calls l m = Ret m') ∧
  ∀ W (ns_handle : NsReflector → string → W → W * option herr) fb_handle key w,
    (∀ nm s, cur = Some nm → nm !! key.1 = Some s → Phase s = MappingAccepted → ∃ g, g ∉ m_cancelled m ∧
       handle ns_handle fb_handle m r key w =
         (if bool_decide (g ∈ m_synced m) then ns_handle (mkNsReflector key.1 (RemoteNamespace s) g) key.2 w else (w, Some HandleError)) ∧
       handle ns_handle fb_handle (init_set g (init_check g m)) r key w = ns_handle (mkNsReflector key.1 (RemoteNamespace s) g) key.2 w) ∧
    ((∀ nm s, cur = Some nm → nm !! key.1 = Some s → Phase s ≠ MappingAccepted) →
       handle ns_handle fb_handle m r key w =
         if gr_fallback r then if m_ready m then fb_handle key w else (w, Some HandleError) else (w, None)).
Proof.
  intros Hc Hb Hs Hin. pose proof (reached_inv _ _ _ (begin_inv _ _ _ Hc Hb) Hs) as Hi. pose proof Hi as [_ Hst Hl _ _ Hr]. split; [|split].
  - intros local remote. rewrite <- active_accepted. split.
    + intros (g & Hg). apply Hr in Hg as (x & g' & Hx & _ & [= -> ->]); done.
    + intros Hx. destruct (proj2 (Hst local) (ex_intro _ _ Hx)) as (g & Hg). exists g. apply Hr; [done|]. by exists remote, g.
  - intros l. destruct (calls_inv l m _ Hi) as (m' & E & _). by exists m'.
  - intros W ns_handle fb_handle key w. split.
    + intros nm s -> E Hp. assert (Ha : active (Some nm) !! key.1 = Some (RemoteNamespace s)) by (apply active_accepted; by exists nm, s).
      destruct (proj2 (Hst key.1) (ex_intro _ _ Ha)) as (g & Hg). exists g. split; [by apply (Hl key.1)|].
      assert (Hn : gr_reflectors r !! key.1 = Some (mkNsReflector key.1 (RemoteNamespace s) g)) by (apply Hr; [done|]; by eexists _, g).
      unfold handle, dispatch. rewrite Hn. cbn [nr_gen]. split; [by case_bool_decide|].
      destruct (Hl key.1 g Hg) as [_ Hcan]. unfold init_check. rewrite (bool_decide_eq_false_2 _ Hcan). unfold init_set. cbn [m_checked m_synced m_reflectors]. rewrite (bool_decide_eq_true_2 (g ∈ {[g]} ∪ m_checked m)) by set_solver. cbn [m_synced]. by rewrite (bool_decide_eq_true_2 (g ∈ {[g]} ∪ m_synced m)) by set_solver.
    + intros Hno. assert (Hn : gr_reflectors r !! key.1 = None).
      { destruct (gr_reflectors r !! key.1) as [n|] eqn:En; [|done]. apply Hr in En as (x & g & Hx & _); [|done].
        apply active_accepted in Hx as (nm & s & Hcur & E & Hp & _). by destruct (Hno nm s Hcur E). }
      unfold handle, dispatch. rewrite Hn. by destruct (gr_fallback r), (m_ready m).
Qed.

(** A remote name that changes while the namespace is accepted reaches no reflector: the
    handler of the update makes no call for the namespace. *)
Definition about (c : nscall) : string := match c with CStart l _ | CStop l _ => l end.
Theorem renamed_namespace_unnoticed old new local c : was_accepted old local = true → was_accepted new local = true →
  c ∈ onUpdateNamespaceMap range old new → about c ≠ local.
Proof.
  intros Ho Hn [(e & Hc & _)%list_elem_of_bind|(e & Hc & _)%list_elem_of_bind]%elem_of_app <-.
  - destruct (was_accepted new e.1) eqn:E; [by apply elem_of_nil in Hc|]. unfold stopNamespace in Hc. destruct (accepted e.2); [|by apply elem_of_nil in Hc].
    apply list_elem_of_singleton in Hc as ->. cbn in Hn. congruence.
  - destruct (was_accepted old e.1) eqn:E; [by apply elem_of_nil in Hc|]. unfold startNamespace in Hc. destruct (accepted e.2); [|by apply elem_of_nil in Hc].
    apply list_elem_of_singleton in Hc as ->. cbn in Ho. congruence.
Qed.
(** A deletion of the map that was missed comes in a tombstone, and the handler panics. *)
Theorem missed_deletion_panics o : onDeleteNamespaceMap range (EvTombstone o) = Panic.
Proof. done. Qed.
End steps.

(** The fallback writes the status of a pod only when it is told that the namespace is not
    mapped, or there is nobody to ask; when it cannot know it retries. *)
Theorem fallback_spares_mapped {W} delete_pod update_pod_status now f key p (w : W) : p_Deleting p = false →
  f key.1 ≠ Ok false → fst <$> (match FallbackHandle delete_pod update_pod_status now (Some f) key (Some p) w with Ret x => Some x | _ => None end) = Some w.
Proof.
  intros Hd Hf. unfold FallbackHandle. rewrite Hd. case_bool_decide; [done|]. case_bool_decide; [done|].
  destruct (f key.1) as [[]|e]; [|done|]; unfold mbind, K_bind; done.
Qed.

(** ** Examples *)

Definition ex_reflectors : manager := mkManager [Running (mkReflector ConcurrencyModeAll ∅ false 0 [])] 0 false false ∅ 0 ∅ ∅ ∅.
Definition ex_map : gmap string RemoteNamespaceStatus := {[ "app"%string := mkRemote "app-rome" MappingAccepted ]}.
Definition ex_begun : manager := match start_begin [true] ex_reflectors with Ret m => m | _ => ex_reflectors end.
Definition ex_added : manager := match run_calls (fun _ _ => []) (onAddNamespaceMap map_to_list ex_map) ex_begun with Ret m => m | _ => ex_begun end.
Definition ex_reflector : reflector := match m_reflectors ex_added with [Running r] => r | _ => mkReflector ConcurrencyModeAll ∅ false 0 [] end.
Lemma reflection_follows_map_witness : ∃ g,
  handle (fun n name (l : list string) => (l ++ [nr_remote n; name], None)) (fun _ l => (l, None)) (init_set g (init_check g ex_added)) ex_reflector ("app", "web")%string []
  = (["app-rome"; "web"]%string, None).
Proof.
  destruct (reflection_follows_map (fun _ _ => []) map_to_list (fun nm => reflexivity _) [true] ex_reflectors ex_begun ex_added (Some ex_map) ex_reflector) as (_ & _ & H).
  - apply (configured_with manager_New 1 ConcurrencyModeAll); [apply configured_new|reflexivity].
  - reflexivity.
  - apply rtc_once. apply step_added. vm_compute. reflexivity.
  - change (m_reflectors ex_added) with [Running ex_reflector]. left.
  - destruct (H _ (fun n name (l : list string) => (l ++ [nr_remote n; name], None)) (fun _ l => (l, None)) ("app", "web")%string []) as [Ha _].
    destruct (Ha ex_map (mkRemote "app-rome" MappingAccepted) eq_refl ltac:(reflexivity) eq_refl) as (g & _ & _ & Hg). exists g. exact Hg.
Defined.
